(* ===== verification/_CoqProject ===== *)
-Q . S2P
Prelude.v
Routing.v
Lane.v
LaneSystem.v
LaneCounts.v
LaneOrder.v
LaneSeal.v
LaneTasks.v
LaneStop.v
GoRuntime.v
Handles.v
Future.v
EngineBase.v
ChainModel.v
ChainRun.v
ChainHandles.v
Engine.v
EngineFacts.v
AsyncHandle.v
Exclusive.v
ExclusiveFacts.v
ExclusivePromises.v
Optional.v
GoPtr.v
NativeMem.v
ParamValues.v
Retention.v
NativeOrder.v
ModelOrder.v
OrderFacts.v
NativeReport.v
ModelReport.v
ReportFacts.v
ReportValues.v
NativeAdjustment.v
ModelAdjustment.v
AdjustmentFacts.v
CgoHandles.v
Mutations.v
CustomPolicy.v
CallbackFacts.v
CallbackLives.v
PolicyAdapter.v
ClientEngine.v
ClientFacts.v
EngineBuilder.v
BuilderFacts.v
AsyncBuilder.v
Decimals.v
NativeErrors.v
NativeParam.v
NumericTypes.v
NumericFacts.v
ServiceStore.v
ServiceLock.v
MarketData.v
MarketDataFacts.v
MarketReads.v
ReferenceBook.v
NativeObjects.v
Rejects.v
Accounts.v
AccountsFacts.v
Lock.v
LockFacts.v
Outcomes.v
OutcomeFacts.v
NativePolicies.v
Policies.v
PolicyFacts.v
Configure.v
ConfigureFacts.v
EngineCalls.v
EngineCallsFacts.v
Controls.v
ControlFacts.v
Amounts.v
Loader.v
LoaderFacts.v
BuilderVariants.v
