(* ===== verification/Prelude.v ===== *)
(** * pit-go: a verification development

    pit-go is the Go SDK of a pre-trade risk engine. A native library, loaded at run
    time and not part of the repository, keeps the accounts and runs the policies; the
    Go code gives it values, callbacks and threads. This library models the parts of
    src/ in which the Go code itself decides something: which goroutine may do what and
    in which order (asyncengine), who owns native memory and native handles (model,
    param, pretrade, marketdata), what a call of the library becomes in Go (the bindings
    of internal/native and everything over them), and what crosses the C boundary in the
    other direction (callbacks, mutations, client values). This file holds, after this description, the notations,
    automation and generic lemmas that the other files share.

    ** Files and the code they model

    - Asynchronous engine: lanes. [Routing] - routing keys, shard selection
      (asyncengine/strategy.go, sharded.go). [Lane] - one queue and its critical
      sections (strategy.go). [LaneSystem] - the lane with its producers, failure
      handoffs, worker, idle retirement and stop, one label for one critical section or
      channel operation of one goroutine (strategy.go, sharded.go, dynamic.go).
      [LaneCounts], [LaneOrder], [LaneSeal], [LaneTasks], [LaneStop] - what holds in
      every reachable state.
    - Asynchronous engine: sections. [Exclusive] - [AsyncEngine.Exclusive], the barrier
      it puts on every lane, the releases it postpones, and the end of a stop
      (exclusive.go, dynamic.go, strategy.go); a lane is reduced here to what a section
      sees of it, and [retireIfIdle] is its two halves, the last look at [pending] and the
      seal, because a release can be queued and taken in between. [ExclusiveFacts] - the invariants; [ExclusivePromises] - what
      [Exclusive] promises.
    - Asynchronous engine: calls. [GoRuntime] - errors, panics, [defer] and [recover]
      over an explicit state. [Handles] - reservations, drop-copy operations, requests,
      dry-run reports (pretrade/*.go). [Future] - pkg/future. [EngineBase] - errors and
      the check of a driver's answer (errors.go, engine.go). [ChainModel] - [Chain]
      (scenario.go, scenario_admin.go), with [ChainRun] and [ChainHandles] on what a run
      guarantees. [Engine] - [AsyncEngine] and [AsyncAccounts] (engine.go) and the
      follow-up handles (request.go, reservation.go, drop_copy_operation.go), with
      [EngineFacts]. [AsyncHandle] - concurrent readers and finalizers of a wrapper.
    - Values. [Optional] - pkg/optional. [GoPtr] - pointers into Go values. [NativeMem] -
      C strings, their owners, views and the collector (internal/native/string.go,
      param/asset.go, param/instrument.go). [ParamValues] - the value types of param/ as
      native records. [Retention] - the argument by which a family of values keeps alive
      what its records point to. [NativeOrder], [NativeReport], [NativeAdjustment] - the
      records of internal/native; [ModelOrder], [ModelReport], [ModelAdjustment] - the
      types of model/ with their groups and views; [OrderFacts], [ReportFacts],
      [ReportValues], [AdjustmentFacts] - what they keep and return.
    - Callbacks. [CgoHandles] - the process-wide handle table and the diagnostic sink
      (internal/callback, internal/diag). [Mutations] - tx and internal/mutation.
      [CustomPolicy] - internal/custompolicy, every exported callback. [PolicyAdapter] -
      policies over client types (pretrade/policy_adapter.go). [ClientEngine] - engine.go
      and client_engine.go. [CallbackFacts], [CallbackLives], [ClientFacts] - what they
      guarantee.
    - Builders. [EngineBuilder] - engine_builder.go and client_engine_builder.go, with
      [BuilderFacts] on who closes a policy. [AsyncBuilder] - asyncengine/builder.go and
      what the strategies make of their options. [BuilderVariants] - the account-synced and
      client stages, and the whole life of an asynchronous engine.
    - Numbers. [Decimals] - between the program's decimals and the native ones
      (internal/native/decimal.go, param/decimal.go). [NativeErrors] - error containers
      and strings a native call hands over. [NativeParam] - internal/native/param.go.
      [NumericTypes] - the eight decimal types of param/, with [NumericFacts]. [Amounts] -
      trade amounts, margins, identifiers and hashes of param/.
    - Native objects. [NativeObjects] - objects a call receives, reads and destroys, with
      the rules its users' proofs follow. [EngineCalls] - orders, reports and adjustments
      (internal/native/engine.go, engine.go, pretrade/request.go), with [EngineCallsFacts].
      [Rejects] - rejects and account blocks. [Accounts] - accounts/accounts.go and the
      retirement of an account, with [AccountsFacts]. [Lock] - pretrade/lock.go, with
      [LockFacts]. [Outcomes] - accountadjustment/ and the collectors of pretrade/result.go,
      with [OutcomeFacts].
    - Contexts. [Controls] - account controls, which the collector destroys, and the
      contexts of hooks (reject/account_control.go, pretrade/context.go), with
      [ControlFacts].
    - Services. [ServiceStore] - native services behind Go objects; [ServiceLock] - the
      lock each of them has. [MarketData] - marketdata/, with [MarketDataFacts] and
      [MarketReads]. [ReferenceBook] - reference_book.go.
    - Start of a process. [Loader] - internal/loader, internal/runtime and the package
      initialization of internal/native: which library a process loads, from where, and any
      number of such processes on one file system, with [LoaderFacts].
    - Built-in policies. [NativePolicies] - their records and registration calls
      (internal/native/policy.go, engine.go). [Policies] - the builders of
      pretrade/policies, with [PolicyFacts]. [Configure] - configure/configure.go over
      internal/native/configure.go, with [ConfigureFacts].

    ** How the parts interact

    A call of [Engine] makes a task and a routing key; [Routing] gives the key its lane;
    [LaneSystem] says when the lane runs the task, refuses it, or owes its release;
    running it calls a driver, whose handles are objects of [Handles] and whose answer
    goes to a [Future]. A section of [Exclusive] stops every lane in between. A driver is
    in practice the client engine of [ClientEngine], which gives native records of
    [ModelOrder] and its siblings to the native engine; that calls back through
    [CustomPolicy] into policies, possibly through [PolicyAdapter] into client ones, which
    record functions through [Mutations]. The interface of two files is a class where one
    is proved against the other's promise: [Walk] and [WalkHandles] of [ChainRun],
    [Program] of [CustomPolicy], [NativeEngine] of [ClientEngine].

    Before there is an engine there is a builder ([EngineBuilder]), which takes policies
    of [CustomPolicy] and of [Policies]; the builders of [Policies] take a clone of a
    market-data service ([ServiceStore]), and a running engine changes their settings
    through [Configure]. The native engine appears twice, as two different parameters: in
    [ClientEngine] it is what calls back, in [EngineCalls], [Accounts] and [Configure] it
    is the answers of one call, which these files make into Go values. Both stand for the
    same library; no theorem relates them.

    Before all of this the library is found, extracted into a cache that processes share,
    loaded and checked ([Loader]); everything else is about a process in which that
    succeeded.

    ** How the code is written here

    - Sequential code is a function of its state that returns or panics ([GoRuntime]);
      [defer], with or without [recover], is a combinator. Objects that are shared live
      in a heap, the handle table and the diagnostic sink are part of the state, so that
      aliasing is visible. Concurrent code is a step function on a system state, run on a
      list of labels: a theorem on every run is one on every interleaving.
    - Code that talks to the operating system is a tree of system calls ([prog] of
      [Loader]); a relation says what each may answer and do to the files, and the step
      relation of [Loader] interleaves any number of processes call by call, shows
      partial writes to the others and kills processes at any moment. [runSmooth] runs
      one process on the calls' good answers.
    - A C record is a Rocq record, a view of a C string an address and a length, a
      pointer to a field a getter and a setter ([Ptr]). A collection may free any buffer
      that no held value owns.
    - Ids, counters and enums are [Z] with their width where the code depends on it: the
      64-bit and 32-bit wrap-around of [Routing], the bytes of enums and tags. The
      counter of cgo handles is a natural number: it is 64 bits wide in the code and
      wraps only after that many handles.
    - The library is a class of functions, one class per group of calls, over a state of
      its own that stays abstract: a call gets the state and its arguments and gives the
      state, a status and whatever it writes through out parameters. An object it hands
      over is in a map of live ones; reading or destroying one that is not live ends the
      process, as a panic that nothing recovers.
    - In the files over [NativeObjects] and in [EngineBuilder] and [MarketData] a string
      of the library is its text: it is read with a copy in the call that got it. Where a
      record keeps a view for longer, in [NativeMem] and its users and in [Policies], the
      buffer it points into is modelled.
    - A slice is its list. Nil and empty ones are one list except where the code tells
      them apart: the axes of [Configure], whose nil is [None].
    - No definition runs on fuel. The theorems that something ends give the number of
      steps it takes ([LaneStop.worker_exit_reached]) or the run that reaches the end
      ([ExclusivePromises.exclusive_always_ends]).

    ** What is assumed

    The native library, the driver of an asynchronous engine, policies, hooks and the
    functions a program passes are arguments of the definitions, and may return or panic
    at will. Theorems that need more name it: [programPreserves polite] (a policy, a hook
    or a native call touches no cgo handle but those it makes and closes itself),
    [documentedEngine] (the native engine calls the hooks of live policies with the
    records of the call it is in, and keeps none after it), [documentedBuilder] and
    [plainPolicies] (reference counts of the native builder, and policies that do not use
    it from their Close), [DecimalLibrary] (two laws of the decimal package),
    [failsClosed], [writesErrors] (a failed call of a service writes its error and a read
    whose callback failed fails), [DocumentedAccounts]
    (also: the default group has no members of its own and is never blocked),
    [DocumentedConfigure], [DocumentedPolicies], [documentedDecisions] and
    [documentedReport], [documentedAdjustment] (a refused call writes its error, an
    accepted one does not), [SchemeStore] (a registry
    returns what it stored), [DocumentedLocks] and [LockCodecs] (decoding what was encoded
    gives it back), [collisionFree] and [plainNames] (shipped artifacts with the same hash
    are the same, and no name begins with a dot). The encodings of a lock are shorter than 2^31 bytes. Each such theorem
    has a witness in which the assumptions are proved of concrete functions.

    ** What the theorems show

    - Order and exclusion: a lane is FIFO and mandatory work runs behind what was
      accepted before it ([LaneOrder]); a section runs with no task of a lane and no
      release off the lanes, ends, and keeps the releases it postponed, and a stop waits
      for it ([ExclusivePromises]).
    - Once: a submit is accepted or handed over once ([LaneTasks]); a chain resolves its
      future once and last ([ChainRun]); a finalizer runs its native calls once
      ([Handles]); a mutation pair, a policy and a client payload are released once
      ([CallbackLives], [ClientFacts]).
    - Nothing is stranded: no open handle after a chain ([ChainHandles]), no owed release
      forgotten ([EngineFacts]), no task on a retired lane ([LaneSeal]), no worker asleep
      with work to do and none that survives its lane ([LaneStop]).
    - Fail closed: no panic crosses the C boundary and none is read as an acceptance
      ([CallbackFacts]); a reservation is committed only on an explicit decision
      ([ChainHandles]); a client hook gets its own value or is not called ([ClientFacts]).
    - Memory: held orders, reports and adjustments can be read whatever the collector
      freed, a report that borrows from another while the other is held ([OrderFacts],
      [ReportFacts], [AdjustmentFacts]); readers of a wrapper never
      overlap its finalizers ([AsyncHandle]).
    - Values: what is set is read, views write what they came from, an adjustment has one
      operation, a lock is set completely or not at all; a decimal converts exactly or
      overflows ([Decimals]); the eight numeric types are one program, and what converts
      between them calls its own native function ([NumericFacts]);
      locks and outcomes survive their encodings ([LockFacts], [OutcomeFacts]).
    - Calls: every call of accounts, market data, locks, settings and the engine is the
      native call with its answer in Go, leaves no native object behind that the caller
      does not own, and does not panic ([AccountsFacts], [MarketDataFacts], [LockFacts],
      [ConfigureFacts], [EngineCallsFacts]). A group that was never initialized changes
      no account and no setting of the service.
    - Collected objects: an account control outlives every call on it and every reference
      to it, and is destroyed once ([ControlFacts]).
    - Services: a handle is destroyed once, after the calls that use it, and a read whose
      group could not be had fails ([ServiceLock], [MarketDataFacts], [MarketReads]).
    - Start: whatever other processes do to the cache, a process loads the file its user
      named or the whole artifact it was built with ([LoaderFacts]).
    - Registration: a policy is closed by exactly one of the program, the builder and the
      engine ([BuilderFacts]), also through [BuildAsync], the asynchronous builder and
      the stops of what it builds ([BuilderVariants]); the settings of a built-in policy reach the library with
      the names their assets had, whatever the collector did meanwhile ([PolicyFacts]).

    ** What modelling showed

    - [LaneStop.sharded_submit_can_panic]: the submit fence of a sharded strategy can
      close while a producer is registered, which then sends on a closed channel
      (strategy.go, [endSubmit]). Dynamic lanes never do ([LaneSeal.dynamic_never_panics]).
    - [ExclusivePromises.exclusive_can_run_beside_a_release]: idle cleanup can retire a
      lane whose worker has just taken a handle release, and a section then does not wait
      for it, so its function runs beside the native call of the release (dynamic.go,
      [retireIfIdle]; strategy.go, [markRetired]).
    - [EngineCallsFacts.close_after_execution]: the execution of a request whose native
      status is unexpected destroys the request, and the Close that its owner is told to
      make destroys it again (internal/native/engine.go, pretrade/request.go).
    - [ReportFacts.half_instrument_dangles]: the operation group read from a report does
      not own the strings of an instrument that has exactly one empty asset.
    - [ClientFacts.panicking_adjustment_leaks]: a panic of a client's adjustment in the
      middle of a batch leaks the handles made before it (client_engine.go).
    - [AsyncBuilder.scan_faster_than_documented]: idle lanes are scanned more often than
      the documentation of the builder allows.
    - [LoaderFacts.dot_is_refused]: the working directory cannot be named as the cache
      (loader.go, ensureVersionedPath), though any other relative directory can.
    - [MarketDataFacts.market_data_calls_are_native_calls]: two setters of group lifetimes
      answer nil on a closed service, where the documentation of [Service] promises an
      error (marketdata/service.go).
    - A negative lifetime of a quote becomes a long one ([MarketData], WithinTTL).
    - Not defects, but worth knowing: a native status outside the documented ones is read
      as success by the reference book and by the registration of accounts, and so is a
      configure call that fails without an error object; the market-data service must not
      be closed from the [AccountInfo] it is reading with (the read lock is held); the
      overrides of a spot-funds builder are the caller's slice, read when [Build] is
      called; an account group that was never initialized is accepted by overrides and
      limit modes; when the asynchronous builder refuses its options, the engine it was
      given stays alive until some later Build and stop release it.
    - The documentation of [Chain] describes membership steps that [ChainBuilder] does
      not offer.

    ** Not modelled

    - What the native library computes: arithmetic, parsing and formatting of decimals,
      evaluation of policies, quotes, encodings. Its source is elsewhere.
    - Of the file system: directories, links and permissions of other users; paths are
      those of Unix, and only ASCII spaces are trimmed. Of the start: what the dynamic
      linker and the symbol table do. Foreign programs that write into the cache.
    - Timestamps and the observer of the lanes: nothing in the code decides on them
      except when an idle lane may retire, which may happen at any time here.
    - The texts of the [Error] and [String] methods of most error and enum types,
      and the float conversions of leverage.
    - [runtime.KeepAlive] of the calls, except where a builder relies on it ([Policies]).

    ** Plan

    Left: one native engine that both answers and calls back, so that [ClientEngine] and
    [EngineCalls] are two views of one run; the dry-run reports and reservations of
    [Handles] over the objects of [EngineCalls]. *)
From Stdlib Require Import ZArith Lia.
From stdpp Require Import base list gmap strings.

Declare Scope pit_scope.
Delimit Scope pit_scope with pit.
#[global] Open Scope pit_scope.

(** ** Automation *)

Create HintDb pit discriminated.

(** Comparisons stay comparisons under [cbn]: [lia] and the [_spec] lemmas
    read them. *)
#[global] Arguments Nat.ltb : simpl never.
#[global] Arguments Nat.leb : simpl never.
#[global] Arguments Z.ltb : simpl never.
#[global] Arguments Z.leb : simpl never.
#[global] Arguments Z.eqb : simpl never.

(** Opens the equations an executable definition leaves in the context: every
    [match] of a hypothesis is split and the resulting equations are used. *)
Ltac split_matches :=
  simplify_eq/=; try done; repeat (case_match; simplify_eq/=; try done).

(** Closes a goal that is arithmetic once the hypotheses' equations are used. *)
Ltac arith := cbn in *; simplify_eq/=; lia.

(** Turns the boolean tests among the hypotheses into the facts they test. *)
Ltac use_bools :=
  repeat match goal with
  | H : _ && _ = true |- _ => apply andb_prop in H as [? ?]
  | H : _ || _ = false |- _ => apply orb_false_elim in H as [? ?]
  | H : negb _ = true |- _ => apply negb_true_iff in H
  | H : negb _ = false |- _ => apply negb_false_iff in H
  | H : (_ =? _)%nat = true |- _ => apply Nat.eqb_eq in H
  | H : (_ =? _)%Z = true |- _ => apply Z.eqb_eq in H
  | H : (_ <? _)%nat = false |- _ => apply Nat.ltb_ge in H
  | H : (_ <? _)%nat = true |- _ => apply Nat.ltb_lt in H
  | H : bool_decide _ = true |- _ => apply bool_decide_eq_true in H
  | H : bool_decide _ = false |- _ => apply bool_decide_eq_false in H
  end.

(** Discharges the premises of the context's implications that are known. *)
Ltac use_premises :=
  repeat match goal with
  | H : ?x = ?x -> _ |- _ => specialize (H eq_refl)
  | H : ?P -> _, H' : ?P |- _ => specialize (H H')
  | H : _ /\ _ |- _ => destruct H
  end.

(** ** Labelled transition systems

    A component whose methods interleave is a partial function from a label
    and a state to a state: the label says which goroutine moves and which of
    its ready alternatives it takes, so that an execution is a list of labels
    and can be evaluated. *)
Section LTS.
Context {S L : Type} (step : L -> S -> option S) (init : S -> Prop).

(** The states the executions from an initial state visit. *)
Inductive reachable : S -> Prop :=
| reachable_init s : init s -> reachable s
| reachable_step s l s' : reachable s -> step l s = Some s' -> reachable s'.

(** Runs a list of labels. *)
Fixpoint run (ls : list L) (s : S) : option S :=
  match ls with
  | [] => Some s
  | l :: ls => match step l s with
               | Some s' => run ls s'
               | None => None
               end
  end.

Lemma run_app ls1 ls2 s :
  run (ls1 ++ ls2) s = run ls1 s ≫= run ls2.
Proof.
  revert s. induction ls1 as [|l ls1 IH]; intros s; cbn; [done|].
  destruct (step l s); [apply IH|done].
Qed.

Lemma run_reachable ls s s' :
  reachable s -> run ls s = Some s' -> reachable s'.
Proof.
  revert s. induction ls as [|l ls IH]; intros s Hs; cbn; [congruence|].
  destruct (step l s) as [s1|] eqn:E; [|done].
  apply IH. by eapply reachable_step.
Qed.

(** Invariants are proved by rule induction; a step may use the
    reachability of its source, so that invariants stack. *)
Lemma invariant_reachable (I : S -> Prop) :
  (forall s, init s -> I s) ->
  (forall s l s', reachable s -> I s -> step l s = Some s' -> I s') ->
  forall s, reachable s -> I s.
Proof. intros Hi Hs s. induction 1; eauto. Qed.

(** A property of two consecutive states that composes holds along a run. *)
Lemma run_monotone (R : S -> S -> Prop) `{!PreOrder R} ls s s' :
  (forall l a b, step l a = Some b -> R a b) ->
  run ls s = Some s' -> R s s'.
Proof.
  intros HR. revert s. induction ls as [|l ls IH]; intros s; cbn.
  - intros [= ->]. reflexivity.
  - destruct (step l s) as [s1|] eqn:E; [|done].
    intros Hrun. transitivity s1; eauto.
Qed.
End LTS.

(** Starts a proof by rule induction: [s0] is the state before the step, [IH]
    the invariant there, [Hr] its reachability and [H] the step. *)
Ltac invariant_induction :=
  match goal with
  | |- forall s, reachable ?st ?i s -> @?P s =>
    apply (invariant_reachable st i P);
    [|intros s0 l s' Hr IH H]
  end.

(** ** Sums over lists of goroutines *)

(** [csum f l] adds [f x] over the elements of [l]. *)
Fixpoint csum {A} (f : A -> nat) (l : list A) : nat :=
  match l with
  | [] => 0
  | x :: l => f x + csum f l
  end.

Lemma csum_app {A} (f : A -> nat) l1 l2 :
  csum f (l1 ++ l2) = csum f l1 + csum f l2.
Proof. induction l1; cbn; lia. Qed.

(** Replacing one element moves the sum by the difference it makes. *)
Lemma csum_insert {A} (f : A -> nat) (l : list A) i x y :
  l !! i = Some x -> csum f (<[i := y]> l) + f x = csum f l + f y.
Proof.
  revert i. induction l as [|a l IH]; intros [|i] H; simplify_eq/=; [lia|].
  specialize (IH i H). lia.
Qed.

Lemma csum_lookup_le {A} (f : A -> nat) (l : list A) i x :
  l !! i = Some x -> f x <= csum f l.
Proof.
  revert i. induction l as [|a l IH]; intros [|i] H; simplify_eq/=; [lia|].
  specialize (IH i H). lia.
Qed.

Lemma csum_le {A} (f g : A -> nat) (l : list A) :
  (forall x, f x <= g x) -> csum f l <= csum g l.
Proof. intros H. induction l as [|a l IH]; cbn; [lia|]. specialize (H a). lia. Qed.

Lemma csum_ext {A} (f g : A -> nat) (l : list A) :
  (forall x, x ∈ l -> f x = g x) -> csum f l = csum g l.
Proof.
  induction l as [|a l IH]; intros H; cbn; [done|].
  rewrite (H a), IH; [done| |set_solver]. intros. apply H. set_solver.
Qed.

(** A property of every element survives an update by an element that has it. *)
Lemma Forall_insert_same {A} (P : A -> Prop) (l : list A) i y :
  Forall P l -> P y -> Forall P (<[i := y]> l).
Proof. apply Forall_insert. Qed.

Lemma csum_zero {A} (f : A -> nat) (l : list A) i x :
  csum f l = 0 -> l !! i = Some x -> f x = 0.
Proof. intros H0 Hl. pose proof (csum_lookup_le f l i x Hl). lia. Qed.

Lemma csum_pos {A} (f : A -> nat) (l : list A) :
  0 < csum f l -> exists i x, l !! i = Some x /\ 0 < f x.
Proof.
  induction l as [|a l IH]; cbn; [lia|]. intros H.
  destruct (decide (0 < f a)).
  - by exists 0, a.
  - destruct IH as (i & x & ? & ?); [lia|]. by exists (Datatypes.S i), x.
Qed.

(** The same two facts in the form the invariants use them, for a thread list
    in which thread [i] moves from [x] to [y]. *)
Ltac csum_step H :=
  match type of H with
  | ?l !! ?i = Some ?x =>
    repeat match goal with
    | |- context [csum ?f (<[i := ?y]> l)] =>
      lazymatch goal with
      | _ : csum f (<[i := y]> l) + f x = _ |- _ => fail
      | _ => pose proof (csum_insert f l i x y H)
      end
    | _ : context [csum ?f (<[i := ?y]> l)] |- _ =>
      lazymatch goal with
      | _ : csum f (<[i := y]> l) + f x = _ |- _ => fail
      | _ => pose proof (csum_insert f l i x y H)
      end
    end
  end.

Definition b2n (b : bool) : nat := if b then 1 else 0.

(** ** Machine integers

    A w-bit integer is a [Z]; these are Go's conversions to the unsigned and
    signed types of that width. *)
Definition wrapU (w x : Z) : Z := (x mod 2 ^ w)%Z.
Definition wrapS (w x : Z) : Z :=
  let u := (x mod 2 ^ w)%Z in
  if (u <? 2 ^ (w - 1))%Z then u else (u - 2 ^ w)%Z.

Definition inU (w x : Z) : Prop := (0 <= x < 2 ^ w)%Z.
Definition inS (w x : Z) : Prop := (- 2 ^ (w - 1) <= x < 2 ^ (w - 1))%Z.

#[global] Instance inU_dec w x : Decision (inU w x).
Proof. unfold inU. apply _. Defined.
#[global] Instance inS_dec w x : Decision (inS w x).
Proof. unfold inS. apply _. Defined.

Lemma pow2_pos w : (0 <= w)%Z -> (0 < 2 ^ w)%Z.
Proof. intros. by apply Z.pow_pos_nonneg. Qed.

Lemma pow2_half w : (0 < w)%Z -> (2 ^ w = 2 * 2 ^ (w - 1))%Z.
Proof. intros. rewrite <- Z.pow_succ_r by lia. f_equal. lia. Qed.

Lemma wrapU_range w x : (0 <= w)%Z -> inU w (wrapU w x).
Proof. intros. apply Z.mod_pos_bound. by apply pow2_pos. Qed.

Lemma wrapU_small w x : inU w x -> wrapU w x = x.
Proof. intros. by apply Z.mod_small. Qed.

Lemma wrapS_range w x : (0 < w)%Z -> inS w (wrapS w x).
Proof.
  intros Hw. unfold inS, wrapS. pose proof (pow2_half w Hw).
  pose proof (Z.mod_pos_bound x (2 ^ w) (pow2_pos w ltac:(lia))).
  destruct (Z.ltb_spec (x mod 2 ^ w) (2 ^ (w - 1))); lia.
Qed.

Lemma wrapS_small w x : (0 < w)%Z -> inS w x -> wrapS w x = x.
Proof.
  unfold inS, wrapS. intros Hw H. pose proof (pow2_half w Hw).
  destruct (decide (0 <= x)%Z).
  - rewrite Z.mod_small by lia.
    destruct (Z.ltb_spec x (2 ^ (w - 1))); lia.
  - assert (x mod 2 ^ w = x + 2 ^ w)%Z as ->.
    { rewrite <- (Z.mod_add x 1) by lia. rewrite Z.mod_small by lia. lia. }
    destruct (Z.ltb_spec (x + 2 ^ w) (2 ^ (w - 1))); lia.
Qed.

(** Converting to signed and back to unsigned recovers the word. *)
Lemma wrapU_wrapS w x : (0 < w)%Z -> wrapU w (wrapS w x) = wrapU w x.
Proof.
  intros Hw. unfold wrapU, wrapS.
  pose proof (pow2_pos w ltac:(lia)).
  destruct (x mod 2 ^ w <? 2 ^ (w - 1))%Z; [by rewrite Z.mod_mod by lia|].
  rewrite <- (Z.mod_add (x mod 2 ^ w - 2 ^ w) 1) by lia.
  replace (x mod 2 ^ w - 2 ^ w + 1 * 2 ^ w)%Z with (x mod 2 ^ w)%Z by lia.
  by rewrite Z.mod_mod by lia.
Qed.

#[export] Hint Resolve wrapU_range wrapU_small wrapS_range wrapS_small : pit.

(** ** Lists *)

Lemma prefix_elem_of {A} (l1 l2 : list A) x : l1 `prefix_of` l2 -> x ∈ l1 -> x ∈ l2.
Proof. intros [k ->] H. apply elem_of_app. by left. Qed.

(** Two prefixes of one list are comparable: the shorter one is a prefix of
    the longer one. *)
Lemma prefix_length_le {A} (l1 l2 l : list A) :
  l1 `prefix_of` l -> l2 `prefix_of` l -> length l1 <= length l2 ->
  l1 `prefix_of` l2.
Proof.
  intros H1 H2 Hlen. destruct (prefix_weak_total _ _ _ H1 H2) as [|H]; [done|].
  destruct H as [k ->]. rewrite length_app in Hlen.
  destruct k; [|cbn in Hlen; lia]. by rewrite app_nil_r.
Qed.
