(* ===== verification/Routing.v ===== *)
(** * Routing keys and shard selection

    The lane an operation is queued on: [routingKey] of
    asyncengine/strategy.go with its constructors in asyncengine/engine.go and
    asyncengine/exclusive.go, and the shard index asyncengine/sharded.go
    computes from it. Numeric ids are 64-bit words, account-group ids 32-bit
    words; the products and the high half of the 128-bit product are written
    out with their wrap-around. *)
From Stdlib Require Import ZArith Lia.
From stdpp Require Import base list gmap.
From S2P Require Import Prelude.

Inductive routingKeyKind :=
| routingKeyAccount
| routingKeyAccountGroup
| routingKeyEngineWide
| routingKeyExclusive.

#[global] Instance routingKeyKind_eq_dec : EqDecision routingKeyKind.
Proof. solve_decision. Defined.

Record routingKey := { kind : routingKeyKind; id : Z }.

#[global] Instance routingKey_eq_dec : EqDecision routingKey.
Proof. solve_decision. Defined.

Definition kind_code (k : routingKeyKind) : Z :=
  match k with
  | routingKeyAccount => 0
  | routingKeyAccountGroup => 1
  | routingKeyEngineWide => 2
  | routingKeyExclusive => 3
  end.

#[global] Instance routingKeyKind_countable : Countable routingKeyKind.
Proof.
  refine (inj_countable' kind_code
    (fun z => if decide (z = 0)%Z then routingKeyAccount
              else if decide (z = 1)%Z then routingKeyAccountGroup
              else if decide (z = 2)%Z then routingKeyEngineWide
              else routingKeyExclusive) _).
  by intros [].
Defined.

#[global] Instance routingKey_countable : Countable routingKey.
Proof.
  refine (inj_countable' (fun k => (kind k, id k))
            (fun p => {| kind := fst p; id := snd p |}) _).
  by intros [].
Defined.

(** An [AccountID] is its native 64-bit handle; an [AccountGroupID] carries its
    32-bit handle and whether it was explicitly constructed. *)
Record AccountID := { acc_native : Z }.
Record AccountGroupID := { grp_native : Z; grp_initialized : bool }.

#[global] Instance AccountID_eq_dec : EqDecision AccountID.
Proof. solve_decision. Defined.

Definition accountRoutingKey (a : AccountID) : routingKey :=
  {| kind := routingKeyAccount; id := wrapU 64 (acc_native a) |}.

Definition groupRoutingKey (g : AccountGroupID) : routingKey :=
  {| kind := routingKeyAccountGroup; id := wrapU 64 (grp_native g) |}.

Definition engineWideRoutingKey : routingKey :=
  {| kind := routingKeyEngineWide; id := 0 |}.

Definition exclusiveRoutingKey : routingKey :=
  {| kind := routingKeyExclusive; id := 0 |}.

(** The account id the observer callbacks carry for a key. *)
Definition observerAccountID (k : routingKey) : AccountID :=
  {| acc_native := id k |}.

Definition fibonacciHashMultiplier : Z := 11400714819323198485.
Definition routingKindHashMultiplier : Z := 15485907386658061715.

(** [h := key.id*fib ^ uint64(key.kind)*kindMul], all on uint64. *)
Definition routingHash (key : routingKey) : Z :=
  Z.lxor (wrapU 64 (id key * fibonacciHashMultiplier))
         (wrapU 64 (kind_code (kind key) * routingKindHashMultiplier)).

(** [bits.Mul64]: the high and low words of the 128-bit product. *)
Definition Mul64 (x y : Z) : Z * Z := ((x * y) / 2 ^ 64, wrapU 64 (x * y))%Z.

Definition shardIndex (n : nat) (key : routingKey) : Z :=
  fst (Mul64 (routingHash key) (Z.of_nat n)).

(** [s.shards[hi]]; [None] is Go's out-of-range panic. *)
Definition shardFor {Q} (shards : list Q) (key : routingKey) : option Q :=
  shards !! Z.to_nat (shardIndex (length shards) key).

(** ** Facts about the words involved *)

Lemma lxor_inU64 a b : inU 64 a -> inU 64 b -> inU 64 (Z.lxor a b).
Proof.
  intros Ha Hb. unfold inU in *. split; [apply Z.lxor_nonneg; lia|].
  destruct (decide (Z.lxor a b = 0)%Z) as [->|Hne]; [lia|].
  apply Z.log2_lt_pow2.
  { pose proof (proj2 (Z.lxor_nonneg a b)). lia. }
  eapply Z.le_lt_trans; [apply Z.log2_lxor; lia|].
  apply Z.max_lub_lt.
  - destruct (decide (a = 0)%Z) as [->|]; [done|]. apply Z.log2_lt_pow2; lia.
  - destruct (decide (b = 0)%Z) as [->|]; [done|]. apply Z.log2_lt_pow2; lia.
Qed.

Lemma routingHash_range key : inU 64 (routingHash key).
Proof. apply lxor_inU64; by apply wrapU_range. Qed.

(** An odd constant multiplies injectively on 64-bit words: the constant has
    an inverse. *)
Lemma mul_odd_injective m inv a b :
  wrapU 64 (m * inv) = 1%Z -> inU 64 a -> inU 64 b ->
  wrapU 64 (a * m) = wrapU 64 (b * m) -> a = b.
Proof.
  unfold wrapU. intros Hinv Ha Hb H.
  rewrite <- (Z.mod_small a (2 ^ 64)), <- (Z.mod_small b (2 ^ 64)) by done.
  rewrite <- (Z.mul_1_r a), <- (Z.mul_1_r b), <- Hinv.
  rewrite !Zmult_mod_idemp_r, !Z.mul_assoc.
  rewrite <- (Zmult_mod_idemp_l (a * m)), H. by rewrite Zmult_mod_idemp_l.
Qed.

(** ** Properties *)

(** the multiply-shift index is a valid shard index for every key and every
    positive shard count, so the slice access of [shardFor] cannot panic. *)
Theorem shardFor_total {Q} (shards : list Q) key :
  0 < length shards -> exists q, shardFor shards key = Some q /\ q ∈ shards.
Proof.
  intros Hn. unfold shardFor, shardIndex, Mul64. cbn [fst].
  pose proof (routingHash_range key) as [H0 H1].
  assert (0 <= routingHash key * Z.of_nat (length shards) / 2 ^ 64
          < Z.of_nat (length shards))%Z as [Hlo Hhi].
  { split; [apply Z.div_pos; nia|]. apply Z.div_lt_upper_bound; nia. }
  destruct (lookup_lt_is_Some_2 shards
    (Z.to_nat (routingHash key * Z.of_nat (length shards) / 2 ^ 64)))
    as [q Hq]; [lia|].
  exists q. split; [done|]. by eapply list_elem_of_lookup_2.
Qed.

Lemma shardFor_total_witness :
  0 < length [7; 8; 9] /\
  exists q, shardFor [7; 8; 9] (accountRoutingKey {| acc_native := 99224416 |})
            = Some q /\ q ∈ [7; 8; 9].
Proof. split; [cbn; lia|]. apply shardFor_total. cbn. lia. Defined.

(** within one kind the mix loses no information: distinct 64-bit ids have
    distinct hashes, because the Fibonacci multiplier is odd. *)
Theorem routingHash_injective k1 k2 :
  kind k1 = kind k2 -> inU 64 (id k1) -> inU 64 (id k2) ->
  routingHash k1 = routingHash k2 -> k1 = k2.
Proof.
  destruct k1 as [kd1 i1], k2 as [kd2 i2]; cbn. intros -> H1 H2 H.
  f_equal. unfold routingHash in H; cbn in H.
  apply (mul_odd_injective fibonacciHashMultiplier 17428512612931826493);
    [by vm_compute|done..|].
  apply (f_equal (fun h => Z.lxor h (wrapU 64 (kind_code kd2 * routingKindHashMultiplier)))) in H.
  by rewrite !Z.lxor_assoc, !Z.lxor_nilpotent, !Z.lxor_0_r in H.
Qed.

Lemma routingHash_injective_witness :
  let k := accountRoutingKey {| acc_native := 42 |} in
  kind k = kind k /\ inU 64 (id k) /\ k = k.
Proof.
  cbn zeta. split; [done|]. split; [by vm_compute|].
  apply routingHash_injective; [done|by vm_compute|by vm_compute|done].
Defined.

(** The lanes of different kinds are different lanes even for equal numeric
    ids, and no operation key is the key of an exclusive barrier. *)
Theorem routing_keys_separate a g :
  accountRoutingKey a <> groupRoutingKey g /\
  accountRoutingKey a <> engineWideRoutingKey /\
  groupRoutingKey g <> engineWideRoutingKey /\
  accountRoutingKey a <> exclusiveRoutingKey /\
  groupRoutingKey g <> exclusiveRoutingKey /\
  engineWideRoutingKey <> exclusiveRoutingKey.
Proof. repeat split; discriminate. Qed.
