(* ===== verification/Lane.v ===== *)
(** * One lane: the queue and its operations

    [keyQueue] of asyncengine/strategy.go and the methods that work on one
    queue under its locks. A critical section of [mandatoryMu], and a single
    atomic access, is one function here; LaneSystem.v interleaves them.
    Timestamps ([lastActive], [enqueuedAt]) and observer callbacks are left
    out: no control decision of these methods reads them. The observer is told
    what happened and the idle clock only narrows when [retireIfIdle] may run,
    which LaneSystem.v allows at any time. *)
From Stdlib Require Import ZArith Lia.
From stdpp Require Import base list gmap.
From S2P Require Import Prelude Routing.

(** The unit of work. Every ordinary public operation is a [pendingSubmit]; the
    other two are the tasks the mandatory backlog carries. The number names
    the goroutine that created the task. *)
Inductive pendingTask :=
| pendingSubmit (n : nat)
| submitFailureCleanupTask (n : nat)
| exclusiveBarrierTask (n : nat).

Record queuedTask := { task : pendingTask; key : routingKey }.

Record submitFailureCleanupEntry := {
  e_task : queuedTask;
  admittedCutoff : nat;
  settleTarget : nat;
  waitSubmitFence : bool;
}.

(** The mutable state of a lane. [ch] is the buffered channel, oldest task
    first; [mandatoryWake] is the token of the one-slot wake channel;
    [progressChan] is the current [mandatoryProgress] channel, named by its
    creation number, or [None] for nil: a channel that is no longer the current
    one has been closed. *)
Record keyQueue := mkQueue {
  ch : list queuedTask;
  ch_cap : nat;
  ch_closed : bool;
  quit_closed : bool;
  mandatoryWake : bool;
  gateReaders : nat;
  gateWriter : bool;
  mandatory : list submitFailureCleanupEntry;
  progressChan : option nat;
  progressNext : nat;
  mandatoryQueued : bool;
  retired : bool;
  workerExited : bool;
  closed : bool;
  pending : Z;
  admitted : nat;
  settled : nat;
}.

Definition with_ch (v : list queuedTask) (q : keyQueue) : keyQueue :=
  mkQueue v q.(ch_cap) q.(ch_closed) q.(quit_closed) q.(mandatoryWake)
    q.(gateReaders) q.(gateWriter) q.(mandatory) q.(progressChan)
    q.(progressNext) q.(mandatoryQueued) q.(retired) q.(workerExited)
    q.(closed) q.(pending) q.(admitted) q.(settled).
Definition with_ch_closed (v : bool) (q : keyQueue) : keyQueue :=
  mkQueue q.(ch) q.(ch_cap) v q.(quit_closed) q.(mandatoryWake)
    q.(gateReaders) q.(gateWriter) q.(mandatory) q.(progressChan)
    q.(progressNext) q.(mandatoryQueued) q.(retired) q.(workerExited)
    q.(closed) q.(pending) q.(admitted) q.(settled).
Definition with_quit_closed (v : bool) (q : keyQueue) : keyQueue :=
  mkQueue q.(ch) q.(ch_cap) q.(ch_closed) v q.(mandatoryWake)
    q.(gateReaders) q.(gateWriter) q.(mandatory) q.(progressChan)
    q.(progressNext) q.(mandatoryQueued) q.(retired) q.(workerExited)
    q.(closed) q.(pending) q.(admitted) q.(settled).
Definition with_mandatoryWake (v : bool) (q : keyQueue) : keyQueue :=
  mkQueue q.(ch) q.(ch_cap) q.(ch_closed) q.(quit_closed) v q.(gateReaders)
    q.(gateWriter) q.(mandatory) q.(progressChan) q.(progressNext)
    q.(mandatoryQueued) q.(retired) q.(workerExited) q.(closed)
    q.(pending) q.(admitted) q.(settled).
Definition with_gateReaders (v : nat) (q : keyQueue) : keyQueue :=
  mkQueue q.(ch) q.(ch_cap) q.(ch_closed) q.(quit_closed) q.(mandatoryWake)
    v q.(gateWriter) q.(mandatory) q.(progressChan) q.(progressNext)
    q.(mandatoryQueued) q.(retired) q.(workerExited) q.(closed)
    q.(pending) q.(admitted) q.(settled).
Definition with_gateWriter (v : bool) (q : keyQueue) : keyQueue :=
  mkQueue q.(ch) q.(ch_cap) q.(ch_closed) q.(quit_closed) q.(mandatoryWake)
    q.(gateReaders) v q.(mandatory) q.(progressChan) q.(progressNext)
    q.(mandatoryQueued) q.(retired) q.(workerExited) q.(closed)
    q.(pending) q.(admitted) q.(settled).
Definition with_mandatory (v : list submitFailureCleanupEntry) (q : keyQueue) : keyQueue :=
  mkQueue q.(ch) q.(ch_cap) q.(ch_closed) q.(quit_closed) q.(mandatoryWake)
    q.(gateReaders) q.(gateWriter) v q.(progressChan)
    q.(progressNext) q.(mandatoryQueued) q.(retired) q.(workerExited)
    q.(closed) q.(pending) q.(admitted) q.(settled).
Definition with_progressChan (v : option nat) (q : keyQueue) : keyQueue :=
  mkQueue q.(ch) q.(ch_cap) q.(ch_closed) q.(quit_closed) q.(mandatoryWake)
    q.(gateReaders) q.(gateWriter) q.(mandatory) v q.(progressNext)
    q.(mandatoryQueued) q.(retired) q.(workerExited) q.(closed)
    q.(pending) q.(admitted) q.(settled).
Definition with_progressNext (v : nat) (q : keyQueue) : keyQueue :=
  mkQueue q.(ch) q.(ch_cap) q.(ch_closed) q.(quit_closed) q.(mandatoryWake)
    q.(gateReaders) q.(gateWriter) q.(mandatory) q.(progressChan) v
    q.(mandatoryQueued) q.(retired) q.(workerExited) q.(closed)
    q.(pending) q.(admitted) q.(settled).
Definition with_mandatoryQueued (v : bool) (q : keyQueue) : keyQueue :=
  mkQueue q.(ch) q.(ch_cap) q.(ch_closed) q.(quit_closed) q.(mandatoryWake)
    q.(gateReaders) q.(gateWriter) q.(mandatory) q.(progressChan)
    q.(progressNext) v q.(retired) q.(workerExited) q.(closed)
    q.(pending) q.(admitted) q.(settled).
Definition with_retired (v : bool) (q : keyQueue) : keyQueue :=
  mkQueue q.(ch) q.(ch_cap) q.(ch_closed) q.(quit_closed) q.(mandatoryWake)
    q.(gateReaders) q.(gateWriter) q.(mandatory) q.(progressChan)
    q.(progressNext) q.(mandatoryQueued) v q.(workerExited)
    q.(closed) q.(pending) q.(admitted) q.(settled).
Definition with_workerExited (v : bool) (q : keyQueue) : keyQueue :=
  mkQueue q.(ch) q.(ch_cap) q.(ch_closed) q.(quit_closed) q.(mandatoryWake)
    q.(gateReaders) q.(gateWriter) q.(mandatory) q.(progressChan)
    q.(progressNext) q.(mandatoryQueued) q.(retired) v q.(closed)
    q.(pending) q.(admitted) q.(settled).
Definition with_closed (v : bool) (q : keyQueue) : keyQueue :=
  mkQueue q.(ch) q.(ch_cap) q.(ch_closed) q.(quit_closed) q.(mandatoryWake)
    q.(gateReaders) q.(gateWriter) q.(mandatory) q.(progressChan)
    q.(progressNext) q.(mandatoryQueued) q.(retired) q.(workerExited)
    v q.(pending) q.(admitted) q.(settled).
Definition with_pending (v : Z) (q : keyQueue) : keyQueue :=
  mkQueue q.(ch) q.(ch_cap) q.(ch_closed) q.(quit_closed) q.(mandatoryWake)
    q.(gateReaders) q.(gateWriter) q.(mandatory) q.(progressChan)
    q.(progressNext) q.(mandatoryQueued) q.(retired) q.(workerExited)
    q.(closed) v q.(admitted) q.(settled).
Definition with_admitted (v : nat) (q : keyQueue) : keyQueue :=
  mkQueue q.(ch) q.(ch_cap) q.(ch_closed) q.(quit_closed) q.(mandatoryWake)
    q.(gateReaders) q.(gateWriter) q.(mandatory) q.(progressChan)
    q.(progressNext) q.(mandatoryQueued) q.(retired) q.(workerExited)
    q.(closed) q.(pending) v q.(settled).
Definition with_settled (v : nat) (q : keyQueue) : keyQueue :=
  mkQueue q.(ch) q.(ch_cap) q.(ch_closed) q.(quit_closed) q.(mandatoryWake)
    q.(gateReaders) q.(gateWriter) q.(mandatory) q.(progressChan)
    q.(progressNext) q.(mandatoryQueued) q.(retired) q.(workerExited)
    q.(closed) q.(pending) q.(admitted) v.

(** ** Construction *)

Definition newKeyQueue (capacity : nat) : keyQueue :=
  mkQueue [] capacity false false false 0 false [] None 0
    false false false false 0 0 0.

(** ** Admission and settlement *)

(** [q.settle]: one admitted task has been handled or aborted. *)
Definition settle (q : keyQueue) : keyQueue := with_settled (S q.(settled)) q.

(** [b.admitTask]: the ticket is the value the counter reaches. *)
Definition admitTask (tracksIdle : bool) (q : keyQueue) : nat * keyQueue :=
  let ticket := S q.(admitted) in
  let q := with_admitted ticket q in
  (ticket, if tracksIdle then with_pending (q.(pending) + 1) q else q).

Definition raiseTarget (ticket : nat) (e : submitFailureCleanupEntry)
  : submitFailureCleanupEntry :=
  if e.(admittedCutoff) <? ticket then
    {| e_task := e.(e_task); admittedCutoff := e.(admittedCutoff);
       settleTarget := S e.(settleTarget);
       waitSubmitFence := e.(waitSubmitFence) |}
  else e.

(** [b.unmarkSent], the section under [mandatoryMu]: the abandoned admission
    settles and every entry whose cutoff lies before the ticket moves its
    target with it. The result says whether the worker must be woken. *)
Definition unmarkSent (ticket : nat) (q : keyQueue) : bool * keyQueue :=
  let q := with_settled (S q.(settled)) q in
  let q := with_mandatory (raiseTarget ticket <$> q.(mandatory)) q in
  (negb (bool_decide (q.(mandatory) = [])), q).

(** The rest of [unmarkSent] and of [enqueueMandatory]: the pending count and
    the non-blocking send on the one-slot wake channel. *)
Definition unpend (tracksIdle : bool) (q : keyQueue) : keyQueue :=
  if tracksIdle then with_pending (q.(pending) - 1) q else q.
Definition wakeWorker (q : keyQueue) : keyQueue := with_mandatoryWake true q.

(** ** The mandatory backlog *)

(** [q.pendingCleanupForLocked]. *)
Definition pendingCleanupForLocked (k : routingKey) (q : keyQueue)
  : option submitFailureCleanupEntry :=
  match filter (fun e => e.(e_task).(key) = k) q.(mandatory) with
  | [] => None
  | e :: _ => Some e
  end.

(** [q.noteMandatoryProgressLocked]: close the progress channel, and replace it
    unless the backlog is empty. *)
Definition noteMandatoryProgressLocked (q : keyQueue) : keyQueue :=
  match q.(mandatory) with
  | [] => with_progressChan None q
  | _ => with_progressNext (S q.(progressNext))
           (with_progressChan (Some q.(progressNext)) q)
  end.

(** [b.enqueueMandatory], the section under [mandatoryMu]. [None] is the
    refusal of a lane that takes no more work. *)
Definition enqueueMandatory (tracksIdle : bool) (qt : queuedTask)
    (waitFence : bool) (q : keyQueue) : option keyQueue :=
  if q.(retired) || q.(workerExited) then None
  else
    let q := if tracksIdle then with_pending (q.(pending) + 1) q else q in
    let q := match q.(progressChan) with
             | None => with_progressNext (S q.(progressNext))
                         (with_progressChan (Some q.(progressNext)) q)
             | Some _ => q
             end in
    let cutoff := q.(admitted) in
    let e := {| e_task := qt; admittedCutoff := cutoff;
                settleTarget := cutoff; waitSubmitFence := waitFence |} in
    Some (with_mandatoryQueued true (with_mandatory (q.(mandatory) ++ [e]) q)).

(** [q.markRetired]. *)
Definition markRetired (q : keyQueue) : option keyQueue :=
  match q.(mandatory) with
  | [] => Some (with_retired true q)
  | _ => None
  end.

(** [b.finishWorker]: the exit gate of the worker. *)
Definition finishWorker (q : keyQueue) : option keyQueue :=
  match q.(mandatory) with
  | [] => Some (with_workerExited true q)
  | _ => None
  end.

(** The head entry with its fence resolved, once the submit fence is closed. *)
Definition refreshEntry (q : keyQueue) (e : submitFailureCleanupEntry)
  : submitFailureCleanupEntry :=
  {| e_task := e.(e_task); admittedCutoff := q.(admitted);
     settleTarget := q.(admitted); waitSubmitFence := false |}.

Definition setHead (e : submitFailureCleanupEntry) (q : keyQueue) : keyQueue :=
  match q.(mandatory) with
  | [] => q
  | _ :: rest => with_mandatory (e :: rest) q
  end.

Definition popHead (q : keyQueue) : keyQueue :=
  let rest := tail q.(mandatory) in
  noteMandatoryProgressLocked
    (with_mandatoryQueued (negb (bool_decide (rest = [])))
      (with_mandatory rest q)).

(** What [takeMandatoryCleanup] returns: a task, nothing, or nothing while the
    head waits for the submit fence. *)
Inductive takeResult :=
| TakeTask (qt : queuedTask)
| TakeNone (waitingForSubmitFence : bool).

(** [b.takeMandatoryCleanup]. *)
Definition takeMandatoryCleanup (fence : bool) (q : keyQueue)
  : takeResult * keyQueue :=
  if negb q.(mandatoryQueued) then (TakeNone false, q)
  else
    match q.(mandatory) with
    | [] => (TakeNone false, q)
    | e :: _ =>
      if e.(waitSubmitFence) && negb fence then (TakeNone true, q)
      else
        let e' := if e.(waitSubmitFence) then refreshEntry q e else e in
        let q := setHead e' q in
        if q.(settled) <? e'.(settleTarget) then (TakeNone false, q)
        else (TakeTask e'.(e_task), popHead q)
    end.

(** [closeQueueChannels] on one queue, under its gate: a channel is closed at
    most once, and a retired queue's channel is not closed. *)
Definition closeQueueChannel (q : keyQueue) : keyQueue :=
  if q.(closed) then q else with_ch_closed true (with_closed true q).

(** The conditions [retireIfIdle] checks on the queue (twice), the idle clock
    aside. *)
Definition idleChecks (q : keyQueue) : bool :=
  (q.(pending) =? 0)%Z && bool_decide (q.(ch) = []).

(** The end of [retireIfIdle] once [markRetired] sealed the lane. *)
Definition closeRetired (q : keyQueue) : keyQueue :=
  with_quit_closed true (with_closed true q).
