(* ===== verification/LaneSystem.v ===== *)
(** * The lane as a transition system

    One lane of a strategy with everything that runs against it: any number of
    producers ([submitToShardWithFailureHandoff] of a Sharded strategy, or
    [submitWithFailureHandoff] with [submitToRegisteredQueue] of a Dynamic one),
    their failure handoffs ([scheduleSubmitFailureCleanup]), the barriers an
    Exclusive section enqueues, the worker, idle retirement, and the stop
    sequence with its in-flight count and submit fence
    (asyncengine/strategy.go, sharded.go, dynamic.go). Other lanes of the same
    strategy appear only through the shared [inFlight], [stop], [hard] and
    [fence].

    A goroutine is a program counter; a label picks the goroutine that moves and
    the ready alternative it takes, so a context that expires, a full queue or
    the choice a [select] makes between ready cases are all labels. The
    granularity is one lock section or one atomic access or one channel
    operation per step. *)
From Stdlib Require Import ZArith Lia.
From stdpp Require Import base list gmap.
From S2P Require Import Prelude Routing Lane.

(** ** Configuration

    [dynamic]: the queue has a gate and a quit channel. [tracksIdle]: pending is
    maintained and idle retirement runs; only a Dynamic strategy sets it. *)
Record config := { dynamic : bool; tracksIdle : bool }.

Definition config_ok (c : config) : Prop :=
  c.(tracksIdle) = true -> c.(dynamic) = true.

(** What a submit returns. *)
Inductive result := ROk | RCtx | RStopped | RRetired.

#[global] Instance result_eq_dec : EqDecision result.
Proof. solve_decision. Defined.

(** ** Program counters

    [P*]: the submit path. [S*]: the failure handoff; [outer] is the error the
    enclosing submit returns when it runs inside a producer that is still
    registered, and [None] when the submit was refused before registering.
    [B*]: a barrier enqueue. *)
Inductive pc :=
| PBegin
| PGate
| PClosed
| PWait
| PWaitProgress (g : nat) (n : nat)
| PCtx
| PAdmit
| PFast (ticket : nat)
| PSlow (ticket : nat)
| PUnmark (ticket : nat) (r : result)
| PUnpend (wake : bool) (r : result)
| PWake (r : result)
| PUnlock (r : result)
| PRet (r : result)
| PEnd (r : result)
| PEndFence (zero : bool) (r : result)
| PDone (r : result)
| SBegin (outer : option result)
| SEnq (outer : option result)
| SEnqStopped (outer : option result)
| SWake (outer : option result) (registered : bool)
| SEnd (outer : option result) (scheduled : bool)
| SEndFence (zero : bool) (outer : option result) (scheduled : bool)
| SOff (outer : option result)
| SFinish (outer : option result)
| BEnq
| BWake
| BDone (taken : bool).

Record thread := { t_key : routingKey; t_handoff : bool; t_pc : pc }.

(** The worker between its atomic operations; the two flags are its local
    [channelClosed || laneRetired]. *)
Inductive wpc :=
| WTop (sealed : bool)
| WSelect (waitFence : bool)
| WFinish (waitFence : bool)
| WParked (waitFence : bool)
| WGot (qt : queuedTask)
| WRun (qt : queuedTask) (aborted : bool)
| WSettle
| WRunMandatory (sealed : bool) (qt : queuedTask)
| WDrain
| WDone.

(** The stop sequence and the idle retirement of this lane. *)
Inductive stop_pc := StopIdle | StopClosing | StopSignalled.
Inductive retire_pc := RetireIdle | RetireGate | RetireSealed | RetireDone.

(** What happened to tasks, newest last. [EvSent]: the channel accepted the
    task of a producer. [EvHandled]: the worker ran it, or aborted it. [EvEnq],
    [EvReleased]: a mandatory task entered the backlog, and the worker ran it.
    [EvOffLane]: a cleanup was released outside any lane. *)
Inductive event :=
| EvSent (n : nat)
| EvHandled (n : nat) (aborted : bool)
| EvEnq (n : nat)
| EvReleased (n : nat)
| EvOffLane (n : nat).

#[global] Instance event_eq_dec : EqDecision event.
Proof. solve_decision. Defined.

Record sys := mkSys {
  queue : keyQueue;
  stop : bool;
  hard : bool;
  fence : bool;
  inFlight : Z;
  threads : list thread;
  worker : wpc;
  stopper : stop_pc;
  retirer : retire_pc;
  log : list event;
  panicked : bool;
}.

Definition initial (c : config) (capacity : nat) : sys :=
  mkSys (newKeyQueue capacity) false false false 0 [] (WTop false)
    StopIdle RetireIdle [] false.

Definition with_queue (q : keyQueue) (s : sys) : sys :=
  mkSys q s.(stop) s.(hard) s.(fence) s.(inFlight) s.(threads) s.(worker)
    s.(stopper) s.(retirer) s.(log) s.(panicked).
Definition with_fence (b : bool) (s : sys) : sys :=
  mkSys s.(queue) s.(stop) s.(hard) b s.(inFlight) s.(threads) s.(worker)
    s.(stopper) s.(retirer) s.(log) s.(panicked).
Definition with_inFlight (n : Z) (s : sys) : sys :=
  mkSys s.(queue) s.(stop) s.(hard) s.(fence) n s.(threads) s.(worker)
    s.(stopper) s.(retirer) s.(log) s.(panicked).
Definition with_threads (l : list thread) (s : sys) : sys :=
  mkSys s.(queue) s.(stop) s.(hard) s.(fence) s.(inFlight) l s.(worker)
    s.(stopper) s.(retirer) s.(log) s.(panicked).
Definition with_worker (w : wpc) (s : sys) : sys :=
  mkSys s.(queue) s.(stop) s.(hard) s.(fence) s.(inFlight) s.(threads) w
    s.(stopper) s.(retirer) s.(log) s.(panicked).
Definition with_stopper (p : stop_pc) (b : bool) (s : sys) : sys :=
  mkSys s.(queue) b s.(hard) s.(fence) s.(inFlight) s.(threads) s.(worker)
    p s.(retirer) s.(log) s.(panicked).
Definition with_retirer (p : retire_pc) (s : sys) : sys :=
  mkSys s.(queue) s.(stop) s.(hard) s.(fence) s.(inFlight) s.(threads)
    s.(worker) s.(stopper) p s.(log) s.(panicked).
Definition with_hard (b : bool) (s : sys) : sys :=
  mkSys s.(queue) s.(stop) b s.(fence) s.(inFlight) s.(threads) s.(worker)
    s.(stopper) s.(retirer) s.(log) s.(panicked).
Definition with_panicked (s : sys) : sys :=
  mkSys s.(queue) s.(stop) s.(hard) s.(fence) s.(inFlight) s.(threads)
    s.(worker) s.(stopper) s.(retirer) s.(log) true.
Definition emit (e : event) (s : sys) : sys :=
  mkSys s.(queue) s.(stop) s.(hard) s.(fence) s.(inFlight) s.(threads)
    s.(worker) s.(stopper) s.(retirer) (s.(log) ++ [e]) s.(panicked).

(** ** Labels *)

(** The case of a [select] a goroutine takes, or [CGo] where it has only one
    way on. *)
Inductive choice := CGo | CCtx | CQuit | CStop | CProgress | CWake | CFence.

Inductive label :=
| LSubmit (k : routingKey) (handoff : bool)
| LBarrier
| LThread (i : nat) (c : choice)
| LWorker (c : choice)
| LStop
| LHardStop
| LCloseChannels
| LRetire.

(** ** Registration against stop *)

(** [beginSubmit]: under the read side of [submitMu], which [signalStopOnce]
    holds for writing while it closes stop and reads the count. *)
Definition beginSubmit (s : sys) : option (bool * sys) :=
  match s.(stopper) with
  | StopClosing => None
  | _ => if s.(stop) then Some (false, s)
         else Some (true, with_inFlight (s.(inFlight) + 1) s)
  end.

(** [endSubmit] in its two accesses: the decrement, whose result being zero is
    remembered, and then the read of the stop flag that may close the fence. *)
Definition endSubmitDec (s : sys) : bool * sys :=
  let n := (s.(inFlight) - 1)%Z in ((n =? 0)%Z, with_inFlight n s).
Definition endSubmitFence (zero : bool) (s : sys) : sys :=
  if zero && s.(stop) then with_fence true s else s.

(** [signalStopOnce]: close stop, then close the fence if nobody is
    registered. *)
Definition signalStopOnce (s : sys) : option sys :=
  match s.(stopper) with
  | StopIdle => Some (with_stopper StopClosing true s)
  | StopClosing =>
    let s := with_stopper StopSignalled true s in
    Some (if (s.(inFlight) =? 0)%Z then with_fence true s else s)
  | StopSignalled => None
  end.

(** [closeQueueChannels], reached once [waitInFlightSubmits] saw the fence; it
    takes the gate for writing. *)
Definition closeChannels (s : sys) : option sys :=
  match s.(stopper) with
  | StopSignalled =>
    if s.(fence) && (s.(queue).(gateReaders) =? 0)
       && negb s.(queue).(gateWriter)
    then Some (with_queue (closeQueueChannel s.(queue)) s)
    else None
  | _ => None
  end.

(** ** Producers *)

(** [waitForMandatoryCleanup]: one pass of its loop. *)
Definition waitForMandatoryCleanup (k : routingKey) (s : sys) : option pc :=
  let q := s.(queue) in
  if negb q.(mandatoryQueued) then Some PCtx
  else match pendingCleanupForLocked k q with
       | None => Some PCtx
       | Some e =>
         if e.(waitSubmitFence) && s.(stop) then Some PCtx
         else match q.(progressChan), e.(e_task).(task) with
              | Some g, (pendingSubmit n | submitFailureCleanupTask n
                        | exclusiveBarrierTask n) => Some (PWaitProgress g n)
              | None, _ => None
              end
       end.

(** The [select] of that loop. A progress channel is closed exactly when it is
    no longer the current one. *)
Definition waitSelect (cfg : config) (c : choice) (g : nat) (s : sys)
  : option pc :=
  match c with
  | CProgress => if bool_decide (s.(queue).(progressChan) = Some g) then None
                 else Some PWait
  | CQuit => if cfg.(dynamic) && s.(queue).(quit_closed)
             then Some (PUnlock RRetired) else None
  | CCtx => Some (PUnlock RCtx)
  | CStop => if s.(stop) then Some (PUnlock RStopped) else None
  | _ => None
  end.

(** The send case of [sendToQueue] at program counter [p]: a send on a closed
    channel panics there, a full channel is not ready. *)
Definition trySend (i : nat) (k : routingKey) (p : pc) (s : sys)
  : option (pc * sys) :=
  let q := s.(queue) in
  if q.(ch_closed) then Some (p, with_panicked s)
  else if length q.(ch) <? q.(ch_cap) then
    let qt := {| task := pendingSubmit i; key := k |} in
    Some (PUnlock ROk,
          emit (EvSent i) (with_queue (with_ch (q.(ch) ++ [qt]) q) s))
  else None.

(** [sendToQueue] after the fence wait. *)
Definition sendToQueue (cfg : config) (i : nat) (k : routingKey) (c : choice)
    (p : pc) (s : sys) : option (pc * sys) :=
  match p, c with
  | PCtx, CGo => Some (PAdmit, s)
  | PCtx, CCtx => Some (PUnlock RCtx, s)
  | PAdmit, CGo =>
    let '(ticket, q) := admitTask cfg.(tracksIdle) s.(queue) in
    Some (PFast ticket, with_queue q s)
  | PFast ticket, CGo =>
    match trySend i k p s with
    | Some r => Some r
    | None => Some (PSlow ticket, s)
    end
  | PSlow ticket, CGo => trySend i k p s
  | PSlow ticket, CQuit =>
    if cfg.(dynamic) && s.(queue).(quit_closed)
    then Some (PUnmark ticket RRetired, s) else None
  | PSlow ticket, CCtx => Some (PUnmark ticket RCtx, s)
  | PSlow ticket, CStop =>
    if s.(stop) then Some (PUnmark ticket RStopped, s) else None
  | PUnmark ticket r, CGo =>
    let '(wake, q) := unmarkSent ticket s.(queue) in
    Some (PUnpend wake r, with_queue q s)
  | PUnpend wake r, CGo =>
    Some (if wake then PWake r else PUnlock r,
          with_queue (unpend cfg.(tracksIdle) s.(queue)) s)
  | PWake r, CGo => Some (PUnlock r, with_queue (wakeWorker s.(queue)) s)
  | _, _ => None
  end.

(** The submit call around it: registration, the stop check and the gate of a
    Dynamic queue, the failure handoff, and the release of the registration. A
    Dynamic submit that found its queue closed returns to its loop: it sees the
    stop, or goes on with another lane and leaves this one as [PEnd RRetired]. *)
Definition submit (cfg : config) (handoff : bool) (c : choice) (p : pc)
    (s : sys) : option (pc * sys) :=
  match p, c with
  | PBegin, CGo =>
    match beginSubmit s with
    | None => None
    | Some (true, s) => Some (if cfg.(dynamic) then PGate else PWait, s)
    | Some (false, s) => Some (if handoff then SBegin None else PDone RStopped, s)
    end
  | PGate, CStop => if s.(stop) then Some (PRet RStopped, s) else None
  | PGate, CGo =>
    let q := s.(queue) in
    if q.(gateWriter) then None
    else Some (PClosed, with_queue (with_gateReaders (S q.(gateReaders)) q) s)
  | PClosed, CGo =>
    Some (if s.(queue).(closed) then PUnlock RRetired else PWait, s)
  | PUnlock r, CGo =>
    if cfg.(dynamic) then
      let q := s.(queue) in
      Some (PRet r, with_queue (with_gateReaders (pred q.(gateReaders)) q) s)
    else Some (PRet r, s)
  | PRet r, CGo =>
    match r with
    | RCtx | RStopped => Some (if handoff then SBegin (Some r) else PEnd r, s)
    | _ => Some (PEnd r, s)
    end
  | PRet RRetired, CStop => if s.(stop) then Some (PRet RStopped, s) else None
  | PEnd r, CGo =>
    let '(zero, s) := endSubmitDec s in Some (PEndFence zero r, s)
  | PEndFence zero r, CGo => Some (PDone r, endSubmitFence zero s)
  | _, _ => None
  end.

(** ** The failure handoff *)

Definition enqueueCleanup (cfg : config) (i : nat) (k : routingKey)
    (waitFence : bool) (s : sys) : option sys :=
  let qt := {| task := submitFailureCleanupTask i; key := k |} in
  match enqueueMandatory cfg.(tracksIdle) qt waitFence s.(queue) with
  | Some q => Some (emit (EvEnq i) (with_queue q s))
  | None => None
  end.

(** [scheduleSubmitFailureCleanup] as it meets this lane: under a registration
    while not stopped, fenced otherwise, and off-lane when the lane takes
    nothing. A Dynamic handoff refused by this lane returns to its loop; when the
    lane was retired, the map no longer has it and the loop goes on with another
    lane, which ends it here. *)
Definition scheduleSubmitFailureCleanup (cfg : config) (i : nat)
    (k : routingKey) (p : pc) (s : sys) : option (pc * sys) :=
  match p with
  | SBegin outer =>
    if cfg.(dynamic) && s.(stop) then Some (SEnqStopped outer, s)
    else match beginSubmit s with
    | None => None
    | Some (true, s) => Some (SEnq outer, s)
    | Some (false, s) => Some (SEnqStopped outer, s)
    end
  | SEnq outer =>
    match enqueueCleanup cfg i k false s with
    | Some s => Some (SWake outer true, s)
    | None => Some (SEnd outer false, s)
    end
  | SWake outer registered =>
    Some (if registered then SEnd outer true else SFinish outer,
          with_queue (wakeWorker s.(queue)) s)
  | SEnd outer scheduled =>
    let '(zero, s) := endSubmitDec s in
    Some (SEndFence zero outer scheduled, s)
  | SEndFence zero outer scheduled =>
    Some (if scheduled then SFinish outer
          else if negb cfg.(dynamic) then SEnqStopped outer
          else if s.(queue).(retired) then SFinish outer
          else SBegin outer,
          endSubmitFence zero s)
  | SEnqStopped outer =>
    match enqueueCleanup cfg i k true s with
    | Some s => Some (SWake outer false, s)
    | None => Some (SOff outer, s)
    end
  | SOff outer => Some (SFinish outer, emit (EvOffLane i) s)
  | SFinish outer =>
    Some (match outer with Some r => PEnd r | None => PDone RStopped end, s)
  | _ => None
  end.

(** [enqueueBarrier]. *)
Definition enqueueBarrier (cfg : config) (i : nat) (p : pc) (s : sys)
  : option (pc * sys) :=
  match p with
  | BEnq =>
    let qt := {| task := exclusiveBarrierTask i; key := exclusiveRoutingKey |} in
    match enqueueMandatory cfg.(tracksIdle) qt false s.(queue) with
    | Some q => Some (BWake, emit (EvEnq i) (with_queue q s))
    | None => Some (BDone false, s)
    end
  | BWake => Some (BDone true, with_queue (wakeWorker s.(queue)) s)
  | _ => None
  end.

Definition thread_step (cfg : config) (i : nat) (t : thread) (c : choice)
    (s : sys) : option (pc * sys) :=
  match t.(t_pc) with
  | PBegin | PGate | PClosed | PUnlock _ | PRet _ | PEnd _ | PEndFence _ _ =>
    submit cfg t.(t_handoff) c t.(t_pc) s
  | PWait =>
    match c, waitForMandatoryCleanup t.(t_key) s with
    | CGo, Some p => Some (p, s)
    | _, _ => None
    end
  | PWaitProgress g _ =>
    match waitSelect cfg c g s with Some p => Some (p, s) | None => None end
  | PCtx | PAdmit | PFast _ | PSlow _ | PUnmark _ _ | PUnpend _ _ | PWake _ =>
    sendToQueue cfg i t.(t_key) c t.(t_pc) s
  | SBegin _ | SEnq _ | SEnqStopped _ | SWake _ _ | SEnd _ _
  | SEndFence _ _ _ | SOff _ | SFinish _ =>
    match c with
    | CGo => scheduleSubmitFailureCleanup cfg i t.(t_key) t.(t_pc) s
    | _ => None
    end
  | BEnq | BWake =>
    match c with CGo => enqueueBarrier cfg i t.(t_pc) s | _ => None end
  | PDone _ | BDone _ => None
  end.

(** ** The worker *)

Definition task_id (qt : queuedTask) : nat :=
  match qt.(task) with
  | pendingSubmit n | submitFailureCleanupTask n | exclusiveBarrierTask n => n
  end.

(** The end of [handleTask] and [handleBarrier]: the task ran, or was aborted
    under a hard stop, and the deferred decrement of the pending count. *)
Definition handleTask (cfg : config) (ev : event) (s : sys) : sys :=
  emit ev (with_queue (unpend cfg.(tracksIdle) s.(queue)) s).

(** [drainAndAbort]: one iteration, [None] once nothing is buffered. *)
Definition drainAndAbort (cfg : config) (s : sys) : option sys :=
  match s.(queue).(ch) with
  | [] => None
  | qt :: rest =>
    Some (emit (EvHandled (task_id qt) true)
      (with_queue (settle (unpend cfg.(tracksIdle)
        (with_ch rest s.(queue)))) s))
  end.

Definition is_parked (w : wpc) : bool :=
  match w with WParked _ => true | _ => false end.

(** [worker]: its loop and [waitForCleanupRelease]. *)
Definition worker_step (cfg : config) (c : choice) (s : sys) : option sys :=
  match s.(worker), c with
  | WTop sealed, CGo =>
    let '(r, q) := takeMandatoryCleanup s.(fence) s.(queue) in
    let s := with_queue q s in
    Some (match r with
          | TakeTask qt => with_worker (WRunMandatory sealed qt) s
          | TakeNone w => with_worker (if sealed then WFinish w else WSelect w) s
          end)
  | WRunMandatory sealed qt, CGo =>
    Some (with_worker (WTop sealed)
      (handleTask cfg (EvReleased (task_id qt)) s))
  | WSelect w, CGo =>
    match s.(queue).(ch) with
    | qt :: rest =>
      Some (with_worker (WGot qt) (with_queue (with_ch rest s.(queue)) s))
    | [] => if s.(queue).(ch_closed) then Some (with_worker (WTop true) s)
            else None
    end
  | WSelect w, CWake | WParked w, CWake =>
    if s.(queue).(mandatoryWake)
    then Some (with_worker (WTop (is_parked s.(worker)))
           (with_queue (with_mandatoryWake false s.(queue)) s))
    else None
  | WSelect w, CFence | WParked w, CFence =>
    if w && s.(fence)
    then Some (with_worker (WTop (is_parked s.(worker))) s)
    else None
  | WSelect w, CQuit =>
    if s.(queue).(quit_closed) then Some (with_worker WDrain s) else None
  | WGot qt, CGo => Some (with_worker (WRun qt s.(hard)) s)
  | WRun qt aborted, CGo =>
    Some (with_worker WSettle (handleTask cfg (EvHandled (task_id qt) aborted) s))
  | WSettle, CGo =>
    Some (with_worker (WTop false) (with_queue (settle s.(queue)) s))
  | WDrain, CGo =>
    match drainAndAbort cfg s with
    | Some s => Some s
    | None => Some (with_worker (WTop true) s)
    end
  | WFinish w, CGo =>
    match finishWorker s.(queue) with
    | Some q => Some (with_worker WDone (with_queue q s))
    | None => Some (with_worker (WParked w) s)
    end
  | _, _ => None
  end.

(** ** Idle retirement *)

(** [retireIfIdle]: [gate.TryLock] with the checks under it, the seal, and the
    close. *)
Definition retireIfIdle (cfg : config) (s : sys) : option sys :=
  let q := s.(queue) in
  if negb cfg.(tracksIdle) then None
  else match s.(retirer) with
  | RetireIdle =>
    if (q.(gateReaders) =? 0) && negb q.(gateWriter) && idleChecks q
       && negb q.(closed)
    then Some (with_retirer RetireGate (with_queue (with_gateWriter true q) s))
    else None
  | RetireGate =>
    match markRetired q with
    | None => Some (with_retirer RetireIdle (with_queue (with_gateWriter false q) s))
    | Some q => Some (with_retirer RetireSealed (with_queue q s))
    end
  | RetireSealed =>
    Some (with_retirer RetireDone
      (with_queue (with_gateWriter false (closeRetired q)) s))
  | RetireDone => None
  end.

(** ** The step *)

Definition step (cfg : config) (l : label) (s : sys) : option sys :=
  if s.(panicked) then None
  else match l with
  | LSubmit k handoff =>
    Some (with_threads (s.(threads) ++
      [{| t_key := k; t_handoff := handoff; t_pc := PBegin |}]) s)
  | LBarrier =>
    Some (with_threads (s.(threads) ++
      [{| t_key := exclusiveRoutingKey; t_handoff := false; t_pc := BEnq |}]) s)
  | LThread i c =>
    match s.(threads) !! i with
    | None => None
    | Some t =>
      match thread_step cfg i t c s with
      | None => None
      | Some (p, s') =>
        Some (with_threads (<[i := {| t_key := t.(t_key);
          t_handoff := t.(t_handoff); t_pc := p |}]> s.(threads)) s')
      end
    end
  | LWorker c => worker_step cfg c s
  | LStop => signalStopOnce s
  | LHardStop => Some (with_hard true s)
  | LCloseChannels => closeChannels s
  | LRetire => retireIfIdle cfg s
  end.

Definition is_initial (cfg : config) (s : sys) : Prop :=
  exists capacity, 0 < capacity /\ s = initial cfg capacity.

Abbreviation reach cfg := (reachable (step cfg) (is_initial cfg)).

(** ** Evaluating an execution

    The state a list of labels leads to from the start, and the start when the
    list is not an execution; either is reachable. *)
Definition end_of (cfg : config) (capacity : nat) (ls : list label) : sys :=
  default (initial cfg capacity) (run (step cfg) ls (initial cfg capacity)).

Lemma end_of_reach cfg capacity ls :
  0 < capacity -> reach cfg (end_of cfg capacity ls).
Proof.
  intros Hc. assert (reach cfg (initial cfg capacity)) as Hi
    by (apply reachable_init; by exists capacity).
  unfold end_of. destruct (run _ _ _) as [s|] eqn:E; cbn; [|done].
  by eapply run_reachable.
Qed.

(** Label [l] repeated. *)
Definition times (n : nat) (l : label) : list label := replicate n l.

Definition sharded_cfg : config := {| dynamic := false; tracksIdle := false |}.
Definition dynamic_cfg : config := {| dynamic := true; tracksIdle := true |}.

(** A submit accepted at once, a second one whose context expires while the
    one-slot channel is full and whose handle goes to the backlog, and the
    worker that handles the first task and then releases the handle. *)
Definition overtaking_run : list label :=
  [LSubmit exclusiveRoutingKey true; LSubmit exclusiveRoutingKey true]
  ++ times 8 (LThread 0 CGo)
  ++ times 5 (LThread 1 CGo) ++ [LThread 1 CCtx]
  ++ times 8 (LThread 1 CGo)
  ++ times 8 (LWorker CGo).

(** The same lane shut down: both producers return, the stop closes the fence
    and the channel, and the worker exits. *)
Definition shutdown_run : list label :=
  overtaking_run ++ [LThread 0 CGo] ++ times 4 (LThread 1 CGo)
  ++ [LStop; LStop; LCloseChannels] ++ [LWorker CWake]
  ++ times 4 (LWorker CGo).

(** A Dynamic lane that handles one submit, retires when idle and ends its
    worker. *)
Definition retire_run : list label :=
  [LSubmit exclusiveRoutingKey true] ++ times 11 (LThread 0 CGo)
  ++ times 5 (LWorker CGo) ++ times 3 LRetire
  ++ [LWorker CGo; LWorker CQuit] ++ times 3 (LWorker CGo).
