(* ===== verification/LaneCounts.v ===== *)
(** * Lane invariants: what the counters count

    The in-flight count, the gate's reader count, the admitted/settled pair and
    the pending count of a reachable lane, each as a sum over the goroutines,
    the channel, the backlog and the worker. *)
From Stdlib Require Import ZArith Lia.
From stdpp Require Import base list gmap.
From S2P Require Import Prelude Routing Lane LaneSystem.

Definition opt2n {A} (o : option A) : nat := match o with Some _ => 1 | None => 0 end.

(** Registrations a goroutine holds ([beginSubmit] without its [endSubmit]). *)
Definition reg (t : thread) : nat :=
  match t.(t_pc) with
  | PBegin | PEndFence _ _ | PDone _ | BEnq | BWake | BDone _ => 0
  | SEnq o | SEnd o _ => 1 + opt2n o
  | SWake o r => b2n r + opt2n o
  | SBegin o | SEndFence _ o _ | SEnqStopped o | SOff o | SFinish o => opt2n o
  | _ => 1
  end.

(** Read locks of the gate. *)
Definition gated (t : thread) : nat :=
  match t.(t_pc) with
  | PClosed | PWait | PWaitProgress _ _ | PCtx | PAdmit | PFast _ | PSlow _
  | PUnmark _ _ | PUnpend _ _ | PWake _ | PUnlock _ => 1
  | _ => 0
  end.

(** Admissions neither sent nor abandoned. *)
Definition outstanding (t : thread) : nat :=
  match t.(t_pc) with PFast _ | PSlow _ | PUnmark _ _ => 1 | _ => 0 end.

(** Pending bumps not yet undone. *)
Definition bumped (t : thread) : nat :=
  match t.(t_pc) with
  | PFast _ | PSlow _ | PUnmark _ _ | PUnpend _ _ => 1 | _ => 0
  end.

(** A channel task the worker took and has not settled, or not finished. *)
Definition unsettled (w : wpc) : nat :=
  match w with WGot _ | WRun _ _ | WSettle => 1 | _ => 0 end.
Definition running (w : wpc) : nat :=
  match w with WGot _ | WRun _ _ | WRunMandatory _ _ => 1 | _ => 0 end.

(** ** Case analysis of a step *)

Lemma thread_step_frame cfg i t c s p s' :
  thread_step cfg i t c s = Some (p, s') -> s'.(threads) = s.(threads).
Proof.
  destruct t as [k h []]; cbn; unfold submit, sendToQueue,
    scheduleSubmitFailureCleanup, enqueueBarrier, beginSubmit, endSubmitDec,
    endSubmitFence, enqueueCleanup, trySend, waitForMandatoryCleanup,
    waitSelect; intros; split_matches.
Qed.

Lemma step_thread_inv cfg i c s s' :
  step cfg (LThread i c) s = Some s' ->
  exists t p s1, s.(threads) !! i = Some t /\
    thread_step cfg i t c s = Some (p, s1) /\
    s' = with_threads (<[i := {| t_key := t.(t_key);
           t_handoff := t.(t_handoff); t_pc := p |}]> s.(threads)) s1.
Proof.
  unfold step. destruct (panicked s); [done|].
  destruct (threads s !! i) as [t|] eqn:Ht; [|done]. cbn.
  destruct (thread_step cfg i t c s) as [[p s1]|] eqn:E; [|done]. cbn.
  intros [= <-]. by exists t, p, s1.
Qed.

(** Splits a step into its cases; the threads case leaves the program counter
    before and after the step and the lookup equation [Hlk]. *)
Ltac open_fns :=
  unfold submit, sendToQueue, scheduleSubmitFailureCleanup, enqueueBarrier,
    beginSubmit, endSubmitDec, endSubmitFence, enqueueCleanup, trySend,
    waitForMandatoryCleanup, waitSelect, signalStopOnce, closeChannels,
    retireIfIdle, worker_step, drainAndAbort, handleTask in *.

Ltac step_cases H :=
  match type of H with
  | step _ ?l _ = Some _ =>
    destruct l as [k hoff| |i c|c| | | |];
    [unfold step in H; split_matches
    |unfold step in H; split_matches
    |apply step_thread_inv in H as ([k hoff p0] & p & s1 & Hlk & H & ->);
     destruct p0; cbn in H; open_fns; split_matches
    |unfold step in H; open_fns; split_matches
    |unfold step in H; open_fns; split_matches
    |unfold step in H; split_matches
    |unfold step in H; open_fns; split_matches
    |unfold step in H; open_fns; split_matches]
  end.

(** Unfolds the queue operations of a step. *)
Ltac open_queue :=
  unfold admitTask, unmarkSent, unpend, wakeWorker, settle, enqueueMandatory,
    closeQueueChannel, markRetired, finishWorker, closeRetired,
    takeMandatoryCleanup, popHead, setHead, refreshEntry, idleChecks,
    noteMandatoryProgressLocked in *.

(** Uses what a case says about a field of the source state. *)
Ltac use_fields :=
  repeat match goal with
  | H : worker _ = _ |- _ => rewrite H in *; revert H
  | H : ch _ = _ |- _ => rewrite H in *; revert H
  | H : mandatory _ = _ |- _ => rewrite H in *; revert H
  | H : tracksIdle _ = _ |- _ => rewrite H in *; revert H
  end; intros.

(** Closes a case that is a count: the sums of the moved goroutine and lia. *)
Ltac counting Hlk :=
  try csum_step Hlk; use_fields; rewrite ?csum_app in *;
  rewrite ?length_app in *; rewrite ?length_fmap in *; cbn in *;
  try done; try lia.

(** ** The in-flight count *)

Lemma inFlight_counts cfg :
  forall s, reach cfg s -> s.(inFlight) = Z.of_nat (csum reg s.(threads)).
Proof.
  invariant_induction; [by intros s0 (n & _ & ->)|].
  step_cases H.
  all: counting Hlk.
Qed.

(** ** The gate *)

Lemma gateReaders_counts cfg :
  forall s, reach cfg s ->
  cfg.(dynamic) = true -> s.(queue).(gateReaders) = csum gated s.(threads).
Proof.
  invariant_induction; [by intros s0 (n & _ & ->)|].
  intros Hdyn. specialize (IH Hdyn). step_cases H.
  all: open_queue; split_matches; counting Hlk.
Qed.

(** ** Admissions *)

(** Every admission is settled, outstanding, buffered, or in the worker's
    hands. *)
Lemma admitted_counts cfg :
  forall s, reach cfg s ->
  s.(queue).(admitted) =
    s.(queue).(settled) + csum outstanding s.(threads)
    + length s.(queue).(ch) + unsettled s.(worker).
Proof.
  invariant_induction; [by intros s0 (n & _ & ->)|].
  step_cases H.
  all: open_queue; split_matches; counting Hlk.
Qed.

(** ** The pending count *)

(** With idle tracking, [pending] is exactly the work the lane owes: bumped
    producers, buffered tasks, the backlog and the task being run. *)
Lemma pending_counts cfg :
  forall s, reach cfg s -> cfg.(tracksIdle) = true ->
  s.(queue).(pending) =
    Z.of_nat (csum bumped s.(threads) + length s.(queue).(ch)
              + length s.(queue).(mandatory) + running s.(worker)).
Proof.
  invariant_induction; [by intros s0 (n & _ & ->)|].
  intros Hidle. specialize (IH Hidle). step_cases H.
  all: open_queue; split_matches; counting Hlk.
Qed.
