(* ===== verification/LaneOrder.v ===== *)
(** * Lane order: mandatory work runs behind accepted work

    A lane handles the tasks its channel accepted in the order it accepted
    them, and a mandatory task (a handle release after a failed submit, or the
    barrier of an Exclusive section) runs only when every task accepted before
    it entered the backlog has been handled. *)
From Stdlib Require Import ZArith Lia.
From stdpp Require Import base list gmap.
From S2P Require Import Prelude Routing Lane LaneSystem LaneCounts.

(** ** Reading the event log *)

Definition sent_log (l : list event) : list nat :=
  omap (fun e => match e with EvSent n => Some n | _ => None end) l.
Definition handled_log (l : list event) : list nat :=
  omap (fun e => match e with EvHandled n _ => Some n | _ => None end) l.

#[global] Arguments sent_log !l /.
#[global] Arguments handled_log !l /.

(** The tasks the channel had accepted when mandatory task [c] was enqueued. *)
Fixpoint sent_before (c : nat) (l : list event) : list nat :=
  match l with
  | [] => []
  | EvEnq n :: l => if decide (n = c) then [] else sent_before c l
  | EvSent n :: l => n :: sent_before c l
  | _ :: l => sent_before c l
  end.

Lemma sent_before_prefix c l : sent_before c l `prefix_of` sent_log l.
Proof.
  induction l as [|[n|n a|n|n|n] l IH]; cbn; try done.
  - by apply prefix_cons.
  - case_decide; [apply prefix_nil|done].
Qed.

Lemma sent_before_app c l l' :
  EvEnq c ∈ l -> sent_before c (l ++ l') = sent_before c l.
Proof.
  induction l as [|[n|n a|n|n|n] l IH]; cbn; intros H.
  1: by apply not_elem_of_nil in H.
  all: apply elem_of_cons in H as [[= <-]|H].
  all: try (case_decide; [done|]).
  all: by rewrite ?IH.
Qed.

Lemma sent_before_length c l : length (sent_before c l) <= length (sent_log l).
Proof. apply prefix_length, sent_before_prefix. Qed.

Lemma sent_log_app l l' : sent_log (l ++ l') = sent_log l ++ sent_log l'.
Proof. apply omap_app. Qed.
Lemma handled_log_app l l' : handled_log (l ++ l') = handled_log l ++ handled_log l'.
Proof. apply omap_app. Qed.

(** ** FIFO *)

(** The channel task the worker holds and has not handled. *)
Definition in_hand (w : wpc) : list nat :=
  match w with WGot qt | WRun qt _ => [task_id qt] | _ => [] end.

Ltac use_logs :=
  rewrite ?sent_log_app, ?handled_log_app in *; cbn in *;
  rewrite ?app_nil_r in *.

Lemma fifo_inv cfg :
  forall s, reach cfg s ->
  sent_log s.(log) =
    handled_log s.(log) ++ in_hand s.(worker) ++ (task_id <$> s.(queue).(ch)).
Proof.
  invariant_induction; [by intros s0 (n & _ & ->)|].
  step_cases H.
  all: open_queue; split_matches; use_logs; use_fields; cbn in *; try done.
  all: rewrite ?fmap_app, ?IH, <- ?app_assoc; cbn; rewrite ?app_nil_r; try done.
Qed.

Lemma handled_prefix cfg s :
  reach cfg s -> handled_log s.(log) `prefix_of` sent_log s.(log).
Proof. intros Hr. rewrite (fifo_inv cfg s Hr). by eexists. Qed.

(** A channel task that was handled and is not settled yet. *)
Definition settling (w : wpc) : nat := if w is WSettle then 1 else 0.

(** The counting form of [fifo_inv]. *)
Lemma sent_handled_length cfg s :
  reach cfg s ->
  length (sent_log s.(log)) + settling s.(worker) =
    length (handled_log s.(log)) + unsettled s.(worker)
    + length s.(queue).(ch).
Proof.
  intros Hr. rewrite (fifo_inv cfg s Hr), !length_app, length_fmap.
  destruct (worker s); cbn; lia.
Qed.

(** ** Tickets *)

(** The outstanding admissions with a ticket within [cutoff]. *)
Definition outstanding_upto (cutoff : nat) (t : thread) : nat :=
  match t.(t_pc) with
  | PFast k | PSlow k | PUnmark k _ => if cutoff <? k then 0 else 1
  | _ => 0
  end.

Lemma outstanding_upto_le cutoff l :
  csum (outstanding_upto cutoff) l <= csum outstanding l.
Proof.
  apply csum_le. intros [k h []]; cbn; try lia.
  all: case_match; lia.
Qed.

Definition ticket (t : thread) : nat :=
  match t.(t_pc) with PFast k | PSlow k | PUnmark k _ => k | _ => 0 end.

Lemma tickets_bounded cfg :
  forall s, reach cfg s ->
  Forall (fun t => ticket t <= s.(queue).(admitted)) s.(threads).
Proof.
  invariant_induction; [by intros s0 (n & _ & ->)|].
  assert (Forall (fun t => ticket t <= S s0.(queue).(admitted)) s0.(threads))
    as IH' by (eapply Forall_impl; [exact IH|]; cbn; lia).
  step_cases H.
  all: try pose proof (Forall_lookup_1 _ _ _ _ IH Hlk) as Hi.
  all: open_queue; split_matches; try done.
  all: try (apply Forall_app; split; [done|]; apply Forall_singleton; cbn; lia).
  all: apply Forall_insert_same; cbn in *; solve [done | lia].
Qed.

Lemma tickets_upto cfg s :
  reach cfg s ->
  csum (outstanding_upto s.(queue).(admitted)) s.(threads)
    = csum outstanding s.(threads).
Proof.
  intros Hr. apply csum_ext. intros t Ht.
  pose proof (proj1 (Forall_forall _ _) (tickets_bounded cfg s Hr) t Ht) as Hk.
  destruct t as [k h []]; cbn in *; try done.
  all: match goal with |- context [?a <? ?b] => destruct (Nat.ltb_spec a b) end.
  all: lia.
Qed.

(** ** The backlog *)

(** What holds of a queued entry: its enqueue is on the log, its cutoff is an
    admission count that was reached, and its target cannot be met before the
    tasks sent ahead of it are handled: abandoned admissions and the ones that
    may still be abandoned are covered by the target. *)
Definition entry_ok (s : sys) (e : submitFailureCleanupEntry) : Prop :=
  EvEnq (task_id e.(e_task)) ∈ s.(log) /\
  e.(admittedCutoff) <= s.(queue).(admitted) /\
  length (sent_before (task_id e.(e_task)) s.(log)) + s.(queue).(settled)
    + settling s.(worker)
    + csum (outstanding_upto e.(admittedCutoff)) s.(threads)
  <= e.(settleTarget) + length (handled_log s.(log)).

(** The mandatory task the worker is running has everything ahead of it
    handled. *)
Definition released_ok (w : wpc) (l : list event) : Prop :=
  match w with
  | WRunMandatory _ qt =>
    EvEnq (task_id qt) ∈ l /\
    length (sent_before (task_id qt) l) <= length (handled_log l)
  | _ => True
  end.

Definition order_inv (s : sys) : Prop :=
  Forall (entry_ok s) s.(queue).(mandatory) /\ released_ok s.(worker) s.(log).

(** Entries survive a step that only lets counters grow the right way. *)
Lemma entry_ok_mono s s' e :
  entry_ok s e ->
  (exists l, s'.(log) = s.(log) ++ l) ->
  s.(queue).(admitted) <= s'.(queue).(admitted) ->
  s'.(queue).(settled) + settling s'.(worker)
    + csum (outstanding_upto e.(admittedCutoff)) s'.(threads)
    + length (handled_log s.(log))
  <= s.(queue).(settled) + settling s.(worker)
    + csum (outstanding_upto e.(admittedCutoff)) s.(threads)
    + length (handled_log s'.(log)) ->
  entry_ok s' e.
Proof.
  intros (H1 & H2 & H3) [l Hl] Ha Hb. unfold entry_ok. rewrite Hl in *.
  rewrite sent_before_app by done.
  split; [apply elem_of_app; by left|]. split; lia.
Qed.

(** Closes a step that only extends the log and lets the counters move the
    right way, for the entries it leaves alone. *)
Ltac keep_entries Hlk :=
  eapply Forall_impl; [eassumption|]; intros e0 He;
  eapply entry_ok_mono; [exact He|first [exists []; cbn; by rewrite app_nil_r|eexists; cbn; reflexivity]| |];
  pose proof He as (_ & ? & _);
  cbn; use_fields; cbn; rewrite ?handled_log_app, ?length_app, ?csum_app; try csum_step Hlk; cbn in *;
  repeat match goal with
  | _ : context [?a <? ?b] |- _ => destruct (Nat.ltb_spec a b)
  end; lia.

(** A cutoff taken now covers everything the channel has accepted. *)
Lemma entry_ok_fresh cfg s e :
  reach cfg s -> EvEnq (task_id e.(e_task)) ∈ s.(log) ->
  e.(admittedCutoff) = s.(queue).(admitted) ->
  e.(settleTarget) = s.(queue).(admitted) ->
  entry_ok s e.
Proof.
  intros Hr Hin Hc Ht. split; [done|]. rewrite Hc, Ht, (tickets_upto cfg s Hr).
  pose proof (admitted_counts cfg s Hr). pose proof (sent_handled_length cfg s Hr).
  pose proof (sent_before_length (task_id e.(e_task)) s.(log)). lia.
Qed.

(** An abandoned admission settles at once; the entries whose cutoff counts it
    move their target. *)
Lemma entry_ok_raise s s' i t p tk e :
  entry_ok s e -> s.(threads) !! i = Some t ->
  (forall c, outstanding_upto c t = if c <? tk then 0 else 1) ->
  s'.(log) = s.(log) -> s'.(worker) = s.(worker) ->
  s'.(threads) = <[i := p]> s.(threads) -> outstanding p = 0 ->
  s'.(queue).(admitted) = s.(queue).(admitted) ->
  s'.(queue).(settled) = S s.(queue).(settled) ->
  entry_ok s' (raiseTarget tk e).
Proof.
  intros (H1 & H2 & H3) Hlk Hc Hl Hw Ht Hp Ha Hs.
  pose proof (csum_insert (outstanding_upto e.(admittedCutoff)) _ i t p Hlk) as Hsum.
  assert (outstanding_upto e.(admittedCutoff) p = 0) as Hp0.
  { destruct p as [k h []]; cbn in *; try done. }
  rewrite Hc in Hsum. unfold entry_ok, raiseTarget.
  destruct (Nat.ltb_spec e.(admittedCutoff) tk); cbn;
    rewrite Hl, Hw, Ht, Ha, Hs; repeat split; try done; lia.
Qed.

Lemma released_ok_app w l l' : released_ok w l -> released_ok w (l ++ l').
Proof.
  destruct w; cbn; try done. intros [H1 H2].
  rewrite handled_log_app, length_app, sent_before_app by done.
  split; [apply elem_of_app; by left|lia].
Qed.

(** An entry whose target is met has everything sent ahead of it handled. *)
Lemma entry_ok_met s e :
  entry_ok s e -> (s.(queue).(settled) <? e.(settleTarget)) = false ->
  EvEnq (task_id e.(e_task)) ∈ s.(log) /\
  length (sent_before (task_id e.(e_task)) s.(log))
    <= length (handled_log s.(log)).
Proof.
  intros (H1 & H2 & H3) Ht. apply Nat.ltb_ge in Ht. split; [done|lia].
Qed.

Lemma order_invariant cfg : forall s, reach cfg s -> order_inv s.
Proof.
  invariant_induction; [by intros s0 (n & _ & ->)|].
  pose proof (reachable_step _ _ _ _ _ Hr H) as Hr'.
  step_cases H.
  all: open_queue; split_matches.
  all: destruct IH as [IH IHw].
  all: use_fields.
  all: try (split; [solve [keep_entries Hlk]
                   |cbn in *; try done; by apply released_ok_app]).
  all: try (split; [|cbn in *; try done; by apply released_ok_app];
    apply Forall_app; split; [keep_entries Hlk|];
    apply Forall_singleton; eapply entry_ok_fresh; [exact Hr'| |done..];
    cbn; apply elem_of_app; right; by apply list_elem_of_singleton).
  all: try (split; [|done]; apply Forall_fmap;
    eapply Forall_impl; [exact IH|]; intros e0 He;
    by eapply (entry_ok_raise s0)).
  all: try (split; [cbn; use_fields; solve [keep_entries Hlk]|done]).
  all: try (apply Forall_cons in IH as [IHhd IH]).
  all: try (split; [solve [keep_entries Hlk]|]).
  all: try (cbn; eapply entry_ok_met; [exact IHhd|done]).
  all: try (cbn; eapply (entry_ok_met s0 (refreshEntry (queue s0) _));
            [eapply entry_ok_fresh; [exact Hr|apply IHhd|done..]|done]).
  all: try (split; [|done]; apply Forall_cons; split; [|keep_entries Hlk];
    eapply entry_ok_fresh; [exact Hr'|apply IHhd|done..]).
  all: cbn; use_fields; done.
Qed.

(** ** The order of the log *)

(** A step logs at most one event, and a release is logged by the worker that
    runs the mandatory task. *)
Lemma step_log cfg l s s' :
  step cfg l s = Some s' ->
  s'.(log) = s.(log) \/
  exists e, s'.(log) = s.(log) ++ [e] /\
    forall c, e = EvReleased c ->
      exists sealed qt, s.(worker) = WRunMandatory sealed qt /\ task_id qt = c.
Proof.
  intros H. step_cases H.
  all: try (left; reflexivity).
  all: open_queue; split_matches.
  all: try (left; reflexivity).
  all: right; eexists; split; [reflexivity|]; intros c0 [=]; subst; eauto.
Qed.

(** Every release on the log is behind its enqueue, and behind the handling of
    what the channel accepted before it. *)
Definition released_behind (l : list event) : Prop :=
  forall l1 c l2, l = l1 ++ EvReleased c :: l2 ->
    EvEnq c ∈ l1 /\ sent_before c l1 `prefix_of` handled_log l1.

Lemma released_behind_snoc l e :
  released_behind l ->
  (forall c, e = EvReleased c ->
    EvEnq c ∈ l /\ sent_before c l `prefix_of` handled_log l) ->
  released_behind (l ++ [e]).
Proof.
  intros Hl He l1 c l2 Heq.
  destruct l2 as [|x l2' _] using rev_ind.
  - apply app_inj_tail in Heq as [-> ->]. by apply He.
  - rewrite app_comm_cons, app_assoc in Heq.
    apply app_inj_tail in Heq as [-> _]. by eapply Hl.
Qed.

Lemma released_behind_reach cfg : forall s, reach cfg s -> released_behind s.(log).
Proof.
  invariant_induction.
  { intros s0 (n & _ & ->) l1 c l2 Heq. by destruct l1. }
  destruct (step_log _ _ _ _ H) as [->|(e & -> & He)]; [done|].
  apply released_behind_snoc; [done|]. intros c Hc.
  destruct (He c Hc) as (sealed & qt & Hw & <-).
  destruct (order_invariant cfg s0 Hr) as [_ Hrel]. rewrite Hw in Hrel.
  destruct Hrel as [Hin Hle]. split; [done|].
  eapply prefix_length_le; [apply sent_before_prefix|by eapply handled_prefix|done].
Qed.

(** C1: a mandatory task - the release of a handle whose submit failed, or the
    barrier of an Exclusive section - runs only after it entered the backlog,
    and only when every task the channel had accepted before that moment has
    been handled; the tasks handled by then begin with exactly those, in their
    order. *)
Theorem mandatory_runs_behind_accepted cfg s l1 c l2 :
  reach cfg s -> s.(log) = l1 ++ EvReleased c :: l2 ->
  EvEnq c ∈ l1 /\ sent_before c l1 `prefix_of` handled_log l1.
Proof. intros Hr Hl. by eapply released_behind_reach. Qed.

Lemma mandatory_runs_behind_accepted_witness :
  (end_of sharded_cfg 1 overtaking_run).(log)
    = [EvSent 0; EvEnq 1; EvHandled 0 false] ++ EvReleased 1 :: [] /\
  EvEnq 1 ∈ [EvSent 0; EvEnq 1; EvHandled 0 false] /\
  sent_before 1 [EvSent 0; EvEnq 1; EvHandled 0 false]
    `prefix_of` handled_log [EvSent 0; EvEnq 1; EvHandled 0 false].
Proof.
  split; [vm_compute; reflexivity|].
  apply (mandatory_runs_behind_accepted sharded_cfg
    (end_of sharded_cfg 1 overtaking_run) _ _ []).
  - apply end_of_reach. lia.
  - vm_compute. reflexivity.
Defined.

(** C32: the lane is a FIFO: the tasks handled so far, then the one in the
    worker's hands, then the buffered ones are exactly the tasks the channel
    accepted, in the order it accepted them; none is lost, handled twice or
    overtaken. *)
Theorem lane_is_fifo cfg s :
  reach cfg s ->
  handled_log s.(log) ++ in_hand s.(worker) ++ (task_id <$> s.(queue).(ch))
    = sent_log s.(log) /\
  length s.(queue).(ch) + unsettled s.(worker) + csum outstanding s.(threads)
    + s.(queue).(settled) = s.(queue).(admitted).
Proof.
  intros Hr. split; [by rewrite (fifo_inv cfg s Hr)|].
  rewrite (admitted_counts cfg s Hr). lia.
Qed.

Lemma lane_is_fifo_witness :
  handled_log (end_of sharded_cfg 1 overtaking_run).(log) = [0] /\
  handled_log (end_of sharded_cfg 1 overtaking_run).(log)
    ++ in_hand (end_of sharded_cfg 1 overtaking_run).(worker)
    ++ (task_id <$> (end_of sharded_cfg 1 overtaking_run).(queue).(ch))
  = sent_log (end_of sharded_cfg 1 overtaking_run).(log).
Proof.
  split; [vm_compute; reflexivity|].
  apply (lane_is_fifo sharded_cfg). apply end_of_reach. lia.
Defined.
