(* ===== verification/LaneSeal.v ===== *)
(** * Lane shutdown: closed and retired lanes

    What the gate, the [closed] flag and the two seals of the mandatory backlog
    ([markRetired], [finishWorker]) keep out: a Dynamic producer never sends on
    a closed channel, a retired lane owes nothing, and a worker that exited has
    handled everything the lane accepted. *)
From Stdlib Require Import ZArith Lia.
From stdpp Require Import base list gmap.
From S2P Require Import Prelude Routing Lane LaneSystem LaneCounts LaneOrder.

(** Goroutines between the closed check under the gate and its release. *)
Definition sending (t : thread) : nat :=
  match t.(t_pc) with
  | PWait | PWaitProgress _ _ | PCtx | PAdmit | PFast _ | PSlow _
  | PUnmark _ _ | PUnpend _ _ | PWake _ => 1
  | _ => 0
  end.

Lemma sending_gated l : csum sending l <= csum gated l.
Proof. apply csum_le. intros [k h []]; cbn; lia. Qed.
Lemma outstanding_sending l : csum outstanding l <= csum sending l.
Proof. apply csum_le. intros [k h []]; cbn; lia. Qed.
Lemma bumped_sending l : csum bumped l <= csum sending l.
Proof. apply csum_le. intros [k h []]; cbn; lia. Qed.

Definition holds_gate (r : retire_pc) : bool :=
  match r with RetireGate | RetireSealed => true | _ => false end.
Definition sealed_lane (r : retire_pc) : bool :=
  match r with RetireSealed | RetireDone => true | _ => false end.
Definition retire_done (r : retire_pc) : bool :=
  match r with RetireDone => true | _ => false end.

(** The flags of the queue follow the retirement's program counter. *)
Definition flags_inv (cfg : config) (s : sys) : Prop :=
  s.(queue).(gateWriter) = holds_gate s.(retirer) /\
  s.(queue).(retired) = sealed_lane s.(retirer) /\
  s.(queue).(quit_closed) = retire_done s.(retirer) /\
  (s.(retirer) <> RetireIdle -> cfg.(tracksIdle) = true) /\
  (s.(queue).(ch_closed) = true -> s.(queue).(closed) = true) /\
  (retire_done s.(retirer) = true -> s.(queue).(closed) = true).

Ltac use_retirer :=
  repeat match goal with
  | H : retirer _ = _ |- _ => rewrite H in *; revert H
  | H : closed _ = _ |- _ => rewrite H in *; revert H
  end; intros.

Lemma flags_invariant cfg : forall s, reach cfg s -> flags_inv cfg s.
Proof.
  invariant_induction.
  { intros s0 (n & _ & ->). by repeat split; cbn. }
  step_cases H.
  all: open_queue; split_matches.
  all: destruct IH as (? & ? & ? & ? & ? & ?).
  all: use_bools; split_and!; cbn in *; use_retirer; cbn in *; eauto; try done.
Qed.

(** What a Dynamic lane's gate keeps out. *)
Definition gate_inv (cfg : config) (s : sys) : Prop :=
  (holds_gate s.(retirer) = true ->
     csum gated s.(threads) = 0 /\ s.(queue).(ch) = []
     /\ s.(queue).(closed) = false) /\
  (s.(queue).(closed) = true -> csum sending s.(threads) = 0) /\
  (s.(queue).(retired) = true ->
     s.(queue).(mandatory) = [] /\ s.(queue).(ch) = []
     /\ csum sending s.(threads) = 0) /\
  (holds_gate s.(retirer) || sealed_lane s.(retirer) = true ->
     s.(queue).(ch) = [] /\ in_hand s.(worker) = []).

Lemma gate_invariant cfg :
  cfg.(dynamic) = true -> forall s, reach cfg s -> gate_inv cfg s.
Proof.
  intros Hdyn. invariant_induction.
  { intros s0 (n & _ & ->). by repeat split; cbn. }
  step_cases H.
  all: open_queue; split_matches.
  all: assert (dynamic cfg = true) as Hd by done.
  all: pose proof (gateReaders_counts cfg _ Hr Hd) as Hg.
  all: pose proof (flags_invariant cfg _ Hr) as (Hf1 & Hf2 & Hf3 & Hf4 & Hf5 & Hf6).
  all: match type of Hr with reachable _ _ ?s =>
         pose proof (sending_gated (threads s)) as Hsg end.
  all: pose proof (pending_counts cfg _ Hr) as Hpd.
  all: destruct IH as (IH1 & IH2 & IH3 & IH4).
  all: use_bools; use_retirer; cbn in *.
  all: unfold gate_inv; cbn; use_retirer; cbn.
  all: try solve [split_and!; intros; use_premises; split_and?;
    solve [congruence | counting Hlk]].
  4: { use_premises. split_and!; intros; split_and?; try lia; try congruence.
       destruct (worker s0); cbn in *; done || lia. }
  all: pose proof (csum_lookup_le gated _ _ _ Hlk) as Hlg.
  all: pose proof (csum_lookup_le sending _ _ _ Hlk) as Hls; cbn in Hlg, Hls.
  all: split_and!; intros; destruct (retirer _); cbn in *; use_premises;
    congruence || lia.
Qed.

(** ** The worker's exit *)

(** The worker saw its channel closed and empty, or its lane retired and
    drained: [channelClosed || laneRetired]. *)
Definition sealed_worker (w : wpc) : bool :=
  match w with
  | WTop b | WRunMandatory b _ => b
  | WFinish _ | WParked _ | WDone => true
  | _ => false
  end.

Definition exit_inv (s : sys) : Prop :=
  (sealed_worker s.(worker) = true ->
     s.(queue).(ch) = [] /\
     s.(queue).(ch_closed) || s.(queue).(quit_closed) = true) /\
  (s.(worker) = WDrain -> s.(queue).(quit_closed) = true) /\
  (s.(queue).(workerExited) = true <-> s.(worker) = WDone) /\
  (s.(worker) = WDone -> s.(queue).(mandatory) = []).

(** Once the quit channel of a lane is closed, nobody can send. *)
Lemma quit_no_sender cfg s :
  config_ok cfg -> reach cfg s -> s.(queue).(quit_closed) = true ->
  csum sending s.(threads) = 0.
Proof.
  intros Hok Hr Hq.
  destruct (flags_invariant cfg s Hr) as (_ & Hf2 & Hf3 & Hf4 & _).
  assert (retirer s = RetireDone) as E by (destruct (retirer s); cbn in *; congruence).
  rewrite E in *. destruct (gate_invariant cfg (Hok (Hf4 ltac:(done))) s Hr)
    as (_ & _ & H3 & _). cbn in Hf2. by destruct (H3 Hf2) as (_ & _ & ?).
Qed.

Lemma exit_invariant cfg :
  config_ok cfg -> forall s, reach cfg s -> exit_inv s.
Proof.
  intros Hok. invariant_induction.
  { intros s0 (n & _ & ->). by repeat split; cbn. }
  step_cases H.
  all: open_queue; split_matches.
  all: pose proof (quit_no_sender cfg _ Hok Hr) as Hq.
  all: destruct IH as (IH1 & IH2 & [IH3 IH3'] & IH4).
  all: use_bools; unfold exit_inv; cbn in *; use_fields; cbn in *.
  all: try done.
  all: try (pose proof (csum_lookup_le sending _ _ _ Hlk) as Hls; cbn in Hls).
  all: split_and!; [intros Hw..|split; intros Hw|intros Hw].
  all: use_premises; try congruence.
  all: try (split; congruence).
  all: try (destruct (ch_closed _); cbn in *; use_premises; lia).
  all: try (split; [done|]; apply orb_true_iff; auto).
  all: by rewrite IH4.
Qed.

(** ** What the seals promise *)

(** A step panics only in the send case of [sendToQueue]. *)
Lemma panic_step cfg l s s' :
  step cfg l s = Some s' -> s.(panicked) = false -> s'.(panicked) = true ->
  s.(queue).(ch_closed) = true /\ 0 < csum sending s.(threads).
Proof.
  intros H Hp. revert Hp; step_cases H; cbn; intros ? ?; try congruence.
  all: split; [done|].
  all: pose proof (csum_lookup_le sending _ _ _ Hlk) as Hls; cbn in Hls; lia.
Qed.

(** C34: a Dynamic lane never sends on a closed channel: whatever the stop
    sequence, the retirement and the producers do, no execution reaches the Go
    panic. *)
Theorem dynamic_never_panics cfg capacity ls s :
  cfg.(dynamic) = true -> 0 < capacity ->
  run (step cfg) ls (initial cfg capacity) = Some s -> s.(panicked) = false.
Proof.
  intros Hdyn Hcap Hrun.
  assert (reach cfg s) as Hr.
  { eapply run_reachable; [|exact Hrun]. apply reachable_init. by exists capacity. }
  clear Hrun. revert s Hr. invariant_induction; [by intros s0 (n & _ & ->)|].
  destruct (panicked s') eqn:Hp; [|done].
  destruct (panic_step _ _ _ _ H IH Hp) as [Hc Hs].
  destruct (flags_invariant cfg s0 Hr) as (_ & _ & _ & _ & Hf & _).
  destruct (gate_invariant cfg Hdyn s0 Hr) as (_ & Hg & _).
  specialize (Hg (Hf Hc)). lia.
Qed.

Lemma dynamic_never_panics_witness :
  exists s, run (step dynamic_cfg) retire_run (initial dynamic_cfg 1) = Some s /\
    s.(panicked) = false.
Proof.
  eexists. split; [vm_compute; reflexivity|].
  eapply (dynamic_never_panics dynamic_cfg 1 retire_run); [done|lia|].
  vm_compute. reflexivity.
Defined.

Lemma retired_in_hand cfg s :
  config_ok cfg -> reach cfg s -> s.(queue).(retired) = true ->
  gate_inv cfg s /\ in_hand s.(worker) = [] /\ s.(queue).(ch) = [].
Proof.
  intros Hok Hr Hret.
  destruct (flags_invariant cfg s Hr) as (_ & Hf2 & _ & Hf4 & _).
  assert (dynamic cfg = true) as Hdyn.
  { apply Hok, Hf4. intros E. rewrite E in Hf2. cbn in Hf2. congruence. }
  pose proof (gate_invariant cfg Hdyn s Hr) as Hg. split; [done|].
  destruct Hg as (_ & _ & _ & H4). rewrite <- Hf2, Hret, orb_true_r in H4.
  by destruct (H4 eq_refl).
Qed.

(** idle retirement strands nothing. When a lane has retired, everything its
    channel accepted has been handled, its channel and its backlog are empty,
    no producer is inside the gate with work for it, and its pending count is
    the release its worker may still be running and nothing else. *)
Theorem retired_lane_owes_nothing cfg s :
  config_ok cfg -> reach cfg s -> s.(queue).(retired) = true ->
  handled_log s.(log) = sent_log s.(log) /\
  s.(queue).(ch) = [] /\ s.(queue).(mandatory) = [] /\
  csum sending s.(threads) = 0 /\
  s.(queue).(pending) = Z.of_nat (running s.(worker)).
Proof.
  intros Hok Hr Hret.
  destruct (retired_in_hand cfg s Hok Hr Hret) as ((_ & _ & H3 & _) & Hh & Hch).
  destruct (H3 Hret) as (Hm & _ & Hs). split_and!; try done.
  - by rewrite (fifo_inv cfg s Hr), Hh, Hch, !app_nil_r.
  - destruct (flags_invariant cfg s Hr) as (_ & Hf2 & _ & Hf4 & _).
    rewrite (pending_counts cfg s Hr), Hm, Hch; [cbn; f_equal|].
    + pose proof (bumped_sending (threads s)). lia.
    + apply Hf4. intros E. rewrite E in Hf2. cbn in Hf2. congruence.
Qed.

Lemma retired_lane_owes_nothing_witness :
  (end_of dynamic_cfg 1 retire_run).(queue).(retired) = true /\
  handled_log (end_of dynamic_cfg 1 retire_run).(log)
    = sent_log (end_of dynamic_cfg 1 retire_run).(log).
Proof.
  split; [vm_compute; reflexivity|].
  eapply (retired_lane_owes_nothing dynamic_cfg).
  - done.
  - apply end_of_reach. lia.
  - vm_compute. reflexivity.
Defined.

(** a worker that returned left nothing behind: its lane's channel and
    backlog are empty and every task the channel ever accepted has been
    handled, in order; and the lane refuses every further release and barrier,
    so nothing can be stranded behind the exit. *)
Theorem worker_exit_complete cfg s :
  config_ok cfg -> reach cfg s -> s.(worker) = WDone ->
  handled_log s.(log) = sent_log s.(log) /\
  s.(queue).(ch) = [] /\ s.(queue).(mandatory) = [] /\
  s.(queue).(ch_closed) || s.(queue).(quit_closed) = true /\
  forall qt b, enqueueMandatory cfg.(tracksIdle) qt b s.(queue) = None.
Proof.
  intros Hok Hr Hw.
  destruct (exit_invariant cfg Hok s Hr) as (H1 & _ & H3 & H4).
  destruct H1 as [Hch Hcl]; [by rewrite Hw|]. split_and!; auto.
  - by rewrite (fifo_inv cfg s Hr), Hw, Hch, !app_nil_r.
  - intros qt b. unfold enqueueMandatory.
    by rewrite (proj2 H3 Hw), orb_true_r.
Qed.

Lemma worker_exit_complete_witness :
  (end_of sharded_cfg 1 shutdown_run).(worker) = WDone /\
  handled_log (end_of sharded_cfg 1 shutdown_run).(log)
    = sent_log (end_of sharded_cfg 1 shutdown_run).(log).
Proof.
  split; [vm_compute; reflexivity|].
  eapply (worker_exit_complete sharded_cfg).
  - done.
  - apply end_of_reach. lia.
  - vm_compute. reflexivity.
Defined.
