(* ===== verification/LaneTasks.v ===== *)
(** * Lane accounting: every submit delivers once or releases once

    The mandatory backlog is a FIFO, and each submit either has its task
    accepted by the channel once, or hands its failure cleanup over once, to
    the lane or outside it, and never both. *)
From Stdlib Require Import ZArith Lia.
From stdpp Require Import base list gmap.
From S2P Require Import Prelude Routing Lane LaneSystem LaneCounts LaneOrder.

(** ** The backlog is a FIFO *)

Definition enq_log (l : list event) : list nat :=
  omap (fun e => match e with EvEnq n => Some n | _ => None end) l.
Definition released_log (l : list event) : list nat :=
  omap (fun e => match e with EvReleased n => Some n | _ => None end) l.

#[global] Arguments enq_log !l /.
#[global] Arguments released_log !l /.

Lemma enq_log_app l l' : enq_log (l ++ l') = enq_log l ++ enq_log l'.
Proof. apply omap_app. Qed.
Lemma released_log_app l l' : released_log (l ++ l') = released_log l ++ released_log l'.
Proof. apply omap_app. Qed.

(** The mandatory task the worker holds. *)
Definition releasing (w : wpc) : list nat :=
  match w with WRunMandatory _ qt => [task_id qt] | _ => [] end.

Definition entry_id (e : submitFailureCleanupEntry) : nat := task_id e.(e_task).

Lemma raise_ids tk (l : list submitFailureCleanupEntry) : entry_id <$> (raiseTarget tk <$> l) = entry_id <$> l.
Proof.
  rewrite <- list_fmap_compose. apply list_fmap_ext. intros _ e _.
  unfold entry_id, raiseTarget; cbn. by destruct (_ <? _).
Qed.

Lemma backlog_fifo cfg :
  forall s, reach cfg s ->
  enq_log s.(log) =
    released_log s.(log) ++ releasing s.(worker)
    ++ (entry_id <$> s.(queue).(mandatory)).
Proof.
  invariant_induction; [by intros s0 (n & _ & ->)|].
  step_cases H.
  all: open_queue; split_matches.
  all: rewrite ?enq_log_app, ?released_log_app in *; cbn in *; use_fields.
  all: rewrite ?raise_ids, ?fmap_app, ?app_nil_r, ?IH, <- ?app_assoc; cbn;
    rewrite ?app_nil_r; try done.
Qed.

(** ** Deliveries and handoffs of one goroutine *)

Definition ev_sent (i : nat) (e : event) : nat :=
  match e with EvSent n => b2n (bool_decide (n = i)) | _ => 0 end.
Definition ev_handed (i : nat) (e : event) : nat :=
  match e with
  | EvEnq n | EvOffLane n => b2n (bool_decide (n = i)) | _ => 0
  end.

(** How often a goroutine at this program counter has been accepted. *)
Definition sends (p : pc) : nat :=
  match p with
  | PUnlock ROk | PRet ROk | PEnd ROk | PEndFence _ ROk | PDone ROk => 1
  | _ => 0
  end.

(** How often it has handed its mandatory task over. Only the handoff of a
    Dynamic submit may leave this lane for another one. *)
Definition hands (cfg : config) (t : thread) (n : nat) : Prop :=
  match t.(t_pc) with
  | SWake _ _ | SEnd _ true | SEndFence _ _ true | BWake | BDone true => n = 1
  | SFinish _ => n <= 1 /\ (cfg.(dynamic) = false -> n = 1)
  | PEnd (RCtx | RStopped) | PEndFence _ (RCtx | RStopped)
  | PDone (RCtx | RStopped) =>
    if t.(t_handoff) then n <= 1 /\ (cfg.(dynamic) = false -> n = 1) else n = 0
  | _ => n = 0
  end.

(** The handoff runs in a goroutine that asked for it, with an error. *)
Definition handoff_pc (t : thread) : Prop :=
  match t.(t_pc) with
  | SBegin o | SEnq o | SEnqStopped o | SWake o _ | SEnd o _ | SEndFence _ o _
  | SOff o | SFinish o => t.(t_handoff) = true /\ o <> Some ROk /\ o <> Some RRetired
  | PUnmark _ r | PUnpend _ r | PWake r => r <> ROk
  | _ => True
  end.

Definition task_inv (cfg : config) (s : sys) : Prop :=
  (forall i t, s.(threads) !! i = Some t ->
    csum (ev_sent i) s.(log) = sends t.(t_pc) /\
    hands cfg t (csum (ev_handed i) s.(log)) /\ handoff_pc t) /\
  (forall i, length s.(threads) <= i ->
    csum (ev_sent i) s.(log) = 0 /\ csum (ev_handed i) s.(log) = 0).

Lemma task_inv_spawn cfg s t :
  task_inv cfg s -> t.(t_pc) = PBegin \/ t.(t_pc) = BEnq ->
  task_inv cfg (with_threads (s.(threads) ++ [t]) s).
Proof.
  intros [H1 H2] Ht. split; cbn.
  - intros i t' Hi. apply lookup_app_Some in Hi as [Hi|[Hle Hi]]; [by apply H1|].
    apply list_lookup_singleton_Some in Hi as [? <-].
    destruct (H2 i Hle) as [-> ->]. unfold hands, handoff_pc.
    by destruct Ht as [-> | ->].
  - intros i Hle. rewrite length_app in Hle. apply H2. lia.
Qed.

(** A goroutine's step changes the counts of no other goroutine. *)
Lemma task_inv_move cfg s s' i t p :
  task_inv cfg s -> s.(threads) !! i = Some t ->
  s'.(threads) = <[i := p]> s.(threads) ->
  (s'.(log) = s.(log) \/ exists e, s'.(log) = s.(log) ++ [e] /\
     forall j, j <> i -> ev_sent j e = 0 /\ ev_handed j e = 0) ->
  (csum (ev_sent i) s'.(log) = sends p.(t_pc) /\
   hands cfg p (csum (ev_handed i) s'.(log)) /\ handoff_pc p) ->
  task_inv cfg s'.
Proof.
  intros [H1 H2] Hi Ht Hl Hp.
  assert (forall j, j <> i -> csum (ev_sent j) s'.(log) = csum (ev_sent j) s.(log) /\
    csum (ev_handed j) s'.(log) = csum (ev_handed j) s.(log)) as Hj.
  { intros j Hne. destruct Hl as [-> | (e & -> & He)]; [done|].
    destruct (He j Hne). rewrite !csum_app; cbn. lia. }
  split; rewrite Ht.
  - intros j t' Hlk. destruct (decide (j = i)) as [->|Hne].
    + rewrite list_lookup_insert_eq in Hlk by (by eapply lookup_lt_Some).
      by simplify_eq.
    + rewrite list_lookup_insert_ne in Hlk by done.
      destruct (Hj j Hne) as [-> ->]. by apply H1.
  - intros j Hle. rewrite length_insert in Hle.
    assert (j <> i) as Hne by (apply lookup_lt_Some in Hi; lia).
    destruct (Hj j Hne) as [-> ->]. by apply H2.
Qed.

(** Neither does a step of the worker, of the stop or of the retirement. *)
Lemma task_inv_other cfg s s' :
  task_inv cfg s -> s'.(threads) = s.(threads) ->
  (s'.(log) = s.(log) \/ exists e, s'.(log) = s.(log) ++ [e] /\
     forall j, ev_sent j e = 0 /\ ev_handed j e = 0) ->
  task_inv cfg s'.
Proof.
  intros [H1 H2] Ht Hl.
  assert (forall j, csum (ev_sent j) s'.(log) = csum (ev_sent j) s.(log) /\
    csum (ev_handed j) s'.(log) = csum (ev_handed j) s.(log)) as Hj.
  { intros j. destruct Hl as [-> | (e & -> & He)]; [done|].
    destruct (He j). rewrite !csum_app; cbn. lia. }
  split; rewrite Ht; intros j; destruct (Hj j) as [-> ->]; [apply H1|apply H2].
Qed.

(** The two ways a step relates the logs. *)
Ltac log_cases :=
  first
    [ left; reflexivity
    | right; eexists; split; [reflexivity|]; intros; cbn;
      rewrite ?bool_decide_eq_false_2 by done; done ].

Lemma task_invariant cfg : forall s, reach cfg s -> task_inv cfg s.
Proof.
  invariant_induction.
  { intros s0 (n & _ & ->). by split. }
  step_cases H.
  1, 2: apply task_inv_spawn; cbn; auto.
  all: open_queue; split_matches.
  all: try solve [eapply task_inv_other; [exact IH|reflexivity|log_cases]].
  all: eapply task_inv_move; [exact IH|exact Hlk|reflexivity|log_cases|].
  all: destruct (proj1 IH _ _ Hlk) as (Hs & Hh & Hp); unfold hands, handoff_pc in *;
    cbn in *; rewrite ?csum_app; cbn; rewrite ?bool_decide_eq_true_2 by done; cbn.
  all: try solve [split_and!; first [lia | done | intuition (congruence || lia)]].
  all: destruct_and?; use_bools; repeat case_match; simplify_eq/=;
    split_and!; first [lia | done | intuition (congruence || lia)].
Qed.

(** ** What a submit amounts to *)

(** How often [i] occurs in a list of task names. *)
Definition occ (i : nat) (l : list nat) : nat :=
  csum (fun n => b2n (bool_decide (n = i))) l.

Lemma occ_app i l1 l2 : occ i (l1 ++ l2) = occ i l1 + occ i l2.
Proof. apply csum_app. Qed.

Lemma enq_log_cons e l :
  enq_log (e :: l) = match e with EvEnq n => [n] | _ => [] end ++ enq_log l.
Proof. by destruct e. Qed.
Lemma sent_log_cons e l :
  sent_log (e :: l) = match e with EvSent n => [n] | _ => [] end ++ sent_log l.
Proof. by destruct e. Qed.

Lemma occ_enq i l : occ i (enq_log l) <= csum (ev_handed i) l.
Proof.
  induction l as [|e l IH]; [done|].
  rewrite enq_log_cons, occ_app. destruct e; cbn; lia.
Qed.

Lemma occ_sent i l : occ i (sent_log l) = csum (ev_sent i) l.
Proof.
  induction l as [|e l IH]; [done|].
  rewrite sent_log_cons, occ_app. destruct e; cbn; lia.
Qed.

(** what a returned submit did on its lane. It is accepted by the channel
    exactly once when it reports success and never otherwise; a refused submit
    of a Sharded lane whose operation owns a handle hands its release over
    exactly once (to the backlog, or outside the lane when the lane takes
    nothing more), one without a handle hands nothing over, and on a Dynamic
    lane the release is handed over at most once. *)
Theorem submit_delivers_or_hands_over_once cfg s i t r :
  reach cfg s -> s.(threads) !! i = Some t -> t.(t_pc) = PDone r ->
  occ i (sent_log s.(log)) = (if bool_decide (r = ROk) then 1 else 0) /\
  (r = ROk \/ t.(t_handoff) = false -> csum (ev_handed i) s.(log) = 0) /\
  csum (ev_handed i) s.(log) <= 1 /\
  (cfg.(dynamic) = false -> (r = RCtx \/ r = RStopped) -> t.(t_handoff) = true ->
     csum (ev_handed i) s.(log) = 1).
Proof.
  intros Hr Ht Hpc.
  destruct (proj1 (task_invariant cfg s Hr) i t Ht) as (Hs & Hh & _).
  rewrite occ_sent, Hs. unfold hands in Hh. rewrite Hpc in *.
  destruct r, (t_handoff t) eqn:E; cbn in *; destruct_and?;
    split_and!; intros; destruct_or?; try done; try lia; auto.
Qed.

Lemma submit_delivers_or_hands_over_once_witness :
  (exists t, (end_of sharded_cfg 1 shutdown_run).(threads) !! 1 = Some t /\
     t.(t_pc) = PDone RCtx /\ t.(t_handoff) = true) /\
  occ 1 (sent_log (end_of sharded_cfg 1 shutdown_run).(log)) = 0 /\
  csum (ev_handed 1) (end_of sharded_cfg 1 shutdown_run).(log) = 1.
Proof.
  split; [eexists; split; [vm_compute; reflexivity|done]|].
  destruct (submit_delivers_or_hands_over_once sharded_cfg
    (end_of sharded_cfg 1 shutdown_run) 1
    {| t_key := exclusiveRoutingKey; t_handoff := true; t_pc := PDone RCtx |} RCtx)
    as (H1 & _ & _ & H4).
  - apply end_of_reach. lia.
  - vm_compute. reflexivity.
  - done.
  - split; [exact H1|]. apply H4; auto.
Defined.

(** the backlog neither loses nor repeats a release: mandatory tasks are run
    in the order they were enqueued, the ones not yet run are exactly the ones
    still queued or in the worker's hands, and no goroutine's release or
    barrier ever runs twice. *)
Theorem backlog_releases_in_order_once cfg s i :
  reach cfg s ->
  released_log s.(log) ++ releasing s.(worker)
    ++ (entry_id <$> s.(queue).(mandatory)) = enq_log s.(log) /\
  occ i (released_log s.(log)) <= 1.
Proof.
  intros Hr. pose proof (backlog_fifo cfg s Hr) as Hb. split; [done|].
  assert (csum (ev_handed i) s.(log) <= 1) as Hle.
  { destruct (task_invariant cfg s Hr) as [H1 H2].
    destruct (s.(threads) !! i) as [t|] eqn:Ht.
    - destruct (H1 i t Ht) as (_ & Hh & _). unfold hands in Hh.
      repeat case_match; destruct_and?; lia.
    - apply lookup_ge_None in Ht. destruct (H2 i Ht). lia. }
  pose proof (occ_enq i s.(log)) as Ho. rewrite Hb, !occ_app in Ho. lia.
Qed.

Lemma backlog_releases_in_order_once_witness :
  released_log (end_of sharded_cfg 1 shutdown_run).(log) = [1] /\
  occ 1 (released_log (end_of sharded_cfg 1 shutdown_run).(log)) <= 1.
Proof.
  split; [vm_compute; reflexivity|].
  apply (backlog_releases_in_order_once sharded_cfg). apply end_of_reach. lia.
Defined.
