(* ===== verification/LaneStop.v ===== *)
(** * Lane stop: the submit fence and the wake-ups

    The stop sequence waits for the submit fence before it closes channels, and
    the worker sleeps on its wake channel while the backlog's head cannot run.
    This file shows that neither wait is lost: the fence is closed once every
    producer returned, and a worker that is stuck with mandatory work always has
    a goroutine, or the stop, still obliged to release it. It also shows what
    the fence does not give: it can close while a producer is still
    registered. *)
From Stdlib Require Import ZArith Lia.
From stdpp Require Import base list gmap.
From S2P Require Import Prelude Routing Lane LaneSystem LaneCounts LaneOrder LaneSeal.

(** ** The fence is not lost *)

(** A goroutine whose decrement reached zero and that has not looked at the
    stop flag yet. *)
Definition closing (t : thread) : nat :=
  match t.(t_pc) with PEndFence true _ | SEndFence true _ _ => 1 | _ => 0 end.

Definition stop_inv (s : sys) : Prop :=
  (s.(stop) = true <-> s.(stopper) <> StopIdle) /\
  (s.(stopper) = StopSignalled ->
     s.(fence) = true \/ s.(inFlight) <> 0%Z \/ 0 < csum closing s.(threads)).

Lemma stop_invariant cfg : forall s, reach cfg s -> stop_inv s.
Proof.
  invariant_induction.
  { intros s0 (n & _ & ->). by repeat split; cbn. }
  step_cases H.
  all: open_queue; split_matches.
  all: destruct IH as [[IH1 IH1'] IH2]; use_bools; unfold stop_inv; cbn.
  all: try (split; [split; intros; solve [done | congruence | auto]|]).
  all: intros Hs.
  all: repeat match goal with
       | |- context [(?a =? ?b)%Z] => destruct (Z.eqb_spec a b)
       end.
  all: try (assert (stop s0 = true) by (apply IH1'; congruence)).
  all: try specialize (IH2 Hs).
  all: try congruence.
  all: try csum_step Hlk; rewrite ?csum_app; cbn in *.
  all: repeat match goal with b : bool |- _ => destruct b end.
  all: rewrite ?H0 in *; cbn in *; try done.
  all: try solve [destruct IH2 as [?|[?|?]];
    first [left; congruence | right; lia]].
  all: first [by left | by right; left; apply Z.eqb_neq].
Qed.

(** ** No wake-up is lost *)

(** Goroutines that are about to send on the wake channel. *)
Definition owes_wake (t : thread) : nat :=
  match t.(t_pc) with
  | SWake _ _ | BWake | PUnpend true _ | PWake _ => 1 | _ => 0
  end.

(** The worker is at, or past, the point where it decided to sleep; the flag is
    its local [waitSubmitFence]. *)
Definition sleeping (w : wpc) : option bool :=
  match w with WSelect b | WFinish b | WParked b => Some b | _ => None end.

Definition wake_inv (s : sys) : Prop :=
  (s.(queue).(mandatoryQueued) = negb (bool_decide (s.(queue).(mandatory) = []))) /\
  ((exists b, s.(worker) = WParked b) -> s.(queue).(mandatory) <> []) /\
  forall b e rest, sleeping s.(worker) = Some b ->
    s.(queue).(mandatory) = e :: rest ->
    s.(queue).(mandatoryWake) = true \/ 0 < csum owes_wake s.(threads) \/
    (e.(waitSubmitFence) = true /\ b = true) \/
    (e.(waitSubmitFence) = false /\ s.(queue).(settled) < e.(settleTarget)).

Lemma queued_app (l : list submitFailureCleanupEntry) e :
  negb (bool_decide (l ++ [e] = [])) = true.
Proof. by destruct l. Qed.

(** Closes the last part of [wake_inv] from the alternative that held before
    the step, or from the one the step establishes. *)
Ltac wake_alternative Hlk :=
  rewrite ?csum_app; try csum_step Hlk; cbn in *;
  first
    [ left; first [done | congruence]
    | right; left; lia
    | right; right; left; split; first [done | tauto | congruence]
    | right; right; right; split; [first [done | tauto]|lia] ].

Lemma wake_invariant cfg : forall s, reach cfg s -> wake_inv s.
Proof.
  invariant_induction.
  { intros s0 (n & _ & ->). split_and!; [done|by intros [b Hb]|done]. }
  step_cases H.
  all: open_queue; split_matches.
  all: destruct IH as (IH1 & IH2 & IH3); use_bools; unfold wake_inv; cbn.
  all: use_fields; cbn in *.
  all: try (split_and!; [done|done|]; intros b e rest Hb He;
    destruct (IH3 b e rest Hb He) as [?|[?|[?|?]]];
    solve [wake_alternative Hlk]).
  all: rewrite ?queued_app; try (destruct (mandatory (queue s0)) as [|e0 l0]; cbn in *).
  all: split_and!; [congruence || done|intros [b Hb]; try done|
    intros b e rest Hb He; simplify_eq/=; try congruence].
  all: try solve [wake_alternative Hlk].
  all: apply IH2; eauto.
Qed.

(** ** Targets stay within reach *)

(** The outstanding admissions an entry's cutoff does not cover. *)
Definition outstanding_after (cutoff : nat) (t : thread) : nat :=
  match t.(t_pc) with
  | PFast k | PSlow k | PUnmark k _ => if cutoff <? k then 1 else 0
  | _ => 0
  end.

Lemma after_now cfg s :
  reach cfg s -> csum (outstanding_after s.(queue).(admitted)) s.(threads) = 0.
Proof.
  intros Hr. pose proof (tickets_bounded cfg s Hr) as Hk.
  induction Hk as [|t l Ht _ IH]; cbn; [done|]. rewrite IH.
  destruct t as [k h []]; cbn in *; try done.
  all: match goal with |- context [?a <? ?b] => destruct (Nat.ltb_spec a b) end; lia.
Qed.

(** Even if every admission still on its way is abandoned, the counter of
    settlements can reach the entry's target. *)
Definition target_ok (s : sys) (e : submitFailureCleanupEntry) : Prop :=
  e.(admittedCutoff) <= s.(queue).(admitted) /\
  e.(settleTarget) + csum (outstanding_after e.(admittedCutoff)) s.(threads)
    <= s.(queue).(admitted).

Lemma target_ok_fresh cfg s e :
  reach cfg s -> e.(admittedCutoff) = s.(queue).(admitted) ->
  e.(settleTarget) = s.(queue).(admitted) -> target_ok s e.
Proof.
  intros Hr Hc Ht. unfold target_ok. rewrite Hc, Ht, (after_now cfg s Hr). lia.
Qed.

Lemma target_ok_raise s s' i t p tk e :
  target_ok s e -> s.(threads) !! i = Some t ->
  (forall c, outstanding_after c t = if c <? tk then 1 else 0) ->
  s'.(threads) = <[i := p]> s.(threads) -> outstanding p = 0 ->
  s'.(queue).(admitted) = s.(queue).(admitted) ->
  target_ok s' (raiseTarget tk e).
Proof.
  intros [H1 H2] Hlk Hc Ht Hp Ha.
  pose proof (csum_insert (outstanding_after e.(admittedCutoff)) _ i t p Hlk) as Hsum.
  assert (outstanding_after e.(admittedCutoff) p = 0) as Hp0.
  { destruct p as [k h []]; cbn in *; try done. }
  rewrite Hc in Hsum. unfold target_ok, raiseTarget.
  destruct (Nat.ltb_spec e.(admittedCutoff) tk); cbn; rewrite Ht, Ha; lia.
Qed.

Ltac keep_targets Hlk :=
  eapply Forall_impl; [eassumption|]; intros e0 He; unfold target_ok in *;
  cbn; rewrite ?csum_app; try csum_step Hlk; cbn in *;
  repeat match goal with
  | _ : context [?a <? ?b] |- _ => destruct (Nat.ltb_spec a b)
  end; lia.

Lemma target_invariant cfg :
  forall s, reach cfg s -> Forall (target_ok s) s.(queue).(mandatory).
Proof.
  invariant_induction; [by intros s0 (n & _ & ->)|].
  pose proof (reachable_step _ _ _ _ _ Hr H) as Hr'.
  step_cases H.
  all: open_queue; split_matches.
  all: use_fields.
  all: try solve [keep_targets Hlk | cbn; use_fields; keep_targets Hlk].
  all: try (apply Forall_app; split; [keep_targets Hlk|];
    apply Forall_singleton; by eapply target_ok_fresh).
  all: try (apply Forall_fmap; eapply Forall_impl; [exact IH|]; intros e0 He;
    by eapply (target_ok_raise s0)).
  all: apply Forall_cons in IH as [IHhd IH].
  all: try solve [keep_targets Hlk].
  all: apply Forall_cons; split; [by eapply target_ok_fresh|keep_targets Hlk].
Qed.

(** ** A stuck worker has a waker *)

(** No alternative of the worker is ready. *)
Definition worker_stuck (cfg : config) (s : sys) : Prop :=
  forall c, worker_step cfg c s = None.

(** Only the two sleeping points block, and only when nothing is ready. *)
Lemma stuck_cases cfg s :
  worker_stuck cfg s ->
  s.(worker) = WDone \/
  exists b, (s.(worker) = WSelect b \/ s.(worker) = WParked b) /\
    s.(queue).(mandatoryWake) = false /\ b && s.(fence) = false /\
    (s.(worker) = WSelect b ->
       s.(queue).(ch) = [] /\ s.(queue).(ch_closed) = false
       /\ s.(queue).(quit_closed) = false).
Proof.
  intros Hst. pose proof (Hst CGo) as Hgo. pose proof (Hst CWake) as Hwake.
  pose proof (Hst CFence) as Hfence. pose proof (Hst CQuit) as Hquit.
  unfold worker_step in *. destruct (worker s) as [[]|w| |w| | | | | |] eqn:Hw.
  all: repeat case_match; try done; try (by left).
  all: right; exists w; split_and!; try done; eauto.
Qed.

Lemma csum_pos_thread (f : thread -> nat) s :
  0 < csum f s.(threads) -> exists i t, s.(threads) !! i = Some t /\ 0 < f t.
Proof. apply csum_pos. Qed.

Lemma stuck_reason cfg s :
  config_ok cfg -> reach cfg s -> worker_stuck cfg s ->
  s.(worker) = WDone \/
  (s.(queue).(mandatory) = [] /\ s.(queue).(ch) = [] /\
     s.(queue).(ch_closed) = false /\ s.(queue).(quit_closed) = false) \/
  (s.(fence) = false /\
     exists e rest, s.(queue).(mandatory) = e :: rest /\ e.(waitSubmitFence) = true) \/
  exists i t, s.(threads) !! i = Some t /\ 0 < owes_wake t + outstanding t.
Proof.
  intros Hok Hr Hst. destruct (stuck_cases cfg s Hst) as [?|(b & Hw & Hwk & Hf & Hq)];
    [by left|right].
  destruct (wake_invariant cfg s Hr) as (_ & Hpark & Hwi).
  assert (sleeping (worker s) = Some b) as Hsl by (by destruct Hw as [-> | ->]).
  assert (unsettled (worker s) = 0) as Hun by (by destruct Hw as [-> | ->]).
  assert (ch (queue s) = []) as Hch.
  { destruct Hw as [Hw|Hw]; [by apply Hq|].
    apply (exit_invariant cfg Hok s Hr). by rewrite Hw. }
  destruct (mandatory (queue s)) as [|e rest] eqn:Hm.
  { left. destruct Hw as [Hw|Hw]; [destruct (Hq Hw) as (? & ? & ?); auto|].
    destruct Hpark; eauto. }
  right. destruct (Hwi b e rest Hsl eq_refl) as [?|[Ho|[[Hew ->]|[Hew Hlt]]]].
  - congruence.
  - right. destruct (csum_pos_thread _ _ Ho) as (i & t & ? & ?).
    exists i, t. split; [done|lia].
  - left. split; [by destruct (fence s)|eauto].
  - right. pose proof (target_invariant cfg s Hr) as Ht. rewrite Hm in Ht.
    apply Forall_cons in Ht as [[_ Ht] _].
    pose proof (admitted_counts cfg s Hr) as Ha. rewrite Hch, Hun in Ha. cbn in Ha.
    destruct (csum_pos_thread outstanding s) as (i & t & ? & ?); [lia|].
    exists i, t. split; [done|lia].
Qed.

(** C37: no wake-up is lost. A worker with nothing ready to do has exited, or
    sleeps on an idle lane, or waits for the submit fence the stop sequence
    still owes it, or some goroutine is on its way to send on the wake channel,
    to send a task, or to abandon its admission. *)
Theorem stuck_worker_has_waker cfg s :
  config_ok cfg -> reach cfg s -> worker_stuck cfg s ->
  s.(worker) = WDone \/
  (s.(queue).(mandatory) = [] /\ s.(queue).(ch) = [] /\
     s.(queue).(ch_closed) = false /\ s.(queue).(quit_closed) = false) \/
  (s.(fence) = false /\
     exists e rest, s.(queue).(mandatory) = e :: rest /\ e.(waitSubmitFence) = true) \/
  exists i t, s.(threads) !! i = Some t /\ 0 < owes_wake t + outstanding t.
Proof. apply stuck_reason. Qed.

(** A worker that sleeps while an abandoned producer has not woken it yet: the
    first worker step finds the backlog blocked by an outstanding admission. *)
Definition sleeping_run : list label :=
  [LSubmit exclusiveRoutingKey true; LBarrier]
  ++ times 4 (LThread 0 CGo) ++ times 2 (LThread 1 CGo)
  ++ [LWorker CGo; LWorker CWake; LWorker CGo].

Lemma stuck_worker_has_waker_witness :
  worker_stuck sharded_cfg (end_of sharded_cfg 1 sleeping_run) /\
  exists i t, (end_of sharded_cfg 1 sleeping_run).(threads) !! i = Some t /\
    0 < owes_wake t + outstanding t.
Proof.
  assert (worker_stuck sharded_cfg (end_of sharded_cfg 1 sleeping_run)) as Hst.
  { intros []; vm_compute; reflexivity. }
  split; [exact Hst|].
  destruct (stuck_worker_has_waker sharded_cfg (end_of sharded_cfg 1 sleeping_run))
    as [H|[(H & _)|[(_ & e & rest & H & Hw)|H]]].
  - done.
  - apply end_of_reach. lia.
  - exact Hst.
  - exfalso. vm_compute in H. discriminate H.
  - exfalso. vm_compute in H. discriminate H.
  - exfalso. vm_compute in H. injection H as <- _. vm_compute in Hw. discriminate Hw.
  - exact H.
Defined.

(** ** The worker's drain terminates *)

Definition rank (w : wpc) : nat :=
  match w with
  | WGot _ => 9 | WRun _ _ => 8 | WSettle => 7 | WRunMandatory _ _ => 7
  | WSelect true => 7 | WTop false => 6 | WSelect false => 5 | WFinish true => 5
  | WDrain => 4 | WParked true => 4 | WTop true => 3 | WFinish false => 2
  | WParked false => 1 | WDone => 0
  end.

(** The steps a worker can still take once nobody adds work and its backlog does not
    wait for the fence. *)
Definition remaining (s : sys) : nat :=
  10 * (length s.(queue).(ch) + length s.(queue).(mandatory)
        + b2n s.(queue).(mandatoryWake)) + rank s.(worker).
Definition unfenced (s : sys) : Prop :=
  s.(fence) = true \/ s.(queue).(mandatory) = [].

Lemma worker_step_decreases cfg c s s' :
  unfenced s -> worker_step cfg c s = Some s' ->
  remaining s' < remaining s /\ unfenced s' /\ s'.(fence) = s.(fence)
  /\ s'.(threads) = s.(threads) /\ s'.(panicked) = s.(panicked)
  /\ s'.(queue).(ch_closed) = s.(queue).(ch_closed)
  /\ s'.(queue).(quit_closed) = s.(queue).(quit_closed).
Proof.
  intros Hu H. unfold worker_step, drainAndAbort, handleTask in H.
  destruct Hu as [Hf|Hm]; [rewrite Hf in H|]; split_matches.
  all: unfold remaining, unfenced; open_queue; split_matches; use_fields; cbn in *.
  all: repeat match goal with b : bool |- _ => destruct b; cbn in * end.
  all: try match goal with H : mandatoryWake _ = true |- _ => rewrite H; cbn end.
  all: try congruence.
  all: split_and!; first [done | lia | by left | by right].
Qed.

(** Every goroutine of the lane has returned, or holds nothing the worker waits
    for. *)
Definition quiet (s : sys) : Prop :=
  Forall (fun t => owes_wake t = 0 /\ outstanding t = 0) s.(threads).
(** The lane is over: a stop has closed its channel, after the fence and with no
    producer under way, or idle cleanup has retired it. *)
Definition lane_over (s : sys) : Prop :=
  (quiet s /\ s.(fence) = true /\ s.(queue).(ch_closed) = true) \/
  s.(queue).(quit_closed) = true.

(** A retired lane has no backlog, and can get none. *)
Lemma retired_empty cfg s :
  config_ok cfg -> reach cfg s -> s.(queue).(quit_closed) = true -> s.(queue).(mandatory) = [].
Proof.
  intros Hok Hr Hq. destruct (flags_invariant cfg s Hr) as (_ & Hf2 & Hf3 & Hf4 & _).
  assert (retirer s = RetireDone) as E by (destruct (retirer s); cbn in *; congruence).
  rewrite E in *. destruct (gate_invariant cfg (Hok (Hf4 ltac:(done))) s Hr)
    as (_ & _ & H3 & _). by destruct (H3 Hf2).
Qed.
Lemma over_unfenced cfg s : config_ok cfg -> reach cfg s -> lane_over s -> unfenced s.
Proof. intros Hok Hr [(_ & Hf & _)|Hq]; [by left|right]. by eapply retired_empty. Qed.

Lemma stuck_over cfg s :
  config_ok cfg -> reach cfg s -> lane_over s -> worker_stuck cfg s -> s.(worker) = WDone.
Proof.
  intros Hok Hr [(Hq & Hf & Hcl)|Hq] Hst.
  - destruct (stuck_reason cfg s Hok Hr Hst) as [?|[(_ & _ & H1 & _)|[[H1 _]|H1]]];
      [done|congruence..|].
    destruct H1 as (i & t & Ht & Hpos). destruct (Forall_lookup_1 _ _ _ _ Hq Ht). lia.
  - destruct (stuck_cases cfg s Hst) as [?|(b & [Hw|Hw] & _ & _ & Hsel)]; [done| |].
    + destruct (Hsel Hw) as (_ & _ & ?). congruence.
    + destruct (wake_invariant cfg s Hr) as (_ & Hpark & _).
      destruct Hpark; [by exists b|by eapply retired_empty].
Qed.
Lemma worker_progress cfg s :
  config_ok cfg -> reach cfg s -> lane_over s ->
  s.(worker) = WDone \/ exists c s', worker_step cfg c s = Some s'.
Proof.
  intros Hok Hr Hov.
  destruct (decide (Exists (fun c => is_Some (worker_step cfg c s))
    [CGo; CCtx; CQuit; CStop; CProgress; CWake; CFence])) as [Hc|Hno].
  { right. by apply Exists_exists in Hc as (c & _ & s' & Hc); eauto. }
  left. apply (stuck_over cfg s Hok Hr Hov). intros c.
  destruct (worker_step cfg c s) eqn:E; [|done].
  destruct Hno. apply Exists_exists. exists c.
  split; [destruct c; set_solver|by rewrite E].
Qed.

Lemma exit_reached cfg n : forall s,
  config_ok cfg -> reach cfg s -> remaining s <= n -> lane_over s ->
  s.(panicked) = false ->
  exists cs s', run (step cfg) (LWorker <$> cs) s = Some s' /\ s'.(worker) = WDone.
Proof.
  induction n as [|n IH]; intros s Hok Hr Hn Hov Hp.
  all: destruct (worker_progress cfg s Hok Hr Hov) as [Hd|(c & s1 & Hs)];
    [by exists [], s|].
  all: destruct (worker_step_decreases cfg c s s1 (over_unfenced cfg s Hok Hr Hov) Hs)
    as (Hlt & _ & Hf1 & Ht & Hp1 & Hc1 & Hq1).
  { lia. }
  assert (step cfg (LWorker c) s = Some s1) as Hst by (unfold step; by rewrite Hp).
  destruct (IH s1) as (cs & s' & Hrun & Hd); try done; try lia; try congruence.
  - by eapply reachable_step.
  - unfold lane_over, quiet. by rewrite Ht, Hf1, Hc1, Hq1.
  - exists (c :: cs), s'. split; [|done]. cbn [fmap list_fmap run].
    change (run (step cfg) (LWorker c :: (LWorker <$> cs)) s = Some s').
    cbn [run]. by rewrite Hst.
Qed.

Lemma run_worker_bound cfg cs : forall s s',
  unfenced s -> run (step cfg) (LWorker <$> cs) s = Some s' ->
  length cs <= remaining s.
Proof.
  induction cs as [|c cs IH]; intros s s' Hu Hrun; [cbn; lia|].
  rewrite fmap_cons in Hrun. cbn [run] in Hrun.
  destruct (step cfg (LWorker c) s) as [s1|] eqn:E; [|done].
  unfold step in E. destruct (panicked s); [done|].
  destruct (worker_step_decreases cfg c s s1 Hu E) as (Hlt & Hu1 & _).
  specialize (IH s1 s' Hu1 Hrun). change (S (length cs) <= remaining s). lia.
Qed.

(** C38: the worker of a lane that is over terminates. When a stop has closed the
    channel, after the submit fence, and the producers of the lane have returned (or
    hold nothing the worker waits for), and also when idle cleanup has retired the lane
    of an engine that goes on, whatever its producers still do, the worker can run to
    its exit by its own steps; and whatever alternatives it takes it takes at most
    [remaining] of them. *)
Theorem worker_exit_reached cfg s :
  config_ok cfg -> reach cfg s -> s.(panicked) = false ->
  (quiet s /\ s.(fence) = true /\ s.(queue).(ch_closed) = true) \/
    s.(queue).(quit_closed) = true ->
  (exists cs s', run (step cfg) (LWorker <$> cs) s = Some s' /\ s'.(worker) = WDone) /\
  forall cs s', run (step cfg) (LWorker <$> cs) s = Some s' ->
    length cs <= remaining s.
Proof.
  intros Hok Hr Hp Hov. split.
  - by apply (exit_reached cfg (remaining s)).
  - intros cs s'. apply run_worker_bound. by apply (over_unfenced cfg).
Qed.

(** A Sharded lane that a stop has closed, and a Dynamic one that was just retired
    while the engine goes on. *)
Lemma worker_exit_reached_witness :
  let s := end_of sharded_cfg 1 (take 42 shutdown_run) in
  let r := end_of dynamic_cfg 1 (take 20 retire_run) in
  s.(worker) <> WDone /\
  (exists cs s', run (step sharded_cfg) (LWorker <$> cs) s = Some s' /\ s'.(worker) = WDone) /\
  r.(worker) <> WDone /\ r.(fence) = false /\ r.(stop) = false /\
  (exists cs s', run (step dynamic_cfg) (LWorker <$> cs) r = Some s' /\ s'.(worker) = WDone).
Proof.
  cbv zeta. split; [vm_compute; discriminate|]. split.
  { apply (worker_exit_reached sharded_cfg (end_of sharded_cfg 1 (take 42 shutdown_run))).
    - done.
    - apply end_of_reach. lia.
    - vm_compute. reflexivity.
    - left. split; [unfold quiet; vm_compute; repeat constructor|]. split; vm_compute; reflexivity. }
  split; [vm_compute; discriminate|]. split; [vm_compute; reflexivity|]. split; [vm_compute; reflexivity|].
  apply (worker_exit_reached dynamic_cfg (end_of dynamic_cfg 1 (take 20 retire_run))).
  - done.
  - apply end_of_reach. lia.
  - vm_compute. reflexivity.
  - right. vm_compute. reflexivity.
Defined.

(** ** The fence *)

(** the submit fence is not lost: once stop has been signalled and every
    goroutine has left its registration, the fence is closed and nobody is in
    flight, so the stop sequence goes on to close the lane as soon as the gate
    is free. *)
Theorem submit_fence_closes cfg s :
  reach cfg s -> s.(stopper) = StopSignalled ->
  csum reg s.(threads) = 0 -> csum closing s.(threads) = 0 ->
  s.(fence) = true /\ s.(inFlight) = 0%Z /\
  (s.(queue).(gateReaders) = 0 -> s.(queue).(gateWriter) = false ->
     exists s', closeChannels s = Some s' /\ s'.(queue).(closed) = true).
Proof.
  intros Hr Hst Hreg Hcl.
  pose proof (inFlight_counts cfg s Hr) as Hin. rewrite Hreg in Hin.
  destruct (stop_invariant cfg s Hr) as [_ Hf].
  destruct (Hf Hst) as [Hfence|[?|?]]; [|lia..].
  split_and!; [done|done|]. intros Hg Hw.
  unfold closeChannels. rewrite Hst, Hfence, Hg, Hw. cbn.
  eexists; split; [reflexivity|]. cbn. unfold closeQueueChannel.
  by destruct (closed (queue s)) eqn:E.
Qed.

Lemma submit_fence_closes_witness :
  (end_of sharded_cfg 1 (take 40 shutdown_run)).(stopper) = StopSignalled /\
  (end_of sharded_cfg 1 (take 40 shutdown_run)).(fence) = true.
Proof.
  split; [vm_compute; reflexivity|].
  eapply (submit_fence_closes sharded_cfg).
  - apply end_of_reach. lia.
  - vm_compute. reflexivity.
  - vm_compute. reflexivity.
  - vm_compute. reflexivity.
Defined.

(** Two submits on a Sharded lane. The first one's decrement reaches zero before
    the stop; the second one registers; the stop is signalled and, seeing one
    producer registered, leaves the fence open; the first one now reads the stop
    flag and closes the fence; the stop sequence closes the channel; the second
    one sends. *)
Definition early_fence_run : list label :=
  [LSubmit exclusiveRoutingKey true; LSubmit exclusiveRoutingKey true]
  ++ times 8 (LThread 0 CGo) ++ [LThread 1 CGo; LStop; LStop; LThread 0 CGo]
  ++ [LCloseChannels] ++ times 4 (LThread 1 CGo).

(** C39: [endSubmit] decides to close the fence in two accesses, and the pair is
    not atomic: there is an execution of a Sharded lane in which the fence
    closes while a producer is registered, the channel is closed under it, and
    its send panics. The invariant the comments of [beginSubmit] and
    [submitToShardWithFailureHandoff] state does not hold. *)
Theorem sharded_submit_can_panic :
  exists ls s s',
    run (step sharded_cfg) ls (initial sharded_cfg 1) = Some s /\
    s.(fence) = true /\ s.(inFlight) = 1%Z /\
    step sharded_cfg LCloseChannels s = Some s' /\
    exists s'', run (step sharded_cfg) (times 4 (LThread 1 CGo)) s' = Some s'' /\
      s''.(panicked) = true.
Proof.
  exists (take 14 early_fence_run). eexists _, _.
  split; [vm_compute; reflexivity|]. split_and!; try (vm_compute; reflexivity).
  eexists. split; vm_compute; reflexivity.
Qed.
