(* ===== verification/GoRuntime.v ===== *)
(** * Go's errors, panics and effects

    What the other files use of the Go language and its [errors] package: error
    values as trees ([fmt.Errorf] with [%w], [errors.Join], [errors.Is]), calls
    that return or panic, and [defer] with and without [recover], over an
    explicit state. *)
From Stdlib Require Import ZArith Lia.
From stdpp Require Import base list strings.
From S2P Require Import Prelude.

(** ** Errors *)

(** A package-level [errors.New] value is its text; [EOther] is an error made by
    code outside the program (a hook, the native engine, a context). *)
Inductive error :=
| ESentinel (text : string)
| EOther (n : nat)
| EWrap (text : string) (e : error)
| EText (text : string) (v : nat)
| EJoin (es : list error).

(** [errors.Is(e, target)] for a sentinel target. *)
Fixpoint errors_Is (target : string) (e : error) : bool :=
  match e with
  | ESentinel t => bool_decide (t = target)
  | EOther _ | EText _ _ => false
  | EWrap _ e => errors_Is target e
  | EJoin es => existsb (errors_Is target) es
  end.

(** A nil error is [None]. *)
Definition errIs (target : string) (e : option error) : bool :=
  match e with Some e => errors_Is target e | None => false end.

(** [errors.Join]: nil members are dropped and an empty join is nil. *)
Definition errors_Join (es : list (option error)) : option error :=
  match omap id es with
  | [] => None
  | es => Some (EJoin es)
  end.

Lemma errors_Join_None es :
  errors_Join es = None <-> Forall (fun e => e = None) es.
Proof.
  unfold errors_Join. induction es as [|[e|] es IH]; cbn.
  - by split; [constructor|].
  - split; [done|]. by intros [? _]%Forall_cons.
  - rewrite Forall_cons, <- IH. naive_solver.
Qed.

Lemma errors_Join_Is target es :
  errIs target (errors_Join es) = existsb (errIs target) es.
Proof.
  unfold errors_Join. induction es as [|[e|] es IH]; cbn; [done| |done].
  destruct (omap id es) as [|e' es'] eqn:E; cbn in *.
  - by rewrite <- IH, orb_false_r.
  - by rewrite <- IH.
Qed.

(** ** Calls *)

(** The value of a panic: an error, nil, or anything else. *)
Inductive panicValue := PanicError (e : error) | PanicOther (n : nat) | PanicNil.

(** What [panic(nil)] carries, a [*runtime.PanicNilError], since the version go.mod
    asks for. Under [GODEBUG=panicnil=1] it carries nothing. *)
Definition PanicNilError : error := ESentinel "panic called with nil argument (use GODEBUG=panicnil=1 to disable)".

Inductive outcome (A : Type) := Ret (a : A) | Panic (v : panicValue).
Arguments Ret {A} a.
Arguments Panic {A} v.

(** A call over a state [S]: it returns or panics, and either way leaves a
    state. *)
Definition M (S A : Type) : Type := S -> outcome A * S.

Definition ret {S A} (a : A) : M S A := fun s => (Ret a, s).
Definition panic {S A} (v : panicValue) : M S A := fun s => (Panic v, s).
Definition bind {S A B} (m : M S A) (f : A -> M S B) : M S B := fun s =>
  match m s with
  | (Ret a, s) => f a s
  | (Panic v, s) => (Panic v, s)
  end.
Definition gets {S A} (f : S -> A) : M S A := fun s => (Ret (f s), s).
Definition modify {S} (f : S -> S) : M S unit := fun s => (Ret tt, f s).

Notation "'let*' x ':=' m 'in' k" := (bind m (fun x => k))
  (at level 10, x pattern, m at level 100, k at level 200) : pit_scope.
Notation "m ';;;' k" := (bind m (fun _ => k))
  (at level 100, k at level 200, right associativity) : pit_scope.

(** [defer d()] around [m]: [d] runs on both exits; its own panic replaces the
    one in flight. *)
Definition deferred {S A} (d : M S unit) (m : M S A) : M S A := fun s =>
  let '(o, s) := m s in
  match d s with
  | (Ret _, s) => (o, s)
  | (Panic v, s) => (Panic v, s)
  end.

(** [m] under a deferred [recover]: it always returns, with what happened. *)
Definition recovering {S A} (m : M S A) : M S (outcome A) := fun s =>
  let '(o, s) := m s in (Ret o, s).

Lemma bind_Ret {S A B} (m : M S A) (f : A -> M S B) s a s' :
  m s = (Ret a, s') -> bind m f s = f a s'.
Proof. unfold bind. by intros ->. Qed.

Lemma bind_Panic {S A B} (m : M S A) (f : A -> M S B) s v s' :
  m s = (Panic v, s') -> bind m f s = (Panic v, s').
Proof. unfold bind. by intros ->. Qed.

(** ** State relations

    [preserves R m]: every run of [m], returning or panicking, relates the state
    before to the state after. It composes along [bind] and the defers, so a
    fact about a whole handler follows from the facts about its calls. *)
Definition preserves {S A} (R : S -> S -> Prop) (m : M S A) : Prop :=
  forall s, R s (snd (m s)).

Section Preserves.
Context {S : Type} (R : S -> S -> Prop) `{!PreOrder R}.

Lemma preserves_ret {A} (a : A) : preserves R (ret a).
Proof. intros s. reflexivity. Qed.
Lemma preserves_panic {A} v : preserves R (panic (A:=A) v).
Proof. intros s. reflexivity. Qed.
Lemma preserves_gets {A} (f : S -> A) : preserves R (gets f).
Proof. intros s. reflexivity. Qed.
Lemma preserves_modify f : (forall s, R s (f s)) -> preserves R (modify f).
Proof. intros H s. apply H. Qed.

Lemma preserves_bind {A B} (m : M S A) (f : A -> M S B) :
  preserves R m -> (forall a, preserves R (f a)) -> preserves R (bind m f).
Proof.
  intros Hm Hf s. specialize (Hm s). unfold bind.
  destruct (m s) as [[a|v] s1]; cbn in *; [|done].
  transitivity s1; [done|apply Hf].
Qed.

Lemma preserves_deferred {A} d (m : M S A) :
  preserves R d -> preserves R m -> preserves R (deferred d m).
Proof.
  intros Hd Hm s. specialize (Hm s). unfold deferred.
  destruct (m s) as [o s1]. specialize (Hd s1).
  destruct (d s1) as [[]s2]; cbn in *; by transitivity s1.
Qed.

Lemma preserves_recovering {A} (m : M S A) :
  preserves R m -> preserves R (recovering m).
Proof. intros Hm s. specialize (Hm s). unfold recovering. by destruct (m s). Qed.
End Preserves.

#[export] Hint Resolve preserves_ret preserves_panic preserves_gets
  preserves_bind preserves_deferred preserves_recovering : pit.
