(* ===== verification/Handles.v ===== *)
(** * Native handles

    The lifetime objects of the pretrade package: [Reservation]
    (reservation.go), [DropCopyOperation] (drop_copy_operation.go), [Request]
    (request.go) and [DryRunReport] (dry_run_report.go). Each is a Go object that
    owns one native handle; the native engine itself is a parameter, and every
    call into it is logged. Objects live in a heap, so that two references to one
    object see one state. *)
From Stdlib Require Import ZArith Lia.
From stdpp Require Import base list gmap strings.
From S2P Require Import Prelude GoRuntime.

Definition ErrReservationClosed := ESentinel "pre-trade reservation already closed".
Definition ErrDropCopyOperationClosed := ESentinel "drop-copy operation already closed".
Definition ErrRequestClosed := ESentinel "pre-trade request already closed".
Definition ErrDryRunReportClosed := ESentinel "pre-trade dry-run report already closed".

Inductive handleKind := KReservation | KDropCopy | KRequest | KDryRun.
#[global] Instance handleKind_eq_dec : EqDecision handleKind.
Proof. solve_decision. Defined.

(** The calls that change a native object. Handles are named by numbers. *)
Inductive nativeCall :=
| NCommit (k : handleKind) (h : nat)
| NRollback (k : handleKind) (h : nat)
| NDestroy (k : handleKind) (h : nat)
| NExecute (h : nat).
#[global] Instance nativeCall_eq_dec : EqDecision nativeCall.
Proof. solve_decision. Defined.

Definition call_handle (c : nativeCall) : nat :=
  match c with NCommit _ h | NRollback _ h | NDestroy _ h | NExecute h => h end.

(** A Go lifetime object; a [Request] and a [DryRunReport] have no [resolved]
    field and leave it unset. *)
Record handleObj := mkObj { handle : option nat; resolved : bool }.

(** The process: the Go objects by address, the log of native calls, and the
    state [ext] of everything outside. *)
Record world (U : Type) := mkWorld {
  heap : gmap nat handleObj;
  calls : list nativeCall;
  ext : U;
}.
Arguments mkWorld {U} heap calls ext.
Arguments heap {U} w.
Arguments calls {U} w.
Arguments ext {U} w.

Section Native.
Context {U : Type}.

(** The native engine: what a call does to the outside, and whether it unwinds
    as a panic. *)
Context (native : nativeCall -> U -> outcome unit * U).

Abbreviation MW := (M (world U)).

Definition ncall (c : nativeCall) : MW unit := fun w =>
  let '(o, u) := native c (ext w) in
  (o, mkWorld (heap w) (calls w ++ [c]) u).

(** Reads through a pointer; a nil or dangling pointer panics. *)
Definition load (l : nat) : MW handleObj := fun w =>
  match heap w !! l with
  | Some o => (Ret o, w)
  | None => (Panic (PanicOther 0), w)
  end.
Definition store (l : nat) (o : handleObj) : MW unit :=
  modify (fun w => mkWorld (<[l := o]> (heap w)) (calls w) (ext w)).

(** The constructors [New...FromHandle]: a new object at an unused address. *)
Definition newFromHandle (h : option nat) : MW nat := fun w =>
  let l := fresh (dom (heap w)) in
  (Ret l, mkWorld (<[l := mkObj h false]> (heap w)) (calls w) (ext w)).

(** ** The operations the four objects share *)

Definition isClosed (l : nat) : MW bool :=
  let* o := load l in ret (bool_decide (handle o = None)).

(** [close] of a reservation or drop-copy operation. *)
Definition closePending (k : handleKind) (l : nat) : MW unit :=
  let* o := load l in
  match handle o with
  | None => ret tt
  | Some h => ncall (NDestroy k h) ;;; store l (mkObj None true)
  end.

(** [Close] of a request or report. *)
Definition closeView (k : handleKind) (l : nat) : MW unit :=
  let* o := load l in
  match handle o with
  | None => ret tt
  | Some h => ncall (NDestroy k h) ;;; store l (mkObj None (resolved o))
  end.

Definition commitPending (k : handleKind) (l : nat) : MW unit :=
  let* o := load l in
  match resolved o, handle o with
  | true, _ | _, None => ret tt
  | false, Some h => store l (mkObj (Some h) true) ;;; ncall (NCommit k h)
  end.

Definition rollbackPending (k : handleKind) (l : nat) : MW unit :=
  let* o := load l in
  match handle o with
  | None => ret tt
  | Some h =>
    if resolved o then ret tt
    else store l (mkObj (Some h) true) ;;; ncall (NRollback k h)
  end.

(** A read through the native handle, or the object's closed error. *)
Definition readView {A} (closedErr : error) (read : nat -> U -> A) (l : nat)
  : MW (A + error) :=
  let* o := load l in
  match handle o with
  | None => ret (inr closedErr)
  | Some h => let* u := gets ext in ret (inl (read h u))
  end.
End Native.

(** ** The four objects *)

Module Reservation.
Section Methods.
Context {U : Type} (native : nativeCall -> U -> outcome unit * U).
Definition IsClosed (l : nat) : M (world U) bool := isClosed l.
Definition commit (l : nat) : M (world U) unit := commitPending native KReservation l.
Definition rollback (l : nat) : M (world U) unit := rollbackPending native KReservation l.
Definition close (l : nat) : M (world U) unit := closePending native KReservation l.
Definition Close (l : nat) := close l.
Definition Commit (l : nat) := commit l.
Definition CommitAndClose (l : nat) := commit l ;;; close l.
Definition Rollback (l : nat) := rollback l.
Definition RollbackAndClose (l : nat) := rollback l ;;; close l.
Definition Lock {A} (read : nat -> U -> A) (l : nat) :=
  readView ErrReservationClosed read l.
Definition AccountAdjustments {A} (read : nat -> U -> A) (l : nat) :=
  readView ErrReservationClosed read l.
End Methods.
End Reservation.

Module DropCopyOperation.
Section Methods.
Context {U : Type} (native : nativeCall -> U -> outcome unit * U).
Definition IsClosed (l : nat) : M (world U) bool := isClosed l.
Definition commit (l : nat) : M (world U) unit := commitPending native KDropCopy l.
Definition rollback (l : nat) : M (world U) unit := rollbackPending native KDropCopy l.
Definition close (l : nat) : M (world U) unit := closePending native KDropCopy l.
Definition Close (l : nat) := close l.
Definition Commit (l : nat) := commit l.
Definition CommitAndClose (l : nat) := commit l ;;; close l.
Definition Rollback (l : nat) := rollback l.
Definition RollbackAndClose (l : nat) := rollback l ;;; close l.
Definition Lock {A} (read : nat -> U -> A) (l : nat) :=
  readView ErrDropCopyOperationClosed read l.
Definition AccountAdjustments {A} (read : nat -> U -> A) (l : nat) :=
  readView ErrDropCopyOperationClosed read l.
Definition IsAccountBlocked (read : nat -> U -> bool) (l : nat) :=
  readView ErrDropCopyOperationClosed read l.
(** The native list of account blocks holds at most the one requested block. *)
Definition AccountBlock {A} (read : nat -> U -> list A) (l : nat)
  : M (world U) (option A + error) :=
  readView ErrDropCopyOperationClosed (fun h u => head (read h u)) l.
End Methods.
End DropCopyOperation.

Module DryRunReport.
Section Methods.
Context {U : Type} (native : nativeCall -> U -> outcome unit * U).
Definition IsClosed (l : nat) : M (world U) bool := isClosed l.
Definition Close (l : nat) : M (world U) unit := closeView native KDryRun l.
Definition IsPass (read : nat -> U -> bool) (l : nat) :=
  readView ErrDryRunReportClosed read l.
(** [None] is the nil slice of an empty reject list. *)
Definition Rejects {A} (read : nat -> U -> list A) (l : nat)
  : M (world U) (option (list A) + error) :=
  readView ErrDryRunReportClosed
    (fun h u => match read h u with [] => None | r => Some r end) l.
Definition Lock {A} (read : nat -> U -> A) (l : nat) :=
  readView ErrDryRunReportClosed read l.
Definition AccountAdjustments {A} (read : nat -> U -> A) (l : nat) :=
  readView ErrDryRunReportClosed read l.
Definition AccountBlock {A} (read : nat -> U -> list A) (l : nat)
  : M (world U) (option A + error) :=
  readView ErrDryRunReportClosed (fun h u => head (read h u)) l.
End Methods.
End DryRunReport.

Module Request.
(** What the native execute returns: an error, the decoded reject list (or the
    decoding error), or a reservation handle. *)
Inductive executeResult (R : Type) :=
| XError (e : error)
| XRejects (r : R + error)
| XReservation (h : option nat).
Arguments XError {R} e.
Arguments XRejects {R} r.
Arguments XReservation {R} h.

Section Methods.
Context {U R : Type} (native : nativeCall -> U -> outcome unit * U).
Context (execute : nat -> U -> executeResult R).
Definition IsClosed (l : nat) : M (world U) bool := isClosed l.
Definition Close (l : nat) : M (world U) unit := closeView native KRequest l.

(** [Execute]: the reservation (by address), the rejects, the error. *)
Definition Execute (l : nat) : M (world U) (option nat * option R * option error) :=
  let* o := load l in
  match handle o with
  | None => ret (None, None, Some ErrRequestClosed)
  | Some h =>
    let* r := gets (fun w => execute h (ext w)) in
    ncall native (NExecute h) ;;;
    match r with
    | XError e => ret (None, None, Some e)
    | XRejects (inr e) =>
      ret (None, None,
        Some (EWrap "failed to create reject list for rejected order" e))
    | XRejects (inl rejects) => ret (None, Some rejects, None)
    | XReservation h => let* l := newFromHandle h in ret (Some l, None, None)
    end
  end.
End Methods.
End Request.

(** ** The life of a pending operation *)

Inductive pendingOp :=
| OpClose | OpCommit | OpCommitAndClose | OpRollback | OpRollbackAndClose.

Definition is_finalizer (c : nativeCall) : bool :=
  match c with NCommit _ _ | NRollback _ _ => true | _ => false end.

(** The native calls made on handle [h] so far, in order. *)
Definition calls_on {U} (h : nat) (w : world U) : list nativeCall :=
  filter (fun c => call_handle c = h) (calls w).

Section Life.
Context {U : Type} (native : nativeCall -> U -> outcome unit * U).
Context (k : handleKind).

Definition run_op (op : pendingOp) (l : nat) : M (world U) unit :=
  match op with
  | OpClose => closePending native k l
  | OpCommit => commitPending native k l
  | OpCommitAndClose => commitPending native k l ;;; closePending native k l
  | OpRollback => rollbackPending native k l
  | OpRollbackAndClose => rollbackPending native k l ;;; closePending native k l
  end.

(** A sequence of method calls; a caller may recover a panic and go on. *)
Fixpoint run_ops (ops : list pendingOp) (l : nat) : M (world U) unit :=
  match ops with
  | [] => ret tt
  | op :: ops => recovering (run_op op l) ;;; run_ops ops l
  end.

(** The specification: an operation is pending, then resolved by the first
    finalizer, then closed; each transition makes its native calls once. *)
Inductive lifecycle := Pending | Resolved | Closed.

Definition spec_resolve (c : nativeCall) (s : lifecycle)
  : lifecycle * list nativeCall :=
  match s with Pending => (Resolved, [c]) | _ => (s, []) end.
Definition spec_close (h : nat) (s : lifecycle) : lifecycle * list nativeCall :=
  match s with Closed => (s, []) | _ => (Closed, [NDestroy k h]) end.
Definition spec_op (h : nat) (op : pendingOp) (s : lifecycle)
  : lifecycle * list nativeCall :=
  let both c := let '(s1, c1) := spec_resolve c s in
                let '(s2, c2) := spec_close h s1 in (s2, c1 ++ c2) in
  match op with
  | OpClose => spec_close h s
  | OpCommit => spec_resolve (NCommit k h) s
  | OpCommitAndClose => both (NCommit k h)
  | OpRollback => spec_resolve (NRollback k h) s
  | OpRollbackAndClose => both (NRollback k h)
  end.
Fixpoint spec_ops (h : nat) (ops : list pendingOp) (s : lifecycle)
  : lifecycle * list nativeCall :=
  match ops with
  | [] => (s, [])
  | op :: ops => let '(s1, c1) := spec_op h op s in
                 let '(s2, c2) := spec_ops h ops s1 in (s2, c1 ++ c2)
  end.

(** The object at [l] is in the abstract state [s] and has made the calls [cs]
    on its handle [h]. *)
Definition rep (h l : nat) (s : lifecycle) (cs : list nativeCall) (w : world U) : Prop :=
  calls_on h w = cs /\
  heap w !! l = Some match s with
                     | Pending => mkObj (Some h) false
                     | Resolved => mkObj (Some h) true
                     | Closed => mkObj None true
                     end.

Lemma calls_on_snoc h hp cs c (u : U) :
  calls_on h (mkWorld hp (cs ++ [c]) u) =
  calls_on h (mkWorld hp cs u) ++ (if bool_decide (call_handle c = h) then [c] else []).
Proof.
  unfold calls_on; cbn. rewrite filter_app. f_equal.
  case_bool_decide; [by rewrite filter_cons_True|by rewrite filter_cons_False].
Qed.

(** No native call unwinds. *)
Definition native_returns : Prop := forall c u, exists u', native c u = (Ret tt, u').

Lemma rep_step h l s s' cs c (w : world U) u :
  rep h l s cs w -> call_handle c = h ->
  forall o, Some o = Some match s' with
                     | Pending => mkObj (Some h) false
                     | Resolved => mkObj (Some h) true
                     | Closed => mkObj None true
                     end ->
  rep h l s' (cs ++ [c]) (mkWorld (<[l := o]> (heap w)) (calls w ++ [c]) u).
Proof.
  intros [Hc Hh] Hk o [= ->]. split; [|cbn; by rewrite lookup_insert_eq].
  rewrite calls_on_snoc, bool_decide_eq_true_2 by done.
  unfold calls_on in *; cbn. by rewrite Hc.
Qed.

Lemma rep_same h l s cs (w : world U) : rep h l s cs w -> rep h l s (cs ++ []) w.
Proof. by rewrite app_nil_r. Qed.

Ltac life_open Hh :=
  unfold closePending, commitPending, rollbackPending, load, store, ncall,
    modify, bind, ret; rewrite Hh; cbn.

Lemma commit_refines (Hn : native_returns) h l s cs w :
  rep h l s cs w ->
  exists w', commitPending native k l w = (Ret tt, w') /\
    rep h l (fst (spec_resolve (NCommit k h) s)) (cs ++ snd (spec_resolve (NCommit k h) s)) w'.
Proof.
  intros Hrep. destruct Hrep as [Hc Hh] eqn:E. destruct s; life_open Hh.
  2, 3: eexists; split; [done|by apply rep_same].
  destruct (Hn (NCommit k h) (ext w)) as [u' Hu]. rewrite Hu. cbn.
  eexists; split; [done|]. by eapply rep_step.
Qed.

Lemma rollback_refines (Hn : native_returns) h l s cs w :
  rep h l s cs w ->
  exists w', rollbackPending native k l w = (Ret tt, w') /\
    rep h l (fst (spec_resolve (NRollback k h) s))
      (cs ++ snd (spec_resolve (NRollback k h) s)) w'.
Proof.
  intros Hrep. destruct Hrep as [Hc Hh] eqn:E. destruct s; life_open Hh.
  2, 3: eexists; split; [done|by apply rep_same].
  destruct (Hn (NRollback k h) (ext w)) as [u' Hu]. rewrite Hu. cbn.
  eexists; split; [done|]. by eapply rep_step.
Qed.

Lemma close_refines (Hn : native_returns) h l s cs w :
  rep h l s cs w ->
  exists w', closePending native k l w = (Ret tt, w') /\
    rep h l (fst (spec_close h s)) (cs ++ snd (spec_close h s)) w'.
Proof.
  intros Hrep. destruct Hrep as [Hc Hh] eqn:E. destruct s; life_open Hh.
  3: eexists; split; [done|by apply rep_same].
  all: destruct (Hn (NDestroy k h) (ext w)) as [u' Hu]; rewrite Hu; cbn;
    eexists; split; [done|]; by eapply rep_step.
Qed.

Lemma run_op_refines (Hn : native_returns) h l op s cs w :
  rep h l s cs w ->
  exists w', run_op op l w = (Ret tt, w') /\
    rep h l (fst (spec_op h op s)) (cs ++ snd (spec_op h op s)) w'.
Proof.
  intros Hrep. destruct op; cbn [run_op spec_op].
  - by apply close_refines.
  - by apply commit_refines.
  - destruct (commit_refines Hn _ _ _ _ _ Hrep) as (w1 & H1 & Hrep1).
    destruct (close_refines Hn _ _ _ _ _ Hrep1) as (w2 & H2 & Hrep2).
    exists w2. erewrite bind_Ret by exact H1. split; [done|].
    destruct (spec_resolve _ s) as [s1 c1]; cbn in *.
    destruct (spec_close h s1) as [s2 c2]; cbn in *. by rewrite <- app_assoc in Hrep2.
  - by apply rollback_refines.
  - destruct (rollback_refines Hn _ _ _ _ _ Hrep) as (w1 & H1 & Hrep1).
    destruct (close_refines Hn _ _ _ _ _ Hrep1) as (w2 & H2 & Hrep2).
    exists w2. erewrite bind_Ret by exact H1. split; [done|].
    destruct (spec_resolve _ s) as [s1 c1]; cbn in *.
    destruct (spec_close h s1) as [s2 c2]; cbn in *. by rewrite <- app_assoc in Hrep2.
Qed.

Lemma run_ops_refines (Hn : native_returns) h l ops : forall s cs w,
  rep h l s cs w ->
  exists w', run_ops ops l w = (Ret tt, w') /\
    rep h l (fst (spec_ops h ops s)) (cs ++ snd (spec_ops h ops s)) w'.
Proof.
  induction ops as [|op ops IH]; intros s cs w Hrep; cbn [run_ops spec_ops].
  { eexists. split; [done|]. by apply rep_same. }
  destruct (run_op_refines Hn h l op s cs w Hrep) as (w1 & H1 & Hrep1).
  destruct (IH _ _ _ Hrep1) as (w2 & H2 & Hrep2). exists w2.
  erewrite bind_Ret by (unfold recovering; by rewrite H1). split; [done|].
  destruct (spec_op h op s) as [s1 c1]; cbn in *.
  destruct (spec_ops h ops s1) as [s2 c2]; cbn in *. by rewrite app_assoc.
Qed.

(** ** What holds even when native calls unwind *)

(** The calls on a handle never leave this shape: one finalizer at most, then
    one destroy at most, and nothing after it. *)
Definition call_protocol (cs : list nativeCall) : Prop :=
  match cs with
  | [] => True
  | [c] => True
  | [f; NDestroy _ _] => is_finalizer f = true
  | _ => False
  end.

Definition life_ok (h : nat) (s : lifecycle) (cs : list nativeCall) : Prop :=
  match s with
  | Pending => cs = []
  | Resolved => exists f, is_finalizer f = true /\ cs = [f]
  | Closed => cs = [NDestroy k h] \/
      exists f, is_finalizer f = true /\ cs = [f; NDestroy k h]
  end.

Lemma life_ok_protocol h s cs : life_ok h s cs -> call_protocol cs.
Proof. destruct s; cbn; [by intros ->|by intros (f & Hf & ->)|].
  by intros [->|(f & Hf & ->)]. Qed.

(** The object at [l] owns [h], and the calls on [h] fit its state. *)
Definition owns (h l : nat) (w : world U) : Prop :=
  exists s cs, life_ok h s cs /\ rep h l s cs w.

(** Destroying a handle does not unwind; committing or rolling back may. *)
Definition destroy_returns : Prop :=
  forall k h u, exists u', native (NDestroy k h) u = (Ret tt, u').

Lemma resolve_owns h l (w : world U) c :
  is_finalizer c = true -> call_handle c = h ->
  owns h l w -> heap w !! l = Some (mkObj (Some h) false) ->
  forall u, owns h l (mkWorld (<[l := mkObj (Some h) true]> (heap w)) (calls w ++ [c]) u).
Proof.
  intros Hf Hh (s & cs & Hl & Hrep) Hlk u.
  destruct s; pose proof (proj2 Hrep) as E; rewrite Hlk in E; simplify_eq.
  cbn in Hl. subst cs. exists Resolved, [c]. split; [by exists c|].
  change [c] with ([] ++ [c]). by eapply rep_step.
Qed.

Lemma commit_owns h l w : owns h l w -> owns h l (snd (commitPending native k l w)).
Proof.
  intros Ho. destruct Ho as (s & cs & Hl & Hc & Hh) eqn:E.
  destruct s; life_open Hh; try done.
  destruct (native _ _) as [o u]; cbn. by apply resolve_owns.
Qed.

Lemma rollback_owns h l w : owns h l w -> owns h l (snd (rollbackPending native k l w)).
Proof.
  intros Ho. destruct Ho as (s & cs & Hl & Hc & Hh) eqn:E.
  destruct s; life_open Hh; try done.
  destruct (native _ _) as [o u]; cbn. by apply resolve_owns.
Qed.

(** Closing always leaves a closed object. *)
Lemma close_owns (Hd : destroy_returns) h l w :
  owns h l w -> exists w', closePending native k l w = (Ret tt, w') /\
    owns h l w' /\ heap w' !! l = Some (mkObj None true).
Proof.
  intros (s & cs & Hl & Hrep). destruct Hrep as [Hc Hh] eqn:E.
  destruct s; life_open Hh.
  3: eexists; split; [done|]; split; [by exists Closed, cs|done].
  all: destruct (Hd k h (ext w)) as [u' Hu]; rewrite Hu; cbn;
    eexists; split; [done|]; split; [|by cbn; rewrite lookup_insert_eq];
    exists Closed, (cs ++ [NDestroy k h]); split; [|by eapply rep_step];
    cbn in *.
  - left. by subst.
  - destruct Hl as (f & ? & ->). right. eauto.
Qed.

Lemma run_op_owns (Hd : destroy_returns) h l op w :
  owns h l w -> owns h l (snd (run_op op l w)).
Proof.
  intros Ho. destruct op; cbn [run_op].
  - by destruct (close_owns Hd h l w Ho) as (w' & -> & ? & _).
  - by apply commit_owns.
  - unfold bind. pose proof (commit_owns h l w Ho) as H1.
    destruct (commitPending native k l w) as [[[]|v] w1]; cbn in *; [|done].
    by destruct (close_owns Hd h l w1 H1) as (w' & -> & ? & _).
  - by apply rollback_owns.
  - unfold bind. pose proof (rollback_owns h l w Ho) as H1.
    destruct (rollbackPending native k l w) as [[[]|v] w1]; cbn in *; [|done].
    by destruct (close_owns Hd h l w1 H1) as (w' & -> & ? & _).
Qed.

Lemma run_ops_owns (Hd : destroy_returns) h l ops : forall w,
  owns h l w -> exists w', run_ops ops l w = (Ret tt, w') /\ owns h l w'.
Proof.
  induction ops as [|op ops IH]; intros w Ho; cbn [run_ops]; [eauto|].
  pose proof (run_op_owns Hd h l op w Ho) as H1. unfold bind, recovering.
  destruct (run_op op l w) as [o w1]; cbn in *. by apply IH.
Qed.

Lemma run_ops_app ops1 ops2 l w w1 :
  run_ops ops1 l w = (Ret tt, w1) ->
  run_ops (ops1 ++ ops2) l w = run_ops ops2 l w1.
Proof.
  revert w. induction ops1 as [|op ops IH]; intros w; cbn [run_ops app].
  { by intros [= ->]. }
  unfold bind, recovering. destruct (run_op op l w) as [o w2]. apply IH.
Qed.

(** A new object owns its handle when the handle is new to the process. *)
Lemma owns_fresh h (w : world U) :
  Forall (fun c => call_handle c <> h) (calls w) ->
  exists l w', newFromHandle (Some h) w = (Ret l, w') /\ owns h l w' /\
    rep h l Pending [] w'.
Proof.
  intros Hf. eexists _, _. split; [done|].
  assert (rep h (fresh (dom (heap w))) Pending []
    (mkWorld (<[fresh (dom (heap w)) := mkObj (Some h) false]> (heap w)) (calls w) (ext w)))
    as Hrep.
  { split; [|cbn; by rewrite lookup_insert_eq]. unfold calls_on; cbn.
    induction Hf as [|c cs Hc _ IH]; [done|]. by rewrite filter_cons_False. }
  split; [|done]. by exists Pending, [].
Qed.
End Life.

(** C33: a reservation or a drop-copy operation implements its life cycle: on a
    native engine that does not unwind, any sequence of method calls makes
    exactly the native calls of the three-state specification (the first commit
    or rollback, then the first close), and leaves the object in the
    specification's state. *)
Theorem pending_refines_lifecycle {U} (native : nativeCall -> U -> outcome unit * U)
    k ops h (w : world U) :
  native_returns native -> Forall (fun c => call_handle c <> h) (calls w) ->
  exists l w0 w', newFromHandle (Some h) w = (Ret l, w0) /\
    run_ops native k ops l w0 = (Ret tt, w') /\
    rep h l (fst (spec_ops k h ops Pending)) (snd (spec_ops k h ops Pending)) w'.
Proof.
  intros Hn Hf. destruct (owns_fresh k h w Hf) as (l & w0 & Hnew & _ & Hrep).
  destruct (run_ops_refines native k Hn h l ops _ _ _ Hrep) as (w' & Hrun & Hrep').
  exists l, w0, w'. auto.
Qed.

(** The engine of the witnesses: a commit of an even handle unwinds. *)
Definition demo_native (c : nativeCall) (u : nat) : outcome unit * nat :=
  (match c with
   | NCommit _ h => if Nat.even h then Panic (PanicOther h) else Ret tt
   | _ => Ret tt
   end, S u).
Definition calm_native (c : nativeCall) (u : nat) : outcome unit * nat := (Ret tt, S u).
Definition demo_world : world nat := mkWorld ∅ [] 0.

Lemma pending_refines_lifecycle_witness :
  native_returns calm_native /\
  exists l w0 w', newFromHandle (Some 7) demo_world = (Ret l, w0) /\
    run_ops calm_native KReservation [OpCommit; OpRollbackAndClose; OpClose] l w0
      = (Ret tt, w') /\
    rep 7 l Closed [NCommit KReservation 7; NDestroy KReservation 7] w'.
Proof.
  split; [intros c u; by eexists|].
  apply (pending_refines_lifecycle calm_native KReservation
    [OpCommit; OpRollbackAndClose; OpClose] 7 demo_world).
  - intros c u. by eexists.
  - constructor.
Defined.

(** whatever sequence of methods is called, and even when a native commit or
    rollback unwinds in the middle and the caller recovers, the native handle is
    finalized at most once and destroyed at most once, nothing is called on it
    after its destruction, and once the sequence ends in a close it has been
    destroyed exactly once and the object is closed. *)
Theorem handle_calls_follow_protocol {U} (native : nativeCall -> U -> outcome unit * U)
    k ops h (w : world U) :
  destroy_returns native -> Forall (fun c => call_handle c <> h) (calls w) ->
  exists l w0 w1 w2, newFromHandle (Some h) w = (Ret l, w0) /\
    run_ops native k ops l w0 = (Ret tt, w1) /\ call_protocol (calls_on h w1) /\
    run_ops native k (ops ++ [OpClose]) l w0 = (Ret tt, w2) /\
    call_protocol (calls_on h w2) /\
    filter (fun c => c = NDestroy k h) (calls_on h w2) = [NDestroy k h] /\
    isClosed l w2 = (Ret true, w2).
Proof.
  intros Hd Hf. destruct (owns_fresh k h w Hf) as (l & w0 & Hnew & Ho & _).
  destruct (run_ops_owns native k Hd h l ops w0 Ho) as (w1 & Hrun & Ho1).
  destruct (close_owns native k Hd h l w1 Ho1) as (w2 & Hcl & Ho2 & Hh2).
  exists l, w0, w1, w2. rewrite (run_ops_app native k ops [OpClose] l w0 w1 Hrun).
  destruct Ho1 as (s1 & cs1 & Hl1 & Hc1 & _). destruct Ho2 as (s2 & cs2 & Hl2 & Hc2 & Hs2).
  rewrite Hh2 in Hs2. destruct s2; try done. split_and!; try done.
  - rewrite Hc1. by eapply life_ok_protocol.
  - cbn [run_ops run_op]. unfold recovering, bind. by rewrite Hcl.
  - rewrite Hc2. by eapply life_ok_protocol.
  - rewrite Hc2. destruct Hl2 as [->|(f & Hfin & ->)].
    + by rewrite filter_cons_True.
    + rewrite filter_cons_False by (by intros ->). by rewrite filter_cons_True.
  - unfold isClosed, load, bind, ret. by rewrite Hh2.
Qed.

Lemma handle_calls_follow_protocol_witness :
  destroy_returns demo_native /\
  exists l w0 w1 w2, newFromHandle (Some 4) demo_world = (Ret l, w0) /\
    run_ops demo_native KDropCopy [OpCommitAndClose] l w0 = (Ret tt, w1) /\
    call_protocol (calls_on 4 w1) /\
    run_ops demo_native KDropCopy ([OpCommitAndClose] ++ [OpClose]) l w0 = (Ret tt, w2) /\
    call_protocol (calls_on 4 w2) /\
    filter (fun c => c = NDestroy KDropCopy 4) (calls_on 4 w2) = [NDestroy KDropCopy 4] /\
    isClosed l w2 = (Ret true, w2).
Proof.
  split; [intros k h u; by eexists|].
  apply (handle_calls_follow_protocol demo_native KDropCopy [OpCommitAndClose] 4 demo_world).
  - intros k h u. by eexists.
  - constructor.
Defined.
