(* ===== verification/Future.v ===== *)
(** * Futures

    [Future] and [Future2] of pkg/future/future.go. [Resolve] is three writes
    under a [sync.Once]; here they are separate steps that other goroutines'
    reads interleave with, so that "resolved exactly once, and observed only
    complete" is a property of every interleaving. *)
From Stdlib Require Import ZArith Lia.
From stdpp Require Import base list strings.
From S2P Require Import Prelude GoRuntime.

(** [f.once]: untouched, inside the first caller's function, or done. *)
Inductive once (T : Type) :=
| OnceNew
| OnceValue (v : T) (e : option error)
| OnceErr (v : T) (e : option error)
| OnceClose (v : T) (e : option error)
| OnceDone.
Arguments OnceNew {T}.
Arguments OnceValue {T} v e.
Arguments OnceErr {T} v e.
Arguments OnceClose {T} v e.
Arguments OnceDone {T}.

Section Future.
Context {T : Type} (zero : T).

Record Future := mkFuture {
  done : bool;
  f_once : once T;
  value : T;
  err : option error;
}.

Definition New : Future := mkFuture false OnceNew zero None.

(** The steps of the goroutines that call [Resolve]: enter [once.Do] with these
    arguments, and the three statements of its function. A [Do] entered while
    another one runs waits; one entered after it returns at once. *)
Inductive flabel := FEnter (v : T) (e : option error) | FStep.

Definition future_step (l : flabel) (f : Future) : option Future :=
  match l, f_once f with
  | FEnter v e, OnceNew => Some (mkFuture (done f) (OnceValue v e) (value f) (err f))
  | FEnter _ _, OnceDone => Some f
  | FEnter _ _, _ => None
  | FStep, OnceValue v e => Some (mkFuture (done f) (OnceErr v e) v (err f))
  | FStep, OnceErr v e => Some (mkFuture (done f) (OnceClose v e) (value f) e)
  | FStep, OnceClose v e => Some (mkFuture true OnceDone (value f) (err f))
  | FStep, _ => None
  end.

(** [Resolve] of a goroutine that is not disturbed. *)
Definition Resolve (v : T) (e : option error) (f : Future) : Future :=
  match f_once f with
  | OnceNew => mkFuture true OnceDone v e
  | _ => f
  end.

(** [Await]: what the [select] can return; [ctxErr] is the error of a cancelled
    context. The list holds every ready alternative, and is empty while the call
    blocks. *)
Definition Await (ctxErr : option error) (f : Future) : list (T * option error) :=
  (if done f then [(value f, err f)] else []) ++
  match ctxErr with Some e => [(zero, Some e)] | None => [] end.

Definition Done (f : Future) : bool := done f.

Definition TryGet (f : Future) : T * bool * option error :=
  if done f then (value f, true, err f) else (zero, false, None).

(** [Wait]: whether the returned channel is closed. *)
Definition Wait (f : Future) : bool := done f.

(** ** Invariant *)

(** The arguments the first [Resolve] came with. *)
Definition winner (f : Future) (v : T) (e : option error) : Prop :=
  match f_once f with
  | OnceNew => False
  | OnceValue v' e' => v' = v /\ e' = e
  | OnceErr v' e' => v' = v /\ e' = e /\ value f = v
  | OnceClose v' e' => v' = v /\ e' = e /\ value f = v /\ err f = e
  | OnceDone => value f = v /\ err f = e
  end.

Definition done_ok (f : Future) : Prop :=
  done f = match f_once f with OnceDone => true | _ => false end.

Lemma done_ok_step l f f' : done_ok f -> future_step l f = Some f' -> done_ok f'.
Proof.
  unfold done_ok. destruct l, f as [dn on vl er], on; cbn; intros; simplify_eq; done.
Qed.

Lemma winner_step l f f' v e :
  winner f v e -> future_step l f = Some f' -> winner f' v e.
Proof.
  destruct l, f as [dn [] vl er]; cbn; intros Hw Hs; destruct_and?;
    by inversion Hs; subst.
Qed.

Lemma winner_run ls f f' v e :
  winner f v e -> run future_step ls f = Some f' -> winner f' v e.
Proof.
  revert f. induction ls as [|l ls IH]; cbn; intros f Hw; [by intros [= <-]|].
  destruct (future_step l f) as [f1|] eqn:E; [|done].
  apply IH. by eapply winner_step.
Qed.

Lemma done_ok_run ls f f' :
  done_ok f -> run future_step ls f = Some f' -> done_ok f'.
Proof.
  revert f. induction ls as [|l ls IH]; cbn; intros f Hd; [by intros [= <-]|].
  destruct (future_step l f) as [f1|] eqn:E; [|done].
  apply IH. by eapply done_ok_step.
Qed.

(** An undisturbed [Resolve] is its four steps. *)
Lemma Resolve_run f v e :
  f_once f = OnceNew -> done f = false ->
  run future_step [FEnter v e; FStep; FStep; FStep] f = Some (Resolve v e f).
Proof. destruct f as [dn on vl er]; cbn. by intros -> ->. Qed.
End Future.
Arguments Future T : clear implicits.

(** a future resolves exactly once. Once some [Resolve v e] has entered, then
    whatever other resolutions and reads interleave, every read that reports the
    future as resolved reports exactly [v] and [e], complete; and a read before
    that reports the zero value. *)
Theorem future_resolves_once {T} (zero : T) ls f v e :
  run future_step (FEnter v e :: ls) (New zero) = Some f ->
  TryGet zero f = (if Done f then (v, true, e) else (zero, false, None)) /\
  (forall r, r ∈ Await zero None f -> r = (v, e)).
Proof.
  cbn [run]. unfold future_step at 1. cbn. intros Hrun.
  assert (winner f v e) as Hw by (eapply winner_run; [|exact Hrun]; done).
  assert (done_ok f) as Hd by (eapply done_ok_run; [|exact Hrun]; done).
  unfold done_ok in Hd. unfold TryGet, Done, Await, winner in *.
  destruct (done f); destruct (f_once f); try done; destruct_and?; subst.
  all: try (split; [done|]; intros r Hr; by apply not_elem_of_nil in Hr).
  split; [done|]. intros r Hr. by apply list_elem_of_singleton in Hr.
Qed.

Lemma future_resolves_once_witness :
  exists f, run future_step [FEnter 3 None; FStep; FStep; FStep; FEnter 9 None]
      (New 0) = Some f /\ Done f = true /\
    TryGet 0 f = (if Done f then (3, true, None) else (0, false, None)).
Proof.
  eexists. split; [vm_compute; reflexivity|]. split; [reflexivity|].
  apply (future_resolves_once 0 [FStep; FStep; FStep; FEnter 9 None]).
  vm_compute. reflexivity.
Defined.

(** ** Future2

    A pair of values over one [Future] of pairs. *)
Section Future2.
Context {A B : Type} (zeroA : A) (zeroB : B).

Record Future2 := mkFuture2 { inner : Future (A * B) }.

Definition New2 : Future2 := mkFuture2 (New (zeroA, zeroB)).
Definition Resolve2 (first : A) (second : B) (e : option error) (f : Future2) : Future2 :=
  mkFuture2 (Resolve (first, second) e (inner f)).
Definition Await2 (ctxErr : option error) (f : Future2) : list (A * B * option error) :=
  (fun r => (fst (fst r), snd (fst r), snd r)) <$> Await (zeroA, zeroB) ctxErr (inner f).
Definition Done2 (f : Future2) : bool := Done (inner f).
Definition TryGet2 (f : Future2) : A * B * bool * option error :=
  let '(v, ok, e) := TryGet (zeroA, zeroB) (inner f) in (fst v, snd v, ok, e).
Definition Wait2 (f : Future2) : bool := Wait (inner f).
End Future2.

(** [Future2] keeps the Go tuple: resolved once with [(a, b)] and [err] it
    gives those three back through every reader, later resolutions are ignored,
    and an [Await] whose context is also cancelled gives either that tuple or
    the zero values with the context's error, leaving the future as it was. *)
Theorem future2_returns_the_tuple {A B} (zA : A) (zB : B) a b e a' b' e' ce :
  let f := Resolve2 a' b' e' (Resolve2 a b e (New2 zA zB)) in
  TryGet2 zA zB f = (a, b, true, e) /\ Done2 f = true /\ Wait2 f = true /\
  Await2 zA zB None f = [(a, b, e)] /\
  Await2 zA zB (Some ce) f = [(a, b, e); (zA, zB, Some ce)] /\
  TryGet2 zA zB (New2 zA zB) = (zA, zB, false, None) /\
  Await2 zA zB None (New2 zA zB) = [].
Proof. done. Qed.
