(* ===== verification/EngineBase.v ===== *)
(** * Asynchronous engine: errors, inputs and driver results

    What the direct operations and the chains of asyncengine share: the error
    values (errors.go), the account and group an input routes by, and the shape
    check of a driver's answer (engine.go). *)
From Stdlib Require Import ZArith Lia.
From stdpp Require Import base list gmap strings.
From S2P Require Import Prelude GoRuntime Routing Handles.

(** ** Errors *)

Definition txtStopped : string := "openpit/asyncengine: engine is stopped".
Definition txtDriverResult : string := "openpit/asyncengine: invalid driver result".
Definition txtMissingAccountID : string :=
  "openpit/asyncengine: no account ID to route the call by".
Definition txtChainIncomplete : string := "openpit/asyncengine: chain is incomplete".
Definition txtChainRetryUnsafe : string := "openpit/asyncengine: chain retry is unsafe".

Definition ErrMissingAccountID := ESentinel txtMissingAccountID.
Definition ErrStopped := ESentinel txtStopped.
Definition ErrDriverResult := ESentinel txtDriverResult.
Definition ErrChainEngineMissing := ESentinel "openpit/asyncengine: chain engine is nil".
Definition ErrChainIncomplete := ESentinel txtChainIncomplete.
Definition ErrChainOrderRequired :=
  ESentinel "openpit/asyncengine: chain operation requires an order source".
Definition ErrChainAccountRequired :=
  ESentinel "openpit/asyncengine: chain operation requires an account source".
Definition ErrChainAccountGroupRequired :=
  ESentinel "openpit/asyncengine: chain operation requires an account-group source".
Definition ErrChainAccountMismatch :=
  ESentinel "openpit/asyncengine: chain account does not match lane".
Definition ErrChainInvalidDecision := ESentinel "openpit/asyncengine: invalid chain decision".
Definition ErrChainRetryUnsafe := ESentinel txtChainRetryUnsafe.
Definition ErrChainResultUnavailable :=
  ESentinel "openpit/asyncengine: chain operation result is unavailable".
Definition ErrExclusiveContext :=
  ESentinel "openpit/asyncengine: exclusive section needs a cancellable context".
Definition ErrUninitializedAccountGroupID :=
  ESentinel "param: account group ID is uninitialized".

(** ** Inputs

    The part of an order and of an execution report the asynchronous engine
    reads; the rest is carried along. *)
Record OrderOperation := { op_accountID : option AccountID }.
Record Order := { operation : option OrderOperation; order_rest : nat }.
Record ReportOperation := { rop_accountID : option AccountID }.
Record ExecutionReport := { r_operation : option ReportOperation; report_rest : nat }.

Definition extractOrderAccountID (order : Order) : AccountID + error :=
  match operation order with
  | None => inr ErrMissingAccountID
  | Some op => match op_accountID op with
               | None => inr ErrMissingAccountID
               | Some a => inl a
               end
  end.

Definition extractReportAccountID (report : ExecutionReport) : AccountID + error :=
  match r_operation report with
  | None => inr ErrMissingAccountID
  | Some op => match rop_accountID op with
               | None => inr ErrMissingAccountID
               | Some a => inl a
               end
  end.

Definition validateAccountGroupID (g : AccountGroupID) : option error :=
  if grp_initialized g then None else Some ErrUninitializedAccountGroupID.

(** ** The shape of a driver's answer *)

(** [rejects] is the length of the reject slice. *)
Definition validateDriverResult (hasHandle hasLiveHandle : bool) (rejects : nat)
    (err : option error) : option error :=
  if hasHandle && negb hasLiveHandle then errors_Join [Some ErrDriverResult; err]
  else
    let resultCount :=
      b2n hasLiveHandle + b2n (0 <? rejects) + b2n (bool_decide (is_Some err)) in
    if resultCount =? 1 then None else errors_Join [Some ErrDriverResult; err].

(** the shape check accepts exactly the answers with one of a live handle, a
    non-empty reject list and an error, never one with a closed handle; and what
    it refuses is reported as [ErrDriverResult] joined with the driver's own
    error, so neither is hidden. *)
Theorem validateDriverResult_exactly_one hasHandle hasLive rejects err :
  (hasLive = true -> hasHandle = true) ->
  (validateDriverResult hasHandle hasLive rejects err = None <->
     (hasHandle = true /\ hasLive = true /\ rejects = 0 /\ err = None) \/
     (hasHandle = false /\ 0 < rejects /\ err = None) \/
     (hasHandle = false /\ rejects = 0 /\ is_Some err)) /\
  (forall e, validateDriverResult hasHandle hasLive rejects err = Some e ->
     errors_Is txtDriverResult e = true /\
     forall t, errIs t err = true -> errors_Is t e = true).
Proof.
  intros Hl. unfold validateDriverResult. split.
  - destruct hasHandle, hasLive, rejects as [|n], err as [e|]; cbn;
      try (specialize (Hl eq_refl); done); split; intros; destruct_or?;
      destruct_and?; try done; try lia; try (by destruct_or?; destruct_and?);
      try (by left); try (by right; left; split_and!; try lia);
      try (by right; right).
    all: match goal with H : is_Some None |- _ => by destruct H end.
  - intros e He.
    assert (errors_Join [Some ErrDriverResult; err] = Some e) as Hj
      by (repeat case_match; congruence).
    assert (forall t, errIs t (Some e) = errIs t (errors_Join [Some ErrDriverResult; err]))
      as Hi by (intros t; by rewrite Hj).
    split; [|intros t Ht]; change (errIs ?t (Some e)) with (errIs t (Some e)) in *.
    + specialize (Hi txtDriverResult). rewrite errors_Join_Is in Hi. by cbn in Hi.
    + specialize (Hi t). rewrite errors_Join_Is in Hi. cbn in Hi.
      rewrite Ht, orb_true_r in Hi. exact Hi.
Qed.

Lemma validateDriverResult_exactly_one_witness :
  (validateDriverResult true true 0 None = None <->
     (true = true /\ true = true /\ 0 = 0 /\ @None error = None) \/
     (true = false /\ 0 < 0 /\ @None error = None) \/
     (true = false /\ 0 = 0 /\ is_Some (@None error))) /\
  validateDriverResult true true 2 None = Some (EJoin [ErrDriverResult]).
Proof.
  split; [|reflexivity].
  apply (validateDriverResult_exactly_one true true 0 None). done.
Defined.
