(* ===== verification/ChainModel.v ===== *)
(** * Chains: the program

    [Chain] of asyncengine/scenario.go and scenario_admin.go: the plan and its
    validation, the steps, and [chainTask.execute] with its deferred function.
    The driver, the hooks and the native engine are parameters; a hook is any
    function of the outside state that may return or panic, and may read the
    operation result it is given. Contexts are left out: [execute] hands every
    hook the uncancellable copy of the caller's context. *)
From Stdlib Require Import ZArith Lia.
From stdpp Require Import base list gmap strings.
From S2P Require Import Prelude GoRuntime Routing Handles EngineBase.

Inductive Decision := decisionInvalid | DecisionCommit | DecisionRollback | DecisionOther (n : nat).
#[global] Instance Decision_eq_dec : EqDecision Decision.
Proof. solve_decision. Defined.

Inductive ChainOutcomeStatus :=
| ChainOutcomeUnknown | ChainOutcomeCompleted | ChainOutcomeRejected | ChainOutcomeFailed.
#[global] Instance status_eq_dec : EqDecision ChainOutcomeStatus.
Proof. solve_decision. Defined.

Record ChainOutcome := { Err : option error; Status : ChainOutcomeStatus; RetryUnsafe : bool }.

Inductive chainSourceKind := chainSourceAccount | chainSourceOrder | chainSourceAccountGroup.

(** The engine calls a chain makes, by driver method. *)
Inductive driverCall :=
| DExecutePreTrade | DExecutePreTradeDryRun | DApplyDropCopy
| DApplyExecutionReport | DApplyAccountAdjustment
| DBlock | DUnblock | DBlockGroup | DUnblockGroup | DSetCurrency | DClearCurrency
| DSetSpotFundsAccountPnl.

(** Every driver method of a chain can change engine state but the dry run. *)
Definition state_changing (d : driverCall) : bool :=
  match d with DExecutePreTradeDryRun => false | _ => true end.

(** The hooks, by the field that holds them. *)
Inductive hookName :=
| HBegin | HThen | HOnRejected | HOnReserved | HOnApplied | HOnChecked
| HReport | HOnSettled | HAdjustments | HOnAdjusted | HReason | HOnBlocked
| HOnUnblocked | HCurrency | HOnSet | HOnCleared | HAssignment | HFinally.

(** What a run does, in order: the steps it enters, the driver and hook calls,
    the invalidation of a result object, and the resolution of the future. *)
Inductive chainEvent :=
| EvStep (i : nat)
| EvDriver (d : driverCall)
| EvHook (h : hookName)
| EvInvalidate (r : nat)
| EvFinally (o : ChainOutcome)
| EvResolve (o : ChainOutcome) (e : option error).

Inductive pendingFinalizer := reservationFinalizer (l : nat) | dropCopyFinalizer (l : nat).

(** A result object of scenario.go: the lifetime object behind it and whether it
    may still be read; the dry-run result also keeps its verdict. *)
Record resultObj := { res_obj : nat; available : bool }.

Section Chain.
Context {State U Reject Lock Adj Block PostTrade Adjustment Batch PnlState Config : Type}.
Context (native : nativeCall -> U -> outcome unit * U).

(** The reads of the native engine behind an operation result. *)
Context (n_lock : handleKind -> nat -> U -> Lock).
Context (n_adj : handleKind -> nat -> U -> list Adj).
Context (n_block : handleKind -> nat -> U -> list Block).
Context (n_blocked : nat -> U -> bool).
Context (n_pass : nat -> U -> bool).
Context (n_rejects : nat -> U -> list Reject).

(** A call into caller or driver code. *)
Definition ext_call (A : Type) : Type := U -> outcome A * U.

(** What a driver method that hands out a lifetime object returns. *)
Definition handed : Type := option handleObj * list Reject * option error.

Record Driver := {
  d_ExecutePreTrade : Order -> ext_call handed;
  d_ExecutePreTradeDryRun : Order -> ext_call (option handleObj * option error);
  d_ApplyDropCopy : Order -> ext_call handed;
  d_ApplyExecutionReport : ExecutionReport -> ext_call (PostTrade * option error);
  d_ApplyAccountAdjustment : AccountID -> list Adjustment -> ext_call (Batch * option error);
  d_Block : AccountID -> string -> ext_call unit;
  d_Unblock : AccountID -> ext_call unit;
  d_BlockGroup : AccountGroupID -> string -> ext_call (option error);
  d_UnblockGroup : AccountGroupID -> ext_call (option error);
  d_SetCurrency : AccountID -> string -> ext_call (option error);
  d_ClearCurrency : AccountID -> ext_call unit;
  d_SetSpotFundsAccountPnl : string -> AccountID -> PnlState -> ext_call (Config * option error);
}.

(** The state of one run: the process, the fields of [chainTask], the result
    objects it made, the variables of [execute] its deferred function reads, and
    what happened. *)
Record st := mkSt {
  w : world U;
  retryUnsafe : bool;
  pending : option pendingFinalizer;
  results : gmap nat resultObj;
  runErr : option error;
  ready : option State;
  status : ChainOutcomeStatus;
  trace : list chainEvent;
}.

Abbreviation C := (M st).

Definition with_w (v : world U) (s : st) : st :=
  mkSt v (retryUnsafe s) (pending s) (results s) (runErr s) (ready s) (status s) (trace s).
Definition emit (e : chainEvent) : C unit :=
  modify (fun s => mkSt (w s) (retryUnsafe s) (pending s) (results s) (runErr s)
    (ready s) (status s) (trace s ++ [e])).
Definition setRetryUnsafe : C unit :=
  modify (fun s => mkSt (w s) true (pending s) (results s) (runErr s) (ready s)
    (status s) (trace s)).
Definition setPending (p : option pendingFinalizer) : C unit :=
  modify (fun s => mkSt (w s) (retryUnsafe s) p (results s) (runErr s) (ready s)
    (status s) (trace s)).
Definition setResults (r : gmap nat resultObj) : C unit :=
  modify (fun s => mkSt (w s) (retryUnsafe s) (pending s) r (runErr s) (ready s)
    (status s) (trace s)).
Definition setRunErr (e : option error) : C unit :=
  modify (fun s => mkSt (w s) (retryUnsafe s) (pending s) (results s) e (ready s)
    (status s) (trace s)).
Definition setReady (x : State) : C unit :=
  modify (fun s => mkSt (w s) (retryUnsafe s) (pending s) (results s) (runErr s)
    (Some x) (status s) (trace s)).
Definition setStatus (x : ChainOutcomeStatus) : C unit :=
  modify (fun s => mkSt (w s) (retryUnsafe s) (pending s) (results s) (runErr s)
    (ready s) x (trace s)).

(** A method of a lifetime object, and a call into outside code. *)
Definition onWorld {A} (m : M (world U) A) : C A := fun s =>
  let '(o, w') := m (w s) in (o, with_w w' s).
Definition outside {A} (f : ext_call A) : C A :=
  onWorld (fun w => let '(o, u) := f (ext w) in (o, mkWorld (heap w) (calls w) u)).

Definition callDriver {A} (d : driverCall) (f : ext_call A) : C A :=
  emit (EvDriver d) ;;; outside f.

(** A call of a function value; a nil one panics. *)
Definition callHook {A} (h : hookName) (f : option (ext_call A)) : C A :=
  match f with
  | None => panic (PanicOther 0)
  | Some f => emit (EvHook h) ;;; outside f
  end.

(** The driver's object becomes an object of the heap, once and for all. *)
Definition adopt (o : option handleObj) : C (option nat) :=
  match o with
  | None => ret None
  | Some o =>
    onWorld (fun w => let l := fresh (dom (heap w)) in
      (Ret (Some l), mkWorld (<[l := o]> (heap w)) (calls w) (ext w)))
  end.

(** ** Operation results *)

Definition newResult (l : nat) : C nat := fun s =>
  let r := fresh (dom (results s)) in
  (Ret r, mkSt (w s) (retryUnsafe s) (pending s)
    (<[r := {| res_obj := l; available := true |}]> (results s)) (runErr s)
    (ready s) (status s) (trace s)).

Definition invalidate (r : nat) : C unit :=
  (let* rs := gets results in
   match rs !! r with
   | Some o => setResults (<[r := {| res_obj := res_obj o; available := false |}]> rs)
   | None => panic (PanicOther 0)
   end) ;;; emit (EvInvalidate r).

(** A read through result [r], at outside state [u]: refused once invalidated,
    otherwise the read of the lifetime object. *)
Definition readResult {A} (closedErr : error) (read : nat -> U -> A) (r : nat)
    (s : st) (u : U) : A + error :=
  match results s !! r with
  | Some {| res_obj := l; available := true |} =>
    match readView closedErr read l (mkWorld (heap (w s)) (calls (w s)) u) with
    | (Ret a, _) => a
    | (Panic _, _) => inr ErrChainResultUnavailable
    end
  | _ => inr ErrChainResultUnavailable
  end.

(** The interfaces a hook sees: functions it may call at any moment of its run. *)
Record OperationResult := {
  or_Lock : U -> Lock + error;
  or_AccountAdjustments : U -> list Adj + error;
}.
Record DropCopyResult := {
  dr_base : OperationResult;
  dr_AccountBlock : U -> option Block + error;
  dr_IsAccountBlocked : U -> bool + error;
}.
Record OrderCheckResult := {
  oc_base : OperationResult;
  oc_AccountBlock : U -> option Block + error;
  oc_Passed : bool;
  oc_Rejects : list Reject;
}.

Definition reservationOperationResult (r : nat) (s : st) : OperationResult := {|
  or_Lock := readResult ErrReservationClosed (n_lock KReservation) r s;
  or_AccountAdjustments := readResult ErrReservationClosed (n_adj KReservation) r s;
|}.
Definition dropCopyOperationResult (r : nat) (s : st) : DropCopyResult := {|
  dr_base := {|
    or_Lock := readResult ErrDropCopyOperationClosed (n_lock KDropCopy) r s;
    or_AccountAdjustments := readResult ErrDropCopyOperationClosed (n_adj KDropCopy) r s |};
  dr_AccountBlock := readResult ErrDropCopyOperationClosed
    (fun h u => head (n_block KDropCopy h u)) r s;
  dr_IsAccountBlocked := readResult ErrDropCopyOperationClosed n_blocked r s;
|}.
Definition dryRunOperationResult (passed : bool) (rejects : list Reject)
    (r : nat) (s : st) : OrderCheckResult := {|
  oc_base := {|
    or_Lock := readResult ErrDryRunReportClosed (n_lock KDryRun) r s;
    or_AccountAdjustments := readResult ErrDryRunReportClosed (n_adj KDryRun) r s |};
  oc_AccountBlock := readResult ErrDryRunReportClosed
    (fun h u => head (n_block KDryRun h u)) r s;
  oc_Passed := passed;
  oc_Rejects := rejects;
|}.

(** ** Finalizers *)

Definition CommitAndClose (p : pendingFinalizer) : C unit :=
  onWorld (match p with
           | reservationFinalizer l => Reservation.CommitAndClose native l
           | dropCopyFinalizer l => DropCopyOperation.CommitAndClose native l
           end).
Definition RollbackAndClose (p : pendingFinalizer) : C unit :=
  onWorld (match p with
           | reservationFinalizer l => Reservation.RollbackAndClose native l
           | dropCopyFinalizer l => DropCopyOperation.RollbackAndClose native l
           end).

Definition finalizeDecision (d : Decision) (p : option pendingFinalizer)
  : C (option error) :=
  match p with
  | None => ret (Some ErrDriverResult)
  | Some p =>
    match d with
    | DecisionCommit => CommitAndClose p ;;; ret None
    | DecisionRollback => RollbackAndClose p ;;; ret None
    | _ => RollbackAndClose p ;;; ret (Some ErrChainInvalidDecision)
    end
  end.

Definition chainPanicError (message : string) (recovered : panicValue) : error :=
  match recovered with
  | PanicError e => EWrap message e
  | PanicOther v => EText message v
  | PanicNil => EWrap message PanicNilError
  end.

Definition rollbackPendingFinalizer (p : pendingFinalizer) : C (option error) :=
  let* o := recovering (RollbackAndClose p) in
  match o with
  | Panic v => ret (Some (chainPanicError "async chain native cleanup panicked" v))
  | Ret _ => ret None
  end.

(** ** The plan *)

Definition hook (A : Type) : Type := State -> ext_call A.

(** The part of [chainTask] a step reads: the plan's source and the engine's
    driver. *)
Record taskView := {
  t_order : option Order;
  t_accountID : AccountID;
  t_groupID : option AccountGroupID;
  t_driver : Driver;
}.

Record chainStep := {
  validateStep : chainSourceKind -> option error;
  executeStep : taskView -> State -> C (bool * option error);
}.

Record chainPlan := {
  steps : list chainStep;
  begin_ : option (ext_call (State * option error));
  finally : option (State -> ChainOutcome -> ext_call (option error));
  order : option Order;
  accountID : AccountID;
  groupID : option AccountGroupID;
}.

(** [validate]: the lane and account of the plan, or the first thing wrong. *)
Fixpoint validateSteps (k : chainSourceKind) (l : list chainStep) : option error :=
  match l with
  | [] => None
  | s :: l => match validateStep s k with Some e => Some e | None => validateSteps k l end
  end.

Definition validate (p : chainPlan) : (routingKey * AccountID) + error :=
  match begin_ p with
  | None => inr (EWrap "Chain.Begin" ErrChainIncomplete)
  | Some _ =>
    let source :=
      match order p with
      | Some o =>
        match extractOrderAccountID o with
        | inr e => inr e
        | inl a => inl (chainSourceOrder, accountRoutingKey a, a)
        end
      | None =>
        match groupID p with
        | Some g =>
          match validateAccountGroupID g with
          | Some e => inr e
          | None => inl (chainSourceAccountGroup, groupRoutingKey g, accountID p)
          end
        | None => inl (chainSourceAccount, accountRoutingKey (accountID p), accountID p)
        end
      end in
    match source with
    | inr e => inr e
    | inl (kind, key, a) =>
      match validateSteps kind (steps p) with
      | Some e => inr e
      | None => inl (key, a)
      end
    end
  end.

Definition withAccount (a : AccountID) (p : chainPlan) : chainPlan :=
  {| steps := steps p; begin_ := begin_ p; finally := finally p;
     order := order p; accountID := a; groupID := groupID p |}.

Definition incomplete (what : string) : option error := Some (EWrap what ErrChainIncomplete).
Definition requireAccountSource (k : chainSourceKind) : option error :=
  match k with chainSourceAccountGroup => Some ErrChainAccountRequired | _ => None end.
Definition requireAccountGroupSource (k : chainSourceKind) : option error :=
  match k with chainSourceAccountGroup => None | _ => Some ErrChainAccountGroupRequired end.
Definition incompleteAdministrativeHook (name : string) : option error :=
  Some (EWrap ("Chain." +:+ name) ErrChainIncomplete).

(** The dereference of a pointer. *)
Definition deref {A} (p : option A) : C A :=
  match p with Some a => ret a | None => panic (PanicOther 0) end.

Definition wrapErr {A} (text : string) (e : error) : C (A + error) := ret (inr (EWrap text e)).

(** ** Then *)

Definition validateThen (fn : option (hook (option error))) (_ : chainSourceKind)
  : option error :=
  match fn with None => incomplete "Chain.Then" | Some _ => None end.
Definition executeThen (fn : option (hook (option error))) (_ : taskView) (state : State)
  : C (bool * option error) :=
  let* err := callHook HThen ((fun f => f state) <$> fn) in
  match err with
  | Some e => ret (false, Some (EWrap "async chain caller hook" e))
  | None => ret (false, None)
  end.
Definition Then (fn : option (hook (option error))) : chainStep :=
  {| validateStep := validateThen fn; executeStep := executeThen fn |}.

(** ** ExecutePreTrade and ApplyDropCopy *)

Record PreTradeHooks := {
  pt_OnRejected : option (State -> list Reject -> ext_call (option error));
  pt_OnReserved : option (State -> OperationResult -> ext_call (Decision * option error));
}.
Record DropCopyHooks := {
  dc_OnRejected : option (State -> list Reject -> ext_call (option error));
  dc_OnApplied : option (State -> DropCopyResult -> ext_call (Decision * option error));
}.

Definition validatePreTrade (hooks : PreTradeHooks) (k : chainSourceKind) : option error :=
  match k with
  | chainSourceOrder =>
    match pt_OnRejected hooks, pt_OnReserved hooks with
    | None, _ => incomplete "Chain.ExecutePreTrade.OnRejected"
    | _, None => incomplete "Chain.ExecutePreTrade.OnReserved"
    | _, _ => None
    end
  | _ => Some ErrChainOrderRequired
  end.
Definition validateDropCopy (hooks : DropCopyHooks) (k : chainSourceKind) : option error :=
  match k with
  | chainSourceOrder =>
    match dc_OnRejected hooks, dc_OnApplied hooks with
    | None, _ => incomplete "Chain.ApplyDropCopy.OnRejected"
    | _, None => incomplete "Chain.ApplyDropCopy.OnApplied"
    | _, _ => None
    end
  | _ => Some ErrChainOrderRequired
  end.

(** Whether an adopted object is open: [h != nil && !h.IsClosed()]. *)
Definition isLive (l : option nat) : C bool :=
  match l with
  | None => ret false
  | Some l => let* c := onWorld (isClosed l) in ret (negb c)
  end.

(** The accepted part of both steps: the hook decides, under a result that is
    invalidated on every way out, and the decision is carried out. *)
Definition resolveAccepted (l : nat) (hookErr : string)
    (callAccepted : nat -> C (Decision * option error)) : C (bool * option error) :=
  let* r := newResult l in
  deferred (invalidate r)
    (let* (decision, err) := callAccepted r in
     invalidate r ;;;
     match err with
     | Some e => ret (false, Some (EWrap hookErr e))
     | None =>
       let* p := gets pending in
       let* err := finalizeDecision decision p in
       setPending None ;;;
       match err with
       | Some e => ret (false, Some e)
       | None => ret (bool_decide (decision = DecisionRollback), None)
       end
     end).

Definition executePreTrade (hooks : PreTradeHooks) (t : taskView) (state : State)
  : C (bool * option error) :=
  setRetryUnsafe ;;;
  let* o := deref (t_order t) in
  let* (robj, rejects, err) := callDriver DExecutePreTrade (d_ExecutePreTrade (t_driver t) o) in
  let* reservation := adopt robj in
  match reservation with
  | Some l => setPending (Some (reservationFinalizer l))
  | None => ret tt
  end ;;;
  let* live := isLive reservation in
  match validateDriverResult (bool_decide (is_Some reservation)) live (length rejects) err with
  | Some shapeErr => ret (false, Some (EWrap "async chain execute pre-trade" shapeErr))
  | None =>
    match err with
    | Some e => ret (false, Some (EWrap "async chain execute pre-trade" e))
    | None =>
      if 0 <? length rejects then
        let* err := callHook HOnRejected ((fun f => f state rejects) <$> pt_OnRejected hooks) in
        match err with
        | Some e => ret (false, Some (EWrap "async chain reject hook" e))
        | None => ret (true, None)
        end
      else
        match reservation with
        | None => ret (false, Some ErrDriverResult)
        | Some l =>
          resolveAccepted l "async chain reserved hook" (fun r =>
            let* view := gets (reservationOperationResult r) in
            callHook HOnReserved ((fun f => f state view) <$> pt_OnReserved hooks))
        end
    end
  end.

Definition applyDropCopy (hooks : DropCopyHooks) (t : taskView) (state : State)
  : C (bool * option error) :=
  setRetryUnsafe ;;;
  let* o := deref (t_order t) in
  let* (robj, rejects, err) := callDriver DApplyDropCopy (d_ApplyDropCopy (t_driver t) o) in
  let* operation := adopt robj in
  match operation with
  | Some l => setPending (Some (dropCopyFinalizer l))
  | None => ret tt
  end ;;;
  let* live := isLive operation in
  match validateDriverResult (bool_decide (is_Some operation)) live (length rejects) err with
  | Some shapeErr => ret (false, Some (EWrap "async chain apply drop copy" shapeErr))
  | None =>
    match err with
    | Some e => ret (false, Some (EWrap "async chain apply drop copy" e))
    | None =>
      if 0 <? length rejects then
        let* err := callHook HOnRejected ((fun f => f state rejects) <$> dc_OnRejected hooks) in
        match err with
        | Some e => ret (false, Some (EWrap "async chain reject hook" e))
        | None => ret (true, None)
        end
      else
        match operation with
        | None => ret (false, Some ErrDriverResult)
        | Some l =>
          resolveAccepted l "async chain applied hook" (fun r =>
            let* view := gets (dropCopyOperationResult r) in
            callHook HOnApplied ((fun f => f state view) <$> dc_OnApplied hooks))
        end
    end
  end.

Definition ExecutePreTrade (hooks : PreTradeHooks) : chainStep :=
  {| validateStep := validatePreTrade hooks; executeStep := executePreTrade hooks |}.
Definition ApplyDropCopy (hooks : DropCopyHooks) : chainStep :=
  {| validateStep := validateDropCopy hooks; executeStep := applyDropCopy hooks |}.

(** ** CheckOrder *)

Definition checkHook : Type := option (State -> OrderCheckResult -> ext_call (option error)).

Definition validateCheckOrder (onChecked : checkHook) (k : chainSourceKind) : option error :=
  match k with
  | chainSourceOrder =>
    match onChecked with None => incomplete "Chain.CheckOrder" | Some _ => None end
  | _ => Some ErrChainOrderRequired
  end.

(** The verdict as the hook is told it: passed, and the rejects otherwise. *)
Definition readVerdict (l : nat) : C (bool * list Reject + error) :=
  let* v := onWorld (DryRunReport.IsPass n_pass l) in
  match v with
  | inr e => wrapErr "async chain check order verdict" e
  | inl true => ret (inl (true, []))
  | inl false =>
    let* r := onWorld (DryRunReport.Rejects n_rejects l) in
    match r with
    | inr e => wrapErr "async chain check order rejects" e
    | inl None => ret (inr ErrDriverResult)
    | inl (Some rejects) => ret (inl (false, rejects))
    end
  end.

Definition checkReport (onChecked : checkHook) (report : option nat)
    (err : option error) (state : State) : C (option error) :=
  let* live := isLive report in
  match validateDriverResult (bool_decide (is_Some report)) live 0 err with
  | Some shapeErr => ret (Some (EWrap "async chain check order" shapeErr))
  | None =>
    match err with
    | Some e => ret (Some (EWrap "async chain check order" e))
    | None =>
      let* l := deref report in
      let* v := readVerdict l in
      match v with
      | inr e => ret (Some e)
      | inl (passed, rejects) =>
        let* r := newResult l in
        deferred (invalidate r)
          (let* view := gets (dryRunOperationResult passed rejects r) in
           let* err := callHook HOnChecked ((fun f => f state view) <$> onChecked) in
           invalidate r ;;;
           ret (EWrap "async chain checked hook" <$> err))
      end
    end
  end.

Definition checkOrder (onChecked : checkHook) (t : taskView) (state : State)
  : C (option error) :=
  let* o := deref (t_order t) in
  let* (robj, err) := callDriver DExecutePreTradeDryRun
    (d_ExecutePreTradeDryRun (t_driver t) o) in
  let* report := adopt robj in
  match report with
  | Some l => deferred (onWorld (DryRunReport.Close native l))
                (checkReport onChecked report err state)
  | None => checkReport onChecked report err state
  end.

Definition notEnded (m : C (option error)) : C (bool * option error) :=
  let* e := m in ret (false, e).

Definition CheckOrder (onChecked : checkHook) : chainStep :=
  {| validateStep := validateCheckOrder onChecked;
     executeStep := fun t state => notEnded (checkOrder onChecked t state) |}.

(** ** ApplyExecutionReport and ApplyAccountAdjustment *)

Record ExecutionReportHooks := {
  er_Report : option (hook (ExecutionReport * option error));
  er_OnSettled : option (State -> PostTrade -> ext_call (option error));
}.
Record AccountAdjustmentHooks := {
  aa_Adjustments : option (hook (list Adjustment * option error));
  aa_OnAdjusted : option (State -> Batch -> ext_call (option error));
}.

Definition validateExecutionReport (hooks : ExecutionReportHooks) (k : chainSourceKind)
  : option error :=
  match requireAccountSource k, er_Report hooks, er_OnSettled hooks with
  | Some e, _, _ => Some e
  | None, None, _ => incomplete "Chain.ApplyExecutionReport.Report"
  | None, _, None => incomplete "Chain.ApplyExecutionReport.OnSettled"
  | _, _, _ => None
  end.
Definition validateAccountAdjustment (hooks : AccountAdjustmentHooks) (k : chainSourceKind)
  : option error :=
  match requireAccountSource k, aa_Adjustments hooks, aa_OnAdjusted hooks with
  | Some e, _, _ => Some e
  | None, None, _ => incomplete "Chain.ApplyAccountAdjustment.Adjustments"
  | None, _, None => incomplete "Chain.ApplyAccountAdjustment.OnAdjusted"
  | _, _, _ => None
  end.

Definition applyExecutionReport (hooks : ExecutionReportHooks) (t : taskView) (state : State)
  : C (option error) :=
  let* (report, err) := callHook HReport ((fun f => f state) <$> er_Report hooks) in
  match err with
  | Some e => ret (Some (EWrap "async chain execution report input" e))
  | None =>
    match extractReportAccountID report with
    | inr e => ret (Some e)
    | inl reportAccountID =>
      if negb (bool_decide (reportAccountID = t_accountID t))
      then ret (Some ErrChainAccountMismatch)
      else
        setRetryUnsafe ;;;
        let* (result, err) := callDriver DApplyExecutionReport
          (d_ApplyExecutionReport (t_driver t) report) in
        match err with
        | Some e => ret (Some (EWrap "async chain apply execution report" e))
        | None =>
          let* err := callHook HOnSettled ((fun f => f state result) <$> er_OnSettled hooks) in
          ret (EWrap "async chain settled hook" <$> err)
        end
    end
  end.

Definition applyAccountAdjustment (hooks : AccountAdjustmentHooks) (t : taskView)
    (state : State) : C (option error) :=
  let* (adjustments, err) :=
    callHook HAdjustments ((fun f => f state) <$> aa_Adjustments hooks) in
  match err with
  | Some e => ret (Some (EWrap "async chain account adjustment input" e))
  | None =>
    setRetryUnsafe ;;;
    let* (result, err) := callDriver DApplyAccountAdjustment
      (d_ApplyAccountAdjustment (t_driver t) (t_accountID t) adjustments) in
    match err with
    | Some e => ret (Some (EWrap "async chain apply account adjustment" e))
    | None =>
      let* err := callHook HOnAdjusted ((fun f => f state result) <$> aa_OnAdjusted hooks) in
      ret (EWrap "async chain adjusted hook" <$> err)
    end
  end.

Definition ApplyExecutionReport (hooks : ExecutionReportHooks) : chainStep :=
  {| validateStep := validateExecutionReport hooks;
     executeStep := fun t state => notEnded (applyExecutionReport hooks t state) |}.
Definition ApplyAccountAdjustment (hooks : AccountAdjustmentHooks) : chainStep :=
  {| validateStep := validateAccountAdjustment hooks;
     executeStep := fun t state => notEnded (applyAccountAdjustment hooks t state) |}.

(** ** Administrative steps (scenario_admin.go) *)

Record BlockHooks := {
  bl_Reason : option (hook (string * option error));
  bl_OnBlocked : option (hook (option error));
}.
Definition UnblockHooks : Type := option (hook (option error)).
Record CurrencyHooks := {
  cu_Currency : option (hook (string * option error));
  cu_OnSet : option (hook (option error));
}.
Definition ClearCurrencyHooks : Type := option (hook (option error)).
Record PnlAssignment := { PolicyName : string; PnlStateOf : PnlState }.
Record SpotFundsAccountPnlHooks := {
  sp_Assignment : option (hook (PnlAssignment * option error));
  sp_OnSet : option (State -> Config -> ext_call (option error));
}.

(** Two hooks required by a step on an allowed source. *)
Definition requireHooks {A B} (source : option error) (a : option A) (b : option B)
    (nameA nameB : string) : option error :=
  match source, a, b with
  | Some e, _, _ => Some e
  | None, None, _ => incompleteAdministrativeHook nameA
  | None, _, None => incompleteAdministrativeHook nameB
  | _, _, _ => None
  end.

Definition blockAccount (hooks : BlockHooks) (t : taskView) (state : State)
  : C (option error) :=
  let* (reason, err) := callHook HReason ((fun f => f state) <$> bl_Reason hooks) in
  match err with
  | Some e => ret (Some (EWrap "async chain account block input" e))
  | None =>
    setRetryUnsafe ;;;
    callDriver DBlock (d_Block (t_driver t) (t_accountID t) reason) ;;;
    let* err := callHook HOnBlocked ((fun f => f state) <$> bl_OnBlocked hooks) in
    ret (EWrap "async chain account blocked hook" <$> err)
  end.

Definition unblockAccount (onUnblocked : UnblockHooks) (t : taskView) (state : State)
  : C (option error) :=
  setRetryUnsafe ;;;
  callDriver DUnblock (d_Unblock (t_driver t) (t_accountID t)) ;;;
  let* err := callHook HOnUnblocked ((fun f => f state) <$> onUnblocked) in
  ret (EWrap "async chain account unblocked hook" <$> err).

Definition blockAccountGroup (hooks : BlockHooks) (t : taskView) (state : State)
  : C (option error) :=
  let* (reason, err) := callHook HReason ((fun f => f state) <$> bl_Reason hooks) in
  match err with
  | Some e => ret (Some (EWrap "async chain account-group block input" e))
  | None =>
    setRetryUnsafe ;;;
    let* g := deref (t_groupID t) in
    let* err := callDriver DBlockGroup (d_BlockGroup (t_driver t) g reason) in
    match err with
    | Some e => ret (Some (EWrap "async chain block account group" e))
    | None =>
      let* err := callHook HOnBlocked ((fun f => f state) <$> bl_OnBlocked hooks) in
      ret (EWrap "async chain account group blocked hook" <$> err)
    end
  end.

Definition unblockAccountGroup (onUnblocked : UnblockHooks) (t : taskView) (state : State)
  : C (option error) :=
  setRetryUnsafe ;;;
  let* g := deref (t_groupID t) in
  let* err := callDriver DUnblockGroup (d_UnblockGroup (t_driver t) g) in
  match err with
  | Some e => ret (Some (EWrap "async chain unblock account group" e))
  | None =>
    let* err := callHook HOnUnblocked ((fun f => f state) <$> onUnblocked) in
    ret (EWrap "async chain account group unblocked hook" <$> err)
  end.

Definition setAccountCurrency (hooks : CurrencyHooks) (t : taskView) (state : State)
  : C (option error) :=
  let* (currency, err) := callHook HCurrency ((fun f => f state) <$> cu_Currency hooks) in
  match err with
  | Some e => ret (Some (EWrap "async chain account currency input" e))
  | None =>
    setRetryUnsafe ;;;
    let* err := callDriver DSetCurrency
      (d_SetCurrency (t_driver t) (t_accountID t) currency) in
    match err with
    | Some e => ret (Some (EWrap "async chain set account currency" e))
    | None =>
      let* err := callHook HOnSet ((fun f => f state) <$> cu_OnSet hooks) in
      ret (EWrap "async chain account currency set hook" <$> err)
    end
  end.

Definition clearAccountCurrency (onCleared : ClearCurrencyHooks) (t : taskView)
    (state : State) : C (option error) :=
  setRetryUnsafe ;;;
  callDriver DClearCurrency (d_ClearCurrency (t_driver t) (t_accountID t)) ;;;
  let* err := callHook HOnCleared ((fun f => f state) <$> onCleared) in
  ret (EWrap "async chain account currency cleared hook" <$> err).

Definition setSpotFundsAccountPnl (hooks : SpotFundsAccountPnlHooks) (t : taskView)
    (state : State) : C (option error) :=
  let* (assignment, err) :=
    callHook HAssignment ((fun f => f state) <$> sp_Assignment hooks) in
  match err with
  | Some e => ret (Some (EWrap "async chain SpotFunds account P&L input" e))
  | None =>
    setRetryUnsafe ;;;
    let* (result, err) := callDriver DSetSpotFundsAccountPnl
      (d_SetSpotFundsAccountPnl (t_driver t) (PolicyName assignment) (t_accountID t)
         (PnlStateOf assignment)) in
    match err with
    | Some e => ret (Some (EWrap "async chain set SpotFunds account P&L" e))
    | None =>
      let* err := callHook HOnSet ((fun f => f state result) <$> sp_OnSet hooks) in
      ret (EWrap "async chain SpotFunds account P&L set hook" <$> err)
    end
  end.

Definition adminStep (v : chainSourceKind -> option error)
    (m : taskView -> State -> C (option error)) : chainStep :=
  {| validateStep := v; executeStep := fun t state => notEnded (m t state) |}.

Definition BlockAccount (hooks : BlockHooks) : chainStep :=
  adminStep (fun k => requireHooks (requireAccountSource k)
    (bl_Reason hooks) (bl_OnBlocked hooks)
    "BlockAccount.Reason" "BlockAccount.OnBlocked") (blockAccount hooks).
Definition UnblockAccount (hooks : UnblockHooks) : chainStep :=
  adminStep (fun k => requireHooks (requireAccountSource k) hooks hooks
    "UnblockAccount.OnUnblocked" "UnblockAccount.OnUnblocked") (unblockAccount hooks).
Definition BlockAccountGroup (hooks : BlockHooks) : chainStep :=
  adminStep (fun k => requireHooks (requireAccountGroupSource k)
    (bl_Reason hooks) (bl_OnBlocked hooks)
    "BlockAccountGroup.Reason" "BlockAccountGroup.OnBlocked") (blockAccountGroup hooks).
Definition UnblockAccountGroup (hooks : UnblockHooks) : chainStep :=
  adminStep (fun k => requireHooks (requireAccountGroupSource k) hooks hooks
    "UnblockAccountGroup.OnUnblocked" "UnblockAccountGroup.OnUnblocked")
    (unblockAccountGroup hooks).
Definition SetAccountCurrency (hooks : CurrencyHooks) : chainStep :=
  adminStep (fun k => requireHooks (requireAccountSource k)
    (cu_Currency hooks) (cu_OnSet hooks)
    "SetAccountCurrency.Currency" "SetAccountCurrency.OnSet") (setAccountCurrency hooks).
Definition ClearAccountCurrency (hooks : ClearCurrencyHooks) : chainStep :=
  adminStep (fun k => requireHooks (requireAccountSource k) hooks hooks
    "ClearAccountCurrency.OnCleared" "ClearAccountCurrency.OnCleared")
    (clearAccountCurrency hooks).
Definition SetSpotFundsAccountPnl (hooks : SpotFundsAccountPnlHooks) : chainStep :=
  adminStep (fun k => requireHooks (requireAccountSource k)
    (sp_Assignment hooks) (sp_OnSet hooks)
    "SetSpotFundsAccountPnl.Assignment" "SetSpotFundsAccountPnl.OnSet")
    (setSpotFundsAccountPnl hooks).

(** ** The run *)

Definition resolvedOutcome (status : ChainOutcomeStatus) (runErr : option error)
    (retryUnsafe : bool) : ChainOutcome :=
  {| Err := runErr;
     Status := match runErr with Some _ => ChainOutcomeFailed | None => status end;
     RetryUnsafe := retryUnsafe |}.

Fixpoint runSteps (i : nat) (t : taskView) (l : list chainStep) (state : State) : C unit :=
  match l with
  | [] => ret tt
  | s :: l =>
    emit (EvStep i) ;;;
    let* (ended, err) := executeStep s t state in
    match err with
    | Some e => setRunErr (Some e)
    | None => if ended then setStatus ChainOutcomeRejected else runSteps (S i) t l state
    end
  end.

(** The statements of [execute] after its [defer]. *)
Definition executeBody (p : chainPlan) (t : taskView) : C unit :=
  let* (state, err) := callHook HBegin (begin_ p) in
  match err with
  | Some e => setRunErr (Some (EWrap "async chain begin" e))
  | None => setReady state ;;; runSteps 0 t (steps p) state
  end.

Definition callFinally (fn : ext_call (option error)) (outcome : ChainOutcome)
  : C (option error) :=
  let* o := recovering (emit (EvFinally outcome) ;;; callHook HFinally (Some fn)) in
  match o with
  | Panic v => ret (Some (chainPanicError "async chain final hook panicked" v))
  | Ret err => ret (EWrap "async chain final hook" <$> err)
  end.

(** The deferred function of [execute]: recover, roll back what is pending, mark,
    run the final hook, resolve. *)
Definition recoverRun (recovered : outcome unit) : C unit :=
  match recovered with
  | Panic v => setRunErr (Some (chainPanicError "async chain execution panicked" v))
  | Ret _ => ret tt
  end.
Definition settlePending : C unit :=
  let* p := gets pending in
  match p with
  | Some p =>
    let* e := rollbackPendingFinalizer p in
    let* err := gets runErr in
    setRunErr (errors_Join [err; e])
  | None => ret tt
  end.
Definition markRetryUnsafe : C unit :=
  let* s := gets (fun s => s) in
  match runErr s with
  | Some e => if retryUnsafe s
              then setRunErr (errors_Join [Some e; Some ErrChainRetryUnsafe])
              else ret tt
  | None => ret tt
  end.
Definition runFinally (p : chainPlan) : C unit :=
  let* s := gets (fun s => s) in
  match ready s, finally p with
  | Some state, Some fn =>
    let outcome := resolvedOutcome (status s) (runErr s) (retryUnsafe s) in
    let* finallyErr := callFinally (fn state outcome) outcome in
    let finallyErr :=
      match runErr s, finallyErr with
      | None, Some e =>
        if retryUnsafe s then errors_Join [Some e; Some ErrChainRetryUnsafe] else Some e
      | _, e => e
      end in
    setRunErr (errors_Join [runErr s; finallyErr])
  | _, _ => ret tt
  end.
Definition resolve : C unit :=
  let* s := gets (fun s => s) in
  emit (EvResolve (resolvedOutcome (status s) (runErr s) (retryUnsafe s)) (runErr s)).

Definition execute (p : chainPlan) (t : taskView) : C unit :=
  let* o := recovering (executeBody p t) in
  recoverRun o ;;; settlePending ;;; markRetryUnsafe ;;; runFinally p ;;; resolve.

(** [chainTask.abort]. *)
Definition abortTask (e : error) : C unit :=
  emit (EvResolve {| Err := Some e; Status := ChainOutcomeFailed; RetryUnsafe := false |}
          (Some e)).

(** A task as [newChainTaskFromPlan] makes it, in a process [v]. *)
Definition newTask (v : world U) : st :=
  mkSt v false None ∅ None None ChainOutcomeCompleted [].

(** ** Building and starting a chain *)

Record ChainBuilder := {
  c_steps : list chainStep;
  c_begin : option (ext_call (State * option error));
  c_order : option Order;
  c_accountID : AccountID;
  c_groupID : option AccountGroupID;
  finallyRunnerReturned : bool;
}.

Inductive chainSource :=
| SourceOrder (o : Order) | SourceAccount (a : AccountID) | SourceGroup (g : AccountGroupID).

Definition Chain (source : chainSource) (begin_ : option (ext_call (State * option error)))
  : ChainBuilder :=
  let zero := {| acc_native := 0 |} in
  match source with
  | SourceOrder o =>
    {| c_steps := []; c_begin := begin_; c_order := Some o; c_accountID := zero;
       c_groupID := None; finallyRunnerReturned := false |}
  | SourceAccount a =>
    {| c_steps := []; c_begin := begin_; c_order := None; c_accountID := a;
       c_groupID := None; finallyRunnerReturned := false |}
  | SourceGroup g =>
    {| c_steps := []; c_begin := begin_; c_order := None; c_accountID := zero;
       c_groupID := Some g; finallyRunnerReturned := false |}
  end.

(** Every step method appends to the builder it is called on. *)
Definition addStep (s : chainStep) (c : ChainBuilder) : ChainBuilder :=
  {| c_steps := c_steps c ++ [s]; c_begin := c_begin c; c_order := c_order c;
     c_accountID := c_accountID c; c_groupID := c_groupID c;
     finallyRunnerReturned := finallyRunnerReturned c |}.

Definition finallyHook : Type := option (State -> ChainOutcome -> ext_call (option error)).

Definition snapshot (fn : finallyHook) (c : ChainBuilder) : chainPlan :=
  {| steps := c_steps c; begin_ := c_begin c; finally := fn; order := c_order c;
     accountID := c_accountID c; groupID := c_groupID c |}.

(** [Finally]: the runner's plan, and the builder it marks. *)
Definition Finally (fn : finallyHook) (c : ChainBuilder) : chainPlan * ChainBuilder :=
  (snapshot fn c,
   {| c_steps := c_steps c; c_begin := c_begin c; c_order := c_order c;
      c_accountID := c_accountID c; c_groupID := c_groupID c;
      finallyRunnerReturned := true |}).

Definition newChainTaskFromPlan (p : chainPlan) (finallyRequired : bool)
  : (chainPlan * routingKey) + error :=
  if finallyRequired && match finally p with None => true | Some _ => false end
  then inr (EWrap "Chain.Finally" ErrChainIncomplete)
  else match validate p with
       | inr e => inr e
       | inl (key, a) => inl (withAccount a p, key)
       end.

(** [ChainBuilder.newChainTask] and [ChainRunner.newChainTask]; [None] is a nil
    receiver. *)
Definition builderTask (c : option ChainBuilder) : (chainPlan * routingKey) + error :=
  match c with
  | None => inr (EWrap "Chain" ErrChainIncomplete)
  | Some c =>
    if finallyRunnerReturned c
    then inr (EWrap "discarded Chain.Finally result" ErrChainIncomplete)
    else newChainTaskFromPlan (snapshot None c) false
  end.
Definition runnerTask (r : option chainPlan) : (chainPlan * routingKey) + error :=
  match r with
  | None => inr (EWrap "Chain" ErrChainIncomplete)
  | Some p => newChainTaskFromPlan p true
  end.

(** What [runChain] does: resolve at once with a failure, or submit the task. *)
Inductive started :=
| StartedFailed (o : ChainOutcome) (e : error)
| StartedTask (p : chainPlan) (key : routingKey).

(** [submitErr] is what the strategy answers to the submit. *)
Definition runChain (hasEngine : bool) (task : (chainPlan * routingKey) + error)
    (submitErr : option error) : started :=
  let failed e := StartedFailed {| Err := Some e; Status := ChainOutcomeFailed;
                                   RetryUnsafe := false |} e in
  if negb hasEngine then failed ErrChainEngineMissing
  else match task with
       | inr e => failed e
       | inl (p, key) =>
         match submitErr with Some e => failed e | None => StartedTask p key end
       end.
Definition ChainBuilder_Run (hasEngine : bool) (c : option ChainBuilder) (submitErr : option error) : started :=
  runChain hasEngine (builderTask c) submitErr.
(** A [ChainRunner] is its plan. *)
Definition ChainRunner_Run (hasEngine : bool) (r : option chainPlan) (submitErr : option error) : started :=
  runChain hasEngine (runnerTask r) submitErr.
(** A chain with a terminal hook runs through the runner only. *)
Lemma discarded_finally_never_runs fn c submitErr :
  exists e, ChainBuilder_Run true (Some (snd (Finally fn c))) submitErr =
    StartedFailed {| Err := Some e; Status := ChainOutcomeFailed; RetryUnsafe := false |} e /\
    e = EWrap "discarded Chain.Finally result" ErrChainIncomplete.
Proof. eexists. by split. Qed.
End Chain.
