(* ===== verification/ChainRun.v ===== *)
(** * Chains: what a run guarantees

    Facts about [execute] for every plan made of the steps the builder offers,
    whatever the hooks, the driver and the native engine do: how the future is
    resolved, when the final hook runs, which steps run, and what the
    retry-unsafe mark says. *)
From Stdlib Require Import ZArith Lia.
From stdpp Require Import base list gmap strings.
From S2P Require Import Prelude GoRuntime Routing Handles EngineBase ChainModel.

Section Run.
Context {State U Reject Lock Adj Block PostTrade Adjustment Batch PnlState Config : Type}.
Context (native : nativeCall -> U -> outcome unit * U).
Context (n_lock : handleKind -> nat -> U -> Lock).
Context (n_adj : handleKind -> nat -> U -> list Adj).
Context (n_block : handleKind -> nat -> U -> list Block).
Context (n_blocked : nat -> U -> bool).
Context (n_pass : nat -> U -> bool).
Context (n_rejects : nat -> U -> list Reject).

Abbreviation St := (st (State := State) (U := U)).
Abbreviation step := (chainStep (State := State) (U := U) (Reject := Reject)
  (PostTrade := PostTrade) (Adjustment := Adjustment) (Batch := Batch)
  (PnlState := PnlState) (Config := Config)).
Abbreviation plan := (chainPlan (State := State) (U := U) (Reject := Reject)
  (PostTrade := PostTrade) (Adjustment := Adjustment) (Batch := Batch)
  (PnlState := PnlState) (Config := Config)).
Abbreviation view := (taskView (U := U) (Reject := Reject)
  (PostTrade := PostTrade) (Adjustment := Adjustment) (Batch := Batch)
  (PnlState := PnlState) (Config := Config)).

(** The steps [ChainBuilder]'s methods append. *)
Inductive builder_step : step -> Prop :=
| BsThen fn : builder_step (Then fn)
| BsExecutePreTrade h : builder_step (ExecutePreTrade native n_lock n_adj h)
| BsApplyDropCopy h : builder_step (ApplyDropCopy native n_lock n_adj n_block n_blocked h)
| BsCheckOrder h : builder_step (CheckOrder native n_lock n_adj n_block n_pass n_rejects h)
| BsApplyExecutionReport h : builder_step (ApplyExecutionReport h)
| BsApplyAccountAdjustment h : builder_step (ApplyAccountAdjustment h)
| BsBlockAccount h : builder_step (BlockAccount h)
| BsUnblockAccount h : builder_step (UnblockAccount h)
| BsBlockAccountGroup h : builder_step (BlockAccountGroup h)
| BsUnblockAccountGroup h : builder_step (UnblockAccountGroup h)
| BsSetAccountCurrency h : builder_step (SetAccountCurrency h)
| BsClearAccountCurrency h : builder_step (ClearAccountCurrency h)
| BsSetSpotFundsAccountPnl h : builder_step (SetSpotFundsAccountPnl h).

(** ** Walking through a step

    [Walk R]: a relation on states that every primitive of a step respects; a
    step then respects it by composition. [WalkHandles R] adds the primitives of
    the steps that hold a lifetime object. *)
Class Walk (R : St -> St -> Prop) : Prop := {
  walk_order :: PreOrder R;
  walk_hook {A} h (f : ext_call A) : preserves R (emit (EvHook h) ;;; outside f);
  walk_driver {A} d (f : ext_call A) :
    state_changing d = true -> preserves R (setRetryUnsafe ;;; callDriver d f);
  walk_dryrun {A} (f : ext_call A) : preserves R (callDriver DExecutePreTradeDryRun f);
}.
Class WalkHandles (R : St -> St -> Prop) : Prop := {
  walk_walk :: Walk R;
  walk_world {A} (m : M (world U) A) : preserves R (onWorld m);
  walk_pending p : preserves R (setPending p);
  walk_invalidate r : preserves R (invalidate r);
  walk_block {A} l (body : nat -> M St A) :
    (forall r, preserves R (body r)) ->
    preserves R (let* r := newResult l in deferred (invalidate r) (body r));
}.

Section Steps.
Context (R : St -> St -> Prop) `{!Walk R}.

Lemma walk_callHook {A} h (f : option (ext_call A)) : preserves R (callHook h f).
Proof. destruct f; cbn; [apply walk_hook|]. apply preserves_panic. apply _. Qed.

(** Entering a driver call whose argument is already at hand. *)
Lemma walk_enter {A B} d (f : ext_call A) (k : A -> M St B) :
  state_changing d = true -> (forall a, preserves R (k a)) ->
  preserves R (setRetryUnsafe ;;; let* a := callDriver d f in k a).
Proof.
  intros Hd Hk s.
  change (R s (snd (bind (setRetryUnsafe ;;; callDriver d f) k s))).
  apply (preserves_bind R); [by apply walk_driver|done].
Qed.

Lemma walk_enter_deref {A B X} d (o : option X) (f : X -> ext_call A) (k : A -> M St B) :
  is_Some o -> state_changing d = true -> (forall a, preserves R (k a)) ->
  preserves R (setRetryUnsafe ;;; let* x := deref o in let* a := callDriver d (f x) in k a).
Proof. intros [x ->] Hd Hk. by apply (walk_enter d (f x)). Qed.
End Steps.

(** The source a plan's steps were validated against. *)
Definition source_view (k : chainSourceKind) (t : view) : Prop :=
  match k with
  | chainSourceOrder => is_Some (t_order t)
  | chainSourceAccountGroup => is_Some (t_groupID t)
  | chainSourceAccount => True
  end.

Ltac walk :=
  repeat first
    [ apply preserves_ret; apply _
    | apply preserves_panic; apply _
    | apply preserves_gets; apply _
    | apply walk_callHook; apply _
    | apply walk_world | apply walk_pending | apply walk_invalidate
    | apply walk_dryrun
    | apply walk_enter; [apply _|reflexivity|intros ?]
    | apply walk_enter_deref; [apply _|done|reflexivity|intros ?]
    | apply walk_block; intros ?
    | lazymatch goal with |- preserves _ _ => fail | |- forall _, _ => intros ? end
    | case_match
    | apply preserves_bind; [apply _| |intros ?] ].

Lemma order_source {k t e} (o : option error) :
  match k with chainSourceOrder => o | _ => Some e end = None ->
  source_view k t -> is_Some (t_order t).
Proof. destruct k; cbn; try done. Qed.

Lemma group_source {A B} (a : option A) (b : option B) na nb k t :
  requireHooks (requireAccountGroupSource k) a b na nb = None ->
  source_view k t -> is_Some (t_groupID t).
Proof. destruct k; cbn; try done. Qed.

(** The steps that hold no lifetime object. *)
Lemma simple_step_walk R `{!Walk R} k t s x :
  builder_step s -> validateStep s k = None -> source_view k t ->
  (exists h, s = ExecutePreTrade native n_lock n_adj h) \/
  (exists h, s = ApplyDropCopy native n_lock n_adj n_block n_blocked h) \/
  (exists h, s = CheckOrder native n_lock n_adj n_block n_pass n_rejects h) \/
  preserves R (executeStep s t x).
Proof.
  intros Hs Hv Hk. destruct Hs; eauto; right; right; right; cbn in *.
  - unfold executeThen. walk.
  - unfold notEnded, applyExecutionReport. walk.
  - unfold notEnded, applyAccountAdjustment. walk.
  - unfold notEnded, blockAccount. walk.
  - unfold notEnded, unblockAccount. walk.
  - pose proof (group_source _ _ _ _ _ _ Hv Hk).
    unfold notEnded, blockAccountGroup. walk.
  - pose proof (group_source _ _ _ _ _ _ Hv Hk).
    unfold notEnded, unblockAccountGroup. walk.
  - unfold notEnded, setAccountCurrency. walk.
  - unfold notEnded, clearAccountCurrency. walk.
  - unfold notEnded, setSpotFundsAccountPnl. walk.
Qed.

Lemma walk_RollbackAndClose R `{!WalkHandles R} p :
  preserves R (RollbackAndClose native p).
Proof. unfold RollbackAndClose. walk. Qed.

Lemma walk_finalizeDecision R `{!WalkHandles R} d p :
  preserves R (finalizeDecision native d p).
Proof. unfold finalizeDecision, CommitAndClose, RollbackAndClose. walk. Qed.

Lemma walk_checkReport R `{!WalkHandles R} h l err x :
  preserves R (checkReport n_lock n_adj n_block n_pass n_rejects h l err x).
Proof.
  unfold checkReport, isLive, deref, readVerdict, wrapErr. walk.
Qed.

Lemma step_walk R `{!WalkHandles R} k t s x :
  builder_step s -> validateStep s k = None -> source_view k t ->
  preserves R (executeStep s t x).
Proof.
  intros Hs Hv Hk.
  destruct (simple_step_walk R k t s x Hs Hv Hk) as [[h ->]|[[h ->]|[[h ->]|?]]];
    [..|done]; cbn in *.
  - pose proof (order_source _ Hv Hk). unfold executePreTrade, adopt, isLive. walk.
    all: first [apply _ | apply walk_finalizeDecision; apply _].
  - pose proof (order_source _ Hv Hk). unfold applyDropCopy, adopt, isLive. walk.
    all: first [apply _ | apply walk_finalizeDecision; apply _].
  - destruct (order_source _ Hv Hk) as [o Ho]. unfold notEnded, checkOrder, adopt.
    rewrite Ho. cbn [deref]. walk.
    all: try (apply walk_checkReport; apply _).
    all: apply preserves_deferred; [apply _|walk; apply _|apply walk_checkReport; apply _].
Qed.

(** ** What every step respects *)

Definition step_event (e : chainEvent) : Prop :=
  match e with EvDriver _ | EvHook _ | EvInvalidate _ => True | _ => False end.

(** The events of an engine call that can change state. *)
Definition unsafe_event (e : chainEvent) : bool :=
  match e with EvDriver d => state_changing d | _ => false end.

(** The retry-unsafe field says exactly whether such a call was entered. *)
Definition retry_exact (s : St) : Prop := retryUnsafe s = existsb unsafe_event (trace s).

Definition is_available (s : St) (r : nat) : Prop :=
  exists o, results s !! r = Some o /\ available o = true.

(** A step logs step events, keeps the retry-unsafe field exact, leaves the
    variables of [execute] alone, and leaves no result readable. *)
Definition step_rel (s s' : St) : Prop :=
  (exists evs, trace s' = trace s ++ evs /\ Forall step_event evs) /\
  (retry_exact s -> retry_exact s') /\
  (runErr s' = runErr s /\ ready s' = ready s /\ status s' = status s) /\
  (forall r, is_available s' r -> is_available s r).

Lemma step_rel_same s s' :
  trace s' = trace s -> retryUnsafe s' = retryUnsafe s -> results s' = results s ->
  runErr s' = runErr s -> ready s' = ready s -> status s' = status s -> step_rel s s'.
Proof.
  intros Ht Hr Hres ? ? ?. unfold step_rel, retry_exact, is_available.
  rewrite Ht, Hr, Hres. split_and!; try done.
  exists []. by rewrite app_nil_r.
Qed.

Lemma step_rel_event s s' e :
  trace s' = trace s ++ [e] -> step_event e -> unsafe_event e = false ->
  retryUnsafe s' = retryUnsafe s -> results s' = results s ->
  runErr s' = runErr s -> ready s' = ready s -> status s' = status s -> step_rel s s'.
Proof.
  intros Ht He Hu Hr Hres ? ? ?. unfold step_rel, retry_exact, is_available.
  rewrite Ht, Hr, Hres, existsb_app. cbn. rewrite Hu, !orb_false_r. split_and!; try done.
  exists [e]. split; [done|]. by constructor.
Qed.

#[local] Instance step_rel_order : PreOrder step_rel.
Proof.
  split.
  - intros s. by apply step_rel_same.
  - intros s1 s2 s3 ((ev1 & T1 & F1) & R1 & (? & ? & ?) & A1)
      ((ev2 & T2 & F2) & R2 & (? & ? & ?) & A2).
    split_and!; try congruence; try by eauto.
    exists (ev1 ++ ev2). rewrite T2, T1, app_assoc. split; [done|]. by apply Forall_app.
Qed.

Lemma step_rel_world {A} (m : M (world U) A) : preserves step_rel (onWorld m).
Proof. intros s. unfold onWorld. destruct (m (w s)). by apply step_rel_same. Qed.

Lemma step_rel_emit e :
  step_event e -> unsafe_event e = false -> preserves step_rel (emit e).
Proof. intros He Hu s. by apply (step_rel_event s _ e). Qed.

Lemma invalidate_spec r s :
  step_rel s (snd (invalidate r s)) /\ ~ is_available (snd (invalidate r s)) r.
Proof.
  unfold invalidate, bind, gets. destruct (results s !! r) as [o|] eqn:E; cbn.
  - split.
    + unfold step_rel, retry_exact, is_available; cbn. rewrite existsb_app, orb_false_r.
      split_and!; try done; [exists [EvInvalidate r]; split; [done|by constructor]|].
      intros r' (o' & Ho & Ha). destruct (decide (r' = r)) as [->|].
      * rewrite lookup_insert_eq in Ho. by simplify_eq.
      * rewrite lookup_insert_ne in Ho by done. by exists o'.
    + intros (o' & Ho & Ha); cbn in *. rewrite lookup_insert_eq in Ho. by simplify_eq.
  - split; [reflexivity|]. intros (o' & Ho & _). congruence.
Qed.

#[local] Instance step_rel_walk : Walk step_rel.
Proof.
  split; [apply _|..].
  - intros A h f. apply preserves_bind; [apply _|by apply step_rel_emit|].
    intros _. apply step_rel_world.
  - intros A d f Hd s. pose proof (step_rel_world (fun w0 : world U => let '(o, u) := f (ext w0) in
      (o, mkWorld (heap w0) (calls w0) u))) as Hw.
    unfold callDriver, bind, setRetryUnsafe, emit, modify; cbn.
    etransitivity; [|apply Hw]. unfold step_rel, retry_exact, is_available; cbn.
    split_and!; try done; [eexists; split; [done|by constructor]|].
    intros _. rewrite existsb_app. cbn. by rewrite Hd, orb_true_r.
  - intros A f. apply preserves_bind; [apply _|by apply step_rel_emit|].
    intros _. apply step_rel_world.
Qed.

#[local] Instance step_rel_handles : WalkHandles step_rel.
Proof.
  split; [apply _|..].
  - intros A m. apply step_rel_world.
  - intros p s. by apply step_rel_same.
  - intros r s. apply invalidate_spec.
  - intros A l body Hb s. unfold bind at 1, newResult. cbn.
    set (r := fresh (dom (results s))). set (s1 := mkSt _ _ _ _ _ _ _ _).
    pose proof (Hb r s1) as H1. unfold deferred.
    destruct (body r s1) as [o s2]. cbn in H1.
    destruct (invalidate_spec r s2) as [H2 Hr].
    assert (forall x : outcome A * St, x = match invalidate r s2 with
      | (Ret _, s3) => (o, s3) | (Panic v, s3) => (Panic v, s3) end ->
      snd x = snd (invalidate r s2)) as Hx.
    { intros x ->. by destruct (invalidate r s2) as [[] ?]. }
    rewrite (Hx _ eq_refl). clear Hx.
    destruct (transitivity H1 H2) as (Ht & Hre & Hl & Ha).
    split_and!; [exact Ht|exact Hre|by destruct Hl|by destruct_and?..|].
    intros r' Hr'. assert (r' <> r) as Hne by (by intros ->).
    destruct (Ha r' Hr') as (o' & Ho & Hav). cbn in Ho.
    rewrite lookup_insert_ne in Ho by done. by exists o'.
Qed.

(** ** The loop over the steps *)

Definition step_ids (l : list chainEvent) : list nat :=
  omap (fun e => match e with EvStep i => Some i | _ => None end) l.
#[local] Arguments step_ids : simpl never.
Definition ending_event (e : chainEvent) : Prop :=
  match e with EvFinally _ | EvResolve _ _ => True | _ => False end.

Lemma step_ids_app l l' : step_ids (l ++ l') = step_ids l ++ step_ids l'.
Proof. apply omap_app. Qed.
Lemma step_ids_events evs : Forall step_event evs -> step_ids evs = [].
Proof. induction 1 as [|e evs He _ IH]; [done|]. destruct e; cbn in *; done. Qed.
Lemma step_events_not_ending evs :
  Forall step_event evs -> Forall (fun e => ~ ending_event e) evs.
Proof. intros H. eapply Forall_impl; [exact H|]. by intros [] ? ?. Qed.

(** What the loop leaves: the steps it entered are consecutive from [i]; it
    stopped at the end, at an error, or at a step that ended the chain. *)
Definition loop_post (i n : nat) (s s' : St) (o : outcome unit) : Prop :=
  (exists k evs, trace s' = trace s ++ evs /\ Forall (fun e => ~ ending_event e) evs /\
     step_ids evs = seq i k /\ k <= n /\
     (o = Ret tt -> runErr s' = None -> status s' = ChainOutcomeCompleted -> k = n) /\
     (0 < n -> 0 < k)) /\
  (retry_exact s -> retry_exact s') /\
  (forall r, is_available s' r -> is_available s r) /\
  ready s' = ready s /\
  ((runErr s' = None /\ status s' = ChainOutcomeCompleted) \/
   (is_Some (runErr s') /\ status s' = ChainOutcomeCompleted) \/
   (runErr s' = None /\ status s' = ChainOutcomeRejected)).

Lemma loop_enter i s s1 s2 :
  s1 = snd (emit (EvStep i) s) -> step_rel s1 s2 ->
  exists evs, trace s2 = trace s ++ evs /\ Forall (fun e => ~ ending_event e) evs /\
    step_ids evs = [i] /\ (retry_exact s -> retry_exact s2) /\
    (forall r, is_available s2 r -> is_available s r) /\
    runErr s2 = runErr s /\ status s2 = status s /\ ready s2 = ready s.
Proof.
  intros -> ((evs & Ht & Hevs) & Hre & (? & ? & ?) & Hav). cbn in *.
  exists (EvStep i :: evs). rewrite Ht, <- app_assoc. split_and!; try done.
  - constructor; [by intros []|by apply step_events_not_ending].
  - change (i :: step_ids evs = [i]). by rewrite (step_ids_events evs Hevs).
  - intros Hex. apply Hre. unfold retry_exact in *; cbn.
    by rewrite existsb_app, orb_false_r.
Qed.

Lemma runSteps_post k t l x : forall i s,
  Forall (fun c => builder_step c /\ validateStep c k = None) l ->
  source_view k t -> runErr s = None -> status s = ChainOutcomeCompleted ->
  loop_post i (length l) s (snd (runSteps i t l x s)) (fst (runSteps i t l x s)).
Proof.
  induction l as [|c l IH]; intros i s Hl Hk He Hst.
  { cbn. split_and!; try done; [|by left]. exists 0, [].
    rewrite app_nil_r. split_and!; try done; lia. }
  apply Forall_cons in Hl as [[Hb Hv] Hl]. cbn [runSteps length].
  set (s1 := snd (emit (EvStep i) s)).
  change (loop_post i (S (length l)) s
    (snd (bind (executeStep c t x) (fun '(ended, err) =>
       match err with
       | Some e => setRunErr (Some e)
       | None => if ended then setStatus ChainOutcomeRejected else runSteps (S i) t l x
       end) s1))
    (fst (bind (executeStep c t x) (fun '(ended, err) =>
       match err with
       | Some e => setRunErr (Some e)
       | None => if ended then setStatus ChainOutcomeRejected else runSteps (S i) t l x
       end) s1))).
  pose proof (step_walk step_rel k t c x Hb Hv Hk s1) as Hstep.
  unfold bind. destruct (executeStep c t x s1) as [[[ended err]|v] s2]; cbn in Hstep;
    destruct (loop_enter i s s1 s2 eq_refl Hstep) as (evs & Ht & Hevs & Hids & Hre & Hav & Hf).
  1: destruct err as [e|]; [|destruct ended].
  1, 2, 4: cbn; split_and!; try done; try tauto;
    [exists 1, evs; split_and!; first [done | lia | by destruct Hf as (-> & _)]
    |destruct Hf as (Hf1 & Hf2 & Hf3); rewrite ?Hf1, ?Hf2, ?He, ?Hst; cbn; eauto].
  - destruct Hf as (Hf1 & Hf2 & Hf3).
    destruct (IH (S i) s2 Hl Hk) as ((j & evs2 & Ht2 & Hevs2 & Hids2 & Hj & Hall & _) &
      Hre2 & Hav2 & Hrdy2 & Hend); [by rewrite Hf1|by rewrite Hf2|].
    split_and!; [|by eauto|by eauto|by rewrite Hrdy2|exact Hend].
    exists (S j), (evs ++ evs2). rewrite Ht2, Ht, app_assoc, step_ids_app, Hids, Hids2.
    split_and!; try done; try lia; [by apply Forall_app|].
    intros H1 H2 H3. f_equal. by apply Hall.
Qed.

(** ** The run as a whole *)

Definition plan_ok (p : plan) (t : view) (kind : chainSourceKind) : Prop :=
  Forall (fun c => builder_step c /\ validateStep c kind = None) (steps p) /\
  source_view kind t.

(** What the statements before the deferred function leave. *)
Definition body_post (p : plan) (s : St) (o : outcome unit) : Prop :=
  (exists k, step_ids (trace s) = seq 0 k /\ k <= length (steps p) /\
     (o = Ret tt -> runErr s = None -> status s = ChainOutcomeCompleted ->
      k = length (steps p)) /\
     (ready s = None -> k = 0)) /\
  Forall (fun e => ~ ending_event e) (trace s) /\
  retry_exact s /\ (forall r, ~ is_available s r) /\
  (ready s = None -> is_Some (runErr s) \/ exists v, o = Panic v) /\
  ((runErr s = None /\ status s = ChainOutcomeCompleted) \/
   (is_Some (runErr s) /\ status s = ChainOutcomeCompleted) \/
   (runErr s = None /\ status s = ChainOutcomeRejected)).

Lemma executeBody_post p t kind v :
  plan_ok p t kind ->
  body_post p (snd (executeBody p t (newTask v))) (fst (executeBody p t (newTask v))).
Proof.
  intros [Hs Hk]. destruct (executeBody p t (newTask v)) as [o s'] eqn:E; cbn [fst snd].
  unfold executeBody, bind in E.
  pose proof (walk_callHook step_rel HBegin (begin_ p) (newTask v)) as Hb.
  destruct (callHook HBegin (begin_ p) (newTask v)) as [[[state err]|pv] s1];
    cbn in Hb; destruct Hb as ((evs & Ht & Hevs) & Hre & (Hrun & Hrdy & Hstat) & Hav);
    cbn in Ht, Hrun, Hrdy, Hstat.
  1: destruct err as [e|].
  1, 3: cbn in E; injection E as <- <-; unfold body_post; cbn; split_and!;
    [exists 0; rewrite Ht, (step_ids_events evs Hevs); split_and!; first [done|lia]
    |rewrite Ht; by apply step_events_not_ending
    |by apply Hre
    |intros r Hr; destruct (Hav r Hr) as (? & ? & _); by simplify_map_eq
    |by eauto
    |rewrite ?Hrun, ?Hstat; eauto].
  set (s2 := snd (setReady state s1)).
  change (runSteps 0 t (steps p) state s2 = (o, s')) in E.
  destruct (runSteps_post kind t (steps p) state 0 s2) as
    ((k & evs2 & Ht2 & Hevs2 & Hids & Hle & Hall & _) & Hre2 & Hav2 & Hrdy2 & Hend);
    [done..|].
  rewrite E in *. cbn in Ht2, Hall, Hre2, Hav2, Hrdy2, Hend. rewrite Ht in Ht2. split_and!.
  - exists k. rewrite Ht2, step_ids_app, (step_ids_events evs Hevs), Hids.
    split_and!; [done|done|done|]. by rewrite Hrdy2.
  - rewrite Ht2. apply Forall_app. split; [by apply step_events_not_ending|done].
  - apply Hre2. unfold retry_exact, s2; cbn. by apply Hre.
  - intros r Hr. destruct (Hav r (Hav2 r Hr)) as (? & ? & _). by simplify_map_eq.
  - by rewrite Hrdy2.
  - exact Hend.
Qed.

(** ** The deferred function *)

(** [s'] differs from [s] in the process and in the error only, and no error is
    lost. *)
Definition error_grows (s s' : St) : Prop :=
  trace s' = trace s /\ retryUnsafe s' = retryUnsafe s /\ results s' = results s /\
  ready s' = ready s /\ status s' = status s /\
  (is_Some (runErr s) -> is_Some (runErr s')) /\
  (forall x, errIs x (runErr s) = true -> errIs x (runErr s') = true).

#[local] Instance error_grows_order : PreOrder error_grows.
Proof.
  split; [by intros s; unfold error_grows; split_and!|].
  intros s1 s2 s3 (? & ? & ? & ? & ? & ? & ?) (? & ? & ? & ? & ? & ? & ?).
  unfold error_grows. split_and!; try congruence; eauto.
Qed.

Lemma error_grows_world {A} (m : M (world U) A) s : error_grows s (snd (onWorld m s)).
Proof. unfold onWorld. by destruct (m (w s)). Qed.

Lemma join_Some (e1 e2 : option error) :
  is_Some e1 \/ is_Some e2 -> is_Some (errors_Join [e1; e2]).
Proof. destruct e1, e2; cbn; intros [[? ?]|[? ?]]; by eauto. Qed.

Lemma join_Is x (e1 e2 : option error) :
  errIs x e1 = true \/ errIs x e2 = true -> errIs x (errors_Join [e1; e2]) = true.
Proof. rewrite errors_Join_Is. cbn. intros [-> | ->]; by rewrite ?orb_true_r. Qed.

Lemma error_grows_join e (s : St) :
  error_grows s (snd (setRunErr (errors_Join [runErr s; e]) s)).
Proof.
  unfold error_grows; cbn [setRunErr modify snd trace retryUnsafe results ready status runErr].
  split_and!; try done; intros; [apply join_Some|apply join_Is]; by left.
Qed.

Lemma settlePending_post (s : St) :
  exists s', settlePending native s = (Ret tt, s') /\ error_grows s s'.
Proof.
  unfold settlePending, bind, gets. destruct (pending s) as [q|].
  - unfold rollbackPendingFinalizer, bind, recovering.
    pose proof (error_grows_world (match q with
      | reservationFinalizer l => Reservation.RollbackAndClose native l
      | dropCopyFinalizer l => DropCopyOperation.RollbackAndClose native l end) s) as Hg.
    unfold RollbackAndClose. destruct (onWorld _ s) as [[[]|v] s1]; cbn in Hg.
    all: eexists; split; [reflexivity|]; etransitivity; [exact Hg|]; apply error_grows_join.
  - eexists. split; [reflexivity|]. reflexivity.
Qed.

Lemma recoverRun_post o (s : St) :
  exists s', recoverRun o s = (Ret tt, s') /\
    trace s' = trace s /\ retryUnsafe s' = retryUnsafe s /\ results s' = results s /\
    ready s' = ready s /\ status s' = status s /\
    runErr s' = match o with
                | Ret _ => runErr s
                | Panic v => Some (chainPanicError "async chain execution panicked" v)
                end.
Proof. destruct o; by eexists. Qed.

Lemma markRetryUnsafe_post (s : St) :
  exists s', markRetryUnsafe s = (Ret tt, s') /\ error_grows s s' /\
    (runErr s = None -> runErr s' = None) /\
    (is_Some (runErr s') -> retryUnsafe s = true ->
     errIs txtChainRetryUnsafe (runErr s') = true).
Proof.
  unfold markRetryUnsafe, bind, gets. destruct (runErr s) as [e|] eqn:E.
  2: { eexists. rewrite E. split; [reflexivity|]. split; [reflexivity|].
       split; [done|]. by intros [? ?]. }
  destruct (retryUnsafe s) eqn:Hu.
  - eexists. split; [reflexivity|]. rewrite <- E. split; [apply error_grows_join|].
    split; [congruence|]. intros _ _. cbn. rewrite E. by rewrite join_Is; auto.
  - eexists. split; [reflexivity|]. split; [reflexivity|]. rewrite E. by split.
Qed.

(** The outcome handed out agrees with the error it is handed out with. *)
Definition outcome_agrees (o : ChainOutcome) (e : option error) : Prop :=
  Err o = e /\ (Status o = ChainOutcomeFailed <-> is_Some e) /\
  (e = None -> Status o = ChainOutcomeCompleted \/ Status o = ChainOutcomeRejected).

Lemma resolvedOutcome_agrees st0 e b :
  st0 = ChainOutcomeCompleted \/ st0 = ChainOutcomeRejected ->
  outcome_agrees (resolvedOutcome st0 e b) e.
Proof.
  intros Hst. unfold outcome_agrees, resolvedOutcome; cbn. split; [done|].
  destruct e; (split; [split|]); intros; try done; destruct Hst as [-> | ->]; try done; eauto.
  all: match goal with H : is_Some None |- _ => by destruct H end.
Qed.

Definition finally_events (p : plan) (s : St) : list chainEvent :=
  match ready s, finally p with
  | Some _, Some _ =>
    [EvFinally (resolvedOutcome (status s) (runErr s) (retryUnsafe s)); EvHook HFinally]
  | _, _ => []
  end.

Lemma callFinally_post fn o (s : St) :
  exists s' e, callFinally fn o s = (Ret e, s') /\
    trace s' = trace s ++ [EvFinally o; EvHook HFinally] /\
    retryUnsafe s' = retryUnsafe s /\ results s' = results s /\ ready s' = ready s /\
    status s' = status s /\ runErr s' = runErr s.
Proof.
  unfold callFinally, bind, recovering, emit, modify, callHook, outside, onWorld; cbn.
  destruct (fn _) as [[e|v] u]; cbn; eexists _, _; (split; [reflexivity|]); cbn;
    by rewrite <- app_assoc.
Qed.

Lemma runFinally_post p (s : St) :
  (is_Some (runErr s) -> retryUnsafe s = true ->
   errIs txtChainRetryUnsafe (runErr s) = true) ->
  exists s', runFinally p s = (Ret tt, s') /\
    trace s' = trace s ++ finally_events p s /\
    retryUnsafe s' = retryUnsafe s /\ results s' = results s /\ ready s' = ready s /\
    status s' = status s /\
    (is_Some (runErr s) -> is_Some (runErr s')) /\
    (is_Some (runErr s') -> retryUnsafe s = true ->
     errIs txtChainRetryUnsafe (runErr s') = true).
Proof.
  intros Hm. unfold runFinally, finally_events. unfold bind at 1, gets.
  destruct (ready s) as [x|] eqn:Hr; [|eexists; split; [reflexivity|]; rewrite app_nil_r; by split_and!].
  destruct (finally p) as [fn|]; [|eexists; split; [reflexivity|]; rewrite app_nil_r; by split_and!].
  destruct (callFinally_post (fn x (resolvedOutcome (status s) (runErr s) (retryUnsafe s)))
    (resolvedOutcome (status s) (runErr s) (retryUnsafe s)) s)
    as (s1 & e & Hc & Ht & Hu & Hres & Hrdy & Hst & He).
  unfold bind. rewrite Hc. eexists; split; [reflexivity|]; cbn [setRunErr modify trace
    retryUnsafe results ready status runErr snd].
  split_and!; try congruence.
  - intros. apply join_Some. by left.
  - intros Hs Hu'. rewrite Hu' in *. apply join_Is.
    destruct (runErr s) as [re|]; [left; by apply Hm|right].
    destruct e as [fe|]; [apply join_Is; by right|]. by destruct Hs.
Qed.

(** ** The whole run *)

(** [execute] from a new task, piece by piece: the body leaves [s1] with [o], the
    final hook sees [s2], and the future is resolved in [s3]. *)
Lemma execute_post p t kind v :
  plan_ok p t kind ->
  exists o s1 s2 s3 s',
    executeBody p t (newTask v) = (o, s1) /\ body_post p s1 o /\
    trace s2 = trace s1 /\ retryUnsafe s2 = retryUnsafe s1 /\ ready s2 = ready s1 /\
    status s2 = status s1 /\ results s2 = results s1 /\
    (is_Some (runErr s1) \/ (exists pv, o = Panic pv) -> is_Some (runErr s2)) /\
    (is_Some (runErr s2) -> retryUnsafe s2 = true ->
     errIs txtChainRetryUnsafe (runErr s2) = true) /\
    runFinally p s2 = (Ret tt, s3) /\
    execute native p t (newTask v) = (Ret tt, s') /\
    trace s' = trace s1 ++ finally_events p s2 ++
      [EvResolve (resolvedOutcome (status s1) (runErr s3) (retryUnsafe s1)) (runErr s3)] /\
    results s' = results s1 /\ ready s' = ready s1 /\
    (is_Some (runErr s2) -> is_Some (runErr s3)) /\
    (is_Some (runErr s3) -> retryUnsafe s1 = true ->
     errIs txtChainRetryUnsafe (runErr s3) = true).
Proof.
  intros Hok. pose proof (executeBody_post p t kind v Hok) as Hb.
  destruct (executeBody p t (newTask v)) as [o s1] eqn:Ebody. cbn in Hb.
  destruct (recoverRun_post o s1) as (sa & Ea & Ta & Ua & Ra & Rdya & Sa & Erra).
  destruct (settlePending_post sa) as (sb & Eb & Tb & Ub & Rb & Rdyb & Sb & Someb & Isb).
  destruct (markRetryUnsafe_post sb) as (s2 & Ec & (Tc & Uc & Rc & Rdyc & Sc & Somec & Isc) & _ & Hm).
  assert (is_Some (runErr s2) -> retryUnsafe s2 = true ->
    errIs txtChainRetryUnsafe (runErr s2) = true) as Hm2 by (rewrite Uc; exact Hm).
  destruct (runFinally_post p s2 Hm2)
    as (s3 & Ed & Td & Ud & Rd & Rdyd & Sd & Somed & Hmd).
  exists o, s1, s2, s3. eexists.
  assert (execute native p t (newTask v) =
    emit (EvResolve (resolvedOutcome (status s3) (runErr s3) (retryUnsafe s3)) (runErr s3)) s3)
    as Hex.
  { unfold execute. unfold bind at 1, recovering. rewrite Ebody.
    erewrite bind_Ret by exact Ea. erewrite bind_Ret by exact Eb.
    erewrite bind_Ret by exact Ec. erewrite bind_Ret by exact Ed. done. }
  rewrite Hex. split_and!; try done; try congruence.
  - intros Hs. apply Somec, Someb. rewrite Erra. destruct o; [|by eauto].
    destruct Hs as [?|[? ?]]; [done|discriminate].
  - cbn. rewrite Td, Sd, Ud, Tc, Tb, Ta, <- app_assoc. do 3 f_equal. congruence.
  - cbn. congruence.
  - cbn. congruence.
  - rewrite <- Ua, <- Ub, <- Uc. done.
Qed.

Lemma body_status p s o :
  body_post p s o -> status s = ChainOutcomeCompleted \/ status s = ChainOutcomeRejected.
Proof. intros (_ & _ & _ & _ & _ & [[_ ?]|[[_ ?]|[_ ?]]]); auto. Qed.
End Run.

(** ** Theorems

    [builder_plan]: the plan of a chain built with the step methods of
    [ChainBuilder] and accepted by [validate], with the task that runs it. *)
Section Theorems.
Context {State U Reject Lock Adj Block PostTrade Adjustment Batch PnlState Config : Type}.
Context (native : nativeCall -> U -> outcome unit * U).
Context (n_lock : handleKind -> nat -> U -> Lock).
Context (n_adj : handleKind -> nat -> U -> list Adj).
Context (n_block : handleKind -> nat -> U -> list Block).
Context (n_blocked : nat -> U -> bool).
Context (n_pass : nat -> U -> bool).
Context (n_rejects : nat -> U -> list Reject).
Context (driver : Driver (U := U) (Reject := Reject) (PostTrade := PostTrade)
  (Adjustment := Adjustment) (Batch := Batch) (PnlState := PnlState) (Config := Config)).
Abbreviation plan := (chainPlan (State := State) (U := U) (Reject := Reject)
  (PostTrade := PostTrade) (Adjustment := Adjustment) (Batch := Batch)
  (PnlState := PnlState) (Config := Config)).

Definition task_view (p : plan) :=
  {| t_order := order p; t_accountID := accountID p; t_groupID := groupID p;
     t_driver := driver |}.

(** The chain [p] routed to [key] on account [a]. *)
Definition builder_plan (p : plan) (key : routingKey) (a : AccountID) : Prop :=
  Forall (builder_step native n_lock n_adj n_block n_blocked n_pass n_rejects) (steps p) /\
  validate p = inl (key, a).

Lemma validateSteps_all k (l : list (chainStep (State := State) (U := U) (Reject := Reject)
  (PostTrade := PostTrade) (Adjustment := Adjustment) (Batch := Batch)
  (PnlState := PnlState) (Config := Config))) :
  validateSteps k l = None -> Forall (fun s => validateStep s k = None) l.
Proof.
  induction l as [|s l IH]; cbn; [by constructor|].
  destruct (validateStep s k) eqn:E; [done|]. intros. constructor; auto.
Qed.

Lemma builder_plan_ok p key a :
  builder_plan p key a ->
  exists kind, plan_ok native n_lock n_adj n_block n_blocked n_pass n_rejects
    (withAccount a p) (task_view (withAccount a p)) kind.
Proof.
  intros [Hs Hv]. unfold validate in Hv. destruct (begin_ p); [|done].
  destruct (order p) as [od|] eqn:Ho; [destruct (extractOrderAccountID od)|
    destruct (groupID p) as [g|] eqn:Hg; [destruct (validateAccountGroupID g)|]]; try done.
  all: match type of Hv with context [validateSteps ?k] =>
         destruct (validateSteps k (steps p)) eqn:E; [done|]; exists k end.
  all: split; [apply Forall_and; split; [done|by apply validateSteps_all]|].
  all: cbn; rewrite ?Ho, ?Hg; eauto.
Qed.

Lemma finally_events_safe (p : plan) s : existsb unsafe_event (finally_events p s) = false.
Proof. unfold finally_events. by destruct (ready s), (finally p). Qed.

Definition is_resolve (e : chainEvent) : bool :=
  match e with EvResolve _ _ => true | _ => false end.
Definition is_finally (e : chainEvent) : bool :=
  match e with EvFinally _ => true | _ => false end.

Lemma filter_no_ending (f : chainEvent -> bool) (l : list chainEvent) :
  (forall e, f e = true -> ending_event e) ->
  Forall (fun e => ~ ending_event e) l -> filter f l = [].
Proof.
  intros Hf. induction 1 as [|e l He _ IH]; [done|].
  rewrite filter_cons_False; [done|]. intros H%Is_true_true. by apply He, Hf.
Qed.

(** C2: a chain's run never lets a panic escape and resolves its future exactly
    once, at the very end: the outcome carries the error it is resolved with, it
    is Failed exactly when there is an error and Completed or Rejected otherwise,
    its RetryUnsafe field says exactly whether a state-changing engine call was
    entered, and a failure after such a call is marked ErrChainRetryUnsafe. *)
Theorem chain_resolves_once p key a v :
  builder_plan p key a ->
  exists s tr out e,
    execute native (withAccount a p) (task_view (withAccount a p)) (newTask v) = (Ret tt, s) /\
    trace s = tr ++ [EvResolve out e] /\ filter is_resolve tr = [] /\
    outcome_agrees out e /\ RetryUnsafe out = existsb unsafe_event tr /\
    (is_Some e -> RetryUnsafe out = true -> errIs txtChainRetryUnsafe e = true).
Proof.
  intros Hp. destruct (builder_plan_ok p key a Hp) as [kind Hok].
  destruct (execute_post native n_lock n_adj n_block n_blocked n_pass n_rejects
    _ _ _ v Hok) as (o & s1 & s2 & s3 & s' & _ & Hb & _ & _ & _ & _ & _ & _ & _ & _ &
      Hex & Ht & _ & _ & _ & Hm).
  pose proof (body_status _ _ _ Hb) as Hst.
  destruct Hb as (_ & Hend & Hre & _).
  eexists s', (trace s1 ++ _), _, _. split; [exact Hex|]. rewrite <- app_assoc.
  split; [exact Ht|]. split_and!.
  - rewrite filter_app, (filter_no_ending is_resolve) by (done || by intros []).
    unfold finally_events. by destruct (ready s2), (finally (withAccount a p)).
  - by apply resolvedOutcome_agrees.
  - cbn. rewrite existsb_app, finally_events_safe, orb_false_r. exact Hre.
  - exact Hm.
Qed.

(** the final hook runs exactly once when the begin hook succeeded and the
    chain has one, and not at all otherwise; it runs after every step and before
    the future is resolved, with nothing between the two, and the outcome it is
    given agrees with its own error and carries the run's retry-unsafe mark. *)
Theorem chain_final_hook_runs_once p key a v :
  builder_plan p key a ->
  exists s tr fin out e,
    execute native (withAccount a p) (task_view (withAccount a p)) (newTask v) = (Ret tt, s) /\
    trace s = tr ++ fin ++ [EvResolve out e] /\
    filter is_finally tr = [] /\
    match ready s, finally p with
    | Some _, Some _ => exists o, fin = [EvFinally o; EvHook HFinally] /\
        outcome_agrees o (Err o) /\ RetryUnsafe o = existsb unsafe_event tr /\
        (is_Some (Err o) -> is_Some e)
    | _, _ => fin = []
    end /\
    (ready s = None -> is_Some e /\ step_ids tr = []).
Proof.
  intros Hp. destruct (builder_plan_ok p key a Hp) as [kind Hok].
  destruct (execute_post native n_lock n_adj n_block n_blocked n_pass n_rejects
    _ _ _ v Hok) as (o & s1 & s2 & s3 & s' & _ & Hb & _ & Hu2 & Hr2 & Hs2 & _ & Hsome & _ &
      _ & Hex & Ht & _ & Hrdy & Hs23 & _).
  pose proof (body_status _ _ _ Hb) as Hst.
  destruct Hb as ((k & Hids & _ & _ & Hk0) & Hend & Hre & _ & Hnone & _).
  exists s', (trace s1), (finally_events (withAccount a p) s2). eexists _, _.
  split; [exact Hex|]. split; [exact Ht|]. split_and!.
  - apply (filter_no_ending is_finally); [by intros []|done].
  - unfold finally_events. rewrite Hrdy, Hr2. cbn [withAccount finally].
    destruct (ready s1), (finally p); try done.
    eexists. split; [reflexivity|]. split_and!.
    + apply resolvedOutcome_agrees. by rewrite Hs2.
    + cbn. by rewrite Hu2.
    + exact Hs23.
  - rewrite Hrdy. intros Hn. split.
    + apply Hs23, Hsome. by apply Hnone.
    + by rewrite Hids, (Hk0 Hn).
Qed.

(** a chain runs its steps in the order they were added, each at most once,
    and stops at the first one that fails, panics or ends the chain: the steps
    entered are an initial segment of the plan, and it is the whole plan when the
    outcome is Completed. *)
Theorem chain_steps_stop_at_first_end p key a v :
  builder_plan p key a ->
  exists s tr out e k,
    execute native (withAccount a p) (task_view (withAccount a p)) (newTask v) = (Ret tt, s) /\
    trace s = tr ++ [EvResolve out e] /\
    step_ids (trace s) = seq 0 k /\ k <= length (steps p) /\
    (Status out = ChainOutcomeCompleted -> k = length (steps p)).
Proof.
  intros Hp. destruct (builder_plan_ok p key a Hp) as [kind Hok].
  destruct (execute_post native n_lock n_adj n_block n_blocked n_pass n_rejects
    _ _ _ v Hok) as (o & s1 & s2 & s3 & s' & _ & Hb & _ & _ & _ & _ & _ & Hsome & _ &
      _ & Hex & Ht & _ & _ & Hs23 & _).
  destruct Hb as ((k & Hids & Hle & Hall & _) & _).
  exists s'. eexists (trace s1 ++ _), _, _, k. split; [exact Hex|].
  rewrite <- app_assoc. split; [exact Ht|]. split_and!.
  - rewrite Ht, !step_ids_app, Hids. unfold finally_events.
    destruct (ready s2), (finally (withAccount a p)); cbn; by rewrite ?app_nil_r.
  - exact Hle.
  - cbn. destruct (runErr s3) eqn:E3; [done|]. intros Hst. apply Hall; [| |done].
    + destruct o as [[]|pv]; [done|]. destruct Hs23 as [? ?]; [|done].
      apply Hsome. eauto.
    + destruct (runErr s1) eqn:E1; [|done]. destruct Hs23 as [? ?]; [|done].
      apply Hsome. left. by eexists.
Qed.

(** an operation result cannot be read outside its hook: after the run,
    through whichever result object a hook kept and whatever it asks for, the
    answer is ErrChainResultUnavailable. *)
Theorem chain_results_unavailable_after_run p key a v {A} closedErr (read : nat -> U -> A) r u :
  builder_plan p key a ->
  exists s,
    execute native (withAccount a p) (task_view (withAccount a p)) (newTask v) = (Ret tt, s) /\
    readResult closedErr read r s u = inr ErrChainResultUnavailable.
Proof.
  intros Hp. destruct (builder_plan_ok p key a Hp) as [kind Hok].
  destruct (execute_post native n_lock n_adj n_block n_blocked n_pass n_rejects
    _ _ _ v Hok) as (o & s1 & s2 & s3 & s' & _ & Hb & _ & _ & _ & _ & _ & _ & _ &
      _ & Hex & _ & Hres & _).
  destruct Hb as (_ & _ & _ & Hav & _). exists s'. split; [exact Hex|].
  unfold readResult. rewrite Hres. destruct (results s1 !! r) as [[l []]|] eqn:E; try done.
  exfalso. apply (Hav r). by eexists.
Qed.
End Theorems.

(** ** A concrete chain

    An engine that hands out live handles numbered by its counter, and an
    order-routed chain that reserves, commits, and fails in a later step. *)
Definition demo_driver : Driver (U := nat) (Reject := nat) (PostTrade := nat)
    (Adjustment := nat) (Batch := nat) (PnlState := nat) (Config := nat) := {|
  d_ExecutePreTrade := fun _ u => (Ret (Some (mkObj (Some u) false), [], None), S u);
  d_ExecutePreTradeDryRun := fun _ u => (Ret (Some (mkObj (Some u) false), None), S u);
  d_ApplyDropCopy := fun _ u => (Ret (Some (mkObj (Some u) false), [], None), S u);
  d_ApplyExecutionReport := fun _ u => (Ret (u, None), S u);
  d_ApplyAccountAdjustment := fun _ _ u => (Ret (u, None), S u);
  d_Block := fun _ _ u => (Ret tt, S u);
  d_Unblock := fun _ u => (Ret tt, S u);
  d_BlockGroup := fun _ _ u => (Ret None, S u);
  d_UnblockGroup := fun _ u => (Ret None, S u);
  d_SetCurrency := fun _ _ u => (Ret None, S u);
  d_ClearCurrency := fun _ u => (Ret tt, S u);
  d_SetSpotFundsAccountPnl := fun _ _ _ u => (Ret (u, None), S u);
|}.

Definition demo_lock (_ : handleKind) (h u : nat) : nat := h + u.
Definition demo_list (_ : handleKind) (h u : nat) : list nat := [h; u].
Definition demo_bool (h u : nat) : bool := Nat.even h.
Definition demo_rejects (h u : nat) : list nat := [].
Definition demo_order : Order :=
  {| operation := Some {| op_accountID := Some {| acc_native := 5 |} |}; order_rest := 0 |}.

Definition demo_reserve (d : Decision) :=
  ExecutePreTrade (State := nat) (U := nat) (Reject := nat) (PostTrade := nat)
    (Adjustment := nat) (Batch := nat) (PnlState := nat) (Config := nat)
    demo_native demo_lock demo_list
    {| pt_OnRejected := Some (fun _ _ u => (Ret None, u));
       pt_OnReserved := Some (fun _ _ u => (Ret (d, None), u)) |}.
Definition demo_then (e : option error) :=
  Then (State := nat) (U := nat) (Reject := nat) (PostTrade := nat)
    (Adjustment := nat) (Batch := nat) (PnlState := nat) (Config := nat)
    (Some (fun _ u => (Ret e, u))).

Definition demo_plan :=
  {| steps := [demo_reserve DecisionCommit; demo_then (Some (EOther 1)); demo_then None];
     begin_ := Some (fun u => (Ret (3, None), u));
     finally := Some (fun _ _ u => (Ret None, u));
     order := Some demo_order; accountID := {| acc_native := 0 |}; groupID := None |}.
Definition demo_key : routingKey := accountRoutingKey {| acc_native := 5 |}.

(** The handle the engine hands out first is 1, whose commit returns. *)
Definition demo_start : world nat := mkWorld ∅ [] 1.

Lemma demo_plan_built :
  builder_plan demo_native demo_lock demo_list demo_list demo_bool demo_bool demo_rejects
    demo_plan demo_key {| acc_native := 5 |}.
Proof. split; [repeat constructor|reflexivity]. Qed.

Abbreviation demo_run := (execute demo_native (withAccount {| acc_native := 5 |} demo_plan)
  (task_view demo_driver (withAccount {| acc_native := 5 |} demo_plan)) (newTask demo_start)).

Lemma chain_resolves_once_witness :
  exists s tr out e, demo_run = (Ret tt, s) /\ trace s = tr ++ [EvResolve out e] /\
    filter is_resolve tr = [] /\ outcome_agrees out e /\
    RetryUnsafe out = existsb unsafe_event tr /\
    (is_Some e -> RetryUnsafe out = true -> errIs txtChainRetryUnsafe e = true).
Proof.
  apply (chain_resolves_once demo_native demo_lock demo_list demo_list demo_bool demo_bool
    demo_rejects demo_driver demo_plan demo_key). exact demo_plan_built.
Defined.

Lemma chain_final_hook_runs_once_witness :
  exists s tr fin out e, demo_run = (Ret tt, s) /\
    trace s = tr ++ fin ++ [EvResolve out e] /\ filter is_finally tr = [] /\
    match ready s, finally demo_plan with
    | Some _, Some _ => exists o, fin = [EvFinally o; EvHook HFinally] /\
        outcome_agrees o (Err o) /\ RetryUnsafe o = existsb unsafe_event tr /\
        (is_Some (Err o) -> is_Some e)
    | _, _ => fin = []
    end /\ (ready s = None -> is_Some e /\ step_ids tr = []).
Proof.
  apply (chain_final_hook_runs_once demo_native demo_lock demo_list demo_list demo_bool
    demo_bool demo_rejects demo_driver demo_plan demo_key). exact demo_plan_built.
Defined.

Lemma chain_steps_stop_at_first_end_witness :
  step_ids (trace (snd demo_run)) = [0; 1] /\
  exists s tr out e k, demo_run = (Ret tt, s) /\ trace s = tr ++ [EvResolve out e] /\
    step_ids (trace s) = seq 0 k /\ k <= length (steps demo_plan) /\
    (Status out = ChainOutcomeCompleted -> k = length (steps demo_plan)).
Proof.
  split; [vm_compute; reflexivity|].
  apply (chain_steps_stop_at_first_end demo_native demo_lock demo_list demo_list demo_bool
    demo_bool demo_rejects demo_driver demo_plan demo_key). exact demo_plan_built.
Defined.

Lemma chain_results_unavailable_after_run_witness :
  exists s, demo_run = (Ret tt, s) /\
    readResult ErrReservationClosed (demo_lock KReservation) 0 s 7
      = inr ErrChainResultUnavailable.
Proof.
  apply (chain_results_unavailable_after_run demo_native demo_lock demo_list demo_list
    demo_bool demo_bool demo_rejects demo_driver demo_plan demo_key).
  exact demo_plan_built.
Defined.
