(* ===== verification/ChainHandles.v ===== *)
(** * Chains: what happens to the handles

    Every lifetime object a run receives from the driver - a reservation, a
    drop-copy operation, a dry-run report - is closed when the run is over, and a
    pending operation is committed exactly when its hook said so. *)
From Stdlib Require Import ZArith Lia.
From stdpp Require Import base list gmap strings.
From S2P Require Import Prelude GoRuntime Routing Handles EngineBase ChainModel ChainRun.

Section HandlesOfARun.
Context {State U Reject Lock Adj Block PostTrade Adjustment Batch PnlState Config : Type}.
Context (native : nativeCall -> U -> outcome unit * U).
Context (n_lock : handleKind -> nat -> U -> Lock).
Context (n_adj : handleKind -> nat -> U -> list Adj).
Context (n_block : handleKind -> nat -> U -> list Block).
Context (n_blocked : nat -> U -> bool).
Context (n_pass : nat -> U -> bool).
Context (n_rejects : nat -> U -> list Reject).

Abbreviation St := (st (State := State) (U := U)).
Abbreviation view := (taskView (U := U) (Reject := Reject)
  (PostTrade := PostTrade) (Adjustment := Adjustment) (Batch := Batch)
  (PnlState := PnlState) (Config := Config)).

(** ** Calls that touch no lifetime object *)

Definition same_handles (s s' : St) : Prop :=
  heap (w s') = heap (w s) /\ calls (w s') = calls (w s) /\ pending s' = pending s.

#[local] Instance same_handles_order : PreOrder same_handles.
Proof.
  split; [by intros s|].
  intros s1 s2 s3 (? & ? & ?) (? & ? & ?). unfold same_handles. split_and!; congruence.
Qed.

Lemma same_outside {A} (f : ext_call (U := U) A) : preserves same_handles (outside f).
Proof.
  intros s. unfold outside, onWorld, same_handles. cbn.
  destruct (f (ext (w s))) as [o u]. cbn. done.
Qed.
Lemma same_emit e : preserves same_handles (emit e).
Proof. intros s. unfold same_handles. by split_and!. Qed.
Lemma same_setRetryUnsafe : preserves same_handles setRetryUnsafe.
Proof. intros s. unfold same_handles. by split_and!. Qed.
Lemma same_invalidate r : preserves same_handles (invalidate r).
Proof.
  intros s. unfold invalidate, bind, gets. unfold same_handles.
  by destruct (results s !! r); split_and!.
Qed.
Lemma same_newResult l : preserves same_handles (newResult l).
Proof. intros s. unfold same_handles. by split_and!. Qed.
Lemma same_isLive l : preserves same_handles (isLive l).
Proof.
  intros s. destruct l as [l|]; [|by split_and!]. unfold isLive, isClosed, load, onWorld, bind; cbn.
  unfold same_handles. by destruct (heap (w s) !! l) as [o|]; cbn; split_and!.
Qed.
Lemma same_readView {A} e (read : nat -> U -> A) l :
  preserves same_handles (onWorld (readView e read l)).
Proof.
  intros s. unfold readView, load, onWorld, bind, same_handles; cbn.
  destruct (heap (w s) !! l) as [o|]; [destruct (handle o)|]; cbn; by split_and!.
Qed.

Lemma same_callHook {A} h (f : option (ext_call (U := U) A)) :
  preserves same_handles (callHook h f).
Proof.
  destruct f; cbn; [|apply preserves_panic; apply _].
  apply preserves_bind; [apply _|apply same_emit|intros _; apply same_outside].
Qed.
Lemma same_callDriver {A} d (f : ext_call (U := U) A) :
  preserves same_handles (callDriver d f).
Proof. apply preserves_bind; [apply _|apply same_emit|intros _; apply same_outside]. Qed.

#[local] Instance same_handles_walk : Walk same_handles.
Proof.
  split; [apply _|..]; intros.
  - apply preserves_bind; [apply _|apply same_emit|intros _; apply same_outside].
  - apply preserves_bind; [apply _|apply same_setRetryUnsafe|intros _; apply same_callDriver].
  - apply same_callDriver.
Qed.

Lemma same_checkReport h l err x :
  preserves same_handles (checkReport n_lock n_adj n_block n_pass n_rejects h l err x).
Proof.
  unfold checkReport, readVerdict, wrapErr.
  repeat first
    [ apply preserves_ret; apply _ | apply preserves_panic; apply _
    | apply preserves_gets; apply _ | apply same_isLive | apply same_callHook
    | apply same_readView | apply same_newResult | apply same_invalidate
    | lazymatch goal with |- preserves _ _ => fail | |- forall _, _ => intros ? end
    | unfold deref; case_match
    | apply preserves_deferred; [apply _| |]
    | apply preserves_bind; [apply _| |intros ?] ].
Qed.

(** ** Open objects *)

Definition open_at (s : St) (l : nat) : Prop :=
  exists o h, heap (w s) !! l = Some o /\ handle o = Some h.

Definition target (p : pendingFinalizer) : nat :=
  match p with reservationFinalizer l | dropCopyFinalizer l => l end.
Definition kind_of (p : pendingFinalizer) : handleKind :=
  match p with reservationFinalizer _ => KReservation | dropCopyFinalizer _ => KDropCopy end.

(** Open and not the pending operation: nothing will close it. *)
Definition leaked (s : St) (l : nat) : Prop :=
  open_at s l /\ forall p, pending s = Some p -> target p <> l.
Definition no_new_leak (s s' : St) : Prop := forall l, leaked s' l -> leaked s l.
(** The pending operation is an object of the heap. *)
Definition pending_ok (s : St) : Prop :=
  forall p, pending s = Some p -> is_Some (heap (w s) !! target p).

#[local] Instance no_new_leak_order : PreOrder no_new_leak.
Proof. split; [by intros s l|]. intros s1 s2 s3 H1 H2 l Hl. by apply H1, H2. Qed.

Lemma same_no_leak s s' : same_handles s s' -> no_new_leak s s'.
Proof.
  intros (Hh & _ & Hp) l [(o & h & Ho & Hoh) Ht]. rewrite Hh in Ho. rewrite Hp in Ht.
  split; [by exists o, h|done].
Qed.
Lemma same_pending_ok s s' : same_handles s s' -> pending_ok s -> pending_ok s'.
Proof. intros (Hh & _ & Hp) H p. rewrite Hp, Hh. apply H. Qed.

(** Releasing calls return: a destroy or a rollback does not unwind. A commit
    may. *)
Definition cleanup_returns : Prop := forall c u,
  match c with NCommit _ _ => True | _ => exists u', native c u = (Ret tt, u') end.

(** ** Finalizers *)

(** The native calls of a finalization of object [o]. *)
Definition finalizing (c : handleKind -> nat -> nativeCall) (k : handleKind)
    (o : handleObj) : list nativeCall :=
  match handle o with
  | None => []
  | Some h => (if resolved o then [] else [c k h]) ++ [NDestroy k h]
  end.

Lemma close_world (Hc : cleanup_returns) k l (v : world U) o :
  heap v !! l = Some o ->
  exists v' o', closePending native k l v = (Ret tt, v') /\
    heap v' = <[l := o']> (heap v) /\ handle o' = None /\
    calls v' = calls v ++ match handle o with Some h => [NDestroy k h] | None => [] end.
Proof.
  intros Ho. unfold closePending, load, store, ncall, modify, bind, ret. rewrite Ho.
  destruct (handle o) as [h|] eqn:Hh.
  - destruct (Hc (NDestroy k h) (ext v)) as [u' ->]. by eexists _, _.
  - exists v, o. rewrite insert_id by done. by rewrite app_nil_r.
Qed.

Lemma RollbackAndClose_post (Hc : cleanup_returns) p (s : St) o :
  heap (w s) !! target p = Some o ->
  exists v' o', RollbackAndClose native p s = (Ret tt, with_w v' s) /\
    heap v' = <[target p := o']> (heap (w s)) /\ handle o' = None /\
    calls v' = calls (w s) ++ finalizing NRollback (kind_of p) o.
Proof.
  intros Ho. set (k := kind_of p). set (l := target p) in *.
  assert (exists v' o', (rollbackPending native k l ;;; closePending native k l) (w s)
      = (Ret tt, v') /\ heap v' = <[l := o']> (heap (w s)) /\ handle o' = None /\
    calls v' = calls (w s) ++ finalizing NRollback k o) as (v' & o' & E & H).
  { unfold finalizing. destruct (handle o) as [h|] eqn:Hh; [destruct (resolved o) eqn:Hr|].
    - destruct (close_world Hc k l (w s) o Ho) as (v' & o' & E & H & Hn & Hcalls).
      rewrite Hh in Hcalls. exists v', o'. split; [|done].
      rewrite <- E. unfold rollbackPending, load, bind, ret. by rewrite Ho, Hh, Hr.
    - destruct (Hc (NRollback k h) (ext (w s))) as [u' Hu].
      destruct (close_world Hc k l (mkWorld (<[l := mkObj (Some h) true]> (heap (w s)))
        (calls (w s) ++ [NRollback k h]) u') (mkObj (Some h) true))
        as (v' & o' & E & H & Hn & Hcalls); [by cbn; rewrite lookup_insert_eq|].
      exists v', o'. split.
      + rewrite <- E. unfold rollbackPending, load, store, ncall, modify, bind, ret.
        rewrite Ho, Hh, Hr. cbn. by rewrite Hu.
      + cbn in H, Hcalls. rewrite insert_insert_eq in H. split; [done|].
        split; [done|]. by rewrite Hcalls, <- app_assoc.
    - destruct (close_world Hc k l (w s) o Ho) as (v' & o' & E & H & Hn & Hcalls).
      rewrite Hh in Hcalls. exists v', o'. split; [|done].
      rewrite <- E. unfold rollbackPending, load, bind, ret. by rewrite Ho, Hh. }
  exists v', o'. split; [|done]. unfold RollbackAndClose, onWorld.
  unfold k, l in E. destruct p; unfold Reservation.RollbackAndClose,
    DropCopyOperation.RollbackAndClose, Reservation.rollback, Reservation.close,
    DropCopyOperation.rollback, DropCopyOperation.close; cbn in E; by rewrite E.
Qed.

(** A commit that unwinds leaves the object resolved and open, still pending. *)
Lemma CommitAndClose_post (Hc : cleanup_returns) p (s : St) o :
  heap (w s) !! target p = Some o ->
  exists v' o' r, CommitAndClose native p s = (r, with_w v' s) /\
    heap v' = <[target p := o']> (heap (w s)) /\
    (r = Ret tt -> handle o' = None /\
       calls v' = calls (w s) ++ finalizing NCommit (kind_of p) o) /\
    (r <> Ret tt -> exists h, o = mkObj (Some h) false /\ o' = mkObj (Some h) true /\
       calls v' = calls (w s) ++ [NCommit (kind_of p) h]).
Proof.
  intros Ho. set (k := kind_of p). set (l := target p) in *.
  assert (exists v' o' r, (commitPending native k l ;;; closePending native k l) (w s)
      = (r, v') /\ heap v' = <[l := o']> (heap (w s)) /\
    (r = Ret tt -> handle o' = None /\ calls v' = calls (w s) ++ finalizing NCommit k o) /\
    (r <> Ret tt -> exists h, o = mkObj (Some h) false /\ o' = mkObj (Some h) true /\
       calls v' = calls (w s) ++ [NCommit k h]))
    as (v' & o' & r & E & H).
  { unfold finalizing. destruct (handle o) as [h|] eqn:Hh; [destruct (resolved o) eqn:Hr|].
    - destruct (close_world Hc k l (w s) o Ho) as (v' & o' & E & H & Hn & Hcalls).
      rewrite Hh in Hcalls. exists v', o', (Ret tt). split; [|done].
      rewrite <- E. unfold commitPending, load, bind, ret. by rewrite Ho, Hr.
    - destruct (native (NCommit k h) (ext (w s))) as [[[]|pv] u'] eqn:Hu.
      + destruct (close_world Hc k l (mkWorld (<[l := mkObj (Some h) true]> (heap (w s)))
          (calls (w s) ++ [NCommit k h]) u') (mkObj (Some h) true))
          as (v' & o' & E & H & Hn & Hcalls); [by cbn; rewrite lookup_insert_eq|].
        exists v', o', (Ret tt). split.
        * rewrite <- E. unfold commitPending, load, store, ncall, modify, bind, ret.
          rewrite Ho, Hr, Hh. cbn. by rewrite Hu.
        * cbn in H, Hcalls. rewrite insert_insert_eq in H. split; [done|]. split; [|done].
          intros _. split; [done|]. by rewrite Hcalls, <- app_assoc.
      + exists (mkWorld (<[l := mkObj (Some h) true]> (heap (w s)))
          (calls (w s) ++ [NCommit k h]) u'), (mkObj (Some h) true), (Panic pv).
        split; [|split; [done|split; [done|]]].
        * unfold commitPending, load, store, ncall, modify, bind, ret.
          rewrite Ho, Hr, Hh. cbn. by rewrite Hu.
        * intros _. exists h. destruct o; cbn in *. by subst.
    - destruct (close_world Hc k l (w s) o Ho) as (v' & o' & E & H & Hn & Hcalls).
      rewrite Hh in Hcalls. exists v', o', (Ret tt). split; [|done].
      rewrite <- E. unfold commitPending, load, bind, ret. rewrite Ho, Hh. by destruct (resolved o). }
  exists v', o', r. split; [|done]. unfold CommitAndClose, onWorld.
  unfold k, l in E. destruct p; unfold Reservation.CommitAndClose,
    DropCopyOperation.CommitAndClose, Reservation.commit, Reservation.close,
    DropCopyOperation.commit, DropCopyOperation.close; cbn in E; by rewrite E.
Qed.

(** ** Steps *)

(** A call from a state with nothing pending leaves no new leak; when it lets the
    chain go on, nothing is pending again. *)
Definition safe_after {A} (goes_on : A -> Prop) (s : St) (r : outcome A * St) : Prop :=
  no_new_leak s (snd r) /\ pending_ok (snd r) /\
  (forall a, fst r = Ret a -> goes_on a -> pending (snd r) = None).

Definition goes_on (r : bool * option error) : Prop := r = (false, None).

Lemma safe_same {A} (g : A -> Prop) s r :
  pending s = None -> same_handles s (snd r) -> safe_after g s r.
Proof.
  intros Hp Hs. split_and!; [by apply same_no_leak| |].
  - intros p. destruct Hs as (_ & _ & ->). by rewrite Hp.
  - intros. destruct Hs as (_ & _ & ->). done.
Qed.

(** [s'] comes from [s] by finalizing the pending operation [p]. *)
Lemma finalized_safe s s' p o' :
  pending s = Some p -> heap (w s') = <[target p := o']> (heap (w s)) ->
  (pending s' = Some p \/ (pending s' = None /\ handle o' = None)) ->
  no_new_leak s s' /\ pending_ok s'.
Proof.
  intros Hp Hh Hp'. split.
  - intros l [(o & h & Ho & Hoh) Ht]. rewrite Hh in Ho.
    destruct (decide (target p = l)) as [<-|Hne].
    + rewrite lookup_insert_eq in Ho. simplify_eq.
      destruct Hp' as [Hp'|[_ Hn]]; [by destruct (Ht p Hp')|congruence].
    + rewrite lookup_insert_ne in Ho by done. split; [by exists o, h|].
      intros q Hq. rewrite Hp in Hq. by simplify_eq.
  - intros q Hq. destruct Hp' as [Hp'|[Hp' _]]; rewrite Hp' in Hq; simplify_eq.
    rewrite Hh, lookup_insert_eq. by eexists.
Qed.

(** [deferred (invalidate r)] changes nothing that matters here. *)
Lemma safe_deferred {A} (g : A -> Prop) r (m : M St A) s :
  safe_after g s (m s) -> safe_after g s (deferred (invalidate r) m s).
Proof.
  intros (H1 & H2 & H3). unfold deferred. destruct (m s) as [o s1]. cbn in *.
  pose proof (same_invalidate r s1) as Hi.
  destruct (invalidate r s1) as [[[]|v] s2]; cbn in Hi.
  all: split_and!; cbn;
    [etransitivity; [exact H1|by apply same_no_leak]|by eapply same_pending_ok|].
  - intros a Ha Hg. destruct Hi as (_ & _ & ->). by eapply H3.
  - done.
Qed.

Lemma safe_weaken {A} (g : A -> Prop) s0 s r :
  same_handles s0 s -> safe_after g s r -> safe_after g s0 r.
Proof.
  intros Hs (H1 & H2 & H3). split_and!; [|done|done].
  etransitivity; [by apply same_no_leak|exact H1].
Qed.

(** The decision's calls, and what is left. *)
Lemma finalizeDecision_safe (Hc : cleanup_returns) d s p o :
  pending s = Some p -> heap (w s) !! target p = Some o ->
  safe_after goes_on s
    ((let* err := finalizeDecision native d (Some p) in
      setPending None ;;;
      match err with
      | Some e => ret (false, Some e)
      | None => ret (bool_decide (d = DecisionRollback), None)
      end) s).
Proof.
  intros Hp Ho.
  destruct (RollbackAndClose_post Hc p s o Ho) as (v' & o' & Er & Hh & Hn & _).
  destruct (CommitAndClose_post Hc p s o Ho) as (v2 & o2 & r & Ec & Hh2 & Hr2 & _).
  assert (forall x : bool * option error, safe_after goes_on s
    ((setPending None ;;; ret x) (with_w v' s))) as Hroll.
  { intros x. destruct (finalized_safe s (snd (setPending None (with_w v' s))) p o' Hp Hh)
      as [? ?]; [by right|]. by split_and!. }
  unfold finalizeDecision. destruct d.
  all: try (erewrite (bind_Ret _ _ s) by (erewrite (bind_Ret _ _ s) by exact Er; done);
    apply Hroll).
  destruct r as [[]|pv].
  - erewrite (bind_Ret _ _ s) by (erewrite (bind_Ret _ _ s) by exact Ec; done).
    destruct (Hr2 eq_refl) as [Hn2 _].
    destruct (finalized_safe s (snd (setPending None (with_w v2 s))) p o2 Hp Hh2)
      as [? ?]; [by right|]. by split_and!.
  - erewrite (bind_Panic _ _ s) by (by erewrite (bind_Panic _ _ s) by exact Ec).
    destruct (finalized_safe s (with_w v2 s) p o2 Hp Hh2) as [? ?]; [by left|].
    by split_and!.
Qed.

Lemma resolveAccepted_safe (Hc : cleanup_returns) l e call s p o :
  (forall r, preserves same_handles (call r)) ->
  pending s = Some p -> target p = l -> heap (w s) !! l = Some o ->
  safe_after goes_on s (resolveAccepted native l e call s).
Proof.
  intros Hcall Hp <- Ho. unfold resolveAccepted.
  destruct (newResult (target p) s) as [[r|?] s1] eqn:En; [|done].
  erewrite bind_Ret by exact En.
  apply (safe_weaken _ s s1); [pose proof (same_newResult (target p) s) as H; by rewrite En in H|].
  assert (pending s1 = Some p /\ heap (w s1) !! target p = Some o) as [Hp1 Ho1].
  { pose proof (same_newResult (target p) s) as H. rewrite En in H.
    destruct H as (Hh & _ & Hpe). cbn in *. by rewrite Hpe, Hh. }
  apply safe_deferred.
  pose proof (Hcall r s1) as H2. unfold bind at 1.
  destruct (call r s1) as [[[d err]|pv] s2]; cbn in H2.
  2: { split_and!; [by apply same_no_leak| |done]. eapply same_pending_ok; [exact H2|].
       intros q Hq. rewrite Hp1 in Hq. simplify_eq. by rewrite Ho1. }
  pose proof (same_invalidate r s2) as H3. unfold bind at 1.
  destruct (invalidate r s2) as [[[]|pv] s3]; cbn in H3.
  all: assert (same_handles s1 s3) as H13 by (by etransitivity).
  2: { split_and!; [by apply same_no_leak| |done]. eapply same_pending_ok; [exact H13|].
       intros q Hq. rewrite Hp1 in Hq. simplify_eq. by rewrite Ho1. }
  destruct err as [er|].
  { split_and!; [by apply same_no_leak| |by intros a [= <-]].
    eapply same_pending_ok; [exact H13|].
    intros q Hq. rewrite Hp1 in Hq. simplify_eq. by rewrite Ho1. }
  apply (safe_weaken _ s1 s3); [done|]. destruct H13 as (Hh & _ & Hpe).
  unfold bind at 1, gets. rewrite Hpe, Hp1. eapply (finalizeDecision_safe Hc);
    [by rewrite Hpe|by rewrite Hh].
Qed.

(** A call that touches no object, then the rest. *)
Lemma safe_bind_same {A B} (g : B -> Prop) (m : M St A) (f : A -> M St B) s :
  pending_ok s -> preserves same_handles m ->
  (forall a s1, same_handles s s1 -> safe_after g s1 (f a s1)) ->
  safe_after g s (bind m f s).
Proof.
  intros Hp Hm Hf. specialize (Hm s). unfold bind.
  destruct (m s) as [[a|pv] s1]; cbn in Hm; [by apply (safe_weaken _ s s1); auto|].
  split_and!; [by apply same_no_leak|by eapply same_pending_ok|done].
Qed.

Lemma safe_stop s b e : pending_ok s -> safe_after goes_on s (Ret (b, Some e), s).
Proof. intros H. split_and!; [by intros l|done|by intros ? [= <-]]. Qed.
Lemma safe_end s e : pending_ok s -> safe_after goes_on s (Ret (true, e), s).
Proof. intros H. split_and!; [by intros l|done|by intros ? [= <-]]. Qed.

(** Taking over what the driver handed out. *)
Lemma adopt_safe (mk : nat -> pendingFinalizer) robj
    (k : option nat -> M St (bool * option error)) s :
  pending s = None -> (forall l, target (mk l) = l) ->
  (robj = None -> safe_after goes_on s (k None s)) ->
  (forall l o s1, pending s1 = Some (mk l) -> heap (w s1) !! l = Some o ->
     safe_after goes_on s1 (k (Some l) s1)) ->
  safe_after goes_on s
    ((let* l := adopt robj in
      match l with Some l => setPending (Some (mk l)) | None => ret tt end ;;; k l) s).
Proof.
  intros Hp Hmk Hnone Hsome. destruct robj as [o|]; [|by apply Hnone].
  set (l := fresh (dom (heap (w s)))).
  set (s1 := snd (setPending (Some (mk l)) (with_w
    (mkWorld (<[l := o]> (heap (w s))) (calls (w s)) (ext (w s))) s))).
  change (safe_after goes_on s (k (Some l) s1)).
  destruct (Hsome l o s1) as (H1 & H2 & H3);
    [done|by cbn; rewrite lookup_insert_eq|].
  split_and!; [|done|done]. etransitivity; [|exact H1].
  intros l' [(o' & h & Ho & Hh) Ht]. cbn in Ho. split.
  - rewrite lookup_insert_ne in Ho; [by exists o', h|].
    rewrite <- (Hmk l). by apply Ht.
  - by rewrite Hp.
Qed.

Lemma pending_open s p o :
  pending s = Some p -> heap (w s) !! target p = Some o -> pending_ok s.
Proof. intros Hp Ho q Hq. rewrite Hp in Hq. simplify_eq. by eexists. Qed.

Lemma none_pending_ok s : pending s = None -> pending_ok s.
Proof. intros H p Hp. congruence. Qed.

(** What both steps do once the driver has answered. *)
Definition handed_rest (what rejectErr : string)
    (rejects : list Reject) (err : option error)
    (onRejected : M St (option error)) (accepted : nat -> M St (bool * option error))
    (l : option nat) : M St (bool * option error) :=
  let* live := isLive l in
  match validateDriverResult (bool_decide (is_Some l)) live (length rejects) err with
  | Some shapeErr => ret (false, Some (EWrap what shapeErr))
  | None =>
    match err with
    | Some e => ret (false, Some (EWrap what e))
    | None =>
      if 0 <? length rejects then
        let* err := onRejected in
        match err with
        | Some e => ret (false, Some (EWrap rejectErr e))
        | None => ret (true, None)
        end
      else match l with None => ret (false, Some ErrDriverResult) | Some l => accepted l end
    end
  end.

Lemma handed_rest_safe what rejectErr rejects err onRejected accepted l s :
  pending_ok s -> preserves same_handles onRejected ->
  (forall l', l = Some l' -> forall s1, same_handles s s1 ->
     safe_after goes_on s1 (accepted l' s1)) ->
  safe_after goes_on s (handed_rest what rejectErr rejects err onRejected accepted l s).
Proof.
  intros Hp Hrej Hacc. unfold handed_rest.
  apply safe_bind_same; [done|apply same_isLive|]. intros live s1 H1.
  assert (pending_ok s1) by by eapply same_pending_ok.
  destruct (validateDriverResult _ _ _ _); [by apply safe_stop|].
  destruct err; [by apply safe_stop|].
  destruct (0 <? length rejects).
  - apply safe_bind_same; [done|done|]. intros e s2 H2.
    assert (pending_ok s2) by by eapply same_pending_ok.
    destruct e; [by apply safe_stop|by apply safe_end].
  - destruct l; [by apply Hacc|by apply safe_stop].
Qed.

Lemma accepted_safe (Hc : cleanup_returns) l e call s p o :
  (forall r, preserves same_handles (call r)) ->
  pending s = Some p -> target p = l -> heap (w s) !! l = Some o ->
  forall s1, same_handles s s1 -> safe_after goes_on s1 (resolveAccepted native l e call s1).
Proof.
  intros Hcall Hp Ht Ho s1 (Hh & _ & Hpe).
  by eapply (resolveAccepted_safe Hc); [..|rewrite Hpe|exact Ht|rewrite Hh].
Qed.

Lemma same_hook_on_view {A V} (view : St -> V) h (f : V -> option (ext_call (U := U) A)) :
  preserves same_handles (let* v := gets view in callHook h (f v)).
Proof.
  apply preserves_bind; [apply _|apply preserves_gets; apply _|].
  intros v. apply same_callHook.
Qed.

Lemma executePreTrade_safe (Hc : cleanup_returns) hooks (t : view) x s :
  pending s = None -> safe_after goes_on s (executePreTrade native n_lock n_adj hooks t x s).
Proof.
  intros Hp. unfold executePreTrade.
  apply safe_bind_same; [by apply none_pending_ok|apply same_setRetryUnsafe|].
  intros _ s1 H1. assert (pending s1 = None) by (destruct H1 as (_ & _ & ->); done).
  apply safe_bind_same; [by apply none_pending_ok|unfold deref; case_match;
    [apply preserves_ret|apply preserves_panic]; apply _|].
  intros o s2 H2. assert (pending s2 = None) by (destruct H2 as (_ & _ & ->); done).
  apply safe_bind_same; [by apply none_pending_ok|apply same_callDriver|].
  intros [[robj rejects] err] s3 H3.
  assert (pending s3 = None) by (destruct H3 as (_ & _ & ->); done).
  apply (adopt_safe reservationFinalizer robj (handed_rest "async chain execute pre-trade"
    "async chain reject hook" rejects err
    (callHook HOnRejected ((fun f => f x rejects) <$> pt_OnRejected hooks))
    (fun l => resolveAccepted native l "async chain reserved hook" (fun r =>
       let* view := gets (reservationOperationResult n_lock n_adj r) in
       callHook HOnReserved ((fun f => f x view) <$> pt_OnReserved hooks)))) s3); [done|done|..].
  - intros _. apply handed_rest_safe; [by apply none_pending_ok|apply same_callHook|done].
  - intros l ob s4 Hp4 Ho. apply handed_rest_safe; [by eapply pending_open|apply same_callHook|].
    intros l' [= <-]. eapply (accepted_safe Hc); [|exact Hp4|done|done].
    intros r. apply same_hook_on_view.
Qed.

Lemma applyDropCopy_safe (Hc : cleanup_returns) hooks (t : view) x s :
  pending s = None ->
  safe_after goes_on s (applyDropCopy native n_lock n_adj n_block n_blocked hooks t x s).
Proof.
  intros Hp. unfold applyDropCopy.
  apply safe_bind_same; [by apply none_pending_ok|apply same_setRetryUnsafe|].
  intros _ s1 H1. assert (pending s1 = None) by (destruct H1 as (_ & _ & ->); done).
  apply safe_bind_same; [by apply none_pending_ok|unfold deref; case_match;
    [apply preserves_ret|apply preserves_panic]; apply _|].
  intros o s2 H2. assert (pending s2 = None) by (destruct H2 as (_ & _ & ->); done).
  apply safe_bind_same; [by apply none_pending_ok|apply same_callDriver|].
  intros [[robj rejects] err] s3 H3.
  assert (pending s3 = None) by (destruct H3 as (_ & _ & ->); done).
  apply (adopt_safe dropCopyFinalizer robj (handed_rest "async chain apply drop copy"
    "async chain reject hook" rejects err
    (callHook HOnRejected ((fun f => f x rejects) <$> dc_OnRejected hooks))
    (fun l => resolveAccepted native l "async chain applied hook" (fun r =>
       let* view := gets (dropCopyOperationResult n_lock n_adj n_block n_blocked r) in
       callHook HOnApplied ((fun f => f x view) <$> dc_OnApplied hooks)))) s3); [done|done|..].
  - intros _. apply handed_rest_safe; [by apply none_pending_ok|apply same_callHook|done].
  - intros l ob s4 Hp4 Ho. apply handed_rest_safe; [by eapply pending_open|apply same_callHook|].
    intros l' [= <-]. eapply (accepted_safe Hc); [|exact Hp4|done|done].
    intros r. apply same_hook_on_view.
Qed.

(** A report the driver handed out is closed by the deferred [Close]. *)
Lemma report_closed (Hc : cleanup_returns) (m : nat -> M St (option error)) ob s :
  pending s = None -> (forall l, preserves same_handles (m l)) ->
  let l := fresh (dom (heap (w s))) in
  let s' := snd (deferred (onWorld (DryRunReport.Close native l)) (m l)
    (with_w (mkWorld (<[l := ob]> (heap (w s))) (calls (w s)) (ext (w s))) s)) in
  no_new_leak s s' /\ pending s' = None.
Proof.
  intros Hp Hm l s'. subst s'. set (s1 := with_w _ s).
  pose proof (Hm l s1) as (Hh & _ & Hpe). unfold deferred.
  destruct (m l s1) as [o s2]; cbn in Hh, Hpe.
  assert (exists v' ob', DryRunReport.Close native l (w s2) = (Ret tt, v') /\
    heap v' = <[l := ob']> (heap (w s2)) /\ handle ob' = None) as (v' & ob' & E & Hv & Hn).
  { unfold DryRunReport.Close, closeView, load, store, ncall, modify, bind, ret.
    rewrite Hh, lookup_insert_eq. destruct (handle ob) as [h|] eqn:Hob.
    - destruct (Hc (NDestroy KDryRun h) (ext (w s2))) as [u' ->].
      eexists _, _. split; [reflexivity|]. cbn. by rewrite Hh.
    - exists (w s2), ob. rewrite Hh, insert_insert_eq. done. }
  unfold onWorld. rewrite E. cbn. split; [|by rewrite Hpe].
  intros l' [(o' & h & Ho & Hoh) Ht]. cbn in Ho. rewrite Hv, Hh, insert_insert_eq in Ho.
  split; [|by rewrite Hp].
  destruct (decide (l = l')) as [<-|]; [rewrite lookup_insert_eq in Ho; by simplify_eq|].
  rewrite lookup_insert_ne in Ho by done. by exists o', h.
Qed.

(** From nothing pending to nothing pending, with no new leak. *)
Definition quiet (s s' : St) : Prop :=
  pending s = None -> no_new_leak s s' /\ pending s' = None.

#[local] Instance quiet_order : PreOrder quiet.
Proof.
  split; [by intros s Hs; split|]. intros s1 s2 s3 H1 H2 Hp.
  destruct (H1 Hp) as [L1 P1]. destruct (H2 P1) as [L2 P2]. split; [by etransitivity|done].
Qed.

Lemma same_quiet {A} (m : M St A) : preserves same_handles m -> preserves quiet m.
Proof.
  intros Hm s Hp. specialize (Hm s). split; [by apply same_no_leak|].
  destruct Hm as (_ & _ & Hm). congruence.
Qed.

Lemma checkOrder_safe (Hc : cleanup_returns) onChecked (t : view) x s :
  pending s = None ->
  safe_after goes_on s
    (notEnded (checkOrder native n_lock n_adj n_block n_pass n_rejects onChecked t x) s).
Proof.
  intros Hp.
  assert (preserves quiet (notEnded
    (checkOrder native n_lock n_adj n_block n_pass n_rejects onChecked t x))) as H.
  { unfold notEnded, checkOrder. apply preserves_bind; [apply _| |intros ?; apply preserves_ret, _].
    apply preserves_bind; [apply _|unfold deref; case_match;
      [apply preserves_ret|apply preserves_panic]; apply _|intros o].
    apply preserves_bind; [apply _|apply same_quiet, same_callDriver|].
    intros [robj err] s1 Hp1. destruct robj as [ob|].
    - apply (report_closed Hc (fun l => checkReport n_lock n_adj n_block n_pass n_rejects
        onChecked (Some l) err x) ob s1 Hp1). intros l. apply same_checkReport.
    - by apply (same_quiet _ (same_checkReport onChecked None err x)). }
  destruct (H s Hp) as [H1 H2]. split_and!; [done|by apply none_pending_ok|done].
Qed.

Lemma step_safe (Hc : cleanup_returns) k (t : view) c x s :
  builder_step native n_lock n_adj n_block n_blocked n_pass n_rejects c ->
  validateStep c k = None -> source_view k t ->
  pending s = None -> safe_after goes_on s (executeStep c t x s).
Proof.
  intros Hb Hv Hk Hp.
  destruct (simple_step_walk native n_lock n_adj n_block n_blocked n_pass n_rejects
    same_handles k t c x Hb Hv Hk) as [[h ->]|[[h ->]|[[h ->]|H]]].
  - by apply executePreTrade_safe.
  - by apply applyDropCopy_safe.
  - by apply checkOrder_safe.
  - by apply safe_same.
Qed.

Lemma runSteps_safe (Hc : cleanup_returns) k (t : view) l x : forall i s,
  Forall (fun c => builder_step native n_lock n_adj n_block n_blocked n_pass n_rejects c /\
    validateStep c k = None) l ->
  source_view k t -> pending s = None ->
  safe_after (fun _ => False) s (runSteps i t l x s).
Proof.
  induction l as [|c l IH]; intros i s Hl Hk Hp.
  { split_and!; [by intros l'|by apply none_pending_ok|done]. }
  apply Forall_cons in Hl as [[Hb Hv] Hl]. cbn [runSteps].
  apply safe_bind_same; [by apply none_pending_ok|apply same_emit|]. intros _ s1 H1.
  assert (pending s1 = None) as Hp1 by (by destruct H1 as (_ & _ & ->)).
  destruct (step_safe Hc k t c x s1 Hb Hv Hk Hp1) as (Hn & Hok & Hgo). unfold bind.
  destruct (executeStep c t x s1) as [[[ended err]|pv] s2]; cbn in Hn, Hok, Hgo; [|by split_and!].
  destruct err as [e|]; [by split_and!|]. destruct ended; [by split_and!|].
  destruct (IH (S i) s2 Hl Hk) as (Hn2 & Hok2 & _); [by eapply Hgo|].
  split_and!; [|done|done]. by etransitivity.
Qed.

(** ** The deferred function *)

Lemma same_modify f : (forall s, same_handles s (f s)) -> preserves same_handles (modify f).
Proof. intros H s. apply H. Qed.

Lemma tail_same (p : chainPlan (State := State) (U := U) (Reject := Reject)
    (PostTrade := PostTrade) (Adjustment := Adjustment) (Batch := Batch)
    (PnlState := PnlState) (Config := Config)) :
  preserves same_handles (markRetryUnsafe ;;; runFinally p ;;; resolve).
Proof.
  unfold markRetryUnsafe, runFinally, resolve, callFinally.
  repeat first
    [ apply preserves_ret; apply _ | apply preserves_gets; apply _
    | apply same_emit | apply same_callHook
    | apply same_modify; intros ?; by split_and!
    | apply preserves_recovering
    | lazymatch goal with |- preserves _ _ => fail | |- forall _, _ => intros ? end
    | case_match
    | apply preserves_bind; [apply _| |intros ?] ].
Qed.

(** The roll back of what is still pending, if anything is. *)
Lemma settlePending_closes (Hc : cleanup_returns) s :
  pending_ok s ->
  exists s', settlePending native s = (Ret tt, s') /\
    match pending s with
    | None => same_handles s s'
    | Some p => exists o o', heap (w s) !! target p = Some o /\
        heap (w s') = <[target p := o']> (heap (w s)) /\ handle o' = None /\
        calls (w s') = calls (w s) ++ finalizing NRollback (kind_of p) o
    end.
Proof.
  intros Hok. unfold settlePending. unfold bind at 1, gets.
  destruct (pending s) as [p|] eqn:Hp; [|by eexists].
  destruct (Hok p Hp) as [o Ho].
  destruct (RollbackAndClose_post Hc p s o Ho) as (v' & o' & E & Hh & Hn & Hcalls).
  unfold rollbackPendingFinalizer, bind, recovering. rewrite E.
  eexists. split; [reflexivity|]. by exists o, o'.
Qed.

(** After the deferred function every object is closed that was not open, and
    not in the run's hands, before. *)
Lemma settled_open (Hc : cleanup_returns) s s' l :
  pending_ok s -> settlePending native s = (Ret tt, s') -> open_at s' l -> leaked s l.
Proof.
  intros Hok E Hl. destruct (settlePending_closes Hc s Hok) as (s2 & E2 & H).
  rewrite E in E2. simplify_eq. destruct Hl as (ob & h & Hob & Hh).
  destruct (pending s) as [p|] eqn:Hp.
  - destruct H as (o & o' & Ho & Hh' & Hn & _). rewrite Hh' in Hob.
    destruct (decide (target p = l)) as [<-|Hne].
    + rewrite lookup_insert_eq in Hob. by simplify_eq.
    + rewrite lookup_insert_ne in Hob by done. split; [by exists ob, h|].
      intros q Hq. rewrite Hp in Hq. by simplify_eq.
  - destruct H as (Hh' & _ & _). rewrite Hh' in Hob. split; [by exists ob, h|].
    by rewrite Hp.
Qed.
(** ** The calls of a decision *)

(** The native calls are [cs] once the deferred function has run. *)
Definition settles_to (s : St) (cs : list nativeCall) : Prop :=
  (pending s = None /\ calls (w s) = cs) \/
  (exists p o, pending s = Some p /\ heap (w s) !! target p = Some o /\
     calls (w s) ++ finalizing NRollback (kind_of p) o = cs).

Lemma settles_same s s' cs : same_handles s s' -> settles_to s cs -> settles_to s' cs.
Proof.
  intros (Hh & Hc & Hp) [[H1 H2]|(p & o & H1 & H2 & H3)];
    [left|right; exists p, o]; rewrite ?Hh, ?Hc, ?Hp; done.
Qed.

Lemma settled_calls (Hc : cleanup_returns) s cs :
  settles_to s cs -> exists s', settlePending native s = (Ret tt, s') /\ calls (w s') = cs.
Proof.
  intros H. destruct (settlePending_closes Hc s) as (s' & E & Hs').
  { destruct H as [[H _]|(p & o & Hp & Ho & _)]; [by apply none_pending_ok|].
    by eapply pending_open. }
  exists s'. split; [done|]. destruct H as [[H1 H2]|(p & o & H1 & H2 & H3)]; rewrite H1 in Hs'.
  - destruct Hs' as (_ & -> & _). done.
  - destruct Hs' as (o1 & o2 & Ho & _ & _ & ->). by simplify_eq.
Qed.

Definition decided {A} (k : handleKind) (h : nat) (r : outcome (Decision * option A)) :=
  [match r with Ret (DecisionCommit, None) => NCommit k h | _ => NRollback k h end;
   NDestroy k h].

Lemma finalizeDecision_settles (Hc : cleanup_returns) d s p h :
  pending s = Some p -> heap (w s) !! target p = Some (mkObj (Some h) false) ->
  settles_to (snd ((let* err := finalizeDecision native d (Some p) in
      setPending None ;;;
      match err with
      | Some e => ret (false, Some e)
      | None => ret (bool_decide (d = DecisionRollback), None)
      end) s))
    (calls (w s) ++ decided (A := error) (kind_of p) h (Ret (d, None))).
Proof.
  intros Hp Ho.
  destruct (RollbackAndClose_post Hc p s _ Ho) as (v' & o' & Er & _ & _ & Hcalls).
  destruct (CommitAndClose_post Hc p s _ Ho) as (v2 & o2 & r & Ec & Hh2 & Hr2 & Hr3).
  unfold finalizeDecision. destruct d.
  all: try (erewrite (bind_Ret _ _ s) by (erewrite (bind_Ret _ _ s) by exact Er; done);
    by left).
  destruct r as [[]|pv].
  - erewrite (bind_Ret _ _ s) by (erewrite (bind_Ret _ _ s) by exact Ec; done).
    left. split; [done|]. by apply Hr2.
  - destruct Hr3 as (h' & [= <-] & -> & Hv); [done|].
    erewrite (bind_Panic _ _ s) by (by erewrite (bind_Panic _ _ s) by exact Ec).
    right. exists p, (mkObj (Some h) true). split; [done|].
    split; [cbn; by rewrite Hh2, lookup_insert_eq|]. cbn [snd with_w w].
    by rewrite Hv, <- app_assoc.
Qed.

Lemma resolveAccepted_settles (Hc : cleanup_returns) l e call s p h :
  (forall r, preserves same_handles (call r)) ->
  (forall r s', results (snd (call r s')) = results s') ->
  pending s = Some p -> target p = l -> heap (w s) !! l = Some (mkObj (Some h) false) ->
  settles_to (snd (resolveAccepted native l e call s))
    (calls (w s) ++ decided (kind_of p) h
       (fst (call (fresh (dom (results s))) (snd (newResult l s))))).
Proof.
  intros Hcall Hres Hp <- Ho. unfold resolveAccepted.
  set (r := fresh (dom (results s))). set (s1 := snd (newResult (target p) s)).
  erewrite (bind_Ret _ _ s) by (unfold newResult; fold r; reflexivity).
  change (settles_to (snd (deferred (invalidate r) (let* (decision, err) := call r in
     invalidate r ;;;
     match err with
     | Some e0 => ret (false, Some (EWrap e e0))
     | None =>
       let* p := gets pending in
       let* err := finalizeDecision native decision p in
       setPending None ;;;
       match err with
       | Some e => ret (false, Some e)
       | None => ret (bool_decide (decision = DecisionRollback), None)
       end
     end) s1)) (calls (w s) ++ decided (kind_of p) h (fst (call r s1)))).
  assert (forall cs (m : M St (bool * option error)), settles_to (snd (m s1)) cs ->
    settles_to (snd (deferred (invalidate r) m s1)) cs) as Hdef.
  { intros cs m Hm. unfold deferred. destruct (m s1) as [o s2].
    apply (settles_same s2); [|done]. pose proof (same_invalidate r s2) as Hi.
    by destruct (invalidate r s2) as [[] ?]. }
  apply Hdef. pose proof (Hcall r s1) as H2. pose proof (Hres r s1) as R2.
  assert (forall s2, same_handles s1 s2 ->
    settles_to s2 (calls (w s) ++ [NRollback (kind_of p) h; NDestroy (kind_of p) h])) as Hroll.
  { intros s2 (Hh & Hcs & Hpe). right. exists p, (mkObj (Some h) false).
    rewrite Hh, Hcs, Hpe. done. }
  unfold bind at 1. destruct (call r s1) as [[[d err]|pv] s2]; cbn in H2, R2; [|by apply Hroll].
  pose proof (same_invalidate r s2) as H3.
  assert (exists s3, invalidate r s2 = (Ret tt, s3)) as [s3 E3].
  { unfold invalidate, bind, gets. rewrite R2, lookup_insert_eq. by eexists. }
  rewrite E3 in H3. erewrite bind_Ret by exact E3.
  assert (same_handles s1 s3) as H13 by (by etransitivity).
  destruct err as [er|]; [destruct d; by apply Hroll|].
  unfold bind at 1, gets. destruct H13 as (Hh & Hcs & Hpe). rewrite Hpe.
  change (pending s1) with (pending s). rewrite Hp.
  change (calls (w s)) with (calls (w s1)). rewrite <- Hcs. eapply (finalizeDecision_settles Hc).
  - by rewrite Hpe.
  - by rewrite Hh.
Qed.
(** The state once a live operation is taken over. *)
Definition taken (mk : nat -> pendingFinalizer) (h : nat) (d : driverCall) (u : U)
    (s : St) : St :=
  let l := fresh (dom (heap (w s))) in
  mkSt (mkWorld (<[l := mkObj (Some h) false]> (heap (w s))) (calls (w s)) u) true
    (Some (mk l)) (results s) (runErr s) (ready s) (status s) (trace s ++ [EvDriver d]).

Lemma handed_rest_taken what rejectErr onRejected accepted mk h d u s :
  let l := fresh (dom (heap (w s))) in
  handed_rest what rejectErr [] None onRejected accepted (Some l) (taken mk h d u s)
    = accepted l (taken mk h d u s).
Proof.
  intros l. unfold handed_rest, isLive, isClosed, load, onWorld, bind, ret, taken; cbn.
  fold l. rewrite lookup_insert_eq. reflexivity.
Qed.

(** A view made from a live result reads the operation. *)
Lemma readResult_live {A} e (read : nat -> U -> A) l h (s : St) u :
  heap (w s) !! l = Some (mkObj (Some h) false) ->
  readResult e read (fresh (dom (results s))) (snd (newResult l s)) u = inl (read h u).
Proof.
  intros Ho. unfold readResult, newResult; cbn. rewrite lookup_insert_eq.
  unfold readView, load, bind; cbn. by rewrite Ho.
Qed.

Lemma settled_run {A} (Hc : cleanup_returns) (m : M St A) s cs :
  settles_to (snd (m s)) cs ->
  exists s', (recovering m ;;; settlePending native) s = (Ret tt, s') /\ calls (w s') = cs.
Proof.
  intros H. unfold bind, recovering. destruct (m s) as [o s1]. by apply settled_calls.
Qed.
End HandlesOfARun.

Section Theorems.
Context {State U Reject Lock Adj Block PostTrade Adjustment Batch PnlState Config : Type}.
Context (native : nativeCall -> U -> outcome unit * U).
Context (n_lock : handleKind -> nat -> U -> Lock).
Context (n_adj : handleKind -> nat -> U -> list Adj).
Context (n_block : handleKind -> nat -> U -> list Block).
Context (n_blocked : nat -> U -> bool).
Context (n_pass : nat -> U -> bool).
Context (n_rejects : nat -> U -> list Reject).
Context (driver : Driver (U := U) (Reject := Reject) (PostTrade := PostTrade)
  (Adjustment := Adjustment) (Batch := Batch) (PnlState := PnlState) (Config := Config)).

(** C3: no native handle leaks from a chain: when the native destroy and rollback
    return, every reservation, drop-copy operation and dry-run report that is
    still open when the run is over was open before it started, however the
    steps, hooks and the driver behave: errors, panics, invalid decisions, and a
    native commit that panics included. *)
Theorem chain_leaves_no_open_handle p key a v :
  builder_plan (State := State) native n_lock n_adj n_block n_blocked n_pass n_rejects p key a ->
  cleanup_returns native ->
  exists s,
    execute native (withAccount a p) (task_view driver (withAccount a p)) (newTask v)
      = (Ret tt, s) /\
    (forall l o h, heap (w s) !! l = Some o -> handle o = Some h ->
       exists o' h', heap v !! l = Some o' /\ handle o' = Some h').
Proof.
  intros Hp Hc.
  destruct (builder_plan_ok native n_lock n_adj n_block n_blocked n_pass n_rejects
    driver p key a Hp) as [kind [Hsteps Hk]].
  set (q := withAccount a p) in *. set (t := task_view driver q) in *.
  assert (no_new_leak (newTask v) (snd (executeBody q t (newTask v))) /\
    pending_ok (snd (executeBody q t (newTask v)))) as [Hl Hok].
  { unfold executeBody. refine (let '(conj H1 (conj H2 _)) := _ in conj H1 H2).
    apply (safe_bind_same (fun _ => False)); [done|apply same_callHook|].
    intros [x err] s1 Hs1.
    assert (pending s1 = None) by (by destruct Hs1 as (_ & _ & ->)).
    destruct err; [split_and!; [by intros l|by apply none_pending_ok|done]|].
    apply safe_bind_same; [by apply none_pending_ok|apply same_modify; intros ?; by split_and!|].
    intros _ s2 Hs2. eapply (runSteps_safe native n_lock n_adj n_block n_blocked n_pass n_rejects);
      [done|exact Hsteps|exact Hk|]. by destruct Hs2 as (_ & _ & ->). }
  destruct (executeBody q t (newTask v)) as [o s1] eqn:Ebody; cbn in Hl, Hok.
  destruct (recoverRun_post o s1) as (sa & Ea & _).
  assert (same_handles s1 sa) as Hsa.
  { destruct o; cbn in Ea; injection Ea as <-; by split_and!. }
  assert (pending_ok sa) as Hoka by by eapply same_pending_ok.
  destruct (settlePending_closes native Hc sa Hoka) as (sb & Eb & _).
  pose proof (tail_same q sb) as Htail.
  destruct (execute_post native n_lock n_adj n_block n_blocked n_pass n_rejects
    q t kind v (conj Hsteps Hk)) as (? & ? & ? & ? & s' & _ & _ & _ & _ & _ & _ & _ & _ &
      _ & _ & Hex & _).
  exists s'. split; [exact Hex|].
  assert (s' = snd ((markRetryUnsafe ;;; runFinally q ;;; resolve) sb)) as ->.
  { unfold execute in Hex. unfold bind at 1, recovering in Hex. rewrite Ebody in Hex.
    erewrite bind_Ret in Hex by exact Ea. erewrite bind_Ret in Hex by exact Eb.
    by rewrite Hex. }
  intros l ob h Hob Hh. destruct Htail as (Hheap & _). rewrite Hheap in Hob.
  destruct (Hl l) as [Hopen _]; [|exact Hopen].
  apply (same_no_leak _ _ Hsa). eapply settled_open; [exact Hc|exact Hoka|exact Eb|].
  by exists ob, h.
Qed.

Abbreviation view := (taskView (U := U) (Reject := Reject)
  (PostTrade := PostTrade) (Adjustment := Adjustment) (Batch := Batch)
  (PnlState := PnlState) (Config := Config)).
Abbreviation St := (st (State := State) (U := U)).

(** C4: what a chain does with a reservation it obtained is what the reserved
    hook decided: the hook reads the live operation, and the step with the
    deferred roll back makes exactly a native commit and a destroy when the hook
    returns Commit without an error, and exactly a native rollback and a destroy
    when it returns anything else, returns an error, or panics. A commit that
    panics is not rolled back. *)
Theorem pretrade_step_follows_decision hooks (t : view) x (s : St) o h f u1 :
  cleanup_returns native -> pending s = None -> t_order t = Some o ->
  pt_OnReserved hooks = Some f ->
  d_ExecutePreTrade (t_driver t) o (ext (w s))
    = (Ret (Some (mkObj (Some h) false), [], None), u1) ->
  exists view s',
    (forall u, or_Lock view u = inl (n_lock KReservation h u)) /\
    (recovering (executePreTrade native n_lock n_adj hooks t x) ;;; settlePending native) s
      = (Ret tt, s') /\
    calls (w s') = calls (w s) ++
      [match fst (f x view u1) with
       | Ret (DecisionCommit, None) => NCommit KReservation h
       | _ => NRollback KReservation h
       end; NDestroy KReservation h].
Proof.
  intros Hc Hp Ht Hf Hd. set (l := fresh (dom (heap (w s)))).
  set (s3 := taken reservationFinalizer h DExecutePreTrade u1 s).
  assert (heap (w s3) !! l = Some (mkObj (Some h) false)) as Hl
    by (cbn; by rewrite lookup_insert_eq).
  set (call := fun r => let* view := gets (reservationOperationResult (State := State) n_lock n_adj r) in
    callHook HOnReserved ((fun f => f x view) <$> pt_OnReserved hooks)).
  set (view := reservationOperationResult n_lock n_adj (fresh (dom (results s3)))
    (snd (newResult l s3))).
  destruct (settled_run native Hc (executePreTrade native n_lock n_adj hooks t x) s
    (calls (w s) ++ decided KReservation h (fst (f x view u1)))) as (s' & E & Hcalls).
  2: { exists view, s'. split; [|by split].
       intros u. by apply (readResult_live _ (n_lock KReservation)). }
  assert (executePreTrade native n_lock n_adj hooks t x s
    = handed_rest (Reject := Reject) "async chain execute pre-trade"
        "async chain reject hook" [] None
        (callHook HOnRejected ((fun f => f x []) <$> pt_OnRejected hooks))
        (fun l => resolveAccepted native l "async chain reserved hook" call) (Some l) s3) as ->.
  { unfold executePreTrade, bind at 1; cbn [setRetryUnsafe modify]. rewrite Ht.
    unfold bind at 1; cbn [deref ret]. unfold bind at 1, callDriver, outside, onWorld, bind at 1.
    cbn [emit modify ext w]. rewrite Hd. reflexivity. }
  unfold s3, l. rewrite handed_rest_taken. fold l. fold s3.
  pose proof (resolveAccepted_settles native Hc l "async chain reserved hook" call s3
    (reservationFinalizer l) h) as H.
  assert (fst (call (fresh (dom (results s3))) (snd (newResult l s3))) = fst (f x view u1)) as Hcall.
  { unfold call, bind, gets. fold view. rewrite Hf. cbn.
    unfold outside, onWorld; cbn. by destruct (f x view u1). }
  rewrite Hcall in H. apply H; try done.
  - intros r. apply same_hook_on_view.
  - intros r s'. unfold call, bind, gets. rewrite Hf. cbn. unfold outside, onWorld; cbn.
    match goal with |- context [f x ?v ?u] => by destruct (f x v u) end.
Qed.
End Theorems.

(** ** Witnesses

    Handle 4 is one whose native commit panics. *)
Definition crash_start : world nat := mkWorld ∅ [] 4.

Lemma demo_cleanup_returns : cleanup_returns demo_native.
Proof. intros [] u; by try eexists. Qed.

Lemma chain_leaves_no_open_handle_witness :
  let q := withAccount {| acc_native := 5 |} demo_plan in
  calls (w (snd (execute demo_native q (task_view demo_driver q) (newTask crash_start))))
    = [NCommit KReservation 4; NDestroy KReservation 4] /\
  exists s, execute demo_native q (task_view demo_driver q) (newTask crash_start)
      = (Ret tt, s) /\
    (forall l o h, heap (w s) !! l = Some o -> handle o = Some h ->
       exists o' h', heap crash_start !! l = Some o' /\ handle o' = Some h').
Proof.
  split; [vm_compute; reflexivity|].
  apply (chain_leaves_no_open_handle demo_native demo_lock demo_list demo_list demo_bool
    demo_bool demo_rejects demo_driver demo_plan demo_key);
    [exact demo_plan_built|exact demo_cleanup_returns].
Defined.

Definition demo_hooks (d : Decision) :
    PreTradeHooks (State := nat) (U := nat) (Reject := nat) (Lock := nat) (Adj := nat) :=
  {| pt_OnRejected := Some (fun _ _ u => (Ret None, u));
     pt_OnReserved := Some (fun _ _ u => (Ret (d, None), u)) |}.

Lemma pretrade_step_follows_decision_witness :
  let t := task_view demo_driver demo_plan in
  exists (view : OperationResult (U := nat) (Lock := nat) (Adj := nat)) s',
    (forall u, or_Lock view u = inl (demo_lock KReservation 4 u)) /\
    (recovering (executePreTrade demo_native demo_lock demo_list
       (demo_hooks DecisionRollback) t 3) ;;; settlePending demo_native)
      (newTask crash_start) = (Ret tt, s') /\
    calls (w s') = calls crash_start ++
      [match fst (ret (DecisionRollback, @None error) 5) with
       | Ret (DecisionCommit, None) => NCommit KReservation 4
       | _ => NRollback KReservation 4
       end; NDestroy KReservation 4].
Proof.
  apply (pretrade_step_follows_decision demo_native demo_lock demo_list
    (demo_hooks DecisionRollback) (task_view demo_driver demo_plan) 3 (newTask crash_start)
    demo_order 4 (fun _ _ u => (Ret (DecisionRollback, None), u)) 5);
    [exact demo_cleanup_returns|reflexivity..].
Defined.
