(* ===== verification/Engine.v ===== *)
(** * The engine: calls, tasks and handles

    [AsyncEngine] and [AsyncAccounts] of asyncengine/engine.go, and the follow-up
    handles of asyncengine/request.go, reservation.go and drop_copy_operation.go.
    A public method prepares a task and a routing key, or refuses at once; the
    task runs on its lane, or is aborted, or its submit fails and, for a call that
    owes a release, a cleanup runs on the lane in its place. Futures are logged
    resolutions, so that resolving twice or never is visible. *)
From Stdlib Require Import ZArith Lia.
From stdpp Require Import base list gmap strings.
From S2P Require Import Prelude GoRuntime Routing Handles EngineBase ChainModel.

(** The calls a lifetime wrapper forwards: [reservationOp] and
    [dropCopyOperationOp] are the five [pendingOp]s. *)
Definition closes (op : pendingOp) : bool :=
  match op with OpCommitAndClose | OpRollbackAndClose | OpClose => true | _ => false end.

Section Engine.
Context {U Reject PostTrade Adjustment Batch PnlState Config Cause : Type}.
Context (native : nativeCall -> U -> outcome unit * U).
Context (execute_native : nat -> U -> Request.executeResult (list Reject)).

(** The part of [Driver] the engine calls besides what chains call. *)
Record EngineDriver := {
  d_chain : Driver (U := U) (Reject := Reject) (PostTrade := PostTrade)
    (Adjustment := Adjustment) (Batch := Batch) (PnlState := PnlState) (Config := Config);
  d_StartPreTrade : Order -> ext_call (U := U) (handed (Reject := Reject));
  d_GroupOf : AccountID -> ext_call (U := U) (option AccountGroupID);
  d_BlockWithCause : AccountID -> Cause -> ext_call (U := U) (option error);
  d_UnblockAll : ext_call (U := U) unit;
  d_ReplaceBlockReason : AccountID -> string -> ext_call (U := U) (option error);
  d_ReplaceGroupBlockReason : AccountGroupID -> string -> ext_call (U := U) (option error);
}.
Context (driver : EngineDriver).

(** What a future is resolved with. [VHandle] is a new [AsyncRequest],
    [AsyncReservation] or [AsyncDropCopyOperation] around the object at [l],
    pinned to account [a]; [VZero] is the zero value of the future's type. *)
Inductive value :=
| VZero
| VHandle (k : handleKind) (l : nat) (a : AccountID)
| VRejects (rs : list Reject)
| VPostTrade (r : PostTrade)
| VBatch (r : Batch)
| VGroup (g : option AccountGroupID).
Definition answer : Type := value * option error.

(** The tasks, with the fields they carry besides the future and the engine. *)
Inductive task :=
| startPreTradeTask (order : Order) (accountID : AccountID)
| executePreTradeTask (order : Order) (accountID : AccountID)
| applyDropCopyTask (order : Order) (accountID : AccountID)
| applyReportTask (report : ExecutionReport)
| applyAdjustmentTask (accountID : AccountID) (adjustments : list Adjustment)
| groupOfTask (account : AccountID)
| blockTask (account : AccountID) (reason : string)
| blockWithCauseTask (account : AccountID) (cause : Cause)
| unblockTask (account : AccountID)
| unblockAllTask
| replaceBlockReasonTask (account : AccountID) (reason : string)
| blockGroupTask (group : AccountGroupID) (reason : string)
| unblockGroupTask (group : AccountGroupID)
| replaceGroupBlockReasonTask (group : AccountGroupID) (reason : string)
| submitTask (fn : ext_call (U := U) (option error))
| executeRequestTask (req : nat) (accountID : AccountID)
| closeRequestTask (req : nat)
| reservationTask (res : nat) (op : pendingOp) (abortCloses : bool)
| dropCopyOperationTask (operation : nat) (op : pendingOp) (abortCloses : bool).

(** The state: the process, and the resolutions of futures in order. *)
Record est := mkEst { ew : world U; resolutions : list (nat * answer) }.
Abbreviation E := (M est).

Definition onProcess {A} (m : M (world U) A) : E A := fun s =>
  let '(o, v) := m (ew s) in (o, mkEst v (resolutions s)).
Definition call_out {A} (f : ext_call (U := U) A) : E A :=
  onProcess (fun v => let '(o, u) := f (ext v) in (o, mkWorld (heap v) (calls v) u)).
Definition resolveF (f : nat) (v : value) (e : option error) : E unit :=
  modify (fun s => mkEst (ew s) (resolutions s ++ [(f, (v, e))])).

(** The object a driver hands out becomes an object of the heap. *)
Definition takeOver (o : option handleObj) : E (option nat) :=
  match o with
  | None => ret None
  | Some o =>
    onProcess (fun v => let l := fresh (dom (heap v)) in
      (Ret (Some l), mkWorld (<[l := o]> (heap v)) (calls v) (ext v)))
  end.

Definition closeObject (k : handleKind) (l : nat) : E unit :=
  onProcess (match k with
             | KReservation => Reservation.Close native l
             | KDropCopy => DropCopyOperation.Close native l
             | KRequest => Request.Close native l
             | KDryRun => DryRunReport.Close native l
             end).

(** [resolveReservationDriverResult], and the same statements in the [run] of
    [startPreTradeTask] and [applyDropCopyTask]. *)
Definition resolveDriverResult (k : handleKind) (f : nat) (object : option nat)
    (rejects : list Reject) (err : option error) (a : AccountID) : E unit :=
  let* live := match object with
               | None => ret false
               | Some l => let* c := onProcess (isClosed l) in ret (negb c)
               end in
  match validateDriverResult (bool_decide (is_Some object)) live (length rejects) err with
  | Some shapeErr =>
    match object with Some l => closeObject k l | None => ret tt end ;;;
    resolveF f VZero (Some shapeErr)
  | None =>
    match err with
    | Some e => resolveF f VZero (Some e)
    | None =>
      if 0 <? length rejects then resolveF f (VRejects rejects) None
      else match object with
           | Some l => resolveF f (VHandle k l a) None
           | None => resolveF f VZero None
           end
    end
  end.

Definition runDriverTask (k : handleKind) (f : nat)
    (m : ext_call (U := U) (handed (Reject := Reject))) (a : AccountID) : E unit :=
  let* (o, rejects, err) := call_out m in
  let* object := takeOver o in
  resolveDriverResult k f object rejects err a.

(** [AsyncRequest.closeInner] and [executeInner]: the call under a deferred
    close. *)
Definition closeInner (req : nat) : E unit := closeObject KRequest req.
Definition executeInner (req : nat) : E (option nat * option (list Reject) * option error) :=
  deferred (closeInner req) (onProcess (Request.Execute native execute_native req)).

(** The finalizer of a wrapper; [AsyncHandle] has its protocol with readers. *)
Definition runInner (k : handleKind) (l : nat) (op : pendingOp) : E unit :=
  onProcess (run_op native k op l).

(** *** [run] of each task, for future [f] *)
Definition startPreTradeTask_run (f : nat) (o : Order) (a : AccountID) : E unit :=
  runDriverTask KRequest f (d_StartPreTrade driver o) a.
Definition executePreTradeTask_run (f : nat) (o : Order) (a : AccountID) : E unit :=
  runDriverTask KReservation f (d_ExecutePreTrade (d_chain driver) o) a.
Definition applyDropCopyTask_run (f : nat) (o : Order) (a : AccountID) : E unit :=
  runDriverTask KDropCopy f (d_ApplyDropCopy (d_chain driver) o) a.
Definition applyReportTask_run (f : nat) (r : ExecutionReport) : E unit :=
  let* (result, err) := call_out (d_ApplyExecutionReport (d_chain driver) r) in
  resolveF f (VPostTrade result) err.
Definition applyAdjustmentTask_run (f : nat) (a : AccountID) (l : list Adjustment) : E unit :=
  let* (result, err) := call_out (d_ApplyAccountAdjustment (d_chain driver) a l) in
  resolveF f (VBatch result) err.
Definition groupOfTask_run (f : nat) (a : AccountID) : E unit :=
  let* g := call_out (d_GroupOf driver a) in resolveF f (VGroup g) None.
Definition blockTask_run (f : nat) (a : AccountID) (reason : string) : E unit :=
  call_out (d_Block (d_chain driver) a reason) ;;; resolveF f VZero None.
Definition blockWithCauseTask_run (f : nat) (a : AccountID) (cause : Cause) : E unit :=
  let* err := call_out (d_BlockWithCause driver a cause) in resolveF f VZero err.
Definition unblockTask_run (f : nat) (a : AccountID) : E unit :=
  call_out (d_Unblock (d_chain driver) a) ;;; resolveF f VZero None.
Definition unblockAllTask_run (f : nat) : E unit :=
  call_out (d_UnblockAll driver) ;;; resolveF f VZero None.
Definition replaceBlockReasonTask_run (f : nat) (a : AccountID) (reason : string) : E unit :=
  let* err := call_out (d_ReplaceBlockReason driver a reason) in resolveF f VZero err.
Definition blockGroupTask_run (f : nat) (g : AccountGroupID) (reason : string) : E unit :=
  let* err := call_out (d_BlockGroup (d_chain driver) g reason) in resolveF f VZero err.
Definition unblockGroupTask_run (f : nat) (g : AccountGroupID) : E unit :=
  let* err := call_out (d_UnblockGroup (d_chain driver) g) in resolveF f VZero err.
Definition replaceGroupBlockReasonTask_run (f : nat) (g : AccountGroupID)
    (reason : string) : E unit :=
  let* err := call_out (d_ReplaceGroupBlockReason driver g reason) in resolveF f VZero err.
Definition submitTask_run (f : nat) (fn : ext_call (U := U) (option error)) : E unit :=
  let* err := call_out fn in resolveF f VZero err.
Definition executeRequestTask_run (f : nat) (req : nat) (a : AccountID) : E unit :=
  let* (object, rejects, err) := executeInner req in
  resolveDriverResult KReservation f object (default [] rejects) err a.
Definition closeRequestTask_run (f : nat) (req : nat) : E unit :=
  closeInner req ;;; resolveF f VZero None.
Definition reservationTask_run (f : nat) (l : nat) (op : pendingOp) : E unit :=
  runInner KReservation l op ;;; resolveF f VZero None.
Definition dropCopyOperationTask_run (f : nat) (l : nat) (op : pendingOp) : E unit :=
  runInner KDropCopy l op ;;; resolveF f VZero None.

Definition run_task (f : nat) (t : task) : E unit :=
  match t with
  | startPreTradeTask o a => startPreTradeTask_run f o a
  | executePreTradeTask o a => executePreTradeTask_run f o a
  | applyDropCopyTask o a => applyDropCopyTask_run f o a
  | applyReportTask r => applyReportTask_run f r
  | applyAdjustmentTask a l => applyAdjustmentTask_run f a l
  | groupOfTask a => groupOfTask_run f a
  | blockTask a reason => blockTask_run f a reason
  | blockWithCauseTask a cause => blockWithCauseTask_run f a cause
  | unblockTask a => unblockTask_run f a
  | unblockAllTask => unblockAllTask_run f
  | replaceBlockReasonTask a reason => replaceBlockReasonTask_run f a reason
  | blockGroupTask g reason => blockGroupTask_run f g reason
  | unblockGroupTask g => unblockGroupTask_run f g
  | replaceGroupBlockReasonTask g reason => replaceGroupBlockReasonTask_run f g reason
  | submitTask fn => submitTask_run f fn
  | executeRequestTask req a => executeRequestTask_run f req a
  | closeRequestTask req => closeRequestTask_run f req
  | reservationTask l op _ => reservationTask_run f l op
  | dropCopyOperationTask l op _ => dropCopyOperationTask_run f l op
  end.

(** *** [abort] of each task *)
Definition abort_zero (f : nat) (err : error) : E unit := resolveF f VZero (Some err).
Definition request_abort (f : nat) (req : nat) (err : error) : E unit :=
  closeInner req ;;; resolveF f VZero (Some err).
Definition reservationTask_abort (f : nat) (l : nat) (abortCloses : bool) (err : error) : E unit :=
  (if abortCloses then runInner KReservation l OpClose else ret tt) ;;;
  resolveF f VZero (Some err).
Definition dropCopyOperationTask_abort (f : nat) (l : nat) (abortCloses : bool) (err : error)
  : E unit :=
  (if abortCloses then runInner KDropCopy l OpClose else ret tt) ;;;
  resolveF f VZero (Some err).

Definition abort_task (f : nat) (t : task) (err : error) : E unit :=
  match t with
  | executeRequestTask req _ | closeRequestTask req => request_abort f req err
  | reservationTask l _ abortCloses => reservationTask_abort f l abortCloses err
  | dropCopyOperationTask l _ abortCloses => dropCopyOperationTask_abort f l abortCloses err
  | _ => abort_zero f err
  end.

(** ** Public methods

    A method refuses at once, submits its task, or submits it with a release that
    takes its place on the lane when the submit fails. *)
Inductive prepared :=
| PRefused (e : error)
| PSubmit (key : routingKey) (t : task)
| PHandoff (key : routingKey) (t : task) (cleanup : nat -> error -> E unit).

Definition onOrder (order : Order) (mk : Order -> AccountID -> task) : prepared :=
  match extractOrderAccountID order with
  | inr e => PRefused e
  | inl a => PSubmit (accountRoutingKey a) (mk order a)
  end.
Definition onAccount (a : AccountID) (t : task) : prepared :=
  PSubmit (accountRoutingKey a) t.
Definition onGroup (g : AccountGroupID) (t : task) : prepared :=
  match validateAccountGroupID g with
  | Some e => PRefused e
  | None => PSubmit (groupRoutingKey g) t
  end.

Definition StartPreTrade (order : Order) := onOrder order startPreTradeTask.
Definition ExecutePreTrade (order : Order) := onOrder order executePreTradeTask.
Definition ApplyDropCopy (order : Order) := onOrder order applyDropCopyTask.
Definition ApplyExecutionReport (report : ExecutionReport) : prepared :=
  match extractReportAccountID report with
  | inr e => PRefused e
  | inl a => PSubmit (accountRoutingKey a) (applyReportTask report)
  end.
Definition ApplyAccountAdjustment (a : AccountID) (l : list Adjustment) :=
  onAccount a (applyAdjustmentTask a l).
Definition Submit (a : AccountID) (fn : ext_call (U := U) (option error)) :=
  onAccount a (submitTask fn).
Definition GroupOf (a : AccountID) := onAccount a (groupOfTask a).
Definition Block (a : AccountID) (reason : string) := onAccount a (blockTask a reason).
Definition BlockWithCause (a : AccountID) (cause : Cause) :=
  onAccount a (blockWithCauseTask a cause).
Definition Unblock (a : AccountID) := onAccount a (unblockTask a).
Definition UnblockAll : prepared := PSubmit engineWideRoutingKey unblockAllTask.
Definition ReplaceBlockReason (a : AccountID) (reason : string) :=
  onAccount a (replaceBlockReasonTask a reason).
Definition BlockGroup (g : AccountGroupID) (reason : string) :=
  onGroup g (blockGroupTask g reason).
Definition UnblockGroup (g : AccountGroupID) := onGroup g (unblockGroupTask g).
Definition ReplaceGroupBlockReason (g : AccountGroupID) (reason : string) :=
  onGroup g (replaceGroupBlockReasonTask g reason).

(** Methods of the handles a call returned. *)
Definition RequestExecute (req : nat) (a : AccountID) : prepared :=
  PHandoff (accountRoutingKey a) (executeRequestTask req a)
    (fun f err => closeInner req ;;; resolveF f VZero (Some err)).
Definition RequestClose (req : nat) (a : AccountID) : prepared :=
  PHandoff (accountRoutingKey a) (closeRequestTask req)
    (fun f err => closeInner req ;;; resolveF f VZero (Some err)).
Definition reservationRunVoid (l : nat) (a : AccountID) (op : pendingOp)
    (abortCloses : bool) : prepared :=
  if abortCloses
  then PHandoff (accountRoutingKey a) (reservationTask l op abortCloses)
         (fun f err => runInner KReservation l OpClose ;;; resolveF f VZero (Some err))
  else PSubmit (accountRoutingKey a) (reservationTask l op abortCloses).
Definition dropCopyRunVoid (l : nat) (a : AccountID) (op : pendingOp)
    (abortCloses : bool) : prepared :=
  if abortCloses
  then PHandoff (accountRoutingKey a) (dropCopyOperationTask l op abortCloses)
         (fun f err => runInner KDropCopy l OpClose ;;; resolveF f VZero (Some err))
  else PSubmit (accountRoutingKey a) (dropCopyOperationTask l op abortCloses).
(** [Commit], [CommitAndClose], [Rollback], [RollbackAndClose], [Close]. *)
Definition reservationCall (l : nat) (a : AccountID) (op : pendingOp) : prepared :=
  reservationRunVoid l a op (closes op).
Definition dropCopyCall (l : nat) (a : AccountID) (op : pendingOp) : prepared :=
  dropCopyRunVoid l a op (closes op).

(** What becomes of a prepared call: its submit fails, or its task runs, or its
    task is aborted. *)
Inductive fate := SubmitFails (e : error) | Runs | Aborted (e : error).

Definition settle_call (f : nat) (p : prepared) (x : fate) : E unit :=
  match p, x with
  | PRefused e, _ => resolveF f VZero (Some e)
  | PSubmit _ _, SubmitFails e => resolveF f VZero (Some e)
  | PHandoff _ _ cleanup, SubmitFails e => cleanup f e
  | (PSubmit _ t | PHandoff _ t _), Runs => run_task f t
  | (PSubmit _ t | PHandoff _ t _), Aborted e => abort_task f t e
  end.

Definition key_of (p : prepared) : option routingKey :=
  match p with PRefused _ => None | PSubmit k _ | PHandoff k _ _ => Some k end.

(** The public surface. *)
Inductive engineCall :=
| CStartPreTrade (o : Order) | CExecutePreTrade (o : Order) | CApplyDropCopy (o : Order)
| CApplyExecutionReport (r : ExecutionReport)
| CApplyAccountAdjustment (a : AccountID) (l : list Adjustment)
| CSubmit (a : AccountID) (fn : ext_call (U := U) (option error))
| CGroupOf (a : AccountID) | CBlock (a : AccountID) (reason : string)
| CBlockWithCause (a : AccountID) (cause : Cause) | CUnblock (a : AccountID) | CUnblockAll
| CReplaceBlockReason (a : AccountID) (reason : string)
| CBlockGroup (g : AccountGroupID) (reason : string) | CUnblockGroup (g : AccountGroupID)
| CReplaceGroupBlockReason (g : AccountGroupID) (reason : string)
| CRequestExecute (req : nat) (a : AccountID) | CRequestClose (req : nat) (a : AccountID)
| CReservation (l : nat) (a : AccountID) (op : pendingOp)
| CDropCopy (l : nat) (a : AccountID) (op : pendingOp).

Definition prepare (c : engineCall) : prepared :=
  match c with
  | CStartPreTrade o => StartPreTrade o
  | CExecutePreTrade o => ExecutePreTrade o
  | CApplyDropCopy o => ApplyDropCopy o
  | CApplyExecutionReport r => ApplyExecutionReport r
  | CApplyAccountAdjustment a l => ApplyAccountAdjustment a l
  | CSubmit a fn => Submit a fn
  | CGroupOf a => GroupOf a
  | CBlock a r => Block a r
  | CBlockWithCause a c => BlockWithCause a c
  | CUnblock a => Unblock a
  | CUnblockAll => UnblockAll
  | CReplaceBlockReason a r => ReplaceBlockReason a r
  | CBlockGroup g r => BlockGroup g r
  | CUnblockGroup g => UnblockGroup g
  | CReplaceGroupBlockReason g r => ReplaceGroupBlockReason g r
  | CRequestExecute l a => RequestExecute l a
  | CRequestClose l a => RequestClose l a
  | CReservation l a op => reservationCall l a op
  | CDropCopy l a op => dropCopyCall l a op
  end.

(** ** Stopping *)

(** [stopOnce], and the releases made so far. *)
Record stopper := { stopUnderlying : bool; stopOnce : bool; released : nat }.

Definition releaseUnderlying (s : stopper) : stopper :=
  if stopOnce s then s
  else {| stopUnderlying := stopUnderlying s; stopOnce := true;
          released := released s + (if stopUnderlying s then 1 else 0) |}.
(** [StopGraceful] and [StopHard], given the strategy's answer. *)
Definition stopWith (err : option error) (s : stopper) : option error * stopper :=
  match err with
  | None => (None, releaseUnderlying s)
  | Some e => (Some e, s)
  end.
Fixpoint stops (errs : list (option error)) (s : stopper) : stopper :=
  match errs with [] => s | e :: errs => stops errs (snd (stopWith e s)) end.
End Engine.
