(* ===== verification/EngineFacts.v ===== *)
(** * The engine: what a call guarantees

    Theorems about [Engine]: every call resolves its future exactly once, the
    answer of a call that hands out a handle is exactly one of handle, rejects
    and error, releases happen whatever becomes of the call, follow-up calls stay
    on the lane of their account, and the underlying engine is stopped once. *)
From Stdlib Require Import ZArith Lia.
From stdpp Require Import base list gmap strings.
From S2P Require Import Prelude GoRuntime Routing Handles EngineBase ChainModel ChainRun Engine.

Section Facts.
Context {U Reject PostTrade Adjustment Batch PnlState Config Cause : Type}.
Context (native : nativeCall -> U -> outcome unit * U).
Context (execute_native : nat -> U -> Request.executeResult (list Reject)).
Context (driver : EngineDriver (U := U) (Reject := Reject) (PostTrade := PostTrade)
  (Adjustment := Adjustment) (Batch := Batch) (PnlState := PnlState) (Config := Config)
  (Cause := Cause)).
Abbreviation Est := (est (U := U) (Reject := Reject) (PostTrade := PostTrade) (Batch := Batch)).
Abbreviation Value := (value (Reject := Reject) (PostTrade := PostTrade) (Batch := Batch)).
Abbreviation Task := (task (U := U) (Adjustment := Adjustment) (Cause := Cause)).
Abbreviation Call := (engineCall (U := U) (Adjustment := Adjustment) (Cause := Cause)).

(** ** Resolutions *)

(** [m] resolves nothing. *)
Definition silent {A} (m : M Est A) : Prop := forall s,
  resolutions (snd (m s)) = resolutions s.
(** [m] resolves [f] once, as [P] says, if it returns, and nothing if it
    unwinds. *)
Definition answers (f : nat) (P : Value -> option error -> Prop) (m : M Est unit) : Prop :=
  forall s,
  match m s with
  | (Ret _, s') => exists v e, P v e /\ resolutions s' = resolutions s ++ [(f, (v, e))]
  | (Panic _, s') => resolutions s' = resolutions s
  end.

Lemma silent_ret {A} (a : A) : silent (ret a).
Proof. done. Qed.
Lemma silent_onProcess {A} (m : M (world U) A) : silent (onProcess m).
Proof. intros s. unfold onProcess. by destruct (m (ew s)). Qed.
Lemma silent_bind {A B} (m : M Est A) (k : A -> M Est B) :
  silent m -> (forall a, silent (k a)) -> silent (bind m k).
Proof.
  intros Hm Hk s. specialize (Hm s). unfold bind.
  destruct (m s) as [[a|v] s1]; cbn in *; [|done]. by rewrite (Hk a s1).
Qed.
Lemma silent_deferred {A} d (m : M Est A) : silent d -> silent m -> silent (deferred d m).
Proof.
  intros Hd Hm s. specialize (Hm s). unfold deferred.
  destruct (m s) as [o s1]. specialize (Hd s1).
  destruct (d s1) as [[]s2]; cbn in *; congruence.
Qed.
Lemma silent_takeOver o : silent (takeOver o).
Proof. destruct o; [apply silent_onProcess|done]. Qed.

Lemma answers_resolve f (P : Value -> option error -> Prop) v e :
  P v e -> answers f P (resolveF f v e).
Proof. intros H s. cbn. by exists v, e. Qed.
Lemma answers_bind {A} f P (m : M Est A) k :
  silent m -> (forall a, answers f P (k a)) -> answers f P (bind m k).
Proof.
  intros Hm Hk s. specialize (Hm s). unfold bind.
  destruct (m s) as [[a|v] s1]; cbn in *; [|done]. specialize (Hk a s1).
  destruct (k a s1) as [[]s2]; rewrite <- Hm; done.
Qed.

Ltac silent :=
  repeat first
    [ apply silent_onProcess | apply silent_ret | apply silent_takeOver
    | apply silent_deferred
    | match goal with |- silent (match ?x with _ => _ end) => destruct x end
    | apply silent_bind; [|intros ?] ].
Ltac answers :=
  repeat first
    [ apply answers_resolve | match goal with |- forall _, _ => intros ? end
    | match goal with |- answers _ _ (match ?x with _ => _ end) => destruct x eqn:? end
    | match goal with |- answers _ _ (if ?x then _ else _) => destruct x eqn:? end
    | apply answers_bind; [solve [silent]|] ].

Ltac open_task :=
  unfold
    startPreTradeTask_run, executePreTradeTask_run, applyDropCopyTask_run,
    applyReportTask_run, applyAdjustmentTask_run, groupOfTask_run, blockTask_run,
    blockWithCauseTask_run, unblockTask_run, unblockAllTask_run,
    replaceBlockReasonTask_run, blockGroupTask_run, unblockGroupTask_run,
    replaceGroupBlockReasonTask_run, submitTask_run, executeRequestTask_run,
    closeRequestTask_run, reservationTask_run, dropCopyOperationTask_run, abort_zero,
    request_abort, reservationTask_abort, dropCopyOperationTask_abort, runDriverTask,
    call_out, executeInner, closeInner, closeObject, runInner.

Lemma run_task_answers f (t : Task) :
  answers f (fun _ _ => True) (run_task native execute_native driver f t).
Proof.
  destruct t; cbn; open_task; answers; done.
Qed.

Lemma abort_task_answers f (t : Task) err :
  answers f (fun v e => v = VZero /\ e = Some err) (abort_task native f t err).
Proof.
  destruct t; cbn; open_task; answers; done.
Qed.

Abbreviation Prepared := (prepared (U := U) (Reject := Reject) (PostTrade := PostTrade)
  (Adjustment := Adjustment) (Batch := Batch) (Cause := Cause)).

Abbreviation prep := (prepare (U := U) (Reject := Reject) (PostTrade := PostTrade)
  (Adjustment := Adjustment) (Batch := Batch) (Cause := Cause) native).

(** What a call whose task does not run, or that is refused at once, answers. *)
Definition fair_answer (p : Prepared) (x : fate) (v : Value) (e : option error) : Prop :=
  match key_of p, x with
  | None, _ => v = VZero /\
      (e = Some ErrMissingAccountID \/ e = Some ErrUninitializedAccountGroupID)
  | Some _, Runs => True
  | Some _, (SubmitFails err | Aborted err) => v = VZero /\ e = Some err
  end.

Lemma settle_submit f k t x :
  answers f (fair_answer (PSubmit k t) x)
    (settle_call native execute_native driver f (PSubmit k t) x).
Proof.
  destruct x; cbn; [by apply answers_resolve|apply run_task_answers|apply abort_task_answers].
Qed.
Lemma settle_handoff f k t r x :
  (forall e, answers f (fun v e' => v = VZero /\ e' = Some e) (r f e)) ->
  answers f (fair_answer (PHandoff k t r) x)
    (settle_call native execute_native driver f (PHandoff k t r) x).
Proof.
  intros Hr. destruct x; cbn; [apply Hr|apply run_task_answers|apply abort_task_answers].
Qed.
Lemma settle_refused f e x :
  e = ErrMissingAccountID \/ e = ErrUninitializedAccountGroupID ->
  answers f (fair_answer (PRefused e) x)
    (settle_call native execute_native driver f (PRefused e) x).
Proof. intros [-> | ->]; apply answers_resolve; cbn; auto. Qed.

Lemma onOrder_answers f o mk x :
  answers f (fair_answer (onOrder o mk) x)
    (settle_call native execute_native driver f (onOrder o mk) x).
Proof.
  unfold onOrder. destruct (extractOrderAccountID o) as [a|e] eqn:E; [apply settle_submit|].
  apply settle_refused. left. unfold extractOrderAccountID in E. by repeat case_match; simplify_eq.
Qed.
Lemma onGroup_answers f g t x :
  answers f (fair_answer (onGroup g t) x)
    (settle_call native execute_native driver f (onGroup g t) x).
Proof.
  unfold onGroup, validateAccountGroupID. destruct (grp_initialized g);
    [apply settle_submit|apply settle_refused; auto].
Qed.

(** every call of the engine's public surface resolves its future exactly
    once, whether it is refused at once, its submit fails, its task runs, or its
    task is aborted; only a driver or native panic, which takes the process down,
    leaves it unresolved. A call that is refused, or whose task does not run,
    gives the zero value and the error that stopped it. *)
Theorem engine_call_settles_once (f : nat) (c : Call) (x : fate) s :
  match settle_call native execute_native driver f (prepare native c) x s with
  | (Ret _, s') => exists v e, fair_answer (prepare native c) x v e /\
      resolutions s' = resolutions s ++ [(f, (v, e))]
  | (Panic _, s') => resolutions s' = resolutions s
  end.
Proof.
  revert s. change (answers f (fair_answer (prepare native c) x)
    (settle_call native execute_native driver f (prepare native c) x)).
  destruct c; cbn [prepare]; try apply onOrder_answers; try apply onGroup_answers;
    try apply settle_submit.
  - unfold ApplyExecutionReport. destruct (extractReportAccountID r) as [a|e] eqn:E;
      [apply settle_submit|apply settle_refused; left].
    unfold extractReportAccountID in E. by repeat case_match; simplify_eq.
  - apply settle_handoff. intros e. unfold closeInner, closeObject. by answers.
  - apply settle_handoff. intros e. unfold closeInner, closeObject. by answers.
  - unfold reservationCall, reservationRunVoid. destruct (closes op); [|apply settle_submit].
    apply settle_handoff. intros e. unfold runInner. by answers.
  - unfold dropCopyCall, dropCopyRunVoid. destruct (closes op); [|apply settle_submit].
    apply settle_handoff. intros e. unfold runInner. by answers.
Qed.

(** ** Routing *)

(** The account or group a call is about, when it names one that can be read. *)
Inductive subject := SubAccount (a : AccountID) | SubGroup (g : Z) | SubEngine.
Definition subject_of (c : Call) : option subject :=
  match c with
  | CStartPreTrade o | CExecutePreTrade o | CApplyDropCopy o =>
    match extractOrderAccountID o with inl a => Some (SubAccount a) | inr _ => None end
  | CApplyExecutionReport r =>
    match extractReportAccountID r with inl a => Some (SubAccount a) | inr _ => None end
  | CApplyAccountAdjustment a _ | CSubmit a _ | CGroupOf a | CBlock a _
  | CBlockWithCause a _ | CUnblock a | CReplaceBlockReason a _
  | CRequestExecute _ a | CRequestClose _ a | CReservation _ a _ | CDropCopy _ a _ =>
    Some (SubAccount a)
  | CUnblockAll => Some SubEngine
  | CBlockGroup g _ | CUnblockGroup g | CReplaceGroupBlockReason g _ =>
    if grp_initialized g then Some (SubGroup (grp_native g)) else None
  end.
(** Native ids are 64-bit words. *)
Definition subject_word (c : Call) : Prop :=
  match subject_of c with
  | Some (SubAccount a) => inU 64 (acc_native a)
  | Some (SubGroup g) => inU 64 g
  | _ => True
  end.
Definition subject_key (s : subject) : routingKey :=
  match s with
  | SubAccount a => accountRoutingKey a
  | SubGroup g => {| kind := routingKeyAccountGroup; id := wrapU 64 g |}
  | SubEngine => engineWideRoutingKey
  end.

Lemma key_of_subject c : key_of (prep c) = subject_key <$> subject_of c.
Proof.
  destruct c; cbn; try done;
    unfold StartPreTrade, ExecutePreTrade, ApplyDropCopy, ApplyExecutionReport, onOrder,
      BlockGroup, UnblockGroup, ReplaceGroupBlockReason, onGroup, validateAccountGroupID,
      reservationCall, reservationRunVoid, dropCopyCall, dropCopyRunVoid.
  all: try by destruct (extractOrderAccountID o).
  all: try by destruct (extractReportAccountID r).
  all: try by destruct (grp_initialized g).
  all: by destruct (closes op).
Qed.

(** a call is queued exactly when the account or group it is about can be
    read, and two calls are queued on the same routing key exactly when they are
    about the same account, the same group, or both about the whole engine: no
    two accounts share a key, and an account's and a group's calls never do. *)
Theorem calls_share_a_key_iff_same_subject (c c' : Call) :
  subject_word c -> subject_word c' ->
  (is_Some (key_of (prep c)) <-> is_Some (subject_of c)) /\
  (is_Some (subject_of c) ->
   (key_of (prep c) = key_of (prep c') <-> subject_of c = subject_of c')).
Proof.
  unfold subject_word. rewrite !key_of_subject. intros Hc Hc'. split; [by rewrite fmap_is_Some|].
  intros [s Hs]. rewrite Hs in *. split; [|by intros <-].
  destruct (subject_of c') as [s'|]; [|done]. cbn. intros [= H]. f_equal.
  destruct s as [[a]|g|], s' as [[a']|g'|]; cbn in *; try done; injection H as H;
    rewrite !wrapU_small in H by done; by subst.
Qed.

(** ** Follow-up calls *)

(** The calls on the handle around the object at [l], made for account [a]. *)
Definition follow_up (l : nat) (a : AccountID) (c : Call) : Prop :=
  match c with
  | CRequestExecute l' a' | CRequestClose l' a' | CReservation l' a' _ | CDropCopy l' a' _ =>
    l' = l /\ a' = a
  | _ => False
  end.

(** The account a task's handle is pinned to. *)
Definition owner (t : Task) : option AccountID :=
  match t with
  | startPreTradeTask _ a | executePreTradeTask _ a | applyDropCopyTask _ a
  | executeRequestTask _ a => Some a
  | _ => None
  end.
Definition owned (t : Task) (v : Value) (_ : option error) : Prop :=
  forall k l a, v = VHandle k l a -> owner t = Some a.

Lemma answers_weaken f (P Q : Value -> option error -> Prop) m :
  (forall v e, P v e -> Q v e) -> answers f P m -> answers f Q m.
Proof.
  intros H Hm s. specialize (Hm s). destruct (m s) as [[]s']; [|done].
  destruct Hm as (v & e & HP & Hr). exists v, e. auto.
Qed.

Lemma run_task_owned f t :
  answers f (owned t) (run_task native execute_native driver f t).
Proof.
  destruct t; cbn; open_task; answers; intros k' l' a' E; cbn in *; by simplify_eq.
Qed.

Lemma settle_owned f (p : Prepared) x t :
  (exists k, p = PSubmit k t) \/
  (exists k r, p = PHandoff k t r /\ forall e, answers f (fun v _ => v = VZero) (r f e)) ->
  answers f (owned t) (settle_call native execute_native driver f p x).
Proof.
  intros H.
  assert (forall m, answers f (fun v _ => v = VZero) m -> answers f (owned t) m) as Hz.
  { intros m. apply answers_weaken. by intros v e -> k l a. }
  destruct H as [[k ->]|(k & r & -> & Hr)]; destruct x; cbn.
  all: try apply run_task_owned.
  all: apply Hz; try by apply answers_resolve.
  all: try apply Hr.
  all: eapply answers_weaken; [|apply abort_task_answers]; by intros v e' [-> _].
Qed.

(** The task a call submits, if it is not refused. *)
Definition task_of (p : Prepared) : option Task :=
  match p with PRefused _ => None | PSubmit _ t | PHandoff _ t _ => Some t end.

Lemma call_owned f (c : Call) x t :
  task_of (prep c) = Some t ->
  answers f (owned t) (settle_call native execute_native driver f (prep c) x) /\
  (forall a, owner t = Some a -> subject_of c = Some (SubAccount a)).
Proof.
  intros Ht. split.
  - apply settle_owned. destruct (prep c) as [e|k t'|k t' r] eqn:E; cbn in Ht; simplify_eq;
      [left; by eexists|right; exists k, r; split; [done|]].
    intros e. destruct c; cbn in E; try done;
      unfold StartPreTrade, ExecutePreTrade, ApplyDropCopy, ApplyExecutionReport, onOrder,
        BlockGroup, UnblockGroup, ReplaceGroupBlockReason, onGroup, onAccount, RequestExecute,
        RequestClose, reservationCall, reservationRunVoid, dropCopyCall, dropCopyRunVoid in E;
      repeat case_match; simplify_eq;
      unfold closeInner, closeObject, runInner; by answers.
  - intros a Ha. destruct c; cbn in Ht |- *;
      unfold StartPreTrade, ExecutePreTrade, ApplyDropCopy, ApplyExecutionReport, onOrder,
        BlockGroup, UnblockGroup, ReplaceGroupBlockReason, onGroup, onAccount,
        reservationCall, reservationRunVoid, dropCopyCall, dropCopyRunVoid in Ht;
      repeat case_match; cbn in Ht; simplify_eq; cbn in Ha; by simplify_eq.
Qed.

(** a handle stays on the lane of the call that produced it: when a call
    answers with an AsyncRequest, AsyncReservation or AsyncDropCopyOperation, the
    handle is pinned to the account the call was routed by, and every later call
    on the handle is submitted under the very same routing key. *)
Theorem follow_ups_stay_on_the_lane f (c : Call) x s s' k l a e :
  settle_call native execute_native driver f (prep c) x s = (Ret tt, s') ->
  resolutions s' = resolutions s ++ [(f, (VHandle k l a, e))] ->
  key_of (prep c) = Some (accountRoutingKey a) /\
  forall c', follow_up l a c' -> key_of (prep c') = key_of (prep c).
Proof.
  intros Hrun Hres.
  assert (key_of (prep c) = Some (accountRoutingKey a)) as Hk.
  { rewrite key_of_subject. destruct (task_of (prep c)) as [t|] eqn:Ht.
    - destruct (call_owned f c x t Ht) as [H1 H2]. specialize (H1 s). rewrite Hrun in H1.
      destruct H1 as (v & e' & Hv & Hr). rewrite Hr in Hres. simplify_list_eq.
      by rewrite (H2 a (Hv k l a eq_refl)).
    - pose proof (engine_call_settles_once f c x s) as H. rewrite Hrun in H.
      destruct H as (v & e' & Hf & Hr). rewrite Hr in Hres. simplify_list_eq.
      unfold fair_answer in Hf. destruct (prep c); by try destruct Hf. }
  split; [done|]. intros c' Hc'. rewrite Hk, key_of_subject.
  destruct c'; cbn in Hc'; try done; by destruct Hc' as [-> ->].
Qed.

(** ** Handles *)

Definition opens (s : Est) (l : nat) : Prop :=
  exists o h, heap (ew s) !! l = Some o /\ handle o = Some h.

Lemma closeObject_post k l (s : Est) o :
  destroy_returns native -> heap (ew s) !! l = Some o ->
  exists v o', closeObject native k l s = (Ret tt, mkEst v (resolutions s)) /\
    heap v = <[l := o']> (heap (ew s)) /\ handle o' = None.
Proof.
  intros Hd Ho. unfold closeObject, onProcess.
  destruct k; unfold Reservation.Close, Reservation.close, DropCopyOperation.Close,
    DropCopyOperation.close, Request.Close, DryRunReport.Close, closePending, closeView,
    load, store, ncall, modify, bind, ret; rewrite Ho.
  all: destruct (handle o) as [h|] eqn:Hh;
    [|exists (ew s), o; rewrite insert_id by done; by destruct s].
  all: match goal with |- context [NDestroy ?k ?h] =>
    destruct (Hd k h (ext (ew s))) as [u' ->] end; by eexists _, _.
Qed.

(** Exactly one of a live handle pinned to [a], a non-empty reject list and an
    error. *)
Definition one_answer (k : handleKind) (a : AccountID) (s : Est) (v : Value)
    (e : option error) : Prop :=
  (exists l, v = VHandle k l a /\ e = None /\ opens s l) \/
  (exists rs, v = VRejects rs /\ rs <> [] /\ e = None) \/
  (v = VZero /\ is_Some e).

Lemma resolveDriverResult_post k f object rejects err a (s : Est) :
  destroy_returns native ->
  (forall l, object = Some l -> is_Some (heap (ew s) !! l)) ->
  exists s' v e, resolveDriverResult native k f object rejects err a s = (Ret tt, s') /\
    resolutions s' = resolutions s ++ [(f, (v, e))] /\ one_answer k a s' v e /\
    forall l, opens s' l -> opens s l /\ (object = Some l -> v = VHandle k l a /\ e = None).
Proof.
  intros Hd Hob. unfold resolveDriverResult.
  assert (exists live, (match object with
      | None => ret false
      | Some l => let* c := onProcess (isClosed l) in ret (negb c)
      end) s = (Ret live, s) /\
    (live = true <-> exists l, object = Some l /\ opens s l)) as (live & El & Hl).
  { destruct object as [l|]; [|exists false; split; [done|]; split; [done|by intros (? & ? & _)]].
    destruct (Hob l eq_refl) as [o Ho]. exists (negb (bool_decide (handle o = None))).
    split; [unfold onProcess, isClosed, load, bind, ret; rewrite Ho; by destruct s|].
    unfold opens. case_bool_decide as Hc; cbn; split; try done.
    - intros (l' & [= <-] & o' & h & Ho' & Hh). by simplify_eq.
    - intros _. destruct (handle o) as [h|] eqn:Hh; [|done].
      exists l. split; [done|]. by exists o, h. }
  erewrite bind_Ret by exact El.
  destruct (validateDriverResult _ live _ err) as [shape|] eqn:Ev.
  - assert (is_Some (Some shape)) by by eexists.
    destruct object as [l|].
    + destruct (Hob l eq_refl) as [o Ho].
      destruct (closeObject_post k l s o Hd Ho) as (v & o' & Ec & Hv & Hn).
      erewrite bind_Ret by exact Ec. eexists _, VZero, _. split; [reflexivity|].
      split; [done|]. split; [by right; right|]. intros l' (ob & h & Hb & Hh). cbn in Hb.
      rewrite Hv in Hb. destruct (decide (l = l')) as [<-|];
        [rewrite lookup_insert_eq in Hb; by simplify_eq|].
      rewrite lookup_insert_ne in Hb by done. split; [by exists ob, h|congruence].
    + eexists _, VZero, _. split; [reflexivity|]. split; [done|]. split; [by right; right|]. done.
  - unfold validateDriverResult in Ev. destruct err as [e|].
    { exists (mkEst (ew s) (resolutions s ++ [(f, (VZero, Some e))])), VZero, (Some e).
      split; [done|]. split; [done|]. split; [by right; right|].
      intros l Hop. split; [done|]. intros ->. exfalso. destruct live; cbn in Ev.
      + by destruct (0 <? length rejects).
      + done. }
    destruct (0 <? length rejects) eqn:Er.
    { exists (mkEst (ew s) (resolutions s ++ [(f, (VRejects rejects, None))])),
        (VRejects rejects), None.
      split; [done|]. split; [done|]. split; [right; left; exists rejects; by destruct rejects|].
      intros l Hop. split; [done|]. intros ->. exfalso. by destruct live. }
    destruct live; [|by destruct (bool_decide _)].
    destruct (proj1 Hl eq_refl) as (l & -> & Hop).
    exists (mkEst (ew s) (resolutions s ++ [(f, (VHandle k l a, None))])), (VHandle k l a), None.
    split; [done|]. split; [done|]. split; [left; by exists l|].
    intros l' Hop'. split; [done|]. by intros [= ->].
Qed.

(** What a call that may hand an object out leaves: the object, if any, is in the
    heap, and no other object is newly open. *)
Definition hands_out (s : Est)
    (r : outcome (option nat * option (list Reject) * option error) * Est) : Prop :=
  resolutions (snd r) = resolutions s /\
  (forall l, opens (snd r) l ->
     opens s l \/ exists rs e, fst r = Ret (Some l, rs, e)) /\
  (forall l rs e, fst r = Ret (Some l, rs, e) -> is_Some (heap (ew (snd r)) !! l)).

Lemma hands_nothing s v rs e :
  heap v = heap (ew s) -> hands_out s (Ret (None, rs, e), mkEst v (resolutions s)).
Proof.
  intros Hh. split_and!; [done| |by intros].
  intros l (o & h & Ho & Hoh). cbn in Ho. rewrite Hh in Ho. left. by exists o, h.
Qed.

Lemma execute_hands_out req (s : Est) :
  hands_out s (onProcess (Request.Execute native execute_native req) s) /\
  (is_Some (heap (ew s) !! req) ->
   is_Some (heap (ew (snd (onProcess (Request.Execute native execute_native req) s))) !! req)) /\
  (forall rs e, fst (onProcess (Request.Execute native execute_native req) s)
     <> Ret (Some req, rs, e) \/ heap (ew s) !! req = None).
Proof.
  unfold onProcess, Request.Execute, load, ncall, gets, newFromHandle, bind.
  destruct (heap (ew s) !! req) as [o|] eqn:Ho.
  2: { cbn. split_and!; try done; [|by intros; right].
       split_and!; [done|by left|done]. }
  destruct (handle o) as [h|]; [|cbn; split_and!; [by apply hands_nothing|by rewrite Ho|by left]].
  cbn. destruct (native (NExecute h) (ext (ew s))) as [[[]|pv] u'].
  2: { cbn. rewrite Ho. split_and!; [|done|by left]. split_and!; [done|by left|done]. }
  destruct (execute_native h (ext (ew s))) as [e|[rs|e]|rh]; cbn.
  1-3: rewrite Ho; split_and!; [by apply hands_nothing|done|by left].
  set (l := fresh _).
  assert (l <> req) as Hne.
  { intros E. assert (l ∉ dom (heap (ew s))) as Hf by apply is_fresh.
    rewrite E in Hf. apply Hf, elem_of_dom. by eexists. }
  split_and!; [|by rewrite lookup_insert_ne, Ho|by left; intros [= E]].
  split_and!; cbn; [done| |by intros ? ? ? [= <- <- <-]; rewrite lookup_insert_eq].
  intros l' (o' & h' & Ho' & Hh'). cbn in Ho'. destruct (decide (l = l')) as [<-|];
    [right; by eexists _, _|]. rewrite lookup_insert_ne in Ho' by done. left. by exists o', h'.
Qed.

(** [executeInner] closes the request on every way out. *)
Lemma executeInner_hands_out req (s : Est) :
  destroy_returns native -> is_Some (heap (ew s) !! req) ->
  hands_out s (executeInner native execute_native req s) /\
  ~ opens (snd (executeInner native execute_native req s)) req /\
  (forall rs e, fst (executeInner native execute_native req s) <> Ret (Some req, rs, e)).
Proof.
  intros Hd Hreq. unfold executeInner, deferred.
  destruct (execute_hands_out req s) as ((Hr & Hop & Hin) & Hkeep & Hne).
  destruct (onProcess (Request.Execute native execute_native req) s) as [out s1].
  cbn in Hr, Hop, Hin, Hkeep, Hne. destruct (Hkeep Hreq) as [o Ho].
  destruct (closeObject_post KRequest req s1 o Hd Ho) as (v & o' & Ec & Hv & Hn).
  unfold closeInner. rewrite Ec. cbn [fst snd]. split_and!.
  - split_and!; cbn; [done| |].
    + intros l (ob & h & Hb & Hh). cbn in Hb. rewrite Hv in Hb. apply Hop.
      destruct (decide (req = l)) as [<-|]; [rewrite lookup_insert_eq in Hb; by simplify_eq|].
      rewrite lookup_insert_ne in Hb by done. by exists ob, h.
    + intros l rs e E. rewrite Hv. destruct (decide (req = l)) as [<-|];
        [rewrite lookup_insert_eq; by eexists|].
      rewrite lookup_insert_ne by done. by eapply Hin.
  - intros (ob & h & Hb & Hh). cbn in Hb. rewrite Hv, lookup_insert_eq in Hb. by simplify_eq.
  - intros rs e. destruct (Hne rs e) as [H|H]; [done|]. by rewrite H in Hreq; destruct Hreq.
Qed.

Lemma driver_hands_out (m : ext_call (U := U) (handed (Reject := Reject))) (s : Est) :
  hands_out s ((let* (o, rejects, err) := call_out m in
                let* object := takeOver o in ret (object, Some rejects, err)) s).
Proof.
  unfold call_out, bind at 1, onProcess at 1. cbn.
  destruct (m (ext (ew s))) as [[[[o rs] err]|pv] u]; [|by split_and!; [|left|]].
  destruct o as [o|]; cbn; [|by apply hands_nothing].
  set (l := fresh _).
  split_and!; cbn; [done| |intros ? ? ? [= <- <- <-]; by rewrite lookup_insert_eq].
  intros l' (o' & h' & Ho' & Hh'). cbn in Ho'. destruct (decide (l = l')) as [<-|];
    [right; by eexists _, _|]. rewrite lookup_insert_ne in Ho' by done. left. by exists o', h'.
Qed.

(** The tasks that hand out a handle. *)
Inductive produces : Task -> handleKind -> AccountID -> Prop :=
| PrStart o a : produces (startPreTradeTask o a) KRequest a
| PrExecute o a : produces (executePreTradeTask o a) KReservation a
| PrDropCopy o a : produces (applyDropCopyTask o a) KDropCopy a
| PrRequest req a : produces (executeRequestTask req a) KReservation a.

(** The request a task consumes. *)
Definition consumed (t : Task) : option nat :=
  match t with executeRequestTask req _ => Some req | _ => None end.

Lemma handed_answer k f a (s : Est)
    (m : M Est (option nat * option (list Reject) * option error)) :
  destroy_returns native -> hands_out s (m s) ->
  match (let* (object, rejects, err) := m in
         resolveDriverResult native k f object (default [] rejects) err a) s with
  | (Ret _, s') => exists v e, resolutions s' = resolutions s ++ [(f, (v, e))] /\
      one_answer k a s' v e /\
      (forall l, opens s' l ->
         (v = VHandle k l a /\ exists rs e', fst (m s) = Ret (Some l, rs, e')) \/
         (opens s l /\ opens (snd (m s)) l))
  | (Panic _, s') => forall l, opens s' l -> opens s l /\ opens (snd (m s)) l
  end.
Proof.
  intros Hd (Hr & Hop & Hin). unfold bind.
  destruct (m s) as [[[[object rs] err]|pv] s1]; cbn in *.
  - destruct (resolveDriverResult_post k f object (default [] rs) err a s1 Hd)
      as (s' & v & e & -> & Hres & Hone & Hl); [intros l ->; by eapply Hin|].
    exists v, e. rewrite Hres, Hr. split; [done|]. split; [done|].
    intros l Hopl. destruct (Hl l Hopl) as [Ho1 Heq].
    destruct (Hop l Ho1) as [|(rs' & e' & [= -> -> ->])]; [by right|]. left.
    split; [by apply Heq|by eexists _, _].
  - intros l Hopl. destruct (Hop l Hopl) as [|(? & ? & ?)]; done.
Qed.

(** C11: the calls that hand out a handle - the start stage, the full pre-trade,
    the drop copy, and the execution of a started request - answer exactly one of
    a live handle pinned to the call's account, a non-empty reject list, and an
    error, whatever the driver or the native engine gave back; every other object
    they were handed, an accepted handle in a malformed answer included, is closed,
    and the executed request is closed on every way out, a panic included. *)
Theorem handle_calls_give_one_answer f (t : Task) k a s :
  destroy_returns native -> produces t k a ->
  (forall req, consumed t = Some req -> is_Some (heap (ew s) !! req)) ->
  match run_task native execute_native driver f t s with
  | (Ret _, s') => exists v e, resolutions s' = resolutions s ++ [(f, (v, e))] /\
      one_answer k a s' v e /\
      (forall l, opens s' l -> v = VHandle k l a \/ opens s l) /\
      (forall req, consumed t = Some req -> ~ opens s' req)
  | (Panic _, s') => (forall l, opens s' l -> opens s l) /\
      (forall req, consumed t = Some req -> ~ opens s' req)
  end.
Proof.
  intros Hd Hp Hreq.
  assert (forall k a (m : ext_call (U := U) (handed (Reject := Reject))),
    match runDriverTask native k f m a s with
    | (Ret _, s') => exists v e, resolutions s' = resolutions s ++ [(f, (v, e))] /\
        one_answer k a s' v e /\ (forall l, opens s' l -> v = VHandle k l a \/ opens s l)
    | (Panic _, s') => forall l, opens s' l -> opens s l
    end) as Hdriver.
  { intros k' a' m. pose proof (handed_answer k' f a' s _ Hd (driver_hands_out m s)) as H.
    unfold runDriverTask. unfold bind in H |- *.
    destruct (call_out m s) as [[[[o rs] err]|pv] s1]; [|intros l Hl; by apply H].
    destruct (takeOver o s1) as [[object|pv] s2]; [|intros l Hl; by apply H].
    unfold ret in H. cbn in H.
    destruct (resolveDriverResult native k' f object rs err a' s2) as [[]s'].
    - destruct H as (v & e & H1 & H2 & H3). exists v, e. split_and!; [done|done|].
      intros l Hl. destruct (H3 l Hl) as [[? ?]|[? ?]]; auto.
    - intros l Hl. by apply H. }
  destruct Hp; cbn [run_task consumed] in *;
    unfold startPreTradeTask_run, executePreTradeTask_run, applyDropCopyTask_run,
      executeRequestTask_run.
  1-3: match goal with |- context [runDriverTask ?n ?k ?f0 ?m ?a ?s0] =>
      specialize (Hdriver k a m); destruct (runDriverTask n k f0 m a s0) as [[]s'] end;
    [destruct Hdriver as (v & e & H1 & H2 & H3); by exists v, e|by split].
  destruct (executeInner_hands_out req s Hd (Hreq req eq_refl)) as (Hh & Hnop & Hne).
  pose proof (handed_answer KReservation f a s _ Hd Hh) as H.
  destruct ((let* (object, rejects, err) := executeInner native execute_native req in
    resolveDriverResult native KReservation f object (default [] rejects) err a) s) as [[]s'].
  - destruct H as (v & e & H1 & H2 & H3). exists v, e. split_and!; [done|done| |].
    + intros l Hl. destruct (H3 l Hl) as [[? ?]|[? ?]]; auto.
    + intros req' [= <-] Hl. destruct (H3 req Hl) as [(_ & rs & e' & E)|[_ ?]]; [|done].
      by apply (Hne rs e').
  - split; [intros l Hl; by apply H|]. intros req' [= <-] Hl. by destruct (H req Hl).
Qed.

(** ** Releases *)

Lemma closeObject_releases k l (s : Est) :
  destroy_returns native -> is_Some (heap (ew s) !! l) ->
  exists s', closeObject native k l s = (Ret tt, s') /\ ~ opens s' l.
Proof.
  intros Hd [o Ho]. destruct (closeObject_post k l s o Hd Ho) as (v & o' & E & Hv & Hn).
  eexists. split; [exact E|]. intros (ob & h & Hb & Hh). cbn in Hb.
  rewrite Hv, lookup_insert_eq in Hb. by simplify_eq.
Qed.

(** A finalizer touches no other object and keeps this one in the heap. *)
Lemma finalizer_keeps k l (v : world U) :
  is_Some (heap v !! l) ->
  is_Some (heap (snd (commitPending native k l v)) !! l) /\
  is_Some (heap (snd (rollbackPending native k l v)) !! l).
Proof.
  intros [o Ho]. unfold commitPending, rollbackPending, load, store, ncall, modify, bind, ret.
  rewrite Ho. destruct (resolved o), (handle o) as [h|]; cbn; rewrite ?Ho; split; try done; cbn.
  all: match goal with |- context [native ?c ?u] => destruct (native c u) as [[] ?] end; cbn;
    rewrite lookup_insert_eq; by eexists.
Qed.

Lemma close_pending_closes k l (s : Est) :
  destroy_returns native -> is_Some (heap (ew s) !! l) ->
  exists s', onProcess (closePending native k l) s = (Ret tt, s') /\ ~ opens s' l.
Proof.
  intros Hd [o Ho]. unfold onProcess, closePending, load, store, ncall, modify, bind, ret.
  rewrite Ho. destruct (handle o) as [h|] eqn:Hh.
  - destruct (Hd k h (ext (ew s))) as [u' ->]. eexists. split; [reflexivity|].
    intros (o' & h' & Hb & Hb'). cbn in Hb. rewrite lookup_insert_eq in Hb. by simplify_eq.
  - eexists. split; [reflexivity|]. intros (o' & h' & Hb & Hb'). cbn in Hb. congruence.
Qed.

Lemma runInner_releases k l op (s : Est) :
  destroy_returns native -> is_Some (heap (ew s) !! l) -> closes op = true ->
  match runInner native k l op s with
  | (Ret _, s') => ~ opens s' l
  | (Panic _, _) => op <> OpClose
  end.
Proof.
  intros Hd Hl Hop.
  assert (forall m : M (world U) unit, is_Some (heap (snd (m (ew s))) !! l) ->
    match onProcess (m ;;; closePending native k l) s with
    | (Ret _, s') => ~ opens s' l
    | (Panic _, _) => True
    end) as Hthen.
  { intros m Hm. unfold onProcess, bind. destruct (m (ew s)) as [[[]|pv] v]; [|done].
    destruct (close_pending_closes k l (mkEst v (resolutions s)) Hd Hm) as (s' & E & Hn).
    unfold onProcess in E. cbn in E. destruct (closePending native k l v) as [o w'].
    by simplify_eq. }
  destruct (finalizer_keeps k l (ew s) Hl) as [Hc Hr].
  unfold runInner. destruct op; try done; cbn [run_op].
  - destruct (close_pending_closes k l s Hd Hl) as (s' & -> & Hn). done.
  - specialize (Hthen _ Hc).
    by destruct (onProcess (commitPending native k l ;;; closePending native k l) s) as [[]?].
  - specialize (Hthen _ Hr).
    by destruct (onProcess (rollbackPending native k l ;;; closePending native k l) s) as [[]?].
Qed.

(** The calls that owe the release of the object at [l]. *)
Definition releasing (l : nat) (c : Call) : Prop :=
  match c with
  | CRequestExecute l' _ | CRequestClose l' _ => l' = l
  | CReservation l' _ op | CDropCopy l' _ op => l' = l /\ closes op = true
  | _ => False
  end.

Lemma then_resolve f v e (m : M Est unit) (P : Est -> Prop) (Q : Prop) s :
  (forall s1 r, P s1 -> P (mkEst (ew s1) r)) ->
  match m s with (Ret _, s') => P s' | (Panic _, _) => Q end ->
  match (m ;;; resolveF f v e) s with (Ret _, s') => P s' | (Panic _, _) => Q end.
Proof.
  intros HP Hm. unfold bind. destruct (m s) as [[]s1]; [|done]. by apply HP.
Qed.

Lemma closed_stays l (s : Est) r : ~ opens s l -> ~ opens (mkEst (ew s) r) l.
Proof. by intros H. Qed.

Lemma closeInner_settles l f v e (s : Est) :
  destroy_returns native -> is_Some (heap (ew s) !! l) ->
  match (closeInner native l ;;; resolveF f v e) s with
  | (Ret _, s') => ~ opens s' l | (Panic _, _) => False end.
Proof.
  intros Hd Hl. apply (then_resolve f v e _ (fun s' => ~ opens s' l)); [apply closed_stays|].
  unfold closeInner. by destruct (closeObject_releases KRequest l s Hd Hl) as (s' & -> & Hn).
Qed.
Lemma runInner_settles k l op f v e (s : Est) :
  destroy_returns native -> is_Some (heap (ew s) !! l) -> closes op = true ->
  match (runInner native k l op ;;; resolveF f v e) s with
  | (Ret _, s') => ~ opens s' l | (Panic _, _) => op <> OpClose end.
Proof.
  intros Hd Hl Hop. apply (then_resolve f v e _ (fun s' => ~ opens s' l)); [apply closed_stays|].
  by apply runInner_releases.
Qed.

(** a call that owes a release makes it whatever becomes of it: executing or
    closing a request and CommitAndClose, RollbackAndClose or Close of a
    reservation or drop-copy operation leave the object closed when the task runs,
    when it is aborted, and when its submit fails; a panic of the native engine
    while the task runs is the only other end. *)
Theorem owed_release_always_made f (c : Call) l x s :
  destroy_returns native -> releasing l c -> is_Some (heap (ew s) !! l) ->
  match settle_call native execute_native driver f (prep c) x s with
  | (Ret _, s') => ~ opens s' l
  | (Panic _, _) => x = Runs
  end.
Proof.
  intros Hd Hc Hl.
  assert (forall m (Q : Prop), match m s with
      | (Ret _, s') => ~ opens s' l | (Panic _, _) => Q end -> (Q -> x = Runs) ->
    match m s : outcome unit * Est with
      | (Ret _, s') => ~ opens s' l | (Panic _, _) => x = Runs end) as Hweak.
  { intros m Q H HQ. destruct (m s) as [[] ?]; auto. }
  destruct c; cbn in Hc; try done; [subst req|subst req|destruct Hc as [-> Hop]..].
  - destruct x; cbn; unfold request_abort, executeRequestTask_run.
    1, 3: by apply (Hweak _ False); [apply closeInner_settles|].
    destruct (executeInner_hands_out l s Hd Hl) as (Hh & Hnop & Hne).
    pose proof (handed_answer KReservation f a s _ Hd Hh) as H.
    destruct ((let* (object, rejects, err) := executeInner native execute_native l in
      resolveDriverResult native KReservation f object (default [] rejects) err a) s)
      as [[]s']; [|done].
    destruct H as (v & e & _ & _ & H3). intros Hop.
    destruct (H3 l Hop) as [(_ & rs & e' & E)|[_ ?]]; [by apply (Hne rs e')|done].
  - destruct x; cbn; unfold request_abort, closeRequestTask_run;
      by apply (Hweak _ False); [apply closeInner_settles|].
  - unfold prep, prepare, reservationCall, reservationRunVoid. rewrite Hop.
    destruct x; cbn; unfold reservationTask_run, reservationTask_abort;
      (eapply Hweak; [by apply runInner_settles|]); done.
  - unfold prep, prepare, dropCopyCall, dropCopyRunVoid. rewrite Hop.
    destruct x; cbn; unfold dropCopyOperationTask_run, dropCopyOperationTask_abort;
      (eapply Hweak; [by apply runInner_settles|]); done.
Qed.
End Facts.

(** ** Stopping *)

(** however many StopGraceful and StopHard calls are made and in whatever
    order they succeed or fail, the wrapped engine is stopped at most once, and
    exactly once as soon as one of them succeeded and a stop function was wired. *)
Theorem underlying_stopped_once wired errs :
  released (stops errs {| stopUnderlying := wired; stopOnce := false; released := 0 |})
    = if wired && existsb (fun e => bool_decide (e = None)) errs then 1 else 0.
Proof.
  assert (forall errs s, stopOnce s = true -> released (stops errs s) = released s) as Honce.
  { clear. induction errs as [|[e|] errs IH]; intros s Hs; cbn; [done|by apply IH|].
    unfold releaseUnderlying. rewrite Hs. by apply IH. }
  induction errs as [|[e|] errs IH]; cbn; [by rewrite andb_false_r|exact IH|].
  rewrite Honce by done. by destruct wired.
Qed.

(** ** A concrete engine *)
Definition demo_engine : EngineDriver (U := nat) (Reject := nat) (PostTrade := nat)
    (Adjustment := nat) (Batch := nat) (PnlState := nat) (Config := nat) (Cause := nat) := {|
  d_chain := demo_driver;
  d_StartPreTrade := fun _ u => (Ret (Some (mkObj (Some u) false), [], None), S u);
  d_GroupOf := fun _ u => (Ret None, u);
  d_BlockWithCause := fun _ _ u => (Ret None, S u);
  d_UnblockAll := fun u => (Ret tt, S u);
  d_ReplaceBlockReason := fun _ _ u => (Ret None, S u);
  d_ReplaceGroupBlockReason := fun _ _ u => (Ret None, S u);
|}.
Definition demo_execute (h u : nat) : Request.executeResult (list nat) :=
  if Nat.even u then Request.XRejects (inl [u]) else Request.XReservation (Some u).

(** A process with one open request (object 0, handle 7) and one open reservation
    (object 1, handle 8, whose native commit panics). *)
Definition demo_est : est (U := nat) (Reject := nat) (PostTrade := nat) (Batch := nat) :=
  mkEst (mkWorld {[0 := mkObj (Some 7) false; 1 := mkObj (Some 8) false]} [] 3) [].
Definition demo_account : AccountID := {| acc_native := 5 |}.
Abbreviation demo_settle := (settle_call demo_native demo_execute demo_engine).
Abbreviation demo_prep := (prepare (U := nat) (Reject := nat) (PostTrade := nat)
  (Adjustment := nat) (Batch := nat) (Cause := nat) demo_native).

Lemma demo_destroy_returns : destroy_returns demo_native.
Proof. intros k h u. by eexists. Qed.

Lemma calls_share_a_key_iff_same_subject_witness :
  (is_Some (key_of (demo_prep (CStartPreTrade demo_order))) <->
   is_Some (subject_of (U := nat) (Adjustment := nat) (Cause := nat) (CStartPreTrade demo_order))) /\
  (is_Some (subject_of (U := nat) (Adjustment := nat) (Cause := nat) (CStartPreTrade demo_order)) ->
   (key_of (demo_prep (CStartPreTrade demo_order)) = key_of (demo_prep (CUnblock demo_account))
    <-> subject_of (U := nat) (Adjustment := nat) (Cause := nat) (CStartPreTrade demo_order)
        = subject_of (U := nat) (Adjustment := nat) (Cause := nat) (CUnblock demo_account))).
Proof.
  apply (calls_share_a_key_iff_same_subject (U := nat) (Reject := nat) (PostTrade := nat)
    (Adjustment := nat) (Batch := nat) (Cause := nat) demo_native);
    cbn; unfold inU; lia.
Defined.

Lemma follow_ups_stay_on_the_lane_witness :
  key_of (demo_prep (CExecutePreTrade demo_order)) = Some (accountRoutingKey demo_account) /\
  forall c', follow_up 2 demo_account c' ->
    key_of (demo_prep c') = key_of (demo_prep (CExecutePreTrade demo_order)).
Proof.
  apply (follow_ups_stay_on_the_lane demo_native demo_execute demo_engine 9
    (CExecutePreTrade demo_order) Runs demo_est
    (snd (demo_settle 9 (demo_prep (CExecutePreTrade demo_order)) Runs demo_est))
    KReservation 2 demo_account None); vm_compute; reflexivity.
Defined.

Lemma handle_calls_give_one_answer_witness :
  let r := run_task demo_native demo_execute demo_engine 9 (executeRequestTask 0 demo_account)
             demo_est in
  resolutions (snd r) = [(9, (VHandle KReservation 2 demo_account, None))] /\
  match r with
  | (Ret _, s') => exists v e, resolutions s' = resolutions demo_est ++ [(9, (v, e))] /\
      one_answer KReservation demo_account s' v e /\
      (forall l, opens s' l -> v = VHandle KReservation l demo_account \/ opens demo_est l) /\
      (forall req, consumed (U := nat) (Adjustment := nat) (Cause := nat)
         (executeRequestTask 0 demo_account) = Some req -> ~ opens s' req)
  | (Panic _, s') => (forall l, opens s' l -> opens demo_est l) /\
      (forall req, consumed (U := nat) (Adjustment := nat) (Cause := nat)
         (executeRequestTask 0 demo_account) = Some req -> ~ opens s' req)
  end.
Proof.
  split; [vm_compute; reflexivity|].
  apply (handle_calls_give_one_answer demo_native demo_execute demo_engine 9
    (executeRequestTask 0 demo_account) KReservation demo_account demo_est);
    [exact demo_destroy_returns|constructor|].
  intros req [= <-]. by eexists.
Defined.

Lemma owed_release_always_made_witness :
  match demo_settle 9 (demo_prep (CReservation 1 demo_account OpCommitAndClose))
    (SubmitFails (EOther 4)) demo_est with
  | (Ret _, s') => ~ opens s' 1
  | (Panic _, _) => SubmitFails (EOther 4) = Runs
  end.
Proof.
  apply (owed_release_always_made demo_native demo_execute demo_engine 9
    (CReservation 1 demo_account OpCommitAndClose) 1 (SubmitFails (EOther 4)) demo_est);
    [exact demo_destroy_returns|by split|by eexists].
Defined.
