(* ===== verification/AsyncHandle.v ===== *)
(** * Wrappers of pending operations: readers and finalizers

    [AsyncReservation] (asyncengine/reservation.go) and [AsyncDropCopyOperation]
    (asyncengine/drop_copy_operation.go): [runInner], [beginRead], [endRead] and
    the snapshot reads, as goroutines that interleave on one wrapper. The two
    wrappers are the same code over a different lifetime object, so the model
    takes the object's kind and closed error. One label moves one goroutine across
    one lock acquisition, critical section, channel wait, or call on the wrapped
    object. *)
From Stdlib Require Import ZArith Lia.
From stdpp Require Import base list gmap strings.
From S2P Require Import Prelude GoRuntime Handles EngineBase Engine.

Definition ErrFinalizationInProgress :=
  ESentinel "openpit/asyncengine: handle finalization is in progress".

Inductive handleState := handleOpen | handleFinalizing | handleClosed.
#[global] Instance handleState_eq_dec : EqDecision handleState.
Proof. solve_decision. Defined.

Section AsyncHandle.
Context {U A : Type}.
Context (native : nativeCall -> U -> outcome unit * U).
(** The wrapped object: its kind, its address and its closed error. *)
Context (k : handleKind) (l : nat) (closedErr : error).

(** A goroutine in a snapshot read, with the native read it makes and then its
    result, or in a finalizer. *)
Inductive thread :=
| RBegin (read : nat -> U -> A)
| RAdmitted (read : nat -> U -> A)
| RLocked (read : nat -> U -> A)
| RGot (read : nat -> U -> A) (r : A + error)
| RLeft (read : nat -> U -> A) (r : A + error)
| RDone (read : nat -> U -> A) (r : A + error)
| FStart (op : pendingOp)
| FMark (op : pendingOp)
| FWait (op : pendingOp) (ch : nat)
| FNative (op : pendingOp)
| FSettle (op : pendingOp)
| FUnlock (op : pendingOp)
| FDone (op : pendingOp).

(** The wrapper's fields, its two locks, the channels made and closed so far, and
    the process. [mu] is held for one critical section at a time. *)
Record wrapper := mkWrapper {
  hw : world U;
  lifecycleMu : bool;
  methodMu : bool;
  state : handleState;
  closed : bool;
  readers : nat;
  readersDone : option nat;
  made : nat;
  closedChans : list nat;
  threads : list thread;
}.

Definition setThread (i : nat) (t : thread) (s : wrapper) : wrapper :=
  mkWrapper (hw s) (lifecycleMu s) (methodMu s) (state s) (closed s) (readers s)
    (readersDone s) (made s) (closedChans s) (<[i := t]> (threads s)).

Definition beginRead (i : nat) (read : nat -> U -> A) (s : wrapper) : wrapper :=
  if closed s then setThread i (RDone read (inr closedErr)) s
  else match state s with
       | handleOpen =>
         setThread i (RAdmitted read)
           (mkWrapper (hw s) (lifecycleMu s) (methodMu s) (state s) (closed s)
              (S (readers s)) (readersDone s) (made s) (closedChans s) (threads s))
       | handleFinalizing => setThread i (RDone read (inr ErrFinalizationInProgress)) s
       | handleClosed => setThread i (RDone read (inr closedErr)) s
       end.

Definition endRead (i : nat) (read : nat -> U -> A) (r : A + error) (s : wrapper) : wrapper :=
  let n := pred (readers s) in
  match readersDone s with
  | Some ch =>
    if n =? 0
    then mkWrapper (hw s) (lifecycleMu s) (methodMu s) (state s) (closed s) n None
           (made s) (ch :: closedChans s) (<[i := RDone read r]> (threads s))
    else mkWrapper (hw s) (lifecycleMu s) (methodMu s) (state s) (closed s) n (Some ch)
           (made s) (closedChans s) (<[i := RDone read r]> (threads s))
  | None =>
    mkWrapper (hw s) (lifecycleMu s) (methodMu s) (state s) (closed s) n None
      (made s) (closedChans s) (<[i := RDone read r]> (threads s))
  end.

Definition setMethodMu (b : bool) (i : nat) (t : thread) (s : wrapper) : wrapper :=
  mkWrapper (hw s) (lifecycleMu s) b (state s) (closed s) (readers s) (readersDone s)
    (made s) (closedChans s) (<[i := t]> (threads s)).
Definition setLifecycleMu (b : bool) (i : nat) (t : thread) (s : wrapper) : wrapper :=
  mkWrapper (hw s) b (methodMu s) (state s) (closed s) (readers s) (readersDone s)
    (made s) (closedChans s) (<[i := t]> (threads s)).

(** The first critical section of [runInner]. *)
Definition markFinalizing (i : nat) (op : pendingOp) (s : wrapper) : wrapper :=
  if readers s =? 0
  then mkWrapper (hw s) (lifecycleMu s) (methodMu s) handleFinalizing (closed s)
         (readers s) (readersDone s) (made s) (closedChans s)
         (<[i := FNative op]> (threads s))
  else mkWrapper (hw s) (lifecycleMu s) (methodMu s) handleFinalizing (closed s)
         (readers s) (Some (made s)) (S (made s)) (closedChans s)
         (<[i := FWait op (made s)]> (threads s)).

(** The wrapped call; it may unwind, and the deferred function runs anyway. *)
Definition callInner (i : nat) (op : pendingOp) (s : wrapper) : wrapper :=
  mkWrapper (snd (run_op native k op l (hw s))) (lifecycleMu s) (methodMu s) (state s)
    (closed s) (readers s) (readersDone s) (made s) (closedChans s)
    (<[i := FSettle op]> (threads s)).

(** The critical section of the deferred function. *)
Definition settleState (i : nat) (op : pendingOp) (s : wrapper) : wrapper :=
  let c := closes op || closed s in
  mkWrapper (hw s) (lifecycleMu s) (methodMu s) (if c then handleClosed else handleOpen) c
    (readers s) (readersDone s) (made s) (closedChans s)
    (<[i := FUnlock op]> (threads s)).

Definition step (i : nat) (s : wrapper) : option wrapper :=
  match threads s !! i with
  | Some (RBegin read) => Some (beginRead i read s)
  | Some (RAdmitted read) =>
    if methodMu s then None else Some (setMethodMu true i (RLocked read) s)
  | Some (RLocked read) =>
    match readView closedErr read l (hw s) with
    | (Ret r, _) => Some (setThread i (RGot read r) s)
    | (Panic _, _) => None
    end
  | Some (RGot read r) => Some (setMethodMu false i (RLeft read r) s)
  | Some (RLeft read r) => Some (endRead i read r s)
  | Some (RDone _ _) => None
  | Some (FStart op) =>
    if lifecycleMu s then None else Some (setLifecycleMu true i (FMark op) s)
  | Some (FMark op) => Some (markFinalizing i op s)
  | Some (FWait op ch) =>
    if bool_decide (ch ∈ closedChans s) then Some (setThread i (FNative op) s) else None
  | Some (FNative op) => Some (callInner i op s)
  | Some (FSettle op) => Some (settleState i op s)
  | Some (FUnlock op) => Some (setLifecycleMu false i (FDone op) s)
  | Some (FDone _) | None => None
  end.

Definition starting (t : thread) : Prop :=
  match t with RBegin _ | FStart _ => True | _ => False end.

(** A new wrapper around the object, in process [w0], with any goroutines about to
    call it. *)
Definition initial (w0 : world U) (s : wrapper) : Prop :=
  exists ts, Forall starting ts /\
    s = mkWrapper w0 false false handleOpen false 0 None 0 [] ts.

Definition thread_done (t : thread) : bool :=
  match t with RDone _ _ | FDone _ => true | _ => false end.

(** ** Counting goroutines *)

Definition admitted (t : thread) : nat :=
  match t with RAdmitted _ | RLocked _ | RGot _ _ | RLeft _ _ => 1 | _ => 0 end.
Definition in_method (t : thread) : nat :=
  match t with RLocked _ | RGot _ _ => 1 | _ => 0 end.
Definition in_life (t : thread) : nat :=
  match t with FMark _ | FWait _ _ | FNative _ | FSettle _ | FUnlock _ => 1 | _ => 0 end.
(** Between the two critical sections of [runInner]. *)
Definition finalizing_t (t : thread) : nat :=
  match t with FWait _ _ | FNative _ | FSettle _ => 1 | _ => 0 end.
(** Holding the lifecycle lock outside of them. *)
Definition edge (t : thread) : nat := match t with FMark _ | FUnlock _ => 1 | _ => 0 end.
Definition waiting (t : thread) : nat := match t with FWait _ _ => 1 | _ => 0 end.
Definition in_native (t : thread) : nat :=
  match t with FNative _ | FSettle _ => 1 | _ => 0 end.

(** The protocol invariant. *)
Record protocol (s : wrapper) : Prop := {
  p_admitted : csum admitted (threads s) = readers s;
  p_method : csum in_method (threads s) = b2n (methodMu s);
  p_life : csum in_life (threads s) = b2n (lifecycleMu s);
  p_fin : csum finalizing_t (threads s)
            = b2n (bool_decide (state s = handleFinalizing));
  p_closed : state s <> handleFinalizing ->
             state s = if closed s then handleClosed else handleOpen;
  p_native : 0 < csum in_native (threads s) -> readers s = 0;
  p_reading : 0 < readers s -> closed s = false;
  p_done : csum waiting (threads s) = 0 -> readersDone s = None;
  p_wait : forall i op ch, threads s !! i = Some (FWait op ch) ->
    (ch ∈ closedChans s /\ readers s = 0 /\ readersDone s = None) \/
    (readersDone s = Some ch /\ 0 < readers s);
  p_made : forall ch, ch ∈ closedChans s -> ch < made s;
  p_open : forall ch, readersDone s = Some ch -> (ch ∉ closedChans s) /\ ch < made s;
}.

Lemma step_threads i s s' :
  step i s = Some s' -> exists t t', threads s !! i = Some t /\ threads s' = <[i := t']> (threads s).
Proof.
  unfold step, beginRead, endRead, markFinalizing. intros H.
  destruct (threads s !! i) as [t|] eqn:Ht; [|done]. exists t.
  repeat case_match; simplify_eq/=; by eexists.
Qed.

Lemma life_split ts : csum in_life ts = csum finalizing_t ts + csum edge ts.
Proof. induction ts as [|[] ts IH]; cbn; lia. Qed.
Lemma finalizing_split ts : csum finalizing_t ts = csum waiting ts + csum in_native ts.
Proof. induction ts as [|[] ts IH]; cbn; lia. Qed.

(** The counts after goroutine [i] moves from [t] to [t']. *)
Ltac counts Ht t' :=
  match type of Ht with ?ts !! ?i = Some ?t =>
    pose proof (csum_insert admitted ts i t t' Ht);
    pose proof (csum_insert in_method ts i t t' Ht);
    pose proof (csum_insert in_life ts i t t' Ht);
    pose proof (csum_insert finalizing_t ts i t t' Ht);
    pose proof (csum_insert edge ts i t t' Ht);
    pose proof (csum_insert waiting ts i t t' Ht);
    pose proof (csum_insert in_native ts i t t' Ht)
  end; cbn [admitted in_method in_life finalizing_t edge waiting in_native] in *.

(** The waiting goroutines after a move to a goroutine that does not wait. *)
Lemma wait_insert (ts : list thread) i t j op ch :
  (forall op ch, t <> FWait op ch) ->
  <[i := t]> ts !! j = Some (FWait op ch) -> ts !! j = Some (FWait op ch).
Proof.
  intros Hne Hj. apply list_lookup_insert_Some in Hj as [(<- & E & _)|[_ Hj]]; [|done].
  by destruct (Hne op ch).
Qed.

Lemma one_waiting (ts : list thread) i j t op ch :
  csum in_life ts <= 1 -> ts !! i = Some t -> in_life t = 1 -> ts !! j = Some (FWait op ch) ->
  i = j.
Proof.
  revert i j. induction ts as [|x ts IH]; intros [|i] [|j] Hs Hi Ht Hj; simplify_eq/=; try done.
  - pose proof (csum_lookup_le in_life _ _ _ Hj). cbn in *. lia.
  - pose proof (csum_lookup_le in_life _ _ _ Hi). cbn in *. lia.
  - f_equal. apply IH; try done. lia.
Qed.

(** What a move changes field by field: the counts are arithmetic, and the waits
    are those of before the move. *)
Ltac proto Pr Pd Pw :=
  unfold setThread, setMethodMu, setLifecycleMu, callInner, settleState; split;
  cbn [threads readers methodMu lifecycleMu state closed readersDone closedChans made b2n] in *;
  [try lia|try lia|try lia|try (rewrite ?bool_decide_true, ?bool_decide_false by done; cbn; lia)
  |try done|try lia|try (intros; first [apply Pr; lia | exfalso; lia])
  |try (intros; first [apply Pd; lia | exfalso; lia])
  |try (intros ? ? ? Hj; apply wait_insert in Hj; [|done]; by eauto)|try done|try done].

Lemma step_protocol i s s' : protocol s -> step i s = Some s' -> protocol s'.
Proof.
  intros [Pa Pm Pl Pf Pc Pn Pr Pd Pw Pmd Po] H.
  pose proof (life_split (threads s)) as Hlf.
  pose proof (finalizing_split (threads s)) as Hsp.
  assert (b2n (lifecycleMu s) <= 1 /\ b2n (methodMu s) <= 1) as [Hl1 Hm1]
    by (destruct (lifecycleMu s), (methodMu s); cbn; lia).
  unfold step in H. destruct (threads s !! i) as [t|] eqn:Ht; [|done].
  pose proof (csum_lookup_le in_life _ _ _ Ht) as L1.
  pose proof (csum_lookup_le edge _ _ _ Ht) as L2.
  pose proof (csum_lookup_le waiting _ _ _ Ht) as L3.
  pose proof (csum_lookup_le in_native _ _ _ Ht) as L4.
  pose proof (csum_lookup_le admitted _ _ _ Ht) as L5.
  pose proof (csum_lookup_le in_method _ _ _ Ht) as L6.
  assert (forall j op ch, in_life t = 1 -> threads s !! j = Some (FWait op ch) -> i = j) as Hone
    by (intros; eapply one_waiting; [|exact Ht|..]; [lia|done|done]).
  assert (forall j op ch, threads s !! j = Some (FWait op ch) -> 1 <= csum waiting (threads s)) as Hw
    by (intros j op ch Hj; exact (csum_lookup_le waiting _ _ _ Hj)).
  destruct t as [rd|rd|rd|rd r|rd r|rd r|op|op|op ch|op|op|op|op]; try done.
  - unfold beginRead in H. destruct (closed s) eqn:Ecl; [|destruct (state s) eqn:Est];
      injection H as <-.
    2: counts Ht (RAdmitted rd); rewrite bool_decide_false in Pf by done.
    1, 3, 4: match goal with |- protocol (setThread _ ?t' _) => counts Ht t' end.
    all: proto Pr Pd Pw. all: rewrite ?Ecl, ?Est in *; try done; try lia.
    all: intros j op ch Hj; apply wait_insert in Hj; [|done]; specialize (Hw _ _ _ Hj); lia.
  - destruct (methodMu s) eqn:Em; [done|]. injection H as <-. counts Ht (RLocked rd). proto Pr Pd Pw.
  - destruct (readView closedErr rd l (hw s)) as [[r|?] ?]; [|done]. injection H as <-.
    counts Ht (RGot rd r). proto Pr Pd Pw.
  - injection H as <-. counts Ht (RLeft rd r). proto Pr Pd Pw.
  - unfold endRead in H. counts Ht (RDone rd r).
    destruct (readersDone s) as [ch|] eqn:Erd; [destruct (pred (readers s) =? 0) eqn:En|];
      injection H as <-; use_bools; proto Pr Pd Pw; try done.
    + intros j op ch' Hj. apply wait_insert in Hj; [|done].
      destruct (Pw _ _ _ Hj) as [(_ & _ & ?)|[[= ->] _]]; [done|].
      left. split_and!; [by left|done|done].
    + intros ch' [-> | Hch]%elem_of_cons; [by apply Po|by apply Pmd].
    + intros j op ch' Hj. apply wait_insert in Hj; [|done].
      destruct (Pw _ _ _ Hj) as [(_ & _ & ?)|[[= ->] _]]; [done|].
      apply Nat.eqb_neq in En. right. split; [done|lia].
    + intros j op ch' Hj. apply wait_insert in Hj; [|done].
      destruct (Pw _ _ _ Hj) as [(? & Hr & _)|[? _]]; [|done]. left. rewrite Hr. done.
  - destruct (lifecycleMu s) eqn:El; [done|]. injection H as <-. counts Ht (FMark op). proto Pr Pd Pw.
  - unfold markFinalizing in H. destruct (readers s =? 0) eqn:En; injection H as <-.
    + apply Nat.eqb_eq in En. counts Ht (FNative op). proto Pr Pd Pw.
    + apply Nat.eqb_neq in En. counts Ht (FWait op (made s)). proto Pr Pd Pw.
      * intros j op' ch' Hj. apply list_lookup_insert_Some in Hj as [(<- & [= <- <-] & _)|[Hne Hj]].
        { right. split; [done|lia]. } by destruct Hne; eapply Hone.
      * intros ch Hch. specialize (Pmd ch Hch). lia.
      * intros ch [= <-]. split; [intros Hch; specialize (Pmd _ Hch)|]; lia.
  - case_bool_decide as Hch; [|done]. injection H as <-.
    destruct (Pw i op ch Ht) as [(_ & Hr & Hd)|[E _]]; [|by destruct (Po _ E)].
    counts Ht (FNative op). proto Pr Pd Pw. all: try (intros; exact Hd).
  - injection H as <-. counts Ht (FSettle op). proto Pr Pd Pw.
  - injection H as <-. counts Ht (FUnlock op). proto Pr Pd Pw.
    all: destruct (closes op || closed s); try done; rewrite bool_decide_false by done; cbn; lia.
  - injection H as <-. counts Ht (FDone op). proto Pr Pd Pw.
Qed.

Definition reach (w0 : world U) : wrapper -> Prop := reachable step (initial w0).

Lemma protocol_reach w0 s : reach w0 s -> protocol s.
Proof.
  apply (invariant_reachable step (initial w0) protocol).
  - intros s0 (ts & Hts & ->).
    assert (forall f : thread -> nat, (forall t, starting t -> f t = 0) -> csum f ts = 0) as H0.
    { intros f Hf. induction Hts as [|t ts Ht _ IH]; cbn; [done|]. rewrite (Hf t Ht). exact IH. }
    split; cbn; rewrite ?H0; try done; try (by intros []); try lia.
    + intros i op ch Hi. rewrite Forall_lookup in Hts. by specialize (Hts _ _ Hi).
    + intros ch Hch. by apply elem_of_nil in Hch.
  - intros s0 i s' _ IH H. by eapply step_protocol.
Qed.

(** ** The object behind the wrapper *)

Definition after (w0 : world U) (ops : list pendingOp) : world U :=
  snd (run_ops native k ops l w0).

Lemma after_snoc w0 ops op :
  after w0 (ops ++ [op]) = snd (run_op native k op l (after w0 ops)).
Proof.
  unfold after. revert w0. induction ops as [|op0 ops IH]; intros w0; cbn;
    unfold bind, recovering, ret.
  - by destruct (run_op native k op l w0).
  - destruct (run_op native k op0 l w0) as [o w1]. apply IH.
Qed.

(** The finalizers that have called the object. *)
Definition executed (t : thread) : option pendingOp :=
  match t with FSettle op | FUnlock op | FDone op => Some op | _ => None end.

Lemma omap_move (ts : list thread) i t t' :
  ts !! i = Some t -> executed t = None ->
  omap executed (<[i := t']> ts)
    ≡ₚ match executed t' with Some op => [op] | None => [] end ++ omap executed ts.
Proof.
  revert i. induction ts as [|x ts IH]; intros [|i] Ht He; [done..| |].
  - injection Ht as ->. cbn [insert list_insert omap list_omap]. rewrite He.
    by destruct (executed t').
  - cbn [insert list_insert omap list_omap]. specialize (IH i Ht He).
    destruct (executed x) as [op|]; [|exact IH].
    etransitivity; [apply perm_skip, IH|]. destruct (executed t'); [apply perm_swap|done].
Qed.
Lemma omap_stay (ts : list thread) i t t' :
  ts !! i = Some t -> executed t' = executed t ->
  omap executed (<[i := t']> ts) = omap executed ts.
Proof.
  revert i. induction ts as [|x ts IH]; intros [|i] Ht He; [done..| |].
  - injection Ht as ->. cbn. by rewrite He.
  - cbn [insert list_insert omap list_omap]. specialize (IH i Ht He).
    destruct (executed x); [f_equal|]; exact IH.
Qed.

(** A read that was refused, and one that was made between two finalizers. *)
Definition refused (s : wrapper) (r : A + error) : Prop :=
  r = inr ErrFinalizationInProgress \/ (r = inr closedErr /\ closed s = true).
Definition made_read (w0 : world U) (ops : list pendingOp) (read : nat -> U -> A)
    (r : A + error) : Prop :=
  exists ops1 h, ops1 `prefix_of` ops /\ r = inl (read h (ext (after w0 ops1))) /\
    heap (after w0 ops1) !! l = Some (mkObj (Some h) (bool_decide (ops1 <> []))).

Definition thread_ok (w0 : world U) (ops : list pendingOp) (s : wrapper) (t : thread) : Prop :=
  match t with
  | RGot read r | RLeft read r => made_read w0 ops read r
  | RDone read r => made_read w0 ops read r \/ refused s r
  | FUnlock op | FDone op => closes op = true -> closed s = true
  | _ => True
  end.

(** The object is open, and resolved once a finalizer ran, until a closing
    finalizer calls it. *)
Definition still_open (w0 : world U) (ops : list pendingOp) : Prop :=
  existsb closes ops = false ->
  exists h, heap (after w0 ops) !! l = Some (mkObj (Some h) (bool_decide (ops <> []))).

Record linear (w0 : world U) (ops : list pendingOp) (s : wrapper) : Prop := {
  l_world : hw s = after w0 ops;
  l_ops : ops ≡ₚ omap executed (threads s);
  l_threads : forall i t, threads s !! i = Some t -> thread_ok w0 ops s t;
}.

Lemma run_op_open op w h b :
  heap w !! l = Some (mkObj (Some h) b) -> closes op = false ->
  heap (snd (run_op native k op l w)) !! l = Some (mkObj (Some h) true).
Proof.
  intros Hw Hop. destruct op; try done; cbn [run_op];
    unfold commitPending, rollbackPending, load, store, ncall, modify, bind, ret; rewrite Hw;
    destruct b; cbn; try done.
  all: match goal with |- context [native ?c ?u] => destruct (native c u) as [[] ?] end; cbn;
    by rewrite lookup_insert_eq.
Qed.

Lemma still_open_all w0 h ops :
  heap w0 !! l = Some (mkObj (Some h) false) -> still_open w0 ops.
Proof.
  intros Hw. unfold still_open.
  induction ops as [|op ops IH] using rev_ind; [by exists h|].
  rewrite existsb_app. cbn. rewrite orb_false_r. intros [H1 H2]%orb_false_elim.
  destruct (IH H1) as [h' Hh]. exists h'. rewrite after_snoc.
  erewrite run_op_open by done. by rewrite bool_decide_true by (by destruct ops).
Qed.

(** Growing the history and closing for good keep what is recorded. *)
Lemma thread_ok_mono w0 ops ops' s s' t :
  ops `prefix_of` ops' -> (closed s = true -> closed s' = true) ->
  thread_ok w0 ops s t -> thread_ok w0 ops' s' t.
Proof.
  intros Hp Hc. destruct t; cbn; try done; try (by auto).
  1, 2: intros (ops1 & h & Hpre & H); exists ops1, h; split; [by etransitivity|done].
  intros [(ops1 & h & Hpre & H)|[H|[H1 H2]]].
  - left. exists ops1, h. split; [by etransitivity|done].
  - right. by left.
  - right. right. auto.
Qed.

Lemma linear_move w0 ops s s' i t t' :
  linear w0 ops s -> threads s !! i = Some t -> threads s' = <[i := t']> (threads s) ->
  hw s' = hw s -> executed t' = executed t -> (closed s = true -> closed s' = true) ->
  thread_ok w0 ops s' t' -> linear w0 ops s'.
Proof.
  intros [Hw Ho Ht] Hi Hts Hh He Hc Hok. split.
  - by rewrite Hh.
  - by rewrite Hts, (omap_stay _ _ t).
  - intros j t2 Hj. rewrite Hts in Hj.
    apply list_lookup_insert_Some in Hj as [(<- & <- & _)|[_ Hj]]; [done|].
    eapply thread_ok_mono; [done|exact Hc|by eapply Ht].
Qed.

Lemma step_linear w0 h i s s' ops :
  heap w0 !! l = Some (mkObj (Some h) false) ->
  protocol s -> linear w0 ops s -> step i s = Some s' ->
  exists ops', linear w0 ops' s'.
Proof.
  intros Hw0 Hp HL H. pose proof HL as [Hw Ho Hok].
  unfold step in H. destruct (threads s !! i) as [t|] eqn:Ht; [|done].
  pose proof (Hok _ _ Ht) as Ht_ok.
  destruct t as [rd|rd|rd|rd r|rd r|rd r|op|op|op ch|op|op|op|op]; try done.
  - exists ops. unfold beginRead in H. destruct (closed s) eqn:Ecl; [|destruct (state s) eqn:Est];
      injection H as <-;
      (eapply linear_move; [exact HL|exact Ht|reflexivity|reflexivity|done|cbn; by rewrite ?Ecl|]);
      cbn; try done.
    + right. by right.
    + right. by left.
    + pose proof (p_closed s Hp) as Hc. rewrite Est, Ecl in Hc. by specialize (Hc ltac:(done)).
  - exists ops. destruct (methodMu s); [done|]. injection H as <-. by eapply linear_move.
  - exists ops. destruct (readView closedErr rd l (hw s)) as [[r|?] ?] eqn:Er; [|done].
    injection H as <-. eapply linear_move; [exact HL|exact Ht|reflexivity|reflexivity|done|done|].
    pose proof (csum_lookup_le admitted _ _ _ Ht) as Ha. cbn in Ha.
    pose proof (p_admitted s Hp) as Hadm. pose proof (p_native s Hp) as Hn.
    assert (existsb closes ops = false) as Hopen.
    { destruct (existsb closes ops) eqn:E; [|done]. exfalso.
      apply existsb_exists in E as (op & Hin & Hcl). apply list_elem_of_In in Hin.
      rewrite Ho in Hin. apply list_elem_of_omap in Hin as (t & Hin & He).
      apply list_elem_of_lookup in Hin as [j Hj]. specialize (Hok _ _ Hj).
      pose proof (p_reading s Hp ltac:(lia)) as Hnc.
      pose proof (csum_lookup_le in_native _ _ _ Hj) as Hj4.
      destruct t; simplify_eq/=; [lia|by rewrite Hnc in Hok; specialize (Hok Hcl)..]. }
    destruct (still_open_all w0 h ops Hw0 Hopen) as [h' Hh].
    exists ops, h'. split; [done|]. split; [|exact Hh].
    unfold readView, load, bind, gets, ret in Er. rewrite Hw, Hh in Er. cbn in Er.
    by simplify_eq.
  - exists ops. injection H as <-. by eapply linear_move.
  - exists ops. injection H as <-. eapply linear_move; [exact HL|exact Ht|..];
      unfold endRead; repeat case_match; try done; by left.
  - exists ops. destruct (lifecycleMu s); [done|]. injection H as <-. by eapply linear_move.
  - exists ops. injection H as <-. unfold markFinalizing.
    destruct (readers s =? 0); by eapply linear_move.
  - exists ops. case_bool_decide; [|done]. injection H as <-. by eapply linear_move.
  - exists (ops ++ [op]). injection H as <-. split; cbn.
    + by rewrite after_snoc, Hw.
    + rewrite (omap_move _ _ _ (FSettle op) Ht) by done. cbn. rewrite <- Ho.
      by rewrite Permutation_app_comm.
    + intros j t2 Hj. apply list_lookup_insert_Some in Hj as [(<- & <- & _)|[_ Hj]]; [done|].
      eapply thread_ok_mono; [by apply prefix_app_r|done|by eapply Hok].
  - exists ops. injection H as <-. unfold settleState.
    eapply linear_move; [exact HL|exact Ht|reflexivity|reflexivity|done|..]; cbn.
    + intros ->. by rewrite orb_true_r.
    + by intros ->.
  - exists ops. injection H as <-. by eapply linear_move.
Qed.

Lemma linear_reach w0 h s :
  heap w0 !! l = Some (mkObj (Some h) false) -> reach w0 s -> exists ops, linear w0 ops s.
Proof.
  intros Hw0. apply (invariant_reachable step (initial w0) (fun s => exists ops, linear w0 ops s)).
  - intros s0 (ts & Hts & ->). exists []. split; cbn; [done| |].
    + induction Hts as [|t ts Ht _ IH]; [done|]. destruct t; try done; exact IH.
    + intros i t Hi. rewrite Forall_lookup in Hts. specialize (Hts _ _ Hi). by destruct t.
  - intros s0 i s' Hr [ops HL] H. by eapply step_linear; [|eapply protocol_reach|..].
Qed.

(** ** Progress *)

(** The steps a goroutine has left. *)
Definition cost (t : thread) : nat :=
  match t with
  | RBegin _ => 5 | RAdmitted _ => 4 | RLocked _ => 3 | RGot _ _ => 2 | RLeft _ _ => 1
  | RDone _ _ => 0
  | FStart _ => 6 | FMark _ => 5 | FWait _ _ => 4 | FNative _ => 3 | FSettle _ => 2
  | FUnlock _ => 1 | FDone _ => 0
  end.

Lemma step_cost i s s' :
  step i s = Some s' -> csum cost (threads s') < csum cost (threads s).
Proof.
  intros H. unfold step in H. destruct (threads s !! i) as [t|] eqn:Ht; [|done].
  destruct t as [rd|rd|rd|rd r|rd r|rd r|op|op|op ch|op|op|op|op];
    unfold beginRead, endRead, markFinalizing in H; repeat case_match; simplify_eq; cbn;
    match goal with |- context [<[i := ?t]> _] =>
      pose proof (csum_insert cost _ _ _ t Ht); cbn in *; lia end.
Qed.

Lemma run_cost ls : forall s s',
  run step ls s = Some s' -> length ls + csum cost (threads s') <= csum cost (threads s).
Proof.
  induction ls as [|i ls IH]; intros s s'; cbn; [intros [= ->]; lia|].
  destruct (step i s) as [s1|] eqn:E; [|done]. intros H.
  pose proof (step_cost i s s1 E). specialize (IH s1 s' H). lia.
Qed.

(** A goroutine that is not waiting for a lock or a channel can move. *)
Definition ready (t : thread) : bool :=
  match t with
  | RBegin _ | RLocked _ | RGot _ _ | RLeft _ _ | FMark _ | FNative _ | FSettle _ | FUnlock _ => true
  | _ => false
  end.

Lemma after_in_heap w0 ops :
  is_Some (heap w0 !! l) -> is_Some (heap (after w0 ops) !! l).
Proof.
  intros Hw. induction ops as [|op ops IH] using rev_ind; [done|]. rewrite after_snoc.
  assert (forall v : world U, is_Some (heap v !! l) ->
    is_Some (heap (snd (commitPending native k l v)) !! l) /\
    is_Some (heap (snd (rollbackPending native k l v)) !! l) /\
    is_Some (heap (snd (closePending native k l v)) !! l)) as Hk.
  { intros v [o Hv]. unfold commitPending, rollbackPending, closePending, load, store, ncall,
      modify, bind, ret. rewrite Hv.
    destruct (resolved o), (handle o) as [h|]; cbn; rewrite ?Hv; split_and!; try done;
      match goal with |- context [native ?c ?u] => destruct (native c u) as [[] ?] end; cbn;
      rewrite ?lookup_insert_eq, ?Hv; by eexists. }
  destruct op; cbn [run_op]; try by apply Hk.
  all: unfold bind; destruct (Hk _ IH) as (Hc & Hr & _).
  - destruct (commitPending native k l (after w0 ops)) as [[]v]; [by apply Hk|done].
  - destruct (rollbackPending native k l (after w0 ops)) as [[]v]; [by apply Hk|done].
Qed.

Lemma ready_steps w0 ops s i t :
  is_Some (heap w0 !! l) -> linear w0 ops s -> threads s !! i = Some t -> ready t = true ->
  is_Some (step i s).
Proof.
  intros Hw HL Ht Hr. unfold step. rewrite Ht. destruct t; try done; try by eexists.
  destruct (after_in_heap w0 ops Hw) as [o Ho].
  unfold readView, load, bind, gets, ret. rewrite (l_world _ _ _ HL), Ho.
  destruct (handle o); by eexists.
Qed.

Lemma some_step w0 ops s :
  is_Some (heap w0 !! l) -> protocol s -> linear w0 ops s ->
  existsb (fun t => negb (thread_done t)) (threads s) = true -> exists i, is_Some (step i s).
Proof.
  intros Hw Hp HL Hnd.
  destruct (existsb ready (threads s)) eqn:Er.
  { apply existsb_exists in Er as (t & Hin & Hr).
    apply list_elem_of_In, list_elem_of_lookup in Hin as [i Hi]. exists i. by eapply ready_steps. }
  assert (forall i t, threads s !! i = Some t -> ready t = false) as Hnr.
  { intros i t Hi. destruct (ready t) eqn:E; [|done].
    assert (existsb ready (threads s) = true) as Hc; [|congruence].
    apply existsb_exists. exists t. split; [|done]. apply list_elem_of_In.
    by eapply list_elem_of_lookup_2. }
  assert (forall f : thread -> nat, (forall t, ready t = false -> f t = 0) ->
    csum f (threads s) = 0) as Hzero.
  { intros f Hf. destruct (csum f (threads s)) eqn:E; [done|].
    destruct (csum_pos f (threads s)) as (i & x & Hi & Hx); [lia|].
    specialize (Hf x (Hnr i x Hi)). lia. }
  pose proof (p_method s Hp) as Hm. rewrite Hzero in Hm by (by intros []).
  assert (methodMu s = false) as Hmu by (by destruct (methodMu s)).
  apply existsb_exists in Hnd as (t & Hin & Hd).
  apply list_elem_of_In, list_elem_of_lookup in Hin as [i Hi].
  assert (forall j rd, threads s !! j = Some (RAdmitted rd) -> exists i, is_Some (step i s)) as Hra.
  { intros j rd Hj. exists j. unfold step. rewrite Hj, Hmu. by eexists. }
  assert (forall j op ch, threads s !! j = Some (FWait op ch) -> exists i, is_Some (step i s)) as Hwt.
  { intros j op ch Hj. destruct (p_wait s Hp _ _ _ Hj) as [(Hc & _)|[_ Hrd]].
    - exists j. unfold step. rewrite Hj, bool_decide_true by done. by eexists.
    - pose proof (p_admitted s Hp) as Ha.
      destruct (csum_pos admitted (threads s)) as (m & x & Hmx & Hx); [lia|].
      pose proof (Hnr m x Hmx). destruct x; cbn in *; try done; try lia. by eapply Hra. }
  pose proof (Hnr i t Hi) as Hrt. destruct t; try done; [by eapply Hra| |by eapply Hwt].
  destruct (lifecycleMu s) eqn:El; [|exists i; unfold step; rewrite Hi, El; by eexists].
  pose proof (p_life s Hp) as Hl. rewrite El in Hl. cbn in Hl.
  destruct (csum_pos in_life (threads s)) as (m & x & Hmx & Hx); [lia|].
  pose proof (Hnr m x Hmx). destruct x; cbn in *; try done; try lia. by eapply Hwt.
Qed.
End AsyncHandle.

Section Theorems.
Context {U A : Type}.
Context (native : nativeCall -> U -> outcome unit * U).
Context (k : handleKind) (l : nat) (closedErr : error).
Abbreviation Reach := (reach (A := A) native k l closedErr).
Abbreviation Step := (step (A := A) native k l closedErr).

(** no snapshot read overlaps a finalizer: in every interleaving of any
    number of readers and finalizers, while one goroutine is inside a native
    finalizer no read is admitted or running and no other finalizer is inside, and
    never do two reads run at once. *)
Theorem reads_exclude_finalizers w0 s i op :
  Reach w0 s -> threads s !! i = Some (FNative op) ->
  (forall j t, threads s !! j = Some t -> admitted t = 0) /\
  (forall j op', threads s !! j = Some (FNative op') -> j = i) /\
  readers s = 0 /\ state s = handleFinalizing.
Proof.
  intros Hr Hi. pose proof (protocol_reach native k l closedErr w0 s Hr) as Hp.
  pose proof (csum_lookup_le in_native _ _ _ Hi) as Hn. cbn in Hn.
  pose proof (p_native s Hp ltac:(lia)) as H0. pose proof (p_admitted s Hp) as Ha.
  split_and!; [| |done|].
  - intros j t Hj. eapply csum_zero; [|exact Hj]. lia.
  - intros j op' Hj. symmetry.
    destruct (decide (i = j)) as [|Hne]; [done|]. exfalso.
    pose proof (csum_insert in_life _ _ _ (FStart op) Hi) as H1.
    assert (<[i := FStart op]> (threads s) !! j = Some (FNative op')) as Hj'
      by (by rewrite list_lookup_insert_ne).
    pose proof (csum_lookup_le in_life _ _ _ Hj') as H2. cbn in H1, H2.
    pose proof (p_life s Hp) as H3. destruct (lifecycleMu s); cbn in H3; lia.
  - pose proof (p_fin s Hp) as Hf. pose proof (finalizing_split (threads s)) as Hs.
    case_bool_decide as Hst; [done|]. cbn in Hf. lia.
Qed.

(** C31: a wrapper is linearizable to the plain lifetime object: in every
    interleaving, the process is what some sequential order of the finalizers that
    have called the object leaves, each once; every finished read either was made
    on the open object between two of those finalizers and returns what the
    native engine then held, or was refused - as in progress, or as closed, and
    the latter only when the wrapper is closed for good. *)
Theorem wrapper_linearizes w0 h s :
  heap w0 !! l = Some (mkObj (Some h) false) -> Reach w0 s ->
  exists ops,
    hw s = after native k l w0 ops /\
    ops ≡ₚ omap executed (threads s) /\
    (forall i read r, threads s !! i = Some (RDone read r) ->
       (exists ops1 h', ops1 `prefix_of` ops /\
          r = inl (read h' (ext (after native k l w0 ops1))) /\
          heap (after native k l w0 ops1) !! l
            = Some (mkObj (Some h') (bool_decide (ops1 <> [])))) \/
       r = inr ErrFinalizationInProgress \/ (r = inr closedErr /\ closed s = true)) /\
    (forall i op, threads s !! i = Some (FDone op) -> closes op = true -> closed s = true).
Proof.
  intros Hw Hr. destruct (linear_reach native k l closedErr w0 h s Hw Hr) as [ops [H1 H2 H3]].
  exists ops. split_and!; [done|done| |].
  - intros i read r Hi. exact (H3 _ _ Hi).
  - intros i op Hi. exact (H3 _ _ Hi).
Qed.

(** no call on a wrapper blocks for ever: from every state of every
    interleaving the goroutines can all run to their end, no schedule is stuck
    before that, and no schedule is longer than [cost] says, at most six steps a
    goroutine. *)
Theorem wrapper_calls_return w0 h s :
  heap w0 !! l = Some (mkObj (Some h) false) -> Reach w0 s ->
  (forall ls s', run Step ls s = Some s' -> length ls <= csum cost (threads s)) /\
  (existsb (fun t => negb (thread_done t)) (threads s) = true -> exists i, is_Some (Step i s)) /\
  exists ls s', run Step ls s = Some s' /\ forallb thread_done (threads s') = true.
Proof.
  intros Hw Hr.
  assert (forall s, Reach w0 s ->
    existsb (fun t => negb (thread_done t)) (threads s) = true -> exists i, is_Some (Step i s)) as Hstep.
  { intros s1 Hr1. destruct (linear_reach native k l closedErr w0 h s1 Hw Hr1) as [ops HL].
    eapply some_step; [by eexists|by eapply protocol_reach|done]. }
  split_and!; [|by apply Hstep|].
  - intros ls s' H. pose proof (run_cost native k l closedErr ls s s' H). lia.
  - remember (csum cost (threads s)) as n eqn:En. revert s Hr En.
    induction n as [n IH] using (well_founded_induction Nat.lt_wf_0). intros s Hr ->.
    destruct (existsb (fun t => negb (thread_done t)) (threads s)) eqn:Ed.
    + destruct (Hstep s Hr Ed) as [i [s1 Hs]].
      destruct (IH (csum cost (threads s1)) (step_cost native k l closedErr i s s1 Hs) s1)
        as (ls & s' & Hrun & Hd); [by eapply reachable_step|done|].
      exists (i :: ls), s'. cbn. by rewrite Hs.
    + exists [], s. split; [done|]. apply forallb_forall. intros t Ht.
      destruct (thread_done t) eqn:Et; [done|].
      assert (existsb (fun t => negb (thread_done t)) (threads s) = true) as Hc; [|congruence].
      apply existsb_exists. exists t. by rewrite Et.
Qed.
End Theorems.

(** ** A concrete interleaving

    A reader is admitted, a closing finalizer waits for it, a second reader is
    refused as in progress and a third, later, as closed. *)
Definition demo_threads : list (thread (U := nat) (A := nat)) :=
  [RBegin (fun h u => h + u); FStart OpRollbackAndClose; RBegin (fun h _ => h);
   RBegin (fun h _ => h)].
Definition demo_open : world nat := mkWorld {[3 := mkObj (Some 7) false]} [] 1.
Definition demo_wrapper : wrapper (A := nat) :=
  mkWrapper demo_open false false handleOpen false 0 None 0 [] demo_threads.
Abbreviation demo_step := (step (A := nat) demo_native KReservation 3 ErrReservationClosed).
Definition demo_schedule : list nat := [0; 1; 1; 2; 0; 0; 0; 0; 1].

Lemma demo_wrapper_initial : initial (A := nat) demo_open demo_wrapper.
Proof. exists demo_threads. split; [repeat constructor|done]. Qed.
Definition demo_state (n : nat) : wrapper (A := nat) :=
  default demo_wrapper (run demo_step (take n (demo_schedule ++ [1; 1; 1; 3])) demo_wrapper).
Lemma demo_reach n :
  reach (A := nat) demo_native KReservation 3 ErrReservationClosed demo_open (demo_state n).
Proof.
  unfold demo_state. destruct (run demo_step _ demo_wrapper) as [s|] eqn:E; cbn.
  - eapply run_reachable; [|exact E]. apply reachable_init, demo_wrapper_initial.
  - apply reachable_init, demo_wrapper_initial.
Qed.

Lemma reads_exclude_finalizers_witness :
  threads (demo_state 9) !! 1 = Some (FNative OpRollbackAndClose) /\
  (forall j t, threads (demo_state 9) !! j = Some t -> admitted t = 0) /\
  (forall j op', threads (demo_state 9) !! j = Some (FNative op') -> j = 1) /\
  readers (demo_state 9) = 0 /\ state (demo_state 9) = handleFinalizing.
Proof.
  split; [vm_compute; reflexivity|].
  apply (reads_exclude_finalizers demo_native KReservation 3 ErrReservationClosed demo_open
    (demo_state 9) 1 OpRollbackAndClose); [apply demo_reach|vm_compute; reflexivity].
Defined.

Lemma wrapper_linearizes_witness :
  omap (fun t => match t with RDone _ r => Some r | _ => None end) (threads (demo_state 13))
    = [inl 8; inr ErrFinalizationInProgress; inr ErrReservationClosed] /\
  exists ops,
    hw (demo_state 13) = after demo_native KReservation 3 demo_open ops /\
    ops ≡ₚ omap executed (threads (demo_state 13)) /\
    (forall i read r, threads (demo_state 13) !! i = Some (RDone read r) ->
       (exists ops1 h', ops1 `prefix_of` ops /\
          r = inl (read h' (ext (after demo_native KReservation 3 demo_open ops1))) /\
          heap (after demo_native KReservation 3 demo_open ops1) !! 3
            = Some (mkObj (Some h') (bool_decide (ops1 <> [])))) \/
       r = inr ErrFinalizationInProgress \/
       (r = inr ErrReservationClosed /\ closed (demo_state 13) = true)) /\
    (forall i op, threads (demo_state 13) !! i = Some (FDone op) -> closes op = true ->
       closed (demo_state 13) = true).
Proof.
  split; [vm_compute; reflexivity|].
  apply (wrapper_linearizes demo_native KReservation 3 ErrReservationClosed demo_open 7
    (demo_state 13)); [reflexivity|apply demo_reach].
Defined.

Lemma wrapper_calls_return_witness :
  (forall ls s', run demo_step ls (demo_state 4) = Some s' ->
     length ls <= csum cost (threads (demo_state 4))) /\
  (existsb (fun t => negb (thread_done t)) (threads (demo_state 4)) = true ->
     exists i, is_Some (demo_step i (demo_state 4))) /\
  exists ls s', run demo_step ls (demo_state 4) = Some s' /\
    forallb thread_done (threads s') = true.
Proof.
  apply (wrapper_calls_return demo_native KReservation 3 ErrReservationClosed demo_open 7
    (demo_state 4)); [reflexivity|apply demo_reach].
Defined.
