(* ===== verification/Exclusive.v ===== *)
(** * Exclusive sections

    [AsyncEngine.Exclusive]: [runExclusive], [exclusiveSection] and the barrier
    tasks of asyncengine/exclusive.go, with what they share with the strategies:
    installing and withdrawing a section, creating and retiring lanes while one is
    installed ([getOrCreate] and [retireIfIdle] of asyncengine/dynamic.go), the
    releases that run off any lane ([cleanupWithoutLiveLane], and the lifecycle
    cleanups of asyncengine/strategy.go), and the end of a stop.

    A lane appears here by its worker and by the barriers in its backlog; what
    orders a barrier behind the lane's earlier tasks is in [LaneOrder]. Between
    barriers a worker may run ordinary tasks at any time, except that a lane
    created while a section is installed meets its barrier first. Handle releases
    from the backlog run at any time too.

    [retireIfIdle] is two steps, its last look at [pending] and its [markRetired],
    because a release can be queued and taken by the worker in between. In the code
    every goroutine that needs the strategy's lock waits meanwhile; here it goes
    ahead, and the attempt is dropped ([takeMu]). A dropped attempt stands for one
    that [markRetired] refused or that was not made, since the look changes nothing;
    where the others do wait, the seal is simply the earlier step. *)
From Stdlib Require Import ZArith Lia.
From stdpp Require Import base list gmap strings.
From S2P Require Import Prelude.

Inductive xresult := RNil | RPanic | RCtx | RStopped.

(** What a worker does: [WTask] is a task from the channel, [WRelease] a handle
    release from the mandatory backlog. The two differ because a producer admits a
    task under the queue's gate, while [enqueueMandatory] takes no lock that
    [retireIfIdle] holds. *)
Inductive worker :=
| WIdle
| WTask
| WRelease
| WBarrier (i : nat)
| WParked (i : nat)
| WHeld (i : nat)
| WGone.
#[global] Instance worker_eq_dec : EqDecision worker.
Proof. solve_decision. Defined.

(** A lane: closed and retired flags, the barriers in its backlog by section with
    whether the lane was created with it, and its worker. *)
Record lane := mkLane {
  lclosed : bool;
  lretired : bool;
  lbarriers : list (nat * bool);
  lworker : worker;
}.

(** What an installed section still waits for among the releases that were running
    off the lanes: a key's barrier, or the lifecycle epoch's channel. *)
Inductive waitOn := OnCleanup (c : nat) | OnEpoch (ch : nat).

(** Where the goroutine in [runExclusive] is. *)
Inductive xpc :=
| XStart
| XTurn
| XReg
| XWait (queues : list nat) (running : list waitOn)
| XBar (queues : list nat)
| XPark (parked : nat)
| XCheck
| XFn
| XDrain (r : xresult)
| XRun (todo : list nat) (r : xresult)
| XRelease (r : xresult)
| XUnreg (r : xresult)
| XEndTurn (r : xresult)
| XDone (r : xresult).

Record section := mkSec {
  x_pc : xpc;
  x_expected : nat;
  x_released : bool;
  x_aborted : bool;
  x_deferred : list nat;
  x_fn : bool; (* fn has been started *)
}.

(** A goroutine releasing a handle that has no lane to queue behind. *)
Inductive cpc := CStart | CBarrier | CTracked | CUntracked | CPostponed (i : nat) | CRan.
#[global] Instance cpc_eq_dec : EqDecision cpc.
Proof. solve_decision. Defined.

Record xs := mkX {
  lanes : list lane;
  secs : list section;
  cleans : list cpc;
  turn : bool;
  sectionsWG : nat;
  stopped : bool;
  hard : bool;
  stopping : bool;
  activeSection : option nat;
  cleanupCount : nat;
  cleanupDone : option nat;
  madeChans : nat;
  doneChans : list nat;
  sealed : bool;
  retiring : option nat;
}.

(** Which ready case of a [select] is taken. *)
Inductive choice := Go | Ctx | Stop | Alt.

Inductive label :=
| LSection (i : nat) (c : choice)
| LPark (i j : nat)
| LWorker (j : nat) (c : choice)
| LCreate
| LRetire (j : nat)
| LSeal (j : nat)
| LCleanup (c : nat) (ch : choice)
| LStop
| LHardStop
| LMarkStopping
| LClose (j : nat)
| LFinish.

Definition with_lanes (l : list lane) (s : xs) : xs :=
  mkX l (secs s) (cleans s) (turn s) (sectionsWG s) (stopped s) (hard s) (stopping s)
    (activeSection s) (cleanupCount s) (cleanupDone s) (madeChans s) (doneChans s) (sealed s)
    (retiring s).
Definition with_secs (l : list section) (s : xs) : xs :=
  mkX (lanes s) l (cleans s) (turn s) (sectionsWG s) (stopped s) (hard s) (stopping s)
    (activeSection s) (cleanupCount s) (cleanupDone s) (madeChans s) (doneChans s) (sealed s)
    (retiring s).
Definition with_cleans (l : list cpc) (s : xs) : xs :=
  mkX (lanes s) (secs s) l (turn s) (sectionsWG s) (stopped s) (hard s) (stopping s)
    (activeSection s) (cleanupCount s) (cleanupDone s) (madeChans s) (doneChans s) (sealed s)
    (retiring s).
Definition with_turn (b : bool) (s : xs) : xs :=
  mkX (lanes s) (secs s) (cleans s) b (sectionsWG s) (stopped s) (hard s) (stopping s)
    (activeSection s) (cleanupCount s) (cleanupDone s) (madeChans s) (doneChans s) (sealed s)
    (retiring s).
Definition with_wg (n : nat) (s : xs) : xs :=
  mkX (lanes s) (secs s) (cleans s) (turn s) n (stopped s) (hard s) (stopping s)
    (activeSection s) (cleanupCount s) (cleanupDone s) (madeChans s) (doneChans s) (sealed s)
    (retiring s).
Definition with_active (a : option nat) (s : xs) : xs :=
  mkX (lanes s) (secs s) (cleans s) (turn s) (sectionsWG s) (stopped s) (hard s) (stopping s)
    a (cleanupCount s) (cleanupDone s) (madeChans s) (doneChans s) (sealed s)
    (retiring s).
Definition with_cleanup (n : nat) (d : option nat) (m : nat) (l : list nat) (s : xs) : xs :=
  mkX (lanes s) (secs s) (cleans s) (turn s) (sectionsWG s) (stopped s) (hard s) (stopping s)
    (activeSection s) n d m l (sealed s) (retiring s).

Definition with_retiring (r : option nat) (s : xs) : xs :=
  mkX (lanes s) (secs s) (cleans s) (turn s) (sectionsWG s) (stopped s) (hard s) (stopping s)
    (activeSection s) (cleanupCount s) (cleanupDone s) (madeChans s) (doneChans s) (sealed s) r.

(** A goroutine that gets the strategy's lock finds no retirement under way. *)
Definition takeMu (s : xs) : xs := with_retiring None s.

Definition at_pc (p : xpc) (x : section) : section :=
  mkSec p (x_expected x) (x_released x) (x_aborted x) (x_deferred x) (x_fn x).
Definition setPc (i : nat) (x : section) (p : xpc) (s : xs) : xs :=
  with_secs (<[i := at_pc p x]> (secs s)) s.
Definition setSec (i : nat) (x : section) (s : xs) : xs := with_secs (<[i := x]> (secs s)) s.
Definition setClean (c : nat) (p : cpc) (s : xs) : xs := with_cleans (<[c := p]> (cleans s)) s.

Section System.
(** [dynamic]: the lanes are created and retired on demand. *)
Context (dynamic : bool).

(** ** The section *)

(** [installExclusive]: the lanes to stop, and what to wait for. *)
Definition snapshotLanes (s : xs) : list nat :=
  List.filter (fun j => match lanes s !! j with
                        | Some l => negb (dynamic && lclosed l)
                        | None => false
                        end) (seq 0 (length (lanes s))).
Definition snapshotRunning (s : xs) : list waitOn :=
  (OnCleanup <$> List.filter (fun c => bool_decide (cleans s !! c = Some CBarrier))
                   (seq 0 (length (cleans s)))) ++
  match cleanupCount s, cleanupDone s with
  | S _, Some ch => [OnEpoch ch]
  | _, _ => []
  end.
Definition installExclusive (i : nat) (x : section) (s : xs) : xs :=
  with_active (Some i) (setPc i x (XWait (snapshotLanes s) (snapshotRunning s)) (takeMu s)).

Definition waitDone (r : waitOn) (s : xs) : bool :=
  match r with
  | OnCleanup c => negb (bool_decide (cleans s !! c = Some CBarrier))
  | OnEpoch ch => bool_decide (ch ∈ doneChans s)
  end.

(** [enqueueBarrier]: a retired lane, or one whose worker exited, takes none. *)
Definition enqueueBarrier (i j : nat) (first : bool) (s : xs) : option xs :=
  match lanes s !! j with
  | None => None
  | Some l =>
    if lretired l || bool_decide (lworker l = WGone) then None
    else Some (with_lanes (<[j := mkLane (lclosed l) (lretired l)
                                   (lbarriers l ++ [(i, first)]) (lworker l)]> (lanes s)) s)
  end.

(** [withdrawExclusive]: it succeeds only when nothing was postponed. *)
Definition withdrawExclusive (i : nat) (x : section) (r : xresult) (s : xs) : xs :=
  match x_deferred x with
  | [] => with_active None (setPc i x (XRelease r) s)
  | d => setSec i (mkSec (XRun d r) (x_expected x) (x_released x) (x_aborted x) [] (x_fn x)) s
  end.

Definition runExclusive (i : nat) (c : choice) (s : xs) : option xs :=
  match secs s !! i with
  | None => None
  | Some x =>
    let goto p := Some (setPc i x p s) in
    match x_pc x, c with
    (* the turn *)
    | XStart, Go => if turn s then None else Some (with_turn true (setPc i x XTurn s))
    | XStart, Ctx => goto (XDone RCtx)
    | XStart, Stop => if stopped s then goto (XDone RStopped) else None
    (* beginSection *)
    | XTurn, Go =>
      if stopped s then goto (XEndTurn RStopped)
      else Some (with_wg (S (sectionsWG s)) (setPc i x XReg s))
    | XReg, Go => Some (installExclusive i x s)
    (* the releases already running *)
    | XWait q [], Go => goto (XBar q)
    | XWait q (r :: rs), Go => if waitDone r s then goto (XWait q rs) else None
    | XWait _ (_ :: _), Ctx => goto (XDrain RCtx)
    | XWait _ (_ :: _), Stop => if stopped s then goto (XDrain RStopped) else None
    (* the barriers *)
    | XBar [], Go => goto (XPark 0)
    | XBar (j :: q), Go =>
      match enqueueBarrier i j false s with
      | Some s => Some (setSec i (mkSec (XBar q) (S (x_expected x)) (x_released x)
                                    (x_aborted x) (x_deferred x) (x_fn x)) s)
      | None => goto (XBar q)
      end
    (* the lanes; a lane parks in [LPark] *)
    | XPark n, Go => if n <? x_expected x then None else goto XCheck
    | XPark n, Alt => if (n <? x_expected x) && x_aborted x then goto (XDrain RStopped) else None
    | XPark n, Ctx => if n <? x_expected x then goto (XDrain RCtx) else None
    | XPark n, Stop =>
      if (n <? x_expected x) && stopped s then goto (XDrain RStopped) else None
    (* the last look at ctx and stop *)
    | XCheck, Ctx => goto (XDrain RCtx)
    | XCheck, Stop => if stopped s then goto (XDrain RStopped) else None
    | XCheck, Go =>
      if stopped s then None
      else Some (setSec i (mkSec XFn (x_expected x) (x_released x) (x_aborted x)
                             (x_deferred x) true) s)
    (* fn returns or panics *)
    | XFn, Go => goto (XDrain RNil)
    | XFn, Alt => goto (XDrain RPanic)
    (* the deferred function: the postponed releases, then the lanes *)
    | XDrain r, Go => Some (withdrawExclusive i x r s)
    | XRun [] r, Go => goto (XDrain r)
    | XRun (c :: cs) r, Go => Some (setClean c CRan (setPc i x (XRun cs r) s))
    | XRelease r, Go =>
      Some (setSec i (mkSec (XUnreg r) (x_expected x) true (x_aborted x)
                        (x_deferred x) (x_fn x)) s)
    | XUnreg r, Go => Some (with_wg (pred (sectionsWG s)) (setPc i x (XEndTurn r) s))
    | XEndTurn r, Go => Some (with_turn false (setPc i x (XDone r) s))
    | _, _ => None
    end
  end.

(** ** The workers *)

Definition setWorker (j : nat) (l : lane) (w : worker) (s : xs) : xs :=
  with_lanes (<[j := mkLane (lclosed l) (lretired l) (lbarriers l) w]> (lanes s)) s.
Definition isReleased (i : nat) (s : xs) : bool :=
  match secs s !! i with Some x => x_released x | None => true end.

(** The rendezvous of a barrier with the section's receive. *)
Definition park (i j : nat) (s : xs) : option xs :=
  match secs s !! i, lanes s !! j with
  | Some x, Some l =>
    match x_pc x with
    | XPark n =>
      if (n <? x_expected x) && bool_decide (lworker l = WBarrier i)
      then Some (setWorker j l (WParked i) (setPc i x (XPark (S n)) s))
      else None
    | _ => None
    end
  | _, _ => None
  end.

(** [abort] of a barrier marks the section aborted, once. *)
Definition abortSection (i : nat) (s : xs) : xs :=
  match secs s !! i with
  | Some x => setSec i (mkSec (x_pc x) (x_expected x) (x_released x) true (x_deferred x) (x_fn x)) s
  | None => s
  end.

Definition workerStep (j : nat) (c : choice) (s : xs) : option xs :=
  match lanes s !! j with
  | None => None
  | Some l =>
    match lworker l, c with
    | WIdle, Go =>
      match lbarriers l with
      | (i, _) :: rest =>
        let s' := with_lanes (<[j := mkLane (lclosed l) (lretired l) rest
            (if hard s then WHeld i else WBarrier i)]> (lanes s)) s in
        Some (if hard s then abortSection i s' else s')
      | [] => None
      end
    | WIdle, Alt =>
      match lbarriers l with
      | (_, true) :: _ => None
      | _ => if lretired l || bool_decide (retiring s = Some j) then None
             else Some (setWorker j l WTask s)
      end
    | WIdle, Ctx =>
      match lbarriers l with
      | (_, true) :: _ => None
      | _ => if lretired l then None else Some (setWorker j l WRelease s)
      end
    | WIdle, Stop =>
      match lbarriers l with
      | [] => if lclosed l then Some (setWorker j l WGone s) else None
      | _ => None
      end
    | WTask, Go | WRelease, Go => Some (setWorker j l WIdle s)
    | WBarrier i, Go | WParked i, Go | WHeld i, Go =>
      if isReleased i s then Some (setWorker j l WIdle s) else None
    | _, _ => None
    end
  end.

(** [getOrCreate] making a lane: it starts with the installed section's barrier. *)
Definition createLane (s : xs) : option xs :=
  if negb dynamic || stopping s then None
  else match activeSection s with
       | None => Some (with_lanes (lanes s ++ [mkLane false false [] WIdle]) (takeMu s))
       | Some i =>
         match secs s !! i with
         | None => None
         | Some x =>
           Some (setSec i (mkSec (x_pc x) (S (x_expected x)) (x_released x) (x_aborted x)
                             (x_deferred x) (x_fn x))
                   (with_lanes (lanes s ++ [mkLane false false [(i, true)] WIdle]) (takeMu s)))
         end
       end.

(** [retireIfIdle] up to its last look at [pending], which it leaves with the
    strategy's lock and the lane's gate: never while a section is installed, and
    never once the engine is stopped, because a stop ends the cleanup loop first. *)
Definition retireLane (j : nat) (s : xs) : option xs :=
  match dynamic, stopped s, activeSection s, lanes s !! j with
  | true, false, None, Some l =>
    if lclosed l then None
    else match lworker l, lbarriers l with
         | WIdle, [] => Some (with_retiring (Some j) s)
         | _, _ => None
         end
  | _, _, _, _ => None
  end.

(** The rest of [retireIfIdle]: [markRetired] asks only for an empty backlog, so the
    worker may be running a release that came after the last look. *)
Definition sealLane (j : nat) (s : xs) : option xs :=
  if bool_decide (retiring s = Some j) then
    match dynamic, lanes s !! j with
    | true, Some l =>
      match lworker l, lbarriers l with
      | WIdle, [] | WRelease, [] =>
        Some (takeMu (with_lanes (<[j := mkLane true true [] (lworker l)]> (lanes s)) s))
      | _, _ => None
      end
    | _, _ => None
    end
  else None.

(** ** Releases off the lanes *)

Definition postpone (c i : nat) (s : xs) : xs :=
  match secs s !! i with
  | None => s
  | Some x =>
    setClean c (CPostponed i)
      (setSec i (mkSec (x_pc x) (x_expected x) (x_released x) (x_aborted x)
                   (x_deferred x ++ [c]) (x_fn x)) s)
  end.

(** [cleanupWithoutLiveLane], once it has found no lane for the key. *)
Definition cleanupWithoutLiveLane (c : nat) (s : xs) : option xs :=
  if negb dynamic || stopping s then None
  else match activeSection s with
       | Some i => Some (postpone c i s)
       | None => Some (setClean c CBarrier (takeMu s))
       end.

Definition beginLifecycleCleanup (c : nat) (s : xs) : xs :=
  if sealed s then setClean c CUntracked s
  else match activeSection s with
       | Some i => postpone c i s
       | None =>
         let s := setClean c CTracked s in
         if cleanupCount s =? 0
         then with_cleanup 1 (Some (madeChans s)) (S (madeChans s)) (doneChans s) s
         else with_cleanup (S (cleanupCount s)) (cleanupDone s) (madeChans s) (doneChans s) s
       end.

Definition endLifecycleCleanup (s : xs) : xs :=
  match cleanupCount s with
  | 0 => s
  | S n =>
    if n =? 0
    then with_cleanup 0 None (madeChans s)
           (match cleanupDone s with Some ch => ch :: doneChans s | None => doneChans s end) s
    else with_cleanup n (cleanupDone s) (madeChans s) (doneChans s) s
  end.

Definition cleanupStep (c : nat) (ch : choice) (s : xs) : option xs :=
  match cleans s !! c, ch with
  | Some CStart, Go => cleanupWithoutLiveLane c s
  | Some CStart, Alt => Some (beginLifecycleCleanup c s)
  | Some CBarrier, Go | Some CUntracked, Go => Some (setClean c CRan s)
  | Some CTracked, Go => Some (endLifecycleCleanup (setClean c CRan s))
  | _, _ => None
  end.

(** ** Stop *)

Definition closeLane (j : nat) (s : xs) : option xs :=
  match lanes s !! j with
  | Some l =>
    if stopped s && (negb dynamic || stopping s)
    then Some (with_lanes (<[j := mkLane true (lretired l) (lbarriers l) (lworker l)]> (lanes s)) s)
    else None
  | None => None
  end.

(** The end of a successful stop: the workers have exited, the sections have
    ended, and the last lifecycle cleanup too. *)
Definition finishLifecycleCleanups (s : xs) : option xs :=
  if stopped s && (negb dynamic || stopping s)
     && forallb (fun l => bool_decide (lworker l = WGone)) (lanes s)
     && (sectionsWG s =? 0) && (cleanupCount s =? 0)
  then Some (mkX (lanes s) (secs s) (cleans s) (turn s) (sectionsWG s) (stopped s) (hard s)
               (stopping s) (activeSection s) (cleanupCount s) (cleanupDone s) (madeChans s)
               (doneChans s) true (retiring s))
  else None.

Definition step (l : label) (s : xs) : option xs :=
  match l with
  | LSection i c => runExclusive i c s
  | LPark i j => park i j s
  | LWorker j c => workerStep j c s
  | LCreate => createLane s
  | LRetire j => retireLane j s
  | LSeal j => sealLane j s
  | LCleanup c ch => cleanupStep c ch s
  | LStop =>
    Some (mkX (lanes s) (secs s) (cleans s) (turn s) (sectionsWG s) true (hard s)
            (stopping s) (activeSection s) (cleanupCount s) (cleanupDone s) (madeChans s)
            (doneChans s) (sealed s) None)
  | LHardStop =>
    Some (mkX (lanes s) (secs s) (cleans s) (turn s) (sectionsWG s) (stopped s) true
            (stopping s) (activeSection s) (cleanupCount s) (cleanupDone s) (madeChans s)
            (doneChans s) (sealed s) (retiring s))
  | LMarkStopping =>
    if dynamic && stopped s
    then Some (mkX (lanes s) (secs s) (cleans s) (turn s) (sectionsWG s) (stopped s) (hard s)
                 true (activeSection s) (cleanupCount s) (cleanupDone s) (madeChans s)
                 (doneChans s) (sealed s) (retiring s))
    else None
  | LClose j => closeLane j s
  | LFinish => finishLifecycleCleanups s
  end.

(** An engine with [n] lanes, [m] calls of Exclusive and [k] releases to come. *)
Definition newSection : section := mkSec XStart 0 false false [] false.
Definition initial (s : xs) : Prop :=
  exists n m k,
    s = mkX (repeat (mkLane false false [] WIdle) n) (repeat newSection m) (repeat CStart k)
          false 0 false false false None 0 None 0 [] false None.
End System.
