(* ===== verification/ExclusiveFacts.v ===== *)
(** * Exclusive sections: invariants

    What holds in every state an engine with sections, lanes, off-lane releases
    and a stop reaches ([Exclusive]): one section at a time has the turn; a lane
    that took a section's barrier stays with it until the release; a release that
    arrives while a section is installed belongs to the section; a stop is sealed
    only after the last section. *)
From Stdlib Require Import ZArith Lia.
From stdpp Require Import base list gmap strings.
From S2P Require Import Prelude Exclusive.

Section Facts.
Context (dynamic : bool).
Abbreviation Step := (step dynamic).
Definition reach : xs -> Prop := reachable Step initial.

(** Where every section is. *)
Definition pcs (s : xs) : list xpc := x_pc <$> secs s.

Definition turn_pc (p : xpc) : nat :=
  match p with XStart | XDone _ => 0 | _ => 1 end.
Definition reg_pc (p : xpc) : nat :=
  match p with XStart | XTurn | XEndTurn _ | XDone _ => 0 | _ => 1 end.
Definition installed (p : xpc) : bool :=
  match p with
  | XWait _ _ | XBar _ | XPark _ | XCheck | XFn | XDrain _ | XRun _ _ => true
  | _ => false
  end.

(** [s'] has the same sections up to the counter and the list that a lane or a
    release may touch, and the same turn, registrations and installed section. *)
Definition same_sections (s s' : xs) : Prop :=
  turn s' = turn s /\ sectionsWG s' = sectionsWG s /\ activeSection s' = activeSection s /\
  pcs s' = pcs s /\ x_released <$> secs s' = x_released <$> secs s /\
  x_fn <$> secs s' = x_fn <$> secs s.

Definition other_label (l : label) : bool :=
  match l with LSection _ _ | LPark _ _ => false | _ => true end.

Lemma same_secs s s' :
  secs s' = secs s -> turn s' = turn s -> sectionsWG s' = sectionsWG s ->
  activeSection s' = activeSection s -> same_sections s s'.
Proof. intros Hs ? ? ?. unfold same_sections, pcs. by rewrite Hs. Qed.
Lemma same_set s s' i x x' :
  secs s !! i = Some x -> secs s' = <[i := x']> (secs s) ->
  x_pc x' = x_pc x -> x_released x' = x_released x -> x_fn x' = x_fn x ->
  turn s' = turn s -> sectionsWG s' = sectionsWG s ->
  activeSection s' = activeSection s -> same_sections s s'.
Proof.
  intros Hx Hs H1 H2 H3 ? ? ?. unfold same_sections, pcs.
  rewrite Hs, !list_fmap_insert, H1, H2, H3, !list_insert_id; repeat split; try done.
  all: by rewrite list_lookup_fmap, Hx.
Qed.

Lemma postpone_same c i s : same_sections s (postpone c i s).
Proof.
  unfold postpone. destruct (secs s !! i) as [x|] eqn:Hx; [|by apply same_secs].
  by eapply same_set.
Qed.

Lemma other_step l s s' :
  Step l s = Some s' -> other_label l = true -> same_sections s s'.
Proof.
  intros H Hl. destruct l; try done; cbn [step] in H.
  - unfold workerStep, abortSection in H.
    repeat (case_match; try discriminate); simplify_eq/=; try by apply same_secs.
    by eapply same_set.
  - unfold createLane in H. repeat (case_match; try discriminate); simplify_eq/=;
      [by eapply same_set|by apply same_secs].
  - unfold retireLane in H. repeat (case_match; try discriminate); simplify_eq/=; by apply same_secs.
  - unfold sealLane in H. repeat (case_match; try discriminate); simplify_eq/=; by apply same_secs.
  - unfold cleanupStep, cleanupWithoutLiveLane, beginLifecycleCleanup, endLifecycleCleanup in H.
    repeat (case_match; try discriminate); simplify_eq/=; try by apply same_secs.
    all: apply postpone_same.
  - simplify_eq. by apply same_secs.
  - simplify_eq. by apply same_secs.
  - case_match; simplify_eq. by apply same_secs.
  - unfold closeLane in H. repeat (case_match; try discriminate); simplify_eq/=; by apply same_secs.
  - unfold finishLifecycleCleanups in H. case_match; simplify_eq. by apply same_secs.
Qed.

(** A step of section [i], from where it is to where it goes. *)
Lemma section_step i c s s' :
  Step (LSection i c) s = Some s' ->
  exists x x', secs s !! i = Some x /\ secs s' = <[i := x']> (secs s).
Proof.
  cbn [step]. unfold runExclusive. destruct (secs s !! i) as [x|] eqn:Hx; [|done].
  intros H. exists x. destruct (x_pc x), c; try done;
    unfold withdrawExclusive, enqueueBarrier in H; repeat (case_match; try discriminate);
    simplify_eq/=; by eexists.
Qed.

(** ** Turns and registrations *)

Record turns (s : xs) : Prop := {
  t_turn : csum turn_pc (pcs s) = b2n (turn s);
  t_wg : csum reg_pc (pcs s) = sectionsWG s;
  t_active i p : pcs s !! i = Some p -> installed p = true -> activeSection s = Some i;
  t_installed i : activeSection s = Some i -> exists p, pcs s !! i = Some p /\ installed p = true;
}.

Lemma one_turn (l : list xpc) i j p q :
  csum turn_pc l <= 1 -> l !! i = Some p -> l !! j = Some q ->
  turn_pc p = 1 -> turn_pc q = 1 -> i = j.
Proof.
  revert i j. induction l as [|r l IH]; intros [|i] [|j] Hs Hi Hj Hp Hq; simplify_eq/=; try done.
  - pose proof (csum_lookup_le turn_pc _ _ _ Hj). lia.
  - pose proof (csum_lookup_le turn_pc _ _ _ Hi). lia.
  - f_equal. apply IH; try done. lia.
Qed.
Lemma installed_turn p : installed p = true -> turn_pc p = 1.
Proof. by destruct p. Qed.

Lemma turn_pc_01 p : turn_pc p = 0 \/ turn_pc p = 1.
Proof. destruct p; auto. Qed.

Lemma turns_move s s' i x p :
  turns s -> secs s !! i = Some x -> pcs s' = <[i := p]> (pcs s) ->
  turn_pc (x_pc x) + b2n (turn s') = turn_pc p + b2n (turn s) ->
  reg_pc (x_pc x) + sectionsWG s' = reg_pc p + sectionsWG s ->
  (if installed p then activeSection s' = Some i
   else activeSection s' = (if installed (x_pc x) then None else activeSection s)) ->
  (turn_pc (x_pc x) = 0 -> installed p = false) ->
  turns s'.
Proof.
  intros [Tt Tw Ta Ti] Hx Hp H1 H2 H3 H4.
  assert (pcs s !! i = Some (x_pc x)) as Hi by (unfold pcs; by rewrite list_lookup_fmap, Hx).
  pose proof (csum_insert turn_pc _ _ _ p Hi). pose proof (csum_insert reg_pc _ _ _ p Hi).
  assert (b2n (turn s) <= 1) by (destruct (turn s); cbn; lia).
  assert (forall j q, pcs s !! j = Some q -> turn_pc q = 1 -> turn_pc (x_pc x) = 1 -> j = i) as Huniq
    by (intros j q Hj Hq Hx1; eapply one_turn; [|exact Hj|exact Hi|done|done]; lia).
  split; rewrite ?Hp; try lia.
  - intros j q Hj Hq. apply list_lookup_insert_Some in Hj as [(<- & <- & _)|[Hne Hj]].
    + by rewrite Hq in H3.
    + pose proof (Ta j q Hj Hq) as Hact.
      assert (turn_pc (x_pc x) = 1 -> False) as Hno
        by (intros Hx1; apply Hne; symmetry; eapply Huniq; [exact Hj|by apply installed_turn|done]).
      destruct (installed p) eqn:Ep.
      * exfalso. apply Hno. destruct (turn_pc_01 (x_pc x)) as [E0|E0]; [|done].
        specialize (H4 E0). congruence.
      * destruct (installed (x_pc x)) eqn:Ex; [|congruence].
        exfalso. apply Hno. by apply installed_turn.
  - intros j Hj. destruct (decide (i = j)) as [<-|Hne].
    + exists p. rewrite list_lookup_insert_eq by by eapply lookup_lt_Some. split; [done|].
      destruct (installed p) eqn:Ep; [done|]. destruct (installed (x_pc x)) eqn:Ex; [congruence|].
      rewrite H3 in Hj. destruct (Ti i Hj) as (q & Hq & Hq'). rewrite Hi in Hq. simplify_eq. congruence.
    + rewrite list_lookup_insert_ne by done. apply Ti.
      destruct (installed p); [congruence|]. destruct (installed (x_pc x)); congruence.
Qed.

Lemma pcs_insert s i x' : x_pc <$> <[i := x']> (secs s) = <[i := x_pc x']> (pcs s).
Proof. apply list_fmap_insert. Qed.

Lemma pcs_lookup s i x : secs s !! i = Some x -> pcs s !! i = Some (x_pc x).
Proof. intros H. unfold pcs. by rewrite list_lookup_fmap, H. Qed.
Lemma turns_active s i x :
  turns s -> secs s !! i = Some x -> installed (x_pc x) = true -> activeSection s = Some i.
Proof. intros HT Hx. eapply t_active; [done|]. by apply pcs_lookup. Qed.

Lemma turns_reach s : reach s -> turns s.
Proof.
  apply (invariant_reachable Step initial turns).
  - intros s0 (n & m & k & ->). unfold pcs. cbn.
    assert (forall i p, (x_pc <$> repeat newSection m) !! i = Some p -> p = XStart) as Hr.
    { intros i p Hi. rewrite list_lookup_fmap in Hi.
      apply fmap_Some in Hi as (x & Hi & ->). apply list_elem_of_lookup_2, list_elem_of_In, repeat_spec in Hi.
      by subst. }
    assert (forall f : xpc -> nat, f XStart = 0 -> csum f (x_pc <$> repeat newSection m) = 0) as H0.
    { intros f Hf. clear Hr. induction m as [|m IH]; cbn; [done|]. by rewrite Hf, IH. }
    split; unfold pcs; cbn; rewrite ?H0; try done.
    intros i p Hi Hp. by rewrite (Hr i p Hi) in Hp.
  - intros s0 l s' Hr HT H. destruct (other_label l) eqn:El.
    { destruct (other_step l s0 s' H El) as (E1 & E2 & E3 & E4 & _). destruct HT as [T1 T2 T3 T4].
      split; rewrite ?E4, ?E1, ?E2, ?E3; done. }
    destruct l as [i c|i j| | | | | | | | | |]; try done; cbn [step] in H.
    + unfold runExclusive in H. destruct (secs s0 !! i) as [x|] eqn:Hx; [|done].
      destruct (x_pc x) eqn:Hp, c; try done; unfold withdrawExclusive, enqueueBarrier in H;
        repeat (case_match; try discriminate); simplify_eq/=;
        (eapply (turns_move s0 _ i x); [exact HT|exact Hx|unfold pcs; cbn; rewrite pcs_insert; reflexivity|..]);
        cbn; rewrite ?Hp; cbn; try done; try lia.
      all: try (eapply turns_active; [done|exact Hx|by rewrite Hp]).
      all: pose proof (pcs_lookup s0 i x Hx) as Hi.
      all: pose proof (csum_lookup_le turn_pc _ _ _ Hi); pose proof (csum_lookup_le reg_pc _ _ _ Hi).
      all: destruct HT as [T1 T2 _ _]; rewrite Hp in *; cbn in *.
      all: destruct (turn s0); cbn in *; congruence || lia.
    + unfold park in H. repeat (case_match; try discriminate); simplify_eq/=.
      assert (forall n, x_pc s1 = XPark n -> activeSection s0 = Some i) as Ha
        by (intros n Hn; eapply turns_active; [done..|by rewrite Hn]).
      eapply (turns_move s0 _ i); [exact HT|done|unfold pcs; cbn; rewrite pcs_insert; reflexivity|..];
        cbn; repeat match goal with E : x_pc _ = _ |- _ => rewrite E end; try done.
      by eapply Ha.
Qed.
(** ** Sections *)

Definition early (p : xpc) : bool :=
  match p with XStart | XTurn | XReg => true | _ => false end.
Definition fn_pc (p : xpc) : bool :=
  match p with XStart | XTurn | XReg | XWait _ _ | XBar _ | XPark _ | XCheck => false | _ => true end.
Definition released_pc (p : xpc) : bool :=
  match p with XUnreg _ | XEndTurn _ | XDone _ => true | _ => false end.

Record sec_ok (x : section) : Prop := {
  s_rel : x_released x = true -> released_pc (x_pc x) = true;
  s_unreg r : x_pc x = XUnreg r -> x_released x = true;
  s_fn : x_fn x = true -> fn_pc (x_pc x) = true;
  s_atfn : x_pc x = XFn -> x_fn x = true;
  s_early : x_released x = false -> reg_pc (x_pc x) = 0 \/ early (x_pc x) = true ->
            x_expected x = 0;
  s_def : x_deferred x <> [] -> installed (x_pc x) = true;
}.
Definition secs_ok (s : xs) : Prop := forall i x, secs s !! i = Some x -> sec_ok x.

(** What a step does to the sections: the section that moves, or the counter and
    the postponed releases of the one that is installed. *)
Lemma secs_step l s s' :
  Step l s = Some s' -> other_label l = true ->
  secs s' = secs s \/
  exists i x x', secs s !! i = Some x /\ secs s' = <[i := x']> (secs s) /\
    x_pc x' = x_pc x /\ x_released x' = x_released x /\ x_fn x' = x_fn x /\
    (x_expected x' = x_expected x /\ x_deferred x' = x_deferred x \/ activeSection s = Some i).
Proof.
  intros H Hl. destruct l; try done; cbn [step] in H.
  - unfold workerStep, abortSection in H.
    repeat (case_match; try discriminate); simplify_eq/=; try by left.
    right. eexists _, _, _. split_and!; [done|done|done..|]. by left.
  - unfold createLane in H. repeat (case_match; try discriminate); simplify_eq/=; [|by left].
    right. eexists _, _, _. split_and!; [done|done|done..|]. by right.
  - unfold retireLane in H. repeat (case_match; try discriminate); simplify_eq/=; by left.
  - unfold sealLane in H. repeat (case_match; try discriminate); simplify_eq/=; by left.
  - unfold cleanupStep, cleanupWithoutLiveLane, beginLifecycleCleanup, endLifecycleCleanup,
      postpone in H.
    repeat (case_match; try discriminate); simplify_eq/=; try by left.
    all: right; eexists _, _, _; split_and!; [done|done|done..|]; by right.
  - simplify_eq. by left.
  - simplify_eq. by left.
  - case_match; simplify_eq. by left.
  - unfold closeLane in H. repeat (case_match; try discriminate); simplify_eq/=; by left.
  - unfold finishLifecycleCleanups in H. case_match; simplify_eq. by left.
Qed.

Lemma installed_mid p : installed p = true -> reg_pc p = 1 /\ early p = false /\ released_pc p = false.
Proof. by destruct p. Qed.

Lemma secs_ok_insert s s' i x' :
  secs_ok s -> secs s' = <[i := x']> (secs s) -> sec_ok x' -> secs_ok s'.
Proof.
  intros Hs E Hx j y. rewrite E. intros [(<- & <- & _)|[_ Hj]]%list_lookup_insert_Some; [done|].
  by eapply Hs.
Qed.

Lemma secs_reach s : reach s -> secs_ok s.
Proof.
  apply (invariant_reachable Step initial secs_ok).
  - intros s0 (n & m & k & ->) i x Hx. cbn in Hx.
    apply list_elem_of_lookup_2, list_elem_of_In, repeat_spec in Hx. by subst.
  - intros s0 l s' Hr HI H. destruct (other_label l) eqn:El.
    { destruct (secs_step l s0 s' H El) as [E|(i & x & x' & Hx & E & E1 & E2 & E3 & E4)].
      - intros i x. rewrite E. apply HI.
      - eapply secs_ok_insert; [done|done|]. destruct (HI i x Hx) as [S1 S2 S3 S4 S5 S6].
        split; rewrite ?E1, ?E2, ?E3; try done.
        + destruct E4 as [[-> _]|Ha]; [done|].
          destruct (t_installed s0 (turns_reach s0 Hr) i Ha) as (p & Hp & Hi).
          rewrite (pcs_lookup _ _ _ Hx) in Hp. simplify_eq.
          destruct (installed_mid _ Hi) as (-> & -> & _). lia.
        + destruct E4 as [[_ ->]|Ha]; [done|].
          destruct (t_installed s0 (turns_reach s0 Hr) i Ha) as (p & Hp & Hi).
          rewrite (pcs_lookup _ _ _ Hx) in Hp. simplify_eq. done. }
    destruct l as [i c|i j| | | | | | | | | |]; try done; cbn [step] in H.
    + unfold runExclusive in H. destruct (secs s0 !! i) as [x|] eqn:Hx; [|done].
      destruct (HI i x Hx) as [S1 S2 S3 S4 S5 S6].
      destruct (x_pc x) eqn:Hp, c; try done; unfold withdrawExclusive, enqueueBarrier in H;
        repeat (case_match; try discriminate); simplify_eq/=;
        (eapply secs_ok_insert; [exact HI|reflexivity|]); clear Hx; try rewrite Hp in *; cbn in *.
      all: split; cbn; try done; try (intros; by apply S5; auto); try (intros Hq; by specialize (S6 Hq)).
      all: try (intros Hq; by specialize (S1 Hq)).
      all: try (intros Hq; by specialize (S3 Hq)).
      all: try (intros _ [?|?]; done).
      all: intros Hq ?; specialize (S2 _ eq_refl); congruence.
    + unfold park in H. repeat (case_match; try discriminate); simplify_eq/=.
      eapply secs_ok_insert; [exact HI|reflexivity|].
      match goal with Hx : secs _ !! _ = Some ?x, Hp : x_pc ?x = _ |- _ =>
        destruct (HI _ _ Hx) as [S1 S2 S3 S4 S5 S6]; rewrite Hp in * end.
      by split.
Qed.
(** ** Lanes *)

Definition holds (w : worker) : option nat :=
  match w with WBarrier i | WParked i | WHeld i => Some i | _ => None end.

(** What one step can do to one lane; only a section's own steps ([o] false) park
    a lane or give it a barrier. *)
Inductive lmove (o : bool) (s : xs) : lane -> lane -> Prop :=
| mv_take c r i b rest w :
    holds w = Some i -> w <> WParked i ->
    lmove o s (mkLane c r ((i, b) :: rest) WIdle) (mkLane c r rest w)
| mv_task c r bs :
    (forall i rest, bs <> (i, true) :: rest) -> r = false ->
    lmove o s (mkLane c r bs WIdle) (mkLane c r bs WTask)
| mv_release c r bs :
    (forall i rest, bs <> (i, true) :: rest) -> r = false ->
    lmove o s (mkLane c r bs WIdle) (mkLane c r bs WRelease)
| mv_gone r : lmove o s (mkLane true r [] WIdle) (mkLane true r [] WGone)
| mv_done c r bs : lmove o s (mkLane c r bs WTask) (mkLane c r bs WIdle)
| mv_released c r bs : lmove o s (mkLane c r bs WRelease) (mkLane c r bs WIdle)
| mv_free c r bs w i :
    holds w = Some i -> isReleased i s = true ->
    lmove o s (mkLane c r bs w) (mkLane c r bs WIdle)
| mv_park c r bs i x n :
    o = false -> secs s !! i = Some x -> x_pc x = XPark n ->
    lmove o s (mkLane c r bs (WBarrier i)) (mkLane c r bs (WParked i))
| mv_retire c r w : dynamic = true -> w = WIdle \/ w = WRelease ->
    lmove o s (mkLane c r [] w) (mkLane true true [] w)
| mv_close c r bs w : stopped s = true -> lmove o s (mkLane c r bs w) (mkLane true r bs w)
| mv_barrier c bs w i : o = false -> w <> WGone ->
    lmove o s (mkLane c false bs w) (mkLane c false (bs ++ [(i, false)]) w).

Lemma lanes_step l s s' :
  Step l s = Some s' ->
  lanes s' = lanes s \/
  (exists j a a', lanes s !! j = Some a /\ lanes s' = <[j := a']> (lanes s) /\ lmove (other_label l) s a a') \/
  (exists a, lanes s' = lanes s ++ [a] /\ lclosed a = false /\ lretired a = false /\
     lworker a = WIdle /\
     match activeSection s with
     | Some i => lbarriers a = [(i, true)]
     | None => lbarriers a = []
     end).
Proof.
  intros H. destruct l; cbn [step] in H.
  - unfold runExclusive, withdrawExclusive, enqueueBarrier in H.
    repeat (case_match; try discriminate); simplify_eq/=; try by left.
    all: right; left.
    all: match goal with E : lanes _ !! _ = Some ?l |- _ => destruct l as [c1 r1 bs1 w1]; rename E into Hl end.
    all: eexists _, _, _; split_and!; [exact Hl|reflexivity|]; cbn in *; use_bools; subst; by constructor.
  - unfold park in H. repeat (case_match; try discriminate); simplify_eq/=. use_bools.
    all: right; left.
    all: match goal with E : lanes _ !! _ = Some ?l |- _ => destruct l as [c1 r1 bs1 w1]; rename E into Hl end.
    all: eexists _, _, _; split_and!; [exact Hl|reflexivity|]; cbn in *; use_bools; subst; eapply mv_park; done.
  - unfold workerStep, abortSection in H.
    destruct (lanes s !! j) as [[c0 r bs w]|] eqn:Hl; [|done]. right; left.
    cbn in H. repeat (case_match; try discriminate); simplify_eq/=; eexists _, _, _;
      (split_and!; [exact Hl|reflexivity|]).
    all: try (by constructor); try (by eapply mv_free; [|done]).
    all: use_bools; by constructor.
  - unfold createLane in H. right; right. repeat (case_match; try discriminate); simplify_eq/=; by eexists.
  - unfold retireLane in H. repeat (case_match; try discriminate); simplify_eq/=; by left.
  - unfold sealLane in H. right; left. case_match; [|done].
    destruct dynamic eqn:Ed, (lanes s !! j) as [[c0 r bs w]|] eqn:Hl; try done; cbn in H.
    destruct w, bs; try done; simplify_eq/=; eexists _, _, _;
      (split_and!; [exact Hl|reflexivity|]); constructor; auto.
  - unfold cleanupStep, cleanupWithoutLiveLane, beginLifecycleCleanup, endLifecycleCleanup,
      postpone in H.
    repeat (case_match; try discriminate); simplify_eq/=; by left.
  - simplify_eq. by left.
  - simplify_eq. by left.
  - case_match; simplify_eq. by left.
  - unfold closeLane in H. right; left.
    destruct (lanes s !! j) as [[c0 r bs w]|] eqn:Hl; [|done]. case_match; [|done]. simplify_eq/=.
    eexists _, _, _; split_and!; [exact Hl|reflexivity|]. use_bools. by constructor.
  - unfold finishLifecycleCleanups in H. case_match; simplify_eq. by left.
Qed.

Record lane_ok (stp : bool) (l : lane) : Prop := {
  l_retired : lretired l = true ->
    lbarriers l = [] /\ (lworker l = WIdle \/ lworker l = WRelease \/ lworker l = WGone) /\
    lclosed l = true /\ dynamic = true;
  l_closed : lclosed l = true -> lretired l = true \/ stp = true;
  l_gone : lworker l = WGone -> lclosed l = true /\ lbarriers l = [];
}.

Lemma stopped_stays l s s' : Step l s = Some s' -> stopped s = true -> stopped s' = true.
Proof.
  intros H Hs. destruct l; cbn [step] in H;
    unfold runExclusive, withdrawExclusive, enqueueBarrier, park, workerStep, abortSection, createLane,
      retireLane, sealLane, cleanupStep, cleanupWithoutLiveLane, beginLifecycleCleanup, endLifecycleCleanup,
      postpone, closeLane, finishLifecycleCleanups in H;
    repeat (case_match; try discriminate); simplify_eq/=; done.
Qed.

Lemma lanes_reach s : reach s -> forall j l, lanes s !! j = Some l -> lane_ok (stopped s) l.
Proof.
  apply (invariant_reachable Step initial
           (fun s => forall j l, lanes s !! j = Some l -> lane_ok (stopped s) l)).
  - intros s0 (n & m & k & ->) j l Hl. cbn in *.
    apply list_elem_of_lookup_2, list_elem_of_In, repeat_spec in Hl. subst. by split.
  - intros s0 lb s' Hr HI H j l.
    assert (forall a, lane_ok (stopped s0) a -> lane_ok (stopped s') a) as Hmono.
    { intros a [A1 A2 A3]. split; [done| |done]. intros Hc. destruct (A2 Hc) as [|Hs]; [by left|right].
      by eapply stopped_stays. }
    destruct (lanes_step lb s0 s' H) as [->|[(k & a & a' & Ha & -> & Hm)|(a & -> & Ea & Er & Ew & Eb)]].
    + intros Hl. eapply Hmono, HI, Hl.
    + intros [(<- & <- & _)|[_ Hl]]%list_lookup_insert_Some; [|eapply Hmono, HI, Hl].
      apply Hmono. destruct (HI _ _ Ha) as [A1 A2 A3]. destruct Hm; cbn in *; split; cbn; try done; auto.
      all: try (intros Hx; destruct (A1 Hx) as (? & [?|[?|?]] & ?); by simplify_eq).
      all: try (intros Hx; subst; try done; by auto).
      all: intros Hx; naive_solver.
    + intros [Hl|[_ Hl]]%lookup_app_Some; [eapply Hmono, HI, Hl|].
      apply list_lookup_singleton_Some in Hl as [_ <-]. split; by rewrite ?Ea, ?Er, ?Ew.
Qed.
(** ** The count of the barriers *)

(** The barriers of section [i] a lane has, and whether it is parked for it. *)
Definition held_by (i : nat) (w : worker) : nat :=
  match holds w with Some k => b2n (k =? i) | None => 0 end.
Definition tok (i : nat) (l : lane) : nat :=
  csum (fun b => b2n (fst b =? i)) (lbarriers l) + held_by i (lworker l).
Definition prk (i : nat) (l : lane) : nat :=
  match lworker l with WParked k => b2n (k =? i) | _ => 0 end.

Definition parked_at (p : xpc) : option nat :=
  match p with
  | XStart | XTurn | XReg | XWait _ _ | XBar _ => Some 0
  | XPark n => Some n
  | _ => None
  end.

Lemma prk_tok i l : prk i l <= tok i l.
Proof. unfold prk, tok, held_by. destruct (lworker l); cbn; lia. Qed.

Lemma lmove_tok s a a' i :
  lmove true s a a' -> isReleased i s = false -> tok i a' = tok i a /\ prk i a' = prk i a.
Proof.
  intros Hm Hi. unfold tok, prk, held_by. destruct Hm as [?? k ?? w Hw| | | | | |??? w k Hw| |???? [->| ->]| |];
    cbn; try done.
  - rewrite Hw. destruct w; simplify_eq/=; lia.
  - assert ((k =? i) = false) as Hk by (apply Nat.eqb_neq; congruence).
    rewrite Hw, Hk. destruct w; simplify_eq/=; rewrite ?Hk; done.
Qed.

Definition counted (s : xs) : Prop :=
  forall i x, secs s !! i = Some x -> x_released x = false ->
  csum (tok i) (lanes s) = x_expected x /\
  forall n, parked_at (x_pc x) = Some n -> csum (prk i) (lanes s) = n.

Lemma isReleased_lookup i s x : secs s !! i = Some x -> isReleased i s = x_released x.
Proof. unfold isReleased. by intros ->. Qed.

(** Only making a lane changes what a section expects, or adds a lane. *)
Lemma secs_same l s s' i x' :
  Step l s = Some s' -> other_label l = true -> l <> LCreate -> secs s' !! i = Some x' ->
  exists x, secs s !! i = Some x /\ x_expected x' = x_expected x /\
    x_pc x' = x_pc x /\ x_released x' = x_released x.
Proof.
  intros H Hl Hc Hx. destruct l; try done; cbn [step] in H;
    unfold workerStep, abortSection, retireLane, sealLane, cleanupStep, cleanupWithoutLiveLane,
      beginLifecycleCleanup, endLifecycleCleanup, postpone, closeLane,
      finishLifecycleCleanups in H;
    repeat (case_match; try discriminate); simplify_eq/=; try by eexists.
  all: apply list_lookup_insert_Some in Hx as [(<- & <- & _)|[_ Hx]]; by eexists.
Qed.
Lemma only_create l s s' a :
  Step l s = Some s' -> lanes s' = lanes s ++ [a] -> l = LCreate.
Proof.
  intros H E. destruct l; try done; exfalso; apply (f_equal length) in E; rewrite length_app in E;
    cbn [step] in H;
    unfold runExclusive, withdrawExclusive, enqueueBarrier, park, workerStep, abortSection,
      retireLane, sealLane, cleanupStep, cleanupWithoutLiveLane, beginLifecycleCleanup, endLifecycleCleanup,
      postpone, closeLane, finishLifecycleCleanups in H;
    repeat (case_match; try discriminate); simplify_eq/=; rewrite ?length_insert in E; lia.
Qed.

(** Another label's lane move leaves every unreleased section's counts alone. *)
Lemma move_counts s s' j a a' i :
  lanes s !! j = Some a -> lanes s' = <[j := a']> (lanes s) -> lmove true s a a' ->
  isReleased i s = false ->
  csum (tok i) (lanes s') = csum (tok i) (lanes s) /\
  csum (prk i) (lanes s') = csum (prk i) (lanes s).
Proof.
  intros Ha -> Hm Hi. destruct (lmove_tok s a a' i Hm Hi) as [H1 H2].
  pose proof (csum_insert (tok i) _ _ _ a' Ha). pose proof (csum_insert (prk i) _ _ _ a' Ha). lia.
Qed.

Lemma csum_none {A} (f : A -> nat) x n : f x = 0 -> csum f (repeat x n) = 0.
Proof. intros Hf. induction n as [|n IH]; cbn; [done|]. by rewrite Hf, IH. Qed.

(** The counts of the sections that a section's own step leaves alone. *)
Lemma counted_section s s' i x x' :
  counted s -> secs s !! i = Some x -> secs s' = <[i := x']> (secs s) -> lanes s' = lanes s ->
  x_expected x' = x_expected x ->
  (x_released x' = false -> x_released x = false) ->
  (forall n, x_released x' = false -> parked_at (x_pc x') = Some n ->
     parked_at (x_pc x) = Some n) ->
  counted s'.
Proof.
  intros HI Hx E El Ee Er Ep k y. rewrite E, El. intros Hy Hrel.
  apply list_lookup_insert_Some in Hy as [(<- & <- & _)|[_ Hy]]; [|by apply HI].
  destruct (HI i x Hx (Er Hrel)) as [H1 H2]. rewrite Ee. split; [done|]. intros n Hn. eauto.
Qed.

Lemma counted_create s s' : counted s -> createLane dynamic s = Some s' -> counted s'.
Proof.
  intros HI H. unfold createLane in H.
  destruct (negb dynamic || stopping s); [done|].
  destruct (activeSection s) as [i|]; [destruct (secs s !! i) as [x|] eqn:Hx; [|done]|];
    simplify_eq; intros k y; cbn; rewrite !csum_app; cbn; intros Hy Hrel.
  - destruct (Nat.eqb_spec i k) as [->|Hne].
    + rewrite list_lookup_insert_eq in Hy by by eapply lookup_lt_Some. simplify_eq/=.
      destruct (HI _ _ Hx Hrel) as [H1 H2]. split; [cbn; lia|]. intros n Hn.
      rewrite (H2 n Hn). lia.
    + rewrite list_lookup_insert_ne in Hy by done.
      destruct (HI _ _ Hy Hrel) as [H1 H2]. split; [cbn; lia|]. intros n Hn.
      rewrite (H2 n Hn). lia.
  - destruct (HI _ _ Hy Hrel) as [H1 H2]. split; [cbn; lia|]. intros n Hn. rewrite (H2 n Hn). lia.
Qed.

Lemma counted_park s s' i j : counted s -> park i j s = Some s' -> counted s'.
Proof.
  intros HI H. unfold park in H.
  destruct (secs s !! i) as [x|] eqn:Hx; [|done].
  destruct (lanes s !! j) as [l|] eqn:Hl; [|done].
  destruct (x_pc x) eqn:Hp; try done. case_match; [|done]. use_bools. simplify_eq.
  intros k y. cbn. intros Hy Hrel.
  pose proof (csum_insert (tok k) _ _ _
    (mkLane (lclosed l) (lretired l) (lbarriers l) (WParked i)) Hl) as C1.
  pose proof (csum_insert (prk k) _ _ _
    (mkLane (lclosed l) (lretired l) (lbarriers l) (WParked i)) Hl) as C2.
  unfold tok at 2 4, held_by in C1. unfold prk at 2 4 in C2. cbn in C1, C2.
  match goal with E : lworker l = _ |- _ => rewrite E in C1, C2; cbn in C1, C2 end.
  apply list_lookup_insert_Some in Hy as [(<- & <- & _)|[Hne Hy]].
  - destruct (HI i x Hx Hrel) as [Q1 Q2]. rewrite Hp in Q2. cbn in *.
    rewrite Nat.eqb_refl in C2. cbn in C2.
    specialize (Q2 _ eq_refl). split; [lia|]. intros n [= <-]. lia.
  - destruct (HI k y Hy Hrel) as [Q1 Q2]. apply Nat.eqb_neq in Hne.
    rewrite Hne in C2. cbn in C2.
    split; [lia|]. intros n Hn. specialize (Q2 n Hn). lia.
Qed.
Lemma counted_barrier s s' i j q x :
  counted s -> secs s !! i = Some x -> x_pc x = XBar (j :: q) ->
  enqueueBarrier i j false s = Some s' ->
  counted (setSec i (mkSec (XBar q) (S (x_expected x)) (x_released x) (x_aborted x)
                       (x_deferred x) (x_fn x)) s').
Proof.
  intros HI Hx Hp H. unfold enqueueBarrier in H.
  destruct (lanes s !! j) as [l|] eqn:Hl; [|done]. case_match; [done|]. simplify_eq.
  intros k y. cbn. intros Hy Hrel.
  pose proof (csum_insert (tok k) _ _ _
    (mkLane (lclosed l) (lretired l) (lbarriers l ++ [(i, false)]) (lworker l)) Hl) as C1.
  pose proof (csum_insert (prk k) _ _ _
    (mkLane (lclosed l) (lretired l) (lbarriers l ++ [(i, false)]) (lworker l)) Hl) as C2.
  unfold tok at 2 4 in C1. cbn in C1. rewrite csum_app in C1. cbn in C1.
  unfold prk at 2 4 in C2. cbn in C2.
  apply list_lookup_insert_Some in Hy as [(<- & <- & _)|[Hne Hy]].
  - destruct (HI i x Hx Hrel) as [Q1 Q2]. rewrite Hp in Q2. cbn in *.
    rewrite Nat.eqb_refl in C1. cbn in C1.
    split; [lia|]. intros n [= <-]. specialize (Q2 _ eq_refl). lia.
  - destruct (HI k y Hy Hrel) as [Q1 Q2]. apply Nat.eqb_neq in Hne.
    rewrite Hne in C1. cbn in C1.
    split; [lia|]. intros n Hn. specialize (Q2 n Hn). lia.
Qed.

Lemma counted_reach s : reach s -> counted s.
Proof.
  apply (invariant_reachable Step initial counted).
  - intros s0 (n & m & k & ->) i x Hx Hrel. cbn in *.
    apply list_elem_of_lookup_2, list_elem_of_In, repeat_spec in Hx. subst.
    rewrite !csum_none by done. split; [done|]. by intros n0 [= <-].
  - intros s0 l s' Hr HI H. destruct (other_label l) eqn:El.
    { assert (l = LCreate \/ l <> LCreate) as [->|Hc] by (destruct l; (by left) || by right);
        [by eapply counted_create|].
      intros i x' Hx' Hrel.
      assert (exists x, secs s0 !! i = Some x /\ x_expected x' = x_expected x /\
                x_pc x' = x_pc x /\ x_released x' = x_released x) as (x & Hx & Ee & Ep & Er).
      { eapply secs_same; done. }
      rewrite Er in Hrel. destruct (HI i x Hx Hrel) as [Q1 Q2]. rewrite Ee, Ep.
      destruct (lanes_step l s0 s' H) as [->|[(j & a & a' & Ha & E & Hm)|(a & E & _)]]; [done| |].
      - rewrite El in Hm. destruct (move_counts s0 s' j a a' i Ha E Hm) as [-> ->]; [|done].
        by rewrite (isReleased_lookup _ _ _ Hx).
      - by destruct Hc; eapply only_create. }
    destruct l as [i c|i j| | | | | | | | | |]; try done; cbn [step] in H; [|by eapply counted_park].
    unfold runExclusive in H. destruct (secs s0 !! i) as [x|] eqn:Hx; [|done].
    destruct (secs_reach s0 Hr i x Hx) as [S1 S2 _ _ S5 _].
    destruct (x_pc x) as [| | |q rs|[|j q]|n| | |r|[|c0 cs] r|r|r|r|r] eqn:Hp, c; try done;
      try (destruct (enqueueBarrier i j false s0) as [s1|] eqn:Hq;
             [simplify_eq; by eapply counted_barrier|]);
      unfold withdrawExclusive in H; repeat (case_match; try discriminate); simplify_eq/=;
      (eapply (counted_section s0 _ i x); [exact HI|exact Hx|reflexivity|reflexivity|done|..]);
      rewrite ?Hp; cbn; try done.
Qed.
(** ** What a section has stopped *)

(** The lane runs nothing before section [i] ends. *)
Definition held (i : nat) (l : lane) : Prop :=
  holds (lworker l) = Some i \/
  (lworker l = WIdle /\ exists rest, lbarriers l = (i, true) :: rest) \/
  lretired l = true \/ lworker l = WGone.

Definition every_lane (s : xs) (P : nat -> lane -> Prop) : Prop :=
  forall j l, lanes s !! j = Some l -> P j l.

Definition covers (i : nat) (x : section) (s : xs) : Prop :=
  match x_pc x with
  | XWait q _ | XBar q => every_lane s (fun j l => j ∈ q \/ 0 < tok i l \/ lclosed l = true)
  | XPark _ => every_lane s (fun _ l => 0 < tok i l \/ lclosed l = true)
  | XCheck => every_lane s (fun _ l => held i l \/ lclosed l = true)
  | XFn | XDrain _ | XRun _ _ => x_fn x = true -> every_lane s (fun _ l => held i l)
  | _ => True
  end.
Definition covered (s : xs) : Prop := forall i x, secs s !! i = Some x -> covers i x s.

Lemma lmove_held o s a a' i :
  lmove o s a a' -> isReleased i s = false ->
  (held i a -> held i a') /\ (0 < tok i a -> 0 < tok i a') /\
  (lclosed a = true -> lclosed a' = true).
Proof.
  intros Hm Hi. unfold held, tok, held_by.
  destruct Hm as [?? k ?? w Hw|??? Hh|??? Hh| | | |??? w k Hw| | | |]; cbn; (split_and!; [|try done|try done]).
  all: try (rewrite ?csum_app; cbn; lia).
  all: try (rewrite Hw; lia).
  all: try (assert (k <> i) as Hk by congruence; rewrite Hw; apply Nat.eqb_neq in Hk; rewrite ?Hk; cbn; lia).
  all: try (assert (k <> i) as Hk by congruence;
            intros [?|[[-> _]|[?| ->]]]; [congruence|done|by auto|done]).
  all: naive_solver.
Qed.

(** A statement about every lane that no move and no new lane breaks. *)
Lemma every_lane_step l s s' (P : nat -> lane -> Prop) :
  Step l s = Some s' ->
  (forall o j a a', lmove o s a a' -> P j a -> P j a') ->
  (forall j a, lclosed a = false -> lworker a = WIdle ->
     match activeSection s with Some i => lbarriers a = [(i, true)] | None => True end -> P j a) ->
  every_lane s P -> every_lane s' P.
Proof.
  intros H Hm Hc HP j l0.
  destruct (lanes_step l s s' H) as [->|[(k & a & a' & Ha & -> & Hmv)|(a & -> & Ea & _ & Ew & Eb)]].
  - apply HP.
  - intros [(<- & <- & _)|[_ Hl]]%list_lookup_insert_Some; [|by apply HP]. eauto.
  - intros [Hl|[_ Hl]]%lookup_app_Some; [by apply HP|].
    apply list_lookup_singleton_Some in Hl as [_ <-]. apply Hc; try done.
    by destruct (activeSection s).
Qed.

(** An installed section keeps what it has stopped while it stays where it is. *)
Lemma covers_step l s s' i x x' :
  Step l s = Some s' -> activeSection s = Some i -> secs s !! i = Some x ->
  x_released x = false -> x_pc x' = x_pc x -> x_fn x' = x_fn x ->
  covers i x s -> covers i x' s'.
Proof.
  intros H Ha Hx Hr Ep Ef. unfold covers. rewrite Ep, Ef.
  assert (isReleased i s = false) as Hi by by rewrite (isReleased_lookup _ _ _ Hx).
  assert (forall (P : nat -> lane -> Prop),
    (forall o j a a', lmove o s a a' -> P j a -> P j a') ->
    (forall j a, lworker a = WIdle -> lbarriers a = [(i, true)] -> P j a) ->
    every_lane s P -> every_lane s' P) as Hstep.
  { intros P H1 H2. eapply every_lane_step; [done|done|]. rewrite Ha. auto. }
  assert (forall a, lbarriers a = [(i, true)] -> 0 < tok i a) as Ht.
  { intros a E. unfold tok. rewrite E. cbn. rewrite Nat.eqb_refl. cbn. lia. }
  destruct (x_pc x); try done.
  5, 6, 7: intros HF Hf; specialize (HF Hf); revert HF.
  all: apply Hstep;
    [intros o j a a' Hm; destruct (lmove_held o s a a' i Hm Hi) as (H1 & H2 & H3)
    |intros j a Ew Eb; specialize (Ht a Eb)].
  1, 3, 5, 7, 9, 11, 13: naive_solver.
  all: unfold held; naive_solver.
Qed.

Lemma csum_eq_pointwise {A} (f g : A -> nat) (l : list A) j a :
  (forall b, f b <= g b) -> csum g l <= csum f l -> l !! j = Some a -> g a <= f a.
Proof.
  intros Hle. revert j. induction l as [|b l IH]; intros [|j] Hs Hj; simplify_eq/=.
  - pose proof (csum_le f g l Hle). lia.
  - apply (IH j); [|done]. pose proof (Hle b). pose proof (csum_le f g l Hle). lia.
Qed.

(** Enough barriers parked means that every lane with a barrier is parked. *)
Lemma all_parked s i x n :
  counted s -> secs s !! i = Some x -> x_released x = false -> x_pc x = XPark n ->
  x_expected x <= n -> covers i x s -> every_lane s (fun _ l => held i l \/ lclosed l = true).
Proof.
  intros HC Hx Hr Hp Hn Hcov j l Hl. unfold covers in Hcov. rewrite Hp in Hcov.
  destruct (Hcov j l Hl) as [Ht|]; [left|by right].
  destruct (HC i x Hx Hr) as [Q1 Q2]. rewrite Hp in Q2. specialize (Q2 n eq_refl).
  pose proof (csum_eq_pointwise (prk i) (tok i) (lanes s) j l (prk_tok i) ltac:(lia) Hl) as H.
  left. unfold prk in H.
  destruct (lworker l) as [| | |k|k|k|]; try (exfalso; lia). cbn.
  destruct (k =? i) eqn:Ek; [apply Nat.eqb_eq in Ek; congruence|cbn in H; lia].
Qed.

Lemma covers_barrier s s' i j q x :
  (forall k l, lanes s !! k = Some l -> lane_ok (stopped s) l) ->
  x_pc x = XBar (j :: q) -> enqueueBarrier i j false s = Some s' -> covers i x s ->
  every_lane s' (fun j l => j ∈ q \/ 0 < tok i l \/ lclosed l = true).
Proof.
  intros HL Hp H Hcov. unfold covers in Hcov. rewrite Hp in Hcov. unfold enqueueBarrier in H.
  destruct (lanes s !! j) as [l|] eqn:Hl; [|done]. case_match; [done|]. simplify_eq. intros k a.
  cbn. intros [(<- & <- & _)|[Hne Ha]]%list_lookup_insert_Some.
  - right; left. unfold tok. cbn. rewrite csum_app. cbn. rewrite Nat.eqb_refl. cbn. lia.
  - destruct (Hcov k a Ha) as [Hk|?]; [|by right]. left. set_solver.
Qed.
Lemma covers_no_barrier s i j q x :
  (forall k l, lanes s !! k = Some l -> lane_ok (stopped s) l) ->
  x_pc x = XBar (j :: q) -> enqueueBarrier i j false s = None -> covers i x s ->
  every_lane s (fun j l => j ∈ q \/ 0 < tok i l \/ lclosed l = true).
Proof.
  intros HL Hp H Hcov k a Ha. unfold covers in Hcov. rewrite Hp in Hcov. unfold enqueueBarrier in H.
  destruct (Hcov k a Ha) as [Hk|?]; [|by right]. apply elem_of_cons in Hk as [->|Hk]; [|by left].
  right; right. rewrite Ha in H. case_match; [|done].
  destruct (HL j a Ha) as [A1 _ A3]. destruct (lretired a) eqn:Er; [by apply A1|].
  cbn in *. use_bools. by apply A3.
Qed.

Lemma in_snapshot s j l :
  lanes s !! j = Some l -> j ∈ snapshotLanes dynamic s \/ lclosed l = true.
Proof.
  intros Hl. destruct (dynamic && lclosed l) eqn:E; [right; by apply andb_prop in E as [_ ?]|left].
  apply list_elem_of_In, filter_In. rewrite Hl, E. split; [|done].
  apply in_seq. apply lookup_lt_Some in Hl. lia.
Qed.

(** How a section's own step carries what it has stopped. *)
Lemma covered_own s s' i c x :
  reach s -> covers i x s -> secs s !! i = Some x -> runExclusive dynamic i c s = Some s' ->
  exists x', secs s' !! i = Some x' /\ covers i x' s'.
Proof.
  intros Hr HC Hx H. unfold runExclusive in H. rewrite Hx in H.
  pose proof (secs_reach s Hr i x Hx) as [S1 S2 S3 S4 S5 S6].
  pose proof (lookup_lt_Some _ _ _ Hx) as Hlt.
  pose proof (lanes_reach s Hr) as HL.
  assert (fn_pc (x_pc x) = false -> x_fn x = false) as Hf
    by (intros E; destruct (x_fn x); [|done]; by rewrite S3 in E).
  destruct (x_pc x) as [| | |q rs|[|j q]|n| | |r|[|c0 cs] r|r|r|r|r] eqn:Hp, c; try done.
  all: try (destruct (enqueueBarrier i j false s) as [s1|] eqn:Hq; simplify_eq; cbn).
  all: try (unfold withdrawExclusive in H; repeat (case_match; try discriminate)); simplify_eq/=.
  all: eexists; rewrite list_lookup_insert_eq; [split; [reflexivity|]|].
  all: pose proof HC as HV; unfold covers in HV |- *; rewrite Hp in HV; cbn; try done.
  all: try (intros E; by rewrite Hf in E).
  - intros j l Hl. destruct (in_snapshot s j l Hl); auto.
  - intros j l Hl. destruct (HV j l Hl) as [Hj|?]; [by apply not_elem_of_nil in Hj|done].
  - eapply (covers_barrier s s1 i j q x HL Hp Hq HC).
  - unfold enqueueBarrier in Hq. repeat (case_match; try discriminate). by simplify_eq/=.
  - eapply (covers_no_barrier s i j q x HL Hp Hq HC).
  - use_bools. eapply (all_parked s i x n); [by apply counted_reach|exact Hx| |exact Hp|done|exact HC].
    destruct (x_released x); [by rewrite S1|done].
  - intros _ j l Hl. destruct (HV j l Hl) as [?|Hc]; [done|].
    destruct (HL j l Hl) as [_ A2 _]. right; right; left. by destruct (A2 Hc) as [?|?]; [|congruence].
Qed.

Lemma covers_idle i x s : installed (x_pc x) = false -> covers i x s.
Proof. unfold covers. by destruct (x_pc x). Qed.

(** The steps of the other goroutines leave section [i] where it is. *)
Definition own_label (i : nat) (l : label) : bool :=
  match l with LSection k _ | LPark k _ => k =? i | _ => false end.
Lemma sec_stays l s s' i x' :
  Step l s = Some s' -> own_label i l = false -> secs s' !! i = Some x' ->
  exists x, secs s !! i = Some x /\ x_pc x' = x_pc x /\ x_fn x' = x_fn x /\
            x_released x' = x_released x.
Proof.
  intros H Hl Hx'. destruct (other_label l) eqn:Eo.
  { destruct (secs_step l s s' H Eo) as [E|(k & x & x1 & Hx & E & E1 & E2 & E3 & _)];
      rewrite E in Hx'; [by eexists|].
    apply list_lookup_insert_Some in Hx' as [(<- & <- & _)|[_ Hx']]; by eexists. }
  destruct l as [k c|k j| | | | | | | | | |]; try done; cbn in H, Hl.
  - destruct (section_step k c s s' H) as (x & x1 & Hx & E). rewrite E in Hx'.
    apply list_lookup_insert_Some in Hx' as [(-> & _)|[_ Hx']]; [|by eexists].
    by rewrite Nat.eqb_refl in Hl.
  - unfold park in H. repeat (case_match; try discriminate). simplify_eq/=.
    apply list_lookup_insert_Some in Hx' as [(-> & _)|[_ Hx']]; [|by eexists].
    by rewrite Nat.eqb_refl in Hl.
Qed.

Lemma covered_reach s : reach s -> covered s.
Proof.
  apply (invariant_reachable Step initial covered).
  - intros s0 (n & m & k & ->) i x Hx. cbn in Hx.
    apply list_elem_of_lookup_2, list_elem_of_In, repeat_spec in Hx. by subst.
  - intros s0 l s' Hr HI H i x' Hx'.
    destruct (installed (x_pc x')) eqn:Hin; [|by apply covers_idle].
    destruct (own_label i l) eqn:El.
    { destruct l as [k c|k j| | | | | | | | | |]; try done; cbn in H, El; apply Nat.eqb_eq in El as ->.
      - destruct (section_step i c s0 s' H) as (x & _ & Hx & _).
        destruct (covered_own s0 s' i c x Hr (HI i x Hx) Hx H) as (x1 & Hx1 & Hcov). congruence.
      - pose proof H as Hpark. unfold park in H.
        destruct (secs s0 !! i) as [x|] eqn:Hx; [|done].
        destruct (lanes s0 !! j) as [a|] eqn:Ha; [|done].
        destruct (x_pc x) eqn:Hp; try done. case_match; [|done]. simplify_eq/=.
        rewrite list_lookup_insert_eq in Hx' by by eapply lookup_lt_Some. simplify_eq/=.
        pose proof (HI i x Hx) as HV. unfold covers in HV |- *. rewrite Hp in HV. cbn.
        use_bools. intros k b. cbn. intros [(<- & <- & _)|[_ Hb]]%list_lookup_insert_Some; [|by apply (HV k)].
        left. unfold tok, held_by. cbn. rewrite Nat.eqb_refl. cbn. lia. }
    destruct (sec_stays l s0 s' i x' H El Hx') as (x & Hx & Ep & Ef & Er).
    rewrite Ep in Hin.
    eapply covers_step; [exact H|by eapply turns_active; [apply turns_reach|..]|exact Hx| |done|done|by apply HI].
    destruct (secs_reach s0 Hr i x Hx) as [S1 _ _ _ _ _].
    destruct (x_released x) eqn:Erel; [|done]. specialize (S1 eq_refl). by destruct (x_pc x).
Qed.
End Facts.

#[global] Arguments turns_reach {dynamic}.
#[global] Arguments secs_reach {dynamic}.
#[global] Arguments lanes_reach {dynamic}.
#[global] Arguments counted_reach {dynamic}.
#[global] Arguments covered_reach {dynamic}.
#[global] Arguments stopped_stays {dynamic}.
#[global] Arguments section_step {dynamic}.
#[global] Arguments lanes_step {dynamic}.
#[global] Arguments only_create {dynamic}.
#[global] Arguments sec_stays {dynamic}.
