(* ===== verification/ExclusivePromises.v ===== *)
(** * Exclusive sections: releases, the stop and the promises

    The rest of what holds in every reachable state of [Exclusive]: the releases a
    section postponed, the ones it waits for, the end of a stop; then what
    [AsyncEngine.Exclusive] promises, with a concrete run. *)
From Stdlib Require Import ZArith Lia.
From stdpp Require Import base list gmap strings.
From S2P Require Import Prelude Exclusive ExclusiveFacts.

Section Facts.
Context (dynamic : bool).
Abbreviation Step := (step dynamic).
Abbreviation reach := (ExclusiveFacts.reach dynamic).

(** ** Postponed releases *)

Definition todo (p : xpc) : list nat := match p with XRun cs _ => cs | _ => [] end.
(** The releases section [x] still owes. *)
Definition owes (x : section) : list nat := todo (x_pc x) ++ x_deferred x.

(** The sections keep what they owe. *)
Definition same_owes (s s' : xs) : Prop := owes <$> secs s' = owes <$> secs s.

Definition waiting (p : cpc) : bool :=
  match p with CStart | CBarrier | CTracked | CUntracked => true | _ => false end.
Definition free_pc (p : cpc) : bool := match p with CPostponed _ => false | _ => true end.

Lemma same_owes_insert s s' i x x' :
  secs s !! i = Some x -> secs s' = <[i := x']> (secs s) -> owes x' = owes x -> same_owes s s'.
Proof.
  intros Hx E Ho. unfold same_owes. rewrite E, list_fmap_insert, Ho. apply list_insert_id.
  by rewrite list_lookup_fmap, Hx.
Qed.
Lemma same_owes_eq s s' : secs s' = secs s -> same_owes s s'.
Proof. unfold same_owes. by intros ->. Qed.
Lemma same_owes_lookup s s' i x' :
  same_owes s s' -> secs s' !! i = Some x' -> exists x, secs s !! i = Some x /\ owes x = owes x'.
Proof.
  intros E Hx. assert ((owes <$> secs s) !! i = Some (owes x')) as Hl
    by (rewrite <- E; by rewrite list_lookup_fmap, Hx).
  rewrite list_lookup_fmap in Hl. apply fmap_Some in Hl as (x & ? & ?). by exists x.
Qed.
Lemma same_owes_sym s s' : same_owes s s' -> same_owes s' s.
Proof. unfold same_owes. congruence. Qed.

(** A step postpones a release, runs a postponed one, or leaves both the postponed
    releases and what the sections owe as they are. *)
Lemma posts_step l s s' :
  Step l s = Some s' ->
  (same_owes s s' /\
   (cleans s' = cleans s \/
    exists c p q, cleans s !! c = Some p /\ waiting p = true /\ free_pc q = true /\
      cleans s' = <[c := q]> (cleans s))) \/
  (exists c i x, cleans s !! c = Some CStart /\ secs s !! i = Some x /\
     activeSection s = Some i /\ cleans s' = <[c := CPostponed i]> (cleans s) /\
     exists x', secs s' = <[i := x']> (secs s) /\ owes x' = owes x ++ [c]) \/
  (exists c i x x', secs s !! i = Some x /\ secs s' = <[i := x']> (secs s) /\
     owes x = c :: owes x' /\ cleans s' = <[c := CRan]> (cleans s)).
Proof.
  intros H. destruct l; cbn [step] in H.
  - unfold runExclusive in H. destruct (secs s !! i) as [x|] eqn:Hx; [|done].
    destruct (x_pc x) as [| | |q rs|[|j q]|n| | |r|[|c0 cs] r|r|r|r|r] eqn:Hp, c; try done.
    all: unfold enqueueBarrier, withdrawExclusive in H; repeat (case_match; try discriminate); simplify_eq/=.
    all: try (left; split; [|by left]; eapply same_owes_insert; [exact Hx|reflexivity|];
              unfold owes; cbn; rewrite ?Hp; cbn; by rewrite ?app_nil_r).
    right; right. exists c0, i, x. eexists. split_and!; [done|reflexivity| |done].
    unfold owes. rewrite Hp. done.
  - unfold park in H. repeat (case_match; try discriminate); simplify_eq/=.
    left; split; [|by left]. eapply same_owes_insert; [done|reflexivity|].
    unfold owes. cbn. by match goal with E : x_pc _ = _ |- _ => rewrite E end.
  - unfold workerStep, abortSection in H. left.
    repeat (case_match; try discriminate); simplify_eq/=; (split; [|by left]);
      try by apply same_owes_eq.
    by eapply same_owes_insert.
  - unfold createLane in H. left. repeat (case_match; try discriminate); simplify_eq/=;
      (split; [|by left]); [by eapply same_owes_insert|by apply same_owes_eq].
  - unfold retireLane in H. left. repeat (case_match; try discriminate); simplify_eq/=;
      (split; [|by left]); by apply same_owes_eq.
  - unfold sealLane in H. left. repeat (case_match; try discriminate); simplify_eq/=;
      (split; [|by left]); by apply same_owes_eq.
  - unfold cleanupStep in H. destruct (cleans s !! c) as [p|] eqn:Hc; [|done].
    unfold cleanupWithoutLiveLane, beginLifecycleCleanup, endLifecycleCleanup, postpone in H.
    destruct p, ch; try done; repeat (case_match; try discriminate); simplify_eq/=.
    all: try (left; split; [by apply same_owes_eq|left; reflexivity]).
    all: try (left; split; [by apply same_owes_eq|right]; exists c; eexists _, _;
              split_and!; [exact Hc|done| |reflexivity]; done).
    all: right; left; exists c; eexists _, _; split_and!; [exact Hc|done|done|done|];
      eexists; (split; [reflexivity|]); unfold owes; cbn; by rewrite app_assoc.
  - simplify_eq. left. split; [by apply same_owes_eq|by left].
  - simplify_eq. left. split; [by apply same_owes_eq|by left].
  - case_match; simplify_eq. left. split; [by apply same_owes_eq|by left].
  - unfold closeLane in H. left. repeat (case_match; try discriminate); simplify_eq/=;
      (split; [by apply same_owes_eq|by left]).
  - unfold finishLifecycleCleanups in H. case_match; simplify_eq.
    left. split; [by apply same_owes_eq|by left].
Qed.

Record posts (s : xs) : Prop := {
  p_nodup i x : secs s !! i = Some x -> NoDup (owes x);
  p_owed i x c : secs s !! i = Some x -> c ∈ owes x -> cleans s !! c = Some (CPostponed i);
  p_kept i c : cleans s !! c = Some (CPostponed i) ->
    exists x, secs s !! i = Some x /\ c ∈ owes x;
}.

Lemma posts_keep s0 s' :
  posts s0 -> same_owes s0 s' ->
  cleans s' = cleans s0 \/
  (exists c p q, cleans s0 !! c = Some p /\ waiting p = true /\ free_pc q = true /\
     cleans s' = <[c := q]> (cleans s0)) ->
  posts s'.
Proof.
  intros [P1 P2 P3] Ho Hc.
  split.
  * intros i x (x0 & Hx & <-)%(same_owes_lookup _ _ _ _ Ho). eauto.
  * intros i x c (x0 & Hx & <-)%(same_owes_lookup _ _ _ _ Ho) Hin.
    pose proof (P2 i x0 c Hx Hin) as Hp.
    destruct Hc as [->|(d & p & q & Hd & Hw & Hf & ->)]; [done|].
    rewrite list_lookup_insert_ne; [done|]. intros ->. rewrite Hp in Hd. by simplify_eq.
  * intros i c Hp. assert (cleans s0 !! c = Some (CPostponed i)) as Hp0.
    { destruct Hc as [<-|(d & p & q & Hd & Hw & Hf & E)]; [done|]. rewrite E in Hp.
      apply list_lookup_insert_Some in Hp as [(_ & -> & _)|[_ Hp]]; done. }
    destruct (P3 i c Hp0) as (x & Hx & Hin).
    destruct (same_owes_lookup _ _ _ _ (same_owes_sym _ _ Ho) Hx) as (x' & Hx' & E).
    exists x'. split; [done|]. by rewrite E.
Qed.
Lemma posts_postpone s0 s' c k y y' :
  posts s0 -> cleans s0 !! c = Some CStart -> secs s0 !! k = Some y ->
  cleans s' = <[c := CPostponed k]> (cleans s0) ->
  secs s' = <[k := y']> (secs s0) -> owes y' = owes y ++ [c] -> posts s'.
Proof.
  intros [P1 P2 P3] Hc Hy Ec Es Ho.
  assert (forall i x, secs s0 !! i = Some x -> c ∉ owes x) as Hfresh.
  { intros i x Hx Hin. rewrite (P2 i x c Hx Hin) in Hc. done. }
  split.
  * intros i x. rewrite Es. intros [(<- & <- & _)|[_ Hx]]%list_lookup_insert_Some; [|eauto].
    rewrite Ho. apply NoDup_app. split_and!; [eauto| |apply NoDup_singleton].
    intros d Hd ->%list_elem_of_singleton. by eapply Hfresh.
  * intros i x d. rewrite Es, Ec. intros Hx Hd.
    apply list_lookup_insert_Some in Hx as [(<- & <- & _)|[Hne Hx]].
    -- rewrite Ho in Hd. apply elem_of_app in Hd as [Hd| ->%list_elem_of_singleton].
       ++ rewrite list_lookup_insert_ne; [by eapply P2|]. intros ->. by eapply Hfresh.
       ++ apply list_lookup_insert_eq. by eapply lookup_lt_Some.
    -- rewrite list_lookup_insert_ne; [by eapply P2|]. intros ->. by eapply Hfresh.
  * intros i d. rewrite Es, Ec. intros [(-> & [= <-] & _)|[Hne Hd]]%list_lookup_insert_Some.
    -- exists y'. rewrite list_lookup_insert_eq by by eapply lookup_lt_Some.
       split; [done|]. rewrite Ho. set_solver.
    -- destruct (P3 i d Hd) as (x & Hx & Hin). destruct (decide (k = i)) as [->|Hk].
       ++ exists y'. rewrite list_lookup_insert_eq by by eapply lookup_lt_Some.
          split; [done|]. rewrite Ho. simplify_eq. set_solver.
       ++ exists x. by rewrite list_lookup_insert_ne.
Qed.
Lemma posts_run s0 s' c k y y' :
  posts s0 -> secs s0 !! k = Some y -> secs s' = <[k := y']> (secs s0) ->
  owes y = c :: owes y' -> cleans s' = <[c := CRan]> (cleans s0) -> posts s'.
Proof.
  intros [P1 P2 P3] Hy Es Ho Ec.
  pose proof (P1 k y Hy) as Hnd. rewrite Ho in Hnd. apply NoDup_cons in Hnd as [Hnin Hnd].
  assert (cleans s0 !! c = Some (CPostponed k)) as Hck by (eapply P2; [exact Hy|rewrite Ho; set_solver]).
  split.
  * intros i x. rewrite Es. by intros [(<- & <- & _)|[_ Hx]]%list_lookup_insert_Some; [|eauto].
  * intros i x d. rewrite Es, Ec. intros Hx Hd.
    apply list_lookup_insert_Some in Hx as [(<- & <- & _)|[Hne Hx]].
    -- rewrite list_lookup_insert_ne by (intros ->; done).
       eapply P2; [exact Hy|rewrite Ho; set_solver].
    -- rewrite list_lookup_insert_ne; [by eapply P2|]. intros ->.
       pose proof (P2 i x d Hx Hd). congruence.
  * intros i d. rewrite Es, Ec. intros [(_ & [=] & _)|[Hne Hd]]%list_lookup_insert_Some.
    destruct (P3 i d Hd) as (x & Hx & Hin). destruct (decide (k = i)) as [->|Hk].
    -- exists y'. rewrite list_lookup_insert_eq by by eapply lookup_lt_Some.
       split; [done|]. simplify_eq. rewrite Ho in Hin. set_solver.
    -- exists x. by rewrite list_lookup_insert_ne.
Qed.

Lemma posts_reach s : reach s -> posts s.
Proof.
  apply (invariant_reachable Step initial posts).
  - intros s0 (n & m & k & ->). split; cbn.
    + intros i x Hx. apply list_elem_of_lookup_2, list_elem_of_In, repeat_spec in Hx. subst.
      apply NoDup_nil_2.
    + intros i x c Hx. apply list_elem_of_lookup_2, list_elem_of_In, repeat_spec in Hx. subst.
      intros Hc. by apply not_elem_of_nil in Hc.
    + intros i c Hc. by apply list_elem_of_lookup_2, list_elem_of_In, repeat_spec in Hc.
  - intros s0 l s' Hr HP H.
    destruct (posts_step l s0 s' H) as
      [(Ho & Hc)|[(c & k & y & Hc & Hy & Ha & Ec & y' & Es & Ho)
                 |(c & k & y & y' & Hy & Es & Ho & Ec)]].
    + by eapply posts_keep.
    + by eapply posts_postpone.
    + by eapply posts_run.
Qed.

(** ** Releases off the lanes *)

Definition tracked (p : cpc) : nat := match p with CTracked => 1 | _ => 0 end.
Definition clean_label (l : label) : bool := match l with LCleanup _ _ => true | _ => false end.

(** Every other step leaves the epoch alone; a section may run a postponed release. *)
Lemma clean_frame l s s' :
  reach s -> Step l s = Some s' -> clean_label l = false ->
  (cleanupCount s' = cleanupCount s /\ cleanupDone s' = cleanupDone s /\
   madeChans s' = madeChans s /\ doneChans s' = doneChans s) /\
  (cleans s' = cleans s \/
   exists c k, cleans s !! c = Some (CPostponed k) /\ cleans s' = <[c := CRan]> (cleans s)).
Proof.
  intros Hr H Hl. destruct l as [i ch| | | | | | | | | | |]; try done; cbn [step] in H.
  - unfold runExclusive in H. destruct (secs s !! i) as [x|] eqn:Hx; [|done].
    destruct (x_pc x) as [| | |q rs|[|j q]|n| | |r|[|c0 cs] r|r|r|r|r] eqn:Hp, ch; try done.
    all: unfold enqueueBarrier, withdrawExclusive in H; repeat (case_match; try discriminate); simplify_eq/=.
    all: try (split; [done|by left]).
    split; [done|]. right. exists c0, i. split; [|done].
    eapply p_owed; [by apply posts_reach|exact Hx|]. unfold owes. rewrite Hp. cbn. set_solver.
  - unfold park in H. repeat (case_match; try discriminate); simplify_eq/=. split; [done|by left].
  - unfold workerStep, abortSection in H. repeat (case_match; try discriminate); simplify_eq/=; (split; [done|by left]).
  - unfold createLane in H. repeat (case_match; try discriminate); simplify_eq/=; (split; [done|by left]).
  - unfold retireLane in H. repeat (case_match; try discriminate); simplify_eq/=; (split; [done|by left]).
  - unfold sealLane in H. repeat (case_match; try discriminate); simplify_eq/=; (split; [done|by left]).
  - simplify_eq. split; [done|by left].
  - simplify_eq. split; [done|by left].
  - case_match; simplify_eq. split; [done|by left].
  - unfold closeLane in H. repeat (case_match; try discriminate); simplify_eq/=; (split; [done|by left]).
  - unfold finishLifecycleCleanups in H. case_match; simplify_eq. split; [done|by left].
Qed.

Record epochs (s : xs) : Prop := {
  e_count : csum tracked (cleans s) = cleanupCount s;
  e_open : cleanupCount s <> 0 -> exists ch, cleanupDone s = Some ch /\ ch ∉ doneChans s;
  e_made ch : ch ∈ doneChans s -> ch < madeChans s;
  e_cur ch : cleanupDone s = Some ch -> ch < madeChans s;
}.

Lemma epochs_clean s s' c ch : epochs s -> cleanupStep dynamic c ch s = Some s' -> epochs s'.
Proof.
  intros [E1 E2 E3 E4] H. unfold cleanupStep in H.
  destruct (cleans s !! c) as [p|] eqn:Hc; [|done].
  assert (forall q, csum tracked (<[c := q]> (cleans s)) + tracked p = cleanupCount s + tracked q) as Hq
    by (intros q; rewrite <- E1; by apply csum_insert).
  destruct p, ch; try done.
  - unfold cleanupWithoutLiveLane, postpone in H. repeat (case_match; try discriminate); simplify_eq/=.
    + split; cbn; try done. specialize (Hq (CPostponed n)). cbn in Hq. lia.
    + done.
    + split; cbn; try done. specialize (Hq CBarrier). cbn in Hq. lia.
  - unfold beginLifecycleCleanup, postpone in H.
    pose proof (Hq CUntracked) as Q1. pose proof (Hq CTracked) as Q2. cbn in Q1, Q2.
    repeat (case_match; try discriminate); simplify_eq/=; try done.
    + split; cbn; try done. lia.
    + split; cbn; try done. specialize (Hq (CPostponed n)). cbn in Hq. lia.
    + use_bools. split; cbn; try lia.
      * intros _. eexists; split; [done|]. intros Hin%E3. lia.
      * intros d Hd%E3. lia.
      * intros d [= <-]. lia.
    + match goal with E : (_ =? 0) = false |- _ => apply Nat.eqb_neq in E; rename E into Hne end.
      split; cbn; try done; [lia|]. intros _. by apply E2.
  - simplify_eq. split; cbn; try done. specialize (Hq CRan). cbn in Hq. lia.
  - specialize (Hq CRan). cbn in Hq. unfold endLifecycleCleanup in H. cbn in H.
    destruct (cleanupCount s) as [|n] eqn:En; [lia|].
    destruct (E2 ltac:(lia)) as (d & Ed & Hd).
    destruct (Nat.eqb_spec n 0) as [->|Hn]; simplify_eq.
    + rewrite Ed. split; cbn; try done; [lia|]. intros d' [->|Hd']%elem_of_cons; [by apply E4|by apply E3].
    + split; cbn; try done; [lia|]. eauto.
  - simplify_eq. split; cbn; try done. specialize (Hq CRan). cbn in Hq. lia.
Qed.

Lemma epochs_reach s : reach s -> epochs s.
Proof.
  apply (invariant_reachable Step initial epochs).
  - intros s0 (n & m & k & ->). split; cbn; try done; [by rewrite csum_none|set_solver].
  - intros s0 l s' Hr HE H. destruct (clean_label l) eqn:El.
    { destruct l; try done. by eapply epochs_clean. }
    destruct HE as [E1 E2 E3 E4].
    destruct (clean_frame l s0 s' Hr H El) as [(F1 & F2 & F3 & F4) Hc].
    split; rewrite ?F1, ?F2, ?F3, ?F4; try done. rewrite <- E1. destruct Hc as [->|(c & k & Hc & ->)]; [done|].
    pose proof (csum_insert tracked _ _ _ CRan Hc). cbn in *. lia.
Qed.

Definition quiet (s : xs) : Prop :=
  (forall c, cleans s !! c <> Some CBarrier) /\ cleanupCount s = 0.

(** What section [i] knows about the releases that were running when it was
    installed. *)
Definition waits (x : section) (s : xs) : Prop :=
  match x_pc x with
  | XWait _ rs =>
    (forall c, cleans s !! c = Some CBarrier -> OnCleanup c ∈ rs) /\
    (cleanupCount s <> 0 -> exists ch, cleanupDone s = Some ch /\ OnEpoch ch ∈ rs)
  | XBar _ | XPark _ | XCheck | XFn => quiet s
  | XDrain _ | XRun _ _ => x_fn x = true -> quiet s
  | _ => True
  end.

(** While a section is installed, no release starts off the lanes. *)
Lemma clean_stays l s s' i :
  reach s -> Step l s = Some s' -> activeSection s = Some i ->
  (forall c, cleans s' !! c = Some CBarrier -> cleans s !! c = Some CBarrier) /\
  (cleanupCount s' <> 0 -> cleanupCount s <> 0 /\ cleanupDone s' = cleanupDone s).
Proof.
  intros Hr H Ha. destruct (clean_label l) eqn:El.
  - destruct l as [| | | | | |c ch| | | | |]; try done. cbn [step] in H. unfold cleanupStep in H.
    destruct (cleans s !! c) as [p|] eqn:Hc; [|done].
    unfold cleanupWithoutLiveLane, beginLifecycleCleanup, endLifecycleCleanup, postpone in H.
    rewrite Ha in H. destruct p, ch; try done;
      repeat (case_match; try discriminate); simplify_eq/=; (split; [|auto]); try done.
    all: try (intros _; split; [lia|done]).
    all: intros d Hd; apply list_lookup_insert_Some in Hd as [(_ & [=] & _)|[_ Hd]]; done.
  - destruct (clean_frame l s s' Hr H El) as [(-> & -> & _ & _) Hc]. split; [|done].
    destruct Hc as [->|(c & k & Hc & ->)]; [done|].
    intros d Hd. by apply list_lookup_insert_Some in Hd as [(_ & [=] & _)|[_ Hd]].
Qed.

Lemma waits_idle x s : installed (x_pc x) = false -> waits x s.
Proof. unfold waits. by destruct (x_pc x). Qed.

Lemma waits_step l s s' i x x' :
  reach s -> Step l s = Some s' -> activeSection s = Some i ->
  x_pc x' = x_pc x -> x_fn x' = x_fn x -> waits x s -> waits x' s'.
Proof.
  intros Hr H Ha Ep Ef. unfold waits. rewrite Ep, Ef.
  destruct (clean_stays l s s' i Hr H Ha) as [K1 K2].
  assert (quiet s -> quiet s') as Hq.
  { intros [Q1 Q2]. split; [intros c Hc; by eapply Q1, K1|].
    destruct (decide (cleanupCount s' = 0)) as [|Hn]; [done|]. by destruct (K2 Hn). }
  destruct (x_pc x); try done; auto.
  intros [W1 W2]. split; [auto|]. intros Hn. destruct (K2 Hn) as [Hn0 ->]. auto.
Qed.

(** A section's own step: it drops a wait that is over, and goes on when none is
    left. *)
Lemma waits_own s s' i c x x' :
  reach s -> secs s !! i = Some x -> runExclusive dynamic i c s = Some s' ->
  secs s' !! i = Some x' -> waits x s -> waits x' s'.
Proof.
  intros Hr Hx H Hx' HW. unfold runExclusive in H. rewrite Hx in H.
  pose proof (secs_reach s Hr i x Hx) as [S1 S2 S3 S4 S5 S6].
  pose proof (epochs_reach s Hr) as [E1 E2 E3 E4].
  pose proof (lookup_lt_Some _ _ _ Hx) as Hlt.
  assert (fn_pc (x_pc x) = false -> x_fn x = false) as Hf
    by (intros E; destruct (x_fn x); [|done]; by rewrite S3 in E).
  destruct (x_pc x) as [| | |q rs|[|j q]|n| | |r|[|c0 cs] r|r|r|r|r] eqn:Hp, c; try done.
  all: unfold enqueueBarrier, withdrawExclusive in H; repeat (case_match; try discriminate); simplify_eq/=.
  all: rewrite list_lookup_insert_eq in Hx' by done; simplify_eq/=.
  all: unfold waits in *; rewrite Hp in HW; cbn in *; try done; try (intros E; by rewrite Hf in E).
  - split.
    + intros c Hc. unfold snapshotRunning. apply elem_of_app. left.
      apply list_elem_of_fmap. exists c. split; [done|]. apply list_elem_of_In, filter_In.
      split; [|by apply bool_decide_eq_true]. apply in_seq. apply lookup_lt_Some in Hc. lia.
    + intros Hn. destruct (E2 Hn) as (ch & Ed & _). exists ch. split; [done|].
      unfold snapshotRunning. rewrite Ed. destruct (cleanupCount s); [done|]. set_solver.
  - destruct HW as [W1 W2]. split.
    + intros c Hc. specialize (W1 c Hc). set_solver.
    + destruct (decide (cleanupCount s = 0)) as [|Hn]; [done|]. destruct (W2 Hn) as (? & _ & ?).
      set_solver.
  - destruct HW as [W1 W2]. unfold waitDone in *. split.
    + intros c Hc. specialize (W1 c Hc). apply elem_of_cons in W1 as [<-|W1]; [|done].
      use_bools. done.
    + intros Hn. destruct (W2 Hn) as (ch & Ed & Hin). exists ch. split; [done|].
      apply elem_of_cons in Hin as [<-|Hin]; [|done]. use_bools.
      destruct (E2 Hn) as (d & Ed' & Hd). by simplify_eq.
  - intros Hfn. destruct (HW Hfn) as [Q1 Q2]. split; [|done]. intros c Hc.
    cbn in Hc. by apply list_lookup_insert_Some in Hc as [(_ & [=] & _)|[_ Hc%Q1]].
Qed.

Lemma waits_reach s : reach s -> forall i x, secs s !! i = Some x -> waits x s.
Proof.
  apply (invariant_reachable Step initial (fun s => forall i x, secs s !! i = Some x -> waits x s)).
  - intros s0 (n & m & k & ->) i x Hx. cbn in Hx.
    apply list_elem_of_lookup_2, list_elem_of_In, repeat_spec in Hx. by subst.
  - intros s0 l s' Hr HI H i x' Hx'.
    destruct (installed (x_pc x')) eqn:Hin; [|by apply waits_idle].
    destruct (own_label i l) eqn:El.
    { destruct l as [k c|k j| | | | | | | | | |]; try done; cbn in H, El; apply Nat.eqb_eq in El as ->.
      - destruct (section_step i c s0 s' H) as (x & _ & Hx & _).
        by eapply waits_own; [| |exact H| |eapply HI].
      - unfold park in H. destruct (secs s0 !! i) as [x|] eqn:Hx; [|done].
        destruct (lanes s0 !! j) as [a|] eqn:Ha; [|done].
        destruct (x_pc x) eqn:Hp; try done. case_match; [|done]. simplify_eq/=.
        rewrite list_lookup_insert_eq in Hx' by by eapply lookup_lt_Some. simplify_eq/=.
        pose proof (HI i x Hx) as HV. unfold waits in HV |- *. by rewrite Hp in HV. }
    destruct (sec_stays l s0 s' i x' H El Hx') as (x & Hx & Ep & Ef & Er).
    rewrite Ep in Hin.
    eapply waits_step; [exact Hr|exact H|by eapply turns_active; [by eapply turns_reach|..]|done|done|].
    by eapply HI.
Qed.

(** ** The end of a stop *)

Record sealed_ok (s : xs) : Prop := {
  z_stop : sealed s = true -> stopped s = true /\ (dynamic = true -> stopping s = true);
  z_gone : sealed s = true -> every_lane s (fun _ l => lworker l = WGone);
  z_secs : sealed s = true -> sectionsWG s = 0 /\ cleanupCount s = 0;
  z_free c : cleans s !! c = Some CUntracked -> sealed s = true;
}.

Lemma lmove_gone o s a a' : lmove dynamic o s a a' -> lworker a = WGone -> lworker a' = WGone.
Proof. intros Hm Hg. destruct Hm; cbn in *; try done. all: naive_solver. Qed.

(** A stop that is sealed stays sealed, and nothing starts after it. *)
Lemma sealed_frame l s s' :
  Step l s = Some s' -> sealed s = true -> stopped s = true ->
  sealed s' = true /\ (stopping s = true -> stopping s' = true) /\
  (sectionsWG s = 0 -> sectionsWG s' = 0) /\ (cleanupCount s = 0 -> cleanupCount s' = 0).
Proof.
  intros H Hz Hs. destruct l as [i c| | | | | | | | | | |]; cbn [step] in H;
    unfold runExclusive, withdrawExclusive, enqueueBarrier, park, workerStep, abortSection, createLane,
      retireLane, sealLane, cleanupStep, cleanupWithoutLiveLane, beginLifecycleCleanup, endLifecycleCleanup,
      postpone, closeLane, finishLifecycleCleanups in H;
    repeat (case_match; try discriminate); simplify_eq/=; split_and!; try done; try lia; try congruence.
  all: intros E; by rewrite E.
Qed.

Lemma sealed_by l s s' :
  Step l s = Some s' -> sealed s = false ->
  sealed s' = false \/
  (secs s' = secs s /\ cleans s' = cleans s /\ lanes s' = lanes s /\ sectionsWG s' = 0 /\
   cleanupCount s' = 0 /\ stopped s' = true /\ (dynamic = true -> stopping s' = true) /\
   every_lane s' (fun _ l => lworker l = WGone) /\ sealed s' = true).
Proof.
  intros H Hz. destruct l as [i c| | | | | | | | | | |]; cbn [step] in H;
    unfold runExclusive, withdrawExclusive, enqueueBarrier, park, workerStep, abortSection, createLane,
      retireLane, sealLane, cleanupStep, cleanupWithoutLiveLane, beginLifecycleCleanup, endLifecycleCleanup,
      postpone, closeLane in H;
    try (left; repeat (case_match; try discriminate); simplify_eq/=; done).
  right. unfold finishLifecycleCleanups in H. case_match; [|done]. use_bools. simplify_eq/=.
  split_and!; try done.
  - intros ->. by match goal with E : _ || _ = true |- _ => cbn in E end.
  - intros j l0 Hl. match goal with E : forallb _ _ = true |- _ => rewrite forallb_forall in E; rename E into Hg end.
    eapply (bool_decide_eq_true_1), Hg, list_elem_of_In, list_elem_of_lookup_2, Hl.
Qed.

Lemma untracked_step l s s' c :
  reach s -> Step l s = Some s' -> cleans s' !! c = Some CUntracked ->
  cleans s !! c = Some CUntracked \/ sealed s = true.
Proof.
  intros Hr H. destruct (clean_label l) eqn:El.
  - destruct l as [| | | | | |d ch| | | | |]; try done. cbn [step] in H.
    unfold cleanupStep, cleanupWithoutLiveLane, beginLifecycleCleanup, endLifecycleCleanup,
      postpone in H.
    repeat (case_match; try discriminate); simplify_eq/=; auto.
    all: intros Hd; apply list_lookup_insert_Some in Hd as [(_ & [=] & _)|[_ Hd]]; auto.
  - destruct (clean_frame l s s' Hr H El) as [_ [->|(d & k & Hd & ->)]]; [auto|].
    intros [(_ & [=] & _)|[_ Hc]]%list_lookup_insert_Some. auto.
Qed.

Lemma sealed_reach s : reach s -> sealed_ok s.
Proof.
  apply (invariant_reachable Step initial sealed_ok).
  - intros s0 (n & m & k & ->). split; cbn; try done.
    intros c Hc. by apply list_elem_of_lookup_2, list_elem_of_In, repeat_spec in Hc.
  - intros s0 l s' Hr [Z1 Z2 Z3 Z4] H. destruct (sealed s0) eqn:Ez.
    + destruct (Z1 eq_refl) as [Hs Hd]. destruct (Z3 eq_refl) as [Hw Hc].
      destruct (sealed_frame l s0 s' H Ez Hs) as (F1 & F2 & F3 & F4).
      split; intros; auto.
      * split; [by eapply stopped_stays|auto].
      * intros j a Ha.
        destruct (lanes_step l s0 s' H) as [E|[(k & b & b' & Hb & E & Hm)|(b & E & _)]].
        -- rewrite E in Ha. by apply (Z2 eq_refl j).
        -- rewrite E in Ha. apply list_lookup_insert_Some in Ha as [(<- & <- & _)|[_ Ha]];
             [|by apply (Z2 eq_refl j)].
           eapply lmove_gone; [exact Hm|]. by apply (Z2 eq_refl k).
        -- pose proof (only_create _ _ _ _ H E) as ->. cbn in H. unfold createLane in H.
           destruct (negb dynamic || stopping s0) eqn:Ed; [done|]. use_bools.
           rewrite Hd in * by done. done.
    + destruct (sealed_by l s0 s' H Ez) as [E|(E1 & E2 & E3 & E4 & E5 & E6 & E7 & E8 & E9)].
      * split; rewrite ?E; try done. intros c Hc.
        destruct (untracked_step l s0 s' c Hr H Hc) as [Hu|?]; [by apply Z4 in Hu|congruence].
      * by split.
Qed.

(** ** The section's promises *)

(** [fn] has been started, and the lanes have not been let go. *)
Definition inFn (x : section) : bool :=
  match x_pc x with
  | XFn => true
  | XDrain _ | XRun _ _ => x_fn x
  | _ => false
  end.

Lemma inFn_installed x : inFn x = true -> installed (x_pc x) = true.
Proof. unfold inFn. by destruct (x_pc x). Qed.

(** Nothing postpones twice, and a postponed release only ever runs. *)
Lemma postponed_step l s s' c i :
  reach s -> Step l s = Some s' -> cleans s !! c = Some (CPostponed i) ->
  cleans s' !! c = Some (CPostponed i) \/ cleans s' !! c = Some CRan.
Proof.
  intros Hr H Hc.
  destruct (posts_step l s s' H) as
    [(_ & [->|(d & p & q & Hd & Hw & Hf & ->)])
    |[(d & k & y & Hd & _ & _ & -> & _)|(d & k & y & y' & _ & _ & _ & ->)]].
  - by left.
  - left. rewrite list_lookup_insert_ne; [done|]. intros ->. rewrite Hc in Hd. by simplify_eq.
  - left. rewrite list_lookup_insert_ne; [done|]. intros ->. congruence.
  - destruct (decide (d = c)) as [->|Hne].
    + right. apply list_lookup_insert_eq. by eapply lookup_lt_Some.
    + left. by rewrite list_lookup_insert_ne.
Qed.

Lemma installed_unreleased s i x :
  reach s -> secs s !! i = Some x -> installed (x_pc x) = true -> x_released x = false.
Proof.
  intros Hr Hx Hi. destruct (secs_reach s Hr i x Hx) as [S1 _ _ _ _ _].
  destruct (x_released x); [|done]. specialize (S1 eq_refl). by destruct (x_pc x).
Qed.

(** A section that is not installed owes nothing. *)
Lemma owes_installed s i x :
  reach s -> secs s !! i = Some x -> installed (x_pc x) = false -> owes x = [].
Proof.
  intros Hr Hx Hi. destruct (secs_reach s Hr i x Hx) as [_ _ _ _ _ S6]. unfold owes.
  destruct (x_deferred x); [|by rewrite S6 in Hi]. by destruct (x_pc x).
Qed.

(** How far section [i] is from its end. *)
Definition measure (s : xs) (x : section) : nat :=
  let d := 3 * length (x_deferred x) in
  match x_pc x with
  | XDone _ => 0
  | XEndTurn _ => 1
  | XUnreg _ => 2
  | XRelease _ => 3
  | XDrain _ => 4 + d
  | XRun cs _ => 5 + length cs + d
  | XFn => 6 + d
  | XCheck => 7 + d
  | XPark _ => 8 + d
  | XBar q => 9 + length q + d
  | XWait q _ => 10 + length q + d
  | XReg => 11 + length (lanes s) + d
  | XTurn => 12 + length (lanes s) + d
  | XStart => 13 + length (lanes s) + d
  end.
Definition finished (x : section) : bool := match x_pc x with XDone _ => true | _ => false end.

Ltac section_moves :=
  eexists _, _; split_and!;
    [reflexivity
    |cbn; apply list_lookup_insert_eq; done
    |cbn; repeat match goal with E : x_deferred _ = _ |- _ => rewrite E end; cbn; lia].

(** The goroutine of a section is never stuck: once its context is cancelled it
    moves towards the end without anyone's help. *)
Lemma section_moves s i x :
  secs s !! i = Some x -> finished x = false ->
  exists c s' x', runExclusive dynamic i c s = Some s' /\ secs s' !! i = Some x' /\
    measure s' x' < measure s x.
Proof.
  intros Hx Hf. pose proof (lookup_lt_Some _ _ _ Hx) as Hlt.
  unfold runExclusive, measure, finished in *. rewrite Hx.
  assert (forall y s0, secs s0 = secs s -> secs (setSec i y s0) !! i = Some y) as Hset
    by (intros y s0 E; cbn; rewrite E; by apply list_lookup_insert_eq).
  destruct (x_pc x) as [| | |q rs|[|j q]|n| | |r|[|c0 cs] r|r|r|r|r] eqn:Hp; try done.
  - exists Ctx. section_moves.
  - exists Go. destruct (stopped s); section_moves.
  - exists Go. eexists _, _. split_and!; [reflexivity|by apply Hset|]. cbn.
    pose proof (List.filter_length_le (fun j => match lanes s !! j with
      | Some l => negb (dynamic && lclosed l) | None => false end) (seq 0 (length (lanes s)))) as Hle.
    rewrite length_seq in Hle. unfold snapshotLanes. lia.
  - destruct rs; [exists Go|exists Ctx]; section_moves.
  - exists Go. section_moves.
  - exists Go. destruct (enqueueBarrier i j false s) as [s1|] eqn:Hq; [|section_moves].
    assert (secs s1 = secs s) as E1
      by (unfold enqueueBarrier in Hq; repeat (case_match; try discriminate); by simplify_eq/=).
    eexists _, _. split_and!; [reflexivity|by apply Hset|cbn; lia].
  - destruct (n <? x_expected x) eqn:En; [exists Ctx|exists Go]; rewrite ?En; section_moves.
  - exists Ctx. section_moves.
  - exists Go. section_moves.
  - exists Go. unfold withdrawExclusive. destruct (x_deferred x) eqn:Ed; section_moves.
  - exists Go. section_moves.
  - exists Go. section_moves.
  - exists Go. section_moves.
  - exists Go. section_moves.
  - exists Go. section_moves.
Qed.

(** The steps of one goroutine up to its end. *)
Lemma section_runs n s i x :
  measure s x <= n -> secs s !! i = Some x ->
  exists ls s' x', Forall (fun l => exists c, l = LSection i c) ls /\ run Step ls s = Some s' /\
    secs s' !! i = Some x' /\ finished x' = true.
Proof.
  revert s x. induction n as [|n IH]; intros s x Hn Hx.
  all: destruct (finished x) eqn:Hf; [exists [], s, x; split_and!; [constructor|done..]|].
  - unfold measure, finished in *. destruct (x_pc x); cbn in *; lia || done.
  - destruct (section_moves s i x Hx Hf) as (c & s1 & x1 & H1 & Hx1 & Hm).
    destruct (IH s1 x1 ltac:(lia) Hx1) as (ls & s' & x' & Hls & Hrun & Hx' & Hf').
    exists (LSection i c :: ls), s', x'. split_and!; [by constructor; [eexists|]| |done|done].
    cbn. by rewrite H1.
Qed.

Lemma ran_step l s s' c :
  reach s -> Step l s = Some s' -> cleans s !! c = Some CRan -> cleans s' !! c = Some CRan.
Proof.
  intros Hr H Hc. pose proof (lookup_lt_Some _ _ _ Hc) as Hlt. destruct (clean_label l) eqn:El.
  - destruct l as [| | | | | |d ch| | | | |]; try done. cbn [step] in H. unfold cleanupStep in H.
    destruct (decide (d = c)) as [->|Hne]; [by rewrite Hc in H|].
    unfold cleanupWithoutLiveLane, beginLifecycleCleanup, endLifecycleCleanup, postpone in H.
    repeat (case_match; try discriminate); simplify_eq/=; try done.
    all: by rewrite list_lookup_insert_ne.
  - destruct (clean_frame l s s' Hr H El) as [_ [->|(d & k & Hd & ->)]]; [done|].
    destruct (decide (d = c)) as [->|Hne]; [by apply list_lookup_insert_eq|].
    by rewrite list_lookup_insert_ne.
Qed.
Lemma ran_run ls s s' c :
  reach s -> run Step ls s = Some s' -> cleans s !! c = Some CRan -> cleans s' !! c = Some CRan.
Proof.
  revert s. induction ls as [|l ls IH]; intros s Hr; cbn; [by intros [= <-]|].
  destruct (Step l s) as [s1|] eqn:H; [|done]. intros Hrun Hc.
  eapply (IH s1); [by eapply reachable_step|done|by eapply ran_step].
Qed.

Lemma postponed_run ls s s' c i :
  reach s -> run Step ls s = Some s' -> cleans s !! c = Some (CPostponed i) ->
  cleans s' !! c = Some (CPostponed i) \/ cleans s' !! c = Some CRan.
Proof.
  revert s. induction ls as [|l ls IH]; intros s Hr; cbn; [intros [= <-]; by left|].
  destruct (Step l s) as [s1|] eqn:H; [|done]. intros Hrun Hc.
  assert (reach s1) as Hr1 by by eapply reachable_step.
  destruct (postponed_step l s s1 c i Hr H Hc) as [Hc1|Hc1]; [by eapply IH|].
  right. by eapply ran_run.
Qed.

(** A lane that a section holds starts no release. *)
Lemma held_starts_none l s s' i j a a' :
  Step l s = Some s' -> lanes s !! j = Some a -> held i a ->
  lanes s' !! j = Some a' -> lworker a' = WRelease -> lworker a = WRelease.
Proof.
  intros H Ha Hh Ha' Hw.
  destruct (lanes_step l s s' H) as [E|[(k & b & b' & Hb & E & Hm)|(b & E & _)]]; rewrite E in Ha'.
  - by simplify_eq.
  - apply list_lookup_insert_Some in Ha' as [(<- & <- & _)|[_ Ha']]; simplify_eq; [|done].
    destruct Hm as [????? w' Hw'|??? Hno| ??? Hno| | | | | | | | ]; cbn in *; try done.
    + by subst.
    + unfold held in Hh. cbn in Hh. naive_solver.
  - rewrite lookup_app_l in Ha' by by eapply lookup_lt_Some. by simplify_eq.
Qed.

(** C6: while the function given to [Exclusive] runs, and while the releases that
    were postponed run after it, no lane runs a task from its channel, no handle is
    released off the lanes, no other section is installed and no stop has completed.
    No lane starts a release from its backlog either; one that is still running a
    release was retired by idle cleanup of a Dynamic engine while it did, so with
    Sharded there is none. *)
Theorem exclusive_section_is_alone s i x :
  reach s -> secs s !! i = Some x -> inFn x = true ->
  (forall j l, lanes s !! j = Some l ->
     lworker l <> WTask /\
     (lworker l = WRelease -> lretired l = true /\ dynamic = true) /\
     (forall lb s' l', Step lb s = Some s' -> lanes s' !! j = Some l' ->
        lworker l' = WRelease -> lworker l = WRelease)) /\
  (forall c p, cleans s !! c = Some p -> p <> CBarrier /\ p <> CTracked /\ p <> CUntracked) /\
  (forall k y, secs s !! k = Some y -> installed (x_pc y) = true -> k = i) /\
  activeSection s = Some i /\ sealed s = false.
Proof.
  intros Hr Hx Hfn. pose proof (inFn_installed x Hfn) as Hi.
  pose proof (covered_reach s Hr i x Hx) as HC. pose proof (waits_reach s Hr i x Hx) as HW.
  destruct (secs_reach s Hr i x Hx) as [_ _ _ S4 _ _].
  assert (every_lane s (fun _ l => held i l) /\ quiet s) as [HL [Q1 Q2]].
  { unfold covers, waits, inFn in *. destruct (x_pc x); try done; auto. }
  assert (sealed s = false) as Hz.
  { destruct (sealed s) eqn:Ez; [|done]. destruct (sealed_reach s Hr) as [_ _ Z3 _].
    destruct (Z3 Ez) as [Hw _]. pose proof (t_wg s (turns_reach s Hr)) as Hwg.
    pose proof (csum_zero reg_pc _ _ _ ltac:(by rewrite Hwg) (pcs_lookup s i x Hx)).
    destruct (installed_mid _ Hi). lia. }
  split_and!; [| | |by eapply turns_active; [by eapply turns_reach|..]|done].
  - intros j l Hl. destruct (lanes_reach s Hr j l Hl) as [A1 _ _]. pose proof (HL j l Hl) as Hh.
    split_and!; [| |intros lb s' l' Hs Hl' Hw; exact (held_starts_none lb s s' i j l l' Hs Hl Hh Hl' Hw)].
    all: unfold held in Hh; intros Hw; rewrite Hw in *; naive_solver.
  - intros c p Hp. split_and!; intros ->; [by eapply Q1| |].
    + pose proof (csum_lookup_le tracked _ _ _ Hp). pose proof (e_count s (epochs_reach s Hr)).
      cbn in *. lia.
    + apply (z_free s (sealed_reach s Hr)) in Hp. congruence.
  - intros k y Hy Hk. pose proof (turns_active s k y (turns_reach s Hr) Hy Hk).
    pose proof (turns_active s i x (turns_reach s Hr) Hx Hi). congruence.
Qed.

(** a release that was postponed belongs to exactly one section, once; that section
    is still installed and holds every lane it stopped; and a section that has let the
    lanes go owes none. *)
Theorem postponed_releases_belong_to_the_section s :
  reach s ->
  (forall c i, cleans s !! c = Some (CPostponed i) ->
     exists x, secs s !! i = Some x /\ c ∈ owes x /\ NoDup (owes x) /\
       installed (x_pc x) = true /\ x_released x = false /\ activeSection s = Some i) /\
  (forall i x c, secs s !! i = Some x -> c ∈ owes x -> cleans s !! c = Some (CPostponed i)) /\
  (forall i x, secs s !! i = Some x -> x_released x = true -> owes x = []).
Proof.
  intros Hr. destruct (posts_reach s Hr) as [P1 P2 P3]. split_and!; [|done|].
  - intros c i Hc. destruct (P3 i c Hc) as (x & Hx & Hin). exists x.
    assert (installed (x_pc x) = true) as Hi.
    { destruct (installed (x_pc x)) eqn:Hi; [done|].
      rewrite (owes_installed s i x Hr Hx Hi) in Hin. by apply not_elem_of_nil in Hin. }
    split_and!; try done; [by eapply P1|by eapply installed_unreleased|].
    by eapply turns_active; [by eapply turns_reach|..].
  - intros i x Hx Hrel. eapply owes_installed; [done..|].
    destruct (installed (x_pc x)) eqn:Hi; [|done].
    by rewrite (installed_unreleased s i x Hr Hx Hi) in Hrel.
Qed.

(** when a stop completes, every worker has exited, no section is between its
    registration and its end, and no tracked release is running; and this stays so. *)
Theorem stop_waits_for_sections s :
  reach s -> sealed s = true ->
  (forall j l, lanes s !! j = Some l -> lworker l = WGone) /\
  (forall i x, secs s !! i = Some x -> reg_pc (x_pc x) = 0) /\
  (forall c p, cleans s !! c = Some p -> p <> CTracked /\ forall i, p <> CPostponed i) /\
  (forall ls s', run Step ls s = Some s' -> sealed s' = true).
Proof.
  intros Hr Hz. destruct (sealed_reach s Hr) as [Z1 Z2 Z3 _]. destruct (Z3 Hz) as [Hw Hc].
  assert (forall i x, secs s !! i = Some x -> reg_pc (x_pc x) = 0) as Hreg.
  { intros i x Hx. pose proof (t_wg s (turns_reach s Hr)) as Hwg.
    eapply (csum_zero reg_pc); [by rewrite Hwg|by apply pcs_lookup]. }
  split_and!; [by apply Z2|done| |].
  - intros c p Hp. split.
    + intros ->. pose proof (csum_lookup_le tracked _ _ _ Hp).
      pose proof (e_count s (epochs_reach s Hr)). cbn in *. lia.
    + intros i ->. destruct (p_kept s (posts_reach s Hr) i c Hp) as (x & Hx & Hin).
      assert (installed (x_pc x) = false) as Hi
        by (pose proof (Hreg i x Hx); by destruct (x_pc x)).
      rewrite (owes_installed s i x Hr Hx Hi) in Hin. by apply not_elem_of_nil in Hin.
  - destruct (Z1 Hz) as [Hs _]. intros ls s'. clear -Hz Hs. revert s Hz Hs.
    induction ls as [|l ls IH]; intros s Hz Hs; cbn; [congruence|].
    destruct (Step l s) as [s1|] eqn:H; [|done].
    destruct (sealed_frame l s s1 H Hz Hs) as (F1 & _).
    apply IH; [done|by eapply stopped_stays].
Qed.

(** C7: from any reachable state, and whatever the other goroutines do not do, the
    goroutine of a section can reach the end of [runExclusive] by its own steps once
    its context is cancelled; then every release it had postponed has run, it is not
    installed, and every lane still at its barrier is free to go. *)
Theorem exclusive_always_ends s i x :
  reach s -> secs s !! i = Some x ->
  exists ls s' x', Forall (fun l => exists c, l = LSection i c) ls /\
    run Step ls s = Some s' /\ secs s' !! i = Some x' /\ finished x' = true /\
    activeSection s' <> Some i /\
    (forall c, c ∈ owes x -> cleans s' !! c = Some CRan) /\
    (forall j l, lanes s' !! j = Some l -> holds (lworker l) = Some i -> isReleased i s' = true).
Proof.
  intros Hr Hx.
  destruct (section_runs (measure s x) s i x ltac:(lia) Hx) as (ls & s' & x' & Hls & Hrun & Hx' & Hf).
  assert (reach s') as Hr' by by eapply run_reachable.
  assert (installed (x_pc x') = false /\ reg_pc (x_pc x') = 0) as [Hi Hreg]
    by (unfold finished in Hf; by destruct (x_pc x')).
  exists ls, s', x'. split_and!; try done.
  - intros Ha. destruct (t_installed s' (turns_reach s' Hr') i Ha) as (p & Hp & Hpi).
    rewrite (pcs_lookup _ _ _ Hx') in Hp. simplify_eq. congruence.
  - intros c Hc. pose proof (p_owed s (posts_reach s Hr) i x c Hx Hc) as Hcl.
    destruct (postponed_run ls s s' c i Hr Hrun Hcl) as [Hc'|]; [|done].
    destruct (p_kept s' (posts_reach s' Hr') i c Hc') as (y & Hy & Hin). simplify_eq.
    rewrite (owes_installed s' i x' Hr' Hx' Hi) in Hin. by apply not_elem_of_nil in Hin.
  - intros j l Hl Hh. rewrite (isReleased_lookup _ _ _ Hx').
    destruct (x_released x') eqn:Erel; [done|].
    destruct (counted_reach s' Hr' i x' Hx' Erel) as [Q1 _].
    destruct (secs_reach s' Hr' i x' Hx') as [_ _ _ _ S5 _].
    rewrite S5 in Q1 by auto. pose proof (csum_zero _ _ _ _ Q1 Hl) as Ht.
    unfold tok, held_by in Ht. rewrite Hh, Nat.eqb_refl in Ht. cbn in Ht. lia.
Qed.
End Facts.

(** ** A run *)

(** A Dynamic engine with one lane, two calls of [Exclusive] and two releases: the
    first section parks the lane and starts its function; then a lane is created, and
    a release without a lane arrives. *)
Definition demo_start : xs :=
  mkX [mkLane false false [] WIdle] [newSection; newSection] [CStart; CStart]
    false 0 false false false None 0 None 0 [] false None.
Definition demo_labels : list label :=
  [LSection 0 Go; LSection 0 Go; LSection 0 Go; LSection 0 Go; LSection 0 Go; LSection 0 Go;
   LWorker 0 Go; LPark 0 0; LSection 0 Go; LSection 0 Go; LCreate; LCleanup 0 Go].
Definition run_or (ls : list label) (s : xs) : xs :=
  match run (step true) ls s with Some s' => s' | None => s end.
Definition demo_fn : xs := run_or demo_labels demo_start.
(** The stop that waited for it: the section ends, the lanes go, the stop is sealed. *)
Definition demo_stop_labels : list label :=
  [LSection 0 Go; LSection 0 Go; LSection 0 Go; LSection 0 Go; LSection 0 Go; LSection 0 Go;
   LSection 0 Go; LSection 0 Go; LWorker 0 Go; LWorker 1 Go; LWorker 1 Go; LStop; LMarkStopping;
   LClose 0; LClose 1; LWorker 0 Stop; LWorker 1 Stop; LFinish].
Definition demo_sealed : xs := run_or demo_stop_labels demo_fn.

Lemma demo_start_reach : reachable (step true) initial demo_start.
Proof. constructor. by exists 1, 2, 2. Qed.
Lemma demo_fn_reach : ExclusiveFacts.reach true demo_fn.
Proof. eapply (run_reachable (step true) initial demo_labels); [apply demo_start_reach|vm_compute; reflexivity]. Qed.
Lemma demo_sealed_reach : ExclusiveFacts.reach true demo_sealed.
Proof.
  eapply (run_reachable (step true) initial demo_stop_labels); [apply demo_fn_reach|].
  vm_compute. reflexivity.
Qed.

Example demo_fn_runs : (x_pc <$> secs demo_fn) = [XFn; XStart].
Proof. vm_compute. reflexivity. Qed.

Definition demo_section : section := mkSec XFn 2 false false [0] true.

Lemma demo_fn_section : secs demo_fn !! 0 = Some demo_section.
Proof. vm_compute. reflexivity. Qed.

Lemma exclusive_section_is_alone_witness :
  inFn demo_section = true /\
  (forall j l, lanes demo_fn !! j = Some l -> lworker l <> WTask).
Proof.
  destruct (exclusive_section_is_alone true demo_fn 0 demo_section demo_fn_reach demo_fn_section
              eq_refl) as [H _].
  split; [reflexivity|]. intros j l Hl. exact (proj1 (H j l Hl)).
Defined.

(** A Dynamic engine with one lane and one call of [Exclusive]. Idle cleanup takes its
    last look at the lane; a release is queued and its worker takes it; the backlog is
    empty again, so the lane is retired; the section has no lane to stop. *)
Definition race_start : xs :=
  mkX [mkLane false false [] WIdle] [newSection] [] false 0 false false false None 0 None 0 []
    false None.
Definition race_labels : list label :=
  [LRetire 0; LWorker 0 Ctx; LSeal 0; LSection 0 Go; LSection 0 Go; LSection 0 Go; LSection 0 Go;
   LSection 0 Go; LSection 0 Go; LSection 0 Go].
Definition race_fn : xs := run_or race_labels race_start.

(** the function given to [Exclusive] can run while the worker of a lane that has just
    been retired is still inside a handle release: the section does not wait for the
    workers of retired lanes. *)
Theorem exclusive_can_run_beside_a_release :
  ExclusiveFacts.reach true race_fn /\
  (x_pc <$> secs race_fn) = [XFn] /\ (lworker <$> lanes race_fn) = [WRelease].
Proof.
  split; [|by split; vm_compute].
  eapply (run_reachable (step true) initial race_labels); [constructor; by exists 1, 1, 0|].
  vm_compute. reflexivity.
Qed.

Lemma postponed_releases_belong_to_the_section_witness :
  exists x, secs demo_fn !! 0 = Some x /\ 0 ∈ owes x.
Proof.
  destruct (postponed_releases_belong_to_the_section true demo_fn demo_fn_reach) as [H _].
  destruct (H 0 0) as (x & Hx & Hin & _); [vm_compute; reflexivity|].
  exists x. split; [exact Hx|exact Hin].
Defined.

Lemma stop_waits_for_sections_witness :
  sealed demo_sealed = true /\
  (forall j l, lanes demo_sealed !! j = Some l -> lworker l = WGone).
Proof.
  assert (sealed demo_sealed = true) as Hz by (vm_compute; reflexivity).
  destruct (stop_waits_for_sections true demo_sealed demo_sealed_reach Hz) as [H _].
  split; [exact Hz|exact H].
Defined.

Lemma exclusive_always_ends_witness :
  exists ls s', run (step true) ls demo_fn = Some s' /\ cleans s' !! 0 = Some CRan.
Proof.
  destruct (exclusive_always_ends true demo_fn 0 demo_section demo_fn_reach demo_fn_section)
    as (ls & s' & x' & _ & Hrun & _ & _ & _ & Hc & _).
  exists ls, s'. split; [exact Hrun|]. apply Hc. vm_compute. left.
Defined.
