(* ===== verification/Optional.v ===== *)
(** * Optional values

    [optional.Option] and [optional.Bool] of pkg/optional. The other files use
    Rocq's [option] for both; the refinement here is what allows it: every operation
    of the Go types commutes with the abstraction to [option]. *)
From Stdlib Require Import ZArith Lia.
From stdpp Require Import base list.
From S2P Require Import Prelude.

(** A Go call that panics when there is no value. *)
Inductive must (A : Type) := Value (a : A) | NoValue.
Arguments Value {A} a.
Arguments NoValue {A}.

Module OptionT.
Section Option.
Context {T : Type} (zero : T).

Record Option := mkOption { v : T; some : bool }.

Definition none : Option := mkOption zero false.
Definition some_ (x : T) : Option := mkOption x true.
Definition From (x : T) (ok : bool) : Option := mkOption x ok.
Definition IsSet (o : Option) : bool := some o.
Definition Get (o : Option) : T * bool := (v o, IsSet o).
Definition MustGet (o : Option) : must T := if negb (IsSet o) then NoValue else Value (v o).
Definition Or (o : Option) (def : T) : T := if negb (IsSet o) then def else v o.
Definition Set' (o : Option) (x : T) : Option := mkOption x true.
Definition Unset (o : Option) : Option := mkOption zero false.

(** The value an [Option] stands for. *)
Definition abs (o : Option) : option T := if some o then Some (v o) else None.
End Option.
Arguments Option : clear implicits.
End OptionT.

Module BoolT.
(** [type Bool int8]: -1, 0 and 1; other values of the word are not produced. *)
Definition Bool := Z.
Definition BoolNone : Bool := (-1)%Z.
Definition False_ : Bool := 0%Z.
Definition True_ : Bool := 1%Z.

Definition BoolSome (x : bool) : Bool := if x then True_ else False_.
Definition IsSet (b : Bool) : bool := negb (b =? BoolNone)%Z.
Definition Get (b : Bool) : bool * bool := ((b =? True_)%Z, IsSet b).
Definition MustGet (b : Bool) : must bool := if negb (IsSet b) then NoValue else Value (b =? True_)%Z.
Definition Or (b : Bool) (def : bool) : bool := if negb (IsSet b) then def else (b =? True_)%Z.
Definition Set' (b : Bool) (x : bool) : Bool := BoolSome x.
Definition Unset (b : Bool) : Bool := BoolNone.

Definition abs (b : Bool) : option bool := if IsSet b then Some (b =? True_)%Z else None.
(** The values the package makes. *)
Definition valid (b : Bool) : Prop := b = BoolNone \/ b = False_ \/ b = True_.
End BoolT.

(** [optional.Option] is an option: each operation does on the Go value what it
    does on the option it stands for, whatever the value was before; an unset value
    never shows what it carries. *)
Theorem optional_option_refines {T} (zero : T) (o : OptionT.Option T) (x : T) (ok : bool) :
  OptionT.abs (OptionT.none zero) = None /\
  OptionT.abs (OptionT.some_ x) = Some x /\
  OptionT.abs (OptionT.From x ok) = (if ok then Some x else None) /\
  OptionT.IsSet o = bool_decide (is_Some (OptionT.abs o)) /\
  (let (v, s) := OptionT.Get o in if s then OptionT.abs o = Some v else OptionT.abs o = None) /\
  OptionT.MustGet o = match OptionT.abs o with Some v => Value v | None => NoValue end /\
  OptionT.Or o x = default x (OptionT.abs o) /\
  OptionT.abs (OptionT.Set' o x) = Some x /\
  OptionT.abs (OptionT.Unset zero o) = None.
Proof. destruct o as [v []], ok; repeat split. Qed.

(** [optional.Bool] is an optional boolean: its three values stand for the three
    options, each operation does on the Go value what it does on the option, and every
    value the package makes is one of the three. *)
Theorem optional_bool_refines (b : BoolT.Bool) (x : bool) :
  BoolT.valid b ->
  BoolT.abs BoolT.BoolNone = None /\
  BoolT.abs (BoolT.BoolSome x) = Some x /\
  (forall b', BoolT.valid b' -> BoolT.abs b' = BoolT.abs b -> b' = b) /\
  BoolT.IsSet b = bool_decide (is_Some (BoolT.abs b)) /\
  (let (v, s) := BoolT.Get b in if s then BoolT.abs b = Some v else BoolT.abs b = None) /\
  BoolT.MustGet b = match BoolT.abs b with Some v => Value v | None => NoValue end /\
  BoolT.Or b x = default x (BoolT.abs b) /\
  BoolT.abs (BoolT.Set' b x) = Some x /\ BoolT.valid (BoolT.Set' b x) /\
  BoolT.abs (BoolT.Unset b) = None /\ BoolT.valid (BoolT.Unset b).
Proof.
  intros Hb. split_and!; try (by destruct x); try (by destruct Hb as [->|[->| ->]]).
  - intros b' Hb'. by destruct Hb as [->|[->| ->]], Hb' as [->|[->| ->]].
  - destruct x; [by right; right|by right; left].
  - by left.
Qed.

Lemma optional_bool_refines_witness :
  BoolT.valid BoolT.True_ /\ BoolT.MustGet BoolT.True_ = Value true.
Proof.
  assert (BoolT.valid BoolT.True_) as H by (right; right; reflexivity).
  destruct (optional_bool_refines BoolT.True_ false H) as (_ & _ & _ & _ & _ & Hm & _).
  split; [exact H|exact Hm].
Defined.
