(* ===== verification/GoPtr.v ===== *)
(** * Pointers into Go values

    A Go pointer to a field of a value (a receiver, a view's [ref], a view's retain
    pointer) as a pair of functions on the value it points into: what the field holds,
    and the value with the field written. *)
From stdpp Require Import base tactics list.
From S2P Require Import Prelude.

Record Ptr (S A : Type) := mkPtr { deref : S -> A; assign : A -> S -> S }.
Arguments mkPtr {S A}.
Arguments deref {S A}.
Arguments assign {S A}.

(** Calling a function that takes the pointer and writes through it. *)
Definition update {S A} (p : Ptr S A) (f : A -> A) (s : S) : S := assign p (f (deref p s)) s.

(** [&p.field]. *)
Definition fieldPtr {S A B} (p : Ptr S A) (get : A -> B) (put : B -> A -> A) : Ptr S B :=
  mkPtr (fun s => get (deref p s)) (fun b s => assign p (put b (deref p s)) s).

(** [if value, ok := o.Get(); ok { s.f(value) }]. *)
Definition whenSome {S A} (o : option A) (f : S -> A -> S) (s : S) : S :=
  match o with Some a => f s a | None => s end.

(** ** A view and the group it points to

    [get] reads a group of an owner [S] as a detached value [C]. *)

(** Calls through the view are the same calls on the detached group. *)
Lemma foldl_simulates {S C A} (get : S -> option C) (vact : A -> S -> S) (act : A -> C -> C) :
  (forall a s c, get s = Some c -> get (vact a s) = Some (act a c)) ->
  forall acts s c, get s = Some c ->
  get (foldl (flip vact) s acts) = Some (foldl (flip act) c acts).
Proof. intros H acts. induction acts as [|a acts IH]; intros s c Hc; cbn; [done|]. by apply IH, H. Qed.

(** What no call changes, a sequence of calls leaves as it was. *)
Lemma foldl_keeps {S C A} (get : S -> C) (vact : A -> S -> S) :
  (forall a s, get (vact a s) = get s) ->
  forall acts s, get (foldl (flip vact) s acts) = get s.
Proof. intros H acts. induction acts as [|a acts IH]; intros s; cbn; [done|]. by rewrite IH, H. Qed.

(** Every call keeps an invariant. *)
Lemma foldl_invariant {S A} (P : S -> Prop) (ok : A -> Prop) (vact : A -> S -> S) :
  (forall a s, ok a -> P s -> P (vact a s)) ->
  forall acts s, Forall ok acts -> P s -> P (foldl (flip vact) s acts).
Proof.
  intros H acts. induction acts as [|a acts IH]; intros s Ha Hs; cbn; [done|].
  apply Forall_cons in Ha as [? ?]. apply IH; [done|]. by apply H.
Qed.

(** A group as the owner returns it, the view the owner makes, and calls on both: the
    view's group exists, is the owner's when there was one, and the calls through the
    view are the calls on the group. *)
Definition writesThrough {S C V A} (get : S -> option C) (ensure : S -> S * V) (fresh : C -> Prop)
    (act : A -> C -> C) (vact : A -> V -> S -> S) : Prop :=
  forall s acts, let (s1, v) := ensure s in exists c,
    get s1 = Some c /\ (forall c', get s = Some c' -> c = c') /\ (get s = None -> fresh c) /\
    get (foldl (flip (fun a => vact a v)) s1 acts) = Some (foldl (flip act) c acts).
(** Neither making the view nor calls through it change what [get] reads. *)
Definition leavesAlone {S C V A} (get : S -> C) (ensure : S -> S * V) (vact : A -> V -> S -> S) : Prop :=
  forall s acts, let (s1, v) := ensure s in get (foldl (flip (fun a => vact a v)) s1 acts) = get s.
