(* ===== verification/NativeMem.v ===== *)
(** * C memory behind Go values

    The strings of the native records live on the C heap: [native.String] of
    internal/native/string.go owns a buffer, [param.Asset] and [param.Instrument]
    hold such owners, and the native records hold bare views of the buffers, which
    the garbage collector does not follow. This file models the heap, the owners and
    the views, a read through a view (which faults on a freed buffer), and a
    collection, which may free every buffer that no owner reaches. Native locks
    ([executionReportFillLockOwner] of model/execution_report.go) are owned the same
    way; what a lock holds is the native library's, a type [L]. *)
From Stdlib Require Import ZArith Lia.
From stdpp Require Import base list gmap strings.
From S2P Require Import Prelude.

(** ** The heap and computations on it *)

Record Mem (L : Type) := mkMem {
  bufs : gmap nat string;
  locks : gmap nat L;
  nextId : nat;
}.
Arguments mkMem {L}.
Arguments bufs {L}.
Arguments locks {L}.
Arguments nextId {L}.

(** A read of freed memory, or a panic of the Go code. *)
Inductive fault := UseAfterFree | GoPanic.

Definition MM (L A : Type) : Type := Mem L -> fault + A * Mem L.
Definition mret {L A} (a : A) : MM L A := fun m => inr (a, m).
Definition mfail {L A} (f : fault) : MM L A := fun _ => inl f.
Definition mbind' {L A B} (c : MM L A) (k : A -> MM L B) : MM L B := fun m =>
  match c m with
  | inl f => inl f
  | inr (a, m) => k a m
  end.

Declare Scope mm_scope.
Delimit Scope mm_scope with mm.
Notation "'do!' x <- c ; k" := (mbind' c (fun x => k))
  (at level 100, x name, c at next level, k at level 200, right associativity) : mm_scope.
#[global] Open Scope mm_scope.

(** Runs [k] on the content of an option, as [if v, ok := o.Get(); ok] does. *)
Definition optM {L A B} (o : option A) (k : A -> MM L B) (n : B) : MM L B :=
  match o with Some a => k a | None => mret n end.

(** ** Go strings, native views, owners *)

(** A Go string header, and the C view it becomes: a pointer to a buffer, or nil. *)
Record GoString := mkGoString { s_ptr : option nat; s_len : nat }.
Record StringView := mkView { v_ptr : option nat; v_len : nat }.
Definition stringEmpty : GoString := mkGoString None 0.
Definition stringViewNone : StringView := mkView None 0.

Definition importString (source : GoString) : StringView :=
  if s_len source =? 0 then stringViewNone else mkView (s_ptr source) (s_len source).

Definition IsSet (v : StringView) : bool :=
  match v_ptr v with Some _ => 0 <? v_len v | None => false end.

(** The bytes behind a pointer, or a fault when the buffer is gone. *)
Definition readBytes {L} (p : option nat) (n : nat) : MM L string := fun m =>
  match p with
  | None => inl UseAfterFree
  | Some p =>
    match bufs m !! p with
    | Some s => if n <=? String.length s then inr (String.substring 0 n s, m) else inl UseAfterFree
    | None => inl UseAfterFree
    end
  end.
Definition ViewSafe {L} (v : StringView) : MM L string :=
  if IsSet v then readBytes (v_ptr v) (v_len v) else mret EmptyString.

(** [native.String]: an owner of one buffer. *)
Record Buf := mkBuf { b_ptr : nat; b_len : nat }.
Definition NewString {L} (source : string) : MM L Buf := fun m =>
  inr (mkBuf (nextId m) (String.length source),
       mkMem (<[nextId m := source]> (bufs m)) (locks m) (S (nextId m))).
#[global] Arguments NewString : simpl never.
Definition BufUnsafe (b : Buf) : GoString := mkGoString (Some (b_ptr b)) (b_len b).
Definition BufSafe {L} (b : Buf) : MM L string := readBytes (Some (b_ptr b)) (b_len b).

(** [param.Asset]; the zero value has no buffer. *)
Definition Asset := option Buf.

(** [CreateParamAssetFromString] is the native library's validation. *)
Definition NewAsset {L} (validate : string -> option string) (v : string) : MM L (option Asset) :=
  match validate v with
  | None => mret None
  | Some validated => do! b <- NewString validated; mret (Some (Some b))
  end.
Definition NewAssetFromHandle {L} (v : StringView) : MM L (option Asset) :=
  if IsSet v
  then do! s <- ViewSafe v; do! b <- NewString s; mret (Some (Some b))
  else mret None.
Definition AssetSafe {L} (a : Asset) : MM L string :=
  match a with None => mret EmptyString | Some b => BufSafe b end.
Definition AssetUnsafe (a : Asset) : GoString :=
  match a with None => stringEmpty | Some b => BufUnsafe b end.
Definition AssetHandle (a : Asset) : GoString := AssetUnsafe a.
Definition AssetEqual {L} (a b : Asset) : MM L bool :=
  do! x <- AssetSafe a; do! y <- AssetSafe b; mret (String.eqb x y).

(** [param.Instrument] and its native record. *)
Record Instrument := mkInstrument { UnderlyingAsset : Asset; SettlementAsset : Asset }.
Definition zeroInstrument : Instrument := mkInstrument None None.
Record OpenPitInstrument := mkOpenPitInstrument {
  underlying_asset : StringView;
  settlement_asset : StringView;
}.
Definition zeroOpenPitInstrument : OpenPitInstrument :=
  mkOpenPitInstrument stringViewNone stringViewNone.

Definition nativeNewInstrument (underlyingAsset settlementAsset : GoString) : OpenPitInstrument :=
  mkOpenPitInstrument (importString underlyingAsset) (importString settlementAsset).
Definition InstrumentHandle (i : Instrument) : OpenPitInstrument :=
  nativeNewInstrument (AssetHandle (UnderlyingAsset i)) (AssetHandle (SettlementAsset i)).
Definition NewInstrumentFromHandle {L} (i : OpenPitInstrument) : MM L (option Instrument) :=
  do! u <- NewAssetFromHandle (underlying_asset i);
  match u with
  | None => mret None
  | Some u =>
    do! st <- NewAssetFromHandle (settlement_asset i);
    match st with
    | None => mret None
    | Some st => mret (Some (mkInstrument u st))
    end
  end.

(** ** What the collector sees *)

(** The buffers a Go value keeps alive. *)
Definition assetRoots (a : Asset) : list nat :=
  match a with Some b => [b_ptr b] | None => [] end.
Definition instrumentRoots (i : Instrument) : list nat :=
  assetRoots (UnderlyingAsset i) ++ assetRoots (SettlementAsset i).

(** Finalizers free objects that nothing reaches; the others stay as they are. *)
Definition collected {L} (roots lockRoots : list nat) (m m' : Mem L) : Prop :=
  bufs m' ⊆ bufs m /\ locks m' ⊆ locks m /\ nextId m' = nextId m /\
  (forall p, p ∈ roots -> bufs m' !! p = bufs m !! p) /\
  (forall p, p ∈ lockRoots -> locks m' !! p = locks m !! p).

(** An owner's buffer holds what it was given. *)
Definition assetLive {L} (m : Mem L) (a : Asset) : Prop :=
  match a with
  | None => True
  | Some b => exists s, bufs m !! b_ptr b = Some s /\ String.length s = b_len b
  end.
Definition instrumentLive {L} (m : Mem L) (i : Instrument) : Prop :=
  assetLive m (UnderlyingAsset i) /\ assetLive m (SettlementAsset i).

(** The text of an asset, when its buffer is live; an empty text is no asset. *)
Definition assetText {L} (m : Mem L) (a : Asset) : option string :=
  match a with
  | None => None
  | Some b => match bufs m !! b_ptr b with
              | Some s => if String.length s =? 0 then None else Some s
              | None => None
              end
  end.
Definition instrumentText {L} (m : Mem L) (i : Instrument) : option (string * string) :=
  match assetText m (UnderlyingAsset i), assetText m (SettlementAsset i) with
  | Some u, Some st => Some (u, st)
  | _, _ => None
  end.

(** A view that points into nothing, or into an owner's buffer. *)
Definition viewOf (v : StringView) (a : Asset) : Prop :=
  v = stringViewNone \/ v = importString (AssetHandle a).
Definition instrumentViewOf (v : OpenPitInstrument) (i : Instrument) : Prop :=
  viewOf (underlying_asset v) (UnderlyingAsset i) /\ viewOf (settlement_asset v) (SettlementAsset i).

(** Memory only grows: the allocated objects keep their content. *)
Definition extends {L} (m m' : Mem L) : Prop :=
  bufs m ⊆ bufs m' /\ locks m ⊆ locks m' /\ nextId m <= nextId m'.
(** Identifiers are handed out in order. *)
Definition memOk {L} (m : Mem L) : Prop :=
  (forall p, is_Some (bufs m !! p) -> p < nextId m) /\
  (forall p, is_Some (locks m !! p) -> p < nextId m).

(** ** Lemmas *)

#[global] Instance extends_preorder L : PreOrder (@extends L).
Proof.
  split; [intros m; unfold extends; by repeat split|]. intros m1 m2 m3 (A1 & A2 & A3) (B1 & B2 & B3).
  split_and!; [by etrans..|lia].
Qed.

Lemma viewOf_none a : viewOf stringViewNone a.
Proof. by left. Qed.
Lemma viewOf_handle a : viewOf (importString (AssetHandle a)) a.
Proof. by right. Qed.
Lemma instrumentViewOf_zero i : instrumentViewOf zeroOpenPitInstrument i.
Proof. split; apply viewOf_none. Qed.
Lemma instrumentViewOf_handle i : instrumentViewOf (InstrumentHandle i) i.
Proof. split; apply viewOf_handle. Qed.
#[export] Hint Resolve viewOf_none viewOf_handle instrumentViewOf_zero instrumentViewOf_handle : pit.

Lemma importString_empty : importString stringEmpty = stringViewNone.
Proof. done. Qed.

Lemma substring_all s : String.substring 0 (String.length s) s = s.
Proof. induction s as [|c s IH]; cbn; [done|]. by rewrite IH. Qed.

Lemma extends_assetLive {L} (m m' : Mem L) a : extends m m' -> assetLive m a -> assetLive m' a.
Proof.
  intros (H & _ & _). destruct a as [b|]; [|done]. intros (s & Hs & Hn). exists s.
  split; [|done]. by eapply lookup_weaken.
Qed.
Lemma extends_assetText {L} (m m' : Mem L) a :
  extends m m' -> assetLive m a -> assetText m' a = assetText m a.
Proof.
  intros (H & _ & _). destruct a as [b|]; [|done]. intros (s & Hs & Hn). cbn.
  by rewrite Hs, (lookup_weaken _ _ _ _ Hs H).
Qed.
Lemma extends_instrumentText {L} (m m' : Mem L) i :
  extends m m' -> instrumentLive m i -> instrumentText m' i = instrumentText m i.
Proof.
  intros H [H1 H2]. unfold instrumentText. by rewrite !(extends_assetText m m').
Qed.

Lemma AssetSafe_live {L} (m : Mem L) a : assetLive m a -> exists s, AssetSafe a m = inr (s, m).
Proof.
  destruct a as [b|]; [|by eexists]. intros (s & Hs & Hn). exists s. cbn. unfold BufSafe, readBytes.
  by rewrite Hs, <- Hn, Nat.leb_refl, substring_all.
Qed.

(** Allocation. *)
Lemma NewString_spec {L} (m : Mem L) s :
  memOk m ->
  exists b m', NewString s m = inr (b, m') /\ memOk m' /\ extends m m' /\
    bufs m' !! b_ptr b = Some s /\ b_len b = String.length s.
Proof.
  intros [H1 H2]. eexists _, _. split; [reflexivity|]. cbn.
  assert (bufs m !! nextId m = None) as Hf.
  { destruct (bufs m !! nextId m) eqn:E; [|done]. specialize (H1 (nextId m)). rewrite E in H1.
    specialize (H1 ltac:(by eexists)). lia. }
  split_and!; try done.
  - split; cbn; intros p.
    + destruct (decide (p = nextId m)) as [->|Hne]; [lia|]. rewrite lookup_insert_ne by done.
      intros Hp%H1. lia.
    + intros Hp%H2. lia.
  - split_and!; cbn; [by apply insert_subseteq|done|lia].
  - apply lookup_insert_eq.
Qed.

(** The text behind a view, and when it can be read. *)
Definition viewText {L} (m : Mem L) (v : StringView) : option string :=
  if IsSet v then match v_ptr v with Some p => bufs m !! p | None => None end else None.
Definition viewLive {L} (m : Mem L) (v : StringView) : Prop :=
  IsSet v = true -> exists p s, v_ptr v = Some p /\ bufs m !! p = Some s /\ String.length s = v_len v.
Definition instrumentViewLive {L} (m : Mem L) (v : OpenPitInstrument) : Prop :=
  viewLive m (underlying_asset v) /\ viewLive m (settlement_asset v).
Definition instrumentViewText {L} (m : Mem L) (v : OpenPitInstrument) : option (string * string) :=
  match viewText m (underlying_asset v), viewText m (settlement_asset v) with
  | Some u, Some st => Some (u, st)
  | _, _ => None
  end.

Lemma viewLive_none {L} (m : Mem L) : viewLive m stringViewNone.
Proof. done. Qed.
Lemma viewLive_handle {L} (m : Mem L) a : assetLive m a -> viewLive m (importString (AssetHandle a)).
Proof.
  destruct a as [b|]; [|done]. intros (s & Hs & Hn). unfold importString. cbn.
  destruct (b_len b =? 0); [done|]. intros _. cbn. by eexists _, _.
Qed.
Lemma viewLive_of {L} (m : Mem L) v a : assetLive m a -> viewOf v a -> viewLive m v.
Proof. intros Ha [->| ->]; [apply viewLive_none|by apply viewLive_handle]. Qed.
Lemma viewText_handle {L} (m : Mem L) a :
  assetLive m a -> viewText m (importString (AssetHandle a)) = assetText m a.
Proof.
  destruct a as [b|]; [|done]. intros (s & Hs & Hn). unfold viewText, importString. cbn.
  rewrite Hs, <- Hn. destruct (String.length s) eqn:E; cbn; [done|]. by destruct s.
Qed.
Lemma instrumentViewText_handle {L} (m : Mem L) i :
  instrumentLive m i -> instrumentViewText m (InstrumentHandle i) = instrumentText m i.
Proof. intros [H1 H2]. unfold instrumentViewText. cbn. by rewrite !viewText_handle. Qed.
Lemma instrumentViewLive_of {L} (m : Mem L) v i :
  instrumentLive m i -> instrumentViewOf v i -> instrumentViewLive m v.
Proof. intros [H1 H2] [V1 V2]. split; [exact (viewLive_of m _ _ H1 V1)|exact (viewLive_of m _ _ H2 V2)]. Qed.
Lemma extends_viewLive {L} (m m' : Mem L) v : extends m m' -> viewLive m v -> viewLive m' v.
Proof.
  intros (H & _ & _) Hv Hs. destruct (Hv Hs) as (p & s & ? & ? & ?). exists p, s.
  split_and!; [done| |done]. by eapply lookup_weaken.
Qed.
Lemma extends_viewText {L} (m m' : Mem L) v :
  extends m m' -> viewLive m v -> viewText m' v = viewText m v.
Proof.
  intros (H & _ & _) Hv. unfold viewText. destruct (IsSet v) eqn:E; [|done].
  destruct (Hv E) as (p & s & -> & Hp & _). by rewrite Hp, (lookup_weaken _ _ _ _ Hp H).
Qed.

(** Reading a live view gives its text; the asset read is a new owner of a copy. *)
Lemma ViewSafe_spec {L} (m : Mem L) v :
  viewLive m v -> ViewSafe v m = inr (default EmptyString (viewText m v), m).
Proof.
  intros Hv. unfold ViewSafe, viewText. destruct (IsSet v) eqn:E; [|done].
  destruct (Hv E) as (p & s & -> & Hp & Hn). unfold readBytes. rewrite Hp, <- Hn, Nat.leb_refl.
  cbn. by rewrite substring_all.
Qed.
Lemma IsSet_text {L} (m : Mem L) v :
  viewLive m v -> IsSet v = true -> exists s, viewText m v = Some s /\ String.length s <> 0.
Proof.
  intros Hv E. destruct (Hv E) as (p & s & Ep & Hp & Hn). exists s. unfold viewText.
  rewrite E, Ep. split; [done|]. rewrite Hn. unfold IsSet in E. rewrite Ep in E.
  apply Nat.ltb_lt in E. lia.
Qed.

Lemma NewAssetFromHandle_spec {L} (m : Mem L) v :
  memOk m -> viewLive m v ->
  exists o m', NewAssetFromHandle v m = inr (o, m') /\ memOk m' /\ extends m m' /\
    (forall b, o = Some b -> assetLive m' b) /\ (o ≫= assetText m') = viewText m v /\
    (viewText m v = None -> o = None).
Proof.
  intros Hm Hv. unfold NewAssetFromHandle. destruct (IsSet v) eqn:E.
  - destruct (IsSet_text m v Hv E) as (s & Ht & Hl). unfold mbind'.
    rewrite ViewSafe_spec by done. rewrite Ht. cbn.
    destruct (NewString_spec m s Hm) as (b & m' & -> & Hm' & Hx & Hb & Hn).
    eexists _, _. split; [reflexivity|]. split_and!; try done.
    + intros c [= <-]. by exists s.
    + cbn. apply Nat.eqb_neq in Hl. by rewrite Hb, Hl.
  - eexists _, _. split; [reflexivity|]. unfold viewText. rewrite E. by split_and!.
Qed.

Lemma NewInstrumentFromHandle_spec {L} (m : Mem L) v :
  memOk m -> instrumentViewLive m v ->
  exists o m', NewInstrumentFromHandle v m = inr (o, m') /\ memOk m' /\ extends m m' /\
    (forall i, o = Some i -> instrumentLive m' i) /\
    (o ≫= instrumentText m') = instrumentViewText m v.
Proof.
  intros Hm [H1 H2]. unfold NewInstrumentFromHandle, instrumentViewText, mbind'.
  destruct (NewAssetFromHandle_spec m (underlying_asset v) Hm H1)
    as (o1 & m1 & -> & Hm1 & Hx1 & Hl1 & Ht1 & Hn1).
  destruct o1 as [u|].
  - destruct (viewText m (underlying_asset v)) as [tu|]; [|by specialize (Hn1 eq_refl)].
    destruct (NewAssetFromHandle_spec m1 (settlement_asset v) Hm1)
      as (o2 & m2 & -> & Hm2 & Hx2 & Hl2 & Ht2 & Hn2); [by eapply extends_viewLive|].
    rewrite (extends_viewText m m1) in Ht2, Hn2 by done.
    assert (extends m m2) as Hx by (by transitivity m1).
    destruct o2 as [st|].
    + destruct (viewText m (settlement_asset v)) as [ts|]; [|by specialize (Hn2 eq_refl)].
      eexists _, _. split; [reflexivity|]. split_and!; try done.
      * intros i [= <-]. split; cbn; [|by apply Hl2].
        apply (extends_assetLive m1 m2); [done|by apply Hl1].
      * cbn in *. unfold instrumentText. cbn.
        rewrite (extends_assetText m1 m2) by (done || by apply Hl1). by rewrite Ht1, Ht2.
    + eexists _, _. split; [reflexivity|]. split_and!; try done. cbn in Ht2. by rewrite <- Ht2.
  - eexists _, _. split; [reflexivity|]. split_and!; try done. cbn in Ht1. by rewrite <- Ht1.
Qed.

(** A collection that keeps the owners keeps what their views show. *)
Lemma collected_assetLive {L} roots lr (m m' : Mem L) a :
  collected roots lr m m' -> assetRoots a ⊆ roots -> assetLive m a -> assetLive m' a.
Proof.
  intros (_ & _ & _ & H & _) Hr. destruct a as [b|]; [|done]. intros (s & Hs & Hn). exists s.
  split; [|done]. rewrite H; [done|]. apply Hr. cbn. set_solver.
Qed.
Lemma collected_assetText {L} roots lr (m m' : Mem L) a :
  collected roots lr m m' -> assetRoots a ⊆ roots -> assetText m' a = assetText m a.
Proof.
  intros (_ & _ & _ & H & _) Hr. destruct a as [b|]; [|done]. cbn. rewrite H; [done|].
  apply Hr. cbn. set_solver.
Qed.
Lemma collected_instrumentLive {L} roots lr (m m' : Mem L) i :
  collected roots lr m m' -> instrumentRoots i ⊆ roots -> instrumentLive m i -> instrumentLive m' i.
Proof.
  unfold instrumentRoots. intros Hc Hr [H1 H2].
  split; (eapply collected_assetLive; [exact Hc|set_solver|done]).
Qed.
Lemma collected_instrumentText {L} roots lr (m m' : Mem L) i :
  collected roots lr m m' -> instrumentRoots i ⊆ roots -> instrumentText m' i = instrumentText m i.
Proof.
  unfold instrumentRoots. intros Hc Hr. unfold instrumentText.
  by rewrite !(collected_assetText roots lr m m') by (done || set_solver).
Qed.
Lemma collected_memOk {L} roots lr (m m' : Mem L) : collected roots lr m m' -> memOk m -> memOk m'.
Proof.
  intros (Hb & Hl & En & _ & _) [H1 H2]. split; intros p [s Hs]; rewrite En.
  - apply H1. exists s. by eapply lookup_weaken.
  - apply H2. exists s. by eapply lookup_weaken.
Qed.
