(* ===== verification/ParamValues.v ===== *)
(** * Parameter values

    The value types of param/ that the model records carry, and the native records
    they wrap (internal/native/param.go, instrument.go, pnl.go). The arithmetic of the
    decimal types is the native library's and is not modelled; here a decimal is the
    C record of internal/native/openpit.h. Enums and tags are bytes, so that a value
    the program does not know is a value too. *)
From Stdlib Require Import ZArith Lia.
From stdpp Require Import base list gmap strings.
From S2P Require Import Prelude GoPtr NativeMem.

(** ** Decimals and optional C records *)

Record ParamDecimal := mkDecimal { mantissa_lo : Z; mantissa_hi : Z; scale : Z }.
Definition zeroDecimal : ParamDecimal := mkDecimal 0 0 0.
#[global] Instance ParamDecimal_eq_dec : EqDecision ParamDecimal.
Proof. solve_decision. Defined.

Record COptional (T : Type) := mkCOptional { c_value : T; c_is_set : bool }.
Arguments mkCOptional {T}.
Arguments c_value {T}.
Arguments c_is_set {T}.
Definition zeroCOptional {T} (zero : T) : COptional T := mkCOptional zero false.
(** Assigning the two fields of an optional record. *)
Definition setCOptional {T} (v : T) (o : COptional T) : COptional T := mkCOptional v true.

Definition ParamPrice := ParamDecimal.
Definition ParamPriceOptional := COptional ParamPrice.
Definition Price := ParamPrice.
Definition ParamPriceOptionalIsSet (value : ParamPriceOptional) : bool := c_is_set value.
Definition ParamPriceOptionalGet (value : ParamPriceOptional) : ParamPrice := c_value value.
Definition PriceHandle (v : Price) : ParamPrice := v.
Definition NewPriceFromHandle (v : ParamPrice) : Price := v.
Definition NewPriceOptionFromHandle (v : ParamPriceOptional) : option Price :=
  if negb (ParamPriceOptionalIsSet v) then None
  else Some (NewPriceFromHandle (ParamPriceOptionalGet v)).

Definition ParamQuantity := ParamDecimal.
Definition ParamQuantityOptional := COptional ParamQuantity.
Definition Quantity := ParamQuantity.
Definition ParamQuantityOptionalIsSet (value : ParamQuantityOptional) : bool := c_is_set value.
Definition ParamQuantityOptionalGet (value : ParamQuantityOptional) : ParamQuantity := c_value value.
Definition QuantityHandle (v : Quantity) : ParamQuantity := v.
Definition NewQuantityFromHandle (v : ParamQuantity) : Quantity := v.
Definition NewQuantityOptionFromHandle (v : ParamQuantityOptional) : option Quantity :=
  if negb (ParamQuantityOptionalIsSet v) then None
  else Some (NewQuantityFromHandle (ParamQuantityOptionalGet v)).

Definition ParamPositionSize := ParamDecimal.
Definition ParamPositionSizeOptional := COptional ParamPositionSize.
Definition PositionSize := ParamPositionSize.
Definition ParamPositionSizeOptionalIsSet (value : ParamPositionSizeOptional) : bool := c_is_set value.
Definition ParamPositionSizeOptionalGet (value : ParamPositionSizeOptional) : ParamPositionSize := c_value value.
Definition PositionSizeHandle (v : PositionSize) : ParamPositionSize := v.
Definition NewPositionSizeFromHandle (v : ParamPositionSize) : PositionSize := v.
Definition NewPositionSizeOptionFromHandle (v : ParamPositionSizeOptional) : option PositionSize :=
  if negb (ParamPositionSizeOptionalIsSet v) then None
  else Some (NewPositionSizeFromHandle (ParamPositionSizeOptionalGet v)).

Definition ParamPnl := ParamDecimal.
Definition ParamPnlOptional := COptional ParamPnl.
Definition Pnl := ParamPnl.
Definition ParamPnlOptionalIsSet (value : ParamPnlOptional) : bool := c_is_set value.
Definition ParamPnlOptionalGet (value : ParamPnlOptional) : ParamPnl := c_value value.
Definition PnlHandle (v : Pnl) : ParamPnl := v.
Definition NewPnlFromHandle (v : ParamPnl) : Pnl := v.
Definition NewPnlOptionFromHandle (v : ParamPnlOptional) : option Pnl :=
  if negb (ParamPnlOptionalIsSet v) then None
  else Some (NewPnlFromHandle (ParamPnlOptionalGet v)).

Definition ParamFee := ParamDecimal.
Definition ParamFeeOptional := COptional ParamFee.
Definition Fee := ParamFee.
Definition ParamFeeOptionalIsSet (value : ParamFeeOptional) : bool := c_is_set value.
Definition ParamFeeOptionalGet (value : ParamFeeOptional) : ParamFee := c_value value.
Definition FeeHandle (v : Fee) : ParamFee := v.
Definition NewFeeFromHandle (v : ParamFee) : Fee := v.
Definition NewFeeOptionFromHandle (v : ParamFeeOptional) : option Fee :=
  if negb (ParamFeeOptionalIsSet v) then None
  else Some (NewFeeFromHandle (ParamFeeOptionalGet v)).

(** ** Account identifiers *)

Definition ParamAccountID := Z.
Definition ParamAccountIDOptional := COptional ParamAccountID.
Definition AccountID := ParamAccountID.
Definition ParamAccountIDOptionalIsSet (value : ParamAccountIDOptional) : bool := c_is_set value.
Definition ParamAccountIDOptionalGet (value : ParamAccountIDOptional) : ParamAccountID := c_value value.
Definition AccountIDHandle (v : AccountID) : ParamAccountID := v.
Definition NewAccountIDFromHandle (source : ParamAccountID) : AccountID := source.
Definition NewAccountIDOptionFromHandle (source : ParamAccountIDOptional) : option AccountID :=
  if negb (ParamAccountIDOptionalIsSet source) then None
  else Some (NewAccountIDFromHandle (ParamAccountIDOptionalGet source)).

(** ** Enums *)

Definition ParamSide := Z.
Definition ParamSideNotSet : ParamSide := 0%Z.
Definition ParamSideBuy : ParamSide := 1%Z.
Definition ParamSideSell : ParamSide := 2%Z.
Definition Side := Z.
Definition SideBuy : Side := ParamSideBuy.
Definition SideSell : Side := ParamSideSell.

Definition NewSideFromHandle {L} (v : ParamSide) : MM L (option Side) :=
  if (v =? ParamSideSell)%Z then mret (Some SideSell)
  else if (v =? ParamSideBuy)%Z then mret (Some SideBuy)
  else if (v =? ParamSideNotSet)%Z then mret None
  else mfail GoPanic.
Definition SideIsBuy (v : Side) : bool := (v =? SideBuy)%Z.
Definition SideIsSell (v : Side) : bool := (v =? SideSell)%Z.
Definition SideOpposite (v : Side) : Side := if (v =? SideBuy)%Z then SideSell else SideBuy.
Definition SideSign (v : Side) : Z := if (v =? SideBuy)%Z then 1%Z else (-1)%Z.
Definition SideString (v : Side) : string := if (v =? SideBuy)%Z then "buy" else "sell".
Definition SideHandle (v : Side) : ParamSide := v.

Definition ParamPositionSide := Z.
Definition ParamPositionSideNotSet : ParamPositionSide := 0%Z.
Definition ParamPositionSideLong : ParamPositionSide := 1%Z.
Definition ParamPositionSideShort : ParamPositionSide := 2%Z.
Definition PositionSide := Z.
Definition PositionSideLong : PositionSide := ParamPositionSideLong.
Definition PositionSideShort : PositionSide := ParamPositionSideShort.

Definition NewPositionSideFromHandle {L} (v : ParamPositionSide) : MM L (option PositionSide) :=
  if (v =? ParamPositionSideLong)%Z then mret (Some PositionSideLong)
  else if (v =? ParamPositionSideShort)%Z then mret (Some PositionSideShort)
  else if (v =? ParamPositionSideNotSet)%Z then mret None
  else mfail GoPanic.
Definition PositionSideIsLong (v : PositionSide) : bool := (v =? PositionSideLong)%Z.
Definition PositionSideIsShort (v : PositionSide) : bool := (v =? PositionSideShort)%Z.
Definition PositionSideOpposite (v : PositionSide) : PositionSide :=
  if (v =? PositionSideLong)%Z then PositionSideShort else PositionSideLong.
Definition PositionSideString (v : PositionSide) : string :=
  if (v =? PositionSideLong)%Z then "long" else "short".

Definition ParamPositionMode := Z.
Definition ParamPositionModeNotSet : ParamPositionMode := 0%Z.
Definition ParamPositionModeNetting : ParamPositionMode := 1%Z.
Definition ParamPositionModeHedged : ParamPositionMode := 2%Z.
Definition PositionMode := Z.
Definition PositionModeNetting : PositionMode := ParamPositionModeNetting.
Definition PositionModeHedged : PositionMode := ParamPositionModeHedged.
Definition NewPositionModeFromHandle (v : ParamPositionMode) : option PositionMode :=
  if (v =? ParamPositionModeNotSet)%Z then None else Some v.
Definition PositionModeString (v : PositionMode) : string :=
  if (v =? PositionModeNetting)%Z then "netting" else "hedged".
Definition PositionModeHandle (v : PositionMode) : ParamPositionMode := v.

Definition ParamPositionEffect := Z.
Definition ParamPositionEffectNotSet : ParamPositionEffect := 0%Z.
Definition ParamPositionEffectOpen : ParamPositionEffect := 1%Z.
Definition ParamPositionEffectClose : ParamPositionEffect := 2%Z.
Definition PositionEffect := Z.
Definition PositionEffectOpen : PositionEffect := ParamPositionEffectOpen.
Definition PositionEffectClose : PositionEffect := ParamPositionEffectClose.
Definition newPositionEffectFromHandle {L} (value : ParamPositionEffect) : MM L (option PositionEffect) :=
  if (value =? ParamPositionEffectOpen)%Z then mret (Some PositionEffectOpen)
  else if (value =? ParamPositionEffectClose)%Z then mret (Some PositionEffectClose)
  else if (value =? ParamPositionEffectNotSet)%Z then mret None
  else mfail GoPanic.

(** [TriBool], and its two conversions in internal/convert. *)
Definition TriBool := Z.
Definition TriBoolNotSet : TriBool := 0%Z.
Definition TriBoolFalse : TriBool := 1%Z.
Definition TriBoolTrue : TriBool := 2%Z.
Definition NewNativeTriBool (v : bool) : TriBool := if v then TriBoolTrue else TriBoolFalse.
Definition NewBoolOptionFromNative (v : TriBool) : option bool :=
  if (v =? TriBoolNotSet)%Z then None else Some (v =? TriBoolTrue)%Z.

(** ** Leverage *)

Definition ParamLeverage := Z.
Definition ParamLeverageNotSet : ParamLeverage := 0%Z.
Definition LeverageScale : ParamLeverage := 10%Z.
Definition LeverageMin : Z := 1%Z.
Definition LeverageMax : Z := 3000%Z.
Definition Leverage := ParamLeverage.
Definition NewLeverageZero : Leverage := 0%Z.
Definition NewLeverageFromHandle (v : ParamLeverage) : Leverage := v.
Definition NewLeverageOptionFromHandle (v : ParamLeverage) : option Leverage :=
  if (v =? ParamLeverageNotSet)%Z then None else Some (NewLeverageFromHandle v).
(** The product is a [uint16]. *)
Definition NewLeverageFromUint16 (multiplier : Z) : Leverage := wrapU 16 (multiplier * LeverageScale).
Definition LeverageIsSet (v : Leverage) : bool := negb (v =? ParamLeverageNotSet)%Z.
(** [String]: the integer part and the tenths, printed when they are not zero. *)
Definition LeverageParts (v : Leverage) : Z * option Z :=
  let integer := (v / LeverageScale)%Z in
  let fractional := (v mod LeverageScale)%Z in
  if (fractional =? 0)%Z then (integer, None) else (integer, Some fractional).
Definition LeverageHandle (v : Leverage) : ParamLeverage := v.

(** ** Amounts *)

Record ParamTradeAmount := mkTradeAmount { ta_value : ParamDecimal; ta_kind : Z }.
Definition ParamTradeAmountKindNotSet : Z := 0%Z.
Definition ParamTradeAmountKindQuantity : Z := 1%Z.
Definition ParamTradeAmountKindVolume : Z := 2%Z.
Definition zeroTradeAmount : ParamTradeAmount := mkTradeAmount zeroDecimal ParamTradeAmountKindNotSet.
Definition CreateParamTradeAmount (kind : Z) (value : ParamDecimal) : ParamTradeAmount :=
  mkTradeAmount value kind.
Definition TradeAmount := ParamTradeAmount.
Definition NewQuantityTradeAmount (v : Quantity) : TradeAmount :=
  CreateParamTradeAmount ParamTradeAmountKindQuantity v.
Definition NewVolumeTradeAmount (v : ParamDecimal) : TradeAmount :=
  CreateParamTradeAmount ParamTradeAmountKindVolume v.
Definition NewTradeAmountFromHandle (amount : ParamTradeAmount) : option TradeAmount :=
  if (ta_kind amount =? ParamTradeAmountKindNotSet)%Z then None else Some amount.
Definition TradeAmountIsQuantity (a : TradeAmount) : bool :=
  (ta_kind a =? ParamTradeAmountKindQuantity)%Z.
Definition TradeAmountIsVolume (a : TradeAmount) : bool :=
  (ta_kind a =? ParamTradeAmountKindVolume)%Z.
Definition TradeAmountHandle (a : TradeAmount) : ParamTradeAmount := a.

Record ParamAdjustmentAmount := mkAdjustmentAmount { aa_value : ParamPositionSize; aa_kind : Z }.
Definition ParamAdjustmentAmountKindNotSet : Z := 0%Z.
Definition ParamAdjustmentAmountKindDelta : Z := 1%Z.
Definition ParamAdjustmentAmountKindAbsolute : Z := 2%Z.
Definition zeroAdjustmentAmount : ParamAdjustmentAmount :=
  mkAdjustmentAmount zeroDecimal ParamAdjustmentAmountKindNotSet.
Definition CreateParamAdjustmentAmount (kind : Z) (value : ParamPositionSize) : ParamAdjustmentAmount :=
  mkAdjustmentAmount value kind.
Definition AdjustmentAmount := ParamAdjustmentAmount.
Definition NewDeltaAdjustmentAmount (v : PositionSize) : AdjustmentAmount :=
  CreateParamAdjustmentAmount ParamAdjustmentAmountKindDelta v.
Definition NewAbsoluteAdjustmentAmount (v : PositionSize) : AdjustmentAmount :=
  CreateParamAdjustmentAmount ParamAdjustmentAmountKindAbsolute v.
Definition NewAdjustmentAmountFromHandle (amount : ParamAdjustmentAmount) : option AdjustmentAmount :=
  if (aa_kind amount =? ParamAdjustmentAmountKindNotSet)%Z then None else Some amount.
Definition AdjustmentAmountIsDelta (a : AdjustmentAmount) : bool :=
  (aa_kind a =? ParamAdjustmentAmountKindDelta)%Z.
Definition AdjustmentAmountIsAbsolute (a : AdjustmentAmount) : bool :=
  (aa_kind a =? ParamAdjustmentAmountKindAbsolute)%Z.
Definition AdjustmentAmountMustDelta {L} (a : AdjustmentAmount) : MM L PositionSize :=
  if negb (AdjustmentAmountIsDelta a) then mfail GoPanic
  else mret (NewPositionSizeFromHandle (aa_value a)).
Definition AdjustmentAmountMustAbsolute {L} (a : AdjustmentAmount) : MM L PositionSize :=
  if negb (AdjustmentAmountIsAbsolute a) then mfail GoPanic
  else mret (NewPositionSizeFromHandle (aa_value a)).
Definition AdjustmentAmountHandle (a : AdjustmentAmount) : ParamAdjustmentAmount := a.
(** [Choose] calls one of two callbacks. *)
Definition AdjustmentAmountChoose {L A} (a : AdjustmentAmount)
    (getDelta getAbsolute : PositionSize -> MM L A) : MM L A :=
  if AdjustmentAmountIsDelta a then do! v <- AdjustmentAmountMustDelta a; getDelta v
  else if AdjustmentAmountIsAbsolute a
  then do! v <- AdjustmentAmountMustAbsolute a; getAbsolute v
  else mfail GoPanic.

Record MonetaryAmount := mkMonetaryAmount { Amount : Fee; Currency : Asset }.
Definition zeroMonetaryAmount : MonetaryAmount := mkMonetaryAmount zeroDecimal None.
Record ParamMonetaryAmount := mkParamMonetaryAmount { ma_amount : ParamFee; ma_currency : StringView }.
Definition zeroParamMonetaryAmount : ParamMonetaryAmount :=
  mkParamMonetaryAmount zeroDecimal stringViewNone.
Definition ParamMonetaryAmountOptional := COptional ParamMonetaryAmount.
Definition NewParamMonetaryAmount (amount : ParamFee) (currency : GoString) : ParamMonetaryAmount :=
  mkParamMonetaryAmount amount (importString currency).
Definition NewParamMonetaryAmountOptionalSet (value : ParamMonetaryAmount) : ParamMonetaryAmountOptional :=
  mkCOptional value true.
Definition NewParamMonetaryAmountOptionalUnset : ParamMonetaryAmountOptional :=
  zeroCOptional zeroParamMonetaryAmount.
Definition ParamMonetaryAmountOptionalIsSet (value : ParamMonetaryAmountOptional) : bool := c_is_set value.
Definition ParamMonetaryAmountOptionalGet (value : ParamMonetaryAmountOptional) : ParamMonetaryAmount :=
  c_value value.
Definition MonetaryAmountHandle (v : MonetaryAmount) : ParamMonetaryAmount :=
  NewParamMonetaryAmount (FeeHandle (Amount v)) (AssetHandle (Currency v)).
Definition NewMonetaryAmountFromHandle {L} (value : ParamMonetaryAmount) : MM L (option MonetaryAmount) :=
  do! currency <- NewAssetFromHandle (ma_currency value);
  match currency with
  | None => mret None
  | Some currency => mret (Some (mkMonetaryAmount (NewFeeFromHandle (ma_amount value)) currency))
  end.
Definition NewMonetaryAmountOptionFromHandle {L} (value : ParamMonetaryAmountOptional)
    : MM L (option MonetaryAmount) :=
  if negb (ParamMonetaryAmountOptionalIsSet value) then mret None
  else NewMonetaryAmountFromHandle (ParamMonetaryAmountOptionalGet value).

(** ** PnL states (model/pnl.go) *)

Definition PnlHaltReason := Z.
Definition PnlHaltReasonNone : PnlHaltReason := 0%Z.
Definition PnlStateKindValue : Z := 0%Z.
Definition PnlStateKindHalted : Z := 1%Z.
Record OpenPitPnlState := mkOpenPitPnlState {
  ps_kind : Z;
  ps_value : ParamPnl;
  ps_halt_reason : PnlHaltReason;
}.
Definition zeroOpenPitPnlState : OpenPitPnlState :=
  mkOpenPitPnlState PnlStateKindValue zeroDecimal PnlHaltReasonNone.
Definition PnlStateOptional := COptional OpenPitPnlState.
Definition NewPnlStateValue (value : ParamPnl) : OpenPitPnlState :=
  mkOpenPitPnlState PnlStateKindValue value PnlHaltReasonNone.
Definition NewPnlStateHalted (reason : PnlHaltReason) : OpenPitPnlState :=
  mkOpenPitPnlState PnlStateKindHalted zeroDecimal reason.
Definition PnlStateOptionalIsSet (value : PnlStateOptional) : bool := c_is_set value.
Definition PnlStateOptionalGet (value : PnlStateOptional) : OpenPitPnlState := c_value value.

Record PnlState := mkPnlState { pnl_value : Pnl; pnl_haltReason : PnlHaltReason }.
Definition PnlHaltReasonValid (r : PnlHaltReason) : bool := existsb (Z.eqb r) [1; 2; 3; 4; 5]%Z.
Definition NewPnlState (value : Pnl) : PnlState := mkPnlState value PnlHaltReasonNone.
Definition NewPnlHaltedState (reason : PnlHaltReason) : option PnlState :=
  if negb (PnlHaltReasonValid reason) then None else Some (mkPnlState zeroDecimal reason).
Definition PnlStateIsHalted (s : PnlState) : bool := negb (pnl_haltReason s =? PnlHaltReasonNone)%Z.
Definition PnlStateValue (s : PnlState) : Pnl * bool := (pnl_value s, negb (PnlStateIsHalted s)).
Definition PnlStateHaltReason (s : PnlState) : PnlHaltReason * bool :=
  (pnl_haltReason s, PnlStateIsHalted s).
Definition NewPnlStateFromHandle (state : OpenPitPnlState) : PnlState :=
  if (ps_kind state =? PnlStateKindHalted)%Z
  then mkPnlState zeroDecimal (ps_halt_reason state)
  else NewPnlState (NewPnlFromHandle (ps_value state)).
Definition PnlStateHandle (s : PnlState) : OpenPitPnlState :=
  if PnlStateIsHalted s then NewPnlStateHalted (pnl_haltReason s)
  else NewPnlStateValue (PnlHandle (pnl_value s)).

(** ** Lemmas *)

Definition validSide (v : Side) : bool := (v =? SideBuy)%Z || (v =? SideSell)%Z.
Definition validPositionSide (v : PositionSide) : bool :=
  (v =? PositionSideLong)%Z || (v =? PositionSideShort)%Z.
Definition validPositionEffect (v : PositionEffect) : bool :=
  (v =? PositionEffectOpen)%Z || (v =? PositionEffectClose)%Z.

Lemma Side_roundtrip {L} v (m : Mem L) : validSide v = true -> NewSideFromHandle v m = inr (Some v, m).
Proof. unfold validSide. intros [H|H]%orb_prop; apply Z.eqb_eq in H; by subst. Qed.
Lemma PositionSide_roundtrip {L} v (m : Mem L) :
  validPositionSide v = true -> NewPositionSideFromHandle v m = inr (Some v, m).
Proof. unfold validPositionSide. intros [H|H]%orb_prop; apply Z.eqb_eq in H; by subst. Qed.
Lemma PositionEffect_roundtrip {L} v (m : Mem L) :
  validPositionEffect v = true -> newPositionEffectFromHandle v m = inr (Some v, m).
Proof. unfold validPositionEffect. intros [H|H]%orb_prop; apply Z.eqb_eq in H; by subst. Qed.
Lemma TriBool_roundtrip b : NewBoolOptionFromNative (NewNativeTriBool b) = Some b.
Proof. by destruct b. Qed.

(** A state made by the package: a value, or one halt reason and no value. *)
Definition pnlOk (s : PnlState) : Prop := PnlStateIsHalted s = true -> pnl_value s = zeroDecimal.
Lemma PnlState_roundtrip s : pnlOk s -> NewPnlStateFromHandle (PnlStateHandle s) = s.
Proof.
  destruct s as [v r]. unfold pnlOk, PnlStateHandle, PnlStateIsHalted. cbn.
  destruct (Z.eqb_spec r PnlHaltReasonNone) as [->|Hr]; cbn; [done|].
  intros H. by rewrite H.
Qed.

(** Proofs of [writesThrough] and [leavesAlone] for groups stored behind an [is_set] flag. *)
Ltac open_group s :=
  destruct s as [[]]; repeat match goal with
  | x : ?T |- _ => lazymatch eval hnf in T with COptional _ => destruct x as [? []] end
  end.
Ltac solve_writes_through :=
  let s := fresh "s" in
  intros s ?; open_group s; cbn;
  (eexists; split_and!;
    [reflexivity|intros; congruence|intros; first [done|congruence]
    |apply foldl_simulates; [|reflexivity]; intros [] s' ? Hs; open_group s'; cbn in *; by simplify_eq/=]).
Ltac solve_leaves_alone :=
  let s := fresh "s" in
  intros s ?; open_group s; cbn; (rewrite foldl_keeps; [done|by intros [] ?]).

(** a leverage built from a whole multiplier up to [LeverageMax] is exact and set,
    and what [String] prints of any payload determines the payload; a multiplier over
    6553 wraps. *)
Theorem leverage_is_exact_in_range :
  (forall n, (LeverageMin <= n <= LeverageMax)%Z ->
     LeverageParts (NewLeverageFromUint16 n) = (n, None) /\
     LeverageIsSet (NewLeverageFromUint16 n) = true /\ inU 16 (NewLeverageFromUint16 n)) /\
  (forall v w, LeverageParts v = LeverageParts w -> v = w) /\
  (forall n, (6553 < n < 2 ^ 16)%Z -> NewLeverageFromUint16 n <> (n * LeverageScale)%Z).
Proof.
  unfold NewLeverageFromUint16, LeverageParts, LeverageIsSet, LeverageMin, LeverageMax,
    ParamLeverageNotSet, LeverageScale. split_and!.
  - intros n Hn. rewrite wrapU_small by (unfold inU; lia).
    rewrite Z_mod_mult, Z_div_mult by lia. cbn. split_and!; [done| |unfold inU; lia].
    apply negb_true_iff, Z.eqb_neq. lia.
  - intros v w H. rewrite (Z.div_mod v 10), (Z.div_mod w 10) by lia.
    destruct (Z.eqb_spec (v mod 10) 0) as [Ev|Ev], (Z.eqb_spec (w mod 10) 0) as [Ew|Ew];
      simplify_eq; congruence.
  - intros n Hn H. pose proof (wrapU_range 16 (n * 10) ltac:(lia)) as Hr. unfold inU in Hr. lia.
Qed.
