(* ===== verification/Retention.v ===== *)
(** * Values that retain what their native records point into

    The records of model/ hold views of C buffers and keep the owners next to them.
    Here is what that asks of a family of Go values, and what it gives: the values a
    program holds form a pool; an operation makes a new value from the pool and may
    allocate; a value may be dropped; a collection frees any object that no value of
    the pool reaches. If every operation makes sound values from sound values, every
    value of every reachable pool is sound, whatever the collector freed. *)
From Stdlib Require Import ZArith Lia.
From stdpp Require Import base list gmap strings.
From S2P Require Import Prelude NativeMem.

(** What a Go value keeps alive, and when all it points into is alive. *)
Class Retaining (L T : Type) := {
  roots : T -> list nat;
  lockRoots : T -> list nat;
  sound : Mem L -> T -> Prop;
}.

Class RetainingLaws (L T : Type) `{!Retaining L T} : Prop := {
  sound_extends : forall (m m' : Mem L) (v : T), extends m m' -> sound m v -> sound m' v;
  sound_collected : forall (m m' : Mem L) (v : T) r lr,
    collected r lr m m' -> roots v ⊆ r -> lockRoots v ⊆ lr -> sound m v -> sound m' v;
}.

#[export] Instance Asset_retaining L : Retaining L Asset := {|
  roots := assetRoots; lockRoots := fun _ => []; sound := assetLive |}.
#[export] Instance Asset_laws L : RetainingLaws L Asset.
Proof.
  split; cbn; intros *; [apply extends_assetLive|].
  intros Hc Hr _. by apply (collected_assetLive r lr m m').
Qed.
#[export] Instance Instrument_retaining L : Retaining L Instrument := {|
  roots := instrumentRoots; lockRoots := fun _ => []; sound := instrumentLive |}.
Lemma extends_instrumentLive {L} (m m' : Mem L) i :
  extends m m' -> instrumentLive m i -> instrumentLive m' i.
Proof. intros H [H1 H2]. split; by apply (extends_assetLive m m'). Qed.
#[export] Instance Instrument_laws L : RetainingLaws L Instrument.
Proof.
  split; cbn; intros *; [apply extends_instrumentLive|].
  intros Hc Hr _. by apply (collected_instrumentLive r lr m m').
Qed.

(** ** Pools *)

Section Pool.
Context {L T : Type} `{!Retaining L T, !RetainingLaws L T}.
(** [makes m vs m' v]: an operation on values of [vs] in memory [m] makes [v]. *)
Context (makes : Mem L -> list T -> Mem L -> T -> Prop).

Inductive poolStep : Mem L * list T -> Mem L * list T -> Prop :=
| pool_make m vs m' v : makes m vs m' v -> poolStep (m, vs) (m', v :: vs)
| pool_drop m vs vs' : vs' ⊆ vs -> poolStep (m, vs) (m, vs')
| pool_collect m vs m' :
    collected (vs ≫= roots) (vs ≫= lockRoots) m m' -> poolStep (m, vs) (m', vs).

Inductive poolReach : Mem L * list T -> Prop :=
| pool_start m : memOk m -> poolReach (m, [])
| pool_next w w' : poolReach w -> poolStep w w' -> poolReach w'.

(** What each operation owes. *)
Definition makesSound : Prop := forall m vs m' v,
  memOk m -> Forall (sound m) vs -> makes m vs m' v -> memOk m' /\ extends m m' /\ sound m' v.

Lemma pool_sound w : makesSound -> poolReach w -> memOk (fst w) /\ Forall (sound (fst w)) (snd w).
Proof.
  intros Hmk Hw. induction Hw as [m Hm|w w' Hw [IH1 IH2] Hs]; [by split|].
  destruct Hs as [m vs m' v Hv|m vs vs' Hi|m vs m' Hc]; cbn in *.
  - destruct (Hmk _ _ _ _ IH1 IH2 Hv) as (H1 & H2 & H3). split; [done|]. constructor; [done|].
    apply Forall_impl with (sound m); [done|]. intros x. by apply sound_extends.
  - split; [done|]. rewrite Forall_forall in *. auto.
  - split; [by eapply collected_memOk|]. rewrite Forall_forall in *. intros v Hv.
    eapply sound_collected; [exact Hc| |  |auto]; intros p Hp; apply list_elem_of_bind; eauto.
Qed.
End Pool.

(** ** Assets and instruments *)

(** The ways to make an asset from the assets and instruments at hand. *)
Inductive makesAsset {L} (validate : string -> option string) (m : Mem L)
    (asset : Asset -> Prop) (instrument : Instrument -> Prop) : Mem L -> Asset -> Prop :=
| makes_new s a m' : NewAsset validate s m = inr (Some a, m') -> makesAsset validate m asset instrument m' a
| makes_zero : makesAsset validate m asset instrument m None
| makes_underlying i : instrument i -> makesAsset validate m asset instrument m (UnderlyingAsset i)
| makes_settlement i : instrument i -> makesAsset validate m asset instrument m (SettlementAsset i).
(** [NewInstrument], and the zero value. *)
Inductive makesInstrument (asset : Asset -> Prop) : Instrument -> Prop :=
| makes_instrument u s : asset u -> asset s -> makesInstrument asset (mkInstrument u s)
| makes_zeroInstrument : makesInstrument asset zeroInstrument.

(** Reading an instrument or an asset through a sound record. *)
Lemma read_instrument_makes {L} (m m' : Mem L) n i j :
  memOk m -> instrumentLive m i -> instrumentViewOf n i ->
  NewInstrumentFromHandle n m = inr (Some j, m') -> memOk m' /\ extends m m' /\ instrumentLive m' j.
Proof.
  intros Hm Hi Hn E. destruct (NewInstrumentFromHandle_spec m n Hm (instrumentViewLive_of m n i Hi Hn))
    as (o & m1 & E1 & H1 & H2 & H3 & _). rewrite E1 in E. simplify_eq. auto.
Qed.
Lemma read_asset_makes {L} (m m' : Mem L) n i j :
  memOk m -> assetLive m i -> viewOf n i ->
  NewAssetFromHandle n m = inr (Some j, m') -> memOk m' /\ extends m m' /\ assetLive m' j.
Proof.
  intros Hm Hi Hn E. destruct (NewAssetFromHandle_spec m n Hm (viewLive_of m n i Hi Hn))
    as (o & m1 & E1 & H1 & H2 & H3 & _). rewrite E1 in E. simplify_eq. auto.
Qed.
Lemma NewAsset_makes {L} validate (m m' : Mem L) s a :
  memOk m -> NewAsset validate s m = inr (Some a, m') -> memOk m' /\ extends m m' /\ assetLive m' a.
Proof.
  intros Hm. unfold NewAsset, mbind', mret. destruct (validate s) as [t|]; [|done].
  destruct (NewString_spec m t Hm) as (b & m1 & -> & H1 & H2 & H3 & H4). intros [= <- <-].
  split_and!; [done..|]. by exists t.
Qed.

Lemma makesAsset_sound {L} validate (m m' : Mem L) (asset : Asset -> Prop) (instrument : Instrument -> Prop) a :
  memOk m -> (forall a, asset a -> assetLive m a) -> (forall i, instrument i -> instrumentLive m i) ->
  makesAsset validate m asset instrument m' a -> memOk m' /\ extends m m' /\ assetLive m' a.
Proof.
  intros Hm HA HI H. destruct H as [s a m' E| |i Hi|i Hi].
  - by eapply NewAsset_makes.
  - by split_and!.
  - split_and!; [done..|]. by apply HI in Hi as [].
  - split_and!; [done..|]. by apply HI in Hi as [].
Qed.
Lemma makesInstrument_sound {L} (m : Mem L) (asset : Asset -> Prop) i :
  (forall a, asset a -> assetLive m a) -> makesInstrument asset i -> instrumentLive m i.
Proof. intros HA H. destruct H; split; cbn; auto. Qed.

(** A call that returns an optional value returns one, and the text is what the view shows. *)
Definition readsInstrument {L} (m : Mem L) (r : MM L (option Instrument)) (n : OpenPitInstrument) : Prop :=
  exists o m', r m = inr (o, m') /\ memOk m' /\ extends m m' /\
    (forall i, o = Some i -> instrumentLive m' i) /\ (o ≫= instrumentText m') = instrumentViewText m n.
Definition readsAsset {L} (m : Mem L) (r : MM L (option Asset)) (n : StringView) : Prop :=
  exists o m', r m = inr (o, m') /\ memOk m' /\ extends m m' /\
    (forall a, o = Some a -> assetLive m' a) /\ (o ≫= assetText m') = viewText m n.
Lemma reads_instrument {L} (m : Mem L) n i :
  memOk m -> instrumentLive m i -> instrumentViewOf n i ->
  readsInstrument m (NewInstrumentFromHandle n) n.
Proof.
  intros Hm Hi Hn. destruct (NewInstrumentFromHandle_spec m n Hm (instrumentViewLive_of m n i Hi Hn))
    as (o & m1 & E1 & H1 & H2 & H3 & H4). by exists o, m1.
Qed.
Lemma reads_asset {L} (m : Mem L) n i :
  memOk m -> assetLive m i -> viewOf n i -> readsAsset m (NewAssetFromHandle n) n.
Proof.
  intros Hm Hi Hn. destruct (NewAssetFromHandle_spec m n Hm (viewLive_of m n i Hi Hn))
    as (o & m1 & E1 & H1 & H2 & H3 & H4 & H5). by exists o, m1.
Qed.

(** Reading back an optional value that was set, or nothing. *)
Lemma reads_instrument_option {L} (m : Mem L) (o : option Instrument) :
  memOk m -> (forall i, o = Some i -> instrumentLive m i) ->
  exists r m', NewInstrumentFromHandle (default zeroOpenPitInstrument (InstrumentHandle <$> o)) m = inr (r, m') /\
    memOk m' /\ extends m m' /\ (forall i, r = Some i -> instrumentLive m' i) /\
    r ≫= instrumentText m' = o ≫= instrumentText m.
Proof.
  intros Hm Hi. destruct o as [i|]; [|by exists None, m]. cbn.
  destruct (reads_instrument m (InstrumentHandle i) i Hm (Hi i eq_refl)) as (r & m' & H1 & H2 & H3 & H4 & H5);
    [auto with pit|]. exists r, m'. split_and!; [done..|]. rewrite H5. by apply instrumentViewText_handle, Hi.
Qed.
Lemma reads_asset_option {L} (m : Mem L) (o : option Asset) :
  memOk m -> (forall a, o = Some a -> assetLive m a) ->
  exists r m', NewAssetFromHandle (default stringViewNone ((fun a => importString (AssetHandle a)) <$> o)) m
      = inr (r, m') /\ memOk m' /\ extends m m' /\ (forall a, r = Some a -> assetLive m' a) /\
    r ≫= assetText m' = o ≫= assetText m.
Proof.
  intros Hm Ha. destruct o as [a|]; [|by exists None, m]. cbn.
  destruct (reads_asset m (importString (AssetHandle a)) a Hm (Ha a eq_refl)) as (r & m' & H1 & H2 & H3 & H4 & H5);
    [auto with pit|]. exists r, m'. split_and!; [done..|]. rewrite H5. by apply viewText_handle, Ha.
Qed.
