(* ===== verification/NativeOrder.v ===== *)
(** * The native order record

    [OpenPitOrder] of internal/native/openpit.h and the accessors of
    internal/native/order.go, one definition per Go function. A function that takes a
    pointer and writes through it is the function from the old record to the new one;
    one that returns a pointer into the record returns a [Ptr]. *)
From Stdlib Require Import ZArith.
From stdpp Require Import base tactics.
From S2P Require Import Prelude GoPtr NativeMem ParamValues.

(** ** Groups of fields *)

Record OpenPitOrderOperation := mkOrderOperation {
  op_trade_amount : ParamTradeAmount;
  op_instrument : OpenPitInstrument;
  op_price : ParamPriceOptional;
  op_account_id : ParamAccountIDOptional;
  op_side : ParamSide;
}.
Definition NewOrderOperation : OpenPitOrderOperation :=
  mkOrderOperation zeroTradeAmount zeroOpenPitInstrument (zeroCOptional zeroDecimal) (zeroCOptional 0%Z)
    ParamSideNotSet.
Definition OrderOperationReset (o : OpenPitOrderOperation) : OpenPitOrderOperation := NewOrderOperation.
Definition OrderOperationGetTradeAmount (o : OpenPitOrderOperation) : ParamTradeAmount :=
  op_trade_amount o.
Definition OrderOperationSetTradeAmount (o : OpenPitOrderOperation) (value : ParamTradeAmount)
    : OpenPitOrderOperation :=
  mkOrderOperation value (op_instrument o) (op_price o) (op_account_id o) (op_side o).
Definition OrderOperationUnsetTradeAmount (o : OpenPitOrderOperation) : OpenPitOrderOperation :=
  mkOrderOperation zeroTradeAmount (op_instrument o) (op_price o) (op_account_id o) (op_side o).
Definition OrderOperationGetInstrument (o : OpenPitOrderOperation) : OpenPitInstrument :=
  op_instrument o.
Definition OrderOperationSetInstrument (o : OpenPitOrderOperation) (value : OpenPitInstrument)
    : OpenPitOrderOperation :=
  mkOrderOperation (op_trade_amount o) value (op_price o) (op_account_id o) (op_side o).
Definition OrderOperationUnsetInstrument (o : OpenPitOrderOperation) : OpenPitOrderOperation :=
  mkOrderOperation (op_trade_amount o) zeroOpenPitInstrument (op_price o) (op_account_id o) (op_side o).
Definition OrderOperationGetPrice (o : OpenPitOrderOperation) : ParamPriceOptional := op_price o.
Definition OrderOperationSetPrice (o : OpenPitOrderOperation) (value : ParamPrice)
    : OpenPitOrderOperation :=
  mkOrderOperation (op_trade_amount o) (op_instrument o) (setCOptional value (op_price o))
    (op_account_id o) (op_side o).
Definition OrderOperationUnsetPrice (o : OpenPitOrderOperation) : OpenPitOrderOperation :=
  mkOrderOperation (op_trade_amount o) (op_instrument o) (zeroCOptional zeroDecimal) (op_account_id o)
    (op_side o).
Definition OrderOperationGetAccountID (o : OpenPitOrderOperation) : ParamAccountIDOptional :=
  op_account_id o.
Definition OrderOperationSetAccountID (o : OpenPitOrderOperation) (value : ParamAccountID)
    : OpenPitOrderOperation :=
  mkOrderOperation (op_trade_amount o) (op_instrument o) (op_price o)
    (setCOptional value (op_account_id o)) (op_side o).
Definition OrderOperationUnsetAccountID (o : OpenPitOrderOperation) : OpenPitOrderOperation :=
  mkOrderOperation (op_trade_amount o) (op_instrument o) (op_price o) (zeroCOptional 0%Z) (op_side o).
Definition OrderOperationGetSide (o : OpenPitOrderOperation) : ParamSide := op_side o.
Definition OrderOperationSetSide (o : OpenPitOrderOperation) (value : ParamSide)
    : OpenPitOrderOperation :=
  mkOrderOperation (op_trade_amount o) (op_instrument o) (op_price o) (op_account_id o) value.
Definition OrderOperationUnsetSide (o : OpenPitOrderOperation) : OpenPitOrderOperation :=
  mkOrderOperation (op_trade_amount o) (op_instrument o) (op_price o) (op_account_id o) ParamSideNotSet.

Record OpenPitOrderPosition := mkOrderPosition {
  pos_position_side : ParamPositionSide;
  pos_reduce_only : TriBool;
  pos_close_position : TriBool;
}.
Definition NewOrderPosition : OpenPitOrderPosition :=
  mkOrderPosition ParamPositionSideNotSet TriBoolNotSet TriBoolNotSet.
Definition OrderPositionReset (p : OpenPitOrderPosition) : OpenPitOrderPosition := NewOrderPosition.
Definition OrderPositionGetSide (p : OpenPitOrderPosition) : ParamPositionSide := pos_position_side p.
Definition OrderPositionSetSide (p : OpenPitOrderPosition) (value : ParamPositionSide)
    : OpenPitOrderPosition :=
  mkOrderPosition value (pos_reduce_only p) (pos_close_position p).
Definition OrderPositionUnsetSide (p : OpenPitOrderPosition) : OpenPitOrderPosition :=
  mkOrderPosition ParamPositionSideNotSet (pos_reduce_only p) (pos_close_position p).
Definition OrderPositionGetReduceOnly (p : OpenPitOrderPosition) : TriBool := pos_reduce_only p.
Definition OrderPositionSetReduceOnly (p : OpenPitOrderPosition) (value : TriBool)
    : OpenPitOrderPosition :=
  mkOrderPosition (pos_position_side p) value (pos_close_position p).
Definition OrderPositionUnsetReduceOnly (p : OpenPitOrderPosition) : OpenPitOrderPosition :=
  mkOrderPosition (pos_position_side p) TriBoolNotSet (pos_close_position p).
Definition OrderPositionGetClosePosition (p : OpenPitOrderPosition) : TriBool := pos_close_position p.
Definition OrderPositionSetClosePosition (p : OpenPitOrderPosition) (value : TriBool)
    : OpenPitOrderPosition :=
  mkOrderPosition (pos_position_side p) (pos_reduce_only p) value.
Definition OrderPositionUnsetClosePosition (p : OpenPitOrderPosition) : OpenPitOrderPosition :=
  mkOrderPosition (pos_position_side p) (pos_reduce_only p) TriBoolNotSet.

Record OpenPitOrderMargin := mkOrderMargin {
  mg_collateral_asset : StringView;
  mg_auto_borrow : TriBool;
  mg_leverage : ParamLeverage;
}.
Definition NewOrderMargin : OpenPitOrderMargin :=
  mkOrderMargin stringViewNone TriBoolNotSet ParamLeverageNotSet.
Definition OrderMarginReset (m : OpenPitOrderMargin) : OpenPitOrderMargin := NewOrderMargin.
Definition OrderMarginGetCollateralAsset (m : OpenPitOrderMargin) : StringView := mg_collateral_asset m.
Definition OrderMarginSetCollateralAsset (m : OpenPitOrderMargin) (value : GoString)
    : OpenPitOrderMargin :=
  mkOrderMargin (importString value) (mg_auto_borrow m) (mg_leverage m).
Definition OrderMarginUnsetCollateralAsset (m : OpenPitOrderMargin) : OpenPitOrderMargin :=
  mkOrderMargin stringViewNone (mg_auto_borrow m) (mg_leverage m).
Definition OrderMarginGetAutoBorrow (m : OpenPitOrderMargin) : TriBool := mg_auto_borrow m.
Definition OrderMarginSetAutoBorrow (m : OpenPitOrderMargin) (value : TriBool) : OpenPitOrderMargin :=
  mkOrderMargin (mg_collateral_asset m) value (mg_leverage m).
Definition OrderMarginUnsetAutoBorrow (m : OpenPitOrderMargin) : OpenPitOrderMargin :=
  mkOrderMargin (mg_collateral_asset m) TriBoolNotSet (mg_leverage m).
Definition OrderMarginGetLeverage (m : OpenPitOrderMargin) : ParamLeverage := mg_leverage m.
Definition OrderMarginSetLeverage (m : OpenPitOrderMargin) (value : ParamLeverage)
    : OpenPitOrderMargin :=
  mkOrderMargin (mg_collateral_asset m) (mg_auto_borrow m) value.
Definition OrderMarginUnsetLeverage (m : OpenPitOrderMargin) : OpenPitOrderMargin :=
  mkOrderMargin (mg_collateral_asset m) (mg_auto_borrow m) ParamLeverageNotSet.

(** ** Optional groups *)

Definition OpenPitOrderOperationOptional := COptional OpenPitOrderOperation.
Definition NewOrderOperationOptional : OpenPitOrderOperationOptional := zeroCOptional NewOrderOperation.
Definition OrderOperationOptionalReset (value : OpenPitOrderOperationOptional)
    : OpenPitOrderOperationOptional :=
  mkCOptional (OrderOperationReset (c_value value)) false.
Definition OrderOperationOptionalIsSet (value : OpenPitOrderOperationOptional) : bool := c_is_set value.
Definition OrderOperationOptionalGet (value : OpenPitOrderOperationOptional) : OpenPitOrderOperation :=
  c_value value.
Definition OrderOperationOptionalGetView {S} (value : Ptr S OpenPitOrderOperationOptional)
    : Ptr S OpenPitOrderOperation :=
  fieldPtr value c_value (fun v o => mkCOptional v (c_is_set o)).
Definition OrderOperationOptionalSet (value : OpenPitOrderOperationOptional) (x : OpenPitOrderOperation)
    : OpenPitOrderOperationOptional :=
  mkCOptional x true.

Definition OpenPitOrderPositionOptional := COptional OpenPitOrderPosition.
Definition NewOrderPositionOptional : OpenPitOrderPositionOptional := zeroCOptional NewOrderPosition.
Definition OrderPositionOptionalReset (value : OpenPitOrderPositionOptional)
    : OpenPitOrderPositionOptional :=
  mkCOptional (OrderPositionReset (c_value value)) false.
Definition OrderPositionOptionalIsSet (value : OpenPitOrderPositionOptional) : bool := c_is_set value.
Definition OrderPositionOptionalGet (value : OpenPitOrderPositionOptional) : OpenPitOrderPosition :=
  c_value value.
Definition OrderPositionOptionalGetView {S} (value : Ptr S OpenPitOrderPositionOptional)
    : Ptr S OpenPitOrderPosition :=
  fieldPtr value c_value (fun v o => mkCOptional v (c_is_set o)).
Definition OrderPositionOptionalSet (value : OpenPitOrderPositionOptional) (x : OpenPitOrderPosition)
    : OpenPitOrderPositionOptional :=
  mkCOptional x true.

Definition OpenPitOrderMarginOptional := COptional OpenPitOrderMargin.
Definition NewOrderMarginOptional : OpenPitOrderMarginOptional := zeroCOptional NewOrderMargin.
Definition OrderMarginOptionalReset (value : OpenPitOrderMarginOptional) : OpenPitOrderMarginOptional :=
  mkCOptional (OrderMarginReset (c_value value)) false.
Definition OrderMarginOptionalIsSet (value : OpenPitOrderMarginOptional) : bool := c_is_set value.
Definition OrderMarginOptionalGet (value : OpenPitOrderMarginOptional) : OpenPitOrderMargin :=
  c_value value.
Definition OrderMarginOptionalGetView {S} (value : Ptr S OpenPitOrderMarginOptional)
    : Ptr S OpenPitOrderMargin :=
  fieldPtr value c_value (fun v o => mkCOptional v (c_is_set o)).
Definition OrderMarginOptionalSet (value : OpenPitOrderMarginOptional) (x : OpenPitOrderMargin)
    : OpenPitOrderMarginOptional :=
  mkCOptional x true.

(** ** The order *)

Record OpenPitOrder := mkOrder {
  o_operation : OpenPitOrderOperationOptional;
  o_margin : OpenPitOrderMarginOptional;
  o_position : OpenPitOrderPositionOptional;
  o_user_data : Z;
}.
Definition NewOrder : OpenPitOrder :=
  mkOrder NewOrderOperationOptional NewOrderMarginOptional NewOrderPositionOptional 0%Z.
Definition OrderReset (o : OpenPitOrder) : OpenPitOrder := NewOrder.
Definition OrderGetOrderOperation (o : OpenPitOrder) : OpenPitOrderOperationOptional := o_operation o.
Definition OrderGetOrderOperationView {S} (o : Ptr S OpenPitOrder)
    : Ptr S OpenPitOrderOperationOptional :=
  fieldPtr o o_operation (fun x r => mkOrder x (o_margin r) (o_position r) (o_user_data r)).
Definition OrderSetOrderOperation (o : OpenPitOrder) (x : OpenPitOrderOperation) : OpenPitOrder :=
  mkOrder (OrderOperationOptionalSet (o_operation o) x) (o_margin o) (o_position o) (o_user_data o).
Definition OrderUnsetOrderOperation (o : OpenPitOrder) : OpenPitOrder :=
  mkOrder (OrderOperationOptionalReset (o_operation o)) (o_margin o) (o_position o) (o_user_data o).
Definition OrderGetOrderPosition (o : OpenPitOrder) : OpenPitOrderPositionOptional := o_position o.
Definition OrderGetOrderPositionView {S} (o : Ptr S OpenPitOrder)
    : Ptr S OpenPitOrderPositionOptional :=
  fieldPtr o o_position (fun x r => mkOrder (o_operation r) (o_margin r) x (o_user_data r)).
Definition OrderSetOrderPosition (o : OpenPitOrder) (x : OpenPitOrderPosition) : OpenPitOrder :=
  mkOrder (o_operation o) (o_margin o) (OrderPositionOptionalSet (o_position o) x) (o_user_data o).
Definition OrderUnsetOrderPosition (o : OpenPitOrder) : OpenPitOrder :=
  mkOrder (o_operation o) (o_margin o) (OrderPositionOptionalReset (o_position o)) (o_user_data o).
Definition OrderGetOrderMargin (o : OpenPitOrder) : OpenPitOrderMarginOptional := o_margin o.
Definition OrderGetOrderMarginView {S} (o : Ptr S OpenPitOrder) : Ptr S OpenPitOrderMarginOptional :=
  fieldPtr o o_margin (fun x r => mkOrder (o_operation r) x (o_position r) (o_user_data r)).
Definition OrderSetOrderMargin (o : OpenPitOrder) (x : OpenPitOrderMargin) : OpenPitOrder :=
  mkOrder (o_operation o) (OrderMarginOptionalSet (o_margin o) x) (o_position o) (o_user_data o).
Definition OrderUnsetOrderMargin (o : OpenPitOrder) : OpenPitOrder :=
  mkOrder (o_operation o) (OrderMarginOptionalReset (o_margin o)) (o_position o) (o_user_data o).
Definition OrderGetUserData (o : OpenPitOrder) : Z := o_user_data o.
Definition OrderSetUserData (o : OpenPitOrder) (userData : Z) : OpenPitOrder :=
  mkOrder (o_operation o) (o_margin o) (o_position o) userData.
