(* ===== verification/ModelOrder.v ===== *)
(** * Orders

    [model.Order] and the groups it holds (model/order.go). A Go value is the native
    record with the owners it retains; a view is a pair of pointers into the order
    that made it, so a write through a view is a write to the order, also after the
    order was reset or the group unset. *)
From Stdlib Require Import ZArith.
From stdpp Require Import base list gmap strings.
From S2P Require Import Prelude GoPtr NativeMem ParamValues NativeOrder.

(** ** Values *)

Record OrderOperationValues := mkOrderOperationValues {
  vop_TradeAmount : option TradeAmount;
  vop_Instrument : option Instrument;
  vop_Price : option Price;
  vop_AccountID : option AccountID;
  vop_Side : option Side;
}.
Record OrderPositionValues := mkOrderPositionValues {
  vpos_Side : option PositionSide;
  vpos_ReduceOnly : option bool;
  vpos_ClosePosition : option bool;
}.
Record OrderMarginValues := mkOrderMarginValues {
  vmg_CollateralAsset : option Asset;
  vmg_AutoBorrow : option bool;
  vmg_Leverage : option Leverage;
}.

(** ** Groups and their views *)

Module OrderOperation.
Record t := mk { value : OpenPitOrderOperation; retainInstrument : Instrument }.
Definition newOrderOperation (v : OpenPitOrderOperation) : t := mk v zeroInstrument.
Definition NewOrderOperation : t := newOrderOperation NativeOrder.NewOrderOperation.
Definition Reset (o : t) : t := mk (OrderOperationReset (value o)) zeroInstrument.
Definition TradeAmount (o : t) : option ParamValues.TradeAmount :=
  NewTradeAmountFromHandle (OrderOperationGetTradeAmount (value o)).
Definition SetTradeAmount (o : t) (x : ParamValues.TradeAmount) : t :=
  mk (OrderOperationSetTradeAmount (value o) (TradeAmountHandle x)) (retainInstrument o).
Definition UnsetTradeAmount (o : t) : t :=
  mk (OrderOperationUnsetTradeAmount (value o)) (retainInstrument o).
Definition Instrument {L} (o : t) : MM L (option NativeMem.Instrument) :=
  NewInstrumentFromHandle (OrderOperationGetInstrument (value o)).
Definition SetInstrument (o : t) (x : NativeMem.Instrument) : t :=
  mk (OrderOperationSetInstrument (value o) (InstrumentHandle x)) x.
Definition UnsetInstrument (o : t) : t := mk (OrderOperationUnsetInstrument (value o)) zeroInstrument.
Definition Price (o : t) : option ParamValues.Price :=
  NewPriceOptionFromHandle (OrderOperationGetPrice (value o)).
Definition SetPrice (o : t) (x : ParamValues.Price) : t :=
  mk (OrderOperationSetPrice (value o) (PriceHandle x)) (retainInstrument o).
Definition UnsetPrice (o : t) : t := mk (OrderOperationUnsetPrice (value o)) (retainInstrument o).
Definition AccountID (o : t) : option ParamValues.AccountID :=
  NewAccountIDOptionFromHandle (OrderOperationGetAccountID (value o)).
Definition SetAccountID (o : t) (x : ParamValues.AccountID) : t :=
  mk (OrderOperationSetAccountID (value o) (AccountIDHandle x)) (retainInstrument o).
Definition UnsetAccountID (o : t) : t :=
  mk (OrderOperationUnsetAccountID (value o)) (retainInstrument o).
Definition Side {L} (o : t) : MM L (option ParamValues.Side) :=
  NewSideFromHandle (OrderOperationGetSide (value o)).
Definition SetSide (o : t) (x : ParamValues.Side) : t :=
  mk (OrderOperationSetSide (value o) (SideHandle x)) (retainInstrument o).
Definition UnsetSide (o : t) : t := mk (OrderOperationUnsetSide (value o)) (retainInstrument o).
Definition Values {L} (o : t) : MM L OrderOperationValues :=
  do! vInstrument <- Instrument o;
  do! vSide <- Side o;
  mret (mkOrderOperationValues (TradeAmount o) vInstrument (Price o) (AccountID o) vSide).
Definition setValues (o : t) (values : OrderOperationValues) : t :=
  let o := whenSome (vop_TradeAmount values) SetTradeAmount o in
  let o := whenSome (vop_Instrument values) SetInstrument o in
  let o := whenSome (vop_Price values) SetPrice o in
  let o := whenSome (vop_AccountID values) SetAccountID o in
  let o := whenSome (vop_Side values) SetSide o in
  o.
Definition SetValues (o : t) (values : OrderOperationValues) : t := setValues (Reset o) values.
Definition NewOrderOperationFromValues (values : OrderOperationValues) : t :=
  setValues NewOrderOperation values.
End OrderOperation.

Module OrderOperationView.
Section View.
Context {S : Type}.

Record t := mk { ref : Ptr S OpenPitOrderOperation; retainInstrument : Ptr S Instrument }.
Definition newOrderOperationView (ref : Ptr S OpenPitOrderOperation)
    (retainInstrument : Ptr S Instrument) : t :=
  mk ref retainInstrument.
Definition Reset (v : t) (s : S) : S :=
  let s := update (ref v) OrderOperationReset s in
  assign (retainInstrument v) zeroInstrument s.
Definition TradeAmount (v : t) (s : S) : option ParamValues.TradeAmount :=
  NewTradeAmountFromHandle (OrderOperationGetTradeAmount (deref (ref v) s)).
Definition SetTradeAmount (v : t) (x : ParamValues.TradeAmount) (s : S) : S :=
  update (ref v) (fun n => OrderOperationSetTradeAmount n (TradeAmountHandle x)) s.
Definition UnsetTradeAmount (v : t) (s : S) : S := update (ref v) OrderOperationUnsetTradeAmount s.
Definition Instrument {L} (v : t) (s : S) : MM L (option NativeMem.Instrument) :=
  NewInstrumentFromHandle (OrderOperationGetInstrument (deref (ref v) s)).
Definition SetInstrument (v : t) (x : NativeMem.Instrument) (s : S) : S :=
  let s := update (ref v) (fun n => OrderOperationSetInstrument n (InstrumentHandle x)) s in
  assign (retainInstrument v) x s.
Definition UnsetInstrument (v : t) (s : S) : S :=
  let s := update (ref v) OrderOperationUnsetInstrument s in
  assign (retainInstrument v) zeroInstrument s.
Definition Price (v : t) (s : S) : option ParamValues.Price :=
  NewPriceOptionFromHandle (OrderOperationGetPrice (deref (ref v) s)).
Definition SetPrice (v : t) (x : ParamValues.Price) (s : S) : S :=
  update (ref v) (fun n => OrderOperationSetPrice n (PriceHandle x)) s.
Definition UnsetPrice (v : t) (s : S) : S := update (ref v) OrderOperationUnsetPrice s.
Definition AccountID (v : t) (s : S) : option ParamValues.AccountID :=
  NewAccountIDOptionFromHandle (OrderOperationGetAccountID (deref (ref v) s)).
Definition SetAccountID (v : t) (x : ParamValues.AccountID) (s : S) : S :=
  update (ref v) (fun n => OrderOperationSetAccountID n (AccountIDHandle x)) s.
Definition UnsetAccountID (v : t) (s : S) : S := update (ref v) OrderOperationUnsetAccountID s.
Definition Side {L} (v : t) (s : S) : MM L (option ParamValues.Side) :=
  NewSideFromHandle (OrderOperationGetSide (deref (ref v) s)).
Definition SetSide (v : t) (x : ParamValues.Side) (s : S) : S :=
  update (ref v) (fun n => OrderOperationSetSide n (SideHandle x)) s.
Definition UnsetSide (v : t) (s : S) : S := update (ref v) OrderOperationUnsetSide s.
End View.
Arguments t : clear implicits.
End OrderOperationView.

Module OrderPosition.
Record t := mk { value : OpenPitOrderPosition }.
Definition newOrderPosition (v : OpenPitOrderPosition) : t := mk v.
Definition NewOrderPosition : t := newOrderPosition NativeOrder.NewOrderPosition.
Definition Reset (p : t) : t := mk (OrderPositionReset (value p)).
Definition Side {L} (p : t) : MM L (option PositionSide) :=
  NewPositionSideFromHandle (OrderPositionGetSide (value p)).
Definition SetSide (p : t) (x : PositionSide) : t := mk (OrderPositionSetSide (value p) x).
Definition UnsetSide (p : t) : t := mk (OrderPositionUnsetSide (value p)).
Definition ReduceOnly (p : t) : option bool :=
  NewBoolOptionFromNative (OrderPositionGetReduceOnly (value p)).
Definition SetReduceOnly (p : t) (x : bool) : t :=
  mk (OrderPositionSetReduceOnly (value p) (NewNativeTriBool x)).
Definition UnsetReduceOnly (p : t) : t := mk (OrderPositionUnsetReduceOnly (value p)).
Definition ClosePosition (p : t) : option bool :=
  NewBoolOptionFromNative (OrderPositionGetClosePosition (value p)).
Definition SetClosePosition (p : t) (x : bool) : t :=
  mk (OrderPositionSetClosePosition (value p) (NewNativeTriBool x)).
Definition UnsetClosePosition (p : t) : t := mk (OrderPositionSetClosePosition (value p) TriBoolNotSet).
Definition Values {L} (p : t) : MM L OrderPositionValues :=
  do! vSide <- Side p;
  mret (mkOrderPositionValues vSide (ReduceOnly p) (ClosePosition p)).
Definition setValues (p : t) (values : OrderPositionValues) : t :=
  let p := whenSome (vpos_Side values) SetSide p in
  let p := whenSome (vpos_ReduceOnly values) SetReduceOnly p in
  let p := whenSome (vpos_ClosePosition values) SetClosePosition p in
  p.
Definition SetValues (p : t) (values : OrderPositionValues) : t := setValues (Reset p) values.
Definition NewOrderPositionFromValues (values : OrderPositionValues) : t :=
  setValues NewOrderPosition values.
End OrderPosition.

Module OrderPositionView.
Section View.
Context {S : Type}.

Record t := mk { ref : Ptr S OpenPitOrderPosition }.
Definition newPositionView (ref : Ptr S OpenPitOrderPosition) : t := mk ref.
Definition Reset (v : t) (s : S) : S := update (ref v) OrderPositionReset s.
Definition Side {L} (v : t) (s : S) : MM L (option PositionSide) :=
  NewPositionSideFromHandle (OrderPositionGetSide (deref (ref v) s)).
Definition SetSide (v : t) (x : PositionSide) (s : S) : S :=
  update (ref v) (fun n => OrderPositionSetSide n x) s.
Definition UnsetSide (v : t) (s : S) : S := update (ref v) OrderPositionUnsetSide s.
Definition ReduceOnly (v : t) (s : S) : option bool :=
  NewBoolOptionFromNative (OrderPositionGetReduceOnly (deref (ref v) s)).
Definition SetReduceOnly (v : t) (x : bool) (s : S) : S :=
  update (ref v) (fun n => OrderPositionSetReduceOnly n (NewNativeTriBool x)) s.
Definition UnsetReduceOnly (v : t) (s : S) : S := update (ref v) OrderPositionUnsetReduceOnly s.
Definition ClosePosition (v : t) (s : S) : option bool :=
  NewBoolOptionFromNative (OrderPositionGetClosePosition (deref (ref v) s)).
Definition SetClosePosition (v : t) (x : bool) (s : S) : S :=
  update (ref v) (fun n => OrderPositionSetClosePosition n (NewNativeTriBool x)) s.
Definition UnsetClosePosition (v : t) (s : S) : S := update (ref v) OrderPositionUnsetClosePosition s.
End View.
Arguments t : clear implicits.
End OrderPositionView.

Module OrderMargin.
Record t := mk { value : OpenPitOrderMargin; retainCollateralAsset : Asset }.
Definition newOrderMargin (v : OpenPitOrderMargin) : t := mk v None.
Definition NewOrderMargin : t := newOrderMargin NativeOrder.NewOrderMargin.
Definition Reset (m : t) : t := mk (OrderMarginReset (value m)) None.
Definition CollateralAsset {L} (m : t) : MM L (option Asset) :=
  NewAssetFromHandle (OrderMarginGetCollateralAsset (value m)).
Definition SetCollateralAsset (m : t) (x : Asset) : t :=
  mk (OrderMarginSetCollateralAsset (value m) (AssetHandle x)) x.
Definition UnsetCollateralAsset (m : t) : t := mk (OrderMarginUnsetCollateralAsset (value m)) None.
Definition AutoBorrow (m : t) : option bool :=
  NewBoolOptionFromNative (OrderMarginGetAutoBorrow (value m)).
Definition SetAutoBorrow (m : t) (x : bool) : t :=
  mk (OrderMarginSetAutoBorrow (value m) (NewNativeTriBool x)) (retainCollateralAsset m).
Definition UnsetAutoBorrow (m : t) : t :=
  mk (OrderMarginSetAutoBorrow (value m) TriBoolNotSet) (retainCollateralAsset m).
Definition Leverage (m : t) : option ParamValues.Leverage :=
  NewLeverageOptionFromHandle (OrderMarginGetLeverage (value m)).
Definition SetLeverage (m : t) (x : ParamValues.Leverage) : t :=
  mk (OrderMarginSetLeverage (value m) (LeverageHandle x)) (retainCollateralAsset m).
Definition UnsetLeverage (m : t) : t :=
  mk (OrderMarginSetLeverage (value m) ParamLeverageNotSet) (retainCollateralAsset m).
Definition Values {L} (m : t) : MM L OrderMarginValues :=
  do! vCollateralAsset <- CollateralAsset m;
  mret (mkOrderMarginValues vCollateralAsset (AutoBorrow m) (Leverage m)).
Definition setValues (m : t) (values : OrderMarginValues) : t :=
  let m := whenSome (vmg_CollateralAsset values) SetCollateralAsset m in
  let m := whenSome (vmg_AutoBorrow values) SetAutoBorrow m in
  let m := whenSome (vmg_Leverage values) SetLeverage m in
  m.
Definition SetValues (m : t) (values : OrderMarginValues) : t := setValues (Reset m) values.
Definition NewOrderMarginFromValues (values : OrderMarginValues) : t := setValues NewOrderMargin values.
End OrderMargin.

Module OrderMarginView.
Section View.
Context {S : Type}.

Record t := mk { ref : Ptr S OpenPitOrderMargin; retainCollateralAsset : Ptr S Asset }.
Definition newMarginView (ref : Ptr S OpenPitOrderMargin) (retainCollateralAsset : Ptr S Asset) : t :=
  mk ref retainCollateralAsset.
Definition Reset (v : t) (s : S) : S :=
  let s := update (ref v) OrderMarginReset s in
  assign (retainCollateralAsset v) None s.
Definition CollateralAsset {L} (v : t) (s : S) : MM L (option Asset) :=
  NewAssetFromHandle (OrderMarginGetCollateralAsset (deref (ref v) s)).
Definition SetCollateralAsset (v : t) (x : Asset) (s : S) : S :=
  let s := update (ref v) (fun n => OrderMarginSetCollateralAsset n (AssetHandle x)) s in
  assign (retainCollateralAsset v) x s.
Definition UnsetCollateralAsset (v : t) (s : S) : S :=
  let s := update (ref v) OrderMarginUnsetCollateralAsset s in
  assign (retainCollateralAsset v) None s.
Definition AutoBorrow (v : t) (s : S) : option bool :=
  NewBoolOptionFromNative (OrderMarginGetAutoBorrow (deref (ref v) s)).
Definition SetAutoBorrow (v : t) (x : bool) (s : S) : S :=
  update (ref v) (fun n => OrderMarginSetAutoBorrow n (NewNativeTriBool x)) s.
Definition UnsetAutoBorrow (v : t) (s : S) : S := update (ref v) OrderMarginUnsetAutoBorrow s.
Definition Leverage (v : t) (s : S) : option ParamValues.Leverage :=
  NewLeverageOptionFromHandle (OrderMarginGetLeverage (deref (ref v) s)).
Definition SetLeverage (v : t) (x : ParamValues.Leverage) (s : S) : S :=
  update (ref v) (fun n => OrderMarginSetLeverage n (LeverageHandle x)) s.
Definition UnsetLeverage (v : t) (s : S) : S := update (ref v) OrderMarginUnsetLeverage s.
End View.
Arguments t : clear implicits.
End OrderMarginView.

(** ** The order *)

Record OrderValues := mkOrderValues {
  ov_Operation : option OrderOperation.t;
  ov_Position : option OrderPosition.t;
  ov_Margin : option OrderMargin.t;
}.

Module Order.
Record orderFieldsRetain := mkRetain {
  OperationInstrument : Instrument;
  MarginCollateralAsset : Asset;
}.
Definition zeroRetain : orderFieldsRetain := mkRetain zeroInstrument None.
Record t := mk { value : OpenPitOrder; retain : orderFieldsRetain }.

(** Pointers to the fields of an order. *)
Definition valuePtr : Ptr t OpenPitOrder := mkPtr value (fun v o => mk v (retain o)).
Definition OperationInstrumentPtr : Ptr t Instrument :=
  mkPtr (fun o => OperationInstrument (retain o))
    (fun i o => mk (value o) (mkRetain i (MarginCollateralAsset (retain o)))).
Definition MarginCollateralAssetPtr : Ptr t Asset :=
  mkPtr (fun o => MarginCollateralAsset (retain o))
    (fun a o => mk (value o) (mkRetain (OperationInstrument (retain o)) a)).

Definition NewOrderFromHandle (v : OpenPitOrder) : t := mk v zeroRetain.
Definition NewOrder : t := NewOrderFromHandle NativeOrder.NewOrder.
Definition Reset (o : t) : t := mk (OrderReset (value o)) zeroRetain.

Definition Operation (o : t) : option OrderOperation.t :=
  let operation := OrderGetOrderOperation (value o) in
  if negb (OrderOperationOptionalIsSet operation) then None
  else
    let child := OrderOperation.newOrderOperation (OrderOperationOptionalGet operation) in
    Some (OrderOperation.mk (OrderOperation.value child) (OperationInstrument (retain o))).
Definition EnsureOperationView (o : t) : t * OrderOperationView.t t :=
  let operation := OrderGetOrderOperationView valuePtr in
  let o :=
    if negb (OrderOperationOptionalIsSet (deref operation o))
    then update operation (fun x => OrderOperationOptionalSet x NewOrderOperation) o else o in
  (o, OrderOperationView.newOrderOperationView (OrderOperationOptionalGetView operation)
        OperationInstrumentPtr).
Definition SetOperation (o : t) (operation : OrderOperation.t) : t :=
  mk (OrderSetOrderOperation (value o) (OrderOperation.value operation))
    (mkRetain (OrderOperation.retainInstrument operation) (MarginCollateralAsset (retain o))).
Definition UnsetOperation (o : t) : t :=
  mk (OrderUnsetOrderOperation (value o))
    (mkRetain zeroInstrument (MarginCollateralAsset (retain o))).

Definition Position (o : t) : option OrderPosition.t :=
  let position := OrderGetOrderPosition (value o) in
  if negb (OrderPositionOptionalIsSet position) then None
  else Some (OrderPosition.newOrderPosition (OrderPositionOptionalGet position)).
Definition EnsurePositionView (o : t) : t * OrderPositionView.t t :=
  let position := OrderGetOrderPositionView valuePtr in
  let o :=
    if negb (OrderPositionOptionalIsSet (deref position o))
    then update position (fun x => OrderPositionOptionalSet x NewOrderPosition) o else o in
  (o, OrderPositionView.newPositionView (OrderPositionOptionalGetView position)).
Definition SetPosition (o : t) (position : OrderPosition.t) : t :=
  mk (OrderSetOrderPosition (value o) (OrderPosition.value position)) (retain o).
Definition UnsetPosition (o : t) : t := mk (OrderUnsetOrderPosition (value o)) (retain o).

Definition Margin (o : t) : option OrderMargin.t :=
  let margin := OrderGetOrderMargin (value o) in
  if negb (OrderMarginOptionalIsSet margin) then None
  else
    let child := OrderMargin.newOrderMargin (OrderMarginOptionalGet margin) in
    Some (OrderMargin.mk (OrderMargin.value child) (MarginCollateralAsset (retain o))).
Definition EnsureMarginView (o : t) : t * OrderMarginView.t t :=
  let margin := OrderGetOrderMarginView valuePtr in
  let o :=
    if negb (OrderMarginOptionalIsSet (deref margin o))
    then update margin (fun x => OrderMarginOptionalSet x NewOrderMargin) o else o in
  (o, OrderMarginView.newMarginView (OrderMarginOptionalGetView margin) MarginCollateralAssetPtr).
Definition SetMargin (o : t) (margin : OrderMargin.t) : t :=
  mk (OrderSetOrderMargin (value o) (OrderMargin.value margin))
    (mkRetain (OperationInstrument (retain o)) (OrderMargin.retainCollateralAsset margin)).
Definition UnsetMargin (o : t) : t :=
  mk (OrderUnsetOrderMargin (value o)) (mkRetain (OperationInstrument (retain o)) None).

Definition Values (o : t) : OrderValues := mkOrderValues (Operation o) (Position o) (Margin o).
Definition setValues (o : t) (values : OrderValues) : t :=
  let o := whenSome (ov_Operation values) SetOperation o in
  let o := whenSome (ov_Position values) SetPosition o in
  whenSome (ov_Margin values) SetMargin o.
Definition SetValues (o : t) (values : OrderValues) : t := setValues (Reset o) values.
Definition NewOrderFromValues (values : OrderValues) : t := setValues NewOrder values.
Definition EngineOrder (o : t) : t := o.
Definition Handle (o : t) : OpenPitOrder := value o.
End Order.

(** ** Mutations as data *)

(** One mutation of [OrderOperation], through the owner or through a view. *)
Inductive OrderOperationAct :=
| op_SetTradeAmount (x : TradeAmount)
| op_UnsetTradeAmount
| op_SetInstrument (x : Instrument)
| op_UnsetInstrument
| op_SetPrice (x : Price)
| op_UnsetPrice
| op_SetAccountID (x : AccountID)
| op_UnsetAccountID
| op_SetSide (x : Side)
| op_UnsetSide
| op_Reset.
Definition orderOperationAct (a : OrderOperationAct) (o : OrderOperation.t) : OrderOperation.t :=
  match a with
  | op_SetTradeAmount x => OrderOperation.SetTradeAmount o x
  | op_UnsetTradeAmount => OrderOperation.UnsetTradeAmount o
  | op_SetInstrument x => OrderOperation.SetInstrument o x
  | op_UnsetInstrument => OrderOperation.UnsetInstrument o
  | op_SetPrice x => OrderOperation.SetPrice o x
  | op_UnsetPrice => OrderOperation.UnsetPrice o
  | op_SetAccountID x => OrderOperation.SetAccountID o x
  | op_UnsetAccountID => OrderOperation.UnsetAccountID o
  | op_SetSide x => OrderOperation.SetSide o x
  | op_UnsetSide => OrderOperation.UnsetSide o
  | op_Reset => OrderOperation.Reset o
  end.
Definition orderOperationViewAct {S} (a : OrderOperationAct) (v : OrderOperationView.t S) : S -> S :=
  match a with
  | op_SetTradeAmount x => OrderOperationView.SetTradeAmount v x
  | op_UnsetTradeAmount => OrderOperationView.UnsetTradeAmount v
  | op_SetInstrument x => OrderOperationView.SetInstrument v x
  | op_UnsetInstrument => OrderOperationView.UnsetInstrument v
  | op_SetPrice x => OrderOperationView.SetPrice v x
  | op_UnsetPrice => OrderOperationView.UnsetPrice v
  | op_SetAccountID x => OrderOperationView.SetAccountID v x
  | op_UnsetAccountID => OrderOperationView.UnsetAccountID v
  | op_SetSide x => OrderOperationView.SetSide v x
  | op_UnsetSide => OrderOperationView.UnsetSide v
  | op_Reset => OrderOperationView.Reset v
  end.

(** One mutation of [OrderPosition], through the owner or through a view. *)
Inductive OrderPositionAct :=
| pos_SetSide (x : PositionSide)
| pos_UnsetSide
| pos_SetReduceOnly (x : bool)
| pos_UnsetReduceOnly
| pos_SetClosePosition (x : bool)
| pos_UnsetClosePosition
| pos_Reset.
Definition orderPositionAct (a : OrderPositionAct) (o : OrderPosition.t) : OrderPosition.t :=
  match a with
  | pos_SetSide x => OrderPosition.SetSide o x
  | pos_UnsetSide => OrderPosition.UnsetSide o
  | pos_SetReduceOnly x => OrderPosition.SetReduceOnly o x
  | pos_UnsetReduceOnly => OrderPosition.UnsetReduceOnly o
  | pos_SetClosePosition x => OrderPosition.SetClosePosition o x
  | pos_UnsetClosePosition => OrderPosition.UnsetClosePosition o
  | pos_Reset => OrderPosition.Reset o
  end.
Definition orderPositionViewAct {S} (a : OrderPositionAct) (v : OrderPositionView.t S) : S -> S :=
  match a with
  | pos_SetSide x => OrderPositionView.SetSide v x
  | pos_UnsetSide => OrderPositionView.UnsetSide v
  | pos_SetReduceOnly x => OrderPositionView.SetReduceOnly v x
  | pos_UnsetReduceOnly => OrderPositionView.UnsetReduceOnly v
  | pos_SetClosePosition x => OrderPositionView.SetClosePosition v x
  | pos_UnsetClosePosition => OrderPositionView.UnsetClosePosition v
  | pos_Reset => OrderPositionView.Reset v
  end.

(** One mutation of [OrderMargin], through the owner or through a view. *)
Inductive OrderMarginAct :=
| mg_SetCollateralAsset (x : Asset)
| mg_UnsetCollateralAsset
| mg_SetAutoBorrow (x : bool)
| mg_UnsetAutoBorrow
| mg_SetLeverage (x : Leverage)
| mg_UnsetLeverage
| mg_Reset.
Definition orderMarginAct (a : OrderMarginAct) (o : OrderMargin.t) : OrderMargin.t :=
  match a with
  | mg_SetCollateralAsset x => OrderMargin.SetCollateralAsset o x
  | mg_UnsetCollateralAsset => OrderMargin.UnsetCollateralAsset o
  | mg_SetAutoBorrow x => OrderMargin.SetAutoBorrow o x
  | mg_UnsetAutoBorrow => OrderMargin.UnsetAutoBorrow o
  | mg_SetLeverage x => OrderMargin.SetLeverage o x
  | mg_UnsetLeverage => OrderMargin.UnsetLeverage o
  | mg_Reset => OrderMargin.Reset o
  end.
Definition orderMarginViewAct {S} (a : OrderMarginAct) (v : OrderMarginView.t S) : S -> S :=
  match a with
  | mg_SetCollateralAsset x => OrderMarginView.SetCollateralAsset v x
  | mg_UnsetCollateralAsset => OrderMarginView.UnsetCollateralAsset v
  | mg_SetAutoBorrow x => OrderMarginView.SetAutoBorrow v x
  | mg_UnsetAutoBorrow => OrderMarginView.UnsetAutoBorrow v
  | mg_SetLeverage x => OrderMarginView.SetLeverage v x
  | mg_UnsetLeverage => OrderMarginView.UnsetLeverage v
  | mg_Reset => OrderMarginView.Reset v
  end.

