(* ===== verification/OrderFacts.v ===== *)
(** * What orders keep

    For the model of ModelOrder.v: a view writes the order it came from as the same
    call writes a detached group; what a group is given is what it returns; and the C
    buffers an order's record points into are alive as long as the order is, whatever
    was called on it, on its groups and on its views, old views included. *)
From Stdlib Require Import ZArith Lia.
From stdpp Require Import base list gmap strings.
From S2P Require Import Prelude GoPtr NativeMem ParamValues Retention NativeOrder ModelOrder.

(** ** Views write through *)

(** ** Views write through *)

(** A view returned by [EnsureOperationView], [EnsurePositionView] or
    [EnsureMarginView] is the group itself: it starts as the group the order had, or
    as the zero record; any calls through it change that group as the same calls change
    a detached one, and change no other group. *)
Theorem order_views_write_through :
  (writesThrough Order.Operation Order.EnsureOperationView
     (fun c => OrderOperation.value c = NewOrderOperation) orderOperationAct orderOperationViewAct /\
   leavesAlone Order.Position Order.EnsureOperationView orderOperationViewAct /\
   leavesAlone Order.Margin Order.EnsureOperationView orderOperationViewAct) /\
  (writesThrough Order.Position Order.EnsurePositionView
     (fun c => OrderPosition.value c = NewOrderPosition) orderPositionAct orderPositionViewAct /\
   leavesAlone Order.Operation Order.EnsurePositionView orderPositionViewAct /\
   leavesAlone Order.Margin Order.EnsurePositionView orderPositionViewAct) /\
  (writesThrough Order.Margin Order.EnsureMarginView
     (fun c => OrderMargin.value c = NewOrderMargin) orderMarginAct orderMarginViewAct /\
   leavesAlone Order.Operation Order.EnsureMarginView orderMarginViewAct /\
   leavesAlone Order.Position Order.EnsureMarginView orderMarginViewAct).
Proof.
  repeat match goal with |- _ /\ _ => split end;
    first [solve [solve_writes_through]|solve_leaves_alone].
Qed.

(** ** Retention *)

(** The record's views are null or point into the retained owners, whether the group
    is marked set or not. *)
Definition operationOk (c : OrderOperation.t) : Prop :=
  instrumentViewOf (op_instrument (OrderOperation.value c)) (OrderOperation.retainInstrument c).
Definition marginOk (c : OrderMargin.t) : Prop :=
  viewOf (mg_collateral_asset (OrderMargin.value c)) (OrderMargin.retainCollateralAsset c).
Definition orderOk (o : Order.t) : Prop :=
  instrumentViewOf (op_instrument (c_value (o_operation (Order.value o))))
    (Order.OperationInstrument (Order.retain o)) /\
  viewOf (mg_collateral_asset (c_value (o_margin (Order.value o))))
    (Order.MarginCollateralAsset (Order.retain o)).

(** What a call on an order may do, besides the calls on groups. *)
Inductive OrderAct :=
| o_Reset
| o_SetOperation (c : OrderOperation.t)
| o_UnsetOperation
| o_SetPosition (c : OrderPosition.t)
| o_UnsetPosition
| o_SetMargin (c : OrderMargin.t)
| o_UnsetMargin
| o_SetValues (vs : OrderValues)
| o_EnsureOperationView
| o_EnsurePositionView
| o_EnsureMarginView
| o_OperationView (a : OrderOperationAct)
| o_PositionView (a : OrderPositionAct)
| o_MarginView (a : OrderMarginAct).

(** A view keeps pointing into its order: [o] is the order as it is now, [o0] as it
    was when the view was made. *)
Definition orderAct (o0 : Order.t) (a : OrderAct) (o : Order.t) : Order.t :=
  match a with
  | o_Reset => Order.Reset o
  | o_SetOperation c => Order.SetOperation o c
  | o_UnsetOperation => Order.UnsetOperation o
  | o_SetPosition c => Order.SetPosition o c
  | o_UnsetPosition => Order.UnsetPosition o
  | o_SetMargin c => Order.SetMargin o c
  | o_UnsetMargin => Order.UnsetMargin o
  | o_SetValues vs => Order.SetValues o vs
  | o_EnsureOperationView => fst (Order.EnsureOperationView o)
  | o_EnsurePositionView => fst (Order.EnsurePositionView o)
  | o_EnsureMarginView => fst (Order.EnsureMarginView o)
  | o_OperationView a => orderOperationViewAct a (snd (Order.EnsureOperationView o0)) o
  | o_PositionView a => orderPositionViewAct a (snd (Order.EnsurePositionView o0)) o
  | o_MarginView a => orderMarginViewAct a (snd (Order.EnsureMarginView o0)) o
  end.

(** The Go values of the family. *)
Inductive OrderValue :=
| GAsset (a : Asset)
| GInstrument (i : Instrument)
| GOperation (c : OrderOperation.t)
| GMargin (c : OrderMargin.t)
| GOrder (o : Order.t).

Definition orderValueRoots (v : OrderValue) : list nat :=
  match v with
  | GAsset a => assetRoots a
  | GInstrument i => instrumentRoots i
  | GOperation c => instrumentRoots (OrderOperation.retainInstrument c)
  | GMargin c => assetRoots (OrderMargin.retainCollateralAsset c)
  | GOrder o => instrumentRoots (Order.OperationInstrument (Order.retain o)) ++
                assetRoots (Order.MarginCollateralAsset (Order.retain o))
  end.
Definition orderValueSound {L} (m : Mem L) (v : OrderValue) : Prop :=
  match v with
  | GAsset a => assetLive m a
  | GInstrument i => instrumentLive m i
  | GOperation c => operationOk c /\ instrumentLive m (OrderOperation.retainInstrument c)
  | GMargin c => marginOk c /\ assetLive m (OrderMargin.retainCollateralAsset c)
  | GOrder o => orderOk o /\ instrumentLive m (Order.OperationInstrument (Order.retain o)) /\
                assetLive m (Order.MarginCollateralAsset (Order.retain o))
  end.
#[export] Instance OrderValue_retaining L : Retaining L OrderValue := {|
  roots := orderValueRoots; lockRoots := fun _ => []; sound := orderValueSound |}.
#[export] Instance OrderValue_laws L : RetainingLaws L OrderValue.
Proof.
  split.
  - intros m m' [] Hx; cbn; intuition eauto using extends_assetLive, extends_instrumentLive.
  - intros m m' v r lr Hc Hr _. cbn in Hr. destruct v; cbn in *;
      intuition eauto using collected_assetLive, collected_instrumentLive.
    + eapply collected_instrumentLive; [done| |done]. set_solver.
    + eapply collected_assetLive; [done| |done]. set_solver.
Qed.

(** The values a call takes. *)
Definition operationArgs (vs : list OrderValue) (a : OrderOperationAct) : Prop :=
  match a with op_SetInstrument i => GInstrument i ∈ vs | _ => True end.
Definition marginArgs (vs : list OrderValue) (a : OrderMarginAct) : Prop :=
  match a with mg_SetCollateralAsset x => GAsset x ∈ vs | _ => True end.
Definition orderArgs (vs : list OrderValue) (a : OrderAct) : Prop :=
  match a with
  | o_SetOperation c => GOperation c ∈ vs
  | o_SetMargin c => GMargin c ∈ vs
  | o_SetValues x => (forall c, ov_Operation x = Some c -> GOperation c ∈ vs) /\
                     (forall c, ov_Margin x = Some c -> GMargin c ∈ vs)
  | o_OperationView a => operationArgs vs a
  | o_MarginView a => marginArgs vs a
  | _ => True
  end.

(** Every way the package makes a value of the family. *)
Inductive orderMakes {L} (validate : string -> option string)
    (m : Mem L) (vs : list OrderValue) : Mem L -> OrderValue -> Prop :=
| make_asset m' a : makesAsset validate m (fun a => GAsset a ∈ vs) (fun i => GInstrument i ∈ vs) m' a ->
    orderMakes validate m vs m' (GAsset a)
| make_instrument i : makesInstrument (fun a => GAsset a ∈ vs) i ->
    orderMakes validate m vs m (GInstrument i)
| make_operation : orderMakes validate m vs m (GOperation OrderOperation.NewOrderOperation)
| make_operationAct a c : GOperation c ∈ vs -> operationArgs vs a ->
    orderMakes validate m vs m (GOperation (orderOperationAct a c))
| make_margin : orderMakes validate m vs m (GMargin OrderMargin.NewOrderMargin)
| make_marginAct a c : GMargin c ∈ vs -> marginArgs vs a ->
    orderMakes validate m vs m (GMargin (orderMarginAct a c))
| make_order : orderMakes validate m vs m (GOrder Order.NewOrder)
| make_orderAct o0 a o : GOrder o0 ∈ vs -> GOrder o ∈ vs -> orderArgs vs a ->
    orderMakes validate m vs m (GOrder (orderAct o0 a o))
| make_getOperation o c : GOrder o ∈ vs -> Order.Operation o = Some c ->
    orderMakes validate m vs m (GOperation c)
| make_getMargin o c : GOrder o ∈ vs -> Order.Margin o = Some c ->
    orderMakes validate m vs m (GMargin c)
| make_getInstrument c i m' : GOperation c ∈ vs ->
    OrderOperation.Instrument c m = inr (Some i, m') -> orderMakes validate m vs m' (GInstrument i)
| make_getCollateral c a m' : GMargin c ∈ vs ->
    OrderMargin.CollateralAsset c m = inr (Some a, m') -> orderMakes validate m vs m' (GAsset a)
| make_viewInstrument o0 o i m' : GOrder o0 ∈ vs -> GOrder o ∈ vs ->
    OrderOperationView.Instrument (snd (Order.EnsureOperationView o0)) o m = inr (Some i, m') ->
    orderMakes validate m vs m' (GInstrument i)
| make_viewCollateral o0 o a m' : GOrder o0 ∈ vs -> GOrder o ∈ vs ->
    OrderMarginView.CollateralAsset (snd (Order.EnsureMarginView o0)) o m = inr (Some a, m') ->
    orderMakes validate m vs m' (GAsset a).

Lemma operationAct_sound {L} (m : Mem L) vs a c :
  Forall (orderValueSound m) vs -> operationArgs vs a ->
  orderValueSound m (GOperation c) -> orderValueSound m (GOperation (orderOperationAct a c)).
Proof.
  intros Hvs Ha [H1 H2]. destruct a; cbn in *; try done; try (split; [|done]; auto with pit; fail).
  - rewrite Forall_forall in Hvs. split; [apply instrumentViewOf_handle|exact (Hvs _ Ha)].
  - by repeat split; left.
  - by repeat split; left.
Qed.
Lemma marginAct_sound {L} (m : Mem L) vs a c :
  Forall (orderValueSound m) vs -> marginArgs vs a ->
  orderValueSound m (GMargin c) -> orderValueSound m (GMargin (orderMarginAct a c)).
Proof.
  intros Hvs Ha [H1 H2]. destruct a; cbn in *; try done; try (split; [|done]; auto with pit; fail).
  - rewrite Forall_forall in Hvs. split; [apply viewOf_handle|exact (Hvs _ Ha)].
  - split; [by left|done].
  - split; [by left|done].
Qed.

(** The groups of a sound order, as detached values. *)
Definition orderOperation (o : Order.t) : OrderOperation.t :=
  OrderOperation.mk (c_value (o_operation (Order.value o))) (Order.OperationInstrument (Order.retain o)).
Definition orderMargin (o : Order.t) : OrderMargin.t :=
  OrderMargin.mk (c_value (o_margin (Order.value o))) (Order.MarginCollateralAsset (Order.retain o)).
Lemma order_sound_groups {L} (m : Mem L) o :
  orderValueSound m (GOrder o) <->
  orderValueSound m (GOperation (orderOperation o)) /\ orderValueSound m (GMargin (orderMargin o)).
Proof. cbn. unfold orderOk, operationOk, marginOk. cbn. tauto. Qed.

Lemma operationView_groups o0 a o :
  let o' := orderOperationViewAct a (snd (Order.EnsureOperationView o0)) o in
  orderOperation o' = orderOperationAct a (orderOperation o) /\ orderMargin o' = orderMargin o.
Proof. by destruct a, o as [[]]. Qed.
Lemma marginView_groups o0 a o :
  let o' := orderMarginViewAct a (snd (Order.EnsureMarginView o0)) o in
  orderOperation o' = orderOperation o /\ orderMargin o' = orderMarginAct a (orderMargin o).
Proof. by destruct a, o as [[]]. Qed.
Lemma positionView_groups o0 a o :
  let o' := orderPositionViewAct a (snd (Order.EnsurePositionView o0)) o in
  orderOperation o' = orderOperation o /\ orderMargin o' = orderMargin o.
Proof. by destruct a, o as [[]]. Qed.

Lemma newOperation_sound {L} (m : Mem L) : orderValueSound m (GOperation OrderOperation.NewOrderOperation).
Proof. by repeat split; left. Qed.
Lemma newMargin_sound {L} (m : Mem L) : orderValueSound m (GMargin OrderMargin.NewOrderMargin).
Proof. by repeat split; left. Qed.

Lemma setValues_sound {L} (m : Mem L) vs x o :
  Forall (orderValueSound m) vs -> orderArgs vs (o_SetValues x) ->
  orderValueSound m (GOrder (Order.SetValues o x)).
Proof.
  rewrite Forall_forall. intros Hvs [H1 H2]. destruct x as [[c|] [?|] [d|]]; apply order_sound_groups;
    (split; [first [exact (Hvs _ (H1 _ eq_refl))|apply newOperation_sound]
                      |first [exact (Hvs _ (H2 _ eq_refl))|apply newMargin_sound]]).
Qed.

Lemma orderAct_sound {L} (m : Mem L) vs o0 a o :
  Forall (orderValueSound m) vs -> orderArgs vs a ->
  orderValueSound m (GOrder o) -> orderValueSound m (GOrder (orderAct o0 a o)).
Proof.
  intros Hvs Ha Ho. destruct a; try (by apply (setValues_sound m vs)); apply order_sound_groups in Ho as [H1 H2];
    apply order_sound_groups; cbn [orderAct orderArgs] in *.
  all: try (rewrite Forall_forall in Hvs).
  - split; [apply newOperation_sound|apply newMargin_sound].
  - split; [exact (Hvs _ Ha)|exact H2].
  - split; [apply newOperation_sound|exact H2].
  - split; [exact H1|exact H2].
  - split; [exact H1|exact H2].
  - split; [exact H1|exact (Hvs _ Ha)].
  - split; [exact H1|apply newMargin_sound].
  - split; [|by destruct o as [[[? []]]]]. destruct o as [[[? []]]]; [exact H1|].
    split; [by split; left|]. apply H1.
  - by destruct o as [[? ? [? []]]].
  - split; [by destruct o as [[? [? []]]]|]. destruct o as [[? [? []]]]; [exact H2|].
    split; [by left|]. apply H2.
  - destruct (operationView_groups o0 a o) as [-> ->]. split; [|exact H2].
    apply (operationAct_sound m vs); [by rewrite Forall_forall|done..].
  - destruct (positionView_groups o0 a o) as [-> ->]. by split.
  - destruct (marginView_groups o0 a o) as [-> ->]. split; [exact H1|].
    apply (marginAct_sound m vs); [by rewrite Forall_forall|done..].
Qed.

Lemma orderMakes_sound {L} validate : makesSound (L := L) (orderMakes validate).
Proof.
  intros m vs m' v Hm Hvs Hv.
  assert (forall x, x ∈ vs -> orderValueSound m x) as Hin by (by rewrite <- Forall_forall).
  destruct Hv as
    [m' a H1|i H1| |a c H1 Ha| |a c H1 Ha| |o0 a o H0 H1 Ha
    |o c H1 E|o c H1 E|c i m' H1 E|c a m' H1 E|o0 o i m' H0 H1 E|o0 o a m' H0 H1 E];
    try (split_and!; [done|done|]); try (apply Hin in H1).
  - eapply makesAsset_sound; [done| | |exact H1]; intros x Hx; exact (Hin _ Hx).
  - eapply makesInstrument_sound; [|exact H1]. intros x Hx. exact (Hin _ Hx).
  - apply newOperation_sound.
  - by apply (operationAct_sound m vs).
  - apply newMargin_sound.
  - by apply (marginAct_sound m vs).
  - apply order_sound_groups. split; [apply newOperation_sound|apply newMargin_sound].
  - by apply (orderAct_sound m vs).
  - apply order_sound_groups in H1 as [H1 _]. unfold Order.Operation in E.
    destruct (negb _); simplify_eq. exact H1.
  - apply order_sound_groups in H1 as [_ H1]. unfold Order.Margin in E.
    destruct (negb _); simplify_eq. exact H1.
  - destruct H1. by eapply read_instrument_makes.
  - destruct H1. by eapply read_asset_makes.
  - apply order_sound_groups in H1 as [[] _]. by eapply read_instrument_makes.
  - apply order_sound_groups in H1 as [_ []]. by eapply read_asset_makes.
Qed.

(** Whatever a program does with assets, instruments, orders, their groups and
    their views, old views included, and whatever the collector frees in between, a
    value it still holds can be read: no read through an order, a group or a view
    touches a freed buffer, and it returns the text its record shows. *)
Theorem order_reads_are_safe {L} (validate : string -> option string) (m : Mem L) vs :
  poolReach (orderMakes validate) (m, vs) ->
  forall v, v ∈ vs -> match v with
  | GAsset a => exists s, AssetSafe a m = inr (s, m)
  | GInstrument i => exists s t,
      AssetSafe (UnderlyingAsset i) m = inr (s, m) /\ AssetSafe (SettlementAsset i) m = inr (t, m)
  | GOperation c => readsInstrument m (OrderOperation.Instrument c) (op_instrument (OrderOperation.value c))
  | GMargin c => readsAsset m (OrderMargin.CollateralAsset c) (mg_collateral_asset (OrderMargin.value c))
  | GOrder o => forall o0,
      readsInstrument m (OrderOperationView.Instrument (snd (Order.EnsureOperationView o0)) o)
        (op_instrument (c_value (o_operation (Order.value o)))) /\
      readsAsset m (OrderMarginView.CollateralAsset (snd (Order.EnsureMarginView o0)) o)
        (mg_collateral_asset (c_value (o_margin (Order.value o))))
  end.
Proof.
  intros Hw v Hv. destruct (pool_sound _ _ (orderMakes_sound validate) Hw) as [Hm Hs]. cbn in Hm, Hs.
  rewrite Forall_forall in Hs. specialize (Hs v Hv). destruct v as [a|i|c|c|o].
  - by apply AssetSafe_live.
  - destruct Hs as [[s H1]%AssetSafe_live [t H2]%AssetSafe_live]. by exists s, t.
  - destruct Hs. by eapply reads_instrument.
  - destruct Hs. by eapply reads_asset.
  - intros o0. apply order_sound_groups in Hs as [[] []].
    split; [by eapply reads_instrument|by eapply reads_asset].
Qed.

(** A pool that holds one order: its instrument was set through a view, and every other
    value, with the buffer of an unused asset, is gone. *)
Definition demoMem0 : Mem unit := mkMem ∅ ∅ 0.
Definition demoMem : Mem unit :=
  mkMem (<[2 := "USD"%string]> (<[1 := "AAPL"%string]> ∅)) ∅ 3.
Definition demoInstrument : Instrument := mkInstrument (Some (mkBuf 1 4)) (Some (mkBuf 2 3)).
Definition demoOrder : Order.t :=
  orderAct Order.NewOrder (o_OperationView (op_SetInstrument demoInstrument))
    (orderAct Order.NewOrder o_EnsureOperationView Order.NewOrder).

Lemma demoOrder_reach : poolReach (orderMakes Some) (demoMem, [GOrder demoOrder]).
Proof.
  set (m1 := mkMem (<[0 := "EUR"%string]> ∅) ∅ 1 : Mem unit).
  set (m2 := mkMem (<[1 := "AAPL"%string]> (bufs m1)) ∅ 2 : Mem unit).
  set (m3 := mkMem (<[2 := "USD"%string]> (bufs m2)) ∅ 3 : Mem unit).
  eapply pool_next; [|apply (pool_collect _ m3)].
  - eapply pool_next; [|apply pool_drop].
    + eapply pool_next; [|eapply pool_make, (make_orderAct _ _ _ Order.NewOrder (o_OperationView (op_SetInstrument demoInstrument)))].
      * eapply pool_next; [|eapply pool_make, (make_orderAct _ _ _ Order.NewOrder o_EnsureOperationView)].
        -- eapply pool_next; [|eapply pool_make, make_order].
           eapply pool_next; [|eapply pool_make, make_instrument, (makes_instrument _ (Some (mkBuf 1 4)) (Some (mkBuf 2 3)))].
           ++ eapply pool_next; [|eapply pool_make, make_asset, (makes_new _ _ _ _ "USD"%string)].
              ** eapply pool_next; [|eapply pool_make, make_asset, (makes_new _ _ _ _ "AAPL"%string)].
                 --- eapply pool_next; [|eapply pool_make, make_asset, (makes_new _ _ _ _ "EUR"%string)].
                     +++ apply (pool_start _ demoMem0). split; intros p [? Hp]; done.
                     +++ reflexivity.
                 --- reflexivity.
              ** reflexivity.
           ++ by repeat constructor.
           ++ by repeat constructor.
        -- by repeat constructor.
        -- by repeat constructor.
        -- done.
      * by repeat constructor.
      * by do 2 constructor.
      * by repeat constructor.
    + intros ? ->%list_elem_of_singleton. by constructor.
  - split_and!; [|done|done| |intros p Hp; by apply elem_of_nil in Hp].
    + apply insert_mono, insert_mono, map_empty_subseteq.
    + intros p Hp. assert (p = 1 \/ p = 2) as [-> | ->] by (cbn in Hp; set_solver); done.
Qed.

Lemma order_reads_are_safe_witness :
  readsInstrument demoMem
    (OrderOperationView.Instrument (snd (Order.EnsureOperationView demoOrder)) demoOrder)
    (op_instrument (c_value (o_operation (Order.value demoOrder)))) /\
  instrumentViewText demoMem (op_instrument (c_value (o_operation (Order.value demoOrder)))) =
    Some ("AAPL", "USD")%string.
Proof.
  split; [|reflexivity].
  exact (proj1 (order_reads_are_safe Some demoMem _ demoOrder_reach (GOrder demoOrder)
    (proj2 (list_elem_of_singleton _ _) eq_refl) demoOrder)).
Defined.

(** ** What is set is read *)

(** What a group returns for the values it was given: a trade amount with no kind, a
    zero leverage and an empty asset read as unset. *)
Definition sameOperationValues {L} (m m' : Mem L) (vs vs' : OrderOperationValues) : Prop :=
  vop_TradeAmount vs' = vop_TradeAmount vs ≫= NewTradeAmountFromHandle /\
  vop_Instrument vs' ≫= instrumentText m' = vop_Instrument vs ≫= instrumentText m /\
  vop_Price vs' = vop_Price vs /\ vop_AccountID vs' = vop_AccountID vs /\ vop_Side vs' = vop_Side vs.
Definition sameMarginValues {L} (m m' : Mem L) (vs vs' : OrderMarginValues) : Prop :=
  vmg_CollateralAsset vs' ≫= assetText m' = vmg_CollateralAsset vs ≫= assetText m /\
  vmg_AutoBorrow vs' = vmg_AutoBorrow vs /\
  vmg_Leverage vs' = vmg_Leverage vs ≫= NewLeverageOptionFromHandle.

(** The record that [setValues] leaves, field by field. *)
Lemma operation_fields vs :
  let n := OrderOperation.value (OrderOperation.NewOrderOperationFromValues vs) in
  op_trade_amount n = default zeroTradeAmount (vop_TradeAmount vs) /\
  op_instrument n = default zeroOpenPitInstrument (InstrumentHandle <$> vop_Instrument vs) /\
  NewPriceOptionFromHandle (op_price n) = vop_Price vs /\
  NewAccountIDOptionFromHandle (op_account_id n) = vop_AccountID vs /\
  op_side n = default ParamSideNotSet (vop_Side vs).
Proof. by destruct vs as [[?|] [?|] [?|] [?|] [?|]]. Qed.
Lemma margin_fields vs :
  let n := OrderMargin.value (OrderMargin.NewOrderMarginFromValues vs) in
  mg_collateral_asset n = default stringViewNone ((fun a => importString (AssetHandle a)) <$> vmg_CollateralAsset vs) /\
  NewBoolOptionFromNative (mg_auto_borrow n) = vmg_AutoBorrow vs /\
  mg_leverage n = default ParamLeverageNotSet (vmg_Leverage vs).
Proof. by destruct vs as [[?|] [[]|] [?|]]. Qed.

Lemma operation_roundtrip {L} (m : Mem L) vs :
  memOk m -> (forall i, vop_Instrument vs = Some i -> instrumentLive m i) ->
  (forall s, vop_Side vs = Some s -> validSide s = true) ->
  exists vs' m', OrderOperation.Values (OrderOperation.NewOrderOperationFromValues vs) m = inr (vs', m') /\
    extends m m' /\ sameOperationValues m m' vs vs'.
Proof.
  intros Hm Hi Hs. destruct (operation_fields vs) as (E1 & E2 & E3 & E4 & E5).
  unfold OrderOperation.Values, OrderOperation.Instrument, OrderOperation.Side, mbind', mret,
    OrderOperation.TradeAmount, OrderOperation.Price, OrderOperation.AccountID, OrderOperationGetInstrument,
    OrderOperationGetSide, OrderOperationGetTradeAmount, OrderOperationGetPrice, OrderOperationGetAccountID.
  rewrite E1, E2, E3, E4, E5.
  destruct (reads_instrument_option m (vop_Instrument vs) Hm Hi) as (o & m' & -> & _ & Hx & _ & Ho).
  assert (forall mm : Mem L, NewSideFromHandle (default ParamSideNotSet (vop_Side vs)) mm = inr (vop_Side vs, mm)) as ->.
  { intros mm. destruct (vop_Side vs) as [s|]; [|done]. by apply Side_roundtrip, Hs. }
  eexists _, m'. split_and!; [done|done|]. unfold sameOperationValues. cbn. split_and!; try done.
  by destruct (vop_TradeAmount vs).
Qed.

Lemma position_roundtrip {L} (m : Mem L) vs :
  (forall s, vpos_Side vs = Some s -> validPositionSide s = true) ->
  OrderPosition.Values (OrderPosition.NewOrderPositionFromValues vs) m = inr (vs, m).
Proof.
  intros Hs. destruct vs as [[s|] [[]|] [[]|]]; try done;
    unfold OrderPosition.Values, OrderPosition.Side, mbind'; cbn;
    (unfold OrderPositionGetSide; cbn; rewrite (PositionSide_roundtrip s m (Hs s eq_refl)); done).
Qed.

Lemma margin_roundtrip {L} (m : Mem L) vs :
  memOk m -> (forall a, vmg_CollateralAsset vs = Some a -> assetLive m a) ->
  exists vs' m', OrderMargin.Values (OrderMargin.NewOrderMarginFromValues vs) m = inr (vs', m') /\
    extends m m' /\ sameMarginValues m m' vs vs'.
Proof.
  intros Hm Ha. destruct (margin_fields vs) as (E1 & E2 & E3).
  unfold OrderMargin.Values, OrderMargin.CollateralAsset, mbind', mret, OrderMargin.AutoBorrow,
    OrderMargin.Leverage, OrderMarginGetCollateralAsset, OrderMarginGetAutoBorrow, OrderMarginGetLeverage.
  rewrite E1, E2, E3. destruct (reads_asset_option m (vmg_CollateralAsset vs) Hm Ha) as (o & m' & -> & _ & Hx & _ & Ho).
  eexists _, m'. split_and!; [done|done|]. unfold sameMarginValues. cbn. split_and!; try done.
  by destruct (vmg_Leverage vs).
Qed.

(** A group built from values returns those values: equal decimals, ids, flags and
    sides, an instrument or asset with the same text, and nothing where nothing was
    given; an order built from groups returns the same groups; and [SetValues] leaves
    nothing of what a value held before. *)
Theorem order_values_roundtrip {L} (m : Mem L) :
  memOk m ->
  (forall vs, (forall i, vop_Instrument vs = Some i -> instrumentLive m i) ->
     (forall s, vop_Side vs = Some s -> validSide s = true) ->
     exists vs' m', OrderOperation.Values (OrderOperation.NewOrderOperationFromValues vs) m = inr (vs', m') /\
       extends m m' /\ sameOperationValues m m' vs vs') /\
  (forall vs, (forall s, vpos_Side vs = Some s -> validPositionSide s = true) ->
     OrderPosition.Values (OrderPosition.NewOrderPositionFromValues vs) m = inr (vs, m)) /\
  (forall vs, (forall a, vmg_CollateralAsset vs = Some a -> assetLive m a) ->
     exists vs' m', OrderMargin.Values (OrderMargin.NewOrderMarginFromValues vs) m = inr (vs', m') /\
       extends m m' /\ sameMarginValues m m' vs vs') /\
  (forall vs, Order.Values (Order.NewOrderFromValues vs) = vs) /\
  (forall c vs, OrderOperation.SetValues c vs = OrderOperation.NewOrderOperationFromValues vs) /\
  (forall c vs, OrderPosition.SetValues c vs = OrderPosition.NewOrderPositionFromValues vs) /\
  (forall c vs, OrderMargin.SetValues c vs = OrderMargin.NewOrderMarginFromValues vs) /\
  (forall o vs, Order.SetValues o vs = Order.NewOrderFromValues vs).
Proof.
  intros Hm. split_and!; try done.
  - intros vs Hi Hs. by apply operation_roundtrip.
  - apply position_roundtrip.
  - intros vs Ha. by apply margin_roundtrip.
  - by intros [[[]|] [[]|] [[]|]].
Qed.

Lemma order_values_roundtrip_witness :
  memOk demoMem /\
  exists vs' m', OrderOperation.Values (OrderOperation.NewOrderOperationFromValues
      (mkOrderOperationValues None (Some demoInstrument) None (Some 7%Z) (Some SideBuy))) demoMem = inr (vs', m') /\
    vop_AccountID vs' = Some 7%Z /\ vop_Instrument vs' ≫= instrumentText m' = Some ("AAPL", "USD")%string.
Proof.
  assert (memOk demoMem) as Hm.
  { split; intros p [s Hp]; [|done]. unfold demoMem in *. cbn in *.
    rewrite !lookup_insert_Some in Hp. destruct Hp as [[<- _]|[_ [[<- _]|[_ Hp]]]]; [lia..|done]. }
  split; [exact Hm|].
  destruct (proj1 (order_values_roundtrip demoMem Hm)
    (mkOrderOperationValues None (Some demoInstrument) None (Some 7%Z) (Some SideBuy)))
    as (vs' & m' & E & _ & Hsame).
  - intros i [= <-]. split; by eexists.
  - by intros s [= <-].
  - exists vs', m'. destruct Hsame as (_ & Hi & _ & Ha & _). split; [exact E|]. split; [exact Ha|].
    rewrite Hi. reflexivity.
Defined.
