(* ===== verification/NativeReport.v ===== *)
(** * The native execution report record

    [OpenPitExecutionReport] of internal/native/openpit.h and the accessors of
    internal/native/execution_report.go, one definition per Go function; a lock is the
    identifier of a native object, or null. *)
From Stdlib Require Import ZArith.
From stdpp Require Import base tactics.
From S2P Require Import Prelude GoPtr NativeMem ParamValues.

(** ** Groups of fields *)

Record OpenPitExecutionReportOperation := mkExecutionReportOperation {
  rop_instrument : OpenPitInstrument;
  rop_account_id : ParamAccountIDOptional;
  rop_side : ParamSide;
}.
Definition NewExecutionReportOperation : OpenPitExecutionReportOperation :=
  mkExecutionReportOperation zeroOpenPitInstrument (zeroCOptional 0%Z) ParamSideNotSet.
Definition ExecutionReportOperationReset (o : OpenPitExecutionReportOperation)
    : OpenPitExecutionReportOperation :=
  NewExecutionReportOperation.
Definition ExecutionReportOperationGetInstrument (o : OpenPitExecutionReportOperation)
    : OpenPitInstrument :=
  rop_instrument o.
Definition ExecutionReportOperationSetInstrument (o : OpenPitExecutionReportOperation)
    (value : OpenPitInstrument) : OpenPitExecutionReportOperation :=
  mkExecutionReportOperation value (rop_account_id o) (rop_side o).
Definition ExecutionReportOperationUnsetInstrument (o : OpenPitExecutionReportOperation)
    : OpenPitExecutionReportOperation :=
  mkExecutionReportOperation zeroOpenPitInstrument (rop_account_id o) (rop_side o).
Definition ExecutionReportOperationGetAccountID (o : OpenPitExecutionReportOperation)
    : ParamAccountIDOptional :=
  rop_account_id o.
Definition ExecutionReportOperationSetAccountID (o : OpenPitExecutionReportOperation)
    (value : ParamAccountID) : OpenPitExecutionReportOperation :=
  mkExecutionReportOperation (rop_instrument o) (setCOptional value (rop_account_id o)) (rop_side o).
Definition ExecutionReportOperationUnsetAccountID (o : OpenPitExecutionReportOperation)
    : OpenPitExecutionReportOperation :=
  mkExecutionReportOperation (rop_instrument o) (zeroCOptional 0%Z) (rop_side o).
Definition ExecutionReportOperationGetSide (o : OpenPitExecutionReportOperation) : ParamSide :=
  rop_side o.
Definition ExecutionReportOperationSetSide (o : OpenPitExecutionReportOperation) (value : ParamSide)
    : OpenPitExecutionReportOperation :=
  mkExecutionReportOperation (rop_instrument o) (rop_account_id o) value.
Definition ExecutionReportOperationUnsetSide (o : OpenPitExecutionReportOperation)
    : OpenPitExecutionReportOperation :=
  mkExecutionReportOperation (rop_instrument o) (rop_account_id o) ParamSideNotSet.

Record OpenPitFinancialImpact := mkFinancialImpact {
  fi_pnl : ParamPnlOptional;
  fi_fee : ParamFeeOptional;
}.
Definition NewFinancialImpact : OpenPitFinancialImpact :=
  mkFinancialImpact (zeroCOptional zeroDecimal) (zeroCOptional zeroDecimal).
Definition FinancialImpactReset (i : OpenPitFinancialImpact) : OpenPitFinancialImpact :=
  NewFinancialImpact.
Definition FinancialImpactGetPnl (i : OpenPitFinancialImpact) : ParamPnlOptional := fi_pnl i.
Definition FinancialImpactSetPnl (i : OpenPitFinancialImpact) (value : ParamPnl)
    : OpenPitFinancialImpact :=
  mkFinancialImpact (setCOptional value (fi_pnl i)) (fi_fee i).
Definition FinancialImpactUnsetPnl (i : OpenPitFinancialImpact) : OpenPitFinancialImpact :=
  mkFinancialImpact (zeroCOptional zeroDecimal) (fi_fee i).
Definition FinancialImpactGetFee (i : OpenPitFinancialImpact) : ParamFeeOptional := fi_fee i.
Definition FinancialImpactSetFee (i : OpenPitFinancialImpact) (value : ParamFee)
    : OpenPitFinancialImpact :=
  mkFinancialImpact (fi_pnl i) (setCOptional value (fi_fee i)).
Definition FinancialImpactUnsetFee (i : OpenPitFinancialImpact) : OpenPitFinancialImpact :=
  mkFinancialImpact (fi_pnl i) (zeroCOptional zeroDecimal).

Record OpenPitExecutionReportTrade := mkExecutionReportTrade {
  tr_price : ParamPrice;
  tr_quantity : ParamQuantity;
}.
Definition NewExecutionReportTrade : OpenPitExecutionReportTrade :=
  mkExecutionReportTrade zeroDecimal zeroDecimal.
Definition ExecutionReportTradeReset (trade : OpenPitExecutionReportTrade)
    : OpenPitExecutionReportTrade :=
  NewExecutionReportTrade.
Definition ExecutionReportTradeGetPrice (trade : OpenPitExecutionReportTrade) : ParamPrice :=
  tr_price trade.
Definition ExecutionReportTradeSetPrice (trade : OpenPitExecutionReportTrade) (value : ParamPrice)
    : OpenPitExecutionReportTrade :=
  mkExecutionReportTrade value (tr_quantity trade).
Definition ExecutionReportTradeGetQuantity (trade : OpenPitExecutionReportTrade) : ParamQuantity :=
  tr_quantity trade.
Definition ExecutionReportTradeSetQuantity (trade : OpenPitExecutionReportTrade) (value : ParamQuantity)
    : OpenPitExecutionReportTrade :=
  mkExecutionReportTrade (tr_price trade) value.

Record OpenPitExecutionReportPositionImpact := mkExecutionReportPositionImpact {
  pi_position_effect : ParamPositionEffect;
  pi_position_side : ParamPositionSide;
}.
Definition NewExecutionReportPositionImpact : OpenPitExecutionReportPositionImpact :=
  mkExecutionReportPositionImpact ParamPositionEffectNotSet ParamPositionSideNotSet.
Definition ExecutionReportPositionImpactReset (p : OpenPitExecutionReportPositionImpact)
    : OpenPitExecutionReportPositionImpact :=
  NewExecutionReportPositionImpact.
Definition ExecutionReportPositionImpactGetPositionEffect (p : OpenPitExecutionReportPositionImpact)
    : ParamPositionEffect :=
  pi_position_effect p.
Definition ExecutionReportPositionImpactSetPositionEffect (p : OpenPitExecutionReportPositionImpact)
    (value : ParamPositionEffect) : OpenPitExecutionReportPositionImpact :=
  mkExecutionReportPositionImpact value (pi_position_side p).
Definition ExecutionReportPositionImpactUnsetPositionEffect (p : OpenPitExecutionReportPositionImpact)
    : OpenPitExecutionReportPositionImpact :=
  mkExecutionReportPositionImpact ParamPositionEffectNotSet (pi_position_side p).
Definition ExecutionReportPositionImpactGetPositionSide (p : OpenPitExecutionReportPositionImpact)
    : ParamPositionSide :=
  pi_position_side p.
Definition ExecutionReportPositionImpactSetPositionSide (p : OpenPitExecutionReportPositionImpact)
    (value : ParamPositionSide) : OpenPitExecutionReportPositionImpact :=
  mkExecutionReportPositionImpact (pi_position_effect p) value.
Definition ExecutionReportPositionImpactUnsetPositionSide (p : OpenPitExecutionReportPositionImpact)
    : OpenPitExecutionReportPositionImpact :=
  mkExecutionReportPositionImpact (pi_position_effect p) ParamPositionSideNotSet.

(** ** Optional groups *)

Definition OpenPitExecutionReportOperationOptional := COptional OpenPitExecutionReportOperation.
Definition NewExecutionReportOperationOptional : OpenPitExecutionReportOperationOptional :=
  zeroCOptional NewExecutionReportOperation.
Definition ExecutionReportOperationOptionalReset (value : OpenPitExecutionReportOperationOptional)
    : OpenPitExecutionReportOperationOptional :=
  mkCOptional (ExecutionReportOperationReset (c_value value)) false.
Definition ExecutionReportOperationOptionalIsSet (value : OpenPitExecutionReportOperationOptional)
    : bool :=
  c_is_set value.
Definition ExecutionReportOperationOptionalGet (value : OpenPitExecutionReportOperationOptional)
    : OpenPitExecutionReportOperation :=
  c_value value.
Definition ExecutionReportOperationOptionalGetView {S}
    (value : Ptr S OpenPitExecutionReportOperationOptional) : Ptr S OpenPitExecutionReportOperation :=
  fieldPtr value c_value (fun v o => mkCOptional v (c_is_set o)).
Definition ExecutionReportOperationOptionalSet (value : OpenPitExecutionReportOperationOptional)
    (x : OpenPitExecutionReportOperation) : OpenPitExecutionReportOperationOptional :=
  mkCOptional x true.

Definition OpenPitFinancialImpactOptional := COptional OpenPitFinancialImpact.
Definition NewFinancialImpactOptional : OpenPitFinancialImpactOptional :=
  zeroCOptional NewFinancialImpact.
Definition FinancialImpactOptionalReset (value : OpenPitFinancialImpactOptional)
    : OpenPitFinancialImpactOptional :=
  mkCOptional (FinancialImpactReset (c_value value)) false.
Definition FinancialImpactOptionalIsSet (value : OpenPitFinancialImpactOptional) : bool :=
  c_is_set value.
Definition FinancialImpactOptionalGet (value : OpenPitFinancialImpactOptional)
    : OpenPitFinancialImpact :=
  c_value value.
Definition FinancialImpactOptionalGetView {S} (value : Ptr S OpenPitFinancialImpactOptional)
    : Ptr S OpenPitFinancialImpact :=
  fieldPtr value c_value (fun v o => mkCOptional v (c_is_set o)).
Definition FinancialImpactOptionalSet (value : OpenPitFinancialImpactOptional)
    (x : OpenPitFinancialImpact) : OpenPitFinancialImpactOptional :=
  mkCOptional x true.

Definition OpenPitExecutionReportTradeOptional := COptional OpenPitExecutionReportTrade.
Definition NewExecutionReportTradeOptional : OpenPitExecutionReportTradeOptional :=
  zeroCOptional NewExecutionReportTrade.
Definition ExecutionReportTradeOptionalReset (value : OpenPitExecutionReportTradeOptional)
    : OpenPitExecutionReportTradeOptional :=
  mkCOptional (ExecutionReportTradeReset (c_value value)) false.
Definition ExecutionReportTradeOptionalIsSet (value : OpenPitExecutionReportTradeOptional) : bool :=
  c_is_set value.
Definition ExecutionReportTradeOptionalGet (value : OpenPitExecutionReportTradeOptional)
    : OpenPitExecutionReportTrade :=
  c_value value.
Definition ExecutionReportTradeOptionalGetView {S} (value : Ptr S OpenPitExecutionReportTradeOptional)
    : Ptr S OpenPitExecutionReportTrade :=
  fieldPtr value c_value (fun v o => mkCOptional v (c_is_set o)).
Definition ExecutionReportTradeOptionalSet (value : OpenPitExecutionReportTradeOptional)
    (x : OpenPitExecutionReportTrade) : OpenPitExecutionReportTradeOptional :=
  mkCOptional x true.

Definition OpenPitExecutionReportPositionImpactOptional :=
  COptional OpenPitExecutionReportPositionImpact.
Definition NewExecutionReportPositionImpactOptional : OpenPitExecutionReportPositionImpactOptional :=
  zeroCOptional NewExecutionReportPositionImpact.
Definition ExecutionReportPositionImpactOptionalReset
    (value : OpenPitExecutionReportPositionImpactOptional)
    : OpenPitExecutionReportPositionImpactOptional :=
  mkCOptional (ExecutionReportPositionImpactReset (c_value value)) false.
Definition ExecutionReportPositionImpactOptionalIsSet
    (value : OpenPitExecutionReportPositionImpactOptional) : bool :=
  c_is_set value.
Definition ExecutionReportPositionImpactOptionalGet
    (value : OpenPitExecutionReportPositionImpactOptional) : OpenPitExecutionReportPositionImpact :=
  c_value value.
Definition ExecutionReportPositionImpactOptionalGetView {S}
    (value : Ptr S OpenPitExecutionReportPositionImpactOptional)
    : Ptr S OpenPitExecutionReportPositionImpact :=
  fieldPtr value c_value (fun v o => mkCOptional v (c_is_set o)).
Definition ExecutionReportPositionImpactOptionalSet
    (value : OpenPitExecutionReportPositionImpactOptional) (x : OpenPitExecutionReportPositionImpact)
    : OpenPitExecutionReportPositionImpactOptional :=
  mkCOptional x true.

(** ** Fills *)

Definition PretradePreTradeLock := option nat.
Definition ExecutionReportIsFinalOptional := COptional bool.
Definition ExecutionReportIsFinalOptionalIsSet (value : ExecutionReportIsFinalOptional) : bool :=
  c_is_set value.
Definition ExecutionReportIsFinalOptionalGet (value : ExecutionReportIsFinalOptional) : bool :=
  c_value value.
Record OpenPitExecutionReportFill := mkExecutionReportFill {
  fl_last_trade : OpenPitExecutionReportTradeOptional;
  fl_fee : ParamMonetaryAmountOptional;
  fl_remaining_reserved_quantity : ParamQuantityOptional;
  fl_lock : PretradePreTradeLock;
  fl_is_final : ExecutionReportIsFinalOptional;
}.
Definition NewExecutionReportFill : OpenPitExecutionReportFill :=
  mkExecutionReportFill NewExecutionReportTradeOptional (zeroCOptional zeroParamMonetaryAmount)
    (zeroCOptional zeroDecimal) None (zeroCOptional false).
Definition ExecutionReportFillReset (fill : OpenPitExecutionReportFill) : OpenPitExecutionReportFill :=
  NewExecutionReportFill.
Definition ExecutionReportFillGetLastTrade (fill : OpenPitExecutionReportFill)
    : OpenPitExecutionReportTradeOptional := fl_last_trade fill.
Definition ExecutionReportFillGetLastTradeView {S} (fill : Ptr S OpenPitExecutionReportFill)
    : Ptr S OpenPitExecutionReportTradeOptional :=
  fieldPtr fill fl_last_trade (fun x r => mkExecutionReportFill x (fl_fee r)
    (fl_remaining_reserved_quantity r) (fl_lock r) (fl_is_final r)).
Definition ExecutionReportFillSetLastTrade (fill : OpenPitExecutionReportFill)
    (trade : OpenPitExecutionReportTrade) : OpenPitExecutionReportFill :=
  mkExecutionReportFill (ExecutionReportTradeOptionalSet (fl_last_trade fill) trade) (fl_fee fill)
    (fl_remaining_reserved_quantity fill) (fl_lock fill) (fl_is_final fill).
Definition ExecutionReportFillUnsetLastTrade (fill : OpenPitExecutionReportFill)
    : OpenPitExecutionReportFill :=
  mkExecutionReportFill (ExecutionReportTradeOptionalReset (fl_last_trade fill)) (fl_fee fill)
    (fl_remaining_reserved_quantity fill) (fl_lock fill) (fl_is_final fill).
Definition ExecutionReportFillGetFee (fill : OpenPitExecutionReportFill)
    : ParamMonetaryAmountOptional :=
  fl_fee fill.
Definition ExecutionReportFillSetFee (fill : OpenPitExecutionReportFill) (fee : ParamMonetaryAmount)
    : OpenPitExecutionReportFill :=
  mkExecutionReportFill (fl_last_trade fill) (NewParamMonetaryAmountOptionalSet fee)
    (fl_remaining_reserved_quantity fill) (fl_lock fill) (fl_is_final fill).
Definition ExecutionReportFillUnsetFee (fill : OpenPitExecutionReportFill)
    : OpenPitExecutionReportFill :=
  mkExecutionReportFill (fl_last_trade fill) NewParamMonetaryAmountOptionalUnset
    (fl_remaining_reserved_quantity fill) (fl_lock fill) (fl_is_final fill).
Definition ExecutionReportFillGetRemainingReservedQuantity (fill : OpenPitExecutionReportFill)
    : ParamQuantityOptional := fl_remaining_reserved_quantity fill.
Definition ExecutionReportFillSetRemainingReservedQuantity (fill : OpenPitExecutionReportFill)
    (quantity : ParamQuantity) : OpenPitExecutionReportFill :=
  mkExecutionReportFill (fl_last_trade fill) (fl_fee fill)
    (setCOptional quantity (fl_remaining_reserved_quantity fill)) (fl_lock fill) (fl_is_final fill).
Definition ExecutionReportFillUnsetRemainingReservedQuantity (fill : OpenPitExecutionReportFill)
    : OpenPitExecutionReportFill :=
  mkExecutionReportFill (fl_last_trade fill) (fl_fee fill) (zeroCOptional zeroDecimal)
    (fl_lock fill) (fl_is_final fill).
Definition ExecutionReportFillGetLock (fill : OpenPitExecutionReportFill) : PretradePreTradeLock :=
  fl_lock fill.
Definition ExecutionReportFillSetLock (fill : OpenPitExecutionReportFill) (lock : PretradePreTradeLock)
    : OpenPitExecutionReportFill :=
  mkExecutionReportFill (fl_last_trade fill) (fl_fee fill) (fl_remaining_reserved_quantity fill)
    lock (fl_is_final fill).
Definition ExecutionReportFillUnsetLock (fill : OpenPitExecutionReportFill)
    : OpenPitExecutionReportFill :=
  mkExecutionReportFill (fl_last_trade fill) (fl_fee fill) (fl_remaining_reserved_quantity fill)
    None (fl_is_final fill).
Definition ExecutionReportFillGetFinal (fill : OpenPitExecutionReportFill)
    : ExecutionReportIsFinalOptional := fl_is_final fill.
Definition ExecutionReportFillSetFinal (fill : OpenPitExecutionReportFill) (isFinal : bool)
    : OpenPitExecutionReportFill :=
  mkExecutionReportFill (fl_last_trade fill) (fl_fee fill) (fl_remaining_reserved_quantity fill)
    (fl_lock fill) (setCOptional isFinal (fl_is_final fill)).
Definition ExecutionReportFillUnsetFinal (fill : OpenPitExecutionReportFill)
    : OpenPitExecutionReportFill :=
  mkExecutionReportFill (fl_last_trade fill) (fl_fee fill) (fl_remaining_reserved_quantity fill)
    (fl_lock fill) (zeroCOptional false).

(** ** The report *)

Definition OpenPitExecutionReportFillOptional := COptional OpenPitExecutionReportFill.
Definition NewExecutionReportFillOptional : OpenPitExecutionReportFillOptional :=
  zeroCOptional NewExecutionReportFill.
Definition ExecutionReportFillOptionalReset (value : OpenPitExecutionReportFillOptional)
    : OpenPitExecutionReportFillOptional :=
  mkCOptional (ExecutionReportFillReset (c_value value)) false.
Definition ExecutionReportFillOptionalIsSet (value : OpenPitExecutionReportFillOptional) : bool :=
  c_is_set value.
Definition ExecutionReportFillOptionalGet (value : OpenPitExecutionReportFillOptional)
    : OpenPitExecutionReportFill :=
  c_value value.
Definition ExecutionReportFillOptionalGetView {S} (value : Ptr S OpenPitExecutionReportFillOptional)
    : Ptr S OpenPitExecutionReportFill :=
  fieldPtr value c_value (fun v o => mkCOptional v (c_is_set o)).
Definition ExecutionReportFillOptionalSet (value : OpenPitExecutionReportFillOptional)
    (x : OpenPitExecutionReportFill) : OpenPitExecutionReportFillOptional :=
  mkCOptional x true.

Record OpenPitExecutionReport := mkExecutionReport {
  r_operation : OpenPitExecutionReportOperationOptional;
  r_financial_impact : OpenPitFinancialImpactOptional;
  r_fill : OpenPitExecutionReportFillOptional;
  r_position_impact : OpenPitExecutionReportPositionImpactOptional;
  r_user_data : Z;
}.
Definition NewExecutionReport : OpenPitExecutionReport :=
  mkExecutionReport NewExecutionReportOperationOptional NewFinancialImpactOptional
    NewExecutionReportFillOptional NewExecutionReportPositionImpactOptional 0%Z.
Definition ExecutionReportReset (report : OpenPitExecutionReport) : OpenPitExecutionReport :=
  NewExecutionReport.
Definition ExecutionReportGetOperation (report : OpenPitExecutionReport)
    : OpenPitExecutionReportOperationOptional :=
  r_operation report.
Definition ExecutionReportGetOperationView {S} (report : Ptr S OpenPitExecutionReport)
    : Ptr S OpenPitExecutionReportOperationOptional :=
  fieldPtr report r_operation (fun x r => mkExecutionReport x (r_financial_impact r) (r_fill r) (r_position_impact r) (r_user_data r)).
Definition ExecutionReportSetOperation (report : OpenPitExecutionReport)
    (x : OpenPitExecutionReportOperation) : OpenPitExecutionReport :=
  mkExecutionReport (ExecutionReportOperationOptionalSet (r_operation report) x)
    (r_financial_impact report) (r_fill report) (r_position_impact report) (r_user_data report).
Definition ExecutionReportUnsetOperation (report : OpenPitExecutionReport) : OpenPitExecutionReport :=
  mkExecutionReport (ExecutionReportOperationOptionalReset (r_operation report)) (r_financial_impact
    report) (r_fill report) (r_position_impact report) (r_user_data report).
Definition ExecutionReportGetFinancialImpact (report : OpenPitExecutionReport)
    : OpenPitFinancialImpactOptional :=
  r_financial_impact report.
Definition ExecutionReportGetFinancialImpactView {S} (report : Ptr S OpenPitExecutionReport)
    : Ptr S OpenPitFinancialImpactOptional :=
  fieldPtr report r_financial_impact (fun x r => mkExecutionReport (r_operation r) x (r_fill r) (r_position_impact r) (r_user_data r)).
Definition ExecutionReportSetFinancialImpact (report : OpenPitExecutionReport)
    (x : OpenPitFinancialImpact) : OpenPitExecutionReport :=
  mkExecutionReport (r_operation report) (FinancialImpactOptionalSet (r_financial_impact report) x)
    (r_fill report) (r_position_impact report) (r_user_data report).
Definition ExecutionReportUnsetFinancialImpact (report : OpenPitExecutionReport)
    : OpenPitExecutionReport :=
  mkExecutionReport (r_operation report) (FinancialImpactOptionalReset (r_financial_impact report))
    (r_fill report) (r_position_impact report) (r_user_data report).
Definition ExecutionReportGetFill (report : OpenPitExecutionReport)
    : OpenPitExecutionReportFillOptional :=
  r_fill report.
Definition ExecutionReportGetFillView {S} (report : Ptr S OpenPitExecutionReport)
    : Ptr S OpenPitExecutionReportFillOptional :=
  fieldPtr report r_fill (fun x r => mkExecutionReport (r_operation r) (r_financial_impact r) x (r_position_impact r) (r_user_data r)).
Definition ExecutionReportSetFill (report : OpenPitExecutionReport) (x : OpenPitExecutionReportFill)
    : OpenPitExecutionReport :=
  mkExecutionReport (r_operation report) (r_financial_impact report)
    (ExecutionReportFillOptionalSet (r_fill report) x) (r_position_impact report) (r_user_data report).
Definition ExecutionReportUnsetFill (report : OpenPitExecutionReport) : OpenPitExecutionReport :=
  mkExecutionReport (r_operation report) (r_financial_impact report) (ExecutionReportFillOptionalReset
    (r_fill report)) (r_position_impact report) (r_user_data report).
Definition ExecutionReportGetPositionImpact (report : OpenPitExecutionReport)
    : OpenPitExecutionReportPositionImpactOptional :=
  r_position_impact report.
Definition ExecutionReportGetPositionImpactView {S} (report : Ptr S OpenPitExecutionReport)
    : Ptr S OpenPitExecutionReportPositionImpactOptional :=
  fieldPtr report r_position_impact (fun x r => mkExecutionReport (r_operation r) (r_financial_impact r) (r_fill r) x (r_user_data r)).
Definition ExecutionReportSetPositionImpact (report : OpenPitExecutionReport)
    (x : OpenPitExecutionReportPositionImpact) : OpenPitExecutionReport :=
  mkExecutionReport (r_operation report) (r_financial_impact report) (r_fill report)
    (ExecutionReportPositionImpactOptionalSet (r_position_impact report) x) (r_user_data report).
Definition ExecutionReportUnsetPositionImpact (report : OpenPitExecutionReport)
    : OpenPitExecutionReport :=
  mkExecutionReport (r_operation report) (r_financial_impact report) (r_fill report)
    (ExecutionReportPositionImpactOptionalReset (r_position_impact report)) (r_user_data report).
Definition ExecutionReportGetUserData (report : OpenPitExecutionReport) : Z := r_user_data report.
Definition ExecutionReportSetUserData (report : OpenPitExecutionReport) (userData : Z)
    : OpenPitExecutionReport :=
  mkExecutionReport (r_operation report) (r_financial_impact report) (r_fill report)
    (r_position_impact report) userData.
