(* ===== verification/ModelReport.v ===== *)
(** * Execution reports

    [model.ExecutionReport] and the groups it holds (model/execution_report.go). A
    group read from a report copies the strings it shows, so that it outlives the
    report; a fill owns its native lock, or borrows it when it was read from a report
    that borrows it. What a lock holds is the native library's: [L], with its raw form
    ([decode], [encode]). *)
From Stdlib Require Import ZArith.
From stdpp Require Import base tactics list gmap strings.
From S2P Require Import Prelude GoPtr NativeMem ParamValues NativeReport.

(** ** Values *)

Record ExecutionReportOperationValues := mkExecutionReportOperationValues {
  vrop_Instrument : option Instrument;
  vrop_AccountID : option AccountID;
  vrop_Side : option Side;
}.
Record ExecutionReportFinancialImpactValues := mkExecutionReportFinancialImpactValues {
  vfi_Pnl : option Pnl;
  vfi_Fee : option Fee;
}.
Record ExecutionReportPositionImpactValues := mkExecutionReportPositionImpactValues {
  vpi_PositionEffect : option PositionEffect;
  vpi_PositionSide : option PositionSide;
}.

(** ** Groups and their views *)

Module ExecutionReportOperation.
Record t := mk { value : OpenPitExecutionReportOperation; retainInstrument : Instrument }.
Definition Reset (o : t) : t := mk (ExecutionReportOperationReset (value o)) zeroInstrument.
Definition Instrument {L} (o : t) : MM L (option NativeMem.Instrument) :=
  NewInstrumentFromHandle (ExecutionReportOperationGetInstrument (value o)).
(** The new value owns copies of the strings, when the record holds both. *)
Definition newExecutionReportOperation {L} (v : OpenPitExecutionReportOperation) : MM L t :=
  let operation := mk v zeroInstrument in
  do! instrument <- Instrument operation;
  mret (whenSome instrument
    (fun operation instrument =>
       mk (ExecutionReportOperationSetInstrument (value operation) (InstrumentHandle instrument)) instrument)
    operation).
Definition NewExecutionReportOperation {L} : MM L t :=
  newExecutionReportOperation NativeReport.NewExecutionReportOperation.
Definition SetInstrument (o : t) (x : NativeMem.Instrument) : t :=
  mk (ExecutionReportOperationSetInstrument (value o) (InstrumentHandle x)) x.
Definition UnsetInstrument (o : t) : t :=
  mk (ExecutionReportOperationUnsetInstrument (value o)) zeroInstrument.
Definition AccountID (o : t) : option ParamValues.AccountID :=
  NewAccountIDOptionFromHandle (ExecutionReportOperationGetAccountID (value o)).
Definition SetAccountID (o : t) (x : ParamValues.AccountID) : t :=
  mk (ExecutionReportOperationSetAccountID (value o) (AccountIDHandle x)) (retainInstrument o).
Definition UnsetAccountID (o : t) : t :=
  mk (ExecutionReportOperationUnsetAccountID (value o)) (retainInstrument o).
Definition Side {L} (o : t) : MM L (option ParamValues.Side) :=
  NewSideFromHandle (ExecutionReportOperationGetSide (value o)).
Definition SetSide (o : t) (x : ParamValues.Side) : t :=
  mk (ExecutionReportOperationSetSide (value o) (SideHandle x)) (retainInstrument o).
Definition UnsetSide (o : t) : t :=
  mk (ExecutionReportOperationUnsetSide (value o)) (retainInstrument o).
Definition Values {L} (o : t) : MM L ExecutionReportOperationValues :=
  do! vInstrument <- Instrument o;
  do! vSide <- Side o;
  mret (mkExecutionReportOperationValues vInstrument (AccountID o) vSide).
Definition setValues (o : t) (values : ExecutionReportOperationValues) : t :=
  let o := whenSome (vrop_Instrument values) SetInstrument o in
  let o := whenSome (vrop_AccountID values) SetAccountID o in
  let o := whenSome (vrop_Side values) SetSide o in
  o.
Definition SetValues (o : t) (values : ExecutionReportOperationValues) : t :=
  setValues (Reset o) values.
Definition NewExecutionReportOperationFromValues {L} (values : ExecutionReportOperationValues)
    : MM L t :=
  do! operation <- NewExecutionReportOperation;
  mret (setValues operation values).
End ExecutionReportOperation.

Module ExecutionReportOperationView.
Section View.
Context {S : Type}.

Record t := mk { ref : Ptr S OpenPitExecutionReportOperation; retainInstrument : Ptr S Instrument }.
Definition newExecutionReportOperationView (ref : Ptr S OpenPitExecutionReportOperation)
    (retainInstrument : Ptr S Instrument) : t :=
  mk ref retainInstrument.
Definition Reset (v : t) (s : S) : S :=
  let s := update (ref v) ExecutionReportOperationReset s in
  assign (retainInstrument v) zeroInstrument s.
Definition Instrument {L} (v : t) (s : S) : MM L (option NativeMem.Instrument) :=
  NewInstrumentFromHandle (ExecutionReportOperationGetInstrument (deref (ref v) s)).
Definition SetInstrument (v : t) (x : NativeMem.Instrument) (s : S) : S :=
  let s := update (ref v) (fun n => ExecutionReportOperationSetInstrument n (InstrumentHandle x)) s in
  assign (retainInstrument v) x s.
Definition UnsetInstrument (v : t) (s : S) : S :=
  let s := update (ref v) ExecutionReportOperationUnsetInstrument s in
  assign (retainInstrument v) zeroInstrument s.
Definition AccountID (v : t) (s : S) : option ParamValues.AccountID :=
  NewAccountIDOptionFromHandle (ExecutionReportOperationGetAccountID (deref (ref v) s)).
Definition SetAccountID (v : t) (x : ParamValues.AccountID) (s : S) : S :=
  update (ref v) (fun n => ExecutionReportOperationSetAccountID n (AccountIDHandle x)) s.
Definition UnsetAccountID (v : t) (s : S) : S :=
  update (ref v) ExecutionReportOperationUnsetAccountID s.
Definition Side {L} (v : t) (s : S) : MM L (option ParamValues.Side) :=
  NewSideFromHandle (ExecutionReportOperationGetSide (deref (ref v) s)).
Definition SetSide (v : t) (x : ParamValues.Side) (s : S) : S :=
  update (ref v) (fun n => ExecutionReportOperationSetSide n (SideHandle x)) s.
Definition UnsetSide (v : t) (s : S) : S := update (ref v) ExecutionReportOperationUnsetSide s.
End View.
Arguments t : clear implicits.
End ExecutionReportOperationView.

Module ExecutionReportFinancialImpact.
Record t := mk { value : OpenPitFinancialImpact }.
Definition newExecutionReportFinancialImpact (v : OpenPitFinancialImpact) : t := mk v.
Definition NewExecutionReportFinancialImpact : t :=
  newExecutionReportFinancialImpact NewFinancialImpact.
Definition Reset (i : t) : t := mk (FinancialImpactReset (value i)).
Definition Pnl (i : t) : option ParamValues.Pnl :=
  NewPnlOptionFromHandle (FinancialImpactGetPnl (value i)).
Definition SetPnl (i : t) (x : ParamValues.Pnl) : t :=
  mk (FinancialImpactSetPnl (value i) (PnlHandle x)).
Definition UnsetPnl (i : t) : t := mk (FinancialImpactUnsetPnl (value i)).
Definition Fee (i : t) : option ParamValues.Fee :=
  NewFeeOptionFromHandle (FinancialImpactGetFee (value i)).
Definition SetFee (i : t) (x : ParamValues.Fee) : t :=
  mk (FinancialImpactSetFee (value i) (FeeHandle x)).
Definition UnsetFee (i : t) : t := mk (FinancialImpactUnsetFee (value i)).
Definition Values (i : t) : ExecutionReportFinancialImpactValues :=
  mkExecutionReportFinancialImpactValues (Pnl i) (Fee i).
Definition setValues (i : t) (values : ExecutionReportFinancialImpactValues) : t :=
  let i := whenSome (vfi_Pnl values) SetPnl i in
  let i := whenSome (vfi_Fee values) SetFee i in
  i.
Definition SetValues (i : t) (values : ExecutionReportFinancialImpactValues) : t :=
  setValues (Reset i) values.
Definition NewExecutionReportFinancialImpactFromValues (values : ExecutionReportFinancialImpactValues)
    : t :=
  setValues NewExecutionReportFinancialImpact values.
End ExecutionReportFinancialImpact.

Module ExecutionReportFinancialImpactView.
Section View.
Context {S : Type}.

Record t := mk { ref : Ptr S OpenPitFinancialImpact }.
Definition newExecutionReportFinancialImpactView (ref : Ptr S OpenPitFinancialImpact) : t := mk ref.
Definition Reset (v : t) (s : S) : S := update (ref v) FinancialImpactReset s.
Definition Pnl (v : t) (s : S) : option ParamValues.Pnl :=
  NewPnlOptionFromHandle (FinancialImpactGetPnl (deref (ref v) s)).
Definition SetPnl (v : t) (x : ParamValues.Pnl) (s : S) : S :=
  update (ref v) (fun n => FinancialImpactSetPnl n (PnlHandle x)) s.
Definition UnsetPnl (v : t) (s : S) : S := update (ref v) FinancialImpactUnsetPnl s.
Definition Fee (v : t) (s : S) : option ParamValues.Fee :=
  NewFeeOptionFromHandle (FinancialImpactGetFee (deref (ref v) s)).
Definition SetFee (v : t) (x : ParamValues.Fee) (s : S) : S :=
  update (ref v) (fun n => FinancialImpactSetFee n (FeeHandle x)) s.
Definition UnsetFee (v : t) (s : S) : S := update (ref v) FinancialImpactUnsetFee s.
End View.
Arguments t : clear implicits.
End ExecutionReportFinancialImpactView.

Module ExecutionReportPositionImpact.
Record t := mk { value : OpenPitExecutionReportPositionImpact }.
Definition newExecutionReportPositionImpact (v : OpenPitExecutionReportPositionImpact) : t := mk v.
Definition NewExecutionReportPositionImpact : t :=
  newExecutionReportPositionImpact NativeReport.NewExecutionReportPositionImpact.
Definition Reset (p : t) : t := mk (ExecutionReportPositionImpactReset (value p)).
Definition PositionEffect {L} (p : t) : MM L (option ParamValues.PositionEffect) :=
  newPositionEffectFromHandle (ExecutionReportPositionImpactGetPositionEffect (value p)).
Definition SetPositionEffect (p : t) (x : ParamValues.PositionEffect) : t :=
  mk (ExecutionReportPositionImpactSetPositionEffect (value p) x).
Definition UnsetPositionEffect (p : t) : t :=
  mk (ExecutionReportPositionImpactUnsetPositionEffect (value p)).
Definition PositionSide {L} (p : t) : MM L (option ParamValues.PositionSide) :=
  NewPositionSideFromHandle (ExecutionReportPositionImpactGetPositionSide (value p)).
Definition SetPositionSide (p : t) (x : ParamValues.PositionSide) : t :=
  mk (ExecutionReportPositionImpactSetPositionSide (value p) x).
Definition UnsetPositionSide (p : t) : t :=
  mk (ExecutionReportPositionImpactUnsetPositionSide (value p)).
Definition Values {L} (p : t) : MM L ExecutionReportPositionImpactValues :=
  do! vPositionEffect <- PositionEffect p;
  do! vPositionSide <- PositionSide p;
  mret (mkExecutionReportPositionImpactValues vPositionEffect vPositionSide).
Definition setValues (p : t) (values : ExecutionReportPositionImpactValues) : t :=
  let p := whenSome (vpi_PositionEffect values) SetPositionEffect p in
  let p := whenSome (vpi_PositionSide values) SetPositionSide p in
  p.
Definition SetValues (p : t) (values : ExecutionReportPositionImpactValues) : t :=
  setValues (Reset p) values.
Definition NewExecutionReportPositionImpactFromValues (values : ExecutionReportPositionImpactValues)
    : t :=
  setValues NewExecutionReportPositionImpact values.
End ExecutionReportPositionImpact.

Module ExecutionReportPositionImpactView.
Section View.
Context {S : Type}.

Record t := mk { ref : Ptr S OpenPitExecutionReportPositionImpact }.
Definition newExecutionReportPositionImpactView (ref : Ptr S OpenPitExecutionReportPositionImpact)
    : t :=
  mk ref.
Definition Reset (v : t) (s : S) : S := update (ref v) ExecutionReportPositionImpactReset s.
Definition PositionEffect {L} (v : t) (s : S) : MM L (option ParamValues.PositionEffect) :=
  newPositionEffectFromHandle (ExecutionReportPositionImpactGetPositionEffect (deref (ref v) s)).
Definition SetPositionEffect (v : t) (x : ParamValues.PositionEffect) (s : S) : S :=
  update (ref v) (fun n => ExecutionReportPositionImpactSetPositionEffect n x) s.
Definition UnsetPositionEffect (v : t) (s : S) : S :=
  update (ref v) ExecutionReportPositionImpactUnsetPositionEffect s.
Definition PositionSide {L} (v : t) (s : S) : MM L (option ParamValues.PositionSide) :=
  NewPositionSideFromHandle (ExecutionReportPositionImpactGetPositionSide (deref (ref v) s)).
Definition SetPositionSide (v : t) (x : ParamValues.PositionSide) (s : S) : S :=
  update (ref v) (fun n => ExecutionReportPositionImpactSetPositionSide n x) s.
Definition UnsetPositionSide (v : t) (s : S) : S :=
  update (ref v) ExecutionReportPositionImpactUnsetPositionSide s.
End View.
Arguments t : clear implicits.
End ExecutionReportPositionImpactView.

(** ** Trades *)

Module ExecutionReportTrade.
Record t := mk { value : OpenPitExecutionReportTrade }.
Definition NewExecutionReportTradeFromHandle (v : OpenPitExecutionReportTrade) : t := mk v.
Definition Reset (trade : t) : t := mk (ExecutionReportTradeReset (value trade)).
Definition Price (trade : t) : ParamValues.Price :=
  NewPriceFromHandle (ExecutionReportTradeGetPrice (value trade)).
Definition SetPrice (trade : t) (x : ParamValues.Price) : t :=
  mk (ExecutionReportTradeSetPrice (value trade) (PriceHandle x)).
Definition Quantity (trade : t) : ParamValues.Quantity :=
  NewQuantityFromHandle (ExecutionReportTradeGetQuantity (value trade)).
Definition SetQuantity (trade : t) (x : ParamValues.Quantity) : t :=
  mk (ExecutionReportTradeSetQuantity (value trade) (QuantityHandle x)).
Definition NewExecutionReportTrade (price : ParamValues.Price) (quantity : ParamValues.Quantity) : t :=
  let trade := mk NativeReport.NewExecutionReportTrade in
  let trade := SetPrice trade price in
  SetQuantity trade quantity.
End ExecutionReportTrade.

(** ** Native locks *)

(** The content of a native lock and its raw form are the native library's: decoding
    fails with a message. A Go byte slice is nil or some bytes. *)
Section Locks.
Context {L : Type} (decode : string -> string + L) (encode : L -> string).

Definition allocLock (l : L) : MM L nat := fun m =>
  inr (nextId m, mkMem (bufs m) (<[nextId m := l]> (locks m)) (S (nextId m))).
Definition readLock (lock : nat) : MM L L := fun m =>
  match locks m !! lock with Some l => inr (l, m) | None => inl UseAfterFree end.
Definition CreatePretradePreTradeLockFromRaw (data : string) : MM L (string + nat) :=
  match decode data with
  | inl e => mret (inl e)
  | inr l => do! lock <- allocLock l; mret (inr lock)
  end.
(** A deep copy, null for null. *)
Definition PretradePreTradeLockClone (lock : PretradePreTradeLock) : MM L PretradePreTradeLock :=
  match lock with
  | None => mret None
  | Some lock => do! l <- readLock lock; do! lock' <- allocLock l; mret (Some lock')
  end.
(** The shared bytes are read and destroyed by the only caller. *)
Definition PretradePreTradeLockToRaw (lock : nat) : MM L string :=
  do! l <- readLock lock; mret (encode l).
Definition CloneBytes (view : string) : option string :=
  if String.length view =? 0 then None else Some view.

(** The owner of a lock; its finalizer destroys the lock. *)
Record executionReportFillLockOwner := mkLockOwner { handle : nat }.
Definition newExecutionReportFillLockOwner (handle : nat) : executionReportFillLockOwner :=
  mkLockOwner handle.

Definition executionReportFillLockBytes (lock : PretradePreTradeLock) : MM L (option string) :=
  match lock with
  | None => mret None
  | Some lock => do! raw <- PretradePreTradeLockToRaw lock; mret (CloneBytes raw)
  end.
Definition unsetExecutionReportFillLock (fill : OpenPitExecutionReportFill)
    : OpenPitExecutionReportFill :=
  ExecutionReportFillUnsetLock fill.
(** [fill] and [retain] are pointers into [S]; the result is the error, if any. *)
Definition setExecutionReportFillLock {S} (fill : Ptr S OpenPitExecutionReportFill)
    (retain : Ptr S (option executionReportFillLockOwner)) (lock : option string) (s : S)
    : MM L (option string * S) :=
  if String.length (default EmptyString lock) =? 0 then
    let s := update fill ExecutionReportFillUnsetLock s in
    mret (None, assign retain None s)
  else
    do! r <- CreatePretradePreTradeLockFromRaw (default EmptyString lock);
    match r with
    | inl e => mret (Some e, s)
    | inr handle =>
      let owner := newExecutionReportFillLockOwner handle in
      let s := update fill (fun n => ExecutionReportFillSetLock n (Some handle)) s in
      mret (None, assign retain (Some owner) s)
    end.
End Locks.
#[global] Arguments allocLock : simpl never.

Definition executionReportIsFinalOption (value : ExecutionReportIsFinalOptional) : option bool :=
  if negb (ExecutionReportIsFinalOptionalIsSet value) then None
  else Some (ExecutionReportIsFinalOptionalGet value).

(** ** Fills *)

Record ExecutionReportFillValues := mkExecutionReportFillValues {
  vfl_LastTrade : option ExecutionReportTrade.t;
  vfl_Fee : option MonetaryAmount;
  vfl_RemainingReservedQuantity : option Quantity;
  vfl_Lock : option string;
  vfl_IsFinal : option bool;
}.

Module ExecutionReportFill.
Record t := mk {
  value : OpenPitExecutionReportFill;
  retainFeeCurrency : Asset;
  retainLock : option executionReportFillLockOwner;
}.
Definition valuePtr : Ptr t OpenPitExecutionReportFill :=
  mkPtr value (fun v f => mk v (retainFeeCurrency f) (retainLock f)).
Definition retainLockPtr : Ptr t (option executionReportFillLockOwner) :=
  mkPtr retainLock (fun r f => mk (value f) (retainFeeCurrency f) r).

Section Fill.
Context {L : Type} (decode : string -> string + L) (encode : L -> string).

Definition Reset (f : t) : t := mk (ExecutionReportFillReset (value f)) None None.
Definition LastTrade (f : t) : option ExecutionReportTrade.t :=
  let trade := ExecutionReportFillGetLastTrade (value f) in
  if negb (ExecutionReportTradeOptionalIsSet trade) then None
  else Some (ExecutionReportTrade.NewExecutionReportTradeFromHandle (ExecutionReportTradeOptionalGet trade)).
Definition SetLastTrade (f : t) (trade : ExecutionReportTrade.t) : t :=
  mk (ExecutionReportFillSetLastTrade (value f) (ExecutionReportTrade.value trade))
    (retainFeeCurrency f) (retainLock f).
Definition UnsetLastTrade (f : t) : t :=
  mk (ExecutionReportFillUnsetLastTrade (value f)) (retainFeeCurrency f) (retainLock f).
Definition Fee (f : t) : MM L (option MonetaryAmount) :=
  NewMonetaryAmountOptionFromHandle (ExecutionReportFillGetFee (value f)).
Definition SetFee (f : t) (fee : MonetaryAmount) : t :=
  mk (ExecutionReportFillSetFee (value f) (MonetaryAmountHandle fee)) (Currency fee) (retainLock f).
Definition UnsetFee (f : t) : t := mk (ExecutionReportFillUnsetFee (value f)) None (retainLock f).
Definition RemainingReservedQuantity (f : t) : option Quantity :=
  NewQuantityOptionFromHandle (ExecutionReportFillGetRemainingReservedQuantity (value f)).
Definition SetRemainingReservedQuantity (f : t) (quantity : Quantity) : t :=
  mk (ExecutionReportFillSetRemainingReservedQuantity (value f) (QuantityHandle quantity))
    (retainFeeCurrency f) (retainLock f).
Definition UnsetRemainingReservedQuantity (f : t) : t :=
  mk (ExecutionReportFillUnsetRemainingReservedQuantity (value f)) (retainFeeCurrency f) (retainLock f).
Definition Lock (f : t) : MM L (option string) :=
  executionReportFillLockBytes encode (ExecutionReportFillGetLock (value f)).
Definition SetLock (f : t) (lock : option string) : MM L (option string * t) :=
  setExecutionReportFillLock decode valuePtr retainLockPtr lock f.
Definition UnsetLock (f : t) : t :=
  mk (unsetExecutionReportFillLock (value f)) (retainFeeCurrency f) None.
Definition IsFinal (f : t) : option bool :=
  executionReportIsFinalOption (ExecutionReportFillGetFinal (value f)).
Definition SetIsFinal (f : t) (isFinal : bool) : t :=
  mk (ExecutionReportFillSetFinal (value f) isFinal) (retainFeeCurrency f) (retainLock f).
Definition UnsetIsFinal (f : t) : t :=
  mk (ExecutionReportFillUnsetFinal (value f)) (retainFeeCurrency f) (retainLock f).

(** The new value owns a copy of the fee's currency. *)
Definition newExecutionReportFill (v : OpenPitExecutionReportFill) : MM L t :=
  let fill := mk v None None in
  do! fee <- Fee fill;
  mret (whenSome fee
    (fun fill fee => mk (ExecutionReportFillSetFee (value fill) (MonetaryAmountHandle fee))
                       (Currency fee) (retainLock fill)) fill).
Definition NewExecutionReportFill : MM L t :=
  newExecutionReportFill NativeReport.NewExecutionReportFill.
Definition Values (f : t) : MM L ExecutionReportFillValues :=
  do! vFee <- Fee f;
  do! vLock <- Lock f;
  mret (mkExecutionReportFillValues (LastTrade f) vFee (RemainingReservedQuantity f) vLock (IsFinal f)).
(** The error is that of [SetLock]; the fields before it are set then. *)
Definition setValues (f : t) (values : ExecutionReportFillValues) : MM L (option string * t) :=
  let f := whenSome (vfl_LastTrade values) SetLastTrade f in
  let f := whenSome (vfl_Fee values) SetFee f in
  let f := whenSome (vfl_RemainingReservedQuantity values) SetRemainingReservedQuantity f in
  do! r <- match vfl_Lock values with
           | Some lock => SetLock f (Some lock)
           | None => mret (None, f)
           end;
  match r with
  | (Some err, f) => mret (Some err, f)
  | (None, f) => mret (None, whenSome (vfl_IsFinal values) SetIsFinal f)
  end.
(** The error, or the fill. *)
Definition NewExecutionReportFillFromValues (values : ExecutionReportFillValues) : MM L (string + t) :=
  do! fill <- NewExecutionReportFill;
  do! r <- setValues fill values;
  match r with
  | (Some err, _) => mret (inl err)
  | (None, fill) => mret (inr fill)
  end.
Definition SetValues (f : t) (values : ExecutionReportFillValues) : MM L (option string * t) :=
  do! r <- NewExecutionReportFillFromValues values;
  match r with
  | inl err => mret (Some err, f)
  | inr fill => mret (None, fill)
  end.
End Fill.
End ExecutionReportFill.

Module ExecutionReportFillView.
Section View.
Context {S : Type}.

Record t := mk {
  ref : Ptr S OpenPitExecutionReportFill;
  retainFeeCurrency : Ptr S Asset;
  retainLock : Ptr S (option executionReportFillLockOwner);
}.
Definition newExecutionReportFillView (ref : Ptr S OpenPitExecutionReportFill)
    (retainFeeCurrency : Ptr S Asset) (retainLock : Ptr S (option executionReportFillLockOwner)) : t :=
  mk ref retainFeeCurrency retainLock.
Definition Reset (v : t) (s : S) : S :=
  let s := update (ref v) ExecutionReportFillReset s in
  let s := assign (retainFeeCurrency v) None s in
  assign (retainLock v) None s.
Definition LastTrade (v : t) (s : S) : option ExecutionReportTrade.t :=
  let trade := ExecutionReportFillGetLastTrade (deref (ref v) s) in
  if negb (ExecutionReportTradeOptionalIsSet trade) then None
  else Some (ExecutionReportTrade.NewExecutionReportTradeFromHandle (ExecutionReportTradeOptionalGet trade)).
Definition SetLastTrade (v : t) (trade : ExecutionReportTrade.t) (s : S) : S :=
  update (ref v) (fun n => ExecutionReportFillSetLastTrade n (ExecutionReportTrade.value trade)) s.
Definition UnsetLastTrade (v : t) (s : S) : S := update (ref v) ExecutionReportFillUnsetLastTrade s.
Definition Fee {L} (v : t) (s : S) : MM L (option MonetaryAmount) :=
  NewMonetaryAmountOptionFromHandle (ExecutionReportFillGetFee (deref (ref v) s)).
Definition SetFee (v : t) (fee : MonetaryAmount) (s : S) : S :=
  let s := assign (retainFeeCurrency v) (Currency fee) s in
  update (ref v) (fun n => ExecutionReportFillSetFee n (MonetaryAmountHandle fee)) s.
Definition UnsetFee (v : t) (s : S) : S :=
  let s := update (ref v) ExecutionReportFillUnsetFee s in
  assign (retainFeeCurrency v) None s.
Definition RemainingReservedQuantity (v : t) (s : S) : option Quantity :=
  NewQuantityOptionFromHandle (ExecutionReportFillGetRemainingReservedQuantity (deref (ref v) s)).
Definition SetRemainingReservedQuantity (v : t) (quantity : Quantity) (s : S) : S :=
  update (ref v) (fun n => ExecutionReportFillSetRemainingReservedQuantity n (QuantityHandle quantity)) s.
Definition UnsetRemainingReservedQuantity (v : t) (s : S) : S :=
  update (ref v) ExecutionReportFillUnsetRemainingReservedQuantity s.
Definition Lock {L} (encode : L -> string) (v : t) (s : S) : MM L (option string) :=
  executionReportFillLockBytes encode (ExecutionReportFillGetLock (deref (ref v) s)).
Definition SetLock {L} (decode : string -> string + L) (v : t) (lock : option string) (s : S)
    : MM L (option string * S) :=
  setExecutionReportFillLock decode (ref v) (retainLock v) lock s.
Definition UnsetLock (v : t) (s : S) : S :=
  let s := update (ref v) unsetExecutionReportFillLock s in
  assign (retainLock v) None s.
Definition IsFinal (v : t) (s : S) : option bool :=
  executionReportIsFinalOption (ExecutionReportFillGetFinal (deref (ref v) s)).
Definition SetIsFinal (v : t) (isFinal : bool) (s : S) : S :=
  update (ref v) (fun n => ExecutionReportFillSetFinal n isFinal) s.
Definition UnsetIsFinal (v : t) (s : S) : S := update (ref v) ExecutionReportFillUnsetFinal s.
End View.
Arguments t : clear implicits.
End ExecutionReportFillView.

(** ** The report *)

Record ExecutionReportValues := mkExecutionReportValues {
  rv_Operation : option ExecutionReportOperation.t;
  rv_FinancialImpact : option ExecutionReportFinancialImpact.t;
  rv_Fill : option ExecutionReportFill.t;
  rv_PositionImpact : option ExecutionReportPositionImpact.t;
}.

Module ExecutionReport.
Record t := mk {
  value : OpenPitExecutionReport;
  retainOperationInstrument : Instrument;
  retainFillFeeCurrency : Asset;
  retainFillLock : option executionReportFillLockOwner;
}.

(** Pointers to the fields of a report. *)
Definition valuePtr : Ptr t OpenPitExecutionReport :=
  mkPtr value (fun v r => mk v (retainOperationInstrument r) (retainFillFeeCurrency r) (retainFillLock r)).
Definition retainOperationInstrumentPtr : Ptr t Instrument :=
  mkPtr retainOperationInstrument
    (fun i r => mk (value r) i (retainFillFeeCurrency r) (retainFillLock r)).
Definition retainFillFeeCurrencyPtr : Ptr t Asset :=
  mkPtr retainFillFeeCurrency
    (fun a r => mk (value r) (retainOperationInstrument r) a (retainFillLock r)).
Definition retainFillLockPtr : Ptr t (option executionReportFillLockOwner) :=
  mkPtr retainFillLock
    (fun o r => mk (value r) (retainOperationInstrument r) (retainFillFeeCurrency r) o).

Section Report.
Context {L : Type}.

Definition NewExecutionReportFromHandle (v : OpenPitExecutionReport) : t :=
  mk v zeroInstrument None None.
Definition NewExecutionReport : t := NewExecutionReportFromHandle NativeReport.NewExecutionReport.
Definition Reset (r : t) : t := mk (ExecutionReportReset (value r)) zeroInstrument None None.

Definition Operation (r : t) : MM L (option ExecutionReportOperation.t) :=
  let operation := ExecutionReportGetOperation (value r) in
  if negb (ExecutionReportOperationOptionalIsSet operation) then mret None
  else
    do! v <- ExecutionReportOperation.newExecutionReportOperation
               (ExecutionReportOperationOptionalGet operation);
    mret (Some v).
Definition SetOperation (r : t) (operation : ExecutionReportOperation.t) : t :=
  mk (ExecutionReportSetOperation (value r) (ExecutionReportOperation.value operation))
    (ExecutionReportOperation.retainInstrument operation) (retainFillFeeCurrency r) (retainFillLock r).
Definition EnsureOperationView (r : t) : t * ExecutionReportOperationView.t t :=
  let operation := ExecutionReportGetOperationView valuePtr in
  let r :=
    if negb (ExecutionReportOperationOptionalIsSet (deref operation r))
    then update operation (fun x => ExecutionReportOperationOptionalSet x NewExecutionReportOperation) r
    else r in
  (r, ExecutionReportOperationView.newExecutionReportOperationView
        (ExecutionReportOperationOptionalGetView operation) retainOperationInstrumentPtr).
Definition UnsetOperation (r : t) : t :=
  mk (ExecutionReportUnsetOperation (value r)) zeroInstrument (retainFillFeeCurrency r) (retainFillLock r).

Definition FinancialImpact (r : t) : option ExecutionReportFinancialImpact.t :=
  let financialImpact := ExecutionReportGetFinancialImpact (value r) in
  if negb (FinancialImpactOptionalIsSet financialImpact) then None
  else Some (ExecutionReportFinancialImpact.newExecutionReportFinancialImpact
               (FinancialImpactOptionalGet financialImpact)).
Definition SetFinancialImpact (r : t) (financialImpact : ExecutionReportFinancialImpact.t) : t :=
  mk (ExecutionReportSetFinancialImpact (value r) (ExecutionReportFinancialImpact.value financialImpact))
    (retainOperationInstrument r) (retainFillFeeCurrency r) (retainFillLock r).
Definition EnsureFinancialImpactView (r : t) : t * ExecutionReportFinancialImpactView.t t :=
  let financialImpact := ExecutionReportGetFinancialImpactView valuePtr in
  let r :=
    if negb (FinancialImpactOptionalIsSet (deref financialImpact r))
    then update financialImpact (fun x => FinancialImpactOptionalSet x NewFinancialImpact) r else r in
  (r, ExecutionReportFinancialImpactView.newExecutionReportFinancialImpactView
        (FinancialImpactOptionalGetView financialImpact)).
Definition UnsetFinancialImpact (r : t) : t :=
  mk (ExecutionReportUnsetFinancialImpact (value r))
    (retainOperationInstrument r) (retainFillFeeCurrency r) (retainFillLock r).

Definition Fill (r : t) : MM L (option ExecutionReportFill.t) :=
  let fill := ExecutionReportGetFill (value r) in
  if negb (ExecutionReportFillOptionalIsSet fill) then mret None
  else
    do! v <- ExecutionReportFill.newExecutionReportFill (ExecutionReportFillOptionalGet fill);
    mret (Some (ExecutionReportFill.mk (ExecutionReportFill.value v)
                  (ExecutionReportFill.retainFeeCurrency v) (retainFillLock r))).
(** A borrowed lock is cloned, so that the report owns its own. *)
Definition SetFill (r : t) (fill : ExecutionReportFill.t) : MM L t :=
  do! fill <- match ExecutionReportFillGetLock (ExecutionReportFill.value fill),
                   ExecutionReportFill.retainLock fill with
    | Some lock, None =>
      do! clone <- PretradePreTradeLockClone (Some lock);
      let owner := newExecutionReportFillLockOwner <$> clone in
      mret (ExecutionReportFill.mk
              (ExecutionReportFillSetLock (ExecutionReportFill.value fill) (handle <$> owner))
              (ExecutionReportFill.retainFeeCurrency fill) owner)
    | _, _ => mret fill
    end;
  mret (mk (ExecutionReportSetFill (value r) (ExecutionReportFill.value fill))
          (retainOperationInstrument r) (ExecutionReportFill.retainFeeCurrency fill)
          (ExecutionReportFill.retainLock fill)).
Definition EnsureFillView (r : t) : t * ExecutionReportFillView.t t :=
  let fill := ExecutionReportGetFillView valuePtr in
  let r :=
    if negb (ExecutionReportFillOptionalIsSet (deref fill r))
    then update fill (fun x => ExecutionReportFillOptionalSet x NewExecutionReportFill) r else r in
  (r, ExecutionReportFillView.newExecutionReportFillView (ExecutionReportFillOptionalGetView fill)
        retainFillFeeCurrencyPtr retainFillLockPtr).
Definition UnsetFill (r : t) : t :=
  mk (ExecutionReportUnsetFill (value r)) (retainOperationInstrument r) None None.

Definition PositionImpact (r : t) : option ExecutionReportPositionImpact.t :=
  let positionImpact := ExecutionReportGetPositionImpact (value r) in
  if negb (ExecutionReportPositionImpactOptionalIsSet positionImpact) then None
  else Some (ExecutionReportPositionImpact.newExecutionReportPositionImpact
               (ExecutionReportPositionImpactOptionalGet positionImpact)).
Definition SetPositionImpact (r : t) (positionImpact : ExecutionReportPositionImpact.t) : t :=
  mk (ExecutionReportSetPositionImpact (value r) (ExecutionReportPositionImpact.value positionImpact))
    (retainOperationInstrument r) (retainFillFeeCurrency r) (retainFillLock r).
Definition EnsurePositionImpactView (r : t) : t * ExecutionReportPositionImpactView.t t :=
  let positionImpact := ExecutionReportGetPositionImpactView valuePtr in
  let r :=
    if negb (ExecutionReportPositionImpactOptionalIsSet (deref positionImpact r))
    then update positionImpact
           (fun x => ExecutionReportPositionImpactOptionalSet x NewExecutionReportPositionImpact) r
    else r in
  (r, ExecutionReportPositionImpactView.newExecutionReportPositionImpactView
        (ExecutionReportPositionImpactOptionalGetView positionImpact)).
Definition UnsetPositionImpact (r : t) : t :=
  mk (ExecutionReportUnsetPositionImpact (value r))
    (retainOperationInstrument r) (retainFillFeeCurrency r) (retainFillLock r).

Definition Values (r : t) : MM L ExecutionReportValues :=
  do! vOperation <- Operation r;
  do! vFill <- Fill r;
  mret (mkExecutionReportValues vOperation (FinancialImpact r) vFill (PositionImpact r)).
Definition setValues (r : t) (values : ExecutionReportValues) : MM L t :=
  let r := whenSome (rv_Operation values) SetOperation r in
  let r := whenSome (rv_FinancialImpact values) SetFinancialImpact r in
  do! r <- match rv_Fill values with Some fill => SetFill r fill | None => mret r end;
  mret (whenSome (rv_PositionImpact values) SetPositionImpact r).
Definition SetValues (r : t) (values : ExecutionReportValues) : MM L t := setValues (Reset r) values.
Definition NewExecutionReportFromValues (values : ExecutionReportValues) : MM L t :=
  SetValues NewExecutionReport values.
Definition EngineExecutionReport (r : t) : t := r.
Definition Handle (r : t) : OpenPitExecutionReport := value r.
End Report.
End ExecutionReport.

(** ** Mutations as data *)

(** One mutation of [ExecutionReportOperation], through the owner or through a view. *)
Inductive ExecutionReportOperationAct :=
| rop_SetInstrument (x : Instrument)
| rop_UnsetInstrument
| rop_SetAccountID (x : AccountID)
| rop_UnsetAccountID
| rop_SetSide (x : Side)
| rop_UnsetSide
| rop_Reset.
Definition executionReportOperationAct (a : ExecutionReportOperationAct)
    (o : ExecutionReportOperation.t) : ExecutionReportOperation.t :=
  match a with
  | rop_SetInstrument x => ExecutionReportOperation.SetInstrument o x
  | rop_UnsetInstrument => ExecutionReportOperation.UnsetInstrument o
  | rop_SetAccountID x => ExecutionReportOperation.SetAccountID o x
  | rop_UnsetAccountID => ExecutionReportOperation.UnsetAccountID o
  | rop_SetSide x => ExecutionReportOperation.SetSide o x
  | rop_UnsetSide => ExecutionReportOperation.UnsetSide o
  | rop_Reset => ExecutionReportOperation.Reset o
  end.
Definition executionReportOperationViewAct {S} (a : ExecutionReportOperationAct)
    (v : ExecutionReportOperationView.t S) : S -> S :=
  match a with
  | rop_SetInstrument x => ExecutionReportOperationView.SetInstrument v x
  | rop_UnsetInstrument => ExecutionReportOperationView.UnsetInstrument v
  | rop_SetAccountID x => ExecutionReportOperationView.SetAccountID v x
  | rop_UnsetAccountID => ExecutionReportOperationView.UnsetAccountID v
  | rop_SetSide x => ExecutionReportOperationView.SetSide v x
  | rop_UnsetSide => ExecutionReportOperationView.UnsetSide v
  | rop_Reset => ExecutionReportOperationView.Reset v
  end.

(** One mutation of [ExecutionReportFinancialImpact], through the owner or through a view. *)
Inductive ExecutionReportFinancialImpactAct :=
| fi_SetPnl (x : Pnl)
| fi_UnsetPnl
| fi_SetFee (x : Fee)
| fi_UnsetFee
| fi_Reset.
Definition executionReportFinancialImpactAct (a : ExecutionReportFinancialImpactAct)
    (o : ExecutionReportFinancialImpact.t) : ExecutionReportFinancialImpact.t :=
  match a with
  | fi_SetPnl x => ExecutionReportFinancialImpact.SetPnl o x
  | fi_UnsetPnl => ExecutionReportFinancialImpact.UnsetPnl o
  | fi_SetFee x => ExecutionReportFinancialImpact.SetFee o x
  | fi_UnsetFee => ExecutionReportFinancialImpact.UnsetFee o
  | fi_Reset => ExecutionReportFinancialImpact.Reset o
  end.
Definition executionReportFinancialImpactViewAct {S} (a : ExecutionReportFinancialImpactAct)
    (v : ExecutionReportFinancialImpactView.t S) : S -> S :=
  match a with
  | fi_SetPnl x => ExecutionReportFinancialImpactView.SetPnl v x
  | fi_UnsetPnl => ExecutionReportFinancialImpactView.UnsetPnl v
  | fi_SetFee x => ExecutionReportFinancialImpactView.SetFee v x
  | fi_UnsetFee => ExecutionReportFinancialImpactView.UnsetFee v
  | fi_Reset => ExecutionReportFinancialImpactView.Reset v
  end.

(** One mutation of [ExecutionReportPositionImpact], through the owner or through a view. *)
Inductive ExecutionReportPositionImpactAct :=
| pi_SetPositionEffect (x : PositionEffect)
| pi_UnsetPositionEffect
| pi_SetPositionSide (x : PositionSide)
| pi_UnsetPositionSide
| pi_Reset.
Definition executionReportPositionImpactAct (a : ExecutionReportPositionImpactAct)
    (o : ExecutionReportPositionImpact.t) : ExecutionReportPositionImpact.t :=
  match a with
  | pi_SetPositionEffect x => ExecutionReportPositionImpact.SetPositionEffect o x
  | pi_UnsetPositionEffect => ExecutionReportPositionImpact.UnsetPositionEffect o
  | pi_SetPositionSide x => ExecutionReportPositionImpact.SetPositionSide o x
  | pi_UnsetPositionSide => ExecutionReportPositionImpact.UnsetPositionSide o
  | pi_Reset => ExecutionReportPositionImpact.Reset o
  end.
Definition executionReportPositionImpactViewAct {S} (a : ExecutionReportPositionImpactAct)
    (v : ExecutionReportPositionImpactView.t S) : S -> S :=
  match a with
  | pi_SetPositionEffect x => ExecutionReportPositionImpactView.SetPositionEffect v x
  | pi_UnsetPositionEffect => ExecutionReportPositionImpactView.UnsetPositionEffect v
  | pi_SetPositionSide x => ExecutionReportPositionImpactView.SetPositionSide v x
  | pi_UnsetPositionSide => ExecutionReportPositionImpactView.UnsetPositionSide v
  | pi_Reset => ExecutionReportPositionImpactView.Reset v
  end.

(** One mutation of a fill that cannot fail; [SetLock] is apart. *)
Inductive ExecutionReportFillAct :=
| fl_SetLastTrade (x : ExecutionReportTrade.t)
| fl_UnsetLastTrade
| fl_SetFee (x : MonetaryAmount)
| fl_UnsetFee
| fl_SetRemainingReservedQuantity (x : Quantity)
| fl_UnsetRemainingReservedQuantity
| fl_UnsetLock
| fl_SetIsFinal (x : bool)
| fl_UnsetIsFinal
| fl_Reset.
Definition executionReportFillAct (a : ExecutionReportFillAct) (f : ExecutionReportFill.t)
    : ExecutionReportFill.t :=
  match a with
  | fl_SetLastTrade x => ExecutionReportFill.SetLastTrade f x
  | fl_UnsetLastTrade => ExecutionReportFill.UnsetLastTrade f
  | fl_SetFee x => ExecutionReportFill.SetFee f x
  | fl_UnsetFee => ExecutionReportFill.UnsetFee f
  | fl_SetRemainingReservedQuantity x => ExecutionReportFill.SetRemainingReservedQuantity f x
  | fl_UnsetRemainingReservedQuantity => ExecutionReportFill.UnsetRemainingReservedQuantity f
  | fl_UnsetLock => ExecutionReportFill.UnsetLock f
  | fl_SetIsFinal x => ExecutionReportFill.SetIsFinal f x
  | fl_UnsetIsFinal => ExecutionReportFill.UnsetIsFinal f
  | fl_Reset => ExecutionReportFill.Reset f
  end.
Definition executionReportFillViewAct {S} (a : ExecutionReportFillAct) (v : ExecutionReportFillView.t S)
    : S -> S :=
  match a with
  | fl_SetLastTrade x => ExecutionReportFillView.SetLastTrade v x
  | fl_UnsetLastTrade => ExecutionReportFillView.UnsetLastTrade v
  | fl_SetFee x => ExecutionReportFillView.SetFee v x
  | fl_UnsetFee => ExecutionReportFillView.UnsetFee v
  | fl_SetRemainingReservedQuantity x => ExecutionReportFillView.SetRemainingReservedQuantity v x
  | fl_UnsetRemainingReservedQuantity => ExecutionReportFillView.UnsetRemainingReservedQuantity v
  | fl_UnsetLock => ExecutionReportFillView.UnsetLock v
  | fl_SetIsFinal x => ExecutionReportFillView.SetIsFinal v x
  | fl_UnsetIsFinal => ExecutionReportFillView.UnsetIsFinal v
  | fl_Reset => ExecutionReportFillView.Reset v
  end.
