(* ===== verification/ReportFacts.v ===== *)
(** * What execution reports keep

    For the model of ModelReport.v: views write the report they came from; a lock is
    set completely or not at all, and a report owns the locks of its fills; and a
    report, or a group read from one, can be read as long as it is held, provided that
    no instrument with exactly one empty asset was set. For such an instrument [newExecutionReportOperation] returns a group
    that does not own what it points to; the last section shows the read of freed
    memory this leads to. *)
From Stdlib Require Import ZArith Lia.
From stdpp Require Import base list gmap strings.
From S2P Require Import Prelude GoPtr NativeMem ParamValues Retention NativeReport ModelReport.

(** ** Views write through *)

(** The groups of a report as they are stored, not copied. *)
Definition reportOperation (r : ExecutionReport.t) : ExecutionReportOperation.t :=
  ExecutionReportOperation.mk (c_value (r_operation (ExecutionReport.value r)))
    (ExecutionReport.retainOperationInstrument r).
Definition reportFill (r : ExecutionReport.t) : ExecutionReportFill.t :=
  ExecutionReportFill.mk (c_value (r_fill (ExecutionReport.value r)))
    (ExecutionReport.retainFillFeeCurrency r) (ExecutionReport.retainFillLock r).
Definition storedOperation (r : ExecutionReport.t) : option ExecutionReportOperation.t :=
  if c_is_set (r_operation (ExecutionReport.value r)) then Some (reportOperation r) else None.
Definition storedFill (r : ExecutionReport.t) : option ExecutionReportFill.t :=
  if c_is_set (r_fill (ExecutionReport.value r)) then Some (reportFill r) else None.

(** Nothing but one group changes. *)
Definition leavesOthers {V A} (group : nat) (ensure : ExecutionReport.t -> ExecutionReport.t * V)
    (vact : A -> V -> ExecutionReport.t -> ExecutionReport.t) : Prop :=
  (group <> 0 -> leavesAlone storedOperation ensure vact) /\
  (group <> 1 -> leavesAlone ExecutionReport.FinancialImpact ensure vact) /\
  (group <> 2 -> leavesAlone storedFill ensure vact) /\
  (group <> 3 -> leavesAlone ExecutionReport.PositionImpact ensure vact).

(** A view returned by one of the four [Ensure] calls of a report is the stored
    group itself: it starts as the group the report had, or as the zero record; calls
    through it change that group as the same calls change a detached one, the retained
    owners with it, and change no other group. *)
Theorem report_views_write_through :
  (writesThrough storedOperation ExecutionReport.EnsureOperationView
     (fun c => ExecutionReportOperation.value c = NewExecutionReportOperation)
     executionReportOperationAct executionReportOperationViewAct /\
   leavesOthers 0 ExecutionReport.EnsureOperationView executionReportOperationViewAct) /\
  (writesThrough ExecutionReport.FinancialImpact ExecutionReport.EnsureFinancialImpactView
     (fun c => ExecutionReportFinancialImpact.value c = NewFinancialImpact)
     executionReportFinancialImpactAct executionReportFinancialImpactViewAct /\
   leavesOthers 1 ExecutionReport.EnsureFinancialImpactView executionReportFinancialImpactViewAct) /\
  (writesThrough storedFill ExecutionReport.EnsureFillView
     (fun c => ExecutionReportFill.value c = NewExecutionReportFill)
     executionReportFillAct executionReportFillViewAct /\
   leavesOthers 2 ExecutionReport.EnsureFillView executionReportFillViewAct) /\
  (writesThrough ExecutionReport.PositionImpact ExecutionReport.EnsurePositionImpactView
     (fun c => ExecutionReportPositionImpact.value c = NewExecutionReportPositionImpact)
     executionReportPositionImpactAct executionReportPositionImpactViewAct /\
   leavesOthers 3 ExecutionReport.EnsurePositionImpactView executionReportPositionImpactViewAct).
Proof.
  unfold leavesOthers.
  repeat match goal with |- _ /\ _ => split end;
    first [done|intros _; solve_leaves_alone|solve_writes_through].
Qed.

(** ** Locks *)

Section Locks.
Context {L : Type} (decode : string -> string + L) (encode : L -> string).

(** [SetLock] and [SetValues] of a fill report an error exactly when the raw lock
    does not decode, and then change neither the fill nor the memory that it reads;
    when it decodes the fill owns a new lock, and [Lock] returns its raw form; nil and
    empty bytes unset the lock. *)
Theorem set_lock_all_or_nothing (f : ExecutionReportFill.t) (raw : string) (m : Mem L) :
  (raw <> EmptyString -> forall e, decode raw = inl e ->
     ExecutionReportFill.SetLock decode f (Some raw) m = inr (Some e, f, m) /\
     forall vs, vfl_Lock vs = Some raw -> 
       ExecutionReportFill.SetValues decode f vs m = inr (Some e, f, m)) /\
  (raw <> EmptyString -> forall l, decode raw = inr l -> exists f' m',
     ExecutionReportFill.SetLock decode f (Some raw) m = inr (None, f', m') /\
     bufs m' = bufs m /\ locks m' = <[nextId m := l]> (locks m) /\
     ExecutionReportFill.retainLock f' = Some (mkLockOwner (nextId m)) /\
     ExecutionReportFill.value f' =
       ExecutionReportFillSetLock (ExecutionReportFill.value f) (Some (nextId m)) /\
     ExecutionReportFill.retainFeeCurrency f' = ExecutionReportFill.retainFeeCurrency f /\
     ExecutionReportFill.Lock encode f' m' = inr (CloneBytes (encode l), m')) /\
  (forall lock, default EmptyString lock = EmptyString ->
     ExecutionReportFill.SetLock decode f lock m = inr (None, ExecutionReportFill.UnsetLock f, m)) /\
  ExecutionReportFill.Lock encode (ExecutionReportFill.UnsetLock f) m = inr (None, m).
Proof.
  split_and!.
  - intros Hraw e He. assert (String.length raw =? 0 = false) as Hlen by (by destruct raw).
    assert (forall g, ExecutionReportFill.SetLock decode g (Some raw) m = inr (Some e, g, m)) as Hset.
    { intros g. unfold ExecutionReportFill.SetLock, setExecutionReportFillLock,
        CreatePretradePreTradeLockFromRaw. cbn. by rewrite Hlen, He. }
    split; [apply Hset|]. intros vs Hvs.
    unfold ExecutionReportFill.SetValues, ExecutionReportFill.NewExecutionReportFillFromValues,
      ExecutionReportFill.NewExecutionReportFill, ExecutionReportFill.newExecutionReportFill, mbind'.
    cbn. unfold ExecutionReportFill.setValues, mbind'. by rewrite Hvs, Hset.
  - intros Hraw l Hl. assert (String.length raw =? 0 = false) as Hlen by (by destruct raw).
    unfold ExecutionReportFill.SetLock, setExecutionReportFillLock, CreatePretradePreTradeLockFromRaw.
    cbn. rewrite Hlen, Hl. eexists _, _. split; [reflexivity|]. cbn. split_and!; try done.
    unfold ExecutionReportFill.Lock, executionReportFillLockBytes, PretradePreTradeLockToRaw, readLock, mbind'.
    cbn. by rewrite lookup_insert_eq.
  - intros lock Hlock. unfold ExecutionReportFill.SetLock, setExecutionReportFillLock.
    by rewrite Hlock.
  - done.
Qed.
End Locks.

(** ** Retention *)

(** Both assets of an instrument have a name, or neither. *)
Definition wholeView (n : OpenPitInstrument) : Prop :=
  n = zeroOpenPitInstrument \/ (IsSet (underlying_asset n) = true /\ IsSet (settlement_asset n) = true).
Definition whole (i : Instrument) : Prop := wholeView (InstrumentHandle i).

Definition reportOperationOk (c : ExecutionReportOperation.t) : Prop :=
  let n := rop_instrument (ExecutionReportOperation.value c) in
  instrumentViewOf n (ExecutionReportOperation.retainInstrument c) /\ wholeView n.
(** The currency is retained, an unset fee has none, and a lock is owned. *)
Definition fillOk (f : ExecutionReportFill.t) : Prop :=
  let n := ExecutionReportFill.value f in
  viewOf (ma_currency (c_value (fl_fee n))) (ExecutionReportFill.retainFeeCurrency f) /\
  (c_is_set (fl_fee n) = false -> ma_currency (c_value (fl_fee n)) = stringViewNone) /\
  (fl_lock n = None \/ fl_lock n = handle <$> ExecutionReportFill.retainLock f).
Definition ownerLive {L} (m : Mem L) (o : option executionReportFillLockOwner) : Prop :=
  match o with Some o => is_Some (locks m !! handle o) | None => True end.
Definition ownerRoots (o : option executionReportFillLockOwner) : list nat :=
  match o with Some o => [handle o] | None => [] end.

(** The Go values of the family. *)
Inductive ReportValue :=
| RAsset (a : Asset)
| RInstrument (i : Instrument)
| ROperation (c : ExecutionReportOperation.t)
| RFill (f : ExecutionReportFill.t)
| RReport (r : ExecutionReport.t).

Definition reportValueRoots (v : ReportValue) : list nat :=
  match v with
  | RAsset a => assetRoots a
  | RInstrument i => instrumentRoots i
  | ROperation c => instrumentRoots (ExecutionReportOperation.retainInstrument c)
  | RFill f => assetRoots (ExecutionReportFill.retainFeeCurrency f)
  | RReport r => instrumentRoots (ExecutionReport.retainOperationInstrument r) ++
                 assetRoots (ExecutionReport.retainFillFeeCurrency r)
  end.
Definition reportValueLockRoots (v : ReportValue) : list nat :=
  match v with
  | RFill f => ownerRoots (ExecutionReportFill.retainLock f)
  | RReport r => ownerRoots (ExecutionReport.retainFillLock r)
  | _ => []
  end.
Definition reportValueSound {L} (m : Mem L) (v : ReportValue) : Prop :=
  match v with
  | RAsset a => assetLive m a
  | RInstrument i => instrumentLive m i
  | ROperation c => reportOperationOk c /\ instrumentLive m (ExecutionReportOperation.retainInstrument c)
  | RFill f => fillOk f /\ assetLive m (ExecutionReportFill.retainFeeCurrency f) /\
               ownerLive m (ExecutionReportFill.retainLock f)
  | RReport r => (reportOperationOk (reportOperation r) /\
                  instrumentLive m (ExecutionReport.retainOperationInstrument r)) /\
                 (fillOk (reportFill r) /\ assetLive m (ExecutionReport.retainFillFeeCurrency r) /\
                  ownerLive m (ExecutionReport.retainFillLock r))
  end.
#[export] Instance ReportValue_retaining L : Retaining L ReportValue := {|
  roots := reportValueRoots; lockRoots := reportValueLockRoots; sound := reportValueSound |}.

Lemma extends_ownerLive {L} (m m' : Mem L) o : extends m m' -> ownerLive m o -> ownerLive m' o.
Proof.
  intros (_ & H & _). destruct o as [o|]; [|done]. intros [l Hl]. exists l. by eapply lookup_weaken.
Qed.
Lemma collected_ownerLive {L} r lr (m m' : Mem L) o :
  collected r lr m m' -> ownerRoots o ⊆ lr -> ownerLive m o -> ownerLive m' o.
Proof.
  intros (_ & _ & _ & _ & H) Hr. destruct o as [o|]; [|done]. cbn. rewrite (H (handle o)); [done|].
  apply Hr. cbn. set_solver.
Qed.
#[export] Instance ReportValue_laws L : RetainingLaws L ReportValue.
Proof.
  split.
  - intros m m' [] Hx; cbn;
      intuition eauto using extends_assetLive, extends_instrumentLive, extends_ownerLive.
  - intros m m' v r lr Hc Hr Hl. cbn in Hr, Hl. destruct v; cbn in *;
      intuition eauto using collected_assetLive, collected_instrumentLive, collected_ownerLive.
    + eapply collected_instrumentLive; [done| |done]. set_solver.
    + eapply collected_assetLive; [done| |done]. set_solver.
Qed.

Lemma report_extends {L} (m m' : Mem L) v :
  extends m m' -> reportValueSound m v -> reportValueSound m' v.
Proof. exact (sound_extends m m' v). Qed.
Lemma report_collected {L} (m m' : Mem L) v r lr :
  collected r lr m m' -> reportValueRoots v ⊆ r -> reportValueLockRoots v ⊆ lr ->
  reportValueSound m v -> reportValueSound m' v.
Proof. exact (sound_collected m m' v r lr). Qed.

(** The values a call takes; only whole instruments are set. *)
Definition reportOperationArgs (vs : list ReportValue) (a : ExecutionReportOperationAct) : Prop :=
  match a with rop_SetInstrument i => RInstrument i ∈ vs /\ whole i | _ => True end.
Definition fillArgs (vs : list ReportValue) (a : ExecutionReportFillAct) : Prop :=
  match a with fl_SetFee x => RAsset (Currency x) ∈ vs | _ => True end.

Inductive ReportAct :=
| r_Reset
| r_SetOperation (c : ExecutionReportOperation.t)
| r_UnsetOperation
| r_SetFinancialImpact (c : ExecutionReportFinancialImpact.t)
| r_UnsetFinancialImpact
| r_UnsetFill
| r_SetPositionImpact (c : ExecutionReportPositionImpact.t)
| r_UnsetPositionImpact
| r_EnsureOperationView
| r_EnsureFinancialImpactView
| r_EnsureFillView
| r_EnsurePositionImpactView
| r_OperationView (a : ExecutionReportOperationAct)
| r_FinancialImpactView (a : ExecutionReportFinancialImpactAct)
| r_FillView (a : ExecutionReportFillAct)
| r_PositionImpactView (a : ExecutionReportPositionImpactAct).
Definition reportAct (r0 : ExecutionReport.t) (a : ReportAct) (r : ExecutionReport.t) : ExecutionReport.t :=
  match a with
  | r_Reset => ExecutionReport.Reset r
  | r_SetOperation c => ExecutionReport.SetOperation r c
  | r_UnsetOperation => ExecutionReport.UnsetOperation r
  | r_SetFinancialImpact c => ExecutionReport.SetFinancialImpact r c
  | r_UnsetFinancialImpact => ExecutionReport.UnsetFinancialImpact r
  | r_UnsetFill => ExecutionReport.UnsetFill r
  | r_SetPositionImpact c => ExecutionReport.SetPositionImpact r c
  | r_UnsetPositionImpact => ExecutionReport.UnsetPositionImpact r
  | r_EnsureOperationView => fst (ExecutionReport.EnsureOperationView r)
  | r_EnsureFinancialImpactView => fst (ExecutionReport.EnsureFinancialImpactView r)
  | r_EnsureFillView => fst (ExecutionReport.EnsureFillView r)
  | r_EnsurePositionImpactView => fst (ExecutionReport.EnsurePositionImpactView r)
  | r_OperationView a => executionReportOperationViewAct a (snd (ExecutionReport.EnsureOperationView r0)) r
  | r_FinancialImpactView a =>
      executionReportFinancialImpactViewAct a (snd (ExecutionReport.EnsureFinancialImpactView r0)) r
  | r_FillView a => executionReportFillViewAct a (snd (ExecutionReport.EnsureFillView r0)) r
  | r_PositionImpactView a =>
      executionReportPositionImpactViewAct a (snd (ExecutionReport.EnsurePositionImpactView r0)) r
  end.
Definition reportArgs (vs : list ReportValue) (a : ReportAct) : Prop :=
  match a with
  | r_SetOperation c => ROperation c ∈ vs
  | r_OperationView a => reportOperationArgs vs a
  | r_FillView a => fillArgs vs a
  | _ => True
  end.

(** A report rebuilt from the native record of [src]: it borrows what [src] owns. *)
Definition borrowedFrom (src : ExecutionReport.t) : ExecutionReport.t :=
  ExecutionReport.NewExecutionReportFromHandle (ExecutionReport.Handle src).

(** Every way the package makes a value of the family that owns what it shows;
    [SetValues] of a report or of an operation is a sequence of these. A report that
    only borrows is no value of the family; what is made of it, while its source is
    held, is. *)
Inductive reportMakes {L} (validate : string -> option string) (decode : string -> string + L)
    (m : Mem L) (vs : list ReportValue) : Mem L -> ReportValue -> Prop :=
| rmake_asset m' a : makesAsset validate m (fun a => RAsset a ∈ vs) (fun i => RInstrument i ∈ vs) m' a ->
    reportMakes validate decode m vs m' (RAsset a)
| rmake_instrument i : makesInstrument (fun a => RAsset a ∈ vs) i ->
    reportMakes validate decode m vs m (RInstrument i)
| rmake_operation c m' : ExecutionReportOperation.NewExecutionReportOperation m = inr (c, m') ->
    reportMakes validate decode m vs m' (ROperation c)
| rmake_operationAct a c : ROperation c ∈ vs -> reportOperationArgs vs a ->
    reportMakes validate decode m vs m (ROperation (executionReportOperationAct a c))
| rmake_fill f m' : ExecutionReportFill.NewExecutionReportFill m = inr (f, m') ->
    reportMakes validate decode m vs m' (RFill f)
| rmake_fillAct a f : RFill f ∈ vs -> fillArgs vs a ->
    reportMakes validate decode m vs m (RFill (executionReportFillAct a f))
| rmake_fillLock f raw e f' m' : RFill f ∈ vs ->
    ExecutionReportFill.SetLock decode f raw m = inr (e, f', m') ->
    reportMakes validate decode m vs m' (RFill f')
| rmake_report : reportMakes validate decode m vs m (RReport ExecutionReport.NewExecutionReport)
| rmake_reportAct r0 a r : RReport r0 ∈ vs -> RReport r ∈ vs -> reportArgs vs a ->
    reportMakes validate decode m vs m (RReport (reportAct r0 a r))
| rmake_setFill r f r' m' : RReport r ∈ vs -> RFill f ∈ vs ->
    ExecutionReport.SetFill r f m = inr (r', m') -> reportMakes validate decode m vs m' (RReport r')
| rmake_viewLock r0 r raw e r' m' : RReport r0 ∈ vs -> RReport r ∈ vs ->
    ExecutionReportFillView.SetLock decode (snd (ExecutionReport.EnsureFillView r0)) raw r m
      = inr (e, r', m') -> reportMakes validate decode m vs m' (RReport r')
| rmake_getOperation r c m' : RReport r ∈ vs -> ExecutionReport.Operation r m = inr (Some c, m') ->
    reportMakes validate decode m vs m' (ROperation c)
| rmake_getFill r f m' : RReport r ∈ vs -> ExecutionReport.Fill r m = inr (Some f, m') ->
    reportMakes validate decode m vs m' (RFill f)
| rmake_getInstrument c i m' : ROperation c ∈ vs ->
    ExecutionReportOperation.Instrument c m = inr (Some i, m') ->
    reportMakes validate decode m vs m' (RInstrument i)
| rmake_getFee f fee m' : RFill f ∈ vs -> ExecutionReportFill.Fee f m = inr (Some fee, m') ->
    reportMakes validate decode m vs m' (RAsset (Currency fee))
| rmake_viewInstrument r0 r i m' : RReport r0 ∈ vs -> RReport r ∈ vs ->
    ExecutionReportOperationView.Instrument (snd (ExecutionReport.EnsureOperationView r0)) r m
      = inr (Some i, m') -> reportMakes validate decode m vs m' (RInstrument i)
| rmake_viewFee r0 r fee m' : RReport r0 ∈ vs -> RReport r ∈ vs ->
    ExecutionReportFillView.Fee (snd (ExecutionReport.EnsureFillView r0)) r m = inr (Some fee, m') ->
    reportMakes validate decode m vs m' (RAsset (Currency fee))
| rmake_borrowedOperation src c m' : RReport src ∈ vs ->
    ExecutionReport.Operation (borrowedFrom src) m = inr (Some c, m') ->
    reportMakes validate decode m vs m' (ROperation c)
| rmake_borrowedFill src r f m1 r' m' : RReport src ∈ vs -> RReport r ∈ vs ->
    ExecutionReport.Fill (borrowedFrom src) m = inr (Some f, m1) ->
    ExecutionReport.SetFill r f m1 = inr (r', m') -> reportMakes validate decode m vs m' (RReport r').

(** *** Copies *)

Lemma viewOf_unset v a : viewOf v a -> IsSet v = false -> v = stringViewNone.
Proof.
  intros [->| ->]; [done|]. destruct a as [b|]; [|done]. unfold importString, IsSet. cbn.
  by destruct (b_len b).
Qed.
Lemma assetText_set {L} (m : Mem L) a s :
  assetLive m a -> assetText m a = Some s -> IsSet (importString (AssetHandle a)) = true.
Proof.
  intros Ha Ht. rewrite <- (viewText_handle m a Ha) in Ht. unfold viewText in Ht.
  by destruct (IsSet _).
Qed.

(** A report operation copied from a record with live views is sound and shows the
    same values. *)
Lemma copy_operation {L} (m : Mem L) v :
  memOk m -> instrumentViewLive m (rop_instrument v) -> wholeView (rop_instrument v) ->
  exists c m', ExecutionReportOperation.newExecutionReportOperation v m = inr (c, m') /\
    memOk m' /\ extends m m' /\ reportValueSound m' (ROperation c) /\
    instrumentViewText m' (rop_instrument (ExecutionReportOperation.value c)) =
      instrumentViewText m (rop_instrument v) /\
    rop_account_id (ExecutionReportOperation.value c) = rop_account_id v /\
    rop_side (ExecutionReportOperation.value c) = rop_side v.
Proof.
  intros Hm Hl Hw. unfold ExecutionReportOperation.newExecutionReportOperation,
    ExecutionReportOperation.Instrument, ExecutionReportOperationGetInstrument, mbind'. cbn.
  destruct (NewInstrumentFromHandle_spec m _ Hm Hl) as (o & m' & E & Hm' & Hx & Hi & Ht). rewrite E.
  destruct Hw as [Hz|[Hu Hs]].
  - rewrite Hz in E. cbn in E. injection E as <- <-. cbn.
    eexists _, _. split; [reflexivity|]. cbn. rewrite Hz. split_and!; try done; try (by left).
    unfold reportOperationOk. cbn. rewrite Hz. split; [auto with pit|by left].
  - destruct (IsSet_text m _ (proj1 Hl) Hu) as (u & Eu & _), (IsSet_text m _ (proj2 Hl) Hs) as (s & Es & _).
    assert (instrumentViewText m (rop_instrument v) = Some (u, s)) as Ev
      by (unfold instrumentViewText; by rewrite Eu, Es).
    rewrite Ev in Ht. destruct o as [i|]; [|done]. cbn in Ht. specialize (Hi i eq_refl).
    eexists _, _. split; [reflexivity|]. cbn. rewrite instrumentViewText_handle, Ht, Ev by done.
    split_and!; try done. split; [apply instrumentViewOf_handle|]. right. unfold instrumentText in Ht. destruct Hi as [H1 H2].
    destruct (assetText m' (UnderlyingAsset i)) eqn:E1, (assetText m' (SettlementAsset i)) eqn:E2;
      simplify_eq. split; eapply assetText_set; eauto.
Qed.

Lemma read_fee {L} (m : Mem L) n a :
  memOk m -> assetLive m a -> viewOf (ma_currency (c_value n)) a ->
  exists o m', NewMonetaryAmountOptionFromHandle n m = inr (o, m') /\ memOk m' /\ extends m m' /\
    (forall fee, o = Some fee -> assetLive m' (Currency fee) /\ Amount fee = ma_amount (c_value n) /\
       assetText m' (Currency fee) = viewText m (ma_currency (c_value n))) /\
    (o = None <-> c_is_set n = false \/ IsSet (ma_currency (c_value n)) = false).
Proof.
  intros Hm Ha Hv. unfold NewMonetaryAmountOptionFromHandle, NewMonetaryAmountFromHandle, mbind', mret,
    ParamMonetaryAmountOptionalIsSet, ParamMonetaryAmountOptionalGet.
  destruct (c_is_set n); cbn; [|eexists _, _; split_and!; [reflexivity|done..|]; split; [by left|done]].
  destruct (NewAssetFromHandle_spec m _ Hm (viewLive_of m _ a Ha Hv)) as (o & m' & E & Hm' & Hx & Hl & Ht & Hn).
  rewrite E. exists (mkMonetaryAmount (NewFeeFromHandle (ma_amount (c_value n))) <$> o), m'.
  split; [by destruct o|]. split_and!; try done.
  - intros fee Hf. destruct o as [c|]; [|done]. injection Hf as <-. cbn in *. split_and!; auto.
  - unfold NewAssetFromHandle in E. destruct (IsSet (ma_currency (c_value n))) eqn:Es.
    + destruct (IsSet_text m _ (viewLive_of m _ a Ha Hv) Es) as (s & Hs & _). rewrite Hs in Ht.
      destruct o; [split; [done|by intros [|]]|done].
    + injection E as <- _. split; [by right|done].
Qed.

(** A fill copied from a record whose fee is live; its lock is not copied. *)
Lemma copy_fill {L} (m : Mem L) v a :
  memOk m -> assetLive m a -> viewOf (ma_currency (c_value (fl_fee v))) a ->
  (c_is_set (fl_fee v) = false -> ma_currency (c_value (fl_fee v)) = stringViewNone) ->
  exists f m', ExecutionReportFill.newExecutionReportFill v m = inr (f, m') /\
    memOk m' /\ extends m m' /\ assetLive m' (ExecutionReportFill.retainFeeCurrency f) /\
    ExecutionReportFill.retainLock f = None /\
    fl_lock (ExecutionReportFill.value f) = fl_lock v /\
    viewOf (ma_currency (c_value (fl_fee (ExecutionReportFill.value f)))) (ExecutionReportFill.retainFeeCurrency f) /\
    (c_is_set (fl_fee (ExecutionReportFill.value f)) = false ->
     ma_currency (c_value (fl_fee (ExecutionReportFill.value f))) = stringViewNone).
Proof.
  intros Hm Ha Hv Hu. unfold ExecutionReportFill.newExecutionReportFill, ExecutionReportFill.Fee,
    ExecutionReportFillGetFee, mbind'. cbn.
  destruct (read_fee m (fl_fee v) a Hm Ha Hv) as (o & m' & -> & Hm' & Hx & Hs & Hn).
  eexists _, _. split; [reflexivity|]. destruct o as [fee|]; cbn; split_and!; try done.
  - apply (Hs fee eq_refl).
  - apply viewOf_handle.
  - assert (ma_currency (c_value (fl_fee v)) = stringViewNone) as Hz.
    { destruct (proj1 Hn eq_refl); [auto|]. by eapply viewOf_unset. }
    rewrite Hz. apply viewOf_none.
Qed.

(** *** Every operation makes sound values *)

Lemma reportOperationAct_sound {L} (m : Mem L) vs a c :
  Forall (reportValueSound m) vs -> reportOperationArgs vs a ->
  reportValueSound m (ROperation c) -> reportValueSound m (ROperation (executionReportOperationAct a c)).
Proof.
  intros Hvs Ha [H1 H2]. destruct a; cbn in *; try done.
  - rewrite Forall_forall in Hvs. split; [split; [apply instrumentViewOf_handle|apply Ha]|exact (Hvs _ (proj1 Ha))].
  - split; [split; [auto with pit|by left]|done].
  - split; [split; [auto with pit|by left]|done].
Qed.
Lemma fillAct_sound {L} (m : Mem L) vs a f :
  Forall (reportValueSound m) vs -> fillArgs vs a ->
  reportValueSound m (RFill f) -> reportValueSound m (RFill (executionReportFillAct a f)).
Proof.
  intros Hvs Ha ((H1 & H2 & H3) & H4 & H5). destruct a; cbn in *; unfold fillOk; cbn;
    try (split_and!; [done..|auto with pit]; fail); try (by split_and!; auto with pit).
  rewrite Forall_forall in Hvs. split_and!; [auto with pit|done|done|exact (Hvs _ Ha)|done].
Qed.

Lemma report_sound_groups {L} (m : Mem L) r :
  reportValueSound m (RReport r) <->
  reportValueSound m (ROperation (reportOperation r)) /\ reportValueSound m (RFill (reportFill r)).
Proof. done. Qed.

(** What a call on a report does to the stored operation and fill. *)
Lemma reportAct_groups r0 a r :
  let r' := reportAct r0 a r in
  (reportOperation r' = match a with
     | r_OperationView a => executionReportOperationAct a (reportOperation r)
     | r_SetOperation c => c
     | r_Reset | r_UnsetOperation => ExecutionReportOperation.Reset (reportOperation r)
     | r_EnsureOperationView =>
         if c_is_set (r_operation (ExecutionReport.value r)) then reportOperation r
         else ExecutionReportOperation.mk NewExecutionReportOperation (ExecutionReport.retainOperationInstrument r)
     | _ => reportOperation r
     end) /\
  (reportFill r' = match a with
     | r_FillView a => executionReportFillAct a (reportFill r)
     | r_Reset | r_UnsetFill => ExecutionReportFill.Reset (reportFill r)
     | r_EnsureFillView =>
         if c_is_set (r_fill (ExecutionReport.value r)) then reportFill r
         else ExecutionReportFill.mk NewExecutionReportFill (ExecutionReport.retainFillFeeCurrency r)
                (ExecutionReport.retainFillLock r)
     | _ => reportFill r
     end).
Proof.
  destruct r as [[[? []] [? []] [? []] [? []] ?]]; destruct a; cbn; try (split; reflexivity);
    try match goal with c : ExecutionReportOperation.t |- _ => by destruct c end;
    match goal with a : _ |- _ => destruct a; split; reflexivity end.
Qed.

Lemma reportAct_sound {L} (m : Mem L) vs r0 a r :
  Forall (reportValueSound m) vs -> reportArgs vs a ->
  reportValueSound m (RReport r) -> reportValueSound m (RReport (reportAct r0 a r)).
Proof.
  intros Hvs Ha [H1 H2]%report_sound_groups. apply report_sound_groups.
  destruct (reportAct_groups r0 a r) as [-> ->]. pose proof (Hvs' := proj1 (Forall_forall _ _) Hvs).
  assert (reportValueSound m (ROperation (ExecutionReportOperation.Reset (reportOperation r)))) as N1
    by apply (reportOperationAct_sound m vs rop_Reset _ Hvs I H1).
  assert (reportValueSound m (RFill (ExecutionReportFill.Reset (reportFill r)))) as N2
    by apply (fillAct_sound m vs fl_Reset _ Hvs I H2).
  split.
  - destruct a; try exact H1; try exact N1; [exact (Hvs' _ Ha)| |by apply (reportOperationAct_sound m vs)].
    destruct (c_is_set _); [exact H1|]. split; [|exact (proj2 H1)]. split; [auto with pit|by left].
  - destruct a; try exact H2; try exact N2; [|by apply (fillAct_sound m vs)].
    destruct (c_is_set _); [exact H2|]. split; [|exact (proj2 H2)].
    unfold fillOk. cbn. split_and!; [auto with pit|done|by left].
Qed.

(** Locks. *)
Lemma allocLock_spec {L} (m : Mem L) l :
  memOk m -> exists p m', allocLock l m = inr (p, m') /\ memOk m' /\ extends m m' /\
    locks m' !! p = Some l /\ locks m !! p = None.
Proof.
  intros [H1 H2]. eexists _, _. split; [reflexivity|]. cbn.
  assert (locks m !! nextId m = None) as Hf.
  { destruct (locks m !! nextId m) eqn:E; [|done]. specialize (H2 (nextId m)). rewrite E in H2.
    specialize (H2 ltac:(by eexists)). lia. }
  split_and!; try done.
  - split; cbn; intros p.
    + intros Hp%H1. lia.
    + destruct (decide (p = nextId m)) as [->|Hne]; [lia|]. rewrite lookup_insert_ne by done.
      intros Hp%H2. lia.
  - split_and!; cbn; [done|by apply insert_subseteq|lia].
  - apply lookup_insert_eq.
Qed.

Lemma setLock_sound {L} (decode : string -> string + L) {S} (m m' : Mem L) p q raw e (s s' : S) :
  memOk m -> setExecutionReportFillLock decode p q raw s m = inr (e, s', m') ->
  memOk m' /\ extends m m' /\
  (s' = s \/ exists o, s' = assign q o (update p (fun n => ExecutionReportFillSetLock n (handle <$> o)) s) /\
             ownerLive m' o).
Proof.
  intros Hm. unfold setExecutionReportFillLock, CreatePretradePreTradeLockFromRaw, mbind', mret.
  destruct (_ =? 0).
  - intros [= <- <- <-]. split_and!; [done..|]. right. by exists None.
  - destruct (decode _) as [err|l]; [intros [= <- <- <-]; split_and!; [done..|by left]|].
    destruct (allocLock_spec m l Hm) as (h & m1 & -> & Hm1 & Hx & Hh & _). intros [= <- <- <-].
    split_and!; [done..|]. right. exists (Some (mkLockOwner h)). split; [done|]. by eexists.
Qed.

(** A fill with another lock and owner. *)
Lemma withLock_sound {L} (m : Mem L) f o :
  reportValueSound m (RFill f) -> ownerLive m o ->
  reportValueSound m (RFill (ExecutionReportFill.mk
    (ExecutionReportFillSetLock (ExecutionReportFill.value f) (handle <$> o))
    (ExecutionReportFill.retainFeeCurrency f) o)).
Proof.
  intros ((H1 & H2 & H3) & H4 & H5) Ho. cbn. unfold fillOk. cbn. split_and!; try done. by right.
Qed.

Lemma setFill_owned {L} (m : Mem L) r f :
  fillOk f -> ExecutionReport.SetFill r f m =
    inr (ExecutionReport.mk (ExecutionReportSetFill (ExecutionReport.value r) (ExecutionReportFill.value f))
           (ExecutionReport.retainOperationInstrument r) (ExecutionReportFill.retainFeeCurrency f)
           (ExecutionReportFill.retainLock f), m).
Proof.
  intros (_ & _ & H). unfold ExecutionReport.SetFill, ExecutionReportFillGetLock, mbind', mret.
  destruct f as [n c [o|]]; cbn in *; [by destruct (fl_lock n)|]. by destruct H as [-> | ->].
Qed.

(** Reading a group of a report. *)
Lemma Operation_set {L} r (m m' : Mem L) c :
  c_is_set (r_operation (ExecutionReport.value r)) = true ->
  ExecutionReportOperation.newExecutionReportOperation (c_value (r_operation (ExecutionReport.value r))) m
    = inr (c, m') ->
  ExecutionReport.Operation r m = inr (Some c, m').
Proof.
  intros Hs E. unfold ExecutionReport.Operation, ExecutionReportGetOperation,
    ExecutionReportOperationOptionalIsSet, ExecutionReportOperationOptionalGet, mbind'. rewrite Hs. cbn [negb]. by rewrite E.
Qed.
Lemma Fill_set {L} r (m m' : Mem L) f :
  c_is_set (r_fill (ExecutionReport.value r)) = true ->
  ExecutionReportFill.newExecutionReportFill (c_value (r_fill (ExecutionReport.value r))) m = inr (f, m') ->
  ExecutionReport.Fill r m = inr (Some (ExecutionReportFill.mk (ExecutionReportFill.value f)
    (ExecutionReportFill.retainFeeCurrency f) (ExecutionReport.retainFillLock r)), m').
Proof.
  intros Hs E. unfold ExecutionReport.Fill, ExecutionReportGetFill,
    ExecutionReportFillOptionalIsSet, ExecutionReportFillOptionalGet, mbind'. rewrite Hs. cbn [negb]. by rewrite E.
Qed.
Lemma get_operation {L} (m : Mem L) r :
  memOk m -> reportValueSound m (RReport r) ->
  exists o m', ExecutionReport.Operation r m = inr (o, m') /\ memOk m' /\ extends m m' /\
    bool_decide (is_Some o) = c_is_set (r_operation (ExecutionReport.value r)) /\
    (forall c, o = Some c -> reportValueSound m' (ROperation c) /\
       instrumentViewText m' (rop_instrument (ExecutionReportOperation.value c)) =
         instrumentViewText m (rop_instrument (ExecutionReportOperation.value (reportOperation r))) /\
       rop_account_id (ExecutionReportOperation.value c) =
         rop_account_id (ExecutionReportOperation.value (reportOperation r)) /\
       rop_side (ExecutionReportOperation.value c) =
         rop_side (ExecutionReportOperation.value (reportOperation r))).
Proof.
  intros Hm [[[H1 H2] H3] _]. destruct (c_is_set (r_operation (ExecutionReport.value r))) eqn:E.
  - destruct (copy_operation m (c_value (r_operation (ExecutionReport.value r))) Hm)
      as (c & m' & Ec & Hm' & Hx & Hc); [by eapply instrumentViewLive_of|exact H2|].
    exists (Some c), m'. split_and!; try done; [by apply Operation_set|]. by intros c' [= <-].
  - exists None, m. unfold ExecutionReport.Operation, ExecutionReportGetOperation,
      ExecutionReportOperationOptionalIsSet. rewrite E. by split_and!.
Qed.
Lemma get_fill {L} (m : Mem L) r :
  memOk m -> reportValueSound m (RReport r) ->
  exists o m', ExecutionReport.Fill r m = inr (o, m') /\ memOk m' /\ extends m m' /\
    bool_decide (is_Some o) = c_is_set (r_fill (ExecutionReport.value r)) /\
    (forall f, o = Some f -> reportValueSound m' (RFill f)).
Proof.
  intros Hm [_ ((H1 & H2 & H3) & H4 & H5)]. destruct (c_is_set (r_fill (ExecutionReport.value r))) eqn:E.
  - destruct (copy_fill m (c_value (r_fill (ExecutionReport.value r))) _ Hm H4 H1 H2)
      as (f & m' & Ef & Hm' & Hx & Hc & Hn & Hl & K1 & K2).
    eexists _, m'. split; [by apply Fill_set|]. split_and!; try done. intros f' [= <-].
    split; [split; [exact K1|split; [exact K2|cbn; by rewrite Hl]]|].
    split; [done|exact (extends_ownerLive m m' _ Hx H5)].
  - exists None, m. unfold ExecutionReport.Fill, ExecutionReportGetFill,
      ExecutionReportFillOptionalIsSet. rewrite E. by split_and!.
Qed.

Lemma setFill_sound {L} (m : Mem L) r f :
  reportValueSound m (RReport r) -> reportValueSound m (RFill f) ->
  exists r', ExecutionReport.SetFill r f m = inr (r', m) /\ reportValueSound m (RReport r') /\
    reportFill r' = f /\ reportOperation r' = reportOperation r.
Proof.
  intros [H1 _] Hf. rewrite setFill_owned by apply Hf. eexists. split; [reflexivity|].
  split; [exact (conj H1 Hf)|]. by destruct f.
Qed.

(** A fill with a borrowed lock: the report gets a clone. *)
Lemma setFill_borrowed {L} (m : Mem L) r f p l :
  memOk m -> reportValueSound m (RReport r) ->
  reportValueSound m (RFill (ExecutionReportFill.UnsetLock f)) ->
  fl_lock (ExecutionReportFill.value f) = Some p -> ExecutionReportFill.retainLock f = None ->
  locks m !! p = Some l ->
  exists r' m' q, ExecutionReport.SetFill r f m = inr (r', m') /\ memOk m' /\ extends m m' /\
    reportValueSound m' (RReport r') /\
    fl_lock (c_value (r_fill (ExecutionReport.value r'))) = Some q /\ q <> p /\ locks m' !! q = Some l.
Proof.
  intros Hm [S _] Hf Ep En El.
  destruct (allocLock_spec m l Hm) as (q & m' & E & Hm' & Hx & Hq & Hfresh).
  eexists _, m', q. split.
  { unfold ExecutionReport.SetFill, ExecutionReportFillGetLock, PretradePreTradeLockClone, readLock, mbind'.
    cbn. rewrite Ep, En. cbn. rewrite El, E. reflexivity. }
  apply (report_extends m m' _ Hx) in Hf. apply (report_extends m m' (ROperation (reportOperation r)) Hx) in S.
  split_and!; [done..| |done|congruence|done].
  exact (conj S (withLock_sound m' _ (Some (mkLockOwner q)) Hf ltac:(by eexists))).
Qed.

(** A fill read from a borrowed report, while its source is live. *)
Lemma borrowed_fill {L} (m m1 : Mem L) src f :
  memOk m -> reportValueSound m (RReport src) ->
  ExecutionReport.Fill (borrowedFrom src) m = inr (Some f, m1) ->
  memOk m1 /\ extends m m1 /\ ExecutionReportFill.retainLock f = None /\
  reportValueSound m1 (RFill (ExecutionReportFill.UnsetLock f)) /\
  (fl_lock (ExecutionReportFill.value f) = None \/
   exists p l, fl_lock (ExecutionReportFill.value f) = Some p /\ locks m1 !! p = Some l).
Proof.
  intros Hm [_ ((H1 & H2 & H3) & H4 & H5)] E.
  destruct (c_is_set (r_fill (ExecutionReport.value src))) eqn:Es.
  2: { unfold ExecutionReport.Fill, ExecutionReportGetFill, ExecutionReportFillOptionalIsSet in E.
       change (ExecutionReport.value (borrowedFrom src)) with (ExecutionReport.value src) in E.
       by rewrite Es in E. }
  destruct (copy_fill m (c_value (r_fill (ExecutionReport.value src))) _ Hm H4 H1 H2)
    as (g & m' & Eg & Hm' & Hx & Hc & Hn & Hl & K1 & K2).
  pose proof (Fill_set (borrowedFrom src) m m' g Es Eg) as E'. rewrite E in E'. injection E' as -> ->.
  split_and!; [done|done|done|split; [split; [exact K1|split; [exact K2|by left]]|by split]|].
  cbn [ExecutionReportFill.value]. rewrite Hl. destruct H3 as [H3|H3]; [by left|].
  cbn in H3, H5. destruct (ExecutionReport.retainFillLock src) as [o|]; [|by left].
  destruct H5 as [l Hlk]. right. exists (handle o), l. split; [exact H3|].
  eapply lookup_weaken; [exact Hlk|apply Hx].
Qed.
Lemma borrowedFill_sound {L} (m m1 m' : Mem L) src r f r' :
  memOk m -> reportValueSound m (RReport src) -> reportValueSound m (RReport r) ->
  ExecutionReport.Fill (borrowedFrom src) m = inr (Some f, m1) ->
  ExecutionReport.SetFill r f m1 = inr (r', m') ->
  memOk m' /\ extends m m' /\ reportValueSound m' (RReport r').
Proof.
  intros Hm Hsrc Hr E1 E2. destruct (borrowed_fill m m1 src f Hm Hsrc E1) as (Hm1 & Hx & Hn & Hf & Hl).
  apply (report_extends m m1 (RReport r) Hx) in Hr. destruct Hl as [Hl|(p & l & Hl & Hlk)].
  - assert (reportValueSound m1 (RFill f)) as Hf'.
    { destruct f as [v c o]. cbn in Hn. subst o. destruct Hf as ((F1 & F2 & _) & F4 & F5).
      cbn in *. unfold fillOk. cbn. split_and!; try done. by left. }
    destruct (setFill_sound m1 r f Hr Hf') as (r1 & E & Hr1 & _). rewrite E in E2. injection E2 as <- <-. done.
  - destruct (setFill_borrowed m1 r f p l Hm1 Hr Hf Hl Hn Hlk) as (r1 & m2 & q & E & Hm2 & Hx2 & Hr1 & _).
    rewrite E in E2. injection E2 as <- <-. split_and!; [done|by transitivity m1|done].
Qed.


Lemma viewLock_sound {L} (decode : string -> string + L) (m m' : Mem L) r0 r raw e r' :
  memOk m -> reportValueSound m (RReport r) ->
  ExecutionReportFillView.SetLock decode (snd (ExecutionReport.EnsureFillView r0)) raw r m = inr (e, r', m') ->
  memOk m' /\ extends m m' /\ reportValueSound m' (RReport r').
Proof.
  intros Hm Hr E. destruct (setLock_sound decode m m' _ _ raw e r r' Hm E) as (Hm' & Hx & Hr').
  apply (report_extends m m' (RReport r) Hx) in Hr. split_and!; [done|done|].
  destruct Hr' as [->|(o & -> & Ho)]; [done|]. destruct Hr as [H1 H2].
  exact (conj H1 (withLock_sound m' _ o H2 Ho)).
Qed.

Lemma reportMakes_sound {L} validate (decode : string -> string + L) :
  makesSound (reportMakes validate decode).
Proof.
  intros m vs m' v Hm Hvs Hv.
  assert (forall x, x ∈ vs -> reportValueSound m x) as Hin by (by rewrite <- Forall_forall).
  destruct Hv as
    [m' a H1|i H1|c m' E|a c H1 Ha|f m' E|a f H1 Ha|f raw e f' m' H1 E| |r0 a r H0 H1 Ha
    |r f r' m' H1 H2 E|r0 r raw e r' m' H0 H1 E|r c m' H1 E|r f m' H1 E|c i m' H1 E|f fee m' H1 E
    |r0 r i m' H0 H1 E|r0 r fee m' H0 H1 E|src c m' H1 E|src r f m1 r' m' H0 H1 E1 E2];
    try (split_and!; [done|done|]); try (apply Hin in H1).
  - eapply makesAsset_sound; [done| | |exact H1]; intros x Hx; exact (Hin _ Hx).
  - eapply makesInstrument_sound; [|exact H1]. intros x Hx. exact (Hin _ Hx).
  - injection E as <- <-. split_and!; [done..|]. repeat split; by left.
  - by apply (reportOperationAct_sound m vs).
  - injection E as <- <-. split_and!; [done..|]. repeat split; by left.
  - by apply (fillAct_sound m vs).
  - destruct (setLock_sound decode m m' _ _ raw e f f' Hm E) as (Hm' & Hx & Hf').
    apply (report_extends m m' (RFill f) Hx) in H1. split_and!; [done|done|].
    destruct Hf' as [->|(o & -> & Ho)]; [done|]. exact (withLock_sound m' f o H1 Ho).
  - split; repeat split; by left.
  - by apply (reportAct_sound m vs).
  - destruct (setFill_sound m r f H1 (Hin _ H2)) as (r1 & E1 & Hr & _). rewrite E1 in E. by simplify_eq.
  - by eapply viewLock_sound.
  - destruct (get_operation m r Hm H1) as (o & m1 & E1 & Hm1 & Hx & _ & Ho). rewrite E1 in E. simplify_eq.
    split_and!; [done|done|]. by apply Ho.
  - destruct (get_fill m r Hm H1) as (o & m1 & E1 & Hm1 & Hx & _ & Ho). rewrite E1 in E. simplify_eq.
    split_and!; [done|done|]. by apply Ho.
  - destruct H1 as [[] ?]. by eapply read_instrument_makes.
  - destruct H1 as ((H1 & _) & H2 & _). destruct (read_fee m _ _ Hm H2 H1) as (o & m1 & E1 & Hm1 & Hx & Ho & _).
    pose proof (eq_trans (eq_sym E1) E). simplify_eq.
    split_and!; [done|done|]. by apply Ho.
  - destruct H1 as [[[] ?] _]. by eapply read_instrument_makes.
  - destruct H1 as [_ ((H1 & _) & H2 & _)].
    destruct (read_fee m _ _ Hm H2 H1) as (o & m1 & E1 & Hm1 & Hx & Ho & _).
    pose proof (eq_trans (eq_sym E1) E). simplify_eq.
    split_and!; [done|done|]. by apply Ho.
  - destruct (get_operation m src Hm H1) as (o & m1 & E1 & Hm1 & Hx & _ & Ho).
    pose proof (eq_trans (eq_sym E1) E). simplify_eq. split_and!; [done|done|]. by apply Ho.
  - exact (borrowedFill_sound m m1 m' src r f r' Hm (Hin _ H0) H1 E1 E2).
Qed.

(** ** Reads *)

(** A fee read shows the amount and the text of the record, when the fee is set and its
    currency has a name. *)
Definition readsFee {L} (m : Mem L) (r : MM L (option MonetaryAmount)) (n : ParamMonetaryAmountOptional)
    : Prop :=
  exists o m', r m = inr (o, m') /\ extends m m' /\
    (forall fee, o = Some fee -> Amount fee = ma_amount (c_value n) /\
       assetText m' (Currency fee) = viewText m (ma_currency (c_value n))) /\
    (o = None <-> c_is_set n = false \/ IsSet (ma_currency (c_value n)) = false).
Definition readsLock {L} (m : Mem L) (encode : L -> string) (r : MM L (option string)) (n : option nat) : Prop :=
  match n with
  | None => r m = inr (None, m)
  | Some p => exists l, locks m !! p = Some l /\ r m = inr (CloneBytes (encode l), m)
  end.

Lemma reads_fee {L} (m : Mem L) n a :
  memOk m -> assetLive m a -> viewOf (ma_currency (c_value n)) a ->
  readsFee m (NewMonetaryAmountOptionFromHandle n) n.
Proof.
  intros Hm Ha Hv. destruct (read_fee m n a Hm Ha Hv) as (o & m' & E & Hm' & Hx & Ho & Hn).
  exists o, m'. split_and!; try done. intros fee Hf. by apply Ho.
Qed.
Lemma reads_lock {L} (m : Mem L) encode f :
  fillOk f -> ownerLive m (ExecutionReportFill.retainLock f) ->
  readsLock m encode (executionReportFillLockBytes encode (fl_lock (ExecutionReportFill.value f)))
    (fl_lock (ExecutionReportFill.value f)).
Proof.
  intros (_ & _ & H) Ho. destruct (fl_lock (ExecutionReportFill.value f)) as [p|]; cbn; [|done].
  destruct H as [|H]; [done|]. destruct (ExecutionReportFill.retainLock f) as [o|]; [|done].
  injection H as ->. destruct Ho as [l Hl]. exists l. split; [done|].
  unfold executionReportFillLockBytes, PretradePreTradeLockToRaw, readLock, mbind'. by rewrite Hl.
Qed.

(** [b] can be read, and shows the operation and the fill of [r]. *)
Definition readableAs {L} (m : Mem L) (encode : L -> string) (r b : ExecutionReport.t) : Prop :=
  (exists o m', ExecutionReport.Operation b m = inr (o, m')) /\
  (exists o m', ExecutionReport.Fill b m = inr (o, m')) /\
  forall r0,
    readsInstrument m
      (ExecutionReportOperationView.Instrument (snd (ExecutionReport.EnsureOperationView r0)) b)
      (rop_instrument (ExecutionReportOperation.value (reportOperation r))) /\
    readsFee m (ExecutionReportFillView.Fee (snd (ExecutionReport.EnsureFillView r0)) b)
      (fl_fee (ExecutionReportFill.value (reportFill r))) /\
    readsLock m encode (ExecutionReportFillView.Lock encode (snd (ExecutionReport.EnsureFillView r0)) b)
      (fl_lock (ExecutionReportFill.value (reportFill r))).
Lemma report_readable {L} (encode : L -> string) (m : Mem L) r b :
  ExecutionReport.value b = ExecutionReport.value r ->
  readableAs m encode r r -> readableAs m encode r b.
Proof.
  intros E ((o & m1 & E1) & (f & m2 & E2) & H). split; [|split].
  - exists o, m1. unfold ExecutionReport.Operation in *. by rewrite E.
  - unfold ExecutionReport.Fill, mbind' in *. rewrite E. cbv zeta in *.
    destruct (negb _); [by eexists _, _|]. destruct (ExecutionReportFill.newExecutionReportFill _ m) as [|[v m3]]; [done|].
    by eexists _, _.
  - intros r0. specialize (H r0). destruct b as [v ? ? ?], r as [w ? ? ?]. cbn in E. subst w. exact H.
Qed.

(** C30: A value of the report family that owns what it shows can be read, whatever a
    program did with reports, their groups and their views, and whatever the collector
    and the finalizers of lock owners freed in between, as long as every instrument that
    was set has both assets or none: groups read from a report do not need the report
    any more, locks are readable as long as a fill or report that shows them is held. A
    report rebuilt from the native record of another borrows: it can be read while its
    source is held unmodified, shows the same then, and an operation read from it, or a
    fill of it that is set on a report, is from then on a value like the others. Nothing
    is said of a rebuilt report whose source is gone; what the engine's own records lend
    is in [borrowed_groups_become_owned]. *)
Theorem report_reads_are_safe {L} validate (decode : string -> string + L) (encode : L -> string) (m : Mem L) vs :
  poolReach (reportMakes validate decode) (m, vs) ->
  forall v, v ∈ vs -> match v with
  | RAsset a => exists s, AssetSafe a m = inr (s, m)
  | RInstrument i => exists s t,
      AssetSafe (UnderlyingAsset i) m = inr (s, m) /\ AssetSafe (SettlementAsset i) m = inr (t, m)
  | ROperation c => readsInstrument m (ExecutionReportOperation.Instrument c)
                      (rop_instrument (ExecutionReportOperation.value c))
  | RFill f => readsFee m (ExecutionReportFill.Fee f) (fl_fee (ExecutionReportFill.value f)) /\
               readsLock m encode (ExecutionReportFill.Lock encode f) (fl_lock (ExecutionReportFill.value f))
  | RReport r => readableAs m encode r r /\ readableAs m encode r (borrowedFrom r)
  end.
Proof.
  intros Hw v Hv. destruct (pool_sound _ _ (reportMakes_sound validate decode) Hw) as [Hm Hs]. cbn in Hm, Hs.
  rewrite Forall_forall in Hs. specialize (Hs v Hv). destruct v as [a|i|c|f|r].
  - by apply AssetSafe_live.
  - destruct Hs as [[s H1]%AssetSafe_live [t H2]%AssetSafe_live]. by exists s, t.
  - destruct Hs as [[] ?]. by eapply reads_instrument.
  - destruct Hs as (Hf & Ha & Ho). split; [destruct Hf; by eapply reads_fee|by apply reads_lock].
  - assert (readableAs m encode r r) as H; [|split; [done|by apply report_readable]].
    destruct (get_operation m r Hm Hs) as (o & m1 & E1 & _), (get_fill m r Hm Hs) as (o2 & m2 & E2 & _).
    split; [by exists o, m1|]. split; [by exists o2, m2|]. intros r0.
    destruct Hs as [[[H1 _] H2] (Hf & Ha & Ho)].
    split; [by eapply reads_instrument|]. split; [destruct Hf; by eapply reads_fee|].
    exact (reads_lock m encode (reportFill r) Hf Ho).
Qed.

(** A report that owns a lock: the fill it was given is gone, and so is a lock that was
    replaced. *)
Definition demoDecode (raw : string) : string + string :=
  if String.eqb raw "bad" then inl "not a lock"%string else inr raw.
Definition demoLockMem : Mem string := mkMem ∅ (<[1 := "abc"%string]> ∅) 2.
Definition demoFill : ExecutionReportFill.t :=
  ExecutionReportFill.mk (ExecutionReportFillSetLock NewExecutionReportFill (Some 1)) None (Some (mkLockOwner 1)).
Definition demoReport : ExecutionReport.t :=
  ExecutionReport.mk (ExecutionReportSetFill NewExecutionReport (ExecutionReportFill.value demoFill))
    zeroInstrument None (Some (mkLockOwner 1)).

Lemma demoReport_reach : poolReach (reportMakes Some demoDecode) (demoLockMem, [RReport demoReport]).
Proof.
  set (m1 := mkMem ∅ (<[0 := "ab"%string]> ∅) 1 : Mem string).
  set (m2 := mkMem ∅ (<[1 := "abc"%string]> (locks m1)) 2 : Mem string).
  set (f1 := ExecutionReportFill.mk (ExecutionReportFillSetLock NewExecutionReportFill (Some 0)) None
               (Some (mkLockOwner 0))).
  eapply pool_next; [|apply (pool_collect _ m2)].
  - eapply pool_next; [|apply pool_drop].
    + eapply pool_next; [|eapply pool_make, (rmake_setFill _ _ _ _ ExecutionReport.NewExecutionReport demoFill)].
      * eapply pool_next; [|eapply pool_make, rmake_report].
        eapply pool_next; [|eapply pool_make, (rmake_fillLock _ _ _ _ f1 (Some "abc"%string) None demoFill m2)].
        -- eapply pool_next; [|eapply pool_make, (rmake_fillLock _ _ _ _
             (ExecutionReportFill.mk NewExecutionReportFill None None) (Some "ab"%string) None f1 m1)].
           ++ eapply pool_next; [|eapply pool_make, rmake_fill; reflexivity].
              apply (pool_start _ (mkMem ∅ ∅ 0)). split; intros p [? Hp]; done.
           ++ by repeat constructor.
           ++ reflexivity.
        -- by repeat constructor.
        -- reflexivity.
      * by repeat constructor.
      * by repeat constructor.
      * reflexivity.
    + intros ? ->%list_elem_of_singleton. by constructor.
  - split_and!; [done| |done|intros p Hp; by apply elem_of_nil in Hp|].
    + apply insert_mono, map_empty_subseteq.
    + intros p Hp. assert (p = 1) as -> by (cbn in Hp; set_solver); done.
Qed.

Lemma report_reads_are_safe_witness :
  ExecutionReportFillView.Lock (fun l : string => l)
    (snd (ExecutionReport.EnsureFillView demoReport)) demoReport demoLockMem
  = inr (Some "abc"%string, demoLockMem).
Proof.
  destruct (report_reads_are_safe Some demoDecode (fun l : string => l) demoLockMem _ demoReport_reach
    (RReport demoReport) (proj2 (list_elem_of_singleton _ _) eq_refl)) as [(_ & _ & H) _].
  destruct (H demoReport) as (_ & _ & l & Hl & E). rewrite E. by injection Hl as <-.
Defined.

(** ** Borrowed reports *)

(** A report rebuilt from a native record borrows what the record points to. As
    long as that is alive, [Operation] returns a group that owns copies, and [SetFill]
    of a fill that was read from it gives the receiver a lock of its own with the same
    content; once everything borrowed is freed, both are still sound. *)
Theorem borrowed_groups_become_owned {L} (n : OpenPitExecutionReport) (r : ExecutionReport.t) (a : Asset)
    (l : L) (p : nat) (m : Mem L) :
  memOk m -> instrumentViewLive m (rop_instrument (c_value (r_operation n))) ->
  wholeView (rop_instrument (c_value (r_operation n))) ->
  assetLive m a -> viewOf (ma_currency (c_value (fl_fee (c_value (r_fill n))))) a ->
  (c_is_set (fl_fee (c_value (r_fill n))) = false ->
   ma_currency (c_value (fl_fee (c_value (r_fill n)))) = stringViewNone) ->
  c_is_set (r_operation n) = true -> c_is_set (r_fill n) = true ->
  fl_lock (c_value (r_fill n)) = Some p -> locks m !! p = Some l ->
  reportValueSound m (RReport r) ->
  exists c m1 f m2 r' m3,
    ExecutionReport.Operation (ExecutionReport.NewExecutionReportFromHandle n) m = inr (Some c, m1) /\
    ExecutionReport.Fill (ExecutionReport.NewExecutionReportFromHandle n) m1 = inr (Some f, m2) /\
    fl_lock (ExecutionReportFill.value f) = Some p /\ ExecutionReportFill.retainLock f = None /\
    ExecutionReport.SetFill r f m2 = inr (r', m3) /\
    (exists q, fl_lock (c_value (r_fill (ExecutionReport.value r'))) = Some q /\ q <> p /\
       locks m3 !! q = Some l) /\
    forall m4, collected (reportValueRoots (ROperation c) ++ reportValueRoots (RReport r'))
                 (reportValueLockRoots (RReport r')) m3 m4 ->
      reportValueSound m4 (ROperation c) /\ reportValueSound m4 (RReport r').
Proof.
  intros Hm Hi Hw Ha Hc Hu So Sf Ep El Hr.
  destruct (copy_operation m _ Hm Hi Hw) as (c & m1 & E1 & Hm1 & Hx1 & Hs1 & _).
  destruct (copy_fill m1 (c_value (r_fill n)) a Hm1 (extends_assetLive m m1 a Hx1 Ha) Hc Hu)
    as (f & m2 & E2 & Hm2 & Hx2 & Hs2 & Hn & Hl & K1 & K2).
  assert (extends m m2) as Hx by (by transitivity m1).
  destruct (setFill_borrowed m2 r (ExecutionReportFill.mk (ExecutionReportFill.value f)
      (ExecutionReportFill.retainFeeCurrency f) None) p l) as (r' & m3 & q & E3 & Hm3 & Hx3 & S3 & Hq);
    [done|by apply (report_extends m m2)| |by rewrite <- Ep|done|by eapply lookup_weaken; [|apply Hx]|].
  { split; [split; [exact K1|split; [exact K2|by left]]|by split]. }
  eexists c, m1, _, m2, r', m3. split; [by apply Operation_set|]. split; [by apply Fill_set|].
  split; [by rewrite <- Ep|]. split; [done|]. split; [exact E3|]. split; [by exists q|].
  intros m4 Hc4. pose proof (report_extends m1 m3 (ROperation c) ltac:(by transitivity m2) Hs1) as S1.
  split; [eapply (report_collected m3 m4 (ROperation c)); [exact Hc4|by apply list_subseteq_app_l|apply list_subseteq_nil|exact S1]|].
  eapply (report_collected m3 m4 (RReport r')); [exact Hc4|by apply list_subseteq_app_r|reflexivity|exact S3].
Qed.

(** A record of the engine: strings and a lock in memory that is not Go's. *)
Definition demoBorrowedMem : Mem string :=
  mkMem (<[0 := "AAPL"%string]> (<[1 := "USD"%string]> ∅)) (<[2 := "abc"%string]> ∅) 3.
Definition demoBorrowed : OpenPitExecutionReport :=
  ExecutionReportSetFill
    (ExecutionReportSetOperation NewExecutionReport
       (ExecutionReportOperationSetInstrument NewExecutionReportOperation
          (mkOpenPitInstrument (mkView (Some 0) 4) (mkView (Some 1) 3))))
    (ExecutionReportFillSetLock NewExecutionReportFill (Some 2)).

Lemma borrowed_groups_become_owned_witness :
  exists f m' r' m'' q,
    ExecutionReport.Fill (ExecutionReport.NewExecutionReportFromHandle demoBorrowed) m' = inr (Some f, m') /\
    ExecutionReport.SetFill ExecutionReport.NewExecutionReport f m' = inr (r', m'') /\
    fl_lock (c_value (r_fill (ExecutionReport.value r'))) = Some q /\ locks m'' !! q = Some "abc"%string.
Proof.
  destruct (borrowed_groups_become_owned demoBorrowed ExecutionReport.NewExecutionReport None
    "abc"%string 2 demoBorrowedMem) as (c & m1 & f & m2 & r' & m3 & E1 & E2 & _ & _ & E3 & (q & E4 & _ & E5) & _).
  - split; intros p [s Hp]; unfold demoBorrowedMem in *; cbn in *;
      rewrite ?lookup_insert_Some in Hp; naive_solver lia.
  - split; intros _; [exists 0, "AAPL"%string|exists 1, "USD"%string]; by split_and!.
  - by right.
  - exact I.
  - by left.
  - done.
  - done.
  - done.
  - done.
  - done.
  - repeat split; by left.
  - exists f, m1, r', m3, q. assert (m2 = m1) as -> by (by injection E2).
    split; [exact E2|]. split; [exact E3|]. by split.
Defined.

(** ** An instrument with one empty asset *)

(** [ExecutionReport.Operation] returns a group that owns its strings only when
    both assets have a name: for an instrument with one empty asset the group keeps
    the report's view and owns nothing, so once the report is collected, reading the
    group's instrument reads freed memory. *)
Theorem half_instrument_dangles {L} (m : Mem L) b text :
  memOk m -> bufs m !! b_ptr b = Some text -> b_len b = String.length text -> b_len b <> 0 ->
  forall r, reportOperation r = ExecutionReportOperation.SetInstrument
              (ExecutionReportOperation.mk NewExecutionReportOperation zeroInstrument)
              (mkInstrument (Some b) None) ->
    c_is_set (r_operation (ExecutionReport.value r)) = true ->
  exists c m1, ExecutionReport.Operation r m = inr (Some c, m1) /\ extends m m1 /\
    reportValueRoots (ROperation c) = [] /\
    rop_instrument (ExecutionReportOperation.value c) =
      rop_instrument (ExecutionReportOperation.value (reportOperation r)) /\
    let m2 := mkMem (delete (b_ptr b) (bufs m1)) (locks m1) (nextId m1) in
    collected (reportValueRoots (ROperation c)) [] m1 m2 /\
    ExecutionReportOperation.Instrument c m2 = inl UseAfterFree.
Proof.
  intros Hm Hb Hn Hne r Hr Hs.
  assert (rop_instrument (c_value (r_operation (ExecutionReport.value r))) =
          mkOpenPitInstrument (mkView (Some (b_ptr b)) (b_len b)) stringViewNone) as Hi.
  { change (rop_instrument (ExecutionReportOperation.value (reportOperation r)) = 
      mkOpenPitInstrument (mkView (Some (b_ptr b)) (b_len b)) stringViewNone). rewrite Hr. cbn.
    unfold InstrumentHandle, nativeNewInstrument, importString. cbn. apply Nat.eqb_neq in Hne. by rewrite Hne. }
  assert (IsSet (mkView (Some (b_ptr b)) (b_len b)) = true) as Hset by (cbn; apply Nat.ltb_lt; lia).
  assert (viewLive m (mkView (Some (b_ptr b)) (b_len b))) as Hl by (intros _; by exists (b_ptr b), text).
  destruct (NewAssetFromHandle_spec m _ Hm Hl) as (o & m1 & E & Hm1 & Hx & _ & Ho & _).
  assert (exists u, o = Some u) as [u ->].
  { destruct o; [by eexists|]. cbn in Ho. unfold viewText in Ho. rewrite Hset in Ho. cbn in Ho. congruence. }
  exists (ExecutionReportOperation.mk (c_value (r_operation (ExecutionReport.value r))) zeroInstrument), m1.
  split; [apply Operation_set; [done|]|].
  { unfold ExecutionReportOperation.newExecutionReportOperation, ExecutionReportOperation.Instrument,
      ExecutionReportOperationGetInstrument, NewInstrumentFromHandle, mbind'. cbn. rewrite Hi.
    cbn [underlying_asset settlement_asset]. by rewrite E. }
  split; [done|]. split; [done|]. split; [done|]. split.
  - split_and!; cbn; [apply delete_subseteq|done|done|intros p Hp; by apply elem_of_nil in Hp..].
  - unfold ExecutionReportOperation.Instrument, ExecutionReportOperationGetInstrument,
      NewInstrumentFromHandle, NewAssetFromHandle, mbind'. cbn [ExecutionReportOperation.value]. rewrite Hi.
    cbn [underlying_asset]. rewrite Hset. unfold ViewSafe. rewrite Hset. cbn. by rewrite lookup_delete_eq.
Qed.

Lemma half_instrument_dangles_witness :
  exists c m1 m2,
    ExecutionReport.Operation (ExecutionReport.SetOperation ExecutionReport.NewExecutionReport
      (ExecutionReportOperation.SetInstrument
         (ExecutionReportOperation.mk NewExecutionReportOperation zeroInstrument)
         (mkInstrument (Some (mkBuf 1 4)) None)))
      (mkMem (<[1 := "AAPL"%string]> ∅) ∅ 2 : Mem unit) = inr (Some c, m1) /\
    collected (reportValueRoots (ROperation c)) [] m1 m2 /\
    ExecutionReportOperation.Instrument c m2 = inl UseAfterFree.
Proof.
  destruct (half_instrument_dangles (mkMem (<[1 := "AAPL"%string]> ∅) ∅ 2 : Mem unit) (mkBuf 1 4) "AAPL"%string)
    with (r := ExecutionReport.SetOperation ExecutionReport.NewExecutionReport
      (ExecutionReportOperation.SetInstrument
         (ExecutionReportOperation.mk NewExecutionReportOperation zeroInstrument)
         (mkInstrument (Some (mkBuf 1 4)) None)))
    as (c & m1 & E & _ & _ & _ & Hc & Hu).
  - split; intros p [s Hp]; cbn in *; [|done]. rewrite lookup_insert_Some in Hp. naive_solver lia.
  - done.
  - done.
  - done.
  - done.
  - done.
  - eexists c, m1, _. split; [exact E|]. split; [exact Hc|exact Hu].
Defined.
