(* ===== verification/ReportValues.v ===== *)
(** * What execution reports return

    For the model of ModelReport.v: what a group is given is what it returns, a fill
    with its lock, and a report built from groups stores those groups. *)
From Stdlib Require Import ZArith Lia.
From stdpp Require Import base list gmap strings.
From S2P Require Import Prelude GoPtr NativeMem ParamValues Retention NativeReport ModelReport ReportFacts.

(** ** What is set is read *)

Definition feeText {L} (m : Mem L) (fee : MonetaryAmount) : option (ParamValues.Fee * string) :=
  (fun s => (Amount fee, s)) <$> assetText m (Currency fee).
Definition sameReportOperationValues {L} (m m' : Mem L) (vs vs' : ExecutionReportOperationValues) : Prop :=
  vrop_Instrument vs' ≫= instrumentText m' = vrop_Instrument vs ≫= instrumentText m /\
  vrop_AccountID vs' = vrop_AccountID vs /\ vrop_Side vs' = vrop_Side vs.
Definition sameFillValues {L} (m m' : Mem L) (vs vs' : ExecutionReportFillValues) : Prop :=
  vfl_LastTrade vs' = vfl_LastTrade vs /\
  vfl_Fee vs' ≫= feeText m' = vfl_Fee vs ≫= feeText m /\
  vfl_RemainingReservedQuantity vs' = vfl_RemainingReservedQuantity vs /\
  vfl_Lock vs' = vfl_Lock vs ≫= CloneBytes /\
  vfl_IsFinal vs' = vfl_IsFinal vs.

Lemma reportOperation_fields vs :
  let n := ExecutionReportOperation.value (ExecutionReportOperation.setValues
             (ExecutionReportOperation.mk NewExecutionReportOperation zeroInstrument) vs) in
  rop_instrument n = default zeroOpenPitInstrument (InstrumentHandle <$> vrop_Instrument vs) /\
  NewAccountIDOptionFromHandle (rop_account_id n) = vrop_AccountID vs /\
  rop_side n = default ParamSideNotSet (vrop_Side vs).
Proof. by destruct vs as [[?|] [?|] [?|]]. Qed.
Lemma reportOperation_roundtrip {L} (m : Mem L) vs :
  memOk m -> (forall i, vrop_Instrument vs = Some i -> instrumentLive m i) ->
  (forall s, vrop_Side vs = Some s -> validSide s = true) ->
  exists c vs' m', ExecutionReportOperation.NewExecutionReportOperationFromValues vs m = inr (c, m) /\
    ExecutionReportOperation.Values c m = inr (vs', m') /\
    extends m m' /\ sameReportOperationValues m m' vs vs'.
Proof.
  intros Hm Hi Hs. destruct (reportOperation_fields vs) as (E1 & E2 & E3).
  destruct (reads_instrument_option m (vrop_Instrument vs) Hm Hi) as (o & m' & E & _ & Hx & _ & Ho).
  exists (ExecutionReportOperation.setValues
            (ExecutionReportOperation.mk NewExecutionReportOperation zeroInstrument) vs).
  exists (mkExecutionReportOperationValues o (vrop_AccountID vs) (vrop_Side vs)), m'.
  split; [done|]. split; [|by split_and!].
  unfold ExecutionReportOperation.Values, ExecutionReportOperation.Instrument,
    ExecutionReportOperation.Side, ExecutionReportOperation.AccountID, mbind', mret,
    ExecutionReportOperationGetInstrument, ExecutionReportOperationGetSide, ExecutionReportOperationGetAccountID.
  rewrite E1, E2, E3, E. destruct (vrop_Side vs) as [s|]; [|done]. cbn [default].
  by rewrite Side_roundtrip by auto.
Qed.

Lemma positionImpact_roundtrip {L} (m : Mem L) vs :
  (forall s, vpi_PositionEffect vs = Some s -> validPositionEffect s = true) ->
  (forall s, vpi_PositionSide vs = Some s -> validPositionSide s = true) ->
  ExecutionReportPositionImpact.Values
    (ExecutionReportPositionImpact.NewExecutionReportPositionImpactFromValues vs) m = inr (vs, m).
Proof.
  intros H1 H2. destruct vs as [e s]. unfold ExecutionReportPositionImpact.Values,
    ExecutionReportPositionImpact.PositionEffect, ExecutionReportPositionImpact.PositionSide,
    ExecutionReportPositionImpactGetPositionEffect, ExecutionReportPositionImpactGetPositionSide, mbind'.
  assert (newPositionEffectFromHandle (default ParamPositionEffectNotSet e) m = inr (e, m)) as E1
    by (destruct e; [by apply PositionEffect_roundtrip, H1|done]).
  assert (NewPositionSideFromHandle (default ParamPositionSideNotSet s) m = inr (s, m)) as E2
    by (destruct s; [by apply PositionSide_roundtrip, H2|done]).
  destruct e, s; cbn in *; rewrite ?E1; cbn; rewrite ?E2; done.
Qed.

(** A fill before its lock is set: the other fields. *)
Lemma fill_fields vs :
  let f := whenSome (vfl_LastTrade vs) ExecutionReportFill.SetLastTrade
             (ExecutionReportFill.mk NewExecutionReportFill None None) in
  let f := whenSome (vfl_Fee vs) ExecutionReportFill.SetFee f in
  let f := whenSome (vfl_RemainingReservedQuantity vs) ExecutionReportFill.SetRemainingReservedQuantity f in
  let g := whenSome (vfl_IsFinal vs) ExecutionReportFill.SetIsFinal f in
  ExecutionReportFill.LastTrade g = vfl_LastTrade vs /\
  ExecutionReportFill.RemainingReservedQuantity g = vfl_RemainingReservedQuantity vs /\
  ExecutionReportFill.IsFinal g = vfl_IsFinal vs /\
  fl_fee (ExecutionReportFill.value g) =
    default NewParamMonetaryAmountOptionalUnset
      ((fun fee => NewParamMonetaryAmountOptionalSet (MonetaryAmountHandle fee)) <$> vfl_Fee vs) /\
  ExecutionReportFill.retainFeeCurrency g = (vfl_Fee vs ≫= Currency).
Proof. by destruct vs as [[[]|] [?|] [?|] ? [?|]]. Qed.

Definition withLock (o : option executionReportFillLockOwner) (f : ExecutionReportFill.t) : ExecutionReportFill.t :=
  ExecutionReportFill.mk (ExecutionReportFillSetLock (ExecutionReportFill.value f) (handle <$> o))
    (ExecutionReportFill.retainFeeCurrency f) o.
(** The fill [setValues] builds but for its lock. *)
Definition builtFill (vs : ExecutionReportFillValues) : ExecutionReportFill.t :=
  let f := whenSome (vfl_LastTrade vs) ExecutionReportFill.SetLastTrade
             (ExecutionReportFill.mk NewExecutionReportFill None None) in
  let f := whenSome (vfl_Fee vs) ExecutionReportFill.SetFee f in
  let f := whenSome (vfl_RemainingReservedQuantity vs) ExecutionReportFill.SetRemainingReservedQuantity f in
  whenSome (vfl_IsFinal vs) ExecutionReportFill.SetIsFinal f.

Section FillRoundtrip.
Context {L : Type} (decode : string -> string + L) (encode : L -> string).

(** A raw lock that decodes, to a lock with that raw form. *)
Definition readsBack (raw : string) : Prop :=
  raw = EmptyString \/ exists l, decode raw = inr l /\ encode l = raw.

Lemma fill_built (m : Mem L) vs :
  memOk m -> (forall raw, vfl_Lock vs = Some raw -> readsBack raw) ->
  exists o m', ExecutionReportFill.NewExecutionReportFillFromValues decode vs m
      = inr (inr (withLock o (builtFill vs)), m') /\ memOk m' /\ extends m m' /\
    readsLock m' encode (fun mm => inr (vfl_Lock vs ≫= CloneBytes, mm)) (handle <$> o) /\
    (o = None -> vfl_Lock vs ≫= CloneBytes = None).
Proof.
  intros Hm Hr. unfold ExecutionReportFill.NewExecutionReportFillFromValues,
    ExecutionReportFill.setValues, ExecutionReportFill.SetLock, setExecutionReportFillLock,
    CreatePretradePreTradeLockFromRaw, mbind', mret, builtFill.
  destruct vs as [t f q [raw|] b]; cbn [vfl_Lock vfl_LastTrade vfl_Fee vfl_RemainingReservedQuantity vfl_IsFinal] in *.
  - destruct (Hr raw eq_refl) as [->|(l & Hd & He)].
    + exists None, m. split; [by destruct t as [[]|], f, q, b|]. by split_and!.
    + destruct (String.length raw =? 0) eqn:El.
      { exists None, m. change (default EmptyString (Some raw)) with raw. rewrite El. split; [by destruct t as [[]|], f, q, b|].
        change (Some raw ≫= CloneBytes) with (CloneBytes raw). unfold CloneBytes. rewrite El.
        by split_and!. }
      destruct (allocLock_spec m l Hm) as (h & m' & E & Hm' & Hx & Hh & _).
      exists (Some (mkLockOwner h)), m'. change (default EmptyString (Some raw)) with raw. rewrite El, Hd.
      split; [destruct t as [[]|], f, q, b; cbn; by rewrite E|].
      split_and!; [done..| |done]. exists l. by rewrite He.
  - exists None, m. split; [by destruct t as [[]|], f, q, b|]. by split_and!.
Qed.

Lemma fee_roundtrip (m m1 : Mem L) (o : option MonetaryAmount) :
  memOk m1 -> extends m m1 -> (forall fee, o = Some fee -> assetLive m (Currency fee)) ->
  exists r m2, NewMonetaryAmountOptionFromHandle (default NewParamMonetaryAmountOptionalUnset
      ((fun fee => NewParamMonetaryAmountOptionalSet (MonetaryAmountHandle fee)) <$> o)) m1 = inr (r, m2) /\
    extends m1 m2 /\ r ≫= feeText m2 = o ≫= feeText m.
Proof.
  intros Hm1 Hx Ha. destruct o as [fee|]; [|by exists None, m1]. specialize (Ha fee eq_refl).
  pose proof (extends_assetLive m m1 _ Hx Ha) as Ha1.
  destruct (read_fee m1 (NewParamMonetaryAmountOptionalSet (MonetaryAmountHandle fee)) (Currency fee) Hm1 Ha1)
    as (r & m2 & E & _ & Hx2 & Hr & Hn); [apply viewOf_handle|].
  exists r, m2. split; [exact E|]. split; [exact Hx2|]. cbn in Hr, Hn.
  rewrite viewText_handle, (extends_assetText m m1) in Hr by done. unfold feeText.
  destruct r as [fee'|]; cbn.
  - destruct (Hr fee' eq_refl) as (_ & -> & ->). done.
  - destruct (proj1 Hn eq_refl) as [|Hu]; [done|]. rewrite <- (extends_assetText m m1), <- viewText_handle by done.
    unfold viewText. by rewrite Hu.
Qed.

Lemma fill_roundtrip (m : Mem L) vs :
  memOk m -> (forall fee, vfl_Fee vs = Some fee -> assetLive m (Currency fee)) ->
  (forall raw, vfl_Lock vs = Some raw -> readsBack raw) ->
  exists f m1 vs' m2, ExecutionReportFill.NewExecutionReportFillFromValues decode vs m = inr (inr f, m1) /\
    ExecutionReportFill.Values encode f m1 = inr (vs', m2) /\
    extends m1 m2 /\ sameFillValues m m2 vs vs'.
Proof.
  intros Hm Ha Hr. destruct (fill_built m vs Hm Hr) as (o & m1 & E & Hm1 & Hx & Hl & Hn).
  destruct (fill_fields vs) as (F1 & F2 & F3 & F4 & _).
  destruct (fee_roundtrip m m1 (vfl_Fee vs) Hm1 Hx Ha) as (r & m2 & Ef & Hx2 & Hf).
  assert (executionReportFillLockBytes encode (handle <$> o) m2 = inr (vfl_Lock vs ≫= CloneBytes, m2)) as El.
  { destruct o as [[h]|]; cbn in *; [|by rewrite Hn].
    destruct Hl as (l & Hh & [= Hc]). unfold PretradePreTradeLockToRaw, readLock, mbind'.
    rewrite (lookup_weaken _ _ _ _ Hh (proj1 (proj2 Hx2))). cbn. by rewrite Hc. }
  exists (withLock o (builtFill vs)), m1, (mkExecutionReportFillValues (vfl_LastTrade vs) r
    (vfl_RemainingReservedQuantity vs) (vfl_Lock vs ≫= CloneBytes) (vfl_IsFinal vs)), m2.
  split; [exact E|]. split; [|split; [exact Hx2|by split_and!]].
  unfold ExecutionReportFill.Values, ExecutionReportFill.Fee, ExecutionReportFill.Lock,
    ExecutionReportFillGetFee, ExecutionReportFillGetLock, mbind', mret.
  change (fl_fee (ExecutionReportFill.value (withLock o (builtFill vs)))) with
    (fl_fee (ExecutionReportFill.value (builtFill vs))).
  change (fl_lock (ExecutionReportFill.value (withLock o (builtFill vs)))) with (handle <$> o).
  cbv zeta in F1, F2, F3, F4. fold (builtFill vs) in F1, F2, F3, F4. rewrite F4, Ef, El.
  rewrite <- F1, <- F2, <- F3. done.
Qed.
End FillRoundtrip.

Lemma report_roundtrip {L} (m : Mem L) vs :
  (forall f, rv_Fill vs = Some f -> fillOk f) ->
  exists r, ExecutionReport.NewExecutionReportFromValues vs m = inr (r, m) /\
    storedOperation r = rv_Operation vs /\ ExecutionReport.FinancialImpact r = rv_FinancialImpact vs /\
    storedFill r = rv_Fill vs /\ ExecutionReport.PositionImpact r = rv_PositionImpact vs /\
    forall r0, ExecutionReport.SetValues r0 vs m = inr (r, m).
Proof.
  intros Hf. destruct vs as [c fi [f|] pi].
  - eexists. unfold ExecutionReport.NewExecutionReportFromValues, ExecutionReport.SetValues,
      ExecutionReport.setValues, mbind', mret. cbn [rv_Fill rv_Operation rv_FinancialImpact rv_PositionImpact].
    rewrite setFill_owned by (by apply Hf). split; [reflexivity|].
    split_and!; [by destruct c as [[]|], fi as [[]|], f, pi as [[]|]..|].
    intros r0. rewrite setFill_owned by (by apply Hf). by destruct c, fi, pi.
  - eexists. split; [reflexivity|]. by split_and!; [destruct c as [[]|], fi as [[]|], pi as [[]|]..|].
Qed.

(** A group built from values returns those values, a fill with its lock, the
    texts and the raw lock equal and everything not given unset; a report built from
    groups stores those groups, and neither depends on what the receiver of
    [SetValues] held before. *)
Theorem report_values_roundtrip {L} (decode : string -> string + L) (encode : L -> string) (m : Mem L) :
  memOk m ->
  (forall vs, (forall i, vrop_Instrument vs = Some i -> instrumentLive m i) ->
     (forall s, vrop_Side vs = Some s -> validSide s = true) ->
     exists c vs' m', ExecutionReportOperation.NewExecutionReportOperationFromValues vs m = inr (c, m) /\
       ExecutionReportOperation.Values c m = inr (vs', m') /\
       extends m m' /\ sameReportOperationValues m m' vs vs') /\
  (forall vs, ExecutionReportFinancialImpact.Values
     (ExecutionReportFinancialImpact.NewExecutionReportFinancialImpactFromValues vs) = vs) /\
  (forall vs, (forall fee, vfl_Fee vs = Some fee -> assetLive m (Currency fee)) ->
     (forall raw, vfl_Lock vs = Some raw -> readsBack decode encode raw) ->
     exists f m1 vs' m2, ExecutionReportFill.NewExecutionReportFillFromValues decode vs m = inr (inr f, m1) /\
       (forall f0, ExecutionReportFill.SetValues decode f0 vs m = inr (None, f, m1)) /\
       ExecutionReportFill.Values encode f m1 = inr (vs', m2) /\
       extends m1 m2 /\ sameFillValues m m2 vs vs') /\
  (forall vs, (forall s, vpi_PositionEffect vs = Some s -> validPositionEffect s = true) ->
     (forall s, vpi_PositionSide vs = Some s -> validPositionSide s = true) ->
     ExecutionReportPositionImpact.Values
       (ExecutionReportPositionImpact.NewExecutionReportPositionImpactFromValues vs) m = inr (vs, m)) /\
  (forall vs, (forall f, rv_Fill vs = Some f -> fillOk f) ->
     exists r, ExecutionReport.NewExecutionReportFromValues vs m = inr (r, m) /\
       storedOperation r = rv_Operation vs /\ ExecutionReport.FinancialImpact r = rv_FinancialImpact vs /\
       storedFill r = rv_Fill vs /\ ExecutionReport.PositionImpact r = rv_PositionImpact vs /\
       forall r0, ExecutionReport.SetValues r0 vs m = inr (r, m)).
Proof.
  intros Hm. split_and!.
  - intros vs Hi Hs. by apply reportOperation_roundtrip.
  - by intros [[?|] [?|]].
  - intros vs Ha Hr. destruct (fill_roundtrip decode encode m vs Hm Ha Hr) as (f & m1 & vs' & m2 & E & H).
    exists f, m1, vs', m2. split; [exact E|]. split; [|exact H].
    intros f0. unfold ExecutionReportFill.SetValues, mbind'. by rewrite E.
  - intros vs. apply positionImpact_roundtrip.
  - apply report_roundtrip.
Qed.

Lemma report_values_roundtrip_witness :
  memOk demoLockMem /\
  exists f m1 vs' m2,
    ExecutionReportFill.NewExecutionReportFillFromValues demoDecode
      (mkExecutionReportFillValues None None None (Some "xyz"%string) (Some true)) demoLockMem = inr (inr f, m1) /\
    ExecutionReportFill.Values (fun l => l) f m1 = inr (vs', m2) /\
    vfl_Lock vs' = Some "xyz"%string /\ vfl_IsFinal vs' = Some true.
Proof.
  assert (memOk demoLockMem) as Hm.
  { split; intros p [s Hp]; unfold demoLockMem in *; cbn in *; [done|].
    rewrite lookup_insert_Some in Hp. naive_solver lia. }
  split; [exact Hm|].
  destruct (report_values_roundtrip demoDecode (fun l => l) demoLockMem Hm) as (_ & _ & H & _).
  destruct (H (mkExecutionReportFillValues None None None (Some "xyz"%string) (Some true)))
    as (f & m1 & vs' & m2 & E & _ & Ev & _ & (_ & _ & _ & El & Eb)).
  - done.
  - intros raw [= <-]. right. by exists "xyz"%string.
  - exists f, m1, vs', m2. by split_and!.
Defined.
