(* ===== verification/NativeAdjustment.v ===== *)
(** * The native account adjustment record

    [OpenPitAccountAdjustment] of internal/native/openpit.h and the accessors of
    internal/native/account_adjustment.go, one definition per Go function. The
    operation is a kind and one payload per kind. *)
From Stdlib Require Import ZArith.
From stdpp Require Import base tactics.
From S2P Require Import Prelude GoPtr NativeMem ParamValues.

(** ** Operations *)

Record OpenPitAccountAdjustmentBalanceOperation := mkAccountAdjustmentBalanceOperation {
  bo_asset : StringView;
  bo_average_entry_price : ParamPriceOptional;
  bo_realized_pnl : PnlStateOptional;
}.
Definition NewAccountAdjustmentBalanceOperation : OpenPitAccountAdjustmentBalanceOperation :=
  mkAccountAdjustmentBalanceOperation stringViewNone (zeroCOptional zeroDecimal) (zeroCOptional
    zeroOpenPitPnlState).
Definition AccountAdjustmentBalanceOperationReset (operation : OpenPitAccountAdjustmentBalanceOperation)
    : OpenPitAccountAdjustmentBalanceOperation :=
  NewAccountAdjustmentBalanceOperation.
Definition AccountAdjustmentBalanceOperationGetAsset
    (operation : OpenPitAccountAdjustmentBalanceOperation) : StringView :=
  bo_asset operation.
Definition AccountAdjustmentBalanceOperationSetAsset
    (operation : OpenPitAccountAdjustmentBalanceOperation) (value : GoString)
    : OpenPitAccountAdjustmentBalanceOperation :=
  mkAccountAdjustmentBalanceOperation (importString value) (bo_average_entry_price operation)
    (bo_realized_pnl operation).
Definition AccountAdjustmentBalanceOperationUnsetAsset
    (operation : OpenPitAccountAdjustmentBalanceOperation) : OpenPitAccountAdjustmentBalanceOperation :=
  mkAccountAdjustmentBalanceOperation stringViewNone (bo_average_entry_price operation)
    (bo_realized_pnl operation).
Definition AccountAdjustmentBalanceOperationGetAverageEntryPrice
    (operation : OpenPitAccountAdjustmentBalanceOperation) : ParamPriceOptional :=
  bo_average_entry_price operation.
Definition AccountAdjustmentBalanceOperationSetAverageEntryPrice
    (operation : OpenPitAccountAdjustmentBalanceOperation) (value : ParamPrice)
    : OpenPitAccountAdjustmentBalanceOperation :=
  mkAccountAdjustmentBalanceOperation (bo_asset operation)
    (setCOptional value (bo_average_entry_price operation)) (bo_realized_pnl operation).
Definition AccountAdjustmentBalanceOperationUnsetAverageEntryPrice
    (operation : OpenPitAccountAdjustmentBalanceOperation) : OpenPitAccountAdjustmentBalanceOperation :=
  mkAccountAdjustmentBalanceOperation (bo_asset operation) (zeroCOptional zeroDecimal)
    (bo_realized_pnl operation).
Definition AccountAdjustmentBalanceOperationGetRealizedPnl
    (operation : OpenPitAccountAdjustmentBalanceOperation) : PnlStateOptional :=
  bo_realized_pnl operation.
Definition AccountAdjustmentBalanceOperationSetRealizedPnl
    (operation : OpenPitAccountAdjustmentBalanceOperation) (value : OpenPitPnlState)
    : OpenPitAccountAdjustmentBalanceOperation :=
  mkAccountAdjustmentBalanceOperation (bo_asset operation) (bo_average_entry_price operation)
    (setCOptional value (bo_realized_pnl operation)).
Definition AccountAdjustmentBalanceOperationUnsetRealizedPnl
    (operation : OpenPitAccountAdjustmentBalanceOperation) : OpenPitAccountAdjustmentBalanceOperation :=
  mkAccountAdjustmentBalanceOperation (bo_asset operation) (bo_average_entry_price operation)
    (zeroCOptional zeroOpenPitPnlState).

Record OpenPitAccountAdjustmentPositionOperation := mkAccountAdjustmentPositionOperation {
  po_instrument : OpenPitInstrument;
  po_collateral_asset : StringView;
  po_average_entry_price : ParamPriceOptional;
  po_leverage : ParamLeverage;
  po_mode : ParamPositionMode;
}.
Definition NewAccountAdjustmentPositionOperation : OpenPitAccountAdjustmentPositionOperation :=
  mkAccountAdjustmentPositionOperation zeroOpenPitInstrument stringViewNone (zeroCOptional zeroDecimal)
    ParamLeverageNotSet ParamPositionModeNotSet.
Definition AccountAdjustmentPositionOperationReset
    (operation : OpenPitAccountAdjustmentPositionOperation)
    : OpenPitAccountAdjustmentPositionOperation :=
  NewAccountAdjustmentPositionOperation.
Definition AccountAdjustmentPositionOperationGetInstrument
    (operation : OpenPitAccountAdjustmentPositionOperation) : OpenPitInstrument :=
  po_instrument operation.
Definition AccountAdjustmentPositionOperationSetInstrument
    (operation : OpenPitAccountAdjustmentPositionOperation) (value : OpenPitInstrument)
    : OpenPitAccountAdjustmentPositionOperation :=
  mkAccountAdjustmentPositionOperation value (po_collateral_asset operation)
    (po_average_entry_price operation) (po_leverage operation) (po_mode operation).
Definition AccountAdjustmentPositionOperationUnsetInstrument
    (operation : OpenPitAccountAdjustmentPositionOperation)
    : OpenPitAccountAdjustmentPositionOperation :=
  mkAccountAdjustmentPositionOperation zeroOpenPitInstrument (po_collateral_asset operation)
    (po_average_entry_price operation) (po_leverage operation) (po_mode operation).
Definition AccountAdjustmentPositionOperationGetCollateralAsset
    (operation : OpenPitAccountAdjustmentPositionOperation) : StringView :=
  po_collateral_asset operation.
Definition AccountAdjustmentPositionOperationSetCollateralAsset
    (operation : OpenPitAccountAdjustmentPositionOperation) (value : GoString)
    : OpenPitAccountAdjustmentPositionOperation :=
  mkAccountAdjustmentPositionOperation (po_instrument operation) (importString value)
    (po_average_entry_price operation) (po_leverage operation) (po_mode operation).
Definition AccountAdjustmentPositionOperationUnsetCollateralAsset
    (operation : OpenPitAccountAdjustmentPositionOperation)
    : OpenPitAccountAdjustmentPositionOperation :=
  mkAccountAdjustmentPositionOperation (po_instrument operation) stringViewNone
    (po_average_entry_price operation) (po_leverage operation) (po_mode operation).
Definition AccountAdjustmentPositionOperationGetAverageEntryPrice
    (operation : OpenPitAccountAdjustmentPositionOperation) : ParamPriceOptional :=
  po_average_entry_price operation.
Definition AccountAdjustmentPositionOperationSetAverageEntryPrice
    (operation : OpenPitAccountAdjustmentPositionOperation) (value : ParamPrice)
    : OpenPitAccountAdjustmentPositionOperation :=
  mkAccountAdjustmentPositionOperation (po_instrument operation) (po_collateral_asset operation)
    (setCOptional value (po_average_entry_price operation)) (po_leverage operation) (po_mode operation).
Definition AccountAdjustmentPositionOperationUnsetAverageEntryPrice
    (operation : OpenPitAccountAdjustmentPositionOperation)
    : OpenPitAccountAdjustmentPositionOperation :=
  mkAccountAdjustmentPositionOperation (po_instrument operation) (po_collateral_asset operation)
    (zeroCOptional zeroDecimal) (po_leverage operation) (po_mode operation).
Definition AccountAdjustmentPositionOperationGetLeverage
    (operation : OpenPitAccountAdjustmentPositionOperation) : ParamLeverage :=
  po_leverage operation.
Definition AccountAdjustmentPositionOperationSetLeverage
    (operation : OpenPitAccountAdjustmentPositionOperation) (value : ParamLeverage)
    : OpenPitAccountAdjustmentPositionOperation :=
  mkAccountAdjustmentPositionOperation (po_instrument operation) (po_collateral_asset operation)
    (po_average_entry_price operation) value (po_mode operation).
Definition AccountAdjustmentPositionOperationUnsetLeverage
    (operation : OpenPitAccountAdjustmentPositionOperation)
    : OpenPitAccountAdjustmentPositionOperation :=
  mkAccountAdjustmentPositionOperation (po_instrument operation) (po_collateral_asset operation)
    (po_average_entry_price operation) ParamLeverageNotSet (po_mode operation).
Definition AccountAdjustmentPositionOperationGetMode
    (operation : OpenPitAccountAdjustmentPositionOperation) : ParamPositionMode :=
  po_mode operation.
Definition AccountAdjustmentPositionOperationSetMode
    (operation : OpenPitAccountAdjustmentPositionOperation) (value : ParamPositionMode)
    : OpenPitAccountAdjustmentPositionOperation :=
  mkAccountAdjustmentPositionOperation (po_instrument operation) (po_collateral_asset operation)
    (po_average_entry_price operation) (po_leverage operation) value.
Definition AccountAdjustmentPositionOperationUnsetMode
    (operation : OpenPitAccountAdjustmentPositionOperation)
    : OpenPitAccountAdjustmentPositionOperation :=
  mkAccountAdjustmentPositionOperation (po_instrument operation) (po_collateral_asset operation)
    (po_average_entry_price operation) (po_leverage operation) ParamPositionModeNotSet.

Record OpenPitAccountAdjustmentAccountPnlOperation := mkAccountAdjustmentAccountPnlOperation {
  apo_state : OpenPitPnlState;
}.
Definition zeroAccountAdjustmentAccountPnlOperation : OpenPitAccountAdjustmentAccountPnlOperation :=
  mkAccountAdjustmentAccountPnlOperation zeroOpenPitPnlState.
Definition NewAccountAdjustmentAccountPnlOperation (state : OpenPitPnlState)
    : OpenPitAccountAdjustmentAccountPnlOperation := mkAccountAdjustmentAccountPnlOperation state.
Definition AccountAdjustmentAccountPnlOperationReset
    (operation : OpenPitAccountAdjustmentAccountPnlOperation)
    : OpenPitAccountAdjustmentAccountPnlOperation := zeroAccountAdjustmentAccountPnlOperation.
Definition AccountAdjustmentAccountPnlOperationGetState
    (operation : OpenPitAccountAdjustmentAccountPnlOperation) : OpenPitPnlState := apo_state operation.

(** ** Amounts and bounds *)

Record OpenPitAccountAdjustmentAmount := mkAccountAdjustmentAmount {
  am_balance : ParamAdjustmentAmount;
  am_held : ParamAdjustmentAmount;
  am_incoming : ParamAdjustmentAmount;
}.
Definition NewAccountAdjustmentAmount : OpenPitAccountAdjustmentAmount :=
  mkAccountAdjustmentAmount zeroAdjustmentAmount zeroAdjustmentAmount zeroAdjustmentAmount.
Definition AccountAdjustmentAmountReset (amount : OpenPitAccountAdjustmentAmount)
    : OpenPitAccountAdjustmentAmount :=
  NewAccountAdjustmentAmount.
Definition AccountAdjustmentAmountGetBalance (amount : OpenPitAccountAdjustmentAmount)
    : ParamAdjustmentAmount :=
  am_balance amount.
Definition AccountAdjustmentAmountSetBalance (amount : OpenPitAccountAdjustmentAmount)
    (value : ParamAdjustmentAmount) : OpenPitAccountAdjustmentAmount :=
  mkAccountAdjustmentAmount value (am_held amount) (am_incoming amount).
Definition AccountAdjustmentAmountUnsetBalance (amount : OpenPitAccountAdjustmentAmount)
    : OpenPitAccountAdjustmentAmount :=
  mkAccountAdjustmentAmount zeroAdjustmentAmount (am_held amount) (am_incoming amount).
Definition AccountAdjustmentAmountGetHeld (amount : OpenPitAccountAdjustmentAmount)
    : ParamAdjustmentAmount :=
  am_held amount.
Definition AccountAdjustmentAmountSetHeld (amount : OpenPitAccountAdjustmentAmount)
    (value : ParamAdjustmentAmount) : OpenPitAccountAdjustmentAmount :=
  mkAccountAdjustmentAmount (am_balance amount) value (am_incoming amount).
Definition AccountAdjustmentAmountUnsetHeld (amount : OpenPitAccountAdjustmentAmount)
    : OpenPitAccountAdjustmentAmount :=
  mkAccountAdjustmentAmount (am_balance amount) zeroAdjustmentAmount (am_incoming amount).
Definition AccountAdjustmentAmountGetIncoming (amount : OpenPitAccountAdjustmentAmount)
    : ParamAdjustmentAmount :=
  am_incoming amount.
Definition AccountAdjustmentAmountSetIncoming (amount : OpenPitAccountAdjustmentAmount)
    (value : ParamAdjustmentAmount) : OpenPitAccountAdjustmentAmount :=
  mkAccountAdjustmentAmount (am_balance amount) (am_held amount) value.
Definition AccountAdjustmentAmountUnsetIncoming (amount : OpenPitAccountAdjustmentAmount)
    : OpenPitAccountAdjustmentAmount :=
  mkAccountAdjustmentAmount (am_balance amount) (am_held amount) zeroAdjustmentAmount.

Record OpenPitAccountAdjustmentBounds := mkAccountAdjustmentBounds {
  bd_balance_upper : ParamPositionSizeOptional;
  bd_balance_lower : ParamPositionSizeOptional;
  bd_held_upper : ParamPositionSizeOptional;
  bd_held_lower : ParamPositionSizeOptional;
  bd_incoming_upper : ParamPositionSizeOptional;
  bd_incoming_lower : ParamPositionSizeOptional;
}.
Definition NewAccountAdjustmentBounds : OpenPitAccountAdjustmentBounds :=
  mkAccountAdjustmentBounds (zeroCOptional zeroDecimal) (zeroCOptional zeroDecimal) (zeroCOptional
    zeroDecimal) (zeroCOptional zeroDecimal) (zeroCOptional zeroDecimal) (zeroCOptional zeroDecimal).
Definition AccountAdjustmentBoundsReset (bounds : OpenPitAccountAdjustmentBounds)
    : OpenPitAccountAdjustmentBounds :=
  NewAccountAdjustmentBounds.
Definition AccountAdjustmentBoundsGetBalanceUpper (bounds : OpenPitAccountAdjustmentBounds)
    : ParamPositionSizeOptional :=
  bd_balance_upper bounds.
Definition AccountAdjustmentBoundsSetBalanceUpper (bounds : OpenPitAccountAdjustmentBounds)
    (value : ParamPositionSize) : OpenPitAccountAdjustmentBounds :=
  mkAccountAdjustmentBounds (setCOptional value (bd_balance_upper bounds)) (bd_balance_lower bounds)
    (bd_held_upper bounds) (bd_held_lower bounds) (bd_incoming_upper bounds) (bd_incoming_lower bounds).
Definition AccountAdjustmentBoundsUnsetBalanceUpper (bounds : OpenPitAccountAdjustmentBounds)
    : OpenPitAccountAdjustmentBounds :=
  mkAccountAdjustmentBounds (zeroCOptional zeroDecimal) (bd_balance_lower bounds) (bd_held_upper bounds)
    (bd_held_lower bounds) (bd_incoming_upper bounds) (bd_incoming_lower bounds).
Definition AccountAdjustmentBoundsGetBalanceLower (bounds : OpenPitAccountAdjustmentBounds)
    : ParamPositionSizeOptional :=
  bd_balance_lower bounds.
Definition AccountAdjustmentBoundsSetBalanceLower (bounds : OpenPitAccountAdjustmentBounds)
    (value : ParamPositionSize) : OpenPitAccountAdjustmentBounds :=
  mkAccountAdjustmentBounds (bd_balance_upper bounds) (setCOptional value (bd_balance_lower bounds))
    (bd_held_upper bounds) (bd_held_lower bounds) (bd_incoming_upper bounds) (bd_incoming_lower bounds).
Definition AccountAdjustmentBoundsUnsetBalanceLower (bounds : OpenPitAccountAdjustmentBounds)
    : OpenPitAccountAdjustmentBounds :=
  mkAccountAdjustmentBounds (bd_balance_upper bounds) (zeroCOptional zeroDecimal) (bd_held_upper bounds)
    (bd_held_lower bounds) (bd_incoming_upper bounds) (bd_incoming_lower bounds).
Definition AccountAdjustmentBoundsGetHeldUpper (bounds : OpenPitAccountAdjustmentBounds)
    : ParamPositionSizeOptional :=
  bd_held_upper bounds.
Definition AccountAdjustmentBoundsSetHeldUpper (bounds : OpenPitAccountAdjustmentBounds)
    (value : ParamPositionSize) : OpenPitAccountAdjustmentBounds :=
  mkAccountAdjustmentBounds (bd_balance_upper bounds) (bd_balance_lower bounds)
    (setCOptional value (bd_held_upper bounds)) (bd_held_lower bounds) (bd_incoming_upper bounds)
    (bd_incoming_lower bounds).
Definition AccountAdjustmentBoundsUnsetHeldUpper (bounds : OpenPitAccountAdjustmentBounds)
    : OpenPitAccountAdjustmentBounds :=
  mkAccountAdjustmentBounds (bd_balance_upper bounds) (bd_balance_lower bounds)
    (zeroCOptional zeroDecimal) (bd_held_lower bounds) (bd_incoming_upper bounds)
    (bd_incoming_lower bounds).
Definition AccountAdjustmentBoundsGetHeldLower (bounds : OpenPitAccountAdjustmentBounds)
    : ParamPositionSizeOptional :=
  bd_held_lower bounds.
Definition AccountAdjustmentBoundsSetHeldLower (bounds : OpenPitAccountAdjustmentBounds)
    (value : ParamPositionSize) : OpenPitAccountAdjustmentBounds :=
  mkAccountAdjustmentBounds (bd_balance_upper bounds) (bd_balance_lower bounds) (bd_held_upper bounds)
    (setCOptional value (bd_held_lower bounds)) (bd_incoming_upper bounds) (bd_incoming_lower bounds).
Definition AccountAdjustmentBoundsUnsetHeldLower (bounds : OpenPitAccountAdjustmentBounds)
    : OpenPitAccountAdjustmentBounds :=
  mkAccountAdjustmentBounds (bd_balance_upper bounds) (bd_balance_lower bounds) (bd_held_upper bounds)
    (zeroCOptional zeroDecimal) (bd_incoming_upper bounds) (bd_incoming_lower bounds).
Definition AccountAdjustmentBoundsGetIncomingUpper (bounds : OpenPitAccountAdjustmentBounds)
    : ParamPositionSizeOptional :=
  bd_incoming_upper bounds.
Definition AccountAdjustmentBoundsSetIncomingUpper (bounds : OpenPitAccountAdjustmentBounds)
    (value : ParamPositionSize) : OpenPitAccountAdjustmentBounds :=
  mkAccountAdjustmentBounds (bd_balance_upper bounds) (bd_balance_lower bounds) (bd_held_upper bounds)
    (bd_held_lower bounds) (setCOptional value (bd_incoming_upper bounds)) (bd_incoming_lower bounds).
Definition AccountAdjustmentBoundsUnsetIncomingUpper (bounds : OpenPitAccountAdjustmentBounds)
    : OpenPitAccountAdjustmentBounds :=
  mkAccountAdjustmentBounds (bd_balance_upper bounds) (bd_balance_lower bounds) (bd_held_upper bounds)
    (bd_held_lower bounds) (zeroCOptional zeroDecimal) (bd_incoming_lower bounds).
Definition AccountAdjustmentBoundsGetIncomingLower (bounds : OpenPitAccountAdjustmentBounds)
    : ParamPositionSizeOptional :=
  bd_incoming_lower bounds.
Definition AccountAdjustmentBoundsSetIncomingLower (bounds : OpenPitAccountAdjustmentBounds)
    (value : ParamPositionSize) : OpenPitAccountAdjustmentBounds :=
  mkAccountAdjustmentBounds (bd_balance_upper bounds) (bd_balance_lower bounds) (bd_held_upper bounds)
    (bd_held_lower bounds) (bd_incoming_upper bounds) (setCOptional value (bd_incoming_lower bounds)).
Definition AccountAdjustmentBoundsUnsetIncomingLower (bounds : OpenPitAccountAdjustmentBounds)
    : OpenPitAccountAdjustmentBounds :=
  mkAccountAdjustmentBounds (bd_balance_upper bounds) (bd_balance_lower bounds) (bd_held_upper bounds)
    (bd_held_lower bounds) (bd_incoming_upper bounds) (zeroCOptional zeroDecimal).

Definition OpenPitAccountAdjustmentAmountOptional := COptional OpenPitAccountAdjustmentAmount.
Definition NewAccountAdjustmentAmountOptional : OpenPitAccountAdjustmentAmountOptional :=
  zeroCOptional NewAccountAdjustmentAmount.
Definition AccountAdjustmentAmountOptionalReset (value : OpenPitAccountAdjustmentAmountOptional)
    : OpenPitAccountAdjustmentAmountOptional :=
  mkCOptional (AccountAdjustmentAmountReset (c_value value)) false.
Definition AccountAdjustmentAmountOptionalIsSet (value : OpenPitAccountAdjustmentAmountOptional)
    : bool :=
  c_is_set value.
Definition AccountAdjustmentAmountOptionalGet (value : OpenPitAccountAdjustmentAmountOptional)
    : OpenPitAccountAdjustmentAmount :=
  c_value value.
Definition AccountAdjustmentAmountOptionalGetView {S}
    (value : Ptr S OpenPitAccountAdjustmentAmountOptional) : Ptr S OpenPitAccountAdjustmentAmount :=
  fieldPtr value c_value (fun v o => mkCOptional v (c_is_set o)).
Definition AccountAdjustmentAmountOptionalSet (value : OpenPitAccountAdjustmentAmountOptional)
    (x : OpenPitAccountAdjustmentAmount) : OpenPitAccountAdjustmentAmountOptional :=
  mkCOptional x true.

Definition OpenPitAccountAdjustmentBoundsOptional := COptional OpenPitAccountAdjustmentBounds.
Definition NewAccountAdjustmentBoundsOptional : OpenPitAccountAdjustmentBoundsOptional :=
  zeroCOptional NewAccountAdjustmentBounds.
Definition AccountAdjustmentBoundsOptionalReset (value : OpenPitAccountAdjustmentBoundsOptional)
    : OpenPitAccountAdjustmentBoundsOptional :=
  mkCOptional (AccountAdjustmentBoundsReset (c_value value)) false.
Definition AccountAdjustmentBoundsOptionalIsSet (value : OpenPitAccountAdjustmentBoundsOptional)
    : bool :=
  c_is_set value.
Definition AccountAdjustmentBoundsOptionalGet (value : OpenPitAccountAdjustmentBoundsOptional)
    : OpenPitAccountAdjustmentBounds :=
  c_value value.
Definition AccountAdjustmentBoundsOptionalGetView {S}
    (value : Ptr S OpenPitAccountAdjustmentBoundsOptional) : Ptr S OpenPitAccountAdjustmentBounds :=
  fieldPtr value c_value (fun v o => mkCOptional v (c_is_set o)).
Definition AccountAdjustmentBoundsOptionalSet (value : OpenPitAccountAdjustmentBoundsOptional)
    (x : OpenPitAccountAdjustmentBounds) : OpenPitAccountAdjustmentBoundsOptional :=
  mkCOptional x true.

(** ** The adjustment *)

Definition AccountAdjustmentOperationKind := Z.
Definition AccountAdjustmentOperationKindAbsent : AccountAdjustmentOperationKind := 0%Z.
Definition AccountAdjustmentOperationKindBalance : AccountAdjustmentOperationKind := 1%Z.
Definition AccountAdjustmentOperationKindPosition : AccountAdjustmentOperationKind := 2%Z.
Definition AccountAdjustmentOperationKindAccountPnl : AccountAdjustmentOperationKind := 3%Z.
Record OpenPitAccountAdjustmentOperation := mkAccountAdjustmentOperation {
  aop_kind : AccountAdjustmentOperationKind;
  aop_balance : OpenPitAccountAdjustmentBalanceOperation;
  aop_position : OpenPitAccountAdjustmentPositionOperation;
  aop_account_pnl : OpenPitAccountAdjustmentAccountPnlOperation;
}.
Record OpenPitAccountAdjustment := mkAccountAdjustment {
  a_operation : OpenPitAccountAdjustmentOperation;
  a_amount : OpenPitAccountAdjustmentAmountOptional;
  a_bounds : OpenPitAccountAdjustmentBoundsOptional;
  a_user_data : Z;
}.
Definition NewAccountAdjustment : OpenPitAccountAdjustment :=
  mkAccountAdjustment
    (mkAccountAdjustmentOperation AccountAdjustmentOperationKindAbsent NewAccountAdjustmentBalanceOperation
       NewAccountAdjustmentPositionOperation zeroAccountAdjustmentAccountPnlOperation)
    NewAccountAdjustmentAmountOptional NewAccountAdjustmentBoundsOptional 0%Z.
Definition AccountAdjustmentReset (adjustment : OpenPitAccountAdjustment) : OpenPitAccountAdjustment :=
  NewAccountAdjustment.
(** Writing [adjustment.operation]. *)
Definition withOperation (adjustment : OpenPitAccountAdjustment)
    (operation : OpenPitAccountAdjustmentOperation) : OpenPitAccountAdjustment :=
  mkAccountAdjustment operation (a_amount adjustment) (a_bounds adjustment) (a_user_data adjustment).
Definition AccountAdjustmentGetOperationKind (adjustment : OpenPitAccountAdjustment)
    : AccountAdjustmentOperationKind := aop_kind (a_operation adjustment).

Definition AccountAdjustmentGetBalanceOperation (adjustment : OpenPitAccountAdjustment)
    : OpenPitAccountAdjustmentBalanceOperation := aop_balance (a_operation adjustment).
Definition AccountAdjustmentGetBalanceOperationView {S} (adjustment : Ptr S OpenPitAccountAdjustment)
    : Ptr S OpenPitAccountAdjustmentBalanceOperation :=
  fieldPtr adjustment (fun a => aop_balance (a_operation a))
    (fun b a => withOperation a (mkAccountAdjustmentOperation (aop_kind (a_operation a)) b
                  (aop_position (a_operation a)) (aop_account_pnl (a_operation a)))).
Definition AccountAdjustmentSetBalanceOperationAndUnsetOtherOperations
    (adjustment : OpenPitAccountAdjustment) (operation : OpenPitAccountAdjustmentBalanceOperation)
    : OpenPitAccountAdjustment :=
  withOperation adjustment
    (mkAccountAdjustmentOperation AccountAdjustmentOperationKindBalance operation
       (AccountAdjustmentPositionOperationReset (aop_position (a_operation adjustment)))
       (AccountAdjustmentAccountPnlOperationReset (aop_account_pnl (a_operation adjustment)))).
Definition AccountAdjustmentSelectBalanceOperationAndUnsetOtherOperations
    (adjustment : OpenPitAccountAdjustment) : OpenPitAccountAdjustment :=
  let balance :=
    if negb (aop_kind (a_operation adjustment) =? AccountAdjustmentOperationKindBalance)%Z
    then AccountAdjustmentBalanceOperationReset (aop_balance (a_operation adjustment))
    else aop_balance (a_operation adjustment) in
  withOperation adjustment
    (mkAccountAdjustmentOperation AccountAdjustmentOperationKindBalance balance
       (AccountAdjustmentPositionOperationReset (aop_position (a_operation adjustment)))
       (AccountAdjustmentAccountPnlOperationReset (aop_account_pnl (a_operation adjustment)))).
Definition AccountAdjustmentUnsetBalanceOperation (adjustment : OpenPitAccountAdjustment)
    : OpenPitAccountAdjustment :=
  let kind :=
    if (aop_kind (a_operation adjustment) =? AccountAdjustmentOperationKindBalance)%Z
    then AccountAdjustmentOperationKindAbsent else aop_kind (a_operation adjustment) in
  withOperation adjustment
    (mkAccountAdjustmentOperation kind
       (AccountAdjustmentBalanceOperationReset (aop_balance (a_operation adjustment)))
       (aop_position (a_operation adjustment)) (aop_account_pnl (a_operation adjustment))).

Definition AccountAdjustmentGetPositionOperation (adjustment : OpenPitAccountAdjustment)
    : OpenPitAccountAdjustmentPositionOperation := aop_position (a_operation adjustment).
Definition AccountAdjustmentGetPositionOperationView {S} (adjustment : Ptr S OpenPitAccountAdjustment)
    : Ptr S OpenPitAccountAdjustmentPositionOperation :=
  fieldPtr adjustment (fun a => aop_position (a_operation a))
    (fun p a => withOperation a (mkAccountAdjustmentOperation (aop_kind (a_operation a))
                  (aop_balance (a_operation a)) p (aop_account_pnl (a_operation a)))).
Definition AccountAdjustmentSetPositionOperationAndUnsetOtherOperations
    (adjustment : OpenPitAccountAdjustment) (operation : OpenPitAccountAdjustmentPositionOperation)
    : OpenPitAccountAdjustment :=
  withOperation adjustment
    (mkAccountAdjustmentOperation AccountAdjustmentOperationKindPosition
       (AccountAdjustmentBalanceOperationReset (aop_balance (a_operation adjustment))) operation
       (AccountAdjustmentAccountPnlOperationReset (aop_account_pnl (a_operation adjustment)))).
Definition AccountAdjustmentSelectPositionOperationAndUnsetOtherOperations
    (adjustment : OpenPitAccountAdjustment) : OpenPitAccountAdjustment :=
  let position :=
    if negb (aop_kind (a_operation adjustment) =? AccountAdjustmentOperationKindPosition)%Z
    then AccountAdjustmentPositionOperationReset (aop_position (a_operation adjustment))
    else aop_position (a_operation adjustment) in
  withOperation adjustment
    (mkAccountAdjustmentOperation AccountAdjustmentOperationKindPosition
       (AccountAdjustmentBalanceOperationReset (aop_balance (a_operation adjustment))) position
       (AccountAdjustmentAccountPnlOperationReset (aop_account_pnl (a_operation adjustment)))).
Definition AccountAdjustmentUnsetPositionOperation (adjustment : OpenPitAccountAdjustment)
    : OpenPitAccountAdjustment :=
  let kind :=
    if (aop_kind (a_operation adjustment) =? AccountAdjustmentOperationKindPosition)%Z
    then AccountAdjustmentOperationKindAbsent else aop_kind (a_operation adjustment) in
  withOperation adjustment
    (mkAccountAdjustmentOperation kind (aop_balance (a_operation adjustment))
       (AccountAdjustmentPositionOperationReset (aop_position (a_operation adjustment)))
       (aop_account_pnl (a_operation adjustment))).

Definition AccountAdjustmentGetAccountPnlOperation (adjustment : OpenPitAccountAdjustment)
    : OpenPitAccountAdjustmentAccountPnlOperation := aop_account_pnl (a_operation adjustment).
Definition AccountAdjustmentSetAccountPnlOperationAndUnsetOtherOperations
    (adjustment : OpenPitAccountAdjustment) (operation : OpenPitAccountAdjustmentAccountPnlOperation)
    : OpenPitAccountAdjustment :=
  withOperation adjustment
    (mkAccountAdjustmentOperation AccountAdjustmentOperationKindAccountPnl
       (AccountAdjustmentBalanceOperationReset (aop_balance (a_operation adjustment)))
       (AccountAdjustmentPositionOperationReset (aop_position (a_operation adjustment))) operation).
Definition AccountAdjustmentUnsetAccountPnlOperation (adjustment : OpenPitAccountAdjustment)
    : OpenPitAccountAdjustment :=
  let kind :=
    if (aop_kind (a_operation adjustment) =? AccountAdjustmentOperationKindAccountPnl)%Z
    then AccountAdjustmentOperationKindAbsent else aop_kind (a_operation adjustment) in
  withOperation adjustment
    (mkAccountAdjustmentOperation kind (aop_balance (a_operation adjustment))
       (aop_position (a_operation adjustment))
       (AccountAdjustmentAccountPnlOperationReset (aop_account_pnl (a_operation adjustment)))).

Definition AccountAdjustmentGetUserData (adjustment : OpenPitAccountAdjustment) : Z :=
  a_user_data adjustment.
Definition AccountAdjustmentSetUserData (adjustment : OpenPitAccountAdjustment) (userData : Z)
    : OpenPitAccountAdjustment :=
  mkAccountAdjustment (a_operation adjustment) (a_amount adjustment) (a_bounds adjustment) userData.
Definition AccountAdjustmentGetAmount (adjustment : OpenPitAccountAdjustment)
    : OpenPitAccountAdjustmentAmountOptional :=
  a_amount adjustment.
Definition AccountAdjustmentGetAmountView {S} (adjustment : Ptr S OpenPitAccountAdjustment)
    : Ptr S OpenPitAccountAdjustmentAmountOptional :=
  fieldPtr adjustment a_amount (fun x r => mkAccountAdjustment (a_operation r) x (a_bounds r) (a_user_data r)).
Definition AccountAdjustmentSetAmount (adjustment : OpenPitAccountAdjustment)
    (x : OpenPitAccountAdjustmentAmount) : OpenPitAccountAdjustment :=
  mkAccountAdjustment (a_operation adjustment)
    (AccountAdjustmentAmountOptionalSet (a_amount adjustment) x) (a_bounds adjustment)
    (a_user_data adjustment).
Definition AccountAdjustmentUnsetAmount (adjustment : OpenPitAccountAdjustment)
    : OpenPitAccountAdjustment :=
  mkAccountAdjustment (a_operation adjustment)
    (AccountAdjustmentAmountOptionalReset (a_amount adjustment)) (a_bounds adjustment)
    (a_user_data adjustment).
Definition AccountAdjustmentGetBounds (adjustment : OpenPitAccountAdjustment)
    : OpenPitAccountAdjustmentBoundsOptional :=
  a_bounds adjustment.
Definition AccountAdjustmentGetBoundsView {S} (adjustment : Ptr S OpenPitAccountAdjustment)
    : Ptr S OpenPitAccountAdjustmentBoundsOptional :=
  fieldPtr adjustment a_bounds (fun x r => mkAccountAdjustment (a_operation r) (a_amount r) x (a_user_data r)).
Definition AccountAdjustmentSetBounds (adjustment : OpenPitAccountAdjustment)
    (x : OpenPitAccountAdjustmentBounds) : OpenPitAccountAdjustment :=
  mkAccountAdjustment (a_operation adjustment) (a_amount adjustment)
    (AccountAdjustmentBoundsOptionalSet (a_bounds adjustment) x) (a_user_data adjustment).
Definition AccountAdjustmentUnsetBounds (adjustment : OpenPitAccountAdjustment)
    : OpenPitAccountAdjustment :=
  mkAccountAdjustment (a_operation adjustment) (a_amount adjustment)
    (AccountAdjustmentBoundsOptionalReset (a_bounds adjustment)) (a_user_data adjustment).
