(* ===== verification/ModelAdjustment.v ===== *)
(** * Account adjustments

    [model.AccountAdjustment] and the groups it holds (model/account_adjustment.go,
    model/account_adjustment_pnl.go). The operation is one of three: setting or
    ensuring one of them selects it and clears the other two. *)
From Stdlib Require Import ZArith.
From stdpp Require Import base tactics list gmap strings.
From S2P Require Import Prelude GoPtr NativeMem ParamValues NativeAdjustment.

(** ** Values *)

Record AccountAdjustmentBalanceOperationValues := mkAccountAdjustmentBalanceOperationValues {
  vbo_Asset : option Asset;
  vbo_AverageEntryPrice : option Price;
  vbo_RealizedPnl : option PnlState;
}.
Record AccountAdjustmentPositionOperationValues := mkAccountAdjustmentPositionOperationValues {
  vpo_Instrument : option Instrument;
  vpo_CollateralAsset : option Asset;
  vpo_AverageEntryPrice : option Price;
  vpo_Leverage : option Leverage;
  vpo_Mode : option PositionMode;
}.
Record AccountAdjustmentAmountValues := mkAccountAdjustmentAmountValues {
  vam_Balance : option AdjustmentAmount;
  vam_Held : option AdjustmentAmount;
  vam_Incoming : option AdjustmentAmount;
}.
Record AccountAdjustmentBoundsValues := mkAccountAdjustmentBoundsValues {
  vbd_BalanceUpper : option PositionSize;
  vbd_BalanceLower : option PositionSize;
  vbd_HeldUpper : option PositionSize;
  vbd_HeldLower : option PositionSize;
  vbd_IncomingUpper : option PositionSize;
  vbd_IncomingLower : option PositionSize;
}.

(** ** Groups and their views *)

Module AccountAdjustmentBalanceOperation.
Record t := mk { value : OpenPitAccountAdjustmentBalanceOperation; retainAsset : Asset }.
Definition newAccountAdjustmentBalanceOperation (v : OpenPitAccountAdjustmentBalanceOperation) : t :=
  mk v None.
Definition NewAccountAdjustmentBalanceOperation : t :=
  newAccountAdjustmentBalanceOperation NativeAdjustment.NewAccountAdjustmentBalanceOperation.
Definition Reset (o : t) : t := mk (AccountAdjustmentBalanceOperationReset (value o)) None.
Definition Asset {L} (o : t) : MM L (option NativeMem.Asset) :=
  NewAssetFromHandle (AccountAdjustmentBalanceOperationGetAsset (value o)).
Definition SetAsset (o : t) (x : NativeMem.Asset) : t :=
  mk (AccountAdjustmentBalanceOperationSetAsset (value o) (AssetHandle x)) x.
Definition UnsetAsset (o : t) : t := mk (AccountAdjustmentBalanceOperationUnsetAsset (value o)) None.
Definition AverageEntryPrice (o : t) : option Price :=
  NewPriceOptionFromHandle (AccountAdjustmentBalanceOperationGetAverageEntryPrice (value o)).
Definition SetAverageEntryPrice (o : t) (x : Price) : t :=
  mk (AccountAdjustmentBalanceOperationSetAverageEntryPrice (value o) (PriceHandle x)) (retainAsset o).
Definition UnsetAverageEntryPrice (o : t) : t :=
  mk (AccountAdjustmentBalanceOperationUnsetAverageEntryPrice (value o)) (retainAsset o).
Definition RealizedPnl (o : t) : option PnlState :=
  let value := AccountAdjustmentBalanceOperationGetRealizedPnl (value o) in
  if negb (PnlStateOptionalIsSet value) then None
  else Some (NewPnlStateFromHandle (PnlStateOptionalGet value)).
Definition SetRealizedPnl (o : t) (x : PnlState) : t :=
  mk (AccountAdjustmentBalanceOperationSetRealizedPnl (value o) (PnlStateHandle x)) (retainAsset o).
Definition UnsetRealizedPnl (o : t) : t :=
  mk (AccountAdjustmentBalanceOperationUnsetRealizedPnl (value o)) (retainAsset o).
Definition Values {L} (o : t) : MM L AccountAdjustmentBalanceOperationValues :=
  do! vAsset <- Asset o;
  mret (mkAccountAdjustmentBalanceOperationValues vAsset (AverageEntryPrice o) (RealizedPnl o)).
Definition setValues (o : t) (values : AccountAdjustmentBalanceOperationValues) : t :=
  let o := whenSome (vbo_Asset values) SetAsset o in
  let o := whenSome (vbo_AverageEntryPrice values) SetAverageEntryPrice o in
  let o := whenSome (vbo_RealizedPnl values) SetRealizedPnl o in
  o.
Definition SetValues (o : t) (values : AccountAdjustmentBalanceOperationValues) : t :=
  setValues (Reset o) values.
Definition NewAccountAdjustmentBalanceOperationFromValues
    (values : AccountAdjustmentBalanceOperationValues) : t :=
  setValues NewAccountAdjustmentBalanceOperation values.
End AccountAdjustmentBalanceOperation.

Module AccountAdjustmentBalanceOperationView.
Section View.
Context {S : Type}.

Record t := mk { ref : Ptr S OpenPitAccountAdjustmentBalanceOperation; retainAsset : Ptr S Asset }.
Definition newAccountAdjustmentBalanceOperationView
    (ref : Ptr S OpenPitAccountAdjustmentBalanceOperation) (retainAsset : Ptr S Asset) : t :=
  mk ref retainAsset.
Definition Reset (o : t) (s : S) : S :=
  let s := update (ref o) AccountAdjustmentBalanceOperationReset s in
  assign (retainAsset o) None s.
Definition Asset {L} (o : t) (s : S) : MM L (option NativeMem.Asset) :=
  NewAssetFromHandle (AccountAdjustmentBalanceOperationGetAsset (deref (ref o) s)).
Definition SetAsset (o : t) (x : NativeMem.Asset) (s : S) : S :=
  let s := update (ref o) (fun n => AccountAdjustmentBalanceOperationSetAsset n (AssetHandle x)) s in
  assign (retainAsset o) x s.
Definition UnsetAsset (o : t) (s : S) : S :=
  let s := update (ref o) AccountAdjustmentBalanceOperationUnsetAsset s in
  assign (retainAsset o) None s.
Definition AverageEntryPrice (o : t) (s : S) : option Price :=
  NewPriceOptionFromHandle (AccountAdjustmentBalanceOperationGetAverageEntryPrice (deref (ref o) s)).
Definition SetAverageEntryPrice (o : t) (x : Price) (s : S) : S :=
  update (ref o) (fun n => AccountAdjustmentBalanceOperationSetAverageEntryPrice n (PriceHandle x)) s.
Definition UnsetAverageEntryPrice (o : t) (s : S) : S :=
  update (ref o) AccountAdjustmentBalanceOperationUnsetAverageEntryPrice s.
Definition RealizedPnl (o : t) (s : S) : option PnlState :=
  let value := AccountAdjustmentBalanceOperationGetRealizedPnl (deref (ref o) s) in
  if negb (PnlStateOptionalIsSet value) then None
  else Some (NewPnlStateFromHandle (PnlStateOptionalGet value)).
Definition SetRealizedPnl (o : t) (x : PnlState) (s : S) : S :=
  update (ref o) (fun n => AccountAdjustmentBalanceOperationSetRealizedPnl n (PnlStateHandle x)) s.
Definition UnsetRealizedPnl (o : t) (s : S) : S :=
  update (ref o) AccountAdjustmentBalanceOperationUnsetRealizedPnl s.
End View.
Arguments t : clear implicits.
End AccountAdjustmentBalanceOperationView.

Module AccountAdjustmentPositionOperation.
Record t := mk { value : OpenPitAccountAdjustmentPositionOperation; retainInstrument : Instrument; retainCollateralAsset : Asset }.
Definition newAccountAdjustmentPositionOperation (v : OpenPitAccountAdjustmentPositionOperation) : t :=
  mk v zeroInstrument None.
Definition NewAccountAdjustmentPositionOperation : t :=
  newAccountAdjustmentPositionOperation NativeAdjustment.NewAccountAdjustmentPositionOperation.
Definition Reset (o : t) : t :=
  mk (AccountAdjustmentPositionOperationReset (value o)) zeroInstrument None.
Definition Instrument {L} (o : t) : MM L (option NativeMem.Instrument) :=
  NewInstrumentFromHandle (AccountAdjustmentPositionOperationGetInstrument (value o)).
Definition SetInstrument (o : t) (x : NativeMem.Instrument) : t :=
  mk (AccountAdjustmentPositionOperationSetInstrument (value o) (InstrumentHandle x)) x
    (retainCollateralAsset o).
Definition UnsetInstrument (o : t) : t :=
  mk (AccountAdjustmentPositionOperationUnsetInstrument (value o)) zeroInstrument (retainCollateralAsset
    o).
Definition CollateralAsset {L} (o : t) : MM L (option Asset) :=
  NewAssetFromHandle (AccountAdjustmentPositionOperationGetCollateralAsset (value o)).
Definition SetCollateralAsset (o : t) (x : Asset) : t :=
  mk (AccountAdjustmentPositionOperationSetCollateralAsset (value o) (AssetHandle x))
    (retainInstrument o) x.
Definition UnsetCollateralAsset (o : t) : t :=
  mk (AccountAdjustmentPositionOperationUnsetCollateralAsset (value o)) (retainInstrument o) None.
Definition AverageEntryPrice (o : t) : option Price :=
  NewPriceOptionFromHandle (AccountAdjustmentPositionOperationGetAverageEntryPrice (value o)).
Definition SetAverageEntryPrice (o : t) (x : Price) : t :=
  mk (AccountAdjustmentPositionOperationSetAverageEntryPrice (value o) (PriceHandle x))
    (retainInstrument o) (retainCollateralAsset o).
Definition UnsetAverageEntryPrice (o : t) : t :=
  mk (AccountAdjustmentPositionOperationUnsetAverageEntryPrice (value o)) (retainInstrument o)
    (retainCollateralAsset o).
Definition Leverage (o : t) : option ParamValues.Leverage :=
  NewLeverageOptionFromHandle (AccountAdjustmentPositionOperationGetLeverage (value o)).
Definition SetLeverage (o : t) (x : ParamValues.Leverage) : t :=
  mk (AccountAdjustmentPositionOperationSetLeverage (value o) (LeverageHandle x)) (retainInstrument o)
    (retainCollateralAsset o).
Definition UnsetLeverage (o : t) : t :=
  mk (AccountAdjustmentPositionOperationUnsetLeverage (value o)) (retainInstrument o)
    (retainCollateralAsset o).
Definition Mode (o : t) : option PositionMode :=
  NewPositionModeFromHandle (AccountAdjustmentPositionOperationGetMode (value o)).
Definition SetMode (o : t) (x : PositionMode) : t :=
  mk (AccountAdjustmentPositionOperationSetMode (value o) (PositionModeHandle x)) (retainInstrument o)
    (retainCollateralAsset o).
Definition UnsetMode (o : t) : t :=
  mk (AccountAdjustmentPositionOperationUnsetMode (value o)) (retainInstrument o) (retainCollateralAsset
    o).
Definition Values {L} (o : t) : MM L AccountAdjustmentPositionOperationValues :=
  do! vInstrument <- Instrument o;
  do! vCollateralAsset <- CollateralAsset o;
  mret (mkAccountAdjustmentPositionOperationValues vInstrument vCollateralAsset (AverageEntryPrice o) (Leverage o) (Mode o)).
Definition setValues (o : t) (values : AccountAdjustmentPositionOperationValues) : t :=
  let o := whenSome (vpo_Instrument values) SetInstrument o in
  let o := whenSome (vpo_CollateralAsset values) SetCollateralAsset o in
  let o := whenSome (vpo_AverageEntryPrice values) SetAverageEntryPrice o in
  let o := whenSome (vpo_Leverage values) SetLeverage o in
  let o := whenSome (vpo_Mode values) SetMode o in
  o.
Definition SetValues (o : t) (values : AccountAdjustmentPositionOperationValues) : t :=
  setValues (Reset o) values.
Definition NewAccountAdjustmentPositionOperationFromValues
    (values : AccountAdjustmentPositionOperationValues) : t :=
  setValues NewAccountAdjustmentPositionOperation values.
End AccountAdjustmentPositionOperation.

Module AccountAdjustmentPositionOperationView.
Section View.
Context {S : Type}.

Record t := mk { ref : Ptr S OpenPitAccountAdjustmentPositionOperation; retainInstrument : Ptr S Instrument; retainCollateralAsset : Ptr S Asset }.
Definition newAccountAdjustmentPositionOperationView
    (ref : Ptr S OpenPitAccountAdjustmentPositionOperation) (retainInstrument : Ptr S Instrument)
    (retainCollateralAsset : Ptr S Asset) : t :=
  mk ref retainInstrument retainCollateralAsset.
Definition Reset (o : t) (s : S) : S :=
  let s := update (ref o) AccountAdjustmentPositionOperationReset s in
  let s := assign (retainInstrument o) zeroInstrument s in
  assign (retainCollateralAsset o) None s.
Definition Instrument {L} (o : t) (s : S) : MM L (option NativeMem.Instrument) :=
  NewInstrumentFromHandle (AccountAdjustmentPositionOperationGetInstrument (deref (ref o) s)).
Definition SetInstrument (o : t) (x : NativeMem.Instrument) (s : S) : S :=
  let s := update (ref o) (fun n => AccountAdjustmentPositionOperationSetInstrument n (InstrumentHandle x)) s in
  assign (retainInstrument o) x s.
Definition UnsetInstrument (o : t) (s : S) : S :=
  let s := update (ref o) AccountAdjustmentPositionOperationUnsetInstrument s in
  assign (retainInstrument o) zeroInstrument s.
Definition CollateralAsset {L} (o : t) (s : S) : MM L (option Asset) :=
  NewAssetFromHandle (AccountAdjustmentPositionOperationGetCollateralAsset (deref (ref o) s)).
Definition SetCollateralAsset (o : t) (x : Asset) (s : S) : S :=
  let s := update (ref o) (fun n => AccountAdjustmentPositionOperationSetCollateralAsset n (AssetHandle x)) s in
  assign (retainCollateralAsset o) x s.
Definition UnsetCollateralAsset (o : t) (s : S) : S :=
  let s := update (ref o) AccountAdjustmentPositionOperationUnsetCollateralAsset s in
  assign (retainCollateralAsset o) None s.
Definition AverageEntryPrice (o : t) (s : S) : option Price :=
  NewPriceOptionFromHandle (AccountAdjustmentPositionOperationGetAverageEntryPrice (deref (ref o) s)).
Definition SetAverageEntryPrice (o : t) (x : Price) (s : S) : S :=
  update (ref o) (fun n => AccountAdjustmentPositionOperationSetAverageEntryPrice n (PriceHandle x)) s.
Definition UnsetAverageEntryPrice (o : t) (s : S) : S :=
  update (ref o) AccountAdjustmentPositionOperationUnsetAverageEntryPrice s.
Definition Leverage (o : t) (s : S) : option ParamValues.Leverage :=
  NewLeverageOptionFromHandle (AccountAdjustmentPositionOperationGetLeverage (deref (ref o) s)).
Definition SetLeverage (o : t) (x : ParamValues.Leverage) (s : S) : S :=
  update (ref o) (fun n => AccountAdjustmentPositionOperationSetLeverage n (LeverageHandle x)) s.
Definition UnsetLeverage (o : t) (s : S) : S :=
  update (ref o) AccountAdjustmentPositionOperationUnsetLeverage s.
Definition Mode (o : t) (s : S) : option PositionMode :=
  NewPositionModeFromHandle (AccountAdjustmentPositionOperationGetMode (deref (ref o) s)).
Definition SetMode (o : t) (x : PositionMode) (s : S) : S :=
  update (ref o) (fun n => AccountAdjustmentPositionOperationSetMode n (PositionModeHandle x)) s.
Definition UnsetMode (o : t) (s : S) : S :=
  update (ref o) AccountAdjustmentPositionOperationUnsetMode s.
End View.
Arguments t : clear implicits.
End AccountAdjustmentPositionOperationView.

Module AccountAdjustmentAmount.
Record t := mk { value : OpenPitAccountAdjustmentAmount }.
Definition newAccountAdjustmentAmount (v : OpenPitAccountAdjustmentAmount) : t := mk v.
Definition NewAccountAdjustmentAmount : t :=
  newAccountAdjustmentAmount NativeAdjustment.NewAccountAdjustmentAmount.
Definition Reset (a : t) : t := mk (AccountAdjustmentAmountReset (value a)).
Definition Balance (a : t) : option AdjustmentAmount :=
  NewAdjustmentAmountFromHandle (AccountAdjustmentAmountGetBalance (value a)).
Definition SetBalance (a : t) (x : AdjustmentAmount) : t :=
  mk (AccountAdjustmentAmountSetBalance (value a) (AdjustmentAmountHandle x)).
Definition UnsetBalance (a : t) : t := mk (AccountAdjustmentAmountUnsetBalance (value a)).
Definition Held (a : t) : option AdjustmentAmount :=
  NewAdjustmentAmountFromHandle (AccountAdjustmentAmountGetHeld (value a)).
Definition SetHeld (a : t) (x : AdjustmentAmount) : t :=
  mk (AccountAdjustmentAmountSetHeld (value a) (AdjustmentAmountHandle x)).
Definition UnsetHeld (a : t) : t := mk (AccountAdjustmentAmountUnsetHeld (value a)).
Definition Incoming (a : t) : option AdjustmentAmount :=
  NewAdjustmentAmountFromHandle (AccountAdjustmentAmountGetIncoming (value a)).
Definition SetIncoming (a : t) (x : AdjustmentAmount) : t :=
  mk (AccountAdjustmentAmountSetIncoming (value a) (AdjustmentAmountHandle x)).
Definition UnsetIncoming (a : t) : t := mk (AccountAdjustmentAmountUnsetIncoming (value a)).
Definition Values (a : t) : AccountAdjustmentAmountValues :=
  mkAccountAdjustmentAmountValues (Balance a) (Held a) (Incoming a).
Definition setValues (a : t) (values : AccountAdjustmentAmountValues) : t :=
  let a := whenSome (vam_Balance values) SetBalance a in
  let a := whenSome (vam_Held values) SetHeld a in
  let a := whenSome (vam_Incoming values) SetIncoming a in
  a.
Definition SetValues (a : t) (values : AccountAdjustmentAmountValues) : t := setValues (Reset a) values.
Definition NewAccountAdjustmentAmountFromValues (values : AccountAdjustmentAmountValues) : t :=
  setValues NewAccountAdjustmentAmount values.
End AccountAdjustmentAmount.

Module AccountAdjustmentAmountView.
Section View.
Context {S : Type}.

Record t := mk { ref : Ptr S OpenPitAccountAdjustmentAmount }.
Definition newAccountAdjustmentAmountView (ref : Ptr S OpenPitAccountAdjustmentAmount) : t := mk ref.
Definition Reset (a : t) (s : S) : S := update (ref a) AccountAdjustmentAmountReset s.
Definition Balance (a : t) (s : S) : option AdjustmentAmount :=
  NewAdjustmentAmountFromHandle (AccountAdjustmentAmountGetBalance (deref (ref a) s)).
Definition SetBalance (a : t) (x : AdjustmentAmount) (s : S) : S :=
  update (ref a) (fun n => AccountAdjustmentAmountSetBalance n (AdjustmentAmountHandle x)) s.
Definition UnsetBalance (a : t) (s : S) : S := update (ref a) AccountAdjustmentAmountUnsetBalance s.
Definition Held (a : t) (s : S) : option AdjustmentAmount :=
  NewAdjustmentAmountFromHandle (AccountAdjustmentAmountGetHeld (deref (ref a) s)).
Definition SetHeld (a : t) (x : AdjustmentAmount) (s : S) : S :=
  update (ref a) (fun n => AccountAdjustmentAmountSetHeld n (AdjustmentAmountHandle x)) s.
Definition UnsetHeld (a : t) (s : S) : S := update (ref a) AccountAdjustmentAmountUnsetHeld s.
Definition Incoming (a : t) (s : S) : option AdjustmentAmount :=
  NewAdjustmentAmountFromHandle (AccountAdjustmentAmountGetIncoming (deref (ref a) s)).
Definition SetIncoming (a : t) (x : AdjustmentAmount) (s : S) : S :=
  update (ref a) (fun n => AccountAdjustmentAmountSetIncoming n (AdjustmentAmountHandle x)) s.
Definition UnsetIncoming (a : t) (s : S) : S := update (ref a) AccountAdjustmentAmountUnsetIncoming s.
End View.
Arguments t : clear implicits.
End AccountAdjustmentAmountView.

Module AccountAdjustmentBounds.
Record t := mk { value : OpenPitAccountAdjustmentBounds }.
Definition newAccountAdjustmentBounds (v : OpenPitAccountAdjustmentBounds) : t := mk v.
Definition NewAccountAdjustmentBounds : t :=
  newAccountAdjustmentBounds NativeAdjustment.NewAccountAdjustmentBounds.
Definition Reset (b : t) : t := mk (AccountAdjustmentBoundsReset (value b)).
Definition BalanceUpper (b : t) : option PositionSize :=
  NewPositionSizeOptionFromHandle (AccountAdjustmentBoundsGetBalanceUpper (value b)).
Definition SetBalanceUpper (b : t) (x : PositionSize) : t :=
  mk (AccountAdjustmentBoundsSetBalanceUpper (value b) (PositionSizeHandle x)).
Definition UnsetBalanceUpper (b : t) : t := mk (AccountAdjustmentBoundsUnsetBalanceUpper (value b)).
Definition BalanceLower (b : t) : option PositionSize :=
  NewPositionSizeOptionFromHandle (AccountAdjustmentBoundsGetBalanceLower (value b)).
Definition SetBalanceLower (b : t) (x : PositionSize) : t :=
  mk (AccountAdjustmentBoundsSetBalanceLower (value b) (PositionSizeHandle x)).
Definition UnsetBalanceLower (b : t) : t := mk (AccountAdjustmentBoundsUnsetBalanceLower (value b)).
Definition HeldUpper (b : t) : option PositionSize :=
  NewPositionSizeOptionFromHandle (AccountAdjustmentBoundsGetHeldUpper (value b)).
Definition SetHeldUpper (b : t) (x : PositionSize) : t :=
  mk (AccountAdjustmentBoundsSetHeldUpper (value b) (PositionSizeHandle x)).
Definition UnsetHeldUpper (b : t) : t := mk (AccountAdjustmentBoundsUnsetHeldUpper (value b)).
Definition HeldLower (b : t) : option PositionSize :=
  NewPositionSizeOptionFromHandle (AccountAdjustmentBoundsGetHeldLower (value b)).
Definition SetHeldLower (b : t) (x : PositionSize) : t :=
  mk (AccountAdjustmentBoundsSetHeldLower (value b) (PositionSizeHandle x)).
Definition UnsetHeldLower (b : t) : t := mk (AccountAdjustmentBoundsUnsetHeldLower (value b)).
Definition IncomingUpper (b : t) : option PositionSize :=
  NewPositionSizeOptionFromHandle (AccountAdjustmentBoundsGetIncomingUpper (value b)).
Definition SetIncomingUpper (b : t) (x : PositionSize) : t :=
  mk (AccountAdjustmentBoundsSetIncomingUpper (value b) (PositionSizeHandle x)).
Definition UnsetIncomingUpper (b : t) : t := mk (AccountAdjustmentBoundsUnsetIncomingUpper (value b)).
Definition IncomingLower (b : t) : option PositionSize :=
  NewPositionSizeOptionFromHandle (AccountAdjustmentBoundsGetIncomingLower (value b)).
Definition SetIncomingLower (b : t) (x : PositionSize) : t :=
  mk (AccountAdjustmentBoundsSetIncomingLower (value b) (PositionSizeHandle x)).
Definition UnsetIncomingLower (b : t) : t := mk (AccountAdjustmentBoundsUnsetIncomingLower (value b)).
Definition Values (b : t) : AccountAdjustmentBoundsValues :=
  mkAccountAdjustmentBoundsValues (BalanceUpper b) (BalanceLower b) (HeldUpper b) (HeldLower b) (IncomingUpper b) (IncomingLower b).
Definition setValues (b : t) (values : AccountAdjustmentBoundsValues) : t :=
  let b := whenSome (vbd_BalanceUpper values) SetBalanceUpper b in
  let b := whenSome (vbd_BalanceLower values) SetBalanceLower b in
  let b := whenSome (vbd_HeldUpper values) SetHeldUpper b in
  let b := whenSome (vbd_HeldLower values) SetHeldLower b in
  let b := whenSome (vbd_IncomingUpper values) SetIncomingUpper b in
  let b := whenSome (vbd_IncomingLower values) SetIncomingLower b in
  b.
Definition SetValues (b : t) (values : AccountAdjustmentBoundsValues) : t := setValues (Reset b) values.
Definition NewAccountAdjustmentBoundsFromValues (values : AccountAdjustmentBoundsValues) : t :=
  setValues NewAccountAdjustmentBounds values.
End AccountAdjustmentBounds.

Module AccountAdjustmentBoundsView.
Section View.
Context {S : Type}.

Record t := mk { ref : Ptr S OpenPitAccountAdjustmentBounds }.
Definition newAccountAdjustmentBoundsView (ref : Ptr S OpenPitAccountAdjustmentBounds) : t := mk ref.
Definition Reset (b : t) (s : S) : S := update (ref b) AccountAdjustmentBoundsReset s.
Definition BalanceUpper (b : t) (s : S) : option PositionSize :=
  NewPositionSizeOptionFromHandle (AccountAdjustmentBoundsGetBalanceUpper (deref (ref b) s)).
Definition SetBalanceUpper (b : t) (x : PositionSize) (s : S) : S :=
  update (ref b) (fun n => AccountAdjustmentBoundsSetBalanceUpper n (PositionSizeHandle x)) s.
Definition UnsetBalanceUpper (b : t) (s : S) : S :=
  update (ref b) AccountAdjustmentBoundsUnsetBalanceUpper s.
Definition BalanceLower (b : t) (s : S) : option PositionSize :=
  NewPositionSizeOptionFromHandle (AccountAdjustmentBoundsGetBalanceLower (deref (ref b) s)).
Definition SetBalanceLower (b : t) (x : PositionSize) (s : S) : S :=
  update (ref b) (fun n => AccountAdjustmentBoundsSetBalanceLower n (PositionSizeHandle x)) s.
Definition UnsetBalanceLower (b : t) (s : S) : S :=
  update (ref b) AccountAdjustmentBoundsUnsetBalanceLower s.
Definition HeldUpper (b : t) (s : S) : option PositionSize :=
  NewPositionSizeOptionFromHandle (AccountAdjustmentBoundsGetHeldUpper (deref (ref b) s)).
Definition SetHeldUpper (b : t) (x : PositionSize) (s : S) : S :=
  update (ref b) (fun n => AccountAdjustmentBoundsSetHeldUpper n (PositionSizeHandle x)) s.
Definition UnsetHeldUpper (b : t) (s : S) : S := update (ref b) AccountAdjustmentBoundsUnsetHeldUpper s.
Definition HeldLower (b : t) (s : S) : option PositionSize :=
  NewPositionSizeOptionFromHandle (AccountAdjustmentBoundsGetHeldLower (deref (ref b) s)).
Definition SetHeldLower (b : t) (x : PositionSize) (s : S) : S :=
  update (ref b) (fun n => AccountAdjustmentBoundsSetHeldLower n (PositionSizeHandle x)) s.
Definition UnsetHeldLower (b : t) (s : S) : S := update (ref b) AccountAdjustmentBoundsUnsetHeldLower s.
Definition IncomingUpper (b : t) (s : S) : option PositionSize :=
  NewPositionSizeOptionFromHandle (AccountAdjustmentBoundsGetIncomingUpper (deref (ref b) s)).
Definition SetIncomingUpper (b : t) (x : PositionSize) (s : S) : S :=
  update (ref b) (fun n => AccountAdjustmentBoundsSetIncomingUpper n (PositionSizeHandle x)) s.
Definition UnsetIncomingUpper (b : t) (s : S) : S :=
  update (ref b) AccountAdjustmentBoundsUnsetIncomingUpper s.
Definition IncomingLower (b : t) (s : S) : option PositionSize :=
  NewPositionSizeOptionFromHandle (AccountAdjustmentBoundsGetIncomingLower (deref (ref b) s)).
Definition SetIncomingLower (b : t) (x : PositionSize) (s : S) : S :=
  update (ref b) (fun n => AccountAdjustmentBoundsSetIncomingLower n (PositionSizeHandle x)) s.
Definition UnsetIncomingLower (b : t) (s : S) : S :=
  update (ref b) AccountAdjustmentBoundsUnsetIncomingLower s.
End View.
Arguments t : clear implicits.
End AccountAdjustmentBoundsView.

(** ** The account-wide PnL operation *)

Module AccountAdjustmentAccountPnlOperation.
Record t := mk { value : OpenPitAccountAdjustmentAccountPnlOperation }.
Definition newAccountAdjustmentAccountPnlOperation
    (v : OpenPitAccountAdjustmentAccountPnlOperation) : t := mk v.
Definition NewAccountAdjustmentAccountPnlOperation (state : PnlState) : t :=
  newAccountAdjustmentAccountPnlOperation
    (NativeAdjustment.NewAccountAdjustmentAccountPnlOperation (PnlStateHandle state)).
Definition State (o : t) : PnlState :=
  NewPnlStateFromHandle (AccountAdjustmentAccountPnlOperationGetState (value o)).
End AccountAdjustmentAccountPnlOperation.

(** ** The adjustment *)

Record AccountAdjustmentValues := mkAccountAdjustmentValues {
  av_BalanceOperation : option AccountAdjustmentBalanceOperation.t;
  av_PositionOperation : option AccountAdjustmentPositionOperation.t;
  av_AccountPnlOperation : option AccountAdjustmentAccountPnlOperation.t;
  av_Amount : option AccountAdjustmentAmount.t;
  av_Bounds : option AccountAdjustmentBounds.t;
}.

Module AccountAdjustment.
Record retainAccountAdjustment := mkRetain {
  BalanceOperationAsset : Asset;
  PositionOperationInstrument : Instrument;
  PositionOperationCollateralAsset : Asset;
}.
Definition zeroRetain : retainAccountAdjustment := mkRetain None zeroInstrument None.
Record t := mk { value : OpenPitAccountAdjustment; retain : retainAccountAdjustment }.

(** Pointers to the fields of an adjustment. *)
Definition valuePtr : Ptr t OpenPitAccountAdjustment := mkPtr value (fun v a => mk v (retain a)).
Definition withRetain (f : retainAccountAdjustment -> retainAccountAdjustment) (a : t) : t :=
  mk (value a) (f (retain a)).
Definition BalanceOperationAssetPtr : Ptr t Asset :=
  mkPtr (fun a => BalanceOperationAsset (retain a))
    (fun x => withRetain (fun r =>
       mkRetain x (PositionOperationInstrument r) (PositionOperationCollateralAsset r))).
Definition PositionOperationInstrumentPtr : Ptr t Instrument :=
  mkPtr (fun a => PositionOperationInstrument (retain a))
    (fun x => withRetain (fun r =>
       mkRetain (BalanceOperationAsset r) x (PositionOperationCollateralAsset r))).
Definition PositionOperationCollateralAssetPtr : Ptr t Asset :=
  mkPtr (fun a => PositionOperationCollateralAsset (retain a))
    (fun x => withRetain (fun r =>
       mkRetain (BalanceOperationAsset r) (PositionOperationInstrument r) x)).

Definition NewAccountAdjustmentFromHandle (handle : OpenPitAccountAdjustment) : t :=
  mk handle zeroRetain.
Definition NewAccountAdjustment : t :=
  NewAccountAdjustmentFromHandle NativeAdjustment.NewAccountAdjustment.
Definition Reset (a : t) : t := mk (AccountAdjustmentReset (value a)) zeroRetain.

Definition BalanceOperation (a : t) : option AccountAdjustmentBalanceOperation.t :=
  if negb (AccountAdjustmentGetOperationKind (value a) =? AccountAdjustmentOperationKindBalance)%Z
  then None
  else
    let child := AccountAdjustmentBalanceOperation.newAccountAdjustmentBalanceOperation
                   (AccountAdjustmentGetBalanceOperation (value a)) in
    Some (AccountAdjustmentBalanceOperation.mk (AccountAdjustmentBalanceOperation.value child)
            (BalanceOperationAsset (retain a))).
Definition EnsureBalanceOperationView (a : t) : t * AccountAdjustmentBalanceOperationView.t t :=
  let a := update valuePtr AccountAdjustmentSelectBalanceOperationAndUnsetOtherOperations a in
  let result := AccountAdjustmentBalanceOperationView.newAccountAdjustmentBalanceOperationView
                  (AccountAdjustmentGetBalanceOperationView valuePtr) BalanceOperationAssetPtr in
  (withRetain (fun r => mkRetain (BalanceOperationAsset r) zeroInstrument None) a, result).
Definition SetBalanceOperationAndUnsetOtherOperations (a : t)
    (operation : AccountAdjustmentBalanceOperation.t) : t :=
  mk (AccountAdjustmentSetBalanceOperationAndUnsetOtherOperations (value a)
        (AccountAdjustmentBalanceOperation.value operation))
    (mkRetain (AccountAdjustmentBalanceOperation.retainAsset operation) zeroInstrument None).
Definition UnsetBalanceOperation (a : t) : t :=
  mk (AccountAdjustmentUnsetBalanceOperation (value a))
    (mkRetain None (PositionOperationInstrument (retain a)) (PositionOperationCollateralAsset (retain a))).

Definition PositionOperation (a : t) : option AccountAdjustmentPositionOperation.t :=
  if negb (AccountAdjustmentGetOperationKind (value a) =? AccountAdjustmentOperationKindPosition)%Z
  then None
  else
    let child := AccountAdjustmentPositionOperation.newAccountAdjustmentPositionOperation
                   (AccountAdjustmentGetPositionOperation (value a)) in
    Some (AccountAdjustmentPositionOperation.mk (AccountAdjustmentPositionOperation.value child)
            (PositionOperationInstrument (retain a)) (PositionOperationCollateralAsset (retain a))).
Definition EnsurePositionOperationView (a : t) : t * AccountAdjustmentPositionOperationView.t t :=
  let a := update valuePtr AccountAdjustmentSelectPositionOperationAndUnsetOtherOperations a in
  let result := AccountAdjustmentPositionOperationView.newAccountAdjustmentPositionOperationView
                  (AccountAdjustmentGetPositionOperationView valuePtr)
                  PositionOperationInstrumentPtr PositionOperationCollateralAssetPtr in
  (withRetain (fun r =>
     mkRetain None (PositionOperationInstrument r) (PositionOperationCollateralAsset r)) a, result).
Definition SetPositionOperationAndUnsetOtherOperations (a : t)
    (operation : AccountAdjustmentPositionOperation.t) : t :=
  mk (AccountAdjustmentSetPositionOperationAndUnsetOtherOperations (value a)
        (AccountAdjustmentPositionOperation.value operation))
    (mkRetain None (AccountAdjustmentPositionOperation.retainInstrument operation)
       (AccountAdjustmentPositionOperation.retainCollateralAsset operation)).
Definition UnsetPositionOperation (a : t) : t :=
  mk (AccountAdjustmentUnsetPositionOperation (value a))
    (mkRetain (BalanceOperationAsset (retain a)) zeroInstrument None).

Definition AccountPnlOperation (a : t) : option AccountAdjustmentAccountPnlOperation.t :=
  if negb (AccountAdjustmentGetOperationKind (value a) =? AccountAdjustmentOperationKindAccountPnl)%Z
  then None
  else Some (AccountAdjustmentAccountPnlOperation.newAccountAdjustmentAccountPnlOperation
               (AccountAdjustmentGetAccountPnlOperation (value a))).
Definition SetAccountPnlOperationAndUnsetOtherOperations (a : t)
    (operation : AccountAdjustmentAccountPnlOperation.t) : t :=
  mk (AccountAdjustmentSetAccountPnlOperationAndUnsetOtherOperations (value a)
        (AccountAdjustmentAccountPnlOperation.value operation)) zeroRetain.
Definition UnsetAccountPnlOperation (a : t) : t :=
  mk (AccountAdjustmentUnsetAccountPnlOperation (value a)) (retain a).

Definition Amount (a : t) : option AccountAdjustmentAmount.t :=
  let amount := AccountAdjustmentGetAmount (value a) in
  if negb (AccountAdjustmentAmountOptionalIsSet amount) then None
  else Some (AccountAdjustmentAmount.newAccountAdjustmentAmount (AccountAdjustmentAmountOptionalGet amount)).
Definition EnsureAmountView (a : t) : t * AccountAdjustmentAmountView.t t :=
  let amount := AccountAdjustmentGetAmountView valuePtr in
  let a :=
    if negb (AccountAdjustmentAmountOptionalIsSet (deref amount a))
    then update amount (fun x => AccountAdjustmentAmountOptionalSet x NewAccountAdjustmentAmount) a else a in
  (a, AccountAdjustmentAmountView.newAccountAdjustmentAmountView
        (AccountAdjustmentAmountOptionalGetView amount)).
Definition SetAmount (a : t) (amount : AccountAdjustmentAmount.t) : t :=
  mk (AccountAdjustmentSetAmount (value a) (AccountAdjustmentAmount.value amount)) (retain a).
Definition UnsetAmount (a : t) : t := mk (AccountAdjustmentUnsetAmount (value a)) (retain a).

Definition Bounds (a : t) : option AccountAdjustmentBounds.t :=
  let bounds := AccountAdjustmentGetBounds (value a) in
  if negb (AccountAdjustmentBoundsOptionalIsSet bounds) then None
  else Some (AccountAdjustmentBounds.newAccountAdjustmentBounds (AccountAdjustmentBoundsOptionalGet bounds)).
Definition EnsureBoundsView (a : t) : t * AccountAdjustmentBoundsView.t t :=
  let bounds := AccountAdjustmentGetBoundsView valuePtr in
  let a :=
    if negb (AccountAdjustmentBoundsOptionalIsSet (deref bounds a))
    then update bounds (fun x => AccountAdjustmentBoundsOptionalSet x NewAccountAdjustmentBounds) a else a in
  (a, AccountAdjustmentBoundsView.newAccountAdjustmentBoundsView
        (AccountAdjustmentBoundsOptionalGetView bounds)).
Definition SetBounds (a : t) (bounds : AccountAdjustmentBounds.t) : t :=
  mk (AccountAdjustmentSetBounds (value a) (AccountAdjustmentBounds.value bounds)) (retain a).
Definition UnsetBounds (a : t) : t := mk (AccountAdjustmentUnsetBounds (value a)) (retain a).

Definition Values (a : t) : AccountAdjustmentValues :=
  mkAccountAdjustmentValues (BalanceOperation a) (PositionOperation a) (AccountPnlOperation a)
    (Amount a) (Bounds a).
(** The operations in this order: the last one given is the one selected. *)
Definition setValues (a : t) (values : AccountAdjustmentValues) : t :=
  let a := whenSome (av_BalanceOperation values) SetBalanceOperationAndUnsetOtherOperations a in
  let a := whenSome (av_PositionOperation values) SetPositionOperationAndUnsetOtherOperations a in
  let a := whenSome (av_AccountPnlOperation values) SetAccountPnlOperationAndUnsetOtherOperations a in
  let a := whenSome (av_Amount values) SetAmount a in
  whenSome (av_Bounds values) SetBounds a.
(** The error results of the next two are always nil. *)
Definition SetValues (a : t) (values : AccountAdjustmentValues) : t := setValues (Reset a) values.
Definition NewAccountAdjustmentFromValues (values : AccountAdjustmentValues) : t :=
  setValues NewAccountAdjustment values.
Definition EngineAccountAdjustment (a : t) : t := a.
Definition Handle (a : t) : OpenPitAccountAdjustment := value a.
End AccountAdjustment.

(** ** Mutations as data *)

(** One mutation of [AccountAdjustmentBalanceOperation], through the owner or through a view. *)
Inductive AccountAdjustmentBalanceOperationAct :=
| bo_SetAsset (x : Asset)
| bo_UnsetAsset
| bo_SetAverageEntryPrice (x : Price)
| bo_UnsetAverageEntryPrice
| bo_SetRealizedPnl (x : PnlState)
| bo_UnsetRealizedPnl
| bo_Reset.
Definition accountAdjustmentBalanceOperationAct (a : AccountAdjustmentBalanceOperationAct)
    (o : AccountAdjustmentBalanceOperation.t) : AccountAdjustmentBalanceOperation.t :=
  match a with
  | bo_SetAsset x => AccountAdjustmentBalanceOperation.SetAsset o x
  | bo_UnsetAsset => AccountAdjustmentBalanceOperation.UnsetAsset o
  | bo_SetAverageEntryPrice x => AccountAdjustmentBalanceOperation.SetAverageEntryPrice o x
  | bo_UnsetAverageEntryPrice => AccountAdjustmentBalanceOperation.UnsetAverageEntryPrice o
  | bo_SetRealizedPnl x => AccountAdjustmentBalanceOperation.SetRealizedPnl o x
  | bo_UnsetRealizedPnl => AccountAdjustmentBalanceOperation.UnsetRealizedPnl o
  | bo_Reset => AccountAdjustmentBalanceOperation.Reset o
  end.
Definition accountAdjustmentBalanceOperationViewAct {S} (a : AccountAdjustmentBalanceOperationAct)
    (v : AccountAdjustmentBalanceOperationView.t S) : S -> S :=
  match a with
  | bo_SetAsset x => AccountAdjustmentBalanceOperationView.SetAsset v x
  | bo_UnsetAsset => AccountAdjustmentBalanceOperationView.UnsetAsset v
  | bo_SetAverageEntryPrice x => AccountAdjustmentBalanceOperationView.SetAverageEntryPrice v x
  | bo_UnsetAverageEntryPrice => AccountAdjustmentBalanceOperationView.UnsetAverageEntryPrice v
  | bo_SetRealizedPnl x => AccountAdjustmentBalanceOperationView.SetRealizedPnl v x
  | bo_UnsetRealizedPnl => AccountAdjustmentBalanceOperationView.UnsetRealizedPnl v
  | bo_Reset => AccountAdjustmentBalanceOperationView.Reset v
  end.

(** One mutation of [AccountAdjustmentPositionOperation], through the owner or through a view. *)
Inductive AccountAdjustmentPositionOperationAct :=
| po_SetInstrument (x : Instrument)
| po_UnsetInstrument
| po_SetCollateralAsset (x : Asset)
| po_UnsetCollateralAsset
| po_SetAverageEntryPrice (x : Price)
| po_UnsetAverageEntryPrice
| po_SetLeverage (x : Leverage)
| po_UnsetLeverage
| po_SetMode (x : PositionMode)
| po_UnsetMode
| po_Reset.
Definition accountAdjustmentPositionOperationAct (a : AccountAdjustmentPositionOperationAct)
    (o : AccountAdjustmentPositionOperation.t) : AccountAdjustmentPositionOperation.t :=
  match a with
  | po_SetInstrument x => AccountAdjustmentPositionOperation.SetInstrument o x
  | po_UnsetInstrument => AccountAdjustmentPositionOperation.UnsetInstrument o
  | po_SetCollateralAsset x => AccountAdjustmentPositionOperation.SetCollateralAsset o x
  | po_UnsetCollateralAsset => AccountAdjustmentPositionOperation.UnsetCollateralAsset o
  | po_SetAverageEntryPrice x => AccountAdjustmentPositionOperation.SetAverageEntryPrice o x
  | po_UnsetAverageEntryPrice => AccountAdjustmentPositionOperation.UnsetAverageEntryPrice o
  | po_SetLeverage x => AccountAdjustmentPositionOperation.SetLeverage o x
  | po_UnsetLeverage => AccountAdjustmentPositionOperation.UnsetLeverage o
  | po_SetMode x => AccountAdjustmentPositionOperation.SetMode o x
  | po_UnsetMode => AccountAdjustmentPositionOperation.UnsetMode o
  | po_Reset => AccountAdjustmentPositionOperation.Reset o
  end.
Definition accountAdjustmentPositionOperationViewAct {S} (a : AccountAdjustmentPositionOperationAct)
    (v : AccountAdjustmentPositionOperationView.t S) : S -> S :=
  match a with
  | po_SetInstrument x => AccountAdjustmentPositionOperationView.SetInstrument v x
  | po_UnsetInstrument => AccountAdjustmentPositionOperationView.UnsetInstrument v
  | po_SetCollateralAsset x => AccountAdjustmentPositionOperationView.SetCollateralAsset v x
  | po_UnsetCollateralAsset => AccountAdjustmentPositionOperationView.UnsetCollateralAsset v
  | po_SetAverageEntryPrice x => AccountAdjustmentPositionOperationView.SetAverageEntryPrice v x
  | po_UnsetAverageEntryPrice => AccountAdjustmentPositionOperationView.UnsetAverageEntryPrice v
  | po_SetLeverage x => AccountAdjustmentPositionOperationView.SetLeverage v x
  | po_UnsetLeverage => AccountAdjustmentPositionOperationView.UnsetLeverage v
  | po_SetMode x => AccountAdjustmentPositionOperationView.SetMode v x
  | po_UnsetMode => AccountAdjustmentPositionOperationView.UnsetMode v
  | po_Reset => AccountAdjustmentPositionOperationView.Reset v
  end.

(** One mutation of [AccountAdjustmentAmount], through the owner or through a view. *)
Inductive AccountAdjustmentAmountAct :=
| am_SetBalance (x : AdjustmentAmount)
| am_UnsetBalance
| am_SetHeld (x : AdjustmentAmount)
| am_UnsetHeld
| am_SetIncoming (x : AdjustmentAmount)
| am_UnsetIncoming
| am_Reset.
Definition accountAdjustmentAmountAct (a : AccountAdjustmentAmountAct) (o : AccountAdjustmentAmount.t)
    : AccountAdjustmentAmount.t :=
  match a with
  | am_SetBalance x => AccountAdjustmentAmount.SetBalance o x
  | am_UnsetBalance => AccountAdjustmentAmount.UnsetBalance o
  | am_SetHeld x => AccountAdjustmentAmount.SetHeld o x
  | am_UnsetHeld => AccountAdjustmentAmount.UnsetHeld o
  | am_SetIncoming x => AccountAdjustmentAmount.SetIncoming o x
  | am_UnsetIncoming => AccountAdjustmentAmount.UnsetIncoming o
  | am_Reset => AccountAdjustmentAmount.Reset o
  end.
Definition accountAdjustmentAmountViewAct {S} (a : AccountAdjustmentAmountAct)
    (v : AccountAdjustmentAmountView.t S) : S -> S :=
  match a with
  | am_SetBalance x => AccountAdjustmentAmountView.SetBalance v x
  | am_UnsetBalance => AccountAdjustmentAmountView.UnsetBalance v
  | am_SetHeld x => AccountAdjustmentAmountView.SetHeld v x
  | am_UnsetHeld => AccountAdjustmentAmountView.UnsetHeld v
  | am_SetIncoming x => AccountAdjustmentAmountView.SetIncoming v x
  | am_UnsetIncoming => AccountAdjustmentAmountView.UnsetIncoming v
  | am_Reset => AccountAdjustmentAmountView.Reset v
  end.

(** One mutation of [AccountAdjustmentBounds], through the owner or through a view. *)
Inductive AccountAdjustmentBoundsAct :=
| bd_SetBalanceUpper (x : PositionSize)
| bd_UnsetBalanceUpper
| bd_SetBalanceLower (x : PositionSize)
| bd_UnsetBalanceLower
| bd_SetHeldUpper (x : PositionSize)
| bd_UnsetHeldUpper
| bd_SetHeldLower (x : PositionSize)
| bd_UnsetHeldLower
| bd_SetIncomingUpper (x : PositionSize)
| bd_UnsetIncomingUpper
| bd_SetIncomingLower (x : PositionSize)
| bd_UnsetIncomingLower
| bd_Reset.
Definition accountAdjustmentBoundsAct (a : AccountAdjustmentBoundsAct) (o : AccountAdjustmentBounds.t)
    : AccountAdjustmentBounds.t :=
  match a with
  | bd_SetBalanceUpper x => AccountAdjustmentBounds.SetBalanceUpper o x
  | bd_UnsetBalanceUpper => AccountAdjustmentBounds.UnsetBalanceUpper o
  | bd_SetBalanceLower x => AccountAdjustmentBounds.SetBalanceLower o x
  | bd_UnsetBalanceLower => AccountAdjustmentBounds.UnsetBalanceLower o
  | bd_SetHeldUpper x => AccountAdjustmentBounds.SetHeldUpper o x
  | bd_UnsetHeldUpper => AccountAdjustmentBounds.UnsetHeldUpper o
  | bd_SetHeldLower x => AccountAdjustmentBounds.SetHeldLower o x
  | bd_UnsetHeldLower => AccountAdjustmentBounds.UnsetHeldLower o
  | bd_SetIncomingUpper x => AccountAdjustmentBounds.SetIncomingUpper o x
  | bd_UnsetIncomingUpper => AccountAdjustmentBounds.UnsetIncomingUpper o
  | bd_SetIncomingLower x => AccountAdjustmentBounds.SetIncomingLower o x
  | bd_UnsetIncomingLower => AccountAdjustmentBounds.UnsetIncomingLower o
  | bd_Reset => AccountAdjustmentBounds.Reset o
  end.
Definition accountAdjustmentBoundsViewAct {S} (a : AccountAdjustmentBoundsAct)
    (v : AccountAdjustmentBoundsView.t S) : S -> S :=
  match a with
  | bd_SetBalanceUpper x => AccountAdjustmentBoundsView.SetBalanceUpper v x
  | bd_UnsetBalanceUpper => AccountAdjustmentBoundsView.UnsetBalanceUpper v
  | bd_SetBalanceLower x => AccountAdjustmentBoundsView.SetBalanceLower v x
  | bd_UnsetBalanceLower => AccountAdjustmentBoundsView.UnsetBalanceLower v
  | bd_SetHeldUpper x => AccountAdjustmentBoundsView.SetHeldUpper v x
  | bd_UnsetHeldUpper => AccountAdjustmentBoundsView.UnsetHeldUpper v
  | bd_SetHeldLower x => AccountAdjustmentBoundsView.SetHeldLower v x
  | bd_UnsetHeldLower => AccountAdjustmentBoundsView.UnsetHeldLower v
  | bd_SetIncomingUpper x => AccountAdjustmentBoundsView.SetIncomingUpper v x
  | bd_UnsetIncomingUpper => AccountAdjustmentBoundsView.UnsetIncomingUpper v
  | bd_SetIncomingLower x => AccountAdjustmentBoundsView.SetIncomingLower v x
  | bd_UnsetIncomingLower => AccountAdjustmentBoundsView.UnsetIncomingLower v
  | bd_Reset => AccountAdjustmentBoundsView.Reset v
  end.

