(* ===== verification/AdjustmentFacts.v ===== *)
(** * What account adjustments keep

    For the model of ModelAdjustment.v: an adjustment has at most one operation, the
    last one set, ensured or given; views write the adjustment they came from; what a
    group is given is what it returns; and the buffers the record points into, also
    those of operations that are not selected, are alive as long as the adjustment. *)
From Stdlib Require Import ZArith Lia.
From stdpp Require Import base tactics list gmap strings.
From S2P Require Import Prelude GoPtr NativeMem ParamValues Retention NativeAdjustment ModelAdjustment.

(** ** One operation *)

(** The three readers, the payloads and the owners of an adjustment, seen as a sum. *)
Definition operations (a : AccountAdjustment.t) :=
  (AccountAdjustment.BalanceOperation a, AccountAdjustment.PositionOperation a,
   AccountAdjustment.AccountPnlOperation a).
Definition clearedBalance (a : AccountAdjustment.t) : Prop :=
  aop_balance (a_operation (AccountAdjustment.value a)) = NewAccountAdjustmentBalanceOperation /\
  AccountAdjustment.BalanceOperationAsset (AccountAdjustment.retain a) = None.
Definition clearedPosition (a : AccountAdjustment.t) : Prop :=
  aop_position (a_operation (AccountAdjustment.value a)) = NewAccountAdjustmentPositionOperation /\
  AccountAdjustment.PositionOperationInstrument (AccountAdjustment.retain a) = zeroInstrument /\
  AccountAdjustment.PositionOperationCollateralAsset (AccountAdjustment.retain a) = None.
Definition clearedAccountPnl (a : AccountAdjustment.t) : Prop :=
  aop_account_pnl (a_operation (AccountAdjustment.value a)) = zeroAccountAdjustmentAccountPnlOperation.
(** The other two groups of the record. *)
Definition sameRest (a a' : AccountAdjustment.t) : Prop :=
  AccountAdjustment.Amount a' = AccountAdjustment.Amount a /\
  AccountAdjustment.Bounds a' = AccountAdjustment.Bounds a /\
  a_user_data (AccountAdjustment.value a') = a_user_data (AccountAdjustment.value a).

(** The cases of an adjustment's kind: each selected operation, none, and the kinds
    the program does not know. *)
Ltac by_kind a := destruct a as [[[[|[[?|?|]|[?|?|]|]|?] ? ? ?] ? ? ?] [? ? ?]].

(** Setting an operation selects it, returns it, and clears the payload and the
    retained owners of the other two, whatever the adjustment held, also after writes
    through old views; ensuring one keeps it when it was selected and starts from zero
    otherwise; unsetting one clears it and leaves the others as they were; values with
    several operations end with the last of balance, position, account PnL; and no
    call touches the amount or the bounds. *)
Theorem adjustment_has_one_operation (a : AccountAdjustment.t) :
  (forall o, let a' := AccountAdjustment.SetBalanceOperationAndUnsetOtherOperations a o in
     operations a' = (Some o, None, None) /\ clearedPosition a' /\ clearedAccountPnl a' /\ sameRest a a') /\
  (forall o, let a' := AccountAdjustment.SetPositionOperationAndUnsetOtherOperations a o in
     operations a' = (None, Some o, None) /\ clearedBalance a' /\ clearedAccountPnl a' /\ sameRest a a') /\
  (forall o, let a' := AccountAdjustment.SetAccountPnlOperationAndUnsetOtherOperations a o in
     operations a' = (None, None, Some o) /\ clearedBalance a' /\ clearedPosition a' /\ sameRest a a') /\
  (let a' := fst (AccountAdjustment.EnsureBalanceOperationView a) in
     (exists o, operations a' = (Some o, None, None) /\
        match AccountAdjustment.BalanceOperation a with
        | Some o' => o = o'
        | None => AccountAdjustmentBalanceOperation.value o = NewAccountAdjustmentBalanceOperation
        end) /\ clearedPosition a' /\ clearedAccountPnl a' /\ sameRest a a') /\
  (let a' := fst (AccountAdjustment.EnsurePositionOperationView a) in
     (exists o, operations a' = (None, Some o, None) /\
        match AccountAdjustment.PositionOperation a with
        | Some o' => o = o'
        | None => AccountAdjustmentPositionOperation.value o = NewAccountAdjustmentPositionOperation
        end) /\ clearedBalance a' /\ clearedAccountPnl a' /\ sameRest a a') /\
  (let a' := AccountAdjustment.UnsetBalanceOperation a in
     operations a' = (None, AccountAdjustment.PositionOperation a, AccountAdjustment.AccountPnlOperation a) /\
     clearedBalance a' /\ sameRest a a') /\
  (let a' := AccountAdjustment.UnsetPositionOperation a in
     operations a' = (AccountAdjustment.BalanceOperation a, None, AccountAdjustment.AccountPnlOperation a) /\
     clearedPosition a' /\ sameRest a a') /\
  (let a' := AccountAdjustment.UnsetAccountPnlOperation a in
     operations a' = (AccountAdjustment.BalanceOperation a, AccountAdjustment.PositionOperation a, None) /\
     clearedAccountPnl a' /\ sameRest a a') /\
  (forall vs, let a' := AccountAdjustment.SetValues a vs in
     a' = AccountAdjustment.NewAccountAdjustmentFromValues vs /\
     operations a' = match av_BalanceOperation vs, av_PositionOperation vs, av_AccountPnlOperation vs with
       | _, _, Some q => (None, None, Some q)
       | _, Some p, None => (None, Some p, None)
       | b, None, None => (b, None, None)
       end /\
     AccountAdjustment.Amount a' = av_Amount vs /\ AccountAdjustment.Bounds a' = av_Bounds vs).
Proof.
  split_and!.
  1-3: intros []; by repeat split.
  6: intros [[[]|] [[]|] [[]|] [[]|] [[]|]]; by repeat split.
  all: by_kind a; by (repeat split; try (eexists; split)).
Qed.

(** ** Views write through *)

(** What a view of an operation leaves as it is: the other operations, once the view
    was made, and the rest. *)
Definition leavesRest {V A} (ensure : AccountAdjustment.t -> AccountAdjustment.t * V)
    (vact : A -> V -> AccountAdjustment.t -> AccountAdjustment.t) : Prop :=
  leavesAlone AccountAdjustment.Amount ensure vact /\ leavesAlone AccountAdjustment.Bounds ensure vact.
Ltac solve_operation_view :=
  let s := fresh "s" in
  intros s ?; by_kind s; cbn;
  (eexists; split_and!;
    [reflexivity|by intros ? [= <-]|by intros [=]
    |apply foldl_simulates; [|reflexivity]; intros [] s' ? Hs; by_kind s';
     first [discriminate Hs|injection Hs as <-; reflexivity]]).

(** A view returned by an [Ensure] call of an adjustment is the group itself: it
    starts as the group the adjustment had, or as the zero record; calls through it
    change that group as the same calls change a detached one, and leave the other
    groups. *)
Theorem adjustment_views_write_through :
  (writesThrough AccountAdjustment.BalanceOperation AccountAdjustment.EnsureBalanceOperationView
     (fun c => AccountAdjustmentBalanceOperation.value c = NewAccountAdjustmentBalanceOperation)
     accountAdjustmentBalanceOperationAct accountAdjustmentBalanceOperationViewAct /\
   leavesRest AccountAdjustment.EnsureBalanceOperationView accountAdjustmentBalanceOperationViewAct) /\
  (writesThrough AccountAdjustment.PositionOperation AccountAdjustment.EnsurePositionOperationView
     (fun c => AccountAdjustmentPositionOperation.value c = NewAccountAdjustmentPositionOperation)
     accountAdjustmentPositionOperationAct accountAdjustmentPositionOperationViewAct /\
   leavesRest AccountAdjustment.EnsurePositionOperationView accountAdjustmentPositionOperationViewAct) /\
  (writesThrough AccountAdjustment.Amount AccountAdjustment.EnsureAmountView
     (fun c => AccountAdjustmentAmount.value c = NewAccountAdjustmentAmount)
     accountAdjustmentAmountAct accountAdjustmentAmountViewAct /\
   leavesAlone operations AccountAdjustment.EnsureAmountView accountAdjustmentAmountViewAct /\
   leavesAlone AccountAdjustment.Bounds AccountAdjustment.EnsureAmountView accountAdjustmentAmountViewAct) /\
  (writesThrough AccountAdjustment.Bounds AccountAdjustment.EnsureBoundsView
     (fun c => AccountAdjustmentBounds.value c = NewAccountAdjustmentBounds)
     accountAdjustmentBoundsAct accountAdjustmentBoundsViewAct /\
   leavesAlone operations AccountAdjustment.EnsureBoundsView accountAdjustmentBoundsViewAct /\
   leavesAlone AccountAdjustment.Amount AccountAdjustment.EnsureBoundsView accountAdjustmentBoundsViewAct).
Proof.
  unfold leavesRest.
  repeat match goal with |- _ /\ _ => split end;
    first [solve_leaves_alone|solve [solve_writes_through]|solve_operation_view].
Qed.

(** ** Retention *)

Definition balanceOk (c : AccountAdjustmentBalanceOperation.t) : Prop :=
  viewOf (bo_asset (AccountAdjustmentBalanceOperation.value c)) (AccountAdjustmentBalanceOperation.retainAsset c).
Definition positionOk (c : AccountAdjustmentPositionOperation.t) : Prop :=
  instrumentViewOf (po_instrument (AccountAdjustmentPositionOperation.value c))
    (AccountAdjustmentPositionOperation.retainInstrument c) /\
  viewOf (po_collateral_asset (AccountAdjustmentPositionOperation.value c))
    (AccountAdjustmentPositionOperation.retainCollateralAsset c).

(** The stored groups, selected or not. *)
Definition storedBalance (a : AccountAdjustment.t) : AccountAdjustmentBalanceOperation.t :=
  AccountAdjustmentBalanceOperation.mk (aop_balance (a_operation (AccountAdjustment.value a)))
    (AccountAdjustment.BalanceOperationAsset (AccountAdjustment.retain a)).
Definition storedPosition (a : AccountAdjustment.t) : AccountAdjustmentPositionOperation.t :=
  AccountAdjustmentPositionOperation.mk (aop_position (a_operation (AccountAdjustment.value a)))
    (AccountAdjustment.PositionOperationInstrument (AccountAdjustment.retain a))
    (AccountAdjustment.PositionOperationCollateralAsset (AccountAdjustment.retain a)).

Inductive AdjustmentValue :=
| AAsset (a : Asset)
| AInstrument (i : Instrument)
| ABalance (c : AccountAdjustmentBalanceOperation.t)
| APosition (c : AccountAdjustmentPositionOperation.t)
| AAdjustment (a : AccountAdjustment.t).
Definition positionRoots (c : AccountAdjustmentPositionOperation.t) : list nat :=
  instrumentRoots (AccountAdjustmentPositionOperation.retainInstrument c) ++
  assetRoots (AccountAdjustmentPositionOperation.retainCollateralAsset c).
Definition adjustmentValueRoots (v : AdjustmentValue) : list nat :=
  match v with
  | AAsset a => assetRoots a
  | AInstrument i => instrumentRoots i
  | ABalance c => assetRoots (AccountAdjustmentBalanceOperation.retainAsset c)
  | APosition c => positionRoots c
  | AAdjustment a => assetRoots (AccountAdjustment.BalanceOperationAsset (AccountAdjustment.retain a)) ++
                     positionRoots (storedPosition a)
  end.
Definition balanceSound {L} (m : Mem L) (c : AccountAdjustmentBalanceOperation.t) : Prop :=
  balanceOk c /\ assetLive m (AccountAdjustmentBalanceOperation.retainAsset c).
Definition positionSound {L} (m : Mem L) (c : AccountAdjustmentPositionOperation.t) : Prop :=
  positionOk c /\ instrumentLive m (AccountAdjustmentPositionOperation.retainInstrument c) /\
  assetLive m (AccountAdjustmentPositionOperation.retainCollateralAsset c).
Definition adjustmentValueSound {L} (m : Mem L) (v : AdjustmentValue) : Prop :=
  match v with
  | AAsset a => assetLive m a
  | AInstrument i => instrumentLive m i
  | ABalance c => balanceSound m c
  | APosition c => positionSound m c
  | AAdjustment a => balanceSound m (storedBalance a) /\ positionSound m (storedPosition a)
  end.
#[export] Instance AdjustmentValue_retaining L : Retaining L AdjustmentValue := {|
  roots := adjustmentValueRoots; lockRoots := fun _ => []; sound := adjustmentValueSound |}.
Lemma positionSound_collected {L} r lr (m m' : Mem L) c :
  collected r lr m m' -> positionRoots c ⊆ r -> positionSound m c -> positionSound m' c.
Proof.
  intros Hc Hr (H1 & H2 & H3). unfold positionRoots in Hr. split; [done|split].
  - eapply collected_instrumentLive; [done| |done]. set_solver.
  - eapply collected_assetLive; [done| |done]. set_solver.
Qed.
#[export] Instance AdjustmentValue_laws L : RetainingLaws L AdjustmentValue.
Proof.
  split.
  - intros m m' [] Hx; cbn; unfold balanceSound, positionSound;
      intuition eauto using extends_assetLive, extends_instrumentLive.
  - intros m m' v r lr Hc Hr _. cbn in Hr. destruct v; cbn in *; unfold balanceSound;
      intuition eauto using collected_assetLive, collected_instrumentLive, positionSound_collected.
    + eapply collected_assetLive; [done| |done]. set_solver.
    + eapply positionSound_collected; [done| |done]. set_solver.
Qed.

Definition balanceArgs (vs : list AdjustmentValue) (a : AccountAdjustmentBalanceOperationAct) : Prop :=
  match a with bo_SetAsset x => AAsset x ∈ vs | _ => True end.
Definition positionArgs (vs : list AdjustmentValue) (a : AccountAdjustmentPositionOperationAct) : Prop :=
  match a with
  | po_SetInstrument x => AInstrument x ∈ vs
  | po_SetCollateralAsset x => AAsset x ∈ vs
  | _ => True
  end.

Inductive AdjustmentAct :=
| a_Reset
| a_SetBalance (c : AccountAdjustmentBalanceOperation.t)
| a_UnsetBalance
| a_SetPosition (c : AccountAdjustmentPositionOperation.t)
| a_UnsetPosition
| a_SetAccountPnl (c : AccountAdjustmentAccountPnlOperation.t)
| a_UnsetAccountPnl
| a_SetAmount (c : AccountAdjustmentAmount.t)
| a_UnsetAmount
| a_SetBounds (c : AccountAdjustmentBounds.t)
| a_UnsetBounds
| a_EnsureBalanceView
| a_EnsurePositionView
| a_EnsureAmountView
| a_EnsureBoundsView
| a_BalanceView (a : AccountAdjustmentBalanceOperationAct)
| a_PositionView (a : AccountAdjustmentPositionOperationAct)
| a_AmountView (a : AccountAdjustmentAmountAct)
| a_BoundsView (a : AccountAdjustmentBoundsAct).
Definition adjustmentAct (a0 : AccountAdjustment.t) (x : AdjustmentAct) (a : AccountAdjustment.t)
    : AccountAdjustment.t :=
  match x with
  | a_Reset => AccountAdjustment.Reset a
  | a_SetBalance c => AccountAdjustment.SetBalanceOperationAndUnsetOtherOperations a c
  | a_UnsetBalance => AccountAdjustment.UnsetBalanceOperation a
  | a_SetPosition c => AccountAdjustment.SetPositionOperationAndUnsetOtherOperations a c
  | a_UnsetPosition => AccountAdjustment.UnsetPositionOperation a
  | a_SetAccountPnl c => AccountAdjustment.SetAccountPnlOperationAndUnsetOtherOperations a c
  | a_UnsetAccountPnl => AccountAdjustment.UnsetAccountPnlOperation a
  | a_SetAmount c => AccountAdjustment.SetAmount a c
  | a_UnsetAmount => AccountAdjustment.UnsetAmount a
  | a_SetBounds c => AccountAdjustment.SetBounds a c
  | a_UnsetBounds => AccountAdjustment.UnsetBounds a
  | a_EnsureBalanceView => fst (AccountAdjustment.EnsureBalanceOperationView a)
  | a_EnsurePositionView => fst (AccountAdjustment.EnsurePositionOperationView a)
  | a_EnsureAmountView => fst (AccountAdjustment.EnsureAmountView a)
  | a_EnsureBoundsView => fst (AccountAdjustment.EnsureBoundsView a)
  | a_BalanceView x =>
      accountAdjustmentBalanceOperationViewAct x (snd (AccountAdjustment.EnsureBalanceOperationView a0)) a
  | a_PositionView x =>
      accountAdjustmentPositionOperationViewAct x (snd (AccountAdjustment.EnsurePositionOperationView a0)) a
  | a_AmountView x => accountAdjustmentAmountViewAct x (snd (AccountAdjustment.EnsureAmountView a0)) a
  | a_BoundsView x => accountAdjustmentBoundsViewAct x (snd (AccountAdjustment.EnsureBoundsView a0)) a
  end.
Definition adjustmentArgs (vs : list AdjustmentValue) (x : AdjustmentAct) : Prop :=
  match x with
  | a_SetBalance c => ABalance c ∈ vs
  | a_SetPosition c => APosition c ∈ vs
  | a_BalanceView x => balanceArgs vs x
  | a_PositionView x => positionArgs vs x
  | _ => True
  end.

(** Every way the package makes a value of the family; [SetValues] is a sequence of
    these. *)
Inductive adjustmentMakes {L} (validate : string -> option string)
    (m : Mem L) (vs : list AdjustmentValue) : Mem L -> AdjustmentValue -> Prop :=
| amake_asset m' a : makesAsset validate m (fun a => AAsset a ∈ vs) (fun i => AInstrument i ∈ vs) m' a ->
    adjustmentMakes validate m vs m' (AAsset a)
| amake_instrument i : makesInstrument (fun a => AAsset a ∈ vs) i ->
    adjustmentMakes validate m vs m (AInstrument i)
| amake_balance : adjustmentMakes validate m vs m
    (ABalance AccountAdjustmentBalanceOperation.NewAccountAdjustmentBalanceOperation)
| amake_balanceAct x c : ABalance c ∈ vs -> balanceArgs vs x ->
    adjustmentMakes validate m vs m (ABalance (accountAdjustmentBalanceOperationAct x c))
| amake_position : adjustmentMakes validate m vs m
    (APosition AccountAdjustmentPositionOperation.NewAccountAdjustmentPositionOperation)
| amake_positionAct x c : APosition c ∈ vs -> positionArgs vs x ->
    adjustmentMakes validate m vs m (APosition (accountAdjustmentPositionOperationAct x c))
| amake_adjustment : adjustmentMakes validate m vs m (AAdjustment AccountAdjustment.NewAccountAdjustment)
| amake_adjustmentAct a0 x a : AAdjustment a0 ∈ vs -> AAdjustment a ∈ vs -> adjustmentArgs vs x ->
    adjustmentMakes validate m vs m (AAdjustment (adjustmentAct a0 x a))
| amake_getBalance a c : AAdjustment a ∈ vs -> AccountAdjustment.BalanceOperation a = Some c ->
    adjustmentMakes validate m vs m (ABalance c)
| amake_getPosition a c : AAdjustment a ∈ vs -> AccountAdjustment.PositionOperation a = Some c ->
    adjustmentMakes validate m vs m (APosition c)
| amake_getAsset c x m' : ABalance c ∈ vs ->
    AccountAdjustmentBalanceOperation.Asset c m = inr (Some x, m') ->
    adjustmentMakes validate m vs m' (AAsset x)
| amake_getInstrument c i m' : APosition c ∈ vs ->
    AccountAdjustmentPositionOperation.Instrument c m = inr (Some i, m') ->
    adjustmentMakes validate m vs m' (AInstrument i)
| amake_getCollateral c x m' : APosition c ∈ vs ->
    AccountAdjustmentPositionOperation.CollateralAsset c m = inr (Some x, m') ->
    adjustmentMakes validate m vs m' (AAsset x)
| amake_viewAsset a0 a x m' : AAdjustment a0 ∈ vs -> AAdjustment a ∈ vs ->
    AccountAdjustmentBalanceOperationView.Asset (snd (AccountAdjustment.EnsureBalanceOperationView a0)) a m
      = inr (Some x, m') -> adjustmentMakes validate m vs m' (AAsset x)
| amake_viewInstrument a0 a i m' : AAdjustment a0 ∈ vs -> AAdjustment a ∈ vs ->
    AccountAdjustmentPositionOperationView.Instrument
      (snd (AccountAdjustment.EnsurePositionOperationView a0)) a m = inr (Some i, m') ->
    adjustmentMakes validate m vs m' (AInstrument i)
| amake_viewCollateral a0 a x m' : AAdjustment a0 ∈ vs -> AAdjustment a ∈ vs ->
    AccountAdjustmentPositionOperationView.CollateralAsset
      (snd (AccountAdjustment.EnsurePositionOperationView a0)) a m = inr (Some x, m') ->
    adjustmentMakes validate m vs m' (AAsset x).

Lemma balanceAct_sound {L} (m : Mem L) vs x c :
  Forall (adjustmentValueSound m) vs -> balanceArgs vs x ->
  balanceSound m c -> balanceSound m (accountAdjustmentBalanceOperationAct x c).
Proof.
  intros Hvs Hx [H1 H2]. destruct x; cbn in *; try (split; [exact H1|exact H2]).
  - rewrite Forall_forall in Hvs. split; [apply viewOf_handle|exact (Hvs _ Hx)].
  - split; [by left|done].
  - split; [by left|done].
Qed.
Lemma positionAct_sound {L} (m : Mem L) vs x c :
  Forall (adjustmentValueSound m) vs -> positionArgs vs x ->
  positionSound m c -> positionSound m (accountAdjustmentPositionOperationAct x c).
Proof.
  intros Hvs Hx ([H1 H2] & H3 & H4). rewrite Forall_forall in Hvs.
  destruct x; cbn in *; try (exact (conj (conj H1 H2) (conj H3 H4))).
  - exact (conj (conj (instrumentViewOf_handle _) H2) (conj (Hvs _ Hx) H4)).
  - exact (conj (conj (instrumentViewOf_zero _) H2) (conj (conj I I) H4)).
  - exact (conj (conj H1 (viewOf_handle _)) (conj H3 (Hvs _ Hx))).
  - exact (conj (conj H1 (viewOf_none _)) (conj H3 I)).
  - by repeat split; left.
Qed.
Lemma newBalance_sound {L} (m : Mem L) r :
  assetLive m r -> balanceSound m (AccountAdjustmentBalanceOperation.mk NewAccountAdjustmentBalanceOperation r).
Proof. intros H. by split; [left|]. Qed.
Lemma newPosition_sound {L} (m : Mem L) i r :
  instrumentLive m i -> assetLive m r ->
  positionSound m (AccountAdjustmentPositionOperation.mk NewAccountAdjustmentPositionOperation i r).
Proof. intros H H'. by split; [split; [apply instrumentViewOf_zero|left]|]. Qed.

(** What a call on an adjustment does to the stored payloads. *)
Lemma adjustmentAct_groups a0 x a :
  let a' := adjustmentAct a0 x a in
  let emptyBalance := AccountAdjustmentBalanceOperation.NewAccountAdjustmentBalanceOperation in
  let emptyPosition := AccountAdjustmentPositionOperation.NewAccountAdjustmentPositionOperation in
  match x with
  | a_Reset | a_SetAccountPnl _ => storedBalance a' = emptyBalance /\ storedPosition a' = emptyPosition
  | a_SetBalance c => storedBalance a' = c /\ storedPosition a' = emptyPosition
  | a_SetPosition c => storedBalance a' = emptyBalance /\ storedPosition a' = c
  | a_UnsetBalance => storedBalance a' = emptyBalance /\ storedPosition a' = storedPosition a
  | a_UnsetPosition => storedBalance a' = storedBalance a /\ storedPosition a' = emptyPosition
  | a_EnsureBalanceView =>
      (storedBalance a' = storedBalance a \/
       storedBalance a' = AccountAdjustmentBalanceOperation.mk NewAccountAdjustmentBalanceOperation
         (AccountAdjustmentBalanceOperation.retainAsset (storedBalance a))) /\
      storedPosition a' = emptyPosition
  | a_EnsurePositionView =>
      storedBalance a' = emptyBalance /\
      (storedPosition a' = storedPosition a \/
       storedPosition a' = AccountAdjustmentPositionOperation.mk NewAccountAdjustmentPositionOperation
         (AccountAdjustmentPositionOperation.retainInstrument (storedPosition a))
         (AccountAdjustmentPositionOperation.retainCollateralAsset (storedPosition a)))
  | a_BalanceView x => storedBalance a' = accountAdjustmentBalanceOperationAct x (storedBalance a) /\
                       storedPosition a' = storedPosition a
  | a_PositionView x => storedBalance a' = storedBalance a /\
                        storedPosition a' = accountAdjustmentPositionOperationAct x (storedPosition a)
  | _ => storedBalance a' = storedBalance a /\ storedPosition a' = storedPosition a
  end.
Proof.
  destruct x as [|c| |c| |c| |c| |c| | | | | |x|x|x|x]; cbv zeta; try (split; reflexivity);
    try (destruct c; split; reflexivity); try (destruct x; split; reflexivity).
  - split; [|done]. by_kind a; first [by left|by right].
  - split; [done|]. by_kind a; first [by left|by right].
  - by destruct a as [[? [? []]]].
  - by destruct a as [[? ? [? []]]].
Qed.

Lemma adjustmentAct_sound {L} (m : Mem L) vs a0 x a :
  Forall (adjustmentValueSound m) vs -> adjustmentArgs vs x ->
  adjustmentValueSound m (AAdjustment a) -> adjustmentValueSound m (AAdjustment (adjustmentAct a0 x a)).
Proof.
  intros Hvs Hx [H1 H2]. pose proof (adjustmentAct_groups a0 x a) as G. cbv zeta in G.
  assert (balanceSound m AccountAdjustmentBalanceOperation.NewAccountAdjustmentBalanceOperation) as N1
    by exact (newBalance_sound m None I).
  assert (positionSound m AccountAdjustmentPositionOperation.NewAccountAdjustmentPositionOperation) as N2
    by exact (newPosition_sound m zeroInstrument None (conj I I) I).
  pose proof (proj1 (Forall_forall _ _) Hvs) as Hin. unfold adjustmentValueSound.
  destruct x; cbn [adjustmentArgs] in Hx; destruct G as [G1 G2];
    try (rewrite G1, G2; split; first [done|exact (Hin _ Hx)]).
  - rewrite G2. split; [|done]. destruct G1 as [-> | ->]; [done|]. apply newBalance_sound, H1.
  - rewrite G1. split; [done|]. destruct G2 as [-> | ->]; [done|]. apply newPosition_sound; apply H2.
  - rewrite G1, G2. split; [by apply (balanceAct_sound m vs)|done].
  - rewrite G1, G2. split; [done|by apply (positionAct_sound m vs)].
Qed.

Lemma adjustmentMakes_sound {L} validate : makesSound (L := L) (adjustmentMakes validate).
Proof.
  intros m vs m' v Hm Hvs Hv.
  assert (forall x, x ∈ vs -> adjustmentValueSound m x) as Hin by (by rewrite <- Forall_forall).
  destruct Hv as
    [m' a H1|i H1| |x c H1 Hx| |x c H1 Hx| |a0 x a H0 H1 Hx|a c H1 E|a c H1 E|c x m' H1 E|c i m' H1 E
    |c x m' H1 E|a0 a x m' H0 H1 E|a0 a i m' H0 H1 E|a0 a x m' H0 H1 E];
    try (split_and!; [done|done|]); try (apply Hin in H1).
  - eapply makesAsset_sound; [done| | |exact H1]; intros x Hx; exact (Hin _ Hx).
  - eapply makesInstrument_sound; [|exact H1]. intros x Hx. exact (Hin _ Hx).
  - exact (newBalance_sound m None I).
  - by apply (balanceAct_sound m vs).
  - exact (newPosition_sound m zeroInstrument None (conj I I) I).
  - by apply (positionAct_sound m vs).
  - exact (conj (newBalance_sound m None I) (newPosition_sound m zeroInstrument None (conj I I) I)).
  - by apply (adjustmentAct_sound m vs).
  - destruct H1 as [H1 _]. unfold AccountAdjustment.BalanceOperation in E.
    destruct (negb _); simplify_eq. exact H1.
  - destruct H1 as [_ H1]. unfold AccountAdjustment.PositionOperation in E.
    destruct (negb _); simplify_eq. exact H1.
  - destruct H1. by eapply read_asset_makes.
  - destruct H1 as ([] & ? & ?). by eapply read_instrument_makes.
  - destruct H1 as ([] & ? & ?). by eapply read_asset_makes.
  - destruct H1 as [[] _]. by eapply read_asset_makes.
  - destruct H1 as [_ ([] & ? & ?)]. by eapply read_instrument_makes.
  - destruct H1 as [_ ([] & ? & ?)]. by eapply read_asset_makes.
Qed.

(** Whatever a program does with adjustments, their groups and their views, views
    of operations that are no longer selected included, and whatever the collector
    frees in between, a value it still holds can be read: no read touches a freed
    buffer, and it returns the text its record shows. *)
Theorem adjustment_reads_are_safe {L} (validate : string -> option string) (m : Mem L) vs :
  poolReach (adjustmentMakes validate) (m, vs) ->
  forall v, v ∈ vs -> match v with
  | AAsset a => exists s, AssetSafe a m = inr (s, m)
  | AInstrument i => exists s t,
      AssetSafe (UnderlyingAsset i) m = inr (s, m) /\ AssetSafe (SettlementAsset i) m = inr (t, m)
  | ABalance c => readsAsset m (AccountAdjustmentBalanceOperation.Asset c)
                    (bo_asset (AccountAdjustmentBalanceOperation.value c))
  | APosition c =>
      readsInstrument m (AccountAdjustmentPositionOperation.Instrument c)
        (po_instrument (AccountAdjustmentPositionOperation.value c)) /\
      readsAsset m (AccountAdjustmentPositionOperation.CollateralAsset c)
        (po_collateral_asset (AccountAdjustmentPositionOperation.value c))
  | AAdjustment a => forall a0,
      readsAsset m
        (AccountAdjustmentBalanceOperationView.Asset (snd (AccountAdjustment.EnsureBalanceOperationView a0)) a)
        (bo_asset (AccountAdjustmentBalanceOperation.value (storedBalance a))) /\
      readsInstrument m
        (AccountAdjustmentPositionOperationView.Instrument
           (snd (AccountAdjustment.EnsurePositionOperationView a0)) a)
        (po_instrument (AccountAdjustmentPositionOperation.value (storedPosition a))) /\
      readsAsset m
        (AccountAdjustmentPositionOperationView.CollateralAsset
           (snd (AccountAdjustment.EnsurePositionOperationView a0)) a)
        (po_collateral_asset (AccountAdjustmentPositionOperation.value (storedPosition a)))
  end.
Proof.
  intros Hw v Hv. destruct (pool_sound _ _ (adjustmentMakes_sound validate) Hw) as [Hm Hs]. cbn in Hm, Hs.
  rewrite Forall_forall in Hs. specialize (Hs v Hv). destruct v as [a|i|c|c|a].
  - by apply AssetSafe_live.
  - destruct Hs as [[s H1]%AssetSafe_live [t H2]%AssetSafe_live]. by exists s, t.
  - destruct Hs. by eapply reads_asset.
  - destruct Hs as ([] & ? & ?). split; [by eapply reads_instrument|by eapply reads_asset].
  - intros a0. destruct Hs as [[B1 B2] ([P1 P2] & P3 & P4)].
    split; [exact (reads_asset m _ _ Hm B2 B1)|].
    split; [exact (reads_instrument m _ _ Hm P3 P1)|exact (reads_asset m _ _ Hm P4 P2)].
Qed.

(** A pool that holds one adjustment: its position operation is selected, and an old
    view of its balance operation wrote an asset since. *)
Definition demoAsset : Asset := Some (mkBuf 0 3).
Definition demoMem : Mem unit := mkMem (<[0 := "USD"%string]> ∅) ∅ 1.
Definition demoSteps (n : nat) : AccountAdjustment.t :=
  foldl (fun a x => adjustmentAct AccountAdjustment.NewAccountAdjustment x a)
    AccountAdjustment.NewAccountAdjustment
    (take n [a_EnsureBalanceView; a_EnsurePositionView; a_BalanceView (bo_SetAsset demoAsset)]).

Lemma demoAdjustment_reach : poolReach (adjustmentMakes Some) (demoMem, [AAdjustment (demoSteps 3)]).
Proof.
  eapply pool_next; [|apply (pool_collect _ demoMem)].
  - eapply pool_next; [|apply pool_drop].
    + eapply pool_next; [|eapply pool_make, (amake_adjustmentAct _ _ _ (demoSteps 0)
        (a_BalanceView (bo_SetAsset demoAsset)) (demoSteps 2))].
      * eapply pool_next; [|eapply pool_make, (amake_adjustmentAct _ _ _ (demoSteps 0) a_EnsurePositionView (demoSteps 1))].
        -- eapply pool_next; [|eapply pool_make, (amake_adjustmentAct _ _ _ (demoSteps 0) a_EnsureBalanceView (demoSteps 0))].
           ++ eapply pool_next; [|eapply pool_make, amake_adjustment].
              eapply pool_next; [|eapply pool_make, amake_asset, (makes_new _ _ _ _ "USD"%string demoAsset demoMem)].
              ** apply (pool_start _ (mkMem ∅ ∅ 0)). split; intros p [? Hp]; done.
              ** reflexivity.
           ++ by repeat constructor.
           ++ by repeat constructor.
           ++ done.
        -- by repeat constructor.
        -- by repeat constructor.
        -- done.
      * by repeat constructor.
      * by repeat constructor.
      * by repeat constructor.
    + intros ? ->%list_elem_of_singleton. by constructor.
  - split_and!; done.
Qed.

Lemma adjustment_reads_are_safe_witness :
  readsAsset demoMem
    (AccountAdjustmentBalanceOperationView.Asset
       (snd (AccountAdjustment.EnsureBalanceOperationView (demoSteps 0))) (demoSteps 3))
    (bo_asset (AccountAdjustmentBalanceOperation.value (storedBalance (demoSteps 3)))) /\
  viewText demoMem (bo_asset (AccountAdjustmentBalanceOperation.value (storedBalance (demoSteps 3)))) =
    Some "USD"%string /\
  AccountAdjustment.BalanceOperation (demoSteps 3) = None.
Proof.
  split; [|by split].
  exact (proj1 (adjustment_reads_are_safe Some demoMem _ demoAdjustment_reach (AAdjustment (demoSteps 3))
    (proj2 (list_elem_of_singleton _ _) eq_refl) (demoSteps 0))).
Defined.

(** ** What is set is read *)

Definition sameBalanceValues {L} (m m' : Mem L) (vs vs' : AccountAdjustmentBalanceOperationValues) : Prop :=
  vbo_Asset vs' ≫= assetText m' = vbo_Asset vs ≫= assetText m /\
  vbo_AverageEntryPrice vs' = vbo_AverageEntryPrice vs /\ vbo_RealizedPnl vs' = vbo_RealizedPnl vs.
Definition samePositionValues {L} (m m' : Mem L) (vs vs' : AccountAdjustmentPositionOperationValues) : Prop :=
  vpo_Instrument vs' ≫= instrumentText m' = vpo_Instrument vs ≫= instrumentText m /\
  vpo_CollateralAsset vs' ≫= assetText m' = vpo_CollateralAsset vs ≫= assetText m /\
  vpo_AverageEntryPrice vs' = vpo_AverageEntryPrice vs /\
  vpo_Leverage vs' = vpo_Leverage vs ≫= NewLeverageOptionFromHandle /\
  vpo_Mode vs' = vpo_Mode vs ≫= NewPositionModeFromHandle.

Lemma balance_fields vs :
  let n := AccountAdjustmentBalanceOperation.value
             (AccountAdjustmentBalanceOperation.NewAccountAdjustmentBalanceOperationFromValues vs) in
  bo_asset n = default stringViewNone ((fun a => importString (AssetHandle a)) <$> vbo_Asset vs) /\
  NewPriceOptionFromHandle (bo_average_entry_price n) = vbo_AverageEntryPrice vs /\
  bo_realized_pnl n = default (zeroCOptional zeroOpenPitPnlState)
    ((fun v => mkCOptional (PnlStateHandle v) true) <$> vbo_RealizedPnl vs).
Proof. by destruct vs as [[?|] [?|] [?|]]. Qed.
Lemma position_fields vs :
  let n := AccountAdjustmentPositionOperation.value
             (AccountAdjustmentPositionOperation.NewAccountAdjustmentPositionOperationFromValues vs) in
  po_instrument n = default zeroOpenPitInstrument (InstrumentHandle <$> vpo_Instrument vs) /\
  po_collateral_asset n = default stringViewNone
    ((fun a => importString (AssetHandle a)) <$> vpo_CollateralAsset vs) /\
  NewPriceOptionFromHandle (po_average_entry_price n) = vpo_AverageEntryPrice vs /\
  NewLeverageOptionFromHandle (po_leverage n) = vpo_Leverage vs ≫= NewLeverageOptionFromHandle /\
  NewPositionModeFromHandle (po_mode n) = vpo_Mode vs ≫= NewPositionModeFromHandle.
Proof. by destruct vs as [[?|] [?|] [?|] [?|] [?|]]. Qed.

Lemma balance_roundtrip {L} (m : Mem L) vs :
  memOk m -> (forall a, vbo_Asset vs = Some a -> assetLive m a) ->
  (forall s, vbo_RealizedPnl vs = Some s -> pnlOk s) ->
  exists vs' m', AccountAdjustmentBalanceOperation.Values
      (AccountAdjustmentBalanceOperation.NewAccountAdjustmentBalanceOperationFromValues vs) m = inr (vs', m') /\
    extends m m' /\ sameBalanceValues m m' vs vs'.
Proof.
  intros Hm Ha Hp. destruct (balance_fields vs) as (E1 & E2 & E3).
  unfold AccountAdjustmentBalanceOperation.Values, AccountAdjustmentBalanceOperation.Asset,
    AccountAdjustmentBalanceOperation.AverageEntryPrice, AccountAdjustmentBalanceOperation.RealizedPnl,
    AccountAdjustmentBalanceOperationGetAsset, AccountAdjustmentBalanceOperationGetAverageEntryPrice,
    AccountAdjustmentBalanceOperationGetRealizedPnl, mbind', mret.
  rewrite E1, E2, E3. destruct (reads_asset_option m (vbo_Asset vs) Hm Ha) as (o & m' & -> & _ & Hx & _ & Ho).
  eexists _, m'. split_and!; [done|done|]. unfold sameBalanceValues. cbn. split_and!; [done|done|].
  destruct (vbo_RealizedPnl vs) as [s|]; cbn; [|done]. by rewrite PnlState_roundtrip by auto.
Qed.
Lemma positionOperation_roundtrip {L} (m : Mem L) vs :
  memOk m -> (forall i, vpo_Instrument vs = Some i -> instrumentLive m i) ->
  (forall a, vpo_CollateralAsset vs = Some a -> assetLive m a) ->
  exists vs' m', AccountAdjustmentPositionOperation.Values
      (AccountAdjustmentPositionOperation.NewAccountAdjustmentPositionOperationFromValues vs) m = inr (vs', m') /\
    extends m m' /\ samePositionValues m m' vs vs'.
Proof.
  intros Hm Hi Ha. destruct (position_fields vs) as (E1 & E2 & E3 & E4 & E5).
  unfold AccountAdjustmentPositionOperation.Values, AccountAdjustmentPositionOperation.Instrument,
    AccountAdjustmentPositionOperation.CollateralAsset, AccountAdjustmentPositionOperation.AverageEntryPrice,
    AccountAdjustmentPositionOperation.Leverage, AccountAdjustmentPositionOperation.Mode,
    AccountAdjustmentPositionOperationGetInstrument, AccountAdjustmentPositionOperationGetCollateralAsset,
    AccountAdjustmentPositionOperationGetAverageEntryPrice, AccountAdjustmentPositionOperationGetLeverage,
    AccountAdjustmentPositionOperationGetMode, mbind', mret.
  rewrite E1, E2, E3, E4, E5.
  destruct (reads_instrument_option m (vpo_Instrument vs) Hm Hi) as (i & m1 & -> & Hm1 & Hx & Hl & Ht).
  destruct (reads_asset_option m1 (vpo_CollateralAsset vs) Hm1) as (c & m2 & -> & Hm2 & Hx2 & _ & Hc).
  { intros a E. apply (extends_assetLive m m1); auto. }
  eexists _, m2. split; [done|]. split; [by transitivity m1|]. unfold samePositionValues. cbn.
  split_and!; [| |done..].
  - rewrite <- Ht. destruct i as [i|]; [|done]. cbn. apply extends_instrumentText; auto.
  - rewrite Hc. destruct (vpo_CollateralAsset vs) as [a|]; [|done]. cbn. apply extends_assetText; auto.
Qed.

(** What an amount group returns: an amount with no kind reads as unset. *)
Definition sameAmountValues (vs vs' : AccountAdjustmentAmountValues) : Prop :=
  vam_Balance vs' = vam_Balance vs ≫= NewAdjustmentAmountFromHandle /\
  vam_Held vs' = vam_Held vs ≫= NewAdjustmentAmountFromHandle /\
  vam_Incoming vs' = vam_Incoming vs ≫= NewAdjustmentAmountFromHandle.

(** A group built from values returns those values: equal prices, bounds, amounts
    and PnL states, instruments and assets with the same text, and nothing where
    nothing was given; the three operations survive being stored; and [SetValues]
    leaves nothing of what a group held before. *)
Theorem adjustment_values_roundtrip {L} (m : Mem L) :
  memOk m ->
  (forall vs, (forall a, vbo_Asset vs = Some a -> assetLive m a) ->
     (forall s, vbo_RealizedPnl vs = Some s -> pnlOk s) ->
     exists vs' m', AccountAdjustmentBalanceOperation.Values
         (AccountAdjustmentBalanceOperation.NewAccountAdjustmentBalanceOperationFromValues vs) m = inr (vs', m') /\
       extends m m' /\ sameBalanceValues m m' vs vs') /\
  (forall vs, (forall i, vpo_Instrument vs = Some i -> instrumentLive m i) ->
     (forall a, vpo_CollateralAsset vs = Some a -> assetLive m a) ->
     exists vs' m', AccountAdjustmentPositionOperation.Values
         (AccountAdjustmentPositionOperation.NewAccountAdjustmentPositionOperationFromValues vs) m = inr (vs', m') /\
       extends m m' /\ samePositionValues m m' vs vs') /\
  (forall s, pnlOk s -> AccountAdjustmentAccountPnlOperation.State
     (AccountAdjustmentAccountPnlOperation.NewAccountAdjustmentAccountPnlOperation s) = s) /\
  (forall vs, sameAmountValues vs (AccountAdjustmentAmount.Values
     (AccountAdjustmentAmount.NewAccountAdjustmentAmountFromValues vs))) /\
  (forall vs, AccountAdjustmentBounds.Values
     (AccountAdjustmentBounds.NewAccountAdjustmentBoundsFromValues vs) = vs) /\
  (forall c vs, AccountAdjustmentBalanceOperation.SetValues c vs =
     AccountAdjustmentBalanceOperation.NewAccountAdjustmentBalanceOperationFromValues vs) /\
  (forall c vs, AccountAdjustmentPositionOperation.SetValues c vs =
     AccountAdjustmentPositionOperation.NewAccountAdjustmentPositionOperationFromValues vs) /\
  (forall c vs, AccountAdjustmentAmount.SetValues c vs =
     AccountAdjustmentAmount.NewAccountAdjustmentAmountFromValues vs) /\
  (forall c vs, AccountAdjustmentBounds.SetValues c vs =
     AccountAdjustmentBounds.NewAccountAdjustmentBoundsFromValues vs).
Proof.
  intros Hm. split_and!; try done.
  - intros vs Ha Hp. by apply balance_roundtrip.
  - intros vs Hi Ha. by apply positionOperation_roundtrip.
  - intros s Hs. apply (PnlState_roundtrip s Hs).
  - by intros [[?|] [?|] [?|]].
  - by intros [[?|] [?|] [?|] [?|] [?|] [?|]].
Qed.

Lemma adjustment_values_roundtrip_witness :
  memOk demoMem /\
  exists vs' m', AccountAdjustmentBalanceOperation.Values
      (AccountAdjustmentBalanceOperation.NewAccountAdjustmentBalanceOperationFromValues
         (mkAccountAdjustmentBalanceOperationValues (Some demoAsset) None (Some (mkPnlState zeroDecimal 2%Z))))
      demoMem = inr (vs', m') /\
    vbo_Asset vs' ≫= assetText m' = Some "USD"%string /\
    vbo_RealizedPnl vs' = Some (mkPnlState zeroDecimal 2%Z).
Proof.
  assert (memOk demoMem) as Hm.
  { split; intros p [s Hp]; unfold demoMem in *; cbn in *; [|done].
    rewrite lookup_insert_Some in Hp. naive_solver lia. }
  split; [exact Hm|].
  destruct (proj1 (adjustment_values_roundtrip demoMem Hm)
    (mkAccountAdjustmentBalanceOperationValues (Some demoAsset) None (Some (mkPnlState zeroDecimal 2%Z))))
    as (vs' & m' & E & _ & Ha & _ & Hp).
  - intros a [= <-]. by eexists.
  - by intros s [= <-].
  - exists vs', m'. split; [exact E|]. by split.
Defined.
