(* ===== verification/CgoHandles.v ===== *)
(** * Go values behind native user data

    The native engine holds opaque user data that the Go side makes from a
    [cgo.Handle]: internal/callback/handle.go and the handle table of [runtime/cgo]. A
    handle stands for a registered policy, for the callbacks of a mutation, or for a
    client's own order, report or adjustment. The table is process-wide, so is the
    sink of internal/diag/diag.go, where a teardown callback reports what it can return
    to nobody.

    Functions and policies are code: the table holds references to them, and a
    [Program] says what they do. A reference that is copied stays the same value. *)
From Stdlib Require Import ZArith Lia.
From stdpp Require Import base list gmap strings.
From S2P Require Import Prelude GoRuntime.

(** A [func()], an interface value, a diagnostic handler. *)
Definition funcRef := nat.
Definition policyRef := nat.
Definition handlerRef := nat.

(** [mutation.Callbacks] and [custompolicy.PreTrade]. *)
Record Callbacks := mkCallbacks { cb_handle : Z; commit : funcRef; rollback : funcRef }.
Record PreTrade := mkPreTrade {
  impl : policyRef;
  dryRun : option policyRef;
  retirement : option policyRef;
  name : string;
  pt_handle : Z;
}.

(** An [any] that a handle can hold; a client's value is a [D]. *)
Inductive any (D : Type) :=
| ACallbacks (c : Callbacks)
| APreTrade (p : PreTrade)
| AValue (d : D).
Arguments ACallbacks {D} c.
Arguments APreTrade {D} p.
Arguments AValue {D} d.

(** The state of the process: the handle table with the counter it numbers handles
    from, the diagnostic sink, and everything else, the native engine included. The
    counter is a 64-bit word in Go; here it does not wrap. *)
Record GoState (D U : Type) := mkGo {
  handleIdx : Z;
  handles : gmap Z (any D);
  sink : option handlerRef;
  outside : U;
}.
Arguments mkGo {D U} _ _ _ _.
Arguments handleIdx {D U} _.
Arguments handles {D U} _.
Arguments sink {D U} _.
Arguments outside {D U} _.

Section Cgo.
Context {D U : Type}.
Abbreviation St := (GoState D U).
Abbreviation G := (M St).

Definition withHandles (f : gmap Z (any D) -> gmap Z (any D)) (s : St) : St :=
  mkGo (handleIdx s) (f (handles s)) (sink s) (outside s).

Definition invalidHandle : panicValue := PanicOther 1.
Definition typeAssertion : panicValue := PanicOther 2.

(** *** [runtime/cgo] *)

(** The value may hold the handle it is stored under, as a pointer whose handle field
    is set next would. *)
Definition NewHandle (v : Z -> any D) : G Z := fun s =>
  let h := (handleIdx s + 1)%Z in
  (Ret h, mkGo h (<[h := v h]> (handles s)) (sink s) (outside s)).
Definition Value (h : Z) : G (any D) := fun s =>
  match handles s !! h with
  | Some v => (Ret v, s)
  | None => (Panic invalidHandle, s)
  end.
Definition Delete (h : Z) : G unit := fun s =>
  match handles s !! h with
  | Some _ => (Ret tt, withHandles (delete h) s)
  | None => (Panic invalidHandle, s)
  end.

(** *** internal/callback: a handle is passed as a pointer, bit for bit *)

Definition NewUserDataFromHandle (handle : Z) : Z := handle.
Definition NewHandleFromUserData (userData : Z) : Z := userData.

(** *** What [recover] returns

    [panicnil] is [GODEBUG=panicnil=1]. *)
Definition recovered (panicnil : bool) (v : panicValue) : option panicValue :=
  match v with
  | PanicNil => if panicnil then None else Some (PanicError PanicNilError)
  | _ => Some v
  end.

(** *** internal/diag *)

Context (runHandler : handlerRef -> error -> G unit).

Definition SetHandler (handler : option handlerRef) : G unit :=
  modify (fun s => mkGo (handleIdx s) (handles s) handler (outside s)).
Definition Report (err : error) : G unit :=
  let* handler := gets sink in
  match handler with
  | None => ret tt
  | Some handler => let* _ := recovering (runHandler handler err) in ret tt
  end.

(** ** What code outside the SDK may do with handles

    A hook, a finalizer or a native call makes handles, and lets go of handles of
    mutations: it reaches no handle of a policy or of a client's value that was there
    before. *)
Definition keeps (s s' : St) : Prop :=
  (handleIdx s <= handleIdx s')%Z /\
  forall h, (h <= handleIdx s)%Z ->
    handles s' !! h = handles s !! h \/
    exists c, handles s !! h = Some (ACallbacks c) /\ handles s' !! h = None.

(** Handles are numbered from one and never reused. *)
Definition handlesOk (s : St) : Prop :=
  (0 <= handleIdx s)%Z /\ forall h, is_Some (handles s !! h) -> (0 < h <= handleIdx s)%Z.

#[export] Instance keeps_preorder : PreOrder keeps.
Proof.
  split; [intros s; split; [lia|by left]|].
  intros s1 s2 s3 [I1 H1] [I2 H2]. split; [lia|]. intros h Hh.
  destruct (H1 h Hh) as [E1|(c & E1 & E1')], (H2 h ltac:(lia)) as [E2|(c' & E2 & E2')].
  - left. congruence.
  - right. exists c'. split; congruence.
  - right. exists c. split; congruence.
  - congruence.
Qed.

Lemma keeps_value s s' h v :
  handlesOk s -> keeps s s' -> handles s !! h = Some v -> (forall c, v <> ACallbacks c) ->
  handles s' !! h = Some v.
Proof.
  intros [_ Hs] [_ H] E Hv. destruct (H h) as [->|(c & E' & _)]; [|done|].
  - by destruct (Hs h ltac:(by eexists)).
  - destruct (Hv c). congruence.
Qed.
Lemma keeps_gone s s' h :
  keeps s s' -> (h <= handleIdx s)%Z -> handles s !! h = None -> handles s' !! h = None.
Proof. intros [_ H] Hh E. destruct (H h Hh) as [->|(c & E' & _)]; congruence. Qed.

Lemma keeps_same s s' : handles s' = handles s -> handleIdx s' = handleIdx s -> keeps s s'.
Proof. intros E1 E2. split; [lia|]. intros h _. left. by rewrite E1. Qed.

(** A call that neither makes nor deletes a handle. *)
Definition quiet {A} (m : G A) : Prop :=
  preserves (fun s s' => handles s' = handles s /\ handleIdx s' = handleIdx s) m.
#[export] Instance same_table_preorder :
  PreOrder (fun s s' : St => handles s' = handles s /\ handleIdx s' = handleIdx s).
Proof. split; [done|]. intros ??? [] []. split; congruence. Qed.
Lemma quiet_keeps {A} (m : G A) : quiet m -> preserves keeps m.
Proof. intros H s. destruct (H s). by apply keeps_same. Qed.

Lemma Value_quiet h : quiet (Value h).
Proof. intros s. unfold Value. by destruct (handles s !! h). Qed.

Lemma NewHandle_keeps v : preserves keeps (NewHandle v).
Proof.
  intros s. split; cbn; [lia|]. intros h Hh. left. apply lookup_insert_ne. lia.
Qed.
Lemma NewHandle_ok v s : handlesOk s -> handlesOk (snd (NewHandle v s)).
Proof.
  intros [H0 Hs]. split; cbn; [lia|]. intros h [x E].
  destruct (decide (h = handleIdx s + 1)%Z) as [->|]; [lia|].
  rewrite lookup_insert_ne in E by congruence. specialize (Hs h ltac:(by eexists)). lia.
Qed.
Lemma Delete_ok h s : handlesOk s -> handlesOk (snd (Delete h s)).
Proof.
  intros [H0 Hs]. unfold Delete. destruct (handles s !! h) as [v|]; [|done]. split; cbn; [lia|].
  intros h' [x E]. apply lookup_delete_Some in E as [_ E]. apply Hs. by eexists.
Qed.
Lemma Delete_live h v s :
  handles s !! h = Some v -> Delete h s = (Ret tt, withHandles (delete h) s).
Proof. unfold Delete. by intros ->. Qed.
Lemma Delete_dead h s : handles s !! h = None -> Delete h s = (Panic invalidHandle, s).
Proof. unfold Delete. by intros ->. Qed.
Lemma Value_live h v s : handles s !! h = Some v -> Value h s = (Ret v, s).
Proof. unfold Value. by intros ->. Qed.
Lemma Value_dead h s : handles s !! h = None -> Value h s = (Panic invalidHandle, s).
Proof. unfold Value. by intros ->. Qed.

(** *** Reporting never panics *)

Definition returns {A} (m : G A) : Prop := forall s, exists a s', m s = (Ret a, s').

Lemma returns_ret {A} (a : A) : returns (ret a).
Proof. intros s. by exists a, s. Qed.
Lemma returns_bind {A B} (m : G A) (f : A -> G B) :
  returns m -> (forall a, returns (f a)) -> returns (bind m f).
Proof. intros Hm Hf s. destruct (Hm s) as (a & s' & E). rewrite (bind_Ret _ _ _ _ _ E). apply Hf. Qed.
Lemma returns_recovering {A} (m : G A) : returns (recovering m).
Proof. intros s. unfold recovering. destruct (m s) as [o s']. by exists o, s'. Qed.
Lemma returns_gets {A} (f : St -> A) : returns (gets f).
Proof. intros s. by exists (f s), s. Qed.
Lemma returns_Report e : returns (Report e).
Proof.
  apply returns_bind; [apply returns_gets|]. intros [h|]; [|apply returns_ret].
  apply returns_bind; [apply returns_recovering|intros; apply returns_ret].
Qed.
Lemma Report_preserves (R : St -> St -> Prop) `{!PreOrder R} e :
  (forall h e, preserves R (runHandler h e)) -> preserves R (Report e).
Proof.
  intros H. apply preserves_bind; [done|by apply preserves_gets|]. intros [h|]; [|by apply preserves_ret].
  apply preserves_bind; [done|by apply preserves_recovering|intros; by apply preserves_ret].
Qed.
End Cgo.

#[export] Hint Resolve returns_ret returns_bind returns_recovering returns_gets returns_Report
  Value_quiet quiet_keeps NewHandle_keeps : pit.
