(* ===== verification/Mutations.v ===== *)
(** * Mutations

    A policy hook that changes state ahead of the decision records a commit and a
    rollback function with the engine: tx/mutations.go, internal/mutation/register.go
    and the exported callbacks of internal/mutation/callbacks.go, through which the
    engine runs one of the two functions and then lets the pair go. The pair lives in
    the handle table ([CgoHandles]) from its registration to the [free] callback.

    The native calls are parameters: they are given the pair's user data and answer
    with an error or nothing. *)
From Stdlib Require Import ZArith Lia.
From stdpp Require Import base list gmap strings.
From S2P Require Import Prelude GoRuntime CgoHandles.

Section Mutations.
Context {D U : Type}.
Abbreviation St := (GoState D U).
Abbreviation G := (M St).
Context (runFunc : funcRef -> G unit).
Context (runHandler : handlerRef -> error -> G unit).
Context (fmt_v : option panicValue -> string).
Context (panicnil : bool).

(** ** internal/mutation/callbacks.go *)

Definition NewCallbacks (commit rollback : funcRef) : G Callbacks :=
  let* h := NewHandle (fun h => ACallbacks (mkCallbacks h commit rollback)) in
  ret (mkCallbacks h commit rollback).
Definition CallbacksClose (c : Callbacks) : G unit := Delete (cb_handle c).
Definition CallbacksHandle (c : Callbacks) : Z := NewUserDataFromHandle (cb_handle c).

Definition getCallbacks (userData : Z) : G Callbacks :=
  let* v := Value (NewHandleFromUserData userData) in
  match v with
  | ACallbacks c => ret c
  | _ => panic typeAssertion
  end.

(** What an exported callback writes to its error argument, when it has one. *)
Definition writeMutationCallbackError (outError : bool) (message : string) : option string :=
  if outError then Some message else None.

Definition mutationFailed (outError : bool) (message : string) (v : panicValue) : bool * option string :=
  match recovered panicnil v with
  | Some r => (false, writeMutationCallbackError outError (message ++ fmt_v (Some r)))
  | None => (false, None)
  end.

Definition pitMutationCommit (userData : Z) (outError : bool) : G (bool * option string) :=
  let* o := recovering (let* c := getCallbacks userData in runFunc (commit c)) in
  match o with
  | Ret _ => ret (true, None)
  | Panic v => ret (mutationFailed outError "Go mutation commit callback panic: " v)
  end.
Definition pitMutationRollback (userData : Z) (outError : bool) : G (bool * option string) :=
  let* o := recovering (let* c := getCallbacks userData in runFunc (rollback c)) in
  match o with
  | Ret _ => ret (true, None)
  | Panic v => ret (mutationFailed outError "Go mutation rollback callback panic: " v)
  end.

Definition mutationFreePanicked (v : option panicValue) : error :=
  ESentinel ("mutation free callback panicked: " ++ fmt_v v).
Definition mutationForeignUserData : error :=
  ESentinel "mutation free callback got foreign user data".

Definition pitMutationFree (userData : Z) : G unit :=
  let handle := NewHandleFromUserData userData in
  let* o := recovering
    (let* v := Value handle in
     match v with
     | ACallbacks c => CallbacksClose c
     | _ => Delete handle ;;; Report runHandler mutationForeignUserData
     end) in
  match o with
  | Ret _ => ret tt
  | Panic v => match recovered panicnil v with
               | Some r => Report runHandler (mutationFreePanicked (Some r))
               | None => ret tt
               end
  end.

(** ** Registration *)

Definition ErrCommitNil : error := ESentinel "mutation commit callback is nil".
Definition ErrRollbackNil : error := ESentinel "mutation rollback callback is nil".

(** Both registrations, over the native call that takes the user data. *)
Definition registerMutation (native : Z -> G (option error)) (commit rollback : option funcRef)
    : G (option error) :=
  match commit with
  | None => ret (Some ErrCommitNil)
  | Some commit =>
    match rollback with
    | None => ret (Some ErrRollbackNil)
    | Some rollback =>
      let* callbacks := NewCallbacks commit rollback in
      let* err := native (CallbacksHandle callbacks) in
      match err with
      | Some err => CallbacksClose callbacks ;;; ret (Some err)
      | None => ret None
      end
    end
  end.

(** [Mutations.Push] and [Context.RecordDropCopyStartMutation]. *)
Context (MutationsPush PretradeContextRecordDropCopyStartMutation : Z -> Z -> G (option error)).
Definition Push (m : Z) : option funcRef -> option funcRef -> G (option error) :=
  registerMutation (MutationsPush m).
Definition RecordDropCopyStartMutation (ctx : Z) : option funcRef -> option funcRef -> G (option error) :=
  registerMutation (PretradeContextRecordDropCopyStartMutation ctx).

(** ** Facts *)

Lemma pitMutationCommit_returns ud e : returns (pitMutationCommit ud e).
Proof. apply returns_bind; [apply returns_recovering|intros []; apply returns_ret]. Qed.
Lemma pitMutationRollback_returns ud e : returns (pitMutationRollback ud e).
Proof. apply returns_bind; [apply returns_recovering|intros []; apply returns_ret]. Qed.
Lemma pitMutationFree_returns ud : returns (pitMutationFree ud).
Proof.
  apply returns_bind; [apply returns_recovering|]. intros [[]|v]; [apply returns_ret|].
  destruct (recovered panicnil v); [apply returns_Report|apply returns_ret].
Qed.

(** *** A callback on a live pair, and on a pair that is gone *)

Lemma getCallbacks_live ud c s :
  handles s !! ud = Some (ACallbacks c) -> getCallbacks ud s = (Ret c, s).
Proof. intros E. unfold getCallbacks, NewHandleFromUserData, bind. by rewrite (Value_live _ _ _ E). Qed.
Lemma getCallbacks_dead ud s :
  handles s !! ud = None -> getCallbacks ud s = (Panic invalidHandle, s).
Proof. intros E. unfold getCallbacks, NewHandleFromUserData, bind. by rewrite (Value_dead _ _ E). Qed.

Definition finalizer (which : bool) : Z -> bool -> G (bool * option string) :=
  if which then pitMutationCommit else pitMutationRollback.
Definition function (which : bool) (c : Callbacks) : funcRef := if which then commit c else rollback c.

Lemma finalizer_live which ud e c s :
  handles s !! ud = Some (ACallbacks c) ->
  exists r, finalizer which ud e s = (Ret r, snd (runFunc (function which c) s)) /\
    (fst r = true <-> fst (runFunc (function which c) s) = Ret tt).
Proof.
  intros E. destruct which; unfold finalizer, pitMutationCommit, pitMutationRollback, recovering, bind;
    rewrite (getCallbacks_live _ _ _ E); cbn [function];
    (destruct (runFunc _ s) as [[[]|v] s']; eexists; (split; [reflexivity|]); cbn;
     [done|unfold mutationFailed; destruct (recovered panicnil v); by split]).
Qed.
Lemma finalizer_dead which ud e s :
  handles s !! ud = None -> exists r, finalizer which ud e s = (Ret (false, r), s).
Proof.
  intros E. destruct which; unfold finalizer, pitMutationCommit, pitMutationRollback, recovering, bind;
    rewrite (getCallbacks_dead _ _ E); eexists; reflexivity.
Qed.

Lemma free_live ud c s :
  handles s !! ud = Some (ACallbacks c) -> cb_handle c = ud ->
  pitMutationFree ud s = (Ret tt, withHandles (delete ud) s).
Proof.
  intros E Hc. unfold pitMutationFree, recovering, bind, NewHandleFromUserData, CallbacksClose.
  rewrite (Value_live _ _ _ E), Hc, (Delete_live _ _ _ E). done.
Qed.
Lemma free_dead ud s :
  handles s !! ud = None ->
  pitMutationFree ud s = Report runHandler (mutationFreePanicked (Some invalidHandle)) s.
Proof.
  intros E. unfold pitMutationFree, recovering, bind, NewHandleFromUserData.
  by rewrite (Value_dead _ _ E).
Qed.
End Mutations.

#[export] Hint Resolve pitMutationCommit_returns pitMutationRollback_returns pitMutationFree_returns : pit.
