(* ===== verification/CustomPolicy.v ===== *)
(** * Policies written in Go

    A policy registered with the engine (internal/custompolicy): [StartPreTrade] puts it
    in the handle table and hands the engine its user data and the addresses of the
    exported callbacks; each callback finds the policy, calls its hook, and turns the
    answer, or a panic, into what the engine reads: a list of rejects, of account
    blocks, or a decision byte. The result of a callback is what crosses the C
    boundary, so an escaping panic is a [Panic] here.

    Hooks are methods of the policies of a [Program]; contexts, mutation collectors and
    result collectors are opaque native pointers. What [fmt] prints of a panic value,
    the validity check of a pushed reject, and the native calls are parameters. *)
From Stdlib Require Import ZArith Lia.
From stdpp Require Import base list gmap strings.
From S2P Require Import Prelude GoRuntime NativeOrder NativeReport NativeAdjustment CgoHandles.
From S2P Require ModelOrder ModelReport ModelAdjustment.
Abbreviation ModelOrder_t := ModelOrder.Order.t.
Abbreviation ModelReport_t := ModelReport.ExecutionReport.t.
Abbreviation ModelAdjustment_t := ModelAdjustment.AccountAdjustment.t.

(** ** What hooks answer (reject/reject.go, reject/account.go, pretrade/result.go) *)

Record Reject := mkReject {
  Reason : string; Details : string; rj_Policy : string; UserData : Z; Code : Z; Scope : Z;
}.
Record AccountBlock := mkBlock {
  bl_Reason : string; bl_Details : string; bl_Policy : string; bl_UserData : Z; bl_Code : Z;
}.
Record PolicyAccountAdjustmentResult := mkAdjustmentResult { AccountBlocks : list AccountBlock }.

Definition ScopeOrder : Z := 1.
Definition ScopeAccount : Z := 2.
Definition CodeSystemUnavailable : Z := 39.

Definition RejectNew (code : Z) (policy reason details : string) (scope : Z) : Reject :=
  mkReject reason details policy 0 code scope.
Definition NewList (rejects : list Reject) : list Reject := rejects.
Definition NewSingleItemList (code : Z) (policy reason details : string) (scope : Z) : list Reject :=
  NewList [RejectNew code policy reason details scope].
Definition NewAccountBlock (code : Z) (policy reason details : string) : AccountBlock :=
  mkBlock reason details policy 0 code.

(** [AccountRetirementDecision]. *)
Definition AccountRetirementAccept : Z := 0.
Definition AccountRetirementConfigurationReferencesAccount : Z := 1.
Definition AccountRetirementNonZeroState : Z := 2.
Definition AccountRetirementOperationInProgress : Z := 3.
Definition AccountRetirementEvaluationFailed : Z := 4.

(** A native list as the engine reads it: null, the shared accept list, or rejects. *)
Inductive rejectList := RejectListNil | AcceptRejectList | RejectListOf (rejects : list Reject).

(** ** The policy interfaces (pretrade/policy.go, dry_run_policy.go, account_retirement_policy.go) *)

Section Interfaces.
Context {D U : Type}.
Abbreviation G := (M (GoState D U)).

Record DryRunPolicy := mkDryRunPolicy {
  CheckPreTradeStartDryRun : Z -> ModelOrder_t -> G (list Reject);
  PerformPreTradeCheckDryRun : Z -> ModelOrder_t -> Z -> Z -> G (list Reject);
}.
Record AccountRetirementPolicy := mkAccountRetirementPolicy {
  RetireAccount : Z -> Z -> G Z;
}.
(** [pretrade.Policy] with the optional interfaces its dynamic type satisfies. *)
Record Policy := mkPolicy {
  Close : G unit;
  Name : G string;
  PolicyGroupID : G Z;
  CheckPreTradeStart : Z -> ModelOrder_t -> G (list Reject);
  PerformPreTradeCheck : Z -> ModelOrder_t -> Z -> Z -> G (list Reject);
  ApplyExecutionReport : Z -> ModelReport_t -> Z -> Z -> G (list AccountBlock);
  ApplyAccountAdjustment : Z -> Z -> ModelAdjustment_t -> Z -> Z ->
    G (PolicyAccountAdjustmentResult * list Reject);
  asDryRunPolicy : option DryRunPolicy;
  asAccountRetirementPolicy : option AccountRetirementPolicy;
}.
End Interfaces.
Arguments DryRunPolicy : clear implicits.
Arguments AccountRetirementPolicy : clear implicits.
Arguments Policy : clear implicits.

(** Which of the hooks the engine is given: a dry-run pair, a retirement hook. *)
Record registration := mkRegistration {
  rg_name : string; rg_groupID : Z; rg_dryRun : bool; rg_retire : bool; rg_userData : Z;
}.

(** The rest of the program, and the native library. *)
Class Program (D U : Type) := {
  policyOf : policyRef -> Policy D U;
  runFunc : funcRef -> M (GoState D U) unit;
  runHandler : handlerRef -> error -> M (GoState D U) unit;
  fmt_v : option panicValue -> string;
  panicnil : bool;
  PretradeRejectListPush : Reject -> bool;
  PushAccountBlock : Z -> AccountBlock -> M (GoState D U) unit;
  CreatePretradeCustomPreTradePolicy : registration -> M (GoState D U) (Z + error);
}.

Section CustomPolicy.
Context {D U : Type} `{!Program D U}.
Abbreviation St := (GoState D U).
Abbreviation G := (M St).

(** ** internal/convert/reject.go *)

Definition fallbackReject : Reject :=
  RejectNew CodeSystemUnavailable "openpit.callback" "custom policy callback failed"
    "reject scope is invalid" ScopeOrder.
Definition NewNativeRejectList (source : list Reject) : rejectList :=
  match source with
  | [] => AcceptRejectList
  | _ =>
    if forallb PretradeRejectListPush source then RejectListOf source
    else if PretradeRejectListPush fallbackReject then RejectListOf [fallbackReject]
    else RejectListNil
  end.
(** [None] is a null list. *)
Definition NewNativeAccountBlockListOrNil (source : list AccountBlock) : option (list AccountBlock) :=
  match source with [] => None | _ => Some source end.

(** ** Registration *)

(** The method value on a nil interface. *)
Definition nilMethod : panicValue := PanicOther 0.
Definition isSomeRef {A} (o : option A) (ref : policyRef) : option policyRef :=
  match o with Some _ => Some ref | None => None end.

Definition StartPreTrade (ref : policyRef) : G (Z + error) :=
  let policy := policyOf ref in
  let* policyName := Name policy in
  let implHandle h := mkPreTrade ref (isSomeRef (asDryRunPolicy policy) ref)
    (isSomeRef (asAccountRetirementPolicy policy) ref) policyName h in
  let* h := NewHandle (fun h => APreTrade (implHandle h)) in
  let userData := NewUserDataFromHandle h in
  let* groupID := PolicyGroupID policy in
  let* r := CreatePretradeCustomPreTradePolicy
    (mkRegistration policyName groupID
       (bool_decide (is_Some (dryRun (implHandle h))))
       (bool_decide (is_Some (retirement (implHandle h)))) userData) in
  match r with
  | inr err => Delete h ;;; ret (inr err)
  | inl policyHandle => ret (inl policyHandle)
  end.

Definition PreTradeClose (p : PreTrade) : G unit :=
  deferred (Delete (pt_handle p)) (Close (policyOf (impl p))).

(** ** The exported callbacks *)

Definition callbackPanicRejects (policyName : string) (r : option panicValue) : list Reject :=
  NewSingleItemList CodeSystemUnavailable policyName "custom policy callback panicked"
    ("panic: " ++ fmt_v r) ScopeOrder.
Definition callbackPanicAccountBlocks (policyName : string) (r : option panicValue) : list AccountBlock :=
  [NewAccountBlock CodeSystemUnavailable policyName "custom policy callback panicked"
     ("panic: " ++ fmt_v r)].

Definition getPreTrade (userData : Z) : G PreTrade :=
  let* v := Value (NewHandleFromUserData userData) in
  match v with
  | APreTrade p => ret p
  | _ => panic typeAssertion
  end.

(** A callback under its deferred function: [onPanic] is given [policyName] as the
    deferred function reads it, the default until the policy is found. *)
Definition guarded {R} (userData : Z) (onPanic : string -> panicValue -> R) (hook : PreTrade -> G R) : G R :=
  let* found := recovering (getPreTrade userData) in
  match found with
  | Panic v => ret (onPanic "openpit.callback"%string v)
  | Ret policy =>
    let* o := recovering (hook policy) in
    match o with
    | Panic v => ret (onPanic (name policy) v)
    | Ret r => ret r
    end
  end.

(** The deferred function of the callbacks that answer rejects: it acts only on a value
    that is not nil, and leaves the result nil otherwise. *)
Definition rejectPanic (policyName : string) (v : panicValue) : rejectList :=
  match recovered panicnil v with
  | Some r => NewNativeRejectList (callbackPanicRejects policyName (Some r))
  | None => RejectListNil
  end.

Definition pitPretradePreTradePolicyCheckPreTradeStart (ctx : Z) (order : OpenPitOrder)
    (userData : Z) : G rejectList :=
  guarded userData rejectPanic (fun policy =>
    let* rejects := CheckPreTradeStart (policyOf (impl policy)) ctx
      (ModelOrder.Order.NewOrderFromHandle order) in
    ret (NewNativeRejectList rejects)).

Definition pitPretradePreTradePolicyPerformPreTradeCheck (ctx : Z) (order : OpenPitOrder)
    (mutations outResult userData : Z) : G rejectList :=
  guarded userData rejectPanic (fun policy =>
    let* rejects := PerformPreTradeCheck (policyOf (impl policy)) ctx
      (ModelOrder.Order.NewOrderFromHandle order) mutations outResult in
    ret (NewNativeRejectList rejects)).

(** [completed] tells a finished call from [panic(nil)]. *)
Definition pitPretradePreTradePolicyApplyExecutionReport (ctx : Z) (report : OpenPitExecutionReport)
    (outAdjustments outAccountPnls userData : Z) : G (option (list AccountBlock)) :=
  guarded userData
    (fun policyName v => NewNativeAccountBlockListOrNil
       (callbackPanicAccountBlocks policyName (recovered panicnil v)))
    (fun policy =>
      let* blocks := ApplyExecutionReport (policyOf (impl policy)) ctx
        (ModelReport.ExecutionReport.NewExecutionReportFromHandle report) outAdjustments outAccountPnls in
      ret (NewNativeAccountBlockListOrNil blocks)).

Fixpoint pushAccountBlocks (outResult : Z) (blocks : list AccountBlock) : G unit :=
  match blocks with
  | [] => ret tt
  | block :: blocks => PushAccountBlock outResult block ;;; pushAccountBlocks outResult blocks
  end.
Definition pitPretradePreTradePolicyApplyAccountAdjustment (ctx accountID : Z)
    (adjustment : OpenPitAccountAdjustment) (mutations outResult userData : Z) : G rejectList :=
  guarded userData rejectPanic (fun policy =>
    let* (result, rejects) := ApplyAccountAdjustment (policyOf (impl policy)) ctx accountID
      (ModelAdjustment.AccountAdjustment.NewAccountAdjustmentFromHandle adjustment) mutations outResult in
    pushAccountBlocks outResult (AccountBlocks result) ;;;
    ret (NewNativeRejectList rejects)).

(** The method of the retirement interface held, if any. *)
Definition retire (ref : option policyRef) (accountID mutations : Z) : G Z :=
  match ref ≫= fun ref => asAccountRetirementPolicy (policyOf ref) with
  | Some p => RetireAccount p accountID mutations
  | None => panic nilMethod
  end.
Definition pitPretradePreTradePolicyRetireAccount (accountID mutations userData : Z) : G Z :=
  guarded userData (fun _ _ => AccountRetirementEvaluationFailed)
    (fun policy => retire (retirement policy) accountID mutations).

Definition dryRunHook {A} (ref : option policyRef) (f : DryRunPolicy D U -> G A) : G A :=
  match ref ≫= fun ref => asDryRunPolicy (policyOf ref) with
  | Some p => f p
  | None => panic nilMethod
  end.
Definition pitPretradePreTradePolicyCheckPreTradeStartDryRun (ctx : Z) (order : OpenPitOrder)
    (userData : Z) : G rejectList :=
  guarded userData rejectPanic (fun policy =>
    let* rejects := dryRunHook (dryRun policy) (fun p =>
      CheckPreTradeStartDryRun p ctx (ModelOrder.Order.NewOrderFromHandle order)) in
    ret (NewNativeRejectList rejects)).
Definition pitPretradePreTradePolicyPerformPreTradeCheckDryRun (ctx : Z) (order : OpenPitOrder)
    (mutations outResult userData : Z) : G rejectList :=
  guarded userData rejectPanic (fun policy =>
    let* rejects := dryRunHook (dryRun policy) (fun p =>
      PerformPreTradeCheckDryRun p ctx (ModelOrder.Order.NewOrderFromHandle order) mutations outResult) in
    ret (NewNativeRejectList rejects)).

Definition closePanicked (v : option panicValue) : error :=
  ESentinel ("custom pre-trade policy close callback panicked: " ++ fmt_v v).
Definition closeForeignUserData : error :=
  ESentinel "custom pre-trade policy close callback got foreign user data".
Definition pitPretradePreTradePolicyClose (userData : Z) : G unit :=
  let handle := NewHandleFromUserData userData in
  let* o := recovering
    (let* v := Value handle in
     match v with
     | APreTrade policy => PreTradeClose policy
     | _ => Delete handle ;;; Report runHandler closeForeignUserData
     end) in
  match o with
  | Ret _ => ret tt
  | Panic v => match recovered panicnil v with
               | Some r => Report runHandler (closePanicked (Some r))
               | None => ret tt
               end
  end.
End CustomPolicy.
