(* ===== verification/CallbackFacts.v ===== *)
(** * What the callbacks guarantee

    Everything the native engine can call of a Go program is one [nativeCallback]. For
    every program: no panic crosses the C boundary; a hook that fails is never read as
    an acceptance; a recorded mutation runs through the callbacks until it is freed and
    never after; and a registered policy lives from its registration to its close. *)
From Stdlib Require Import ZArith Lia.
From stdpp Require Import base list gmap strings.
From S2P Require Import Prelude GoRuntime NativeOrder NativeReport NativeAdjustment CgoHandles Mutations.
From S2P Require Import CustomPolicy.
From S2P Require ModelOrder ModelReport ModelAdjustment.

Inductive nativeCallback :=
| CbCheckPreTradeStart (ctx : Z) (order : OpenPitOrder) (userData : Z)
| CbCheckPreTradeStartDryRun (ctx : Z) (order : OpenPitOrder) (userData : Z)
| CbPerformPreTradeCheck (ctx : Z) (order : OpenPitOrder) (mutations outResult userData : Z)
| CbPerformPreTradeCheckDryRun (ctx : Z) (order : OpenPitOrder) (mutations outResult userData : Z)
| CbApplyExecutionReport (ctx : Z) (report : OpenPitExecutionReport) (outAdjustments outPnls userData : Z)
| CbApplyAccountAdjustment (ctx accountID : Z) (adjustment : OpenPitAccountAdjustment)
    (mutations outResult userData : Z)
| CbRetireAccount (accountID mutations userData : Z)
| CbPolicyClose (userData : Z)
| CbMutation (commits : bool) (userData : Z) (outError : bool)
| CbMutationFree (userData : Z).

Inductive callbackAnswer :=
| AnsRejects (l : rejectList)
| AnsBlocks (l : option (list AccountBlock))
| AnsDecision (decision : Z)
| AnsMutation (r : bool * option string)
| AnsNothing.

Section Callbacks.
Context {D U : Type} `{!Program D U}.
Abbreviation St := (GoState D U).
Abbreviation G := (M St).

Definition answering {A} (f : A -> callbackAnswer) (m : G A) : G callbackAnswer :=
  let* a := m in ret (f a).
Definition nothing (_ : unit) : callbackAnswer := AnsNothing.
Definition runCallback (cb : nativeCallback) : G callbackAnswer :=
  match cb with
  | CbCheckPreTradeStart ctx order ud =>
    answering AnsRejects (pitPretradePreTradePolicyCheckPreTradeStart ctx order ud)
  | CbCheckPreTradeStartDryRun ctx order ud =>
    answering AnsRejects (pitPretradePreTradePolicyCheckPreTradeStartDryRun ctx order ud)
  | CbPerformPreTradeCheck ctx order mutations out ud =>
    answering AnsRejects (pitPretradePreTradePolicyPerformPreTradeCheck ctx order mutations out ud)
  | CbPerformPreTradeCheckDryRun ctx order mutations out ud =>
    answering AnsRejects (pitPretradePreTradePolicyPerformPreTradeCheckDryRun ctx order mutations out ud)
  | CbApplyExecutionReport ctx report adjustments pnls ud =>
    answering AnsBlocks (pitPretradePreTradePolicyApplyExecutionReport ctx report adjustments pnls ud)
  | CbApplyAccountAdjustment ctx account adjustment mutations out ud =>
    answering AnsRejects
      (pitPretradePreTradePolicyApplyAccountAdjustment ctx account adjustment mutations out ud)
  | CbRetireAccount account mutations ud =>
    answering AnsDecision (pitPretradePreTradePolicyRetireAccount account mutations ud)
  | CbPolicyClose ud => answering nothing (pitPretradePreTradePolicyClose ud)
  | CbMutation commits ud e => answering AnsMutation (finalizer runFunc fmt_v panicnil commits ud e)
  | CbMutationFree ud => answering nothing (pitMutationFree runHandler fmt_v panicnil ud)
  end.

(** ** No panic crosses the boundary *)

Lemma guarded_returns {R} ud onPanic (hook : PreTrade -> G R) : returns (guarded ud onPanic hook).
Proof.
  apply returns_bind; [apply returns_recovering|]. intros [p|v]; [|apply returns_ret].
  apply returns_bind; [apply returns_recovering|]. intros [r|v]; apply returns_ret.
Qed.
Lemma close_returns ud : returns (pitPretradePreTradePolicyClose ud).
Proof.
  apply returns_bind; [apply returns_recovering|]. intros [[]|v]; [apply returns_ret|].
  destruct (recovered panicnil v); [apply returns_Report|apply returns_ret].
Qed.

Lemma callbacks_contain (cb : nativeCallback) : returns (runCallback cb).
Proof.
  destruct cb as [| | | | | | |ud|[] ud e|ud]; apply returns_bind; try (intros; apply returns_ret);
    try apply guarded_returns;
    [apply close_returns|apply pitMutationCommit_returns|apply pitMutationRollback_returns|
     apply pitMutationFree_returns].
Qed.

(** C19: Whatever policies, mutation functions and the diagnostic handler do, and
    whatever user data the engine passes, a freed handle or one of another kind
    included, every exported callback returns to the engine. *)
Theorem callbacks_contain_panics (cb : nativeCallback) (s : St) :
  exists a s', runCallback cb s = (Ret a, s').
Proof. apply callbacks_contain. Qed.

(** ** A failing hook is not an acceptance *)

Definition policyAt (ud : Z) (s : St) : option PreTrade :=
  match handles s !! ud with Some (APreTrade p) => Some p | _ => None end.

Definition wrongHandle (ud : Z) (s : St) : panicValue :=
  match handles s !! ud with Some _ => typeAssertion | None => invalidHandle end.
Lemma wrongHandle_recovered ud s : recovered panicnil (wrongHandle ud s) <> None.
Proof. unfold wrongHandle. by destruct (handles s !! ud). Qed.

Lemma getPreTrade_spec ud s :
  getPreTrade ud s =
    match policyAt ud s with
    | Some p => (Ret p, s)
    | None => (Panic (wrongHandle ud s), s)
    end.
Proof.
  unfold getPreTrade, policyAt, wrongHandle, bind, Value, NewHandleFromUserData.
  by destruct (handles s !! ud) as [[]|].
Qed.
Lemma guarded_found {R} ud onPanic (hook : PreTrade -> G R) p s :
  policyAt ud s = Some p ->
  guarded ud onPanic hook s =
    (Ret (match fst (hook p s) with Ret r => r | Panic v => onPanic (name p) v end), snd (hook p s)).
Proof.
  intros E. unfold guarded, recovering, bind. rewrite getPreTrade_spec, E.
  destruct (hook p s) as [[r|v] s']; done.
Qed.
Lemma guarded_missing {R} ud onPanic (hook : PreTrade -> G R) s :
  policyAt ud s = None ->
  guarded ud onPanic hook s =
    (Ret (onPanic "openpit.callback"%string (wrongHandle ud s)), s).
Proof. intros E. unfold guarded, recovering, bind. rewrite getPreTrade_spec, E. done. Qed.

(** The hook behind a callback that answers rejects, up to the list it answers. *)
Definition rejectHook (cb : nativeCallback) : option (Z * (PreTrade -> G (list Reject))) :=
  match cb with
  | CbCheckPreTradeStart ctx order ud => Some (ud, fun p =>
      CheckPreTradeStart (policyOf (impl p)) ctx (ModelOrder.Order.NewOrderFromHandle order))
  | CbCheckPreTradeStartDryRun ctx order ud => Some (ud, fun p =>
      dryRunHook (dryRun p) (fun q =>
        CheckPreTradeStartDryRun q ctx (ModelOrder.Order.NewOrderFromHandle order)))
  | CbPerformPreTradeCheck ctx order mutations out ud => Some (ud, fun p =>
      PerformPreTradeCheck (policyOf (impl p)) ctx (ModelOrder.Order.NewOrderFromHandle order) mutations out)
  | CbPerformPreTradeCheckDryRun ctx order mutations out ud => Some (ud, fun p =>
      dryRunHook (dryRun p) (fun q =>
        PerformPreTradeCheckDryRun q ctx (ModelOrder.Order.NewOrderFromHandle order) mutations out))
  | CbApplyAccountAdjustment ctx account adjustment mutations out ud => Some (ud, fun p =>
      let* (result, rejects) := ApplyAccountAdjustment (policyOf (impl p)) ctx account
        (ModelAdjustment.AccountAdjustment.NewAccountAdjustmentFromHandle adjustment) mutations out in
      pushAccountBlocks out (AccountBlocks result) ;;; ret rejects)
  | _ => None
  end.
Definition callRejectHook ud (hook : PreTrade -> G (list Reject)) : G rejectList :=
  guarded ud rejectPanic (fun p => let* rejects := hook p in ret (NewNativeRejectList rejects)).

Lemma answering_eq {A} (f : A -> callbackAnswer) (m m' : G A) s :
  m s = m' s -> answering f m s = answering f m' s.
Proof. unfold answering, bind. by intros ->. Qed.
Lemma rejectHook_spec cb ud hook s :
  rejectHook cb = Some (ud, hook) -> runCallback cb s = answering AnsRejects (callRejectHook ud hook) s.
Proof.
  destruct cb; intros [= <- <-]; try reflexivity.
  apply answering_eq.
  unfold pitPretradePreTradePolicyApplyAccountAdjustment, callRejectHook.
  destruct (policyAt userData s) as [p|] eqn:E; [|by rewrite !guarded_missing].
  rewrite !(guarded_found _ _ _ p) by done. unfold bind.
  destruct (ApplyAccountAdjustment _ _ _ _ _ _ _) as [[[r rs]|v] s']; [|done].
  by destruct (pushAccountBlocks _ _ s') as [[[]|v] s''].
Qed.

Lemma forallb_Exists {A} (f : A -> bool) l : forallb f l = false -> Exists (fun x => f x = false) l.
Proof. induction l as [|x l IH]; [done|]. cbn. destruct (f x) eqn:E; [by right; apply IH|by left]. Qed.
Lemma NewNativeRejectList_single r :
  PretradeRejectListPush r = true -> NewNativeRejectList [r] = RejectListOf [r].
Proof. intros E. unfold NewNativeRejectList. cbn. by rewrite E. Qed.

(** One reject of the whole order, in the name of a policy. *)
Definition evaluationFailed (policyName : string) (l : rejectList) : Prop :=
  exists d, l = RejectListOf [RejectNew CodeSystemUnavailable policyName
                               "custom policy callback panicked" d ScopeOrder].

Section FailClosed.
(** The native library knows the order scope. *)
Hypothesis orderScopeIsValid : forall r, Scope r = ScopeOrder -> PretradeRejectListPush r = true.

Lemma rejectPanic_fails policyName v :
  if decide (recovered panicnil v = None) then rejectPanic policyName v = RejectListNil
  else evaluationFailed policyName (rejectPanic policyName v).
Proof.
  unfold rejectPanic. destruct (recovered panicnil v) as [r|].
  - rewrite decide_False by done. unfold callbackPanicRejects, NewSingleItemList, NewList.
    rewrite NewNativeRejectList_single by (by apply orderScopeIsValid). by eexists.
  - by rewrite decide_True.
Qed.
Lemma NewNativeRejectList_all rs :
  rs <> [] ->
  (Forall (fun r => PretradeRejectListPush r = true) rs /\ NewNativeRejectList rs = RejectListOf rs) \/
  (Exists (fun r => PretradeRejectListPush r = false) rs /\ NewNativeRejectList rs = RejectListOf [fallbackReject]).
Proof.
  intros Hne. destruct rs as [|r rs]; [done|]. unfold NewNativeRejectList.
  destruct (forallb PretradeRejectListPush (r :: rs)) eqn:E.
  - left. split; [|done]. apply Forall_forall. intros x Hx.
    eapply forallb_forall in E; [done|]. by apply list_elem_of_In.
  - right. rewrite orderScopeIsValid by done. split; [|done].
    by apply forallb_Exists.
Qed.

(** C20: A hook that fails is never an acceptance. The engine reads the accept list
    exactly when the policy was found and its hook returned no rejects. Rejects go over
    whole, or, if one of them has no valid scope, as one reject that says so. A panic
    becomes one SystemUnavailable reject, account block, or EvaluationFailed decision in
    the policy's name; a [panic(nil)] that recovers nothing becomes the null list, which
    the engine reads as a failed evaluation. A handle that is not a policy's is a failed
    evaluation too. *)
Theorem hook_failures_fail_closed :
  (forall cb ud hook s, rejectHook cb = Some (ud, hook) ->
    exists l s', runCallback cb s = (Ret (AnsRejects l), s') /\
    match policyAt ud s with
    | None => evaluationFailed "openpit.callback" l /\ s' = s
    | Some p => s' = snd (hook p s) /\
      match fst (hook p s) with
      | Ret [] => l = AcceptRejectList
      | Ret rs => (Forall (fun r => PretradeRejectListPush r = true) rs /\ l = RejectListOf rs) \/
                  (Exists (fun r => PretradeRejectListPush r = false) rs /\ l = RejectListOf [fallbackReject])
      | Panic v => if decide (recovered panicnil v = None) then l = RejectListNil
                   else evaluationFailed (name p) l
      end
    end) /\
  (forall ctx report adjustments pnls ud s,
    exists l, fst (runCallback (CbApplyExecutionReport ctx report adjustments pnls ud) s) = Ret (AnsBlocks l) /\
    match policyAt ud s with
    | None => exists d, l = Some [NewAccountBlock CodeSystemUnavailable "openpit.callback"
                                   "custom policy callback panicked" d]
    | Some p =>
      match fst (ApplyExecutionReport (policyOf (impl p)) ctx
              (ModelReport.ExecutionReport.NewExecutionReportFromHandle report) adjustments pnls s) with
      | Ret blocks => default [] l = blocks
      | Panic v => exists d, l = Some [NewAccountBlock CodeSystemUnavailable (name p)
                                        "custom policy callback panicked" d]
      end
    end) /\
  (forall account mutations ud s,
    exists d, fst (runCallback (CbRetireAccount account mutations ud) s) = Ret (AnsDecision d) /\
    (d <> AccountRetirementEvaluationFailed ->
     exists p, policyAt ud s = Some p /\ fst (retire (retirement p) account mutations s) = Ret d)).
Proof.
  split; [|split].
  - intros cb ud hook s H. rewrite (rejectHook_spec _ _ _ _ H). unfold answering, bind, callRejectHook.
    destruct (policyAt ud s) as [p|] eqn:E.
    + rewrite (guarded_found _ _ _ p) by done. eexists _, _. split; [reflexivity|].
      unfold bind. destruct (hook p s) as [[rs|v] s']; cbn [fst snd]; split; [done| |done|].
      * destruct rs as [|r rs]; [done|by apply NewNativeRejectList_all].
      * apply rejectPanic_fails.
    + rewrite guarded_missing by done. eexists _, _. split; [reflexivity|]. split; [|done].
      pose proof (rejectPanic_fails "openpit.callback" (wrongHandle ud s)) as H1.
      rewrite decide_False in H1 by apply wrongHandle_recovered. done.
  - intros ctx report adjustments pnls ud s. cbn [runCallback].
    unfold answering, bind at 1, pitPretradePreTradePolicyApplyExecutionReport.
    destruct (policyAt ud s) as [p|] eqn:E.
    + rewrite (guarded_found _ _ _ p) by done. eexists. split; [reflexivity|]. unfold bind.
      destruct (ApplyExecutionReport _ _ _ _ _ s) as [[[|]|v] s']; cbn; try done. by eexists.
    + rewrite guarded_missing by done. eexists. split; [reflexivity|]. by eexists.
  - intros account mutations ud s. cbn [runCallback].
    unfold answering, bind, pitPretradePreTradePolicyRetireAccount.
    destruct (policyAt ud s) as [p|] eqn:E.
    + rewrite (guarded_found _ _ _ p) by done. eexists. split; [reflexivity|]. intros Hd. exists p.
      split; [done|]. by destruct (retire (retirement p) account mutations s) as [[d|v] s'].
    + rewrite guarded_missing by done. eexists. split; [reflexivity|]. done.
Qed.
End FailClosed.
End Callbacks.

(** ** A small program

    One policy that panics in its start hook, one handler; the outside records the
    policies that were closed and the functions that were run. *)
Definition DemoOutside : Type := list policyRef * list funcRef.
Definition demoPolicy (ref : policyRef) : Policy nat DemoOutside :=
  mkPolicy
    (modify (fun s => mkGo (handleIdx s) (handles s) (sink s) (fst (outside s) ++ [ref], snd (outside s))))
    (ret "demo"%string) (ret 7%Z)
    (fun _ _ => panic (PanicOther 5)) (fun _ _ _ _ => ret [])
    (fun _ _ _ _ => panic PanicNil) (fun _ _ _ _ _ => ret (mkAdjustmentResult [], [])) None None.
Definition demoProgram : Program nat DemoOutside := {|
  policyOf := demoPolicy;
  runFunc f := modify (fun s => mkGo (handleIdx s) (handles s) (sink s)
                                  (fst (outside s), snd (outside s) ++ [f]));
  runHandler _ _ := ret tt;
  fmt_v _ := "value"%string;
  panicnil := true;
  PretradeRejectListPush r := bool_decide (Scope r = ScopeOrder);
  PushAccountBlock _ _ := ret tt;
  CreatePretradeCustomPreTradePolicy _ := ret (inl 100%Z);
|}.
Definition demoTable : GoState nat DemoOutside :=
  mkGo 1 {[1%Z := APreTrade (mkPreTrade 3 None None "demo" 1)]} None ([], []).

Lemma hook_failures_fail_closed_witness :
  exists l s', runCallback (Program0 := demoProgram) (CbCheckPreTradeStart 0 NewOrder 1) demoTable =
      (Ret (AnsRejects l), s') /\ evaluationFailed "demo" l.
Proof.
  destruct (hook_failures_fail_closed (Program0 := demoProgram)
    (fun r H => bool_decide_eq_true_2 (Scope r = ScopeOrder) H)) as (H & _ & _).
  destruct (H (CbCheckPreTradeStart 0 NewOrder 1) 1%Z _ demoTable eq_refl) as (l & s' & E & Hl).
  exists l, s'. split; [exact E|]. apply Hl.
Defined.
