(* ===== verification/CallbackLives.v ===== *)
(** * How long policies and mutations live

    A recorded mutation runs through its callbacks until the engine frees it and never
    after; a registered policy is live from its registration to its close, is closed
    once, and its handle is gone afterwards. Policies, mutation functions, handlers and
    native calls are any that reach no handles of others ([polite]). *)
From Stdlib Require Import ZArith Lia.
From stdpp Require Import base list gmap strings.
From S2P Require Import Prelude GoRuntime NativeOrder NativeReport NativeAdjustment CgoHandles Mutations.
From S2P Require Import CustomPolicy CallbackFacts.
From S2P Require ModelOrder ModelReport ModelAdjustment.

Section Polite.
Context {D U : Type}.
Abbreviation St := (GoState D U).
Abbreviation G := (M St).

(** A stored object knows the handle it is stored under. *)
Definition selfHandle (h : Z) (v : any D) : Prop :=
  match v with ACallbacks c => cb_handle c = h | APreTrade p => pt_handle p = h | AValue _ => True end.
Definition tableOk (s : St) : Prop :=
  handlesOk s /\ forall h v, handles s !! h = Some v -> selfHandle h v.

Definition polite (s s' : St) : Prop := keeps s s' /\ (tableOk s -> tableOk s').
#[export] Instance polite_preorder : PreOrder polite.
Proof. split; [done|]. intros s1 s2 s3 [K1 T1] [K2 T2]. split; [by transitivity s2|naive_solver]. Qed.

Lemma polite_same s s' : handles s' = handles s -> handleIdx s' = handleIdx s -> polite s s'.
Proof.
  intros E1 E2. split; [by apply keeps_same|]. intros [[H0 Hh] Hs].
  split; [split; [lia|]|]; [intros h; rewrite E1, E2; apply Hh|intros h v; rewrite E1; apply Hs].
Qed.
Lemma quiet_polite {A} (m : G A) : quiet m -> preserves polite m.
Proof. intros H s. destruct (H s). by apply polite_same. Qed.
Lemma NewHandle_tableOk v s : (forall h, selfHandle h (v h)) -> tableOk s -> tableOk (snd (NewHandle v s)).
Proof.
  intros Hv [Hh Hs]. split; [by apply NewHandle_ok|]. intros h x E. cbn in E.
  apply lookup_insert_Some in E as [[<- <-]|[_ E]]; [done|by apply Hs].
Qed.
Lemma NewHandle_polite v : (forall h, selfHandle h (v h)) -> preserves polite (NewHandle v).
Proof. intros Hv s. split; [apply NewHandle_keeps|by apply NewHandle_tableOk]. Qed.
Lemma Delete_tableOk h s : tableOk s -> tableOk (snd (Delete h s)).
Proof.
  intros [Hh Hs]. split; [by apply Delete_ok|]. intros h' v. unfold Delete.
  destruct (handles s !! h); [|apply Hs]. cbn. intros E. apply lookup_delete_Some in E as [_ E]. by apply Hs.
Qed.

(** *** One handle, over steps that may delete others

    [tracks ud]: handles are not reused, the table stays well-formed, and what [ud]
    holds, or that it holds nothing, does not change unless it is a mutation. *)
Definition settledAt (ud : Z) (s : St) : Prop :=
  (ud <= handleIdx s)%Z /\ forall c, handles s !! ud <> Some (ACallbacks c).
Definition tracks (ud : Z) (s s' : St) : Prop :=
  tableOk s -> settledAt ud s -> tableOk s' /\ settledAt ud s' /\ handles s' !! ud = handles s !! ud.
#[export] Instance tracks_preorder ud : PreOrder (tracks ud).
Proof.
  split; [done|]. intros s1 s2 s3 H1 H2 T S. destruct (H1 T S) as (T2 & S2 & E2).
  destruct (H2 T2 S2) as (T3 & S3 & E3). split; [done|]. split; [done|congruence].
Qed.
Lemma polite_tracks ud s s' : polite s s' -> tracks ud s s'.
Proof.
  intros [[Hi Hk] Ht] T [Hu Hn]. assert (handles s' !! ud = handles s !! ud) as E.
  { destruct (Hk ud Hu) as [->|(c & E & _)]; [done|]. by destruct (Hn c). }
  split; [auto|]. split; [split; [lia|intros c; by rewrite E]|done].
Qed.
Lemma polite_tracks_m {A} ud (m : G A) : preserves polite m -> preserves (tracks ud) m.
Proof. intros H s. apply polite_tracks, H. Qed.
Lemma Delete_tracks ud h : h <> ud -> preserves (tracks ud) (Delete h).
Proof.
  intros Hne s T [Hu Hn]. split; [by apply Delete_tableOk|]. unfold Delete.
  destruct (handles s !! h) as [v|]; [|by split]. unfold settledAt. cbn.
  rewrite lookup_delete_ne by done. by split.
Qed.
(** A handle that is gone cannot be deleted again. *)
Lemma Delete_tracks_dead ud h s : handles s !! ud = None -> tracks ud s (snd (Delete h s)).
Proof.
  intros E. destruct (decide (h = ud)) as [->|Hne]; [|by apply Delete_tracks].
  rewrite Delete_dead by done. reflexivity.
Qed.
End Polite.
#[export] Hint Resolve polite_same quiet_polite : pit.

(** ** Programs *)

Section Programs.
Context {D U : Type} `{!Program D U}.
Abbreviation St := (GoState D U).
Abbreviation G := (M St).

Record policyPreserves (R : St -> St -> Prop) (p : Policy D U) : Prop := {
  pp_Name : preserves R (Name p);
  pp_PolicyGroupID : preserves R (PolicyGroupID p);
  pp_CheckPreTradeStart ctx o : preserves R (CheckPreTradeStart p ctx o);
  pp_PerformPreTradeCheck ctx o m r : preserves R (PerformPreTradeCheck p ctx o m r);
  pp_ApplyExecutionReport ctx o a b : preserves R (ApplyExecutionReport p ctx o a b);
  pp_ApplyAccountAdjustment ctx a o m r : preserves R (ApplyAccountAdjustment p ctx a o m r);
  pp_DryRun q : asDryRunPolicy p = Some q ->
    (forall ctx o, preserves R (CheckPreTradeStartDryRun q ctx o)) /\
    (forall ctx o m r, preserves R (PerformPreTradeCheckDryRun q ctx o m r));
  pp_Retire q : asAccountRetirementPolicy p = Some q -> forall a m, preserves R (RetireAccount q a m);
}.
(** Everything but the policies' [Close]. *)
Record programPreserves (R : St -> St -> Prop) : Prop := {
  prg_policies ref : policyPreserves R (policyOf ref);
  prg_funcs f : preserves R (runFunc f);
  prg_handlers h e : preserves R (runHandler h e);
  prg_blocks out b : preserves R (PushAccountBlock out b);
}.

Lemma preserves_mono {S A} (R R' : S -> S -> Prop) (m : M S A) :
  (forall s s', R s s' -> R' s s') -> preserves R m -> preserves R' m.
Proof. intros H Hm s. apply H, Hm. Qed.
Lemma programPreserves_mono (R R' : St -> St -> Prop) :
  (forall s s', R s s' -> R' s s') -> programPreserves R -> programPreserves R'.
Proof.
  intros H [Hp Hf Hh Hb]. split; [intros ref; destruct (Hp ref) as [? ? ? ? ? ? Hd Hr]; split| | |]; intros;
    try (by eapply preserves_mono; eauto).
  destruct (Hd q) as [H1 H2]; [done|]. split; intros; by eapply preserves_mono.
Qed.

Section Preserving.
Context (R : St -> St -> Prop) `{!PreOrder R}.
Hypothesis R_refl_quiet : forall A (m : G A), quiet m -> preserves R m.

Lemma guarded_preserves {A} ud onPanic (hook : PreTrade -> G A) :
  (forall p, preserves R (hook p)) -> preserves R (guarded ud onPanic hook).
Proof.
  intros H. unfold guarded. apply preserves_bind; [done| |intros [p|v]].
  - apply preserves_recovering, preserves_bind; [done|by apply R_refl_quiet, Value_quiet|].
    intros []; auto with pit.
  - apply preserves_bind; [done|by apply preserves_recovering|intros []; auto with pit].
  - auto with pit.
Qed.

Hypothesis Hprg : programPreserves R.

Lemma retire_preserves ref a m : preserves R (retire ref a m).
Proof.
  unfold retire. destruct ref as [ref|]; cbn; [|auto with pit].
  destruct (asAccountRetirementPolicy (policyOf ref)) as [q|] eqn:E; [|auto with pit].
  by eapply pp_Retire; [apply prg_policies|].
Qed.
Lemma dryRunHook_preserves {A} ref (f : DryRunPolicy D U -> G A) :
  (forall ref q, asDryRunPolicy (policyOf ref) = Some q -> preserves R (f q)) ->
  preserves R (dryRunHook ref f).
Proof.
  intros H. unfold dryRunHook. destruct ref as [ref|]; cbn; [|auto with pit].
  destruct (asDryRunPolicy (policyOf ref)) as [q|] eqn:E; [|auto with pit]. by eapply H.
Qed.
Lemma pushAccountBlocks_preserves out bs : preserves R (pushAccountBlocks out bs).
Proof. induction bs as [|b bs IH]; cbn; [auto with pit|]. by apply preserves_bind; [|apply prg_blocks|]. Qed.

Lemma finalizer_preserves commits ud e : preserves R (finalizer runFunc fmt_v panicnil commits ud e).
Proof.
  assert (forall f : Callbacks -> funcRef, preserves R (let* c := getCallbacks ud in runFunc (f c))) as H.
  { intros f. apply preserves_bind; [done| |intros; by apply prg_funcs].
    apply preserves_bind; [done|by apply R_refl_quiet, Value_quiet|]. intros []; auto with pit. }
  destruct commits; cbn [finalizer]; unfold pitMutationCommit, pitMutationRollback;
    (apply preserves_bind; [done|by apply preserves_recovering, H|intros []; auto with pit]).
Qed.

(** The callbacks that do not take a handle out of the table. *)
Definition takesHandle (cb : nativeCallback) : option Z :=
  match cb with CbPolicyClose ud | CbMutationFree ud => Some ud | _ => None end.
Lemma runCallback_preserves cb : takesHandle cb = None -> preserves R (runCallback cb).
Proof.
  destruct cb; intros Ht; try done; cbn [runCallback]; unfold answering;
    (apply preserves_bind; [done| |auto with pit]).
  all: try (apply guarded_preserves; intros p; try (apply preserves_bind; [done| |auto with pit])).
  - apply (pp_CheckPreTradeStart _ _ (prg_policies _ Hprg _)).
  - apply dryRunHook_preserves. intros r q Hq. by apply (pp_DryRun _ _ (prg_policies _ Hprg r) q Hq).
  - apply (pp_PerformPreTradeCheck _ _ (prg_policies _ Hprg _)).
  - apply dryRunHook_preserves. intros r q Hq. by apply (pp_DryRun _ _ (prg_policies _ Hprg r) q Hq).
  - apply (pp_ApplyExecutionReport _ _ (prg_policies _ Hprg _)).
  - apply (pp_ApplyAccountAdjustment _ _ (prg_policies _ Hprg _)).
  - intros [r rs]. apply preserves_bind; [done|apply pushAccountBlocks_preserves|auto with pit].
  - apply retire_preserves.
  - apply finalizer_preserves.
Qed.
End Preserving.
End Programs.

(** ** A recorded mutation *)

(** What happens to a pair: the engine runs one of its functions, frees it, or something
    else goes on. *)
Inductive mutationAct (S : Type) := Finalize (commits outError : bool) | Free | Elsewhere (f : S -> S).
Arguments Finalize {S} _ _.
Arguments Free {S}.
Arguments Elsewhere {S} _.

Section MutationLife.
Context {D U : Type} `{!Program D U}.
Abbreviation St := (GoState D U).
Abbreviation G := (M St).

Definition runAct (ud : Z) (a : mutationAct St) (s : St) : St :=
  match a with
  | Finalize commits e => snd (runCallback (CbMutation commits ud e) s)
  | Free => snd (runCallback (CbMutationFree ud) s)
  | Elsewhere f => f s
  end.
Definition runActs (ud : Z) (acts : list (mutationAct St)) (s : St) : St := foldl (fun s a => runAct ud a s) s acts.

Definition freed (acts : list (mutationAct St)) : bool :=
  existsb (fun a => match a with Free => true | _ => false end) acts.
(** The functions run: one per finalizer call before the pair was freed. *)
Fixpoint called (c r : funcRef) (acts : list (mutationAct St)) : list funcRef :=
  match acts with
  | [] | Free :: _ => []
  | Finalize commits _ :: acts => (if commits then c else r) :: called c r acts
  | Elsewhere _ :: acts => called c r acts
  end.

(** [ran] observes the functions that were run. *)
Context (ran : U -> list funcRef).
Definition undisturbed (s s' : St) : Prop :=
  (forall h v, handles s !! h = Some v -> handles s' !! h = Some v) /\
  (forall h, (h <= handleIdx s)%Z -> handles s !! h = None -> handles s' !! h = None) /\
  (handleIdx s <= handleIdx s')%Z.
Hypothesis funcs_run : forall f s, undisturbed s (snd (runFunc f s)) /\
  ran (outside (snd (runFunc f s))) = ran (outside s) ++ [f].
Hypothesis handlers_run : forall h e s, undisturbed s (snd (runHandler h e s)) /\
  ran (outside (snd (runHandler h e s))) = ran (outside s).
Definition elsewhereOk (a : mutationAct St) : Prop :=
  match a with
  | Elsewhere f => forall s, undisturbed s (f s) /\ ran (outside (f s)) = ran (outside s)
  | _ => True
  end.

Lemma undisturbed_same s s' : handles s' = handles s -> handleIdx s' = handleIdx s -> undisturbed s s'.
Proof. intros E1 E2. unfold undisturbed. rewrite E1, E2. by split_and!. Qed.

Lemma Report_undisturbed e s :
  undisturbed s (snd (Report runHandler e s)) /\
  ran (outside (snd (Report runHandler e s))) = ran (outside s).
Proof.
  unfold Report, bind, gets, recovering. destruct (sink s) as [h|]; [|by split; [apply undisturbed_same|]].
  cbn. specialize (handlers_run h e s). by destruct (runHandler h e s).
Qed.

(** A live pair, and one that is gone. *)
Definition pairAt (ud : Z) (c r : funcRef) (live : bool) (s : St) : Prop :=
  (ud <= handleIdx s)%Z /\ handles s !! ud = if live then Some (ACallbacks (mkCallbacks ud c r)) else None.
Lemma pairAt_undisturbed ud c r live s s' :
  undisturbed s s' -> pairAt ud c r live s -> pairAt ud c r live s'.
Proof. intros (H1 & H2 & H3) [Hi E]. split; [lia|]. destruct live; auto. Qed.

Lemma runAct_live ud c r a s :
  elsewhereOk a -> pairAt ud c r true s ->
  pairAt ud c r (match a with Free => false | _ => true end) (runAct ud a s) /\
  ran (outside (runAct ud a s)) =
    ran (outside s) ++ match a with Finalize commits _ => [if commits then c else r] | _ => [] end.
Proof.
  intros Ha [Hi E]. destruct a as [commits e| |f]; cbn [runAct runCallback].
  - destruct (finalizer_live runFunc fmt_v panicnil commits ud e _ s E) as (x & Ef & _).
    unfold answering, bind. rewrite Ef. cbn [fst snd ret].
    destruct (funcs_run (function commits (mkCallbacks ud c r)) s) as [Hu ->].
    split; [by apply (pairAt_undisturbed _ _ _ _ s)|]. by destruct commits.
  - unfold answering, bind. rewrite (free_live runHandler fmt_v panicnil ud _ s E eq_refl). cbn.
    split; [|by rewrite app_nil_r]. split; [done|]. cbn. apply lookup_delete_eq.
  - destruct (Ha s) as [Hu ->]. split; [by apply (pairAt_undisturbed _ _ _ _ s)|by rewrite app_nil_r].
Qed.
Lemma runAct_dead ud c r a s :
  elsewhereOk a -> pairAt ud c r false s ->
  pairAt ud c r false (runAct ud a s) /\ ran (outside (runAct ud a s)) = ran (outside s).
Proof.
  intros Ha [Hi E]. destruct a as [commits e| |f]; cbn [runAct runCallback].
  - destruct (finalizer_dead runFunc fmt_v panicnil commits ud e s E) as (x & Ef).
    unfold answering, bind. by rewrite Ef.
  - unfold answering, bind. rewrite (free_dead runHandler fmt_v panicnil ud s E).
    destruct (returns_Report runHandler (mutationFreePanicked fmt_v (Some invalidHandle)) s) as (x & s' & Er).
    destruct (Report_undisturbed (mutationFreePanicked fmt_v (Some invalidHandle)) s) as [Hu Hr].
    rewrite Er in *. cbn in *. by split; [apply (pairAt_undisturbed _ _ _ _ s)|].
  - destruct (Ha s) as [Hu ->]. by split; [apply (pairAt_undisturbed _ _ _ _ s)|].
Qed.

Lemma runActs_dead ud c r acts s :
  Forall elsewhereOk acts -> pairAt ud c r false s ->
  pairAt ud c r false (runActs ud acts s) /\ ran (outside (runActs ud acts s)) = ran (outside s).
Proof.
  revert s. induction acts as [|a acts IH]; intros s Ho Hp; [done|]. inversion_clear Ho.
  destruct (runAct_dead ud c r a s) as [Hp' E]; [done..|]. cbn.
  destruct (IH (runAct ud a s)) as [Hq Er]; [done..|]. split; [done|]. unfold runActs in Er. congruence.
Qed.
Lemma runActs_live ud c r acts s :
  Forall elsewhereOk acts -> pairAt ud c r true s ->
  pairAt ud c r (negb (freed acts)) (runActs ud acts s) /\
  ran (outside (runActs ud acts s)) = ran (outside s) ++ called c r acts.
Proof.
  revert s. induction acts as [|a acts IH]; intros s Ho Hp; [by rewrite app_nil_r|]. inversion_clear Ho.
  destruct (runAct_live ud c r a s) as [Hp' E]; [done..|].
  destruct a as [commits e| |f]; cbn [runActs foldl freed existsb called orb];
    try (destruct (IH _ ltac:(done) Hp') as [Hq Er]; unfold runActs, freed in *; rewrite Er, E;
         split; [exact Hq|]; by rewrite <- app_assoc).
  destruct (runActs_dead ud c r acts _ ltac:(done) Hp') as [Hq Er]. unfold runActs in *.
  rewrite Er, E. by split.
Qed.

(** A hook records a mutation with both functions or not at all; if the engine
    refuses it, its handle is deleted and neither function runs. Once it is recorded,
    whatever the engine calls on it and whatever goes on elsewhere, its functions run
    once per finalizer call before the pair is freed, in that order, never after, and
    the pair's handle is gone as soon as it is freed. A commit or a rollback and then a
    free runs that function once. *)
Theorem mutation_runs_until_freed (native : Z -> Z -> G (option error)) (m : Z) (c r : funcRef) (s : St) :
  (forall ud s, exists e s', native m ud s = (Ret e, s') /\ undisturbed s s' /\
     ran (outside s') = ran (outside s)) ->
  handlesOk s ->
  (forall r, Push native m None r s = (Ret (Some ErrCommitNil), s)) /\
  Push native m (Some c) None s = (Ret (Some ErrRollbackNil), s) /\
  RecordDropCopyStartMutation native m = Push native m /\
  exists e s1 ud, Push native m (Some c) (Some r) s = (Ret e, s1) /\
    handles s !! ud = None /\ ran (outside s1) = ran (outside s) /\
    match e with
    | Some _ => handles s1 !! ud = None
    | None => handles s1 !! ud = Some (ACallbacks (mkCallbacks ud c r)) /\
        forall acts, Forall elsewhereOk acts ->
          let s2 := runActs ud acts s1 in
          ran (outside s2) = ran (outside s1) ++ called c r acts /\
          (is_Some (handles s2 !! ud) <-> freed acts = false)
    end.
Proof.
  intros Hn [Hi Hs]. split; [done|]. split; [done|]. split; [done|].
  set (ud := (handleIdx s + 1)%Z).
  set (s0 := snd (NewHandle (fun h => ACallbacks (mkCallbacks h c r)) s)).
  assert (pairAt ud c r true s0) as Hp by (split; [cbn; lia|apply lookup_insert_eq]).
  destruct (Hn ud s0) as (e & s1 & E & Hu & Hr).
  assert (handles s !! ud = None) as Hd.
  { destruct (handles s !! ud) eqn:Ed; [|done]. destruct (Hs ud ltac:(by eexists)). lia. }
  pose proof (pairAt_undisturbed _ _ _ _ _ _ Hu Hp) as [Hi1 E1].
  exists e, (match e with Some _ => withHandles (delete ud) s1 | None => s1 end), ud.
  split.
  { transitivity ((let* err := native m ud in
      match err with
      | Some err => CallbacksClose (mkCallbacks ud c r) ;;; ret (Some err)
      | None => ret None
      end) s0); [done|]. rewrite (bind_Ret _ _ _ _ _ E).
    destruct e as [e|]; [|done]. unfold bind, CallbacksClose. cbn [cb_handle].
    by rewrite (Delete_live _ _ _ E1). }
  split; [done|]. split; [by destruct e|]. destruct e as [e|]; [cbn; apply lookup_delete_eq|].
  split; [exact E1|]. intros acts Ho s2. destruct (runActs_live ud c r acts s1) as [[_ Hq] Er]; [done|by split|].
  split; [exact Er|]. subst s2. rewrite Hq. destruct (freed acts); split; [by intros []|done|done|by eexists].
Qed.
End MutationLife.

(** ** A registered policy *)

Section PolicyLife.
Context {D U : Type} `{!Program D U}.
Abbreviation St := (GoState D U).
Abbreviation G := (M St).

(** [closes] observes the policies that were closed. *)
Context (closes : U -> list policyRef).
Definition leaves (s s' : St) : Prop := polite s s' /\ closes (outside s') = closes (outside s).
#[local] Instance leaves_preorder : PreOrder leaves.
Proof. split; [done|]. intros s1 s2 s3 [P1 C1] [P2 C2]. split; [by transitivity s2|congruence]. Qed.

Hypothesis program_leaves : programPreserves leaves.
Hypothesis close_once : forall ref s, polite s (snd (Close (policyOf ref) s)) /\
  closes (outside (snd (Close (policyOf ref) s))) = closes (outside s) ++ [ref].

Lemma program_polite : programPreserves polite.
Proof. by apply (programPreserves_mono leaves); [intros ?? []|]. Qed.

(** *** Registration *)

(** When reading the policy's name and group and creating the native object do not touch
    the table, registration adds one handle, which holds the policy, or none. *)
Lemma StartPreTrade_spec ref s :
  tableOk s ->
  quiet (Name (policyOf ref)) -> quiet (PolicyGroupID (policyOf ref)) ->
  (forall rg, quiet (CreatePretradeCustomPreTradePolicy rg)) ->
  match StartPreTrade ref s with
  | (Ret (inl _), s') => exists p, impl p = ref /\ pt_handle p = (handleIdx s + 1)%Z /\
      fst (Name (policyOf ref) s) = Ret (name p) /\
      dryRun p = isSomeRef (asDryRunPolicy (policyOf ref)) ref /\
      retirement p = isSomeRef (asAccountRetirementPolicy (policyOf ref)) ref /\
      handles s' = <[(handleIdx s + 1)%Z := APreTrade p]> (handles s) /\ tableOk s'
  | (Ret (inr _), s') => handles s' = handles s /\ tableOk s'
  | (Panic _, _) => True
  end.
Proof.
  intros T Hn Hg Hc. unfold StartPreTrade, bind at 1. specialize (Hn s).
  destruct (Name (policyOf ref) s) as [[n|v] s1]; [|done]. cbn in Hn. destruct Hn as [E1 I1].
  set (p := mkPreTrade ref (isSomeRef (asDryRunPolicy (policyOf ref)) ref)
    (isSomeRef (asAccountRetirementPolicy (policyOf ref)) ref) n (handleIdx s + 1)%Z).
  assert (tableOk s1) as T1 by (apply (polite_same s); done).
  set (v := fun h => APreTrade (mkPreTrade ref (isSomeRef (asDryRunPolicy (policyOf ref)) ref)
    (isSomeRef (asAccountRetirementPolicy (policyOf ref)) ref) n h) : any D).
  pose proof (NewHandle_tableOk v s1 ltac:(done) T1) as T2.
  set (s2 := mkGo (handleIdx s1 + 1) (<[(handleIdx s1 + 1)%Z := v (handleIdx s1 + 1)%Z]> (handles s1))
    (sink s1) (outside s1)).
  change (tableOk s2) in T2. rewrite (bind_Ret _ _ s1 (handleIdx s1 + 1)%Z s2 eq_refl).
  unfold bind at 1. specialize (Hg s2).
  destruct (PolicyGroupID (policyOf ref) s2) as [[g|x] s3]; [|done]. cbn in Hg. destruct Hg as [E3 I3].
  unfold bind at 1.
  match goal with |- context [CreatePretradeCustomPreTradePolicy ?rg s3] =>
    specialize (Hc rg s3); destruct (CreatePretradeCustomPreTradePolicy rg s3) as [[[h|e]|x] s4] end;
    [| |done]; cbn in Hc; destruct Hc as [E4 I4];
    (assert (handles s4 = <[(handleIdx s + 1)%Z := APreTrade p]> (handles s)) as E5
       by (rewrite E4, E3; cbn; by rewrite I1, E1));
    (assert (tableOk s4) as T4 by (apply (polite_same s2); [by rewrite E4|by rewrite I4|done])).
  - exists p. by split_and!.
  - unfold bind. rewrite (Delete_live _ (APreTrade p)) by (rewrite E5, I1; apply lookup_insert_eq).
    split.
    + cbn. rewrite E5, I1, delete_insert_eq. apply delete_id.
      destruct (handles s !! (handleIdx s + 1)%Z) eqn:Ed; [|done].
      destruct T as [[_ T] _]. destruct (T (handleIdx s + 1)%Z ltac:(by eexists)). lia.
    + pose proof (Delete_tableOk (handleIdx s1 + 1) s4 T4) as T5.
      rewrite (Delete_live _ (APreTrade p)) in T5 by (rewrite E5, I1; apply lookup_insert_eq). done.
Qed.

(** *** Callbacks *)

Lemma Report_leaves e : preserves leaves (Report runHandler e).
Proof. apply Report_preserves; [apply _|apply program_leaves]. Qed.
Lemma quiet_leaves {A} (m : G A) : quiet m -> preserves polite m.
Proof. apply quiet_polite. Qed.

(** The policy callback on a live policy. *)
Lemma PolicyClose_live ud p s :
  tableOk s -> handles s !! ud = Some (APreTrade p) ->
  exists s', runCallback (CbPolicyClose ud) s = (Ret AnsNothing, s') /\
    closes (outside s') = closes (outside s) ++ [impl p] /\ handles s' !! ud = None /\ tableOk s' /\
    (handleIdx s <= handleIdx s')%Z /\ (forall h, h <> ud -> tracks h s s').
Proof.
  intros T E. pose proof T as [[Hi Hh] Hs]. pose proof (Hs _ _ E) as Hp. cbn in Hp.
  destruct (close_once (impl p) s) as [Hc Ec]. cbn [runCallback].
  unfold answering, pitPretradePreTradePolicyClose, recovering, NewHandleFromUserData, bind.
  rewrite (Value_live _ _ _ E). unfold PreTradeClose, deferred. rewrite Hp.
  destruct (Close (policyOf (impl p)) s) as [o s1] eqn:Eo. cbn [snd] in Hc, Ec.
  pose proof (keeps_value _ _ _ _ (proj1 T) (proj1 Hc) E ltac:(done)) as E1.
  rewrite (Delete_live _ _ _ E1). set (s2 := withHandles (delete ud) s1).
  assert (handles s2 !! ud = None) as Ed by apply lookup_delete_eq.
  assert (tableOk s2) as T2.
  { pose proof (Delete_tableOk ud s1 (proj2 Hc T)) as T2. by rewrite (Delete_live _ _ _ E1) in T2. }
  assert (forall h, h <> ud -> tracks h s s2) as Ht.
  { intros h Hne. transitivity s1; [by apply polite_tracks|]. pose proof (Delete_tracks h ud ltac:(done) s1) as H2.
    by rewrite (Delete_live _ _ _ E1) in H2. }
  assert (forall s3, leaves s2 s3 -> closes (outside s3) = closes (outside s) ++ [impl p] /\
    handles s3 !! ud = None /\ tableOk s3 /\ (handleIdx s <= handleIdx s3)%Z /\ (forall h, h <> ud -> tracks h s s3)) as H.
  { intros s3 [P3 C3]. split; [rewrite C3; exact Ec|].
    split; [by apply (keeps_gone s2); [apply P3|cbn; pose proof (proj1 (proj1 Hc)); specialize (Hh ud ltac:(by eexists)); lia|]|].
    split; [by apply P3|]. split; [pose proof (proj1 (proj1 Hc)); pose proof (proj1 (proj1 P3)); cbn in *; lia|].
    intros h Hne. transitivity s2; [by apply Ht|by apply polite_tracks]. }
  destruct o as [[]|v]; [eexists; split; [reflexivity|by apply H]|].
  destruct (recovered panicnil v) as [r|]; [|eexists; split; [reflexivity|by apply H]].
  destruct (returns_Report runHandler (closePanicked (Some r)) s2) as (x & s3 & E3). rewrite E3.
  exists s3. split; [done|]. apply H. pose proof (Report_leaves (closePanicked (Some r)) s2) as HL. by rewrite E3 in HL.
Qed.

(** A release of another handle, or of one that holds something else. *)
Lemma release_tracks ud ud' e s :
  ud' <> ud \/ handles s !! ud = None ->
  tracks ud s (snd (Report runHandler e (snd (Delete ud' s)))).
Proof.
  intros H. transitivity (snd (Delete ud' s)).
  - destruct H; [by apply Delete_tracks|by apply Delete_tracks_dead].
  - apply polite_tracks, Report_leaves.
Qed.
Lemma answering_snd {A} (f : A -> callbackAnswer) (m : G A) s : snd (answering f m s) = snd (m s).
Proof. unfold answering, bind. by destruct (m s) as [[a|v] s']. Qed.

(** A teardown callback on a handle of another kind, and on none. *)
Definition otherThan (isMine : any D -> bool) (ud : Z) (s : St) : Prop :=
  match handles s !! ud with Some v => isMine v = false | None => True end.
Lemma free_other ud s :
  otherThan (fun v => match v with ACallbacks _ => true | _ => false end) ud s ->
  exists e, snd (pitMutationFree runHandler fmt_v panicnil ud s) = snd (Report runHandler e (snd (Delete ud s))).
Proof.
  unfold otherThan, pitMutationFree, recovering, NewHandleFromUserData, bind.
  destruct (handles s !! ud) as [v|] eqn:E.
  - intros H. rewrite (Value_live _ _ _ E), (Delete_live _ _ _ E).
    destruct (returns_Report runHandler mutationForeignUserData (withHandles (delete ud) s)) as (x & s' & Er).
    exists mutationForeignUserData. destruct v; try done; rewrite (Delete_live _ _ _ E), Er; cbn [snd]; by rewrite Er.
  - intros _. rewrite (Value_dead _ _ E), (Delete_dead _ _ E). by eexists.
Qed.
Lemma close_other ud s :
  otherThan (fun v => match v with APreTrade _ => true | _ => false end) ud s ->
  exists e, snd (pitPretradePreTradePolicyClose ud s) = snd (Report runHandler e (snd (Delete ud s))).
Proof.
  unfold otherThan, pitPretradePreTradePolicyClose, recovering, NewHandleFromUserData, bind.
  destruct (handles s !! ud) as [v|] eqn:E.
  - intros H. rewrite (Value_live _ _ _ E), (Delete_live _ _ _ E).
    destruct (returns_Report runHandler closeForeignUserData (withHandles (delete ud) s)) as (x & s' & Er).
    exists closeForeignUserData. destruct v; try done; rewrite (Delete_live _ _ _ E), Er; cbn [snd]; by rewrite Er.
  - intros _. rewrite (Value_dead _ _ E), (Delete_dead _ _ E). by eexists.
Qed.

Lemma runCallback_tracks ud cb s :
  takesHandle cb <> Some ud \/ handles s !! ud = None -> tracks ud s (snd (runCallback cb s)).
Proof.
  intros H. destruct (takesHandle cb) as [ud'|] eqn:Et.
  2: { apply polite_tracks. apply (runCallback_preserves polite);
         [intros A m Hm; by apply quiet_polite|apply program_polite|done]. }
  assert (ud' <> ud \/ handles s !! ud = None) as H' by (destruct H; [left; congruence|by right]). clear H.
  destruct cb as [| | | | | | |u| |u]; try discriminate Et; injection Et as ->; intros T S.
  - destruct (handles s !! ud') as [[c|p|d]|] eqn:E.
    2: { destruct (PolicyClose_live ud' p s T E) as (s' & -> & _ & _ & _ & _ & Ht).
         cbn [snd]. apply Ht; [|done..]. destruct H' as [H'|H']; congruence. }
    all: cbn [runCallback]; rewrite answering_snd;
      destruct (close_other ud' s) as [e ->]; [unfold otherThan; by rewrite E|by apply release_tracks].
  - cbn [runCallback]. rewrite answering_snd. destruct (handles s !! ud') as [[c|p|d]|] eqn:E.
    1: { rewrite (free_live _ _ _ ud' c s E (proj2 T _ _ E)). cbn [snd].
         assert (ud' <> ud) as Hne by (destruct H' as [H'|H']; congruence).
         pose proof (Delete_tracks ud ud' Hne s) as Hd. rewrite (Delete_live _ _ _ E) in Hd. by apply Hd. }
    all: destruct (free_other ud' s) as [e ->]; [unfold otherThan; by rewrite E|by apply release_tracks].
Qed.

Definition runAll (cbs : list nativeCallback) (s : St) : St := foldl (fun s cb => snd (runCallback cb s)) s cbs.
Lemma runAll_tracks ud cbs s :
  (forall cb, cb ∈ cbs -> takesHandle cb <> Some ud) \/ handles s !! ud = None -> tracks ud s (runAll cbs s).
Proof.
  revert s. induction cbs as [|cb cbs IH]; intros s H; [reflexivity|].
  intros T S. destruct (runCallback_tracks ud cb s) as (T1 & S1 & E1); [|done..|].
  { destruct H as [H|H]; [left; apply H; by left|by right]. }
  destruct (IH (snd (runCallback cb s))) as (T2 & S2 & E2); [|done..|].
  { destruct H as [H|H]; [left; intros; apply H; by right|right; congruence]. }
  split; [done|]. split; [done|]. cbn. unfold runAll in E2. congruence.
Qed.

(** C29: A policy that is registered gets one handle, which holds it with the hooks its
    type has; one the engine refuses gets none. Whatever the engine calls, and whatever
    hooks do, the handle stays with the policy until the engine closes it: then its
    [Close] runs once and the handle is gone, also if [Close] panics. Afterwards nothing
    brings the handle back, and closing it again does not close the policy again. *)
Theorem policy_lives_until_closed (ref : policyRef) (s : St) :
  tableOk s ->
  quiet (Name (policyOf ref)) -> quiet (PolicyGroupID (policyOf ref)) ->
  (forall rg, quiet (CreatePretradeCustomPreTradePolicy rg)) ->
  match StartPreTrade ref s with
  | (Ret (inr _), s') => handles s' = handles s
  | (Ret (inl _), s') => exists ud p,
      handles s !! ud = None /\ handles s' = <[ud := APreTrade p]> (handles s) /\ impl p = ref /\
      fst (Name (policyOf ref) s) = Ret (name p) /\
      dryRun p = isSomeRef (asDryRunPolicy (policyOf ref)) ref /\
      retirement p = isSomeRef (asAccountRetirementPolicy (policyOf ref)) ref /\
      forall before after, (forall cb, cb ∈ before -> takesHandle cb <> Some ud) ->
        let s1 := runAll before s' in
        let s2 := snd (runCallback (CbPolicyClose ud) s1) in
        let s3 := runAll after s2 in
        handles s1 !! ud = Some (APreTrade p) /\
        closes (outside s2) = closes (outside s1) ++ [ref] /\ handles s2 !! ud = None /\
        handles s3 !! ud = None /\
        closes (outside (snd (runCallback (CbPolicyClose ud) s3))) = closes (outside s3)
  | (Panic _, _) => True
  end.
Proof.
  intros T Hn Hg Hc. pose proof (StartPreTrade_spec ref s T Hn Hg Hc) as H.
  destruct (StartPreTrade ref s) as [[[h|e]|v] s']; [|by destruct H|done].
  destruct H as (p & Hi & Hh & Hname & Hd & Hr & E & T'). exists (handleIdx s + 1)%Z, p.
  set (ud := (handleIdx s + 1)%Z) in *.
  assert (handles s' !! ud = Some (APreTrade p)) as E' by (rewrite E; apply lookup_insert_eq).
  split.
  { destruct (handles s !! ud) eqn:Ed; [|done]. destruct (proj2 (proj1 T) ud ltac:(by eexists)). lia. }
  do 5 (split; [done|]). intros before after Hb s1 s2 s3.
  assert (settledAt ud s') as S' by (split; [apply (proj2 (proj1 T')); by eexists|intros c; congruence]).
  destruct (runAll_tracks ud before s' ltac:(by left) T' S') as (T1 & [U1 _] & E1). fold s1 in T1, U1, E1.
  rewrite E' in E1. destruct (PolicyClose_live ud p s1 T1 E1) as (x & Ex & C2 & D2 & T2 & I2 & _).
  assert (s2 = x) as Es by (unfold s2; by rewrite Ex). rewrite <- Es in *.
  split; [done|]. split; [by rewrite C2, Hi|]. split; [done|].
  destruct (runAll_tracks ud after s2 ltac:(by right) T2) as (T3 & S3 & E3); [split; [lia|congruence]|].
  fold s3 in T3, S3, E3. split; [congruence|]. cbn [runCallback]. rewrite answering_snd.
  destruct (close_other ud s3) as [e ->]; [unfold otherThan; by rewrite E3, D2|].
  rewrite Delete_dead by congruence. apply (Report_leaves e s3).
Qed.
End PolicyLife.

(** ** The small program *)

Lemma demo_quiet_leaves {A} (m : M (GoState nat DemoOutside) A) :
  (forall s, snd (m s) = s) -> preserves (leaves fst) m.
Proof. intros H s. rewrite H. split; [reflexivity|done]. Qed.
Lemma demo_leaves : programPreserves (Program0 := demoProgram) (leaves fst).
Proof.
  split; [intros ref; split| | |]; intros; try done; try (by apply demo_quiet_leaves).
  intros s. split; [by apply polite_same|done].
Qed.
Lemma demo_close ref (s : GoState nat DemoOutside) :
  polite s (snd (Close (demoPolicy ref) s)) /\
  fst (outside (snd (Close (demoPolicy ref) s))) = fst (outside s) ++ [ref].
Proof. split; [by apply polite_same|done]. Qed.
Definition demoEmpty : GoState nat DemoOutside := mkGo 0 ∅ None ([], []).
Lemma demoEmpty_ok : tableOk demoEmpty.
Proof. split; [split; [done|]|]; intros h; [intros [? ?]|intros ?]; done. Qed.

Lemma mutation_runs_until_freed_witness :
  exists s1 ud, Push (fun _ _ => ret None) 0 (Some 4) (Some 5) demoEmpty = (Ret None, s1) /\
    let s2 := runActs (Program0 := demoProgram) ud [Finalize true false; Free; Finalize false true] s1 in
    snd (outside s2) = [4] /\ handles s2 !! ud = None.
Proof.
  destruct (mutation_runs_until_freed (Program0 := demoProgram) snd
    (fun f s => conj (undisturbed_same s _ eq_refl eq_refl) eq_refl)
    (fun h e s => conj (undisturbed_same s _ eq_refl eq_refl) eq_refl)
    (fun _ _ => ret None) 0 4 5 demoEmpty
    (fun ud s => ex_intro _ None (ex_intro _ s (conj eq_refl (conj (undisturbed_same s s eq_refl eq_refl) eq_refl))))
    (proj1 demoEmpty_ok)) as (_ & _ & _ & e & s1 & ud & E & _ & Hr & H).
  assert (e = None) as -> by (by injection E).
  exists s1, ud. split; [exact E|]. destruct H as [_ H].
  destruct (H [Finalize true false; Free; Finalize false true]) as [H1 H2]; [by repeat constructor|].
  split; [rewrite H1, Hr; reflexivity|]. apply eq_None_not_Some. intros Hs. by apply H2 in Hs.
Defined.

Lemma policy_lives_until_closed_witness :
  exists ud p s', StartPreTrade (Program0 := demoProgram) 3 demoEmpty = (Ret (inl 100%Z), s') /\
    let s1 := runAll (Program0 := demoProgram) [CbCheckPreTradeStart 0 NewOrder ud] s' in
    let s2 := snd (runCallback (Program0 := demoProgram) (CbPolicyClose ud) s1) in
    handles s1 !! ud = Some (APreTrade p) /\ fst (outside s2) = fst (outside s1) ++ [3] /\
    handles s2 !! ud = None.
Proof.
  pose proof (policy_lives_until_closed (Program0 := demoProgram) fst demo_leaves demo_close 3 demoEmpty
    demoEmpty_ok (fun _ => conj eq_refl eq_refl) (fun _ => conj eq_refl eq_refl)
    (fun _ _ => conj eq_refl eq_refl)) as H.
  set (s' := snd (StartPreTrade (Program0 := demoProgram) 3 demoEmpty)).
  assert (StartPreTrade (Program0 := demoProgram) 3 demoEmpty = (Ret (inl 100%Z), s')) as E by reflexivity.
  rewrite E in H. destruct H as (ud & p & Hd & Hp & _ & _ & _ & _ & H).
  destruct (H [CbCheckPreTradeStart 0 NewOrder ud] []) as (H1 & H2 & H3 & _).
  { intros cb ->%list_elem_of_singleton. done. }
  exists ud, p, s'. split; [exact E|]. exact (conj H1 (conj H2 H3)).
Defined.
