(* ===== verification/PolicyAdapter.v ===== *)
(** * Policies over client types

    pretrade/policy_adapter.go: a policy written against the client's own order and
    report types, adapted to the policy interface. The engine's record carries the
    handle of the client's value as its user data; the safe adapter checks that the
    handle is live and holds the type it wants, the fast adapter trusts it and panics
    otherwise. *)
From Stdlib Require Import ZArith Lia.
From stdpp Require Import base list gmap strings.
From S2P Require Import Prelude GoRuntime NativeOrder NativeReport NativeAdjustment CgoHandles CustomPolicy.
From S2P Require ModelOrder ModelReport ModelAdjustment.

(** A Go type a client's value can have: the conversion to [any] and the type assertion
    back. *)
Class GoType (D A : Type) := {
  box : A -> D;
  unbox : D -> option A;
  unbox_box a : unbox (box a) = Some a;
}.

(** [ClientPreTradePolicy] with the retirement interface, if its type has one. *)
Section ClientPolicy.
Context {D U Order Report : Type}.
Abbreviation G := (M (GoState D U)).
Record ClientPreTradePolicy := mkClientPolicy {
  cClose : G unit;
  cName : G string;
  cPolicyGroupID : G Z;
  cCheckPreTradeStart : Z -> Order -> G (list Reject);
  cPerformPreTradeCheck : Z -> Order -> Z -> Z -> G (list Reject);
  cApplyExecutionReport : Z -> Report -> Z -> Z -> G (list AccountBlock);
  cApplyAccountAdjustment : Z -> Z -> ModelAdjustment_t -> Z -> Z ->
    G (PolicyAccountAdjustmentResult * list Reject);
  cAsAccountRetirementPolicy : option (AccountRetirementPolicy D U);
}.
End ClientPolicy.
Arguments ClientPreTradePolicy : clear implicits.

Section Adapters.
Context {D U Order Report : Type} `{!Program D U, !GoType D Order, !GoType D Report}.
Abbreviation St := (GoState D U).
Abbreviation G := (M St).
Abbreviation Client := (ClientPreTradePolicy D U Order Report).

(** ** Payloads *)

(** The recovered value only decides between two ways to the same answer. *)
Definition safePayload {P} `{!GoType D P} (userData : Z) : G (option P) :=
  if (userData =? 0)%Z then ret None
  else
    let* o := recovering (Value (NewHandleFromUserData userData)) in
    match o with
    | Ret (AValue d) => ret (unbox d)
    | Ret _ | Panic _ => ret None
    end.
Definition safeOrderPayload (order : ModelOrder_t) : G (option Order) :=
  safePayload (OrderGetUserData (ModelOrder.Order.Handle order)).
Definition safeReportPayload (report : ModelReport_t) : G (option Report) :=
  safePayload (ExecutionReportGetUserData (ModelReport.ExecutionReport.Handle report)).

Definition unsafeFastPayload {P} `{!GoType D P} (userData : Z) : G P :=
  let* v := Value (NewHandleFromUserData userData) in
  match v with
  | AValue d => match unbox d with Some p => ret p | None => panic typeAssertion end
  | _ => panic typeAssertion
  end.
Definition unsafeFastOrderPayload (order : ModelOrder_t) : G Order :=
  unsafeFastPayload (OrderGetUserData (ModelOrder.Order.Handle order)).
Definition unsafeFastReportPayload (report : ModelReport_t) : G Report :=
  unsafeFastPayload (ExecutionReportGetUserData (ModelReport.ExecutionReport.Handle report)).

(** [typeName] is how Go prints the type. *)
Definition clientPayloadMismatchReject (typeName policyName : string) : list Reject :=
  NewSingleItemList CodeSystemUnavailable policyName "client order payload mismatch"
    ("expected client order payload type " ++ typeName) ScopeOrder.

(** ** The adapters *)

Definition withAccountRetirementPolicy (base : Policy D U) (client : Client) : Policy D U :=
  match cAsAccountRetirementPolicy client with
  | Some retirement =>
    mkPolicy (Close base) (Name base) (PolicyGroupID base) (CheckPreTradeStart base)
      (PerformPreTradeCheck base) (ApplyExecutionReport base) (ApplyAccountAdjustment base)
      None (Some retirement)
  | None => base
  end.

Context (orderType reportType : string).

Definition safeCheckPreTradeStart (p : Client) (ctx : Z) (engineOrder : ModelOrder_t) : G (list Reject) :=
  let* payload := safeOrderPayload engineOrder in
  match payload with
  | None => let* n := cName p in ret (clientPayloadMismatchReject orderType n)
  | Some order => cCheckPreTradeStart p ctx order
  end.
Definition safePerformPreTradeCheck (p : Client) (ctx : Z) (engineOrder : ModelOrder_t)
    (mutations result : Z) : G (list Reject) :=
  let* payload := safeOrderPayload engineOrder in
  match payload with
  | None => let* n := cName p in ret (clientPayloadMismatchReject orderType n)
  | Some order => cPerformPreTradeCheck p ctx order mutations result
  end.
Definition safeApplyExecutionReport (p : Client) (ctx : Z) (engineReport : ModelReport_t)
    (adjustments pnls : Z) : G (list AccountBlock) :=
  let* payload := safeReportPayload engineReport in
  match payload with
  | None =>
    let* n := cName p in
    ret [NewAccountBlock CodeSystemUnavailable n "client execution report payload mismatch"
           ("expected client execution report payload type " ++ reportType)]
  | Some report => cApplyExecutionReport p ctx report adjustments pnls
  end.
Definition safeClientPreTradePolicy (p : Client) : Policy D U :=
  mkPolicy (cClose p) (cName p) (cPolicyGroupID p) (safeCheckPreTradeStart p)
    (safePerformPreTradeCheck p) (safeApplyExecutionReport p) (cApplyAccountAdjustment p) None None.
Definition NewSafeClientPreTradePolicy (p : Client) : Policy D U :=
  withAccountRetirementPolicy (safeClientPreTradePolicy p) p.

Definition fastCheckPreTradeStart (p : Client) (ctx : Z) (engineOrder : ModelOrder_t) : G (list Reject) :=
  let* order := unsafeFastOrderPayload engineOrder in cCheckPreTradeStart p ctx order.
Definition fastPerformPreTradeCheck (p : Client) (ctx : Z) (engineOrder : ModelOrder_t)
    (mutations result : Z) : G (list Reject) :=
  let* order := unsafeFastOrderPayload engineOrder in cPerformPreTradeCheck p ctx order mutations result.
Definition fastApplyExecutionReport (p : Client) (ctx : Z) (engineReport : ModelReport_t)
    (adjustments pnls : Z) : G (list AccountBlock) :=
  let* report := unsafeFastReportPayload engineReport in cApplyExecutionReport p ctx report adjustments pnls.
Definition unsafeFastClientPreTradePolicy (p : Client) : Policy D U :=
  mkPolicy (cClose p) (cName p) (cPolicyGroupID p) (fastCheckPreTradeStart p)
    (fastPerformPreTradeCheck p) (fastApplyExecutionReport p) (cApplyAccountAdjustment p) None None.
Definition NewUnsafeFastClientPreTradePolicy (p : Client) : Policy D U :=
  withAccountRetirementPolicy (unsafeFastClientPreTradePolicy p) p.

(** ** Facts *)

Lemma safePayload_live {P} `{!GoType D P} ud (x : P) s :
  (0 < ud)%Z -> handles s !! ud = Some (AValue (box x)) -> safePayload ud s = (Ret (Some x), s).
Proof.
  intros Hu E. unfold safePayload. destruct (Z.eqb_spec ud 0); [lia|].
  unfold recovering, bind, NewHandleFromUserData. rewrite (Value_live _ _ _ E). by rewrite unbox_box.
Qed.
Lemma unsafeFastPayload_live {P} `{!GoType D P} ud (x : P) s :
  handles s !! ud = Some (AValue (box x)) -> unsafeFastPayload ud s = (Ret x, s).
Proof.
  intros E. unfold unsafeFastPayload, bind, NewHandleFromUserData.
  rewrite (Value_live _ _ _ E). by rewrite unbox_box.
Qed.

(** What the handle holds as a [P], and nothing when it holds none. *)
Definition payloadAt {P} `{!GoType D P} (ud : Z) (s : St) : option P :=
  match handles s !! ud with Some (AValue d) => unbox d | _ => None end.
Lemma safePayload_spec {P} `{!GoType D P} ud s :
  handlesOk s -> safePayload (P := P) ud s = (Ret (payloadAt ud s), s).
Proof.
  intros [_ Hs]. unfold safePayload, payloadAt, recovering, bind, Value, NewHandleFromUserData.
  destruct (Z.eqb_spec ud 0) as [->|].
  - destruct (handles s !! 0%Z) eqn:E; [|done]. by destruct (Hs 0%Z ltac:(by eexists)).
  - by destruct (handles s !! ud) as [[]|].
Qed.
Lemma unsafeFastPayload_spec {P} `{!GoType D P} ud s :
  unsafeFastPayload (P := P) ud s =
    match payloadAt ud s with
    | Some x => (Ret x, s)
    | None => (Panic match handles s !! ud with Some _ => typeAssertion | None => invalidHandle end, s)
    end.
Proof.
  unfold unsafeFastPayload, payloadAt, bind, Value, NewHandleFromUserData.
  destruct (handles s !! ud) as [[| |d]|]; try done. by destruct (unbox d).
Qed.
End Adapters.
