(* ===== verification/ClientEngine.v ===== *)
(** * The engine and the client engine

    engine.go: the calls into the native engine with the shapes of their answers; and
    client_engine.go: the same calls with the client's own values, each of which travels
    through the native engine as a handle in the record's user data. A payload handle is
    made by the call and released by it, or by the [ClientRequest] that takes it over.

    Native calls, and the methods of [pretrade.Request] (modelled in [Handles]), are
    parameters here; [runtime.KeepAlive] has no effect on the state. *)
From Stdlib Require Import ZArith Lia.
From stdpp Require Import base list gmap strings.
From S2P Require Import Prelude GoRuntime NativeOrder NativeReport NativeAdjustment CgoHandles CustomPolicy.
From S2P Require Import PolicyAdapter.
From S2P Require ModelOrder ModelReport ModelAdjustment.

(** What a call that hands out an object answers: the object, rejects, an error. *)
Definition answer : Type := option Z * option (list Reject) * option error.

(** The native engine. An object, a list of rejects and a result are opaque numbers;
    [None] is a null pointer. [PostTrade] and the two halves of [Batch] are what Go reads
    from the native results. *)
Class NativeEngine (D U PostTrade BatchError BatchOk : Type) := {
  EngineStartPreTrade : option Z -> OpenPitOrder -> M (GoState D U) (option Z * option Z * option error);
  EngineExecutePreTrade : option Z -> OpenPitOrder -> M (GoState D U) (option Z * option Z * option error);
  EngineApplyDropCopy : option Z -> OpenPitOrder -> M (GoState D U) (option Z * option Z * option error);
  EngineStartPreTradeDryRun : option Z -> OpenPitOrder -> M (GoState D U) (Z + error);
  EngineExecutePreTradeDryRun : option Z -> OpenPitOrder -> M (GoState D U) (Z + error);
  EngineApplyExecutionReport : option Z -> OpenPitExecutionReport -> M (GoState D U) (Z + error);
  EngineApplyAccountAdjustment : option Z -> Z -> list OpenPitAccountAdjustment ->
    M (GoState D U) (option Z * Z * option error);
  EngineRetireAccount : option Z -> Z -> M (GoState D U) (option Z * option error);
  DestroyEngine : option Z -> M (GoState D U) unit;
  ReadRejectList : Z -> M (GoState D U) (list Reject);
  DestroyPretradeRejectList : Z -> M (GoState D U) unit;
  ReadPostTradeResult : Z -> M (GoState D U) PostTrade;
  DestroyPostTradeResult : Z -> M (GoState D U) unit;
  NewAccountAdjustmentBatchErrorFromHandle : Z -> M (GoState D U) (BatchError + error);
  DestroyAccountAdjustmentBatchError : Z -> M (GoState D U) unit;
  ReadBatchResult : Z -> M (GoState D U) BatchOk;
  NewAccountRetirementErrorFromHandle : Z -> M (GoState D U) error;
  RequestExecute : Z -> M (GoState D U) answer;
  RequestClose : Z -> M (GoState D U) unit;
}.

Module SyncEngine.
Section Engine.
Context {D U PostTrade BatchError BatchOk : Type} `{!NativeEngine D U PostTrade BatchError BatchOk}.
Abbreviation St := (GoState D U).
Abbreviation G := (M St).

(** ** engine.go *)

Record Engine := mkEngine { handle : option Z }.

Definition Stop (e : Engine) : G Engine := DestroyEngine (handle e) ;;; ret (mkEngine None).

Definition NewListFromHandle (handle : Z) : G (list Reject + error) :=
  let* rejects := ReadRejectList handle in
  match rejects with
  | [] => ret (inr (ESentinel "reject list is not provided"))
  | _ => ret (inl rejects)
  end.

(** The common shape of the three calls that hand out an object. *)
Definition handOut (failure : string) (native : G (option Z * option Z * option error)) : G answer :=
  let* (object, rejects, err) := native in
  match err with
  | Some err => ret (None, None, Some err)
  | None =>
    match rejects with
    | Some rejects =>
      let* r := NewListFromHandle rejects in
      DestroyPretradeRejectList rejects ;;;
      match r with
      | inr err => ret (None, None, Some (EWrap failure err))
      | inl rejects => ret (None, Some rejects, None)
      end
    | None => ret (object, None, None)
    end
  end.
Definition StartPreTrade (e : Engine) (order : ModelOrder_t) : G answer :=
  handOut "failed to create reject list for rejected pre-trade start"
    (EngineStartPreTrade (handle e) (ModelOrder.Order.Handle order)).
Definition ExecutePreTrade (e : Engine) (order : ModelOrder_t) : G answer :=
  handOut "failed to create reject list for rejected order"
    (EngineExecutePreTrade (handle e) (ModelOrder.Order.Handle order)).
Definition ApplyDropCopy (e : Engine) (order : ModelOrder_t) : G answer :=
  handOut "failed to create reject list for rejected drop copy"
    (EngineApplyDropCopy (handle e) (ModelOrder.Order.Handle order)).
Definition StartPreTradeDryRun (e : Engine) (order : ModelOrder_t) : G (Z + error) :=
  EngineStartPreTradeDryRun (handle e) (ModelOrder.Order.Handle order).
Definition ExecutePreTradeDryRun (e : Engine) (order : ModelOrder_t) : G (Z + error) :=
  EngineExecutePreTradeDryRun (handle e) (ModelOrder.Order.Handle order).
Definition ApplyExecutionReport (e : Engine) (report : ModelReport_t) : G (PostTrade + error) :=
  let* r := EngineApplyExecutionReport (handle e) (ModelReport.ExecutionReport.Handle report) in
  match r with
  | inr err => ret (inr err)
  | inl result => deferred (DestroyPostTradeResult result)
                    (let* t := ReadPostTradeResult result in ret (inl t))
  end.
Definition ApplyAccountAdjustment (e : Engine) (accountID : Z) (adjustments : list ModelAdjustment_t)
    : G ((BatchError + BatchOk) + error) :=
  let* (adjustmentReject, result, err) :=
    EngineApplyAccountAdjustment (handle e) accountID
      (ModelAdjustment.AccountAdjustment.Handle <$> adjustments) in
  match err with
  | Some err => ret (inr err)
  | None =>
    match adjustmentReject with
    | Some batch =>
      let* r := NewAccountAdjustmentBatchErrorFromHandle batch in
      DestroyAccountAdjustmentBatchError batch ;;;
      match r with
      | inr err =>
        ret (inr (EWrap "failed to create reject list for rejected account adjustment" err))
      | inl rejects => ret (inl (inl rejects))
      end
    | None => let* t := ReadBatchResult result in ret (inl (inr t))
    end
  end.
Definition RetireAccount (e : Engine) (accountID : Z) : G (option error) :=
  let* (refusal, err) := EngineRetireAccount (handle e) accountID in
  match err with
  | Some err => ret (Some err)
  | None => match refusal with
            | Some r => let* e := NewAccountRetirementErrorFromHandle r in ret (Some e)
            | None => ret None
            end
  end.

End Engine.
End SyncEngine.

(** ** client_engine.go: payload handles *)

Section ClientEngine.
Context {D U PostTrade BatchError BatchOk : Type} `{!NativeEngine D U PostTrade BatchError BatchOk}.
Abbreviation St := (GoState D U).
Abbreviation G := (M St).

Record clientPayloadHandle := mkPayload { ph_handle : Z; once : bool }.

Definition newClientPayloadHandle (value : D) : G clientPayloadHandle :=
  let* h := NewHandle (fun _ => AValue value) in ret (mkPayload h false).

(** [sync.Once] is done also when its function panics. *)
Definition release : M (clientPayloadHandle * St) unit := fun '(p, s) =>
  if once p then (Ret tt, (p, s))
  else let '(o, s) := Delete (ph_handle p) s in (o, (mkPayload (ph_handle p) true, s)).

(** A payload that only the running call knows. *)
Definition releaseLocal (p : clientPayloadHandle) : G unit := fun s =>
  let '(o, (_, s)) := release (p, s) in (o, s).
Fixpoint releaseAll (ps : list clientPayloadHandle) : G unit :=
  match ps with
  | [] => ret tt
  | p :: ps => releaseLocal p ;;; releaseAll ps
  end.

Section Client.
Context {Order Report Adjustment : Type}.
Context `{!GoType D Order, !GoType D Report, !GoType D Adjustment}.
(** Methods of the client's types. *)
Context (EngineOrder : Order -> G ModelOrder_t).
Context (EngineExecutionReport : Report -> G ModelReport_t).
Context (EngineAccountAdjustment : Adjustment -> G ModelAdjustment_t).

Definition newClientOrderPayload (order : Order) : G (ModelOrder_t * clientPayloadHandle) :=
  let* engineOrder := EngineOrder order in
  let nativeOrder := ModelOrder.Order.Handle engineOrder in
  let* payload := newClientPayloadHandle (box order) in
  let nativeOrder := OrderSetUserData nativeOrder (NewUserDataFromHandle (ph_handle payload)) in
  ret (ModelOrder.Order.NewOrderFromHandle nativeOrder, payload).
Definition newClientReportPayload (report : Report) : G (ModelReport_t * clientPayloadHandle) :=
  let* engineReport := EngineExecutionReport report in
  let nativeReport := ModelReport.ExecutionReport.Handle engineReport in
  let* payload := newClientPayloadHandle (box report) in
  let nativeReport :=
    ExecutionReportSetUserData nativeReport (NewUserDataFromHandle (ph_handle payload)) in
  ret (ModelReport.ExecutionReport.NewExecutionReportFromHandle nativeReport, payload).
Definition newClientAdjustmentPayload (adjustment : Adjustment)
    : G (ModelAdjustment_t * clientPayloadHandle) :=
  let* engineAdjustment := EngineAccountAdjustment adjustment in
  let nativeAdjustment := ModelAdjustment.AccountAdjustment.Handle engineAdjustment in
  let* payload := newClientPayloadHandle (box adjustment) in
  let nativeAdjustment :=
    AccountAdjustmentSetUserData nativeAdjustment (NewUserDataFromHandle (ph_handle payload)) in
  ret (ModelAdjustment.AccountAdjustment.NewAccountAdjustmentFromHandle nativeAdjustment, payload).
Fixpoint newClientAdjustmentPayloads (adjustments : list Adjustment)
    : G (list ModelAdjustment_t * list clientPayloadHandle) :=
  match adjustments with
  | [] => ret ([], [])
  | adjustment :: adjustments =>
    let* (a, p) := newClientAdjustmentPayload adjustment in
    let* (rest, ps) := newClientAdjustmentPayloads adjustments in
    ret (a :: rest, p :: ps)
  end.

(** ** client_engine.go: calls *)

Record ClientRequest := mkClientRequest { request : option Z; payload : clientPayloadHandle }.

(** A request with its payload, or rejects, or an error. *)
Definition clientAnswer : Type := option ClientRequest * option (list Reject) * option error.
Definition newClientRequest (request : option Z) (payload : clientPayloadHandle) : ClientRequest :=
  mkClientRequest request payload.

Definition ClientStop (e : SyncEngine.Engine) : G SyncEngine.Engine := SyncEngine.Stop e.
Definition ClientStartPreTrade (e : SyncEngine.Engine) (order : Order) : G clientAnswer :=
  let* (engineOrder, payload) := newClientOrderPayload order in
  let* (request, rejects, err) := SyncEngine.StartPreTrade e engineOrder in
  match err, rejects with
  | None, None => ret (Some (newClientRequest request payload), None, None)
  | _, _ => releaseLocal payload ;;; ret (None, rejects, err)
  end.
Definition ClientExecutePreTrade (e : SyncEngine.Engine) (order : Order) : G answer :=
  let* (engineOrder, payload) := newClientOrderPayload order in
  deferred (releaseLocal payload) (SyncEngine.ExecutePreTrade e engineOrder).
Definition ClientApplyDropCopy (e : SyncEngine.Engine) (order : Order) : G answer :=
  let* (engineOrder, payload) := newClientOrderPayload order in
  deferred (releaseLocal payload) (SyncEngine.ApplyDropCopy e engineOrder).
Definition ClientApplyExecutionReport (e : SyncEngine.Engine) (report : Report) : G (PostTrade + error) :=
  let* (engineReport, payload) := newClientReportPayload report in
  deferred (releaseLocal payload) (SyncEngine.ApplyExecutionReport e engineReport).
Definition ClientApplyAccountAdjustment (e : SyncEngine.Engine) (accountID : Z) (adjustments : list Adjustment)
    : G ((BatchError + BatchOk) + error) :=
  let* (engineAdjustments, payloads) := newClientAdjustmentPayloads adjustments in
  deferred (releaseAll payloads) (SyncEngine.ApplyAccountAdjustment e accountID engineAdjustments).
Definition ClientRetireAccount (e : SyncEngine.Engine) (accountID : Z) : G (option error) :=
  SyncEngine.RetireAccount e accountID.
End Client.

(** ** client_engine.go: the deferred request

    Its mutex makes the methods of one request a sequence. *)

Abbreviation R := (M (ClientRequest * St)).
Definition onGo {A} (m : G A) : R A := fun '(r, s) => let '(o, s) := m s in (o, (r, s)).
Definition setRequest (request : option Z) : R unit :=
  modify (fun '(r, s) => (mkClientRequest request (payload r), s)).
Definition releasePayload : R unit := fun '(r, s) =>
  let '(o, (p, s)) := release (payload r, s) in (o, (mkClientRequest (request r) p, s)).

Definition ErrClientRequestClosed : error := ESentinel "client pre-trade request already closed".

Definition ClientRequestClose : R unit :=
  let* held := gets (fun '(r, _) => request r) in
  match held with
  | Some q => onGo (RequestClose q) ;;; setRequest None
  | None => ret tt
  end ;;;
  releasePayload.
Definition ClientRequestExecute : R answer :=
  let* held := gets (fun '(r, _) => request r) in
  match held with
  | None => ret (None, None, Some ErrClientRequestClosed)
  | Some q =>
    let* a := onGo (RequestExecute q) in
    releasePayload ;;;
    ret a
  end.
End ClientEngine.
