(* ===== verification/ClientFacts.v ===== *)
(** * What the client engine guarantees

    A client's own order, report or adjustment reaches the client's hooks through a
    payload handle: it is live while the native engine may call back, a hook of either
    adapter is given exactly that value or is not called, and the handle is released
    once, by the call or by the deferred request that took it over. The native engine is
    any that makes only the callbacks its documentation allows. *)
From Stdlib Require Import ZArith Lia.
From stdpp Require Import base list gmap strings relations.
From S2P Require Import Prelude GoRuntime NativeOrder NativeReport NativeAdjustment CgoHandles Mutations.
From S2P Require Import CustomPolicy CallbackFacts CallbackLives PolicyAdapter ClientEngine.
From S2P Require ModelOrder ModelReport ModelAdjustment.

(** ** Hooks and payloads *)

Section Adapters.
Context {D U Order Report : Type} `{!Program D U, !GoType D Order, !GoType D Report}.
Abbreviation St := (GoState D U).
Abbreviation G := (M St).
Abbreviation Client := (ClientPreTradePolicy D U Order Report).
Context (orderType reportType : string).

Definition adapt (fast : bool) (p : Client) : Policy D U :=
  if fast then NewUnsafeFastClientPreTradePolicy p else NewSafeClientPreTradePolicy orderType reportType p.

(** What a hook of an adapter does when the payload is missing: the safe adapter answers
    without calling the client, the fast one panics. *)
Definition missing {A} (fast : bool) (p : Client) (answer : string -> A) (m : G A) (s : St) : Prop :=
  if fast then exists v, recovered panicnil v <> None /\ m s = (Panic v, s)
  else m s = (let* n := cName p in ret (answer n)) s.

Lemma adapt_hooks fast p :
  Close (adapt fast p) = cClose p /\ Name (adapt fast p) = cName p /\
  PolicyGroupID (adapt fast p) = cPolicyGroupID p /\
  ApplyAccountAdjustment (adapt fast p) = cApplyAccountAdjustment p /\
  asDryRunPolicy (adapt fast p) = None /\
  asAccountRetirementPolicy (adapt fast p) = cAsAccountRetirementPolicy p /\
  CheckPreTradeStart (adapt fast p) =
    (if fast then fastCheckPreTradeStart p else safeCheckPreTradeStart orderType p) /\
  PerformPreTradeCheck (adapt fast p) =
    (if fast then fastPerformPreTradeCheck p else safePerformPreTradeCheck orderType p) /\
  ApplyExecutionReport (adapt fast p) =
    (if fast then fastApplyExecutionReport p else safeApplyExecutionReport reportType p).
Proof.
  unfold adapt, NewUnsafeFastClientPreTradePolicy, NewSafeClientPreTradePolicy, withAccountRetirementPolicy.
  destruct fast; by destruct (cAsAccountRetirementPolicy p) eqn:E.
Qed.

(** Both adapters over one payload: [use] is what the client's hook does with it. *)
Lemma payload_cases {P A} `{!GoType D P} (fast : bool) (p : Client) ud (use : P -> G A) (answer : string -> A)
    (m : bool -> G A) s :
  handlesOk s ->
  m true = (let* x := unsafeFastPayload ud in use x) ->
  m false = (let* o := safePayload ud in
             match o with None => let* n := cName p in ret (answer n) | Some x => use x end) ->
  match payloadAt ud s with
  | Some x => m fast s = use x s
  | None => missing fast p answer (m fast) s
  end.
Proof.
  intros Hs Ef Es. unfold missing. destruct fast; [rewrite Ef|rewrite Es]; unfold bind.
  - rewrite !unsafeFastPayload_spec. destruct (payloadAt ud s) as [x|]; [done|].
    eexists. split; cycle 1; [reflexivity|]. by destruct (handles s !! ud).
  - rewrite !safePayload_spec by done. by destruct (payloadAt ud s).
Qed.

(** C22: A hook of a client's policy is called with exactly the value the engine's record
    stands for, whichever adapter registered the policy: the two adapters do the same
    when the record's handle is live and holds a value of the client's type. Otherwise
    the hook is not called: the safe adapter answers that the payload does not match,
    the fast one panics. Everything else is the client's own. *)
Theorem client_hook_gets_its_payload (fast : bool) (p : Client) (s : St) :
  handlesOk s ->
  (forall ctx order,
    match payloadAt (OrderGetUserData order) s with
    | Some o => CheckPreTradeStart (adapt fast p) ctx (ModelOrder.Order.NewOrderFromHandle order) s =
                  cCheckPreTradeStart p ctx o s
    | None => missing fast p (clientPayloadMismatchReject orderType)
                (CheckPreTradeStart (adapt fast p) ctx (ModelOrder.Order.NewOrderFromHandle order)) s
    end) /\
  (forall ctx order mutations result,
    match payloadAt (OrderGetUserData order) s with
    | Some o => PerformPreTradeCheck (adapt fast p) ctx (ModelOrder.Order.NewOrderFromHandle order)
                  mutations result s = cPerformPreTradeCheck p ctx o mutations result s
    | None => missing fast p (clientPayloadMismatchReject orderType)
                (PerformPreTradeCheck (adapt fast p) ctx (ModelOrder.Order.NewOrderFromHandle order)
                   mutations result) s
    end) /\
  (forall ctx report adjustments pnls,
    match payloadAt (ExecutionReportGetUserData report) s with
    | Some r => ApplyExecutionReport (adapt fast p) ctx
                  (ModelReport.ExecutionReport.NewExecutionReportFromHandle report) adjustments pnls s =
                  cApplyExecutionReport p ctx r adjustments pnls s
    | None => missing fast p
                (fun n => [NewAccountBlock CodeSystemUnavailable n "client execution report payload mismatch"
                             ("expected client execution report payload type " ++ reportType)])
                (ApplyExecutionReport (adapt fast p) ctx
                   (ModelReport.ExecutionReport.NewExecutionReportFromHandle report) adjustments pnls) s
    end) /\
  Close (adapt fast p) = cClose p /\ Name (adapt fast p) = cName p /\
  PolicyGroupID (adapt fast p) = cPolicyGroupID p /\
  ApplyAccountAdjustment (adapt fast p) = cApplyAccountAdjustment p /\
  asAccountRetirementPolicy (adapt fast p) = cAsAccountRetirementPolicy p.
Proof.
  intros Hs. destruct (adapt_hooks fast p) as (? & ? & ? & ? & _ & ? & -> & -> & ->).
  repeat apply conj; try done; intros.
  - apply (payload_cases fast p _ (cCheckPreTradeStart p ctx) _
      (fun fast => (if fast then fastCheckPreTradeStart p else safeCheckPreTradeStart orderType p) ctx
         (ModelOrder.Order.NewOrderFromHandle order))); done.
  - apply (payload_cases fast p _ (fun o => cPerformPreTradeCheck p ctx o mutations result) _
      (fun fast => (if fast then fastPerformPreTradeCheck p else safePerformPreTradeCheck orderType p) ctx
         (ModelOrder.Order.NewOrderFromHandle order) mutations result)); done.
  - apply (payload_cases fast p _ (fun o => cApplyExecutionReport p ctx o adjustments pnls) _
      (fun fast => (if fast then fastApplyExecutionReport p else safeApplyExecutionReport reportType p) ctx
         (ModelReport.ExecutionReport.NewExecutionReportFromHandle report) adjustments pnls)); done.
Qed.
End Adapters.

(** ** Calls *)

Section Calls.
Context {D U PostTrade BatchError BatchOk : Type}.
Context `{!Program D U, !NativeEngine D U PostTrade BatchError BatchOk}.
Abbreviation St := (GoState D U).
Abbreviation G := (M St).

(** What goes on in the process during a native call: the engine calls back a policy or
    a mutation, frees a mutation it holds, or changes only what is outside the table.
    It closes a policy only when an engine is built or stopped. *)
Inductive engineMove : St -> St -> Prop :=
| em_callback cb s : takesHandle cb = None -> engineMove s (snd (runCallback cb s))
| em_free ud c s : handles s !! ud = Some (ACallbacks c) -> engineMove s (snd (runCallback (CbMutationFree ud) s))
| em_outside s s' : handles s' = handles s -> handleIdx s' = handleIdx s -> engineMove s s'.
Definition engineActivity : St -> St -> Prop := rtc engineMove.

(** A native call returns, and does no more than that. *)
Definition during {A} (m : G A) : Prop := forall s, exists a s', m s = (Ret a, s') /\ engineActivity s s'.

(** The native library as its header documents it. *)
Record documentedEngine : Prop := {
  de_StartPreTrade h o : during (EngineStartPreTrade h o);
  de_ExecutePreTrade h o : during (EngineExecutePreTrade h o);
  de_ApplyDropCopy h o : during (EngineApplyDropCopy h o);
  de_ApplyExecutionReport h r : during (EngineApplyExecutionReport h r);
  de_ApplyAccountAdjustment h a l : during (EngineApplyAccountAdjustment h a l);
  de_ReadRejectList l : during (ReadRejectList l);
  de_DestroyPretradeRejectList l : during (DestroyPretradeRejectList l);
  de_ReadPostTradeResult l : during (ReadPostTradeResult l);
  de_DestroyPostTradeResult l : during (DestroyPostTradeResult l);
  de_BatchError l : during (NewAccountAdjustmentBatchErrorFromHandle l);
  de_DestroyBatchError l : during (DestroyAccountAdjustmentBatchError l);
  de_ReadBatchResult l : during (ReadBatchResult l);
  de_RequestExecute q : during (RequestExecute q);
  de_RequestClose q : during (RequestClose q);
}.
Hypothesis program_is_polite : programPreserves polite.
Hypothesis engine_is_documented : documentedEngine.

Lemma engineMove_ok s s' : engineMove s s' -> tableOk s -> keeps s s' /\ tableOk s'.
Proof.
  intros [cb s0 Ht|ud c s0 E|s0 s1 E1 E2] T.
  - destruct (runCallback_preserves polite (fun A m Hm => quiet_polite m Hm) program_is_polite cb Ht s0); auto.
  - cbn [runCallback]. rewrite answering_snd, (free_live _ _ _ ud c s0 E (proj2 T _ _ E)). cbn [snd].
    split.
    + split; [cbn; lia|]. intros h Hh. cbn. destruct (decide (h = ud)) as [->|].
      * right. exists c. split; [done|apply lookup_delete_eq].
      * left. by apply lookup_delete_ne.
    + pose proof (Delete_tableOk ud s0 T) as T'. by rewrite (Delete_live _ _ _ E) in T'.
  - destruct (polite_same s0 s1 E1 E2); auto.
Qed.
Lemma activity_ok s s' : engineActivity s s' -> tableOk s -> keeps s s' /\ tableOk s'.
Proof.
  induction 1 as [|s1 s2 s3 H1 _ IH]; intros T; [done|].
  destruct (engineMove_ok _ _ H1 T) as [K1 T1]. destruct (IH T1) as [K2 T2].
  split; [by transitivity s2|done].
Qed.
Lemma activity_payload s s' ud x :
  engineActivity s s' -> tableOk s -> handles s !! ud = Some (AValue x) -> handles s' !! ud = Some (AValue x).
Proof. intros H T E. by apply (keeps_value s); [apply T|apply (activity_ok s s')| |]. Qed.
Lemma activity_gone s s' ud :
  engineActivity s s' -> tableOk s -> (ud <= handleIdx s)%Z -> handles s !! ud = None -> handles s' !! ud = None.
Proof. intros H T Hu E. apply (keeps_gone s); [by apply (activity_ok s s')|done..]. Qed.

Lemma during_ret {A} (a : A) : during (ret a).
Proof. intros s. exists a, s. split; [done|apply rtc_refl]. Qed.
Lemma during_bind {A B} (m : G A) (f : A -> G B) : during m -> (forall a, during (f a)) -> during (bind m f).
Proof.
  intros Hm Hf s. destruct (Hm s) as (a & s1 & E1 & H1). destruct (Hf a s1) as (b & s2 & E2 & H2).
  exists b, s2. rewrite (bind_Ret _ _ _ _ _ E1). split; [done|by etransitivity].
Qed.
Lemma during_deferred {A} d (m : G A) : during d -> during m -> during (deferred d m).
Proof.
  intros Hd Hm s. destruct (Hm s) as (a & s1 & E1 & H1). destruct (Hd s1) as ([] & s2 & E2 & H2).
  exists a, s2. unfold deferred. rewrite E1, E2. split; [done|by etransitivity].
Qed.

Ltac during_call :=
  repeat first
    [ apply during_ret
    | apply during_deferred
    | apply during_bind; [|intros]
    | match goal with |- during (match ?x with _ => _ end) => destruct x end
    | solve [eapply de_StartPreTrade; eassumption | eapply de_ExecutePreTrade; eassumption
            | eapply de_ApplyDropCopy; eassumption | eapply de_ApplyExecutionReport; eassumption
            | eapply de_ApplyAccountAdjustment; eassumption | eapply de_ReadRejectList; eassumption
            | eapply de_DestroyPretradeRejectList; eassumption | eapply de_ReadPostTradeResult; eassumption
            | eapply de_DestroyPostTradeResult; eassumption | eapply de_BatchError; eassumption
            | eapply de_DestroyBatchError; eassumption | eapply de_ReadBatchResult; eassumption] ].

Lemma engine_calls_during e :
  (forall o, during (SyncEngine.StartPreTrade e o)) /\ (forall o, during (SyncEngine.ExecutePreTrade e o)) /\
  (forall o, during (SyncEngine.ApplyDropCopy e o)) /\ (forall r, during (SyncEngine.ApplyExecutionReport e r)) /\
  (forall a l, during (SyncEngine.ApplyAccountAdjustment e a l)).
Proof.
  unfold SyncEngine.StartPreTrade, SyncEngine.ExecutePreTrade, SyncEngine.ApplyDropCopy,
    SyncEngine.ApplyExecutionReport, SyncEngine.ApplyAccountAdjustment, SyncEngine.handOut,
    SyncEngine.NewListFromHandle.
  split_and!; intros; during_call.
Qed.

(** *** Payload handles *)

Lemma newPayload_spec (x : D) (s : St) :
  tableOk s ->
  exists s1, newClientPayloadHandle x s = (Ret (mkPayload (handleIdx s + 1) false), s1) /\ tableOk s1 /\
    handleIdx s1 = (handleIdx s + 1)%Z /\ handles s1 = <[(handleIdx s + 1)%Z := AValue x]> (handles s) /\
    handles s !! (handleIdx s + 1)%Z = None.
Proof.
  intros T. eexists. split; [reflexivity|].
  split; [by apply (NewHandle_tableOk (fun _ => AValue x) s)|]. split; [done|]. split; [done|].
  destruct (handles s !! (handleIdx s + 1)%Z) eqn:E; [|done].
  destruct T as [[_ Ht] _]. destruct (Ht _ ltac:(by eexists)). lia.
Qed.
Lemma releaseLocal_live ud x (s : St) :
  handles s !! ud = Some (AValue x) ->
  releaseLocal (mkPayload ud false) s = (Ret tt, withHandles (delete ud) s).
Proof. intros E. unfold releaseLocal, release. cbn. by rewrite (Delete_live _ _ _ E). Qed.

(** A call with one payload: it holds [x] in a handle of its own while [inner] runs, and
    in none afterwards. *)
Definition lends {A} (x : D) (inner : Z -> G A) (m : G A) (s : St) : Prop :=
  exists ud s1 a s2, handles s !! ud = None /\
    (forall s', engineActivity s1 s' -> handles s' !! ud = Some (AValue x)) /\
    inner ud s1 = (Ret a, s2) /\ engineActivity s1 s2 /\
    m s = (Ret a, withHandles (delete ud) s2).

Lemma lends_one {A} (x : D) (inner : Z -> G A) s :
  tableOk s -> (forall ud, during (inner ud)) ->
  lends x inner (let* p := newClientPayloadHandle x in deferred (releaseLocal p) (inner (ph_handle p))) s.
Proof.
  intros T H. destruct (newPayload_spec x s T) as (s1 & E1 & T1 & _ & Eh & Hd).
  set (ud := (handleIdx s + 1)%Z) in *. destruct (H ud s1) as (a & s2 & E2 & H2).
  assert (forall s', engineActivity s1 s' -> handles s' !! ud = Some (AValue x)) as Hl.
  { intros s' Hs. apply (activity_payload s1); [done..|]. rewrite Eh. apply lookup_insert_eq. }
  exists ud, s1, a, s2. split; [done|]. split; [done|]. split; [done|]. split; [done|].
  rewrite (bind_Ret _ _ _ _ _ E1). unfold deferred. cbn [ph_handle]. rewrite E2.
  by rewrite (releaseLocal_live ud x) by auto.
Qed.

(** *** Batches of payloads *)

Section Client.
Context {Order Report Adjustment : Type}.
Context `{!GoType D Order, !GoType D Report, !GoType D Adjustment}.
Context (EngineOrder : Order -> G ModelOrder_t).
Context (EngineExecutionReport : Report -> G ModelReport_t).
Context (EngineAccountAdjustment : Adjustment -> G ModelAdjustment_t).

Definition live (s : St) (ud : Z) (x : Adjustment) : Prop := handles s !! ud = Some (AValue (box x)).

(** What the loop over the adjustments has made when it is over. *)
Lemma newPayloads_spec xs s :
  (forall a, during (EngineAccountAdjustment a)) -> tableOk s ->
  exists eas ps s1, newClientAdjustmentPayloads EngineAccountAdjustment xs s = (Ret (eas, ps), s1) /\
    tableOk s1 /\ keeps s s1 /\
    Forall (fun p => once p = false /\ (handleIdx s < ph_handle p)%Z) ps /\
    NoDup (ph_handle <$> ps) /\ Forall2 (live s1) (ph_handle <$> ps) xs /\
    Forall2 (fun ea p => AccountAdjustmentGetUserData (ModelAdjustment.AccountAdjustment.Handle ea) = ph_handle p)
      eas ps.
Proof.
  intros Hc. revert s. induction xs as [|x xs IH]; intros s T.
  { exists [], [], s. split_and!; try done; by constructor. }
  destruct (Hc x s) as (ea & s0 & E0 & A0). destruct (activity_ok _ _ A0 T) as [K0 T0].
  destruct (newPayload_spec (box x) s0 T0) as (s1 & E1 & T1 & I1 & Eh & Hd).
  destruct (IH s1 T1) as (eas & ps & s2 & E2 & T2 & K2 & Hp & Hn & Hl & Hu).
  set (p := mkPayload (handleIdx s0 + 1) false) in *.
  assert (keeps s0 s1) as K1.
  { pose proof (NewHandle_keeps (fun _ => AValue (box x)) s0) as K1.
    assert (s1 = snd (NewHandle (fun _ => AValue (box x)) s0)) as ->; [|done]. by injection E1. }
  set (ea' := ModelAdjustment.AccountAdjustment.NewAccountAdjustmentFromHandle
    (AccountAdjustmentSetUserData (ModelAdjustment.AccountAdjustment.Handle ea) (ph_handle p))).
  exists (ea' :: eas), (p :: ps), s2.
  split.
  { cbn [newClientAdjustmentPayloads]. unfold newClientAdjustmentPayload.
    erewrite bind_Ret; [|rewrite (bind_Ret _ _ _ _ _ E0), (bind_Ret _ _ _ _ _ E1); reflexivity].
    cbn beta iota. by rewrite (bind_Ret _ _ _ _ _ E2). }
  split; [done|]. split; [transitivity s0; [done|by transitivity s1]|].
  assert (handles s1 !! ph_handle p = Some (AValue (box x))) as Hx by (rewrite Eh; apply lookup_insert_eq).
  pose proof (proj1 K0) as I0. split.
  { constructor; [split; [done|cbn; lia]|]. eapply Forall_impl; [exact Hp|]. intros q [? ?]. split; [done|lia]. }
  split.
  { cbn [fmap list_fmap]. constructor; [|done]. rewrite list_elem_of_fmap. intros (q & Eq & Hq).
    rewrite Forall_forall in Hp. destruct (Hp q Hq) as [_ Hlt]. cbn in Eq. lia. }
  split; [|by constructor].
  constructor; [|done]. by apply (keeps_value s1); [apply T1| | |].
Qed.

Lemma releaseAll_live ps xs s :
  Forall (fun p => once p = false) ps -> NoDup (ph_handle <$> ps) -> Forall2 (live s) (ph_handle <$> ps) xs ->
  releaseAll ps s = (Ret tt, withHandles (fun t => foldl (fun t p => delete (ph_handle p) t) t ps) s).
Proof.
  revert xs s. induction ps as [|[ud b] ps IH]; intros xs s Ho Hn Hl; [by destruct s|].
  inversion_clear Ho as [|?? Hb Ho']. cbn in Hb. subst b. inversion_clear Hn as [|?? Hnot Hn'].
  apply Forall2_cons_inv_l in Hl as (x & xs' & Hx & Hl' & ->). cbn [releaseAll].
  rewrite (bind_Ret _ _ _ _ _ (releaseLocal_live ud (box x) s Hx)).
  rewrite (IH xs'); [done..|]. apply Forall2_same_length_lookup_2.
  - by apply Forall2_length in Hl'.
  - intros i h y Eh Ey. pose proof (Forall2_lookup_lr _ _ _ _ _ _ Hl' Eh Ey) as Hy. unfold live in *. cbn.
    rewrite lookup_delete_ne; [done|]. intros ->. apply Hnot. by eapply list_elem_of_lookup_2.
Qed.

(** *** The calls *)

Lemma order_call {A} (inner : ModelOrder_t -> G A) order s :
  during (EngineOrder order) -> (forall o, during (inner o)) -> tableOk s ->
  exists eo s0, EngineOrder order s = (Ret eo, s0) /\ engineActivity s s0 /\
    lends (box order)
      (fun ud => inner (ModelOrder.Order.NewOrderFromHandle (OrderSetUserData (ModelOrder.Order.Handle eo) ud)))
      (fun _ => (let* (engineOrder, payload) := newClientOrderPayload EngineOrder order in
                 deferred (releaseLocal payload) (inner engineOrder)) s) s0.
Proof.
  intros Hc Hi T. destruct (Hc s) as (eo & s0 & E0 & A0). exists eo, s0. split; [done|]. split; [done|].
  destruct (activity_ok _ _ A0 T) as [_ T0].
  destruct (lends_one (box order)
    (fun ud => inner (ModelOrder.Order.NewOrderFromHandle (OrderSetUserData (ModelOrder.Order.Handle eo) ud)))
    s0 T0 ltac:(intros; apply Hi)) as (ud & s1 & a & s2 & H1 & H2 & H3 & H4 & H5).
  exists ud, s1, a, s2. split_and!; try done. rewrite <- H5. unfold newClientOrderPayload, bind at 2.
  unfold bind at 1. rewrite E0. unfold bind. by destruct (newClientPayloadHandle (box order) s0) as [[?|?] ?].
Qed.

Lemma report_call {A} (inner : ModelReport_t -> G A) report s :
  during (EngineExecutionReport report) -> (forall o, during (inner o)) -> tableOk s ->
  exists er s0, EngineExecutionReport report s = (Ret er, s0) /\ engineActivity s s0 /\
    lends (box report)
      (fun ud => inner (ModelReport.ExecutionReport.NewExecutionReportFromHandle
         (ExecutionReportSetUserData (ModelReport.ExecutionReport.Handle er) ud)))
      (fun _ => (let* (engineReport, payload) := newClientReportPayload EngineExecutionReport report in
                 deferred (releaseLocal payload) (inner engineReport)) s) s0.
Proof.
  intros Hc Hi T. destruct (Hc s) as (er & s0 & E0 & A0). exists er, s0. split; [done|]. split; [done|].
  destruct (activity_ok _ _ A0 T) as [_ T0].
  destruct (lends_one (box report)
    (fun ud => inner (ModelReport.ExecutionReport.NewExecutionReportFromHandle
       (ExecutionReportSetUserData (ModelReport.ExecutionReport.Handle er) ud)))
    s0 T0 ltac:(intros; apply Hi)) as (ud & s1 & a & s2 & H1 & H2 & H3 & H4 & H5).
  exists ud, s1, a, s2. split_and!; try done. rewrite <- H5. unfold newClientReportPayload, bind at 2.
  unfold bind at 1. rewrite E0. unfold bind. by destruct (newClientPayloadHandle (box report) s0) as [[?|?] ?].
Qed.

Lemma deleted_keys (ps : list clientPayloadHandle) (t : gmap Z (any D)) h :
  foldl (fun t p => delete (ph_handle p) t) t ps !! h =
    if decide (h ∈ (ph_handle <$> ps)) then None else t !! h.
Proof.
  revert t. induction ps as [|p ps IH]; intros t; [by rewrite decide_False by apply not_elem_of_nil|].
  cbn. rewrite IH. destruct (decide (h ∈ ph_handle <$> ps)) as [H|H].
  - by rewrite decide_True by (by right).
  - destruct (decide (h = ph_handle p)) as [->|Hne].
    + rewrite decide_True by (by left). apply lookup_delete_eq.
    + rewrite decide_False by (rewrite elem_of_cons; tauto). by apply lookup_delete_ne.
Qed.

Definition withHandle (eo : ModelOrder_t) (ud : Z) : ModelOrder_t :=
  ModelOrder.Order.NewOrderFromHandle (OrderSetUserData (ModelOrder.Order.Handle eo) ud).
(** [StartPreTrade] keeps the payload exactly when it returns a request. *)
Definition startLends (e : SyncEngine.Engine) (order : Order) (s : St) : Prop :=
  exists eo s0 ud s1 q rejects err s2, EngineOrder order s = (Ret eo, s0) /\
    handles s0 !! ud = None /\
    (forall s', engineActivity s1 s' -> handles s' !! ud = Some (AValue (box order))) /\
    SyncEngine.StartPreTrade e (withHandle eo ud) s1 = (Ret (q, rejects, err), s2) /\ engineActivity s1 s2 /\
    ClientStartPreTrade EngineOrder e order s =
      match err, rejects with
      | None, None => (Ret (Some (newClientRequest q (mkPayload ud false)), None, None), s2)
      | _, _ => (Ret (None, rejects, err), withHandles (delete ud) s2)
      end.
Definition batchLends (e : SyncEngine.Engine) (account : Z) (adjustments : list Adjustment) (s : St) : Prop :=
  exists eas uds s1 a s2 s3,
    Forall2 (fun ea ud => AccountAdjustmentGetUserData (ModelAdjustment.AccountAdjustment.Handle ea) = ud) eas uds /\
    NoDup uds /\
    (forall s', engineActivity s1 s' -> Forall2 (live s') uds adjustments) /\
    SyncEngine.ApplyAccountAdjustment e account eas s1 = (Ret a, s2) /\ engineActivity s1 s2 /\
    ClientApplyAccountAdjustment EngineAccountAdjustment e account adjustments s = (Ret a, s3) /\
    Forall (fun ud => handles s !! ud = None /\ handles s3 !! ud = None) uds /\
    forall h, h ∉ uds -> handles s3 !! h = handles s2 !! h.

Lemma start_call e order s :
  (forall o, during (EngineOrder o)) -> tableOk s -> startLends e order s.
Proof.
  intros Ho T. destruct (Ho order s) as (eo & s0 & E0 & A0). destruct (activity_ok _ _ A0 T) as [_ T0].
  destruct (newPayload_spec (box order) s0 T0) as (s1 & E1 & T1 & _ & Eh & Hd).
  set (ud := (handleIdx s0 + 1)%Z) in *.
  destruct (proj1 (engine_calls_during e) (withHandle eo ud) s1) as ([[q rejects] err] & s2 & E2 & A2).
  assert (forall s', engineActivity s1 s' -> handles s' !! ud = Some (AValue (box order))) as Hl.
  { intros s' Hs. apply (activity_payload s1); [done..|]. rewrite Eh. apply lookup_insert_eq. }
  exists eo, s0, ud, s1, q, rejects, err, s2. do 5 (split; [done|]).
  unfold ClientStartPreTrade, newClientOrderPayload.
  erewrite bind_Ret; [|rewrite (bind_Ret _ _ _ _ _ E0), (bind_Ret _ _ _ _ _ E1); reflexivity].
  cbn beta iota. rewrite (bind_Ret _ _ _ _ _ E2).
  destruct err as [err|], rejects as [rejects|]; cbn beta iota; try done;
    unfold bind; by rewrite (releaseLocal_live ud (box order)) by auto.
Qed.
Lemma batch_call e account adjustments s :
  (forall a, during (EngineAccountAdjustment a)) -> tableOk s -> batchLends e account adjustments s.
Proof.
  intros Ha T. destruct (engine_calls_during e) as (_ & _ & _ & _ & D5).
  destruct (newPayloads_spec adjustments s Ha T) as (eas & ps & s1 & E1 & T1 & K1 & Hp & Hn & Hl & Hu).
  destruct (D5 account eas s1) as (a & s2 & E2 & A2).
  assert (forall s', engineActivity s1 s' -> Forall2 (live s') (ph_handle <$> ps) adjustments) as Hlive.
  { intros s' Hs. eapply Forall2_impl; [exact Hl|]. intros ud x. by apply activity_payload. }
  eexists eas, (ph_handle <$> ps), s1, a, s2, _.
  split; [by apply Forall2_fmap_r|]. split; [done|]. split; [done|]. split; [exact E2|]. split; [exact A2|].
  split.
  { unfold ClientApplyAccountAdjustment. rewrite (bind_Ret _ _ _ _ _ E1). unfold deferred.
    rewrite E2, (releaseAll_live ps adjustments s2); [reflexivity| |done|by apply Hlive].
    eapply Forall_impl; [exact Hp|]. by intros p []. }
  split.
  + apply Forall_forall. intros ud Hud. split; [|cbn; by rewrite deleted_keys, decide_True].
    apply list_elem_of_fmap in Hud as (p & -> & Hin). rewrite Forall_forall in Hp. destruct (Hp p Hin) as [_ Hlt].
    destruct (handles s !! ph_handle p) eqn:Ed; [|done]. destruct (proj2 (proj1 T) _ ltac:(by eexists)). lia.
  + intros h Hh. cbn. by rewrite deleted_keys, decide_False.
Qed.

(** C21: A client's value is within reach of the engine's callbacks exactly for the call
    it is given to. Each call converts the value, puts it into a handle of its own, and
    makes the engine call with a record that carries that handle; whatever the engine
    calls back until it returns, the handle holds the value; when the call returns, with
    the engine's own answer, the handle is gone, for every adjustment of a batch too.
    Only an accepted [StartPreTrade] keeps it, in the request it returns. *)
Theorem client_payloads_live_for_the_call (e : SyncEngine.Engine) (s : St) :
  tableOk s ->
  (forall o, during (EngineOrder o)) -> (forall r, during (EngineExecutionReport r)) ->
  (forall a, during (EngineAccountAdjustment a)) ->
  (forall order, exists eo s0, EngineOrder order s = (Ret eo, s0) /\
     lends (box order) (fun ud => SyncEngine.ExecutePreTrade e (withHandle eo ud))
       (fun _ => ClientExecutePreTrade EngineOrder e order s) s0) /\
  (forall order, exists eo s0, EngineOrder order s = (Ret eo, s0) /\
     lends (box order) (fun ud => SyncEngine.ApplyDropCopy e (withHandle eo ud))
       (fun _ => ClientApplyDropCopy EngineOrder e order s) s0) /\
  (forall report, exists er s0, EngineExecutionReport report s = (Ret er, s0) /\
     lends (box report)
       (fun ud => SyncEngine.ApplyExecutionReport e (ModelReport.ExecutionReport.NewExecutionReportFromHandle
          (ExecutionReportSetUserData (ModelReport.ExecutionReport.Handle er) ud)))
       (fun _ => ClientApplyExecutionReport EngineExecutionReport e report s) s0) /\
  (forall order, startLends e order s) /\
  (forall account adjustments, batchLends e account adjustments s).
Proof.
  intros T Ho Hr Ha. destruct (engine_calls_during e) as (D1 & D2 & D3 & D4 & D5).
  split; [|split; [|split; [|split]]].
  - intros order. destruct (order_call (SyncEngine.ExecutePreTrade e) order s) as (eo & s0 & E & _ & H); eauto.
  - intros order. destruct (order_call (SyncEngine.ApplyDropCopy e) order s) as (eo & s0 & E & _ & H); eauto.
  - intros report. destruct (report_call (SyncEngine.ApplyExecutionReport e) report s) as (er & s0 & E & _ & H); eauto.
  - intros order. by apply start_call.
  - intros account adjustments. by apply batch_call.
Qed.

(** A batch whose loop panics half way: the handles made so far have no owner. *)
Lemma half_batch xs y zs s v :
  (forall a, a ∈ xs -> during (EngineAccountAdjustment a)) ->
  (forall s, EngineAccountAdjustment y s = (Panic v, s)) -> tableOk s ->
  exists uds s1, newClientAdjustmentPayloads EngineAccountAdjustment (xs ++ y :: zs) s = (Panic v, s1) /\
    tableOk s1 /\ Forall (fun ud => (handleIdx s < ud)%Z) uds /\ NoDup uds /\ keeps s s1 /\
    Forall2 (live s1) uds xs.
Proof.
  revert s. induction xs as [|x xs IH]; intros s Hc Hy T.
  { exists [], s. cbn [app newClientAdjustmentPayloads]. unfold newClientAdjustmentPayload, bind.
    rewrite Hy. split_and!; try done; by constructor. }
  destruct (Hc x ltac:(by left) s) as (ea & s0 & E0 & A0). destruct (activity_ok _ _ A0 T) as [K0 T0].
  destruct (newPayload_spec (box x) s0 T0) as (s1 & E1 & T1 & I1 & Eh & Hd).
  destruct (IH s1 ltac:(intros a Ha; apply Hc; by right) Hy T1) as (uds & s2 & E2 & T2 & Hf & Hn & K2 & Hl).
  set (ud := (handleIdx s0 + 1)%Z) in *.
  assert (handles s1 !! ud = Some (AValue (box x))) as Hx by (rewrite Eh; apply lookup_insert_eq).
  assert (keeps s0 s1) as K1.
  { pose proof (NewHandle_keeps (fun _ => AValue (box x)) s0) as K1.
    assert (s1 = snd (NewHandle (fun _ => AValue (box x)) s0)) as ->; [by injection E1|done]. }
  assert (keeps s s1) as K by (by transitivity s0).
  exists (ud :: uds), s2. split.
  { cbn [app newClientAdjustmentPayloads]. unfold newClientAdjustmentPayload at 1.
    erewrite bind_Ret; [|rewrite (bind_Ret _ _ _ _ _ E0), (bind_Ret _ _ _ _ _ E1); reflexivity].
    cbn beta iota. by rewrite (bind_Panic _ _ _ _ _ E2). }
  pose proof (proj1 K0). split; [done|]. split.
  { constructor; [unfold ud; lia|]. eapply Forall_impl; [exact Hf|]. cbn. lia. }
  split.
  { constructor; [|done]. intros Hin. rewrite Forall_forall in Hf. specialize (Hf ud Hin). lia. }
  split; [by transitivity s1|]. constructor; [|done]. by apply (keeps_value s1); [apply T1| | |].
Qed.

(** When a client's [EngineAccountAdjustment] panics, the call panics and the handles
    of the adjustments before it stay in the table, with no owner left to delete them. *)
Theorem panicking_adjustment_leaks (e : SyncEngine.Engine) (account : Z) xs y zs (s : St) v :
  (forall a, a ∈ xs -> during (EngineAccountAdjustment a)) ->
  (forall s, EngineAccountAdjustment y s = (Panic v, s)) -> tableOk s ->
  exists uds s1,
    ClientApplyAccountAdjustment EngineAccountAdjustment e account (xs ++ y :: zs) s = (Panic v, s1) /\
    Forall (fun ud => (handleIdx s < ud)%Z) uds /\ NoDup uds /\ Forall2 (live s1) uds xs.
Proof.
  intros Hc Hy T. destruct (half_batch xs y zs s v Hc Hy T) as (uds & s1 & E & _ & Hf & Hn & _ & Hl).
  exists uds, s1. split; [|by split_and!]. unfold ClientApplyAccountAdjustment. by rewrite (bind_Panic _ _ _ _ _ E).
Qed.
End Client.

(** *** The deferred request *)

Inductive requestOp := OpClose | OpExecute.
Definition runOp (op : requestOp) : M (ClientRequest * St) (option answer) :=
  match op with
  | OpClose => ClientRequestClose ;;; ret None
  | OpExecute => let* a := ClientRequestExecute in ret (Some a)
  end.
Fixpoint runOps (ops : list requestOp) : M (ClientRequest * St) (list (option answer)) :=
  match ops with
  | [] => ret []
  | op :: ops => let* a := runOp op in let* l := runOps ops in ret (a :: l)
  end.
(** A call after the first [Close] is refused. *)
Fixpoint refusedAfterClose (isClosed : bool) (ops : list requestOp) (answers : list (option answer)) : Prop :=
  match ops, answers with
  | OpClose :: ops, None :: answers => refusedAfterClose true ops answers
  | OpExecute :: ops, Some a :: answers =>
    (isClosed = true -> a = (None, None, Some ErrClientRequestClosed)) /\ refusedAfterClose isClosed ops answers
  | [], [] => True
  | _, _ => False
  end.

(** [closedRequests] observes the native requests that were closed. *)
Context (closedRequests : U -> list Z).
Hypothesis execute_closes_nothing : forall q s,
  closedRequests (outside (snd (RequestExecute q s))) = closedRequests (outside s).
Hypothesis close_is_seen : forall q s,
  closedRequests (outside (snd (RequestClose q s))) = closedRequests (outside s) ++ [q].

(** The payload is there until it is released, and never again. *)
Definition holds (ud : Z) (x : D) (r : ClientRequest) (s : St) : Prop :=
  ph_handle (payload r) = ud /\ tableOk s /\ (ud <= handleIdx s)%Z /\
  handles s !! ud = if once (payload r) then None else Some (AValue x).
Lemma holds_activity ud x r s s' : engineActivity s s' -> holds ud x r s -> holds ud x r s'.
Proof.
  intros A (Hu & T & Hi & E). destruct (activity_ok _ _ A T) as [K T']. pose proof (proj1 K).
  split; [done|]. split; [done|]. split; [lia|]. destruct (once (payload r)); [by apply (activity_gone s)|].
  by apply (activity_payload s).
Qed.
Lemma releasePayload_spec ud x r s :
  holds ud x r s -> exists r' s', releasePayload (r, s) = (Ret tt, (r', s')) /\
    holds ud x r' s' /\ once (payload r') = true /\ request r' = request r /\ outside s' = outside s.
Proof.
  intros (Hu & T & Hi & E). unfold releasePayload, release. destruct (once (payload r)) eqn:Eo.
  - exists (mkClientRequest (request r) (payload r)), s. split; [done|]. unfold holds. cbn. by rewrite Eo.
  - rewrite Hu, (Delete_live _ _ _ E). eexists _, _. split; [reflexivity|].
    split; [|done]. split; [done|]. split; [|split; [done|apply lookup_delete_eq]].
    pose proof (Delete_tableOk ud s T) as T'. by rewrite (Delete_live _ _ _ E) in T'.
Qed.
Lemma runOp_spec op ud x r s :
  holds ud x r s -> (request r = None -> once (payload r) = true) ->
  exists a r' s', runOp op (r, s) = (Ret a, (r', s')) /\ holds ud x r' s' /\ once (payload r') = true /\
    match op with
    | OpClose => a = None /\ request r' = None /\
        closedRequests (outside s') = closedRequests (outside s) ++ option_list (request r)
    | OpExecute => (exists b, a = Some b /\
          (request r = None -> b = (None, None, Some ErrClientRequestClosed))) /\
        request r' = request r /\ closedRequests (outside s') = closedRequests (outside s)
    end.
Proof.
  intros Hh Ho. destruct op; cbn [runOp].
  - unfold ClientRequestClose. destruct (request r) as [q|] eqn:Er.
    + destruct (de_RequestClose engine_is_documented q s) as ([] & s1 & E & A).
      destruct (releasePayload_spec ud x (mkClientRequest None (payload r)) s1) as (r' & s' & E' & Hh' & Hd & Hr & Hou);
        [by apply (holds_activity _ _ _ s)|].
      exists None, r', s'. split.
      { unfold bind, gets, onGo, setRequest, modify. cbn beta iota. rewrite Er, E. cbn beta iota. by rewrite E'. }
      split; [done|]. split; [done|]. split; [done|]. split; [done|]. rewrite Hou. cbn.
      pose proof (close_is_seen q s) as Hc. by rewrite E in Hc.
    + destruct (releasePayload_spec ud x r s Hh) as (r' & s' & E' & Hh' & Hd & Hr & Hou).
      exists None, r', s'. split; [unfold bind, gets; cbn beta iota; rewrite Er; cbn -[releasePayload]; by rewrite E'|].
      split; [done|]. split; [done|]. split; [done|]. split; [by rewrite Hr|]. cbn. by rewrite Hou, app_nil_r.
  - unfold ClientRequestExecute. destruct (request r) as [q|] eqn:Er.
    + destruct (de_RequestExecute engine_is_documented q s) as (b & s1 & E & A).
      destruct (releasePayload_spec ud x r s1) as (r' & s' & E' & Hh' & Hd & Hr & Hou);
        [by apply (holds_activity _ _ _ s)|].
      exists (Some b), r', s'. split.
      { unfold bind, gets, onGo. cbn beta iota. rewrite Er, E. cbn beta iota. by rewrite E'. }
      split; [done|]. split; [done|]. split; [by exists b|]. split; [congruence|]. rewrite Hou.
      pose proof (execute_closes_nothing q s) as Hc. by rewrite E in Hc.
    + eexists _, r, s. split; [unfold bind, gets; cbn beta iota; rewrite Er; reflexivity|].
      split; [done|]. split; [auto|]. split; [by eexists|done].
Qed.

Definition closeIn (ops : list requestOp) : bool :=
  existsb (fun op => match op with OpClose => true | OpExecute => false end) ops.
Lemma runOps_spec ops ud x r s :
  holds ud x r s -> (request r = None -> once (payload r) = true) ->
  exists answers r' s', runOps ops (r, s) = (Ret answers, (r', s')) /\
    refusedAfterClose (negb (bool_decide (is_Some (request r)))) ops answers /\
    holds ud x r' s' /\
    once (payload r') = match ops with [] => once (payload r) | _ => true end /\
    closedRequests (outside s') =
      closedRequests (outside s) ++ (if closeIn ops then option_list (request r) else []).
Proof.
  revert r s. induction ops as [|op ops IH]; intros r s Hh Ho.
  { exists [], r, s. by rewrite app_nil_r. }
  destruct (runOp_spec op ud x r s Hh Ho) as (a & r1 & s1 & E1 & Hh1 & Ho1 & Hop).
  destruct (IH r1 s1 Hh1 ltac:(done)) as (l & r2 & s2 & E2 & Hl & Hh2 & Ho2 & Hc).
  exists (a :: l), r2, s2. split; [cbn [runOps]; by rewrite (bind_Ret _ _ _ _ _ E1), (bind_Ret _ _ _ _ _ E2)|].
  destruct op.
  - destruct Hop as (-> & Hr & Hcl). rewrite Hr in *. split; [done|]. split; [done|].
    split; [destruct ops; congruence|]. rewrite Hc, Hcl, <- app_assoc. cbn. by destruct (closeIn ops); rewrite ?app_nil_r.
  - destruct Hop as ((b & -> & Hb) & Hr & Hcl). rewrite Hr in *. split.
    { split; [|done]. intros Hn. apply Hb. destruct (request r) as [z|] eqn:Er; [|done].
      by rewrite bool_decide_eq_true_2 in Hn by (by eexists). }
    split; [done|]. split; [destruct ops; congruence|]. by rewrite Hc, Hcl.
Qed.

(** However [Execute] and [Close] are called on an accepted request, none of them
    panics; the client's value stays in reach of the engine's callbacks until the first
    of them has finished its native call and is released by it, once; the native request
    is closed by the first [Close] and by no other; and a call of [Execute] after it
    answers [ErrClientRequestClosed]. *)
Theorem client_request_releases_once (q ud : Z) (x : D) (ops : list requestOp) (s : St) :
  tableOk s -> handles s !! ud = Some (AValue x) ->
  (forall s', engineActivity s s' -> handles s' !! ud = Some (AValue x)) /\
  exists answers r' s',
    runOps ops (newClientRequest (Some q) (mkPayload ud false), s) = (Ret answers, (r', s')) /\
    refusedAfterClose false ops answers /\
    (handles s' !! ud = match ops with [] => Some (AValue x) | _ => None end) /\
    closedRequests (outside s') = closedRequests (outside s) ++ (if closeIn ops then [q] else []).
Proof.
  intros T E. split; [intros s' A; by apply (activity_payload s)|].
  assert (holds ud x (newClientRequest (Some q) (mkPayload ud false)) s) as Hh.
  { split; [done|]. split; [done|]. split; [|done]. apply (proj2 (proj1 T)). by eexists. }
  destruct (runOps_spec ops ud x _ s Hh ltac:(done)) as (l & r' & s' & Er & Hl & (_ & _ & _ & Hs) & Ho & Hc).
  exists l, r', s'. split; [done|]. split; [done|]. split; [|done]. rewrite Hs, Ho. by destruct ops.
Qed.
End Calls.

(** ** A small client

    Orders, reports and adjustments are numbers; one policy, registered through the safe
    adapter, rejects odd orders; the engine calls its start hook and accepts. The outside
    records the native requests that were closed. *)
#[local] Instance demoType : GoType nat nat := {| box a := a; unbox := Some; unbox_box _ := eq_refl |}.
Definition oddOrder : Reject := RejectNew 40 "demo" "odd" "order" ScopeOrder.
Definition demoClient : ClientPreTradePolicy nat (list Z) nat nat :=
  mkClientPolicy (ret tt) (ret "demo"%string) (ret 0%Z)
    (fun _ order => ret (if Nat.odd order then [oddOrder] else []))
    (fun _ _ _ _ => ret []) (fun _ _ _ _ => ret []) (fun _ _ _ _ _ => ret (mkAdjustmentResult [], [])) None.
Definition demoClientPolicy : Policy nat (list Z) :=
  NewSafeClientPreTradePolicy "nat" "nat" demoClient.
#[local] Instance demoClientProgram : Program nat (list Z) := {|
  policyOf _ := demoClientPolicy;
  runFunc _ := ret tt;
  runHandler _ _ := ret tt;
  fmt_v _ := "value"%string;
  panicnil := false;
  PretradeRejectListPush _ := true;
  PushAccountBlock _ _ := ret tt;
  CreatePretradeCustomPreTradePolicy _ := ret (inl 100%Z);
|}.
Definition demoExecute (o : OpenPitOrder) : M (GoState nat (list Z)) (option Z * option Z * option error) :=
  runCallback (CbCheckPreTradeStart 0 o 1) ;;; ret (Some 9%Z, None, None).
#[local] Instance demoEngine : NativeEngine nat (list Z) nat nat nat := {|
  EngineStartPreTrade _ o := demoExecute o;
  EngineExecutePreTrade _ o := demoExecute o;
  EngineApplyDropCopy _ o := demoExecute o;
  EngineStartPreTradeDryRun _ _ := ret (inl 1%Z);
  EngineExecutePreTradeDryRun _ _ := ret (inl 1%Z);
  EngineApplyExecutionReport _ _ := ret (inl 1%Z);
  EngineApplyAccountAdjustment _ _ _ := ret (None, 1%Z, None);
  EngineRetireAccount _ _ := ret (None, None);
  DestroyEngine _ := ret tt;
  ReadRejectList _ := ret [];
  DestroyPretradeRejectList _ := ret tt;
  ReadPostTradeResult _ := ret 0;
  DestroyPostTradeResult _ := ret tt;
  NewAccountAdjustmentBatchErrorFromHandle _ := ret (inl 0);
  DestroyAccountAdjustmentBatchError _ := ret tt;
  ReadBatchResult _ := ret 0;
  NewAccountRetirementErrorFromHandle _ := ret (EOther 0);
  RequestExecute _ := ret (Some 9%Z, None, None);
  RequestClose q := modify (fun s => mkGo (handleIdx s) (handles s) (sink s) (outside s ++ [q]));
|}.

Lemma demo_quiet {A} (m : M (GoState nat (list Z)) A) :
  (forall s, handles (snd (m s)) = handles s /\ handleIdx (snd (m s)) = handleIdx s) -> preserves polite m.
Proof. intros H s. destruct (H s). by apply polite_same. Qed.
Lemma demo_payload_quiet {A} ud (f : option nat -> M (GoState nat (list Z)) A) :
  (forall o s, handles (snd (f o s)) = handles s /\ handleIdx (snd (f o s)) = handleIdx s) ->
  preserves polite (let* payload := safePayload ud in f payload).
Proof.
  intros H. apply demo_quiet. intros s. unfold safePayload, bind, recovering, Value.
  destruct (ud =? 0)%Z; [apply H|]. destruct (handles s !! _) as [[]|]; apply H.
Qed.
Lemma demo_polite : programPreserves (Program0 := demoClientProgram) polite.
Proof.
  split; [intros ref; split| | |]; intros; try done; try (by apply demo_quiet);
    apply demo_payload_quiet; by intros [].
Qed.
Lemma demo_during_ret {A} (a : A) : during (D := nat) (U := list Z) (ret a).
Proof. apply during_ret. Qed.
Lemma demo_during_execute o : during (demoExecute o).
Proof.
  apply during_bind; [|intros; apply during_ret]. intros s.
  destruct (callbacks_contain (CbCheckPreTradeStart 0 o 1) s) as (a & s' & E). exists a, s'. split; [done|].
  apply rtc_once. replace s' with (snd (runCallback (CbCheckPreTradeStart 0 o 1) s)) by (by rewrite E).
  by constructor.
Qed.
Lemma demo_answer e o s : fst (SyncEngine.ExecutePreTrade e o s) = Ret (Some 9%Z, None, None).
Proof.
  unfold SyncEngine.ExecutePreTrade, SyncEngine.handOut. cbn [EngineExecutePreTrade demoEngine].
  unfold demoExecute, bind.
  destruct (callbacks_contain (CbCheckPreTradeStart 0 (ModelOrder.Order.Handle o) 1) s) as (x & s' & E).
  by rewrite E.
Qed.
Lemma demo_documented : documentedEngine (PostTrade := nat) (BatchError := nat) (BatchOk := nat).
Proof.
  split; intros; try apply demo_during_execute; try apply demo_during_ret.
  intros s. eexists _, _. split; [reflexivity|]. apply rtc_once. by apply em_outside.
Qed.
Definition demoStart : GoState nat (list Z) :=
  mkGo 2 (<[1%Z := APreTrade (mkPreTrade 0 None None "demo" 1)]> {[2%Z := AValue 6]}) None [].
Lemma demoStart_ok : tableOk demoStart.
Proof.
  assert (forall h v, handles demoStart !! h = Some v -> (0 < h <= 2)%Z /\ selfHandle h v) as H.
  { intros h v E. unfold demoStart in E. cbn [handles] in E. apply lookup_insert_Some in E as [[<- <-]|[_ E]]; [done|].
    apply lookup_singleton_Some in E as [<- <-]. done. }
  split; [split; [done|]|]; [intros h [v E]; by apply (H h v)|intros h v E; by apply (H h v)].
Qed.

Lemma client_hook_gets_its_payload_witness :
  CheckPreTradeStart demoClientPolicy 0
    (ModelOrder.Order.NewOrderFromHandle (OrderSetUserData NewOrder 2)) demoStart = (Ret [], demoStart).
Proof.
  destruct (client_hook_gets_its_payload "nat" "nat" false demoClient demoStart (proj1 demoStart_ok)) as (H & _).
  specialize (H 0%Z (OrderSetUserData NewOrder 2)). etransitivity; [exact H|]. reflexivity.
Defined.
Lemma client_payloads_live_for_the_call_witness :
  exists ud s1 s2, handles demoStart !! ud = None /\
    (forall s', engineActivity s1 s' -> handles s' !! ud = Some (AValue 8)) /\
    ClientExecutePreTrade (fun _ : nat => ret ModelOrder.Order.NewOrder) (SyncEngine.mkEngine (Some 1%Z)) 8 demoStart =
      (Ret (Some 9%Z, None, None), withHandles (delete ud) s2) /\ engineActivity s1 s2.
Proof.
  destruct (client_payloads_live_for_the_call demo_polite demo_documented
    (fun _ : nat => ret ModelOrder.Order.NewOrder)
    (fun _ : nat => ret ModelReport.ExecutionReport.NewExecutionReport)
    (fun _ : nat => ret ModelAdjustment.AccountAdjustment.NewAccountAdjustment)
    (SyncEngine.mkEngine (Some 1%Z)) demoStart demoStart_ok
    (fun _ => demo_during_ret _) (fun _ => demo_during_ret _) (fun _ => demo_during_ret _)) as (H & _).
  destruct (H 8) as (eo & s0 & E0 & ud & s1 & a & s2 & Hd & Hl & Hi & Ha & Hm).
  injection E0 as <- <-. exists ud, s1, s2. split; [done|]. split; [done|]. split; [|done].
  assert (a = (Some 9%Z, None, None)) as ->; [|exact Hm].
  pose proof (demo_answer (SyncEngine.mkEngine (Some 1%Z))
    (withHandle ModelOrder.Order.NewOrder ud) s1) as Ea. rewrite Hi in Ea. by injection Ea.
Defined.
Lemma panicking_adjustment_leaks_witness :
  exists ud s1,
    ClientApplyAccountAdjustment
      (fun n : nat => if n =? 0 then panic (PanicOther 3) else ret ModelAdjustment.AccountAdjustment.NewAccountAdjustment)
      (SyncEngine.mkEngine (Some 1%Z)) 5 [4; 0] demoStart = (Panic (PanicOther 3), s1) /\
    handles s1 !! ud = Some (AValue 4) /\ (2 < ud)%Z.
Proof.
  destruct (panicking_adjustment_leaks demo_polite
    (fun n : nat => if n =? 0 then panic (PanicOther 3) else ret ModelAdjustment.AccountAdjustment.NewAccountAdjustment)
    (SyncEngine.mkEngine (Some 1%Z)) 5 [4] 0 [] demoStart (PanicOther 3)) as (uds & s1 & E & Hf & _ & Hl).
  - intros a ->%list_elem_of_singleton. apply demo_during_ret.
  - done.
  - apply demoStart_ok.
  - apply Forall2_cons_inv_r in Hl as (ud & l & Hl & _ & ->). exists ud, s1. split; [exact E|]. split; [exact Hl|].
    by inversion Hf.
Defined.
Lemma client_request_releases_once_witness :
  exists answers r' s',
    runOps [OpExecute; OpClose; OpExecute; OpClose] (newClientRequest (Some 9%Z) (mkPayload 2 false), demoStart) =
      (Ret answers, (r', s')) /\
    refusedAfterClose false [OpExecute; OpClose; OpExecute; OpClose] answers /\
    handles s' !! 2%Z = None /\ outside s' = [9%Z].
Proof.
  destruct (client_request_releases_once demo_polite demo_documented (fun l => l)
    (fun _ _ => eq_refl) (fun _ _ => eq_refl) 9 2 6 [OpExecute; OpClose; OpExecute; OpClose] demoStart
    demoStart_ok ltac:(reflexivity)) as (_ & answers & r' & s' & H).
  exists answers, r', s'. exact H.
Defined.
