(* ===== verification/EngineBuilder.v ===== *)
(** * The engine builders

    engine_builder.go and client_engine_builder.go, with the calls of
    internal/native/engine.go they make. A builder is an object the caller holds: its
    methods are calls on the process and the builder, so that what a panic leaves behind
    is visible. The native library, and [Build] of the builtin policies, are parameters.
    The texts of [Error] methods are left out: errors are values here. *)
From Stdlib Require Import ZArith Lia.
From stdpp Require Import base list gmap strings.
From S2P Require Import Prelude GoRuntime CgoHandles CustomPolicy PolicyAdapter ClientEngine.

(** The native builder. A string is the content of the shared string the call writes, if
    it writes one. *)
Class NativeBuilder (D U : Type) := {
  openpit_create_engine_builder : Z -> M (GoState D U) (option Z * option string);
  openpit_destroy_engine_builder : option Z -> M (GoState D U) unit;
  openpit_engine_builder_build : option Z -> M (GoState D U) (option Z * option Z * option string);
  openpit_destroy_engine_build_error : Z -> M (GoState D U) unit;
  openpit_engine_build_error_get_code : Z -> M (GoState D U) Z;
  openpit_engine_build_error_get_policy_name : Z -> M (GoState D U) string;
  openpit_engine_build_error_get_policy_group_id : Z -> M (GoState D U) Z;
  openpit_engine_builder_add_pre_trade_policy : option Z -> Z -> M (GoState D U) (bool * option string);
  openpit_destroy_pretrade_pre_trade_policy : Z -> M (GoState D U) unit;
  BuiltinBuild : nat -> option Z -> M (GoState D U) (option error);
}.

Definition SyncPolicyNone : Z := 0.
Definition SyncPolicyFull : Z := 1.
Definition SyncPolicyAccount : Z := 2.

(** [EngineBuildError], and every error a builder can hold or return. *)
Record EngineBuildError := mkBuildError { be_Code : Z; be_PolicyName : string; be_PolicyGroupID : Z }.
Inductive builderError :=
| NativeError (err : error)
| PolicyAddError (err : error) (policyName : string)
| BuildFailed (err : EngineBuildError).

(** [SyncedEngineBuilder]; [AccountSyncedEngineBuilder] embeds one and adds no state. *)
Record SyncedEngineBuilder := mkSynced { syncPolicy : Z }.
Definition FullSync : SyncedEngineBuilder := mkSynced SyncPolicyFull.
Definition NoSync : SyncedEngineBuilder := mkSynced SyncPolicyNone.
Definition AccountSync : SyncedEngineBuilder := mkSynced SyncPolicyAccount.

Record ReadyEngineBuilder := mkReady {
  rb_handle : option Z;
  rb_err : option builderError;
  unfinished : list policyRef;
}.
Definition withBuilderHandle (h : option Z) (b : ReadyEngineBuilder) : ReadyEngineBuilder :=
  mkReady h (rb_err b) (unfinished b).
Definition withErr (e : builderError) (b : ReadyEngineBuilder) : ReadyEngineBuilder :=
  mkReady (rb_handle b) (Some e) (unfinished b).
Definition withUnfinished (l : list policyRef) (b : ReadyEngineBuilder) : ReadyEngineBuilder :=
  mkReady (rb_handle b) (rb_err b) l.

Section Builder.
Context {D U PostTrade BatchError BatchOk : Type}.
Context `{!Program D U, !NativeEngine D U PostTrade BatchError BatchOk, !NativeBuilder D U}.
Abbreviation St := (GoState D U).
Abbreviation G := (M St).
Abbreviation B := (M (St * ReadyEngineBuilder)).

(** ** internal/native *)

Definition sharedStringMissing : panicValue := PanicOther 3.
Definition consumeSharedString (handle : option string) : G string :=
  match handle with
  | None => panic sharedStringMissing
  | Some msg => ret msg
  end.
Definition consumeSharedStringAsError (handle : option string) (fallback : string) : G error :=
  let* msg := consumeSharedString handle in
  ret (if bool_decide (msg = EmptyString) then EText fallback 0 else EText msg 0).

Definition CreateEngineBuilder (sync : Z) : G (Z + error) :=
  let* (builder, msg) := openpit_create_engine_builder sync in
  match builder with
  | None => let* err := consumeSharedStringAsError msg "openpit_create_engine_builder failed" in ret (inr err)
  | Some b => ret (inl b)
  end.
Definition DestroyEngineBuilder (b : Z) : G unit := openpit_destroy_engine_builder (Some b).
Definition EngineBuilderBuild (b : option Z) : G (option Z * option Z * option error) :=
  let* (e, outBuildError, msg) := openpit_engine_builder_build b in
  match e with
  | None =>
    match outBuildError with
    | Some be => ret (None, Some be, None)
    | None =>
      let* err := consumeSharedStringAsError msg "openpit_engine_builder_build failed" in
      ret (None, None, Some err)
    end
  | Some e => ret (Some e, None, None)
  end.
Definition DestroyEngineBuildError (be : Z) : G unit := openpit_destroy_engine_build_error be.
Definition EngineBuilderAddPreTradePolicy (b : option Z) (policy : Z) : G (option error) :=
  let* (ok, msg) := openpit_engine_builder_add_pre_trade_policy b policy in
  if ok : bool then ret None
  else
    let* err := consumeSharedStringAsError msg "openpit_engine_builder_add_pre_trade_policy failed" in
    ret (Some err).
Definition DestroyPretradePreTradePolicy (policy : Z) : G unit :=
  openpit_destroy_pretrade_pre_trade_policy policy.

(** ** [ReadyEngineBuilder] *)

(** A call that does not touch the builder. *)
Definition on {A} (m : G A) : B A := fun '(s, b) => let (o, s') := m s in (o, (s', b)).
Definition field {A} (f : ReadyEngineBuilder -> A) : B A := gets (fun st => f (snd st)).
Definition setBuilder (f : ReadyEngineBuilder -> ReadyEngineBuilder) : B unit :=
  modify (fun st => (fst st, f (snd st))).

Definition newReadyEngineBuilder (sb : SyncedEngineBuilder) : G ReadyEngineBuilder :=
  let* r := CreateEngineBuilder (syncPolicy sb) in
  match r with
  | inr err => ret (mkReady None (Some (NativeError err)) [])
  | inl handle => ret (mkReady (Some handle) None [])
  end.

Fixpoint closeEntities (entities : list policyRef) : B unit :=
  match entities with
  | [] => ret tt
  | entity :: entities => on (Close (policyOf entity)) ;;; closeEntities entities
  end.
Definition BuilderClose : B unit :=
  let* entities := field unfinished in
  closeEntities entities ;;;
  setBuilder (withUnfinished []) ;;;
  let* handle := field rb_handle in
  match handle with
  | Some h => on (DestroyEngineBuilder h) ;;; setBuilder (withBuilderHandle None)
  | None => ret tt
  end.

Definition newEngineBuildErrorFromHandle (be : Z) : G EngineBuildError :=
  let* code := openpit_engine_build_error_get_code be in
  let* policyName := openpit_engine_build_error_get_policy_name be in
  let* group := openpit_engine_build_error_get_policy_group_id be in
  ret (mkBuildError code policyName group).

Definition newEngineFromHandle (handle : option Z) : SyncEngine.Engine := SyncEngine.mkEngine handle.

Definition Build : B (SyncEngine.Engine + builderError) :=
  deferred BuilderClose
    (let* err := field rb_err in
     match err with
     | Some err => ret (inr err)
     | None =>
       let* h := field rb_handle in
       let* (handle, buildErr, err) := on (EngineBuilderBuild h) in
       match buildErr with
       | Some be =>
         let* structured := on (newEngineBuildErrorFromHandle be) in
         on (DestroyEngineBuildError be) ;;;
         ret (inr (BuildFailed structured))
       | None => match err with
                 | Some err => ret (inr (NativeError err))
                 | None => ret (inl (newEngineFromHandle handle))
                 end
       end
     end).

Definition Builtin (builtin : nat) : B unit :=
  let* err := field rb_err in
  match err with
  | Some _ => ret tt
  | None =>
    let* h := field rb_handle in
    let* r := on (BuiltinBuild builtin h) in
    match r with
    | Some err => setBuilder (withErr (NativeError err))
    | None => ret tt
    end
  end.

Definition scheduleClose (policy : policyRef) : B unit :=
  setBuilder (fun b => withUnfinished (unfinished b ++ [policy]) b).
Definition failToAdd (err : error) (policy : policyRef) : B unit :=
  let* policyName := on (Name (policyOf policy)) in
  setBuilder (withErr (PolicyAddError err policyName)).

Definition addPreTradePolicy (policy : policyRef) : B unit :=
  let* err := field rb_err in
  match err with
  | Some _ => scheduleClose policy
  | None =>
    let* r := on (StartPreTrade policy) in
    match r with
    | inr err => failToAdd err policy ;;; scheduleClose policy
    | inl handle =>
      deferred (on (DestroyPretradePreTradePolicy handle))
        (let* b := field rb_handle in
         let* e := on (EngineBuilderAddPreTradePolicy b handle) in
         match e with
         | Some err => failToAdd err policy
         | None => ret tt
         end)
    end
  end.
Fixpoint BuilderPreTrade (policies : list policyRef) : B unit :=
  match policies with
  | [] => ret tt
  | p :: policies => addPreTradePolicy p ;;; BuilderPreTrade policies
  end.

(** ** [SyncedEngineBuilder] *)

(** A call on a builder that was just made; a panic loses it. *)
Definition onNew (sb : SyncedEngineBuilder) (m : B unit) : G ReadyEngineBuilder :=
  let* rb := newReadyEngineBuilder sb in
  fun s => match m (s, rb) with
           | (Ret _, (s', rb')) => (Ret rb', s')
           | (Panic v, (s', _)) => (Panic v, s')
           end.
Definition SyncedPreTrade (sb : SyncedEngineBuilder) (policies : list policyRef) : G ReadyEngineBuilder :=
  onNew sb (BuilderPreTrade policies).
Definition SyncedBuiltin (sb : SyncedEngineBuilder) (builtin : nat) : G ReadyEngineBuilder :=
  onNew sb (Builtin builtin).
End Builder.

(** ** Client builders *)

(** Wrapping a client policy makes a new policy object. *)
Class ClientPolicies (D U Order Report : Type) `{!Program D U, !GoType D Order, !GoType D Report} := {
  clientPolicyOf : nat -> ClientPreTradePolicy D U Order Report;
  orderTypeName : string;
  reportTypeName : string;
  adapterOf : bool -> nat -> policyRef;
  adapterOf_policy fast p : policyOf (adapterOf fast p) =
    if fast then NewUnsafeFastClientPreTradePolicy (clientPolicyOf p)
    else NewSafeClientPreTradePolicy orderTypeName reportTypeName (clientPolicyOf p);
}.

Section ClientBuilder.
Context {D U PostTrade BatchError BatchOk Order Report : Type}.
Context `{!Program D U, !NativeEngine D U PostTrade BatchError BatchOk, !NativeBuilder D U}.
Context `{!GoType D Order, !GoType D Report, !ClientPolicies D U Order Report}.
Abbreviation St := (GoState D U).
Abbreviation G := (M St).
Abbreviation B := (M (St * ReadyEngineBuilder)).

(** [ClientEngineBuilder], [ClientSyncedEngineBuilder] and [ClientReadyEngineBuilder]
    hold this option next to the builder they wrap. *)
Record clientEngineOptions := mkOptions { unsafeFastPayloadCallbacks : bool }.
Definition UnsafeFastClientPayloadCallbacks (_ : clientEngineOptions) : clientEngineOptions := mkOptions true.
Definition NewClientEngineBuilder (options : list (clientEngineOptions -> clientEngineOptions)) : clientEngineOptions :=
  foldl (fun config option => option config) (mkOptions false) options.

Definition ClientAddPreTradePolicy (b : clientEngineOptions) (p : nat) : B unit :=
  if unsafeFastPayloadCallbacks b then BuilderPreTrade [adapterOf true p]
  else BuilderPreTrade [adapterOf false p].
Fixpoint ClientReadyPreTrade (b : clientEngineOptions) (policies : list nat) : B unit :=
  match policies with
  | [] => ret tt
  | p :: policies => ClientAddPreTradePolicy b p ;;; ClientReadyPreTrade b policies
  end.
Definition ClientSyncedPreTrade (b : clientEngineOptions) (synced : SyncedEngineBuilder) (policies : list nat)
    : G ReadyEngineBuilder := onNew synced (ClientReadyPreTrade b policies).
Definition ClientSyncedBuiltin (synced : SyncedEngineBuilder) (builtin : nat) : G ReadyEngineBuilder :=
  onNew synced (Builtin builtin).

Lemma ClientReadyPreTrade_eq b policies st :
  ClientReadyPreTrade b policies st =
  BuilderPreTrade (adapterOf (unsafeFastPayloadCallbacks b) <$> policies) st.
Proof.
  destruct b as [fast]. revert st. induction policies as [|p policies IH]; intros st; [done|].
  cbn [ClientReadyPreTrade fmap list_fmap BuilderPreTrade]. unfold ClientAddPreTradePolicy.
  assert (forall q, BuilderPreTrade [q] st = addPreTradePolicy q st) as E.
  { intros q. cbn [BuilderPreTrade]. unfold bind at 1.
    by destruct (addPreTradePolicy q st) as [[[]|v] st']. }
  unfold bind. cbn [unsafeFastPayloadCallbacks] in *.
  destruct fast; rewrite E; (destruct (addPreTradePolicy _ st) as [[[]|v] st']; [apply IH|done]).
Qed.
End ClientBuilder.
