(* ===== verification/BuilderFacts.v ===== *)
(** * What the engine builders guarantee

    Whatever is called on a builder and in whatever order, every policy handed to it is,
    at any time, in exactly one place: closed, waiting in the builder, or registered with
    a native object that will close it. When the builder is closed or built and the
    engines are stopped, every policy was closed once.

    The native library is any that counts references as its header documents: an object
    is created, retains, is released, and [free_user_data] of a policy is called when its
    last reference goes. *)
From Stdlib Require Import ZArith Lia.
From stdpp Require Import base list gmap strings.
From S2P Require Import Prelude GoRuntime CgoHandles CustomPolicy CallbackFacts CallbackLives PolicyAdapter.
From S2P Require Import ClientEngine EngineBuilder.

(** ** Native objects and the policies they retain *)

Inductive owner := OPolicy (p : Z) | OBuilder (b : Z) | OEngine (e : Z).
#[export] Instance owner_eq_dec : EqDecision owner.
Proof. solve_decision. Defined.
#[export] Instance owner_countable : Countable owner.
Proof.
  refine (inj_countable'
    (fun o => match o with OPolicy p => inl p | OBuilder b => inr (inl b) | OEngine e => inr (inr e) end)
    (fun x => match x with inl p => OPolicy p | inr (inl b) => OBuilder b | inr (inr e) => OEngine e end) _).
  by intros [].
Defined.

(** The live native objects, each with the user data of the policies it refers to. *)
Abbreviation owners := (gmap owner (gset Z)).
Definition refs (v : owners) : gset Z := ⋃ (map_to_list v).*2.

Lemma elem_of_refs v ud : ud ∈ refs v <-> exists o X, v !! o = Some X /\ ud ∈ X.
Proof.
  unfold refs. rewrite elem_of_union_list. split.
  - intros (X & HX & Hu). apply list_elem_of_fmap in HX as ([o Y] & -> & HY).
    apply elem_of_map_to_list in HY. by exists o, Y.
  - intros (o & X & E & Hu). exists X. split; [|done]. apply list_elem_of_fmap.
    exists (o, X). split; [done|]. by apply elem_of_map_to_list.
Qed.
Lemma refs_mono v v' : (forall o X, v' !! o = Some X -> X ⊆ refs v) -> refs v' ⊆ refs v.
Proof. intros H ud (o & X & E & Hu)%elem_of_refs. by apply (H o X). Qed.
Lemma refs_lookup v o X : v !! o = Some X -> X ⊆ refs v.
Proof. intros E ud Hu. apply elem_of_refs. by exists o, X. Qed.
Lemma refs_delete o v : refs (delete o v) ⊆ refs v.
Proof. apply refs_mono. intros o' X [_ E]%lookup_delete_Some. by eapply refs_lookup. Qed.
Lemma refs_insert o X v : X ⊆ refs v -> refs (<[o := X]> v) ⊆ refs v.
Proof.
  intros H. apply refs_mono. intros o' Y [[_ <-]|[_ E]]%lookup_insert_Some; [done|by eapply refs_lookup].
Qed.
Lemma refs_insert_fresh o X v : v !! o = None -> refs (<[o := X]> v) = refs v ∪ X.
Proof.
  intros Hn. apply set_eq. intros ud. rewrite elem_of_union, !elem_of_refs. split.
  - intros (o' & Y & [[_ <-]|[_ E]]%lookup_insert_Some & Hu); [by right|left; by exists o', Y].
  - intros [(o' & Y & E & Hu)|Hu].
    + exists o', Y. split; [|done]. rewrite lookup_insert_ne; congruence.
    + exists o, X. split; [apply lookup_insert_eq|done].
Qed.

Section Facts.
Context {D U PostTrade BatchError BatchOk : Type}.
Context `{!Program D U, !NativeEngine D U PostTrade BatchError BatchOk, !NativeBuilder D U}.
Abbreviation St := (GoState D U).
Abbreviation G := (M St).
Abbreviation B := (M (St * ReadyEngineBuilder)).

(** [closes] observes the policies that were closed, [owned] the native objects. *)
Context (closes : U -> list policyRef) (owned : U -> owners).
Abbreviation closesOf := (fun s : St => closes (outside s)).
Abbreviation ownersOf := (fun s : St => owned (outside s)).

(** *** What the native library documents *)

(** No handle is made or deleted and no policy closed. *)
Definition silent (s s' : St) : Prop :=
  handles s' = handles s /\ handleIdx s' = handleIdx s /\ closesOf s' = closesOf s.

(** [free_user_data] of the policies [uds], in this order, between silent steps. *)
Inductive letGo : list Z -> St -> St -> Prop :=
| letGo_none s s' : silent s s' -> letGo [] s s'
| letGo_one ud uds s s1 s' :
    silent s s1 -> letGo uds (snd (runCallback (CbPolicyClose ud) s1)) s' -> letGo (ud :: uds) s s'.

(** A native call that returns, changes the objects as [post] says, and frees exactly
    the policies whose last reference went. *)
Definition native {A} (m : G A) (post : A -> owners -> owners -> Prop) : Prop :=
  forall s, exists a s' uds, m s = (Ret a, s') /\ post a (ownersOf s) (ownersOf s') /\
    uds ≡ₚ elements (refs (ownersOf s) ∖ refs (ownersOf s')) /\ letGo uds s s'.

Record documentedBuilder : Prop := {
  db_create_policy rg : native (CreatePretradeCustomPreTradePolicy rg) (fun r v v' =>
    match r with
    | inl p => v !! OPolicy p = None /\ v' = <[OPolicy p := {[rg_userData rg]}]> v
    | inr _ => v' = v
    end);
  db_create sync : native (openpit_create_engine_builder sync) (fun r v v' =>
    match fst r with
    | Some b => v !! OBuilder b = None /\ v' = <[OBuilder b := ∅]> v
    | None => v' = v /\ is_Some (snd r)
    end);
  db_destroy b : native (openpit_destroy_engine_builder (Some b)) (fun _ v v' => v' = delete (OBuilder b) v);
  db_build b : native (openpit_engine_builder_build b) (fun r v v' =>
    match fst (fst r) with
    | Some e => exists b' X, b = Some b' /\ v !! OBuilder b' = Some X /\ v !! OEngine e = None /\
                  v' = <[OEngine e := X]> (<[OBuilder b' := ∅]> v)
    | None => (is_Some (snd (fst r)) \/ is_Some (snd r)) /\
        (v' = v \/ exists b' X Y, b = Some b' /\ v !! OBuilder b' = Some X /\ Y ⊆ X /\
                     v' = <[OBuilder b' := Y]> v)
    end);
  db_add b p : native (openpit_engine_builder_add_pre_trade_policy b p) (fun r v v' =>
    if fst r
    then exists b' X Y, b = Some b' /\ v !! OBuilder b' = Some X /\ v !! OPolicy p = Some Y /\
           v' = <[OBuilder b' := X ∪ Y]> v
    else v' = v /\ is_Some (snd r));
  db_drop p : native (openpit_destroy_pretrade_pre_trade_policy p) (fun _ v v' => v' = delete (OPolicy p) v);
  db_builtin k b : native (BuiltinBuild k b) (fun _ v v' => v' = v);
  db_error_code be : native (openpit_engine_build_error_get_code be) (fun _ v v' => v' = v);
  db_error_name be : native (openpit_engine_build_error_get_policy_name be) (fun _ v v' => v' = v);
  db_error_group be : native (openpit_engine_build_error_get_policy_group_id be) (fun _ v v' => v' = v);
  db_error_destroy be : native (openpit_destroy_engine_build_error be) (fun _ v v' => v' = v);
  db_stop e : native (DestroyEngine e) (fun _ v v' =>
    v' = match e with Some e => delete (OEngine e) v | None => v end);
}.
Hypothesis builder_is_documented : documentedBuilder.

(** *** What is asked of policies

    Reading a policy's name and group touches nothing; its [Close] returns and closes it. *)
Definition plain {A} (m : G A) : Prop :=
  forall s, exists a s', m s = (Ret a, s') /\ silent s s' /\ ownersOf s' = ownersOf s.
Record plainPolicies : Prop := {
  pl_Name ref : plain (Name (policyOf ref));
  pl_PolicyGroupID ref : plain (PolicyGroupID (policyOf ref));
  pl_Close ref s : exists s', Close (policyOf ref) s = (Ret tt, s') /\ polite s s' /\
    closesOf s' = closesOf s ++ [ref] /\ ownersOf s' = ownersOf s;
}.
Hypothesis policies_are_plain : plainPolicies.
Hypothesis program_leaves : programPreserves (leaves closes).

(** ** One native call *)

Definition implAt (s : St) (ud : Z) : option policyRef := impl <$> policyAt ud s.
(** The policies that are registered with a native object. *)
Definition held (s : St) : list policyRef := omap (implAt s) (elements (refs (ownersOf s))).
Definition wellHeld (s : St) : Prop :=
  tableOk s /\ forall ud, ud ∈ refs (ownersOf s) -> is_Some (policyAt ud s).

Lemma policyAt_Some ud (s : St) p : policyAt ud s = Some p <-> handles s !! ud = Some (APreTrade p).
Proof. unfold policyAt. destruct (handles s !! ud) as [[]|]; naive_solver. Qed.
Lemma policyAt_same ud (s s' : St) : handles s' !! ud = handles s !! ud -> policyAt ud s' = policyAt ud s.
Proof. unfold policyAt. by intros ->. Qed.

Lemma omap_implAt_ext (s s' : St) (uds : list Z) :
  (forall ud, ud ∈ uds -> policyAt ud s' = policyAt ud s) -> omap (implAt s') uds = omap (implAt s) uds.
Proof.
  intros H. apply list_omap_ext, Forall_Forall2_diag, Forall_forall. intros ud Hu.
  unfold implAt. by rewrite H.
Qed.
Lemma close_once ref (s : St) : polite s (snd (Close (policyOf ref) s)) /\
  closesOf (snd (Close (policyOf ref) s)) = closesOf s ++ [ref].
Proof. by destruct (pl_Close policies_are_plain ref s) as (s' & -> & ? & ? & _). Qed.

Lemma silent_tableOk s s' : silent s s' -> tableOk s -> tableOk s'.
Proof. intros (E1 & E2 & _). by apply (polite_same s s'). Qed.

(** Freeing distinct live policies closes them and leaves every other handle. *)
Lemma letGo_closes uds s s' :
  letGo uds s s' -> NoDup uds -> tableOk s -> (forall ud, ud ∈ uds -> is_Some (policyAt ud s)) ->
  tableOk s' /\ closesOf s' = closesOf s ++ omap (implAt s) uds /\
  (forall h p, h ∉ uds -> policyAt h s = Some p -> policyAt h s' = Some p).
Proof.
  induction 1 as [s s' Hs|ud uds s s1 s' Hs _ IH]; intros Hnd T Hl.
  - destruct (Hs) as (E1 & _ & E3). split; [by eapply silent_tableOk|]. rewrite app_nil_r. split; [done|].
    intros h p _. rewrite !policyAt_Some. by rewrite E1.
  - apply NoDup_cons in Hnd as [Hn Hnd]. pose proof (silent_tableOk _ _ Hs T) as T1.
    destruct Hs as (E1 & _ & E3).
    assert (forall h, policyAt h s1 = policyAt h s) as Ep by (intros h; apply policyAt_same; by rewrite E1).
    destruct (Hl ud ltac:(by left)) as [p Hp]. pose proof Hp as Hp1. rewrite <- Ep in Hp1.
    apply policyAt_Some in Hp1.
    destruct (PolicyClose_live closes program_leaves close_once ud p s1 T1 Hp1) as (s2 & E & C2 & _ & T2 & _ & Ht).
    rewrite E in IH. cbn [snd] in IH.
    assert (forall h q, h <> ud -> policyAt h s = Some q -> policyAt h s2 = Some q) as Hk.
    { intros h q Hne Hq. rewrite <- Ep in Hq. apply policyAt_Some in Hq. apply policyAt_Some.
      destruct (Ht h Hne T1) as (_ & _ & ->); [|done].
      split; [apply (proj2 (proj1 T1)); by eexists|intros c; congruence]. }
    destruct IH as (T' & C' & K'); [done|done| |].
    { intros u Hu. destruct (Hl u ltac:(by right)) as [q Hq]. exists q. apply Hk; [|done]. by intros ->. }
    split; [done|]. split.
    + rewrite C', C2, E3, <- app_assoc. cbn [omap list_omap]. unfold implAt at 2. rewrite Hp. cbn. f_equal. f_equal.
      apply omap_implAt_ext. intros x Hx. destruct (Hl x ltac:(by right)) as [q Hq].
      rewrite (Hk x q), Hq; [done| |done]. by intros ->.
    + intros h q [Hne Hni]%not_elem_of_cons Hq. apply K'; [done|]. by apply Hk.
Qed.

Lemma held_same (s s' : St) :
  ownersOf s' = ownersOf s -> (forall ud, ud ∈ refs (ownersOf s) -> policyAt ud s' = policyAt ud s) ->
  held s' = held s.
Proof.
  intros E K. unfold held. rewrite E. apply omap_implAt_ext. intros ud Hu. by apply K, elem_of_elements.
Qed.

(** What a call that hands over no policy does: each policy held stays held or is
    closed, and those that stay keep their handles. *)
Record shrinks (s s' : St) : Prop := {
  sh_refs : refs (ownersOf s') ⊆ refs (ownersOf s);
  sh_held : wellHeld s -> wellHeld s';
  sh_ledger : wellHeld s -> closesOf s' ++ held s' ≡ₚ closesOf s ++ held s;
  sh_table : wellHeld s -> forall ud, ud ∈ refs (ownersOf s') -> policyAt ud s' = policyAt ud s;
}.
#[local] Instance shrinks_preorder : PreOrder shrinks.
Proof.
  split; [by split|]. intros s1 s2 s3 [R1 H1 L1 T1] [R2 H2 L2 T2]. split; intros.
  - set_solver.
  - auto.
  - rewrite L2; auto.
  - rewrite T2, T1; auto.
Qed.

Lemma native_shrinks uds s s' :
  refs (ownersOf s') ⊆ refs (ownersOf s) ->
  uds ≡ₚ elements (refs (ownersOf s) ∖ refs (ownersOf s')) -> letGo uds s s' -> shrinks s s'.
Proof.
  intros Hr Hu Hl.
  assert (wellHeld s -> tableOk s' /\ closesOf s' = closesOf s ++ omap (implAt s) uds /\
    (forall ud, ud ∈ refs (ownersOf s') -> policyAt ud s' = policyAt ud s)) as H.
  { intros [T Hh]. destruct (letGo_closes uds s s' Hl) as (T' & C & K); [| done | |].
    - rewrite Hu. apply NoDup_elements.
    - intros ud Hud. apply Hh. rewrite Hu in Hud. set_solver.
    - split; [done|]. split; [done|]. intros ud Hud. destruct (Hh ud ltac:(set_solver)) as [p Ep].
      rewrite Ep. apply K; [|done]. rewrite Hu. set_solver. }
  split; [done| | |].
  - intros W. destruct (H W) as (T & _ & K). split; [done|]. intros ud Hud. rewrite K by done. apply W. set_solver.
  - intros W. destruct (H W) as (_ & C & K). rewrite C, <- app_assoc. f_equiv. unfold held.
    rewrite (omap_implAt_ext s s') by (intros ud Hud; apply K; set_solver).
    rewrite <- omap_app. apply omap_Permutation. rewrite Hu, <- elements_disj_union by set_solver.
    f_equiv. rewrite union_comm_L, <- union_difference_L; done.
  - intros W. by apply H.
Qed.
Lemma silent_shrinks s s' : silent s s' -> ownersOf s' = ownersOf s -> shrinks s s'.
Proof.
  intros Hs E. apply (native_shrinks []); [by rewrite E| |by constructor].
  by rewrite E, difference_diag_L, elements_empty.
Qed.

(** A native call, and a call that is plain, from any state. *)
Lemma native_call {A} (m : G A) post s :
  native m post -> (forall a v v', post a v v' -> refs v' ⊆ refs v) ->
  exists a s', m s = (Ret a, s') /\ post a (ownersOf s) (ownersOf s') /\ shrinks s s'.
Proof.
  intros Hm Hp. destruct (Hm s) as (a & s' & uds & E & P & Hu & Hl). exists a, s'.
  split; [done|]. split; [done|]. apply (native_shrinks uds); eauto.
Qed.
Lemma plain_call {A} (m : G A) s :
  plain m -> exists a s', m s = (Ret a, s') /\ ownersOf s' = ownersOf s /\ shrinks s s'.
Proof.
  intros Hm. destruct (Hm s) as (a & s' & E & Hs & Ho). exists a, s'. split; [done|]. split; [done|].
  by apply silent_shrinks.
Qed.
(** A native call that releases nothing is silent. *)
Lemma native_silent {A} (m : G A) post s a s' :
  native m post -> m s = (Ret a, s') -> (forall a v v', post a v v' -> refs v ⊆ refs v') -> silent s s'.
Proof.
  intros Hm E Hp. destruct (Hm s) as (a' & s1 & uds & E1 & P & Hu & Hl).
  assert (a' = a /\ s1 = s') as [-> ->] by (by split; congruence).
  assert (refs (ownersOf s) ∖ refs (ownersOf s') = ∅) as Ed by (apply Hp in P; set_solver).
  rewrite Ed, elements_empty in Hu. apply Permutation_nil_r in Hu as ->. by inversion Hl.
Qed.

(** ** Registering a policy *)

Lemma Delete_outside h (s : St) : outside (snd (Delete h s)) = outside s.
Proof. unfold Delete. by destruct (handles s !! h). Qed.
Lemma plain_quiet {A} (m : G A) : plain m -> quiet m.
Proof. intros H s. destruct (H s) as (a & s' & -> & (E1 & E2 & _) & _). done. Qed.
Lemma create_silent rg s r s' : CreatePretradeCustomPreTradePolicy rg s = (Ret r, s') -> silent s s'.
Proof.
  intros E. apply (native_silent _ _ _ _ _ (db_create_policy builder_is_documented rg) E).
  intros [p|e] v v'; [|by intros ->]. intros [Hn ->]. rewrite refs_insert_fresh by done. set_solver.
Qed.
Lemma create_quiet rg : quiet (CreatePretradeCustomPreTradePolicy rg).
Proof.
  intros s. destruct (db_create_policy builder_is_documented rg s) as (r & s' & _ & E & _).
  pose proof (create_silent _ _ _ _ E) as (E1 & E2 & _). by rewrite E.
Qed.

(** Registration returns; what it does outside the table. *)
Lemma StartPreTrade_outside ref s :
  tableOk s ->
  exists r s', StartPreTrade ref s = (Ret r, s') /\ closesOf s' = closesOf s /\
    match r with
    | inl p => ownersOf s !! OPolicy p = None /\
        ownersOf s' = <[OPolicy p := {[(handleIdx s + 1)%Z]}]> (ownersOf s)
    | inr _ => ownersOf s' = ownersOf s
    end.
Proof.
  intros T. destruct (pl_Name policies_are_plain ref s) as (n & s1 & E1 & S1 & O1).
  pose proof S1 as (H1 & I1 & C1). unfold StartPreTrade. rewrite (bind_Ret _ _ _ _ _ E1).
  unfold bind at 1. unfold NewHandle. set (h := (handleIdx s1 + 1)%Z).
  match goal with |- context [bind _ _ (mkGo h ?t ?k ?o)] => set (s2 := mkGo h t k o) end.
  destruct (pl_PolicyGroupID policies_are_plain ref s2) as (g & s3 & E3 & S3 & O3).
  rewrite (bind_Ret _ _ _ _ _ E3). unfold bind.
  match goal with |- context [CreatePretradeCustomPreTradePolicy ?rg s3] =>
    destruct (db_create_policy builder_is_documented rg s3) as (r & s4 & uds & E4 & P4 & _);
    pose proof (create_silent rg _ _ _ E4) as S4 end.
  rewrite E4. destruct S3 as (H3 & I3 & C3), S4 as (H4 & I4 & C4).
  assert (closesOf s4 = closesOf s) as C by (rewrite C4, C3; cbn; exact C1).
  assert (ownersOf s3 = ownersOf s) as O by (rewrite O3; exact O1).
  rewrite O in P4. destruct r as [p|e].
  - exists (inl p), s4. split; [done|]. split; [done|]. destruct P4 as [Hn P4]. split; [done|]. rewrite P4.
    cbn [rg_userData]. unfold NewUserDataFromHandle, h. by rewrite I1.
  - eexists (inr e), (withHandles (delete h) s4).
    erewrite (Delete_live h) by (rewrite H4, H3; apply lookup_insert_eq). done.
Qed.

Lemma StartPreTrade_session ref s :
  wellHeld s ->
  exists r s', StartPreTrade ref s = (Ret r, s') /\
    match r with
    | inl p => ownersOf s !! OPolicy p = None /\ exists ud,
        ownersOf s' = <[OPolicy p := {[ud]}]> (ownersOf s) /\ wellHeld s' /\
        closesOf s' = closesOf s /\ held s' ≡ₚ held s ++ [ref] /\
        (forall u, u ∈ refs (ownersOf s) -> policyAt u s' = policyAt u s)
    | inr _ => ownersOf s' = ownersOf s /\ shrinks s s'
    end.
Proof.
  intros [T W]. destruct (StartPreTrade_outside ref s T) as (r & s' & E & C & O).
  pose proof (StartPreTrade_spec ref s T (plain_quiet _ (pl_Name policies_are_plain ref))
    (plain_quiet _ (pl_PolicyGroupID policies_are_plain ref)) create_quiet) as H.
  rewrite E in H. exists r, s'. split; [done|]. set (ud := (handleIdx s + 1)%Z) in *.
  destruct r as [p|e].
  - destruct O as [Hn O], H as (q & Hi & _ & _ & _ & _ & Hh & T'). split; [done|]. exists ud. split; [done|].
    assert (forall u, u ∈ refs (ownersOf s) -> u <> ud) as Hne.
    { intros u Hu ->. destruct (W _ Hu) as [x Hx%policyAt_Some].
      destruct (proj2 (proj1 T) ud ltac:(by eexists)). lia. }
    assert (forall u, u ∈ refs (ownersOf s) -> policyAt u s' = policyAt u s) as K.
    { intros u Hu. apply policyAt_same. rewrite Hh. apply lookup_insert_ne. by apply not_eq_sym, Hne. }
    assert (policyAt ud s' = Some q) as Eq by (apply policyAt_Some; rewrite Hh; apply lookup_insert_eq).
    assert (refs (ownersOf s') = refs (ownersOf s) ∪ {[ud]}) as R by (rewrite O; by apply refs_insert_fresh).
    assert (ud ∉ refs (ownersOf s)) as Hud by (intros Hu; by apply (Hne ud)).
    split; [|split; [done|split; [|done]]].
    + split; [done|]. rewrite R. intros u [Hu| ->%elem_of_singleton]%elem_of_union; [rewrite K; auto|by eexists].
    + unfold held. rewrite R, elements_disj_union by set_solver.
      rewrite omap_app, (omap_implAt_ext s s') by (intros u Hu; apply K; set_solver).
      f_equiv. rewrite elements_singleton. cbn. unfold implAt. rewrite Eq. cbn. by rewrite Hi.
  - destruct H as [Hh T']. assert (forall u, policyAt u s' = policyAt u s) as K.
    { intros u. apply policyAt_same. by rewrite Hh. }
    split; [done|]. split.
    + by rewrite O.
    + intros _. split; [done|]. rewrite O. intros u Hu. rewrite K. by apply W.
    + intros _. rewrite C. unfold held. rewrite O. f_equiv. by rewrite (omap_implAt_ext s s').
    + done.
Qed.

(** ** The life of one builder

    The builder and the engines built with it, in a process that may hold others. *)
Inductive builderCall :=
| CPreTrade (policies : list policyRef)
| CBuiltin (builtin : nat)
| CClose
| CBuild
| CStop (i : nat).
Abbreviation Session := (St * ReadyEngineBuilder * list SyncEngine.Engine)%type.

Definition callBuilder (c : builderCall) : M Session unit := fun '(st, es) =>
  match c with
  | CPreTrade policies => let (o, st) := BuilderPreTrade policies st in (o, (st, es))
  | CBuiltin builtin => let (o, st) := Builtin builtin st in (o, (st, es))
  | CClose => let (o, st) := BuilderClose st in (o, (st, es))
  | CBuild => match Build st with
              | (Ret (inl e), st) => (Ret tt, (st, es ++ [e]))
              | (Ret (inr _), st) => (Ret tt, (st, es))
              | (Panic v, st) => (Panic v, (st, es))
              end
  | CStop i => match es !! i with
               | None => (Ret tt, (st, es))
               | Some e => match SyncEngine.Stop e (fst st) with
                           | (Ret e, s) => (Ret tt, ((s, snd st), <[i := e]> es))
                           | (Panic v, s) => (Panic v, ((s, snd st), es))
                           end
               end
  end.
Fixpoint callAll (cs : list builderCall) : M Session unit :=
  match cs with
  | [] => ret tt
  | c :: cs => callBuilder c ;;; callAll cs
  end.
Definition handedBy (c : builderCall) : list policyRef :=
  match c with CPreTrade policies => policies | _ => [] end.
Definition handed (cs : list builderCall) : list policyRef := cs ≫= handedBy.

(** The native objects this builder's owner holds. *)
Definition ours (b : ReadyEngineBuilder) (es : list SyncEngine.Engine) (o : owner) : Prop :=
  match o with
  | OPolicy _ => False
  | OBuilder h => rb_handle b = Some h
  | OEngine e => SyncEngine.mkEngine (Some e) ∈ es
  end.

#[local] Instance engine_eq_dec : EqDecision SyncEngine.Engine.
Proof. solve_decision. Defined.
#[local] Instance ours_dec b es o : Decision (ours b es o).
Proof. destruct o; cbn; apply _. Defined.

Record inSession (s0 : St) (given : list policyRef) (s : St) (b : ReadyEngineBuilder)
    (es : list SyncEngine.Engine) : Prop := {
  in_held : wellHeld s;
  in_ledger : closesOf s ++ held s ++ unfinished b ≡ₚ closesOf s0 ++ held s0 ++ given;
  in_frame o : ~ ours b es o -> ownersOf s !! o = ownersOf s0 !! o;
  in_fresh o : ours b es o -> ownersOf s0 !! o = None;
  in_table ud : ud ∈ refs (ownersOf s0) -> policyAt ud s = policyAt ud s0;
}.

(** What was there before is still there. *)
Lemma session_refs s0 s b es :
  (forall o, ~ ours b es o -> ownersOf s !! o = ownersOf s0 !! o) ->
  (forall o, ours b es o -> ownersOf s0 !! o = None) ->
  refs (ownersOf s0) ⊆ refs (ownersOf s).
Proof.
  intros Hf Hn ud (o & X & E & Hu)%elem_of_refs. apply elem_of_refs. exists o, X. split; [|done].
  rewrite Hf; [done|]. intros Ho. apply Hn in Ho. congruence.
Qed.

Lemma session_shrinks s0 given s b es s' b' es' :
  inSession s0 given s b es -> shrinks s s' -> unfinished b' = unfinished b ->
  (forall o, ~ ours b' es' o -> ownersOf s' !! o = ownersOf s0 !! o) ->
  (forall o, ours b' es' o -> ownersOf s0 !! o = None) ->
  inSession s0 given s' b' es'.
Proof.
  intros [W L F N T] [R H Lg K] Eu F' N'. split; [auto| |done|done|].
  - rewrite Eu, app_assoc, Lg, <- app_assoc by done. done.
  - intros ud Hu. rewrite K; [by apply T|done|]. by apply (session_refs s0 s' b' es').
Qed.
(** The common case: the same objects. *)
Lemma session_same s0 given s b es s' b' :
  inSession s0 given s b es -> shrinks s s' -> unfinished b' = unfinished b -> rb_handle b' = rb_handle b ->
  ownersOf s' = ownersOf s -> inSession s0 given s' b' es.
Proof.
  intros I S Eu Eh Eo. apply (session_shrinks s0 given s b es); [done..| |].
  - intros o Ho. rewrite Eo. apply (in_frame _ _ _ _ _ I). destruct o; cbn in *; congruence.
  - intros o Ho. apply (in_fresh _ _ _ _ _ I). destruct o; cbn in *; congruence.
Qed.

(** *** The native calls of a builder *)

Lemma refs_same (v v' : owners) : v' = v -> refs v' ⊆ refs v.
Proof. by intros ->. Qed.

Lemma AddPolicy_call b p s :
  exists r s', EngineBuilderAddPreTradePolicy b p s = (Ret r, s') /\ shrinks s s' /\
    (ownersOf s' = ownersOf s \/ exists h X, b = Some h /\ ownersOf s' = <[OBuilder h := X]> (ownersOf s)).
Proof.
  destruct (native_call _ _ s (db_add builder_is_documented b p)) as ([ok msg] & s' & E & P & S).
  { intros [[] msg] v v'; cbn; [|by intros [-> _]]. intros (h & X & Y & _ & EX & EY & ->).
    apply refs_insert, union_least; by eapply refs_lookup. }
  unfold EngineBuilderAddPreTradePolicy. rewrite (bind_Ret _ _ _ _ _ E). cbn in P.
  destruct ok; [|destruct P as [P [text ->]]]; (eexists _, s'; split; [reflexivity|split; [done|]]); [right|by left].
  destruct P as (h & X & Y & -> & _ & _ & ->). by exists h, (X ∪ Y).
Qed.
Lemma DropPolicy_call p s :
  exists s', DestroyPretradePreTradePolicy p s = (Ret tt, s') /\ shrinks s s' /\
    ownersOf s' = delete (OPolicy p) (ownersOf s).
Proof.
  destruct (native_call _ _ s (db_drop builder_is_documented p)) as ([] & s' & E & P & S); [|by exists s'].
  intros [] v v' ->. apply refs_delete.
Qed.
Lemma on_Ret {A} (m : G A) s b a s' : m s = (Ret a, s') -> on m (s, b) = (Ret a, (s', b)).
Proof. unfold on. by intros ->. Qed.

Lemma failToAdd_call err ref s b :
  exists s' n, failToAdd err ref (s, b) = (Ret tt, (s', withErr (PolicyAddError err n) b)) /\
    shrinks s s' /\ ownersOf s' = ownersOf s.
Proof.
  destruct (plain_call _ s (pl_Name policies_are_plain ref)) as (n & s' & E & O & S).
  exists s', n. unfold failToAdd. by rewrite (bind_Ret _ _ _ _ _ (on_Ret _ _ b _ _ E)).
Qed.

(** *** Policies *)

(** A policy was registered and its caller's reference dropped, with whatever the
    builder retained in between. *)
Lemma registered_session s0 given s b es ref p ud s1 s2 s3 b' :
  inSession s0 given s b es ->
  ownersOf s !! OPolicy p = None -> ownersOf s1 = <[OPolicy p := {[ud]}]> (ownersOf s) ->
  wellHeld s1 -> closesOf s1 = closesOf s -> held s1 ≡ₚ held s ++ [ref] ->
  (forall u, u ∈ refs (ownersOf s) -> policyAt u s1 = policyAt u s) ->
  shrinks s1 s3 -> rb_handle b' = rb_handle b -> unfinished b' = unfinished b ->
  (ownersOf s2 = ownersOf s1 \/
    exists h X, rb_handle b = Some h /\ ownersOf s2 = <[OBuilder h := X]> (ownersOf s1)) ->
  ownersOf s3 = delete (OPolicy p) (ownersOf s2) ->
  inSession s0 (given ++ [ref]) s3 b' es.
Proof.
  intros I Hn O1 W1 C1 H1 K1 S Eh Eu O2 O3. destruct I as [W L F N T], S as [R H Lg K].
  assert (forall o, ours b' es o <-> ours b es o) as Ho by (intros []; cbn; by rewrite ?Eh).
  assert (forall o, ~ ours b' es o -> ownersOf s3 !! o = ownersOf s0 !! o) as F'.
  { intros o Hno. rewrite Ho in Hno. rewrite O3. destruct (decide (o = OPolicy p)) as [->|Hop].
    - rewrite lookup_delete_eq, <- F; done.
    - rewrite lookup_delete_ne, <- F by done.
      assert (ownersOf s1 !! o = ownersOf s !! o) as E1 by (rewrite O1; by apply lookup_insert_ne).
      destruct O2 as [->|(h & X & Eb & ->)]; [done|]. rewrite lookup_insert_ne; [done|].
      intros <-. by apply Hno. }
  assert (forall o, ours b' es o -> ownersOf s0 !! o = None) as N' by (intros o; rewrite Ho; apply N).
  split; [auto| |done|done|].
  - rewrite Eu, app_assoc, Lg, C1, H1 by done. rewrite !app_assoc in *. rewrite <- L. solve_Permutation.
  - intros u Hu. rewrite K, K1, T; [done..| |done|by apply (session_refs s0 s3 b' es)].
    by apply (session_refs s0 s b es).
Qed.

Lemma addPreTradePolicy_session s0 given s b es ref :
  inSession s0 given s b es ->
  exists s' b', addPreTradePolicy ref (s, b) = (Ret tt, (s', b')) /\ rb_handle b' = rb_handle b /\
    inSession s0 (given ++ [ref]) s' b' es.
Proof.
  intros I. unfold addPreTradePolicy, field, bind at 1, gets at 1. cbn [snd].
  assert (forall s1 b1, inSession s0 given s1 b1 es ->
    inSession s0 (given ++ [ref]) s1 (withUnfinished (unfinished b1 ++ [ref]) b1) es) as Hs.
  { intros s1 b1 [W L F N T]. split; [done| |done|done|done]. cbn [unfinished withUnfinished].
    rewrite !app_assoc in *. by rewrite L. }
  destruct (rb_err b) as [e|] eqn:Eerr.
  { eexists s, _. split; [reflexivity|]. split; [done|]. by apply Hs. }
  destruct (StartPreTrade_session ref s (in_held _ _ _ _ _ I)) as (r & s1 & E1 & H1).
  rewrite (bind_Ret _ _ _ _ _ (on_Ret _ _ b _ _ E1)). destruct r as [p|e].
  - destruct H1 as (Hn & ud & O1 & W1 & C1 & P1 & K1).
    destruct (AddPolicy_call (rb_handle b) p s1) as (r & s2 & E2 & S2 & O2).
    assert (exists s2' b', (match r with Some err => failToAdd err ref | None => ret tt end) (s2, b) =
      (Ret tt, (s2', b')) /\ shrinks s2 s2' /\ ownersOf s2' = ownersOf s2 /\
      rb_handle b' = rb_handle b /\ unfinished b' = unfinished b) as (s2' & b' & E2' & S2' & O2' & Eh & Eu).
    { destruct r as [err|]; [|by exists s2, b].
      destruct (failToAdd_call err ref s2 b) as (s3 & n & E3 & S3 & O3). eexists s3, _. by rewrite E3. }
    destruct (DropPolicy_call p s2') as (s3 & E3 & S3 & O3).
    exists s3, b'. split; [|split; [done|]].
    + unfold deferred, bind at 1, gets at 1. cbn [snd].
      rewrite (bind_Ret _ _ _ _ _ (on_Ret _ _ b _ _ E2)), E2'. by rewrite (on_Ret _ _ _ _ _ E3).
    + eapply (registered_session s0 given s b es ref p ud s1 s2 s3); try done.
      * by rewrite S2, S2'.
      * by rewrite O3, O2'.
  - destruct H1 as [O1 S1]. destruct (failToAdd_call e ref s1 b) as (s2 & n & E2 & S2 & O2).
    rewrite (bind_Ret _ _ _ _ _ E2). eexists s2, _. split; [reflexivity|]. split; [done|].
    apply Hs. apply (session_same s0 given s b); [done|by rewrite S1|done|done|by rewrite O2].
Qed.

Lemma BuilderPreTrade_session s0 policies given s b es :
  inSession s0 given s b es ->
  exists s' b', BuilderPreTrade policies (s, b) = (Ret tt, (s', b')) /\
    inSession s0 (given ++ policies) s' b' es.
Proof.
  revert given s b. induction policies as [|p policies IH]; intros given s b I.
  - exists s, b. by rewrite app_nil_r.
  - destruct (addPreTradePolicy_session s0 given s b es p I) as (s1 & b1 & E1 & _ & I1).
    destruct (IH _ _ _ I1) as (s2 & b2 & E2 & I2). exists s2, b2. cbn [BuilderPreTrade].
    rewrite (bind_Ret _ _ _ _ _ E1), E2. split; [done|]. by rewrite <- app_assoc in I2.
Qed.
Lemma Builtin_session s0 builtin given s b es :
  inSession s0 given s b es ->
  exists s' b', Builtin builtin (s, b) = (Ret tt, (s', b')) /\ inSession s0 given s' b' es.
Proof.
  intros I. unfold Builtin, field, bind at 1, gets at 1. cbn [snd]. destruct (rb_err b) as [e|]; [by exists s, b|].
  destruct (native_call _ _ s (db_builtin builder_is_documented builtin (rb_handle b))) as (r & s1 & E1 & O1 & S1).
  { intros _ v v'. apply refs_same. }
  unfold bind at 1, gets. cbn [snd]. rewrite (bind_Ret _ _ _ _ _ (on_Ret _ _ b _ _ E1)).
  destruct r as [err|]; (eexists s1, _; split; [reflexivity|]); by eapply session_same.
Qed.

(** *** Closing, building, stopping *)

Lemma closeEntities_spec l s b :
  wellHeld s ->
  exists s', closeEntities l (s, b) = (Ret tt, (s', b)) /\ wellHeld s' /\ closesOf s' = closesOf s ++ l /\
    ownersOf s' = ownersOf s /\ forall ud, ud ∈ refs (ownersOf s) -> policyAt ud s' = policyAt ud s.
Proof.
  revert s. induction l as [|ref l IH]; intros s [T W]; [exists s; by rewrite app_nil_r|].
  destruct (pl_Close policies_are_plain ref s) as (s1 & E1 & [P1 T1] & C1 & O1).
  assert (forall ud, ud ∈ refs (ownersOf s) -> policyAt ud s1 = policyAt ud s) as K1.
  { intros ud Hu. destruct (W ud Hu) as [p Ep]. rewrite Ep. apply policyAt_Some. apply policyAt_Some in Ep.
    by apply (keeps_value _ _ _ _ (proj1 T) P1 Ep). }
  destruct (IH s1) as (s2 & E2 & W2 & C2 & O2 & K2).
  { split; [auto|]. rewrite O1. intros ud Hu. rewrite K1 by done. by apply W. }
  exists s2. cbn [closeEntities]. rewrite (bind_Ret _ _ _ _ _ (on_Ret _ _ b _ _ E1)), E2.
  split; [done|]. split; [done|]. split; [by rewrite C2, C1, <- app_assoc|]. split; [by rewrite O2|].
  intros ud Hu. rewrite K2, K1; [done..|by rewrite O1].
Qed.

Lemma BuilderClose_session s0 given s b es :
  inSession s0 given s b es ->
  exists s' b', BuilderClose (s, b) = (Ret tt, (s', b')) /\ inSession s0 given s' b' es /\
    unfinished b' = [] /\ rb_handle b' = None.
Proof.
  intros I. unfold BuilderClose, field, bind at 1, gets at 1. cbn [snd].
  destruct (closeEntities_spec (unfinished b) s b (in_held _ _ _ _ _ I)) as (s1 & E1 & W1 & C1 & O1 & K1).
  rewrite (bind_Ret _ _ _ _ _ E1). set (b1 := withUnfinished [] b).
  assert (inSession s0 given s1 b1 es) as I1.
  { destruct I as [W L F N T]. split; [done| | |done|].
    - rewrite (held_same s s1), C1 by done. cbn. rewrite app_nil_r, <- L.
      rewrite <- !app_assoc. f_equiv. apply Permutation_app_comm.
    - intros o Ho. rewrite O1. by apply F.
    - intros ud Hu. rewrite K1; [by apply T|]. by apply (session_refs s0 s b es). }
  unfold bind at 1, setBuilder at 1, modify at 1. cbn [fst snd]. fold b1.
  unfold bind at 1, gets. cbn [snd]. change (rb_handle b1) with (rb_handle b).
  destruct (rb_handle b) as [h|] eqn:Eh; [|by exists s1, b1].
  destruct (native_call _ _ s1 (db_destroy builder_is_documented h)) as ([] & s2 & E2 & O2 & S2).
  { intros [] v v' ->. apply refs_delete. }
  unfold DestroyEngineBuilder. rewrite (bind_Ret _ _ _ _ _ (on_Ret _ _ b1 _ _ E2)).
  eexists s2, _. split; [reflexivity|]. split; [|done].
  apply (session_shrinks s0 given s1 b1 es); [done..| |].
  - intros o Ho. rewrite O2. destruct (decide (o = OBuilder h)) as [->|Hne].
    + rewrite lookup_delete_eq. symmetry. by apply (in_fresh _ _ _ _ _ I1).
    + rewrite lookup_delete_ne by done. apply (in_frame _ _ _ _ _ I1). destruct o; cbn in *; congruence.
  - intros o Ho. apply (in_fresh _ _ _ _ _ I1). destruct o; done.
Qed.

Lemma BuildError_call be s :
  exists x s', newEngineBuildErrorFromHandle be s = (Ret x, s') /\ shrinks s s' /\ ownersOf s' = ownersOf s.
Proof.
  assert (forall A (x : A) v v', v' = v -> refs v' ⊆ refs v) as Hr by (intros A x; apply refs_same).
  destruct (native_call _ _ s (db_error_code builder_is_documented be) (Hr _)) as (c & s1 & E1 & O1 & S1).
  destruct (native_call _ _ s1 (db_error_name builder_is_documented be) (Hr _)) as (n & s2 & E2 & O2 & S2).
  destruct (native_call _ _ s2 (db_error_group builder_is_documented be) (Hr _)) as (g & s3 & E3 & O3 & S3).
  eexists _, s3. unfold newEngineBuildErrorFromHandle.
  rewrite (bind_Ret _ _ _ _ _ E1), (bind_Ret _ _ _ _ _ E2), (bind_Ret _ _ _ _ _ E3).
  split; [reflexivity|]. split; [by rewrite S1, S2|congruence].
Qed.

Lemma refs_build (v : owners) h e X :
  v !! OBuilder h = Some X -> refs (<[OEngine e := X]> (<[OBuilder h := ∅]> v)) ⊆ refs v.
Proof.
  intros E. apply refs_mono. intros o Y H. apply lookup_insert_Some in H as [[_ <-]|[_ H]].
  - by eapply refs_lookup.
  - apply lookup_insert_Some in H as [[_ <-]|[_ H]]; [set_solver|by eapply refs_lookup].
Qed.

(** What the body of [Build] answers, before the deferred close. *)
Lemma EngineBuilderBuild_session s0 given s b es :
  inSession s0 given s b es ->
  exists e be err s', EngineBuilderBuild (rb_handle b) s = (Ret (e, be, err), s') /\
    inSession s0 given s' b (es ++ (match e with Some e => [SyncEngine.mkEngine (Some e)] | None => [] end)) /\
    match e with Some _ => be = None /\ err = None | None => is_Some be \/ is_Some err end.
Proof.
  intros I. destruct (native_call _ _ s (db_build builder_is_documented (rb_handle b))) as ([[e be] msg] & s1 & E1 & P & S1).
  { intros [[[e|] be] msg] v v'; cbn.
    - intros (h & X & _ & EX & _ & ->). by apply refs_build.
    - intros [_ [->|(h & X & Y & _ & EX & Hs & ->)]]; [done|]. apply refs_insert. etransitivity; [done|].
      by eapply refs_lookup. }
  unfold EngineBuilderBuild. rewrite (bind_Ret _ _ _ _ _ E1). cbn in P. destruct e as [e|].
  - destruct P as (h & X & Eb & _ & En & O1). eexists _, _, _, s1. split; [reflexivity|]. split; [|done].
    apply (session_shrinks s0 given s b es); [done..| |].
    + intros o Ho. rewrite O1, !lookup_insert_ne; [|intros <-; by apply Ho|intros <-; apply Ho; cbn; set_solver].
      apply (in_frame _ _ _ _ _ I). intros Ho'. apply Ho. destruct o; cbn in *; set_solver.
    + intros o Ho. destruct (decide (o = OEngine e)) as [->|Hne].
      * destruct (decide (ours b es (OEngine e))) as [Hy|Hy]; [by apply (in_fresh _ _ _ _ _ I)|].
        rewrite <- (in_frame _ _ _ _ _ I); done.
      * apply (in_fresh _ _ _ _ _ I). destruct o as [| |e']; [done..|]. cbn in Ho |- *.
        apply elem_of_app in Ho as [Ho|Ho]; [done|]. apply list_elem_of_singleton in Ho. congruence.
  - assert (inSession s0 given s1 b es) as I1.
    { destruct P as [_ [O1|(h & X & Y & Eb & _ & _ & O1)]]; [by apply (session_same s0 given s b es)|].
      apply (session_shrinks s0 given s b es); [done..| |apply I].
      intros o Ho. rewrite O1, lookup_insert_ne by (intros <-; by apply Ho). by apply I. }
    destruct be as [be|]; [|destruct P as [[[? [=]]|[text ->]] _]];
      (eexists _, _, _, s1; split; [reflexivity|]; rewrite ?app_nil_r; split; [done|]); [left|right]; by eexists.
Qed.

(** [Build] adds the engine it returns, and closes the builder either way. *)
Lemma Build_session s0 given s b es :
  inSession s0 given s b es ->
  exists r s' b', Build (s, b) = (Ret r, (s', b')) /\ unfinished b' = [] /\ rb_handle b' = None /\
    inSession s0 given s' b' (es ++ match r with inl e => [e] | inr _ => [] end).
Proof.
  intros I. assert (exists r s1, (let* err := field rb_err in
     match err with
     | Some err => ret (inr err)
     | None =>
       let* h := field rb_handle in
       let* (handle, buildErr, err) := on (EngineBuilderBuild h) in
       match buildErr with
       | Some be =>
         let* structured := on (newEngineBuildErrorFromHandle be) in
         on (DestroyEngineBuildError be) ;;;
         ret (inr (BuildFailed structured))
       | None => match err with
                 | Some err => ret (inr (NativeError err))
                 | None => ret (inl (newEngineFromHandle handle))
                 end
       end
     end) (s, b) = (Ret r, (s1, b)) /\
     inSession s0 given s1 b (es ++ match r with inl e => [e] | inr _ => [] end)) as (r & s1 & E1 & I1).
  { unfold field, bind at 1, gets at 1. cbn [snd].
    destruct (rb_err b) as [e|]; [exists (inr e), s; by rewrite app_nil_r|].
    unfold bind at 1, gets. cbn [snd].
    destruct (EngineBuilderBuild_session s0 given s b es I) as (e & be & err & s1 & E1 & I1 & H).
    rewrite (bind_Ret _ _ _ _ _ (on_Ret _ _ b _ _ E1)). destruct e as [e|].
    - destruct H as [-> ->]. eexists _, s1. split; [reflexivity|]. exact I1.
    - destruct be as [be|].
      + destruct (BuildError_call be s1) as (x & s2 & E2 & S2 & O2).
        destruct (native_call _ _ s2 (db_error_destroy builder_is_documented be)) as ([] & s3 & E3 & O3 & S3).
        { intros _ v v'. apply refs_same. }
        rewrite (bind_Ret _ _ _ _ _ (on_Ret _ _ b _ _ E2)). unfold DestroyEngineBuildError.
        rewrite (bind_Ret _ _ _ _ _ (on_Ret _ _ b _ _ E3)). eexists _, s3. split; [reflexivity|].
        eapply session_same; [exact I1|by rewrite S2|done|done|congruence].
      + destruct H as [[? ?]|[err' ->]]; [done|]. eexists _, s1. split; [reflexivity|]. exact I1. }
  destruct (BuilderClose_session s0 given s1 b _ I1) as (s2 & b2 & E2 & I2 & Eu & Eh).
  exists r, s2, b2. split; [|done]. unfold Build, deferred. rewrite E1. by rewrite E2.
Qed.

Lemma Stop_session s0 given s b es i e :
  inSession s0 given s b es -> es !! i = Some e ->
  exists s', SyncEngine.Stop e s = (Ret (SyncEngine.mkEngine None), s') /\
    inSession s0 given s' b (<[i := SyncEngine.mkEngine None]> es).
Proof.
  intros I Ei. destruct (native_call _ _ s (db_stop builder_is_documented (SyncEngine.handle e))) as ([] & s1 & E1 & O1 & S1).
  { intros _ v v' ->. destruct (SyncEngine.handle e); [apply refs_delete|done]. }
  exists s1. unfold SyncEngine.Stop. rewrite (bind_Ret _ _ _ _ _ E1). split; [done|].
  set (es' := <[i := SyncEngine.mkEngine None]> es).
  assert (forall h, SyncEngine.mkEngine (Some h) ∈ es' -> SyncEngine.mkEngine (Some h) ∈ es) as Hsub.
  { intros h (j & Ej)%list_elem_of_lookup. unfold es' in Ej. destruct (decide (i = j)) as [<-|Hne].
    - rewrite list_lookup_insert_eq in Ej by (by eapply lookup_lt_Some). done.
    - rewrite list_lookup_insert_ne in Ej by done. by eapply list_elem_of_lookup_2. }
  assert (forall h, SyncEngine.mkEngine (Some h) ∈ es -> SyncEngine.handle e <> Some h ->
    SyncEngine.mkEngine (Some h) ∈ es') as Hsup.
  { intros h (j & Ej)%list_elem_of_lookup Hh. apply list_elem_of_lookup. exists j. unfold es'.
    rewrite list_lookup_insert_ne; [done|]. intros ->. rewrite Ei in Ej. injection Ej as ->. by apply Hh. }
  apply (session_shrinks s0 given s b es); [done..| |].
  - intros o Ho. destruct (decide (ours b es o)) as [Hy|Hy].
    + rewrite (in_fresh _ _ _ _ _ I) by done. destruct o as [|h|h]; [done..|]. cbn in Ho, Hy.
      rewrite O1. destruct (SyncEngine.handle e) as [h'|] eqn:Eh; [|by destruct Ho; apply Hsup].
      destruct (decide (h' = h)) as [->|Hne]; [apply lookup_delete_eq|].
      destruct Ho. apply Hsup; [done|congruence].
    + rewrite O1, <- (in_frame _ _ _ _ _ I) by done. destruct (SyncEngine.handle e) as [h|] eqn:Eh; [|done].
      apply lookup_delete_ne. intros <-. apply Hy. cbn. destruct e as [x]. cbn in Eh. subst x.
      by eapply list_elem_of_lookup_2.
  - intros o Ho. apply (in_fresh _ _ _ _ _ I). destruct o; [done..|]. by apply Hsub.
Qed.

(** ** The promise *)

Lemma newReady_session sb s0 :
  wellHeld s0 -> exists b s, newReadyEngineBuilder sb s0 = (Ret b, s) /\ inSession s0 [] s b [].
Proof.
  intros W. assert (inSession s0 [] s0 (mkReady None None []) []) as I.
  { split; [done|by rewrite !app_nil_r|done| |done]. intros []; cbn; [done..|]. by intros ?%not_elem_of_nil. }
  destruct (native_call _ _ s0 (db_create builder_is_documented (syncPolicy sb))) as ([h msg] & s1 & E & P & S).
  { intros [[h|] msg] v v'; cbn; [|by intros [-> _]]. intros [_ ->]. apply refs_insert. set_solver. }
  unfold newReadyEngineBuilder, CreateEngineBuilder. unfold bind at 1.
  rewrite (bind_Ret _ _ _ _ _ E). cbn in P.
  destruct h as [h|]; [|destruct P as [P [text ->]]]; eexists _, s1; (split; [reflexivity|]).
  - destruct P as [Hn P]. apply (session_shrinks s0 [] s0 (mkReady None None []) []); [done..| |].
    + intros o Ho. rewrite P. apply lookup_insert_ne. intros <-. by apply Ho.
    + intros [|h'|e]; cbn; [done|by intros [= ->]|by intros ?%not_elem_of_nil].
  - by apply (session_same s0 [] s0 (mkReady None None [])).
Qed.

(** Whether the builder was closed or built last, stops apart. *)
Definition closedBy (c : builderCall) (closed : bool) : bool :=
  match c with CClose | CBuild => true | CStop _ => closed | CPreTrade _ | CBuiltin _ => false end.
Definition closedAfter (cs : list builderCall) : bool := foldl (fun closed c => closedBy c closed) false cs.
Definition isClosed (b : ReadyEngineBuilder) : Prop := unfinished b = [] /\ rb_handle b = None.

Lemma callBuilder_session c s0 given s b es closed :
  inSession s0 given s b es -> (closed = true -> isClosed b) ->
  exists s' b' es', callBuilder c ((s, b), es) = (Ret tt, ((s', b'), es')) /\
    inSession s0 (given ++ handedBy c) s' b' es' /\ (closedBy c closed = true -> isClosed b').
Proof.
  intros I Hc. destruct c as [policies|builtin| | |i]; cbn [handedBy callBuilder closedBy]; rewrite ?app_nil_r.
  - destruct (BuilderPreTrade_session s0 policies given s b es I) as (s' & b' & E & I'). rewrite E.
    by exists s', b', es.
  - destruct (Builtin_session s0 builtin given s b es I) as (s' & b' & E & I'). rewrite E. by exists s', b', es.
  - destruct (BuilderClose_session s0 given s b es I) as (s' & b' & E & I' & ?). rewrite E. by exists s', b', es.
  - destruct (Build_session s0 given s b es I) as (r & s' & b' & E & Eu & Eh & I'). rewrite E.
    destruct r as [e|e]; eexists s', b', _; (split; [reflexivity|]); [done|]. by rewrite app_nil_r in I'.
  - destruct (es !! i) as [e|] eqn:Ei; [|by exists s, b, es].
    destruct (Stop_session s0 given s b es i e I Ei) as (s' & E & I'). cbn [fst snd]. rewrite E. by eexists s', b, _.
Qed.
Lemma callAll_session cs s0 given s b es closed :
  inSession s0 given s b es -> (closed = true -> isClosed b) ->
  exists s' b' es', callAll cs ((s, b), es) = (Ret tt, ((s', b'), es')) /\
    inSession s0 (given ++ handed cs) s' b' es' /\
    (foldl (fun closed c => closedBy c closed) closed cs = true -> isClosed b').
Proof.
  revert given s b es closed. induction cs as [|c cs IH]; intros given s b es closed I Hc.
  - exists s, b, es. by rewrite app_nil_r.
  - destruct (callBuilder_session c s0 given s b es closed I Hc) as (s1 & b1 & es1 & E1 & I1 & H1).
    destruct (IH _ s1 b1 es1 _ I1 H1) as (s2 & b2 & es2 & E2 & I2 & H2). exists s2, b2, es2.
    cbn [callAll]. rewrite (bind_Ret _ _ _ _ _ E1), E2. split; [done|]. by rewrite <- app_assoc in I2.
Qed.

(** What a session leaves once its builder is used up and its engines are gone. *)
Lemma session_over s0 given s b es :
  inSession s0 given s b es -> unfinished b = [] -> rb_handle b = None -> Forall (fun e => SyncEngine.handle e = None) es ->
  closesOf s ≡ₚ closesOf s0 ++ given /\ held s = held s0 /\ ownersOf s = ownersOf s0.
Proof.
  intros [_ L F _ T] Eu Eh Hes. rewrite Eu, app_nil_r in L.
  assert (ownersOf s = ownersOf s0) as Eo.
  { apply map_eq. intros o. apply F. intros Ho. destruct o as [|h|e]; cbn in Ho; [done|congruence|].
    rewrite Forall_forall in Hes. by apply Hes in Ho. }
  assert (held s = held s0) as Ed by (apply held_same; auto).
  split; [|done]. rewrite Ed, (Permutation_app_comm (held s0)), app_assoc in L. by apply Permutation_app_inv_r in L.
Qed.

(** C23: Whatever is called on a builder and the engines built with it, in whatever order
    and with whatever failures, nothing panics, and every policy handed over is in one
    place: closed, waiting for [Close] in the builder, or registered with a native object
    that will close it. When the builder was closed, or built, after the last hand-over
    and every engine was stopped, every policy was closed exactly once, and the policies
    of other builders and engines were left alone. *)
Theorem builder_closes_every_policy_once (sb : SyncedEngineBuilder) (cs : list builderCall) (s0 : St) :
  wellHeld s0 ->
  exists b0 s1 s b es,
    newReadyEngineBuilder sb s0 = (Ret b0, s1) /\ callAll cs ((s1, b0), []) = (Ret tt, ((s, b), es)) /\
    closesOf s ++ held s ++ unfinished b ≡ₚ closesOf s0 ++ held s0 ++ handed cs /\
    (closedAfter cs = true -> Forall (fun e => SyncEngine.handle e = None) es ->
       closesOf s ≡ₚ closesOf s0 ++ handed cs /\ held s = held s0 /\ ownersOf s = ownersOf s0).
Proof.
  intros W. destruct (newReady_session sb s0 W) as (b0 & s1 & E0 & I0).
  destruct (callAll_session cs s0 [] s1 b0 [] false I0) as (s & b & es & E & I & H); [done|].
  exists b0, s1, s, b, es. split; [done|]. split; [done|]. split; [apply I|].
  intros Hc Hes. destruct (H Hc) as [Eu Eh]. by apply (session_over s0 _ s b es).
Qed.
End Facts.

(** ** A small native library

    It numbers its objects by the smallest free number and counts references as it says;
    policies, handlers and builtins do nothing but record that they were closed. *)
Abbreviation BuilderOutside := (list policyRef * owners)%type.
Abbreviation DemoState := (GoState nat BuilderOutside).
Definition demoClosing (ref : policyRef) : Policy nat BuilderOutside :=
  mkPolicy
    (modify (fun s => mkGo (handleIdx s) (handles s) (sink s) (fst (outside s) ++ [ref], snd (outside s))))
    (ret "demo"%string) (ret 7%Z)
    (fun _ _ => ret []) (fun _ _ _ _ => ret []) (fun _ _ _ _ => ret [])
    (fun _ _ _ _ _ => ret (mkAdjustmentResult [], [])) None None.

Definition policyKey (o : owner) : option Z := match o with OPolicy p => Some p | _ => None end.
Definition builderKey (o : owner) : option Z := match o with OBuilder b => Some b | _ => None end.
Definition engineKey (o : owner) : option Z := match o with OEngine e => Some e | _ => None end.
Definition freshKey (key : owner -> option Z) (v : owners) : Z := fresh (omap key (elements (dom v))).
Abbreviation freshPolicy := (freshKey policyKey).
Abbreviation freshBuilder := (freshKey builderKey).
Abbreviation freshEngine := (freshKey engineKey).

Definition setOwners (v : owners) (s : DemoState) : DemoState :=
  mkGo (handleIdx s) (handles s) (sink s) (fst (outside s), v).
Definition demoSilentCall {A} (f : owners -> A * owners) : M DemoState A := fun s =>
  let (a, v) := f (snd (outside s)) in (Ret a, setOwners v s).
#[local] Instance demoClosingProgram : Program nat BuilderOutside := {|
  policyOf := demoClosing;
  runFunc _ := ret tt;
  runHandler _ _ := ret tt;
  fmt_v _ := "value"%string;
  panicnil := false;
  PretradeRejectListPush _ := true;
  PushAccountBlock _ _ := ret tt;
  CreatePretradeCustomPreTradePolicy rg := demoSilentCall (fun v =>
    (inl (freshPolicy v), <[OPolicy (freshPolicy v) := {[rg_userData rg]}]> v));
|}.
Definition demoFree (uds : list Z) (s : DemoState) : DemoState :=
  foldl (fun s ud => snd (runCallback (CbPolicyClose ud) s)) s uds.
Definition demoCall {A} (f : owners -> A * owners) : M DemoState A := fun s =>
  let r := f (snd (outside s)) in
  (Ret (fst r), demoFree (elements (refs (snd (outside s)) ∖ refs (snd r))) (setOwners (snd r) s)).
#[local] Instance demoNativeEngine : NativeEngine nat BuilderOutside nat nat nat := {|
  EngineStartPreTrade _ _ := ret (Some 1%Z, None, None);
  EngineExecutePreTrade _ _ := ret (Some 1%Z, None, None);
  EngineApplyDropCopy _ _ := ret (Some 1%Z, None, None);
  EngineStartPreTradeDryRun _ _ := ret (inl 1%Z);
  EngineExecutePreTradeDryRun _ _ := ret (inl 1%Z);
  EngineApplyExecutionReport _ _ := ret (inl 1%Z);
  EngineApplyAccountAdjustment _ _ _ := ret (None, 1%Z, None);
  EngineRetireAccount _ _ := ret (None, None);
  DestroyEngine e := demoCall (fun v => (tt, match e with Some e => delete (OEngine e) v | None => v end));
  ReadRejectList _ := ret [];
  DestroyPretradeRejectList _ := ret tt;
  ReadPostTradeResult _ := ret 0;
  DestroyPostTradeResult _ := ret tt;
  NewAccountAdjustmentBatchErrorFromHandle _ := ret (inl 0);
  DestroyAccountAdjustmentBatchError _ := ret tt;
  ReadBatchResult _ := ret 0;
  NewAccountRetirementErrorFromHandle _ := ret (EOther 0);
  RequestExecute _ := ret (Some 9%Z, None, None);
  RequestClose q := ret tt;
|}.
Definition demoBuild (b : option Z) (v : owners) : option Z * option Z * option string * owners :=
  match b with
  | Some b =>
    match v !! OBuilder b with
    | Some X =>
      if decide (X = ∅) then (None, None, Some "no policies"%string, v)
      else (Some (freshEngine v), None, None, <[OEngine (freshEngine v) := X]> (<[OBuilder b := ∅]> v))
    | None => (None, None, Some "consumed"%string, v)
    end
  | None => (None, None, Some "null"%string, v)
  end.
Definition demoAdd (b : option Z) (p : Z) (v : owners) : bool * option string * owners :=
  match b with
  | Some b =>
    match v !! OBuilder b, v !! OPolicy p with
    | Some X, Some Y =>
      if decide (size X < 2) then (true, None, <[OBuilder b := X ∪ Y]> v) else (false, Some "full"%string, v)
    | _, _ => (false, Some "invalid"%string, v)
    end
  | None => (false, Some "null"%string, v)
  end.
#[local] Instance demoNativeBuilder : NativeBuilder nat BuilderOutside := {|
  openpit_create_engine_builder _ := demoCall (fun v =>
    ((Some (freshBuilder v), None), <[OBuilder (freshBuilder v) := ∅]> v));
  openpit_destroy_engine_builder b := demoCall (fun v =>
    (tt, match b with Some b => delete (OBuilder b) v | None => v end));
  openpit_engine_builder_build b := demoCall (demoBuild b);
  openpit_destroy_engine_build_error _ := demoCall (fun v => (tt, v));
  openpit_engine_build_error_get_code _ := demoCall (fun v => (2%Z, v));
  openpit_engine_build_error_get_policy_name _ := demoCall (fun v => (EmptyString, v));
  openpit_engine_build_error_get_policy_group_id _ := demoCall (fun v => (0%Z, v));
  openpit_engine_builder_add_pre_trade_policy b p := demoCall (demoAdd b p);
  openpit_destroy_pretrade_pre_trade_policy p := demoCall (fun v => (tt, delete (OPolicy p) v));
  BuiltinBuild _ _ := demoCall (fun v => (None, v));
|}.

Definition sameOwners (s s' : DemoState) : Prop := snd (outside s') = snd (outside s).
#[local] Instance sameOwners_preorder : PreOrder sameOwners.
Proof. split; [done|]. intros s1 s2 s3 H1 H2. unfold sameOwners in *. congruence. Qed.
Lemma demoFree_owners uds s : sameOwners s (demoFree uds s).
Proof.
  assert (forall h, preserves sameOwners (Delete (D := nat) (U := BuilderOutside) h)) as HD.
  { intros h s1. unfold sameOwners. by rewrite Delete_outside. }
  assert (forall e, preserves sameOwners (Report (runHandler (D := nat) (U := BuilderOutside)) e)) as HR.
  { intros e. apply Report_preserves; [apply _|]. intros h err. by apply preserves_ret; apply _. }
  assert (forall ud, preserves sameOwners (pitPretradePreTradePolicyClose (D := nat) (U := BuilderOutside) ud)) as HC.
  2: { revert s. induction uds as [|ud uds IH]; intros s; [done|]. etransitivity; [|apply IH].
       cbn [runCallback]. rewrite answering_snd. apply HC. }
  intros ud. apply preserves_bind; [apply _| |].
  - apply preserves_recovering. apply preserves_bind; [apply _| |].
    + intros s1. unfold Value. by destruct (handles s1 !! _).
    + intros [c|p|d].
      1,3: by apply preserves_bind; [apply _|apply HD|intros; apply HR].
      apply preserves_deferred; [apply _|apply HD|]. by intros s1.
  - intros [[]|v]; [by apply preserves_ret; apply _|].
    destruct (recovered _ v); [apply HR|by apply preserves_ret; apply _].
Qed.
Lemma demoFree_letGo uds s s1 :
  silent fst s s1 -> letGo fst uds s (demoFree uds s1).
Proof.
  revert s s1. induction uds as [|ud uds IH]; intros s s1 H; [by constructor|].
  econstructor; [exact H|]. by apply IH.
Qed.
Lemma demoCall_native {A} (f : owners -> A * owners) (post : A -> owners -> owners -> Prop) :
  (forall v, post (fst (f v)) v (snd (f v))) -> native fst snd (demoCall f) post.
Proof.
  intros H s. set (v := snd (f (snd (outside s)))).
  assert (snd (outside (demoFree (elements (refs (snd (outside s)) ∖ refs v)) (setOwners v s))) = v) as E
    by (apply (demoFree_owners _ (setOwners v s))).
  eexists _, _, _. split; [reflexivity|]. fold v. rewrite E. split; [apply H|]. split; [done|].
  by apply demoFree_letGo.
Qed.
Lemma fresh_owner (key : owner -> option Z) (v : owners) o :
  key o = Some (freshKey key v) -> v !! o = None.
Proof.
  intros E. apply not_elem_of_dom. intros Ho. apply (infinite_is_fresh (omap key (elements (dom v)))).
  apply list_elem_of_omap. exists o. split; [|done]. by apply elem_of_elements.
Qed.

Lemma demo_documentedBuilder : documentedBuilder (PostTrade := nat) (BatchError := nat) (BatchOk := nat) fst snd.
Proof.
  split; intros; try (apply demoCall_native; intros v; cbn; done).
  - intros s. eexists _, (snd (CreatePretradeCustomPreTradePolicy rg s)), []. split; [reflexivity|]. cbn.
    set (v := snd (outside s)). assert (v !! OPolicy (freshPolicy v) = None) as Hn by (by apply (fresh_owner policyKey)).
    split; [done|]. split; [|by constructor]. rewrite refs_insert_fresh by done.
    assert (refs v ∖ (refs v ∪ {[rg_userData rg]}) = ∅) as -> by set_solver. by rewrite elements_empty.
  - apply demoCall_native. intros v. cbn. split; [|done]. by apply (fresh_owner builderKey).
  - apply demoCall_native. intros v. unfold demoBuild. destruct b as [b|]; [|by split; [right|left]].
    destruct (v !! OBuilder b) as [X|] eqn:EX; [|by split; [right|left]].
    destruct (decide (X = ∅)); [by split; [right|left]|].
    cbn. exists b, X. split; [done|]. split; [done|]. split; [by apply (fresh_owner engineKey)|done].
  - apply demoCall_native. intros v. unfold demoAdd. destruct b as [b|]; [|done].
    destruct (v !! OBuilder b) as [X|] eqn:EX; [|done]. destruct (v !! OPolicy p) as [Y|] eqn:EY; [|done].
    destruct (decide (size X < 2)); [|done]. by exists b, X, Y.
Qed.
Lemma demo_plainPolicies : plainPolicies (D := nat) (U := BuilderOutside) fst snd.
Proof.
  split; [by intros ref s; eexists _, s..|]. intros ref s. eexists. split; [reflexivity|].
  split; [by apply polite_same|]. done.
Qed.
Lemma demoClosing_leaves : programPreserves (Program0 := demoClosingProgram) (leaves fst).
Proof. split; [intros ref; split| | |]; intros; try done; (intros s; split; [by apply polite_same|done]). Qed.
Definition demoStart : DemoState := mkGo 0 ∅ None ([], ∅).
Lemma demoStart_held : wellHeld snd demoStart.
Proof.
  split; [split; [split; [done|]|]; intros h; [intros [? ?]|intros ?]; done|].
  intros ud (o & X & E & _)%elem_of_refs. cbn in E; by apply lookup_empty_Some in E.
Qed.

(** Of four policies the builder takes two, and the engine built closes them; the third
    it refuses is closed at once, the fourth waits for [Close]. *)
Lemma builder_closes_every_policy_once_witness :
  let cs := [CPreTrade [1; 2]; CBuiltin 0; CBuild; CPreTrade [3; 4]; CClose; CStop 0] in
  exists b0 s1 s b es,
    newReadyEngineBuilder FullSync demoStart = (Ret b0, s1) /\ callAll cs ((s1, b0), []) = (Ret tt, ((s, b), es)) /\
    fst (outside s) ≡ₚ [1; 2; 3; 4] /\ es = [SyncEngine.mkEngine None].
Proof.
  intros cs. destruct (builder_closes_every_policy_once fst snd demo_documentedBuilder demo_plainPolicies
    demoClosing_leaves FullSync cs demoStart demoStart_held) as (b0 & s1 & s & b & es & E0 & E & _ & H).
  exists b0, s1, s, b, es. split; [exact E0|]. split; [exact E|].
  assert (es = [SyncEngine.mkEngine None]) as Ees.
  { apply (f_equal (fun r => snd (snd r))) in E.
    apply (f_equal (fun r => match fst r with Ret b => snd (snd (callAll cs (snd r, b, []))) | Panic _ => [] end)) in E0.
    cbn beta iota match in E0. cbn [fst snd] in E0, E. rewrite <- E, <- E0. vm_compute. reflexivity. }
  split; [|exact Ees]. destruct H as (H & _ & _); [reflexivity| |exact H]. subst es. by repeat constructor.
Defined.
