(* ===== verification/AsyncBuilder.v ===== *)
(** * Building an asynchronous engine

    The builder chain of asyncengine/builder.go and what the strategies make of their
    configuration: [newBase] (strategy.go), [newShardedStrategy] (sharded.go),
    [newDynamicStrategy] and [idleCleanupPeriod] (dynamic.go). Durations are 64-bit
    nanoseconds. The goroutines a strategy starts are [LaneSystem]'s. *)
From Stdlib Require Import ZArith Lia.
From stdpp Require Import base list gmap strings.
From S2P Require Import Prelude GoRuntime Routing.

(** ** Configuration *)

Definition nanosecond : Z := 1.
Definition Second : Z := 1000000000.
Definition Minute : Z := 60 * Second.

Definition defaultQueueCapacity : Z := 1024.
Definition defaultSlowSubmitThreshold : Z := Minute.
Definition defaultIdleCleanupAfter : Z := 5 * Minute.
Definition defaultIdleCleanupPeriod : Z := Minute.
Definition defaultDynamicMaxQueuesMultiplier : Z := 32.

(** An [Observer]: the shared no-op, or one of the program's. *)
Inductive observer := noopObserver | userObserver (n : nat).
#[export] Instance observer_eq_dec : EqDecision observer.
Proof. solve_decision. Defined.

Record baseConfig := mkBaseConfig {
  cfg_observer : option observer; queueCapacity : Z; slowSubmitThreshold : Z;
}.
(** [base], as [newBase] sets it up. *)
Record base := mkBase { cfg : baseConfig; observerActive : bool; tracksIdle : bool }.

Definition newBase (c : baseConfig) (tracks : bool) : base :=
  let o := match cfg_observer c with None => noopObserver | Some o => o end in
  let capacity := if (queueCapacity c <=? 0)%Z then defaultQueueCapacity else queueCapacity c in
  let threshold := if (slowSubmitThreshold c <=? 0)%Z then defaultSlowSubmitThreshold
                   else slowSubmitThreshold c in
  mkBase (mkBaseConfig (Some o) capacity threshold) (bool_decide (o <> noopObserver)) tracks.

(** Go's division truncates. *)
Definition idleCleanupPeriod (idleCleanupAfter : Z) : Z :=
  let period := Z.quot idleCleanupAfter 5 in
  if (period <? Second)%Z then defaultIdleCleanupPeriod else period.

Record dynamicConfig := mkDynamicConfig { dyn_idleCleanupAfter : Z; dyn_cleanupPeriod : Z; dyn_maxQueues : Z }.

(** The strategies' configuration. A queue is its capacity; no queue of a dynamic
    strategy exists yet, and [cleans] says that the cleanup loop was started. *)
Inductive strategy :=
| shardedStrategy (b : base) (shards : list Z)
| dynamicStrategy (b : base) (maxQueues idleCleanupAfter cleanupPeriod : Z) (cleans : bool).

Definition newShardedStrategy (c : baseConfig) (shardCount : Z) : strategy :=
  let b := newBase c false in
  shardedStrategy b (replicate (Z.to_nat shardCount) (queueCapacity (cfg b))).
Definition newDynamicStrategy (c : baseConfig) (dyn : dynamicConfig) : strategy :=
  let idle := if (dyn_idleCleanupAfter dyn <? 0)%Z then 0%Z else dyn_idleCleanupAfter dyn in
  let period := if (dyn_cleanupPeriod dyn <=? 0)%Z then idleCleanupPeriod idle else dyn_cleanupPeriod dyn in
  let tracks := (0 <? idle)%Z in
  dynamicStrategy (newBase c tracks) (dyn_maxQueues dyn) idle period tracks.

(** ** The builder chain

    [Driver] is the wrapped engine, [stop] the teardown callback, if any. *)
Section Builder.
Context {Driver Stop : Type}.

Record Builder := mkBuilder {
  driver : Driver;
  stopUnderlying : option Stop;
  b_observer : option observer;
  b_queueCapacity : Z;
  b_slowSubmitThreshold : Z;
}.
Record AsyncEngine := mkAsyncEngine { ae_driver : Driver; ae_stopUnderlying : option Stop; ae_strategy : strategy }.

Definition NewBuilder (d : Driver) : Builder := mkBuilder d None None 0 0.
Definition WithStopUnderlying (stop : option Stop) (b : Builder) : Builder :=
  mkBuilder (driver b) stop (b_observer b) (b_queueCapacity b) (b_slowSubmitThreshold b).
Definition WithObserver (o : option observer) (b : Builder) : Builder :=
  mkBuilder (driver b) (stopUnderlying b) o (b_queueCapacity b) (b_slowSubmitThreshold b).
Definition WithQueueCapacity (capacity : Z) (b : Builder) : Builder :=
  mkBuilder (driver b) (stopUnderlying b) (b_observer b) capacity (b_slowSubmitThreshold b).
Definition WithSlowSubmitThreshold (d : Z) (b : Builder) : Builder :=
  mkBuilder (driver b) (stopUnderlying b) (b_observer b) (b_queueCapacity b) d.
Definition baseConfigOf (b : Builder) : baseConfig :=
  mkBaseConfig (b_observer b) (b_queueCapacity b) (b_slowSubmitThreshold b).

Record ShardedBuilder := mkShardedBuilder { sb_parent : Builder; workers : Z }.
Record DynamicBuilder := mkDynamicBuilder { db_parent : Builder; maxQueues : Z; idleCleanupAfter : Z }.

Definition Sharded (n : Z) (b : Builder) : ShardedBuilder := mkShardedBuilder b n.
Definition Dynamic (NumCPU : Z) (b : Builder) : DynamicBuilder :=
  mkDynamicBuilder b (NumCPU * defaultDynamicMaxQueuesMultiplier) defaultIdleCleanupAfter.
Definition MaxQueues (n : Z) (b : DynamicBuilder) : DynamicBuilder :=
  mkDynamicBuilder (db_parent b) n (idleCleanupAfter b).
Definition IdleCleanupAfter (d : Z) (b : DynamicBuilder) : DynamicBuilder :=
  mkDynamicBuilder (db_parent b) (maxQueues b) d.

Definition newAsyncEngine (d : Driver) (stop : option Stop) (s : strategy) : AsyncEngine :=
  mkAsyncEngine d stop s.

(** The offending number is in the error's text. *)
Definition ErrWorkers (n : Z) : error := EText "openpit/asyncengine: sharded workers must be > 0, got " (Z.to_nat (- n)).
Definition ErrMaxQueues (n : Z) : error := EText "openpit/asyncengine: maxQueues must be >= 0, got " (Z.to_nat (- n)).

Definition ShardedBuild (b : ShardedBuilder) : AsyncEngine + error :=
  if (workers b <=? 0)%Z then inr (ErrWorkers (workers b))
  else inl (newAsyncEngine (driver (sb_parent b)) (stopUnderlying (sb_parent b))
              (newShardedStrategy (baseConfigOf (sb_parent b)) (workers b))).
Definition DynamicBuild (b : DynamicBuilder) : AsyncEngine + error :=
  if (maxQueues b <? 0)%Z then inr (ErrMaxQueues (maxQueues b))
  else inl (newAsyncEngine (driver (db_parent b)) (stopUnderlying (db_parent b))
              (newDynamicStrategy (baseConfigOf (db_parent b))
                 (mkDynamicConfig (idleCleanupAfter b) 0 (maxQueues b)))).

(** ** What a built engine can rely on *)

(** The options as the documentation reads them: what is not positive is the default. *)
Definition orDefault (v default : Z) : Z := if (0 <? v)%Z then v else default.
Definition baseOk (b : Builder) (s : base) : Prop :=
  (0 < queueCapacity (cfg s))%Z /\ queueCapacity (cfg s) = orDefault (b_queueCapacity b) 1024 /\
  (0 < slowSubmitThreshold (cfg s))%Z /\
  slowSubmitThreshold (cfg s) = orDefault (b_slowSubmitThreshold b) Minute /\
  is_Some (cfg_observer (cfg s)) /\
  (observerActive s = true <-> exists n, cfg_observer (cfg s) = Some (userObserver n)).

Lemma newBase_ok b tracks : baseOk b (newBase (baseConfigOf b) tracks).
Proof.
  unfold newBase, baseOk, orDefault, baseConfigOf, defaultQueueCapacity, defaultSlowSubmitThreshold, Minute, Second.
  cbn [cfg queueCapacity slowSubmitThreshold cfg_observer observerActive]. repeat split; try (by eexists).
  - destruct (Z.leb_spec (b_queueCapacity b) 0); lia.
  - destruct (Z.leb_spec (b_queueCapacity b) 0), (Z.ltb_spec 0 (b_queueCapacity b)); lia.
  - destruct (Z.leb_spec (b_slowSubmitThreshold b) 0); lia.
  - destruct (Z.leb_spec (b_slowSubmitThreshold b) 0), (Z.ltb_spec 0 (b_slowSubmitThreshold b)); lia.
  - intros H%bool_decide_eq_true. destruct (b_observer b) as [[|n]|]; [done| |done]. by exists n.
  - intros [n E]. apply bool_decide_eq_true. intros H. rewrite H in E. done.
Qed.

Lemma idleCleanupPeriod_bounds d :
  (0 <= d)%Z -> (Second <= idleCleanupPeriod d)%Z /\ (d < 5 * Second -> idleCleanupPeriod d = Minute)%Z /\
  (5 * Second <= d -> idleCleanupPeriod d = d / 5)%Z.
Proof.
  intros Hd. unfold idleCleanupPeriod, defaultIdleCleanupPeriod, Minute, Second. rewrite Z.quot_div_nonneg by lia.
  destruct (Z.ltb_spec (d / 5) 1000000000) as [H|H]; (split; [lia|]); split; intros Hc; try done.
  - pose proof (Z.div_le_lower_bound d 5 1000000000). lia.
  - pose proof (Z.div_lt_upper_bound d 5 1000000000). lia.
Qed.

(** C40: A builder fails exactly on a worker count that is not positive, or a negative
    queue cap, and otherwise returns an engine with the builder's driver and teardown
    and a usable configuration: a positive queue capacity and slow-submit threshold, an
    observer, for a sharded engine as many shards as workers, of that capacity, such
    that every routing key has one, for a dynamic engine a cap that is not negative, an
    idle window that is not negative, a scan period of at least a second, and idle
    tracking exactly when the cleanup loop runs. *)
Theorem built_engine_is_configured (b : Builder) (n d : Z) :
  (ShardedBuild (Sharded n b) = inr (ErrWorkers n) /\ (n <= 0)%Z \/
   exists s shards, (0 < n)%Z /\
     ShardedBuild (Sharded n b) = inl (mkAsyncEngine (driver b) (stopUnderlying b) (shardedStrategy s shards)) /\
     baseOk b s /\ tracksIdle s = false /\ Z.of_nat (length shards) = n /\
     forall key, shardFor shards key = Some (queueCapacity (cfg s))) /\
  (forall NumCPU, DynamicBuild (IdleCleanupAfter d (MaxQueues n (Dynamic NumCPU b))) = inr (ErrMaxQueues n) /\ (n < 0)%Z \/
   exists s idle period, (0 <= n)%Z /\
     DynamicBuild (IdleCleanupAfter d (MaxQueues n (Dynamic NumCPU b))) =
       inl (mkAsyncEngine (driver b) (stopUnderlying b) (dynamicStrategy s n idle period (tracksIdle s))) /\
     baseOk b s /\ idle = Z.max 0 d /\ (Second <= period)%Z /\ (tracksIdle s = true <-> (0 < d)%Z)).
Proof.
  split; [|intros NumCPU].
  - unfold ShardedBuild, Sharded. cbn [workers sb_parent]. destruct (Z.leb_spec n 0) as [H|H]; [by left|right].
    unfold newShardedStrategy. set (s := newBase (baseConfigOf b) false).
    eexists s, _. split; [lia|]. split; [reflexivity|]. split; [apply newBase_ok|]. split; [done|].
    split; [rewrite length_replicate; lia|]. intros key.
    destruct (shardFor_total (replicate (Z.to_nat n) (queueCapacity (cfg s))) key) as (q & E & Hq).
    { rewrite length_replicate. lia. }
    rewrite E. f_equal. by apply elem_of_replicate in Hq as [-> _].
  - unfold DynamicBuild, IdleCleanupAfter, MaxQueues. cbn [maxQueues db_parent idleCleanupAfter Dynamic].
    destruct (Z.ltb_spec n 0) as [H|H]; [by left|right]. unfold newDynamicStrategy.
    cbn [dyn_idleCleanupAfter dyn_cleanupPeriod dyn_maxQueues].
    set (idle := if (d <? 0)%Z then 0%Z else d). eexists (newBase (baseConfigOf b) (0 <? idle)%Z), idle, _.
    split; [lia|]. split; [reflexivity|]. split; [apply newBase_ok|].
    assert (idle = Z.max 0 d) as Ei by (unfold idle; destruct (Z.ltb_spec d 0); lia).
    split; [done|]. split; [apply idleCleanupPeriod_bounds; lia|].
    unfold newBase. cbn [tracksIdle]. rewrite Z.ltb_lt. lia.
Qed.

End Builder.

(** The documentation of [IdleCleanupAfter] says that the scan never runs faster than
    once a minute; for a window of ten seconds it runs every two. *)
Lemma scan_faster_than_documented :
  exists s, DynamicBuild (IdleCleanupAfter (10 * Second) (Dynamic 4 (NewBuilder (Stop := unit) tt))) =
    inl (mkAsyncEngine tt None (dynamicStrategy s 128 (10 * Second) (2 * Second) true)).
Proof. eexists. reflexivity. Qed.
