(* ===== verification/Decimals.v ===== *)
(** * Decimals

    The conversion between the decimals of the program and the native ones
    (internal/native/decimal.go, param/decimal.go). The program's decimals are those of
    a third-party library, of which the code uses a coefficient of any size, a 32-bit
    exponent, and a constructor; a native decimal is a 128-bit mantissa in two 64-bit
    halves, and a 32-bit scale. *)
From Stdlib Require Import ZArith Lia.
From stdpp Require Import base list gmap strings.
From S2P Require Import Prelude GoRuntime GoPtr NativeMem ParamValues.

Class DecimalLibrary := {
  Decimal : Type;
  Coefficient : Decimal -> Z;
  Exponent : Decimal -> Z;
  NewFromBigInt : Z -> Z -> Decimal;
  Coefficient_New v e : Coefficient (NewFromBigInt v e) = v;
  Exponent_New v e : Exponent (NewFromBigInt v e) = e;
}.

Definition ErrOverflowText : string := "param: arithmetic overflow".
Definition ErrOverflow : error := ESentinel ErrOverflowText.

Definition decimalMantissaBits : Z := 64.
Definition decimalRadix : Z := 10.
Definition decimalMantissaOverflowExponent : Z := 39.
Definition MinInt32 : Z := - 2 ^ 31.

Section Decimals.
Context {DL : DecimalLibrary}.

(** [big.Int.IsInt64] and the conversions between words. *)
Definition IsInt64 (z : Z) : bool := (- 2 ^ 63 <=? z)%Z && (z <? 2 ^ 63)%Z.
Definition int64 (z : Z) : Z := wrapS 64 z.
Definition uint64 (z : Z) : Z := wrapU 64 z.
Definition int32 (z : Z) : Z := wrapS 32 z.

Definition NewDecimalFromNative (source : ParamDecimal) : Decimal :=
  let mantissa := int64 (mantissa_hi source) in
  let mantissa := Z.shiftl mantissa decimalMantissaBits in
  let mantissa := (mantissa + uint64 (mantissa_lo source))%Z in
  NewFromBigInt mantissa (int32 (- int32 (scale source))).

(** Their texts also show the coefficient and the exponent. *)
Definition scaleOverflowError : error := EWrap "decimal coefficient with exponent has a scale that does not fit int32" ErrOverflow.
Definition mantissaOverflowError : error := EWrap "decimal coefficient does not fit a 128-bit mantissa" ErrOverflow.

(** The mantissa with a positive exponent folded in, unless it is known to overflow. *)
Definition foldExponent (coefficient exponent : Z) : option Z :=
  if (0 <? exponent)%Z then
    if (Z.sgn coefficient =? 0)%Z then Some coefficient
    else if (decimalMantissaOverflowExponent <=? exponent)%Z then None
    else Some (coefficient * decimalRadix ^ exponent)%Z
  else Some coefficient.

Definition NewNativeDecimalFromDecimal (source : Decimal) : ParamDecimal + error :=
  let coefficient := Coefficient source in
  let exponent := Exponent source in
  if (exponent =? MinInt32)%Z then inr scaleOverflowError
  else
    let scale := if (0 <? exponent)%Z then 0%Z else int32 (- exponent) in
    match foldExponent coefficient exponent with
    | None => inr mantissaOverflowError
    | Some mantissa =>
      let hi := Z.shiftr mantissa decimalMantissaBits in
      if negb (IsInt64 hi) then inr mantissaOverflowError
      else
        let lo := Z.land mantissa (2 ^ 64 - 1) in
        inl (mkDecimal (int64 lo) hi scale)
    end.

Definition newDecimalFromHandle (source : ParamDecimal) : Decimal := NewDecimalFromNative source.

(** ** Values *)

Definition nativeOk (d : ParamDecimal) : Prop := inS 64 (mantissa_lo d) /\ inS 64 (mantissa_hi d) /\ inS 32 (scale d).
Definition mantissaOf (d : ParamDecimal) : Z := (mantissa_hi d * 2 ^ 64 + uint64 (mantissa_lo d))%Z.

(** [c1 * 10 ^ e1 = c2 * 10 ^ e2], over a common exponent. *)
Definition sameValue (c1 e1 c2 e2 : Z) : Prop :=
  (c1 * 10 ^ (e1 - Z.min e1 e2) = c2 * 10 ^ (e2 - Z.min e1 e2))%Z.

Lemma IsInt64_spec z : IsInt64 z = true <-> inS 64 z.
Proof. unfold IsInt64, inS. rewrite andb_true_iff, Z.leb_le, Z.ltb_lt. done. Qed.

(** The halves of a mantissa. *)
Lemma hi_lo m : (m = Z.shiftr m 64 * 2 ^ 64 + Z.land m (2 ^ 64 - 1))%Z.
Proof.
  rewrite Z.shiftr_div_pow2 by lia. change (2 ^ 64 - 1)%Z with (Z.ones 64). rewrite Z.land_ones by lia.
  pose proof (Z.div_mod m (2 ^ 64)). lia.
Qed.
Lemma lo_range m : inU 64 (Z.land m (2 ^ 64 - 1)).
Proof. change (2 ^ 64 - 1)%Z with (Z.ones 64). rewrite Z.land_ones by lia. apply Z.mod_pos_bound. lia. Qed.
Lemma hi_fits m : IsInt64 (Z.shiftr m 64) = true <-> inS 128 m.
Proof.
  rewrite IsInt64_spec. pose proof (hi_lo m). pose proof (lo_range m). unfold inS, inU in *. lia.
Qed.
Lemma uint64_int64 lo : inU 64 lo -> uint64 (int64 lo) = lo.
Proof. intros H. unfold uint64, int64. rewrite wrapU_wrapS by lia. by apply wrapU_small. Qed.
Lemma int64_uint64 x : inS 64 x -> int64 (uint64 x) = x.
Proof.
  intros H. unfold int64, uint64, wrapU, wrapS. rewrite Z.mod_mod by lia. fold (wrapS 64 x). by apply wrapS_small.
Qed.

(** Beyond the exponent the code gives up at, every coefficient but zero overflows. *)
Lemma power_overflows c e : (decimalMantissaOverflowExponent <= e)%Z -> c <> 0%Z -> ~ inS 128 (c * 10 ^ e).
Proof.
  unfold decimalMantissaOverflowExponent, inS. intros He Hc.
  assert (10 ^ 39 <= 10 ^ e)%Z by (apply Z.pow_le_mono_r; lia).
  assert (2 ^ (128 - 1) < 10 ^ 39)%Z by (vm_compute; done). destruct (decide (0 < c)%Z); nia.
Qed.
Lemma foldExponent_spec c e :
  match foldExponent c e with
  | Some m => m = (c * 10 ^ Z.max 0 e)%Z
  | None => ~ inS 128 (c * 10 ^ Z.max 0 e)
  end.
Proof.
  unfold foldExponent, decimalRadix. destruct (Z.ltb_spec 0 e).
  - rewrite Z.max_r by lia. destruct (Z.eqb_spec (Z.sgn c) 0) as [Hs|Hs].
    + assert (c = 0)%Z as -> by (by apply Z.sgn_null_iff). lia.
    + destruct (Z.leb_spec decimalMantissaOverflowExponent e); [|done].
      apply power_overflows; [done|]. intros ->. done.
  - rewrite Z.max_l by lia. lia.
Qed.

Lemma NewNative_spec d :
  inS 32 (Exponent d) ->
  let m := (Coefficient d * 10 ^ Z.max 0 (Exponent d))%Z in
  NewNativeDecimalFromDecimal d =
    if decide (Exponent d = MinInt32) then inr scaleOverflowError
    else if decide (inS 128 m)
    then inl (mkDecimal (int64 (Z.land m (2 ^ 64 - 1))) (Z.shiftr m 64) (Z.max 0 (- Exponent d)))
    else inr mantissaOverflowError.
Proof.
  intros He m. unfold NewNativeDecimalFromDecimal, decimalMantissaBits.
  destruct (Z.eqb_spec (Exponent d) MinInt32) as [E|E]; [by rewrite decide_True by done|].
  rewrite (decide_False (P := Exponent d = MinInt32)) by done.
  pose proof (foldExponent_spec (Coefficient d) (Exponent d)) as Hf. fold m in Hf.
  destruct (foldExponent _ _) as [m'|]; [subst m'|by rewrite decide_False].
  destruct (IsInt64 (Z.shiftr m 64)) eqn:Ei.
  - apply hi_fits in Ei. rewrite decide_True by done. cbn. f_equal. f_equal.
    unfold int32, MinInt32, inS in *. destruct (Z.ltb_spec 0 (Exponent d)); [lia|].
    rewrite wrapS_small; [lia|lia|unfold inS; lia].
  - rewrite decide_False; [done|]. rewrite <- hi_fits, Ei. done.
Qed.
Lemma NewDecimal_spec n :
  nativeOk n -> NewDecimalFromNative n = NewFromBigInt (mantissaOf n) (int32 (- scale n)).
Proof.
  intros (_ & Hh & Hs). unfold NewDecimalFromNative, mantissaOf, decimalMantissaBits, int64, int32.
  rewrite (wrapS_small 64), (wrapS_small 32 (scale n)) by done. by rewrite Z.shiftl_mul_pow2 by lia.
Qed.

(** C18: A decimal converts to a native one with the same value, its mantissa within
    128 bits, and a scale that is not negative; reading it back gives the decimal again,
    with a positive exponent folded into its coefficient. The conversion fails exactly
    when the folded coefficient does not fit 128 bits or the scale does not fit 32, and
    its error wraps [ErrOverflow]. *)
Theorem decimal_to_native_is_exact (d : Decimal) :
  inS 32 (Exponent d) ->
  let m := (Coefficient d * 10 ^ Z.max 0 (Exponent d))%Z in
  match NewNativeDecimalFromDecimal d with
  | inl n => nativeOk n /\ (0 <= scale n)%Z /\ Exponent d <> MinInt32 /\ inS 128 m /\
      mantissaOf n = m /\ scale n = Z.max 0 (- Exponent d) /\
      NewDecimalFromNative n = NewFromBigInt m (Z.min 0 (Exponent d)) /\
      sameValue (mantissaOf n) (- scale n) (Coefficient d) (Exponent d)
  | inr err => errors_Is ErrOverflowText err = true /\ (Exponent d = MinInt32 \/ ~ inS 128 m)
  end.
Proof.
  intros He m. rewrite NewNative_spec by done. fold m.
  destruct (decide (Exponent d = MinInt32)) as [E|E]; [by split; [|left]|].
  destruct (decide (inS 128 m)) as [Hm|Hm]; [|by split; [|right]].
  set (n := mkDecimal _ _ _). assert (nativeOk n) as Hn.
  { split; [|split]; cbn.
    - by apply wrapS_range.
    - by apply IsInt64_spec, hi_fits.
    - unfold inS, MinInt32 in *. lia. }
  assert (mantissaOf n = m) as Em.
  { unfold mantissaOf. cbn [mantissa_hi mantissa_lo n]. rewrite uint64_int64 by apply lo_range.
    symmetry. apply hi_lo. }
  split; [done|]. split; [cbn; lia|]. split; [done|]. split; [done|]. split; [done|]. split; [done|]. split.
  - rewrite NewDecimal_spec, Em by done. f_equal. cbn [scale n]. unfold int32.
    rewrite wrapS_small; [lia|lia|unfold inS, MinInt32 in *; lia].
  - rewrite Em. unfold sameValue, m. cbn [scale n]. destruct (decide (0 <= Exponent d)%Z).
    + rewrite (Z.max_r 0 (Exponent d)), (Z.max_l 0 (- Exponent d)) by lia. rewrite Z.min_l by lia.
      rewrite Z.sub_diag, Z.mul_1_r. f_equal. f_equal. lia.
    + rewrite (Z.max_l 0 (Exponent d)), (Z.max_r 0 (- Exponent d)) by lia.
      rewrite Z.opp_involutive, Z.min_id, Z.sub_diag. lia.
Qed.

(** A native decimal with a scale that is not negative survives the round trip
    through the program's decimals, bit by bit. *)
Theorem native_decimal_roundtrip (n : ParamDecimal) :
  nativeOk n -> (0 <= scale n)%Z -> NewNativeDecimalFromDecimal (newDecimalFromHandle n) = inl n.
Proof.
  intros Hn Hs. pose proof Hn as (Hl & Hh & Hsc). unfold newDecimalFromHandle. rewrite NewDecimal_spec by done.
  unfold int32. rewrite (wrapS_small 32) by (try lia; unfold inS in *; lia).
  rewrite NewNative_spec; rewrite ?Coefficient_New, ?Exponent_New; [|unfold inS in *; lia].
  assert (mantissaOf n * 10 ^ Z.max 0 (- scale n) = mantissaOf n)%Z as -> by (rewrite Z.max_l by lia; lia).
  assert (inU 64 (uint64 (mantissa_lo n))) as Hu by (by apply wrapU_range).
  pose proof (hi_lo (mantissaOf n)) as Hm. pose proof (lo_range (mantissaOf n)) as Hr.
  unfold mantissaOf at 1 in Hm.
  assert (Z.shiftr (mantissaOf n) 64 = mantissa_hi n /\ Z.land (mantissaOf n) (2 ^ 64 - 1) = uint64 (mantissa_lo n))
    as [-> ->] by (unfold inU in *; split; lia).
  rewrite decide_False by (unfold MinInt32, inS in *; lia). rewrite decide_True.
  2: { unfold mantissaOf, inS, inU in *. lia. }
  rewrite int64_uint64 by done. destruct n. cbn in *. f_equal. f_equal. lia.
Qed.
End Decimals.

(** Decimals as pairs. *)
#[local] Instance pairDecimals : DecimalLibrary :=
  {| Decimal := Z * Z; Coefficient := fst; Exponent := snd; NewFromBigInt := pair;
     Coefficient_New _ _ := eq_refl; Exponent_New _ _ := eq_refl |}.

Lemma decimal_to_native_is_exact_witness :
  exists n, NewNativeDecimalFromDecimal (DL := pairDecimals) (-12345, 3)%Z = inl n /\
    mantissaOf n = (-12345000)%Z /\ scale n = 0%Z.
Proof.
  assert (inS 32 3) as He by (unfold inS; lia).
  pose proof (decimal_to_native_is_exact (DL := pairDecimals) (-12345, 3)%Z He) as H.
  destruct (NewNativeDecimalFromDecimal (DL := pairDecimals) (-12345, 3)%Z) as [n|err] eqn:E.
  - exists n. destruct H as (_ & _ & _ & _ & H1 & H2 & _). split; [reflexivity|]. split; [exact H1|exact H2].
  - exfalso. destruct H as [_ [H|H]]; [discriminate H|]. apply H. split; by vm_compute.
Defined.
Lemma native_decimal_roundtrip_witness :
  let n := mkDecimal (-1) (-1) 28 in nativeOk n /\
    NewNativeDecimalFromDecimal (DL := pairDecimals) (newDecimalFromHandle (DL := pairDecimals) n) = inl n.
Proof.
  assert (nativeOk (mkDecimal (-1) (-1) 28)) as H by (unfold nativeOk, inS; cbn; lia).
  split; [exact H|]. apply (native_decimal_roundtrip (DL := pairDecimals)); [exact H|]. cbn. lia.
Defined.
