(* ===== verification/NativeErrors.v ===== *)
(** * Native errors and strings

    A native call that fails hands the Go side an error container or a string that the
    Go side must destroy: internal/native/error.go and [consumeSharedString] of
    internal/native/string.go. This file models the containers as objects of a heap, in
    which reading or destroying one that is not live aborts the process, and the shapes
    of the wrappers of internal/native/param.go.

    What a call computes is the native library's: a [nativeResult] is given. *)
From Stdlib Require Import ZArith Lia.
From stdpp Require Import base list gmap strings.
From S2P Require Import Prelude GoRuntime Decimals.

(** ** The heap *)

(** An error container: a code, and a message it owns, if any. *)
Record ParamError := mkParamError { pe_code : Z; pe_message : option string }.
Record NativeHeap := mkNativeHeap {
  nextObject : Z;
  paramErrors : gmap Z ParamError;
  sharedStrings : gmap Z string;
}.
Abbreviation N := (M NativeHeap).

(** Use after destroy, and a shared string that is not there. *)
Definition nativeAbort : panicValue := PanicOther 4.
Definition noSharedString : panicValue := PanicOther 3.

(** What a native call leaves: its result, or a failure with the value of the out
    parameter and the error it writes, if it writes one. *)
Inductive nativeResult (A : Type) :=
| NativeOk (a : A)
| NativeFailed (a : A) (e : option ParamError).
Arguments NativeOk {A} a.
Arguments NativeFailed {A} a e.

Definition allocError (e : option ParamError) : N (option Z) :=
  match e with
  | None => ret None
  | Some e => fun s => (Ret (Some (nextObject s)),
      mkNativeHeap (nextObject s + 1) (<[nextObject s := e]> (paramErrors s)) (sharedStrings s))
  end.
(** The call: success, the out parameter, the error handle. *)
Definition callOut {A} (r : nativeResult A) : N (bool * A * option Z) :=
  match r with
  | NativeOk a => ret (true, a, None)
  | NativeFailed a e => let* h := allocError e in ret (false, a, h)
  end.
(** A call that returns a shared string. *)
Definition callString (r : nativeResult string) : N (option Z * option Z) :=
  match r with
  | NativeOk a => fun s => (Ret (Some (nextObject s), None),
      mkNativeHeap (nextObject s + 1) (paramErrors s) (<[nextObject s := a]> (sharedStrings s)))
  | NativeFailed _ e => let* h := allocError e in ret (None, h)
  end.
Definition readError (h : Z) : N ParamError := fun s =>
  match paramErrors s !! h with Some e => (Ret e, s) | None => (Panic nativeAbort, s) end.
Definition openpit_destroy_param_error (h : Z) : N unit := fun s =>
  match paramErrors s !! h with
  | Some _ => (Ret tt, mkNativeHeap (nextObject s) (delete h (paramErrors s)) (sharedStrings s))
  | None => (Panic nativeAbort, s)
  end.
Definition openpit_shared_string_view (h : Z) : N string := fun s =>
  match sharedStrings s !! h with Some t => (Ret t, s) | None => (Panic nativeAbort, s) end.
Definition DestroySharedString (h : Z) : N unit := fun s =>
  match sharedStrings s !! h with
  | Some _ => (Ret tt, mkNativeHeap (nextObject s) (paramErrors s) (delete h (sharedStrings s)))
  | None => (Panic nativeAbort, s)
  end.

(** ** error.go *)

Definition ErrNegative : error := ESentinel "param: value must be non-negative".
Definition ErrDivisionByZero : error := ESentinel "param: division by zero".
Definition ErrUnderflow : error := ESentinel "param: arithmetic underflow".
Definition ErrInvalidFloat : error := ESentinel "param: invalid float value (NaN or infinity)".
Definition ErrInvalidFormat : error := ESentinel "param: invalid format".
Definition ErrInvalidPrice : error := ESentinel "param: invalid price value".
Definition ErrInvalidLeverage : error := ESentinel "param: invalid leverage value".
Definition ErrAssetEmpty : error := ESentinel "param: asset must not be empty".
Definition ErrAccountIdEmpty : error := ESentinel "param: account id string must not be empty".

Definition paramErrorByCode (code : Z) : option error :=
  if (code =? 1)%Z then Some ErrNegative
  else if (code =? 2)%Z then Some ErrDivisionByZero
  else if (code =? 3)%Z then Some ErrOverflow
  else if (code =? 4)%Z then Some ErrUnderflow
  else if (code =? 5)%Z then Some ErrInvalidFloat
  else if (code =? 6)%Z then Some ErrInvalidFormat
  else if (code =? 7)%Z then Some ErrInvalidPrice
  else if (code =? 8)%Z then Some ErrInvalidLeverage
  else if (code =? 9)%Z then Some ErrAssetEmpty
  else if (code =? 10)%Z then Some ErrAccountIdEmpty
  else None.

Definition isEmpty (msg : string) : bool := bool_decide (msg = EmptyString).

(** A message that is not empty is shown after the sentinel, which stays wrapped. *)
Definition consumeParamError (handle : option Z) (fallback : string) : N error :=
  match handle with
  | None => ret (EText fallback 0)
  | Some h =>
    let* e := readError h in
    let msg := match pe_message e with Some msg => msg | None => EmptyString end in
    openpit_destroy_param_error h ;;;
    match paramErrorByCode (pe_code e) with
    | Some sentinel => ret (if isEmpty msg then sentinel else EWrap msg sentinel)
    | None => ret (if isEmpty msg then EText fallback 0 else EText ("param: " ++ msg) 0)
    end
  end.
Definition consumeSharedString (handle : option Z) : N string :=
  match handle with
  | None => panic noSharedString
  | Some h =>
    let* msg := openpit_shared_string_view h in
    DestroySharedString h ;;;
    ret msg
  end.

Definition allocString (m : option string) : N (option Z) :=
  match m with
  | None => ret None
  | Some m => fun s => (Ret (Some (nextObject s)),
      mkNativeHeap (nextObject s + 1) (paramErrors s) (<[nextObject s := m]> (sharedStrings s)))
  end.
Definition consumeSharedStringAsError (handle : option Z) (fallback : string) : N error :=
  let* msg := consumeSharedString handle in
  ret (if isEmpty msg then EText fallback 0 else EText msg 0).

(** ** The shapes of the wrappers *)

(** The out parameter is returned with the error. *)
Definition outParam {A} (fallback : string) (r : nativeResult A) : N (A * option error) :=
  let* (ok, out, paramErr) := callOut r in
  if negb ok then let* e := consumeParamError paramErr fallback in ret (out, Some e)
  else ret (out, None).
(** A zero is returned with the error. *)
Definition outOrZero {A} (zero : A) (fallback : string) (r : nativeResult A) : N (A * option error) :=
  let* (ok, out, paramErr) := callOut r in
  if negb ok then let* e := consumeParamError paramErr fallback in ret (zero, Some e)
  else ret (out, None).
Definition outString (fallback : string) (r : nativeResult string) : N (string * option error) :=
  let* (handle, paramErr) := callString r in
  match handle with
  | None => let* e := consumeParamError paramErr fallback in ret (EmptyString, Some e)
  | Some h => let* msg := consumeSharedString (Some h) in ret (msg, None)
  end.

(** ** What the shapes do *)

(** The error a failure becomes, without the heap. *)
Definition paramErrorOf (fallback : string) (e : option ParamError) : error :=
  match e with
  | None => EText fallback 0
  | Some e =>
    let msg := default EmptyString (pe_message e) in
    match paramErrorByCode (pe_code e) with
    | Some sentinel => if isEmpty msg then sentinel else EWrap msg sentinel
    | None => if isEmpty msg then EText fallback 0 else EText ("param: " ++ msg) 0
    end
  end.

(** Objects are numbered in order. *)
Definition heapOk (s : NativeHeap) : Prop :=
  (forall h, is_Some (paramErrors s !! h) -> (h < nextObject s)%Z) /\
  (forall h, is_Some (sharedStrings s !! h) -> (h < nextObject s)%Z).
(** Nothing was left on the heap, and nothing taken from it. *)
Definition nothingLeft (s s' : NativeHeap) : Prop :=
  paramErrors s' = paramErrors s /\ sharedStrings s' = sharedStrings s /\ (nextObject s <= nextObject s')%Z.

#[export] Instance nothingLeft_preorder : PreOrder nothingLeft.
Proof.
  split; [split; [done|]; split; [done|lia]|].
  intros s1 s2 s3 (A1 & B1 & C1) (A2 & B2 & C2). split; [congruence|]. split; [congruence|lia].
Qed.
Lemma nothingLeft_ok s s' : nothingLeft s s' -> heapOk s -> heapOk s'.
Proof.
  intros (A & B & C) [H1 H2]. split; intros h; [rewrite A|rewrite B]; intros Hh; [specialize (H1 h Hh)|specialize (H2 h Hh)]; lia.
Qed.

(** [gives m s o]: [m] ends in [o] and leaves the heap as it was. *)
Definition gives {A} (m : N A) (s : NativeHeap) (o : outcome A) : Prop :=
  exists s', m s = (o, s') /\ nothingLeft s s'.

Lemma gives_ret {A} (a : A) s : gives (ret a) s (Ret a).
Proof. by exists s. Qed.
Lemma gives_bind {A B} (m : N A) (f : A -> N B) s a o :
  heapOk s -> gives m s (Ret a) -> (forall s', heapOk s' -> gives (f a) s' o) -> gives (bind m f) s o.
Proof.
  intros H (s1 & E1 & L1) Hf. destruct (Hf s1 (nothingLeft_ok _ _ L1 H)) as (s2 & E2 & L2).
  exists s2. rewrite (bind_Ret _ _ _ _ _ E1). split; [done|by transitivity s1].
Qed.

Lemma bind_assoc {S A B C} (m : M S A) (f : A -> M S B) (g : B -> M S C) s :
  bind (bind m f) g s = bind m (fun a => bind (f a) g) s.
Proof. unfold bind. by destruct (m s) as [[a|v] s']. Qed.

(** A failing call and the consumption of its error, in one. *)
Lemma alloc_consume {A} (fallback : string) (e : option ParamError) (f : error -> A) s :
  heapOk s ->
  gives (let* h := allocError e in let* err := consumeParamError h fallback in ret (f err)) s
    (Ret (f (paramErrorOf fallback e))).
Proof.
  intros [H _]. destruct e as [e|]; [|apply gives_ret].
  set (h := nextObject s). set (s1 := mkNativeHeap (h + 1) (<[h := e]> (paramErrors s)) (sharedStrings s)).
  assert (readError h s1 = (Ret e, s1)) as E1 by (unfold readError; cbn; by rewrite lookup_insert_eq).
  set (s2 := mkNativeHeap (h + 1) (delete h (<[h := e]> (paramErrors s))) (sharedStrings s)).
  assert (openpit_destroy_param_error h s1 = (Ret tt, s2)) as E2
    by (unfold openpit_destroy_param_error; cbn; by rewrite lookup_insert_eq).
  exists s2. split.
  { unfold bind at 1, allocError. fold h. fold s1. unfold consumeParamError.
    rewrite !bind_assoc, (bind_Ret _ _ _ _ _ E1), bind_assoc, (bind_Ret _ _ _ _ _ E2). unfold paramErrorOf.
    by destruct (paramErrorByCode (pe_code e)), (pe_message e). }
  split; [|split; [done|cbn; lia]]. cbn [paramErrors s2]. rewrite delete_insert_eq. apply delete_id.
  destruct (paramErrors s !! h) eqn:E; [|done]. specialize (H h ltac:(by eexists)). unfold h in *. lia.
Qed.

Definition resultOf {A} (fallback : string) (r : nativeResult A) : A * option error :=
  match r with
  | NativeOk a => (a, None)
  | NativeFailed a e => (a, Some (paramErrorOf fallback e))
  end.
Definition resultOrZero {A} (zero : A) (fallback : string) (r : nativeResult A) : A * option error :=
  match r with
  | NativeOk a => (a, None)
  | NativeFailed _ e => (zero, Some (paramErrorOf fallback e))
  end.

Lemma outParam_gives {A} fallback (r : nativeResult A) s :
  heapOk s -> gives (outParam fallback r) s (Ret (resultOf fallback r)).
Proof.
  intros H. unfold outParam, callOut. destruct r as [a|a e]; [by exists s|].
  destruct (alloc_consume fallback e (fun err => (a, Some err)) s H) as (s' & E & L). exists s'. split; [|done].
  rewrite bind_assoc. exact E.
Qed.
Lemma outOrZero_gives {A} (zero : A) fallback (r : nativeResult A) s :
  heapOk s -> gives (outOrZero zero fallback r) s (Ret (resultOrZero zero fallback r)).
Proof.
  intros H. unfold outOrZero, callOut. destruct r as [a|a e]; [by exists s|].
  destruct (alloc_consume fallback e (fun err => (zero, Some err)) s H) as (s' & E & L). exists s'. split; [|done].
  rewrite bind_assoc. exact E.
Qed.
Lemma outString_gives fallback (r : nativeResult string) s :
  heapOk s -> gives (outString fallback r) s (Ret (resultOrZero EmptyString fallback r)).
Proof.
  intros H. unfold outString, callString. destruct r as [a|a e].
  - set (h := nextObject s). set (s1 := mkNativeHeap (h + 1) (paramErrors s) (<[h := a]> (sharedStrings s))).
    assert (openpit_shared_string_view h s1 = (Ret a, s1)) as E1
      by (unfold openpit_shared_string_view; cbn; by rewrite lookup_insert_eq).
    set (s2 := mkNativeHeap (h + 1) (paramErrors s) (delete h (<[h := a]> (sharedStrings s)))).
    assert (DestroySharedString h s1 = (Ret tt, s2)) as E2
      by (unfold DestroySharedString; cbn; by rewrite lookup_insert_eq).
    exists s2. split.
    { unfold bind at 1. fold h. fold s1. unfold consumeSharedString.
      by rewrite bind_assoc, (bind_Ret _ _ _ _ _ E1), bind_assoc, (bind_Ret _ _ _ _ _ E2). }
    split; [done|]. split; [|cbn; lia]. cbn [sharedStrings s2].
    rewrite delete_insert_eq. apply delete_id. destruct H as [_ H].
    destruct (sharedStrings s !! h) eqn:E; [|done]. specialize (H h ltac:(by eexists)). unfold h in *. lia.
  - destruct (alloc_consume fallback e (fun err => (EmptyString, Some err)) s H) as (s' & E & L). exists s'. split; [|done].
    rewrite bind_assoc. exact E.
Qed.
(** A message that was written is consumed; one that is missing panics. *)
Definition messageError (fallback msg : string) : error := if isEmpty msg then EText fallback 0 else EText msg 0.
Lemma alloc_message {A} (fallback : string) (m : option string) (f : error -> A) s :
  heapOk s ->
  gives (let* h := allocString m in let* err := consumeSharedStringAsError h fallback in ret (f err)) s
    (match m with Some msg => Ret (f (messageError fallback msg)) | None => Panic noSharedString end).
Proof.
  intros [_ H]. destruct m as [msg|]; [|by exists s].
  set (h := nextObject s). set (s1 := mkNativeHeap (h + 1) (paramErrors s) (<[h := msg]> (sharedStrings s))).
  assert (openpit_shared_string_view h s1 = (Ret msg, s1)) as E1
    by (unfold openpit_shared_string_view; cbn; by rewrite lookup_insert_eq).
  set (s2 := mkNativeHeap (h + 1) (paramErrors s) (delete h (<[h := msg]> (sharedStrings s)))).
  assert (DestroySharedString h s1 = (Ret tt, s2)) as E2
    by (unfold DestroySharedString; cbn; by rewrite lookup_insert_eq).
  exists s2. split.
  { unfold bind at 1, allocString. fold h. fold s1. unfold consumeSharedStringAsError, consumeSharedString.
    by rewrite !bind_assoc, (bind_Ret _ _ _ _ _ E1), bind_assoc, (bind_Ret _ _ _ _ _ E2). }
  split; [done|]. split; [|cbn; lia]. cbn [sharedStrings s2]. rewrite delete_insert_eq. apply delete_id.
  destruct (sharedStrings s !! h) eqn:E; [|done]. specialize (H h ltac:(by eexists)). unfold h in *. lia.
Qed.
#[export] Hint Resolve outParam_gives outOrZero_gives outString_gives gives_ret : pit.

(** The class of an error is its code's. *)
Lemma paramErrorOf_Is fallback e target :
  errors_Is target (paramErrorOf fallback e) =
  match e ≫= fun e => paramErrorByCode (pe_code e) with
  | Some sentinel => errors_Is target sentinel
  | None => false
  end.
Proof.
  destruct e as [[c m]|]; [|done]. cbn. destruct (paramErrorByCode c); [|by destruct (isEmpty _)].
  by destruct (isEmpty _).
Qed.
