(* ===== verification/NativeParam.v ===== *)
(** * The native parameter values

    internal/native/param.go: the wrappers of the native decimal types, one definition
    per Go function, over the native functions they call. The eight types have the same
    native functions up to their name; [kind] is the name. *)
From Stdlib Require Import ZArith Lia.
From stdpp Require Import base list gmap strings.
From S2P Require Import Prelude GoRuntime GoPtr NativeMem ParamValues Decimals NativeErrors.

Inductive kind := KPnl | KPrice | KQuantity | KVolume | KCashFlow | KPositionSize | KFee | KNotional.

Definition ParamVolume := ParamDecimal.
Definition ParamCashFlow := ParamDecimal.
Definition ParamNotional := ParamDecimal.
Definition ParamVolumeOptional := COptional ParamVolume.
Definition ParamCashFlowOptional := COptional ParamCashFlow.
Definition ParamNotionalOptional := COptional ParamNotional.
Definition ParamRoundingStrategy := Z.

(** The native functions. [F64] is [float64]. *)
Class NativeParam (F64 : Type) := {
  f64_zero : F64;
  openpit_create_param : kind -> ParamDecimal -> nativeResult ParamDecimal;
  openpit_create_param_from_string : kind -> string -> nativeResult ParamDecimal;
  openpit_create_param_from_f64 : kind -> F64 -> nativeResult ParamDecimal;
  openpit_create_param_from_int64 : kind -> Z -> nativeResult ParamDecimal;
  openpit_create_param_from_uint64 : kind -> Z -> nativeResult ParamDecimal;
  openpit_create_param_from_string_rounded : kind -> string -> Z -> ParamRoundingStrategy -> nativeResult ParamDecimal;
  openpit_create_param_from_f64_rounded : kind -> F64 -> Z -> ParamRoundingStrategy -> nativeResult ParamDecimal;
  openpit_create_param_from_decimal_rounded : kind -> ParamDecimal -> Z -> ParamRoundingStrategy -> nativeResult ParamDecimal;
  openpit_param_to_f64 : kind -> ParamDecimal -> nativeResult F64;
  openpit_param_is_zero : kind -> ParamDecimal -> nativeResult bool;
  openpit_param_compare : kind -> ParamDecimal -> ParamDecimal -> nativeResult Z;
  openpit_param_to_string : kind -> ParamDecimal -> nativeResult string;
  openpit_param_checked_add : kind -> ParamDecimal -> ParamDecimal -> nativeResult ParamDecimal;
  openpit_param_checked_sub : kind -> ParamDecimal -> ParamDecimal -> nativeResult ParamDecimal;
  openpit_param_checked_neg : kind -> ParamDecimal -> nativeResult ParamDecimal;
  openpit_param_checked_mul_i64 : kind -> ParamDecimal -> Z -> nativeResult ParamDecimal;
  openpit_param_checked_mul_u64 : kind -> ParamDecimal -> Z -> nativeResult ParamDecimal;
  openpit_param_checked_mul_f64 : kind -> ParamDecimal -> F64 -> nativeResult ParamDecimal;
  openpit_param_checked_div_i64 : kind -> ParamDecimal -> Z -> nativeResult ParamDecimal;
  openpit_param_checked_div_u64 : kind -> ParamDecimal -> Z -> nativeResult ParamDecimal;
  openpit_param_checked_div_f64 : kind -> ParamDecimal -> F64 -> nativeResult ParamDecimal;
  openpit_param_checked_rem_i64 : kind -> ParamDecimal -> Z -> nativeResult ParamDecimal;
  openpit_param_checked_rem_u64 : kind -> ParamDecimal -> Z -> nativeResult ParamDecimal;
  openpit_param_checked_rem_f64 : kind -> ParamDecimal -> F64 -> nativeResult ParamDecimal;
  openpit_param_notional_get_decimal : ParamDecimal -> ParamDecimal;
  openpit_param_pnl_to_cash_flow : ParamPnl -> nativeResult ParamCashFlow;
  openpit_param_pnl_to_position_size : ParamPnl -> nativeResult ParamPositionSize;
  openpit_param_quantity_to_position_size : ParamQuantity -> nativeResult ParamPositionSize;
  openpit_param_volume_to_position_size : ParamVolume -> nativeResult ParamPositionSize;
  openpit_param_pnl_from_fee : ParamFee -> nativeResult ParamPnl;
  openpit_param_price_calculate_volume : ParamPrice -> ParamQuantity -> nativeResult ParamVolume;
  openpit_param_price_calculate_position_size : ParamPrice -> ParamQuantity -> nativeResult ParamPositionSize;
  openpit_param_quantity_calculate_volume : ParamQuantity -> ParamPrice -> nativeResult ParamVolume;
  openpit_param_volume_calculate_quantity : ParamVolume -> ParamPrice -> nativeResult ParamQuantity;
  openpit_param_volume_to_cash_flow_inflow : ParamVolume -> nativeResult ParamCashFlow;
  openpit_param_volume_to_cash_flow_outflow : ParamVolume -> nativeResult ParamCashFlow;
  openpit_param_notional_from_volume : ParamVolume -> nativeResult ParamNotional;
  openpit_param_notional_to_volume : ParamNotional -> nativeResult ParamVolume;
  openpit_param_notional_calculate_margin_required : ParamNotional -> ParamLeverage -> nativeResult ParamNotional;
  openpit_param_price_calculate_notional : ParamPrice -> ParamQuantity -> nativeResult ParamNotional;
  openpit_param_quantity_calculate_notional : ParamQuantity -> ParamPrice -> nativeResult ParamNotional;
  openpit_param_volume_from_notional : ParamNotional -> nativeResult ParamVolume;
  openpit_param_cash_flow_from_pnl : ParamPnl -> nativeResult ParamCashFlow;
  openpit_param_cash_flow_from_fee : ParamFee -> nativeResult ParamCashFlow;
  openpit_param_cash_flow_from_volume_inflow : ParamVolume -> nativeResult ParamCashFlow;
  openpit_param_cash_flow_from_volume_outflow : ParamVolume -> nativeResult ParamCashFlow;
  openpit_param_position_size_from_pnl : ParamPnl -> nativeResult ParamPositionSize;
  openpit_param_position_size_from_fee : ParamFee -> nativeResult ParamPositionSize;
  openpit_param_position_size_from_quantity_and_side : ParamQuantity -> ParamSide -> nativeResult ParamPositionSize;
  openpit_param_position_size_to_open_quantity : ParamPositionSize -> nativeResult (ParamQuantity * ParamSide);
  openpit_param_position_size_to_close_quantity : ParamPositionSize -> nativeResult (ParamQuantity * ParamSide);
  openpit_param_position_size_checked_add_quantity : ParamPositionSize -> ParamQuantity -> ParamSide -> nativeResult ParamPositionSize;
  openpit_param_fee_to_pnl : ParamFee -> nativeResult ParamPnl;
  openpit_param_fee_to_position_size : ParamFee -> nativeResult ParamPositionSize;
  openpit_param_fee_to_cash_flow : ParamFee -> nativeResult ParamCashFlow;
}.

Section Wrappers.
Context {F64 : Type} {NP : NativeParam F64}.


(** ** Pnl *)

Definition CreateParamPnl (value : ParamDecimal) : N (ParamPnl * option error) :=
  outParam "openpit_create_param_pnl failed" (openpit_create_param KPnl value).
Definition CreateParamPnlFromString (v : string) : N (ParamPnl * option error) :=
  outParam "openpit_create_param_pnl_from_string failed" (openpit_create_param_from_string KPnl v).
Definition CreateParamPnlFromF64 (v : F64) : N (ParamPnl * option error) :=
  outParam "openpit_create_param_pnl_from_f64 failed" (openpit_create_param_from_f64 KPnl v).
Definition CreateParamPnlFromInt64 (v : Z) : N (ParamPnl * option error) :=
  outParam "openpit_create_param_pnl_from_int64 failed" (openpit_create_param_from_int64 KPnl v).
Definition CreateParamPnlFromUint64 (v : Z) : N (ParamPnl * option error) :=
  outParam "openpit_create_param_pnl_from_uint64 failed" (openpit_create_param_from_uint64 KPnl v).
Definition CreateParamPnlFromStringRounded (v : string) (scale : Z) (strategy : ParamRoundingStrategy) : N (ParamPnl * option error) :=
  outParam "openpit_create_param_pnl_from_string_rounded failed" (openpit_create_param_from_string_rounded KPnl v scale strategy).
Definition CreateParamPnlFromF64Rounded (v : F64) (scale : Z) (strategy : ParamRoundingStrategy) : N (ParamPnl * option error) :=
  outParam "openpit_create_param_pnl_from_f64_rounded failed" (openpit_create_param_from_f64_rounded KPnl v scale strategy).
Definition CreateParamPnlFromDecimalRounded (v : ParamDecimal) (scale : Z) (strategy : ParamRoundingStrategy) : N (ParamPnl * option error) :=
  outParam "openpit_create_param_pnl_from_decimal_rounded failed" (openpit_create_param_from_decimal_rounded KPnl v scale strategy).
Definition ParamPnlToF64 (value : ParamPnl) : N (F64 * option error) :=
  outOrZero f64_zero "openpit_param_pnl_to_f64 failed" (openpit_param_to_f64 KPnl value).
Definition ParamPnlIsZero (value : ParamPnl) : N (bool * option error) :=
  outOrZero false "openpit_param_pnl_is_zero failed" (openpit_param_is_zero KPnl value).
Definition ParamPnlCompare (lhs : ParamPnl) (rhs : ParamPnl) : N (Z * option error) :=
  outOrZero 0%Z "openpit_param_pnl_compare failed" (openpit_param_compare KPnl lhs rhs).
Definition ParamPnlToString (value : ParamPnl) : N (string * option error) :=
  outString "openpit_param_pnl_to_string failed" (openpit_param_to_string KPnl value).
Definition ParamPnlCheckedAdd (lhs : ParamPnl) (rhs : ParamPnl) : N (ParamPnl * option error) :=
  outParam "openpit_param_pnl_checked_add failed" (openpit_param_checked_add KPnl lhs rhs).
Definition ParamPnlCheckedSub (lhs : ParamPnl) (rhs : ParamPnl) : N (ParamPnl * option error) :=
  outParam "openpit_param_pnl_checked_sub failed" (openpit_param_checked_sub KPnl lhs rhs).
Definition ParamPnlCheckedNeg (value : ParamPnl) : N (ParamPnl * option error) :=
  outParam "openpit_param_pnl_checked_neg failed" (openpit_param_checked_neg KPnl value).
Definition ParamPnlCheckedMulI64 (value : ParamPnl) (scalar : Z) : N (ParamPnl * option error) :=
  outParam "openpit_param_pnl_checked_mul_i64 failed" (openpit_param_checked_mul_i64 KPnl value scalar).
Definition ParamPnlCheckedMulU64 (value : ParamPnl) (scalar : Z) : N (ParamPnl * option error) :=
  outParam "openpit_param_pnl_checked_mul_u64 failed" (openpit_param_checked_mul_u64 KPnl value scalar).
Definition ParamPnlCheckedMulF64 (value : ParamPnl) (scalar : F64) : N (ParamPnl * option error) :=
  outParam "openpit_param_pnl_checked_mul_f64 failed" (openpit_param_checked_mul_f64 KPnl value scalar).
Definition ParamPnlCheckedDivI64 (value : ParamPnl) (divisor : Z) : N (ParamPnl * option error) :=
  outParam "openpit_param_pnl_checked_div_i64 failed" (openpit_param_checked_div_i64 KPnl value divisor).
Definition ParamPnlCheckedDivU64 (value : ParamPnl) (divisor : Z) : N (ParamPnl * option error) :=
  outParam "openpit_param_pnl_checked_div_u64 failed" (openpit_param_checked_div_u64 KPnl value divisor).
Definition ParamPnlCheckedDivF64 (value : ParamPnl) (divisor : F64) : N (ParamPnl * option error) :=
  outParam "openpit_param_pnl_checked_div_f64 failed" (openpit_param_checked_div_f64 KPnl value divisor).
Definition ParamPnlCheckedRemI64 (value : ParamPnl) (divisor : Z) : N (ParamPnl * option error) :=
  outParam "openpit_param_pnl_checked_rem_i64 failed" (openpit_param_checked_rem_i64 KPnl value divisor).
Definition ParamPnlCheckedRemU64 (value : ParamPnl) (divisor : Z) : N (ParamPnl * option error) :=
  outParam "openpit_param_pnl_checked_rem_u64 failed" (openpit_param_checked_rem_u64 KPnl value divisor).
Definition ParamPnlCheckedRemF64 (value : ParamPnl) (divisor : F64) : N (ParamPnl * option error) :=
  outParam "openpit_param_pnl_checked_rem_f64 failed" (openpit_param_checked_rem_f64 KPnl value divisor).
Definition ParamPnlToCashFlow (value : ParamPnl) : N (ParamCashFlow * option error) :=
  outParam "openpit_param_pnl_to_cash_flow failed" (openpit_param_pnl_to_cash_flow value).
Definition ParamPnlToPositionSize (value : ParamPnl) : N (ParamPositionSize * option error) :=
  outParam "openpit_param_pnl_to_position_size failed" (openpit_param_pnl_to_position_size value).

(** ** Quantity *)

Definition ParamQuantityToPositionSize (value : ParamQuantity) : N (ParamPositionSize * option error) :=
  outParam "openpit_param_quantity_to_position_size failed" (openpit_param_quantity_to_position_size value).

(** ** Volume *)

Definition ParamVolumeToPositionSize (value : ParamVolume) : N (ParamPositionSize * option error) :=
  outParam "openpit_param_volume_to_position_size failed" (openpit_param_volume_to_position_size value).

(** ** Pnl *)

Definition ParamPnlFromFee (fee : ParamFee) : N (ParamPnl * option error) :=
  outParam "openpit_param_pnl_from_fee failed" (openpit_param_pnl_from_fee fee).

(** ** Price *)

Definition CreateParamPrice (value : ParamDecimal) : N (ParamPrice * option error) :=
  outParam "openpit_create_param_price failed" (openpit_create_param KPrice value).
Definition CreateParamPriceFromString (v : string) : N (ParamPrice * option error) :=
  outParam "openpit_create_param_price_from_string failed" (openpit_create_param_from_string KPrice v).
Definition CreateParamPriceFromF64 (v : F64) : N (ParamPrice * option error) :=
  outParam "openpit_create_param_price_from_f64 failed" (openpit_create_param_from_f64 KPrice v).
Definition CreateParamPriceFromInt64 (v : Z) : N (ParamPrice * option error) :=
  outParam "openpit_create_param_price_from_int64 failed" (openpit_create_param_from_int64 KPrice v).
Definition CreateParamPriceFromUint64 (v : Z) : N (ParamPrice * option error) :=
  outParam "openpit_create_param_price_from_uint64 failed" (openpit_create_param_from_uint64 KPrice v).
Definition CreateParamPriceFromStringRounded (v : string) (scale : Z) (strategy : ParamRoundingStrategy) : N (ParamPrice * option error) :=
  outParam "openpit_create_param_price_from_string_rounded failed" (openpit_create_param_from_string_rounded KPrice v scale strategy).
Definition CreateParamPriceFromF64Rounded (v : F64) (scale : Z) (strategy : ParamRoundingStrategy) : N (ParamPrice * option error) :=
  outParam "openpit_create_param_price_from_f64_rounded failed" (openpit_create_param_from_f64_rounded KPrice v scale strategy).
Definition CreateParamPriceFromDecimalRounded (v : ParamDecimal) (scale : Z) (strategy : ParamRoundingStrategy) : N (ParamPrice * option error) :=
  outParam "openpit_create_param_price_from_decimal_rounded failed" (openpit_create_param_from_decimal_rounded KPrice v scale strategy).
Definition ParamPriceToF64 (value : ParamPrice) : N (F64 * option error) :=
  outOrZero f64_zero "openpit_param_price_to_f64 failed" (openpit_param_to_f64 KPrice value).
Definition ParamPriceIsZero (value : ParamPrice) : N (bool * option error) :=
  outOrZero false "openpit_param_price_is_zero failed" (openpit_param_is_zero KPrice value).
Definition ParamPriceCompare (lhs : ParamPrice) (rhs : ParamPrice) : N (Z * option error) :=
  outOrZero 0%Z "openpit_param_price_compare failed" (openpit_param_compare KPrice lhs rhs).
Definition ParamPriceToString (value : ParamPrice) : N (string * option error) :=
  outString "openpit_param_price_to_string failed" (openpit_param_to_string KPrice value).
Definition ParamPriceCheckedAdd (lhs : ParamPrice) (rhs : ParamPrice) : N (ParamPrice * option error) :=
  outParam "openpit_param_price_checked_add failed" (openpit_param_checked_add KPrice lhs rhs).
Definition ParamPriceCheckedSub (lhs : ParamPrice) (rhs : ParamPrice) : N (ParamPrice * option error) :=
  outParam "openpit_param_price_checked_sub failed" (openpit_param_checked_sub KPrice lhs rhs).
Definition ParamPriceCheckedNeg (value : ParamPrice) : N (ParamPrice * option error) :=
  outParam "openpit_param_price_checked_neg failed" (openpit_param_checked_neg KPrice value).
Definition ParamPriceCheckedMulI64 (value : ParamPrice) (scalar : Z) : N (ParamPrice * option error) :=
  outParam "openpit_param_price_checked_mul_i64 failed" (openpit_param_checked_mul_i64 KPrice value scalar).
Definition ParamPriceCheckedMulU64 (value : ParamPrice) (scalar : Z) : N (ParamPrice * option error) :=
  outParam "openpit_param_price_checked_mul_u64 failed" (openpit_param_checked_mul_u64 KPrice value scalar).
Definition ParamPriceCheckedMulF64 (value : ParamPrice) (scalar : F64) : N (ParamPrice * option error) :=
  outParam "openpit_param_price_checked_mul_f64 failed" (openpit_param_checked_mul_f64 KPrice value scalar).
Definition ParamPriceCheckedDivI64 (value : ParamPrice) (divisor : Z) : N (ParamPrice * option error) :=
  outParam "openpit_param_price_checked_div_i64 failed" (openpit_param_checked_div_i64 KPrice value divisor).
Definition ParamPriceCheckedDivU64 (value : ParamPrice) (divisor : Z) : N (ParamPrice * option error) :=
  outParam "openpit_param_price_checked_div_u64 failed" (openpit_param_checked_div_u64 KPrice value divisor).
Definition ParamPriceCheckedDivF64 (value : ParamPrice) (divisor : F64) : N (ParamPrice * option error) :=
  outParam "openpit_param_price_checked_div_f64 failed" (openpit_param_checked_div_f64 KPrice value divisor).
Definition ParamPriceCheckedRemI64 (value : ParamPrice) (divisor : Z) : N (ParamPrice * option error) :=
  outParam "openpit_param_price_checked_rem_i64 failed" (openpit_param_checked_rem_i64 KPrice value divisor).
Definition ParamPriceCheckedRemU64 (value : ParamPrice) (divisor : Z) : N (ParamPrice * option error) :=
  outParam "openpit_param_price_checked_rem_u64 failed" (openpit_param_checked_rem_u64 KPrice value divisor).
Definition ParamPriceCheckedRemF64 (value : ParamPrice) (divisor : F64) : N (ParamPrice * option error) :=
  outParam "openpit_param_price_checked_rem_f64 failed" (openpit_param_checked_rem_f64 KPrice value divisor).
Definition ParamPriceCalculateVolume (price : ParamPrice) (quantity : ParamQuantity) : N (ParamVolume * option error) :=
  outParam "openpit_param_price_calculate_volume failed" (openpit_param_price_calculate_volume price quantity).
Definition ParamPriceCalculatePositionSize (price : ParamPrice) (quantity : ParamQuantity) : N (ParamPositionSize * option error) :=
  outParam "openpit_param_price_calculate_position_size failed" (openpit_param_price_calculate_position_size price quantity).

(** ** Quantity *)

Definition CreateParamQuantity (value : ParamDecimal) : N (ParamQuantity * option error) :=
  outParam "openpit_create_param_quantity failed" (openpit_create_param KQuantity value).
Definition CreateParamQuantityFromString (v : string) : N (ParamQuantity * option error) :=
  outParam "openpit_create_param_quantity_from_string failed" (openpit_create_param_from_string KQuantity v).
Definition CreateParamQuantityFromF64 (v : F64) : N (ParamQuantity * option error) :=
  outParam "openpit_create_param_quantity_from_f64 failed" (openpit_create_param_from_f64 KQuantity v).
Definition CreateParamQuantityFromInt64 (v : Z) : N (ParamQuantity * option error) :=
  outParam "openpit_create_param_quantity_from_int64 failed" (openpit_create_param_from_int64 KQuantity v).
Definition CreateParamQuantityFromUint64 (v : Z) : N (ParamQuantity * option error) :=
  outParam "openpit_create_param_quantity_from_uint64 failed" (openpit_create_param_from_uint64 KQuantity v).
Definition CreateParamQuantityFromStringRounded (v : string) (scale : Z) (strategy : ParamRoundingStrategy) : N (ParamQuantity * option error) :=
  outParam "openpit_create_param_quantity_from_string_rounded failed" (openpit_create_param_from_string_rounded KQuantity v scale strategy).
Definition CreateParamQuantityFromF64Rounded (v : F64) (scale : Z) (strategy : ParamRoundingStrategy) : N (ParamQuantity * option error) :=
  outParam "openpit_create_param_quantity_from_f64_rounded failed" (openpit_create_param_from_f64_rounded KQuantity v scale strategy).
Definition CreateParamQuantityFromDecimalRounded (v : ParamDecimal) (scale : Z) (strategy : ParamRoundingStrategy) : N (ParamQuantity * option error) :=
  outParam "openpit_create_param_quantity_from_decimal_rounded failed" (openpit_create_param_from_decimal_rounded KQuantity v scale strategy).
Definition ParamQuantityToF64 (value : ParamQuantity) : N (F64 * option error) :=
  outOrZero f64_zero "openpit_param_quantity_to_f64 failed" (openpit_param_to_f64 KQuantity value).
Definition ParamQuantityIsZero (value : ParamQuantity) : N (bool * option error) :=
  outOrZero false "openpit_param_quantity_is_zero failed" (openpit_param_is_zero KQuantity value).
Definition ParamQuantityCompare (lhs : ParamQuantity) (rhs : ParamQuantity) : N (Z * option error) :=
  outOrZero 0%Z "openpit_param_quantity_compare failed" (openpit_param_compare KQuantity lhs rhs).
Definition ParamQuantityToString (value : ParamQuantity) : N (string * option error) :=
  outString "openpit_param_quantity_to_string failed" (openpit_param_to_string KQuantity value).
Definition ParamQuantityCheckedAdd (lhs : ParamQuantity) (rhs : ParamQuantity) : N (ParamQuantity * option error) :=
  outParam "openpit_param_quantity_checked_add failed" (openpit_param_checked_add KQuantity lhs rhs).
Definition ParamQuantityCheckedSub (lhs : ParamQuantity) (rhs : ParamQuantity) : N (ParamQuantity * option error) :=
  outParam "openpit_param_quantity_checked_sub failed" (openpit_param_checked_sub KQuantity lhs rhs).
Definition ParamQuantityCheckedMulI64 (value : ParamQuantity) (scalar : Z) : N (ParamQuantity * option error) :=
  outParam "openpit_param_quantity_checked_mul_i64 failed" (openpit_param_checked_mul_i64 KQuantity value scalar).
Definition ParamQuantityCheckedMulU64 (value : ParamQuantity) (scalar : Z) : N (ParamQuantity * option error) :=
  outParam "openpit_param_quantity_checked_mul_u64 failed" (openpit_param_checked_mul_u64 KQuantity value scalar).
Definition ParamQuantityCheckedMulF64 (value : ParamQuantity) (scalar : F64) : N (ParamQuantity * option error) :=
  outParam "openpit_param_quantity_checked_mul_f64 failed" (openpit_param_checked_mul_f64 KQuantity value scalar).
Definition ParamQuantityCheckedDivI64 (value : ParamQuantity) (divisor : Z) : N (ParamQuantity * option error) :=
  outParam "openpit_param_quantity_checked_div_i64 failed" (openpit_param_checked_div_i64 KQuantity value divisor).
Definition ParamQuantityCheckedDivU64 (value : ParamQuantity) (divisor : Z) : N (ParamQuantity * option error) :=
  outParam "openpit_param_quantity_checked_div_u64 failed" (openpit_param_checked_div_u64 KQuantity value divisor).
Definition ParamQuantityCheckedDivF64 (value : ParamQuantity) (divisor : F64) : N (ParamQuantity * option error) :=
  outParam "openpit_param_quantity_checked_div_f64 failed" (openpit_param_checked_div_f64 KQuantity value divisor).
Definition ParamQuantityCheckedRemI64 (value : ParamQuantity) (divisor : Z) : N (ParamQuantity * option error) :=
  outParam "openpit_param_quantity_checked_rem_i64 failed" (openpit_param_checked_rem_i64 KQuantity value divisor).
Definition ParamQuantityCheckedRemU64 (value : ParamQuantity) (divisor : Z) : N (ParamQuantity * option error) :=
  outParam "openpit_param_quantity_checked_rem_u64 failed" (openpit_param_checked_rem_u64 KQuantity value divisor).
Definition ParamQuantityCheckedRemF64 (value : ParamQuantity) (divisor : F64) : N (ParamQuantity * option error) :=
  outParam "openpit_param_quantity_checked_rem_f64 failed" (openpit_param_checked_rem_f64 KQuantity value divisor).
Definition ParamQuantityCalculateVolume (quantity : ParamQuantity) (price : ParamPrice) : N (ParamVolume * option error) :=
  outParam "openpit_param_quantity_calculate_volume failed" (openpit_param_quantity_calculate_volume quantity price).

(** ** Volume *)

Definition CreateParamVolume (value : ParamDecimal) : N (ParamVolume * option error) :=
  outParam "openpit_create_param_volume failed" (openpit_create_param KVolume value).
Definition CreateParamVolumeFromString (v : string) : N (ParamVolume * option error) :=
  outParam "openpit_create_param_volume_from_string failed" (openpit_create_param_from_string KVolume v).
Definition CreateParamVolumeFromF64 (v : F64) : N (ParamVolume * option error) :=
  outParam "openpit_create_param_volume_from_f64 failed" (openpit_create_param_from_f64 KVolume v).
Definition CreateParamVolumeFromInt64 (v : Z) : N (ParamVolume * option error) :=
  outParam "openpit_create_param_volume_from_int64 failed" (openpit_create_param_from_int64 KVolume v).
Definition CreateParamVolumeFromUint64 (v : Z) : N (ParamVolume * option error) :=
  outParam "openpit_create_param_volume_from_uint64 failed" (openpit_create_param_from_uint64 KVolume v).
Definition CreateParamVolumeFromStringRounded (v : string) (scale : Z) (strategy : ParamRoundingStrategy) : N (ParamVolume * option error) :=
  outParam "openpit_create_param_volume_from_string_rounded failed" (openpit_create_param_from_string_rounded KVolume v scale strategy).
Definition CreateParamVolumeFromF64Rounded (v : F64) (scale : Z) (strategy : ParamRoundingStrategy) : N (ParamVolume * option error) :=
  outParam "openpit_create_param_volume_from_f64_rounded failed" (openpit_create_param_from_f64_rounded KVolume v scale strategy).
Definition CreateParamVolumeFromDecimalRounded (v : ParamDecimal) (scale : Z) (strategy : ParamRoundingStrategy) : N (ParamVolume * option error) :=
  outParam "openpit_create_param_volume_from_decimal_rounded failed" (openpit_create_param_from_decimal_rounded KVolume v scale strategy).
Definition ParamVolumeToF64 (value : ParamVolume) : N (F64 * option error) :=
  outOrZero f64_zero "openpit_param_volume_to_f64 failed" (openpit_param_to_f64 KVolume value).
Definition ParamVolumeIsZero (value : ParamVolume) : N (bool * option error) :=
  outOrZero false "openpit_param_volume_is_zero failed" (openpit_param_is_zero KVolume value).
Definition ParamVolumeCompare (lhs : ParamVolume) (rhs : ParamVolume) : N (Z * option error) :=
  outOrZero 0%Z "openpit_param_volume_compare failed" (openpit_param_compare KVolume lhs rhs).
Definition ParamVolumeToString (value : ParamVolume) : N (string * option error) :=
  outString "openpit_param_volume_to_string failed" (openpit_param_to_string KVolume value).
Definition ParamVolumeCheckedAdd (lhs : ParamVolume) (rhs : ParamVolume) : N (ParamVolume * option error) :=
  outParam "openpit_param_volume_checked_add failed" (openpit_param_checked_add KVolume lhs rhs).
Definition ParamVolumeCheckedSub (lhs : ParamVolume) (rhs : ParamVolume) : N (ParamVolume * option error) :=
  outParam "openpit_param_volume_checked_sub failed" (openpit_param_checked_sub KVolume lhs rhs).
Definition ParamVolumeCheckedMulI64 (value : ParamVolume) (scalar : Z) : N (ParamVolume * option error) :=
  outParam "openpit_param_volume_checked_mul_i64 failed" (openpit_param_checked_mul_i64 KVolume value scalar).
Definition ParamVolumeCheckedMulU64 (value : ParamVolume) (scalar : Z) : N (ParamVolume * option error) :=
  outParam "openpit_param_volume_checked_mul_u64 failed" (openpit_param_checked_mul_u64 KVolume value scalar).
Definition ParamVolumeCheckedMulF64 (value : ParamVolume) (scalar : F64) : N (ParamVolume * option error) :=
  outParam "openpit_param_volume_checked_mul_f64 failed" (openpit_param_checked_mul_f64 KVolume value scalar).
Definition ParamVolumeCheckedDivI64 (value : ParamVolume) (divisor : Z) : N (ParamVolume * option error) :=
  outParam "openpit_param_volume_checked_div_i64 failed" (openpit_param_checked_div_i64 KVolume value divisor).
Definition ParamVolumeCheckedDivU64 (value : ParamVolume) (divisor : Z) : N (ParamVolume * option error) :=
  outParam "openpit_param_volume_checked_div_u64 failed" (openpit_param_checked_div_u64 KVolume value divisor).
Definition ParamVolumeCheckedDivF64 (value : ParamVolume) (divisor : F64) : N (ParamVolume * option error) :=
  outParam "openpit_param_volume_checked_div_f64 failed" (openpit_param_checked_div_f64 KVolume value divisor).
Definition ParamVolumeCheckedRemI64 (value : ParamVolume) (divisor : Z) : N (ParamVolume * option error) :=
  outParam "openpit_param_volume_checked_rem_i64 failed" (openpit_param_checked_rem_i64 KVolume value divisor).
Definition ParamVolumeCheckedRemU64 (value : ParamVolume) (divisor : Z) : N (ParamVolume * option error) :=
  outParam "openpit_param_volume_checked_rem_u64 failed" (openpit_param_checked_rem_u64 KVolume value divisor).
Definition ParamVolumeCheckedRemF64 (value : ParamVolume) (divisor : F64) : N (ParamVolume * option error) :=
  outParam "openpit_param_volume_checked_rem_f64 failed" (openpit_param_checked_rem_f64 KVolume value divisor).
Definition ParamVolumeCalculateQuantity (volume : ParamVolume) (price : ParamPrice) : N (ParamQuantity * option error) :=
  outParam "openpit_param_volume_calculate_quantity failed" (openpit_param_volume_calculate_quantity volume price).
Definition ParamVolumeToCashFlowInflow (value : ParamVolume) : N (ParamCashFlow * option error) :=
  outParam "openpit_param_volume_to_cash_flow_inflow failed" (openpit_param_volume_to_cash_flow_inflow value).
Definition ParamVolumeToCashFlowOutflow (value : ParamVolume) : N (ParamCashFlow * option error) :=
  outParam "openpit_param_volume_to_cash_flow_outflow failed" (openpit_param_volume_to_cash_flow_outflow value).

(** ** Notional *)

Definition CreateParamNotional (value : ParamDecimal) : N (ParamNotional * option error) :=
  outParam "openpit_create_param_notional failed" (openpit_create_param KNotional value).
Definition CreateParamNotionalFromString (v : string) : N (ParamNotional * option error) :=
  outParam "openpit_create_param_notional_from_string failed" (openpit_create_param_from_string KNotional v).
Definition CreateParamNotionalFromF64 (v : F64) : N (ParamNotional * option error) :=
  outParam "openpit_create_param_notional_from_f64 failed" (openpit_create_param_from_f64 KNotional v).
Definition CreateParamNotionalFromInt64 (v : Z) : N (ParamNotional * option error) :=
  outParam "openpit_create_param_notional_from_int64 failed" (openpit_create_param_from_int64 KNotional v).
Definition CreateParamNotionalFromUint64 (v : Z) : N (ParamNotional * option error) :=
  outParam "openpit_create_param_notional_from_uint64 failed" (openpit_create_param_from_uint64 KNotional v).
Definition CreateParamNotionalFromStringRounded (v : string) (scale : Z) (strategy : ParamRoundingStrategy) : N (ParamNotional * option error) :=
  outParam "openpit_create_param_notional_from_string_rounded failed" (openpit_create_param_from_string_rounded KNotional v scale strategy).
Definition CreateParamNotionalFromF64Rounded (v : F64) (scale : Z) (strategy : ParamRoundingStrategy) : N (ParamNotional * option error) :=
  outParam "openpit_create_param_notional_from_f64_rounded failed" (openpit_create_param_from_f64_rounded KNotional v scale strategy).
Definition CreateParamNotionalFromDecimalRounded (v : ParamDecimal) (scale : Z) (strategy : ParamRoundingStrategy) : N (ParamNotional * option error) :=
  outParam "openpit_create_param_notional_from_decimal_rounded failed" (openpit_create_param_from_decimal_rounded KNotional v scale strategy).
Definition ParamNotionalToF64 (value : ParamNotional) : N (F64 * option error) :=
  outOrZero f64_zero "openpit_param_notional_to_f64 failed" (openpit_param_to_f64 KNotional value).
Definition ParamNotionalIsZero (value : ParamNotional) : N (bool * option error) :=
  outOrZero false "openpit_param_notional_is_zero failed" (openpit_param_is_zero KNotional value).
Definition ParamNotionalCompare (lhs : ParamNotional) (rhs : ParamNotional) : N (Z * option error) :=
  outOrZero 0%Z "openpit_param_notional_compare failed" (openpit_param_compare KNotional lhs rhs).
Definition ParamNotionalToString (value : ParamNotional) : N (string * option error) :=
  outString "openpit_param_notional_to_string failed" (openpit_param_to_string KNotional value).
Definition ParamNotionalCheckedAdd (lhs : ParamNotional) (rhs : ParamNotional) : N (ParamNotional * option error) :=
  outParam "openpit_param_notional_checked_add failed" (openpit_param_checked_add KNotional lhs rhs).
Definition ParamNotionalCheckedSub (lhs : ParamNotional) (rhs : ParamNotional) : N (ParamNotional * option error) :=
  outParam "openpit_param_notional_checked_sub failed" (openpit_param_checked_sub KNotional lhs rhs).
Definition ParamNotionalCheckedMulI64 (value : ParamNotional) (scalar : Z) : N (ParamNotional * option error) :=
  outParam "openpit_param_notional_checked_mul_i64 failed" (openpit_param_checked_mul_i64 KNotional value scalar).
Definition ParamNotionalCheckedMulU64 (value : ParamNotional) (scalar : Z) : N (ParamNotional * option error) :=
  outParam "openpit_param_notional_checked_mul_u64 failed" (openpit_param_checked_mul_u64 KNotional value scalar).
Definition ParamNotionalCheckedMulF64 (value : ParamNotional) (scalar : F64) : N (ParamNotional * option error) :=
  outParam "openpit_param_notional_checked_mul_f64 failed" (openpit_param_checked_mul_f64 KNotional value scalar).
Definition ParamNotionalCheckedDivI64 (value : ParamNotional) (divisor : Z) : N (ParamNotional * option error) :=
  outParam "openpit_param_notional_checked_div_i64 failed" (openpit_param_checked_div_i64 KNotional value divisor).
Definition ParamNotionalCheckedDivU64 (value : ParamNotional) (divisor : Z) : N (ParamNotional * option error) :=
  outParam "openpit_param_notional_checked_div_u64 failed" (openpit_param_checked_div_u64 KNotional value divisor).
Definition ParamNotionalCheckedDivF64 (value : ParamNotional) (divisor : F64) : N (ParamNotional * option error) :=
  outParam "openpit_param_notional_checked_div_f64 failed" (openpit_param_checked_div_f64 KNotional value divisor).
Definition ParamNotionalCheckedRemI64 (value : ParamNotional) (divisor : Z) : N (ParamNotional * option error) :=
  outParam "openpit_param_notional_checked_rem_i64 failed" (openpit_param_checked_rem_i64 KNotional value divisor).
Definition ParamNotionalCheckedRemU64 (value : ParamNotional) (divisor : Z) : N (ParamNotional * option error) :=
  outParam "openpit_param_notional_checked_rem_u64 failed" (openpit_param_checked_rem_u64 KNotional value divisor).
Definition ParamNotionalCheckedRemF64 (value : ParamNotional) (divisor : F64) : N (ParamNotional * option error) :=
  outParam "openpit_param_notional_checked_rem_f64 failed" (openpit_param_checked_rem_f64 KNotional value divisor).
Definition ParamNotionalFromVolume (volume : ParamVolume) : N (ParamNotional * option error) :=
  outParam "openpit_param_notional_from_volume failed" (openpit_param_notional_from_volume volume).
Definition ParamNotionalToVolume (notional : ParamNotional) : N (ParamVolume * option error) :=
  outParam "openpit_param_notional_to_volume failed" (openpit_param_notional_to_volume notional).
Definition ParamNotionalCalculateMarginRequired (notional : ParamNotional) (leverage : ParamLeverage) : N (ParamNotional * option error) :=
  outParam "openpit_param_notional_calculate_margin_required failed" (openpit_param_notional_calculate_margin_required notional leverage).

(** ** Price *)

Definition ParamPriceCalculateNotional (price : ParamPrice) (quantity : ParamQuantity) : N (ParamNotional * option error) :=
  outParam "openpit_param_price_calculate_notional failed" (openpit_param_price_calculate_notional price quantity).

(** ** Quantity *)

Definition ParamQuantityCalculateNotional (quantity : ParamQuantity) (price : ParamPrice) : N (ParamNotional * option error) :=
  outParam "openpit_param_quantity_calculate_notional failed" (openpit_param_quantity_calculate_notional quantity price).

(** ** Volume *)

Definition ParamVolumeFromNotional (notional : ParamNotional) : N (ParamVolume * option error) :=
  outParam "openpit_param_volume_from_notional failed" (openpit_param_volume_from_notional notional).

(** ** CashFlow *)

Definition CreateParamCashFlow (value : ParamDecimal) : N (ParamCashFlow * option error) :=
  outParam "openpit_create_param_cash_flow failed" (openpit_create_param KCashFlow value).
Definition CreateParamCashFlowFromString (v : string) : N (ParamCashFlow * option error) :=
  outParam "openpit_create_param_cash_flow_from_string failed" (openpit_create_param_from_string KCashFlow v).
Definition CreateParamCashFlowFromF64 (v : F64) : N (ParamCashFlow * option error) :=
  outParam "openpit_create_param_cash_flow_from_f64 failed" (openpit_create_param_from_f64 KCashFlow v).
Definition CreateParamCashFlowFromInt64 (v : Z) : N (ParamCashFlow * option error) :=
  outParam "openpit_create_param_cash_flow_from_int64 failed" (openpit_create_param_from_int64 KCashFlow v).
Definition CreateParamCashFlowFromUint64 (v : Z) : N (ParamCashFlow * option error) :=
  outParam "openpit_create_param_cash_flow_from_uint64 failed" (openpit_create_param_from_uint64 KCashFlow v).
Definition CreateParamCashFlowFromStringRounded (v : string) (scale : Z) (strategy : ParamRoundingStrategy) : N (ParamCashFlow * option error) :=
  outParam "openpit_create_param_cash_flow_from_string_rounded failed" (openpit_create_param_from_string_rounded KCashFlow v scale strategy).
Definition CreateParamCashFlowFromF64Rounded (v : F64) (scale : Z) (strategy : ParamRoundingStrategy) : N (ParamCashFlow * option error) :=
  outParam "openpit_create_param_cash_flow_from_f64_rounded failed" (openpit_create_param_from_f64_rounded KCashFlow v scale strategy).
Definition CreateParamCashFlowFromDecimalRounded (v : ParamDecimal) (scale : Z) (strategy : ParamRoundingStrategy) : N (ParamCashFlow * option error) :=
  outParam "openpit_create_param_cash_flow_from_decimal_rounded failed" (openpit_create_param_from_decimal_rounded KCashFlow v scale strategy).
Definition ParamCashFlowToF64 (value : ParamCashFlow) : N (F64 * option error) :=
  outOrZero f64_zero "openpit_param_cash_flow_to_f64 failed" (openpit_param_to_f64 KCashFlow value).
Definition ParamCashFlowIsZero (value : ParamCashFlow) : N (bool * option error) :=
  outOrZero false "openpit_param_cash_flow_is_zero failed" (openpit_param_is_zero KCashFlow value).
Definition ParamCashFlowCompare (lhs : ParamCashFlow) (rhs : ParamCashFlow) : N (Z * option error) :=
  outOrZero 0%Z "openpit_param_cash_flow_compare failed" (openpit_param_compare KCashFlow lhs rhs).
Definition ParamCashFlowToString (value : ParamCashFlow) : N (string * option error) :=
  outString "openpit_param_cash_flow_to_string failed" (openpit_param_to_string KCashFlow value).
Definition ParamCashFlowCheckedAdd (lhs : ParamCashFlow) (rhs : ParamCashFlow) : N (ParamCashFlow * option error) :=
  outParam "openpit_param_cash_flow_checked_add failed" (openpit_param_checked_add KCashFlow lhs rhs).
Definition ParamCashFlowCheckedSub (lhs : ParamCashFlow) (rhs : ParamCashFlow) : N (ParamCashFlow * option error) :=
  outParam "openpit_param_cash_flow_checked_sub failed" (openpit_param_checked_sub KCashFlow lhs rhs).
Definition ParamCashFlowCheckedNeg (value : ParamCashFlow) : N (ParamCashFlow * option error) :=
  outParam "openpit_param_cash_flow_checked_neg failed" (openpit_param_checked_neg KCashFlow value).
Definition ParamCashFlowCheckedMulI64 (value : ParamCashFlow) (scalar : Z) : N (ParamCashFlow * option error) :=
  outParam "openpit_param_cash_flow_checked_mul_i64 failed" (openpit_param_checked_mul_i64 KCashFlow value scalar).
Definition ParamCashFlowCheckedMulU64 (value : ParamCashFlow) (scalar : Z) : N (ParamCashFlow * option error) :=
  outParam "openpit_param_cash_flow_checked_mul_u64 failed" (openpit_param_checked_mul_u64 KCashFlow value scalar).
Definition ParamCashFlowCheckedMulF64 (value : ParamCashFlow) (scalar : F64) : N (ParamCashFlow * option error) :=
  outParam "openpit_param_cash_flow_checked_mul_f64 failed" (openpit_param_checked_mul_f64 KCashFlow value scalar).
Definition ParamCashFlowCheckedDivI64 (value : ParamCashFlow) (divisor : Z) : N (ParamCashFlow * option error) :=
  outParam "openpit_param_cash_flow_checked_div_i64 failed" (openpit_param_checked_div_i64 KCashFlow value divisor).
Definition ParamCashFlowCheckedDivU64 (value : ParamCashFlow) (divisor : Z) : N (ParamCashFlow * option error) :=
  outParam "openpit_param_cash_flow_checked_div_u64 failed" (openpit_param_checked_div_u64 KCashFlow value divisor).
Definition ParamCashFlowCheckedDivF64 (value : ParamCashFlow) (divisor : F64) : N (ParamCashFlow * option error) :=
  outParam "openpit_param_cash_flow_checked_div_f64 failed" (openpit_param_checked_div_f64 KCashFlow value divisor).
Definition ParamCashFlowCheckedRemI64 (value : ParamCashFlow) (divisor : Z) : N (ParamCashFlow * option error) :=
  outParam "openpit_param_cash_flow_checked_rem_i64 failed" (openpit_param_checked_rem_i64 KCashFlow value divisor).
Definition ParamCashFlowCheckedRemU64 (value : ParamCashFlow) (divisor : Z) : N (ParamCashFlow * option error) :=
  outParam "openpit_param_cash_flow_checked_rem_u64 failed" (openpit_param_checked_rem_u64 KCashFlow value divisor).
Definition ParamCashFlowCheckedRemF64 (value : ParamCashFlow) (divisor : F64) : N (ParamCashFlow * option error) :=
  outParam "openpit_param_cash_flow_checked_rem_f64 failed" (openpit_param_checked_rem_f64 KCashFlow value divisor).
Definition ParamCashFlowFromPnl (value : ParamPnl) : N (ParamCashFlow * option error) :=
  outParam "openpit_param_cash_flow_from_pnl failed" (openpit_param_cash_flow_from_pnl value).
Definition ParamCashFlowFromFee (value : ParamFee) : N (ParamCashFlow * option error) :=
  outParam "openpit_param_cash_flow_from_fee failed" (openpit_param_cash_flow_from_fee value).
Definition ParamCashFlowFromVolumeInflow (value : ParamVolume) : N (ParamCashFlow * option error) :=
  outParam "openpit_param_cash_flow_from_volume_inflow failed" (openpit_param_cash_flow_from_volume_inflow value).
Definition ParamCashFlowFromVolumeOutflow (value : ParamVolume) : N (ParamCashFlow * option error) :=
  outParam "openpit_param_cash_flow_from_volume_outflow failed" (openpit_param_cash_flow_from_volume_outflow value).

(** ** PositionSize *)

Definition CreateParamPositionSize (value : ParamDecimal) : N (ParamPositionSize * option error) :=
  outParam "openpit_create_param_position_size failed" (openpit_create_param KPositionSize value).
Definition CreateParamPositionSizeFromString (v : string) : N (ParamPositionSize * option error) :=
  outParam "openpit_create_param_position_size_from_string failed" (openpit_create_param_from_string KPositionSize v).
Definition CreateParamPositionSizeFromF64 (v : F64) : N (ParamPositionSize * option error) :=
  outParam "openpit_create_param_position_size_from_f64 failed" (openpit_create_param_from_f64 KPositionSize v).
Definition CreateParamPositionSizeFromInt64 (v : Z) : N (ParamPositionSize * option error) :=
  outParam "openpit_create_param_position_size_from_int64 failed" (openpit_create_param_from_int64 KPositionSize v).
Definition CreateParamPositionSizeFromUint64 (v : Z) : N (ParamPositionSize * option error) :=
  outParam "openpit_create_param_position_size_from_uint64 failed" (openpit_create_param_from_uint64 KPositionSize v).
Definition CreateParamPositionSizeFromStringRounded (v : string) (scale : Z) (strategy : ParamRoundingStrategy) : N (ParamPositionSize * option error) :=
  outParam "openpit_create_param_position_size_from_string_rounded failed" (openpit_create_param_from_string_rounded KPositionSize v scale strategy).
Definition CreateParamPositionSizeFromF64Rounded (v : F64) (scale : Z) (strategy : ParamRoundingStrategy) : N (ParamPositionSize * option error) :=
  outParam "openpit_create_param_position_size_from_f64_rounded failed" (openpit_create_param_from_f64_rounded KPositionSize v scale strategy).
Definition CreateParamPositionSizeFromDecimalRounded (v : ParamDecimal) (scale : Z) (strategy : ParamRoundingStrategy) : N (ParamPositionSize * option error) :=
  outParam "openpit_create_param_position_size_from_decimal_rounded failed" (openpit_create_param_from_decimal_rounded KPositionSize v scale strategy).
Definition ParamPositionSizeToF64 (value : ParamPositionSize) : N (F64 * option error) :=
  outOrZero f64_zero "openpit_param_position_size_to_f64 failed" (openpit_param_to_f64 KPositionSize value).
Definition ParamPositionSizeIsZero (value : ParamPositionSize) : N (bool * option error) :=
  outOrZero false "openpit_param_position_size_is_zero failed" (openpit_param_is_zero KPositionSize value).
Definition ParamPositionSizeCompare (lhs : ParamPositionSize) (rhs : ParamPositionSize) : N (Z * option error) :=
  outOrZero 0%Z "openpit_param_position_size_compare failed" (openpit_param_compare KPositionSize lhs rhs).
Definition ParamPositionSizeToString (value : ParamPositionSize) : N (string * option error) :=
  outString "openpit_param_position_size_to_string failed" (openpit_param_to_string KPositionSize value).
Definition ParamPositionSizeCheckedAdd (lhs : ParamPositionSize) (rhs : ParamPositionSize) : N (ParamPositionSize * option error) :=
  outParam "openpit_param_position_size_checked_add failed" (openpit_param_checked_add KPositionSize lhs rhs).
Definition ParamPositionSizeCheckedSub (lhs : ParamPositionSize) (rhs : ParamPositionSize) : N (ParamPositionSize * option error) :=
  outParam "openpit_param_position_size_checked_sub failed" (openpit_param_checked_sub KPositionSize lhs rhs).
Definition ParamPositionSizeCheckedNeg (value : ParamPositionSize) : N (ParamPositionSize * option error) :=
  outParam "openpit_param_position_size_checked_neg failed" (openpit_param_checked_neg KPositionSize value).
Definition ParamPositionSizeCheckedMulI64 (value : ParamPositionSize) (scalar : Z) : N (ParamPositionSize * option error) :=
  outParam "openpit_param_position_size_checked_mul_i64 failed" (openpit_param_checked_mul_i64 KPositionSize value scalar).
Definition ParamPositionSizeCheckedMulU64 (value : ParamPositionSize) (scalar : Z) : N (ParamPositionSize * option error) :=
  outParam "openpit_param_position_size_checked_mul_u64 failed" (openpit_param_checked_mul_u64 KPositionSize value scalar).
Definition ParamPositionSizeCheckedMulF64 (value : ParamPositionSize) (scalar : F64) : N (ParamPositionSize * option error) :=
  outParam "openpit_param_position_size_checked_mul_f64 failed" (openpit_param_checked_mul_f64 KPositionSize value scalar).
Definition ParamPositionSizeCheckedDivI64 (value : ParamPositionSize) (divisor : Z) : N (ParamPositionSize * option error) :=
  outParam "openpit_param_position_size_checked_div_i64 failed" (openpit_param_checked_div_i64 KPositionSize value divisor).
Definition ParamPositionSizeCheckedDivU64 (value : ParamPositionSize) (divisor : Z) : N (ParamPositionSize * option error) :=
  outParam "openpit_param_position_size_checked_div_u64 failed" (openpit_param_checked_div_u64 KPositionSize value divisor).
Definition ParamPositionSizeCheckedDivF64 (value : ParamPositionSize) (divisor : F64) : N (ParamPositionSize * option error) :=
  outParam "openpit_param_position_size_checked_div_f64 failed" (openpit_param_checked_div_f64 KPositionSize value divisor).
Definition ParamPositionSizeCheckedRemI64 (value : ParamPositionSize) (divisor : Z) : N (ParamPositionSize * option error) :=
  outParam "openpit_param_position_size_checked_rem_i64 failed" (openpit_param_checked_rem_i64 KPositionSize value divisor).
Definition ParamPositionSizeCheckedRemU64 (value : ParamPositionSize) (divisor : Z) : N (ParamPositionSize * option error) :=
  outParam "openpit_param_position_size_checked_rem_u64 failed" (openpit_param_checked_rem_u64 KPositionSize value divisor).
Definition ParamPositionSizeCheckedRemF64 (value : ParamPositionSize) (divisor : F64) : N (ParamPositionSize * option error) :=
  outParam "openpit_param_position_size_checked_rem_f64 failed" (openpit_param_checked_rem_f64 KPositionSize value divisor).
Definition ParamPositionSizeFromPnl (value : ParamPnl) : N (ParamPositionSize * option error) :=
  outParam "openpit_param_position_size_from_pnl failed" (openpit_param_position_size_from_pnl value).
Definition ParamPositionSizeFromFee (value : ParamFee) : N (ParamPositionSize * option error) :=
  outParam "openpit_param_position_size_from_fee failed" (openpit_param_position_size_from_fee value).
Definition ParamPositionSizeFromQuantityAndSide (quantity : ParamQuantity) (side : ParamSide) : N (ParamPositionSize * option error) :=
  outParam "openpit_param_position_size_from_quantity_and_side failed" (openpit_param_position_size_from_quantity_and_side quantity side).
Definition ParamPositionSizeToOpenQuantity (value : ParamPositionSize) : N ((ParamQuantity * ParamSide) * option error) :=
  outParam "openpit_param_position_size_to_open_quantity failed" (openpit_param_position_size_to_open_quantity value).
Definition ParamPositionSizeToCloseQuantity (value : ParamPositionSize) : N ((ParamQuantity * ParamSide) * option error) :=
  outParam "openpit_param_position_size_to_close_quantity failed" (openpit_param_position_size_to_close_quantity value).
Definition ParamPositionSizeCheckedAddQuantity (value : ParamPositionSize) (quantity : ParamQuantity) (side : ParamSide) : N (ParamPositionSize * option error) :=
  outParam "openpit_param_position_size_checked_add_quantity failed" (openpit_param_position_size_checked_add_quantity value quantity side).

(** ** Fee *)

Definition CreateParamFee (value : ParamDecimal) : N (ParamFee * option error) :=
  outParam "openpit_create_param_fee failed" (openpit_create_param KFee value).
Definition CreateParamFeeFromString (v : string) : N (ParamFee * option error) :=
  outParam "openpit_create_param_fee_from_string failed" (openpit_create_param_from_string KFee v).
Definition CreateParamFeeFromF64 (v : F64) : N (ParamFee * option error) :=
  outParam "openpit_create_param_fee_from_f64 failed" (openpit_create_param_from_f64 KFee v).
Definition CreateParamFeeFromInt64 (v : Z) : N (ParamFee * option error) :=
  outParam "openpit_create_param_fee_from_int64 failed" (openpit_create_param_from_int64 KFee v).
Definition CreateParamFeeFromUint64 (v : Z) : N (ParamFee * option error) :=
  outParam "openpit_create_param_fee_from_uint64 failed" (openpit_create_param_from_uint64 KFee v).
Definition CreateParamFeeFromStringRounded (v : string) (scale : Z) (strategy : ParamRoundingStrategy) : N (ParamFee * option error) :=
  outParam "openpit_create_param_fee_from_string_rounded failed" (openpit_create_param_from_string_rounded KFee v scale strategy).
Definition CreateParamFeeFromF64Rounded (v : F64) (scale : Z) (strategy : ParamRoundingStrategy) : N (ParamFee * option error) :=
  outParam "openpit_create_param_fee_from_f64_rounded failed" (openpit_create_param_from_f64_rounded KFee v scale strategy).
Definition CreateParamFeeFromDecimalRounded (v : ParamDecimal) (scale : Z) (strategy : ParamRoundingStrategy) : N (ParamFee * option error) :=
  outParam "openpit_create_param_fee_from_decimal_rounded failed" (openpit_create_param_from_decimal_rounded KFee v scale strategy).
Definition ParamFeeToF64 (value : ParamFee) : N (F64 * option error) :=
  outOrZero f64_zero "openpit_param_fee_to_f64 failed" (openpit_param_to_f64 KFee value).
Definition ParamFeeIsZero (value : ParamFee) : N (bool * option error) :=
  outOrZero false "openpit_param_fee_is_zero failed" (openpit_param_is_zero KFee value).
Definition ParamFeeCompare (lhs : ParamFee) (rhs : ParamFee) : N (Z * option error) :=
  outOrZero 0%Z "openpit_param_fee_compare failed" (openpit_param_compare KFee lhs rhs).
Definition ParamFeeToString (value : ParamFee) : N (string * option error) :=
  outString "openpit_param_fee_to_string failed" (openpit_param_to_string KFee value).
Definition ParamFeeCheckedAdd (lhs : ParamFee) (rhs : ParamFee) : N (ParamFee * option error) :=
  outParam "openpit_param_fee_checked_add failed" (openpit_param_checked_add KFee lhs rhs).
Definition ParamFeeCheckedSub (lhs : ParamFee) (rhs : ParamFee) : N (ParamFee * option error) :=
  outParam "openpit_param_fee_checked_sub failed" (openpit_param_checked_sub KFee lhs rhs).
Definition ParamFeeCheckedNeg (value : ParamFee) : N (ParamFee * option error) :=
  outParam "openpit_param_fee_checked_neg failed" (openpit_param_checked_neg KFee value).
Definition ParamFeeCheckedMulI64 (value : ParamFee) (scalar : Z) : N (ParamFee * option error) :=
  outParam "openpit_param_fee_checked_mul_i64 failed" (openpit_param_checked_mul_i64 KFee value scalar).
Definition ParamFeeCheckedMulU64 (value : ParamFee) (scalar : Z) : N (ParamFee * option error) :=
  outParam "openpit_param_fee_checked_mul_u64 failed" (openpit_param_checked_mul_u64 KFee value scalar).
Definition ParamFeeCheckedMulF64 (value : ParamFee) (scalar : F64) : N (ParamFee * option error) :=
  outParam "openpit_param_fee_checked_mul_f64 failed" (openpit_param_checked_mul_f64 KFee value scalar).
Definition ParamFeeCheckedDivI64 (value : ParamFee) (divisor : Z) : N (ParamFee * option error) :=
  outParam "openpit_param_fee_checked_div_i64 failed" (openpit_param_checked_div_i64 KFee value divisor).
Definition ParamFeeCheckedDivU64 (value : ParamFee) (divisor : Z) : N (ParamFee * option error) :=
  outParam "openpit_param_fee_checked_div_u64 failed" (openpit_param_checked_div_u64 KFee value divisor).
Definition ParamFeeCheckedDivF64 (value : ParamFee) (divisor : F64) : N (ParamFee * option error) :=
  outParam "openpit_param_fee_checked_div_f64 failed" (openpit_param_checked_div_f64 KFee value divisor).
Definition ParamFeeCheckedRemI64 (value : ParamFee) (divisor : Z) : N (ParamFee * option error) :=
  outParam "openpit_param_fee_checked_rem_i64 failed" (openpit_param_checked_rem_i64 KFee value divisor).
Definition ParamFeeCheckedRemU64 (value : ParamFee) (divisor : Z) : N (ParamFee * option error) :=
  outParam "openpit_param_fee_checked_rem_u64 failed" (openpit_param_checked_rem_u64 KFee value divisor).
Definition ParamFeeCheckedRemF64 (value : ParamFee) (divisor : F64) : N (ParamFee * option error) :=
  outParam "openpit_param_fee_checked_rem_f64 failed" (openpit_param_checked_rem_f64 KFee value divisor).
Definition ParamFeeToPnl (value : ParamFee) : N (ParamPnl * option error) :=
  outParam "openpit_param_fee_to_pnl failed" (openpit_param_fee_to_pnl value).
Definition ParamFeeToPositionSize (value : ParamFee) : N (ParamPositionSize * option error) :=
  outParam "openpit_param_fee_to_position_size failed" (openpit_param_fee_to_position_size value).
Definition ParamFeeToCashFlow (value : ParamFee) : N (ParamCashFlow * option error) :=
  outParam "openpit_param_fee_to_cash_flow failed" (openpit_param_fee_to_cash_flow value).

(** ** Reading the record *)

Definition ParamPnlGetDecimal (value : ParamPnl) : ParamDecimal := value.
Definition ParamPriceGetDecimal (value : ParamPrice) : ParamDecimal := value.
Definition ParamQuantityGetDecimal (value : ParamQuantity) : ParamDecimal := value.
Definition ParamVolumeGetDecimal (value : ParamVolume) : ParamDecimal := value.
Definition ParamCashFlowGetDecimal (value : ParamCashFlow) : ParamDecimal := value.
Definition ParamPositionSizeGetDecimal (value : ParamPositionSize) : ParamDecimal := value.
Definition ParamFeeGetDecimal (value : ParamFee) : ParamDecimal := value.
Definition ParamNotionalGetDecimal (value : ParamNotional) : ParamDecimal := openpit_param_notional_get_decimal value.
Definition ParamVolumeOptionalIsSet (value : ParamVolumeOptional) : bool := c_is_set value.
Definition ParamVolumeOptionalGet (value : ParamVolumeOptional) : ParamVolume := c_value value.
Definition ParamCashFlowOptionalIsSet (value : ParamCashFlowOptional) : bool := c_is_set value.
Definition ParamCashFlowOptionalGet (value : ParamCashFlowOptional) : ParamCashFlow := c_value value.
Definition ParamNotionalOptionalIsSet (value : ParamNotionalOptional) : bool := c_is_set value.
Definition ParamNotionalOptionalGet (value : ParamNotionalOptional) : ParamNotional := c_value value.
End Wrappers.
