(* ===== verification/NumericTypes.v ===== *)
(** * The numeric types

    param/pnl.go, price.go, quantity.go, volume.go, cash_flow.go, position_size.go, fee.go
    and notional.go: one Module per type, one definition per function or method. A value
    is the native record it wraps. [sync.OnceValue] of the zero constructors is left out:
    it only saves the second evaluation. *)
From Stdlib Require Import ZArith Lia.
From stdpp Require Import base list gmap strings.
From S2P Require Import Prelude GoRuntime GoPtr NativeMem ParamValues Decimals NativeErrors NativeParam.

Definition Volume := ParamVolume.
Definition CashFlow := ParamCashFlow.
Definition Notional := ParamNotional.
Definition RoundingStrategy := ParamRoundingStrategy.
Definition RoundingStrategyNative (r : RoundingStrategy) : ParamRoundingStrategy := r.
Definition VolumeHandle (v : Volume) : ParamVolume := v.
Definition NewVolumeFromHandle (v : ParamVolume) : Volume := v.
Definition NewVolumeOptionFromHandle (v : ParamVolumeOptional) : option Volume :=
  if negb (ParamVolumeOptionalIsSet v) then None else Some (NewVolumeFromHandle (ParamVolumeOptionalGet v)).
Definition CashFlowHandle (v : CashFlow) : ParamCashFlow := v.
Definition NewCashFlowFromHandle (v : ParamCashFlow) : CashFlow := v.
Definition NewCashFlowOptionFromHandle (v : ParamCashFlowOptional) : option CashFlow :=
  if negb (ParamCashFlowOptionalIsSet v) then None else Some (NewCashFlowFromHandle (ParamCashFlowOptionalGet v)).
Definition NotionalHandle (v : Notional) : ParamNotional := v.
Definition NewNotionalFromHandle (v : ParamNotional) : Notional := v.
Definition NewNotionalOptionFromHandle (v : ParamNotionalOptional) : option Notional :=
  if negb (ParamNotionalOptionalIsSet v) then None else Some (NewNotionalFromHandle (ParamNotionalOptionalGet v)).

(** The zero value of every type. *)
Abbreviation zeroValue := zeroDecimal.

(** A native value is wrapped, an error comes with the zero value. *)
Definition checked {A} (wrap : A -> ParamDecimal) (m : N (A * option error)) : N (ParamDecimal * option error) :=
  let* (nativeValue, err) := m in
  match err with
  | Some err => ret (zeroValue, Some err)
  | None => ret (wrap nativeValue, None)
  end.
Definition newParamValueOrPanic {T} (m : N (T * option error)) : N T :=
  let* (value, err) := m in
  match err with
  | Some err => panic (PanicError err)
  | None => ret value
  end.

Module Pnls.
Section Type_.
Context {F64 : Type} {NP : NativeParam F64} {DL : DecimalLibrary}.

Definition NewPnlFromDecimal (v : Decimal) : N (Pnl * option error) :=
  match NewNativeDecimalFromDecimal v with
  | inr err => ret (zeroValue, Some err)
  | inl nativeDecimal => checked NewPnlFromHandle (CreateParamPnl nativeDecimal)
  end.
Definition NewPnlFromString (v : string) : N (Pnl * option error) := checked NewPnlFromHandle (CreateParamPnlFromString v).
Definition NewPnlFromInt64 (v : Z) : N (Pnl * option error) := checked NewPnlFromHandle (CreateParamPnlFromInt64 v).
Definition NewPnlFromUint64 (v : Z) : N (Pnl * option error) := checked NewPnlFromHandle (CreateParamPnlFromUint64 v).
Definition NewPnlFromFloat (v : F64) : N (Pnl * option error) := checked NewPnlFromHandle (CreateParamPnlFromF64 v).
Definition NewPnlFromStringRounded (v : string) (scale : Z) (strategy : RoundingStrategy) : N (Pnl * option error) :=
  checked NewPnlFromHandle (CreateParamPnlFromStringRounded v scale (RoundingStrategyNative strategy)).
Definition NewPnlFromFloatRounded (v : F64) (scale : Z) (strategy : RoundingStrategy) : N (Pnl * option error) :=
  checked NewPnlFromHandle (CreateParamPnlFromF64Rounded v scale (RoundingStrategyNative strategy)).
Definition NewPnlFromDecimalRounded (v : Decimal) (scale : Z) (strategy : RoundingStrategy) : N (Pnl * option error) :=
  match NewNativeDecimalFromDecimal v with
  | inr err => ret (zeroValue, Some err)
  | inl nativeDecimal =>
    checked NewPnlFromHandle (CreateParamPnlFromDecimalRounded nativeDecimal scale (RoundingStrategyNative strategy))
  end.
Definition newPnlOrPanic (m : N (Pnl * option error)) : N Pnl := newParamValueOrPanic m.
Definition NewPnlZero : N Pnl := newPnlOrPanic (NewPnlFromInt64 0).

Definition Decimal_ (v : Pnl) : Decimal := newDecimalFromHandle (ParamPnlGetDecimal (PnlHandle v)).
Definition Float (v : Pnl) : N F64 := newParamValueOrPanic (ParamPnlToF64 (PnlHandle v)).
Definition String_ (v : Pnl) : N string := newParamValueOrPanic (ParamPnlToString (PnlHandle v)).
Definition IsZero (v : Pnl) : N bool := newParamValueOrPanic (ParamPnlIsZero (PnlHandle v)).
Definition Equal (v other : Pnl) : N bool :=
  let* c := newParamValueOrPanic (ParamPnlCompare (PnlHandle v) (PnlHandle other)) in ret (c =? 0)%Z.
Definition Compare (v other : Pnl) : N Z := newParamValueOrPanic (ParamPnlCompare (PnlHandle v) (PnlHandle other)).

Definition CheckedAdd (v other : Pnl) : N (Pnl * option error) :=
  checked NewPnlFromHandle (ParamPnlCheckedAdd (PnlHandle v) (PnlHandle other)).
Definition CheckedSub (v other : Pnl) : N (Pnl * option error) :=
  checked NewPnlFromHandle (ParamPnlCheckedSub (PnlHandle v) (PnlHandle other)).
Definition CheckedNeg (v : Pnl) : N (Pnl * option error) := checked NewPnlFromHandle (ParamPnlCheckedNeg (PnlHandle v)).
Definition CheckedMulInt (v : Pnl) (scalar : Z) : N (Pnl * option error) :=
  checked NewPnlFromHandle (ParamPnlCheckedMulI64 (PnlHandle v) scalar).
Definition CheckedMulUint (v : Pnl) (scalar : Z) : N (Pnl * option error) :=
  checked NewPnlFromHandle (ParamPnlCheckedMulU64 (PnlHandle v) scalar).
Definition CheckedMulFloat (v : Pnl) (scalar : F64) : N (Pnl * option error) :=
  checked NewPnlFromHandle (ParamPnlCheckedMulF64 (PnlHandle v) scalar).
Definition CheckedDivInt (v : Pnl) (divisor : Z) : N (Pnl * option error) :=
  checked NewPnlFromHandle (ParamPnlCheckedDivI64 (PnlHandle v) divisor).
Definition CheckedDivUint (v : Pnl) (divisor : Z) : N (Pnl * option error) :=
  checked NewPnlFromHandle (ParamPnlCheckedDivU64 (PnlHandle v) divisor).
Definition CheckedDivFloat (v : Pnl) (divisor : F64) : N (Pnl * option error) :=
  checked NewPnlFromHandle (ParamPnlCheckedDivF64 (PnlHandle v) divisor).
Definition CheckedRemInt (v : Pnl) (divisor : Z) : N (Pnl * option error) :=
  checked NewPnlFromHandle (ParamPnlCheckedRemI64 (PnlHandle v) divisor).
Definition CheckedRemUint (v : Pnl) (divisor : Z) : N (Pnl * option error) :=
  checked NewPnlFromHandle (ParamPnlCheckedRemU64 (PnlHandle v) divisor).
Definition CheckedRemFloat (v : Pnl) (divisor : F64) : N (Pnl * option error) :=
  checked NewPnlFromHandle (ParamPnlCheckedRemF64 (PnlHandle v) divisor).
Definition NewPnlFromFee (fee : Fee) : N (Pnl * option error) :=
  checked NewPnlFromHandle (ParamPnlFromFee (FeeHandle fee)).
Definition CashFlow_ (v : Pnl) : N (CashFlow * option error) :=
  checked NewCashFlowFromHandle (ParamPnlToCashFlow (PnlHandle v)).
Definition PositionSize_ (v : Pnl) : N (PositionSize * option error) :=
  checked NewPositionSizeFromHandle (ParamPnlToPositionSize (PnlHandle v)).
End Type_.
End Pnls.

Module Prices.
Section Type_.
Context {F64 : Type} {NP : NativeParam F64} {DL : DecimalLibrary}.

Definition NewPriceFromDecimal (v : Decimal) : N (Price * option error) :=
  match NewNativeDecimalFromDecimal v with
  | inr err => ret (zeroValue, Some err)
  | inl nativeDecimal => checked NewPriceFromHandle (CreateParamPrice nativeDecimal)
  end.
Definition NewPriceFromString (v : string) : N (Price * option error) := checked NewPriceFromHandle (CreateParamPriceFromString v).
Definition NewPriceFromInt64 (v : Z) : N (Price * option error) := checked NewPriceFromHandle (CreateParamPriceFromInt64 v).
Definition NewPriceFromUint64 (v : Z) : N (Price * option error) := checked NewPriceFromHandle (CreateParamPriceFromUint64 v).
Definition NewPriceFromFloat (v : F64) : N (Price * option error) := checked NewPriceFromHandle (CreateParamPriceFromF64 v).
Definition NewPriceFromStringRounded (v : string) (scale : Z) (strategy : RoundingStrategy) : N (Price * option error) :=
  checked NewPriceFromHandle (CreateParamPriceFromStringRounded v scale (RoundingStrategyNative strategy)).
Definition NewPriceFromFloatRounded (v : F64) (scale : Z) (strategy : RoundingStrategy) : N (Price * option error) :=
  checked NewPriceFromHandle (CreateParamPriceFromF64Rounded v scale (RoundingStrategyNative strategy)).
Definition NewPriceFromDecimalRounded (v : Decimal) (scale : Z) (strategy : RoundingStrategy) : N (Price * option error) :=
  match NewNativeDecimalFromDecimal v with
  | inr err => ret (zeroValue, Some err)
  | inl nativeDecimal =>
    checked NewPriceFromHandle (CreateParamPriceFromDecimalRounded nativeDecimal scale (RoundingStrategyNative strategy))
  end.
Definition newPriceOrPanic (m : N (Price * option error)) : N Price := newParamValueOrPanic m.
Definition NewPriceZero : N Price := newPriceOrPanic (NewPriceFromInt64 0).

Definition Decimal_ (v : Price) : Decimal := newDecimalFromHandle (ParamPriceGetDecimal (PriceHandle v)).
Definition Float (v : Price) : N F64 := newParamValueOrPanic (ParamPriceToF64 (PriceHandle v)).
Definition String_ (v : Price) : N string := newParamValueOrPanic (ParamPriceToString (PriceHandle v)).
Definition IsZero (v : Price) : N bool := newParamValueOrPanic (ParamPriceIsZero (PriceHandle v)).
Definition Equal (v other : Price) : N bool :=
  let* c := newParamValueOrPanic (ParamPriceCompare (PriceHandle v) (PriceHandle other)) in ret (c =? 0)%Z.
Definition Compare (v other : Price) : N Z := newParamValueOrPanic (ParamPriceCompare (PriceHandle v) (PriceHandle other)).

Definition CheckedAdd (v other : Price) : N (Price * option error) :=
  checked NewPriceFromHandle (ParamPriceCheckedAdd (PriceHandle v) (PriceHandle other)).
Definition CheckedSub (v other : Price) : N (Price * option error) :=
  checked NewPriceFromHandle (ParamPriceCheckedSub (PriceHandle v) (PriceHandle other)).
Definition CheckedNeg (v : Price) : N (Price * option error) := checked NewPriceFromHandle (ParamPriceCheckedNeg (PriceHandle v)).
Definition CheckedMulInt (v : Price) (scalar : Z) : N (Price * option error) :=
  checked NewPriceFromHandle (ParamPriceCheckedMulI64 (PriceHandle v) scalar).
Definition CheckedMulUint (v : Price) (scalar : Z) : N (Price * option error) :=
  checked NewPriceFromHandle (ParamPriceCheckedMulU64 (PriceHandle v) scalar).
Definition CheckedMulFloat (v : Price) (scalar : F64) : N (Price * option error) :=
  checked NewPriceFromHandle (ParamPriceCheckedMulF64 (PriceHandle v) scalar).
Definition CheckedDivInt (v : Price) (divisor : Z) : N (Price * option error) :=
  checked NewPriceFromHandle (ParamPriceCheckedDivI64 (PriceHandle v) divisor).
Definition CheckedDivUint (v : Price) (divisor : Z) : N (Price * option error) :=
  checked NewPriceFromHandle (ParamPriceCheckedDivU64 (PriceHandle v) divisor).
Definition CheckedDivFloat (v : Price) (divisor : F64) : N (Price * option error) :=
  checked NewPriceFromHandle (ParamPriceCheckedDivF64 (PriceHandle v) divisor).
Definition CheckedRemInt (v : Price) (divisor : Z) : N (Price * option error) :=
  checked NewPriceFromHandle (ParamPriceCheckedRemI64 (PriceHandle v) divisor).
Definition CheckedRemUint (v : Price) (divisor : Z) : N (Price * option error) :=
  checked NewPriceFromHandle (ParamPriceCheckedRemU64 (PriceHandle v) divisor).
Definition CheckedRemFloat (v : Price) (divisor : F64) : N (Price * option error) :=
  checked NewPriceFromHandle (ParamPriceCheckedRemF64 (PriceHandle v) divisor).
Definition CalculateVolume (v : Price) (quantity : Quantity) : N (Volume * option error) :=
  checked NewVolumeFromHandle (ParamPriceCalculateVolume (PriceHandle v) (QuantityHandle quantity)).
Definition CalculatePositionSize (v : Price) (quantity : Quantity) : N (PositionSize * option error) :=
  checked NewPositionSizeFromHandle (ParamPriceCalculatePositionSize (PriceHandle v) (QuantityHandle quantity)).
End Type_.
End Prices.

Module Quantities.
Section Type_.
Context {F64 : Type} {NP : NativeParam F64} {DL : DecimalLibrary}.

Definition NewQuantityFromDecimal (v : Decimal) : N (Quantity * option error) :=
  match NewNativeDecimalFromDecimal v with
  | inr err => ret (zeroValue, Some err)
  | inl nativeDecimal => checked NewQuantityFromHandle (CreateParamQuantity nativeDecimal)
  end.
Definition NewQuantityFromString (v : string) : N (Quantity * option error) := checked NewQuantityFromHandle (CreateParamQuantityFromString v).
Definition NewQuantityFromInt64 (v : Z) : N (Quantity * option error) := checked NewQuantityFromHandle (CreateParamQuantityFromInt64 v).
Definition NewQuantityFromUint64 (v : Z) : N (Quantity * option error) := checked NewQuantityFromHandle (CreateParamQuantityFromUint64 v).
Definition NewQuantityFromFloat (v : F64) : N (Quantity * option error) := checked NewQuantityFromHandle (CreateParamQuantityFromF64 v).
Definition NewQuantityFromStringRounded (v : string) (scale : Z) (strategy : RoundingStrategy) : N (Quantity * option error) :=
  checked NewQuantityFromHandle (CreateParamQuantityFromStringRounded v scale (RoundingStrategyNative strategy)).
Definition NewQuantityFromFloatRounded (v : F64) (scale : Z) (strategy : RoundingStrategy) : N (Quantity * option error) :=
  checked NewQuantityFromHandle (CreateParamQuantityFromF64Rounded v scale (RoundingStrategyNative strategy)).
Definition NewQuantityFromDecimalRounded (v : Decimal) (scale : Z) (strategy : RoundingStrategy) : N (Quantity * option error) :=
  match NewNativeDecimalFromDecimal v with
  | inr err => ret (zeroValue, Some err)
  | inl nativeDecimal =>
    checked NewQuantityFromHandle (CreateParamQuantityFromDecimalRounded nativeDecimal scale (RoundingStrategyNative strategy))
  end.
Definition newQuantityOrPanic (m : N (Quantity * option error)) : N Quantity := newParamValueOrPanic m.
Definition NewQuantityZero : N Quantity := newQuantityOrPanic (NewQuantityFromInt64 0).

Definition Decimal_ (v : Quantity) : Decimal := newDecimalFromHandle (ParamQuantityGetDecimal (QuantityHandle v)).
Definition Float (v : Quantity) : N F64 := newParamValueOrPanic (ParamQuantityToF64 (QuantityHandle v)).
Definition String_ (v : Quantity) : N string := newParamValueOrPanic (ParamQuantityToString (QuantityHandle v)).
Definition IsZero (v : Quantity) : N bool := newParamValueOrPanic (ParamQuantityIsZero (QuantityHandle v)).
Definition Equal (v other : Quantity) : N bool :=
  let* c := newParamValueOrPanic (ParamQuantityCompare (QuantityHandle v) (QuantityHandle other)) in ret (c =? 0)%Z.
Definition Compare (v other : Quantity) : N Z := newParamValueOrPanic (ParamQuantityCompare (QuantityHandle v) (QuantityHandle other)).

Definition CheckedAdd (v other : Quantity) : N (Quantity * option error) :=
  checked NewQuantityFromHandle (ParamQuantityCheckedAdd (QuantityHandle v) (QuantityHandle other)).
Definition CheckedSub (v other : Quantity) : N (Quantity * option error) :=
  checked NewQuantityFromHandle (ParamQuantityCheckedSub (QuantityHandle v) (QuantityHandle other)).
Definition CheckedMulInt (v : Quantity) (scalar : Z) : N (Quantity * option error) :=
  checked NewQuantityFromHandle (ParamQuantityCheckedMulI64 (QuantityHandle v) scalar).
Definition CheckedMulUint (v : Quantity) (scalar : Z) : N (Quantity * option error) :=
  checked NewQuantityFromHandle (ParamQuantityCheckedMulU64 (QuantityHandle v) scalar).
Definition CheckedMulFloat (v : Quantity) (scalar : F64) : N (Quantity * option error) :=
  checked NewQuantityFromHandle (ParamQuantityCheckedMulF64 (QuantityHandle v) scalar).
Definition CheckedDivInt (v : Quantity) (divisor : Z) : N (Quantity * option error) :=
  checked NewQuantityFromHandle (ParamQuantityCheckedDivI64 (QuantityHandle v) divisor).
Definition CheckedDivUint (v : Quantity) (divisor : Z) : N (Quantity * option error) :=
  checked NewQuantityFromHandle (ParamQuantityCheckedDivU64 (QuantityHandle v) divisor).
Definition CheckedDivFloat (v : Quantity) (divisor : F64) : N (Quantity * option error) :=
  checked NewQuantityFromHandle (ParamQuantityCheckedDivF64 (QuantityHandle v) divisor).
Definition CheckedRemInt (v : Quantity) (divisor : Z) : N (Quantity * option error) :=
  checked NewQuantityFromHandle (ParamQuantityCheckedRemI64 (QuantityHandle v) divisor).
Definition CheckedRemUint (v : Quantity) (divisor : Z) : N (Quantity * option error) :=
  checked NewQuantityFromHandle (ParamQuantityCheckedRemU64 (QuantityHandle v) divisor).
Definition CheckedRemFloat (v : Quantity) (divisor : F64) : N (Quantity * option error) :=
  checked NewQuantityFromHandle (ParamQuantityCheckedRemF64 (QuantityHandle v) divisor).
Definition CalculateVolume (v : Quantity) (price : Price) : N (Volume * option error) :=
  checked NewVolumeFromHandle (ParamQuantityCalculateVolume (QuantityHandle v) (PriceHandle price)).
Definition ToPositionSize (v : Quantity) : N PositionSize :=
  let* p := newParamValueOrPanic (ParamQuantityToPositionSize (QuantityHandle v)) in ret (NewPositionSizeFromHandle p).
End Type_.
End Quantities.

Module Volumes.
Section Type_.
Context {F64 : Type} {NP : NativeParam F64} {DL : DecimalLibrary}.

Definition NewVolumeFromDecimal (v : Decimal) : N (Volume * option error) :=
  match NewNativeDecimalFromDecimal v with
  | inr err => ret (zeroValue, Some err)
  | inl nativeDecimal => checked NewVolumeFromHandle (CreateParamVolume nativeDecimal)
  end.
Definition NewVolumeFromString (v : string) : N (Volume * option error) := checked NewVolumeFromHandle (CreateParamVolumeFromString v).
Definition NewVolumeFromInt64 (v : Z) : N (Volume * option error) := checked NewVolumeFromHandle (CreateParamVolumeFromInt64 v).
Definition NewVolumeFromUint64 (v : Z) : N (Volume * option error) := checked NewVolumeFromHandle (CreateParamVolumeFromUint64 v).
Definition NewVolumeFromFloat (v : F64) : N (Volume * option error) := checked NewVolumeFromHandle (CreateParamVolumeFromF64 v).
Definition NewVolumeFromStringRounded (v : string) (scale : Z) (strategy : RoundingStrategy) : N (Volume * option error) :=
  checked NewVolumeFromHandle (CreateParamVolumeFromStringRounded v scale (RoundingStrategyNative strategy)).
Definition NewVolumeFromFloatRounded (v : F64) (scale : Z) (strategy : RoundingStrategy) : N (Volume * option error) :=
  checked NewVolumeFromHandle (CreateParamVolumeFromF64Rounded v scale (RoundingStrategyNative strategy)).
Definition NewVolumeFromDecimalRounded (v : Decimal) (scale : Z) (strategy : RoundingStrategy) : N (Volume * option error) :=
  match NewNativeDecimalFromDecimal v with
  | inr err => ret (zeroValue, Some err)
  | inl nativeDecimal =>
    checked NewVolumeFromHandle (CreateParamVolumeFromDecimalRounded nativeDecimal scale (RoundingStrategyNative strategy))
  end.
Definition newVolumeOrPanic (m : N (Volume * option error)) : N Volume := newParamValueOrPanic m.
Definition NewVolumeZero : N Volume := newVolumeOrPanic (NewVolumeFromInt64 0).

Definition Decimal_ (v : Volume) : Decimal := newDecimalFromHandle (ParamVolumeGetDecimal (VolumeHandle v)).
Definition Float (v : Volume) : N F64 := newParamValueOrPanic (ParamVolumeToF64 (VolumeHandle v)).
Definition String_ (v : Volume) : N string := newParamValueOrPanic (ParamVolumeToString (VolumeHandle v)).
Definition IsZero (v : Volume) : N bool := newParamValueOrPanic (ParamVolumeIsZero (VolumeHandle v)).
Definition Equal (v other : Volume) : N bool :=
  let* c := newParamValueOrPanic (ParamVolumeCompare (VolumeHandle v) (VolumeHandle other)) in ret (c =? 0)%Z.
Definition Compare (v other : Volume) : N Z := newParamValueOrPanic (ParamVolumeCompare (VolumeHandle v) (VolumeHandle other)).

Definition CheckedAdd (v other : Volume) : N (Volume * option error) :=
  checked NewVolumeFromHandle (ParamVolumeCheckedAdd (VolumeHandle v) (VolumeHandle other)).
Definition CheckedSub (v other : Volume) : N (Volume * option error) :=
  checked NewVolumeFromHandle (ParamVolumeCheckedSub (VolumeHandle v) (VolumeHandle other)).
Definition CheckedMulInt (v : Volume) (scalar : Z) : N (Volume * option error) :=
  checked NewVolumeFromHandle (ParamVolumeCheckedMulI64 (VolumeHandle v) scalar).
Definition CheckedMulUint (v : Volume) (scalar : Z) : N (Volume * option error) :=
  checked NewVolumeFromHandle (ParamVolumeCheckedMulU64 (VolumeHandle v) scalar).
Definition CheckedMulFloat (v : Volume) (scalar : F64) : N (Volume * option error) :=
  checked NewVolumeFromHandle (ParamVolumeCheckedMulF64 (VolumeHandle v) scalar).
Definition CheckedDivInt (v : Volume) (divisor : Z) : N (Volume * option error) :=
  checked NewVolumeFromHandle (ParamVolumeCheckedDivI64 (VolumeHandle v) divisor).
Definition CheckedDivUint (v : Volume) (divisor : Z) : N (Volume * option error) :=
  checked NewVolumeFromHandle (ParamVolumeCheckedDivU64 (VolumeHandle v) divisor).
Definition CheckedDivFloat (v : Volume) (divisor : F64) : N (Volume * option error) :=
  checked NewVolumeFromHandle (ParamVolumeCheckedDivF64 (VolumeHandle v) divisor).
Definition CheckedRemInt (v : Volume) (divisor : Z) : N (Volume * option error) :=
  checked NewVolumeFromHandle (ParamVolumeCheckedRemI64 (VolumeHandle v) divisor).
Definition CheckedRemUint (v : Volume) (divisor : Z) : N (Volume * option error) :=
  checked NewVolumeFromHandle (ParamVolumeCheckedRemU64 (VolumeHandle v) divisor).
Definition CheckedRemFloat (v : Volume) (divisor : F64) : N (Volume * option error) :=
  checked NewVolumeFromHandle (ParamVolumeCheckedRemF64 (VolumeHandle v) divisor).
Definition ToPositionSize (v : Volume) : N PositionSize :=
  let* p := newParamValueOrPanic (ParamVolumeToPositionSize (VolumeHandle v)) in ret (NewPositionSizeFromHandle p).
Definition CashFlowInflow (v : Volume) : N CashFlow :=
  let* p := newParamValueOrPanic (ParamVolumeToCashFlowInflow (VolumeHandle v)) in ret (NewCashFlowFromHandle p).
Definition CashFlowOutflow (v : Volume) : N CashFlow :=
  let* p := newParamValueOrPanic (ParamVolumeToCashFlowOutflow (VolumeHandle v)) in ret (NewCashFlowFromHandle p).
Definition CalculateQuantity (v : Volume) (price : Price) : N (Quantity * option error) :=
  checked NewQuantityFromHandle (ParamVolumeCalculateQuantity (VolumeHandle v) (PriceHandle price)).
End Type_.
End Volumes.

Module CashFlows.
Section Type_.
Context {F64 : Type} {NP : NativeParam F64} {DL : DecimalLibrary}.

Definition NewCashFlowFromDecimal (v : Decimal) : N (CashFlow * option error) :=
  match NewNativeDecimalFromDecimal v with
  | inr err => ret (zeroValue, Some err)
  | inl nativeDecimal => checked NewCashFlowFromHandle (CreateParamCashFlow nativeDecimal)
  end.
Definition NewCashFlowFromString (v : string) : N (CashFlow * option error) := checked NewCashFlowFromHandle (CreateParamCashFlowFromString v).
Definition NewCashFlowFromInt64 (v : Z) : N (CashFlow * option error) := checked NewCashFlowFromHandle (CreateParamCashFlowFromInt64 v).
Definition NewCashFlowFromUint64 (v : Z) : N (CashFlow * option error) := checked NewCashFlowFromHandle (CreateParamCashFlowFromUint64 v).
Definition NewCashFlowFromFloat (v : F64) : N (CashFlow * option error) := checked NewCashFlowFromHandle (CreateParamCashFlowFromF64 v).
Definition NewCashFlowFromStringRounded (v : string) (scale : Z) (strategy : RoundingStrategy) : N (CashFlow * option error) :=
  checked NewCashFlowFromHandle (CreateParamCashFlowFromStringRounded v scale (RoundingStrategyNative strategy)).
Definition NewCashFlowFromFloatRounded (v : F64) (scale : Z) (strategy : RoundingStrategy) : N (CashFlow * option error) :=
  checked NewCashFlowFromHandle (CreateParamCashFlowFromF64Rounded v scale (RoundingStrategyNative strategy)).
Definition NewCashFlowFromDecimalRounded (v : Decimal) (scale : Z) (strategy : RoundingStrategy) : N (CashFlow * option error) :=
  match NewNativeDecimalFromDecimal v with
  | inr err => ret (zeroValue, Some err)
  | inl nativeDecimal =>
    checked NewCashFlowFromHandle (CreateParamCashFlowFromDecimalRounded nativeDecimal scale (RoundingStrategyNative strategy))
  end.
Definition newCashFlowOrPanic (m : N (CashFlow * option error)) : N CashFlow := newParamValueOrPanic m.
Definition NewCashFlowZero : N CashFlow := newCashFlowOrPanic (NewCashFlowFromInt64 0).

Definition Decimal_ (v : CashFlow) : Decimal := newDecimalFromHandle (ParamCashFlowGetDecimal (CashFlowHandle v)).
Definition Float (v : CashFlow) : N F64 := newParamValueOrPanic (ParamCashFlowToF64 (CashFlowHandle v)).
Definition String_ (v : CashFlow) : N string := newParamValueOrPanic (ParamCashFlowToString (CashFlowHandle v)).
Definition IsZero (v : CashFlow) : N bool := newParamValueOrPanic (ParamCashFlowIsZero (CashFlowHandle v)).
Definition Equal (v other : CashFlow) : N bool :=
  let* c := newParamValueOrPanic (ParamCashFlowCompare (CashFlowHandle v) (CashFlowHandle other)) in ret (c =? 0)%Z.
Definition Compare (v other : CashFlow) : N Z := newParamValueOrPanic (ParamCashFlowCompare (CashFlowHandle v) (CashFlowHandle other)).

Definition CheckedAdd (v other : CashFlow) : N (CashFlow * option error) :=
  checked NewCashFlowFromHandle (ParamCashFlowCheckedAdd (CashFlowHandle v) (CashFlowHandle other)).
Definition CheckedSub (v other : CashFlow) : N (CashFlow * option error) :=
  checked NewCashFlowFromHandle (ParamCashFlowCheckedSub (CashFlowHandle v) (CashFlowHandle other)).
Definition CheckedNeg (v : CashFlow) : N (CashFlow * option error) := checked NewCashFlowFromHandle (ParamCashFlowCheckedNeg (CashFlowHandle v)).
Definition CheckedMulInt (v : CashFlow) (scalar : Z) : N (CashFlow * option error) :=
  checked NewCashFlowFromHandle (ParamCashFlowCheckedMulI64 (CashFlowHandle v) scalar).
Definition CheckedMulUint (v : CashFlow) (scalar : Z) : N (CashFlow * option error) :=
  checked NewCashFlowFromHandle (ParamCashFlowCheckedMulU64 (CashFlowHandle v) scalar).
Definition CheckedMulFloat (v : CashFlow) (scalar : F64) : N (CashFlow * option error) :=
  checked NewCashFlowFromHandle (ParamCashFlowCheckedMulF64 (CashFlowHandle v) scalar).
Definition CheckedDivInt (v : CashFlow) (divisor : Z) : N (CashFlow * option error) :=
  checked NewCashFlowFromHandle (ParamCashFlowCheckedDivI64 (CashFlowHandle v) divisor).
Definition CheckedDivUint (v : CashFlow) (divisor : Z) : N (CashFlow * option error) :=
  checked NewCashFlowFromHandle (ParamCashFlowCheckedDivU64 (CashFlowHandle v) divisor).
Definition CheckedDivFloat (v : CashFlow) (divisor : F64) : N (CashFlow * option error) :=
  checked NewCashFlowFromHandle (ParamCashFlowCheckedDivF64 (CashFlowHandle v) divisor).
Definition CheckedRemInt (v : CashFlow) (divisor : Z) : N (CashFlow * option error) :=
  checked NewCashFlowFromHandle (ParamCashFlowCheckedRemI64 (CashFlowHandle v) divisor).
Definition CheckedRemUint (v : CashFlow) (divisor : Z) : N (CashFlow * option error) :=
  checked NewCashFlowFromHandle (ParamCashFlowCheckedRemU64 (CashFlowHandle v) divisor).
Definition CheckedRemFloat (v : CashFlow) (divisor : F64) : N (CashFlow * option error) :=
  checked NewCashFlowFromHandle (ParamCashFlowCheckedRemF64 (CashFlowHandle v) divisor).
Definition NewCashFlowFromPnl (pnl : Pnl) : N (CashFlow * option error) :=
  checked NewCashFlowFromHandle (ParamCashFlowFromPnl (PnlHandle pnl)).
Definition NewCashFlowFromFee (fee : Fee) : N (CashFlow * option error) :=
  checked NewCashFlowFromHandle (ParamCashFlowFromFee (FeeHandle fee)).
Definition NewCashFlowFromVolumeInflow (volume : Volume) : N (CashFlow * option error) :=
  checked NewCashFlowFromHandle (ParamCashFlowFromVolumeInflow (VolumeHandle volume)).
Definition NewCashFlowFromVolumeOutflow (volume : Volume) : N (CashFlow * option error) :=
  checked NewCashFlowFromHandle (ParamCashFlowFromVolumeOutflow (VolumeHandle volume)).
End Type_.
End CashFlows.

Module PositionSizes.
Section Type_.
Context {F64 : Type} {NP : NativeParam F64} {DL : DecimalLibrary}.

Definition NewPositionSizeFromDecimal (v : Decimal) : N (PositionSize * option error) :=
  match NewNativeDecimalFromDecimal v with
  | inr err => ret (zeroValue, Some err)
  | inl nativeDecimal => checked NewPositionSizeFromHandle (CreateParamPositionSize nativeDecimal)
  end.
Definition NewPositionSizeFromString (v : string) : N (PositionSize * option error) := checked NewPositionSizeFromHandle (CreateParamPositionSizeFromString v).
Definition NewPositionSizeFromInt64 (v : Z) : N (PositionSize * option error) := checked NewPositionSizeFromHandle (CreateParamPositionSizeFromInt64 v).
Definition NewPositionSizeFromUint64 (v : Z) : N (PositionSize * option error) := checked NewPositionSizeFromHandle (CreateParamPositionSizeFromUint64 v).
Definition NewPositionSizeFromFloat (v : F64) : N (PositionSize * option error) := checked NewPositionSizeFromHandle (CreateParamPositionSizeFromF64 v).
Definition NewPositionSizeFromStringRounded (v : string) (scale : Z) (strategy : RoundingStrategy) : N (PositionSize * option error) :=
  checked NewPositionSizeFromHandle (CreateParamPositionSizeFromStringRounded v scale (RoundingStrategyNative strategy)).
Definition NewPositionSizeFromFloatRounded (v : F64) (scale : Z) (strategy : RoundingStrategy) : N (PositionSize * option error) :=
  checked NewPositionSizeFromHandle (CreateParamPositionSizeFromF64Rounded v scale (RoundingStrategyNative strategy)).
Definition NewPositionSizeFromDecimalRounded (v : Decimal) (scale : Z) (strategy : RoundingStrategy) : N (PositionSize * option error) :=
  match NewNativeDecimalFromDecimal v with
  | inr err => ret (zeroValue, Some err)
  | inl nativeDecimal =>
    checked NewPositionSizeFromHandle (CreateParamPositionSizeFromDecimalRounded nativeDecimal scale (RoundingStrategyNative strategy))
  end.
Definition newPositionSizeOrPanic (m : N (PositionSize * option error)) : N PositionSize := newParamValueOrPanic m.
Definition NewPositionSizeZero : N PositionSize := newPositionSizeOrPanic (NewPositionSizeFromInt64 0).

Definition Decimal_ (v : PositionSize) : Decimal := newDecimalFromHandle (ParamPositionSizeGetDecimal (PositionSizeHandle v)).
Definition Float (v : PositionSize) : N F64 := newParamValueOrPanic (ParamPositionSizeToF64 (PositionSizeHandle v)).
Definition String_ (v : PositionSize) : N string := newParamValueOrPanic (ParamPositionSizeToString (PositionSizeHandle v)).
Definition IsZero (v : PositionSize) : N bool := newParamValueOrPanic (ParamPositionSizeIsZero (PositionSizeHandle v)).
Definition Equal (v other : PositionSize) : N bool :=
  let* c := newParamValueOrPanic (ParamPositionSizeCompare (PositionSizeHandle v) (PositionSizeHandle other)) in ret (c =? 0)%Z.
Definition Compare (v other : PositionSize) : N Z := newParamValueOrPanic (ParamPositionSizeCompare (PositionSizeHandle v) (PositionSizeHandle other)).

Definition CheckedAdd (v other : PositionSize) : N (PositionSize * option error) :=
  checked NewPositionSizeFromHandle (ParamPositionSizeCheckedAdd (PositionSizeHandle v) (PositionSizeHandle other)).
Definition CheckedSub (v other : PositionSize) : N (PositionSize * option error) :=
  checked NewPositionSizeFromHandle (ParamPositionSizeCheckedSub (PositionSizeHandle v) (PositionSizeHandle other)).
Definition CheckedNeg (v : PositionSize) : N (PositionSize * option error) := checked NewPositionSizeFromHandle (ParamPositionSizeCheckedNeg (PositionSizeHandle v)).
Definition CheckedMulInt (v : PositionSize) (scalar : Z) : N (PositionSize * option error) :=
  checked NewPositionSizeFromHandle (ParamPositionSizeCheckedMulI64 (PositionSizeHandle v) scalar).
Definition CheckedMulUint (v : PositionSize) (scalar : Z) : N (PositionSize * option error) :=
  checked NewPositionSizeFromHandle (ParamPositionSizeCheckedMulU64 (PositionSizeHandle v) scalar).
Definition CheckedMulFloat (v : PositionSize) (scalar : F64) : N (PositionSize * option error) :=
  checked NewPositionSizeFromHandle (ParamPositionSizeCheckedMulF64 (PositionSizeHandle v) scalar).
Definition CheckedDivInt (v : PositionSize) (divisor : Z) : N (PositionSize * option error) :=
  checked NewPositionSizeFromHandle (ParamPositionSizeCheckedDivI64 (PositionSizeHandle v) divisor).
Definition CheckedDivUint (v : PositionSize) (divisor : Z) : N (PositionSize * option error) :=
  checked NewPositionSizeFromHandle (ParamPositionSizeCheckedDivU64 (PositionSizeHandle v) divisor).
Definition CheckedDivFloat (v : PositionSize) (divisor : F64) : N (PositionSize * option error) :=
  checked NewPositionSizeFromHandle (ParamPositionSizeCheckedDivF64 (PositionSizeHandle v) divisor).
Definition CheckedRemInt (v : PositionSize) (divisor : Z) : N (PositionSize * option error) :=
  checked NewPositionSizeFromHandle (ParamPositionSizeCheckedRemI64 (PositionSizeHandle v) divisor).
Definition CheckedRemUint (v : PositionSize) (divisor : Z) : N (PositionSize * option error) :=
  checked NewPositionSizeFromHandle (ParamPositionSizeCheckedRemU64 (PositionSizeHandle v) divisor).
Definition CheckedRemFloat (v : PositionSize) (divisor : F64) : N (PositionSize * option error) :=
  checked NewPositionSizeFromHandle (ParamPositionSizeCheckedRemF64 (PositionSizeHandle v) divisor).
Definition NewPositionSizeFromPnl (pnl : Pnl) : N (PositionSize * option error) :=
  checked NewPositionSizeFromHandle (ParamPositionSizeFromPnl (PnlHandle pnl)).
Definition NewPositionSizeFromFee (fee : Fee) : N (PositionSize * option error) :=
  checked NewPositionSizeFromHandle (ParamPositionSizeFromFee (FeeHandle fee)).
Definition NewPositionSizeFromQuantityAndSide (q : Quantity) (side : Side) : N (PositionSize * option error) :=
  checked NewPositionSizeFromHandle (ParamPositionSizeFromQuantityAndSide (QuantityHandle q) (SideHandle side)).
Definition newPositionSizeQuantitySideOrPanic (m : N ((ParamQuantity * ParamSide) * option error)) : N (ParamQuantity * ParamSide) :=
  newParamValueOrPanic m.
(** [NewSideFromHandle], and [MustGet] on an empty option. *)
Definition unknownSide : panicValue := PanicOther 5.
Definition optionEmpty : panicValue := PanicOther 6.
Definition sideOf (v : ParamSide) : N (option Side) :=
  if (v =? ParamSideSell)%Z then ret (Some SideSell)
  else if (v =? ParamSideBuy)%Z then ret (Some SideBuy)
  else if (v =? ParamSideNotSet)%Z then ret None
  else panic unknownSide.
Definition OpenQuantity (v : PositionSize) : N (Quantity * Side) :=
  let* (quantity, side) := newPositionSizeQuantitySideOrPanic (ParamPositionSizeToOpenQuantity (PositionSizeHandle v)) in
  let* s := sideOf side in
  match s with
  | Some s => ret (NewQuantityFromHandle quantity, s)
  | None => panic optionEmpty
  end.
Definition CloseQuantity (v : PositionSize) : N (Quantity * option Side) :=
  let* (quantity, side) := newPositionSizeQuantitySideOrPanic (ParamPositionSizeToCloseQuantity (PositionSizeHandle v)) in
  let result := NewQuantityFromHandle quantity in
  if (side =? ParamSideNotSet)%Z then ret (result, None)
  else let* s := sideOf side in ret (result, s).
Definition CheckedAddQuantity (v : PositionSize) (q : Quantity) (side : Side) : N (PositionSize * option error) :=
  checked NewPositionSizeFromHandle (ParamPositionSizeCheckedAddQuantity (PositionSizeHandle v) (QuantityHandle q) (SideHandle side)).
End Type_.
End PositionSizes.

Module Fees.
Section Type_.
Context {F64 : Type} {NP : NativeParam F64} {DL : DecimalLibrary}.

Definition NewFeeFromDecimal (v : Decimal) : N (Fee * option error) :=
  match NewNativeDecimalFromDecimal v with
  | inr err => ret (zeroValue, Some err)
  | inl nativeDecimal => checked NewFeeFromHandle (CreateParamFee nativeDecimal)
  end.
Definition NewFeeFromString (v : string) : N (Fee * option error) := checked NewFeeFromHandle (CreateParamFeeFromString v).
Definition NewFeeFromInt64 (v : Z) : N (Fee * option error) := checked NewFeeFromHandle (CreateParamFeeFromInt64 v).
Definition NewFeeFromUint64 (v : Z) : N (Fee * option error) := checked NewFeeFromHandle (CreateParamFeeFromUint64 v).
Definition NewFeeFromFloat (v : F64) : N (Fee * option error) := checked NewFeeFromHandle (CreateParamFeeFromF64 v).
Definition NewFeeFromStringRounded (v : string) (scale : Z) (strategy : RoundingStrategy) : N (Fee * option error) :=
  checked NewFeeFromHandle (CreateParamFeeFromStringRounded v scale (RoundingStrategyNative strategy)).
Definition NewFeeFromFloatRounded (v : F64) (scale : Z) (strategy : RoundingStrategy) : N (Fee * option error) :=
  checked NewFeeFromHandle (CreateParamFeeFromF64Rounded v scale (RoundingStrategyNative strategy)).
Definition NewFeeFromDecimalRounded (v : Decimal) (scale : Z) (strategy : RoundingStrategy) : N (Fee * option error) :=
  match NewNativeDecimalFromDecimal v with
  | inr err => ret (zeroValue, Some err)
  | inl nativeDecimal =>
    checked NewFeeFromHandle (CreateParamFeeFromDecimalRounded nativeDecimal scale (RoundingStrategyNative strategy))
  end.
Definition newFeeOrPanic (m : N (Fee * option error)) : N Fee := newParamValueOrPanic m.
Definition NewFeeZero : N Fee := newFeeOrPanic (NewFeeFromInt64 0).

Definition Decimal_ (v : Fee) : Decimal := newDecimalFromHandle (ParamFeeGetDecimal (FeeHandle v)).
Definition Float (v : Fee) : N F64 := newParamValueOrPanic (ParamFeeToF64 (FeeHandle v)).
Definition String_ (v : Fee) : N string := newParamValueOrPanic (ParamFeeToString (FeeHandle v)).
Definition IsZero (v : Fee) : N bool := newParamValueOrPanic (ParamFeeIsZero (FeeHandle v)).
Definition Equal (v other : Fee) : N bool :=
  let* c := newParamValueOrPanic (ParamFeeCompare (FeeHandle v) (FeeHandle other)) in ret (c =? 0)%Z.
Definition Compare (v other : Fee) : N Z := newParamValueOrPanic (ParamFeeCompare (FeeHandle v) (FeeHandle other)).

Definition CheckedAdd (v other : Fee) : N (Fee * option error) :=
  checked NewFeeFromHandle (ParamFeeCheckedAdd (FeeHandle v) (FeeHandle other)).
Definition CheckedSub (v other : Fee) : N (Fee * option error) :=
  checked NewFeeFromHandle (ParamFeeCheckedSub (FeeHandle v) (FeeHandle other)).
Definition CheckedNeg (v : Fee) : N (Fee * option error) := checked NewFeeFromHandle (ParamFeeCheckedNeg (FeeHandle v)).
Definition CheckedMulInt (v : Fee) (scalar : Z) : N (Fee * option error) :=
  checked NewFeeFromHandle (ParamFeeCheckedMulI64 (FeeHandle v) scalar).
Definition CheckedMulUint (v : Fee) (scalar : Z) : N (Fee * option error) :=
  checked NewFeeFromHandle (ParamFeeCheckedMulU64 (FeeHandle v) scalar).
Definition CheckedMulFloat (v : Fee) (scalar : F64) : N (Fee * option error) :=
  checked NewFeeFromHandle (ParamFeeCheckedMulF64 (FeeHandle v) scalar).
Definition CheckedDivInt (v : Fee) (divisor : Z) : N (Fee * option error) :=
  checked NewFeeFromHandle (ParamFeeCheckedDivI64 (FeeHandle v) divisor).
Definition CheckedDivUint (v : Fee) (divisor : Z) : N (Fee * option error) :=
  checked NewFeeFromHandle (ParamFeeCheckedDivU64 (FeeHandle v) divisor).
Definition CheckedDivFloat (v : Fee) (divisor : F64) : N (Fee * option error) :=
  checked NewFeeFromHandle (ParamFeeCheckedDivF64 (FeeHandle v) divisor).
Definition CheckedRemInt (v : Fee) (divisor : Z) : N (Fee * option error) :=
  checked NewFeeFromHandle (ParamFeeCheckedRemI64 (FeeHandle v) divisor).
Definition CheckedRemUint (v : Fee) (divisor : Z) : N (Fee * option error) :=
  checked NewFeeFromHandle (ParamFeeCheckedRemU64 (FeeHandle v) divisor).
Definition CheckedRemFloat (v : Fee) (divisor : F64) : N (Fee * option error) :=
  checked NewFeeFromHandle (ParamFeeCheckedRemF64 (FeeHandle v) divisor).
Definition Pnl_ (v : Fee) : N (Pnl * option error) :=
  checked NewPnlFromHandle (ParamFeeToPnl (FeeHandle v)).
Definition CashFlow_ (v : Fee) : N (CashFlow * option error) :=
  checked NewCashFlowFromHandle (ParamFeeToCashFlow (FeeHandle v)).
Definition PositionSize_ (v : Fee) : N (PositionSize * option error) :=
  checked NewPositionSizeFromHandle (ParamFeeToPositionSize (FeeHandle v)).
End Type_.
End Fees.

Module Notionals.
Section Type_.
Context {F64 : Type} {NP : NativeParam F64} {DL : DecimalLibrary}.

Definition NewNotionalFromDecimal (v : Decimal) : N (Notional * option error) :=
  match NewNativeDecimalFromDecimal v with
  | inr err => ret (zeroValue, Some err)
  | inl nativeDecimal => checked NewNotionalFromHandle (CreateParamNotional nativeDecimal)
  end.
Definition NewNotionalFromString (v : string) : N (Notional * option error) := checked NewNotionalFromHandle (CreateParamNotionalFromString v).
Definition NewNotionalFromInt64 (v : Z) : N (Notional * option error) := checked NewNotionalFromHandle (CreateParamNotionalFromInt64 v).
Definition NewNotionalFromUint64 (v : Z) : N (Notional * option error) := checked NewNotionalFromHandle (CreateParamNotionalFromUint64 v).
Definition NewNotionalFromFloat (v : F64) : N (Notional * option error) := checked NewNotionalFromHandle (CreateParamNotionalFromF64 v).
Definition NewNotionalFromStringRounded (v : string) (scale : Z) (strategy : RoundingStrategy) : N (Notional * option error) :=
  checked NewNotionalFromHandle (CreateParamNotionalFromStringRounded v scale (RoundingStrategyNative strategy)).
Definition NewNotionalFromFloatRounded (v : F64) (scale : Z) (strategy : RoundingStrategy) : N (Notional * option error) :=
  checked NewNotionalFromHandle (CreateParamNotionalFromF64Rounded v scale (RoundingStrategyNative strategy)).
Definition NewNotionalFromDecimalRounded (v : Decimal) (scale : Z) (strategy : RoundingStrategy) : N (Notional * option error) :=
  match NewNativeDecimalFromDecimal v with
  | inr err => ret (zeroValue, Some err)
  | inl nativeDecimal =>
    checked NewNotionalFromHandle (CreateParamNotionalFromDecimalRounded nativeDecimal scale (RoundingStrategyNative strategy))
  end.
Definition newNotionalOrPanic (m : N (Notional * option error)) : N Notional := newParamValueOrPanic m.
Definition NewNotionalZero : N Notional := newNotionalOrPanic (NewNotionalFromInt64 0).

Definition Decimal_ (v : Notional) : Decimal := newDecimalFromHandle (ParamNotionalGetDecimal (NotionalHandle v)).
Definition Float (v : Notional) : N F64 := newParamValueOrPanic (ParamNotionalToF64 (NotionalHandle v)).
Definition String_ (v : Notional) : N string := newParamValueOrPanic (ParamNotionalToString (NotionalHandle v)).
Definition IsZero (v : Notional) : N bool := newParamValueOrPanic (ParamNotionalIsZero (NotionalHandle v)).
Definition Equal (v other : Notional) : N bool :=
  let* c := newParamValueOrPanic (ParamNotionalCompare (NotionalHandle v) (NotionalHandle other)) in ret (c =? 0)%Z.
Definition Compare (v other : Notional) : N Z := newParamValueOrPanic (ParamNotionalCompare (NotionalHandle v) (NotionalHandle other)).

Definition CheckedAdd (v other : Notional) : N (Notional * option error) :=
  checked NewNotionalFromHandle (ParamNotionalCheckedAdd (NotionalHandle v) (NotionalHandle other)).
Definition CheckedSub (v other : Notional) : N (Notional * option error) :=
  checked NewNotionalFromHandle (ParamNotionalCheckedSub (NotionalHandle v) (NotionalHandle other)).
Definition CheckedMulInt (v : Notional) (scalar : Z) : N (Notional * option error) :=
  checked NewNotionalFromHandle (ParamNotionalCheckedMulI64 (NotionalHandle v) scalar).
Definition CheckedMulUint (v : Notional) (scalar : Z) : N (Notional * option error) :=
  checked NewNotionalFromHandle (ParamNotionalCheckedMulU64 (NotionalHandle v) scalar).
Definition CheckedMulFloat (v : Notional) (scalar : F64) : N (Notional * option error) :=
  checked NewNotionalFromHandle (ParamNotionalCheckedMulF64 (NotionalHandle v) scalar).
Definition CheckedDivInt (v : Notional) (divisor : Z) : N (Notional * option error) :=
  checked NewNotionalFromHandle (ParamNotionalCheckedDivI64 (NotionalHandle v) divisor).
Definition CheckedDivUint (v : Notional) (divisor : Z) : N (Notional * option error) :=
  checked NewNotionalFromHandle (ParamNotionalCheckedDivU64 (NotionalHandle v) divisor).
Definition CheckedDivFloat (v : Notional) (divisor : F64) : N (Notional * option error) :=
  checked NewNotionalFromHandle (ParamNotionalCheckedDivF64 (NotionalHandle v) divisor).
Definition CheckedRemInt (v : Notional) (divisor : Z) : N (Notional * option error) :=
  checked NewNotionalFromHandle (ParamNotionalCheckedRemI64 (NotionalHandle v) divisor).
Definition CheckedRemUint (v : Notional) (divisor : Z) : N (Notional * option error) :=
  checked NewNotionalFromHandle (ParamNotionalCheckedRemU64 (NotionalHandle v) divisor).
Definition CheckedRemFloat (v : Notional) (divisor : F64) : N (Notional * option error) :=
  checked NewNotionalFromHandle (ParamNotionalCheckedRemF64 (NotionalHandle v) divisor).
Definition NewNotionalFromVolume (v : Volume) : N (Notional * option error) :=
  checked NewNotionalFromHandle (ParamNotionalFromVolume (VolumeHandle v)).
Definition Volume_ (v : Notional) : N (Volume * option error) :=
  checked NewVolumeFromHandle (ParamNotionalToVolume (NotionalHandle v)).
Definition CalculateMarginRequired (v : Notional) (leverage : Leverage) : N (Notional * option error) :=
  checked NewNotionalFromHandle (ParamNotionalCalculateMarginRequired (NotionalHandle v) (LeverageHandle leverage)).
End Type_.
End Notionals.

