(* ===== verification/NumericFacts.v ===== *)
(** * What the numeric types keep

    The eight types of NumericTypes.v answer alike: every operation is its native
    function on the wrapped record, the record or a zero with the error of the native
    code, and leaves no native error or string behind, on every path. *)
From Stdlib Require Import ZArith Lia.
From stdpp Require Import base list gmap strings.
From S2P Require Import Prelude GoRuntime GoPtr NativeMem ParamValues Decimals NativeErrors NativeParam NumericTypes.

Section Types.
Context {F64 : Type} {NP : NativeParam F64} {DL : DecimalLibrary}.

(** ** The operations *)

Inductive numericOp :=
| OpZero
| OpFromDecimal (v : Decimal)
| OpFromString (v : string)
| OpFromInt64 (v : Z)
| OpFromUint64 (v : Z)
| OpFromFloat (v : F64)
| OpFromStringRounded (v : string) (scale : Z) (strategy : RoundingStrategy)
| OpFromFloatRounded (v : F64) (scale : Z) (strategy : RoundingStrategy)
| OpFromDecimalRounded (v : Decimal) (scale : Z) (strategy : RoundingStrategy)
| OpDecimal (v : ParamDecimal)
| OpFloat (v : ParamDecimal)
| OpString (v : ParamDecimal)
| OpIsZero (v : ParamDecimal)
| OpEqual (v other : ParamDecimal)
| OpCompare (v other : ParamDecimal)
| OpCheckedAdd (v other : ParamDecimal)
| OpCheckedSub (v other : ParamDecimal)
| OpCheckedNeg (v : ParamDecimal)
| OpCheckedMulInt (v : ParamDecimal) (x : Z)
| OpCheckedMulUint (v : ParamDecimal) (x : Z)
| OpCheckedMulFloat (v : ParamDecimal) (x : F64)
| OpCheckedDivInt (v : ParamDecimal) (x : Z)
| OpCheckedDivUint (v : ParamDecimal) (x : Z)
| OpCheckedDivFloat (v : ParamDecimal) (x : F64)
| OpCheckedRemInt (v : ParamDecimal) (x : Z)
| OpCheckedRemUint (v : ParamDecimal) (x : Z)
| OpCheckedRemFloat (v : ParamDecimal) (x : F64).

Inductive numericAnswer :=
| AnsChecked (r : ParamDecimal * option error)
| AnsValue (v : ParamDecimal)
| AnsDecimal (v : Decimal)
| AnsFloat (v : F64)
| AnsString (v : string)
| AnsBool (v : bool)
| AnsInt (v : Z)
| AnsSided (v : ParamDecimal) (side : option Side)
| AnsNoSuchMethod.

Definition via {A} (f : A -> numericAnswer) (m : N A) : N numericAnswer := let* a := m in ret (f a).

(** The call of the type a kind names. Three types have no [CheckedNeg]. *)
Definition performPnl (op : numericOp) : N numericAnswer :=
  match op with
  | OpZero => via AnsValue Pnls.NewPnlZero
  | OpFromDecimal v => via AnsChecked (Pnls.NewPnlFromDecimal v)
  | OpFromString v => via AnsChecked (Pnls.NewPnlFromString v)
  | OpFromInt64 v => via AnsChecked (Pnls.NewPnlFromInt64 v)
  | OpFromUint64 v => via AnsChecked (Pnls.NewPnlFromUint64 v)
  | OpFromFloat v => via AnsChecked (Pnls.NewPnlFromFloat v)
  | OpFromStringRounded v scale strategy => via AnsChecked (Pnls.NewPnlFromStringRounded v scale strategy)
  | OpFromFloatRounded v scale strategy => via AnsChecked (Pnls.NewPnlFromFloatRounded v scale strategy)
  | OpFromDecimalRounded v scale strategy => via AnsChecked (Pnls.NewPnlFromDecimalRounded v scale strategy)
  | OpDecimal v => ret (AnsDecimal (Pnls.Decimal_ v))
  | OpFloat v => via AnsFloat (Pnls.Float v)
  | OpString v => via AnsString (Pnls.String_ v)
  | OpIsZero v => via AnsBool (Pnls.IsZero v)
  | OpEqual v other => via AnsBool (Pnls.Equal v other)
  | OpCompare v other => via AnsInt (Pnls.Compare v other)
  | OpCheckedAdd v other => via AnsChecked (Pnls.CheckedAdd v other)
  | OpCheckedSub v other => via AnsChecked (Pnls.CheckedSub v other)
  | OpCheckedNeg v => via AnsChecked (Pnls.CheckedNeg v)
  | OpCheckedMulInt v x => via AnsChecked (Pnls.CheckedMulInt v x)
  | OpCheckedMulUint v x => via AnsChecked (Pnls.CheckedMulUint v x)
  | OpCheckedMulFloat v x => via AnsChecked (Pnls.CheckedMulFloat v x)
  | OpCheckedDivInt v x => via AnsChecked (Pnls.CheckedDivInt v x)
  | OpCheckedDivUint v x => via AnsChecked (Pnls.CheckedDivUint v x)
  | OpCheckedDivFloat v x => via AnsChecked (Pnls.CheckedDivFloat v x)
  | OpCheckedRemInt v x => via AnsChecked (Pnls.CheckedRemInt v x)
  | OpCheckedRemUint v x => via AnsChecked (Pnls.CheckedRemUint v x)
  | OpCheckedRemFloat v x => via AnsChecked (Pnls.CheckedRemFloat v x)
  end.
Definition performPrice (op : numericOp) : N numericAnswer :=
  match op with
  | OpZero => via AnsValue Prices.NewPriceZero
  | OpFromDecimal v => via AnsChecked (Prices.NewPriceFromDecimal v)
  | OpFromString v => via AnsChecked (Prices.NewPriceFromString v)
  | OpFromInt64 v => via AnsChecked (Prices.NewPriceFromInt64 v)
  | OpFromUint64 v => via AnsChecked (Prices.NewPriceFromUint64 v)
  | OpFromFloat v => via AnsChecked (Prices.NewPriceFromFloat v)
  | OpFromStringRounded v scale strategy => via AnsChecked (Prices.NewPriceFromStringRounded v scale strategy)
  | OpFromFloatRounded v scale strategy => via AnsChecked (Prices.NewPriceFromFloatRounded v scale strategy)
  | OpFromDecimalRounded v scale strategy => via AnsChecked (Prices.NewPriceFromDecimalRounded v scale strategy)
  | OpDecimal v => ret (AnsDecimal (Prices.Decimal_ v))
  | OpFloat v => via AnsFloat (Prices.Float v)
  | OpString v => via AnsString (Prices.String_ v)
  | OpIsZero v => via AnsBool (Prices.IsZero v)
  | OpEqual v other => via AnsBool (Prices.Equal v other)
  | OpCompare v other => via AnsInt (Prices.Compare v other)
  | OpCheckedAdd v other => via AnsChecked (Prices.CheckedAdd v other)
  | OpCheckedSub v other => via AnsChecked (Prices.CheckedSub v other)
  | OpCheckedNeg v => via AnsChecked (Prices.CheckedNeg v)
  | OpCheckedMulInt v x => via AnsChecked (Prices.CheckedMulInt v x)
  | OpCheckedMulUint v x => via AnsChecked (Prices.CheckedMulUint v x)
  | OpCheckedMulFloat v x => via AnsChecked (Prices.CheckedMulFloat v x)
  | OpCheckedDivInt v x => via AnsChecked (Prices.CheckedDivInt v x)
  | OpCheckedDivUint v x => via AnsChecked (Prices.CheckedDivUint v x)
  | OpCheckedDivFloat v x => via AnsChecked (Prices.CheckedDivFloat v x)
  | OpCheckedRemInt v x => via AnsChecked (Prices.CheckedRemInt v x)
  | OpCheckedRemUint v x => via AnsChecked (Prices.CheckedRemUint v x)
  | OpCheckedRemFloat v x => via AnsChecked (Prices.CheckedRemFloat v x)
  end.
Definition performQuantity (op : numericOp) : N numericAnswer :=
  match op with
  | OpZero => via AnsValue Quantities.NewQuantityZero
  | OpFromDecimal v => via AnsChecked (Quantities.NewQuantityFromDecimal v)
  | OpFromString v => via AnsChecked (Quantities.NewQuantityFromString v)
  | OpFromInt64 v => via AnsChecked (Quantities.NewQuantityFromInt64 v)
  | OpFromUint64 v => via AnsChecked (Quantities.NewQuantityFromUint64 v)
  | OpFromFloat v => via AnsChecked (Quantities.NewQuantityFromFloat v)
  | OpFromStringRounded v scale strategy => via AnsChecked (Quantities.NewQuantityFromStringRounded v scale strategy)
  | OpFromFloatRounded v scale strategy => via AnsChecked (Quantities.NewQuantityFromFloatRounded v scale strategy)
  | OpFromDecimalRounded v scale strategy => via AnsChecked (Quantities.NewQuantityFromDecimalRounded v scale strategy)
  | OpDecimal v => ret (AnsDecimal (Quantities.Decimal_ v))
  | OpFloat v => via AnsFloat (Quantities.Float v)
  | OpString v => via AnsString (Quantities.String_ v)
  | OpIsZero v => via AnsBool (Quantities.IsZero v)
  | OpEqual v other => via AnsBool (Quantities.Equal v other)
  | OpCompare v other => via AnsInt (Quantities.Compare v other)
  | OpCheckedAdd v other => via AnsChecked (Quantities.CheckedAdd v other)
  | OpCheckedSub v other => via AnsChecked (Quantities.CheckedSub v other)
  | OpCheckedNeg _ => ret AnsNoSuchMethod
  | OpCheckedMulInt v x => via AnsChecked (Quantities.CheckedMulInt v x)
  | OpCheckedMulUint v x => via AnsChecked (Quantities.CheckedMulUint v x)
  | OpCheckedMulFloat v x => via AnsChecked (Quantities.CheckedMulFloat v x)
  | OpCheckedDivInt v x => via AnsChecked (Quantities.CheckedDivInt v x)
  | OpCheckedDivUint v x => via AnsChecked (Quantities.CheckedDivUint v x)
  | OpCheckedDivFloat v x => via AnsChecked (Quantities.CheckedDivFloat v x)
  | OpCheckedRemInt v x => via AnsChecked (Quantities.CheckedRemInt v x)
  | OpCheckedRemUint v x => via AnsChecked (Quantities.CheckedRemUint v x)
  | OpCheckedRemFloat v x => via AnsChecked (Quantities.CheckedRemFloat v x)
  end.
Definition performVolume (op : numericOp) : N numericAnswer :=
  match op with
  | OpZero => via AnsValue Volumes.NewVolumeZero
  | OpFromDecimal v => via AnsChecked (Volumes.NewVolumeFromDecimal v)
  | OpFromString v => via AnsChecked (Volumes.NewVolumeFromString v)
  | OpFromInt64 v => via AnsChecked (Volumes.NewVolumeFromInt64 v)
  | OpFromUint64 v => via AnsChecked (Volumes.NewVolumeFromUint64 v)
  | OpFromFloat v => via AnsChecked (Volumes.NewVolumeFromFloat v)
  | OpFromStringRounded v scale strategy => via AnsChecked (Volumes.NewVolumeFromStringRounded v scale strategy)
  | OpFromFloatRounded v scale strategy => via AnsChecked (Volumes.NewVolumeFromFloatRounded v scale strategy)
  | OpFromDecimalRounded v scale strategy => via AnsChecked (Volumes.NewVolumeFromDecimalRounded v scale strategy)
  | OpDecimal v => ret (AnsDecimal (Volumes.Decimal_ v))
  | OpFloat v => via AnsFloat (Volumes.Float v)
  | OpString v => via AnsString (Volumes.String_ v)
  | OpIsZero v => via AnsBool (Volumes.IsZero v)
  | OpEqual v other => via AnsBool (Volumes.Equal v other)
  | OpCompare v other => via AnsInt (Volumes.Compare v other)
  | OpCheckedAdd v other => via AnsChecked (Volumes.CheckedAdd v other)
  | OpCheckedSub v other => via AnsChecked (Volumes.CheckedSub v other)
  | OpCheckedNeg _ => ret AnsNoSuchMethod
  | OpCheckedMulInt v x => via AnsChecked (Volumes.CheckedMulInt v x)
  | OpCheckedMulUint v x => via AnsChecked (Volumes.CheckedMulUint v x)
  | OpCheckedMulFloat v x => via AnsChecked (Volumes.CheckedMulFloat v x)
  | OpCheckedDivInt v x => via AnsChecked (Volumes.CheckedDivInt v x)
  | OpCheckedDivUint v x => via AnsChecked (Volumes.CheckedDivUint v x)
  | OpCheckedDivFloat v x => via AnsChecked (Volumes.CheckedDivFloat v x)
  | OpCheckedRemInt v x => via AnsChecked (Volumes.CheckedRemInt v x)
  | OpCheckedRemUint v x => via AnsChecked (Volumes.CheckedRemUint v x)
  | OpCheckedRemFloat v x => via AnsChecked (Volumes.CheckedRemFloat v x)
  end.
Definition performCashFlow (op : numericOp) : N numericAnswer :=
  match op with
  | OpZero => via AnsValue CashFlows.NewCashFlowZero
  | OpFromDecimal v => via AnsChecked (CashFlows.NewCashFlowFromDecimal v)
  | OpFromString v => via AnsChecked (CashFlows.NewCashFlowFromString v)
  | OpFromInt64 v => via AnsChecked (CashFlows.NewCashFlowFromInt64 v)
  | OpFromUint64 v => via AnsChecked (CashFlows.NewCashFlowFromUint64 v)
  | OpFromFloat v => via AnsChecked (CashFlows.NewCashFlowFromFloat v)
  | OpFromStringRounded v scale strategy => via AnsChecked (CashFlows.NewCashFlowFromStringRounded v scale strategy)
  | OpFromFloatRounded v scale strategy => via AnsChecked (CashFlows.NewCashFlowFromFloatRounded v scale strategy)
  | OpFromDecimalRounded v scale strategy => via AnsChecked (CashFlows.NewCashFlowFromDecimalRounded v scale strategy)
  | OpDecimal v => ret (AnsDecimal (CashFlows.Decimal_ v))
  | OpFloat v => via AnsFloat (CashFlows.Float v)
  | OpString v => via AnsString (CashFlows.String_ v)
  | OpIsZero v => via AnsBool (CashFlows.IsZero v)
  | OpEqual v other => via AnsBool (CashFlows.Equal v other)
  | OpCompare v other => via AnsInt (CashFlows.Compare v other)
  | OpCheckedAdd v other => via AnsChecked (CashFlows.CheckedAdd v other)
  | OpCheckedSub v other => via AnsChecked (CashFlows.CheckedSub v other)
  | OpCheckedNeg v => via AnsChecked (CashFlows.CheckedNeg v)
  | OpCheckedMulInt v x => via AnsChecked (CashFlows.CheckedMulInt v x)
  | OpCheckedMulUint v x => via AnsChecked (CashFlows.CheckedMulUint v x)
  | OpCheckedMulFloat v x => via AnsChecked (CashFlows.CheckedMulFloat v x)
  | OpCheckedDivInt v x => via AnsChecked (CashFlows.CheckedDivInt v x)
  | OpCheckedDivUint v x => via AnsChecked (CashFlows.CheckedDivUint v x)
  | OpCheckedDivFloat v x => via AnsChecked (CashFlows.CheckedDivFloat v x)
  | OpCheckedRemInt v x => via AnsChecked (CashFlows.CheckedRemInt v x)
  | OpCheckedRemUint v x => via AnsChecked (CashFlows.CheckedRemUint v x)
  | OpCheckedRemFloat v x => via AnsChecked (CashFlows.CheckedRemFloat v x)
  end.
Definition performPositionSize (op : numericOp) : N numericAnswer :=
  match op with
  | OpZero => via AnsValue PositionSizes.NewPositionSizeZero
  | OpFromDecimal v => via AnsChecked (PositionSizes.NewPositionSizeFromDecimal v)
  | OpFromString v => via AnsChecked (PositionSizes.NewPositionSizeFromString v)
  | OpFromInt64 v => via AnsChecked (PositionSizes.NewPositionSizeFromInt64 v)
  | OpFromUint64 v => via AnsChecked (PositionSizes.NewPositionSizeFromUint64 v)
  | OpFromFloat v => via AnsChecked (PositionSizes.NewPositionSizeFromFloat v)
  | OpFromStringRounded v scale strategy => via AnsChecked (PositionSizes.NewPositionSizeFromStringRounded v scale strategy)
  | OpFromFloatRounded v scale strategy => via AnsChecked (PositionSizes.NewPositionSizeFromFloatRounded v scale strategy)
  | OpFromDecimalRounded v scale strategy => via AnsChecked (PositionSizes.NewPositionSizeFromDecimalRounded v scale strategy)
  | OpDecimal v => ret (AnsDecimal (PositionSizes.Decimal_ v))
  | OpFloat v => via AnsFloat (PositionSizes.Float v)
  | OpString v => via AnsString (PositionSizes.String_ v)
  | OpIsZero v => via AnsBool (PositionSizes.IsZero v)
  | OpEqual v other => via AnsBool (PositionSizes.Equal v other)
  | OpCompare v other => via AnsInt (PositionSizes.Compare v other)
  | OpCheckedAdd v other => via AnsChecked (PositionSizes.CheckedAdd v other)
  | OpCheckedSub v other => via AnsChecked (PositionSizes.CheckedSub v other)
  | OpCheckedNeg v => via AnsChecked (PositionSizes.CheckedNeg v)
  | OpCheckedMulInt v x => via AnsChecked (PositionSizes.CheckedMulInt v x)
  | OpCheckedMulUint v x => via AnsChecked (PositionSizes.CheckedMulUint v x)
  | OpCheckedMulFloat v x => via AnsChecked (PositionSizes.CheckedMulFloat v x)
  | OpCheckedDivInt v x => via AnsChecked (PositionSizes.CheckedDivInt v x)
  | OpCheckedDivUint v x => via AnsChecked (PositionSizes.CheckedDivUint v x)
  | OpCheckedDivFloat v x => via AnsChecked (PositionSizes.CheckedDivFloat v x)
  | OpCheckedRemInt v x => via AnsChecked (PositionSizes.CheckedRemInt v x)
  | OpCheckedRemUint v x => via AnsChecked (PositionSizes.CheckedRemUint v x)
  | OpCheckedRemFloat v x => via AnsChecked (PositionSizes.CheckedRemFloat v x)
  end.
Definition performFee (op : numericOp) : N numericAnswer :=
  match op with
  | OpZero => via AnsValue Fees.NewFeeZero
  | OpFromDecimal v => via AnsChecked (Fees.NewFeeFromDecimal v)
  | OpFromString v => via AnsChecked (Fees.NewFeeFromString v)
  | OpFromInt64 v => via AnsChecked (Fees.NewFeeFromInt64 v)
  | OpFromUint64 v => via AnsChecked (Fees.NewFeeFromUint64 v)
  | OpFromFloat v => via AnsChecked (Fees.NewFeeFromFloat v)
  | OpFromStringRounded v scale strategy => via AnsChecked (Fees.NewFeeFromStringRounded v scale strategy)
  | OpFromFloatRounded v scale strategy => via AnsChecked (Fees.NewFeeFromFloatRounded v scale strategy)
  | OpFromDecimalRounded v scale strategy => via AnsChecked (Fees.NewFeeFromDecimalRounded v scale strategy)
  | OpDecimal v => ret (AnsDecimal (Fees.Decimal_ v))
  | OpFloat v => via AnsFloat (Fees.Float v)
  | OpString v => via AnsString (Fees.String_ v)
  | OpIsZero v => via AnsBool (Fees.IsZero v)
  | OpEqual v other => via AnsBool (Fees.Equal v other)
  | OpCompare v other => via AnsInt (Fees.Compare v other)
  | OpCheckedAdd v other => via AnsChecked (Fees.CheckedAdd v other)
  | OpCheckedSub v other => via AnsChecked (Fees.CheckedSub v other)
  | OpCheckedNeg v => via AnsChecked (Fees.CheckedNeg v)
  | OpCheckedMulInt v x => via AnsChecked (Fees.CheckedMulInt v x)
  | OpCheckedMulUint v x => via AnsChecked (Fees.CheckedMulUint v x)
  | OpCheckedMulFloat v x => via AnsChecked (Fees.CheckedMulFloat v x)
  | OpCheckedDivInt v x => via AnsChecked (Fees.CheckedDivInt v x)
  | OpCheckedDivUint v x => via AnsChecked (Fees.CheckedDivUint v x)
  | OpCheckedDivFloat v x => via AnsChecked (Fees.CheckedDivFloat v x)
  | OpCheckedRemInt v x => via AnsChecked (Fees.CheckedRemInt v x)
  | OpCheckedRemUint v x => via AnsChecked (Fees.CheckedRemUint v x)
  | OpCheckedRemFloat v x => via AnsChecked (Fees.CheckedRemFloat v x)
  end.
Definition performNotional (op : numericOp) : N numericAnswer :=
  match op with
  | OpZero => via AnsValue Notionals.NewNotionalZero
  | OpFromDecimal v => via AnsChecked (Notionals.NewNotionalFromDecimal v)
  | OpFromString v => via AnsChecked (Notionals.NewNotionalFromString v)
  | OpFromInt64 v => via AnsChecked (Notionals.NewNotionalFromInt64 v)
  | OpFromUint64 v => via AnsChecked (Notionals.NewNotionalFromUint64 v)
  | OpFromFloat v => via AnsChecked (Notionals.NewNotionalFromFloat v)
  | OpFromStringRounded v scale strategy => via AnsChecked (Notionals.NewNotionalFromStringRounded v scale strategy)
  | OpFromFloatRounded v scale strategy => via AnsChecked (Notionals.NewNotionalFromFloatRounded v scale strategy)
  | OpFromDecimalRounded v scale strategy => via AnsChecked (Notionals.NewNotionalFromDecimalRounded v scale strategy)
  | OpDecimal v => ret (AnsDecimal (Notionals.Decimal_ v))
  | OpFloat v => via AnsFloat (Notionals.Float v)
  | OpString v => via AnsString (Notionals.String_ v)
  | OpIsZero v => via AnsBool (Notionals.IsZero v)
  | OpEqual v other => via AnsBool (Notionals.Equal v other)
  | OpCompare v other => via AnsInt (Notionals.Compare v other)
  | OpCheckedAdd v other => via AnsChecked (Notionals.CheckedAdd v other)
  | OpCheckedSub v other => via AnsChecked (Notionals.CheckedSub v other)
  | OpCheckedNeg _ => ret AnsNoSuchMethod
  | OpCheckedMulInt v x => via AnsChecked (Notionals.CheckedMulInt v x)
  | OpCheckedMulUint v x => via AnsChecked (Notionals.CheckedMulUint v x)
  | OpCheckedMulFloat v x => via AnsChecked (Notionals.CheckedMulFloat v x)
  | OpCheckedDivInt v x => via AnsChecked (Notionals.CheckedDivInt v x)
  | OpCheckedDivUint v x => via AnsChecked (Notionals.CheckedDivUint v x)
  | OpCheckedDivFloat v x => via AnsChecked (Notionals.CheckedDivFloat v x)
  | OpCheckedRemInt v x => via AnsChecked (Notionals.CheckedRemInt v x)
  | OpCheckedRemUint v x => via AnsChecked (Notionals.CheckedRemUint v x)
  | OpCheckedRemFloat v x => via AnsChecked (Notionals.CheckedRemFloat v x)
  end.
Definition perform (k : kind) (op : numericOp) : N numericAnswer :=
  match k with
  | KPnl => performPnl op
  | KPrice => performPrice op
  | KQuantity => performQuantity op
  | KVolume => performVolume op
  | KCashFlow => performCashFlow op
  | KPositionSize => performPositionSize op
  | KFee => performFee op
  | KNotional => performNotional op
  end.

(** The operations between two types, each of which one type has. *)
Inductive crossOp :=
| PnlFromFee (v : Fee) | PnlCashFlow (v : Pnl) | PnlPositionSize (v : Pnl)
| PriceVolume (v : Price) (q : Quantity) | PricePositionSize (v : Price) (q : Quantity)
| QuantityVolume (v : Quantity) (p : Price) | QuantityPositionSize (v : Quantity)
| VolumePositionSize (v : Volume) | VolumeInflow (v : Volume) | VolumeOutflow (v : Volume)
| VolumeQuantity (v : Volume) (p : Price)
| CashFlowFromPnl (v : Pnl) | CashFlowFromFee (v : Fee)
| CashFlowFromInflow (v : Volume) | CashFlowFromOutflow (v : Volume)
| PositionSizeFromPnl (v : Pnl) | PositionSizeFromFee (v : Fee)
| PositionSizeFromSide (q : Quantity) (side : Side)
| PositionSizeOpen (v : PositionSize) | PositionSizeClose (v : PositionSize)
| PositionSizeAdd (v : PositionSize) (q : Quantity) (side : Side)
| FeePnl (v : Fee) | FeeCashFlow (v : Fee) | FeePositionSize (v : Fee)
| NotionalFromVolume (v : Volume) | NotionalVolume (v : Notional)
| NotionalMargin (v : Notional) (leverage : Leverage).

Definition performCross (op : crossOp) : N numericAnswer :=
  match op with
  | PnlFromFee v => via AnsChecked (Pnls.NewPnlFromFee v)
  | PnlCashFlow v => via AnsChecked (Pnls.CashFlow_ v)
  | PnlPositionSize v => via AnsChecked (Pnls.PositionSize_ v)
  | PriceVolume v q => via AnsChecked (Prices.CalculateVolume v q)
  | PricePositionSize v q => via AnsChecked (Prices.CalculatePositionSize v q)
  | QuantityVolume v p => via AnsChecked (Quantities.CalculateVolume v p)
  | QuantityPositionSize v => via AnsValue (Quantities.ToPositionSize v)
  | VolumePositionSize v => via AnsValue (Volumes.ToPositionSize v)
  | VolumeInflow v => via AnsValue (Volumes.CashFlowInflow v)
  | VolumeOutflow v => via AnsValue (Volumes.CashFlowOutflow v)
  | VolumeQuantity v p => via AnsChecked (Volumes.CalculateQuantity v p)
  | CashFlowFromPnl v => via AnsChecked (CashFlows.NewCashFlowFromPnl v)
  | CashFlowFromFee v => via AnsChecked (CashFlows.NewCashFlowFromFee v)
  | CashFlowFromInflow v => via AnsChecked (CashFlows.NewCashFlowFromVolumeInflow v)
  | CashFlowFromOutflow v => via AnsChecked (CashFlows.NewCashFlowFromVolumeOutflow v)
  | PositionSizeFromPnl v => via AnsChecked (PositionSizes.NewPositionSizeFromPnl v)
  | PositionSizeFromFee v => via AnsChecked (PositionSizes.NewPositionSizeFromFee v)
  | PositionSizeFromSide q side => via AnsChecked (PositionSizes.NewPositionSizeFromQuantityAndSide q side)
  | PositionSizeOpen v => via (fun r => AnsSided (fst r) (Some (snd r))) (PositionSizes.OpenQuantity v)
  | PositionSizeClose v => via (fun r => AnsSided (fst r) (snd r)) (PositionSizes.CloseQuantity v)
  | PositionSizeAdd v q side => via AnsChecked (PositionSizes.CheckedAddQuantity v q side)
  | FeePnl v => via AnsChecked (Fees.Pnl_ v)
  | FeeCashFlow v => via AnsChecked (Fees.CashFlow_ v)
  | FeePositionSize v => via AnsChecked (Fees.PositionSize_ v)
  | NotionalFromVolume v => via AnsChecked (Notionals.NewNotionalFromVolume v)
  | NotionalVolume v => via AnsChecked (Notionals.Volume_ v)
  | NotionalMargin v leverage => via AnsChecked (Notionals.CalculateMarginRequired v leverage)
  end.

(** ** The reference

    One definition for all kinds: what the native function of the operation says, without
    a heap. [name] is the native name of the kind. *)
Definition name (k : kind) : string :=
  match k with
  | KPnl => "pnl"
  | KPrice => "price"
  | KQuantity => "quantity"
  | KVolume => "volume"
  | KCashFlow => "cash_flow"
  | KPositionSize => "position_size"
  | KFee => "fee"
  | KNotional => "notional"
  end.
Definition createFailed (k : kind) (suffix : string) : string := "openpit_create_param_" ++ name k ++ suffix ++ " failed".
Definition opFailed (k : kind) (op : string) : string := "openpit_param_" ++ name k ++ "_" ++ op ++ " failed".
Definition checkedResult (fallback : string) (r : nativeResult ParamDecimal) : ParamDecimal * option error :=
  resultOrZero zeroValue fallback r.
Definition answered {A} (f : A -> numericAnswer) (fallback : string) (r : nativeResult A) : outcome numericAnswer :=
  match r with
  | NativeOk a => Ret (f a)
  | NativeFailed _ e => Panic (PanicError (paramErrorOf fallback e))
  end.
Definition converted (v : Decimal) (f : ParamDecimal -> ParamDecimal * option error) : outcome numericAnswer :=
  Ret (AnsChecked (match NewNativeDecimalFromDecimal v with
                   | inr err => (zeroValue, Some err)
                   | inl d => f d
                   end)).
Definition decimalOf (k : kind) (v : ParamDecimal) : ParamDecimal :=
  match k with KNotional => openpit_param_notional_get_decimal v | _ => v end.
Definition hasNeg (k : kind) : bool :=
  match k with KQuantity | KVolume | KNotional => false | _ => true end.

Definition reference (k : kind) (op : numericOp) : outcome numericAnswer :=
  let create suffix r := Ret (AnsChecked (checkedResult (createFailed k suffix) r)) in
  let arith op r := Ret (AnsChecked (checkedResult (opFailed k op) r)) in
  match op with
  | OpZero => answered AnsValue (createFailed k "_from_int64") (openpit_create_param_from_int64 k 0)
  | OpFromDecimal v => converted v (fun d => checkedResult (createFailed k EmptyString) (openpit_create_param k d))
  | OpFromString v => create "_from_string"%string (openpit_create_param_from_string k v)
  | OpFromInt64 v => create "_from_int64"%string (openpit_create_param_from_int64 k v)
  | OpFromUint64 v => create "_from_uint64"%string (openpit_create_param_from_uint64 k v)
  | OpFromFloat v => create "_from_f64"%string (openpit_create_param_from_f64 k v)
  | OpFromStringRounded v n r => create "_from_string_rounded"%string (openpit_create_param_from_string_rounded k v n r)
  | OpFromFloatRounded v n r => create "_from_f64_rounded"%string (openpit_create_param_from_f64_rounded k v n r)
  | OpFromDecimalRounded v n r => converted v (fun d =>
      checkedResult (createFailed k "_from_decimal_rounded") (openpit_create_param_from_decimal_rounded k d n r))
  | OpDecimal v => Ret (AnsDecimal (NewDecimalFromNative (decimalOf k v)))
  | OpFloat v => answered AnsFloat (opFailed k "to_f64") (openpit_param_to_f64 k v)
  | OpString v => answered AnsString (opFailed k "to_string") (openpit_param_to_string k v)
  | OpIsZero v => answered AnsBool (opFailed k "is_zero") (openpit_param_is_zero k v)
  | OpEqual v w => answered (fun c => AnsBool (c =? 0)%Z) (opFailed k "compare") (openpit_param_compare k v w)
  | OpCompare v w => answered AnsInt (opFailed k "compare") (openpit_param_compare k v w)
  | OpCheckedAdd v w => arith "checked_add"%string (openpit_param_checked_add k v w)
  | OpCheckedSub v w => arith "checked_sub"%string (openpit_param_checked_sub k v w)
  | OpCheckedNeg v => if hasNeg k then arith "checked_neg"%string (openpit_param_checked_neg k v) else Ret AnsNoSuchMethod
  | OpCheckedMulInt v x => arith "checked_mul_i64"%string (openpit_param_checked_mul_i64 k v x)
  | OpCheckedMulUint v x => arith "checked_mul_u64"%string (openpit_param_checked_mul_u64 k v x)
  | OpCheckedMulFloat v x => arith "checked_mul_f64"%string (openpit_param_checked_mul_f64 k v x)
  | OpCheckedDivInt v x => arith "checked_div_i64"%string (openpit_param_checked_div_i64 k v x)
  | OpCheckedDivUint v x => arith "checked_div_u64"%string (openpit_param_checked_div_u64 k v x)
  | OpCheckedDivFloat v x => arith "checked_div_f64"%string (openpit_param_checked_div_f64 k v x)
  | OpCheckedRemInt v x => arith "checked_rem_i64"%string (openpit_param_checked_rem_i64 k v x)
  | OpCheckedRemUint v x => arith "checked_rem_u64"%string (openpit_param_checked_rem_u64 k v x)
  | OpCheckedRemFloat v x => arith "checked_rem_f64"%string (openpit_param_checked_rem_f64 k v x)
  end.

(** What an operation between types answers: its own native function, and the text of
    a failure that brings none. *)
Definition crossName (op : crossOp) : string :=
  match op with
  | PnlFromFee _ => "pnl_from_fee" | PnlCashFlow _ => "pnl_to_cash_flow"
  | PnlPositionSize _ => "pnl_to_position_size"
  | PriceVolume _ _ => "price_calculate_volume" | PricePositionSize _ _ => "price_calculate_position_size"
  | QuantityVolume _ _ => "quantity_calculate_volume" | QuantityPositionSize _ => "quantity_to_position_size"
  | VolumePositionSize _ => "volume_to_position_size" | VolumeInflow _ => "volume_to_cash_flow_inflow"
  | VolumeOutflow _ => "volume_to_cash_flow_outflow" | VolumeQuantity _ _ => "volume_calculate_quantity"
  | CashFlowFromPnl _ => "cash_flow_from_pnl" | CashFlowFromFee _ => "cash_flow_from_fee"
  | CashFlowFromInflow _ => "cash_flow_from_volume_inflow" | CashFlowFromOutflow _ => "cash_flow_from_volume_outflow"
  | PositionSizeFromPnl _ => "position_size_from_pnl" | PositionSizeFromFee _ => "position_size_from_fee"
  | PositionSizeFromSide _ _ => "position_size_from_quantity_and_side"
  | PositionSizeOpen _ => "position_size_to_open_quantity" | PositionSizeClose _ => "position_size_to_close_quantity"
  | PositionSizeAdd _ _ _ => "position_size_checked_add_quantity"
  | FeePnl _ => "fee_to_pnl" | FeeCashFlow _ => "fee_to_cash_flow" | FeePositionSize _ => "fee_to_position_size"
  | NotionalFromVolume _ => "notional_from_volume" | NotionalVolume _ => "notional_to_volume"
  | NotionalMargin _ _ => "notional_calculate_margin_required"
  end.
Definition crossFailed (op : crossOp) : string := "openpit_param_" ++ crossName op ++ " failed".
(** A quantity with the side the native code gives it. *)
Definition sided (unset : ParamQuantity -> outcome numericAnswer) (r : ParamQuantity * ParamSide) : outcome numericAnswer :=
  let '(q, side) := r in
  if (side =? ParamSideSell)%Z then Ret (AnsSided q (Some SideSell))
  else if (side =? ParamSideBuy)%Z then Ret (AnsSided q (Some SideBuy))
  else if (side =? ParamSideNotSet)%Z then unset q
  else Panic PositionSizes.unknownSide.
Definition crossReference (op : crossOp) : outcome numericAnswer :=
  let checked r := Ret (AnsChecked (checkedResult (crossFailed op) r)) in
  let value r := answered AnsValue (crossFailed op) r in
  let quantity unset r :=
    match r with
    | NativeOk a => sided unset a
    | NativeFailed _ e => Panic (PanicError (paramErrorOf (crossFailed op) e))
    end in
  match op with
  | PnlFromFee v => checked (openpit_param_pnl_from_fee v)
  | PnlCashFlow v => checked (openpit_param_pnl_to_cash_flow v)
  | PnlPositionSize v => checked (openpit_param_pnl_to_position_size v)
  | PriceVolume v q => checked (openpit_param_price_calculate_volume v q)
  | PricePositionSize v q => checked (openpit_param_price_calculate_position_size v q)
  | QuantityVolume v p => checked (openpit_param_quantity_calculate_volume v p)
  | QuantityPositionSize v => value (openpit_param_quantity_to_position_size v)
  | VolumePositionSize v => value (openpit_param_volume_to_position_size v)
  | VolumeInflow v => value (openpit_param_volume_to_cash_flow_inflow v)
  | VolumeOutflow v => value (openpit_param_volume_to_cash_flow_outflow v)
  | VolumeQuantity v p => checked (openpit_param_volume_calculate_quantity v p)
  | CashFlowFromPnl v => checked (openpit_param_cash_flow_from_pnl v)
  | CashFlowFromFee v => checked (openpit_param_cash_flow_from_fee v)
  | CashFlowFromInflow v => checked (openpit_param_cash_flow_from_volume_inflow v)
  | CashFlowFromOutflow v => checked (openpit_param_cash_flow_from_volume_outflow v)
  | PositionSizeFromPnl v => checked (openpit_param_position_size_from_pnl v)
  | PositionSizeFromFee v => checked (openpit_param_position_size_from_fee v)
  | PositionSizeFromSide q side => checked (openpit_param_position_size_from_quantity_and_side q (SideHandle side))
  | PositionSizeOpen v =>
    quantity (fun _ => Panic PositionSizes.optionEmpty) (openpit_param_position_size_to_open_quantity v)
  | PositionSizeClose v =>
    quantity (fun q => Ret (AnsSided q None)) (openpit_param_position_size_to_close_quantity v)
  | PositionSizeAdd v q side => checked (openpit_param_position_size_checked_add_quantity v q (SideHandle side))
  | FeePnl v => checked (openpit_param_fee_to_pnl v)
  | FeeCashFlow v => checked (openpit_param_fee_to_cash_flow v)
  | FeePositionSize v => checked (openpit_param_fee_to_position_size v)
  | NotionalFromVolume v => checked (openpit_param_notional_from_volume v)
  | NotionalVolume v => checked (openpit_param_notional_to_volume v)
  | NotionalMargin v leverage => checked (openpit_param_notional_calculate_margin_required v (LeverageHandle leverage))
  end.

(** ** The shapes *)

Lemma via_gives {A} (f : A -> numericAnswer) (m : N A) s o :
  heapOk s -> gives m s o -> gives (via f m) s (match o with Ret a => Ret (f a) | Panic v => Panic v end).
Proof.
  intros _ (s' & E & L). exists s'. split; [|done]. unfold via, bind. rewrite E. by destruct o.
Qed.
Lemma checked_gives {A} (wrap : A -> ParamDecimal) (m : N (A * option error)) s r :
  gives m s (Ret r) ->
  gives (checked wrap m) s (Ret (match snd r with Some err => (zeroValue, Some err) | None => (wrap (fst r), None) end)).
Proof.
  intros (s' & E & L). exists s'. split; [|done]. unfold checked. rewrite (bind_Ret _ _ _ _ _ E).
  by destruct r as [v [e|]].
Qed.
Lemma orPanic_gives {T} (m : N (T * option error)) s r :
  gives m s (Ret r) ->
  gives (newParamValueOrPanic m) s (match snd r with Some err => Panic (PanicError err) | None => Ret (fst r) end).
Proof.
  intros (s' & E & L). exists s'. split; [|done]. unfold newParamValueOrPanic. rewrite (bind_Ret _ _ _ _ _ E).
  by destruct r as [v [e|]].
Qed.
Lemma map_gives {A B} (m : N A) (f : A -> B) s o :
  gives m s o -> gives (let* a := m in ret (f a)) s (match o with Ret a => Ret (f a) | Panic v => Panic v end).
Proof. intros (s' & E & L). exists s'. split; [|done]. unfold bind. rewrite E. by destruct o. Qed.
Lemma gives_eq {A} (m : N A) s o o' : gives m s o -> o = o' -> gives m s o'.
Proof. by intros H <-. Qed.

(** One lemma per shape of method; a method of the shape is its instance by conversion. *)
Lemma checked_method fallback (r : nativeResult ParamDecimal) s :
  heapOk s ->
  gives (via AnsChecked (checked (fun v => v) (outParam fallback r))) s (Ret (AnsChecked (checkedResult fallback r))).
Proof.
  intros H. eapply gives_eq; [eapply via_gives, checked_gives, outParam_gives; done|]. by destruct r.
Qed.
Lemma zero_constructor fallback (r : nativeResult ParamDecimal) s :
  heapOk s ->
  gives (via AnsValue (newParamValueOrPanic (checked (fun v => v) (outParam fallback r)))) s
    (answered AnsValue fallback r).
Proof.
  intros H. eapply gives_eq; [eapply via_gives, orPanic_gives, checked_gives, outParam_gives; done|]. by destruct r.
Qed.
Lemma reader {A} (f : A -> numericAnswer) zero fallback (r : nativeResult A) s :
  heapOk s -> gives (via f (newParamValueOrPanic (outOrZero zero fallback r))) s (answered f fallback r).
Proof. intros H. eapply gives_eq; [eapply via_gives, orPanic_gives, outOrZero_gives; done|]. by destruct r. Qed.
Lemma string_reader (f : string -> numericAnswer) fallback r s :
  heapOk s -> gives (via f (newParamValueOrPanic (outString fallback r))) s (answered f fallback r).
Proof. intros H. eapply gives_eq; [eapply via_gives, orPanic_gives, outString_gives; done|]. by destruct r. Qed.
Lemma equality fallback (r : nativeResult Z) s :
  heapOk s ->
  gives (via AnsBool (let* c := newParamValueOrPanic (outOrZero 0%Z fallback r) in ret (c =? 0)%Z)) s
    (answered (fun c => AnsBool (c =? 0)%Z) fallback r).
Proof.
  intros H. eapply gives_eq; [eapply via_gives, map_gives, orPanic_gives, outOrZero_gives; done|]. by destruct r.
Qed.
Lemma conversion v (m : ParamDecimal -> N (ParamDecimal * option error)) f s :
  heapOk s ->
  (forall d, gives (via AnsChecked (m d)) s (Ret (AnsChecked (f d)))) ->
  gives (via AnsChecked (match NewNativeDecimalFromDecimal v with
                         | inr err => ret (zeroValue, Some err)
                         | inl d => m d
                         end)) s (converted v f).
Proof.
  intros H Hm. unfold converted. destruct (NewNativeDecimalFromDecimal v); [apply Hm|]. by exists s.
Qed.

(** A conversion that panics instead of returning an error. *)
Lemma panicking fallback (r : nativeResult ParamDecimal) s :
  heapOk s ->
  gives (via AnsValue (let* p := newParamValueOrPanic (outParam fallback r) in ret p)) s
    (answered AnsValue fallback r).
Proof.
  intros H. eapply gives_eq; [eapply via_gives, map_gives, orPanic_gives, outParam_gives; done|]. by destruct r.
Qed.
(** A quantity and a side, read by [f]. *)
Lemma sided_gives {A} (f : ParamQuantity * ParamSide -> N A) (g : A -> numericAnswer) fallback r o s :
  heapOk s ->
  (forall a s', via g (f a) s' = (o a, s')) ->
  gives (via g (let* a := PositionSizes.newPositionSizeQuantitySideOrPanic (outParam fallback r) in f a)) s
    (match r with NativeOk a => o a | NativeFailed _ e => Panic (PanicError (paramErrorOf fallback e)) end).
Proof.
  intros H Hf. destruct (orPanic_gives _ s _ (outParam_gives fallback r s H)) as (s' & E & L).
  exists s'. split; [|done]. unfold via, PositionSizes.newPositionSizeQuantitySideOrPanic in *.
  unfold bind at 1 2. rewrite E. destruct r as [a|a e]; cbn [resultOf fst snd]; [|done].
  specialize (Hf a s'). exact Hf.
Qed.
Lemma cross_gives (op : crossOp) s : heapOk s -> gives (performCross op) s (crossReference op).
Proof.
  intros H. destruct op;
    try first [exact (checked_method _ _ s H) | exact (panicking _ _ s H)].
  all: refine (sided_gives _ _ _ _ _ s H _); intros [q side] s';
    unfold sided, via, bind, PositionSizes.sideOf, ParamSideSell, ParamSideBuy, ParamSideNotSet.
  all: destruct (Z.eqb_spec side 0) as [->|?]; [done|].
  all: by destruct (side =? 2)%Z, (side =? 1)%Z.
Qed.

Lemma paramErrorOf_class fallback e target :
  errors_Is target (paramErrorOf fallback e) = true <->
  exists code msg sentinel, e = Some (mkParamError code msg) /\ paramErrorByCode code = Some sentinel /\
    sentinel = ESentinel target.
Proof.
  rewrite paramErrorOf_Is. split.
  - destruct e as [[code msg]|]; [|done]. cbn. destruct (paramErrorByCode code) as [x|] eqn:E; [|done].
    intros H. exists code, msg, x. split; [done|]. split; [done|].
    assert (exists t, x = ESentinel t) as [t ->].
    { unfold paramErrorByCode in E. repeat (case_match; [injection E as <-; by eexists|]). done. }
    cbn in H. apply bool_decide_eq_true in H. by subst.
  - intros (code & msg & x & -> & E & ->). cbn. rewrite E. cbn. by apply bool_decide_eq_true.
Qed.

(** C17: Each of the 27 operations that the eight numeric types share (three have no
    [CheckedNeg]), in any state, is the one reference operation of its kind, so the eight hand-copied types cannot
    differ, and each of the 27 operations between two types is its own native function: a
    checked operation returns the native value, or the zero value with the error of the
    native code; a reading operation and a conversion without an error result return the
    native answer and panic exactly when the native call fails, or when a position has no
    side to open with or one that is none. In each case nothing is left behind: the native errors and strings
    that are live are those that were live before, and none is used after it is
    destroyed. An error is in the class of the native code and in no other. *)
Theorem numeric_types_are_one_program (k : kind) (op : numericOp) (s : NativeHeap) :
  heapOk s ->
  gives (perform k op) s (reference k op) /\
  (forall cross, gives (performCross cross) s (crossReference cross)) /\
  (forall fallback e target, errors_Is target (paramErrorOf fallback e) = true <->
     exists code msg sentinel, e = Some (mkParamError code msg) /\ paramErrorByCode code = Some sentinel /\
       sentinel = ESentinel target).
Proof.
  intros H. split; [|split].
  - destruct k, op;
      first [ exact (checked_method _ _ s H) | exact (reader _ _ _ _ s H) | exact (string_reader _ _ _ s H)
            | exact (equality _ _ s H) | exact (zero_constructor _ _ s H)
            | exact (conversion _ _ _ s H (fun d => checked_method _ _ s H)) | exact (gives_ret _ s) ].
  - intros cross. by apply cross_gives.
  - apply paramErrorOf_class.
Qed.
End Types.

(** A native library that adds, rejects a sum that overflows, and fails elsewhere. *)
#[export] Instance additions : NativeParam Z :=
  {|
    f64_zero := 0%Z;
    openpit_create_param _ _ := NativeFailed zeroValue None;
    openpit_create_param_from_string _ _ := NativeFailed zeroValue None;
    openpit_create_param_from_f64 _ _ := NativeFailed zeroValue None;
    openpit_create_param_from_int64 _ v := NativeOk (mkDecimal v 0 0);
    openpit_create_param_from_uint64 _ _ := NativeFailed zeroValue None;
    openpit_create_param_from_string_rounded _ _ _ _ := NativeFailed zeroValue None;
    openpit_create_param_from_f64_rounded _ _ _ _ := NativeFailed zeroValue None;
    openpit_create_param_from_decimal_rounded _ _ _ _ := NativeFailed zeroValue None;
    openpit_param_to_f64 _ _ := NativeFailed 0%Z None;
    openpit_param_is_zero _ _ := NativeFailed false None;
    openpit_param_compare _ _ _ := NativeFailed 0%Z None;
    openpit_param_to_string _ _ := NativeFailed EmptyString None;
    openpit_param_checked_add _ v w :=
      if (mantissa_lo v + mantissa_lo w <? 100)%Z then NativeOk (mkDecimal (mantissa_lo v + mantissa_lo w) 0 0)
      else NativeFailed zeroValue (Some (mkParamError 3 (Some "sum"%string)));
    openpit_param_checked_sub _ _ _ := NativeFailed zeroValue None;
    openpit_param_checked_neg _ _ := NativeFailed zeroValue None;
    openpit_param_checked_mul_i64 _ _ _ := NativeFailed zeroValue None;
    openpit_param_checked_mul_u64 _ _ _ := NativeFailed zeroValue None;
    openpit_param_checked_mul_f64 _ _ _ := NativeFailed zeroValue None;
    openpit_param_checked_div_i64 _ _ _ := NativeFailed zeroValue None;
    openpit_param_checked_div_u64 _ _ _ := NativeFailed zeroValue None;
    openpit_param_checked_div_f64 _ _ _ := NativeFailed zeroValue None;
    openpit_param_checked_rem_i64 _ _ _ := NativeFailed zeroValue None;
    openpit_param_checked_rem_u64 _ _ _ := NativeFailed zeroValue None;
    openpit_param_checked_rem_f64 _ _ _ := NativeFailed zeroValue None;
    openpit_param_notional_get_decimal v := v;
    openpit_param_pnl_to_cash_flow _ := NativeFailed zeroValue None;
    openpit_param_pnl_to_position_size _ := NativeFailed zeroValue None;
    openpit_param_quantity_to_position_size _ := NativeFailed zeroValue None;
    openpit_param_volume_to_position_size _ := NativeFailed zeroValue None;
    openpit_param_pnl_from_fee _ := NativeFailed zeroValue None;
    openpit_param_price_calculate_volume _ _ := NativeFailed zeroValue None;
    openpit_param_price_calculate_position_size _ _ := NativeFailed zeroValue None;
    openpit_param_quantity_calculate_volume _ _ := NativeFailed zeroValue None;
    openpit_param_volume_calculate_quantity _ _ := NativeFailed zeroValue None;
    openpit_param_volume_to_cash_flow_inflow _ := NativeFailed zeroValue None;
    openpit_param_volume_to_cash_flow_outflow _ := NativeFailed zeroValue None;
    openpit_param_notional_from_volume _ := NativeFailed zeroValue None;
    openpit_param_notional_to_volume _ := NativeFailed zeroValue None;
    openpit_param_notional_calculate_margin_required _ _ := NativeFailed zeroValue None;
    openpit_param_price_calculate_notional _ _ := NativeFailed zeroValue None;
    openpit_param_quantity_calculate_notional _ _ := NativeFailed zeroValue None;
    openpit_param_volume_from_notional _ := NativeFailed zeroValue None;
    openpit_param_cash_flow_from_pnl _ := NativeFailed zeroValue None;
    openpit_param_cash_flow_from_fee _ := NativeFailed zeroValue None;
    openpit_param_cash_flow_from_volume_inflow _ := NativeFailed zeroValue None;
    openpit_param_cash_flow_from_volume_outflow _ := NativeFailed zeroValue None;
    openpit_param_position_size_from_pnl _ := NativeFailed zeroValue None;
    openpit_param_position_size_from_fee _ := NativeFailed zeroValue None;
    openpit_param_position_size_from_quantity_and_side _ _ := NativeFailed zeroValue None;
    openpit_param_position_size_to_open_quantity _ := NativeFailed (zeroValue, 0%Z) None;
    openpit_param_position_size_to_close_quantity _ := NativeFailed (zeroValue, 0%Z) None;
    openpit_param_position_size_checked_add_quantity _ _ _ := NativeFailed zeroValue None;
    openpit_param_fee_to_pnl _ := NativeFailed zeroValue None;
    openpit_param_fee_to_position_size _ := NativeFailed zeroValue None;
    openpit_param_fee_to_cash_flow _ := NativeFailed zeroValue None
  |}.
#[local] Instance pairDecimals : DecimalLibrary :=
  {| Decimal := Z * Z; Coefficient := fst; Exponent := snd; NewFromBigInt := pair;
     Coefficient_New _ _ := eq_refl; Exponent_New _ _ := eq_refl |}.

Lemma numeric_types_are_one_program_witness :
  let s := mkNativeHeap 1 {[0%Z := mkParamError 2 None]} ∅ in
  heapOk s /\
  gives (perform (F64 := Z) KFee (OpCheckedAdd (mkDecimal 60 0 0) (mkDecimal 60 0 0))) s
    (Ret (AnsChecked (zeroValue, Some (EWrap "sum" ErrOverflow)))).
Proof.
  assert (heapOk (mkNativeHeap 1 {[0%Z := mkParamError 2 None]} ∅)) as H.
  { split; cbn; intros h [e He]; [apply lookup_singleton_Some in He as [<- _]; lia|by rewrite lookup_empty in He]. }
  split; [exact H|].
  exact (proj1 (numeric_types_are_one_program (F64 := Z) KFee (OpCheckedAdd (mkDecimal 60 0 0) (mkDecimal 60 0 0)) _ H)).
Defined.
