(* ===== verification/ServiceStore.v ===== *)
(** * Native services behind Go objects

    A market-data service and a reference book are native objects that Go objects hold a
    handle of. [Store] has the native handles that are live with the registry each
    stands for, and the Go objects with their handle or nil; a native call on a handle
    that is not live aborts the process. What a registry contains is the native
    library's.

    Every method holds the object's read lock for its whole body and [Close] holds the
    write lock, so a method is one step here; ServiceLock.v has the locks. *)
From Stdlib Require Import ZArith Lia.
From stdpp Require Import base list gmap strings.
From S2P Require Import Prelude GoRuntime NativeErrors.

Record Store (R : Type) := mkStore {
  heap : NativeHeap;
  nextHandle : Z;
  live : gmap Z Z;
  registries : gmap Z R;
  objects : list (option Z);
}.
Arguments mkStore {R} _ _ _ _ _.
Arguments heap {R} _.
Arguments nextHandle {R} _.
Arguments live {R} _.
Arguments registries {R} _.
Arguments objects {R} _.
Abbreviation objRef := nat.

(** The registry after a call, a status, the out parameter, the error text. *)
Abbreviation statusCall R A := (R -> R * (Z * A * option string)).

Definition nilObject : panicValue := PanicOther 7.

Section Store.
Context {R : Type}.
Abbreviation St := (Store R).
Abbreviation SM := (M St).

(** ** The native side *)

Definition createService (x : R) : SM Z := fun s =>
  let h := nextHandle s in
  (Ret h, mkStore (heap s) (h + 1) (<[h := h]> (live s)) (<[h := x]> (registries s)) (objects s)).
Definition cloneService (h : Z) : SM Z := fun s =>
  match live s !! h with
  | Some g => let h' := nextHandle s in
    (Ret h', mkStore (heap s) (h' + 1) (<[h' := g]> (live s)) (registries s) (objects s))
  | None => (Panic nativeAbort, s)
  end.
Definition destroyService (h : Z) : SM unit := fun s =>
  match live s !! h with
  | Some _ => (Ret tt, mkStore (heap s) (nextHandle s) (delete h (live s)) (registries s) (objects s))
  | None => (Panic nativeAbort, s)
  end.
Definition registryOf (s : St) (h : Z) : option (Z * R) :=
  g ← live s !! h; x ← registries s !! g; Some (g, x).
Definition call {A} (h : Z) (f : R -> R * A) : SM A := fun s =>
  match registryOf s h with
  | Some (g, x) => let '(x, a) := f x in
    (Ret a, mkStore (heap s) (nextHandle s) (live s) (<[g := x]> (registries s)) (objects s))
  | None => (Panic nativeAbort, s)
  end.
(** A call that touches errors and strings only. *)
Definition onHeap {A} (m : N A) : SM A := fun s =>
  let '(o, h) := m (heap s) in (o, mkStore h (nextHandle s) (live s) (registries s) (objects s)).

(** The error text of a call: written to the heap by the native side, which writes one
    with a failure only, and consumed by ours. *)
Definition outMessage (failed : bool) (message : option string) (fallback : string) : SM (option error) :=
  if failed then
    let* h := onHeap (allocString message) in
    let* err := onHeap (consumeSharedStringAsError h fallback) in
    ret (Some err)
  else ret None.

(** A call that answers a status and an out parameter, with the text of an error. *)
Definition withStatus {A} (errorStatus : Z) (fallback : string) (m : SM (Z * A * option string)) : SM (Z * A * option error) :=
  let* (status, out, message) := m in
  let* err := outMessage (status =? errorStatus)%Z message fallback in
  ret (status, out, err).

(** ** The Go side *)

Definition newObject (h : Z) : SM objRef := fun s =>
  (Ret (length (objects s)),
   mkStore (heap s) (nextHandle s) (live s) (registries s) (objects s ++ [Some h])).
Definition handleOf (r : objRef) : SM (option Z) := fun s =>
  match objects s !! r with
  | Some h => (Ret h, s)
  | None => (Panic nilObject, s)
  end.
Definition setHandle (r : objRef) (h : option Z) : SM unit :=
  modify (fun s => mkStore (heap s) (nextHandle s) (live s) (registries s) (<[r := h]> (objects s))).
Definition CloseObject (r : objRef) : SM unit :=
  let* h := handleOf r in
  match h with
  | None => ret tt
  | Some h => destroyService h ;;; setHandle r None
  end.
(** A method: what it answers on a closed object, and what it does with the handle. *)
Definition withHandle {A} (r : objRef) (closed : A) (m : Z -> SM A) : SM A :=
  let* h := handleOf r in
  match h with
  | None => ret closed
  | Some h => m h
  end.

(** ** Invariant

    A handle is in one place: the Go object that closes it, or the code a clone was
    handed to ([handed]). *)
Definition held (s : St) : list Z := omap id (objects s).
Record storeOk (handed : list Z) (s : St) : Prop := {
  ok_heap : heapOk (heap s);
  ok_next : forall h, is_Some (live s !! h) -> (h < nextHandle s)%Z;
  ok_next_reg : forall g, is_Some (registries s !! g) -> (g < nextHandle s)%Z;
  ok_reg : forall h g, live s !! h = Some g -> is_Some (registries s !! g);
  ok_nodup : NoDup (held s ++ handed);
  ok_live : forall h, is_Some (live s !! h) <-> h ∈ held s ++ handed;
}.

(** What a method leaves as it was. *)
Record sameHandles (s s' : St) : Prop := {
  same_heap : nothingLeft (heap s) (heap s');
  same_next : nextHandle s' = nextHandle s;
  same_live : live s' = live s;
  same_objects : objects s' = objects s;
}.
#[export] Instance sameHandles_preorder : PreOrder sameHandles.
Proof.
  split; [by split|]. intros s1 s2 s3 [] []. split; [by etransitivity| | |]; congruence.
Qed.

(** [does m s g x' o]: [m] ends in [o] and its only effect is that the registry [g]
    becomes [x']. *)
Definition does {A} (m : SM A) (s : St) (g : Z) (x' : R) (o : outcome A) : Prop :=
  exists s', m s = (o, s') /\ sameHandles s s' /\ registries s' = <[g := x']> (registries s).

Lemma registryOf_live s h g x :
  registryOf s h = Some (g, x) <-> live s !! h = Some g /\ registries s !! g = Some x.
Proof.
  unfold registryOf. destruct (live s !! h) as [g'|]; cbn; [|naive_solver].
  destruct (registries s !! g') eqn:E; cbn; naive_solver.
Qed.
Lemma registry_exists handed s h : storeOk handed s -> is_Some (live s !! h) -> exists g x, registryOf s h = Some (g, x).
Proof. intros [] [g Hg]. destruct (ok_reg0 h g Hg) as [x Hx]. exists g, x. by apply registryOf_live. Qed.
Lemma held_spec s h : h ∈ held s <-> exists r, objects s !! r = Some (Some h).
Proof.
  unfold held. rewrite list_elem_of_omap. split.
  - intros (o & Ho & Eo). apply list_elem_of_lookup in Ho as [r Hr]. exists r. by rewrite Hr, <- Eo.
  - intros [r Hr]. exists (Some h). split; [by eapply list_elem_of_lookup_2|done].
Qed.
Lemma object_live handed s r h : storeOk handed s -> objects s !! r = Some (Some h) -> is_Some (live s !! h).
Proof. intros [] Hr. apply ok_live0, elem_of_app. left. apply held_spec. by exists r. Qed.

(** *** Steps of a method *)

Lemma does_ret {A} (a : A) s g x : registries s !! g = Some x -> does (ret a) s g x (Ret a).
Proof. intros E. exists s. split; [done|]. split; [done|]. by rewrite insert_id. Qed.
Lemma does_bind {A B} (m : SM A) (f : A -> SM B) s g x x' a o :
  registries s !! g = Some x -> does m s g x (Ret a) ->
  (forall s', sameHandles s s' -> registries s' = <[g := x]> (registries s) -> does (f a) s' g x' o) ->
  does (bind m f) s g x' o.
Proof.
  intros E (s1 & E1 & L1 & H1) Hf. destruct (Hf s1 L1 H1) as (s2 & E2 & L2 & H2).
  exists s2. rewrite (bind_Ret _ _ _ _ _ E1). split; [done|]. split; [by transitivity s1|].
  by rewrite H2, H1, insert_insert_eq.
Qed.
Lemma does_call {A B} h (f : R -> R * A) (k : A -> SM B) s g x o :
  registryOf s h = Some (g, x) ->
  (forall s', sameHandles s s' -> heap s' = heap s -> registries s' = <[g := fst (f x)]> (registries s) ->
     does (k (snd (f x))) s' g (fst (f x)) o) ->
  does (bind (call h f) k) s g (fst (f x)) o.
Proof.
  intros E Hk. set (s1 := mkStore (heap s) (nextHandle s) (live s) (<[g := fst (f x)]> (registries s)) (objects s)).
  assert (call h f s = (Ret (snd (f x)), s1)) as E1 by (unfold call; rewrite E; by destruct (f x)).
  destruct (Hk s1) as (s2 & E2 & L2 & H2); [by split|done|done|].
  exists s2. rewrite (bind_Ret _ _ _ _ _ E1). split; [done|]. split; [by transitivity s1|].
  rewrite H2. cbn. by rewrite insert_insert_eq.
Qed.

Definition messageOf (failed : bool) (message : option string) (fallback : string) : outcome (option error) :=
  if failed then
    match message with
    | Some msg => Ret (Some (messageError fallback msg))
    | None => Panic noSharedString
    end
  else Ret None.
Lemma does_message {A} failed message fallback (f : option error -> A) s g x :
  heapOk (heap s) -> registries s !! g = Some x ->
  does (let* err := outMessage failed message fallback in ret (f err)) s g x
    (match messageOf failed message fallback with Ret err => Ret (f err) | Panic v => Panic v end).
Proof.
  intros H E. unfold outMessage. destruct failed; [|by apply does_ret].
  destruct (alloc_message fallback message Some (heap s) H) as (h' & Eh & Lh).
  exists (mkStore h' (nextHandle s) (live s) (registries s) (objects s)). split; [|split; [by split|by rewrite insert_id]].
  assert (forall (m1 : N (option Z)) (m2 : option Z -> N error) (k : option error -> A),
    (let* err := (let* h := onHeap m1 in let* err := onHeap (m2 h) in ret (Some err)) in ret (k err)) s =
    let '(o, h') := (let* h := m1 in let* err := m2 h in ret (Some err)) (heap s) in
    (match o with Ret e => Ret (k e) | Panic v => Panic v end,
     mkStore h' (nextHandle s) (live s) (registries s) (objects s))) as Hlift.
  { intros m1 m2 k. unfold bind, onHeap, ret. destruct (m1 (heap s)) as [[h1|v] h1']; cbn; [|done].
    by destruct (m2 h1 h1') as [[]]. }
  rewrite Hlift, Eh. by destruct message.
Qed.

Lemma does_status {A B} errorStatus fallback (f : statusCall R A) h (k : Z * A * option error -> SM B) (a : Z * A * option error -> B) s g x :
  heapOk (heap s) -> registryOf s h = Some (g, x) -> (forall r, k r = ret (a r)) ->
  does (let* r := withStatus errorStatus fallback (call h f) in k r) s g (fst (f x))
    (let '(status, out, message) := snd (f x) in
     match messageOf (status =? errorStatus)%Z message fallback with
     | Ret err => Ret (a (status, out, err))
     | Panic v => Panic v
     end).
Proof.
  intros H E Hk. set (o := let '(status, out, message) := snd (f x) in _).
  assert (does (let* r := call h f in let '(status, out, message) := r in
    let* err := outMessage (status =? errorStatus)%Z message fallback in ret (a (status, out, err)))
    s g (fst (f x)) o) as (s' & Es & L & Hr).
  { apply does_call; [done|]. intros s1 L1 Hh Hr1. unfold o. destruct (snd (f x)) as [[status out] message].
    apply (does_message _ _ _ (fun err => a (status, out, err))); [by rewrite Hh|]. rewrite Hr1. apply lookup_insert_eq. }
  exists s'. split; [|done]. rewrite <- Es. unfold withStatus. rewrite bind_assoc. unfold bind at 1 4.
  destruct (call h f s) as [[[[status out] message]|v] s1]; [|done]. rewrite bind_assoc. unfold bind at 1 3.
  destruct (outMessage _ _ _ s1) as [[err|v] s2]; [|done]. unfold bind, ret at 1. by rewrite Hk.
Qed.

Lemma does_map {A B} (m : SM A) (f : A -> B) s g x o :
  does m s g x o -> does (let* a := m in ret (f a)) s g x (match o with Ret a => Ret (f a) | Panic v => Panic v end).
Proof. intros (s' & E & L). exists s'. split; [|done]. unfold bind. rewrite E. by destruct o. Qed.
Lemma does_pair {A B C} (m : SM (A * B)) (f : A -> B -> C) s g x o :
  does m s g x o ->
  does (let* (a, b) := m in ret (f a b)) s g x (match o with Ret (a, b) => Ret (f a b) | Panic v => Panic v end).
Proof. intros (s' & E & L). exists s'. split; [|done]. unfold bind. rewrite E. by destruct o as [[]|]. Qed.
Lemma does_plain {A} h (f : R -> R * A) s g x :
  registryOf s h = Some (g, x) -> does (call h f) s g (fst (f x)) (Ret (snd (f x))).
Proof.
  intros E. exists (mkStore (heap s) (nextHandle s) (live s) (<[g := fst (f x)]> (registries s)) (objects s)).
  split; [unfold call; rewrite E; by destruct (f x)|]. by split.
Qed.
Lemma does_eq {A} (m : SM A) s g x x' o o' : does m s g x o -> x = x' -> o = o' -> does m s g x' o'.
Proof. by intros D <- <-. Qed.

Lemma does_holds handed {A} (m : SM A) s g x h x' o :
  registryOf s h = Some (g, x) -> does m s g x' o -> storeOk handed s ->
  exists s', m s = (o, s') /\ sameHandles s s' /\ storeOk handed s' /\ registryOf s' h = Some (g, x').
Proof.
  intros E (s' & Em & L & Hr) K. apply registryOf_live in E as [El Er]. exists s'. split; [done|]. split; [done|].
  pose proof L as [L1 L2 L3 L4]. pose proof K as [K1 K2 K3 K4 K5 K6]. split.
  - assert (held s' = held s) as Eh by (unfold held; by rewrite L4).
    split; rewrite ?Eh, ?L3, ?L2; try done.
    + by eapply nothingLeft_ok.
    + intros g' Hg'. rewrite Hr in Hg'. destruct (decide (g' = g)) as [->|]; [apply K3; by eexists|].
      rewrite lookup_insert_ne in Hg' by done. by apply K3.
    + intros h' g' E'. rewrite Hr. destruct (decide (g' = g)) as [->|]; [rewrite lookup_insert_eq; by eexists|].
      rewrite lookup_insert_ne by done. by apply (K4 h').
  - apply registryOf_live. split; [by rewrite L3|]. rewrite Hr. apply lookup_insert_eq.
Qed.

(** *** Methods *)

Lemma withHandle_closed {A} r (closed : A) m s :
  objects s !! r = Some None -> withHandle r closed m s = (Ret closed, s).
Proof. intros E. unfold withHandle, bind, handleOf. by rewrite E. Qed.
Lemma withHandle_open {A} r (closed : A) m s h :
  objects s !! r = Some (Some h) -> withHandle r closed m s = m h s.
Proof. intros E. unfold withHandle, bind, handleOf. by rewrite E. Qed.

(** *** Creation, clones and closing *)

Lemma fresh_handle handed s : storeOk handed s -> nextHandle s ∉ held s ++ handed.
Proof. intros [] H. apply ok_live0 in H. specialize (ok_next0 _ H). lia. Qed.

Lemma held_app s h : omap id (objects s ++ [Some h]) = held s ++ [h].
Proof. unfold held. by rewrite omap_app. Qed.

Lemma nodup_middle (l1 l2 : list Z) h : NoDup (l1 ++ l2) -> h ∉ l1 ++ l2 -> NoDup ((l1 ++ [h]) ++ l2).
Proof.
  intros Hn Hh. rewrite <- app_assoc. apply (NoDup_Permutation_proper (h :: l1 ++ l2)).
  - apply (Permutation_middle l1 l2 h).
  - by constructor.
Qed.
Lemma elem_middle (l1 l2 : list Z) h h' : h' ∈ (l1 ++ [h]) ++ l2 <-> h' = h \/ h' ∈ l1 ++ l2.
Proof. rewrite !elem_of_app, list_elem_of_singleton. tauto. Qed.

(** A new handle in a new object. *)
Lemma newObject_ok handed s h g s1 :
  storeOk handed s -> h = nextHandle s -> heap s1 = heap s -> nextHandle s1 = (h + 1)%Z ->
  live s1 = <[h := g]> (live s) -> objects s1 = objects s ->
  (forall g', is_Some (registries s !! g') -> is_Some (registries s1 !! g')) -> is_Some (registries s1 !! g) ->
  (forall g', is_Some (registries s1 !! g') -> (g' < h + 1)%Z) ->
  storeOk handed (snd (newObject h s1)) /\ storeOk (h :: handed) s1.
Proof.
  intros K -> Eh En El Eo Hr Hg Hb. pose proof (fresh_handle _ _ K) as Hf. destruct K as [K1 K2 K3 K4 K5 K6].
  assert (forall h', is_Some (<[nextHandle s := g]> (live s) !! h') <-> h' = nextHandle s \/ h' ∈ held s ++ handed) as Hl.
  { intros h'. rewrite <- K6. destruct (decide (h' = nextHandle s)) as [->|].
    - rewrite lookup_insert_eq. split; [by left|by eexists].
    - rewrite lookup_insert_ne by done. naive_solver. }
  assert (forall h', is_Some (<[nextHandle s := g]> (live s) !! h') -> (h' < nextHandle s + 1)%Z) as Hn.
  { intros h' [->|H]%Hl; [lia|]. apply K6, K2 in H. lia. }
  assert (forall h' g', <[nextHandle s := g]> (live s) !! h' = Some g' -> is_Some (registries s1 !! g')) as Hreg.
  { intros h' g'. destruct (decide (h' = nextHandle s)) as [->|].
    - rewrite lookup_insert_eq. by intros [= <-].
    - rewrite lookup_insert_ne by done. intros E. apply Hr. by apply (K4 h'). }
  split; split; cbn; rewrite ?Eh, ?En, ?El; try done.
  - unfold held; cbn. rewrite Eo, held_app. by apply nodup_middle.
  - intros h'. unfold held; cbn. rewrite Eo, held_app, elem_middle. apply Hl.
  - unfold held. rewrite Eo. fold (held s). rewrite cons_middle, app_assoc. by apply nodup_middle.
  - intros h'. unfold held. rewrite Eo. fold (held s). rewrite cons_middle, app_assoc, elem_middle. apply Hl.
Qed.

Lemma create_new handed s x :
  storeOk handed s ->
  exists h s', createService x s = (Ret h, s') /\ h = nextHandle s /\ objects s' = objects s /\
    registryOf s' h = Some (h, x) /\ storeOk handed (snd (newObject h s')).
Proof.
  intros K. set (h := nextHandle s). set (s1 := snd (createService x s)).
  exists h, s1. split; [done|]. split; [done|]. split; [done|]. split.
  - apply registryOf_live. split; apply lookup_insert_eq.
  - apply (newObject_ok handed s h h s1); try done.
    + intros g' Hg. cbn. destruct (decide (g' = h)) as [->|]; [rewrite lookup_insert_eq; by eexists|].
      by rewrite lookup_insert_ne by done.
    + cbn. rewrite lookup_insert_eq. by eexists.
    + intros g'. cbn. destruct (decide (g' = h)) as [->|]; [unfold h; lia|].
      rewrite lookup_insert_ne by done. intros Hg. destruct K. specialize (ok_next_reg0 _ Hg). lia.
Qed.
Lemma clone_new handed s h0 g x :
  storeOk handed s -> registryOf s h0 = Some (g, x) ->
  exists h s', cloneService h0 s = (Ret h, s') /\ h = nextHandle s /\ objects s' = objects s /\
    registryOf s' h = Some (g, x) /\ storeOk handed (snd (newObject h s')) /\ storeOk (h :: handed) s'.
Proof.
  intros K E. apply registryOf_live in E as [El Er]. set (h := nextHandle s). set (s1 := snd (cloneService h0 s)).
  assert (s1 = mkStore (heap s) (h + 1) (<[h := g]> (live s)) (registries s) (objects s)) as Es
    by (unfold s1, cloneService; by rewrite El).
  exists h, s1. split; [unfold s1, cloneService; by rewrite El|]. split; [done|]. rewrite Es. split; [done|]. split.
  - apply registryOf_live. split; [apply lookup_insert_eq|done].
  - pose proof (newObject_ok handed s h g s1) as H. rewrite Es in H.
    apply H; try done; cbn. intros g' Hg. destruct K. specialize (ok_next_reg0 _ Hg). unfold h. lia.
Qed.

Lemma held_close s r h :
  objects s !! r = Some (Some h) -> held s ≡ₚ h :: omap id (<[r := None]> (objects s)).
Proof.
  intros E. unfold held. rewrite <- (take_drop_middle _ _ _ E) at 1.
  rewrite (insert_take_drop _ _ _ (lookup_lt_Some _ _ _ E)), !omap_app. cbn. by rewrite Permutation_middle.
Qed.
(** Destroying a handle that one place held. *)
Lemma destroy_ok handed handed' s h obj :
  storeOk handed s -> held s ++ handed ≡ₚ h :: (omap id obj ++ handed') ->
  destroyService h s =
    (Ret tt, mkStore (heap s) (nextHandle s) (delete h (live s)) (registries s) (objects s)) /\
  storeOk handed' (mkStore (heap s) (nextHandle s) (delete h (live s)) (registries s) obj).
Proof.
  intros [K1 K2 K3 K4 K5 K6] Hp. rewrite Hp in K5. apply NoDup_cons in K5 as [Hn K5].
  assert (forall h', is_Some (live s !! h') <-> h' = h \/ h' ∈ omap id obj ++ handed') as Hl.
  { intros h'. by rewrite K6, Hp, elem_of_cons. }
  assert (forall h', is_Some (delete h (live s) !! h') <-> h' ∈ omap id obj ++ handed') as Hd.
  { intros h'. destruct (decide (h' = h)) as [->|].
    - rewrite lookup_delete_eq. split; [by intros []|done].
    - rewrite lookup_delete_ne by done. rewrite Hl. naive_solver. }
  split.
  - unfold destroyService. by destruct (proj2 (Hl h) (or_introl eq_refl)) as [g ->].
  - split; cbn; try done.
    + intros h' H. apply K2, Hl. right. by apply Hd.
    + intros h' g' E. apply (K4 h'). by apply lookup_delete_Some in E as [_ E].
Qed.

(** [Close] on an open object and on a closed one. *)
Lemma CloseObject_open handed s r h :
  storeOk handed s -> objects s !! r = Some (Some h) ->
  exists s', CloseObject r s = (Ret tt, s') /\ storeOk handed s' /\ objects s' = <[r := None]> (objects s) /\
    live s' = delete h (live s) /\ registries s' = registries s.
Proof.
  intros K E. destruct (destroy_ok handed handed s h (<[r := None]> (objects s)) K) as [Ed K'].
  { by rewrite (held_close s r h E). }
  eexists. split; [|by split].
  unfold CloseObject. unfold bind at 1, handleOf. rewrite E. rewrite (bind_Ret _ _ _ _ _ Ed). done.
Qed.
Lemma CloseObject_closed s r : objects s !! r = Some None -> CloseObject r s = (Ret tt, s).
Proof. intros E. unfold CloseObject, bind, handleOf. by rewrite E. Qed.

(** One service, open, with nothing else. *)
Definition oneService (x : R) : St := mkStore (mkNativeHeap 0 ∅ ∅) 1 {[0%Z := 0%Z]} {[0%Z := x]} [Some 0%Z].
Lemma oneService_ok x : storeOk [] (oneService x).
Proof.
  split; cbn.
  - split; cbn; intros h [y H]; by rewrite lookup_empty in H.
  - intros h [y H]. apply lookup_singleton_Some in H as [<- _]. lia.
  - intros h [y H]. apply lookup_singleton_Some in H as [<- _]. lia.
  - intros h g H. apply lookup_singleton_Some in H as [<- <-]. by eexists.
  - apply NoDup_singleton.
  - intros h. rewrite list_elem_of_singleton. split.
    + intros [y H]. by apply lookup_singleton_Some in H as [<- _].
    + intros ->. by eexists.
Qed.
End Store.
