(* ===== verification/ServiceLock.v ===== *)
(** * The lock of a closable object

    [marketdata.Service] and [ReferenceBook] guard their handle with a [sync.RWMutex]:
    every method holds the read lock around the nil check and the native call, and
    [Close] holds the write lock around the check, the destruction and the assignment.
    This file has the interleavings of any number of such calls. A waiting writer keeps
    new readers out, as Go's mutex does. *)
From Stdlib Require Import ZArith Lia.
From stdpp Require Import base list numbers relations.
From S2P Require Import Prelude.

(** Where a call is: before its lock, inside, and on its way out. [MReturned closed]
    says whether the method found the handle nil. *)
Inductive pc :=
| MStart | MLocked | MCalling | MUnlock (closed : bool) | MReturned (closed : bool)
| CStart | CWaiting | CLocked | CDestroyed | CUnlock | CReturned.

#[export] Instance pc_eq_dec : EqDecision pc.
Proof. solve_decision. Defined.

Definition reads (p : pc) : bool := match p with MLocked | MCalling | MUnlock _ => true | _ => false end.
Definition writes (p : pc) : bool := match p with CWaiting | CLocked | CDestroyed | CUnlock => true | _ => false end.
Definition excludes (p : pc) : bool := match p with CLocked | CDestroyed | CUnlock => true | _ => false end.
Definition returned (p : pc) : bool := match p with MReturned _ | CReturned => true | _ => false end.

(** The handle (nil or not), how often the native object was destroyed, and the calls. *)
Record sys := mkSys { handleSet : bool; destroyed : nat; calls : list pc }.
Definition init : sys := mkSys true 0 [].

Definition noReader (s : sys) : Prop := Forall (fun p => reads p = false) (calls s).
Definition noWriter (s : sys) : Prop := Forall (fun p => writes p = false) (calls s).
Definition move (i : nat) (p : pc) (s : sys) : sys := mkSys (handleSet s) (destroyed s) (<[i := p]> (calls s)).
Definition at_ (s : sys) (i : nat) (p : pc) : Prop := calls s !! i = Some p.

Inductive step : sys -> sys -> Prop :=
| StepRLock s i : at_ s i MStart -> noWriter s -> step s (move i MLocked s)
| StepNil s i : at_ s i MLocked -> handleSet s = false -> step s (move i (MUnlock true) s)
| StepCall s i : at_ s i MLocked -> handleSet s = true -> step s (move i MCalling s)
| StepAnswer s i : at_ s i MCalling -> step s (move i (MUnlock false) s)
| StepRUnlock s i b : at_ s i (MUnlock b) -> step s (move i (MReturned b) s)
| StepWait s i : at_ s i CStart -> noWriter s -> step s (move i CWaiting s)
| StepLock s i : at_ s i CWaiting -> noReader s -> step s (move i CLocked s)
| StepClosed s i : at_ s i CLocked -> handleSet s = false -> step s (move i CUnlock s)
| StepDestroy s i : at_ s i CLocked -> handleSet s = true ->
    step s (mkSys true (S (destroyed s)) (<[i := CDestroyed]> (calls s)))
| StepForget s i : at_ s i CDestroyed -> step s (mkSys false (destroyed s) (<[i := CUnlock]> (calls s)))
| StepUnlock s i : at_ s i CUnlock -> step s (move i CReturned s).
(** A new call. *)
Inductive spawn : sys -> sys -> Prop :=
| SpawnMethod s : spawn s (mkSys (handleSet s) (destroyed s) (calls s ++ [MStart]))
| SpawnClose s : spawn s (mkSys (handleSet s) (destroyed s) (calls s ++ [CStart])).

Definition reachable : sys -> Prop := rtc (fun s s' => step s s' \/ spawn s s') init.

(** ** The invariant *)

Lemma at_insert s i p j q : at_ s i p -> forall p', (<[i := p']> (calls s)) !! j = Some q <-> (j = i /\ q = p') \/ (j <> i /\ at_ s j q).
Proof.
  unfold at_. intros E p'. apply lookup_lt_Some in E. destruct (decide (j = i)) as [->|N].
  - rewrite list_lookup_insert_eq by done. naive_solver.
  - rewrite list_lookup_insert_ne by done. naive_solver.
Qed.
Lemma in_insert s i p p' q : at_ s i p -> q <> p -> q ∈ <[i := p']> (calls s) <-> q = p' \/ q ∈ calls s.
Proof.
  intros E Hq. rewrite !list_elem_of_lookup. split.
  - intros [j Hj]. apply (at_insert _ _ _ _ _ E) in Hj as [[-> ->]|[_ Hj]]; [by left|right; by exists j].
  - intros [->|[j Hj]].
    + exists i. apply (at_insert _ _ _ _ _ E). by left.
    + exists j. apply (at_insert _ _ _ _ _ E). right. split; [|done]. intros ->. unfold at_ in E. congruence.
Qed.

Lemma noReader_spec s : noReader s <-> forall i p, at_ s i p -> reads p = false.
Proof. unfold noReader, at_. rewrite Forall_lookup. done. Qed.
Lemma noWriter_spec s : noWriter s <-> forall i p, at_ s i p -> writes p = false.
Proof. unfold noWriter, at_. rewrite Forall_lookup. done. Qed.
Lemma excludes_writes p : excludes p = true -> writes p = true.
Proof. by destruct p. Qed.

(** The two lock conditions, for a call that moves from [p] to [p']. *)
Record exclusion (s : sys) : Prop := {
  ex_writer : forall i j p q, at_ s i p -> at_ s j q -> writes p = true -> writes q = true -> i = j;
  ex_exclusion : forall i j p q, at_ s i p -> at_ s j q -> excludes p = true -> reads q = false;
}.
Lemma exclusion_move s i p p' hs d :
  exclusion s -> at_ s i p ->
  (writes p' = true -> writes p = true \/ noWriter s) ->
  (excludes p' = true -> excludes p = true \/ noReader s) ->
  (reads p' = true -> reads p = true \/ noWriter s) ->
  (excludes p' = true -> reads p' = false) ->
  exclusion (mkSys hs d (<[i := p']> (calls s))).
Proof.
  intros [W X] E Hw He Hr Hself. split; intros j k q r; unfold at_; cbn; rewrite !(at_insert _ _ _ _ _ E).
  - intros [[-> ->]|[N1 H1]] [[-> ->]|[N2 H2]] W1 W2; [done| | |exact (W _ _ _ _ H1 H2 W1 W2)].
    + destruct (Hw W1) as [Hp|Hn]; [exact (W _ _ _ _ E H2 Hp W2)|]. rewrite noWriter_spec in Hn. by rewrite (Hn _ _ H2) in W2.
    + destruct (Hw W2) as [Hp|Hn]; [exact (W _ _ _ _ H1 E W1 Hp)|]. rewrite noWriter_spec in Hn. by rewrite (Hn _ _ H1) in W1.
  - intros [[-> ->]|[N1 H1]] [[-> ->]|[N2 H2]] X1; [auto| | |exact (X _ _ _ _ H1 H2 X1)].
    + destruct (He X1) as [Hp|Hn]; [exact (X _ _ _ _ E H2 Hp)|]. rewrite noReader_spec in Hn. exact (Hn _ _ H2).
    + destruct (reads p') eqn:Er; [|done]. destruct (Hr eq_refl) as [Hp|Hn].
      * by rewrite (X _ _ _ _ H1 E X1) in Hp.
      * rewrite noWriter_spec in Hn. specialize (Hn _ _ H1). by rewrite (excludes_writes _ X1) in Hn.
Qed.

(** The handle, and the calls that depend on it. *)
Record handleOk (s : sys) : Prop := {
  hk_destroyed : destroyed s = if handleSet s then (if bool_decide (CDestroyed ∈ calls s) then 1 else 0) else 1;
  hk_forgotten : handleSet s = false -> CDestroyed ∉ calls s;
  hk_calling : MCalling ∈ calls s -> handleSet s = true;
  hk_closed : MUnlock true ∈ calls s \/ MReturned true ∈ calls s \/ CUnlock ∈ calls s \/ CReturned ∈ calls s -> handleSet s = false;
}.

Definition inv (s : sys) : Prop := exclusion s /\ handleOk s.

Lemma in_calls s p : p ∈ calls s <-> exists i, at_ s i p.
Proof. apply list_elem_of_lookup. Qed.
Lemma in_move s i p p' q :
  at_ s i p -> q ∈ <[i := p']> (calls s) -> q = p' \/ q ∈ calls s.
Proof.
  rewrite list_elem_of_lookup. intros E [j Hj]. apply (at_insert _ _ _ _ _ E) in Hj as [[-> ->]|[_ Hj]]; [by left|].
  right. apply in_calls. by exists j.
Qed.
Lemma in_moved s i p p' : at_ s i p -> p' ∈ <[i := p']> (calls s).
Proof. intros E. apply list_elem_of_lookup. exists i. apply (at_insert _ _ _ _ _ E). by left. Qed.
Lemma in_still s i p p' q : at_ s i p -> q <> p -> q ∈ calls s -> q ∈ <[i := p']> (calls s).
Proof.
  intros E N. rewrite in_calls. intros [j Hj]. apply list_elem_of_lookup. exists j.
  apply (at_insert _ _ _ _ _ E). right. split; [|done]. intros ->. unfold at_ in *. congruence.
Qed.

(** A move that touches neither the handle nor the destruction. *)
Lemma handleOk_move s i p p' :
  handleOk s -> at_ s i p -> p <> CDestroyed -> p' <> CDestroyed ->
  (p' = MCalling -> handleSet s = true) ->
  (p' = MUnlock true \/ p' = MReturned true \/ p' = CUnlock \/ p' = CReturned -> handleSet s = false) ->
  handleOk (move i p' s).
Proof.
  intros [A B C D] E Np Np' Hc Hd. split; cbn.
  - rewrite A. destruct (handleSet s); [|done].
    rewrite (bool_decide_ext (CDestroyed ∈ calls s) (CDestroyed ∈ <[i := p']> (calls s))); [done|]. split.
    + by apply (in_still _ _ _ _ _ E).
    + by intros [<-|H]%(in_move _ _ _ _ _ E).
  - intros H. specialize (B H). by intros [<-|H']%(in_move _ _ _ _ _ E).
  - intros [<-|H]%(in_move _ _ _ _ _ E); [by apply Hc|by apply C].
  - intros H. assert (p' = MUnlock true \/ p' = MReturned true \/ p' = CUnlock \/ p' = CReturned \/
      MUnlock true ∈ calls s \/ MReturned true ∈ calls s \/ CUnlock ∈ calls s \/ CReturned ∈ calls s) as H'.
    { destruct H as [H|[H|[H|H]]]; apply (in_move _ _ _ _ _ E) in H as [<-|H]; tauto. }
    destruct H' as [H'|[H'|[H'|[H'|H']]]]; [apply Hd; tauto..|by apply D].
Qed.

Lemma step_exclusion s s' : exclusion s -> step s s' -> exclusion s'.
Proof.
  intros X H. destruct H as [s i E W|s i E|s i E|s i E|s i b E|s i E W|s i E W|s i E|s i E|s i E|s i E];
    (eapply exclusion_move; [done|exact E|..]); cbn; auto; done.
Qed.
Lemma step_handleOk s s' : inv s -> step s s' -> handleOk s'.
Proof.
  intros [X K] H. pose proof K as [A B C D].
  destruct H as [s i E W|s i E Hh|s i E Hh|s i E|s i b E|s i E W|s i E W|s i E Hh|s i E Hh|s i E|s i E].
  1-4,6-8: eapply handleOk_move; [exact K|exact E|done|done|done|by intros [?|[?|[?|?]]]].
  - eapply handleOk_move; [exact K|exact E|done|done|done|]. intros [[= ->]|[[= ->]|[?|?]]]; try done.
    apply D. left. apply in_calls. by exists i.
  - assert (CDestroyed ∉ calls s) as Hn.
    { intros [j Hj]%in_calls. pose proof (ex_writer _ X _ _ _ _ E Hj eq_refl eq_refl) as ->. unfold at_ in *. congruence. }
    split; cbn; [|done|done|].
    + rewrite A, Hh, bool_decide_false by done. by rewrite bool_decide_true by (by eapply in_moved).
    + intros H. rewrite <- Hh. apply D.
      destruct H as [H|[H|[H|H]]]; apply (in_move _ _ _ _ _ E) in H as [H|H]; try done; tauto.
  - assert (handleSet s = true) as Hh.
    { destruct (handleSet s); [done|]. destruct (B eq_refl). apply in_calls. by exists i. }
    split; cbn; [|intros _|intros H|done].
    + rewrite A, Hh. by rewrite bool_decide_true by (apply in_calls; by exists i).
    + intros [j Hj]%list_elem_of_lookup. apply (at_insert _ _ _ _ _ E) in Hj as [[_ ?]|[N Hj]]; [done|].
      by destruct N; apply (ex_writer _ X _ _ _ _ Hj E).
    + apply (in_move _ _ _ _ _ E) in H as [?|H]; [done|]. apply in_calls in H as [j Hj].
      by pose proof (ex_exclusion _ X _ _ _ _ E Hj eq_refl).
  - eapply handleOk_move; [exact K|exact E|done|done|done|]. intros _. apply D. right. right. left. apply in_calls. by exists i.
Qed.
Lemma spawn_inv s s' : inv s -> spawn s s' -> inv s'.
Proof.
  intros [[W X] [A B C D]] H.
  assert (exists p, (p = MStart \/ p = CStart) /\ s' = mkSys (handleSet s) (destroyed s) (calls s ++ [p])) as (p & Hp & ->)
    by (destruct H; [exists MStart|exists CStart]; auto).
  assert (forall j q, (calls s ++ [p]) !! j = Some q <-> at_ s j q \/ (j = length (calls s) /\ q = p)) as Hl.
  { intros j q. unfold at_. rewrite lookup_app_Some, list_lookup_singleton_Some. split.
    - intros [?|[? [? <-]]]; [by left|right; split; [lia|done]].
    - intros [?|[-> ->]]; [by left|right]. split; [done|]. split; [lia|done]. }
  assert (forall q, q <> p -> q ∈ calls s ++ [p] <-> q ∈ calls s) as He.
  { intros q Hq. rewrite elem_of_app, list_elem_of_singleton. naive_solver. }
  split; split; unfold at_; cbn.
  - intros i j q r. rewrite !Hl. intros [H1|[-> ->]] [H2|[-> ->]]; [by eapply W|..]; by destruct Hp as [-> | ->].
  - intros i j q r. rewrite !Hl. intros [H1|[-> ->]] [H2|[-> ->]]; [by eapply X|..]; by destruct Hp as [-> | ->].
  - rewrite A. destruct (handleSet s); [|done]. rewrite (bool_decide_ext (CDestroyed ∈ calls s ++ [p]) (CDestroyed ∈ calls s)); [done|].
    apply He. by destruct Hp as [-> | ->].
  - intros H0. rewrite He by (by destruct Hp as [-> | ->]). by apply B.
  - rewrite He by (by destruct Hp as [-> | ->]). done.
  - rewrite !He by (by destruct Hp as [-> | ->]). done.
Qed.
Lemma init_inv : inv init.
Proof. split; split; unfold at_; cbn; try done; intros; try (by apply elem_of_nil in H); set_solver. Qed.
Lemma reachable_inv s : reachable s -> inv s.
Proof.
  revert s. apply (rtc_ind_r _ init); [apply init_inv|]. intros s1 s2 _ [Hs|Hs] IH.
  - split; [by eapply step_exclusion; [apply IH|]|by eapply step_handleOk].
  - by eapply spawn_inv.
Qed.

(** ** Progress *)

(** How many steps a call still has. *)
Definition rank (p : pc) : nat :=
  match p with
  | MStart => 4 | MLocked => 3 | MCalling => 2 | MUnlock _ => 1 | MReturned _ => 0
  | CStart => 5 | CWaiting => 4 | CLocked => 3 | CDestroyed => 2 | CUnlock => 1 | CReturned => 0
  end.
Definition work (s : sys) : nat := sum_list_with rank (calls s).

Lemma work_move s i p p' : at_ s i p -> sum_list_with rank (<[i := p']> (calls s)) + rank p = work s + rank p'.
Proof.
  unfold at_, work. generalize (calls s). intros l. revert i. induction l as [|q l IH]; intros [|i] E; [done|done| |].
  - injection E as ->. cbn. lia.
  - change (<[S i := p']> (q :: l)) with (q :: <[i := p']> l). cbn [sum_list_with]. specialize (IH i E). lia.
Qed.
Lemma step_work s s' : step s s' -> work s' < work s.
Proof.
  intros H. destruct H as [s i E|s i E|s i E|s i E|s i b E|s i E|s i E|s i E|s i E|s i E|s i E];
    match type of E with at_ _ _ ?p => match goal with |- context [<[i := ?p']> _] => pose proof (work_move s i p p' E) | |- context [move i ?p' _] => pose proof (work_move s i p p' E) end end;
    unfold work in *; cbn [move calls] in *; cbn [rank] in *; lia.
Qed.

Lemma can_step s : inv s -> Forall (fun p => returned p = true) (calls s) \/ exists s', step s s'.
Proof.
  intros [X _]. destruct (decide (Forall (fun p => returned p = true) (calls s))) as [?|H]; [by left|right].
  apply not_Forall_Exists in H; [|apply _]. apply Exists_exists in H as (p & Hp & Hr). apply in_calls in Hp as [i E].
  (* a call inside a lock can go on *)
  destruct (decide (Exists (fun p => reads p = true) (calls s))) as [Hread|Hread].
  { apply Exists_exists in Hread as (q & Hq & Rq). apply in_calls in Hq as [j Ej]. destruct q; try done.
    - destruct (handleSet s) eqn:Eh; eexists; [by eapply StepCall|by eapply StepNil].
    - eexists. by eapply StepAnswer.
    - eexists. by eapply StepRUnlock. }
  assert (noReader s) as Hnr.
  { unfold noReader. rewrite Forall_forall. intros q Hq. destruct (reads q) eqn:Rq; [|done].
    destruct Hread. apply Exists_exists. by exists q. }
  destruct (decide (Exists (fun p => writes p = true) (calls s))) as [Hwrite|Hwrite].
  { apply Exists_exists in Hwrite as (q & Hq & Wq). apply in_calls in Hq as [j Ej]. destruct q; try done.
    - eexists. by eapply StepLock.
    - destruct (handleSet s) eqn:Eh; eexists; [by eapply StepDestroy|by eapply StepClosed].
    - eexists. by eapply StepForget.
    - eexists. by eapply StepUnlock. }
  assert (noWriter s) as Hnw.
  { unfold noWriter. rewrite Forall_forall. intros q Hq. destruct (writes q) eqn:Wq; [|done].
    destruct Hwrite. apply Exists_exists. by exists q. }
  destruct p; try (by destruct Hr); try (by rewrite noReader_spec in Hnr; specialize (Hnr _ _ E)); try (by rewrite noWriter_spec in Hnw; specialize (Hnw _ _ E)).
  - eexists. by eapply StepRLock.
  - eexists. by eapply StepWait.
Qed.

(** C28: However methods and closes of one object interleave, no native call runs on a
    handle that was destroyed, the handle is destroyed at most once, and once a [Close]
    has returned it is destroyed and forgotten, so a method that starts later finds the
    object closed. No call waits for ever: from every reachable state the pending calls
    can all return, and every way of running them ends within [work s] steps, however
    many calls were waiting for the lock. *)
Theorem close_waits_for_calls (s : sys) :
  reachable s ->
  (forall i, at_ s i MCalling -> handleSet s = true /\ destroyed s = 0) /\
  destroyed s <= 1 /\
  (forall i, at_ s i CReturned -> handleSet s = false /\ destroyed s = 1) /\
  (exists s', rtc step s s' /\ Forall (fun p => returned p = true) (calls s')) /\
  (forall n s', nsteps step n s s' -> n <= work s).
Proof.
  intros H. apply reachable_inv in H. pose proof H as [X [A B C D]]. split; [|split; [|split; [|split]]].
  - intros i E. assert (handleSet s = true) as Hh by (apply C, in_calls; by exists i). split; [done|].
    rewrite A, Hh, bool_decide_false; [done|]. intros [j Hj]%in_calls. by pose proof (ex_exclusion _ X _ _ _ _ Hj E eq_refl).
  - rewrite A. destruct (handleSet s); [|done]. case_bool_decide; lia.
  - intros i E. assert (handleSet s = false) as Hh by (apply D; right; right; right; apply in_calls; by exists i).
    by rewrite A, Hh.
  - remember (work s) as n eqn:En. revert s En H X A B C D. induction (lt_wf n) as [n _ IH]. intros s -> H _ _ _ _ _.
    destruct (can_step s H) as [?|[s1 H1]]; [by exists s|].
    assert (inv s1) as K1 by (split; [by eapply step_exclusion; [apply H|]|by eapply step_handleOk]).
    pose proof K1 as [X1 [A1 B1 C1 D1]].
    destruct (IH (work s1) (step_work _ _ H1) s1 eq_refl K1 X1 A1 B1 C1 D1) as (s' & Hs & F). exists s'. split; [|done].
    by eapply rtc_l.
  - clear. intros n s' Hn. induction Hn as [s|n s s1 s' H1 H2 IH]; [lia|]. apply step_work in H1. lia.
Qed.

(** A method inside its native call while a [Close] waits. *)
Lemma close_waits_for_calls_witness :
  let s := mkSys true 0 [MCalling; CWaiting] in reachable s /\ (handleSet s = true /\ destroyed s = 0).
Proof.
  assert (reachable (mkSys true 0 [MCalling; CWaiting])) as H.
  { unfold reachable, init.
    eapply rtc_l; [right; apply SpawnMethod|]. cbn.
    eapply rtc_l; [left; apply (StepRLock _ 0); [reflexivity|repeat constructor]|]. cbn.
    eapply rtc_l; [left; apply (StepCall _ 0); reflexivity|]. cbn.
    eapply rtc_l; [right; apply SpawnClose|]. cbn.
    apply rtc_once. left. exact (StepWait (mkSys true 0 [MCalling; CStart]) 1 eq_refl ltac:(repeat constructor)). }
  split; [exact H|]. exact (proj1 (close_waits_for_calls _ H) 0 eq_refl).
Defined.
