(* ===== verification/MarketData.v ===== *)
(** * The market-data service

    marketdata/service.go, quote.go, errors.go and account_group_resolver.go, with the
    wrappers of internal/native/marketdata.go: quotes and lifetimes, the methods of
    [Service], the builders, and a read, in which the native library calls back for the
    group of the account. What a registry does is the native library's, a class; the
    texts of [Error] methods are left out. An instrument is its two texts: NativeMem.v
    has what keeps them alive. *)
From Stdlib Require Import ZArith Lia.
From stdpp Require Import base list gmap strings pretty.
From S2P Require Import Prelude Routing GoRuntime GoPtr ParamValues EngineBase EngineBuilder CgoHandles NativeErrors ServiceStore.

Definition Instrument := (string * string)%type.
Definition InstrumentID := Z.
Definition newInstrumentIDFromHandle (source : Z) : InstrumentID := source.
Definition InstrumentIDHandle (v : InstrumentID) : Z := v.
Definition IsInitialized (v : AccountGroupID) : bool := grp_initialized v.
Definition AccountIDNative (v : Routing.AccountID) : Z := acc_native v.
Definition AccountGroupIDHandle (v : AccountGroupID) : Z := grp_native v.

(** ** Quotes and lifetimes *)

Record MarketDataQuote := mkQuote { mark : ParamPriceOptional; bid : ParamPriceOptional; ask : ParamPriceOptional }.
Definition Quote := MarketDataQuote.
Definition zeroQuote : Quote := mkQuote (zeroCOptional zeroDecimal) (zeroCOptional zeroDecimal) (zeroCOptional zeroDecimal).
Record MarketDataQuoteTTL := mkTTL { secs : Z; nanos : Z; is_infinite : bool }.
Definition QuoteTTL := MarketDataQuoteTTL.

Definition MarketDataQuoteSetMark (q : MarketDataQuote) (v : ParamPrice) : MarketDataQuote := mkQuote (setCOptional v (mark q)) (bid q) (ask q).
Definition MarketDataQuoteSetBid (q : MarketDataQuote) (v : ParamPrice) : MarketDataQuote := mkQuote (mark q) (setCOptional v (bid q)) (ask q).
Definition MarketDataQuoteSetAsk (q : MarketDataQuote) (v : ParamPrice) : MarketDataQuote := mkQuote (mark q) (bid q) (setCOptional v (ask q)).
Definition MarketDataQuoteGetMark (q : MarketDataQuote) : ParamPriceOptional := mark q.
Definition MarketDataQuoteGetBid (q : MarketDataQuote) : ParamPriceOptional := bid q.
Definition MarketDataQuoteGetAsk (q : MarketDataQuote) : ParamPriceOptional := ask q.
Definition newQuoteFromHandle (value : MarketDataQuote) : Quote := value.
Definition WithMark (q : Quote) (v : Price) : Quote := MarketDataQuoteSetMark q (PriceHandle v).
Definition WithBid (q : Quote) (v : Price) : Quote := MarketDataQuoteSetBid q (PriceHandle v).
Definition WithAsk (q : Quote) (v : Price) : Quote := MarketDataQuoteSetAsk q (PriceHandle v).
Definition QuoteMark (q : Quote) : option Price := NewPriceOptionFromHandle (MarketDataQuoteGetMark q).
Definition QuoteBid (q : Quote) : option Price := NewPriceOptionFromHandle (MarketDataQuoteGetBid q).
Definition QuoteAsk (q : Quote) : option Price := NewPriceOptionFromHandle (MarketDataQuoteGetAsk q).
Definition QuoteHandle (q : Quote) : MarketDataQuote := q.
Definition QuoteTTLHandle (t : QuoteTTL) : MarketDataQuoteTTL := t.

(** [time.Second]; a duration is a 64-bit count of nanoseconds. *)
Definition Second : Z := 1000000000.

Definition sourceAgeParts (sourceAge : Z) : Z * Z :=
  if (sourceAge <? 0)%Z then (0, 0)%Z
  else (wrapU 64 (Z.quot sourceAge Second), wrapU 32 (Z.rem sourceAge Second)).

(** ** Statuses *)

Definition MarketDataRegisterStatusOk : Z := 0.
Definition MarketDataRegisterStatusAlreadyRegistered : Z := 1.
Definition MarketDataRegisterStatusDuplicateID : Z := 2.
Definition MarketDataRegisterStatusDuplicateInstrument : Z := 3.
Definition MarketDataRegisterStatusUnknownInstrument : Z := 4.
Definition MarketDataRegisterStatusError : Z := 5.
Definition MarketDataRegisterStatusNoTarget : Z := 6.
Definition MarketDataGetStatusFound : Z := 0.
Definition MarketDataGetStatusUnavailable : Z := 1.
Definition MarketDataGetStatusUnknownInstrument : Z := 2.
Definition MarketDataGetStatusQuoteExpired : Z := 3.
Definition MarketDataGetStatusAccountGroupFailed : Z := 4.
Definition MarketDataGetStatusError : Z := 255.
Definition AccountGroupResolution_NoGroup : Z := 0.
Definition AccountGroupResolution_Found : Z := 1.
Definition AccountGroupResolution_Failed : Z := 2.

(** ** The native library *)

(** A native read: it answers, with a quote if it wrote one, or asks for the group and
    goes on with the answer and the group id, if one was written. *)
Inductive getTree (R : Type) :=
| Answer (status : Z) (quote : option MarketDataQuote)
| Ask (k : Z -> option Z -> R -> getTree R).
Arguments Answer {R} status quote.
Arguments Ask {R} k.

Class NativeMarketData (R : Type) := {
  openpit_create_marketdata_quote : MarketDataQuote;
  openpit_create_marketdata_quote_ttl_infinite : MarketDataQuoteTTL;
  openpit_create_marketdata_quote_ttl_within : Z -> Z -> MarketDataQuoteTTL;
  openpit_create_marketdata_service : Z -> MarketDataQuoteTTL -> R + option string;
  openpit_marketdata_service_register : Instrument -> statusCall R Z;
  openpit_marketdata_service_register_with_ttl : Instrument -> MarketDataQuoteTTL -> statusCall R Z;
  openpit_marketdata_service_register_with_id : Instrument -> Z -> statusCall R Z;
  openpit_marketdata_service_register_with_id_and_ttl : Instrument -> Z -> MarketDataQuoteTTL -> statusCall R Z;
  openpit_marketdata_service_clear : Z -> R -> R;
  openpit_marketdata_service_push : Z -> MarketDataQuote -> Z -> Z -> statusCall R unit;
  openpit_marketdata_service_push_by_instrument : Instrument -> MarketDataQuote -> Z -> Z -> R -> R * (bool * Z * option string);
  openpit_marketdata_service_push_for : Z -> MarketDataQuote -> Z -> Z -> list Z -> list Z -> statusCall R unit;
  openpit_marketdata_service_get : R -> Z -> Z -> Z -> getTree R;
  openpit_marketdata_service_resolve : Instrument -> R -> option Z;
  openpit_marketdata_service_set_account_ttl : Z -> MarketDataQuoteTTL -> R -> R;
  openpit_marketdata_service_clear_account_ttl : Z -> R -> R;
  openpit_marketdata_service_set_account_group_ttl : Z -> MarketDataQuoteTTL -> R -> R;
  openpit_marketdata_service_clear_account_group_ttl : Z -> R -> R;
  openpit_marketdata_service_set_instrument_ttl : Z -> MarketDataQuoteTTL -> R -> R * Z;
  openpit_marketdata_service_clear_instrument_ttl : Z -> R -> R * Z;
  openpit_marketdata_service_set_instrument_account_ttl : Z -> Z -> MarketDataQuoteTTL -> R -> R * Z;
  openpit_marketdata_service_clear_instrument_account_ttl : Z -> Z -> R -> R * Z;
  openpit_marketdata_service_set_instrument_account_group_ttl : Z -> Z -> MarketDataQuoteTTL -> R -> R * Z;
  openpit_marketdata_service_clear_instrument_account_group_ttl : Z -> Z -> R -> R * Z;
}.

(** ** errors.go *)

Definition ErrServiceClosed : error := ESentinel "market-data service already closed".
Definition ErrUnknownInstrument : error := ESentinel "unknown instrument".
Definition ErrQuoteUnavailable : error := ESentinel "quote unavailable".
Definition ErrQuoteExpired : error := ESentinel "quote expired".
Definition ErrInvalidQuoteResolution : error := ESentinel "invalid quote resolution".
Definition ErrAccountGroupResolution : error := ESentinel "account group resolution failed".
Definition ErrNoTarget : error := ESentinel "no target accounts or groups specified".
Definition ErrAlreadyRegistered : error := ESentinel "instrument is already registered".
Definition ErrDuplicateID : error := ESentinel "instrument id is already registered".
Definition ErrDuplicateInstrument : error := ESentinel "instrument is already registered under a different id".
Definition ErrUnknownService : error := ESentinel "openpit: not a market-data service".

Inductive RegistrationErrorKind := RegistrationErrorKindDuplicateID | RegistrationErrorKindDuplicateInstrument.

(** The errors of the package, and any other. *)
Inductive mdError :=
| MDError (e : error)
| AlreadyRegisteredError (i : Instrument)
| RegistrationError (k : RegistrationErrorKind) (i : option Instrument) (id : option InstrumentID)
| UnknownInstrumentIDError (id : InstrumentID)
| AccountGroupResolutionError (p : option panicValue) (e : option error).

(** What [Unwrap] gives, and what [errors.Is] finds. *)
Definition Unwrap (e : mdError) : list error :=
  match e with
  | MDError e => [e]
  | AlreadyRegisteredError _ => [ErrAlreadyRegistered]
  | RegistrationError RegistrationErrorKindDuplicateID _ _ => [ErrDuplicateID]
  | RegistrationError RegistrationErrorKindDuplicateInstrument _ _ => [ErrDuplicateInstrument]
  | UnknownInstrumentIDError _ => [ErrUnknownInstrument]
  | AccountGroupResolutionError _ (Some e) => [ErrAccountGroupResolution; e]
  | AccountGroupResolutionError _ None => [ErrAccountGroupResolution]
  end.
Definition md_Is (target : string) (e : mdError) : bool := existsb (errors_Is target) (Unwrap e).
Definition newUnknownInstrumentIDError (id : InstrumentID) : mdError := UnknownInstrumentIDError id.
Definition newAccountGroupResolutionError (recovered : option panicValue) (err : option error) : mdError :=
  AccountGroupResolutionError recovered err.

Section MarketData.
Context {R : Type} {NM : NativeMarketData R}.
Abbreviation SM := (M (Store R)).

Definition NewQuote : Quote := newQuoteFromHandle openpit_create_marketdata_quote.
Definition InfiniteTTL : QuoteTTL := openpit_create_marketdata_quote_ttl_infinite.
Definition WithinTTL (d : Z) : QuoteTTL :=
  openpit_create_marketdata_quote_ttl_within (wrapU 64 (Z.quot d Second)) (wrapU 32 (Z.rem d Second)).

(** ** The native wrappers *)

Definition update (f : R -> R) (x : R) : R * unit := (f x, tt).

Definition CreateMarketDataService (syncPolicy : Z) (defaultTTL : MarketDataQuoteTTL) : SM (Z + error) :=
  match openpit_create_marketdata_service syncPolicy defaultTTL with
  | inl x => let* h := createService x in ret (inl h)
  | inr message =>
    let* h := onHeap (allocString message) in
    let* err := onHeap (consumeSharedStringAsError h "openpit_create_marketdata_service failed") in
    ret (inr err)
  end.
Definition DestroyMarketDataService (service : Z) : SM unit := destroyService service.
Definition MarketDataServiceClone (service : Z) : SM Z := cloneService service.
Definition MarketDataServiceRegister (service : Z) (instrument : Instrument) : SM (Z * Z * option error) :=
  withStatus MarketDataRegisterStatusError "openpit_marketdata_service_register failed" (call service (openpit_marketdata_service_register instrument)).
Definition MarketDataServiceRegisterWithTTL (service : Z) (instrument : Instrument) (ttl : MarketDataQuoteTTL) : SM (Z * Z * option error) :=
  withStatus MarketDataRegisterStatusError "openpit_marketdata_service_register_with_ttl failed" (call service (openpit_marketdata_service_register_with_ttl instrument ttl)).
Definition MarketDataServiceRegisterWithID (service : Z) (instrument : Instrument) (id : Z) : SM (Z * Z * option error) :=
  withStatus MarketDataRegisterStatusError "openpit_marketdata_service_register_with_id failed" (call service (openpit_marketdata_service_register_with_id instrument id)).
Definition MarketDataServiceRegisterWithIDAndTTL (service : Z) (instrument : Instrument) (id : Z) (ttl : MarketDataQuoteTTL) : SM (Z * Z * option error) :=
  withStatus MarketDataRegisterStatusError "openpit_marketdata_service_register_with_id_and_ttl failed" (call service (openpit_marketdata_service_register_with_id_and_ttl instrument id ttl)).
Definition MarketDataServiceClear (service id : Z) : SM unit := call service (update (openpit_marketdata_service_clear id)).
Definition MarketDataServicePush (service id : Z) (quote : MarketDataQuote) (sourceAge : Z) : SM (Z * option error) :=
  let '(secs, nanos) := sourceAgeParts sourceAge in
  let* (status, _, err) := withStatus MarketDataRegisterStatusError "openpit_marketdata_service_push failed"
    (call service (openpit_marketdata_service_push id quote secs nanos)) in
  ret (status, err).
Definition MarketDataServicePushByInstrument (service : Z) (instrument : Instrument) (quote : MarketDataQuote) (sourceAge : Z) : SM (Z * option error) :=
  let '(secs, nanos) := sourceAgeParts sourceAge in
  let* (ok, outID, message) := call service (openpit_marketdata_service_push_by_instrument instrument quote secs nanos) in
  let* err := outMessage (negb ok) message "openpit_marketdata_service_push_by_instrument failed" in
  ret (outID, err).
Definition MarketDataServicePushFor (service id : Z) (quote : MarketDataQuote) (sourceAge : Z) (accountIDs accountGroupIDs : list Z) : SM (Z * option error) :=
  let '(secs, nanos) := sourceAgeParts sourceAge in
  let* (status, _, err) := withStatus MarketDataRegisterStatusError "openpit_marketdata_service_push_for failed"
    (call service (openpit_marketdata_service_push_for id quote secs nanos accountIDs accountGroupIDs)) in
  ret (status, err).
(** The out parameter is zero when nothing was written. *)
Definition MarketDataServiceResolve (service : Z) (instrument : Instrument) : SM (Z * bool) :=
  let* id := call service (fun x => (x, openpit_marketdata_service_resolve instrument x)) in
  ret (default 0%Z id, match id with Some _ => true | None => false end).
Definition MarketDataServiceSetAccountTTL (service : Z) (account : Z) (ttl : MarketDataQuoteTTL) : SM unit :=
  call service (update (openpit_marketdata_service_set_account_ttl account ttl)).
Definition MarketDataServiceClearAccountTTL (service : Z) (account : Z) : SM unit :=
  call service (update (openpit_marketdata_service_clear_account_ttl account)).
Definition MarketDataServiceSetAccountGroupTTL (service : Z) (group : Z) (ttl : MarketDataQuoteTTL) : SM unit :=
  call service (update (openpit_marketdata_service_set_account_group_ttl group ttl)).
Definition MarketDataServiceClearAccountGroupTTL (service : Z) (group : Z) : SM unit :=
  call service (update (openpit_marketdata_service_clear_account_group_ttl group)).
Definition MarketDataServiceSetInstrumentTTL (service : Z) (id : Z) (ttl : MarketDataQuoteTTL) : SM Z :=
  call service (openpit_marketdata_service_set_instrument_ttl id ttl).
Definition MarketDataServiceClearInstrumentTTL (service : Z) (id : Z) : SM Z :=
  call service (openpit_marketdata_service_clear_instrument_ttl id).
Definition MarketDataServiceSetInstrumentAccountTTL (service : Z) (id : Z) (account : Z) (ttl : MarketDataQuoteTTL) : SM Z :=
  call service (openpit_marketdata_service_set_instrument_account_ttl id account ttl).
Definition MarketDataServiceClearInstrumentAccountTTL (service : Z) (id : Z) (account : Z) : SM Z :=
  call service (openpit_marketdata_service_clear_instrument_account_ttl id account).
Definition MarketDataServiceSetInstrumentAccountGroupTTL (service : Z) (id : Z) (group : Z) (ttl : MarketDataQuoteTTL) : SM Z :=
  call service (openpit_marketdata_service_set_instrument_account_group_ttl id group ttl).
Definition MarketDataServiceClearInstrumentAccountGroupTTL (service : Z) (id : Z) (group : Z) : SM Z :=
  call service (openpit_marketdata_service_clear_instrument_account_group_ttl id group).

(** ** [Service] *)

Definition newServiceFromHandle (h : Z) : SM objRef := newObject h.
Definition Close (s : objRef) : SM unit := CloseObject s.
Definition Clone (s : objRef) : SM (objRef + error) :=
  withHandle s (inr ErrServiceClosed) (fun h =>
    let* h' := MarketDataServiceClone h in
    let* s' := newServiceFromHandle h' in
    ret (inl s')).
Definition cloneHandle (s : objRef) : SM (Z + error) :=
  withHandle s (inr ErrServiceClosed) (fun h => let* h' := MarketDataServiceClone h in ret (inl h')).
(** internal/mdhandle, which the package installs: the argument is any value, here a
    service or something else. *)
Definition mdhandle_Clone (service : option objRef) : SM (Z + error) :=
  match service with
  | Some s => cloneHandle s
  | None => ret (inr ErrUnknownService)
  end.

Definition registered (instrument : Instrument) (r : Z * Z * option error) : InstrumentID * option mdError :=
  let '(status, id, err) := r in
  if (status =? MarketDataRegisterStatusOk)%Z then (newInstrumentIDFromHandle id, None)
  else if (status =? MarketDataRegisterStatusAlreadyRegistered)%Z then (0%Z, Some (AlreadyRegisteredError instrument))
  else (0%Z, MDError <$> err).
Definition Register (s : objRef) (instrument : Instrument) : SM (InstrumentID * option mdError) :=
  withHandle s (0%Z, Some (MDError ErrServiceClosed)) (fun h =>
    let* r := MarketDataServiceRegister h instrument in ret (registered instrument r)).
Definition RegisterWithTTL (s : objRef) (instrument : Instrument) (ttl : QuoteTTL) : SM (InstrumentID * option mdError) :=
  withHandle s (0%Z, Some (MDError ErrServiceClosed)) (fun h =>
    let* r := MarketDataServiceRegisterWithTTL h instrument (QuoteTTLHandle ttl) in ret (registered instrument r)).

Definition registeredWithID (instrument : Instrument) (id : InstrumentID) (r : Z * Z * option error) : InstrumentID * option mdError :=
  let '(status, outID, err) := r in
  if (status =? MarketDataRegisterStatusOk)%Z then (newInstrumentIDFromHandle outID, None)
  else if (status =? MarketDataRegisterStatusDuplicateID)%Z then
    (0%Z, Some (RegistrationError RegistrationErrorKindDuplicateID None (Some id)))
  else if (status =? MarketDataRegisterStatusDuplicateInstrument)%Z then
    (0%Z, Some (RegistrationError RegistrationErrorKindDuplicateInstrument (Some instrument) None))
  else (0%Z, MDError <$> err).
Definition RegisterWithID (s : objRef) (instrument : Instrument) (id : InstrumentID) : SM (InstrumentID * option mdError) :=
  withHandle s (0%Z, Some (MDError ErrServiceClosed)) (fun h =>
    let* r := MarketDataServiceRegisterWithID h instrument (InstrumentIDHandle id) in
    ret (registeredWithID instrument id r)).
Definition RegisterWithIDAndTTL (s : objRef) (instrument : Instrument) (id : InstrumentID) (ttl : QuoteTTL) : SM (InstrumentID * option mdError) :=
  withHandle s (0%Z, Some (MDError ErrServiceClosed)) (fun h =>
    let* r := MarketDataServiceRegisterWithIDAndTTL h instrument (InstrumentIDHandle id) (QuoteTTLHandle ttl) in
    ret (registeredWithID instrument id r)).

(** The first uninitialized group, and the error that names its index. *)
Fixpoint checkGroups (i : nat) (accountGroupIDs : list AccountGroupID) : option error :=
  match accountGroupIDs with
  | [] => None
  | g :: gs => if negb (IsInitialized g) then Some (EWrap ("account group " +:+ pretty i) ErrUninitializedAccountGroupID) else checkGroups (S i) gs
  end.
Definition pushStatus (id : InstrumentID) (status : Z) (err : option error) : option mdError :=
  if (status =? MarketDataRegisterStatusOk)%Z then None
  else if (status =? MarketDataRegisterStatusUnknownInstrument)%Z then Some (newUnknownInstrumentIDError id)
  else MDError <$> err.
Definition PushFor (s : objRef) (id : InstrumentID) (quote : Quote) (sourceAge : Z) (accountIDs : list Routing.AccountID) (accountGroupIDs : list AccountGroupID) : SM (option mdError) :=
  match checkGroups 0 accountGroupIDs with
  | Some e => ret (Some (MDError e))
  | None =>
    withHandle s (Some (MDError ErrServiceClosed)) (fun h =>
      let nativeAccounts := map AccountIDNative accountIDs in
      let nativeGroups := map AccountGroupIDHandle accountGroupIDs in
      let* (status, err) := MarketDataServicePushFor h (InstrumentIDHandle id) (QuoteHandle quote) sourceAge nativeAccounts nativeGroups in
      ret (if (status =? MarketDataRegisterStatusOk)%Z then None
           else if (status =? MarketDataRegisterStatusUnknownInstrument)%Z then Some (newUnknownInstrumentIDError id)
           else if (status =? MarketDataRegisterStatusNoTarget)%Z then Some (MDError ErrNoTarget)
           else MDError <$> err))
  end.
Definition Clear (s : objRef) (id : InstrumentID) : SM unit :=
  withHandle s tt (fun h => MarketDataServiceClear h (InstrumentIDHandle id)).
Definition Push (s : objRef) (id : InstrumentID) (quote : Quote) (sourceAge : Z) : SM (option mdError) :=
  withHandle s (Some (MDError ErrServiceClosed)) (fun h =>
    let* (status, err) := MarketDataServicePush h (InstrumentIDHandle id) (QuoteHandle quote) sourceAge in
    ret (pushStatus id status err)).
Definition PushByInstrument (s : objRef) (instrument : Instrument) (quote : Quote) (sourceAge : Z) : SM (InstrumentID * option mdError) :=
  withHandle s (0%Z, Some (MDError ErrServiceClosed)) (fun h =>
    let* (id, err) := MarketDataServicePushByInstrument h instrument (QuoteHandle quote) sourceAge in
    ret (match err with
         | Some err => (0%Z, Some (MDError err))
         | None => (newInstrumentIDFromHandle id, None)
         end)).
Definition Resolve (s : objRef) (instrument : Instrument) : SM (InstrumentID * bool) :=
  withHandle s (0%Z, false) (fun h =>
    let* (id, ok) := MarketDataServiceResolve h instrument in
    ret (if negb ok then (0%Z, false) else (newInstrumentIDFromHandle id, true))).

(** A status that is none of those a call documents becomes an error text. *)
Definition ttlStatus (what : string) (id : InstrumentID) (status : Z) : option mdError :=
  if (status =? MarketDataRegisterStatusOk)%Z then None
  else if (status =? MarketDataRegisterStatusUnknownInstrument)%Z then Some (newUnknownInstrumentIDError id)
  else Some (MDError (EText (what ++ ": unexpected status") (Z.to_nat status))).
Definition SetInstrumentTTL (s : objRef) (id : InstrumentID) (ttl : QuoteTTL) : SM (option mdError) :=
  withHandle s (Some (MDError ErrServiceClosed)) (fun h =>
    let* status := MarketDataServiceSetInstrumentTTL h (InstrumentIDHandle id) (QuoteTTLHandle ttl) in
    ret (ttlStatus "openpit_marketdata_service_set_instrument_ttl" id status)).
Definition ClearInstrumentTTL (s : objRef) (id : InstrumentID) : SM (option mdError) :=
  withHandle s (Some (MDError ErrServiceClosed)) (fun h =>
    let* status := MarketDataServiceClearInstrumentTTL h (InstrumentIDHandle id) in
    ret (ttlStatus "openpit_marketdata_service_clear_instrument_ttl" id status)).
Definition SetAccountTTL (s : objRef) (account : Routing.AccountID) (ttl : QuoteTTL) : SM (unit) :=
  withHandle s tt (fun h => MarketDataServiceSetAccountTTL h (AccountIDNative account) (QuoteTTLHandle ttl)).
Definition ClearAccountTTL (s : objRef) (account : Routing.AccountID) : SM (unit) :=
  withHandle s tt (fun h => MarketDataServiceClearAccountTTL h (AccountIDNative account)).
Definition SetAccountGroupTTL (s : objRef) (group : AccountGroupID) (ttl : QuoteTTL) : SM (option mdError) :=
  if negb (IsInitialized group) then ret (Some (MDError ErrUninitializedAccountGroupID))
  else withHandle s None (fun h => MarketDataServiceSetAccountGroupTTL h (AccountGroupIDHandle group) (QuoteTTLHandle ttl) ;;; ret None).
Definition ClearAccountGroupTTL (s : objRef) (group : AccountGroupID) : SM (option mdError) :=
  if negb (IsInitialized group) then ret (Some (MDError ErrUninitializedAccountGroupID))
  else withHandle s None (fun h => MarketDataServiceClearAccountGroupTTL h (AccountGroupIDHandle group) ;;; ret None).
Definition SetInstrumentAccountTTL (s : objRef) (id : InstrumentID) (account : Routing.AccountID) (ttl : QuoteTTL) : SM (option mdError) :=
  withHandle s (Some (MDError ErrServiceClosed)) (fun h =>
    let* status := MarketDataServiceSetInstrumentAccountTTL h (InstrumentIDHandle id) (AccountIDNative account) (QuoteTTLHandle ttl) in
    ret (ttlStatus "openpit_marketdata_service_set_instrument_account_ttl" id status)).
Definition ClearInstrumentAccountTTL (s : objRef) (id : InstrumentID) (account : Routing.AccountID) : SM (option mdError) :=
  withHandle s (Some (MDError ErrServiceClosed)) (fun h =>
    let* status := MarketDataServiceClearInstrumentAccountTTL h (InstrumentIDHandle id) (AccountIDNative account) in
    ret (ttlStatus "openpit_marketdata_service_clear_instrument_account_ttl" id status)).
Definition SetInstrumentAccountGroupTTL (s : objRef) (id : InstrumentID) (group : AccountGroupID) (ttl : QuoteTTL) : SM (option mdError) :=
  if negb (IsInitialized group) then ret (Some (MDError ErrUninitializedAccountGroupID))
  else withHandle s (Some (MDError ErrServiceClosed)) (fun h =>
    let* status := MarketDataServiceSetInstrumentAccountGroupTTL h (InstrumentIDHandle id) (AccountGroupIDHandle group) (QuoteTTLHandle ttl) in
    ret (ttlStatus "openpit_marketdata_service_set_instrument_account_group_ttl" id status)).
Definition ClearInstrumentAccountGroupTTL (s : objRef) (id : InstrumentID) (group : AccountGroupID) : SM (option mdError) :=
  if negb (IsInitialized group) then ret (Some (MDError ErrUninitializedAccountGroupID))
  else withHandle s (Some (MDError ErrServiceClosed)) (fun h =>
    let* status := MarketDataServiceClearInstrumentAccountGroupTTL h (InstrumentIDHandle id) (AccountGroupIDHandle group) in
    ret (ttlStatus "openpit_marketdata_service_clear_instrument_account_group_ttl" id status)).

(** ** Builders *)

Record ReadyBuilder := mkReadyBuilder { rb_syncPolicy : Z; defaultTTL : QuoteTTL }.
Definition newReadyBuilder (sync : Z) (ttl : QuoteTTL) : ReadyBuilder := mkReadyBuilder sync ttl.
Definition NewServiceBuilder (ttl : QuoteTTL) : QuoteTTL := ttl.
Definition BuilderNoSync (b : QuoteTTL) : ReadyBuilder := newReadyBuilder SyncPolicyNone b.
Definition BuilderFullSync (b : QuoteTTL) : ReadyBuilder := newReadyBuilder SyncPolicyFull b.
Definition ReadyNoSync (b : ReadyBuilder) : ReadyBuilder := newReadyBuilder SyncPolicyNone (defaultTTL b).
Definition ReadyFullSync (b : ReadyBuilder) : ReadyBuilder := newReadyBuilder SyncPolicyFull (defaultTTL b).
Definition BuildService (b : ReadyBuilder) : SM (objRef + error) :=
  let* svc := CreateMarketDataService (rb_syncPolicy b) (QuoteTTLHandle (defaultTTL b)) in
  match svc with
  | inr err => ret (inr err)
  | inl svc => let* s := newServiceFromHandle svc in ret (inl s)
  end.
End MarketData.

(** ** Reads

    [AccountInfo] is the caller's code: it may panic, and do anything else. The state
    is the handle table of the process, the services, and the objects that carry a
    read's [AccountInfo] to the callback and its failure back. *)
Record resolverState := mkResolver { info : nat; failure : option panicValue; rs_err : option error }.
Record World (R : Type) := mkWorld { store : Store R; resolvers : list resolverState }.
Arguments mkWorld {R} _ _.
Arguments store {R} _.
Arguments resolvers {R} _.

Section Reads.
Context {R : Type} {NM : NativeMarketData R}.
Abbreviation St := (GoState nat (World R)).
Abbreviation G := (M St).
Context (panicnil : bool) (AccountGroup : nat -> G (option AccountGroupID)).

Definition onStore {A} (m : M (Store R) A) : G A := fun s =>
  let '(o, st) := m (store (outside s)) in
  (o, mkGo (handleIdx s) (handles s) (sink s) (mkWorld st (resolvers (outside s)))).
Definition setResolvers (f : list resolverState -> list resolverState) : G unit :=
  modify (fun s => mkGo (handleIdx s) (handles s) (sink s) (mkWorld (store (outside s)) (f (resolvers (outside s))))).
Definition newResolver (i : nat) : G nat := fun s =>
  (Ret (length (resolvers (outside s))),
   mkGo (handleIdx s) (handles s) (sink s) (mkWorld (store (outside s)) (resolvers (outside s) ++ [mkResolver i None None]))).
Definition readResolver (r : nat) : G resolverState := fun s =>
  match resolvers (outside s) !! r with
  | Some x => (Ret x, s)
  | None => (Panic nilObject, s)
  end.

Definition noAnswer : Z * option Z := (AccountGroupResolution_Failed, None).

(** The callback. Its answer is the resolution and what it wrote to the out parameter,
    which may be nil. *)
Definition pitMarketDataAccountGroupResolver (userData : Z) (outAccountGroupID : bool) : G (Z * option Z) :=
  if negb outAccountGroupID then ret noAnswer
  else
    let* v := recovering (Value (NewHandleFromUserData userData)) in
    match v with
    | Ret (AValue state) =>
      let* x := readResolver state in
      let* o := recovering (AccountGroup (info x)) in
      match o with
      | Panic v =>
        match recovered panicnil v with
        | Some v => setResolvers (alter (fun x => mkResolver (info x) (Some v) (rs_err x)) state)
        | None => ret tt
        end ;;;
        ret noAnswer
      | Ret None => ret (AccountGroupResolution_NoGroup, None)
      | Ret (Some group) =>
        if negb (IsInitialized group) then
          setResolvers (alter (fun x => mkResolver (info x) (failure x) (Some ErrUninitializedAccountGroupID)) state) ;;;
          ret noAnswer
        else ret (AccountGroupResolution_Found, Some (AccountGroupIDHandle group))
      end
    | _ => ret noAnswer
    end.

(** The native read, over the registry as it is at each of its steps. *)
Definition registryNow (service : Z) : G R := onStore (call service (fun x => (x, x))).
Fixpoint runGet (service userData : Z) (t : getTree R) : G (Z * option MarketDataQuote) :=
  match t with
  | Answer status quote => ret (status, quote)
  | Ask k =>
    let* (resolution, group) := pitMarketDataAccountGroupResolver userData true in
    let* x := registryNow service in
    runGet service userData (k resolution group x)
  end.
Definition MarketDataServiceGet (service id account userData resolution : Z) : G (Z * MarketDataQuote) :=
  let* x := registryNow service in
  let* (status, quote) := runGet service userData (openpit_marketdata_service_get x id account resolution) in
  ret (status, default zeroQuote quote).

Definition get (h : Z) (id : InstrumentID) (account : Routing.AccountID) (accountInfo : nat) (resolution : Z) : G (Z * MarketDataQuote * resolverState) :=
  let* state := newResolver accountInfo in
  let* stateHandle := NewHandle (fun _ => AValue state) in
  let* (status, quote) := MarketDataServiceGet h (InstrumentIDHandle id) (AccountIDNative account) (NewUserDataFromHandle stateHandle) resolution in
  Delete stateHandle ;;;
  let* x := readResolver state in
  ret (status, quote, x).

Definition GetOptional (s : objRef) (id : InstrumentID) (account : Routing.AccountID) (accountInfo : nat) (resolution : Z) : G (option Quote) :=
  let* h := onStore (handleOf s) in
  match h with
  | None => ret None
  | Some h =>
    let* (status, quote, _) := get h id account accountInfo resolution in
    ret (if negb (status =? MarketDataGetStatusFound)%Z then None else Some (newQuoteFromHandle quote))
  end.
Definition Get (s : objRef) (id : InstrumentID) (account : Routing.AccountID) (accountInfo : nat) (resolution : Z) : G (Quote * option mdError) :=
  let* h := onStore (handleOf s) in
  match h with
  | None => ret (zeroQuote, Some (MDError ErrServiceClosed))
  | Some h =>
    let* (status, quote, state) := get h id account accountInfo resolution in
    ret (if (status =? MarketDataGetStatusFound)%Z then (newQuoteFromHandle quote, None)
         else if (status =? MarketDataGetStatusUnknownInstrument)%Z then (zeroQuote, Some (MDError ErrUnknownInstrument))
         else if (status =? MarketDataGetStatusQuoteExpired)%Z then (newQuoteFromHandle quote, Some (MDError ErrQuoteExpired))
         else if (status =? MarketDataGetStatusAccountGroupFailed)%Z then
           (zeroQuote, Some (newAccountGroupResolutionError (failure state) (rs_err state)))
         else if (status =? MarketDataGetStatusError)%Z then (zeroQuote, Some (MDError ErrInvalidQuoteResolution))
         else (zeroQuote, Some (MDError ErrQuoteUnavailable)))
  end.
End Reads.
