(* ===== verification/MarketDataFacts.v ===== *)
(** * What the market-data service keeps

    The methods of [Service] against one reference: what the native function of the
    method says. Handles are destroyed once, a read fails when the group of the account
    could not be had, and lifetimes are exact. *)
From Stdlib Require Import ZArith Lia.
From stdpp Require Import base list gmap strings pretty.
From S2P Require Import Prelude Routing GoRuntime GoPtr ParamValues EngineBase EngineBuilder CgoHandles NativeErrors ServiceStore MarketData.

(** ** The methods *)

Inductive mdOp :=
| OpRegister (i : Instrument)
| OpRegisterWithTTL (i : Instrument) (ttl : QuoteTTL)
| OpRegisterWithID (i : Instrument) (id : InstrumentID)
| OpRegisterWithIDAndTTL (i : Instrument) (id : InstrumentID) (ttl : QuoteTTL)
| OpPushFor (id : InstrumentID) (q : Quote) (age : Z) (accounts : list Routing.AccountID) (groups : list AccountGroupID)
| OpPush (id : InstrumentID) (q : Quote) (age : Z)
| OpPushByInstrument (i : Instrument) (q : Quote) (age : Z)
| OpClear (id : InstrumentID)
| OpResolve (i : Instrument)
| OpSetInstrumentTTL (id : InstrumentID) (ttl : QuoteTTL)
| OpClearInstrumentTTL (id : InstrumentID)
| OpSetAccountTTL (a : Routing.AccountID) (ttl : QuoteTTL)
| OpClearAccountTTL (a : Routing.AccountID)
| OpSetAccountGroupTTL (g : AccountGroupID) (ttl : QuoteTTL)
| OpClearAccountGroupTTL (g : AccountGroupID)
| OpSetInstrumentAccountTTL (id : InstrumentID) (a : Routing.AccountID) (ttl : QuoteTTL)
| OpClearInstrumentAccountTTL (id : InstrumentID) (a : Routing.AccountID)
| OpSetInstrumentAccountGroupTTL (id : InstrumentID) (g : AccountGroupID) (ttl : QuoteTTL)
| OpClearInstrumentAccountGroupTTL (id : InstrumentID) (g : AccountGroupID).

Inductive answer :=
| AnsID (r : InstrumentID * option mdError)
| AnsErr (e : option mdError)
| AnsUnit
| AnsResolved (r : InstrumentID * bool).

(** The groups a method names. *)
Definition groupsOf (op : mdOp) : list AccountGroupID :=
  match op with
  | OpPushFor _ _ _ _ gs => gs
  | OpSetAccountGroupTTL g _ | OpClearAccountGroupTTL g
  | OpSetInstrumentAccountGroupTTL _ g _ | OpClearInstrumentAccountGroupTTL _ g => [g]
  | _ => []
  end.
Definition allInitialized (op : mdOp) : bool := forallb IsInitialized (groupsOf op).

Section Facts.
Context {R : Type} {NM : NativeMarketData R}.
Abbreviation SM := (M (Store R)).

Definition via {A} (f : A -> answer) (m : SM A) : SM answer := let* a := m in ret (f a).
Definition perform (s : objRef) (op : mdOp) : SM answer :=
  match op with
  | OpRegister i => via AnsID (Register s i)
  | OpRegisterWithTTL i ttl => via AnsID (RegisterWithTTL s i ttl)
  | OpRegisterWithID i id => via AnsID (RegisterWithID s i id)
  | OpRegisterWithIDAndTTL i id ttl => via AnsID (RegisterWithIDAndTTL s i id ttl)
  | OpPushFor id q age accounts groups => via AnsErr (PushFor s id q age accounts groups)
  | OpPush id q age => via AnsErr (Push s id q age)
  | OpPushByInstrument i q age => via AnsID (PushByInstrument s i q age)
  | OpClear id => via (fun _ => AnsUnit) (Clear s id)
  | OpResolve i => via AnsResolved (Resolve s i)
  | OpSetInstrumentTTL id ttl => via AnsErr (SetInstrumentTTL s id ttl)
  | OpClearInstrumentTTL id => via AnsErr (ClearInstrumentTTL s id)
  | OpSetAccountTTL a ttl => via (fun _ => AnsUnit) (SetAccountTTL s a ttl)
  | OpClearAccountTTL a => via (fun _ => AnsUnit) (ClearAccountTTL s a)
  | OpSetAccountGroupTTL g ttl => via AnsErr (SetAccountGroupTTL s g ttl)
  | OpClearAccountGroupTTL g => via AnsErr (ClearAccountGroupTTL s g)
  | OpSetInstrumentAccountTTL id a ttl => via AnsErr (SetInstrumentAccountTTL s id a ttl)
  | OpClearInstrumentAccountTTL id a => via AnsErr (ClearInstrumentAccountTTL s id a)
  | OpSetInstrumentAccountGroupTTL id g ttl => via AnsErr (SetInstrumentAccountGroupTTL s id g ttl)
  | OpClearInstrumentAccountGroupTTL id g => via AnsErr (ClearInstrumentAccountGroupTTL s id g)
  end.

(** ** The reference

    The answer as a function of the native status, out parameter and error. *)
Inductive native := NativeStatus (status : Z) (id : Z) (err : option error) | NativeDone.

Definition knownStatus (op : mdOp) (status id : Z) : option answer :=
  match op with
  | OpRegister i | OpRegisterWithTTL i _ =>
    if (status =? 0)%Z then Some (AnsID (id, None))
    else if (status =? 1)%Z then Some (AnsID (0%Z, Some (AlreadyRegisteredError i))) else None
  | OpRegisterWithID i x | OpRegisterWithIDAndTTL i x _ =>
    if (status =? 0)%Z then Some (AnsID (id, None))
    else if (status =? 2)%Z then Some (AnsID (0%Z, Some (RegistrationError RegistrationErrorKindDuplicateID None (Some x))))
    else if (status =? 3)%Z then Some (AnsID (0%Z, Some (RegistrationError RegistrationErrorKindDuplicateInstrument (Some i) None)))
    else None
  | OpPushFor x _ _ _ _ =>
    if (status =? 0)%Z then Some (AnsErr None)
    else if (status =? 4)%Z then Some (AnsErr (Some (UnknownInstrumentIDError x)))
    else if (status =? 6)%Z then Some (AnsErr (Some (MDError ErrNoTarget))) else None
  | OpPush x _ _ | OpSetInstrumentTTL x _ | OpClearInstrumentTTL x | OpSetInstrumentAccountTTL x _ _
  | OpClearInstrumentAccountTTL x _ | OpSetInstrumentAccountGroupTTL x _ _ | OpClearInstrumentAccountGroupTTL x _ =>
    if (status =? 0)%Z then Some (AnsErr None)
    else if (status =? 4)%Z then Some (AnsErr (Some (UnknownInstrumentIDError x))) else None
  | OpPushByInstrument _ _ _ => if (status =? 0)%Z then Some (AnsID (id, None)) else None
  | _ => None
  end.

(** A method with a status: a known status has its answer, any other the error text. *)
Definition byStatus {A} (op : mdOp) (asAnswer : option mdError -> answer) (outID : A -> Z) (fallback : string) (f : statusCall R A) (x : R) : R * outcome answer :=
  let '(x', (status, out, message)) := f x in
  (x', match messageOf (status =? 5)%Z message fallback with
       | Ret err => Ret (match knownStatus op status (outID out) with
                         | Some a => a
                         | None => asAnswer (MDError <$> err)
                         end)
       | Panic v => Panic v
       end).
(** A method whose status has no error text. *)
Definition byCode (op : mdOp) (what : string) (f : R -> R * Z) (x : R) : R * outcome answer :=
  let '(x', status) := f x in
  (x', Ret (match knownStatus op status 0 with
            | Some a => a
            | None => AnsErr (Some (MDError (EText (what ++ ": unexpected status") (Z.to_nat status))))
            end)).
Definition done (a : answer) (f : R -> R) (x : R) : R * outcome answer := (f x, Ret a).
Definition noID : option mdError -> answer := fun e => AnsID (0%Z, e).
Definition noOut : unit -> Z := fun _ => 0%Z.
Definition outZ : Z -> Z := fun id => id.

Definition reference (op : mdOp) (x : R) : R * outcome answer :=
  match op with
  | OpRegister i => byStatus op noID outZ "openpit_marketdata_service_register failed" (openpit_marketdata_service_register i) x
  | OpRegisterWithTTL i ttl => byStatus op noID outZ "openpit_marketdata_service_register_with_ttl failed" (openpit_marketdata_service_register_with_ttl i ttl) x
  | OpRegisterWithID i id => byStatus op noID outZ "openpit_marketdata_service_register_with_id failed" (openpit_marketdata_service_register_with_id i id) x
  | OpRegisterWithIDAndTTL i id ttl => byStatus op noID outZ "openpit_marketdata_service_register_with_id_and_ttl failed" (openpit_marketdata_service_register_with_id_and_ttl i id ttl) x
  | OpPushFor id q age accounts groups =>
    byStatus op AnsErr noOut "openpit_marketdata_service_push_for failed"
      (openpit_marketdata_service_push_for id q (fst (sourceAgeParts age)) (snd (sourceAgeParts age)) (map acc_native accounts) (map grp_native groups)) x
  | OpPush id q age =>
    byStatus op AnsErr noOut "openpit_marketdata_service_push failed" (openpit_marketdata_service_push id q (fst (sourceAgeParts age)) (snd (sourceAgeParts age))) x
  | OpPushByInstrument i q age =>
    byStatus op noID outZ "openpit_marketdata_service_push_by_instrument failed"
      (fun x => let '(x', (ok, out, message)) := openpit_marketdata_service_push_by_instrument i q (fst (sourceAgeParts age)) (snd (sourceAgeParts age)) x in
                (x', (if ok : bool then 0%Z else 5%Z, out, message))) x
  | OpClear id => done AnsUnit (openpit_marketdata_service_clear id) x
  | OpResolve i => (x, Ret (AnsResolved (match openpit_marketdata_service_resolve i x with Some id => (id, true) | None => (0%Z, false) end)))
  | OpSetInstrumentTTL id ttl => byCode op "openpit_marketdata_service_set_instrument_ttl" (openpit_marketdata_service_set_instrument_ttl id ttl) x
  | OpClearInstrumentTTL id => byCode op "openpit_marketdata_service_clear_instrument_ttl" (openpit_marketdata_service_clear_instrument_ttl id) x
  | OpSetInstrumentAccountTTL id a ttl => byCode op "openpit_marketdata_service_set_instrument_account_ttl" (openpit_marketdata_service_set_instrument_account_ttl id (acc_native a) ttl) x
  | OpClearInstrumentAccountTTL id a => byCode op "openpit_marketdata_service_clear_instrument_account_ttl" (openpit_marketdata_service_clear_instrument_account_ttl id (acc_native a)) x
  | OpSetInstrumentAccountGroupTTL id g ttl => byCode op "openpit_marketdata_service_set_instrument_account_group_ttl" (openpit_marketdata_service_set_instrument_account_group_ttl id (grp_native g) ttl) x
  | OpClearInstrumentAccountGroupTTL id g => byCode op "openpit_marketdata_service_clear_instrument_account_group_ttl" (openpit_marketdata_service_clear_instrument_account_group_ttl id (grp_native g)) x
  | OpSetAccountTTL a ttl => done AnsUnit (openpit_marketdata_service_set_account_ttl (acc_native a) ttl) x
  | OpClearAccountTTL a => done AnsUnit (openpit_marketdata_service_clear_account_ttl (acc_native a)) x
  | OpSetAccountGroupTTL g ttl => done (AnsErr None) (openpit_marketdata_service_set_account_group_ttl (grp_native g) ttl) x
  | OpClearAccountGroupTTL g => done (AnsErr None) (openpit_marketdata_service_clear_account_group_ttl (grp_native g)) x
  end.

(** What a closed service answers. The two setters of group TTLs have an error result
    and yet answer nil: their own comments call them no-ops on a closed service, the one
    of [Service] promises [ErrServiceClosed] for every method with an error result. *)
Definition closedAnswer (op : mdOp) : answer :=
  match op with
  | OpRegister _ | OpRegisterWithTTL _ _ | OpRegisterWithID _ _ | OpRegisterWithIDAndTTL _ _ _ | OpPushByInstrument _ _ _ =>
    AnsID (0%Z, Some (MDError ErrServiceClosed))
  | OpClear _ | OpSetAccountTTL _ _ | OpClearAccountTTL _ => AnsUnit
  | OpResolve _ => AnsResolved (0%Z, false)
  | OpSetAccountGroupTTL _ _ | OpClearAccountGroupTTL _ => AnsErr None
  | OpPushFor _ _ _ _ _ | OpPush _ _ _ | OpSetInstrumentTTL _ _ | OpClearInstrumentTTL _
  | OpSetInstrumentAccountTTL _ _ _ | OpClearInstrumentAccountTTL _ _
  | OpSetInstrumentAccountGroupTTL _ _ _ | OpClearInstrumentAccountGroupTTL _ _ =>
    AnsErr (Some (MDError ErrServiceClosed))
  end.

(** ** The shapes *)

Lemma via_open {A} (f : A -> answer) r (closed : A) m s h g x' o :
  objects s !! r = Some (Some h) -> does (m h) s g x' o ->
  does (via f (withHandle r closed m)) s g x' (match o with Ret a => Ret (f a) | Panic v => Panic v end).
Proof.
  intros E (s' & Em & L & Hr). exists s'. split; [|done]. unfold via, bind.
  rewrite (withHandle_open _ _ _ _ _ E), Em. by destruct o.
Qed.
Lemma via_closed {A} (f : A -> answer) r (closed : A) m s :
  objects s !! r = Some None -> via f (withHandle r closed m) s = (Ret (f closed), s).
Proof. intros E. unfold via, bind. by rewrite (withHandle_closed _ _ _ _ E). Qed.


Lemma does_byInstrument i q age h s g x :
  heapOk (heap s) -> registryOf s h = Some (g, x) ->
  let r := openpit_marketdata_service_push_by_instrument i q (fst (sourceAgeParts age)) (snd (sourceAgeParts age)) x in
  does (MarketDataServicePushByInstrument h i q age) s g (fst r)
    (let '(ok, out, message) := snd r in
     match messageOf (negb ok) message "openpit_marketdata_service_push_by_instrument failed" with
     | Ret err => Ret (out, err)
     | Panic v => Panic v
     end).
Proof.
  intros H E r. unfold MarketDataServicePushByInstrument. destruct (sourceAgeParts age) as [secs nanos]. cbn [fst snd] in r.
  apply does_call; [done|]. intros s1 L1 Hh Hr1. fold r. destruct (snd r) as [[ok out] message].
  apply (does_message _ _ _ (fun err => (out, err))); [by rewrite Hh|]. rewrite Hr1. apply lookup_insert_eq.
Qed.

Lemma does_push fallback (f : statusCall R unit) h s g x :
  heapOk (heap s) -> registryOf s h = Some (g, x) ->
  does (let* (status, _, err) := withStatus MarketDataRegisterStatusError fallback (call h f) in ret (status, err)) s g (fst (f x))
    (let '(status, out, message) := snd (f x) in
     match messageOf (status =? MarketDataRegisterStatusError)%Z message fallback with
     | Ret err => Ret (status, err)
     | Panic v => Panic v
     end).
Proof. intros H E. apply (does_status _ _ _ _ _ (fun '(status, _, err) => (status, err))); [done|done|]. by intros [[]]. Qed.

Lemma checkGroups_spec i gs :
  match checkGroups i gs with
  | None => forallb IsInitialized gs = true
  | Some e => forallb IsInitialized gs = false /\ errors_Is "param: account group ID is uninitialized" e = true
  end.
Proof.
  revert i. induction gs as [|g gs IH]; intros i; cbn; [done|].
  destruct (IsInitialized g); cbn; [apply IH|done].
Qed.

Ltac md_status :=
  intros; cbv [knownStatus registered registeredWithID pushStatus ttlStatus newUnknownInstrumentIDError newInstrumentIDFromHandle
    InstrumentIDHandle MarketDataRegisterStatusOk MarketDataRegisterStatusAlreadyRegistered MarketDataRegisterStatusDuplicateID
    MarketDataRegisterStatusDuplicateInstrument MarketDataRegisterStatusUnknownInstrument MarketDataRegisterStatusNoTarget
    noID outZ noOut]; repeat (destruct (_ =? _)%Z; [done|]); done.

(** *** A method on an open service, by its shape *)

Section Open.
Context (r : objRef) (op : mdOp) (s : Store R) (h g : Z) (x : R).
Hypothesis (Hheap : heapOk (heap s)) (Hobj : objects s !! r = Some (Some h)) (Hreg : registryOf s h = Some (g, x)).

Definition answers (m : SM answer) (ref : R * outcome answer) : Prop := does m s g (fst ref) (snd ref).

Lemma open_status {A T} (ans : T -> answer) closed fallback (f : statusCall R A) (k : Z * A * option error -> T) asAnswer outID :
  (forall status out err, ans (k (status, out, err)) =
     match knownStatus op status (outID out) with Some a => a | None => asAnswer (MDError <$> err) end) ->
  answers (via ans (withHandle r closed (fun h => let* q := withStatus MarketDataRegisterStatusError fallback (call h f) in ret (k q))))
    (byStatus op asAnswer outID fallback f x).
Proof.
  intros Hk. eapply does_eq; [eapply via_open; [done|]; eapply (does_status _ _ _ _ _ k); done| |];
    unfold byStatus; destruct (f x) as [x' [[status out] message]]; cbn [fst snd]; [done|].
  change MarketDataRegisterStatusError with 5%Z. destruct (messageOf _ _ _); [by rewrite Hk|done].
Qed.
Lemma open_push fallback (f : statusCall R unit) closed (k : Z -> option error -> option mdError) :
  (forall status err, AnsErr (k status err) =
     match knownStatus op status 0 with Some a => a | None => AnsErr (MDError <$> err) end) ->
  answers (via AnsErr (withHandle r closed (fun h =>
      let* (status, err) := (let* (status, _, err) := withStatus MarketDataRegisterStatusError fallback (call h f) in ret (status, err)) in
      ret (k status err))))
    (byStatus op AnsErr noOut fallback f x).
Proof.
  intros Hk. eapply does_eq; [eapply via_open; [done|]; eapply does_pair, does_push; done| |];
    unfold byStatus; destruct (f x) as [x' [[status out] message]]; cbn [fst snd]; [done|].
  change MarketDataRegisterStatusError with 5%Z. destruct (messageOf _ _ _); [by rewrite Hk|done].
Qed.
Lemma open_code (f : R -> R * Z) what closed id :
  (forall status, AnsErr (ttlStatus what id status) =
     match knownStatus op status 0 with Some a => a | None => AnsErr (Some (MDError (EText (what ++ ": unexpected status") (Z.to_nat status)))) end) ->
  answers (via AnsErr (withHandle r closed (fun h => let* status := call h f in ret (ttlStatus what id status))))
    (byCode op what f x).
Proof.
  intros Hk. eapply does_eq; [eapply via_open; [done|]; eapply does_map, does_plain; done| |];
    unfold byCode; destruct (f x) as [x' status]; cbn [fst snd]; [done|by rewrite Hk].
Qed.
Lemma open_update (f : R -> R) closed (ans : unit -> answer) :
  answers (via ans (withHandle r closed (fun h => call h (update f)))) (done (ans tt) f x).
Proof. eapply does_eq; [eapply via_open; [done|]; by eapply does_plain|done|done]. Qed.
Lemma open_group_update (f : R -> R) closed :
  answers (via AnsErr (withHandle r closed (fun h => call h (update f) ;;; ret None))) (done (AnsErr None) f x).
Proof. eapply does_eq; [eapply via_open; [done|]; eapply (does_map _ (fun _ => None)); by eapply does_plain|done|done]. Qed.

End Open.

Lemma perform_open r op s h g x :
  heapOk (heap s) -> objects s !! r = Some (Some h) -> registryOf s h = Some (g, x) -> allInitialized op = true ->
  answers s g (perform r op) (reference op x).
Proof.
  intros H E Er Hi. destruct op; cbn [perform reference].
  all: unfold SetAccountGroupTTL, ClearAccountGroupTTL, SetInstrumentAccountGroupTTL, ClearInstrumentAccountGroupTTL.
  all: try (unfold allInitialized in Hi; cbn [groupsOf forallb] in Hi; rewrite andb_true_r in Hi; rewrite Hi; cbn [negb]).
  1-4: apply (open_status _ _ s h g x H E Er); by md_status.
  all: try (apply (open_code _ _ s h g x E Er); by md_status).
  all: try (apply (open_update _ s h g x E Er)).
  all: try (apply (open_group_update _ s h g x E Er)).
  - unfold PushFor, MarketDataServicePushFor. destruct (sourceAgeParts age).
    pose proof (checkGroups_spec 0 groups) as Hg. unfold allInitialized in Hi. cbn [groupsOf] in Hi.
    destruct (checkGroups 0 groups); [destruct Hg; congruence|].
    apply (open_push _ _ s h g x H E Er _ _ _ (fun status err => _)). by md_status.
  - unfold Push, MarketDataServicePush. destruct (sourceAgeParts age).
    apply (open_push _ _ s h g x H E Er _ _ _ (pushStatus id)). by md_status.
  - eapply does_eq; [eapply via_open; [done|]; eapply does_pair, does_byInstrument; done| |];
      unfold byStatus; destruct (openpit_marketdata_service_push_by_instrument _ _ _ _ x) as [x' [[ok out] message]];
      cbn [fst snd]; [done|]. destruct ok; [done|]. cbn. by destruct message.
  - eapply does_eq; [eapply via_open; [done|]; eapply does_pair, does_map, does_plain; done|done|].
    cbn. by destruct (openpit_marketdata_service_resolve i x).
Qed.

Lemma perform_closed r op s :
  objects s !! r = Some None -> allInitialized op = true -> perform r op s = (Ret (closedAnswer op), s).
Proof.
  intros E Hi. destruct op; cbn [perform closedAnswer].
  all: unfold SetAccountGroupTTL, ClearAccountGroupTTL, SetInstrumentAccountGroupTTL, ClearInstrumentAccountGroupTTL.
  all: try (unfold allInitialized in Hi; cbn [groupsOf forallb] in Hi; rewrite andb_true_r in Hi; rewrite Hi; cbn [negb]).
  all: try (by apply via_closed).
  unfold PushFor. pose proof (checkGroups_spec 0 groups) as Hg. unfold allInitialized in Hi. cbn [groupsOf] in Hi.
  destruct (checkGroups 0 groups); [destruct Hg; congruence|]. by apply via_closed.
Qed.
Lemma perform_uninitialized r op s :
  allInitialized op = false ->
  exists e, perform r op s = (Ret (AnsErr (Some (MDError e))), s) /\
    errors_Is "param: account group ID is uninitialized" e = true.
Proof.
  unfold allInitialized. destruct op; cbn [groupsOf forallb perform]; try done.
  all: unfold SetAccountGroupTTL, ClearAccountGroupTTL, SetInstrumentAccountGroupTTL, ClearInstrumentAccountGroupTTL.
  all: try (rewrite andb_true_r; intros ->; by eexists).
  unfold PushFor. pose proof (checkGroups_spec 0 groups) as Hg. intros Hi.
  destruct (checkGroups 0 groups) as [e|]; [destruct Hg as [_ Hg]; by exists e|congruence].
Qed.

(** C26: Every method of a market-data service but the reads, on any service and any
    arguments, is one native call: on an open service the registry becomes what the
    native function makes of it, the answer is the one of the native status, and nothing
    is left behind, the error text included. On a closed service nothing changes; a method
    with an error result answers [ErrServiceClosed], except [SetAccountGroupTTL] and
    [ClearAccountGroupTTL], which answer nil, and the other methods answer nothing or
    the zero value. A method that names an account group that was never initialized
    changes nothing and says so, so it cannot reach the default group by accident. *)
Theorem market_data_calls_are_native_calls (handed : list Z) (s : Store R) (r : objRef) (op : mdOp) :
  storeOk handed s ->
  match allInitialized op, objects s !! r with
  | false, _ => exists e, perform r op s = (Ret (AnsErr (Some (MDError e))), s) /\
      errors_Is "param: account group ID is uninitialized" e = true
  | true, Some None => perform r op s = (Ret (closedAnswer op), s)
  | true, Some (Some h) => exists g x s', registryOf s h = Some (g, x) /\
      perform r op s = (snd (reference op x), s') /\ sameHandles s s' /\ storeOk handed s' /\
      registries s' = <[g := fst (reference op x)]> (registries s)
  | true, None => True
  end.
Proof.
  intros K. destruct (allInitialized op) eqn:Hi; [|by apply perform_uninitialized].
  destruct (objects s !! r) as [[h|]|] eqn:E; [|by apply perform_closed|done].
  destruct (registry_exists handed s h K (object_live handed s r h K E)) as (g & x & Er).
  pose proof (perform_open r op s h g x (ok_heap _ _ K) E Er Hi) as D.
  destruct (does_holds handed _ _ _ _ _ _ _ Er D K) as (s' & Es & _ & K' & _).
  destruct D as (s1 & E1 & L & Hr). rewrite Es in E1. injection E1 as <-. by exists g, x, s'.
Qed.

(** ** Every handle is released once *)

Inductive svcOp :=
| SBuild (b : ReadyBuilder)
| SClone (r : objRef)
| SCloneHandle (r : objRef)
| SClose (r : objRef)
| SDestroyClone (i : nat)
| SCall (r : objRef) (op : mdOp).

(** The state with the clones that were handed to policy builders. A caller has no
    service, and no clone, that was not given to it. *)
Abbreviation Session := (Store R * list Z)%type.
Definition quietly {A} (m : SM A) : M Session unit := fun '(s, handed) =>
  let '(o, s) := m s in (match o with Ret _ => Ret tt | Panic v => Panic v end, (s, handed)).
Definition hasObject (r : objRef) (m : M Session unit) : M Session unit := fun st =>
  match objects (fst st) !! r with Some _ => m st | None => (Ret tt, st) end.
Definition exec (op : svcOp) : M Session unit :=
  match op with
  | SBuild b => quietly (BuildService b)
  | SClone r => hasObject r (quietly (Clone r))
  | SClose r => hasObject r (quietly (Close r))
  | SCall r op => hasObject r (quietly (perform r op))
  | SCloneHandle r => hasObject r (fun '(s, handed) =>
      let '(o, s) := cloneHandle r s in
      match o with
      | Ret (inl h) => (Ret tt, (s, h :: handed))
      | Ret (inr _) => (Ret tt, (s, handed))
      | Panic v => (Panic v, (s, handed))
      end)
  | SDestroyClone i => fun '(s, handed) =>
      match handed !! i with
      | Some h => quietly (DestroyMarketDataService h) (s, delete i handed)
      | None => (Ret tt, (s, handed))
      end
  end.
Fixpoint execAll (ops : list svcOp) : M Session unit :=
  match ops with
  | [] => ret tt
  | op :: ops => exec op ;;; execAll ops
  end.

Definition emptyStore : Store R := mkStore (mkNativeHeap 0 ∅ ∅) 0 ∅ ∅ [].
(** A failing call writes its error text, as the native header documents. *)
Definition writesErrors : Prop :=
  (forall op x, exists a, snd (reference op x) = Ret a) /\
  (forall p ttl, openpit_create_marketdata_service p ttl <> inr None).

Definition sessionOk (st : Session) : Prop := storeOk (snd st) (fst st) /\ sharedStrings (heap (fst st)) = ∅.

Lemma emptyStore_ok : storeOk [] emptyStore.
Proof.
  split; cbn; try (intros h [x H]; by rewrite lookup_empty in H); [split; cbn; intros h [x H]; by rewrite lookup_empty in H| |constructor|].
  - intros h g H. by rewrite lookup_empty in H.
  - intros h. rewrite lookup_empty. split; [by intros [x H]|]. intros H. by apply not_elem_of_nil in H.
Qed.

(** Only the heap may change, and not its contents. *)
Lemma heap_only_ok handed (s : Store R) hp :
  storeOk handed s -> nothingLeft (heap s) hp ->
  storeOk handed (mkStore hp (nextHandle s) (live s) (registries s) (objects s)).
Proof. intros [] L. split; try done. by eapply nothingLeft_ok. Qed.
Lemma same_strings (s s' : Store R) : nothingLeft (heap s) (heap s') -> sharedStrings (heap s) = ∅ -> sharedStrings (heap s') = ∅.
Proof. intros (_ & E & _). congruence. Qed.

(** A call that ends well in a good state. *)
Definition good (m : M Session unit) (st : Session) : Prop := exists st', m st = (Ret tt, st') /\ sessionOk st'.

Lemma quietly_good {A} (m : SM A) s handed a s' :
  m s = (Ret a, s') -> storeOk handed s' -> sharedStrings (heap s') = ∅ -> good (quietly m) (s, handed).
Proof. intros E K S. exists (s', handed). unfold quietly. by rewrite E. Qed.

Lemma hasObject_good r m s handed :
  sessionOk (s, handed) -> (forall o, objects s !! r = Some o -> good m (s, handed)) -> good (hasObject r m) (s, handed).
Proof.
  intros K H. unfold good, hasObject. cbn [fst]. destruct (objects s !! r) as [o|]; [by apply (H o)|]. by exists (s, handed).
Qed.

Lemma exec_build b s handed : writesErrors -> sessionOk (s, handed) -> good (exec (SBuild b)) (s, handed).
Proof.
  intros [_ W] [K S]. cbn in K, S. cbn [exec]. specialize (W (rb_syncPolicy b) (QuoteTTLHandle (defaultTTL b))).
  unfold BuildService, CreateMarketDataService.
  destruct (openpit_create_marketdata_service _ _) as [x|[msg|]]; [| |done].
  - destruct (create_new handed s x K) as (h & s1 & E1 & _ & _ & _ & K1).
    eapply quietly_good; [|exact K1|].
    + rewrite bind_assoc, (bind_Ret _ _ _ _ _ E1). unfold newServiceFromHandle. reflexivity.
    + injection E1 as <- <-. exact S.
  - destruct (alloc_message "openpit_create_marketdata_service failed" (Some msg) (@inr Z error) (heap s) (ok_heap _ _ K)) as (hp & Eh & L).
    eapply quietly_good; [|eapply (heap_only_ok _ _ hp K L)|destruct L as (_ & E & _); cbn in *; congruence].
    revert Eh. unfold bind, onHeap, ret. cbn -[allocString consumeSharedStringAsError].
    destruct (allocString (Some msg) (heap s)) as [[o|v] hp1]; [|done]. cbn -[consumeSharedStringAsError].
    destruct (consumeSharedStringAsError o _ hp1) as [[e|v] hp2]; [|done]. by intros [= -> ->].
Qed.
Lemma exec_clone r s handed : sessionOk (s, handed) -> good (exec (SClone r)) (s, handed).
Proof.
  intros K0. apply hasObject_good; [done|]. destruct K0 as [K S]. cbn in K, S. intros [h|] E.
  - destruct (registry_exists _ _ _ K (object_live _ _ _ _ K E)) as (g & x & Er).
    destruct (clone_new handed s h g x K Er) as (h' & s1 & E1 & _ & _ & _ & K1 & _).
    eapply quietly_good; [|exact K1|].
    + unfold Clone. rewrite (withHandle_open _ _ _ _ _ E), (bind_Ret _ _ _ _ _ E1). reflexivity.
    + revert E1. unfold cloneService. apply registryOf_live in Er as [-> _]. by intros [= <- <-].
  - eapply quietly_good; [by apply withHandle_closed|done|done].
Qed.
Lemma exec_cloneHandle r s handed : sessionOk (s, handed) -> good (exec (SCloneHandle r)) (s, handed).
Proof.
  intros K0. apply hasObject_good; [done|]. destruct K0 as [K S]. cbn in K, S. intros [h|] E.
  - destruct (registry_exists _ _ _ K (object_live _ _ _ _ K E)) as (g & x & Er).
    destruct (clone_new handed s h g x K Er) as (h' & s1 & E1 & _ & _ & _ & _ & K1).
    unfold good, cloneHandle. rewrite (withHandle_open _ _ _ _ _ E), (bind_Ret _ _ _ _ _ E1). cbn.
    exists (s1, h' :: handed). split; [done|]. split; [done|]. cbn.
    revert E1. unfold cloneService. apply registryOf_live in Er as [-> _]. by intros [= <- <-].
  - exists (s, handed). unfold cloneHandle. by rewrite (withHandle_closed _ _ _ _ E).
Qed.
Lemma exec_close r s handed : sessionOk (s, handed) -> good (exec (SClose r)) (s, handed).
Proof.
  intros K0. apply hasObject_good; [done|]. destruct K0 as [K S]. cbn in K, S. intros [h|] E.
  - destruct (destroy_ok handed handed s h (<[r := None]> (objects s)) K) as [Ed K']; [by rewrite (held_close s r h E)|].
    eapply quietly_good; [|exact K'|exact S].
    unfold Close, CloseObject, bind at 1, handleOf. rewrite E, (bind_Ret _ _ _ _ _ Ed). reflexivity.
  - by eapply quietly_good; [apply CloseObject_closed|..].
Qed.
Lemma exec_destroy i s handed : sessionOk (s, handed) -> good (exec (SDestroyClone i)) (s, handed).
Proof.
  intros [K S]. cbn in K, S. unfold good, exec. destruct (handed !! i) as [h|] eqn:E; [|by exists (s, handed)].
  destruct (destroy_ok handed (delete i handed) s h (objects s) K) as [Ed K'].
  { rewrite (delete_Permutation _ _ _ E) at 1. unfold held. by rewrite Permutation_middle. }
  exact (quietly_good _ _ _ _ _ Ed K' S).
Qed.
Lemma exec_call r op s handed : writesErrors -> sessionOk (s, handed) -> good (exec (SCall r op)) (s, handed).
Proof.
  intros [W _] K0. apply hasObject_good; [done|]. destruct K0 as [K S]. cbn in K, S. intros o E.
  destruct (allInitialized op) eqn:Hi.
  2: { destruct (perform_uninitialized r op s Hi) as (e & Ee & _). by eapply quietly_good. }
  destruct o as [h|]; [|by eapply quietly_good; [apply perform_closed|..]].
  destruct (registry_exists _ _ _ K (object_live _ _ _ _ K E)) as (g & x & Er).
  destruct (does_holds handed _ _ _ _ _ _ _ Er (perform_open r op s h g x (ok_heap _ _ K) E Er Hi) K) as (s' & Es & L & K' & _).
  destruct (W op x) as [a Ea]. rewrite Ea in Es. eapply quietly_good; [exact Es|done|]. eapply same_strings; [apply L|done].
Qed.
#[local] Hint Resolve exec_build exec_clone exec_cloneHandle exec_close exec_destroy exec_call : pit.

(** C27: Whatever services are built, cloned, used and closed, in any order and with
    methods on closed services too, no call reaches a native handle that was destroyed
    and no handle is destroyed twice. The live handles are exactly those of the open
    services and of the clones handed out, each in one place, so after the services are
    closed and the clones released no native handle is left; nor is any error text. *)
Theorem services_are_released_once (ops : list svcOp) :
  writesErrors ->
  exists s handed, execAll ops (emptyStore, []) = (Ret tt, (s, handed)) /\
    storeOk handed s /\ sharedStrings (heap s) = ∅ /\
    (Forall (fun o => o = None) (objects s) -> handed = [] -> live s = ∅).
Proof.
  intros W. assert (sessionOk (emptyStore, [])) as K0 by (split; [apply emptyStore_ok|done]).
  revert K0. generalize (emptyStore, @nil Z). induction ops as [|op ops IH]; intros [s handed] K0.
  - exists s, handed. split; [done|]. destruct K0 as [K S]. split; [done|]. split; [done|]. intros Ho ->.
    apply map_empty. intros h. apply eq_None_not_Some. intros Hl. apply (ok_live _ _ K) in Hl.
    rewrite app_nil_r in Hl. apply held_spec in Hl as [r Hr]. by apply (Forall_lookup_1 _ _ _ _ Ho) in Hr.
  - assert (good (exec op) (s, handed)) as (st1 & E1 & K1) by (destruct op; auto with pit).
    destruct (IH st1 K1) as (s' & handed' & E' & H'). exists s', handed'.
    cbn [execAll]. by rewrite (bind_Ret _ _ _ _ _ E1).
Qed.
End Facts.

(** ** Ages and lifetimes *)

(** The age of an observation reaches the native library exactly, as seconds and
    nanoseconds, and a negative age as zero; a lifetime that is not negative is passed on
    exactly too. A negative lifetime is not: the code casts both parts, so the native
    lifetime is longer than any that was asked for. *)
Theorem ages_and_lifetimes_are_exact (R : Type) (NM : NativeMarketData R) (d : Z) :
  inS 64 d ->
  let '(s, n) := sourceAgeParts d in
  (s * Second + n = Z.max 0 d)%Z /\ (0 <= n < Second)%Z /\ inU 64 s /\ inU 32 n /\
  exists s' n', WithinTTL d = openpit_create_marketdata_quote_ttl_within s' n' /\ inU 64 s' /\ inU 32 n' /\
    ((0 <= d)%Z -> s' = s /\ n' = n) /\ ((d < 0)%Z -> s' * Second + n' > 0)%Z.
Proof.
  intros Hd. unfold inS in Hd. unfold sourceAgeParts.
  assert (Second = 1000000000)%Z as HS by done.
  pose proof (Z.quot_rem' d Second) as Hqr.
  assert (forall x w, (0 <= x < 2 ^ w)%Z -> wrapU w x = x) as Hw by (intros; by apply wrapU_small).
  assert (0 <= d -> 0 <= Z.quot d Second < 2 ^ 64 /\ 0 <= Z.rem d Second < Second)%Z as Hpos.
  { intros H0. pose proof (Z.rem_bound_pos d Second H0 ltac:(lia)). pose proof (Z.quot_pos d Second H0 ltac:(lia)).
    split; [|lia]. nia. }
  assert (d < 0 -> - Second < Z.rem d Second <= 0 /\ - 2 ^ 63 <= Z.quot d Second <= 0)%Z as Hneg.
  { intros H0. pose proof (Z.rem_bound_pos_neg d Second ltac:(lia) ltac:(lia)). split; [lia|]. nia. }
  destruct (Z.ltb_spec d 0) as [H0|H0].
  - specialize (Hneg H0). split; [lia|]. split; [lia|]. split; [done|]. split; [done|].
    eexists _, _. split; [reflexivity|]. split; [by apply wrapU_range|]. split; [by apply wrapU_range|]. split; [lia|].
    intros _. set (q := Z.quot d Second) in *. set (r := Z.rem d Second) in *.
    pose proof (wrapU_range 64 q ltac:(lia)) as Hq. pose proof (wrapU_range 32 r ltac:(lia)) as Hr. unfold inU in *.
    assert (wrapU 64 q <> 0 \/ wrapU 32 r <> 0)%Z; [|nia].
    destruct (decide (q = 0)%Z) as [Eq|Nq].
    + right. unfold wrapU. assert (r <> 0)%Z by lia. rewrite <- (Z_mod_plus_full r 1 (2 ^ 32)), Z.mod_small by lia. lia.
    + left. unfold wrapU. rewrite <- (Z_mod_plus_full q 1 (2 ^ 64)), Z.mod_small by lia. lia.
  - destruct (Hpos H0) as [Hq Hr]. rewrite (Hw _ 64%Z), (Hw _ 32%Z) by lia.
    split; [lia|]. split; [lia|]. split; [by unfold inU|]. split; [unfold inU; lia|].
    unfold WithinTTL. rewrite (Hw _ 64%Z), (Hw _ 32%Z) by lia.
    eexists _, _. split; [reflexivity|]. split; [by unfold inU|]. split; [unfold inU; lia|]. split; [done|lia].
Qed.

(** ** A registry of names

    An instrument's id is its position; nothing else is stored. *)
Definition nameRegistry : NativeMarketData (list Instrument) :=
  let unknown x := (x, MarketDataRegisterStatusUnknownInstrument) in
  let unknown3 x := (x, (MarketDataRegisterStatusUnknownInstrument, tt, None)) in
  let register i (x : list Instrument) :=
    if bool_decide (i ∈ x) then (x, (MarketDataRegisterStatusAlreadyRegistered, 0%Z, None))
    else (x ++ [i], (MarketDataRegisterStatusOk, Z.of_nat (length x), None)) in
  let refuse (x : list Instrument) := (x, (MarketDataRegisterStatusError, 0%Z, Some "no ids here"%string)) in
  {| openpit_create_marketdata_quote := zeroQuote;
     openpit_create_marketdata_quote_ttl_infinite := mkTTL 0 0 true;
     openpit_create_marketdata_quote_ttl_within s n := mkTTL s n false;
     openpit_create_marketdata_service _ _ := inl [];
     openpit_marketdata_service_register := register;
     openpit_marketdata_service_register_with_ttl i _ := register i;
     openpit_marketdata_service_register_with_id _ _ := refuse;
     openpit_marketdata_service_register_with_id_and_ttl _ _ _ := refuse;
     openpit_marketdata_service_clear _ x := x;
     openpit_marketdata_service_push _ _ _ _ := unknown3;
     openpit_marketdata_service_push_by_instrument _ _ _ _ x := (x, (false, 0%Z, Some "no quotes here"%string));
     openpit_marketdata_service_push_for _ _ _ _ _ _ := unknown3;
     openpit_marketdata_service_get _ _ _ _ :=
       Ask (fun a _ _ => if (a =? 2)%Z then Answer MarketDataGetStatusAccountGroupFailed None
                         else Answer MarketDataGetStatusUnavailable None);
     openpit_marketdata_service_resolve _ _ := None;
     openpit_marketdata_service_set_account_ttl _ _ x := x;
     openpit_marketdata_service_clear_account_ttl _ x := x;
     openpit_marketdata_service_set_account_group_ttl _ _ x := x;
     openpit_marketdata_service_clear_account_group_ttl _ x := x;
     openpit_marketdata_service_set_instrument_ttl _ _ := unknown;
     openpit_marketdata_service_clear_instrument_ttl _ := unknown;
     openpit_marketdata_service_set_instrument_account_ttl _ _ _ := unknown;
     openpit_marketdata_service_clear_instrument_account_ttl _ _ := unknown;
     openpit_marketdata_service_set_instrument_account_group_ttl _ _ _ := unknown;
     openpit_marketdata_service_clear_instrument_account_group_ttl _ _ := unknown |}.

Lemma nameRegistry_writesErrors : writesErrors (NM := nameRegistry).
Proof.
  split; [|done]. intros op x. destruct op; cbn; unfold byStatus, byCode, done; cbn; try (by eexists).
  all: destruct (bool_decide _); cbn; by eexists.
Qed.
Lemma services_are_released_once_witness :
  exists s handed, execAll (NM := nameRegistry)
      [SBuild (mkReadyBuilder 0 (mkTTL 0 0 true)); SCloneHandle 0; SClose 0; SClose 0; SDestroyClone 0; SClone 0]
      (emptyStore, []) = (Ret tt, (s, handed)) /\ live s = ∅.
Proof.
  destruct (services_are_released_once (NM := nameRegistry)
    [SBuild (mkReadyBuilder 0 (mkTTL 0 0 true)); SCloneHandle 0; SClose 0; SClose 0; SDestroyClone 0; SClone 0]
    nameRegistry_writesErrors) as (s & handed & E & _ & _ & H).
  exists s, handed. split; [exact E|]. vm_compute in E. injection E as <- <-. apply H; [repeat constructor|reflexivity].
Defined.
Lemma market_data_calls_are_native_calls_witness :
  let s := oneService [("A", "B")%string] in
  storeOk [] s /\
  exists s', perform (NM := nameRegistry) 0 (OpRegister ("A", "B")%string) s =
    (Ret (AnsID (0%Z, Some (AlreadyRegisteredError ("A", "B")%string))), s') /\ sameHandles s s'.
Proof.
  intros s. pose proof (oneService_ok [("A", "B")%string]) as K.
  split; [exact K|].
  destruct (market_data_calls_are_native_calls (NM := nameRegistry) [] s 0 (OpRegister ("A", "B")%string) K)
    as (g & x & s' & E & Ep & L & _).
  exists s'. split; [|exact L]. vm_compute in E. injection E as <- <-. exact Ep.
Defined.
Lemma ages_and_lifetimes_are_exact_witness :
  inS 64 1500000000 /\ sourceAgeParts 1500000000 = (1, 500000000)%Z /\
  WithinTTL (NM := nameRegistry) 1500000000 = mkTTL 1 500000000 false.
Proof.
  assert (inS 64 1500000000) as H by (unfold inS; lia). split; [exact H|]. split; [reflexivity|].
  destruct (ages_and_lifetimes_are_exact (list Instrument) nameRegistry 1500000000 H) as (_ & _ & _ & _ & s' & n' & E & _ & _ & E' & _).
  rewrite E. destruct (E' ltac:(lia)) as [-> ->]. reflexivity.
Defined.
