(* ===== verification/MarketReads.v ===== *)
(** * Reads of the market-data service

    [Get] and [GetOptional] of MarketData.v call back into the caller's [AccountInfo]
    from inside the native read. The theorem says that a group that could not be had
    fails the read, and that the callback lets no panic out and leaves no handle. *)
From Stdlib Require Import ZArith Lia.
From stdpp Require Import base list gmap strings pretty.
From S2P Require Import Prelude Routing GoRuntime GoPtr ParamValues EngineBase EngineBuilder CgoHandles NativeErrors ServiceStore MarketData MarketDataFacts.

(** As the native header documents: when the callback reports a failure, the read fails
    with the status for it and writes no quote, and it never fails that way otherwise. *)
Inductive failsClosed {R : Type} : getTree R -> Prop :=
| fc_answer status quote : status <> MarketDataGetStatusAccountGroupFailed -> failsClosed (Answer status quote)
| fc_ask k :
    (forall g x, k AccountGroupResolution_Failed g x = Answer MarketDataGetStatusAccountGroupFailed None) ->
    (forall a g x, a <> AccountGroupResolution_Failed -> failsClosed (k a g x)) ->
    failsClosed (Ask k).
Definition asks {R} (t : getTree R) : bool := match t with Ask _ => true | Answer _ _ => false end.

(** What the callback answers for an outcome of [AccountGroup]. *)
Definition groupAnswer (o : outcome (option AccountGroupID)) : Z * option Z :=
  match o with
  | Panic _ => noAnswer
  | Ret None => (AccountGroupResolution_NoGroup, None)
  | Ret (Some g) => if IsInitialized g then (AccountGroupResolution_Found, Some (AccountGroupIDHandle g)) else noAnswer
  end.
Definition groupUnknown (o : outcome (option AccountGroupID)) : bool :=
  match o with
  | Panic _ => true
  | Ret None => false
  | Ret (Some g) => negb (IsInitialized g)
  end.
(** What the read reports then. *)
Definition panicOf (panicnil : bool) (o : outcome (option AccountGroupID)) : option panicValue :=
  match o with Panic v => recovered panicnil v | Ret _ => None end.
Definition errOf (o : outcome (option AccountGroupID)) : option error :=
  match o with Panic _ => None | Ret _ => Some ErrUninitializedAccountGroupID end.

Section Reads.
Context {R : Type} {NM : NativeMarketData R}.
Abbreviation St := (GoState nat (World R)).
Abbreviation G := (M St).

(** [AccountInfo] may do anything but reach the SDK's own handles and state: it closes
    no service. (Closing the one that is read would wait for the read to end.) *)
Record polite (s s' : St) : Prop := {
  p_keeps : keeps s s';
  p_handles : handlesOk s -> handlesOk s';
  p_resolvers : forall r x, resolvers (outside s) !! r = Some x -> resolvers (outside s') !! r = Some x;
  p_open : forall h g x, registryOf (store (outside s)) h = Some (g, x) ->
    exists x', registryOf (store (outside s')) h = Some (g, x');
}.
Context (panicnil : bool) (AccountGroup : nat -> G (option AccountGroupID)).
Hypothesis (Hpolite : forall i, preserves polite (AccountGroup i)).

Lemma registryNow_spec h g x (s : St) :
  registryOf (store (outside s)) h = Some (g, x) -> registryNow h s = (Ret x, s).
Proof.
  intros E. unfold registryNow, onStore, call. rewrite E. cbn.
  rewrite insert_id by (by apply registryOf_live in E as [_ E]).
  destruct s as [? ? ? [[] ?]]. reflexivity.
Qed.

(** A read in progress: its handle stands for its resolver state. *)
Record reading (h userData : Z) (r i : nat) (s : St) : Prop := {
  rd_ok : handlesOk s;
  rd_handle : handles s !! userData = Some (AValue r);
  rd_resolver : resolvers (outside s) !! r = Some (mkResolver i None None);
  rd_open : exists g x, registryOf (store (outside s)) h = Some (g, x);
}.

Lemma polite_reading h ud r i s s' : reading h ud r i s -> polite s s' -> reading h ud r i s'.
Proof.
  intros [A B C (g & x & D)] [E F H I]. split; [auto| |auto|].
  - by apply (keeps_value s).
  - destruct (I _ _ _ D) as [x' D']. by exists g, x'.
Qed.

Definition marked (i : nat) (o : outcome (option AccountGroupID)) : resolverState :=
  mkResolver i (panicOf panicnil o) (errOf o).

Lemma resolver_spec h ud r i s o s1 :
  reading h ud r i s -> AccountGroup i s = (o, s1) ->
  exists s', pitMarketDataAccountGroupResolver panicnil AccountGroup ud true s = (Ret (groupAnswer o), s') /\
    keeps s s' /\ handlesOk s' /\ handles s' !! ud = Some (AValue r) /\
    (exists g x, registryOf (store (outside s')) h = Some (g, x)) /\
    if groupUnknown o then resolvers (outside s') !! r = Some (marked i o) else reading h ud r i s'.
Proof.
  intros Hr E. assert (polite s s1) as Hp by (specialize (Hpolite i s); by rewrite E in Hpolite).
  pose proof (polite_reading _ _ _ _ _ _ Hr Hp) as Hr1.
  assert (forall o', groupUnknown o' = true -> exists s',
    (match o' with
     | Panic v => (match recovered panicnil v with
         | Some v => setResolvers (R := R) (alter (fun x => mkResolver (info x) (Some v) (rs_err x)) r)
         | None => ret tt end)
     | Ret _ => setResolvers (alter (fun x => mkResolver (info x) (failure x) (Some ErrUninitializedAccountGroupID)) r)
     end) s1 = (Ret tt, s') /\ handles s' = handles s1 /\ handleIdx s' = handleIdx s1 /\
    store (outside s') = store (outside s1) /\ resolvers (outside s') !! r = Some (marked i o')) as Hm.
  { intros o' Ho. destruct Hr1 as [_ _ Hr1 _]. destruct o' as [[g|]|v]; [|done|].
    - eexists. split; [reflexivity|]. split; [done|]. split; [done|]. split; [done|]. cbn. by rewrite list_lookup_alter_eq, Hr1.
    - unfold marked; cbn [panicOf errOf]. destruct (recovered panicnil v).
      + eexists. split; [reflexivity|]. split; [done|]. split; [done|]. split; [done|]. cbn. by rewrite list_lookup_alter_eq, Hr1.
      + by exists s1. }
  assert (pitMarketDataAccountGroupResolver panicnil AccountGroup ud true s =
    match o with
    | Panic v => ((match recovered panicnil v with
         | Some v => setResolvers (alter (fun x => mkResolver (info x) (Some v) (rs_err x)) r)
         | None => ret tt end) ;;; ret noAnswer) s1
    | Ret None => (Ret (AccountGroupResolution_NoGroup, None), s1)
    | Ret (Some g) => if negb (IsInitialized g) then
        (setResolvers (alter (fun x => mkResolver (info x) (failure x) (Some ErrUninitializedAccountGroupID)) r) ;;; ret noAnswer) s1
      else (Ret (AccountGroupResolution_Found, Some (AccountGroupIDHandle g)), s1)
    end) as ->.
  { destruct Hr as [_ B C _]. unfold pitMarketDataAccountGroupResolver, NewHandleFromUserData. cbn [negb].
    unfold bind at 1, recovering at 1. rewrite (Value_live _ _ _ B). unfold bind at 1, readResolver. rewrite C. cbn [info].
    unfold bind at 1, recovering. rewrite E. destruct o as [[g|]|v]; [by destruct (IsInitialized g)|done|done]. }
  destruct (groupUnknown o) eqn:Ho.
  - destruct (Hm o Ho) as (s' & Es & H1 & H2 & H4 & H3). exists s'. split.
    + destruct o as [[g|]|v]; cbn in Ho; [|done|].
      * rewrite Ho, (bind_Ret _ _ _ _ _ Es). cbn. by destruct (IsInitialized g).
      * by rewrite (bind_Ret _ _ _ _ _ Es).
    + split; [transitivity s1; [apply Hp|by apply keeps_same]|]. split.
      * destruct (rd_ok _ _ _ _ _ Hr1) as [K0 K]. split; [by rewrite H2|]. by rewrite H1, H2.
      * rewrite H1, H4. split; [apply Hr1|]. split; [apply Hr1|done].
  - exists s1. split.
    + destruct o as [[g|]|v]; cbn in Ho; [|done|done]. rewrite Ho. cbn.
      apply negb_false_iff in Ho. by rewrite Ho.
    + split; [apply Hp|]. split; [apply Hr1|]. split; [apply Hr1|]. split; [apply Hr1|done].
Qed.

Lemma runGet_spec h ud r i o t s :
  (forall s, fst (AccountGroup i s) = o) -> failsClosed t -> reading h ud r i s ->
  exists status quote s', runGet panicnil AccountGroup h ud t s = (Ret (status, quote), s') /\
    keeps s s' /\ handlesOk s' /\ handles s' !! ud = Some (AValue r) /\
    if asks t && groupUnknown o
    then status = MarketDataGetStatusAccountGroupFailed /\ quote = None /\ resolvers (outside s') !! r = Some (marked i o)
    else status <> MarketDataGetStatusAccountGroupFailed /\ is_Some (resolvers (outside s') !! r).
Proof.
  intros Ho Ht. revert s. induction Ht as [status quote Hs|k Hfail Hk IH]; intros s Hr.
  { exists status, quote, s. split; [done|]. split; [done|]. split; [apply Hr|]. split; [apply Hr|].
    split; [done|]. destruct Hr as [_ _ -> _]. by eexists. }
  destruct (AccountGroup i s) as [o' s1] eqn:E. assert (o' = o) as -> by (by rewrite <- (Ho s), E).
  destruct (resolver_spec _ _ _ _ _ _ _ Hr E) as (s2 & E2 & K2 & L2 & V2 & (g & x & Er) & H2). cbn [asks andb].
  cbn [runGet]. rewrite (bind_Ret _ _ _ _ _ E2). destruct (groupAnswer o) as [a ga] eqn:Ea.
  destruct (groupUnknown o) eqn:Eo.
  - assert (a = AccountGroupResolution_Failed) as ->.
    { destruct o as [[g'|]|v]; cbn in Eo, Ea; [|done|by injection Ea].
      apply negb_true_iff in Eo. rewrite Eo in Ea. by injection Ea. }
    rewrite (bind_Ret _ _ _ _ _ (registryNow_spec _ _ _ _ Er)), Hfail. by exists MarketDataGetStatusAccountGroupFailed, None, s2.
  - assert (a <> AccountGroupResolution_Failed) as Ha.
    { destruct o as [[g'|]|v]; cbn in Eo, Ea; [|by injection Ea as <-|done].
      apply negb_false_iff in Eo. rewrite Eo in Ea. by injection Ea as <-. }
    rewrite (bind_Ret _ _ _ _ _ (registryNow_spec _ _ _ _ Er)).
    destruct (IH a ga x Ha s2 H2) as (st & q & s3 & E3 & K3 & L3 & V3 & H3). exists st, q, s3.
    split; [done|]. split; [by transitivity s2|]. split; [done|]. split; [done|].
    rewrite andb_false_r in H3. done.
Qed.

(** The answers of a read, by its native status. *)
Definition readAnswer (status : Z) (quote : option MarketDataQuote) (e : mdError) : Quote * option mdError :=
  if (status =? 0)%Z then (default zeroQuote quote, None)
  else if (status =? 2)%Z then (zeroQuote, Some (MDError ErrUnknownInstrument))
  else if (status =? 3)%Z then (default zeroQuote quote, Some (MDError ErrQuoteExpired))
  else if (status =? 4)%Z then (zeroQuote, Some e)
  else if (status =? 255)%Z then (zeroQuote, Some (MDError ErrInvalidQuoteResolution))
  else (zeroQuote, Some (MDError ErrQuoteUnavailable)).

Lemma get_spec h g x id account i resolution o s :
  (forall s, fst (AccountGroup i s) = o) ->
  handlesOk s -> registryOf (store (outside s)) h = Some (g, x) ->
  failsClosed (openpit_marketdata_service_get x id (acc_native account) resolution) ->
  exists status quote y s', get panicnil AccountGroup h id account i resolution s = (Ret (status, default zeroQuote quote, y), s') /\
    keeps s s' /\ handlesOk s' /\ handles s' !! (handleIdx s + 1)%Z = None /\
    if asks (openpit_marketdata_service_get x id (acc_native account) resolution) && groupUnknown o
    then status = MarketDataGetStatusAccountGroupFailed /\ quote = None /\ y = marked i o
    else status <> MarketDataGetStatusAccountGroupFailed.
Proof.
  intros Ho Hs Er Ht. set (r := length (resolvers (outside s))). set (ud := (handleIdx s + 1)%Z).
  set (s1 := snd (newResolver (R := R) i s)). set (s2 := snd (NewHandle (fun _ => AValue r) s1)).
  assert (reading h ud r i s2) as Hr.
  { split.
    - by apply NewHandle_ok.
    - apply lookup_insert_eq.
    - cbn. unfold r. by rewrite lookup_app_r, Nat.sub_diag by lia.
    - by exists g, x. }
  destruct (runGet_spec h ud r i o _ s2 Ho Ht Hr) as (status & quote & s3 & E3 & K3 & L3 & V3 & H3).
  assert (keeps s s3) as K.
  { transitivity s2; [|done]. transitivity s1; [by apply keeps_same|]. apply NewHandle_keeps. }
  assert (is_Some (resolvers (outside s3) !! r)) as [y Hy] by (destruct (_ && _); [destruct H3 as (_ & _ & ->)|destruct H3]; done).
  set (s4 := withHandles (delete ud) s3).
  exists status, quote, y, s4. split.
  { unfold get. rewrite (bind_Ret (newResolver i) _ s r s1) by done.
    rewrite (bind_Ret (NewHandle (fun _ => AValue r)) _ s1 ud s2) by done.
    unfold MarketDataServiceGet. rewrite bind_assoc. rewrite (bind_Ret _ _ s2 x s2) by (by apply (registryNow_spec h g)).
    unfold InstrumentIDHandle, AccountIDNative, NewUserDataFromHandle. rewrite bind_assoc, (bind_Ret _ _ _ _ _ E3).
    unfold bind at 1, ret at 1. rewrite (bind_Ret _ _ _ _ _ (Delete_live ud _ _ V3)). fold s4.
    unfold bind, readResolver. cbn [s4 withHandles outside]. by rewrite Hy. }
  split; [|split; [|split]].
  - split; [apply K|]. intros k Hk. cbn. rewrite lookup_delete_ne by (unfold ud; lia). by apply K.
  - pose proof (Delete_ok ud s3 L3) as L. by rewrite (Delete_live ud _ _ V3) in L.
  - apply lookup_delete_eq.
  - destruct (asks _ && groupUnknown o); [|by destruct H3]. destruct H3 as (-> & -> & H3). split; [done|]. split; [done|]. congruence.
Qed.

Lemma Get_open s r h id account i resolution status quote y s' :
  objects (store (outside s)) !! r = Some (Some h) ->
  get panicnil AccountGroup h id account i resolution s = (Ret (status, quote, y), s') ->
  Get panicnil AccountGroup r id account i resolution s =
    (Ret (readAnswer status (Some quote) (AccountGroupResolutionError (failure y) (rs_err y))), s') /\
  GetOptional panicnil AccountGroup r id account i resolution s =
    (Ret (if (status =? 0)%Z then Some quote else None), s').
Proof.
  intros E Eg.
  assert (onStore (handleOf r) s = (Ret (Some h), s)) as Eh.
  { unfold onStore, handleOf. rewrite E. by destruct s as [? ? ? [[] ?]]. }
  unfold Get, GetOptional. rewrite !(bind_Ret _ _ _ _ _ Eh), !(bind_Ret _ _ _ _ _ Eg). split.
  - unfold readAnswer. cbv [MarketDataGetStatusFound MarketDataGetStatusUnknownInstrument MarketDataGetStatusQuoteExpired
      MarketDataGetStatusAccountGroupFailed MarketDataGetStatusError newQuoteFromHandle newAccountGroupResolutionError].
    repeat (destruct (_ =? _)%Z; [done|]). done.
  - unfold MarketDataGetStatusFound. by destruct (status =? 0)%Z.
Qed.

(** C25: A read of a market-data service never panics, whatever the caller's
    [AccountInfo] does, and takes back the handle it passed to the native library. When
    the native read asks for the group of the account, and [AccountGroup] panics or
    answers with a group that was never initialized, [Get] returns no quote and an
    [AccountGroupResolutionError] with what was recovered or the error for such a group,
    and [GetOptional] returns nothing; the read is not moved to the default group. In
    every other case [Get] does not report a failed resolution, and the two agree: a
    quote that [GetOptional] returns is the one [Get] returns without an error. A closed
    service answers that it is closed. *)
Theorem unknown_group_fails_the_read (s : St) (r : objRef) id account i resolution o :
  (forall s, fst (AccountGroup i s) = o) -> handlesOk s ->
  (forall h, objects (store (outside s)) !! r = Some (Some h) -> exists g x,
     registryOf (store (outside s)) h = Some (g, x) /\
     failsClosed (openpit_marketdata_service_get x id (acc_native account) resolution)) ->
  match objects (store (outside s)) !! r with
  | Some (Some h) => exists g x quote e s',
      registryOf (store (outside s)) h = Some (g, x) /\
      Get panicnil AccountGroup r id account i resolution s = (Ret (quote, e), s') /\
      GetOptional panicnil AccountGroup r id account i resolution s = (Ret (match e with None => Some quote | Some _ => None end), s') /\
      keeps s s' /\ handlesOk s' /\ handles s' !! (handleIdx s + 1)%Z = None /\
      if asks (openpit_marketdata_service_get x id (acc_native account) resolution) && groupUnknown o
      then quote = zeroQuote /\ e = Some (AccountGroupResolutionError (panicOf panicnil o) (errOf o)) /\
        existsb (errors_Is "account group resolution failed") (from_option Unwrap [] e) = true
      else forall p e', e <> Some (AccountGroupResolutionError p e')
  | Some None => Get panicnil AccountGroup r id account i resolution s = (Ret (zeroQuote, Some (MDError ErrServiceClosed)), s) /\
      GetOptional panicnil AccountGroup r id account i resolution s = (Ret None, s)
  | None => True
  end.
Proof.
  intros Ho Hs Hopen. destruct (objects (store (outside s)) !! r) as [[h|]|] eqn:E; [| |done].
  - destruct (Hopen h eq_refl) as (g & x & Er & Ht).
    destruct (get_spec h g x id account i resolution o s Ho Hs Er Ht) as (status & quote & y & s' & Eg & K & L & D & H).
    destruct (Get_open _ _ _ _ _ _ _ _ _ _ _ E Eg) as [E1 E2].
    destruct (readAnswer status (Some (default zeroQuote quote)) (AccountGroupResolutionError (failure y) (rs_err y)))
      as [q e] eqn:Ea.
    exists g, x, q, e, s'. split; [done|]. split; [rewrite <- Ea; exact E1|]. split.
    { rewrite E2. f_equal. f_equal. revert Ea. unfold readAnswer. cbn.
      repeat (destruct (_ =? _)%Z; [by intros [= <- <-]|]). by intros [= <- <-]. }
    split; [done|]. split; [done|]. split; [done|]. revert Ea. unfold readAnswer. cbn.
    destruct (asks _ && groupUnknown o).
    + destruct H as (-> & -> & ->). cbn. intros [= <- <-]. split; [done|]. split; [done|]. by destruct (errOf o).
    + unfold MarketDataGetStatusAccountGroupFailed in H. destruct (Z.eqb_spec status 4) as [->|_]; [done|].
      repeat (destruct (_ =? _)%Z; [by intros [= <- <-]|]). by intros [= <- <-].
  - assert (onStore (handleOf r) s = (Ret None, s)) as Eh.
    { unfold onStore, handleOf. rewrite E. by destruct s as [? ? ? [[] ?]]. }
    unfold Get, GetOptional. by rewrite !(bind_Ret _ _ _ _ _ Eh).
Qed.
End Reads.

(** A read for an account whose group panics. *)
Lemma unknown_group_fails_the_read_witness :
  let st := oneService [] in
  let s := mkGo 0 ∅ None (mkWorld st []) in
  let AccountGroup := fun (_ : nat) => panic (S := GoState nat (World (list Instrument))) (A := option AccountGroupID) (PanicOther 9) in
  exists s', Get (NM := nameRegistry) false AccountGroup 0 0%Z {| acc_native := 7 |} 0 2%Z s =
    (Ret (zeroQuote, Some (AccountGroupResolutionError (Some (PanicOther 9)) None)), s') /\ handles s' !! 1%Z = None.
Proof.
  intros st s AccountGroup.
  destruct (unknown_group_fails_the_read (NM := nameRegistry) false AccountGroup) with
    (s := s) (r := 0) (id := 0%Z) (account := {| acc_native := 7 |}) (i := 0) (resolution := 2%Z)
    (o := Panic (A := option AccountGroupID) (PanicOther 9)) as (g & x & q & e & s' & _ & Eg & _ & _ & _ & D & H).
  - intros i s1. split; [reflexivity|done|done|]. intros h g x E. by exists x.
  - reflexivity.
  - split; [reflexivity|]. intros h [x H]. discriminate H.
  - intros h [= <-]. exists 0%Z, []. split; [reflexivity|]. apply fc_ask; [done|].
    intros a g x Ha. cbn. destruct (Z.eqb_spec a 2) as [->|_]; [done|]. by apply fc_answer.
  - cbn in H. destruct H as (-> & -> & _). exists s'. split; [exact Eg|exact D].
Defined.
