(* ===== verification/ReferenceBook.v ===== *)
(** * The reference book

    reference_book.go over internal/native/reference_book.go: instrument identities and
    settlement schemes. A book is a native object behind a Go object, as in
    ServiceStore.v; what it stores is the native library's, a class. A settlement unit is
    a byte on the Go side and a code on the native side. *)
From Stdlib Require Import ZArith Lia.
From stdpp Require Import base list gmap strings.
From S2P Require Import Prelude Routing GoRuntime NativeErrors ServiceStore MarketData.

Definition ErrReferenceBookDuplicateID : error := ESentinel "reference book: instrument id is already registered".
Definition ErrReferenceBookDuplicateInstrument : error := ESentinel "reference book: instrument is already registered".
Definition ErrReferenceBookUnknownInstrument : error := ESentinel "reference book: unknown instrument".
Definition ErrInvalidSettlementUnit : error := ESentinel "reference book: invalid settlement unit".
Definition ErrReferenceBookClosed : error := ESentinel "reference book: already closed".

Inductive ReferenceBookRegistrationErrorKind :=
| ReferenceBookRegistrationErrorKindDuplicateID
| ReferenceBookRegistrationErrorKindDuplicateInstrument.
Inductive rbError :=
| RBError (e : error)
| ReferenceBookRegistrationError (k : ReferenceBookRegistrationErrorKind) (i : option Instrument) (id : option InstrumentID).
Definition rbUnwrap (e : rbError) : error :=
  match e with
  | RBError e => e
  | ReferenceBookRegistrationError ReferenceBookRegistrationErrorKindDuplicateID _ _ => ErrReferenceBookDuplicateID
  | ReferenceBookRegistrationError ReferenceBookRegistrationErrorKindDuplicateInstrument _ _ => ErrReferenceBookDuplicateInstrument
  end.

Definition ReferenceBookRegisterStatusOK : Z := 0.
Definition ReferenceBookRegisterStatusDuplicateID : Z := 1.
Definition ReferenceBookRegisterStatusDuplicateInstrument : Z := 2.
Definition ReferenceBookRegisterStatusError : Z := 255.
Definition ReferenceBookStatusOK : Z := 0.
Definition ReferenceBookStatusUnknownInstrument : Z := 1.
Definition ReferenceBookStatusError : Z := 255.

(** ** Settlement *)

Definition SettlementUnitBusinessDays : Z := 0.
Definition SettlementUnitCalendarDays : Z := 1.
Record SettlementLag := mkLag { N_ : Z; Unit_ : Z }.
Record SettlementScheme := mkScheme { Delivery : SettlementLag; Payment : SettlementLag }.
Definition NewSettlementLag (n unit : Z) : SettlementLag := mkLag n unit.
Definition NewSettlementScheme (delivery payment : SettlementLag) : SettlementScheme := mkScheme delivery payment.
Definition UniformSettlementScheme (n : Z) : SettlementScheme :=
  let lag := NewSettlementLag n SettlementUnitBusinessDays in NewSettlementScheme lag lag.

(** The native records, and the native codes of the units. *)
Record OpenPitSettlementLag := mkNativeLag { lag_n : Z; lag_unit : Z }.
Record OpenPitSettlementScheme := mkNativeScheme { delivery : OpenPitSettlementLag; payment : OpenPitSettlementLag }.
Definition nativeBusinessDays : Z := 0.
Definition nativeCalendarDays : Z := 1.
Definition nativeNewSettlementLag (n unit : Z) : OpenPitSettlementLag := mkNativeLag n unit.
Definition nativeNewSettlementScheme (d p : OpenPitSettlementLag) : OpenPitSettlementScheme := mkNativeScheme d p.
Definition SettlementSchemeParts (s : OpenPitSettlementScheme) : Z * Z * Z * Z :=
  (wrapU 64 (lag_n (delivery s)), lag_unit (delivery s), wrapU 64 (lag_n (payment s)), lag_unit (payment s)).

Definition settlementUnitToNative (unit : Z) : Z + error :=
  if (unit =? SettlementUnitBusinessDays)%Z then inl nativeBusinessDays
  else if (unit =? SettlementUnitCalendarDays)%Z then inl nativeCalendarDays
  else inr ErrInvalidSettlementUnit.
Definition settlementLagToNative (lag : SettlementLag) : OpenPitSettlementLag + error :=
  match settlementUnitToNative (Unit_ lag) with
  | inr err => inr err
  | inl unit => inl (nativeNewSettlementLag (N_ lag) unit)
  end.
Definition toNative (scheme : SettlementScheme) : OpenPitSettlementScheme + error :=
  match settlementLagToNative (Delivery scheme) with
  | inr err => inr err
  | inl delivery =>
    match settlementLagToNative (Payment scheme) with
    | inr err => inr err
    | inl payment => inl (nativeNewSettlementScheme delivery payment)
    end
  end.
Definition settlementSchemeFromNative (raw : OpenPitSettlementScheme) : SettlementScheme :=
  let '(deliveryN, deliveryUnit, paymentN, paymentUnit) := SettlementSchemeParts raw in
  NewSettlementScheme (mkLag deliveryN (wrapU 8 deliveryUnit)) (mkLag paymentN (wrapU 8 paymentUnit)).

(** ** The book *)

Class NativeReferenceBook (R : Type) := {
  openpit_create_reference_book : R;
  openpit_reference_book_register : Instrument -> statusCall R Z;
  openpit_reference_book_register_with_id : Instrument -> Z -> statusCall R Z;
  openpit_reference_book_resolve : Instrument -> R -> option Z;
  openpit_reference_book_set_settlement_scheme : Z -> OpenPitSettlementScheme -> statusCall R unit;
  openpit_reference_book_clear_settlement_scheme : Z -> statusCall R unit;
  openpit_reference_book_get_settlement_scheme : Z -> statusCall R (OpenPitSettlementScheme * bool);
}.

Section Book.
Context {R : Type} {NB : NativeReferenceBook R}.
Abbreviation SM := (M (Store R)).

Definition CreateReferenceBook : SM Z := createService openpit_create_reference_book.
Definition DestroyReferenceBook (book : Z) : SM unit := destroyService book.
Definition NativeBookRegister (book : Z) (instrument : Instrument) : SM (Z * Z * option error) :=
  withStatus ReferenceBookRegisterStatusError "openpit_reference_book_register failed"
    (call book (openpit_reference_book_register instrument)).
Definition NativeBookRegisterWithID (book : Z) (instrument : Instrument) (id : Z) : SM (Z * Z * option error) :=
  withStatus ReferenceBookRegisterStatusError "openpit_reference_book_register_with_id failed"
    (call book (openpit_reference_book_register_with_id instrument id)).
Definition NativeBookResolve (book : Z) (instrument : Instrument) : SM (Z * bool) :=
  let* id := call book (fun x => (x, openpit_reference_book_resolve instrument x)) in
  ret (default 0%Z id, match id with Some _ => true | None => false end).
Definition NativeBookSetSettlementScheme (book id : Z) (scheme : OpenPitSettlementScheme) : SM (Z * option error) :=
  let* (status, _, err) := withStatus ReferenceBookStatusError "openpit_reference_book_set_settlement_scheme failed"
    (call book (openpit_reference_book_set_settlement_scheme id scheme)) in
  ret (status, err).
Definition NativeBookClearSettlementScheme (book id : Z) : SM (Z * option error) :=
  let* (status, _, err) := withStatus ReferenceBookStatusError "openpit_reference_book_clear_settlement_scheme failed"
    (call book (openpit_reference_book_clear_settlement_scheme id)) in
  ret (status, err).
Definition NativeBookGetSettlementScheme (book id : Z) : SM (Z * OpenPitSettlementScheme * bool * option error) :=
  let* (status, out, err) := withStatus ReferenceBookStatusError "openpit_reference_book_get_settlement_scheme failed"
    (call book (openpit_reference_book_get_settlement_scheme id)) in
  ret (status, fst out, if (status =? ReferenceBookStatusError)%Z then false else snd out, err).

Definition NewReferenceBook : SM objRef := let* h := CreateReferenceBook in newObject h.
Definition BookClose (b : objRef) : SM unit := CloseObject b.

Definition bookRegistered (instrument : Instrument) (r : Z * Z * option error) : InstrumentID * option rbError :=
  let '(status, id, err) := r in
  if (status =? ReferenceBookRegisterStatusOK)%Z then (newInstrumentIDFromHandle id, None)
  else if (status =? ReferenceBookRegisterStatusDuplicateInstrument)%Z then
    (0%Z, Some (ReferenceBookRegistrationError ReferenceBookRegistrationErrorKindDuplicateInstrument (Some instrument) None))
  else (0%Z, RBError <$> err).
Definition BookRegister (b : objRef) (instrument : Instrument) : SM (InstrumentID * option rbError) :=
  withHandle b (0%Z, Some (RBError ErrReferenceBookClosed)) (fun h =>
    let* r := NativeBookRegister h instrument in ret (bookRegistered instrument r)).
Definition bookRegisteredWithID (instrument : Instrument) (id : InstrumentID) (r : Z * Z * option error) : InstrumentID * option rbError :=
  let '(status, outID, err) := r in
  if (status =? ReferenceBookRegisterStatusOK)%Z then (newInstrumentIDFromHandle outID, None)
  else if (status =? ReferenceBookRegisterStatusDuplicateID)%Z then
    (0%Z, Some (ReferenceBookRegistrationError ReferenceBookRegistrationErrorKindDuplicateID None (Some id)))
  else if (status =? ReferenceBookRegisterStatusDuplicateInstrument)%Z then
    (0%Z, Some (ReferenceBookRegistrationError ReferenceBookRegistrationErrorKindDuplicateInstrument (Some instrument) None))
  else (0%Z, RBError <$> err).
Definition BookRegisterWithID (b : objRef) (instrument : Instrument) (id : InstrumentID) : SM (InstrumentID * option rbError) :=
  withHandle b (0%Z, Some (RBError ErrReferenceBookClosed)) (fun h =>
    let* r := NativeBookRegisterWithID h instrument (InstrumentIDHandle id) in
    ret (bookRegisteredWithID instrument id r)).
Definition BookResolve (b : objRef) (instrument : Instrument) : SM (InstrumentID * bool) :=
  withHandle b (0%Z, false) (fun h =>
    let* (id, ok) := NativeBookResolve h instrument in ret (newInstrumentIDFromHandle id, ok)).
Definition bookStatus (status : Z) (err : option error) : option rbError :=
  if (status =? ReferenceBookStatusOK)%Z then None
  else if (status =? ReferenceBookStatusUnknownInstrument)%Z then Some (RBError ErrReferenceBookUnknownInstrument)
  else RBError <$> err.
Definition SetSettlementScheme (b : objRef) (id : InstrumentID) (scheme : SettlementScheme) : SM (option rbError) :=
  withHandle b (Some (RBError ErrReferenceBookClosed)) (fun h =>
    match toNative scheme with
    | inr err => ret (Some (RBError err))
    | inl raw =>
      let* (status, err) := NativeBookSetSettlementScheme h (InstrumentIDHandle id) raw in
      ret (bookStatus status err)
    end).
Definition ClearSettlementScheme (b : objRef) (id : InstrumentID) : SM (option rbError) :=
  withHandle b (Some (RBError ErrReferenceBookClosed)) (fun h =>
    let* (status, err) := NativeBookClearSettlementScheme h (InstrumentIDHandle id) in
    ret (bookStatus status err)).
Definition zeroScheme : SettlementScheme := mkScheme (mkLag 0 0) (mkLag 0 0).
Definition schemeAnswer (status : Z) (raw : OpenPitSettlementScheme) (ok : bool) (err : option error) : SettlementScheme * bool * option rbError :=
  if (status =? ReferenceBookStatusOK)%Z then
    if negb ok then (zeroScheme, false, None) else (settlementSchemeFromNative raw, true, None)
  else if (status =? ReferenceBookStatusUnknownInstrument)%Z then
    (zeroScheme, false, Some (RBError ErrReferenceBookUnknownInstrument))
  else (zeroScheme, false, RBError <$> err).
Definition BookSettlementScheme (b : objRef) (id : InstrumentID) : SM (SettlementScheme * bool * option rbError) :=
  withHandle b (zeroScheme, false, Some (RBError ErrReferenceBookClosed)) (fun h =>
    let* (status, raw, ok, err) := NativeBookGetSettlementScheme h (InstrumentIDHandle id) in
    ret (schemeAnswer status raw ok err)).

(** ** What a book keeps *)

Definition unitValid (u : Z) : bool := (u =? SettlementUnitBusinessDays)%Z || (u =? SettlementUnitCalendarDays)%Z.
Definition schemeValid (s : SettlementScheme) : bool := unitValid (Unit_ (Delivery s)) && unitValid (Unit_ (Payment s)).
Definition lagOk (l : SettlementLag) : Prop := inU 64 (N_ l) /\ inU 8 (Unit_ l).

Lemma settlementLagToNative_spec l :
  settlementLagToNative l = if unitValid (Unit_ l) then inl (mkNativeLag (N_ l) (Unit_ l)) else inr ErrInvalidSettlementUnit.
Proof.
  unfold settlementLagToNative, settlementUnitToNative, unitValid, SettlementUnitBusinessDays, SettlementUnitCalendarDays.
  destruct (Z.eqb_spec (Unit_ l) 0) as [->|]; [done|]. by destruct (Z.eqb_spec (Unit_ l) 1) as [->|].
Qed.
Lemma toNative_spec s :
  toNative s = if schemeValid s
    then inl (mkNativeScheme (mkNativeLag (N_ (Delivery s)) (Unit_ (Delivery s))) (mkNativeLag (N_ (Payment s)) (Unit_ (Payment s))))
    else inr ErrInvalidSettlementUnit.
Proof.
  unfold toNative, schemeValid. rewrite !settlementLagToNative_spec.
  by destruct (unitValid (Unit_ (Delivery s))), (unitValid (Unit_ (Payment s))).
Qed.
Lemma fromNative_toNative s raw :
  lagOk (Delivery s) -> lagOk (Payment s) -> toNative s = inl raw -> settlementSchemeFromNative raw = s.
Proof.
  intros [D1 D2] [P1 P2]. rewrite toNative_spec. destruct (schemeValid s); [|done]. intros [= <-].
  unfold settlementSchemeFromNative, SettlementSchemeParts. cbn. rewrite !wrapU_small by done.
  by destruct s as [[] []].
Qed.

(** The native side keeps what it is given, and answers one of the documented statuses:
    the code takes any other for a success. *)
Class SchemeStore := {
  schemeOf : R -> Z -> option OpenPitSettlementScheme;
  set_scheme x id raw : fst (snd (openpit_reference_book_set_settlement_scheme id raw x)) = (ReferenceBookStatusOK, tt) ->
    schemeOf (fst (openpit_reference_book_set_settlement_scheme id raw x)) id = Some raw;
  get_scheme x id raw : schemeOf x id = Some raw ->
    openpit_reference_book_get_settlement_scheme id x = (x, (ReferenceBookStatusOK, (raw, true), None));
  set_status x id raw : fst (fst (snd (openpit_reference_book_set_settlement_scheme id raw x))) ∈
    [ReferenceBookStatusOK; ReferenceBookStatusUnknownInstrument; ReferenceBookStatusError];
}.

Lemma SetSettlementScheme_open handed s b h g x id scheme :
  storeOk handed s -> objects s !! b = Some (Some h) -> registryOf s h = Some (g, x) ->
  match toNative scheme with
  | inr err => SetSettlementScheme b id scheme s = (Ret (Some (RBError err)), s)
  | inl raw =>
    let '(x', (status, _, message)) := openpit_reference_book_set_settlement_scheme id raw x in
    does (SetSettlementScheme b id scheme) s g x'
      (match messageOf (status =? 255)%Z message "openpit_reference_book_set_settlement_scheme failed" with
       | Ret err => Ret (bookStatus status err)
       | Panic v => Panic v
       end)
  end.
Proof.
  intros K E Er. unfold SetSettlementScheme. destruct (toNative scheme) as [raw|err].
  - destruct (openpit_reference_book_set_settlement_scheme id raw x) as [x' [[status []] message]] eqn:Ef.
    assert (does (let* (status, err) := NativeBookSetSettlementScheme h (InstrumentIDHandle id) raw in ret (bookStatus status err)) s g
      (fst (openpit_reference_book_set_settlement_scheme id raw x))
      (match (let '(status, out, message) := snd (openpit_reference_book_set_settlement_scheme id raw x) in
         match messageOf (status =? ReferenceBookStatusError)%Z message "openpit_reference_book_set_settlement_scheme failed" with
         | Ret err => Ret (status, err)
         | Panic v => Panic v
         end) with Ret (status, err) => Ret (bookStatus status err) | Panic v => Panic v end)) as (s' & Es & L & Hr).
    { apply (does_pair _ bookStatus). unfold NativeBookSetSettlementScheme, InstrumentIDHandle.
      apply (does_status _ _ _ _ _ (fun '(status, _, err) => (status, err))); [apply K|done|by intros [[]]]. }
    rewrite Ef in Es, Hr. cbn [fst snd] in Es, Hr. exists s'. rewrite (withHandle_open _ _ _ _ _ E), Es. split; [|done].
    change ReferenceBookStatusError with 255%Z. by destruct (messageOf _ _ _).
  - by rewrite (withHandle_open _ _ _ _ _ E).
Qed.
Lemma BookSettlementScheme_open `{SchemeStore} handed s b h g x id raw :
  storeOk handed s -> objects s !! b = Some (Some h) -> registryOf s h = Some (g, x) -> schemeOf x id = Some raw ->
  does (BookSettlementScheme b id) s g x (Ret (settlementSchemeFromNative raw, true, None)).
Proof.
  intros K E Er Hs. pose proof (get_scheme x id raw Hs) as Eg.
  assert (does (NativeBookGetSettlementScheme h id) s g (fst (openpit_reference_book_get_settlement_scheme id x))
    (let '(status, out, message) := snd (openpit_reference_book_get_settlement_scheme id x) in
     match messageOf (status =? ReferenceBookStatusError)%Z message "openpit_reference_book_get_settlement_scheme failed" with
     | Ret err => Ret (status, fst out, if (status =? ReferenceBookStatusError)%Z then false else snd out, err)
     | Panic v => Panic v
     end)) as (s' & Es & L & Hr).
  { apply (does_status _ _ _ _ _ (fun '(status, out, err) => (status, fst out, if (status =? ReferenceBookStatusError)%Z then false else snd out, err)));
      [apply K|done|by intros [[]]]. }
  rewrite Eg in Es, Hr. cbn in Es, Hr. exists s'. unfold BookSettlementScheme, InstrumentIDHandle.
  rewrite (withHandle_open _ _ _ _ _ E), (bind_Ret _ _ _ _ _ Es). by split.
Qed.

(** A settlement scheme that [SetSettlementScheme] accepts is what
    [SettlementScheme] returns afterwards, leg by leg, with nothing left behind. A scheme
    with a unit that is none of the two is refused with [ErrInvalidSettlementUnit] before
    the native library sees it, and a closed book refuses every scheme; in both cases the
    book is unchanged. *)
Theorem settlement_scheme_roundtrip `{SchemeStore} (handed : list Z) (s : Store R) (b : objRef) (id : InstrumentID) (scheme : SettlementScheme) :
  storeOk handed s -> lagOk (Delivery scheme) -> lagOk (Payment scheme) ->
  match objects s !! b with
  | None => True
  | Some None => SetSettlementScheme b id scheme s = (Ret (Some (RBError ErrReferenceBookClosed)), s)
  | Some (Some _) =>
    if schemeValid scheme then
      exists e s1, SetSettlementScheme b id scheme s = (e, s1) /\ sameHandles s s1 /\
        (e = Ret None -> exists s2, BookSettlementScheme b id s1 = (Ret (scheme, true, None), s2) /\ sameHandles s s2)
    else SetSettlementScheme b id scheme s = (Ret (Some (RBError ErrInvalidSettlementUnit)), s)
  end.
Proof.
  intros K D P. destruct (objects s !! b) as [[h|]|] eqn:E; [|by apply withHandle_closed|done].
  destruct (registry_exists handed s h K (object_live handed s b h K E)) as (g & x & Er).
  pose proof (SetSettlementScheme_open handed s b h g x id scheme K E Er) as Hset.
  pose proof (toNative_spec scheme) as Et. destruct (schemeValid scheme); rewrite Et in Hset; [|done].
  set (raw := mkNativeScheme _ _) in *.
  destruct (openpit_reference_book_set_settlement_scheme id raw x) as [x' [[status []] message]] eqn:Ef.
  destruct (does_holds handed _ _ _ _ _ _ _ Er Hset K) as (s1 & E1 & L1 & K1 & Er1).
  eexists _, s1. split; [exact E1|]. split; [done|]. intros Ho.
  assert (status = ReferenceBookStatusOK) as ->.
  { pose proof (set_status x id raw) as Hst. rewrite Ef in Hst. cbn [fst snd] in Hst.
    rewrite !elem_of_cons in Hst. destruct Hst as [->|[->|[->|Hst]]]; [done| | |by apply elem_of_nil in Hst].
    - by destruct message.
    - by destruct message. }
  assert (schemeOf x' id = Some raw) as Hs by (pose proof (set_scheme x id raw) as Hs; rewrite Ef in Hs; by apply Hs).
  assert (objects s1 !! b = Some (Some h)) as E' by (by rewrite (same_objects _ _ L1)).
  destruct (BookSettlementScheme_open handed s1 b h g x' id raw K1 E' Er1 Hs) as (s2 & E2 & L2 & _).
  exists s2. rewrite E2, (fromNative_toNative scheme raw) by done. split; [done|]. by transitivity s1.
Qed.
End Book.

(** A book in which every id is registered. *)
Definition schemeBook : NativeReferenceBook (gmap Z OpenPitSettlementScheme) :=
  {| openpit_create_reference_book := ∅;
     openpit_reference_book_register _ x := (x, (ReferenceBookRegisterStatusOK, 0%Z, None));
     openpit_reference_book_register_with_id _ id x := (x, (ReferenceBookRegisterStatusOK, id, None));
     openpit_reference_book_resolve _ _ := None;
     openpit_reference_book_set_settlement_scheme id raw x := (<[id := raw]> x, (ReferenceBookStatusOK, tt, None));
     openpit_reference_book_clear_settlement_scheme id x := (delete id x, (ReferenceBookStatusOK, tt, None));
     openpit_reference_book_get_settlement_scheme id x :=
       (x, (ReferenceBookStatusOK, match x !! id with
         | Some raw => (raw, true)
         | None => (mkNativeScheme (mkNativeLag 0 0) (mkNativeLag 0 0), false)
         end, None)) |}.
Definition schemeBook_stores : SchemeStore (NB := schemeBook).
Proof.
  refine (@Build_SchemeStore _ schemeBook (fun x id => x !! id) _ _ _).
  - intros x id raw _. apply lookup_insert_eq.
  - intros x id raw E. cbn. by rewrite E.
  - intros x id raw. cbn. by left.
Defined.

Lemma settlement_scheme_roundtrip_witness :
  let s := oneService ∅ in
  let scheme := mkScheme (mkLag 2 0) (mkLag 1 1) in
  exists s1 s2, SetSettlementScheme (NB := schemeBook) 0 5%Z scheme s = (Ret None, s1) /\
    BookSettlementScheme (NB := schemeBook) 0 5%Z s1 = (Ret (scheme, true, None), s2).
Proof.
  intros s scheme. pose proof (oneService_ok (R := gmap Z OpenPitSettlementScheme) ∅) as K.
  assert (lagOk (Delivery scheme) /\ lagOk (Payment scheme)) as [D P] by (unfold lagOk, inU; cbn; lia).
  pose proof (settlement_scheme_roundtrip (NB := schemeBook) (H := schemeBook_stores) [] s 0 5%Z scheme K D P) as H.
  cbn -[SetSettlementScheme BookSettlementScheme] in H. destruct H as (e & s1 & E1 & _ & H).
  assert (e = Ret None) as -> by (vm_compute in E1; by injection E1 as <- _).
  destruct (H eq_refl) as (s2 & E2 & _). exists s1, s2. split; [exact E1|exact E2].
Defined.
