(* ===== verification/NativeObjects.v ===== *)
(** * Native objects owned by a call

    Refusals, lists and locks of the native library are objects that a Go function
    receives, reads and must destroy before it returns (internal/native, reject, accounts,
    configure, pretrade). [Natives] has the live ones next to the error containers and
    strings of [NativeErrors] and the state of the native engine; reading or destroying
    one that is not live aborts the process. What is in an object, and what the engine
    does, are arguments.

    [within objects e m w o]: from [w] the call [m] ends in [o] with the engine in [e],
    exactly the objects [objects] and no error or string more. [ends] is the case in which
    the objects are as they were, [releases h] the one in which [h] was destroyed. The
    rules follow the code from the call that makes an object to the one that destroys it. *)
From Stdlib Require Import ZArith Lia.
From stdpp Require Import base list gmap strings.
From S2P Require Import Prelude GoRuntime NativeErrors.

Section Natives.
Context {Obj E : Type}.

Record Natives := mkNatives {
  wHeap : NativeHeap; wNext : Z; wObjects : gmap Z Obj; wEngine : E;
}.
Abbreviation W := (M Natives).

(** ** Calls *)

Definition setObjects (w : Natives) (objects : gmap Z Obj) : Natives := mkNatives (wHeap w) (wNext w) objects (wEngine w).
Definition setEngine (w : Natives) (e : E) : Natives := mkNatives (wHeap w) (wNext w) (wObjects w) e.
Definition setHeap (w : Natives) (h : NativeHeap) : Natives := mkNatives h (wNext w) (wObjects w) (wEngine w).

(** A call on errors and strings. *)
Definition onHeap {A} (m : M NativeHeap A) : W A := fun w =>
  let '(o, h) := m (wHeap w) in (o, setHeap w h).
(** A call of the native engine. *)
Definition native {A} (f : E -> E * A) : W A := fun w =>
  let '(e, a) := f (wEngine w) in (Ret a, setEngine w e).
Definition createObject (o : Obj) : W Z := fun w =>
  (Ret (wNext w), mkNatives (wHeap w) (wNext w + 1) (<[wNext w := o]> (wObjects w)) (wEngine w)).
(** An out parameter that the call wrote, or did not. *)
Definition outObject (o : option Obj) : W (option Z) :=
  match o with None => ret None | Some o => let* h := createObject o in ret (Some h) end.
Definition readObject (h : Z) : W Obj := fun w =>
  match wObjects w !! h with Some o => (Ret o, w) | None => (Panic nativeAbort, w) end.
Definition writeObject (h : Z) (o : Obj) : W unit := fun w =>
  match wObjects w !! h with
  | Some _ => (Ret tt, setObjects w (<[h := o]> (wObjects w)))
  | None => (Panic nativeAbort, w)
  end.
Definition destroyObject (h : Z) : W unit := fun w =>
  match wObjects w !! h with
  | Some _ => (Ret tt, setObjects w (delete h (wObjects w)))
  | None => (Panic nativeAbort, w)
  end.
(** A reader that is given an object of another kind. *)
Definition project {A} (f : Obj -> option A) (h : Z) : W A :=
  let* o := readObject h in match f o with Some a => ret a | None => panic nativeAbort end.

(** ** What calls leave *)

Definition nativesOk (w : Natives) : Prop :=
  heapOk (wHeap w) /\ forall h, is_Some (wObjects w !! h) -> (h < wNext w)%Z.
(** The objects are [objects], no error and no string is left. *)
Definition leaves (w w' : Natives) (objects : gmap Z Obj) : Prop :=
  wObjects w' = objects /\ nothingLeft (wHeap w) (wHeap w') /\ (wNext w <= wNext w')%Z.

(** The call ends in [o] with the objects [objects] and the engine in [e]. *)
Definition within {A} (objects : gmap Z Obj) (e : E) (m : W A) (w : Natives) (o : outcome A) : Prop :=
  exists w', m w = (o, w') /\ wEngine w' = e /\ leaves w w' objects.
Definition ends {A} (m : W A) (w : Natives) (e : E) (o : outcome A) : Prop := within (wObjects w) e m w o.
Definition releases {A} (h : Z) (m : W A) (w : Natives) (e : E) (o : outcome A) : Prop :=
  within (delete h (wObjects w)) e m w o.

Lemma leaves_ok w w' objects :
  nativesOk w -> leaves w w' objects -> objects ⊆ wObjects w -> nativesOk w'.
Proof.
  intros [H1 H2] (Eo & Hh & Hn) Hs. split; [by eapply nothingLeft_ok|].
  intros h [o Ho]. rewrite Eo in Ho. specialize (H2 h). rewrite (lookup_weaken _ _ _ _ Ho Hs) in H2.
  specialize (H2 ltac:(by eexists)). lia.
Qed.
Lemma leaves_trans w1 w2 w3 objects objects' :
  leaves w1 w2 objects -> leaves w2 w3 objects' -> leaves w1 w3 objects'.
Proof. intros (A1 & B1 & C1) (A2 & B2 & C2). split; [done|]. split; [by etransitivity|lia]. Qed.

(** *** Rules of [within] *)

Lemma within_ret {A} objects e (a : A) w : wObjects w = objects -> wEngine w = e -> within objects e (ret a) w (Ret a).
Proof. intros <- <-. exists w. by repeat split. Qed.
Lemma within_then {A B} objects objects1 e (m : W A) (f : A -> W B) w w1 a o :
  m w = (Ret a, w1) -> leaves w w1 objects1 -> within objects e (f a) w1 o -> within objects e (bind m f) w o.
Proof.
  intros E1 L1 (w2 & E2 & He & L2). exists w2. rewrite (bind_Ret _ _ _ _ _ E1). split; [done|]. split; [done|].
  by eapply leaves_trans.
Qed.
(** Two calls in turn, the first of which may destroy objects. *)
Lemma within_seq {A B} objects objects1 e1 e (m : W A) (f : A -> W B) w a o :
  nativesOk w -> objects1 ⊆ wObjects w -> within objects1 e1 m w (Ret a) ->
  (forall w', nativesOk w' -> wObjects w' = objects1 -> wEngine w' = e1 -> within objects e (f a) w' o) ->
  within objects e (bind m f) w o.
Proof.
  intros K Hs (w1 & E1 & He1 & L1) Hf. eapply within_then; [done|done|]. apply Hf; [by eapply leaves_ok|by apply L1|done].
Qed.
Lemma within_bind {A B} objects e1 e (m : W A) (f : A -> W B) w a o :
  nativesOk w -> ends m w e1 (Ret a) ->
  (forall w', nativesOk w' -> wObjects w' = wObjects w -> wEngine w' = e1 -> within objects e (f a) w' o) ->
  within objects e (bind m f) w o.
Proof. intros K Hm Hf. by eapply within_seq. Qed.
Lemma within_assoc {A B C} objects e (m : W A) (f : A -> W B) (g : B -> W C) w o :
  within objects e (bind m (fun a => bind (f a) g)) w o -> within objects e (bind (bind m f) g) w o.
Proof. intros (w' & E' & H). exists w'. by rewrite bind_assoc. Qed.
Lemma within_reader {A B} objects e (f : Obj -> option A) (g : A -> W B) h o a r w :
  wObjects w !! h = Some o -> f o = Some a -> within objects e (g a) w r -> within objects e (bind (project f h) g) w r.
Proof.
  intros H Hf (w' & Ew & Hw). exists w'. split; [|done]. rewrite <- Ew.
  unfold bind at 1, project, bind, readObject. by rewrite H, Hf.
Qed.
(** A getter of an object, [g] picking what it returns. *)
Lemma within_getter {A B C} objects e (f : Obj -> option A) (g : A -> W B) (k : B -> W C) h o a b w r :
  wObjects w !! h = Some o -> f o = Some a -> g a = ret b -> within objects e (k b) w r ->
  within objects e (bind (bind (project f h) g) k) w r.
Proof.
  intros H Hf Hg Hk. apply within_assoc. eapply within_reader; [done|done|]. by rewrite Hg.
Qed.
Lemma ends_getter {A B} (f : Obj -> option A) (g : A -> W B) h o a b w :
  wObjects w !! h = Some o -> f o = Some a -> g a = ret b -> ends (bind (project f h) g) w (wEngine w) (Ret b).
Proof. intros H Hf Hg. eapply within_reader; [done|done|]. rewrite Hg. by apply within_ret. Qed.
Lemma within_write {B} objects e h o (f : W B) w r o0 :
  nativesOk w -> wObjects w !! h = Some o0 ->
  (forall w', nativesOk w' -> wObjects w' = <[h := o]> (wObjects w) -> wEngine w' = wEngine w -> within objects e f w' r) ->
  within objects e (writeObject h o ;;; f) w r.
Proof.
  intros K H Hf. set (w1 := setObjects w (<[h := o]> (wObjects w))).
  apply (within_then objects (<[h := o]> (wObjects w)) e _ _ w w1 tt r).
  - unfold writeObject. by rewrite H.
  - split; [done|]. split; [reflexivity|cbn; lia].
  - apply Hf; [|done|done]. destruct K as [K1 K2]. split; [done|]. cbn. intros h' Hh'. apply K2.
    destruct (decide (h' = h)) as [->|]; [by eexists|]. by rewrite lookup_insert_ne in Hh'.
Qed.
Lemma within_destroy {B} objects e h (f : W B) w r o :
  nativesOk w -> wObjects w !! h = Some o ->
  (forall w', nativesOk w' -> wObjects w' = delete h (wObjects w) -> wEngine w' = wEngine w -> within objects e f w' r) ->
  within objects e (destroyObject h ;;; f) w r.
Proof.
  intros K H Hf. set (w1 := setObjects w (delete h (wObjects w))).
  assert (leaves w w1 (delete h (wObjects w))) as L1 by (split; [done|]; split; [reflexivity|cbn; lia]).
  apply (within_then objects (delete h (wObjects w)) e _ _ w w1 tt r); [unfold destroyObject; by rewrite H|done|].
  apply Hf; [|done|done]. eapply leaves_ok; [done|done|]. apply delete_subseteq.
Qed.
Lemma within_create {A} objects e o (f : Z -> W A) w r :
  nativesOk w ->
  (forall h w', nativesOk w' -> wObjects w !! h = None -> wObjects w' = <[h := o]> (wObjects w) ->
     wEngine w' = wEngine w -> within objects e (f h) w' r) ->
  within objects e (bind (createObject o) f) w r.
Proof.
  intros [K1 K2] Hf. set (h := wNext w).
  set (w1 := mkNatives (wHeap w) (h + 1) (<[h := o]> (wObjects w)) (wEngine w)).
  apply (within_then objects (<[h := o]> (wObjects w)) e _ _ w w1 h r); [done| |].
  { split; [done|]. split; [reflexivity|cbn; unfold h; lia]. }
  apply Hf; [|destruct (wObjects w !! h) eqn:Eh; [|done]; specialize (K2 h ltac:(by eexists)); unfold h in *; lia|done|done].
  split; [done|]. cbn. intros h' Hh'. destruct (decide (h' = h)) as [->|]; [lia|].
  rewrite lookup_insert_ne in Hh' by done. specialize (K2 h' Hh'). unfold h. lia.
Qed.
(** [defer destroy(h)] around a call that leaves [h] alone. *)
Lemma within_deferred {A} objects e h (m : W A) w o r :
  objects !! h = Some o -> within objects e m w r -> within (delete h objects) e (deferred (destroyObject h) m) w r.
Proof.
  intros H (w1 & E1 & He1 & Eo & L1). exists (setObjects w1 (delete h (wObjects w1))).
  unfold deferred. rewrite E1. unfold destroyObject. rewrite Eo, H. split; [done|]. split; [done|]. by split.
Qed.
Lemma within_no_text {A} objects e (k : option Z -> W A) w r :
  within objects e (k None) w r -> within objects e (bind (onHeap (allocString None)) k) w r.
Proof. intros (w' & E' & H). exists w'. split; [|done]. rewrite <- E'. by destruct w. Qed.

(** A text that was written has a handle. *)
Lemma within_handle {A} objects e m (k k' : option Z -> W A) w r :
  (forall h, k (Some h) = k' (Some h)) ->
  within objects e (bind (onHeap (allocString (Some m))) k') w r -> within objects e (bind (onHeap (allocString (Some m))) k) w r.
Proof. intros Hk (w' & E' & H). exists w'. split; [|done]. rewrite <- E'. unfold bind, onHeap; cbn. by rewrite Hk. Qed.

(** *** Rules of [ends] *)

Lemma ends_ret {A} (a : A) w : ends (ret a) w (wEngine w) (Ret a).
Proof. exists w. by repeat split. Qed.
Lemma ends_panic {A} v w : ends (A:=A) (panic v) w (wEngine w) (Panic v).
Proof. exists w. by repeat split. Qed.
(** The rule gives the state after [m] with what it shares with the one before. *)
Lemma ends_bind {A B} (m : W A) (f : A -> W B) w e1 e2 a o :
  nativesOk w -> ends m w e1 (Ret a) ->
  (forall w', nativesOk w' -> wObjects w' = wObjects w -> wEngine w' = e1 -> ends (f a) w' e2 o) ->
  ends (bind m f) w e2 o.
Proof. intros K Hm Hf. eapply within_bind; [done|done|]. intros w' K' Eo Ee. rewrite <- Eo. by apply Hf. Qed.
Lemma ends_bind_panic {A B} (m : W A) (f : A -> W B) w e v :
  ends m w e (Panic v) -> ends (bind m f) w e (Panic v).
Proof. intros (w1 & E1 & H). exists w1. split; [by apply bind_Panic|done]. Qed.
Lemma ends_onHeap {A} (m : M NativeHeap A) w o :
  gives m (wHeap w) o -> ends (onHeap m) w (wEngine w) o.
Proof.
  intros (h & E1 & L). exists (setHeap w h). unfold onHeap. rewrite E1.
  split; [done|]. split; [done|]. split; [done|]. split; [exact L|cbn; lia].
Qed.
Lemma ends_native {A} (f : E -> E * A) w : ends (native f) w (fst (f (wEngine w))) (Ret (snd (f (wEngine w)))).
Proof.
  exists (setEngine w (fst (f (wEngine w)))). unfold native. destruct (f (wEngine w)).
  split; [done|]. split; [done|]. split; [done|]. split; [reflexivity|cbn; lia].
Qed.
Lemma ends_read h o w : wObjects w !! h = Some o -> ends (readObject h) w (wEngine w) (Ret o).
Proof. intros H. exists w. unfold readObject. rewrite H. by repeat split. Qed.
Lemma ends_project {A} (f : Obj -> option A) h o a w :
  wObjects w !! h = Some o -> f o = Some a -> ends (project f h) w (wEngine w) (Ret a).
Proof. intros H Hf. exists w. unfold project, bind, readObject. rewrite H, Hf. by repeat split. Qed.

(** *** Rules of [releases] *)

Lemma releases_bind {A B} h (m : W A) (f : A -> W B) w e1 e2 a o :
  nativesOk w -> ends m w e1 (Ret a) ->
  (forall w', nativesOk w' -> wObjects w' = wObjects w -> wEngine w' = e1 -> releases h (f a) w' e2 o) ->
  releases h (bind m f) w e2 o.
Proof.
  intros K Hm Hf. eapply within_bind; [done|done|]. intros w' K' Eo Ee. rewrite <- Eo. by apply Hf.
Qed.
Lemma releases_destroy {B} h (f : W B) w o e r :
  nativesOk w -> wObjects w !! h = Some o ->
  (forall w', nativesOk w' -> wObjects w' = delete h (wObjects w) -> wEngine w' = wEngine w -> ends f w' e r) ->
  releases h (destroyObject h ;;; f) w e r.
Proof. intros K H Hf. eapply within_destroy; [done|done|]. intros w' K' Eo Ee. rewrite <- Eo. by apply Hf. Qed.
Lemma releases_deferred {A} h (m : W A) w e o r :
  nativesOk w -> wObjects w !! h = Some o -> ends m w e r ->
  releases h (deferred (destroyObject h) m) w e r.
Proof. intros K H Hm. by eapply within_deferred. Qed.
(** An object from its creation to its destruction. *)
Lemma ends_create {A} o (f : Z -> W A) w e r :
  nativesOk w ->
  (forall h w', nativesOk w' -> wObjects w !! h = None -> wObjects w' = <[h := o]> (wObjects w) ->
     wEngine w' = wEngine w -> releases h (f h) w' e r) ->
  ends (bind (createObject o) f) w e r.
Proof.
  intros K Hf. apply within_create; [done|]. intros h w' K' Hn Eo Ee. specialize (Hf h w' K' Hn Eo Ee).
  unfold releases in Hf. rewrite Eo, delete_insert_id in Hf by done. exact Hf.
Qed.
Lemma ends_out_none {A} (f : option Z -> W A) w e r :
  ends (f None) w e r -> ends (bind (outObject None) f) w e r.
Proof. done. Qed.
Lemma ends_out_some {A} o (f : option Z -> W A) w e r :
  nativesOk w ->
  (forall h w', nativesOk w' -> wObjects w !! h = None -> wObjects w' = <[h := o]> (wObjects w) ->
     wEngine w' = wEngine w -> releases h (f (Some h)) w' e r) ->
  ends (bind (outObject (Some o)) f) w e r.
Proof.
  intros K Hf. destruct (ends_create o (fun h => f (Some h)) w e r K Hf) as (w' & E' & H).
  exists w'. split; [|done]. rewrite <- E'. unfold outObject. by rewrite bind_assoc.
Qed.
Lemma ends_assoc {A B C} (m : W A) (f : A -> W B) (g : B -> W C) w e o :
  ends (bind m (fun a => bind (f a) g)) w e o -> ends (bind (bind m f) g) w e o.
Proof. apply within_assoc. Qed.
Lemma releases_assoc {A B C} h (m : W A) (f : A -> W B) (g : B -> W C) w e o :
  releases h (bind m (fun a => bind (f a) g)) w e o -> releases h (bind (bind m f) g) w e o.
Proof. apply within_assoc. Qed.
(** An error text that the callee wrote is consumed; a missing one panics. *)
Lemma ends_message {A} (fallback : string) (m : option string) (f : error -> A) w :
  nativesOk w ->
  ends (let* h := onHeap (allocString m) in let* err := onHeap (consumeSharedStringAsError h fallback) in ret (f err)) w
    (wEngine w) (match m with Some msg => Ret (f (messageError fallback msg)) | None => Panic noSharedString end).
Proof.
  intros [K _]. destruct (ends_onHeap _ w _ (alloc_message fallback m f (wHeap w) K)) as (w' & Ew & H).
  exists w'. split; [|done]. rewrite <- Ew. unfold bind, onHeap, ret.
  destruct (allocString m (wHeap w)) as [[h|v] h']; [|done]. cbn.
  by destruct (consumeSharedStringAsError h fallback h') as [[]].
Qed.
Lemma ends_paramError {A} (fallback : string) (p : option ParamError) (f : error -> A) w :
  nativesOk w ->
  ends (let* h := onHeap (allocError p) in let* err := onHeap (consumeParamError h fallback) in ret (f err)) w
    (wEngine w) (Ret (f (paramErrorOf fallback p))).
Proof.
  intros [K _]. destruct (ends_onHeap _ w _ (alloc_consume fallback p f (wHeap w) K)) as (w' & Ew & H).
  exists w'. split; [|done]. rewrite <- Ew. unfold bind, onHeap, ret.
  destruct (allocError p (wHeap w)) as [[h|v] h']; [|done]. cbn.
  by destruct (consumeParamError h fallback h') as [[]].
Qed.
(** A text that was written is consumed on the way. *)
Lemma within_text {A B} objects e fallback m (g : error -> B) (k : B -> W A) w r :
  nativesOk w ->
  (forall w', nativesOk w' -> wObjects w' = wObjects w -> wEngine w' = wEngine w ->
     within objects e (k (g (messageError fallback m))) w' r) ->
  within objects e (let* o := onHeap (allocString (Some m)) in
           bind (let* err := onHeap (consumeSharedStringAsError o fallback) in ret (g err)) k) w r.
Proof.
  intros K Hk. destruct (within_bind objects _ e _ k w _ r K (ends_message fallback (Some m) g w K) Hk) as (w2 & E2 & L2).
  exists w2. by rewrite <- bind_assoc.
Qed.
End Natives.
Arguments Natives : clear implicits.
Arguments mkNatives {Obj E}.

(** A world with nothing alive. *)
Definition noNatives {Obj E} (e : E) : Natives Obj E := mkNatives (mkNativeHeap 0 ∅ ∅) 0 ∅ e.
Lemma noNatives_ok {Obj E} (e : E) : nativesOk (noNatives (Obj:=Obj) e).
Proof. split; [split|]; cbn; intros h [o H]; by rewrite lookup_empty in H. Qed.
