(* ===== verification/Rejects.v ===== *)
(** * Rejects and account blocks of the native library

    The records PretradeReject and PretradeAccountBlock with their constructors and
    readers (internal/native/reject.go) and what reject/reject.go and reject/account.go
    make of them. A view of a C string is its text here: the records are made from Go
    strings for the length of a call and read with [Safe], which copies; [NativeMem] has
    the memory behind views. *)
From Stdlib Require Import ZArith Lia.
From stdpp Require Import base list strings.
From S2P Require Import Prelude CustomPolicy.

(** ** internal/native/reject.go *)

Record PretradeReject := mkPretradeReject {
  pr_policy : string; pr_reason : string; pr_details : string;
  pr_user_data : Z; pr_code : Z; pr_scope : Z;
}.
Record PretradeAccountBlock := mkPretradeAccountBlock {
  pb_policy : string; pb_reason : string; pb_details : string; pb_user_data : Z; pb_code : Z;
}.

Definition CreatePretradeReject (code scope : Z) (policy reason details : string) (userData : Z) : PretradeReject :=
  mkPretradeReject policy reason details userData code scope.
Definition PretradeRejectGetCode (reject : PretradeReject) : Z := pr_code reject.
Definition PretradeRejectGetScope (reject : PretradeReject) : Z := pr_scope reject.
Definition PretradeRejectGetPolicy (reject : PretradeReject) : string := pr_policy reject.
Definition PretradeRejectGetReason (reject : PretradeReject) : string := pr_reason reject.
Definition PretradeRejectGetDetails (reject : PretradeReject) : string := pr_details reject.
Definition PretradeRejectGetUserData (reject : PretradeReject) : Z := pr_user_data reject.

Definition CreatePretradeAccountBlock (code : Z) (policy reason details : string) (userData : Z) : PretradeAccountBlock :=
  mkPretradeAccountBlock policy reason details userData code.
Definition PretradeAccountBlockGetCode (block : PretradeAccountBlock) : Z := pb_code block.
Definition PretradeAccountBlockGetPolicy (block : PretradeAccountBlock) : string := pb_policy block.
Definition PretradeAccountBlockGetReason (block : PretradeAccountBlock) : string := pb_reason block.
Definition PretradeAccountBlockGetDetails (block : PretradeAccountBlock) : string := pb_details block.
Definition PretradeAccountBlockGetUserData (block : PretradeAccountBlock) : Z := pb_user_data block.

(** The zero records, which a failed list access gives. *)
Definition zeroReject : PretradeReject := mkPretradeReject EmptyString EmptyString EmptyString 0 0 0.
Definition zeroBlock : PretradeAccountBlock := mkPretradeAccountBlock EmptyString EmptyString EmptyString 0 0.
Definition PretradeRejectListGet (list : list PretradeReject) (index : nat) : PretradeReject :=
  match list !! index with Some reject => reject | None => zeroReject end.
Definition PretradeAccountBlockListGet (list : list PretradeAccountBlock) (index : nat) : PretradeAccountBlock :=
  match list !! index with Some block => block | None => zeroBlock end.

(** ** reject/reject.go and reject/account.go *)

Definition RejectNewFromHandle (handle : PretradeReject) : Reject := {|
  Code := PretradeRejectGetCode handle;
  Scope := PretradeRejectGetScope handle;
  rj_Policy := PretradeRejectGetPolicy handle;
  Reason := PretradeRejectGetReason handle;
  Details := PretradeRejectGetDetails handle;
  UserData := PretradeRejectGetUserData handle;
|}.
Definition RejectNewHandle (r : Reject) : PretradeReject :=
  CreatePretradeReject (Code r) (Scope r) (rj_Policy r) (Reason r) (Details r) (UserData r).
Definition RejectWithUserData (r : Reject) (userData : Z) : Reject :=
  mkReject (Reason r) (Details r) (rj_Policy r) userData (Code r) (Scope r).

Definition NewAccountBlockFromHandle (handle : PretradeAccountBlock) : AccountBlock := {|
  bl_Code := PretradeAccountBlockGetCode handle;
  bl_Policy := PretradeAccountBlockGetPolicy handle;
  bl_Reason := PretradeAccountBlockGetReason handle;
  bl_Details := PretradeAccountBlockGetDetails handle;
  bl_UserData := PretradeAccountBlockGetUserData handle;
|}.
Definition BlockNewHandle (b : AccountBlock) : PretradeAccountBlock :=
  CreatePretradeAccountBlock (bl_Code b) (bl_Policy b) (bl_Reason b) (bl_Details b) (bl_UserData b).
Definition BlockWithUserData (b : AccountBlock) (userData : Z) : AccountBlock :=
  mkBlock (bl_Reason b) (bl_Details b) (bl_Policy b) userData (bl_Code b).

(** ** Both ways give the value back *)

Lemma reject_roundtrip r : RejectNewFromHandle (RejectNewHandle r) = r.
Proof. by destruct r. Qed.
Lemma reject_roundtrip_handle h : RejectNewHandle (RejectNewFromHandle h) = h.
Proof. by destruct h. Qed.
Lemma block_roundtrip b : NewAccountBlockFromHandle (BlockNewHandle b) = b.
Proof. by destruct b. Qed.
Lemma block_roundtrip_handle h : BlockNewHandle (NewAccountBlockFromHandle h) = h.
Proof. by destruct h. Qed.

(** Reading a list index by index is reading its members. *)
Lemma seq_lookup_map {A B} (f : A -> B) (d : B) (l : list A) :
  map (fun i => match l !! i with Some x => f x | None => d end) (seq 0 (length l)) = map f l.
Proof.
  induction l as [|x l IH]; [done|]. cbn [length seq map]. cbn [lookup list_lookup]. f_equal.
  rewrite <- IH, <- seq_shift, map_map. done.
Qed.
