(* ===== verification/Accounts.v ===== *)
(** * Accounts of an engine

    accounts/accounts.go and [Engine.RetireAccount] (engine.go) over
    internal/native/account_group.go and account_block.go, with the errors of
    reject/account.go and reject/account_retirement.go, which read a native error object
    and destroy it. What the native engine does to its groups, blocks and currencies is
    a class of functions over its state; they may write any out parameters. *)
From Stdlib Require Import ZArith Lia.
From stdpp Require Import base list gmap strings pretty.
From S2P Require Import Prelude GoRuntime NativeErrors NativeObjects Routing EngineBase ParamValues CustomPolicy MarketData Rejects.

(** ** Native errors *)

Record NativeGroupError := mkNativeGroupError {
  nge_message : string; nge_account : Z; nge_current_group : option Z;
}.
Record NativeBlockError := mkNativeBlockError {
  nbe_message : string; nbe_kind : Z; nbe_account : option Z; nbe_group : option Z;
}.
(** A refusal has a policy name and a kind, each of which may fail to be read. *)
Record NativeRetirementError := mkNativeRetirementError {
  nre_message : string; nre_kind : Z; nre_refusals : list (option string * option Z);
}.
Inductive accountsObject :=
| OGroupError (e : NativeGroupError)
| OBlockError (e : NativeBlockError)
| ORetirementError (e : NativeRetirementError).

Definition asGroupError (o : accountsObject) := match o with OGroupError e => Some e | _ => None end.
Definition asBlockError (o : accountsObject) := match o with OBlockError e => Some e | _ => None end.
Definition asRetirementError (o : accountsObject) := match o with ORetirementError e => Some e | _ => None end.

(** The functions of the native engine: success, and the out parameters written. *)
Class NativeAccounts (E : Type) := {
  register_account_group : E -> list Z -> Z -> E * (bool * option NativeGroupError * option string);
  unregister_account_group : E -> list Z -> Z -> E * (bool * option NativeGroupError * option string);
  account_group : E -> Z -> bool * Z;
  retire_account : E -> Z -> E * (bool * option NativeRetirementError * option string);
  set_account_currency : E -> Z -> string -> E * (bool * option string);
  clear_account_currency : E -> Z -> E;
  set_account_group_currency : E -> Z -> string -> E * (bool * option string);
  clear_account_group_currency : E -> Z -> E;
  block_account : E -> Z -> string -> E;
  block_account_with_cause : E -> Z -> PretradeAccountBlock -> E * (bool * option ParamError);
  unblock_account : E -> Z -> E;
  unblock_all_accounts : E -> E;
  replace_account_block_reason : E -> Z -> string -> E * (bool * option NativeBlockError);
  block_account_group : E -> Z -> string -> E * (bool * option NativeBlockError);
  unblock_account_group : E -> Z -> E * (bool * option NativeBlockError);
  replace_account_group_block_reason : E -> Z -> string -> E * (bool * option NativeBlockError);
}.

(** ** Errors of the Go side *)

Record AccountGroupError := mkAccountGroupError {
  age_Message : string; age_Account : AccountID; age_CurrentGroup : option AccountGroupID;
}.
Record AccountBlockError := mkAccountBlockError {
  abe_Message : string; abe_Account : option AccountID; abe_Group : option AccountGroupID; abe_Kind : Z;
}.
Record AccountRetirementPolicyRefusal := mkRefusal { rf_Policy : string; rf_Kind : Z }.
Record AccountRetirementError := mkAccountRetirementError {
  are_Message : string; are_Kind : Z; are_Refusals : list AccountRetirementPolicyRefusal;
}.
(** What an [error] of this package is. *)
Inductive accountsError :=
| AEGroup (e : AccountGroupError)
| AEBlock (e : AccountBlockError)
| AERetirement (e : AccountRetirementError)
| AEPlain (e : error).

Definition NewAccountGroupIDFromHandle (source : Z) : AccountGroupID := {| grp_native := source; grp_initialized := true |}.

Section Accounts.
Context {E : Type} `{!NativeAccounts E}.
Abbreviation AW := (M (Natives accountsObject E)).

(** ** internal/native: group errors *)

Definition DestroyAccountGroupError (err : Z) : AW unit := destroyObject err.
Definition AccountGroupErrorGetMessage (err : Z) : AW string :=
  let* e := project asGroupError err in ret (nge_message e).
Definition AccountGroupErrorGetAccount (err : Z) : AW Z :=
  let* e := project asGroupError err in ret (nge_account e).
Definition AccountGroupErrorGetCurrentGroup (err : Z) : AW (Z * bool) :=
  let* e := project asGroupError err in
  match nge_current_group e with Some g => ret (g, true) | None => ret (0%Z, false) end.

(** *** Block errors *)

Definition DestroyAccountBlockError (err : Z) : AW unit := destroyObject err.
Definition AccountBlockErrorGetMessage (err : Z) : AW string :=
  let* e := project asBlockError err in ret (nbe_message e).
Definition AccountBlockErrorGetKind (err : Z) : AW Z :=
  let* e := project asBlockError err in ret (nbe_kind e).
Definition AccountBlockErrorGetAccount (err : Z) : AW (Z * bool) :=
  let* e := project asBlockError err in
  match nbe_account e with Some a => ret (a, true) | None => ret (0%Z, false) end.
Definition AccountBlockErrorGetGroup (err : Z) : AW (Z * bool) :=
  let* e := project asBlockError err in
  match nbe_group e with Some g => ret (g, true) | None => ret (0%Z, false) end.

(** *** Retirement errors *)

Definition DestroyAccountRetirementError (err : Z) : AW unit := destroyObject err.
Definition AccountRetirementErrorGetKind (err : Z) : AW Z :=
  let* e := project asRetirementError err in ret (nre_kind e).
Definition AccountRetirementErrorGetMessage (err : Z) : AW string :=
  let* e := project asRetirementError err in ret (nre_message e).
Definition AccountRetirementErrorGetRefusalCount (err : Z) : AW nat :=
  let* e := project asRetirementError err in ret (length (nre_refusals e)).
Definition AccountRetirementErrorGetRefusalPolicyName (err : Z) (index : nat) : AW (string * bool) :=
  let* e := project asRetirementError err in
  match nre_refusals e !! index ≫= fst with Some name => ret (name, true) | None => ret (EmptyString, false) end.
Definition AccountRetirementErrorGetRefusalKind (err : Z) (index : nat) : AW (Z * bool) :=
  let* e := project asRetirementError err in
  match nre_refusals e !! index ≫= snd with Some kind => ret (kind, true) | None => ret (0%Z, false) end.

(** *** Calls of the engine *)

Definition EngineRegisterAccountGroup (accounts : list Z) (group : Z) : AW (option Z * option error) :=
  let* (ok, groupError, message) := native (fun e => register_account_group e accounts group) in
  let* outGroupError := outObject (OGroupError <$> groupError) in
  let* outError := onHeap (allocString message) in
  if negb ok then
    match outGroupError with
    | Some h => ret (Some h, None)
    | None => let* err := onHeap (consumeSharedStringAsError outError "openpit_engine_register_account_group failed") in
              ret (None, Some err)
    end
  else ret (None, None).
Definition EngineUnregisterAccountGroup (accounts : list Z) (group : Z) : AW (option Z * option error) :=
  let* (ok, groupError, message) := native (fun e => unregister_account_group e accounts group) in
  let* outGroupError := outObject (OGroupError <$> groupError) in
  let* outError := onHeap (allocString message) in
  if negb ok then
    match outGroupError with
    | Some h => ret (Some h, None)
    | None => let* err := onHeap (consumeSharedStringAsError outError "openpit_engine_unregister_account_group failed") in
              ret (None, Some err)
    end
  else ret (None, None).
Definition EngineAccountGroup (account : Z) : AW (Z * bool) :=
  let* (ok, out) := native (fun e => (e, account_group e account)) in ret (out, ok).
Definition EngineRetireAccount (account : Z) : AW (option Z * option error) :=
  let* (ok, retirementErr, message) := native (fun e => retire_account e account) in
  let* retirementError := outObject (ORetirementError <$> retirementErr) in
  let* outError := onHeap (allocString message) in
  if negb ok then
    match retirementError with
    | Some h => ret (Some h, None)
    | None => let* err := onHeap (consumeSharedStringAsError outError "openpit_engine_retire_account failed") in
              ret (None, Some err)
    end
  else ret (None, None).
Definition EngineSetAccountCurrency (account : Z) (asset : string) : AW (option error) :=
  let* (ok, message) := native (fun e => set_account_currency e account asset) in
  let* outError := onHeap (allocString message) in
  if negb ok then
    let* err := onHeap (consumeSharedStringAsError outError "openpit_engine_set_account_currency failed") in ret (Some err)
  else ret None.
Definition EngineSetAccountGroupCurrency (group : Z) (asset : string) : AW (option error) :=
  let* (ok, message) := native (fun e => set_account_group_currency e group asset) in
  let* outError := onHeap (allocString message) in
  if negb ok then
    let* err := onHeap (consumeSharedStringAsError outError "openpit_engine_set_account_group_currency failed") in ret (Some err)
  else ret None.
Definition EngineClearAccountCurrency (account : Z) : AW unit :=
  native (fun e => (clear_account_currency e account, tt)).
Definition EngineClearAccountGroupCurrency (group : Z) : AW unit :=
  native (fun e => (clear_account_group_currency e group, tt)).
Definition EngineBlockAccount (account : Z) (reason : string) : AW unit :=
  native (fun e => (block_account e account reason, tt)).
Definition EngineBlockAccountWithCause (account : Z) (cause : PretradeAccountBlock) : AW (option error) :=
  let* (ok, paramErr) := native (fun e => block_account_with_cause e account cause) in
  let* outError := onHeap (allocError paramErr) in
  if negb ok then let* err := onHeap (consumeParamError outError "block account with cause failed") in ret (Some err)
  else ret None.
Definition EngineUnblockAccount (account : Z) : AW unit :=
  native (fun e => (unblock_account e account, tt)).
Definition EngineUnblockAllAccounts : AW unit := native (fun e => (unblock_all_accounts e, tt)).
Definition EngineReplaceAccountBlockReason (account : Z) (reason : string) : AW (option Z) :=
  let* (ok, blockErr) := native (fun e => replace_account_block_reason e account reason) in
  let* outError := outObject (OBlockError <$> blockErr) in
  if negb ok then ret outError else ret None.
Definition EngineBlockAccountGroup (group : Z) (reason : string) : AW (option Z) :=
  let* (ok, blockErr) := native (fun e => block_account_group e group reason) in
  let* outError := outObject (OBlockError <$> blockErr) in
  if negb ok then ret outError else ret None.
Definition EngineUnblockAccountGroup (group : Z) : AW (option Z) :=
  let* (ok, blockErr) := native (fun e => unblock_account_group e group) in
  let* outError := outObject (OBlockError <$> blockErr) in
  if negb ok then ret outError else ret None.
Definition EngineReplaceAccountGroupBlockReason (group : Z) (reason : string) : AW (option Z) :=
  let* (ok, blockErr) := native (fun e => replace_account_group_block_reason e group reason) in
  let* outError := outObject (OBlockError <$> blockErr) in
  if negb ok then ret outError else ret None.

(** ** reject: errors read from handles *)

Definition NewAccountGroupErrorFromHandle (handle : Z) : AW AccountGroupError :=
  let* msg := AccountGroupErrorGetMessage handle in
  let* account := AccountGroupErrorGetAccount handle in
  let* (group, hasGroup) := AccountGroupErrorGetCurrentGroup handle in
  DestroyAccountGroupError handle ;;;
  ret {|
    age_Message := msg;
    age_Account := NewAccountIDFromHandle account;
    age_CurrentGroup := if (hasGroup : bool) then Some (NewAccountGroupIDFromHandle group) else None;
  |}.
Definition NewAccountBlockErrorFromHandle (handle : Z) : AW AccountBlockError :=
  let* msg := AccountBlockErrorGetMessage handle in
  let* kind := AccountBlockErrorGetKind handle in
  let* (account, hasAccount) := AccountBlockErrorGetAccount handle in
  let* (group, hasGroup) := AccountBlockErrorGetGroup handle in
  DestroyAccountBlockError handle ;;;
  ret {|
    abe_Message := msg;
    abe_Kind := kind;
    abe_Account := if (hasAccount : bool) then Some (NewAccountIDFromHandle account) else None;
    abe_Group := if (hasGroup : bool) then Some (NewAccountGroupIDFromHandle group) else None;
  |}.

Definition noPolicyName (index : nat) : error :=
  EText ("account retirement refusal " +:+ pretty index +:+ " has no policy name") 0.
Definition noKind (index : nat) : error :=
  EText ("account retirement refusal " +:+ pretty index +:+ " has no kind") 0.
(** The loop from [index] on, [count] more refusals. *)
Fixpoint readRefusals (handle : Z) (index count : nat) (refusals : list AccountRetirementPolicyRefusal)
    : AW (list AccountRetirementPolicyRefusal + error) :=
  match count with
  | O => ret (inl refusals)
  | S count =>
    let* (name, ok) := AccountRetirementErrorGetRefusalPolicyName handle index in
    if negb ok then ret (inr (noPolicyName index))
    else
      let* (kind, ok) := AccountRetirementErrorGetRefusalKind handle index in
      if negb ok then ret (inr (noKind index))
      else readRefusals handle (S index) count (refusals ++ [mkRefusal name kind])
  end.
Definition NewAccountRetirementErrorFromHandle (handle : Z) : AW (AccountRetirementError + error) :=
  deferred (DestroyAccountRetirementError handle) (
    let* message := AccountRetirementErrorGetMessage handle in
    let* kind := AccountRetirementErrorGetKind handle in
    let* count := AccountRetirementErrorGetRefusalCount handle in
    let* refusals := readRefusals handle 0 count [] in
    match refusals with
    | inr err => ret (inr err)
    | inl refusals => ret (inl (mkAccountRetirementError message kind refusals))
    end).

(** ** accounts.go *)

(** The end of [RegisterGroup] and [UnregisterGroup]. *)
Definition groupResult (groupErr : option Z) (err : option error) : AW (option accountsError) :=
  match err with
  | Some err => ret (Some (AEPlain err))
  | None =>
    match groupErr with
    | Some groupErr => let* e := NewAccountGroupErrorFromHandle groupErr in ret (Some (AEGroup e))
    | None => ret None
    end
  end.
Definition RegisterGroup (accounts : list AccountID) (group : AccountGroupID) : AW (option accountsError) :=
  let nativeAccounts := map AccountIDHandle accounts in
  let* (groupErr, err) := EngineRegisterAccountGroup nativeAccounts (AccountGroupIDHandle group) in
  groupResult groupErr err.
Definition UnregisterGroup (accounts : list AccountID) (group : AccountGroupID) : AW (option accountsError) :=
  let nativeAccounts := map AccountIDHandle accounts in
  let* (groupErr, err) := EngineUnregisterAccountGroup nativeAccounts (AccountGroupIDHandle group) in
  groupResult groupErr err.
Definition GroupOf (account : AccountID) : AW (option AccountGroupID) :=
  let* (id, ok) := EngineAccountGroup (AccountIDHandle account) in
  ret (if (ok : bool) then Some (NewAccountGroupIDFromHandle id) else None).
Definition SetCurrency (account : AccountID) (asset : string) : AW (option accountsError) :=
  let* err := EngineSetAccountCurrency (AccountIDHandle account) asset in ret (AEPlain <$> err).
Definition ClearCurrency (account : AccountID) : AW unit := EngineClearAccountCurrency (AccountIDHandle account).
Definition SetGroupCurrency (group : AccountGroupID) (asset : string) : AW (option accountsError) :=
  if negb (IsInitialized group) then ret (Some (AEPlain ErrUninitializedAccountGroupID))
  else let* err := EngineSetAccountGroupCurrency (AccountGroupIDHandle group) asset in ret (AEPlain <$> err).
Definition ClearGroupCurrency (group : AccountGroupID) : AW (option accountsError) :=
  if negb (IsInitialized group) then ret (Some (AEPlain ErrUninitializedAccountGroupID))
  else EngineClearAccountGroupCurrency (AccountGroupIDHandle group) ;;; ret None.
Definition Block (account : AccountID) (reason : string) : AW unit := EngineBlockAccount (AccountIDHandle account) reason.
Definition BlockWithCause (account : AccountID) (cause : AccountBlock) : AW (option accountsError) :=
  let handle := BlockNewHandle cause in
  let* err := EngineBlockAccountWithCause (AccountIDHandle account) handle in ret (AEPlain <$> err).
Definition Unblock (account : AccountID) : AW unit := EngineUnblockAccount (AccountIDHandle account).
Definition UnblockAll : AW unit := EngineUnblockAllAccounts.
(** The end of the operations that a block error refuses. *)
Definition blockResult (blockErr : option Z) : AW (option accountsError) :=
  match blockErr with
  | Some blockErr => let* e := NewAccountBlockErrorFromHandle blockErr in ret (Some (AEBlock e))
  | None => ret None
  end.
Definition ReplaceBlockReason (account : AccountID) (reason : string) : AW (option accountsError) :=
  let* blockErr := EngineReplaceAccountBlockReason (AccountIDHandle account) reason in blockResult blockErr.
Definition BlockGroup (group : AccountGroupID) (reason : string) : AW (option accountsError) :=
  let* blockErr := EngineBlockAccountGroup (AccountGroupIDHandle group) reason in blockResult blockErr.
Definition UnblockGroup (group : AccountGroupID) : AW (option accountsError) :=
  let* blockErr := EngineUnblockAccountGroup (AccountGroupIDHandle group) in blockResult blockErr.
Definition ReplaceGroupBlockReason (group : AccountGroupID) (reason : string) : AW (option accountsError) :=
  let* blockErr := EngineReplaceAccountGroupBlockReason (AccountGroupIDHandle group) reason in blockResult blockErr.

(** ** engine.go *)

Definition RetireAccount (accountID : AccountID) : AW (option accountsError) :=
  let* (retirementError, err) := EngineRetireAccount (AccountIDHandle accountID) in
  match err with
  | Some err => ret (Some (AEPlain err))
  | None =>
    match retirementError with
    | Some h =>
      let* r := NewAccountRetirementErrorFromHandle h in
      match r with
      | inr conversionErr => ret (Some (AEPlain conversionErr))
      | inl returnErr => ret (Some (AERetirement returnErr))
      end
    | None => ret None
    end
  end.

(** ** Every operation *)

Inductive accountsOp :=
| OpRegisterGroup (accounts : list AccountID) (group : AccountGroupID)
| OpUnregisterGroup (accounts : list AccountID) (group : AccountGroupID)
| OpGroupOf (account : AccountID)
| OpSetCurrency (account : AccountID) (asset : string)
| OpClearCurrency (account : AccountID)
| OpSetGroupCurrency (group : AccountGroupID) (asset : string)
| OpClearGroupCurrency (group : AccountGroupID)
| OpBlock (account : AccountID) (reason : string)
| OpBlockWithCause (account : AccountID) (cause : AccountBlock)
| OpUnblock (account : AccountID)
| OpUnblockAll
| OpReplaceBlockReason (account : AccountID) (reason : string)
| OpBlockGroup (group : AccountGroupID) (reason : string)
| OpUnblockGroup (group : AccountGroupID)
| OpReplaceGroupBlockReason (group : AccountGroupID) (reason : string)
| OpRetireAccount (account : AccountID).
Inductive accountsAnswer := Answer (err : option accountsError) | Group (group : option AccountGroupID).

Definition answer (m : AW (option accountsError)) : AW accountsAnswer := let* err := m in ret (Answer err).
Definition done (m : AW unit) : AW accountsAnswer := m ;;; ret (Answer None).
Definition runAccounts (op : accountsOp) : AW accountsAnswer :=
  match op with
  | OpRegisterGroup accounts group => answer (RegisterGroup accounts group)
  | OpUnregisterGroup accounts group => answer (UnregisterGroup accounts group)
  | OpGroupOf account => let* group := GroupOf account in ret (Group group)
  | OpSetCurrency account asset => answer (SetCurrency account asset)
  | OpClearCurrency account => done (ClearCurrency account)
  | OpSetGroupCurrency group asset => answer (SetGroupCurrency group asset)
  | OpClearGroupCurrency group => answer (ClearGroupCurrency group)
  | OpBlock account reason => done (Block account reason)
  | OpBlockWithCause account cause => answer (BlockWithCause account cause)
  | OpUnblock account => done (Unblock account)
  | OpUnblockAll => done UnblockAll
  | OpReplaceBlockReason account reason => answer (ReplaceBlockReason account reason)
  | OpBlockGroup group reason => answer (BlockGroup group reason)
  | OpUnblockGroup group => answer (UnblockGroup group)
  | OpReplaceGroupBlockReason group reason => answer (ReplaceGroupBlockReason group reason)
  | OpRetireAccount account => answer (RetireAccount account)
  end.
End Accounts.
