(* ===== verification/AccountsFacts.v ===== *)
(** * What an account operation does

    Every operation of [Accounts] is one call of the native engine: a refusal becomes a
    Go error with the content of the native one, which is destroyed, and nothing else is
    left. *)
From Stdlib Require Import ZArith Lia.
From stdpp Require Import base list gmap strings pretty.
From S2P Require Import Prelude GoRuntime NativeErrors NativeObjects Routing EngineBase ParamValues CustomPolicy MarketData Rejects Accounts.

(** ** What the native functions promise (openpit.h) *)

(** A success writes nothing; a failure writes a domain error or a text, not both. *)
Definition oneOut {D} (r : bool * option D * option string) : Prop :=
  match r with (true, None, None) | (false, Some _, None) | (false, None, Some _) => True | _ => False end.
Definition outIff {D} (r : bool * option D) : Prop :=
  match r with (true, None) | (false, Some _) => True | _ => False end.

(** The reserved default group is refused, and nothing is done: with a group error where
    accounts enter or leave a group, with [ReservedGroup] where a group is blocked. *)
Definition ReservedGroup : Z := 0%Z. (* OpenPitAccountBlockErrorKind_ReservedGroup *)
Definition reservedByGroup {E} (e : E) (r : E * (bool * option NativeGroupError * option string)) : Prop :=
  exists d, r = (e, (false, Some d, None)).
Definition reservedByBlock {E} (e : E) (r : E * (bool * option NativeBlockError)) : Prop :=
  exists d, r = (e, (false, Some d)) /\ nbe_kind d = ReservedGroup.

Class DocumentedAccounts (E : Type) `{!NativeAccounts E} : Prop := {
  doc_register e l g : oneOut (snd (register_account_group e l g));
  doc_unregister e l g : oneOut (snd (unregister_account_group e l g));
  doc_retire e a : oneOut (snd (retire_account e a));
  doc_currency e a s : outIff (snd (set_account_currency e a s));
  doc_group_currency e g s : outIff (snd (set_account_group_currency e g s));
  doc_cause e a b : fst (snd (block_account_with_cause e a b)) = true -> snd (snd (block_account_with_cause e a b)) = None;
  doc_reason e a s : outIff (snd (replace_account_block_reason e a s));
  doc_block_group e g s : outIff (snd (block_account_group e g s));
  doc_unblock_group e g : outIff (snd (unblock_account_group e g));
  doc_group_reason e g s : outIff (snd (replace_account_group_block_reason e g s));
  doc_register_default e l : reservedByGroup e (register_account_group e l 0%Z);
  doc_unregister_default e l : reservedByGroup e (unregister_account_group e l 0%Z);
  doc_block_default e s : reservedByBlock e (block_account_group e 0%Z s);
  doc_unblock_default e : reservedByBlock e (unblock_account_group e 0%Z);
  doc_reason_default e s : reservedByBlock e (replace_account_group_block_reason e 0%Z s);
}.

(** ** What an operation answers *)

Definition groupErrorOf (d : NativeGroupError) : accountsError :=
  AEGroup (mkAccountGroupError (nge_message d) (nge_account d) (NewAccountGroupIDFromHandle <$> nge_current_group d)).
Definition blockErrorOf (d : NativeBlockError) : accountsError :=
  AEBlock (mkAccountBlockError (nbe_message d) (nbe_account d) (NewAccountGroupIDFromHandle <$> nbe_group d) (nbe_kind d)).
Definition refusalOf (r : option string * option Z) : option AccountRetirementPolicyRefusal :=
  match r with (Some name, Some kind) => Some (mkRefusal name kind) | _ => None end.
(** The refusals in order, or the first that cannot be read. *)
Definition refusalsFrom (i : nat) (l : list (option string * option Z)) : list AccountRetirementPolicyRefusal + error :=
  match list_find (fun r => refusalOf r = None) l with
  | Some (j, (None, _)) => inr (noPolicyName (i + j))
  | Some (j, _) => inr (noKind (i + j))
  | None => inl (omap refusalOf l)
  end.
Definition retirementErrorOf (d : NativeRetirementError) : accountsError :=
  match refusalsFrom 0 (nre_refusals d) with
  | inl refusals => AERetirement (mkAccountRetirementError (nre_message d) (nre_kind d) refusals)
  | inr err => AEPlain err
  end.

Definition refusedWith {D} (onDomain : D -> accountsError) (fallback : string) (r : bool * option D * option string)
    : option accountsError :=
  match r with
  | (true, _, _) => None
  | (false, Some d, _) => Some (onDomain d)
  | (false, None, m) => Some (AEPlain (messageError fallback (default EmptyString m)))
  end.
Definition textOf (fallback : string) (r : bool * option string) : option accountsError :=
  refusedWith (D:=Empty_set) (fun d => match d with end) fallback (fst r, None, snd r).
Definition causeOf (r : bool * option ParamError) : option accountsError :=
  if fst r then None else Some (AEPlain (paramErrorOf "block account with cause failed" (snd r))).
Definition blockedWith (r : bool * option NativeBlockError) : option accountsError :=
  if fst r then None else blockErrorOf <$> snd r.

Section Facts.
Context {E : Type} `{!NativeAccounts E}.
Abbreviation AW := (M (Natives accountsObject E)).
Abbreviation Wd := (Natives accountsObject E).

(** The engine after the operation, and the answer. *)
Definition accountsCall (op : accountsOp) (e : E) : E * accountsAnswer :=
  match op with
  | OpRegisterGroup l g => let '(e, r) := register_account_group e (map AccountIDHandle l) (grp_native g) in
      (e, Answer (refusedWith groupErrorOf "openpit_engine_register_account_group failed" r))
  | OpUnregisterGroup l g => let '(e, r) := unregister_account_group e (map AccountIDHandle l) (grp_native g) in
      (e, Answer (refusedWith groupErrorOf "openpit_engine_unregister_account_group failed" r))
  | OpGroupOf a => let '(ok, id) := account_group e a in
      (e, Group (if ok then Some (NewAccountGroupIDFromHandle id) else None))
  | OpSetCurrency a s => let '(e, r) := set_account_currency e a s in
      (e, Answer (textOf "openpit_engine_set_account_currency failed" r))
  | OpClearCurrency a => (clear_account_currency e a, Answer None)
  | OpSetGroupCurrency g s =>
      if grp_initialized g then
        let '(e, r) := set_account_group_currency e (grp_native g) s in
        (e, Answer (textOf "openpit_engine_set_account_group_currency failed" r))
      else (e, Answer (Some (AEPlain ErrUninitializedAccountGroupID)))
  | OpClearGroupCurrency g =>
      if grp_initialized g then (clear_account_group_currency e (grp_native g), Answer None)
      else (e, Answer (Some (AEPlain ErrUninitializedAccountGroupID)))
  | OpBlock a s => (block_account e a s, Answer None)
  | OpBlockWithCause a b => let '(e, r) := block_account_with_cause e a (BlockNewHandle b) in (e, Answer (causeOf r))
  | OpUnblock a => (unblock_account e a, Answer None)
  | OpUnblockAll => (unblock_all_accounts e, Answer None)
  | OpReplaceBlockReason a s => let '(e, r) := replace_account_block_reason e a s in (e, Answer (blockedWith r))
  | OpBlockGroup g s => let '(e, r) := block_account_group e (grp_native g) s in (e, Answer (blockedWith r))
  | OpUnblockGroup g => let '(e, r) := unblock_account_group e (grp_native g) in (e, Answer (blockedWith r))
  | OpReplaceGroupBlockReason g s =>
      let '(e, r) := replace_account_group_block_reason e (grp_native g) s in (e, Answer (blockedWith r))
  | OpRetireAccount a => let '(e, r) := retire_account e a in
      (e, Answer (refusedWith retirementErrorOf "openpit_engine_retire_account failed" r))
  end.

(** ** Errors are read and destroyed *)

Lemma releases_last {A} h o (a : A) (w : Wd) :
  nativesOk w -> wObjects w !! h = Some o -> releases h (destroyObject h ;;; ret a) w (wEngine w) (Ret a).
Proof. intros K H. eapply releases_destroy; [done|done|]. intros w' _ _ <-. apply ends_ret. Qed.

Lemma group_error_released h d (w : Wd) :
  nativesOk w -> wObjects w !! h = Some (OGroupError d) ->
  releases h (let* e := NewAccountGroupErrorFromHandle h in ret (Some (AEGroup e))) w (wEngine w) (Ret (Some (groupErrorOf d))).
Proof.
  intros K H. unfold groupErrorOf.
  do 2 (apply within_assoc; eapply within_getter; [done|done|done|]).
  apply within_assoc. destruct (nge_current_group d) eqn:Eg;
    (eapply within_getter; [done|done|cbv beta; by rewrite Eg|]; apply within_assoc; by eapply releases_last).
Qed.
Lemma block_error_released h d (w : Wd) :
  nativesOk w -> wObjects w !! h = Some (OBlockError d) ->
  releases h (let* e := NewAccountBlockErrorFromHandle h in ret (Some (AEBlock e))) w (wEngine w) (Ret (Some (blockErrorOf d))).
Proof.
  intros K H. unfold blockErrorOf.
  do 2 (apply within_assoc; eapply within_getter; [done|done|done|]).
  apply within_assoc. destruct (nbe_account d) eqn:Ea;
    (eapply within_getter; [done|done|cbv beta; by rewrite Ea|]; apply within_assoc;
     destruct (nbe_group d) eqn:Eg;
       (eapply within_getter; [done|done|cbv beta; by rewrite Eg|]; apply within_assoc; by eapply releases_last)).
Qed.

Lemma refusalsFrom_cons i name kind l :
  refusalsFrom i ((name, kind) :: l) =
  match name, kind with
  | None, _ => inr (noPolicyName i)
  | Some _, None => inr (noKind i)
  | Some name, Some kind =>
    match refusalsFrom (S i) l with inl rs => inl (mkRefusal name kind :: rs) | inr err => inr err end
  end.
Proof.
  unfold refusalsFrom. cbn. destruct name as [name|], kind as [kind|]; cbn; case_decide; try done; cbn; rewrite ?Nat.add_0_r; try done.
  destruct (list_find _ l) as [[j [[n|] k]]|]; cbn; rewrite ?Nat.add_succ_r; done.
Qed.

(** The loop of the retirement error. *)
Lemma readRefusals_ends h d i l acc (w : Wd) :
  nativesOk w -> wObjects w !! h = Some (ORetirementError d) -> drop i (nre_refusals d) = l ->
  ends (readRefusals h i (length l) acc) w (wEngine w)
    (Ret (match refusalsFrom i l with inl rs => inl (acc ++ rs) | inr err => inr err end)).
Proof.
  revert i acc w. induction l as [|[name kind] l IH]; intros i acc w K H Hd.
  { cbn. rewrite app_nil_r. apply ends_ret. }
  assert (nre_refusals d !! i = Some (name, kind)) as Hi by (rewrite <- (Nat.add_0_r i), <- lookup_drop, Hd; done).
  assert (drop (S i) (nre_refusals d) = l) as Hl by (erewrite drop_S in Hd by done; by injection Hd).
  cbn [readRefusals length]. rewrite refusalsFrom_cons. unfold AccountRetirementErrorGetRefusalPolicyName.
  destruct name as [name|].
  2: { eapply ends_bind; [done|eapply ends_getter; [done|done|cbv beta; by rewrite Hi]|]. intros w1 _ _ <-. apply ends_ret. }
  eapply ends_bind; [done|eapply ends_getter; [done|done|cbv beta; by rewrite Hi]|].
  intros w1 K1 Eo1 E1. cbn [negb]. rewrite <- E1. unfold AccountRetirementErrorGetRefusalKind.
  rewrite <- Eo1 in H. destruct kind as [kind|].
  2: { eapply ends_bind; [done|eapply ends_getter; [done|done|cbv beta; by rewrite Hi]|]. intros w2 _ _ <-. apply ends_ret. }
  eapply ends_bind; [done|eapply ends_getter; [done|done|cbv beta; by rewrite Hi]|].
  intros w2 K2 Eo2 E2. cbn [negb]. rewrite <- E2. rewrite <- Eo2 in H.
  pose proof (IH (S i) (acc ++ [mkRefusal name kind]) w2 K2 H Hl) as IH'.
  destruct (refusalsFrom (S i) l); [|done]. by rewrite <- app_assoc in IH'.
Qed.

Lemma retirement_error_released h d (w : Wd) :
  nativesOk w -> wObjects w !! h = Some (ORetirementError d) ->
  releases h (NewAccountRetirementErrorFromHandle h) w (wEngine w)
    (Ret (match refusalsFrom 0 (nre_refusals d) with
          | inl rs => inl (mkAccountRetirementError (nre_message d) (nre_kind d) rs)
          | inr err => inr err end)).
Proof.
  intros K H. eapply releases_deferred; [done|done|]. unfold AccountRetirementErrorGetMessage.
  eapply ends_bind; [done|by eapply ends_getter|]. intros w1 K1 Eo1 E1. rewrite <- Eo1 in H. rewrite <- E1.
  eapply ends_bind; [done|by eapply ends_getter|]. intros w2 K2 Eo2 E2. rewrite <- Eo2 in H. rewrite <- E2.
  eapply ends_bind; [done|by eapply ends_getter|]. intros w3 K3 Eo3 E3. rewrite <- Eo3 in H. rewrite <- E3.
  eapply ends_bind; [done|by apply (readRefusals_ends h d 0 (nre_refusals d))|].
  intros w4 _ _ <-. destruct (refusalsFrom 0 (nre_refusals d)); apply ends_ret.
Qed.

(** ** The shapes of the calls *)

Lemma ends_map {A B} (m : AW A) (f : A -> B) (w : Wd) e a :
  ends m w e (Ret a) -> ends (let* a := m in ret (f a)) w e (Ret (f a)).
Proof. intros (w' & Ew & H). exists w'. split; [by rewrite (bind_Ret _ _ _ _ _ Ew)|done]. Qed.
Lemma ends_change (f : E -> E) (w : Wd) : ends (native (fun e => (f e, tt))) w (f (wEngine w)) (Ret tt).
Proof. apply (ends_native (fun e => (f e, tt))). Qed.

(** A call that may be refused with an object of [D] or with a text. *)
Lemma ends_grouped {D} (f : E -> E * (bool * option D * option string)) (wrap : D -> accountsObject) fallback
    (k : option Z -> option error -> AW (option accountsError)) (onDomain : D -> accountsError) (w : Wd) :
  nativesOk w -> oneOut (snd (f (wEngine w))) ->
  (forall w', ends (k None None) w' (wEngine w') (Ret None)) ->
  (forall err w', ends (k None (Some err)) w' (wEngine w') (Ret (Some (AEPlain err)))) ->
  (forall h d (w' : Wd), nativesOk w' -> wObjects w' !! h = Some (wrap d) ->
     releases h (k (Some h) None) w' (wEngine w') (Ret (Some (onDomain d)))) ->
  ends (let* (groupErr, err) :=
          (let* (ok, groupError, message) := native f in
           let* outGroupError := outObject (wrap <$> groupError) in
           let* outError := onHeap (allocString message) in
           if negb ok then
             match outGroupError with
             | Some h => ret (Some h, None)
             | None => let* err := onHeap (consumeSharedStringAsError outError fallback) in ret (None, Some err)
             end
           else ret (None, None)) in
        k groupErr err) w
    (fst (f (wEngine w))) (Ret (refusedWith onDomain fallback (snd (f (wEngine w))))).
Proof.
  intros K Hone Hok Herr Hdom. apply ends_assoc. eapply ends_bind; [done|apply ends_native|].
  destruct (snd (f (wEngine w))) as [[[] d] m]; destruct d as [d|], m as [m|]; try done; intros w1 K1 _ <-; cbn [fmap option_fmap option_map].
  - apply ends_assoc, ends_out_none, ends_assoc, within_no_text. apply Hok.
  - apply ends_assoc, ends_out_some; [done|]. intros h w2 K2 _ Eo E2. apply releases_assoc, within_no_text.
    assert (wObjects w2 !! h = Some (wrap d)) as H2 by (rewrite Eo; apply lookup_insert_eq). rewrite <- E2.
    exact (Hdom h d w2 K2 H2).
  - apply ends_assoc, ends_out_none, ends_assoc.
    apply (within_text (wObjects w1) _ fallback m (fun err => (None, Some err)) (fun '(groupErr, err) => k groupErr err)); [done|].
    intros w2 _ <- <-. apply Herr.
Qed.

Lemma ends_texted (f : E -> E * (bool * option string)) fallback (w : Wd) :
  nativesOk w -> outIff (snd (f (wEngine w))) ->
  ends (let* err := (let* (ok, message) := native f in
          let* outError := onHeap (allocString message) in
          if negb ok then let* err := onHeap (consumeSharedStringAsError outError fallback) in ret (Some err) else ret None) in
        ret (AEPlain <$> err)) w (fst (f (wEngine w))) (Ret (textOf fallback (snd (f (wEngine w))))).
Proof.
  intros K Hout. apply ends_assoc. eapply ends_bind; [done|apply ends_native|].
  destruct (snd (f (wEngine w))) as [[] [m|]]; try done; intros w1 K1 _ <-; apply ends_assoc.
  - apply within_no_text, ends_ret.
  - apply (within_text (wObjects w1) _ fallback m Some (fun err => ret (AEPlain <$> err))); [done|]. intros w2 _ <- <-. apply ends_ret.
Qed.
Lemma ends_blocked (f : E -> E * (bool * option NativeBlockError)) (w : Wd) :
  nativesOk w -> outIff (snd (f (wEngine w))) ->
  ends (let* blockErr := (let* (ok, blockErr) := native f in
          let* outError := outObject (OBlockError <$> blockErr) in
          if negb ok then ret outError else ret None) in
        blockResult blockErr) w (fst (f (wEngine w))) (Ret (blockedWith (snd (f (wEngine w))))).
Proof.
  intros K Hout. apply ends_assoc. eapply ends_bind; [done|apply ends_native|].
  destruct (snd (f (wEngine w))) as [[] [d|]]; try done; intros w1 K1 _ <-; apply ends_assoc; cbn [fmap option_fmap option_map].
  - apply ends_out_none, ends_ret.
  - apply ends_out_some; [done|]. intros h w2 K2 _ Eo E2. rewrite <- E2.
    apply (block_error_released h d w2); [done|]. rewrite Eo. apply lookup_insert_eq.
Qed.
Lemma ends_caused (f : E -> E * (bool * option ParamError)) (w : Wd) :
  nativesOk w -> (fst (snd (f (wEngine w))) = true -> snd (snd (f (wEngine w))) = None) ->
  ends (let* err := (let* (ok, paramErr) := native f in
          let* outError := onHeap (allocError paramErr) in
          if negb ok then let* err := onHeap (consumeParamError outError "block account with cause failed") in ret (Some err) else ret None) in
        ret (AEPlain <$> err)) w (fst (f (wEngine w))) (Ret (causeOf (snd (f (wEngine w))))).
Proof.
  intros K Hout. apply ends_assoc. eapply ends_bind; [done|apply ends_native|].
  destruct (snd (f (wEngine w))) as [[] p]; cbn [fst snd] in Hout; intros w1 K1 _ <-; unfold causeOf; cbn [fst snd].
  - rewrite Hout by done. apply ends_assoc. eapply ends_bind; [done|apply ends_onHeap, gives_ret|]. intros w2 _ _ <-. apply ends_ret.
  - exact (ends_map _ (fun err => AEPlain <$> err) _ _ _ (ends_paramError "block account with cause failed" p Some w1 K1)).
Qed.

Lemma retirement_result (w : Wd) h d :
  nativesOk w -> wObjects w !! h = Some (ORetirementError d) ->
  releases h (let* r := NewAccountRetirementErrorFromHandle h in
              match r with
              | inr conversionErr => ret (Some (AEPlain conversionErr))
              | inl returnErr => ret (Some (AERetirement returnErr))
              end) w (wEngine w) (Ret (Some (retirementErrorOf d))).
Proof.
  intros K H. destruct (retirement_error_released h d w K H) as (w' & Ew & Hw).
  exists w'. rewrite (bind_Ret _ _ _ _ _ Ew). split; [|done]. unfold retirementErrorOf. by destruct (refusalsFrom _ _).
Qed.

(** ** The theorem *)

Lemma answer_of (m : AW (option accountsError)) (w : Wd) {R} (r : E * R) (g : R -> option accountsError) :
  ends m w (fst r) (Ret (g (snd r))) ->
  ends (answer m) w (fst (let '(e, r) := r in (e, Answer (g r)))) (Ret (snd (let '(e, r) := r in (e, Answer (g r))))).
Proof. destruct r as [e r]. intros H. exact (ends_map _ Answer _ _ _ H). Qed.
Lemma done_of (f : E -> E) (w : Wd) : ends (done (native (fun e => (f e, tt)))) w (f (wEngine w)) (Ret (Answer None)).
Proof. exact (ends_map _ (fun _ => Answer None) _ _ _ (ends_change f w)). Qed.

Lemma groups_of (f : E -> E * (bool * option NativeGroupError * option string)) fallback (w : Wd) :
  nativesOk w -> oneOut (snd (f (wEngine w))) ->
  ends (let* (groupErr, err) :=
          (let* (ok, groupError, message) := native f in
           let* outGroupError := outObject (OGroupError <$> groupError) in
           let* outError := onHeap (allocString message) in
           if negb ok then
             match outGroupError with
             | Some h => ret (Some h, None)
             | None => let* err := onHeap (consumeSharedStringAsError outError fallback) in ret (None, Some err)
             end
           else ret (None, None)) in
        groupResult groupErr err)
    w (fst (f (wEngine w))) (Ret (refusedWith groupErrorOf fallback (snd (f (wEngine w))))).
Proof.
  intros K H. apply (ends_grouped f OGroupError fallback groupResult groupErrorOf); [done|done|..].
  - intros w'. apply ends_ret.
  - intros err w'. apply ends_ret.
  - intros h d w' K' H'. by apply group_error_released.
Qed.

Lemma run_is_call `{!DocumentedAccounts E} (op : accountsOp) (w : Wd) :
  nativesOk w ->
  ends (runAccounts op) w (fst (accountsCall op (wEngine w))) (Ret (snd (accountsCall op (wEngine w)))).
Proof.
  intros K. destruct op; cbn [runAccounts accountsCall].
  - apply answer_of, (groups_of (fun e => register_account_group e (map AccountIDHandle accounts) (grp_native group))); [done|apply doc_register].
  - apply answer_of, (groups_of (fun e => unregister_account_group e (map AccountIDHandle accounts) (grp_native group))); [done|apply doc_unregister].
  - destruct (account_group (wEngine w) account) as [ok id] eqn:Eg. unfold GroupOf, EngineAccountGroup.
    exists w. split; [|by repeat split].
    unfold bind, native, ret. unfold AccountIDHandle. rewrite Eg. destruct w; by destruct ok.
  - apply answer_of, (ends_texted (fun e => set_account_currency e account asset)); [done|apply doc_currency].
  - apply done_of.
  - unfold SetGroupCurrency, IsInitialized. destruct (grp_initialized group); cbn [negb].
    + apply answer_of, (ends_texted (fun e => set_account_group_currency e (grp_native group) asset)); [done|apply doc_group_currency].
    + apply ends_ret.
  - unfold ClearGroupCurrency, IsInitialized. destruct (grp_initialized group); cbn [negb].
    + unfold answer. apply ends_assoc. apply done_of.
    + apply ends_ret.
  - apply done_of.
  - apply answer_of, (ends_caused (fun e => block_account_with_cause e account (BlockNewHandle cause))); [done|apply doc_cause].
  - apply done_of.
  - apply done_of.
  - apply answer_of, (ends_blocked (fun e => replace_account_block_reason e account reason)); [done|apply doc_reason].
  - apply answer_of, (ends_blocked (fun e => block_account_group e (grp_native group) reason)); [done|apply doc_block_group].
  - apply answer_of, (ends_blocked (fun e => unblock_account_group e (grp_native group))); [done|apply doc_unblock_group].
  - apply answer_of, (ends_blocked (fun e => replace_account_group_block_reason e (grp_native group) reason)); [done|apply doc_group_reason].
  - apply answer_of.
    apply (ends_grouped (fun e => retire_account e account) ORetirementError _
      (fun retirementError err => match err with Some err => ret (Some (AEPlain err)) | None =>
        match retirementError with
        | Some h => let* r := NewAccountRetirementErrorFromHandle h in
            match r with inr conversionErr => ret (Some (AEPlain conversionErr)) | inl returnErr => ret (Some (AERetirement returnErr)) end
        | None => ret None end end) retirementErrorOf); [done|apply doc_retire|..].
    + intros w'. apply ends_ret.
    + intros err w'. apply ends_ret.
    + intros h d w' K' H'. by apply retirement_result.
Qed.

(** *** Groups that were never initialized *)

(** The zero value of [AccountGroupID]. *)
Definition uninitializedGroup : AccountGroupID := {| grp_native := 0; grp_initialized := false |}.
(** The group an operation names. *)
Definition opGroup (op : accountsOp) : option AccountGroupID :=
  match op with
  | OpRegisterGroup _ g | OpUnregisterGroup _ g | OpSetGroupCurrency g _ | OpClearGroupCurrency g
  | OpBlockGroup g _ | OpUnblockGroup g | OpReplaceGroupBlockReason g _ => Some g
  | _ => None
  end.
(** How an operation refuses it: the currencies themselves, because the library takes
    the default group there; the others with the library's error. *)
Definition refusesUnset (op : accountsOp) (err : accountsError) : Prop :=
  match op, err with
  | OpSetGroupCurrency _ _, AEPlain err | OpClearGroupCurrency _, AEPlain err =>
    err = ErrUninitializedAccountGroupID
  | OpRegisterGroup _ _, AEGroup _ | OpUnregisterGroup _ _, AEGroup _ => True
  | OpBlockGroup _ _, AEBlock b | OpUnblockGroup _, AEBlock b | OpReplaceGroupBlockReason _ _, AEBlock b =>
    abe_Kind b = ReservedGroup
  | _, _ => False
  end.
Lemma unset_is_refused `{!DocumentedAccounts E} (op : accountsOp) (e : E) :
  opGroup op = Some uninitializedGroup ->
  exists err, accountsCall op e = (e, Answer (Some err)) /\ refusesUnset op err.
Proof.
  destruct op; intros Hg; simplify_eq/=.
  - destruct (doc_register_default e (map AccountIDHandle accounts)) as (d & ->). by eexists.
  - destruct (doc_unregister_default e (map AccountIDHandle accounts)) as (d & ->). by eexists.
  - by eexists.
  - by eexists.
  - destruct (doc_block_default e reason) as (d & -> & Hk). by eexists.
  - destruct (doc_unblock_default e) as (d & -> & Hk). by eexists.
  - destruct (doc_reason_default e reason) as (d & -> & Hk). by eexists.
Qed.

(** C12: every operation on accounts, groups, blocks and currencies, and [RetireAccount],
    is the native call with its result in Go: it never panics, a refusal carries the
    content of the native error (a retirement every refusal in order, or the first that
    cannot be read), which is destroyed once, and no error or text stays behind. Every
    operation on a group refuses one that was never initialized and leaves the engine
    untouched: the currencies with [ErrUninitializedAccountGroupID], the memberships
    with a group error, the blocks with a block error of kind [ReservedGroup]. *)
Theorem accounts_calls_are_native_calls `{!DocumentedAccounts E} (op : accountsOp) (w : Wd) :
  nativesOk w ->
  ends (runAccounts op) w (fst (accountsCall op (wEngine w))) (Ret (snd (accountsCall op (wEngine w)))) /\
  (opGroup op = Some uninitializedGroup ->
   exists err, refusesUnset op err /\ ends (runAccounts op) w (wEngine w) (Ret (Answer (Some err)))).
Proof.
  intros K. pose proof (run_is_call op w K) as H. split; [done|]. intros Hg.
  destruct (unset_is_refused op (wEngine w) Hg) as (err & Ec & Hr). exists err.
  by rewrite Ec in H.
Qed.
End Facts.

(** ** A concrete engine *)

(** Groups of accounts and reasons of blocked accounts. *)
Record ledger := mkLedger { lg_groups : gmap Z Z; lg_blocked : gmap Z string; lg_currency : gmap Z string }.

Definition grouped (l : ledger) (accounts : list Z) : option Z :=
  head (filter (fun a => is_Some (lg_groups l !! a)) accounts).
Definition ledgerRegister (l : ledger) (accounts : list Z) (group : Z) : ledger * (bool * option NativeGroupError * option string) :=
  if (group =? 0)%Z then (l, (false, Some (mkNativeGroupError "reserved group" 0 None), None))
  else
    match grouped l accounts with
    | Some a => (l, (false, Some (mkNativeGroupError "already in a group" a (lg_groups l !! a)), None))
    | None => (mkLedger (foldr (fun a => <[a := group]>) (lg_groups l) accounts) (lg_blocked l) (lg_currency l), (true, None, None))
    end.
Definition ledgerRetire (l : ledger) (a : Z) : ledger * (bool * option NativeRetirementError * option string) :=
  match lg_blocked l !! a with
  | Some _ => (l, (false, Some (mkNativeRetirementError "refused" 1 [(Some "limits", Some 2%Z); (Some "funds", None)]), None))
  | None => (mkLedger (delete a (lg_groups l)) (lg_blocked l) (delete a (lg_currency l)), (true, None, None))
  end.
Definition ledgerReason (l : ledger) (a : Z) (s : string) : ledger * (bool * option NativeBlockError) :=
  match lg_blocked l !! a with
  | Some _ => (mkLedger (lg_groups l) (<[a := s]> (lg_blocked l)) (lg_currency l), (true, None))
  | None => (l, (false, Some (mkNativeBlockError "not blocked" 1 (Some a) None)))
  end.
Definition setCurrency (l : ledger) (k : Z) (s : string) : ledger * (bool * option string) :=
  if isEmpty s then (l, (false, Some "empty asset")) else (mkLedger (lg_groups l) (lg_blocked l) (<[k := s]> (lg_currency l)), (true, None)).
Definition reserved (l : ledger) (g : Z) : ledger * (bool * option NativeBlockError) :=
  if (g =? 0)%Z then (l, (false, Some (mkNativeBlockError "reserved group" ReservedGroup None (Some g)))) else (l, (true, None)).
Definition blocking (l : ledger) (a : Z) (s : string) : ledger :=
  mkLedger (lg_groups l) (match lg_blocked l !! a with Some _ => lg_blocked l | None => <[a := s]> (lg_blocked l) end) (lg_currency l).

#[export] Instance ledgerAccounts : NativeAccounts ledger := {|
  register_account_group := ledgerRegister;
  unregister_account_group l accounts group :=
    if (group =? 0)%Z then (l, (false, Some (mkNativeGroupError "reserved group" 0 None), None)) else
    (mkLedger (foldr delete (lg_groups l) accounts) (lg_blocked l) (lg_currency l), (true, None, None));
  account_group l a := match lg_groups l !! a with Some g => (true, g) | None => (false, 0%Z) end;
  retire_account := ledgerRetire;
  set_account_currency := setCurrency;
  clear_account_currency l a := mkLedger (lg_groups l) (lg_blocked l) (delete a (lg_currency l));
  set_account_group_currency l g := setCurrency l (- 1 - g);
  clear_account_group_currency l g := mkLedger (lg_groups l) (lg_blocked l) (delete (- 1 - g)%Z (lg_currency l));
  block_account := blocking;
  block_account_with_cause l a b :=
    if (pb_code b =? 0)%Z then (l, (false, Some (mkParamError 255 (Some "unrecognized code")))) else (blocking l a (pb_reason b), (true, None));
  unblock_account l a := mkLedger (lg_groups l) (delete a (lg_blocked l)) (lg_currency l);
  unblock_all_accounts l := l;
  replace_account_block_reason := ledgerReason;
  block_account_group l g s := reserved l g;
  unblock_account_group := reserved;
  replace_account_group_block_reason l g s := reserved l g;
|}.
#[export] Instance ledgerDocumented : DocumentedAccounts ledger.
Proof.
  split; cbn; unfold ledgerRegister, ledgerRetire, ledgerReason, setCurrency, reserved; intros.
  - destruct (g =? 0)%Z; [done|]. by destruct (grouped e l).
  - by destruct (g =? 0)%Z.
  - by destruct (lg_blocked e !! a).
  - by destruct (isEmpty s).
  - by destruct (isEmpty s).
  - by destruct (pb_code b =? 0)%Z.
  - by destruct (lg_blocked e !! a).
  - by destruct (g =? 0)%Z.
  - by destruct (g =? 0)%Z.
  - by destruct (g =? 0)%Z.
  - by eexists.
  - by eexists.
  - by eexists.
  - by eexists.
  - by eexists.
Qed.

(** Account 7 is in group 3, account 8 is blocked. *)
Definition demoLedger : ledger := mkLedger {[7%Z := 3%Z]} {[8%Z := "limit"]} ∅.
(** A registration that conflicts, a retirement with an unreadable refusal, and a
    currency and a block for a group that was never initialized. *)
Lemma accounts_calls_are_native_calls_witness :
  let w := noNatives demoLedger in
  ends (runAccounts (OpRegisterGroup [9; 7]%Z (NewAccountGroupIDFromHandle 4))) w demoLedger
    (Ret (Answer (Some (AEGroup (mkAccountGroupError "already in a group" 7%Z (Some (NewAccountGroupIDFromHandle 3))))))) /\
  ends (runAccounts (OpRetireAccount 8%Z)) w demoLedger (Ret (Answer (Some (AEPlain (noKind 1))))) /\
  ends (runAccounts (OpSetGroupCurrency uninitializedGroup "USD")) w demoLedger
    (Ret (Answer (Some (AEPlain ErrUninitializedAccountGroupID)))) /\
  exists err, refusesUnset (OpBlockGroup uninitializedGroup "limit") err /\
    ends (runAccounts (OpBlockGroup uninitializedGroup "limit")) w demoLedger (Ret (Answer (Some err))).
Proof.
  split; [|split; [|split]].
  - exact (proj1 (accounts_calls_are_native_calls (OpRegisterGroup [9; 7]%Z (NewAccountGroupIDFromHandle 4)) (noNatives demoLedger) (noNatives_ok demoLedger))).
  - exact (proj1 (accounts_calls_are_native_calls (OpRetireAccount 8%Z) (noNatives demoLedger) (noNatives_ok demoLedger))).
  - exact (proj1 (accounts_calls_are_native_calls (OpSetGroupCurrency uninitializedGroup "USD") (noNatives demoLedger) (noNatives_ok demoLedger))).
  - exact (proj2 (accounts_calls_are_native_calls (OpBlockGroup uninitializedGroup "limit") (noNatives demoLedger) (noNatives_ok demoLedger)) eq_refl).
Defined.
