(* ===== verification/Lock.v ===== *)
(** * Pre-trade locks

    pretrade/lock.go over internal/native/pre_trade_lock.go and bytes.go. A Go [Lock] is
    a byte string; every method decodes it into a native lock, works on that and destroys
    it on every path, together with the byte and text objects and the lists it asked for.
    Native locks and their encodings are a class of functions.

    A [[]byte] is its bytes: nil and empty ones are both the empty string, which the code
    does not tell apart. Encodings are assumed shorter than [2^31] bytes, the length that
    [C.GoBytes] takes. *)
From Stdlib Require Import ZArith Lia.
From stdpp Require Import base list gmap strings.
From S2P Require Import Prelude GoRuntime NativeErrors NativeObjects ParamValues.

Record PretradePreTradeLockEntry := mkNativeEntry { ne_policy_group_id : Z; ne_price : ParamPrice }.
Inductive lockObject (L : Type) :=
| OLock (l : L)
| OBytes (b : string)
| OPrices (prices : list ParamPrice)
| OEntries (entries : list PretradePreTradeLockEntry).
Arguments OLock {L} l.
Arguments OBytes {L} b.
Arguments OPrices {L} prices.
Arguments OEntries {L} entries.

Definition PricesStatus_Empty : Z := 1.
Definition PricesStatus_One : Z := 2.
Definition PricesStatus_List : Z := 3.
Definition PricesStatus_Error : Z := 0.

(** What the native library does with a lock; a failure may write a text. *)
Class NativeLocks (L : Type) := {
  lock_empty : L;
  lock_from_raw : string -> L + option string;
  lock_from_msgpack : string -> L + option string;
  lock_from_json : string -> L + option string;
  lock_from_cbor : string -> L + option string;
  lock_from_entries : list PretradePreTradeLockEntry -> L + option string;
  lock_len : L -> Z;
  lock_is_empty : L -> bool;
  lock_push_many : L -> list PretradePreTradeLockEntry -> L * (bool * option string);
  lock_merge : L -> L -> L * (bool * option string);
  (** The status, the price, the list and the text that were written. *)
  lock_prices_of : L -> Z -> Z * ParamPrice * option (list ParamPrice) * option string;
  lock_entries : L -> list PretradePreTradeLockEntry;
  lock_to_raw : L -> string;
  lock_to_msgpack : L -> string + option string;
  lock_to_json : L -> string + option string;
  lock_to_cbor : L -> string + option string;
}.

Section Lock.
Context {L : Type} `{!NativeLocks L}.
Abbreviation LW := (M (Natives (lockObject L) unit)).

Definition asLock (o : lockObject L) := match o with OLock l => Some l | _ => None end.
Definition asBytes (o : lockObject L) := match o with OBytes b => Some b | _ => None end.
Definition asPrices (o : lockObject L) := match o with OPrices p => Some p | _ => None end.
Definition asEntries (o : lockObject L) := match o with OEntries e => Some e | _ => None end.

(** ** internal/native *)

Definition CreatePretradePreTradeLock : LW Z := createObject (OLock lock_empty).
(** A constructor: the handle, or nil and the text that was written. *)
Definition createLock (fallback : string) (r : L + option string) : LW (option Z * option error) :=
  let* (lock, outError) :=
    match r with
    | inl l => let* h := createObject (OLock l) in ret (Some h, None)
    | inr message => let* m := onHeap (allocString message) in ret (None, m)
    end in
  match lock with
  | None => let* err := onHeap (consumeSharedStringAsError outError fallback) in ret (None, Some err)
  | Some lock => ret (Some lock, None)
  end.
Definition CreatePretradePreTradeLockFromRaw (data : string) : LW (option Z * option error) :=
  createLock "openpit_create_pretrade_pre_trade_lock_from_raw failed" (lock_from_raw data).
Definition CreatePretradePreTradeLockFromMsgPack (data : string) : LW (option Z * option error) :=
  createLock "openpit_create_pretrade_pre_trade_lock_from_msgpack failed" (lock_from_msgpack data).
Definition CreatePretradePreTradeLockFromJSON (text : string) : LW (option Z * option error) :=
  createLock "openpit_create_pretrade_pre_trade_lock_from_json failed" (lock_from_json text).
Definition CreatePretradePreTradeLockFromCBOR (data : string) : LW (option Z * option error) :=
  createLock "openpit_create_pretrade_pre_trade_lock_from_cbor failed" (lock_from_cbor data).
Definition CreatePretradePreTradeLockFromEntries (entries : list PretradePreTradeLockEntry) : LW (option Z * option error) :=
  createLock "openpit_create_pretrade_pre_trade_lock_from_entries failed" (lock_from_entries entries).
Definition DestroyPretradePreTradeLock (lock : Z) : LW unit := destroyObject lock.
Definition PretradePreTradeLockLen (lock : Z) : LW Z := let* l := project asLock lock in ret (lock_len l).
Definition PretradePreTradeLockIsEmpty (lock : Z) : LW bool := let* l := project asLock lock in ret (lock_is_empty l).
Definition PretradePreTradeLockPushMany (lock : Z) (entries : list PretradePreTradeLockEntry) : LW (option error) :=
  let* l := project asLock lock in
  let '(l, (ok, message)) := lock_push_many l entries in
  writeObject lock (OLock l) ;;;
  let* outError := onHeap (allocString message) in
  if negb ok then
    let* err := onHeap (consumeSharedStringAsError outError "openpit_pretrade_pre_trade_lock_push_many failed") in ret (Some err)
  else ret None.
Definition PretradePreTradeLockMerge (dst src : Z) : LW (option error) :=
  let* d := project asLock dst in
  let* s := project asLock src in
  let '(d, (ok, message)) := lock_merge d s in
  writeObject dst (OLock d) ;;;
  let* outError := onHeap (allocString message) in
  if negb ok then
    let* err := onHeap (consumeSharedStringAsError outError "openpit_pretrade_pre_trade_lock_merge failed") in ret (Some err)
  else ret None.
Definition PretradePreTradeLockPricesOf (lock : Z) (groupID : Z) : LW (list ParamPrice * option error) :=
  let* l := project asLock lock in
  let '(status, price, list, message) := lock_prices_of l groupID in
  let* prices := outObject (OPrices <$> list) in
  let* outError := onHeap (allocString message) in
  if (status =? PricesStatus_Error)%Z then
    match outError with
    | Some _ =>
      let* err := onHeap (consumeSharedStringAsError outError "openpit_pretrade_pre_trade_lock_prices_of failed") in
      ret ([], Some err)
    | None => ret ([], Some (EText "openpit_pretrade_pre_trade_lock_prices_of failed" 0))
    end
  else if (status =? PricesStatus_Empty)%Z then ret ([], None)
  else if (status =? PricesStatus_One)%Z then ret ([price], None)
  else if (status =? PricesStatus_List)%Z then
    match prices with
    | None => ret ([], Some (EText "openpit_pretrade_pre_trade_lock_prices_of returned list status with nil list" 0))
    | Some prices =>
      deferred (destroyObject prices) (let* view := project asPrices prices in ret (view, None))
    end
  else ret ([], Some (EText "openpit_pretrade_pre_trade_lock_prices_of returned unknown status" 0)).
Definition PretradePreTradeLockEntriesOf (lock : Z) : LW (list PretradePreTradeLockEntry) :=
  let* l := project asLock lock in
  let* entries := createObject (OEntries (lock_entries l)) in
  deferred (destroyObject entries) (project asEntries entries).
Definition PretradePreTradeLockToRaw (lock : Z) : LW Z :=
  let* l := project asLock lock in createObject (OBytes (lock_to_raw l)).
(** An encoder into bytes: the handle, or nil and the text that was written. *)
Definition encodeBytes (fallback : string) (encode : L -> string + option string) (lock : Z) : LW (option Z * option error) :=
  let* l := project asLock lock in
  match encode l with
  | inr message =>
    let* outError := onHeap (allocString message) in
    let* err := onHeap (consumeSharedStringAsError outError fallback) in ret (None, Some err)
  | inl payload => let* data := createObject (OBytes payload) in ret (Some data, None)
  end.
Definition PretradePreTradeLockToMsgPack : Z -> LW (option Z * option error) :=
  encodeBytes "openpit_pretrade_pre_trade_lock_to_msgpack failed" lock_to_msgpack.
Definition PretradePreTradeLockToCBOR : Z -> LW (option Z * option error) :=
  encodeBytes "openpit_pretrade_pre_trade_lock_to_cbor failed" lock_to_cbor.
Definition PretradePreTradeLockToJSON (lock : Z) : LW (option Z * option error) :=
  let* l := project asLock lock in
  match lock_to_json l with
  | inr message =>
    let* outError := onHeap (allocString message) in
    let* err := onHeap (consumeSharedStringAsError outError "openpit_pretrade_pre_trade_lock_to_json failed") in ret (None, Some err)
  | inl payload => let* text := onHeap (allocString (Some payload)) in ret (text, None)
  end.
Definition SharedBytesView (handle : Z) : LW string := project asBytes handle.
Definition DestroySharedBytes (handle : Z) : LW unit := destroyObject handle.
Definition SharedStringViewBytes (handle : option Z) : LW string :=
  match handle with None => ret EmptyString | Some h => onHeap (openpit_shared_string_view h) end.
Definition destroySharedString (handle : option Z) : LW unit :=
  match handle with None => ret tt | Some h => onHeap (DestroySharedString h) end.

(** ** lock.go *)

Record PreTradeLock := mkLock { value : string }.
Record Entry := mkEntry { PolicyGroupID : Z; en_Price : Price }.

Definition newEntryHandles (entries : list Entry) : list PretradePreTradeLockEntry :=
  map (fun entry => mkNativeEntry (PolicyGroupID entry) (PriceHandle (en_Price entry))) entries.
Definition newEntriesFromHandles (source : list PretradePreTradeLockEntry) : list Entry :=
  map (fun v => mkEntry (ne_policy_group_id v) (NewPriceFromHandle (ne_price v))) source.
Definition newPricesFromHandles (source : list ParamPrice) : list Price := map NewPriceFromHandle source.

Definition newLockFromHandle (handle : Z) : LW PreTradeLock :=
  let* raw := PretradePreTradeLockToRaw handle in
  let* value := SharedBytesView raw in
  DestroySharedBytes raw ;;;
  ret (mkLock value).
Definition noValue : error := EText "pre-trade lock byte set has no value" 0.
Definition decodeLockBytes (value : string) : LW (option Z * option error) :=
  if isEmpty value then ret (None, Some noValue) else CreatePretradePreTradeLockFromRaw value.

Definition NewLock : LW PreTradeLock :=
  let* handle := CreatePretradePreTradeLock in
  let* result := newLockFromHandle handle in
  DestroyPretradePreTradeLock handle ;;;
  ret result.
Definition NewLockFromBytes (value : string) : PreTradeLock := mkLock value.
(** The body of the constructors from a payload and from entries. *)
Definition restoreLock (create : LW (option Z * option error)) : LW (PreTradeLock * option error) :=
  let* (handle, err) := create in
  match err, handle with
  | None, Some handle =>
    let* result := newLockFromHandle handle in
    DestroyPretradePreTradeLock handle ;;;
    ret (result, None)
  | err, _ => ret (mkLock EmptyString, err)
  end.
Definition NewLockFromMsgPack (payload : string) : LW (PreTradeLock * option error) :=
  restoreLock (CreatePretradePreTradeLockFromMsgPack payload).
Definition NewLockFromJSON (payload : string) : LW (PreTradeLock * option error) :=
  restoreLock (CreatePretradePreTradeLockFromJSON payload).
Definition NewLockFromCBOR (payload : string) : LW (PreTradeLock * option error) :=
  restoreLock (CreatePretradePreTradeLockFromCBOR payload).
Definition NewLockFromEntries (entries : list Entry) : LW (PreTradeLock * option error) :=
  restoreLock (CreatePretradePreTradeLockFromEntries (newEntryHandles entries)).
Definition Bytes (l : PreTradeLock) : string := value l.
Definition Equal (l other : PreTradeLock) : bool := bool_decide (value l = value other).

(** The start of the methods: the lock is decoded, or the error is returned with
    [zero]. *)
Definition decoding {A} (l : PreTradeLock) (zero : A) (k : Z -> LW (A * option error)) : LW (A * option error) :=
  let* (handle, err) := decodeLockBytes (value l) in
  match err, handle with
  | None, Some handle => k handle
  | err, _ => ret (zero, err)
  end.
Definition Len (l : PreTradeLock) : LW (Z * option error) :=
  decoding l 0%Z (fun handle =>
    let* result := PretradePreTradeLockLen handle in
    DestroyPretradePreTradeLock handle ;;;
    ret (result, None)).
Definition LockIsEmpty (l : PreTradeLock) : LW (bool * option error) :=
  decoding l false (fun handle =>
    let* result := PretradePreTradeLockIsEmpty handle in
    DestroyPretradePreTradeLock handle ;;;
    ret (result, None)).
(** The methods on a pointer return the lock it is left with. *)
Definition PushMany (l : PreTradeLock) (entries : list Entry) : LW (PreTradeLock * option error) :=
  decoding l l (fun handle =>
    let* err := PretradePreTradeLockPushMany handle (newEntryHandles entries) in
    match err with
    | Some err => DestroyPretradePreTradeLock handle ;;; ret (l, Some err)
    | None =>
      let* l := newLockFromHandle handle in
      DestroyPretradePreTradeLock handle ;;;
      ret (l, None)
    end).
Definition Merge (l other : PreTradeLock) : LW (PreTradeLock * option error) :=
  decoding l l (fun dst =>
    let* (src, err) := decodeLockBytes (value other) in
    match err, src with
    | None, Some src =>
      let* err := PretradePreTradeLockMerge dst src in
      match err with
      | Some err =>
        DestroyPretradePreTradeLock src ;;;
        DestroyPretradePreTradeLock dst ;;;
        ret (l, Some err)
      | None =>
        DestroyPretradePreTradeLock src ;;;
        let* l := newLockFromHandle dst in
        DestroyPretradePreTradeLock dst ;;;
        ret (l, None)
      end
    | err, _ => DestroyPretradePreTradeLock dst ;;; ret (l, err)
    end).
Definition Entries (l : PreTradeLock) : LW (list Entry * option error) :=
  decoding l [] (fun handle =>
    let* entries := PretradePreTradeLockEntriesOf handle in
    let result := newEntriesFromHandles entries in
    DestroyPretradePreTradeLock handle ;;;
    ret (result, None)).
Definition Prices (l : PreTradeLock) : LW (list Price * option error) :=
  decoding l [] (fun handle =>
    let* entries := PretradePreTradeLockEntriesOf handle in
    DestroyPretradePreTradeLock handle ;;;
    ret (map (fun entry => NewPriceFromHandle (ne_price entry)) entries, None)).
Definition PricesOf (l : PreTradeLock) (groupID : Z) : LW (list Price * option error) :=
  decoding l [] (fun handle =>
    let* (prices, err) := PretradePreTradeLockPricesOf handle groupID in
    DestroyPretradePreTradeLock handle ;;;
    match err with
    | Some err => ret ([], Some err)
    | None => ret (newPricesFromHandles prices, None)
    end).
Definition MarshalJSON (l : PreTradeLock) : LW (string * option error) :=
  decoding l EmptyString (fun handle =>
    let* (payload, err) := PretradePreTradeLockToJSON handle in
    match err with
    | Some err => DestroyPretradePreTradeLock handle ;;; ret (EmptyString, Some err)
    | None =>
      let* result := SharedStringViewBytes payload in
      destroySharedString payload ;;;
      DestroyPretradePreTradeLock handle ;;;
      ret (result, None)
    end).
(** [MarshalMsgpack] and [MarshalCBOR]. *)
Definition marshalBytes (encode : Z -> LW (option Z * option error)) (l : PreTradeLock) : LW (string * option error) :=
  decoding l EmptyString (fun handle =>
    let* (payload, err) := encode handle in
    match err, payload with
    | None, Some payload =>
      let* result := SharedBytesView payload in
      DestroySharedBytes payload ;;;
      DestroyPretradePreTradeLock handle ;;;
      ret (result, None)
    | err, _ => DestroyPretradePreTradeLock handle ;;; ret (EmptyString, err)
    end).
Definition MarshalMsgpack : PreTradeLock -> LW (string * option error) := marshalBytes PretradePreTradeLockToMsgPack.
Definition MarshalCBOR : PreTradeLock -> LW (string * option error) := marshalBytes PretradePreTradeLockToCBOR.
(** The lock is replaced only when the payload was restored. *)
Definition unmarshal (restore : string -> LW (PreTradeLock * option error)) (l : PreTradeLock) (payload : string)
    : LW (PreTradeLock * option error) :=
  let* (restored, err) := restore payload in
  match err with Some err => ret (l, Some err) | None => ret (restored, None) end.
Definition UnmarshalJSON : PreTradeLock -> string -> LW (PreTradeLock * option error) := unmarshal NewLockFromJSON.
Definition UnmarshalMsgpack : PreTradeLock -> string -> LW (PreTradeLock * option error) := unmarshal NewLockFromMsgPack.
Definition UnmarshalCBOR : PreTradeLock -> string -> LW (PreTradeLock * option error) := unmarshal NewLockFromCBOR.
End Lock.
