(* ===== verification/LockFacts.v ===== *)
(** * What a lock method does

    Every method of [Lock] is the same function of the decoded lock, leaves no native
    object on any path, and changes the Go lock only when it succeeds. *)
From Stdlib Require Import ZArith Lia Ascii.
From stdpp Require Import base list gmap strings.
From S2P Require Import Prelude GoRuntime NativeErrors NativeObjects ParamValues Lock.

(** ** What the native functions promise (openpit.h) *)

Definition written {A} (r : A + option string) : Prop := match r with inr None => False | _ => True end.
Definition pricesShape (r : Z * ParamPrice * option (list ParamPrice) * option string) : Prop :=
  let '(status, _, list, message) := r in
  (status = PricesStatus_Error /\ list = None) \/
  (status = PricesStatus_Empty /\ list = None /\ message = None) \/
  (status = PricesStatus_One /\ list = None /\ message = None) \/
  (status = PricesStatus_List /\ is_Some list /\ message = None).
(** The prices that an answer stands for. *)
Definition pricesIn (r : Z * ParamPrice * option (list ParamPrice) * option string) : list ParamPrice + option string :=
  let '(status, price, list, message) := r in
  if (status =? PricesStatus_Error)%Z then inr message
  else if (status =? PricesStatus_One)%Z then inl [price]
  else inl (default [] list).

Class DocumentedLocks (L : Type) `{!NativeLocks L} : Prop := {
  doc_raw b : written (A:=L) (lock_from_raw b);
  doc_msgpack b : written (A:=L) (lock_from_msgpack b);
  doc_json b : written (A:=L) (lock_from_json b);
  doc_cbor b : written (A:=L) (lock_from_cbor b);
  doc_entries es : written (A:=L) (lock_from_entries es);
  doc_push (l : L) es : match snd (lock_push_many l es) with (true, None) | (false, Some _) => True | _ => False end;
  doc_merge (d s : L) : match snd (lock_merge d s) with (true, None) | (false, Some _) => True | _ => False end;
  doc_prices (l : L) g : pricesShape (lock_prices_of l g);
  doc_to_msgpack (l : L) : written (lock_to_msgpack l);
  doc_to_json (l : L) : written (lock_to_json l);
  doc_to_cbor (l : L) : written (lock_to_cbor l);
}.
(** Decoding gives back what was encoded. *)
Class LockCodecs (L : Type) `{!NativeLocks L} : Prop := {
  raw_codec (l : L) : lock_from_raw (lock_to_raw l) = inl l;
  raw_value (l : L) : lock_to_raw l <> EmptyString;
  msgpack_codec (l : L) p : lock_to_msgpack l = inl p -> lock_from_msgpack p = inl l;
  json_codec (l : L) p : lock_to_json l = inl p -> lock_from_json p = inl l;
  cbor_codec (l : L) p : lock_to_cbor l = inl p -> lock_from_cbor p = inl l;
}.

Section Facts.
Context {L : Type} `{!NativeLocks L}.
Abbreviation LW := (M (Natives (lockObject L) unit)).
Abbreviation Wd := (Natives (lockObject L) unit).

(** [m] ends in [o] with exactly the objects [objects]; the engine has no state. *)
Definition leaving {A} (objects : gmap Z (lockObject L)) (m : LW A) (w : Wd) (o : outcome A) : Prop :=
  within objects tt m w o.

Lemma leaving_ret {A} objects (a : A) (w : Wd) : wObjects w = objects -> leaving objects (ret a) w (Ret a).
Proof. intros Eo. apply within_ret; [done|]. by destruct (wEngine w). Qed.
(** A native lock, payload or list at the end of its use. *)
Lemma leaving_destroyed {A} objects h (a : A) (w : Wd) o :
  nativesOk w -> wObjects w !! h = Some o -> delete h (wObjects w) = objects ->
  leaving objects (destroyObject h ;;; ret a) w (Ret a).
Proof. intros K H Ho. eapply within_destroy; [done|done|]. intros w' _ Eo _. apply leaving_ret. by rewrite Eo. Qed.

(** ** Decoding *)

Definition errorText (fallback : string) (m : option string) : error := messageError fallback (default EmptyString m).
Definition decoded (l : PreTradeLock) : L + error :=
  if isEmpty (value l) then inr noValue
  else match lock_from_raw (value l) with
       | inl x => inl x
       | inr m => inr (errorText "openpit_create_pretrade_pre_trade_lock_from_raw failed" m)
       end.

(** What a constructor gives, and what follows it. *)
Lemma leaving_created {A} objects fallback (r : L + option string) (k : option Z * option error -> LW A) (w : Wd) (g : L -> A) (z : error -> A) :
  nativesOk w -> written r ->
  (forall e w', nativesOk w' -> wObjects w' = wObjects w -> leaving objects (k (None, Some e)) w' (Ret (z e))) ->
  (forall x h w', r = inl x -> nativesOk w' -> wObjects w !! h = None -> wObjects w' = <[h := OLock x]> (wObjects w) ->
     leaving objects (k (Some h, None)) w' (Ret (g x))) ->
  leaving objects (bind (createLock fallback r) k) w (Ret (match r with inl x => g x | inr m => z (errorText fallback m) end)).
Proof.
  intros K Hr Hz Hk. unfold createLock. destruct r as [x|[m|]]; [| |done]; do 2 apply within_assoc.
  - apply within_create; [done|]. intros h w' K' Hn Eo _. by apply Hk.
  - apply (within_text objects tt fallback m (fun err => (None, Some err)) k); [done|]. intros w' K' Eo _. by apply Hz.
Qed.

Context `{!DocumentedLocks L}.

(** [decodeLockBytes] and what follows it. *)
Lemma leaving_decoded {A} objects (l : PreTradeLock) (k : option Z * option error -> LW A) g z (w : Wd) :
  nativesOk w ->
  (forall e w', nativesOk w' -> wObjects w' = wObjects w -> leaving objects (k (None, Some e)) w' (Ret (z e))) ->
  (forall x h (w' : Wd), nativesOk w' -> wObjects w !! h = None -> wObjects w' = <[h := OLock x]> (wObjects w) ->
     leaving objects (k (Some h, None)) w' (Ret (g x))) ->
  leaving objects (bind (decodeLockBytes (value l)) k) w (Ret (match decoded l with inl x => g x | inr e => z e end)).
Proof.
  intros K Hz Hk. unfold decodeLockBytes, decoded. destruct (isEmpty (value l)); [by apply Hz|].
  pose proof (leaving_created objects "openpit_create_pretrade_pre_trade_lock_from_raw failed" _ k w g z K (doc_raw (value l)) Hz) as H.
  unfold CreatePretradePreTradeLockFromRaw. destruct (lock_from_raw (value l)); apply H; intros; by eapply Hk.
Qed.
Definition onDecoded {A} (l : PreTradeLock) (zero : A) (g : L -> A * option error) : A * option error :=
  match decoded l with inl x => g x | inr e => (zero, Some e) end.
(** A method: what it does with the decoded lock, which it destroys. *)
Lemma leaving_decoding {A} (l : PreTradeLock) (zero : A) k g (w : Wd) :
  nativesOk w ->
  (forall x h (w' : Wd), nativesOk w' -> wObjects w' !! h = Some (OLock x) -> delete h (wObjects w') = wObjects w ->
     leaving (wObjects w) (k h) w' (Ret (g x))) ->
  leaving (wObjects w) (decoding l zero k) w (Ret (onDecoded l zero g)).
Proof.
  intros K Hk. apply leaving_decoded; [done| |].
  - intros e w' _ Eo. by apply leaving_ret.
  - intros x h w' K' Hn Eo. apply Hk; [done|rewrite Eo; apply lookup_insert_eq|by rewrite Eo, delete_insert_id].
Qed.

(** ** The lock read back *)

Lemma leaving_newLock {A} objects h x (k : PreTradeLock -> LW A) (w : Wd) r :
  nativesOk w -> wObjects w !! h = Some (OLock x) ->
  (forall w', nativesOk w' -> wObjects w' = wObjects w -> leaving objects (k (mkLock (lock_to_raw x))) w' r) ->
  leaving objects (bind (newLockFromHandle h) k) w r.
Proof.
  intros K H Hk. unfold newLockFromHandle, PretradePreTradeLockToRaw. do 2 apply within_assoc.
  eapply within_reader; [done|done|]. apply within_create; [done|]. intros raw w1 K1 Hn Eo1 _.
  assert (wObjects w1 !! raw = Some (OBytes (lock_to_raw x))) as H1 by (rewrite Eo1; apply lookup_insert_eq).
  apply within_assoc. eapply within_reader; [done|done|]. apply within_assoc. eapply within_destroy; [done|done|].
  intros w2 K2 Eo2 _. apply Hk; [done|]. by rewrite Eo2, Eo1, delete_insert_id.
Qed.
(** The lock read back and destroyed. *)
Lemma leaving_replaced {A} objects h x (f : PreTradeLock -> A) (w : Wd) :
  nativesOk w -> wObjects w !! h = Some (OLock x) -> delete h (wObjects w) = objects ->
  leaving objects (let* l := newLockFromHandle h in destroyObject h ;;; ret (f l)) w (Ret (f (mkLock (lock_to_raw x)))).
Proof.
  intros K H Ho. eapply leaving_newLock; [done|done|]. intros w' K' Eo.
  eapply leaving_destroyed; [done|by rewrite Eo|by rewrite Eo].
Qed.
Definition restored (fallback : string) (r : L + option string) : PreTradeLock * option error :=
  match r with
  | inl x => (mkLock (lock_to_raw x), None)
  | inr m => (mkLock EmptyString, Some (errorText fallback m))
  end.
Lemma leaving_restore fallback (r : L + option string) (w : Wd) :
  nativesOk w -> written r -> leaving (wObjects w) (restoreLock (createLock fallback r)) w (Ret (restored fallback r)).
Proof.
  intros K Hr. apply (leaving_created (wObjects w) fallback r _ w (fun x => (mkLock (lock_to_raw x), None)) (fun e => (mkLock EmptyString, Some e))); [done|done|..].
  - intros e w' _ Eo. by apply leaving_ret.
  - intros x h w' _ K' Hn Eo. apply (leaving_replaced _ h x (fun l => (l, None))); [done|rewrite Eo; apply lookup_insert_eq|].
    by rewrite Eo, delete_insert_id.
Qed.

(** ** Every method *)

Inductive format := FMsgPack | FJSON | FCBOR.
Definition fromFormat (f : format) : string -> LW (PreTradeLock * option error) :=
  match f with FMsgPack => NewLockFromMsgPack | FJSON => NewLockFromJSON | FCBOR => NewLockFromCBOR end.
Definition marshalFormat (f : format) : PreTradeLock -> LW (string * option error) :=
  match f with FMsgPack => MarshalMsgpack | FJSON => MarshalJSON | FCBOR => MarshalCBOR end.
Definition unmarshalFormat (f : format) : PreTradeLock -> string -> LW (PreTradeLock * option error) :=
  match f with FMsgPack => UnmarshalMsgpack | FJSON => UnmarshalJSON | FCBOR => UnmarshalCBOR end.

Inductive lockOp : Type -> Type :=
| OpNew : lockOp PreTradeLock
| OpFromEntries (entries : list Entry) : lockOp (PreTradeLock * option error)
| OpFrom (f : format) (payload : string) : lockOp (PreTradeLock * option error)
| OpLen (l : PreTradeLock) : lockOp (Z * option error)
| OpIsEmpty (l : PreTradeLock) : lockOp (bool * option error)
| OpPushMany (l : PreTradeLock) (entries : list Entry) : lockOp (PreTradeLock * option error)
| OpMerge (l other : PreTradeLock) : lockOp (PreTradeLock * option error)
| OpEntries (l : PreTradeLock) : lockOp (list Entry * option error)
| OpPrices (l : PreTradeLock) : lockOp (list Price * option error)
| OpPricesOf (l : PreTradeLock) (group : Z) : lockOp (list Price * option error)
| OpMarshal (f : format) (l : PreTradeLock) : lockOp (string * option error)
| OpUnmarshal (f : format) (l : PreTradeLock) (payload : string) : lockOp (PreTradeLock * option error).
Definition runLock {A} (op : lockOp A) : LW A :=
  match op with
  | OpNew => NewLock
  | OpFromEntries entries => NewLockFromEntries entries
  | OpFrom f payload => fromFormat f payload
  | OpLen l => Len l
  | OpIsEmpty l => LockIsEmpty l
  | OpPushMany l entries => PushMany l entries
  | OpMerge l other => Merge l other
  | OpEntries l => Entries l
  | OpPrices l => Prices l
  | OpPricesOf l group => PricesOf l group
  | OpMarshal f l => marshalFormat f l
  | OpUnmarshal f l payload => unmarshalFormat f l payload
  end.

(** *** The same on decoded locks *)

Definition decodeFormat (f : format) (payload : string) : PreTradeLock * option error :=
  match f with
  | FMsgPack => restored "openpit_create_pretrade_pre_trade_lock_from_msgpack failed" (lock_from_msgpack payload)
  | FJSON => restored "openpit_create_pretrade_pre_trade_lock_from_json failed" (lock_from_json payload)
  | FCBOR => restored "openpit_create_pretrade_pre_trade_lock_from_cbor failed" (lock_from_cbor payload)
  end.
Definition encodedAs (fallback : string) (r : string + option string) : string * option error :=
  match r with inl p => (p, None) | inr m => (EmptyString, Some (errorText fallback m)) end.
Definition encodeFormat (f : format) (x : L) : string * option error :=
  match f with
  | FMsgPack => encodedAs "openpit_pretrade_pre_trade_lock_to_msgpack failed" (lock_to_msgpack x)
  | FJSON => encodedAs "openpit_pretrade_pre_trade_lock_to_json failed" (lock_to_json x)
  | FCBOR => encodedAs "openpit_pretrade_pre_trade_lock_to_cbor failed" (lock_to_cbor x)
  end.
(** A mutator replaces the lock on success and only then. *)
Definition mutated (l : PreTradeLock) (fallback : string) (r : L * (bool * option string)) : PreTradeLock * option error :=
  match r with
  | (x, (true, _)) => (mkLock (lock_to_raw x), None)
  | (_, (false, m)) => (l, Some (errorText fallback m))
  end.
Definition pricesAnswer (r : Z * ParamPrice * option (list ParamPrice) * option string) : list Price * option error :=
  match pricesIn r with
  | inl prices => (map NewPriceFromHandle prices, None)
  | inr m => ([], Some (errorText "openpit_pretrade_pre_trade_lock_prices_of failed" m))
  end.
Definition lockCall {A} (op : lockOp A) : A :=
  match op with
  | OpNew => mkLock (lock_to_raw lock_empty)
  | OpFromEntries entries =>
      restored "openpit_create_pretrade_pre_trade_lock_from_entries failed" (lock_from_entries (newEntryHandles entries))
  | OpFrom f payload => decodeFormat f payload
  | OpLen l => onDecoded l 0%Z (fun x => (lock_len x, None))
  | OpIsEmpty l => onDecoded l false (fun x => (lock_is_empty x, None))
  | OpPushMany l entries =>
      onDecoded l l (fun x => mutated l "openpit_pretrade_pre_trade_lock_push_many failed" (lock_push_many x (newEntryHandles entries)))
  | OpMerge l other =>
      onDecoded l l (fun d => onDecoded other l (fun s => mutated l "openpit_pretrade_pre_trade_lock_merge failed" (lock_merge d s)))
  | OpEntries l => onDecoded l [] (fun x => (newEntriesFromHandles (lock_entries x), None))
  | OpPrices l => onDecoded l [] (fun x => (map (fun e => NewPriceFromHandle (ne_price e)) (lock_entries x), None))
  | OpPricesOf l group => onDecoded l [] (fun x => pricesAnswer (lock_prices_of x group))
  | OpMarshal f l => onDecoded l EmptyString (encodeFormat f)
  | OpUnmarshal f l payload =>
      match decodeFormat f payload with (l', None) => (l', None) | (_, Some e) => (l, Some e) end
  end.

(** ** Each method *)

(** A query of the decoded lock. *)
Lemma leaving_query {A} (l : PreTradeLock) (zero : A) (q : L -> A) (w : Wd) :
  nativesOk w ->
  leaving (wObjects w) (decoding l zero (fun handle =>
          let* result := (let* x := project asLock handle in ret (q x)) in destroyObject handle ;;; ret (result, None))) w
    (Ret (onDecoded l zero (fun x => (q x, None)))).
Proof.
  intros K. apply (leaving_decoding l zero _ (fun x => (q x, None))); [done|]. intros x h w' K' H Ho.
  eapply within_getter; [done|done|done|]. by eapply leaving_destroyed.
Qed.
Lemma leaving_entries {A} objects h x (k : list PretradePreTradeLockEntry -> LW A) (w : Wd) r :
  nativesOk w -> wObjects w !! h = Some (OLock x) ->
  (forall w', nativesOk w' -> wObjects w' = wObjects w -> leaving objects (k (lock_entries x)) w' r) ->
  leaving objects (bind (PretradePreTradeLockEntriesOf h) k) w r.
Proof.
  intros K H Hk. eapply (within_bind _ tt); [done| |].
  - unfold PretradePreTradeLockEntriesOf. eapply within_reader; [done|done|]. apply within_create; [done|].
    intros e w1 K1 Hn Eo1 _. rewrite <- (delete_insert_id (wObjects w) e (OEntries (lock_entries x))) by done.
    eapply within_deferred; [apply lookup_insert_eq|].
    unfold project. apply (within_then _ (wObjects w1) _ _ _ _ w1 (OEntries (lock_entries x))).
    + unfold readObject. by rewrite Eo1, lookup_insert_eq.
    + split; [done|]. split; [reflexivity|lia].
    + by apply leaving_ret.
  - intros w' K' Eo _. by apply Hk.
Qed.
Lemma leaving_pushMany (l : PreTradeLock) entries (w : Wd) :
  nativesOk w -> leaving (wObjects w) (PushMany l entries) w (Ret (lockCall (OpPushMany l entries))).
Proof.
  intros K. apply leaving_decoding; [done|]. intros x h w' K' H Ho. apply within_assoc.
  eapply within_reader; [done|done|]. pose proof (doc_push x (newEntryHandles entries)) as Hd.
  destruct (lock_push_many x (newEntryHandles entries)) as [y [[] [m|]]]; try done; apply within_assoc;
    (eapply within_write; [done|done|]; intros w2 K2 Eo2 _;
     assert (wObjects w2 !! h = Some (OLock y)) as H2 by (rewrite Eo2; apply lookup_insert_eq);
     assert (delete h (wObjects w2) = wObjects w) as Ho2 by (by rewrite Eo2, delete_insert_eq); apply within_assoc).
  - apply within_no_text. by apply (leaving_replaced _ h y (fun l => (l, None))).
  - apply (within_text _ tt _ m Some); [done|]. intros w3 K3 Eo3 _.
    eapply leaving_destroyed; [done|by rewrite Eo3|by rewrite Eo3].
Qed.
Lemma leaving_merge (l other : PreTradeLock) (w : Wd) :
  nativesOk w -> leaving (wObjects w) (Merge l other) w (Ret (lockCall (OpMerge l other))).
Proof.
  intros K. apply leaving_decoding; [done|]. intros d dst w1 K1 H1 Ho1. apply leaving_decoded; [done|..].
  { intros e w2 K2 Eo2. eapply leaving_destroyed; [done|by rewrite Eo2|by rewrite Eo2]. }
  intros s src w2 K2 Hn Eo2. assert (src <> dst) as Hne by congruence.
  assert (wObjects w2 !! src = Some (OLock s)) as Hs by (rewrite Eo2; apply lookup_insert_eq).
  assert (wObjects w2 !! dst = Some (OLock d)) as Hd by (by rewrite Eo2, lookup_insert_ne).
  assert (delete src (wObjects w2) = wObjects w1) as Ho2 by (by rewrite Eo2, delete_insert_id).
  apply within_assoc. eapply within_reader; [done|done|]. apply within_assoc. eapply within_reader; [done|done|].
  pose proof (doc_merge d s) as Hm.
  destruct (lock_merge d s) as [y [[] [m|]]]; try done; apply within_assoc;
    (eapply within_write; [done|done|]; intros w3 K3 Eo3 _;
     assert (wObjects w3 !! src = Some (OLock s)) as Hs3 by (by rewrite Eo3, lookup_insert_ne);
     assert (delete src (wObjects w3) = <[dst := OLock y]> (wObjects w1)) as Ho3 by (by rewrite Eo3, delete_insert_ne, Ho2);
     apply within_assoc).
  - apply within_no_text. eapply within_destroy; [done|done|]. intros w4 K4 Eo4 _. rewrite Ho3 in Eo4.
    apply (leaving_replaced _ dst y (fun l => (l, None))); [done|rewrite Eo4; apply lookup_insert_eq|].
    by rewrite Eo4, delete_insert_eq.
  - apply (within_text _ tt _ m Some); [done|]. intros w4 K4 Eo4 _. rewrite <- Eo4 in Hs3, Ho3.
    eapply within_destroy; [done|done|]. intros w5 K5 Eo5 _. rewrite Ho3 in Eo5.
    eapply leaving_destroyed; [done|rewrite Eo5; apply lookup_insert_eq|by rewrite Eo5, delete_insert_eq].
Qed.
Lemma leaving_pricesOf (l : PreTradeLock) group (w : Wd) :
  nativesOk w -> leaving (wObjects w) (PricesOf l group) w (Ret (lockCall (OpPricesOf l group))).
Proof.
  intros K. apply leaving_decoding; [done|]. intros x h w1 K1 H1 Ho1.
  unfold PretradePreTradeLockPricesOf. apply within_assoc. eapply within_reader; [done|done|].
  pose proof (doc_prices x group) as Hd. unfold pricesAnswer, pricesIn.
  destruct (lock_prices_of x group) as [[[status price] list] message].
  destruct Hd as [[-> ->]|[(-> & -> & ->)|[(-> & -> & ->)|(-> & [ps ->] & ->)]]]; apply within_assoc;
    cbn [fmap option_fmap option_map outObject].
  - destruct message as [m|]; apply within_assoc.
    + apply (within_handle _ _ m _ (fun o =>
        bind (let* err := onHeap (consumeSharedStringAsError o "openpit_pretrade_pre_trade_lock_prices_of failed") in ret ([], Some err))
          (fun '(prices, err) => destroyObject h ;;;
             match err with Some err => ret ([], Some err) | None => ret (newPricesFromHandles prices, None) end)));
        [done|].
      apply (within_text _ tt "openpit_pretrade_pre_trade_lock_prices_of failed" m (fun err => ([], Some err))); [done|].
      intros w2 K2 Eo2 _. eapply leaving_destroyed; [done|by rewrite Eo2|by rewrite Eo2].
    + apply within_no_text. by eapply leaving_destroyed.
  - apply within_assoc, within_no_text. by eapply leaving_destroyed.
  - apply within_assoc, within_no_text. by eapply leaving_destroyed.
  - apply within_assoc, within_create; [done|]. intros p w2 K2 Hn Eo2 _. apply within_assoc, within_no_text.
    assert (wObjects w2 !! p = Some (OPrices ps)) as Hp by (rewrite Eo2; apply lookup_insert_eq).
    eapply (within_seq _ (delete p (wObjects w2)) tt); [done|apply delete_subseteq|..].
    + eapply within_deferred; [done|]. eapply within_reader; [done|done|]. by apply leaving_ret.
    + intros w3 K3 Eo3 _. rewrite Eo2, delete_insert_id in Eo3 by done.
      eapply leaving_destroyed; [done|by rewrite Eo3|by rewrite Eo3].
Qed.
(** *** Payloads *)

Lemma leaving_bytes fallback (encode : L -> string + option string) (l : PreTradeLock) (w : Wd) :
  nativesOk w -> (forall x, written (encode x)) ->
  leaving (wObjects w) (marshalBytes (encodeBytes fallback encode) l) w
    (Ret (onDecoded l EmptyString (fun x => encodedAs fallback (encode x)))).
Proof.
  intros K Hw. apply leaving_decoding; [done|]. intros x h w1 K1 H1 Ho1. unfold encodeBytes.
  apply within_assoc. eapply within_reader; [done|done|]. specialize (Hw x). destruct (encode x) as [p|[m|]]; [| |done].
  - apply within_assoc, within_create; [done|]. intros b w2 K2 Hn Eo2 _.
    assert (wObjects w2 !! b = Some (OBytes p)) as Hb by (rewrite Eo2; apply lookup_insert_eq).
    eapply within_reader; [done|done|]. eapply within_destroy; [done|done|]. intros w3 K3 Eo3 _.
    rewrite Eo2, delete_insert_id in Eo3 by done. eapply leaving_destroyed; [done|by rewrite Eo3|by rewrite Eo3].
  - apply within_assoc, (within_text _ tt fallback m (fun err => (None, Some err))); [done|]. intros w2 K2 Eo2 _.
    eapply leaving_destroyed; [done|by rewrite Eo2|by rewrite Eo2].
Qed.
(** A text that is read and released. *)
Lemma leaving_payload {A} objects p (k : string -> LW A) (w : Wd) r :
  nativesOk w -> (forall w', nativesOk w' -> wObjects w' = wObjects w -> leaving objects (k p) w' r) ->
  leaving objects (let* o := onHeap (allocString (Some p)) in
    let* v := SharedStringViewBytes o in destroySharedString o ;;; k v) w r.
Proof.
  intros K Hk. set (h := nextObject (wHeap w)).
  set (h1 := mkNativeHeap (h + 1) (paramErrors (wHeap w)) (<[h := p]> (sharedStrings (wHeap w)))).
  set (h2 := mkNativeHeap (h + 1) (paramErrors (wHeap w)) (delete h (<[h := p]> (sharedStrings (wHeap w))))).
  assert (leaves w (setHeap w h2) (wObjects w)) as L2.
  { split; [done|]. split; [|cbn; lia]. split; [done|]. split; [|cbn; unfold h; lia]. cbn. rewrite delete_insert_eq. apply delete_id.
    destruct K as [[_ K] _]. destruct (sharedStrings (wHeap w) !! h) eqn:Eh; [|done]. specialize (K h ltac:(by eexists)). unfold h in *. lia. }
  destruct (Hk (setHeap w h2)) as (w' & Ew & He & L3); [by eapply leaves_ok|done|].
  exists w'. split; [|split; [done|by eapply leaves_trans]]. rewrite <- Ew. unfold bind at 1, onHeap at 1, allocString. fold h.
  unfold bind, SharedStringViewBytes, destroySharedString, onHeap, openpit_shared_string_view, DestroySharedString. cbn.
  rewrite lookup_insert_eq. cbn. by rewrite lookup_insert_eq.
Qed.
Lemma leaving_json (l : PreTradeLock) (w : Wd) :
  nativesOk w -> leaving (wObjects w) (MarshalJSON l) w (Ret (lockCall (OpMarshal FJSON l))).
Proof.
  intros K. apply leaving_decoding; [done|]. intros x h w1 K1 H1 Ho1. cbn [encodeFormat]. unfold encodedAs.
  apply within_assoc. eapply within_reader; [done|done|]. pose proof (doc_to_json x) as Hw. destruct (lock_to_json x) as [p|[m|]]; [| |done].
  - apply within_assoc.
    apply (leaving_payload _ p (fun result => destroyObject h ;;; ret (result, None))); [done|].
    intros w2 K2 Eo2. eapply leaving_destroyed; [done|by rewrite Eo2|by rewrite Eo2].
  - apply within_assoc, (within_text _ tt "openpit_pretrade_pre_trade_lock_to_json failed" m (fun err => (None, Some err))); [done|].
    intros w2 K2 Eo2 _. eapply leaving_destroyed; [done|by rewrite Eo2|by rewrite Eo2].
Qed.
Lemma leaving_from f payload (w : Wd) :
  nativesOk w -> leaving (wObjects w) (fromFormat f payload) w (Ret (decodeFormat f payload)).
Proof. intros K. destruct f; (apply leaving_restore; [done|]); [apply doc_msgpack|apply doc_json|apply doc_cbor]. Qed.
Lemma leaving_unmarshal f l payload (w : Wd) :
  nativesOk w -> leaving (wObjects w) (unmarshalFormat f l payload) w (Ret (lockCall (OpUnmarshal f l payload))).
Proof.
  intros K. assert (leaving (wObjects w) (unmarshal (fromFormat f) l payload) w (Ret (lockCall (OpUnmarshal f l payload)))) as H.
  { eapply (within_bind _ tt); [done|by apply leaving_from|]. intros w' _ Eo _. cbn [lockCall].
    destruct (decodeFormat f payload) as [l' [e|]]; by apply leaving_ret. }
  by destruct f.
Qed.

(** C14: every constructor and method of a lock is the same function of the decoded lock:
    it never panics, on each path (a lock without bytes, bytes that do not decode, a
    refused mutation, a failed encoding) every native lock, list, payload and error text
    it was given is destroyed once, and the lock is replaced by an accepted change and by
    nothing else; [Merge] leaves the other lock alone. *)
Theorem lock_calls_leave_nothing {A} (op : lockOp A) (w : Wd) :
  nativesOk w -> leaving (wObjects w) (runLock op) w (Ret (lockCall op)).
Proof.
  intros K. destruct op; cbn [runLock].
  - apply within_create; [done|]. intros h w1 K1 Hn Eo1 _. apply (leaving_replaced _ h lock_empty id); [done|..].
    + rewrite Eo1. apply lookup_insert_eq.
    + by rewrite Eo1, delete_insert_id.
  - apply leaving_restore; [done|apply doc_entries].
  - by apply leaving_from.
  - by apply leaving_query.
  - by apply leaving_query.
  - by apply leaving_pushMany.
  - by apply leaving_merge.
  - apply (leaving_decoding l [] _ (fun x => (newEntriesFromHandles (lock_entries x), None))); [done|]. intros x h w1 K1 H1 Ho1.
    eapply leaving_entries; [done|done|]. intros w2 K2 Eo2. eapply leaving_destroyed; [done|by rewrite Eo2|by rewrite Eo2].
  - apply (leaving_decoding l [] _ (fun x => (map (fun e => NewPriceFromHandle (ne_price e)) (lock_entries x), None))); [done|].
    intros x h w1 K1 H1 Ho1.
    eapply leaving_entries; [done|done|]. intros w2 K2 Eo2. eapply leaving_destroyed; [done|by rewrite Eo2|by rewrite Eo2].
  - by apply leaving_pricesOf.
  - destruct f; [apply leaving_bytes; [done|apply doc_to_msgpack]|by apply leaving_json|apply leaving_bytes; [done|apply doc_to_cbor]].
  - by apply leaving_unmarshal.
Qed.

(** ** Encodings *)

(** A lock of the library, marshalled and then unmarshalled into another. *)
Definition transfer (f : format) (l l0 : PreTradeLock) : LW (PreTradeLock * option error) :=
  let* (payload, err) := marshalFormat f l in
  match err with Some err => ret (l0, Some err) | None => unmarshalFormat f l0 payload end.

(** C35: a lock that the library made survives each of the three encodings: what
    [MarshalJSON], [MarshalMsgpack] or [MarshalCBOR] gives, the matching unmarshaller
    reads back as the same bytes, so that both locks are equal; when the encoder fails
    the other lock is unchanged; no native object stays behind. *)
Theorem lock_survives_encoding `{!LockCodecs L} (f : format) (x : L) (l0 : PreTradeLock) (w : Wd) :
  nativesOk w ->
  let l := mkLock (lock_to_raw x) in
  leaving (wObjects w) (transfer f l l0) w
    (Ret (match snd (encodeFormat f x) with Some err => (l0, Some err) | None => (l, None) end)).
Proof.
  intros K l. assert (decoded l = inl x) as Hl.
  { unfold decoded, l. cbn [value]. unfold isEmpty. rewrite bool_decide_eq_false_2 by apply raw_value. by rewrite raw_codec. }
  eapply (within_bind _ tt); [done|exact (lock_calls_leave_nothing (OpMarshal f l) w K)|]. intros w1 K1 Eo1 _.
  cbn [lockCall]. unfold onDecoded. rewrite Hl. destruct (encodeFormat f x) as [p err] eqn:Ef. cbn [snd].
  destruct err as [err|]; [by apply leaving_ret|]. rewrite <- Eo1.
  assert (lockCall (OpUnmarshal f l0 p) = (l, None)) as <-; [|exact (lock_calls_leave_nothing (OpUnmarshal f l0 p) w1 K1)].
  cbn [lockCall]. destruct f; cbn [encodeFormat decodeFormat] in *; unfold encodedAs in Ef; unfold restored.
  - destruct (lock_to_msgpack x) eqn:E; [|done]. injection Ef as <-. by rewrite (msgpack_codec _ _ E).
  - destruct (lock_to_json x) eqn:E; [|done]. injection Ef as <-. by rewrite (json_codec _ _ E).
  - destruct (lock_to_cbor x) eqn:E; [|done]. injection Ef as <-. by rewrite (cbor_codec _ _ E).
Qed.
End Facts.

(** ** A concrete lock *)

(** Prices of one byte, all in group 0; a letter marks the encoding. *)
Definition unmark (mark : ascii) (s : string) : string + option string :=
  match s with
  | String c rest => if Ascii.eqb c mark then inl rest else inr (Some "malformed lock")
  | EmptyString => inr (Some "malformed lock")
  end.
Definition bytePrice (c : ascii) : ParamPrice := mkDecimal (Z.of_N (N_of_ascii c)) 0 0.
Definition byteEntries (s : string) : list PretradePreTradeLockEntry :=
  map (fun c => mkNativeEntry 0 (bytePrice c)) (String.list_ascii_of_string s).
Definition byteOf (e : PretradePreTradeLockEntry) : option ascii :=
  if (ne_policy_group_id e =? 0)%Z && (mantissa_hi (ne_price e) =? 0)%Z
  then Some (ascii_of_N (Z.to_N (mantissa_lo (ne_price e)))) else None.
Definition bytesOf (es : list PretradePreTradeLockEntry) : string + option string :=
  match mapM byteOf es with Some cs => inl (String.string_of_list_ascii cs) | None => inr (Some "price out of range") end.

#[export] Instance byteLocks : NativeLocks string := {|
  lock_empty := EmptyString;
  lock_from_raw := unmark "r"; lock_from_msgpack := unmark "m"; lock_from_json := unmark "j"; lock_from_cbor := unmark "c";
  lock_from_entries := bytesOf;
  lock_len s := Z.of_nat (String.length s);
  lock_is_empty s := isEmpty s;
  lock_push_many s es := match bytesOf es with inl t => (s +:+ t, (true, None)) | inr m => (s, (false, m)) end;
  lock_merge d s := (d +:+ s, (true, None));
  lock_prices_of s g :=
    if (g =? 0)%Z then
      match String.list_ascii_of_string s with
      | [] => (PricesStatus_Empty, zeroDecimal, None, None)
      | [c] => (PricesStatus_One, bytePrice c, None, None)
      | cs => (PricesStatus_List, zeroDecimal, Some (map bytePrice cs), None)
      end
    else (PricesStatus_Empty, zeroDecimal, None, None);
  lock_entries := byteEntries;
  lock_to_raw s := String "r" s;
  lock_to_msgpack s := inl (String "m" s); lock_to_json s := inl (String "j" s);
  lock_to_cbor s := if (String.length s =? 0)%nat then inr (Some "empty lock") else inl (String "c" s);
|}.
Lemma unmark_written mark s : written (unmark mark s).
Proof. destruct s as [|c s]; cbn; [done|]. by destruct (Ascii.eqb c mark). Qed.
#[export] Instance byteDocumented : DocumentedLocks string.
Proof.
  split; intros; try apply unmark_written; cbn; try done.
  - unfold bytesOf. by destruct (mapM byteOf es).
  - unfold bytesOf. by destruct (mapM byteOf es).
  - unfold pricesShape. destruct (g =? 0)%Z; [|by right; left].
    destruct (String.list_ascii_of_string l) as [|c [|c' cs]]; [by right; left|by right; right; left|].
    right; right; right. by repeat split.
  - by destruct (_ =? 0)%nat.
Qed.
#[export] Instance byteCodecs : LockCodecs string.
Proof.
  split; cbn; try done.
  - by intros l p [= <-].
  - by intros l p [= <-].
  - intros l p. destruct (_ =? 0)%nat; [done|]. by intros [= <-].
Qed.

(** A merge of two locks, a refused push, bytes that do not decode and a lock without
    bytes. *)
Lemma lock_calls_leave_nothing_witness :
  let w := noNatives tt in
  leaving ∅ (runLock (OpMerge (mkLock "rA") (mkLock "rB"))) w (Ret (mkLock "rAB", None)) /\
  leaving ∅ (runLock (OpPushMany (mkLock "rA") [mkEntry 1 zeroDecimal])) w
    (Ret (mkLock "rA", Some (EText "price out of range" 0))) /\
  leaving ∅ (runLock (OpMerge (mkLock "rA") (mkLock "x"))) w (Ret (mkLock "rA", Some (EText "malformed lock" 0))) /\
  leaving ∅ (runLock (OpLen (NewLockFromBytes EmptyString))) w (Ret (0%Z, Some noValue)).
Proof.
  split; [|split; [|split]].
  - exact (lock_calls_leave_nothing (OpMerge (mkLock "rA") (mkLock "rB")) (noNatives tt) (noNatives_ok tt)).
  - exact (lock_calls_leave_nothing (OpPushMany (mkLock "rA") [mkEntry 1 zeroDecimal]) (noNatives tt) (noNatives_ok tt)).
  - exact (lock_calls_leave_nothing (OpMerge (mkLock "rA") (mkLock "x")) (noNatives tt) (noNatives_ok tt)).
  - exact (lock_calls_leave_nothing (OpLen (NewLockFromBytes EmptyString)) (noNatives tt) (noNatives_ok tt)).
Defined.
Lemma lock_survives_encoding_witness :
  let w := noNatives tt in
  leaving ∅ (transfer FJSON (mkLock "rAB") (mkLock "rC")) w (Ret (mkLock "rAB", None)) /\
  leaving ∅ (transfer FCBOR (mkLock "r") (mkLock "rC")) w (Ret (mkLock "rC", Some (EText "empty lock" 0))).
Proof.
  split.
  - exact (lock_survives_encoding FJSON "AB" (mkLock "rC") (noNatives tt) (noNatives_ok tt)).
  - exact (lock_survives_encoding FCBOR EmptyString (mkLock "rC") (noNatives tt) (noNatives_ok tt)).
Defined.
