(* ===== verification/Outcomes.v ===== *)
(** * Outcomes of account adjustments

    accountadjustment/outcome.go and pnl.go, the records of
    internal/native/account_outcome.go they are written to and read from, and the
    collectors of pretrade/result.go that a policy pushes them into.

    The view of an asset is its text, the unset view the empty text; [NativeMem] has the
    memory. *)
From Stdlib Require Import ZArith Lia.
From stdpp Require Import base list gmap strings pretty.
From S2P Require Import Prelude GoRuntime NativeErrors NativeObjects ParamValues NativeParam NumericTypes Rejects.

(** ** internal/native *)

Record OpenPitOutcomeAmount := mkNativeAmount { oa_delta : ParamPositionSize; oa_absolute : ParamPositionSize }.
Record OpenPitPnlOutcomeAmount := mkNativePnlAmount { po_delta : ParamPnl; po_absolute : ParamPnl }.
Record OpenPitPnlOutcome := mkNativePnlOutcome {
  po_halt_reason : PnlHaltReason; po_amount : COptional OpenPitPnlOutcomeAmount;
}.
Record OpenPitAccountPnlOutcome := mkNativeAccountPnl {
  ap_account_id : Z; ap_policy_group_id : Z; ap_halt_reason : PnlHaltReason; ap_amount : COptional OpenPitPnlOutcomeAmount;
}.
Record OpenPitAccountOutcomeEntry := mkNativeOutcomeEntry {
  oe_asset : string;
  oe_balance : COptional OpenPitOutcomeAmount;
  oe_held : COptional OpenPitOutcomeAmount;
  oe_incoming : COptional OpenPitOutcomeAmount;
  oe_realized_pnl : COptional OpenPitPnlOutcome;
  oe_average_entry_price : ParamPriceOptional;
}.
Record OpenPitAccountAdjustmentOutcome := mkNativeOutcome {
  ao_policy_group_id : Z; ao_entry : OpenPitAccountOutcomeEntry;
}.
Definition zeroAmount : OpenPitOutcomeAmount := mkNativeAmount zeroDecimal zeroDecimal.
Definition zeroPnlAmount : OpenPitPnlOutcomeAmount := mkNativePnlAmount zeroDecimal zeroDecimal.
Definition zeroPnlOutcome : OpenPitPnlOutcome := mkNativePnlOutcome PnlHaltReasonNone (zeroCOptional zeroPnlAmount).
Definition zeroEntry : OpenPitAccountOutcomeEntry :=
  mkNativeOutcomeEntry EmptyString (zeroCOptional zeroAmount) (zeroCOptional zeroAmount) (zeroCOptional zeroAmount)
    (zeroCOptional zeroPnlOutcome) (zeroCOptional zeroDecimal).

Definition NativeNewOutcomeAmount (delta absolute : ParamPositionSize) : OpenPitOutcomeAmount := mkNativeAmount delta absolute.
Definition OutcomeAmountGetDelta (amount : OpenPitOutcomeAmount) : ParamPositionSize := oa_delta amount.
Definition OutcomeAmountGetAbsolute (amount : OpenPitOutcomeAmount) : ParamPositionSize := oa_absolute amount.
Definition NewOutcomeAmountOptionalSet (v : OpenPitOutcomeAmount) : COptional OpenPitOutcomeAmount := mkCOptional v true.
Definition NewOutcomeAmountOptionalUnset : COptional OpenPitOutcomeAmount := zeroCOptional zeroAmount.
Definition OutcomeAmountOptionalIsSet (o : COptional OpenPitOutcomeAmount) : bool := c_is_set o.
Definition OutcomeAmountOptionalGet (o : COptional OpenPitOutcomeAmount) : OpenPitOutcomeAmount := c_value o.
Definition NativeNewPnlOutcomeAmount (delta absolute : ParamPnl) : OpenPitPnlOutcomeAmount := mkNativePnlAmount delta absolute.
Definition PnlOutcomeAmountGetDelta (amount : OpenPitPnlOutcomeAmount) : ParamPnl := po_delta amount.
Definition PnlOutcomeAmountGetAbsolute (amount : OpenPitPnlOutcomeAmount) : ParamPnl := po_absolute amount.
Definition NewPnlOutcomeAmountOptionalSet (v : OpenPitPnlOutcomeAmount) : COptional OpenPitPnlOutcomeAmount := mkCOptional v true.
Definition NewPnlOutcomeAmountOptionalUnset : COptional OpenPitPnlOutcomeAmount := zeroCOptional zeroPnlAmount.
Definition NativeNewPnlOutcome (haltReason : PnlHaltReason) (amount : COptional OpenPitPnlOutcomeAmount) : OpenPitPnlOutcome :=
  mkNativePnlOutcome haltReason amount.
Definition PnlOutcomeGetHaltReason (outcome : OpenPitPnlOutcome) : PnlHaltReason := po_halt_reason outcome.
Definition PnlOutcomeGetAmount (outcome : OpenPitPnlOutcome) : OpenPitPnlOutcomeAmount := c_value (po_amount outcome).
Definition NewPnlOutcomeOptionalSet (v : OpenPitPnlOutcome) : COptional OpenPitPnlOutcome := mkCOptional v true.
Definition NewPnlOutcomeOptionalUnset : COptional OpenPitPnlOutcome := zeroCOptional zeroPnlOutcome.
Definition PnlOutcomeOptionalIsSet (o : COptional OpenPitPnlOutcome) : bool := c_is_set o.
Definition PnlOutcomeOptionalGet (o : COptional OpenPitPnlOutcome) : OpenPitPnlOutcome := c_value o.
Definition NewParamPriceOptionalSet (v : ParamPrice) : ParamPriceOptional := mkCOptional v true.
Definition NewParamPriceOptionalUnset : ParamPriceOptional := zeroCOptional zeroDecimal.
Definition NativeNewAccountOutcomeEntry (asset : string) (balance held incoming : COptional OpenPitOutcomeAmount)
    (realizedPnl : COptional OpenPitPnlOutcome) (averageEntryPrice : ParamPriceOptional) : OpenPitAccountOutcomeEntry :=
  mkNativeOutcomeEntry asset balance held incoming realizedPnl averageEntryPrice.
Definition AccountOutcomeEntryGetAsset (entry : OpenPitAccountOutcomeEntry) : string := oe_asset entry.
Definition AccountOutcomeEntryGetBalance (entry : OpenPitAccountOutcomeEntry) := oe_balance entry.
Definition AccountOutcomeEntryGetHeld (entry : OpenPitAccountOutcomeEntry) := oe_held entry.
Definition AccountOutcomeEntryGetIncoming (entry : OpenPitAccountOutcomeEntry) := oe_incoming entry.
Definition AccountOutcomeEntryGetRealizedPnl (entry : OpenPitAccountOutcomeEntry) := oe_realized_pnl entry.
Definition AccountOutcomeEntryGetAverageEntryPrice (entry : OpenPitAccountOutcomeEntry) := oe_average_entry_price entry.
Definition NativeNewAccountAdjustmentOutcome (policyGroupID : Z) (entry : OpenPitAccountOutcomeEntry) : OpenPitAccountAdjustmentOutcome :=
  mkNativeOutcome policyGroupID entry.
Definition AccountAdjustmentOutcomeGetPolicyGroupID (outcome : OpenPitAccountAdjustmentOutcome) : Z := ao_policy_group_id outcome.
Definition AccountAdjustmentOutcomeGetEntry (outcome : OpenPitAccountAdjustmentOutcome) : OpenPitAccountOutcomeEntry := ao_entry outcome.
Definition NativeNewAccountPnlOutcome (accountID policyGroupID : Z) (pnl : OpenPitPnlOutcome) : OpenPitAccountPnlOutcome :=
  mkNativeAccountPnl accountID policyGroupID (po_halt_reason pnl) (po_amount pnl).
Definition AccountPnlOutcomeGetAccountID (outcome : OpenPitAccountPnlOutcome) : Z := ap_account_id outcome.
Definition AccountPnlOutcomeGetPolicyGroupID (outcome : OpenPitAccountPnlOutcome) : Z := ap_policy_group_id outcome.
Definition AccountPnlOutcomeGetPnlOutcome (outcome : OpenPitAccountPnlOutcome) : OpenPitPnlOutcome :=
  mkNativePnlOutcome (ap_halt_reason outcome) (ap_amount outcome).
(** A list of the native library, and the zero record for an index it does not have. *)
Definition AccountAdjustmentOutcomeListGet (list : list OpenPitAccountAdjustmentOutcome) (index : nat) : OpenPitAccountAdjustmentOutcome :=
  match list !! index with Some out => out | None => mkNativeOutcome 0 zeroEntry end.
Definition AccountPnlOutcomeListGet (list : list OpenPitAccountPnlOutcome) (index : nat) : OpenPitAccountPnlOutcome :=
  match list !! index with Some out => out | None => mkNativeAccountPnl 0 0 PnlHaltReasonNone (zeroCOptional zeroPnlAmount) end.

(** ** accountadjustment *)

Record OutcomeAmount := mkOutcomeAmount { oa_Delta : PositionSize; oa_Absolute : PositionSize }.
Record PnlOutcomeAmount := mkPnlOutcomeAmount { pa_Delta : Pnl; pa_Absolute : Pnl }.
Record PnlOutcome := mkPnlOutcome { oc_pnl : PnlOutcomeAmount; oc_haltReason : PnlHaltReason }.
Record AccountOutcomeEntry := mkOutcomeEntry {
  oe_Asset : string;
  oe_Balance : option OutcomeAmount;
  oe_Held : option OutcomeAmount;
  oe_Incoming : option OutcomeAmount;
  oe_RealizedPnl : option PnlOutcome;
  oe_AverageEntryPrice : option Price;
}.
Record Outcome := mkOutcome { oc_PolicyGroupID : Z; oc_Entry : AccountOutcomeEntry }.
Record AccountPnlOutcome := mkAccountPnlOutcome { ap_PnlOutcome : PnlOutcome; ap_PolicyGroupID : Z; ap_AccountID : AccountID }.

Definition ErrInvalidPnlHaltReason : error := ESentinel "model: invalid PnL halt reason".
Definition zeroOutcome : PnlOutcome := mkPnlOutcome (mkPnlOutcomeAmount zeroValue zeroValue) PnlHaltReasonNone.
Definition NewPnlOutcome (pnl : PnlOutcomeAmount) : PnlOutcome := mkPnlOutcome pnl PnlHaltReasonNone.
Definition NewPnlHaltedOutcome (reason : PnlHaltReason) : PnlOutcome * option error :=
  if negb (PnlHaltReasonValid reason) then
    (zeroOutcome, Some (EWrap ("model: invalid PnL halt reason: " +:+ pretty reason) ErrInvalidPnlHaltReason))
  else (mkPnlOutcome (mkPnlOutcomeAmount zeroValue zeroValue) reason, None).
Definition IsHalted (o : PnlOutcome) : bool := negb (oc_haltReason o =? PnlHaltReasonNone)%Z.
Definition Amount (o : PnlOutcome) : PnlOutcomeAmount * bool := (oc_pnl o, negb (IsHalted o)).
Definition HaltReason (o : PnlOutcome) : PnlHaltReason * bool := (oc_haltReason o, IsHalted o).
Definition NewAccountPnlOutcome (policyGroupID : Z) (accountID : AccountID) (pnl : PnlOutcomeAmount) : AccountPnlOutcome :=
  mkAccountPnlOutcome (NewPnlOutcome pnl) policyGroupID accountID.
Definition NewAccountPnlHaltedOutcome (policyGroupID : Z) (accountID : AccountID) (reason : PnlHaltReason)
    : AccountPnlOutcome * option error :=
  match NewPnlHaltedOutcome reason with
  | (_, Some err) => (mkAccountPnlOutcome zeroOutcome 0 0%Z, Some err)
  | (pnl, None) => (mkAccountPnlOutcome pnl policyGroupID accountID, None)
  end.

(** *** Writing *)

Definition OutcomeAmountNewHandle (a : OutcomeAmount) : OpenPitOutcomeAmount :=
  NativeNewOutcomeAmount (PositionSizeHandle (oa_Delta a)) (PositionSizeHandle (oa_Absolute a)).
Definition newNativeOutcomeAmountOptional (v : option OutcomeAmount) : COptional OpenPitOutcomeAmount :=
  match v with
  | None => NewOutcomeAmountOptionalUnset
  | Some amount => NewOutcomeAmountOptionalSet (OutcomeAmountNewHandle amount)
  end.
Definition PnlOutcomeAmountNewHandle (a : PnlOutcomeAmount) : OpenPitPnlOutcomeAmount :=
  NativeNewPnlOutcomeAmount (PnlHandle (pa_Delta a)) (PnlHandle (pa_Absolute a)).
Definition newNativeHandle (o : PnlOutcome) : OpenPitPnlOutcome :=
  let amount :=
    if negb (IsHalted o) then NewPnlOutcomeAmountOptionalSet (PnlOutcomeAmountNewHandle (oc_pnl o))
    else NewPnlOutcomeAmountOptionalUnset in
  NativeNewPnlOutcome (oc_haltReason o) amount.
Definition newNativePnlOutcomeOptional (v : option PnlOutcome) : COptional OpenPitPnlOutcome :=
  match v with
  | None => NewPnlOutcomeOptionalUnset
  | Some outcome => NewPnlOutcomeOptionalSet (newNativeHandle outcome)
  end.
Definition newNativeParamPriceOptional (v : option Price) : ParamPriceOptional :=
  match v with
  | None => NewParamPriceOptionalUnset
  | Some price => NewParamPriceOptionalSet (PriceHandle price)
  end.
Definition EntryNewHandle (e : AccountOutcomeEntry) : OpenPitAccountOutcomeEntry :=
  NativeNewAccountOutcomeEntry
    (oe_Asset e)
    (newNativeOutcomeAmountOptional (oe_Balance e))
    (newNativeOutcomeAmountOptional (oe_Held e))
    (newNativeOutcomeAmountOptional (oe_Incoming e))
    (newNativePnlOutcomeOptional (oe_RealizedPnl e))
    (newNativeParamPriceOptional (oe_AverageEntryPrice e)).
Definition OutcomeNewHandle (o : Outcome) : OpenPitAccountAdjustmentOutcome :=
  NativeNewAccountAdjustmentOutcome (oc_PolicyGroupID o) (EntryNewHandle (oc_Entry o)).
Definition AccountPnlNewHandle (o : AccountPnlOutcome) : OpenPitAccountPnlOutcome :=
  NativeNewAccountPnlOutcome (AccountIDHandle (ap_AccountID o)) (ap_PolicyGroupID o) (newNativeHandle (ap_PnlOutcome o)).

(** *** Reading

    A halted outcome is read with two canonical zeros, which the native library makes. *)

Definition NewOutcomeAmountFromHandle (handle : OpenPitOutcomeAmount) : OutcomeAmount :=
  mkOutcomeAmount (NewPositionSizeFromHandle (OutcomeAmountGetDelta handle)) (NewPositionSizeFromHandle (OutcomeAmountGetAbsolute handle)).
Definition NewOutcomeAmountOptionFromHandle (handle : COptional OpenPitOutcomeAmount) : option OutcomeAmount :=
  if negb (OutcomeAmountOptionalIsSet handle) then None
  else Some (NewOutcomeAmountFromHandle (OutcomeAmountOptionalGet handle)).
Definition NewPnlOutcomeAmountFromHandle (handle : OpenPitPnlOutcomeAmount) : PnlOutcomeAmount :=
  mkPnlOutcomeAmount (NewPnlFromHandle (PnlOutcomeAmountGetDelta handle)) (NewPnlFromHandle (PnlOutcomeAmountGetAbsolute handle)).

Section Reading.
Context {F64 : Type} {NP : NativeParam F64}.

Definition NewPnlOutcomeFromHandle (handle : OpenPitPnlOutcome) : N PnlOutcome :=
  let haltReason := PnlOutcomeGetHaltReason handle in
  let* delta := Pnls.NewPnlZero in
  let* absolute := Pnls.NewPnlZero in
  let pnl := mkPnlOutcomeAmount delta absolute in
  let pnl := if (haltReason =? PnlHaltReasonNone)%Z then NewPnlOutcomeAmountFromHandle (PnlOutcomeGetAmount handle) else pnl in
  ret (mkPnlOutcome pnl haltReason).
Definition NewPnlOutcomeOptionFromHandle (handle : COptional OpenPitPnlOutcome) : N (option PnlOutcome) :=
  if negb (PnlOutcomeOptionalIsSet handle) then ret None
  else let* o := NewPnlOutcomeFromHandle (PnlOutcomeOptionalGet handle) in ret (Some o).
(** [NewAssetFromHandle] of an unset view is none, which becomes the zero asset. *)
Definition assetOr (view : string) : string := default EmptyString (if isEmpty view then None else Some view).
Definition NewAccountOutcomeEntryFromHandle (handle : OpenPitAccountOutcomeEntry) : N AccountOutcomeEntry :=
  let asset := assetOr (AccountOutcomeEntryGetAsset handle) in
  let balance := NewOutcomeAmountOptionFromHandle (AccountOutcomeEntryGetBalance handle) in
  let held := NewOutcomeAmountOptionFromHandle (AccountOutcomeEntryGetHeld handle) in
  let incoming := NewOutcomeAmountOptionFromHandle (AccountOutcomeEntryGetIncoming handle) in
  let* realizedPnl := NewPnlOutcomeOptionFromHandle (AccountOutcomeEntryGetRealizedPnl handle) in
  ret (mkOutcomeEntry asset balance held incoming realizedPnl
         (NewPriceOptionFromHandle (AccountOutcomeEntryGetAverageEntryPrice handle))).
Definition NewAccountAdjustmentOutcomeFromHandle (handle : OpenPitAccountAdjustmentOutcome) : N Outcome :=
  let* entry := NewAccountOutcomeEntryFromHandle (AccountAdjustmentOutcomeGetEntry handle) in
  ret (mkOutcome (AccountAdjustmentOutcomeGetPolicyGroupID handle) entry).
Definition NewAccountPnlOutcomeFromHandle (handle : OpenPitAccountPnlOutcome) : N AccountPnlOutcome :=
  let* pnl := NewPnlOutcomeFromHandle (AccountPnlOutcomeGetPnlOutcome handle) in
  ret (mkAccountPnlOutcome pnl (AccountPnlOutcomeGetPolicyGroupID handle) (NewAccountIDFromHandle (AccountPnlOutcomeGetAccountID handle))).

(** The loop over a list from index [i] on, [n] more members. *)
Fixpoint readList {A B} (get : nat -> A) (read : A -> N B) (i n : nat) : N (list B) :=
  match n with
  | O => ret []
  | S n => let* b := read (get i) in let* bs := readList get read (S i) n in ret (b :: bs)
  end.
Definition NewListFromHandle (handle : list OpenPitAccountAdjustmentOutcome) : N (list Outcome) :=
  readList (AccountAdjustmentOutcomeListGet handle) NewAccountAdjustmentOutcomeFromHandle 0 (length handle).
Definition NewAccountPnlListFromHandle (handle : list OpenPitAccountPnlOutcome) : N (list AccountPnlOutcome) :=
  readList (AccountPnlOutcomeListGet handle) NewAccountPnlOutcomeFromHandle 0 (length handle).
End Reading.

(** ** pretrade/result.go

    The collectors of a callback: a push hands the native library a record and returns
    its text when it refuses. *)

Class NativeCollectors (E : Type) := {
  push_lock_price : E -> ParamPrice -> E * (bool * option string);
  push_account_adjustment : E -> OpenPitAccountOutcomeEntry -> E * (bool * option string);
  post_trade_adjustment_push : E -> Z -> OpenPitAccountOutcomeEntry -> E * (bool * option string);
  post_trade_account_pnl_push : E -> OpenPitAccountPnlOutcome -> E * (bool * option string);
  push_account_outcome : E -> OpenPitAccountOutcomeEntry -> E * (bool * option string);
}.

Section Collectors.
Context {E : Type} `{!NativeCollectors E}.
Abbreviation CW := (M (Natives Empty_set E)).

Definition PretradePreTradeResultPushLockPrice (price : ParamPrice) : CW (option error) :=
  let* (ok, message) := native (fun e => push_lock_price e price) in
  let* outError := onHeap (allocString message) in
  if negb ok then
    let* err := onHeap (consumeSharedStringAsError outError "openpit_pretrade_pre_trade_result_push_lock_price failed") in ret (Some err)
  else ret None.
Definition PretradePreTradeResultPushAccountAdjustment (entry : OpenPitAccountOutcomeEntry) : CW (option error) :=
  let* (ok, message) := native (fun e => push_account_adjustment e entry) in
  let* outError := onHeap (allocString message) in
  if negb ok then
    let* err := onHeap (consumeSharedStringAsError outError "openpit_pretrade_pre_trade_result_push_account_adjustment failed") in
    ret (Some err)
  else ret None.
Definition PostTradeAdjustmentListPush (groupID : Z) (entry : OpenPitAccountOutcomeEntry) : CW (option error) :=
  let* (ok, message) := native (fun e => post_trade_adjustment_push e groupID entry) in
  let* outError := onHeap (allocString message) in
  if negb ok then
    let* err := onHeap (consumeSharedStringAsError outError "openpit_pretrade_post_trade_adjustment_list_push failed") in ret (Some err)
  else ret None.
Definition PostTradeAccountPnlListPush (outcome : OpenPitAccountPnlOutcome) : CW (option error) :=
  let* (ok, message) := native (fun e => post_trade_account_pnl_push e outcome) in
  let* outError := onHeap (allocString message) in
  if negb ok then
    let* err := onHeap (consumeSharedStringAsError outError "openpit_pretrade_post_trade_account_pnl_list_push failed") in ret (Some err)
  else ret None.
Definition PretradeAccountAdjustmentResultPushAccountOutcome (entry : OpenPitAccountOutcomeEntry) : CW (option error) :=
  let* (ok, message) := native (fun e => push_account_outcome e entry) in
  let* outError := onHeap (allocString message) in
  if negb ok then
    let* err := onHeap (consumeSharedStringAsError outError "openpit_pretrade_account_adjustment_result_push_account_outcome failed") in
    ret (Some err)
  else ret None.

Definition PushLockPrice (price : Price) : CW (option error) := PretradePreTradeResultPushLockPrice (PriceHandle price).
Definition PushAccountAdjustment (entry : AccountOutcomeEntry) : CW (option error) :=
  PretradePreTradeResultPushAccountAdjustment (EntryNewHandle entry).
Definition PostTradeAdjustmentsPush (groupID : Z) (entry : AccountOutcomeEntry) : CW (option error) :=
  PostTradeAdjustmentListPush groupID (EntryNewHandle entry).
Definition PostTradePnlsPush (outcome : AccountPnlOutcome) : CW (option error) :=
  PostTradeAccountPnlListPush (AccountPnlNewHandle outcome).
Definition AccountOutcomesPush (entry : AccountOutcomeEntry) : CW (option error) :=
  PretradeAccountAdjustmentResultPushAccountOutcome (EntryNewHandle entry).
End Collectors.
