(* ===== verification/OutcomeFacts.v ===== *)
(** * What an outcome keeps

    Outcomes survive the native records, one by one and in lists, up to the amounts of a
    halted one, which nothing reads; a push into a collector is one native call. *)
From Stdlib Require Import ZArith Lia.
From stdpp Require Import base list gmap strings.
From S2P Require Import Prelude GoRuntime NativeErrors NativeObjects ParamValues NativeParam NumericTypes NumericFacts Rejects Outcomes.

(** ** The outcomes that are read *)

(** The amounts of a halted outcome are canonical zeros. *)
Definition canonicalPnl (z : Pnl) (o : PnlOutcome) : PnlOutcome :=
  if IsHalted o then mkPnlOutcome (mkPnlOutcomeAmount z z) (oc_haltReason o) else o.
Definition canonicalEntry (z : Pnl) (e : AccountOutcomeEntry) : AccountOutcomeEntry :=
  mkOutcomeEntry (oe_Asset e) (oe_Balance e) (oe_Held e) (oe_Incoming e) (canonicalPnl z <$> oe_RealizedPnl e) (oe_AverageEntryPrice e).
Definition canonical (z : Pnl) (o : Outcome) : Outcome := mkOutcome (oc_PolicyGroupID o) (canonicalEntry z (oc_Entry o)).
Definition canonicalAccount (z : Pnl) (o : AccountPnlOutcome) : AccountPnlOutcome :=
  mkAccountPnlOutcome (canonicalPnl z (ap_PnlOutcome o)) (ap_PolicyGroupID o) (ap_AccountID o).

(** What the methods of an outcome let a program see. *)
Definition visible (o : PnlOutcome) : PnlOutcomeAmount + PnlHaltReason :=
  match Amount o with (amount, true) => inl amount | _ => inr (fst (HaltReason o)) end.

Lemma canonical_IsHalted z o : IsHalted (canonicalPnl z o) = IsHalted o.
Proof. unfold canonicalPnl. by destruct (IsHalted o) eqn:E. Qed.
Lemma canonical_visible z o : visible (canonicalPnl z o) = visible o.
Proof. unfold visible, Amount, HaltReason. rewrite canonical_IsHalted. unfold canonicalPnl. by destruct (IsHalted o). Qed.
Lemma canonical_handle z o : newNativeHandle (canonicalPnl z o) = newNativeHandle o.
Proof. unfold newNativeHandle. rewrite canonical_IsHalted. unfold canonicalPnl. by destruct (IsHalted o). Qed.
Lemma canonicalEntry_handle z e : EntryNewHandle (canonicalEntry z e) = EntryNewHandle e.
Proof. destruct e as [? ? ? ? [o|] ?]; unfold EntryNewHandle; cbn; by rewrite ?canonical_handle. Qed.
Lemma canonical_same_handle z o : OutcomeNewHandle (canonical z o) = OutcomeNewHandle o.
Proof. unfold OutcomeNewHandle. cbn. by rewrite canonicalEntry_handle. Qed.
Lemma canonicalAccount_handle z o : AccountPnlNewHandle (canonicalAccount z o) = AccountPnlNewHandle o.
Proof. unfold AccountPnlNewHandle. cbn. by rewrite canonical_handle. Qed.

Lemma assetOr_id s : assetOr s = s.
Proof. unfold assetOr, isEmpty. by case_bool_decide as E; [rewrite E|]. Qed.
Lemma amount_roundtrip v : NewOutcomeAmountOptionFromHandle (newNativeOutcomeAmountOptional v) = v.
Proof. by destruct v as [[]|]. Qed.
Lemma price_roundtrip v : NewPriceOptionFromHandle (newNativeParamPriceOptional v) = v.
Proof. by destruct v. Qed.

Section Reading.
Context {F64 : Type} {NP : NativeParam F64}.
(** The native library makes a zero. *)
Context (z : Pnl) (Hz : openpit_create_param_from_int64 KPnl 0 = NativeOk z).

Lemma zero_gives s : heapOk s -> gives Pnls.NewPnlZero s (Ret z).
Proof.
  intros K. exists s. split; [|reflexivity].
  unfold Pnls.NewPnlZero, Pnls.newPnlOrPanic, newParamValueOrPanic, Pnls.NewPnlFromInt64, checked, CreateParamPnlFromInt64.
  by rewrite Hz.
Qed.
Lemma pnl_read o s : heapOk s -> gives (NewPnlOutcomeFromHandle (newNativeHandle o)) s (Ret (canonicalPnl z o)).
Proof.
  intros K. eapply gives_bind; [done|by apply zero_gives|]. intros s1 K1.
  eapply gives_bind; [done|by apply zero_gives|]. intros s2 K2.
  unfold canonicalPnl, newNativeHandle, IsHalted. destruct o as [[d a] r]. cbn.
  destruct (r =? PnlHaltReasonNone)%Z; apply gives_ret.
Qed.
Lemma pnl_option_read o s :
  heapOk s -> gives (NewPnlOutcomeOptionFromHandle (newNativePnlOutcomeOptional o)) s (Ret (canonicalPnl z <$> o)).
Proof.
  intros K. destruct o as [o|]; [|apply gives_ret]. eapply gives_bind; [done|by apply pnl_read|]. intros. apply gives_ret.
Qed.
Lemma outcome_read o s : heapOk s -> gives (NewAccountAdjustmentOutcomeFromHandle (OutcomeNewHandle o)) s (Ret (canonical z o)).
Proof.
  intros K. eapply (gives_bind _ _ s (canonicalEntry z (oc_Entry o))); [done| |intros; apply gives_ret].
  eapply gives_bind; [done|by apply pnl_option_read|]. intros s1 _.
  destruct o as [g e]. cbn -[assetOr]. rewrite assetOr_id, !amount_roundtrip, price_roundtrip. apply gives_ret.
Qed.
Lemma account_read o s : heapOk s -> gives (NewAccountPnlOutcomeFromHandle (AccountPnlNewHandle o)) s (Ret (canonicalAccount z o)).
Proof.
  intros K. eapply (gives_bind _ _ s (canonicalPnl z (ap_PnlOutcome o))); [done|by apply pnl_read|]. intros. apply gives_ret.
Qed.

(** A list that is read index by index is read member by member. *)
Lemma readList_gives {A B} (get : nat -> A) (read : A -> N B) (l : list A) (bs : list B) i s :
  heapOk s -> (forall j a, l !! j = Some a -> get (i + j)%nat = a) ->
  Forall2 (fun a b => forall s, heapOk s -> gives (read a) s (Ret b)) l bs ->
  gives (readList get read i (length l)) s (Ret bs).
Proof.
  intros K Hg H. revert i s K Hg. induction H as [|a b l bs Hab H IH]; intros i s K Hg; [apply gives_ret|].
  cbn [readList length]. rewrite <- (Nat.add_0_r i), (Hg 0%nat a) by done. eapply gives_bind; [done|by apply Hab|]. intros s1 K1.
  rewrite Nat.add_0_r. eapply gives_bind; [done|apply IH; [done|]|intros; apply gives_ret].
  intros j a' Hj. rewrite Nat.add_succ_comm. by apply (Hg (S j)).
Qed.
Lemma read_written {A B} (get : list A -> nat -> A) (read : A -> N B) (write : B -> A) (f : B -> B) (l : list B) s :
  heapOk s -> (forall l j a, l !! j = Some a -> get l j = a) ->
  (forall b s, heapOk s -> gives (read (write b)) s (Ret (f b))) ->
  gives (readList (get (map write l)) read 0 (length (map write l))) s (Ret (map f l)).
Proof.
  intros K Hg Hr. apply readList_gives; [done|apply Hg|].
  rewrite Forall2_fmap. apply Forall_Forall2_diag, Forall_true. intros b s' K'. by apply Hr.
Qed.

(** outcomes that Go code writes into native records and reads back, one by one or
    as a list in its order, are the outcomes written: asset, optional amounts, group and
    account are kept, a halted outcome keeps its reason and hides its amounts behind
    canonical zeros, so that [Amount] and [HaltReason] answer as before, and writing the
    result again gives the same records; reading leaves no native object. *)
Theorem outcomes_survive_native_records (outs : list Outcome) (pnls : list AccountPnlOutcome) (s : NativeHeap) :
  heapOk s ->
  gives (NewListFromHandle (map OutcomeNewHandle outs)) s (Ret (map (canonical z) outs)) /\
  gives (NewAccountPnlListFromHandle (map AccountPnlNewHandle pnls)) s (Ret (map (canonicalAccount z) pnls)) /\
  map OutcomeNewHandle (map (canonical z) outs) = map OutcomeNewHandle outs /\
  map AccountPnlNewHandle (map (canonicalAccount z) pnls) = map AccountPnlNewHandle pnls /\
  (forall o, visible (canonicalPnl z o) = visible o).
Proof.
  intros K. split; [|split; [|split; [|split]]].
  - apply (read_written AccountAdjustmentOutcomeListGet); [done| |by intros; apply outcome_read].
    intros l j a Hj. unfold AccountAdjustmentOutcomeListGet. by rewrite Hj.
  - apply (read_written AccountPnlOutcomeListGet); [done| |by intros; apply account_read].
    intros l j a Hj. unfold AccountPnlOutcomeListGet. by rewrite Hj.
  - rewrite map_map. apply map_ext. apply canonical_same_handle.
  - rewrite map_map. apply map_ext. apply canonicalAccount_handle.
  - apply canonical_visible.
Qed.
End Reading.

(** A halted outcome with amounts, in a list. *)
Definition haltedOutcome : PnlOutcome := mkPnlOutcome (mkPnlOutcomeAmount (mkDecimal 7 0 2) zeroDecimal) 3%Z.
Definition demoOutcome : Outcome :=
  mkOutcome 4 (mkOutcomeEntry "USD" (Some (mkOutcomeAmount (mkDecimal 5 0 0) (mkDecimal 9 0 0))) None None (Some haltedOutcome) None).
Lemma outcomes_survive_native_records_witness :
  gives (NewListFromHandle (map OutcomeNewHandle [demoOutcome])) (mkNativeHeap 0 ∅ ∅)
    (Ret [mkOutcome 4 (mkOutcomeEntry "USD" (Some (mkOutcomeAmount (mkDecimal 5 0 0) (mkDecimal 9 0 0))) None None
      (Some (mkPnlOutcome (mkPnlOutcomeAmount zeroDecimal zeroDecimal) 3%Z)) None)]).
Proof.
  assert (heapOk (mkNativeHeap 0 ∅ ∅)) as K by (split; cbn; intros h [e He]; by rewrite lookup_empty in He).
  exact (proj1 (outcomes_survive_native_records (NP := additions) zeroDecimal eq_refl [demoOutcome] [] _ K)).
Defined.

(** ** Constructors *)

(** The halt reasons of openpit.h, from [MISSING_FX] to [ARITHMETIC_OVERFLOW]; 0 is none. *)
Definition supported (reason : PnlHaltReason) : Prop := (1 <= reason <= 5)%Z.
(** What a constructor of outcomes makes is a number or a supported reason. *)
Definition wellFormed (o : PnlOutcome) : Prop := oc_haltReason o = 0%Z \/ supported (oc_haltReason o).

Lemma valid_iff reason : PnlHaltReasonValid reason = true <-> supported reason.
Proof.
  unfold PnlHaltReasonValid, supported. rewrite existsb_exists. split.
  - intros (x & Hx & ->%Z.eqb_eq). cbn in Hx. lia.
  - intros H. exists reason. split; [|apply Z.eqb_refl]. cbn. lia.
Qed.
Lemma supported_halts reason : supported reason -> (reason =? PnlHaltReasonNone)%Z = false.
Proof. unfold supported, PnlHaltReasonNone. intros H. apply Z.eqb_neq. lia. Qed.
Lemma visible_halted o : supported (oc_haltReason o) -> visible o = inr (oc_haltReason o).
Proof. intros H. unfold visible, Amount, HaltReason, IsHalted. by rewrite (supported_halts _ H). Qed.
Lemma halted_constructor reason :
  match NewPnlHaltedOutcome reason with
  | (o, None) => supported reason /\ wellFormed o /\ visible o = inr reason
  | (_, Some e) => ~ supported reason /\ errors_Is "model: invalid PnL halt reason" e = true
  end.
Proof.
  unfold NewPnlHaltedOutcome. destruct (PnlHaltReasonValid reason) eqn:E; cbn [negb].
  - apply valid_iff in E. split; [done|]. split; [by right|]. by apply (visible_halted (mkPnlOutcome _ reason)).
  - split; [|done]. intros H%valid_iff. congruence.
Qed.
Lemma account_halted_constructor g a reason :
  match NewAccountPnlHaltedOutcome g a reason with
  | (o, None) => supported reason /\ wellFormed (ap_PnlOutcome o) /\ visible (ap_PnlOutcome o) = inr reason /\
      ap_PolicyGroupID o = g /\ ap_AccountID o = a
  | (_, Some e) => ~ supported reason /\ errors_Is "model: invalid PnL halt reason" e = true
  end.
Proof.
  unfold NewAccountPnlHaltedOutcome. pose proof (halted_constructor reason) as H.
  destruct (NewPnlHaltedOutcome reason) as [o [e|]]; [done|]. cbn. naive_solver.
Qed.

(** What a program sees of a record that it reads. *)
Definition recordVisible (h : OpenPitPnlOutcome) : PnlOutcomeAmount + PnlHaltReason :=
  if (po_halt_reason h =? 0)%Z
  then inl (mkPnlOutcomeAmount (po_delta (c_value (po_amount h))) (po_absolute (c_value (po_amount h))))
  else inr (po_halt_reason h).

(** The native library makes a zero ([Hz]); only halted outcomes are read with it. *)
Section Constructors.
Context {F64 : Type} {NP : NativeParam F64}.
Context (z : Pnl) (Hz : openpit_create_param_from_int64 KPnl 0 = NativeOk z).

Lemma record_read h s :
  heapOk s -> exists o, gives (NewPnlOutcomeFromHandle h) s (Ret o) /\ oc_haltReason o = po_halt_reason h /\
    visible o = recordVisible h.
Proof.
  intros K. destruct h as [r [[d a] b]].
  exists (mkPnlOutcome (if (r =? 0)%Z then mkPnlOutcomeAmount d a else mkPnlOutcomeAmount z z) r).
  split; [|split; [done|]].
  - eapply gives_bind; [done|by apply (zero_gives z Hz)|]. intros s1 K1.
    eapply gives_bind; [done|by apply (zero_gives z Hz)|]. intros s2 K2. cbn.
    unfold PnlHaltReasonNone. destruct (r =? 0)%Z; apply gives_ret.
  - unfold visible, recordVisible, Amount, HaltReason, IsHalted, PnlHaltReasonNone. cbn. by destruct (r =? 0)%Z.
Qed.

(** C36: the constructors of outcomes make numbers, which have an amount and no reason, or
    halted outcomes with one of the five supported reasons, 1 to 5, which have no amount;
    any other reason is refused with [ErrInvalidPnlHaltReason], for an account too. What
    is read from a native record has its reason, and its amount exactly when there is no
    reason; so a record that was written from a well-formed outcome is read as a
    well-formed one that shows the same amount or reason, also as the outcome of an
    account, which keeps its account and group. Reading leaves no native object. The
    native library is assumed to make a zero. *)
Theorem pnl_outcomes_are_well_formed (s : NativeHeap) :
  heapOk s ->
  (forall amount, wellFormed (NewPnlOutcome amount) /\ visible (NewPnlOutcome amount) = inl amount) /\
  (forall reason, match NewPnlHaltedOutcome reason with
     | (o, None) => supported reason /\ wellFormed o /\ visible o = inr reason
     | (_, Some e) => ~ supported reason /\ errors_Is "model: invalid PnL halt reason" e = true
     end) /\
  (forall g a reason, match NewAccountPnlHaltedOutcome g a reason with
     | (o, None) => supported reason /\ wellFormed (ap_PnlOutcome o) /\ visible (ap_PnlOutcome o) = inr reason /\
         ap_PolicyGroupID o = g /\ ap_AccountID o = a
     | (_, Some e) => ~ supported reason /\ errors_Is "model: invalid PnL halt reason" e = true
     end) /\
  (forall h, exists o, gives (NewPnlOutcomeFromHandle h) s (Ret o) /\ oc_haltReason o = po_halt_reason h /\
     visible o = recordVisible h) /\
  (forall o, wellFormed o -> exists o', gives (NewPnlOutcomeFromHandle (newNativeHandle o)) s (Ret o') /\
     wellFormed o' /\ visible o' = visible o) /\
  (forall o, wellFormed (ap_PnlOutcome o) ->
     exists o', gives (NewAccountPnlOutcomeFromHandle (AccountPnlNewHandle o)) s (Ret o') /\
       wellFormed (ap_PnlOutcome o') /\ visible (ap_PnlOutcome o') = visible (ap_PnlOutcome o) /\
       ap_PolicyGroupID o' = ap_PolicyGroupID o /\ ap_AccountID o' = ap_AccountID o).
Proof.
  intros K. split; [|split; [|split; [|split; [|split]]]].
  - split; [by left|done].
  - apply halted_constructor.
  - apply account_halted_constructor.
  - intros h. by apply record_read.
  - intros o Ho. exists (canonicalPnl z o). split; [by apply pnl_read|]. split; [|apply canonical_visible].
    unfold canonicalPnl. by destruct (IsHalted o).
  - intros o Ho. exists (canonicalAccount z o). split; [by apply account_read|].
    split; [|split; [apply canonical_visible|done]]. cbn. unfold canonicalPnl. by destruct (IsHalted (ap_PnlOutcome o)).
Qed.
End Constructors.

(** A halted outcome of an account, written and read. *)
Lemma pnl_outcomes_are_well_formed_witness :
  exists o, snd (NewAccountPnlHaltedOutcome 4 7%Z 3%Z) = None /\
    gives (NewAccountPnlOutcomeFromHandle (AccountPnlNewHandle (fst (NewAccountPnlHaltedOutcome 4 7%Z 3%Z))))
      (mkNativeHeap 0 ∅ ∅) (Ret o) /\ visible (ap_PnlOutcome o) = inr 3%Z.
Proof.
  assert (heapOk (mkNativeHeap 0 ∅ ∅)) as K by (split; cbn; intros h [e He]; by rewrite lookup_empty in He).
  destruct (pnl_outcomes_are_well_formed (NP := additions) zeroDecimal eq_refl (mkNativeHeap 0 ∅ ∅) K)
    as (_ & _ & _ & _ & _ & H).
  destruct (H (fst (NewAccountPnlHaltedOutcome 4 7%Z 3%Z))) as (o & Ho & _ & Hv & _).
  { right. vm_compute. split; discriminate. }
  exists o. split; [reflexivity|]. split; [exact Ho|]. rewrite Hv. reflexivity.
Defined.

(** ** Collectors *)

Section Collectors.
Context {E : Type} `{!NativeCollectors E}.

Definition pushed (fallback : string) (r : bool * option string) : option error :=
  match r with (true, _) => None | (false, m) => Some (messageError fallback (default EmptyString m)) end.
Definition pushOut (r : bool * option string) : Prop :=
  match r with (true, None) | (false, Some _) => True | _ => False end.

Lemma push_gives (f : E -> E * (bool * option string)) fallback (w : Natives Empty_set E) :
  nativesOk w -> pushOut (snd (f (wEngine w))) ->
  ends (let* (ok, message) := native f in
        let* outError := onHeap (allocString message) in
        if negb ok then let* err := onHeap (consumeSharedStringAsError outError fallback) in ret (Some err) else ret None) w
    (fst (f (wEngine w))) (Ret (pushed fallback (snd (f (wEngine w))))).
Proof.
  intros K H. eapply ends_bind; [done|apply ends_native|]. destruct (snd (f (wEngine w))) as [[] [m|]]; try done; intros w1 K1 _ <-.
  - apply within_no_text, ends_ret.
  - exact (ends_message fallback (Some m) Some w1 K1).
Qed.
(** A push of an entry is the native push of its record. *)
Lemma account_outcome_pushed (entry : AccountOutcomeEntry) (w : Natives Empty_set E) :
  nativesOk w -> pushOut (snd (push_account_outcome (wEngine w) (EntryNewHandle entry))) ->
  ends (AccountOutcomesPush entry) w (fst (push_account_outcome (wEngine w) (EntryNewHandle entry)))
    (Ret (pushed "openpit_pretrade_account_adjustment_result_push_account_outcome failed"
      (snd (push_account_outcome (wEngine w) (EntryNewHandle entry))))).
Proof. apply (push_gives (fun e => push_account_outcome e (EntryNewHandle entry))). Qed.
End Collectors.
