(* ===== verification/NativePolicies.v ===== *)
(** * Settings of the built-in policies

    The barrier records of internal/native/policy.go and the calls of
    internal/native/engine.go that give them to an engine builder. Every record with a
    name (an asset, a currency) holds a bare view of a C string; the native library reads
    it during the call. [Named] is what such records share: a record over views is read
    into the same record over texts, and a view whose buffer is gone aborts the process.

    What the library does with the settings is a class of functions over its state. *)
From Stdlib Require Import ZArith Lia.
From stdpp Require Import base list gmap strings.
From S2P Require Import Prelude GoRuntime NativeErrors ServiceStore NativeMem ParamValues NumericTypes.

(** ** Memory next to another state *)

Record Seen (L W : Type) := mkSeen { seenMem : Mem L; seenRest : W }.
Arguments mkSeen {L W}.
Arguments seenMem {L W}.
Arguments seenRest {L W}.

Section Views.
Context {L W : Type}.
Abbreviation SW := (M (Seen L W)).
Definition onMem {A} (c : MM L A) : SW A := fun s =>
  match c (seenMem s) with
  | inr (a, m) => (Ret a, mkSeen m (seenRest s))
  | inl _ => (Panic nativeAbort, s)
  end.
Definition onRest {A} (c : M W A) : SW A := fun s =>
  let '(o, w) := c (seenRest s) in (o, mkSeen (seenMem s) w).
End Views.

(** A record with one name. *)
Class Named (X : Type -> Type) := {
  nameOf : forall {S}, X S -> S;
  withName : forall {S T}, X S -> T -> X T;
}.

Section Reading.
Context {L W : Type} {X : Type -> Type} `{!Named X}.
(** The library reads a record, and an array of them. *)
Definition readNamed (x : X StringView) : M (Seen L W) (X string) :=
  let* t := onMem (ViewSafe (nameOf x)) in ret (withName x t).
Fixpoint readAll (xs : list (X StringView)) : M (Seen L W) (list (X string)) :=
  match xs with
  | [] => ret []
  | x :: xs => let* y := readNamed x in let* ys := readAll xs in ret (y :: ys)
  end.
Definition readOptional (x : option (X StringView)) : M (Seen L W) (option (X string)) :=
  match x with None => ret None | Some x => let* y := readNamed x in ret (Some y) end.
(** What a record says in a memory. *)
Definition shown {K} (m : Mem K) (x : X StringView) : X string := withName x (default EmptyString (viewText m (nameOf x))).
End Reading.

(** ** Rate limits *)

Record PretradePoliciesRateLimitBrokerBarrier := mkRateBroker { rb_max_orders : Z; rb_window_nanoseconds : Z }.
Record PretradePoliciesRateLimitAssetBarrier (S : Type) := mkRateAsset {
  ra_max_orders : Z; ra_window_nanoseconds : Z; ra_settlement_asset : S;
}.
Record PretradePoliciesRateLimitAccountBarrier := mkRateAccount {
  rc_account_id : Z; rc_max_orders : Z; rc_window_nanoseconds : Z;
}.
Record PretradePoliciesRateLimitAccountAssetBarrier (S : Type) := mkRateAccountAsset {
  rca_account_id : Z; rca_max_orders : Z; rca_window_nanoseconds : Z; rca_settlement_asset : S;
}.
Arguments mkRateAsset {S}.
Arguments ra_max_orders {S}.
Arguments ra_window_nanoseconds {S}.
Arguments ra_settlement_asset {S}.
Arguments mkRateAccountAsset {S}.
Arguments rca_account_id {S}.
Arguments rca_max_orders {S}.
Arguments rca_window_nanoseconds {S}.
Arguments rca_settlement_asset {S}.
#[export] Instance rateAsset_named : Named PretradePoliciesRateLimitAssetBarrier := {|
  nameOf _ x := ra_settlement_asset x;
  withName _ _ x t := mkRateAsset (ra_max_orders x) (ra_window_nanoseconds x) t;
|}.
#[export] Instance rateAccountAsset_named : Named PretradePoliciesRateLimitAccountAssetBarrier := {|
  nameOf _ x := rca_settlement_asset x;
  withName _ _ x t := mkRateAccountAsset (rca_account_id x) (rca_max_orders x) (rca_window_nanoseconds x) t;
|}.

Definition NewPretradePoliciesRateLimitBrokerBarrier (maxOrders windowNanoseconds : Z) : PretradePoliciesRateLimitBrokerBarrier :=
  mkRateBroker maxOrders windowNanoseconds.
Definition NewPretradePoliciesRateLimitAssetBarrier (maxOrders windowNanoseconds : Z) (settlementAsset : GoString)
    : PretradePoliciesRateLimitAssetBarrier StringView :=
  mkRateAsset maxOrders windowNanoseconds (importString settlementAsset).
Definition NewPretradePoliciesRateLimitAccountBarrier (accountID maxOrders windowNanoseconds : Z) : PretradePoliciesRateLimitAccountBarrier :=
  mkRateAccount accountID maxOrders windowNanoseconds.
Definition NewPretradePoliciesRateLimitAccountAssetBarrier (accountID maxOrders windowNanoseconds : Z) (settlementAsset : GoString)
    : PretradePoliciesRateLimitAccountAssetBarrier StringView :=
  mkRateAccountAsset accountID maxOrders windowNanoseconds (importString settlementAsset).

(** ** Order sizes *)

Definition NewParamQuantityOptional (value : ParamQuantity) : ParamQuantityOptional := mkCOptional value true.
Definition NewParamVolumeOptional (value : ParamDecimal) : COptional ParamDecimal := mkCOptional value true.

Record PretradePoliciesOrderSizeLimit := mkSizeLimit {
  sl_max_quantity : ParamQuantityOptional; sl_max_notional : COptional ParamDecimal;
}.
Record PretradePoliciesOrderSizeBrokerBarrier := mkSizeBroker { sb_limit : PretradePoliciesOrderSizeLimit }.
Record PretradePoliciesOrderSizeAssetBarrier (S : Type) := mkSizeAsset {
  sa_limit : PretradePoliciesOrderSizeLimit; sa_asset : S;
}.
Record PretradePoliciesOrderSizeAccountAssetBarrier (S : Type) := mkSizeAccountAsset {
  sca_limit : PretradePoliciesOrderSizeLimit; sca_account_id : Z; sca_asset : S;
}.
Arguments mkSizeAsset {S}.
Arguments sa_limit {S}.
Arguments sa_asset {S}.
Arguments mkSizeAccountAsset {S}.
Arguments sca_limit {S}.
Arguments sca_account_id {S}.
Arguments sca_asset {S}.
#[export] Instance sizeAsset_named : Named PretradePoliciesOrderSizeAssetBarrier := {|
  nameOf _ x := sa_asset x;
  withName _ _ x t := mkSizeAsset (sa_limit x) t;
|}.
#[export] Instance sizeAccountAsset_named : Named PretradePoliciesOrderSizeAccountAssetBarrier := {|
  nameOf _ x := sca_asset x;
  withName _ _ x t := mkSizeAccountAsset (sca_limit x) (sca_account_id x) t;
|}.

Definition NewPretradePoliciesOrderSizeLimit (maxQuantity : ParamQuantityOptional) (maxNotional : COptional ParamDecimal)
    : PretradePoliciesOrderSizeLimit := mkSizeLimit maxQuantity maxNotional.
Definition NewPretradePoliciesOrderSizeBrokerBarrier (limit : PretradePoliciesOrderSizeLimit) : PretradePoliciesOrderSizeBrokerBarrier :=
  mkSizeBroker limit.
Definition NewPretradePoliciesOrderSizeAssetBarrier (limit : PretradePoliciesOrderSizeLimit) (asset : GoString)
    : PretradePoliciesOrderSizeAssetBarrier StringView := mkSizeAsset limit (importString asset).
Definition NewPretradePoliciesOrderSizeAccountAssetBarrier (limit : PretradePoliciesOrderSizeLimit) (accountID : Z) (asset : GoString)
    : PretradePoliciesOrderSizeAccountAssetBarrier StringView := mkSizeAccountAsset limit accountID (importString asset).

(** ** P&L bounds *)

Definition NewParamPnlOptional (value : ParamPnl) : ParamPnlOptional := mkCOptional value true.

Record PretradePoliciesPnlBoundsBarrier (S : Type) := mkPnlBarrier {
  pb_settlement_asset : S; pb_lower_bound : ParamPnlOptional; pb_upper_bound : ParamPnlOptional;
}.
Record PretradePoliciesPnlBoundsAccountBarrier (S : Type) := mkPnlAccount {
  pa_account_id : Z; pa_settlement_asset : S; pa_lower_bound : ParamPnlOptional; pa_upper_bound : ParamPnlOptional;
  pa_initial_pnl : ParamPnl;
}.
Record PretradePoliciesPnlBoundsAccountBarrierUpdate (S : Type) := mkPnlUpdate {
  pu_account_id : Z; pu_settlement_asset : S; pu_lower_bound : ParamPnlOptional; pu_upper_bound : ParamPnlOptional;
}.
Arguments mkPnlBarrier {S}.
Arguments pb_settlement_asset {S}.
Arguments pb_lower_bound {S}.
Arguments pb_upper_bound {S}.
Arguments mkPnlAccount {S}.
Arguments pa_account_id {S}.
Arguments pa_settlement_asset {S}.
Arguments pa_lower_bound {S}.
Arguments pa_upper_bound {S}.
Arguments pa_initial_pnl {S}.
Arguments mkPnlUpdate {S}.
Arguments pu_account_id {S}.
Arguments pu_settlement_asset {S}.
Arguments pu_lower_bound {S}.
Arguments pu_upper_bound {S}.
#[export] Instance pnlBarrier_named : Named PretradePoliciesPnlBoundsBarrier := {|
  nameOf _ x := pb_settlement_asset x;
  withName _ _ x t := mkPnlBarrier t (pb_lower_bound x) (pb_upper_bound x);
|}.
#[export] Instance pnlAccount_named : Named PretradePoliciesPnlBoundsAccountBarrier := {|
  nameOf _ x := pa_settlement_asset x;
  withName _ _ x t := mkPnlAccount (pa_account_id x) t (pa_lower_bound x) (pa_upper_bound x) (pa_initial_pnl x);
|}.
#[export] Instance pnlUpdate_named : Named PretradePoliciesPnlBoundsAccountBarrierUpdate := {|
  nameOf _ x := pu_settlement_asset x;
  withName _ _ x t := mkPnlUpdate (pu_account_id x) t (pu_lower_bound x) (pu_upper_bound x);
|}.

Definition NewPretradePoliciesPnlBoundsBarrier (settlementAsset : GoString) (lowerBound upperBound : ParamPnlOptional)
    : PretradePoliciesPnlBoundsBarrier StringView := mkPnlBarrier (importString settlementAsset) lowerBound upperBound.
Definition NewPretradePoliciesPnlBoundsAccountBarrier (accountID : Z) (settlementAsset : GoString)
    (lowerBound upperBound : ParamPnlOptional) (initialPnl : ParamPnl) : PretradePoliciesPnlBoundsAccountBarrier StringView :=
  mkPnlAccount accountID (importString settlementAsset) lowerBound upperBound initialPnl.
Definition NewPretradePoliciesPnlBoundsAccountBarrierUpdate (accountID : Z) (settlementAsset : GoString)
    (lowerBound upperBound : ParamPnlOptional) : PretradePoliciesPnlBoundsAccountBarrierUpdate StringView :=
  mkPnlUpdate accountID (importString settlementAsset) lowerBound upperBound.

(** ** Spot funds *)

Record PretradePoliciesSpotFundsPnlBoundsBarrier (S : Type) := mkSpotBarrier {
  sp_currency : S; sp_lower_bound : ParamPnlOptional; sp_upper_bound : ParamPnlOptional;
}.
Arguments mkSpotBarrier {S}.
Arguments sp_currency {S}.
Arguments sp_lower_bound {S}.
Arguments sp_upper_bound {S}.
Record PretradePoliciesSpotFundsPnlBoundsAccountGroupBarrier (S : Type) := mkSpotGroup {
  sg_account_group_id : Z; sg_barrier : PretradePoliciesSpotFundsPnlBoundsBarrier S;
}.
Record PretradePoliciesSpotFundsPnlBoundsAccountBarrier (S : Type) := mkSpotAccount {
  sc_account_id : Z; sc_barrier : PretradePoliciesSpotFundsPnlBoundsBarrier S;
}.
Arguments mkSpotGroup {S}.
Arguments sg_account_group_id {S}.
Arguments sg_barrier {S}.
Arguments mkSpotAccount {S}.
Arguments sc_account_id {S}.
Arguments sc_barrier {S}.
#[export] Instance spotBarrier_named : Named PretradePoliciesSpotFundsPnlBoundsBarrier := {|
  nameOf _ x := sp_currency x;
  withName _ _ x t := mkSpotBarrier t (sp_lower_bound x) (sp_upper_bound x);
|}.
#[export] Instance spotGroup_named : Named PretradePoliciesSpotFundsPnlBoundsAccountGroupBarrier := {|
  nameOf _ x := nameOf (sg_barrier x);
  withName _ _ x t := mkSpotGroup (sg_account_group_id x) (withName (sg_barrier x) t);
|}.
#[export] Instance spotAccount_named : Named PretradePoliciesSpotFundsPnlBoundsAccountBarrier := {|
  nameOf _ x := nameOf (sc_barrier x);
  withName _ _ x t := mkSpotAccount (sc_account_id x) (withName (sc_barrier x) t);
|}.

Definition NewPretradePoliciesSpotFundsPnlBoundsBarrier (currency : GoString) (lowerBound upperBound : ParamPnlOptional)
    : PretradePoliciesSpotFundsPnlBoundsBarrier StringView := mkSpotBarrier (importString currency) lowerBound upperBound.
Definition NewPretradePoliciesSpotFundsPnlBoundsAccountGroupBarrier (accountGroupID : Z)
    (barrier : PretradePoliciesSpotFundsPnlBoundsBarrier StringView) := mkSpotGroup accountGroupID barrier.
Definition NewPretradePoliciesSpotFundsPnlBoundsAccountBarrier (accountID : Z)
    (barrier : PretradePoliciesSpotFundsPnlBoundsBarrier StringView) := mkSpotAccount accountID barrier.

(** The target of an override is a tagged union. *)
Inductive OverrideTarget :=
| TargetInstrument (instrument_id : Z)
| TargetInstrumentAccount (instrument_id account_id : Z)
| TargetInstrumentAccountGroup (instrument_id account_group_id : Z).
Record PretradePoliciesSpotFundsOverride := mkOverride {
  ov_target : OverrideTarget; ov_slippage_bps : Z; ov_has_slippage_bps : bool;
}.
Definition zeroOverride : PretradePoliciesSpotFundsOverride := mkOverride (TargetInstrument 0) 0 false.
Definition newPretradePoliciesSpotFundsOverride (target : OverrideTarget) (slippageBps : option Z) : PretradePoliciesSpotFundsOverride :=
  match slippageBps with
  | Some bps => mkOverride target bps true
  | None => mkOverride target 0 false
  end.
Definition NewPretradePoliciesSpotFundsInstrumentOverride (instrumentID : Z) (slippageBps : option Z) :=
  newPretradePoliciesSpotFundsOverride (TargetInstrument instrumentID) slippageBps.
Definition NewPretradePoliciesSpotFundsInstrumentAccountOverride (instrumentID accountID : Z) (slippageBps : option Z) :=
  newPretradePoliciesSpotFundsOverride (TargetInstrumentAccount instrumentID accountID) slippageBps.
Definition NewPretradePoliciesSpotFundsInstrumentAccountGroupOverride (instrumentID accountGroupID : Z) (slippageBps : option Z) :=
  newPretradePoliciesSpotFundsOverride (TargetInstrumentAccountGroup instrumentID accountGroupID) slippageBps.
Definition NewPretradePoliciesSpotFundsOverride (instrumentID : Z) (accountID accountGroupID slippageBps : option Z)
    : PretradePoliciesSpotFundsOverride :=
  match accountID, accountGroupID with
  | Some account, _ => NewPretradePoliciesSpotFundsInstrumentAccountOverride instrumentID account slippageBps
  | None, Some group => NewPretradePoliciesSpotFundsInstrumentAccountGroupOverride instrumentID group slippageBps
  | None, None => NewPretradePoliciesSpotFundsInstrumentOverride instrumentID slippageBps
  end.

(** ** The native library: success, and the text of an error *)

Class NativePolicies (E : Type) := {
  add_builtin_order_validation : Z -> Z -> E -> E * (bool * option string);
  add_builtin_rate_limit : Z -> Z -> option PretradePoliciesRateLimitBrokerBarrier ->
    list (PretradePoliciesRateLimitAssetBarrier string) -> list PretradePoliciesRateLimitAccountBarrier ->
    list (PretradePoliciesRateLimitAccountAssetBarrier string) -> E -> E * (bool * option string);
  add_builtin_order_size_limit : Z -> Z -> option PretradePoliciesOrderSizeBrokerBarrier ->
    list (PretradePoliciesOrderSizeAssetBarrier string) ->
    list (PretradePoliciesOrderSizeAccountAssetBarrier string) -> E -> E * (bool * option string);
  add_builtin_pnl_bounds_killswitch : Z -> Z -> list (PretradePoliciesPnlBoundsBarrier string) ->
    list (PretradePoliciesPnlBoundsAccountBarrier string) -> E -> E * (bool * option string);
  (** The service is the registry it stands for. *)
  add_builtin_spot_funds : Z -> option Z -> option Z -> Z -> list PretradePoliciesSpotFundsOverride -> Z -> E -> E * (bool * option string);
  add_builtin_spot_funds_pnl_bounds_killswitch : Z -> option Z -> Z -> option (PretradePoliciesSpotFundsPnlBoundsBarrier string) ->
    list (PretradePoliciesSpotFundsPnlBoundsAccountGroupBarrier string) ->
    list (PretradePoliciesSpotFundsPnlBoundsAccountBarrier string) -> E -> E * (bool * option string);
}.

(** The services, and the library that policies are registered with. *)
Record Library (R E : Type) := mkLibrary { services : Store R; engines : E }.
Arguments mkLibrary {R E}.
Arguments services {R E}.
Arguments engines {R E}.

Section Register.
Context {L R E : Type} `{!NativePolicies E}.
Abbreviation PM := (M (Seen L (Library R E))).

Definition onServices {A} (m : M (Store R) A) : PM A := onRest (fun w =>
  let '(o, s) := m (services w) in (o, mkLibrary s (engines w))).
Definition onEngines {A} (f : E -> E * A) : PM A := onRest (fun w =>
  let '(e, a) := f (engines w) in (Ret a, mkLibrary (services w) e)).
(** The registry behind a handle, which must be live; null is no service. *)
Definition serviceBehind (h : option Z) : PM (option Z) := onRest (fun w =>
  match h with
  | None => (Ret None, w)
  | Some h => match live (services w) !! h with
              | Some g => (Ret (Some g), w)
              | None => (Panic nativeAbort, w)
              end
  end).
(** A registration: a failure has a text. *)
Definition registering (fallback : string) (m : PM (bool * option string)) : PM (option error) :=
  let* (ok, message) := m in
  if negb ok then onServices (outMessage true message fallback) else ret None.

Definition EngineBuilderAddBuiltinOrderValidation (builder groupID : Z) : PM (option error) :=
  registering "openpit_engine_builder_add_builtin_order_validation_policy failed" (onEngines (add_builtin_order_validation builder groupID)).
Definition EngineBuilderAddBuiltinRateLimit (builder groupID : Z) (broker : option PretradePoliciesRateLimitBrokerBarrier)
    (assets : list (PretradePoliciesRateLimitAssetBarrier StringView)) (accounts : list PretradePoliciesRateLimitAccountBarrier)
    (accountAssets : list (PretradePoliciesRateLimitAccountAssetBarrier StringView)) : PM (option error) :=
  registering "openpit_engine_builder_add_builtin_rate_limit_policy failed"
    (let* assets := readAll assets in
     let* accountAssets := readAll accountAssets in
     onEngines (add_builtin_rate_limit builder groupID broker assets accounts accountAssets)).
Definition EngineBuilderAddBuiltinOrderSizeLimit (builder groupID : Z) (broker : option PretradePoliciesOrderSizeBrokerBarrier)
    (assets : list (PretradePoliciesOrderSizeAssetBarrier StringView))
    (accountAssets : list (PretradePoliciesOrderSizeAccountAssetBarrier StringView)) : PM (option error) :=
  registering "openpit_engine_builder_add_builtin_order_size_limit_policy failed"
    (let* assets := readAll assets in
     let* accountAssets := readAll accountAssets in
     onEngines (add_builtin_order_size_limit builder groupID broker assets accountAssets)).
Definition EngineBuilderAddBuiltinPnlBoundsKillSwitch (builder groupID : Z)
    (brokerBarriers : list (PretradePoliciesPnlBoundsBarrier StringView))
    (accountBarriers : list (PretradePoliciesPnlBoundsAccountBarrier StringView)) : PM (option error) :=
  registering "openpit_engine_builder_add_builtin_pnl_bounds_killswitch_policy failed"
    (let* brokerBarriers := readAll brokerBarriers in
     let* accountBarriers := readAll accountBarriers in
     onEngines (add_builtin_pnl_bounds_killswitch builder groupID brokerBarriers accountBarriers)).
Definition EngineBuilderAddBuiltinSpotFunds (builder : Z) (marketData marketSlippageBps : option Z) (pricingSource : Z)
    (instrumentOverrides : list PretradePoliciesSpotFundsOverride) (groupID : Z) : PM (option error) :=
  registering "openpit_engine_builder_add_builtin_spot_funds_policy failed"
    (let* service := serviceBehind marketData in
     onEngines (add_builtin_spot_funds builder service marketSlippageBps pricingSource instrumentOverrides groupID)).
Definition EngineBuilderAddBuiltinSpotFundsPnlBoundsKillSwitch (builder : Z) (marketData : option Z) (groupID : Z)
    (globalBarrier : option (PretradePoliciesSpotFundsPnlBoundsBarrier StringView))
    (accountGroupBarriers : list (PretradePoliciesSpotFundsPnlBoundsAccountGroupBarrier StringView))
    (accountBarriers : list (PretradePoliciesSpotFundsPnlBoundsAccountBarrier StringView)) : PM (option error) :=
  registering "openpit_engine_builder_add_builtin_spot_funds_pnl_bounds_killswitch_policy failed"
    (let* service := serviceBehind marketData in
     let* global := readOptional globalBarrier in
     let* groups := readAll accountGroupBarriers in
     let* accounts := readAll accountBarriers in
     onEngines (add_builtin_spot_funds_pnl_bounds_killswitch builder service groupID global groups accounts)).
End Register.
