(* ===== verification/Policies.v ===== *)
(** * Builders of the built-in policies

    pretrade/policies: rate_limit.go, order_size_limit.go, pnl_bounds_killswitch.go,
    order_validation.go, spot_funds.go and limit_mode.go. A builder collects native
    records, whose names are bare views, next to the assets that own the viewed strings.

    [BuildX] makes an entry builder with a pointer to the ready builder that all its
    methods return: the two are one object, so a method is a function of the ready
    builder's state. [runtime.KeepAlive(b)] at the end of every [Build] keeps the builder,
    and so the assets, reachable while the library reads: no collection falls into it. *)
From Stdlib Require Import ZArith Lia.
From stdpp Require Import base list gmap strings pretty.
From S2P Require Import Prelude GoRuntime NativeErrors ServiceStore MarketData NativeMem Routing ParamValues NumericTypes NativePolicies.

Definition DefaultPolicyGroupID : Z := 0.
Abbreviation AccountID := ParamValues.AccountID.

(** ** Rate limits *)

Record RateLimit := mkRateLimit { MaxOrders : Z; Window : Z }.
Record RateLimitBrokerBarrier := mkRateLimitBroker { rlb_Limit : RateLimit }.
Record RateLimitAssetBarrier := mkRateLimitAsset { rla_Limit : RateLimit; rla_SettlementAsset : Asset }.
Record RateLimitAccountBarrier := mkRateLimitAccount { rlc_Limit : RateLimit; rlc_AccountID : AccountID }.
Record RateLimitAccountAssetBarrier := mkRateLimitAccountAsset {
  rlca_Limit : RateLimit; rlca_AccountID : AccountID; rlca_SettlementAsset : Asset;
}.
Definition rateLimitWindowNanoseconds (limit : RateLimit) : Z := Window limit.

Module Rate.
Record ReadyBuilder := mkReady {
  broker : option PretradePoliciesRateLimitBrokerBarrier;
  assetBarriers : list (PretradePoliciesRateLimitAssetBarrier StringView);
  assetBarrierSettlementAssets : list Asset;
  accountBarriers : list PretradePoliciesRateLimitAccountBarrier;
  accountAssetBarriers : list (PretradePoliciesRateLimitAccountAssetBarrier StringView);
  accountAssetBarrierSettlementAssets : list Asset;
  policyGroupID : Z;
  err : option error;
}.
Definition BuildRateLimit : ReadyBuilder := mkReady None [] [] [] [] [] DefaultPolicyGroupID None.
Definition PolicyGroupID (groupID : Z) (b : ReadyBuilder) : ReadyBuilder :=
  mkReady (broker b) (assetBarriers b) (assetBarrierSettlementAssets b) (accountBarriers b)
    (accountAssetBarriers b) (accountAssetBarrierSettlementAssets b) groupID (err b).
Definition BrokerBarrier (barrier : RateLimitBrokerBarrier) (b : ReadyBuilder) : ReadyBuilder :=
  match err b with
  | Some _ => b
  | None =>
    let windowNanos := rateLimitWindowNanoseconds (rlb_Limit barrier) in
    mkReady (Some (NewPretradePoliciesRateLimitBrokerBarrier (MaxOrders (rlb_Limit barrier)) windowNanos))
      (assetBarriers b) (assetBarrierSettlementAssets b) (accountBarriers b)
      (accountAssetBarriers b) (accountAssetBarrierSettlementAssets b) (policyGroupID b) (err b)
  end.
Definition addAsset (b : ReadyBuilder) (barrier : RateLimitAssetBarrier) : ReadyBuilder :=
  let windowNanos := rateLimitWindowNanoseconds (rla_Limit barrier) in
  mkReady (broker b)
    (assetBarriers b ++ [NewPretradePoliciesRateLimitAssetBarrier (MaxOrders (rla_Limit barrier)) windowNanos (AssetHandle (rla_SettlementAsset barrier))])
    (assetBarrierSettlementAssets b ++ [rla_SettlementAsset barrier]) (accountBarriers b)
    (accountAssetBarriers b) (accountAssetBarrierSettlementAssets b) (policyGroupID b) (err b).
Definition AssetBarriers (barriers : list RateLimitAssetBarrier) (b : ReadyBuilder) : ReadyBuilder :=
  match err b with Some _ => b | None => foldl addAsset b barriers end.
Definition addAccount (b : ReadyBuilder) (barrier : RateLimitAccountBarrier) : ReadyBuilder :=
  let windowNanos := rateLimitWindowNanoseconds (rlc_Limit barrier) in
  mkReady (broker b) (assetBarriers b) (assetBarrierSettlementAssets b)
    (accountBarriers b ++ [NewPretradePoliciesRateLimitAccountBarrier (AccountIDHandle (rlc_AccountID barrier)) (MaxOrders (rlc_Limit barrier)) windowNanos])
    (accountAssetBarriers b) (accountAssetBarrierSettlementAssets b) (policyGroupID b) (err b).
Definition AccountBarriers (barriers : list RateLimitAccountBarrier) (b : ReadyBuilder) : ReadyBuilder :=
  match err b with Some _ => b | None => foldl addAccount b barriers end.
Definition addAccountAsset (b : ReadyBuilder) (barrier : RateLimitAccountAssetBarrier) : ReadyBuilder :=
  let windowNanos := rateLimitWindowNanoseconds (rlca_Limit barrier) in
  mkReady (broker b) (assetBarriers b) (assetBarrierSettlementAssets b) (accountBarriers b)
    (accountAssetBarriers b ++ [NewPretradePoliciesRateLimitAccountAssetBarrier (AccountIDHandle (rlca_AccountID barrier))
       (MaxOrders (rlca_Limit barrier)) windowNanos (AssetHandle (rlca_SettlementAsset barrier))])
    (accountAssetBarrierSettlementAssets b ++ [rlca_SettlementAsset barrier]) (policyGroupID b) (err b).
Definition AccountAssetBarriers (barriers : list RateLimitAccountAssetBarrier) (b : ReadyBuilder) : ReadyBuilder :=
  match err b with Some _ => b | None => foldl addAccountAsset b barriers end.
Definition Build {L R E} `{!NativePolicies E} (b : ReadyBuilder) (builder : Z) : M (Seen L (Library R E)) (option error) :=
  match err b with
  | Some err => ret (Some err)
  | None => EngineBuilderAddBuiltinRateLimit builder (policyGroupID b) (broker b) (assetBarriers b) (accountBarriers b) (accountAssetBarriers b)
  end.
(** The entry builder passes its calls on and returns the ready builder. *)
Definition EntryPolicyGroupID (groupID : Z) (b : ReadyBuilder) : ReadyBuilder := PolicyGroupID groupID b.
Definition EntryBrokerBarrier (barrier : RateLimitBrokerBarrier) (b : ReadyBuilder) : ReadyBuilder := BrokerBarrier barrier b.
Definition EntryAssetBarriers (barriers : list RateLimitAssetBarrier) (b : ReadyBuilder) : ReadyBuilder := AssetBarriers barriers b.
Definition EntryAccountBarriers (barriers : list RateLimitAccountBarrier) (b : ReadyBuilder) : ReadyBuilder := AccountBarriers barriers b.
Definition EntryAccountAssetBarriers (barriers : list RateLimitAccountAssetBarrier) (b : ReadyBuilder) : ReadyBuilder := AccountAssetBarriers barriers b.
End Rate.

(** ** Order sizes *)

Record OrderSizeLimit := mkOrderSizeLimit { MaxQuantity : option Quantity; MaxNotional : option Volume }.
Record OrderSizeBrokerBarrier := mkOrderSizeBroker { osb_Limit : OrderSizeLimit }.
Record OrderSizeAssetBarrier := mkOrderSizeAsset { osa_Limit : OrderSizeLimit; osa_Asset : Asset }.
Record OrderSizeAccountAssetBarrier := mkOrderSizeAccountAsset {
  osca_Limit : OrderSizeLimit; osca_AccountID : AccountID; osca_Asset : Asset;
}.
Definition newParamQuantityOptionalFromOptional (value : option Quantity) : ParamQuantityOptional :=
  match value with Some v => NewParamQuantityOptional (QuantityHandle v) | None => zeroCOptional zeroDecimal end.
Definition newParamVolumeOptionalFromOptional (value : option Volume) : COptional ParamDecimal :=
  match value with Some v => NewParamVolumeOptional (VolumeHandle v) | None => zeroCOptional zeroDecimal end.

Module Size.
Record ReadyBuilder := mkReady {
  broker : option PretradePoliciesOrderSizeBrokerBarrier;
  assetBarriers : list (PretradePoliciesOrderSizeAssetBarrier StringView);
  assetBarrierAssets : list Asset;
  accountAssetBarriers : list (PretradePoliciesOrderSizeAccountAssetBarrier StringView);
  accountAssetBarrierAssets : list Asset;
  policyGroupID : Z;
}.
Definition BuildOrderSizeLimit : ReadyBuilder := mkReady None [] [] [] [] DefaultPolicyGroupID.
Definition PolicyGroupID (groupID : Z) (b : ReadyBuilder) : ReadyBuilder :=
  mkReady (broker b) (assetBarriers b) (assetBarrierAssets b) (accountAssetBarriers b) (accountAssetBarrierAssets b) groupID.
Definition limitOf (limit : OrderSizeLimit) : PretradePoliciesOrderSizeLimit :=
  NewPretradePoliciesOrderSizeLimit (newParamQuantityOptionalFromOptional (MaxQuantity limit))
    (newParamVolumeOptionalFromOptional (MaxNotional limit)).
Definition BrokerBarrier (barrier : OrderSizeBrokerBarrier) (b : ReadyBuilder) : ReadyBuilder :=
  mkReady (Some (NewPretradePoliciesOrderSizeBrokerBarrier (limitOf (osb_Limit barrier))))
    (assetBarriers b) (assetBarrierAssets b) (accountAssetBarriers b) (accountAssetBarrierAssets b) (policyGroupID b).
Definition addAsset (b : ReadyBuilder) (barrier : OrderSizeAssetBarrier) : ReadyBuilder :=
  mkReady (broker b)
    (assetBarriers b ++ [NewPretradePoliciesOrderSizeAssetBarrier (limitOf (osa_Limit barrier)) (AssetHandle (osa_Asset barrier))])
    (assetBarrierAssets b ++ [osa_Asset barrier]) (accountAssetBarriers b) (accountAssetBarrierAssets b) (policyGroupID b).
Definition AssetBarriers (barriers : list OrderSizeAssetBarrier) (b : ReadyBuilder) : ReadyBuilder := foldl addAsset b barriers.
Definition addAccountAsset (b : ReadyBuilder) (barrier : OrderSizeAccountAssetBarrier) : ReadyBuilder :=
  mkReady (broker b) (assetBarriers b) (assetBarrierAssets b)
    (accountAssetBarriers b ++ [NewPretradePoliciesOrderSizeAccountAssetBarrier (limitOf (osca_Limit barrier))
       (AccountIDHandle (osca_AccountID barrier)) (AssetHandle (osca_Asset barrier))])
    (accountAssetBarrierAssets b ++ [osca_Asset barrier]) (policyGroupID b).
Definition AccountAssetBarriers (barriers : list OrderSizeAccountAssetBarrier) (b : ReadyBuilder) : ReadyBuilder :=
  foldl addAccountAsset b barriers.
Definition Build {L R E} `{!NativePolicies E} (b : ReadyBuilder) (builder : Z) : M (Seen L (Library R E)) (option error) :=
  EngineBuilderAddBuiltinOrderSizeLimit builder (policyGroupID b) (broker b) (assetBarriers b) (accountAssetBarriers b).
(** The entry builder passes its calls on and returns the ready builder. *)
Definition EntryPolicyGroupID (groupID : Z) (b : ReadyBuilder) : ReadyBuilder := PolicyGroupID groupID b.
Definition EntryBrokerBarrier (barrier : OrderSizeBrokerBarrier) (b : ReadyBuilder) : ReadyBuilder := BrokerBarrier barrier b.
Definition EntryAssetBarriers (barriers : list OrderSizeAssetBarrier) (b : ReadyBuilder) : ReadyBuilder := AssetBarriers barriers b.
Definition EntryAccountAssetBarriers (barriers : list OrderSizeAccountAssetBarrier) (b : ReadyBuilder) : ReadyBuilder := AccountAssetBarriers barriers b.
End Size.

(** ** P&L bounds *)

Record PnlBoundsBrokerBarrier := mkPnlBoundsBroker {
  pbb_SettlementAsset : Asset; pbb_LowerBound : option Pnl; pbb_UpperBound : option Pnl;
}.
Record PnlBoundsAccountAssetBarrier := mkPnlBoundsAccountAsset {
  pba_Barrier : PnlBoundsBrokerBarrier; pba_AccountID : AccountID; pba_InitialPnl : Pnl;
}.
Record PnlBoundsAccountAssetBarrierUpdate := mkPnlBoundsUpdate {
  pbu_Barrier : PnlBoundsBrokerBarrier; pbu_AccountID : AccountID;
}.
Definition newParamPnlOptionalFromOptional (value : option Pnl) : ParamPnlOptional :=
  match value with Some v => NewParamPnlOptional (PnlHandle v) | None => zeroCOptional zeroDecimal end.

Module PnlBounds.
Record ReadyBuilder := mkReady {
  brokerBarriers : list (PretradePoliciesPnlBoundsBarrier StringView);
  brokerBarrierSettlementAssets : list Asset;
  accountBarriers : list (PretradePoliciesPnlBoundsAccountBarrier StringView);
  accountBarrierSettlementAssets : list Asset;
  policyGroupID : Z;
}.
Definition BuildPnlBoundsKillSwitch : ReadyBuilder := mkReady [] [] [] [] DefaultPolicyGroupID.
Definition PolicyGroupID (groupID : Z) (b : ReadyBuilder) : ReadyBuilder :=
  mkReady (brokerBarriers b) (brokerBarrierSettlementAssets b) (accountBarriers b) (accountBarrierSettlementAssets b) groupID.
Definition addBroker (b : ReadyBuilder) (barrier : PnlBoundsBrokerBarrier) : ReadyBuilder :=
  mkReady (brokerBarriers b ++ [NewPretradePoliciesPnlBoundsBarrier (AssetHandle (pbb_SettlementAsset barrier))
      (newParamPnlOptionalFromOptional (pbb_LowerBound barrier)) (newParamPnlOptionalFromOptional (pbb_UpperBound barrier))])
    (brokerBarrierSettlementAssets b ++ [pbb_SettlementAsset barrier])
    (accountBarriers b) (accountBarrierSettlementAssets b) (policyGroupID b).
Definition BrokerBarriers (barriers : list PnlBoundsBrokerBarrier) (b : ReadyBuilder) : ReadyBuilder := foldl addBroker b barriers.
Definition addAccount (b : ReadyBuilder) (barrier : PnlBoundsAccountAssetBarrier) : ReadyBuilder :=
  mkReady (brokerBarriers b) (brokerBarrierSettlementAssets b)
    (accountBarriers b ++ [NewPretradePoliciesPnlBoundsAccountBarrier (AccountIDHandle (pba_AccountID barrier))
      (AssetHandle (pbb_SettlementAsset (pba_Barrier barrier)))
      (newParamPnlOptionalFromOptional (pbb_LowerBound (pba_Barrier barrier)))
      (newParamPnlOptionalFromOptional (pbb_UpperBound (pba_Barrier barrier))) (PnlHandle (pba_InitialPnl barrier))])
    (accountBarrierSettlementAssets b ++ [pbb_SettlementAsset (pba_Barrier barrier)]) (policyGroupID b).
Definition AccountBarriers (barriers : list PnlBoundsAccountAssetBarrier) (b : ReadyBuilder) : ReadyBuilder := foldl addAccount b barriers.
Definition Build {L R E} `{!NativePolicies E} (b : ReadyBuilder) (builder : Z) : M (Seen L (Library R E)) (option error) :=
  EngineBuilderAddBuiltinPnlBoundsKillSwitch builder (policyGroupID b) (brokerBarriers b) (accountBarriers b).
(** The entry builder passes its calls on and returns the ready builder. *)
Definition EntryPolicyGroupID (groupID : Z) (b : ReadyBuilder) : ReadyBuilder := PolicyGroupID groupID b.
Definition EntryBrokerBarriers (barriers : list PnlBoundsBrokerBarrier) (b : ReadyBuilder) : ReadyBuilder := BrokerBarriers barriers b.
Definition EntryAccountBarriers (barriers : list PnlBoundsAccountAssetBarrier) (b : ReadyBuilder) : ReadyBuilder := AccountBarriers barriers b.
End PnlBounds.

(** ** Order validation: a value, whose methods return a copy *)

Record OrderValidationBuilder := mkOrderValidation { ov_policyGroupID : Z }.
Definition BuildOrderValidation : OrderValidationBuilder := mkOrderValidation DefaultPolicyGroupID.
Definition OrderValidationPolicyGroupID (groupID : Z) (b : OrderValidationBuilder) : OrderValidationBuilder := mkOrderValidation groupID.
Definition OrderValidationBuild {L R E} `{!NativePolicies E} (b : OrderValidationBuilder) (builder : Z) : M (Seen L (Library R E)) (option error) :=
  EngineBuilderAddBuiltinOrderValidation builder (ov_policyGroupID b).

(** ** Spot funds *)

Definition SpotFundsPricingSourceMark : Z := 0.
Definition SpotFundsPricingSourceBookTop : Z := 1.

Record SpotFundsOverrideTargetInstrument := mkTI { ti_Instrument : InstrumentID }.
Record SpotFundsOverrideTargetInstrumentAccount := mkTIA { tia_Instrument : InstrumentID; tia_AccountID : AccountID }.
Record SpotFundsOverrideTargetInstrumentAccountGroup := mkTIG { tig_Instrument : InstrumentID; tig_AccountGroupID : AccountGroupID }.
(** What the interface holds: a target, a pointer to one or nil, nothing, or a type of
    another package that embeds one, by its name. *)
Inductive SpotFundsOverrideTarget :=
| Target_nil
| Target_Instrument (target : SpotFundsOverrideTargetInstrument)
| Target_InstrumentPtr (target : option SpotFundsOverrideTargetInstrument)
| Target_InstrumentAccount (target : SpotFundsOverrideTargetInstrumentAccount)
| Target_InstrumentAccountPtr (target : option SpotFundsOverrideTargetInstrumentAccount)
| Target_InstrumentAccountGroup (target : SpotFundsOverrideTargetInstrumentAccountGroup)
| Target_InstrumentAccountGroupPtr (target : option SpotFundsOverrideTargetInstrumentAccountGroup)
| Target_other (typeName : string).
Record SpotFundsOverride := mkSpotOverride { SlippageBps : option Z }.
Record SpotFundsOverrideEntry := mkOverrideEntry { oe_Target : SpotFundsOverrideTarget; oe_Override : SpotFundsOverride }.

Definition errTargetNil : error := EText "target is nil" 0.
Definition NewNativeSpotFundsOverride (target : SpotFundsOverrideTarget) (slippageBps : option Z)
    : PretradePoliciesSpotFundsOverride * option error :=
  let instrument t := (NewPretradePoliciesSpotFundsOverride (InstrumentIDHandle (ti_Instrument t)) None None slippageBps, None) in
  let account t := (NewPretradePoliciesSpotFundsOverride (InstrumentIDHandle (tia_Instrument t))
    (Some (AccountIDHandle (tia_AccountID t))) None slippageBps, None) in
  let group t := (NewPretradePoliciesSpotFundsOverride (InstrumentIDHandle (tig_Instrument t)) None
    (Some (AccountGroupIDHandle (tig_AccountGroupID t))) slippageBps, None) in
  match target with
  | Target_Instrument t | Target_InstrumentPtr (Some t) => instrument t
  | Target_InstrumentAccount t | Target_InstrumentAccountPtr (Some t) => account t
  | Target_InstrumentAccountGroup t | Target_InstrumentAccountGroupPtr (Some t) => group t
  | Target_InstrumentPtr None | Target_InstrumentAccountPtr None | Target_InstrumentAccountGroupPtr None | Target_nil =>
      (zeroOverride, Some errTargetNil)
  | Target_other name => (zeroOverride, Some (EText ("unsupported target type " +:+ name) 0))
  end.

(** *** Limit modes *)

Definition SpotFundsLimitModeEnforce : Z := 0.
Definition SpotFundsLimitModeTrackOnly : Z := 1.
Definition SpotFundsLimitModeHandle (v : Z) : Z := v.
Definition SpotFundsLimitModeString (v : Z) : string :=
  if (v =? SpotFundsLimitModeEnforce)%Z then "enforce"
  else if (v =? SpotFundsLimitModeTrackOnly)%Z then "track-only"
  else "SpotFundsLimitMode(" +:+ pretty v +:+ ")".
Definition NativeSpotFundsLimitMode (mode : Z) : Z := SpotFundsLimitModeHandle mode.
Definition nativeSpotFundsLimitModeIgnored : Z := 0.
Definition NativeSpotFundsLimitModeOption (mode : option Z) : Z * bool :=
  match mode with
  | Some v => (SpotFundsLimitModeHandle v, true)
  | None => (nativeSpotFundsLimitModeIgnored, false)
  end.

(** *** The spot-funds builder

    [Overrides] keeps the slice it is given, so the entries are those the slice has when
    [Build] reads it: [overrides] refers to one of the caller's slices. *)
Module Spot.
Record ReadyBuilder := mkReady {
  marketData : option objRef;
  marketSlippageBps : option Z;
  pricingSource : Z;
  overrides : option nat;
  policyGroupID : Z;
}.
Definition BuildSpotFunds : ReadyBuilder := mkReady None None SpotFundsPricingSourceMark None DefaultPolicyGroupID.
Definition WithMarketOrders (service : option objRef) (slippageBps : Z) (b : ReadyBuilder) : ReadyBuilder :=
  mkReady service (Some slippageBps) (pricingSource b) (overrides b) (policyGroupID b).
Definition PricingSource (source : Z) (b : ReadyBuilder) : ReadyBuilder :=
  mkReady (marketData b) (marketSlippageBps b) source (overrides b) (policyGroupID b).
Definition Overrides (slice : option nat) (b : ReadyBuilder) : ReadyBuilder :=
  mkReady (marketData b) (marketSlippageBps b) (pricingSource b) slice (policyGroupID b).
Definition PolicyGroupID (groupID : Z) (b : ReadyBuilder) : ReadyBuilder :=
  mkReady (marketData b) (marketSlippageBps b) (pricingSource b) (overrides b) groupID.

(** The entries translated, or the error of the first that has no native form. *)
Fixpoint nativeOverrides (i : nat) (entries : list SpotFundsOverrideEntry) : list PretradePoliciesSpotFundsOverride + error :=
  match entries with
  | [] => inl []
  | e :: entries =>
    match NewNativeSpotFundsOverride (oe_Target e) (SlippageBps (oe_Override e)) with
    | (_, Some err) => inr (EWrap ("spot funds override " +:+ pretty i) err)
    | (override, None) =>
      match nativeOverrides (S i) entries with
      | inl overrides => inl (override :: overrides)
      | inr err => inr err
      end
    end
  end.

Section Build.
Context {L R E : Type} `{!NativePolicies E}.
(** [with a clone of the service, if there is one, destroyed at the end] *)
Definition withClone (service : option objRef) (body : option Z -> M (Seen L (Library R E)) (option error))
    : M (Seen L (Library R E)) (option error) :=
  match service with
  | None => body None
  | Some s =>
    let* r := onServices (mdhandle_Clone (Some s)) in
    match r with
    | inr err => ret (Some err)
    | inl h => deferred (onServices (DestroyMarketDataService h)) (body (Some h))
    end
  end.
Definition Build (slices : nat -> list SpotFundsOverrideEntry) (b : ReadyBuilder) (builder : Z) : M (Seen L (Library R E)) (option error) :=
  withClone (marketData b) (fun marketDataHandle =>
    match nativeOverrides 0 (match overrides b with Some slice => slices slice | None => [] end) with
    | inr err => ret (Some err)
    | inl overrides =>
      EngineBuilderAddBuiltinSpotFunds builder marketDataHandle (marketSlippageBps b) (pricingSource b) overrides (policyGroupID b)
    end).
End Build.
(** The entry builder passes its calls on and returns the ready builder. *)
Definition EntryPolicyGroupID (groupID : Z) (b : ReadyBuilder) : ReadyBuilder := PolicyGroupID groupID b.
Definition EntryWithMarketOrders (service : option objRef) (slippageBps : Z) (b : ReadyBuilder) : ReadyBuilder :=
  WithMarketOrders service slippageBps b.
Definition EntryBuild {L R E} `{!NativePolicies E} (slices : nat -> list SpotFundsOverrideEntry) (b : ReadyBuilder) (builder : Z)
    : M (Seen L (Library R E)) (option error) := Build slices b builder.
End Spot.

(** *** The P&L bounds preset *)

Record SpotFundsPnlBoundsBarrier := mkSpotPnl { spb_Currency : Asset; spb_LowerBound : option Pnl; spb_UpperBound : option Pnl }.
Record SpotFundsPnlBoundsAccountGroupBarrier := mkSpotPnlGroup { spg_Barrier : SpotFundsPnlBoundsBarrier; spg_AccountGroupID : AccountGroupID }.
Record SpotFundsPnlBoundsAccountBarrier := mkSpotPnlAccount { spc_Barrier : SpotFundsPnlBoundsBarrier; spc_AccountID : AccountID }.
Definition newNativeSpotFundsPnlBoundsBarrier (barrier : SpotFundsPnlBoundsBarrier) : PretradePoliciesSpotFundsPnlBoundsBarrier StringView :=
  NewPretradePoliciesSpotFundsPnlBoundsBarrier (AssetHandle (spb_Currency barrier))
    (newParamPnlOptionalFromOptional (spb_LowerBound barrier)) (newParamPnlOptionalFromOptional (spb_UpperBound barrier)).

Module SpotPnl.
Record ReadyBuilder := mkReady {
  marketData : option objRef;
  globalBarrier : option (PretradePoliciesSpotFundsPnlBoundsBarrier StringView);
  accountGroupBarriers : list (PretradePoliciesSpotFundsPnlBoundsAccountGroupBarrier StringView);
  accountBarriers : list (PretradePoliciesSpotFundsPnlBoundsAccountBarrier StringView);
  globalBarrierCurrency : Asset;
  accountGroupCurrencies : list Asset;
  accountCurrencies : list Asset;
  policyGroupID : Z;
}.
Definition BuildSpotFundsPnlBoundsKillSwitch : ReadyBuilder := mkReady None None [] [] None [] [] DefaultPolicyGroupID.
Definition WithMarketData (service : option objRef) (b : ReadyBuilder) : ReadyBuilder :=
  mkReady service (globalBarrier b) (accountGroupBarriers b) (accountBarriers b) (globalBarrierCurrency b)
    (accountGroupCurrencies b) (accountCurrencies b) (policyGroupID b).
Definition PolicyGroupID (groupID : Z) (b : ReadyBuilder) : ReadyBuilder :=
  mkReady (marketData b) (globalBarrier b) (accountGroupBarriers b) (accountBarriers b) (globalBarrierCurrency b)
    (accountGroupCurrencies b) (accountCurrencies b) groupID.
Definition GlobalBarrier (barrier : SpotFundsPnlBoundsBarrier) (b : ReadyBuilder) : ReadyBuilder :=
  mkReady (marketData b) (Some (newNativeSpotFundsPnlBoundsBarrier barrier)) (accountGroupBarriers b) (accountBarriers b)
    (spb_Currency barrier) (accountGroupCurrencies b) (accountCurrencies b) (policyGroupID b).
Definition addGroup (b : ReadyBuilder) (barrier : SpotFundsPnlBoundsAccountGroupBarrier) : ReadyBuilder :=
  mkReady (marketData b) (globalBarrier b)
    (accountGroupBarriers b ++ [NewPretradePoliciesSpotFundsPnlBoundsAccountGroupBarrier
      (AccountGroupIDHandle (spg_AccountGroupID barrier)) (newNativeSpotFundsPnlBoundsBarrier (spg_Barrier barrier))])
    (accountBarriers b) (globalBarrierCurrency b) (accountGroupCurrencies b ++ [spb_Currency (spg_Barrier barrier)])
    (accountCurrencies b) (policyGroupID b).
Definition AccountGroupBarriers (barriers : list SpotFundsPnlBoundsAccountGroupBarrier) (b : ReadyBuilder) : ReadyBuilder := foldl addGroup b barriers.
Definition addAccount (b : ReadyBuilder) (barrier : SpotFundsPnlBoundsAccountBarrier) : ReadyBuilder :=
  mkReady (marketData b) (globalBarrier b) (accountGroupBarriers b)
    (accountBarriers b ++ [NewPretradePoliciesSpotFundsPnlBoundsAccountBarrier
      (AccountIDHandle (spc_AccountID barrier)) (newNativeSpotFundsPnlBoundsBarrier (spc_Barrier barrier))])
    (globalBarrierCurrency b) (accountGroupCurrencies b) (accountCurrencies b ++ [spb_Currency (spc_Barrier barrier)]) (policyGroupID b).
Definition AccountBarriers (barriers : list SpotFundsPnlBoundsAccountBarrier) (b : ReadyBuilder) : ReadyBuilder := foldl addAccount b barriers.
Definition Build {L R E} `{!NativePolicies E} (b : ReadyBuilder) (builder : Z) : M (Seen L (Library R E)) (option error) :=
  Spot.withClone (marketData b) (fun marketDataHandle =>
    EngineBuilderAddBuiltinSpotFundsPnlBoundsKillSwitch builder marketDataHandle (policyGroupID b) (globalBarrier b)
      (accountGroupBarriers b) (accountBarriers b)).
(** The entry builder passes its calls on and returns the ready builder. *)
Definition EntryWithMarketData (service : option objRef) (b : ReadyBuilder) : ReadyBuilder := WithMarketData service b.
Definition EntryPolicyGroupID (groupID : Z) (b : ReadyBuilder) : ReadyBuilder := PolicyGroupID groupID b.
Definition EntryGlobalBarrier (barrier : SpotFundsPnlBoundsBarrier) (b : ReadyBuilder) : ReadyBuilder := GlobalBarrier barrier b.
Definition EntryAccountGroupBarriers (barriers : list SpotFundsPnlBoundsAccountGroupBarrier) (b : ReadyBuilder) : ReadyBuilder := AccountGroupBarriers barriers b.
Definition EntryAccountBarriers (barriers : list SpotFundsPnlBoundsAccountBarrier) (b : ReadyBuilder) : ReadyBuilder := AccountBarriers barriers b.
Definition EntryBuild {L R E} `{!NativePolicies E} (b : ReadyBuilder) (builder : Z) : M (Seen L (Library R E)) (option error) := Build b builder.
End SpotPnl.
