(* ===== verification/PolicyFacts.v ===== *)
(** * What the built-in policies are registered with

    Between the calls of a builder and its [Build] the collector may run and the program
    may allocate. [history] has all such courses; in each the native library is given, in
    order, the barriers of the calls with the names their assets had when they were
    added. [Describes] is what a builder promises for this, one instance per builder.

    [Build] of a spot-funds policy clones the handle of the market-data service for the
    call and destroys the clone on every way out. *)
From Stdlib Require Import ZArith Lia.
From stdpp Require Import base list gmap strings pretty.
From S2P Require Import Prelude GoRuntime NativeErrors ServiceStore MarketData NativeMem Routing ParamValues NumericTypes NativePolicies Policies.

(** ** Names of barriers *)

Definition rootsOf (assets : list Asset) : list nat := assets ≫= assetRoots.
(** What an asset says. *)
Definition said {L} (m : Mem L) (a : Asset) : string := default EmptyString (assetText m a).

Section Axis.
Context {L : Type} {X : Type -> Type} `{!Named X}.

(** The records of an axis: their names are views of the assets kept next to them, and
    they say [ps]. *)
Definition viewing (m : Mem L) (x : X StringView) (a : Asset) : Prop :=
  nameOf x = importString (AssetHandle a) /\ assetLive m a.
Definition axis (m : Mem L) (xs : list (X StringView)) (assets : list Asset) (ps : list (X string)) : Prop :=
  Forall2 (viewing m) xs assets /\ map (shown m) xs = ps.

Lemma shown_viewing m x a : viewing m x a -> shown m x = withName x (said m a).
Proof. intros [Hn Hl]. unfold shown, said. by rewrite Hn, viewText_handle. Qed.
Lemma axis_nil m : axis m [] [] [].
Proof. by split. Qed.
Lemma axis_app m xs xs' assets assets' ps ps' :
  axis m xs assets ps -> axis m xs' assets' ps' -> axis m (xs ++ xs') (assets ++ assets') (ps ++ ps').
Proof. intros [A1 <-] [A2 <-]. split; [by apply Forall2_app|apply map_app]. Qed.
Lemma axis_map {A} m (f : A -> X StringView) (g : A -> Asset) (h : A -> X string) (l : list A) :
  (forall x, nameOf (f x) = importString (AssetHandle (g x))) -> (forall x, withName (f x) (said m (g x)) = h x) ->
  Forall (fun x => assetLive m (g x)) l -> axis m (map f l) (map g l) (map h l).
Proof.
  intros Hn Hh Hl. induction Hl as [|x l Hx _ [IH1 IH2]]; [by split|].
  assert (viewing m (f x) (g x)) as V by (by split).
  split; cbn; [by constructor|]. by rewrite (shown_viewing _ _ _ V), Hh, IH2.
Qed.
(** A change of the memory that keeps what the assets say. *)
Lemma axis_moved m m' xs assets ps :
  (forall a, a ∈ assets -> assetLive m a -> assetLive m' a /\ assetText m' a = assetText m a) ->
  axis m xs assets ps -> axis m' xs assets ps.
Proof.
  intros H [A <-]. revert H. induction A as [|x a xs assets Hx A IH]; intros H; [by split|].
  destruct IH as [I1 I2]; [set_solver|].
  destruct (H a ltac:(set_solver) (proj2 Hx)) as [Hl Ht].
  assert (viewing m' x a) as V by (split; [apply Hx|done]).
  split; [by constructor|]. cbn. rewrite (shown_viewing _ _ _ V), (shown_viewing _ _ _ Hx), I2.
  unfold said. by rewrite Ht.
Qed.
Lemma readNamed_shown {W} m x a (w : W) : viewing m x a -> readNamed x (mkSeen m w) = (Ret (shown m x), mkSeen m w).
Proof.
  intros [Hn Hl]. unfold readNamed, bind, onMem, shown. cbn. rewrite Hn, ViewSafe_spec by (by apply viewLive_handle). done.
Qed.
Lemma readAll_axis {W} m xs assets ps (w : W) : axis m xs assets ps -> readAll xs (mkSeen m w) = (Ret ps, mkSeen m w).
Proof.
  intros [A <-]. induction A as [|x a xs assets Hx A IH]; [done|]. cbn [readAll map].
  rewrite (bind_Ret _ _ _ _ _ (readNamed_shown m x a w Hx)). by rewrite (bind_Ret _ _ _ _ _ IH).
Qed.
End Axis.

Lemma rootsOf_elem (a : Asset) assets : a ∈ assets -> assetRoots a ⊆ rootsOf assets.
Proof. intros Ha x Hx. apply list_elem_of_bind. by exists a. Qed.
Lemma axis_collected {L} {X} `{!Named X} roots lr (m m' : Mem L) (xs : list (X StringView)) assets ps :
  collected roots lr m m' -> rootsOf assets ⊆ roots -> axis m xs assets ps -> axis m' xs assets ps.
Proof.
  intros Hc Hr. apply axis_moved. intros a Ha Hl. pose proof (rootsOf_elem a assets Ha) as Hs.
  split; [eapply collected_assetLive; [done|by etransitivity|done]|eapply collected_assetText; [done|by etransitivity]].
Qed.
Lemma axis_extends {L} {X} `{!Named X} (m m' : Mem L) (xs : list (X StringView)) assets ps :
  extends m m' -> axis m xs assets ps -> axis m' xs assets ps.
Proof.
  intros Hc. apply axis_moved. intros a _ Hl.
  split; [by eapply extends_assetLive|by eapply extends_assetText].
Qed.

(** A record that may be absent. *)
Definition optionalAxis {L} (m : Mem L) {X} `{!Named X} (x : option (X StringView)) (a : Asset) (p : option (X string)) : Prop :=
  match x with None => p = None | Some x => axis m [x] [a] (option_list p) end.
Lemma readOptional_axis {L W} (m : Mem L) {X} `{!Named X} (x : option (X StringView)) a p (w : W) :
  optionalAxis m x a p -> readOptional x (mkSeen m w) = (Ret p, mkSeen m w).
Proof.
  destruct x as [x|]; cbn; [|by intros ->]. intros [A Hp]. inversion A as [|? ? ? ? Hx _]; subst. destruct p; [|done].
  cbn in Hp. simplify_eq. by rewrite (bind_Ret _ _ _ _ _ (readNamed_shown m x a w Hx)).
Qed.

(** ** Builders and what their calls ask for *)

(** Calls on a builder and the plan they describe; what the builder keeps alive. *)
Class Describes (B C P : Type) := {
  initial : B;
  initialPlan : P;
  apply : C -> B -> B;
  planned : forall {L}, Mem L -> C -> P -> P;
  usable : forall {L}, Mem L -> C -> Prop;
  keeps : B -> list nat;
  describes : forall {L}, Mem L -> B -> P -> Prop;
}.
Class DescribesOk (B C P : Type) `{!Describes B C P} : Prop := {
  describes_initial {L} (m : Mem L) : describes m initial initialPlan;
  describes_apply {L} (m : Mem L) c b p : usable m c -> describes m b p -> describes m (apply c b) (planned m c p);
  describes_collected {L} (m m' : Mem L) lr b p : collected (keeps b) lr m m' -> describes m b p -> describes m' b p;
  describes_extends {L} (m m' : Mem L) b p : extends m m' -> describes m b p -> describes m' b p;
}.

Section History.
Context {B C P L : Type} `{!Describes B C P, !DescribesOk B C P}.
Inductive history : Mem L -> B -> P -> Prop :=
| history_start m : history m initial initialPlan
| history_call m c b p : history m b p -> usable m c -> history m (apply c b) (planned m c p)
| history_collect m m' lr b p : history m b p -> collected (keeps b) lr m m' -> history m' b p
| history_grow m m' b p : history m b p -> extends m m' -> history m' b p.
Lemma history_describes m b p : history m b p -> describes m b p.
Proof.
  induction 1; [apply describes_initial|by apply describes_apply|by eapply describes_collected|by eapply describes_extends].
Qed.
End History.

(** A list of barriers is appended. *)
Ltac solve_appends :=
  intros b l; revert b; induction l as [|x l IH]; intros b;
  [destruct b; cbn; by rewrite !app_nil_r | cbn [foldl]; rewrite IH; cbn; by rewrite <- !app_assoc].

(** *** Rate limits *)

Record ratePlan := mkRatePlan {
  rp_group : Z;
  rp_broker : option PretradePoliciesRateLimitBrokerBarrier;
  rp_assets : list (PretradePoliciesRateLimitAssetBarrier string);
  rp_accounts : list PretradePoliciesRateLimitAccountBarrier;
  rp_accountAssets : list (PretradePoliciesRateLimitAccountAssetBarrier string);
}.
Inductive rateCall :=
| RatePolicyGroupID (groupID : Z)
| RateBrokerBarrier (barrier : RateLimitBrokerBarrier)
| RateAssetBarriers (barriers : list RateLimitAssetBarrier)
| RateAccountBarriers (barriers : list RateLimitAccountBarrier)
| RateAccountAssetBarriers (barriers : list RateLimitAccountAssetBarrier).
Definition rateApply (c : rateCall) : Rate.ReadyBuilder -> Rate.ReadyBuilder :=
  match c with
  | RatePolicyGroupID g => Rate.PolicyGroupID g
  | RateBrokerBarrier x => Rate.BrokerBarrier x
  | RateAssetBarriers l => Rate.AssetBarriers l
  | RateAccountBarriers l => Rate.AccountBarriers l
  | RateAccountAssetBarriers l => Rate.AccountAssetBarriers l
  end.
Definition ratePlanned {L} (m : Mem L) (c : rateCall) (p : ratePlan) : ratePlan :=
  match c with
  | RatePolicyGroupID g => mkRatePlan g (rp_broker p) (rp_assets p) (rp_accounts p) (rp_accountAssets p)
  | RateBrokerBarrier x =>
      mkRatePlan (rp_group p) (Some (mkRateBroker (MaxOrders (rlb_Limit x)) (Window (rlb_Limit x))))
        (rp_assets p) (rp_accounts p) (rp_accountAssets p)
  | RateAssetBarriers l =>
      mkRatePlan (rp_group p) (rp_broker p)
        (rp_assets p ++ map (fun x => mkRateAsset (MaxOrders (rla_Limit x)) (Window (rla_Limit x)) (said m (rla_SettlementAsset x))) l)
        (rp_accounts p) (rp_accountAssets p)
  | RateAccountBarriers l =>
      mkRatePlan (rp_group p) (rp_broker p) (rp_assets p)
        (rp_accounts p ++ map (fun x => mkRateAccount (rlc_AccountID x) (MaxOrders (rlc_Limit x)) (Window (rlc_Limit x))) l)
        (rp_accountAssets p)
  | RateAccountAssetBarriers l =>
      mkRatePlan (rp_group p) (rp_broker p) (rp_assets p) (rp_accounts p)
        (rp_accountAssets p ++ map (fun x => mkRateAccountAsset (rlca_AccountID x) (MaxOrders (rlca_Limit x)) (Window (rlca_Limit x))
           (said m (rlca_SettlementAsset x))) l)
  end.
#[export] Instance rate_describes : Describes Rate.ReadyBuilder rateCall ratePlan := {|
  initial := Rate.BuildRateLimit;
  initialPlan := mkRatePlan DefaultPolicyGroupID None [] [] [];
  apply := rateApply;
  planned _ m := ratePlanned m;
  usable _ m c :=
    match c with
    | RateAssetBarriers l => Forall (fun x => assetLive m (rla_SettlementAsset x)) l
    | RateAccountAssetBarriers l => Forall (fun x => assetLive m (rlca_SettlementAsset x)) l
    | _ => True
    end;
  keeps b := rootsOf (Rate.assetBarrierSettlementAssets b) ++ rootsOf (Rate.accountAssetBarrierSettlementAssets b);
  describes _ m b p :=
    Rate.err b = None /\ Rate.policyGroupID b = rp_group p /\ Rate.broker b = rp_broker p /\
    axis m (Rate.assetBarriers b) (Rate.assetBarrierSettlementAssets b) (rp_assets p) /\
    Rate.accountBarriers b = rp_accounts p /\
    axis m (Rate.accountAssetBarriers b) (Rate.accountAssetBarrierSettlementAssets b) (rp_accountAssets p);
|}.

Lemma rate_assets : forall b l, foldl Rate.addAsset b l =
  Rate.mkReady (Rate.broker b)
    (Rate.assetBarriers b ++ map (fun x => NewPretradePoliciesRateLimitAssetBarrier (MaxOrders (rla_Limit x))
       (rateLimitWindowNanoseconds (rla_Limit x)) (AssetHandle (rla_SettlementAsset x))) l)
    (Rate.assetBarrierSettlementAssets b ++ map rla_SettlementAsset l) (Rate.accountBarriers b)
    (Rate.accountAssetBarriers b) (Rate.accountAssetBarrierSettlementAssets b) (Rate.policyGroupID b) (Rate.err b).
Proof. solve_appends. Qed.
Lemma rate_accounts : forall b l, foldl Rate.addAccount b l =
  Rate.mkReady (Rate.broker b) (Rate.assetBarriers b) (Rate.assetBarrierSettlementAssets b)
    (Rate.accountBarriers b ++ map (fun x => NewPretradePoliciesRateLimitAccountBarrier (AccountIDHandle (rlc_AccountID x))
       (MaxOrders (rlc_Limit x)) (rateLimitWindowNanoseconds (rlc_Limit x))) l)
    (Rate.accountAssetBarriers b) (Rate.accountAssetBarrierSettlementAssets b) (Rate.policyGroupID b) (Rate.err b).
Proof. solve_appends. Qed.
Lemma rate_accountAssets : forall b l, foldl Rate.addAccountAsset b l =
  Rate.mkReady (Rate.broker b) (Rate.assetBarriers b) (Rate.assetBarrierSettlementAssets b) (Rate.accountBarriers b)
    (Rate.accountAssetBarriers b ++ map (fun x => NewPretradePoliciesRateLimitAccountAssetBarrier (AccountIDHandle (rlca_AccountID x))
       (MaxOrders (rlca_Limit x)) (rateLimitWindowNanoseconds (rlca_Limit x)) (AssetHandle (rlca_SettlementAsset x))) l)
    (Rate.accountAssetBarrierSettlementAssets b ++ map rlca_SettlementAsset l) (Rate.policyGroupID b) (Rate.err b).
Proof. solve_appends. Qed.
#[export] Instance rate_describes_ok : DescribesOk Rate.ReadyBuilder rateCall ratePlan.
Proof.
  split; cbn.
  - intros L m. repeat split; constructor.
  - intros L m c b p Hu (He & Hg & Hb & Ha & Hc & Hca).
    destruct c; cbn; unfold Rate.BrokerBarrier, Rate.AssetBarriers, Rate.AccountBarriers, Rate.AccountAssetBarriers;
      rewrite ?He, ?rate_assets, ?rate_accounts, ?rate_accountAssets; cbn; rewrite ?Hc; split_and!; try done;
      (apply axis_app; [done|]); by apply axis_map.
  - intros L m m' lr b p Hc (He & Hg & Hb & Ha & Hac & Hca). split_and!; try done; eapply axis_collected; try done; set_solver.
  - intros L m m' b p Hx (He & Hg & Hb & Ha & Hac & Hca). split_and!; try done; by eapply axis_extends.
Qed.

(** *** Order sizes *)

Record sizePlan := mkSizePlan {
  zp_group : Z;
  zp_broker : option PretradePoliciesOrderSizeBrokerBarrier;
  zp_assets : list (PretradePoliciesOrderSizeAssetBarrier string);
  zp_accountAssets : list (PretradePoliciesOrderSizeAccountAssetBarrier string);
}.
Inductive sizeCall :=
| SizePolicyGroupID (groupID : Z)
| SizeBrokerBarrier (barrier : OrderSizeBrokerBarrier)
| SizeAssetBarriers (barriers : list OrderSizeAssetBarrier)
| SizeAccountAssetBarriers (barriers : list OrderSizeAccountAssetBarrier).
Definition sizeApply (c : sizeCall) : Size.ReadyBuilder -> Size.ReadyBuilder :=
  match c with
  | SizePolicyGroupID g => Size.PolicyGroupID g
  | SizeBrokerBarrier x => Size.BrokerBarrier x
  | SizeAssetBarriers l => Size.AssetBarriers l
  | SizeAccountAssetBarriers l => Size.AccountAssetBarriers l
  end.
(** A cap that is set, or the zero record. *)
Definition capOf (value : option ParamDecimal) : COptional ParamDecimal :=
  match value with Some x => mkCOptional x true | None => zeroCOptional zeroDecimal end.
Definition capsOf (limit : OrderSizeLimit) : PretradePoliciesOrderSizeLimit := mkSizeLimit (capOf (MaxQuantity limit)) (capOf (MaxNotional limit)).
Definition sizePlanned {L} (m : Mem L) (c : sizeCall) (p : sizePlan) : sizePlan :=
  match c with
  | SizePolicyGroupID g => mkSizePlan g (zp_broker p) (zp_assets p) (zp_accountAssets p)
  | SizeBrokerBarrier x => mkSizePlan (zp_group p) (Some (mkSizeBroker (capsOf (osb_Limit x)))) (zp_assets p) (zp_accountAssets p)
  | SizeAssetBarriers l =>
      mkSizePlan (zp_group p) (zp_broker p)
        (zp_assets p ++ map (fun x => mkSizeAsset (capsOf (osa_Limit x)) (said m (osa_Asset x))) l) (zp_accountAssets p)
  | SizeAccountAssetBarriers l =>
      mkSizePlan (zp_group p) (zp_broker p) (zp_assets p)
        (zp_accountAssets p ++ map (fun x => mkSizeAccountAsset (capsOf (osca_Limit x)) (osca_AccountID x) (said m (osca_Asset x))) l)
  end.
#[export] Instance size_describes : Describes Size.ReadyBuilder sizeCall sizePlan := {|
  initial := Size.BuildOrderSizeLimit;
  initialPlan := mkSizePlan DefaultPolicyGroupID None [] [];
  apply := sizeApply;
  planned _ m := sizePlanned m;
  usable _ m c :=
    match c with
    | SizeAssetBarriers l => Forall (fun x => assetLive m (osa_Asset x)) l
    | SizeAccountAssetBarriers l => Forall (fun x => assetLive m (osca_Asset x)) l
    | _ => True
    end;
  keeps b := rootsOf (Size.assetBarrierAssets b) ++ rootsOf (Size.accountAssetBarrierAssets b);
  describes _ m b p :=
    Size.policyGroupID b = zp_group p /\ Size.broker b = zp_broker p /\
    axis m (Size.assetBarriers b) (Size.assetBarrierAssets b) (zp_assets p) /\
    axis m (Size.accountAssetBarriers b) (Size.accountAssetBarrierAssets b) (zp_accountAssets p);
|}.

Lemma limitOf_caps limit : Size.limitOf limit = capsOf limit.
Proof. by destruct limit as [[] []]. Qed.
Lemma size_assets : forall b l, foldl Size.addAsset b l =
  Size.mkReady (Size.broker b)
    (Size.assetBarriers b ++ map (fun x => NewPretradePoliciesOrderSizeAssetBarrier (Size.limitOf (osa_Limit x)) (AssetHandle (osa_Asset x))) l)
    (Size.assetBarrierAssets b ++ map osa_Asset l)
    (Size.accountAssetBarriers b) (Size.accountAssetBarrierAssets b) (Size.policyGroupID b).
Proof. solve_appends. Qed.
Lemma size_accountAssets : forall b l, foldl Size.addAccountAsset b l =
  Size.mkReady (Size.broker b) (Size.assetBarriers b) (Size.assetBarrierAssets b)
    (Size.accountAssetBarriers b ++ map (fun x => NewPretradePoliciesOrderSizeAccountAssetBarrier (Size.limitOf (osca_Limit x))
       (AccountIDHandle (osca_AccountID x)) (AssetHandle (osca_Asset x))) l)
    (Size.accountAssetBarrierAssets b ++ map osca_Asset l) (Size.policyGroupID b).
Proof. solve_appends. Qed.
#[export] Instance size_describes_ok : DescribesOk Size.ReadyBuilder sizeCall sizePlan.
Proof.
  split; cbn.
  - intros L m. repeat split; constructor.
  - intros L m c b p Hu (Hg & Hb & Ha & Hca).
    destruct c; cbn; unfold Size.AssetBarriers, Size.AccountAssetBarriers, Size.BrokerBarrier;
      rewrite ?size_assets, ?size_accountAssets, ?limitOf_caps; cbn; split_and!; try done;
      (apply axis_app; [done|]); by apply axis_map.
  - intros L m m' lr b p Hc (Hg & Hb & Ha & Hca). split_and!; try done; eapply axis_collected; try done; set_solver.
  - intros L m m' b p Hx (Hg & Hb & Ha & Hca). split_and!; try done; by eapply axis_extends.
Qed.

(** *** P&L bounds *)

Record pnlPlan := mkPnlPlan {
  np_group : Z;
  np_brokers : list (PretradePoliciesPnlBoundsBarrier string);
  np_accounts : list (PretradePoliciesPnlBoundsAccountBarrier string);
}.
Inductive pnlCall :=
| PnlPolicyGroupID (groupID : Z)
| PnlBrokerBarriers (barriers : list PnlBoundsBrokerBarrier)
| PnlAccountBarriers (barriers : list PnlBoundsAccountAssetBarrier).
Definition pnlApply (c : pnlCall) : PnlBounds.ReadyBuilder -> PnlBounds.ReadyBuilder :=
  match c with
  | PnlPolicyGroupID g => PnlBounds.PolicyGroupID g
  | PnlBrokerBarriers l => PnlBounds.BrokerBarriers l
  | PnlAccountBarriers l => PnlBounds.AccountBarriers l
  end.
Definition pnlPlanned {L} (m : Mem L) (c : pnlCall) (p : pnlPlan) : pnlPlan :=
  match c with
  | PnlPolicyGroupID g => mkPnlPlan g (np_brokers p) (np_accounts p)
  | PnlBrokerBarriers l =>
      mkPnlPlan (np_group p)
        (np_brokers p ++ map (fun x => mkPnlBarrier (said m (pbb_SettlementAsset x)) (capOf (pbb_LowerBound x)) (capOf (pbb_UpperBound x))) l)
        (np_accounts p)
  | PnlAccountBarriers l =>
      mkPnlPlan (np_group p) (np_brokers p)
        (np_accounts p ++ map (fun x => mkPnlAccount (pba_AccountID x) (said m (pbb_SettlementAsset (pba_Barrier x)))
           (capOf (pbb_LowerBound (pba_Barrier x))) (capOf (pbb_UpperBound (pba_Barrier x))) (pba_InitialPnl x)) l)
  end.
#[export] Instance pnl_describes : Describes PnlBounds.ReadyBuilder pnlCall pnlPlan := {|
  initial := PnlBounds.BuildPnlBoundsKillSwitch;
  initialPlan := mkPnlPlan DefaultPolicyGroupID [] [];
  apply := pnlApply;
  planned _ m := pnlPlanned m;
  usable _ m c :=
    match c with
    | PnlPolicyGroupID _ => True
    | PnlBrokerBarriers l => Forall (fun x => assetLive m (pbb_SettlementAsset x)) l
    | PnlAccountBarriers l => Forall (fun x => assetLive m (pbb_SettlementAsset (pba_Barrier x))) l
    end;
  keeps b := rootsOf (PnlBounds.brokerBarrierSettlementAssets b) ++ rootsOf (PnlBounds.accountBarrierSettlementAssets b);
  describes _ m b p :=
    PnlBounds.policyGroupID b = np_group p /\
    axis m (PnlBounds.brokerBarriers b) (PnlBounds.brokerBarrierSettlementAssets b) (np_brokers p) /\
    axis m (PnlBounds.accountBarriers b) (PnlBounds.accountBarrierSettlementAssets b) (np_accounts p);
|}.

Lemma pnl_brokers : forall b l, foldl PnlBounds.addBroker b l =
  PnlBounds.mkReady (PnlBounds.brokerBarriers b ++ map (fun x => NewPretradePoliciesPnlBoundsBarrier (AssetHandle (pbb_SettlementAsset x))
      (newParamPnlOptionalFromOptional (pbb_LowerBound x)) (newParamPnlOptionalFromOptional (pbb_UpperBound x))) l)
    (PnlBounds.brokerBarrierSettlementAssets b ++ map pbb_SettlementAsset l)
    (PnlBounds.accountBarriers b) (PnlBounds.accountBarrierSettlementAssets b) (PnlBounds.policyGroupID b).
Proof. solve_appends. Qed.
Lemma pnl_accounts : forall b l, foldl PnlBounds.addAccount b l =
  PnlBounds.mkReady (PnlBounds.brokerBarriers b) (PnlBounds.brokerBarrierSettlementAssets b)
    (PnlBounds.accountBarriers b ++ map (fun x => NewPretradePoliciesPnlBoundsAccountBarrier (AccountIDHandle (pba_AccountID x))
      (AssetHandle (pbb_SettlementAsset (pba_Barrier x))) (newParamPnlOptionalFromOptional (pbb_LowerBound (pba_Barrier x)))
      (newParamPnlOptionalFromOptional (pbb_UpperBound (pba_Barrier x))) (PnlHandle (pba_InitialPnl x))) l)
    (PnlBounds.accountBarrierSettlementAssets b ++ map (fun x => pbb_SettlementAsset (pba_Barrier x)) l) (PnlBounds.policyGroupID b).
Proof. solve_appends. Qed.
#[export] Instance pnl_describes_ok : DescribesOk PnlBounds.ReadyBuilder pnlCall pnlPlan.
Proof.
  split; cbn.
  - intros L m. repeat split; constructor.
  - intros L m c b p Hu (Hg & Hb & Ha).
    destruct c; cbn; unfold PnlBounds.BrokerBarriers, PnlBounds.AccountBarriers; rewrite ?pnl_brokers, ?pnl_accounts; cbn;
      split_and!; try done; (apply axis_app; [done|]); by apply axis_map.
  - intros L m m' lr b p Hc (Hg & Hb & Ha). split_and!; try done; eapply axis_collected; try done; set_solver.
  - intros L m m' b p Hx (Hg & Hb & Ha). split_and!; try done; by eapply axis_extends.
Qed.

(** *** The spot-funds P&L preset *)

Record spotPlan := mkSpotPlan {
  sp_service : option objRef;
  sp_group : Z;
  sp_global : option (PretradePoliciesSpotFundsPnlBoundsBarrier string);
  sp_groups : list (PretradePoliciesSpotFundsPnlBoundsAccountGroupBarrier string);
  sp_accounts : list (PretradePoliciesSpotFundsPnlBoundsAccountBarrier string);
}.
Inductive spotCall :=
| SpotWithMarketData (service : option objRef)
| SpotPolicyGroupID (groupID : Z)
| SpotGlobalBarrier (barrier : SpotFundsPnlBoundsBarrier)
| SpotAccountGroupBarriers (barriers : list SpotFundsPnlBoundsAccountGroupBarrier)
| SpotAccountBarriers (barriers : list SpotFundsPnlBoundsAccountBarrier).
Definition spotApply (c : spotCall) : SpotPnl.ReadyBuilder -> SpotPnl.ReadyBuilder :=
  match c with
  | SpotWithMarketData s => SpotPnl.WithMarketData s
  | SpotPolicyGroupID g => SpotPnl.PolicyGroupID g
  | SpotGlobalBarrier x => SpotPnl.GlobalBarrier x
  | SpotAccountGroupBarriers l => SpotPnl.AccountGroupBarriers l
  | SpotAccountBarriers l => SpotPnl.AccountBarriers l
  end.
Definition spotSaid {L} (m : Mem L) (x : SpotFundsPnlBoundsBarrier) : PretradePoliciesSpotFundsPnlBoundsBarrier string :=
  mkSpotBarrier (said m (spb_Currency x)) (capOf (spb_LowerBound x)) (capOf (spb_UpperBound x)).
Definition spotPlanned {L} (m : Mem L) (c : spotCall) (p : spotPlan) : spotPlan :=
  match c with
  | SpotWithMarketData s => mkSpotPlan s (sp_group p) (sp_global p) (sp_groups p) (sp_accounts p)
  | SpotPolicyGroupID g => mkSpotPlan (sp_service p) g (sp_global p) (sp_groups p) (sp_accounts p)
  | SpotGlobalBarrier x => mkSpotPlan (sp_service p) (sp_group p) (Some (spotSaid m x)) (sp_groups p) (sp_accounts p)
  | SpotAccountGroupBarriers l =>
      mkSpotPlan (sp_service p) (sp_group p) (sp_global p)
        (sp_groups p ++ map (fun x => mkSpotGroup (grp_native (spg_AccountGroupID x)) (spotSaid m (spg_Barrier x))) l) (sp_accounts p)
  | SpotAccountBarriers l =>
      mkSpotPlan (sp_service p) (sp_group p) (sp_global p) (sp_groups p)
        (sp_accounts p ++ map (fun x => mkSpotAccount (spc_AccountID x) (spotSaid m (spc_Barrier x))) l)
  end.
#[export] Instance spot_describes : Describes SpotPnl.ReadyBuilder spotCall spotPlan := {|
  initial := SpotPnl.BuildSpotFundsPnlBoundsKillSwitch;
  initialPlan := mkSpotPlan None DefaultPolicyGroupID None [] [];
  apply := spotApply;
  planned _ m := spotPlanned m;
  usable _ m c :=
    match c with
    | SpotGlobalBarrier x => assetLive m (spb_Currency x)
    | SpotAccountGroupBarriers l => Forall (fun x => assetLive m (spb_Currency (spg_Barrier x))) l
    | SpotAccountBarriers l => Forall (fun x => assetLive m (spb_Currency (spc_Barrier x))) l
    | _ => True
    end;
  keeps b := assetRoots (SpotPnl.globalBarrierCurrency b) ++ rootsOf (SpotPnl.accountGroupCurrencies b) ++ rootsOf (SpotPnl.accountCurrencies b);
  describes _ m b p :=
    SpotPnl.marketData b = sp_service p /\ SpotPnl.policyGroupID b = sp_group p /\
    optionalAxis m (SpotPnl.globalBarrier b) (SpotPnl.globalBarrierCurrency b) (sp_global p) /\
    axis m (SpotPnl.accountGroupBarriers b) (SpotPnl.accountGroupCurrencies b) (sp_groups p) /\
    axis m (SpotPnl.accountBarriers b) (SpotPnl.accountCurrencies b) (sp_accounts p);
|}.

Lemma spot_groups : forall b l, foldl SpotPnl.addGroup b l =
  SpotPnl.mkReady (SpotPnl.marketData b) (SpotPnl.globalBarrier b)
    (SpotPnl.accountGroupBarriers b ++ map (fun x => NewPretradePoliciesSpotFundsPnlBoundsAccountGroupBarrier
      (AccountGroupIDHandle (spg_AccountGroupID x)) (newNativeSpotFundsPnlBoundsBarrier (spg_Barrier x))) l)
    (SpotPnl.accountBarriers b) (SpotPnl.globalBarrierCurrency b)
    (SpotPnl.accountGroupCurrencies b ++ map (fun x => spb_Currency (spg_Barrier x)) l)
    (SpotPnl.accountCurrencies b) (SpotPnl.policyGroupID b).
Proof. solve_appends. Qed.
Lemma spot_accounts : forall b l, foldl SpotPnl.addAccount b l =
  SpotPnl.mkReady (SpotPnl.marketData b) (SpotPnl.globalBarrier b) (SpotPnl.accountGroupBarriers b)
    (SpotPnl.accountBarriers b ++ map (fun x => NewPretradePoliciesSpotFundsPnlBoundsAccountBarrier
      (AccountIDHandle (spc_AccountID x)) (newNativeSpotFundsPnlBoundsBarrier (spc_Barrier x))) l)
    (SpotPnl.globalBarrierCurrency b) (SpotPnl.accountGroupCurrencies b)
    (SpotPnl.accountCurrencies b ++ map (fun x => spb_Currency (spc_Barrier x)) l) (SpotPnl.policyGroupID b).
Proof. solve_appends. Qed.
#[export] Instance spot_describes_ok : DescribesOk SpotPnl.ReadyBuilder spotCall spotPlan.
Proof.
  split; cbn.
  - intros L m. repeat split; constructor.
  - intros L m c b p Hu (Hs & Hg & Ho & Ha & Hc).
    destruct c; cbn; unfold SpotPnl.AccountGroupBarriers, SpotPnl.AccountBarriers; rewrite ?spot_groups, ?spot_accounts; cbn;
      split_and!; try done; try (apply axis_app; [done|]).
    + apply (axis_map m newNativeSpotFundsPnlBoundsBarrier spb_Currency (spotSaid m) [barrier]); [done..|by constructor].
    + by apply axis_map.
    + by apply axis_map.
  - intros L m m' lr b p Hc (Hs & Hg & Ho & Ha & Hac). split_and!; try done.
    + unfold optionalAxis in *. destruct (SpotPnl.globalBarrier b); [|done].
      eapply axis_collected; [done| |done]. unfold rootsOf. cbn. rewrite app_nil_r. set_solver.
    + eapply axis_collected; [done|set_solver|done].
    + eapply axis_collected; [done|set_solver|done].
  - intros L m m' b p Hx (Hs & Hg & Ho & Ha & Hac). split_and!; try done; try by eapply axis_extends.
    unfold optionalAxis in *. destruct (SpotPnl.globalBarrier b); [by eapply axis_extends|done].
Qed.

(** ** Overrides *)

(** The native target of an override, or why it has none. *)
Definition targetOf (target : SpotFundsOverrideTarget) : OverrideTarget + error :=
  match target with
  | Target_Instrument t | Target_InstrumentPtr (Some t) => inl (TargetInstrument (ti_Instrument t))
  | Target_InstrumentAccount t | Target_InstrumentAccountPtr (Some t) => inl (TargetInstrumentAccount (tia_Instrument t) (tia_AccountID t))
  | Target_InstrumentAccountGroup t | Target_InstrumentAccountGroupPtr (Some t) =>
      inl (TargetInstrumentAccountGroup (tig_Instrument t) (grp_native (tig_AccountGroupID t)))
  | Target_other name => inr (EText ("unsupported target type " +:+ name) 0)
  | _ => inr errTargetNil
  end.
(** No slippage is the zero that the library ignores. *)
Definition overrideOf (target : OverrideTarget) (slippageBps : option Z) : PretradePoliciesSpotFundsOverride :=
  mkOverride target (default 0%Z slippageBps) (bool_decide (is_Some slippageBps)).
Definition entryOf (e : SpotFundsOverrideEntry) : option PretradePoliciesSpotFundsOverride :=
  match targetOf (oe_Target e) with inl t => Some (overrideOf t (SlippageBps (oe_Override e))) | inr _ => None end.
(** All entries in order, or the first that has no target, with its index. *)
Definition translatedFrom (i : nat) (entries : list SpotFundsOverrideEntry) : list PretradePoliciesSpotFundsOverride + nat * error :=
  match list_find (fun e => entryOf e = None) entries with
  | None => inl (omap entryOf entries)
  | Some (j, e) => inr (i + j, match targetOf (oe_Target e) with inr err => err | inl _ => errTargetNil end)
  end.

Lemma NewNativeSpotFundsOverride_target target slippageBps :
  NewNativeSpotFundsOverride target slippageBps =
  match targetOf target with inl t => (overrideOf t slippageBps, None) | inr err => (zeroOverride, Some err) end.
Proof. by destruct target as [|?|[?|]|?|[?|]|?|[?|]|?], slippageBps. Qed.
Lemma translatedFrom_cons i e entries :
  translatedFrom i (e :: entries) =
  match targetOf (oe_Target e) with
  | inr err => inr (i, err)
  | inl t =>
    match translatedFrom (S i) entries with
    | inl l => inl (overrideOf t (SlippageBps (oe_Override e)) :: l)
    | inr failure => inr failure
    end
  end.
Proof.
  unfold translatedFrom. cbn [list_find].
  case_decide as Hd; unfold entryOf in Hd; destruct (targetOf (oe_Target e)) as [t|err] eqn:Et; simplify_eq.
  - cbn. by rewrite Nat.add_0_r.
  - destruct (list_find _ entries) as [[j e']|] eqn:El; cbn.
    + replace (i + S j) with (S i + j) by lia. done.
    + unfold entryOf at 1. by rewrite Et.
Qed.
Lemma nativeOverrides_translated entries : forall i,
  Spot.nativeOverrides i entries =
  match translatedFrom i entries with
  | inl l => inl l
  | inr (j, err) => inr (EWrap ("spot funds override " +:+ pretty j) err)
  end.
Proof.
  induction entries as [|e entries IH]; intros i; [done|]. cbn [Spot.nativeOverrides].
  rewrite NewNativeSpotFundsOverride_target, translatedFrom_cons, IH.
  destruct (targetOf (oe_Target e)); [|done]. by destruct (translatedFrom (S i) entries) as [|[]].
Qed.

(** ** Registration *)

Lemma outMessage_text {R} fallback t (st : Store R) :
  heapOk (heap st) ->
  exists st', outMessage true (Some t) fallback st = (Ret (Some (messageError fallback t)), st') /\
    sameHandles st st' /\ registries st' = registries st.
Proof.
  intros Hh. destruct (alloc_message fallback (Some t) Some (heap st) Hh) as (h' & Eh & Lh).
  exists (mkStore h' (nextHandle st) (live st) (registries st) (objects st)). split; [|by split].
  unfold outMessage, bind, ServiceStore.onHeap, ret in *. cbn [heap allocString] in *.
  destruct (consumeSharedStringAsError _ _ _) as [[err|] h''] eqn:Ec; cbn in Eh; simplify_eq.
  done.
Qed.

(** A failure of the library has a text. *)
Definition explained (r : bool * option string) : Prop := fst r = false -> is_Some (snd r).
Definition refusal (fallback : string) (r : bool * option string) : option error :=
  if fst r then None else Some (messageError fallback (default EmptyString (snd r))).

Section Registration.
Context {L R E : Type} `{!NativePolicies E}.
Abbreviation State := (Seen L (Library R E)).
Abbreviation PM := (M State).
Definition storeIn (s : State) : Store R := services (seenRest s).
Definition engineIn (s : State) : E := engines (seenRest s).

(** The services, the memory and the strings are as they were. *)
Record nothingElse (s s' : State) : Prop := {
  else_mem : seenMem s' = seenMem s;
  else_heap : nothingLeft (heap (storeIn s)) (heap (storeIn s'));
  else_next : (nextHandle (storeIn s) <= nextHandle (storeIn s'))%Z;
  else_live : live (storeIn s') = live (storeIn s);
  else_registries : registries (storeIn s') = registries (storeIn s);
  else_objects : objects (storeIn s') = objects (storeIn s);
}.
#[export] Instance nothingElse_preorder : PreOrder nothingElse.
Proof.
  split; [intros s; by split|]. intros s1 s2 s3 [] []. split; try congruence; [by etransitivity|lia].
Qed.
(** [endsAs a e s m]: [m] answers [a] with the library in [e] and changes nothing else. *)
Definition endsAs (a : option error) (e : E) (s : State) (m : PM (option error)) : Prop :=
  exists s', m s = (Ret a, s') /\ engineIn s' = e /\ nothingElse s s'.
(** [registers f fallback m s]: [m] is one call [f] of the library, whose failure becomes
    an error, and changes nothing else. *)
Definition registers (f : E -> E * (bool * option string)) (fallback : string) (m : PM (option error)) (s : State) : Prop :=
  endsAs (refusal fallback (snd (f (engineIn s)))) (fst (f (engineIn s))) s m.

Lemma registering_registers f fallback (m : PM (bool * option string)) s :
  heapOk (heap (storeIn s)) -> explained (snd (f (engineIn s))) -> m s = onEngines f s ->
  registers f fallback (registering fallback m) s.
Proof.
  intros Hh Hx Em. destruct s as [mm [st e]]. unfold registers, endsAs, storeIn, engineIn in *. cbn in Hh, Hx.
  assert (m (mkSeen mm (mkLibrary st e)) = (Ret (snd (f e)), mkSeen mm (mkLibrary st (fst (f e))))) as E1
    by (rewrite Em; unfold onEngines, onRest; cbn; by destruct (f e)).
  unfold registering. rewrite (bind_Ret _ _ _ _ _ E1). cbn [engines seenRest]. destruct (f e) as [e' [[] message]]; cbn [negb snd fst] in *.
  - eexists. split; [done|]. split; [done|]. split; cbn; try done; lia.
  - destruct (Hx eq_refl) as [t Ht]. cbn in Ht. subst message.
    destruct (outMessage_text fallback t st Hh) as (st' & Et & [] & Hr).
    unfold onServices, onRest. cbn [seenRest services engines seenMem]. rewrite Et. eexists. split; [done|]. split; [done|].
    split; cbn; try done; lia.
Qed.

(** What the library documents: a failure comes with a text. *)
Class DocumentedPolicies : Prop := {
  doc_order_validation b g e : explained (snd (add_builtin_order_validation b g e));
  doc_rate_limit b g x l1 l2 l3 e : explained (snd (add_builtin_rate_limit b g x l1 l2 l3 e));
  doc_order_size b g x l1 l2 e : explained (snd (add_builtin_order_size_limit b g x l1 l2 e));
  doc_pnl_bounds b g l1 l2 e : explained (snd (add_builtin_pnl_bounds_killswitch b g l1 l2 e));
  doc_spot_funds b s x p l g e : explained (snd (add_builtin_spot_funds b s x p l g e));
  doc_spot_bounds b s g x l1 l2 e : explained (snd (add_builtin_spot_funds_pnl_bounds_killswitch b s g x l1 l2 e));
}.

Lemma onRest_mem {A} (f : Library R E -> outcome A * Library R E) (s : State) :
  onRest f s = (fst (f (seenRest s)), mkSeen (seenMem s) (snd (f (seenRest s)))).
Proof. unfold onRest. by destruct (f (seenRest s)). Qed.

(** *** The market-data service of a call *)

(** The registry a policy is to read, none, or the error of a closed service. *)
Definition servedBy (service : option objRef) (s : State) : option Z + error :=
  match service with
  | None => inl None
  | Some r => match objects (storeIn s) !! r with
              | Some (Some h) => inl (live (storeIn s) !! h)
              | _ => inr ErrServiceClosed
              end
  end.
Definition isObject (service : option objRef) (s : State) : Prop :=
  match service with None => True | Some r => is_Some (objects (storeIn s) !! r) end.

Lemma withClone_ends handed service body s a e :
  storeOk handed (storeIn s) -> isObject service s ->
  match servedBy service s with
  | inr err => a = Some err /\ e = engineIn s
  | inl g => forall s1 h, heapOk (heap (storeIn s1)) -> engineIn s1 = engineIn s -> seenMem s1 = seenMem s ->
      serviceBehind h s1 = (Ret g, s1) -> endsAs a e s1 (body h)
  end -> endsAs a e s (Spot.withClone service body).
Proof.
  intros Hok Hobj Hb. destruct s as [m [st eng]]. unfold servedBy, isObject, endsAs, storeIn, engineIn in *. cbn in *.
  destruct service as [r|]; cbn [Spot.withClone] in *.
  2: { by apply (Hb _ None); [apply Hok|..]. }
  destruct Hobj as [o Ho]. rewrite Ho in Hb.
  unfold bind, onServices, onRest, mdhandle_Clone, cloneHandle, withHandle, handleOf, bind. cbn.
  rewrite Ho. destruct o as [h|].
  2: { destruct Hb as [-> ->]. cbn. eexists. split; [reflexivity|]. split; [done|reflexivity]. }
  destruct (object_live _ _ _ _ Hok Ho) as [g Hg]. rewrite Hg in Hb.
  unfold MarketDataServiceClone, cloneService, ret. rewrite Hg. cbn.
  set (h' := nextHandle st). set (st1 := mkStore (heap st) (h' + 1) (<[h' := g]> (live st)) (registries st) (objects st)).
  destruct (Hb (mkSeen m (mkLibrary st1 eng)) (Some h')) as (s2 & E2 & Ee & N2); [apply Hok|done|done| |].
  { unfold serviceBehind, onRest. cbn. by rewrite lookup_insert_eq. }
  unfold deferred. rewrite E2. destruct N2 as [N1 N2 N3 N4 N5 N6]. unfold storeIn in *. cbn in *.
  unfold onServices, onRest, DestroyMarketDataService, destroyService. destruct s2 as [m2 [st2 e2]]. cbn in *. subst m2.
  rewrite N4, lookup_insert_eq. eexists. split; [reflexivity|]. split; [done|].
  assert (live st !! h' = None) as Hf.
  { destruct (live st !! h') eqn:El; [|done]. pose proof (ok_next _ _ Hok h' ltac:(by eexists)). unfold h' in *. lia. }
  split; cbn; try done; [unfold h' in *; lia|]. by rewrite delete_insert_id.
Qed.

(** ** The properties *)

(** C15: whatever the calls on a rate-limit, order-size or P&L-bounds builder, and wherever
    the collector ran or the program allocated between them, [Build] makes one native
    registration with the group and the broker barrier last set and every barrier of the
    other axes, in order, each with the name its asset had when it was added; a failure is
    an error with the library's text, and no buffer that was read was freed. *)
Theorem barriers_reach_the_library `{!DocumentedPolicies} (m : Mem L) (w : Library R E) (builder : Z) :
  heapOk (heap (services w)) ->
  (forall b p, history m b p ->
     registers (add_builtin_rate_limit builder (rp_group p) (rp_broker p) (rp_assets p) (rp_accounts p) (rp_accountAssets p))
       "openpit_engine_builder_add_builtin_rate_limit_policy failed" (Rate.Build b builder) (mkSeen m w)) /\
  (forall b p, history m b p ->
     registers (add_builtin_order_size_limit builder (zp_group p) (zp_broker p) (zp_assets p) (zp_accountAssets p))
       "openpit_engine_builder_add_builtin_order_size_limit_policy failed" (Size.Build b builder) (mkSeen m w)) /\
  (forall b p, history m b p ->
     registers (add_builtin_pnl_bounds_killswitch builder (np_group p) (np_brokers p) (np_accounts p))
       "openpit_engine_builder_add_builtin_pnl_bounds_killswitch_policy failed" (PnlBounds.Build b builder) (mkSeen m w)).
Proof.
  intros Hh. split_and!; intros b p D%history_describes; cbn in D.
  - destruct D as (He & Hg & Hb & Ha & Hc & Hca). unfold Rate.Build. rewrite He, Hg, Hb, Hc.
    apply registering_registers; [done|apply doc_rate_limit|].
    rewrite (bind_Ret _ _ _ _ _ (readAll_axis m _ _ _ w Ha)). by rewrite (bind_Ret _ _ _ _ _ (readAll_axis m _ _ _ w Hca)).
  - destruct D as (Hg & Hb & Ha & Hca). unfold Size.Build. rewrite Hg, Hb.
    apply registering_registers; [done|apply doc_order_size|].
    rewrite (bind_Ret _ _ _ _ _ (readAll_axis m _ _ _ w Ha)). by rewrite (bind_Ret _ _ _ _ _ (readAll_axis m _ _ _ w Hca)).
  - destruct D as (Hg & Ha & Hca). unfold PnlBounds.Build. rewrite Hg.
    apply registering_registers; [done|apply doc_pnl_bounds|].
    rewrite (bind_Ret _ _ _ _ _ (readAll_axis m _ _ _ w Ha)). by rewrite (bind_Ret _ _ _ _ _ (readAll_axis m _ _ _ w Hca)).
Qed.

(** The order-validation policy has a group only. *)
Theorem order_validation_registers `{!DocumentedPolicies} s (builder g : Z) :
  heapOk (heap (storeIn s)) ->
  registers (add_builtin_order_validation builder g) "openpit_engine_builder_add_builtin_order_validation_policy failed"
    (OrderValidationBuild (OrderValidationPolicyGroupID g BuildOrderValidation) builder) s.
Proof. intros Hh. apply registering_registers; [done|apply doc_order_validation|done]. Qed.

(** [Build] of the spot-funds policies: a closed market-data service is an error before
    the library is called; the first override without a target is an error with its index;
    otherwise the library registers the policy over the registry the service stands for,
    with the overrides the caller's slice has now, or with the barriers of the P&L preset as
    their currencies were named when added. On every way the clone of the service handle is
    gone, and the service, its registries and the memory are as they were. *)
Theorem spot_funds_build_returns_its_clone `{!DocumentedPolicies} handed (s : State) (builder : Z) :
  storeOk handed (storeIn s) ->
  (forall slices b, isObject (Spot.marketData b) s ->
     match servedBy (Spot.marketData b) s with
     | inr err => endsAs (Some err) (engineIn s) s (Spot.Build slices b builder)
     | inl service =>
       match translatedFrom 0 (match Spot.overrides b with Some slice => slices slice | None => [] end) with
       | inr (i, err) => endsAs (Some (EWrap ("spot funds override " +:+ pretty i) err)) (engineIn s) s (Spot.Build slices b builder)
       | inl overrides =>
         registers (add_builtin_spot_funds builder service (Spot.marketSlippageBps b) (Spot.pricingSource b) overrides (Spot.policyGroupID b))
           "openpit_engine_builder_add_builtin_spot_funds_policy failed" (Spot.Build slices b builder) s
       end
     end) /\
  (forall b p, history (seenMem s) b p -> isObject (sp_service p) s ->
     match servedBy (sp_service p) s with
     | inr err => endsAs (Some err) (engineIn s) s (SpotPnl.Build b builder)
     | inl service =>
       registers (add_builtin_spot_funds_pnl_bounds_killswitch builder service (sp_group p) (sp_global p) (sp_groups p) (sp_accounts p))
         "openpit_engine_builder_add_builtin_spot_funds_pnl_bounds_killswitch_policy failed" (SpotPnl.Build b builder) s
     end).
Proof.
  intros Hok. split.
  - intros slices b Hobj. unfold Spot.Build.
    destruct (servedBy (Spot.marketData b) s) as [service|err] eqn:Es.
    2: { eapply withClone_ends; [done|done|]. by rewrite Es. }
    rewrite nativeOverrides_translated. destruct (translatedFrom 0 _) as [overrides|[i err]].
    + eapply withClone_ends; [done|done|]. rewrite Es. intros s1 h Hh Ee Em Hs. rewrite <- Ee.
      apply registering_registers; [done|apply doc_spot_funds|]. by rewrite (bind_Ret _ _ _ _ _ Hs).
    + eapply withClone_ends; [done|done|]. rewrite Es. intros s1 h Hh Ee Em Hs. exists s1.
      split; [done|]. split; [done|reflexivity].
  - intros b p D%history_describes Hobj. destruct D as (Hs & Hg & Ho & Ha & Hc). unfold SpotPnl.Build. rewrite Hs, Hg.
    destruct (servedBy (sp_service p) s) as [service|err] eqn:Es.
    2: { eapply withClone_ends; [done|done|]. by rewrite Es. }
    eapply withClone_ends; [done|done|]. rewrite Es. intros s1 h Hh Ee Em Hs1. rewrite <- Ee.
    apply registering_registers; [done|apply doc_spot_bounds|]. rewrite (bind_Ret _ _ _ _ _ Hs1).
    destruct s1 as [m w]. cbn in Em. subst m.
    rewrite (bind_Ret _ _ _ _ _ (readOptional_axis _ _ _ _ w Ho)).
    rewrite (bind_Ret _ _ _ _ _ (readAll_axis _ _ _ _ w Ha)). by rewrite (bind_Ret _ _ _ _ _ (readAll_axis _ _ _ _ w Hc)).
Qed.
End Registration.

(** ** A library that records what it is given *)

Inductive registered :=
| ROrderValidation (g : Z)
| RRateLimit (g : Z) (broker : option PretradePoliciesRateLimitBrokerBarrier) (assets : list (PretradePoliciesRateLimitAssetBarrier string))
    (accounts : list PretradePoliciesRateLimitAccountBarrier) (accountAssets : list (PretradePoliciesRateLimitAccountAssetBarrier string))
| ROrderSize (g : Z) (broker : option PretradePoliciesOrderSizeBrokerBarrier) (assets : list (PretradePoliciesOrderSizeAssetBarrier string))
    (accountAssets : list (PretradePoliciesOrderSizeAccountAssetBarrier string))
| RPnlBounds (g : Z) (brokers : list (PretradePoliciesPnlBoundsBarrier string)) (accounts : list (PretradePoliciesPnlBoundsAccountBarrier string))
| RSpotFunds (g : Z) (service slippage : option Z) (source : Z) (overrides : list PretradePoliciesSpotFundsOverride)
| RSpotBounds (g : Z) (service : option Z) (global : option (PretradePoliciesSpotFundsPnlBoundsBarrier string))
    (groups : list (PretradePoliciesSpotFundsPnlBoundsAccountGroupBarrier string))
    (accounts : list (PretradePoliciesSpotFundsPnlBoundsAccountBarrier string)).
(** The builder 0 takes nothing. *)
Definition record (builder : Z) (r : registered) (e : list registered) : list registered * (bool * option string) :=
  if (builder =? 0)%Z then (e, (false, Some "builder is null"%string)) else (e ++ [r], (true, None)).
Definition recorder : NativePolicies (list registered) := {|
  add_builtin_order_validation b g := record b (ROrderValidation g);
  add_builtin_rate_limit b g x l1 l2 l3 := record b (RRateLimit g x l1 l2 l3);
  add_builtin_order_size_limit b g x l1 l2 := record b (ROrderSize g x l1 l2);
  add_builtin_pnl_bounds_killswitch b g l1 l2 := record b (RPnlBounds g l1 l2);
  add_builtin_spot_funds b s x p l g := record b (RSpotFunds g s x p l);
  add_builtin_spot_funds_pnl_bounds_killswitch b s g x l1 l2 := record b (RSpotBounds g s x l1 l2);
|}.
Lemma record_explained b r e : explained (snd (record b r e)).
Proof. unfold record, explained. by destruct (b =? 0)%Z; cbn; [eexists|]. Qed.
Lemma recorder_documented : DocumentedPolicies (NativePolicies0 := recorder).
Proof. split; intros; apply record_explained. Qed.

(** Two assets; a third string is collected between two calls. *)
Definition usd : Asset := Some (mkBuf 0 3).
Definition eur : Asset := Some (mkBuf 1 3).
Definition before : Mem unit := mkMem (<[0 := "USD"]> (<[1 := "EUR"]> (<[2 := "GBP"]> ∅)))%string ∅ 3.
Definition after : Mem unit := mkMem (<[0 := "USD"]> (<[1 := "EUR"]> ∅))%string ∅ 3.
Definition usdBarrier : RateLimitAssetBarrier := mkRateLimitAsset (mkRateLimit 5 1000) usd.
Definition eurBarrier : RateLimitAccountAssetBarrier := mkRateLimitAccountAsset (mkRateLimit 2 9) 7%Z eur.
Definition rateCalls : Rate.ReadyBuilder * ratePlan :=
  let c1 := RateAssetBarriers [usdBarrier] in
  let c2 := RateAccountAssetBarriers [eurBarrier] in
  (apply c2 (apply c1 initial), planned after c2 (planned before c1 initialPlan)).
Lemma rateCalls_history : history after (fst rateCalls) (snd rateCalls).
Proof.
  apply history_call; [|repeat constructor; by exists "EUR"%string].
  apply (history_collect before after [] _ _).
  - apply history_call; [apply history_start|]. repeat constructor. by exists "USD"%string.
  - split_and!; try done.
    + apply map_subseteq_spec. intros i x. cbn. rewrite !lookup_insert_Some, lookup_empty. naive_solver.
    + cbn. intros p Hp. apply list_elem_of_singleton in Hp as ->. by vm_compute.
Qed.
Lemma barriers_reach_the_library_witness :
  let w := mkLibrary (mkStore (mkNativeHeap 0 ∅ ∅) 0 ∅ (∅ : gmap Z unit) []) [] in
  exists s', Rate.Build (NativePolicies0 := recorder) (fst rateCalls) 1 (mkSeen after w) = (Ret None, s') /\
    engineIn s' = [RRateLimit 0 None [mkRateAsset 5 1000 "USD"%string] [] [mkRateAccountAsset 7 2 9 "EUR"%string]].
Proof.
  intros w. destruct (barriers_reach_the_library (NativePolicies0 := recorder) (H := recorder_documented) after w 1) as (H & _ & _);
    [by split; cbn; intros h [o Ho]; rewrite lookup_empty in Ho|].
  destruct (H _ _ rateCalls_history) as (s' & E & Ee & _). exists s'. split; [exact E|exact Ee].
Defined.

(** A service, and a policy whose second override has no target. *)
Definition spotState (e : list registered) : Seen unit (Library (list MarketData.Instrument) (list registered)) :=
  mkSeen before (mkLibrary (mkStore (mkNativeHeap 0 ∅ ∅) 1 {[0%Z := 0%Z]} {[0%Z := []]} [Some 0%Z]) e).
Definition twoOverrides (second : SpotFundsOverrideTarget) : nat -> list SpotFundsOverrideEntry := fun _ =>
  [mkOverrideEntry (Target_Instrument (mkTI 4%Z)) (mkSpotOverride (Some 15%Z)); mkOverrideEntry second (mkSpotOverride None)].
Lemma spotState_ok e : storeOk [] (storeIn (spotState e)).
Proof.
  split; cbn.
  - split; cbn; intros h [o Ho]; by rewrite lookup_empty in Ho.
  - intros h [o Ho]. apply lookup_singleton_Some in Ho. lia.
  - intros h [o Ho]. apply lookup_singleton_Some in Ho. lia.
  - intros h g Ho. apply lookup_singleton_Some in Ho as [<- <-]. by eexists.
  - apply NoDup_singleton.
  - intros h. rewrite list_elem_of_singleton, lookup_singleton_is_Some. done.
Qed.
Lemma spot_funds_build_returns_its_clone_witness :
  let build second := Spot.Build (NativePolicies0 := recorder) (twoOverrides second)
    (Spot.Overrides (Some 0%nat) (Spot.WithMarketOrders (Some 0%nat) 20 Spot.BuildSpotFunds)) 1 in
  let account := mkTIA 5%Z 8%Z in
  (exists s', build (Target_InstrumentAccountPtr None) (spotState []) =
     (Ret (Some (EWrap "spot funds override 1" errTargetNil)), s') /\ live (storeIn s') = {[0%Z := 0%Z]} /\ engineIn s' = []) /\
  (exists s', build (Target_InstrumentAccountPtr (Some account)) (spotState []) = (Ret None, s') /\ live (storeIn s') = {[0%Z := 0%Z]} /\
     engineIn s' = [RSpotFunds 0 (Some 0%Z) (Some 20%Z) 0
       [mkOverride (TargetInstrument 4) 15 true; mkOverride (TargetInstrumentAccount 5 8) 0 false]]).
Proof.
  intros build account. pose (b := Spot.Overrides (Some 0%nat) (Spot.WithMarketOrders (Some 0%nat) 20 Spot.BuildSpotFunds)).
  destruct (spot_funds_build_returns_its_clone (NativePolicies0 := recorder) (H := recorder_documented) [] (spotState []) 1
    (spotState_ok [])) as [H _].
  split.
  - destruct (H (twoOverrides (Target_InstrumentAccountPtr None)) b ltac:(by eexists)) as (s' & E & Ee & N).
    exists s'. split; [exact E|]. split; [apply N|exact Ee].
  - destruct (H (twoOverrides (Target_InstrumentAccountPtr (Some account))) b ltac:(by eexists)) as (s' & E & Ee & N).
    exists s'. split; [exact E|]. split; [apply N|exact Ee].
Defined.
