(* ===== verification/Configure.v ===== *)
(** * Runtime configuration of the built-in policies

    configure/configure.go over internal/native/configure.go. A call gives the engine the
    axes to replace - a nil slice leaves its axis, an empty one clears it - and reads what
    comes back: a configure error, or a list of account blocks, both objects that are
    destroyed here. The name of the policy is its text; the names inside barriers are
    views that the library reads during the call. What the engine does with the settings
    is a class of functions over its state. *)
From Stdlib Require Import ZArith Lia.
From stdpp Require Import base list gmap strings pretty.
From S2P Require Import Prelude GoRuntime NativeErrors NativeObjects MarketData NativeMem Routing ParamValues NumericTypes CustomPolicy Rejects NativePolicies Policies.

(** ** internal/native/configure.go *)

Record NativeConfigureError := mkNativeConfigureError { nc_message : string; nc_kind : Z }.
Record PretradeAccountBlockOutcome := mkBlockOutcome { bo_account_id : Z; bo_block : PretradeAccountBlock }.
Inductive configureObject :=
| OConfigureError (e : NativeConfigureError)
| OBlockOutcomes (l : list PretradeAccountBlockOutcome)
| OBlocks (l : list PretradeAccountBlock).
Definition asConfigureError (o : configureObject) := match o with OConfigureError e => Some e | _ => None end.
Definition asBlockOutcomes (o : configureObject) := match o with OBlockOutcomes l => Some l | _ => None end.
Definition asBlocks (o : configureObject) := match o with OBlocks l => Some l | _ => None end.

(** A slice as three arguments: the array with its length, and whether it is not nil. *)
Definition axisArgs {A} (slice : option (list A)) : list A * bool := (default [] slice, bool_decide (is_Some slice)).
Abbreviation axisOf A := (list A * bool)%type.

(** Success and the error object written; a list, or null, and the error object. *)
Class NativeConfigure (E : Type) := {
  configure_rate_limit : string -> option PretradePoliciesRateLimitBrokerBarrier -> bool ->
    axisOf (PretradePoliciesRateLimitAssetBarrier string) -> axisOf PretradePoliciesRateLimitAccountBarrier ->
    axisOf (PretradePoliciesRateLimitAccountAssetBarrier string) -> E -> E * (bool * option NativeConfigureError);
  configure_pnl_bounds_killswitch : string -> axisOf (PretradePoliciesPnlBoundsBarrier string) ->
    axisOf (PretradePoliciesPnlBoundsAccountBarrierUpdate string) -> E -> E * (bool * option NativeConfigureError);
  configure_order_size_limit : string -> option PretradePoliciesOrderSizeBrokerBarrier -> bool ->
    axisOf (PretradePoliciesOrderSizeAssetBarrier string) ->
    axisOf (PretradePoliciesOrderSizeAccountAssetBarrier string) -> E -> E * (bool * option NativeConfigureError);
  configure_spot_funds : string -> Z -> bool -> Z -> bool -> axisOf PretradePoliciesSpotFundsOverride ->
    E -> E * (bool * option NativeConfigureError);
  configure_spot_funds_pnl_bounds_killswitch : string -> option (PretradePoliciesSpotFundsPnlBoundsBarrier string) -> bool ->
    axisOf (PretradePoliciesSpotFundsPnlBoundsAccountGroupBarrier string) ->
    axisOf (PretradePoliciesSpotFundsPnlBoundsAccountBarrier string) ->
    E -> E * (option (list PretradeAccountBlockOutcome) * option NativeConfigureError);
  spot_funds_set_account_pnl : string -> Z -> OpenPitPnlState -> E -> E * (option (list PretradeAccountBlock) * option NativeConfigureError);
  spot_funds_global_limit_mode : string -> Z -> E -> E * (bool * option NativeConfigureError);
  spot_funds_account_limit_mode : string -> Z -> Z -> bool -> E -> E * (bool * option NativeConfigureError);
  spot_funds_position_limit : string -> Z -> string -> ParamQuantity -> bool -> E -> E * (bool * option NativeConfigureError);
  spot_funds_account_group_limit_mode : string -> Z -> Z -> bool -> E -> E * (bool * option NativeConfigureError);
  pnl_bounds_killswitch_set_account_pnl : string -> Z -> string -> ParamPnl -> E -> E * (bool * option NativeConfigureError);
}.

(** *** Go-side values: configure.go *)

Definition ErrorKindUnknown : Z := 0.
Definition ErrorKindTypeMismatch : Z := 1.
Definition ErrorKindValidation : Z := 2.
Record Error := mkError { er_Message : string; er_Kind : Z }.
Record ConfigureAccountBlockOutcome := mkAccountBlockOutcome { ab_AccountID : AccountID; ab_Block : AccountBlock }.
Definition quantityOptionalToNative (value : option Quantity) : ParamQuantityOptional :=
  match value with Some v => NewParamQuantityOptional (QuantityHandle v) | None => zeroCOptional zeroDecimal end.
Definition volumeOptionalToNative (value : option Volume) : COptional ParamDecimal :=
  match value with Some v => NewParamVolumeOptional (VolumeHandle v) | None => zeroCOptional zeroDecimal end.
Definition pnlOptionalToNative (value : option Pnl) : ParamPnlOptional :=
  match value with Some v => NewParamPnlOptional (PnlHandle v) | None => zeroCOptional zeroDecimal end.
Definition nativeSpotFundsPnlBoundsBarrier (barrier : SpotFundsPnlBoundsBarrier) : PretradePoliciesSpotFundsPnlBoundsBarrier StringView :=
  NewPretradePoliciesSpotFundsPnlBoundsBarrier (AssetHandle (spb_Currency barrier))
    (pnlOptionalToNative (spb_LowerBound barrier)) (pnlOptionalToNative (spb_UpperBound barrier)).
Definition windowNanoseconds (limit : RateLimit) : Z := Window limit.

Section Configure.
Context {L E : Type} `{!NativeConfigure E}.
Abbreviation NW := (M (Natives configureObject E)).
Abbreviation CW := (M (Seen L (Natives configureObject E))).

Definition DestroyConfigureError (err : Z) : NW unit := destroyObject err.
Definition ConfigureErrorGetKind (err : Z) : NW Z :=
  let* e := project asConfigureError err in ret (nc_kind e).
Definition ConfigureErrorGetMessage (err : Z) : NW string :=
  let* e := project asConfigureError err in ret (nc_message e).

(** A call that answers whether it went well: the handle of the error of one that did not. *)
Definition configuring (f : E -> E * (bool * option NativeConfigureError)) : NW (option Z) :=
  let* (ok, err) := native f in
  let* outError := outObject (OConfigureError <$> err) in
  if negb ok then ret outError else ret None.
(** A call that answers a list or null: the list's handle, or the error's. *)
Definition listing {A} (wrap : list A -> configureObject) (f : E -> E * (option (list A) * option NativeConfigureError))
    : NW (option Z * option Z) :=
  let* (blocks, err) := native f in
  let* blocks := outObject (wrap <$> blocks) in
  let* outError := outObject (OConfigureError <$> err) in
  match blocks with
  | None => ret (None, outError)
  | Some blocks => ret (Some blocks, None)
  end.
(** The library reads the names of a slice. *)
Definition readAxis {X} `{!Named X} (slice : option (list (X StringView))) : CW (axisOf (X string)) :=
  let* texts := readAll (default [] slice) in ret (texts, bool_decide (is_Some slice)).

Definition EngineConfigureRateLimit (name : string) (broker : option PretradePoliciesRateLimitBrokerBarrier) (hasBroker : bool)
    (assets : option (list (PretradePoliciesRateLimitAssetBarrier StringView)))
    (accounts : option (list PretradePoliciesRateLimitAccountBarrier))
    (accountAssets : option (list (PretradePoliciesRateLimitAccountAssetBarrier StringView))) : CW (option Z) :=
  let* assetArgs := readAxis assets in
  let* accountAssetArgs := readAxis accountAssets in
  onRest (configuring (configure_rate_limit name broker hasBroker assetArgs (axisArgs accounts) accountAssetArgs)).
Definition EngineConfigurePnlBoundsKillSwitch (name : string)
    (brokerBarriers : option (list (PretradePoliciesPnlBoundsBarrier StringView)))
    (accountBarriers : option (list (PretradePoliciesPnlBoundsAccountBarrierUpdate StringView))) : CW (option Z) :=
  let* brokerArgs := readAxis brokerBarriers in
  let* accountArgs := readAxis accountBarriers in
  onRest (configuring (configure_pnl_bounds_killswitch name brokerArgs accountArgs)).
Definition EngineConfigureOrderSizeLimit (name : string) (broker : option PretradePoliciesOrderSizeBrokerBarrier) (hasBroker : bool)
    (assets : option (list (PretradePoliciesOrderSizeAssetBarrier StringView)))
    (accountAssets : option (list (PretradePoliciesOrderSizeAccountAssetBarrier StringView))) : CW (option Z) :=
  let* assetArgs := readAxis assets in
  let* accountAssetArgs := readAxis accountAssets in
  onRest (configuring (configure_order_size_limit name broker hasBroker assetArgs accountAssetArgs)).
Definition EngineConfigureSpotFunds (name : string) (globalSlippageBps pricingSource : option Z)
    (instrumentOverrides : option (list PretradePoliciesSpotFundsOverride)) : CW (option Z) :=
  let slippage := default 0%Z globalSlippageBps in
  let pricingSourceVal := default 0%Z pricingSource in
  onRest (configuring (configure_spot_funds name slippage (bool_decide (is_Some globalSlippageBps))
    pricingSourceVal (bool_decide (is_Some pricingSource)) (axisArgs instrumentOverrides))).
Definition EngineConfigureSpotFundsPnlBoundsKillSwitch (name : string)
    (globalBarrier : option (PretradePoliciesSpotFundsPnlBoundsBarrier StringView)) (hasGlobalBarrier : bool)
    (accountGroupBarriers : option (list (PretradePoliciesSpotFundsPnlBoundsAccountGroupBarrier StringView)))
    (accountBarriers : option (list (PretradePoliciesSpotFundsPnlBoundsAccountBarrier StringView))) : CW (option Z * option Z) :=
  let* global := readOptional globalBarrier in
  let* groupArgs := readAxis accountGroupBarriers in
  let* accountArgs := readAxis accountBarriers in
  onRest (listing OBlockOutcomes (configure_spot_funds_pnl_bounds_killswitch name global hasGlobalBarrier groupArgs accountArgs)).
Definition EngineSetSpotFundsAccountPnl (name : string) (accountID : Z) (state : OpenPitPnlState) : CW (option Z * option Z) :=
  onRest (listing OBlocks (spot_funds_set_account_pnl name accountID state)).
Definition EngineConfigureSpotFundsGlobalLimitMode (name : string) (mode : Z) : CW (option Z) :=
  onRest (configuring (spot_funds_global_limit_mode name mode)).
Definition EngineConfigureSpotFundsAccountLimitMode (name : string) (accountID mode : Z) (hasMode : bool) : CW (option Z) :=
  onRest (configuring (spot_funds_account_limit_mode name accountID mode hasMode)).
Definition EngineConfigureSpotFundsPositionLimit (name : string) (accountID : Z) (asset : GoString) (limit : ParamQuantity) (hasLimit : bool)
    : CW (option Z) :=
  let* asset := onMem (ViewSafe (importString asset)) in
  onRest (configuring (spot_funds_position_limit name accountID asset limit hasLimit)).
Definition EngineConfigureSpotFundsAccountGroupLimitMode (name : string) (accountGroupID mode : Z) (hasMode : bool) : CW (option Z) :=
  onRest (configuring (spot_funds_account_group_limit_mode name accountGroupID mode hasMode)).
Definition EngineSetAccountPnl (name : string) (accountID : Z) (settlementAsset : GoString) (pnl : ParamPnl) : CW (option Z) :=
  let* asset := onMem (ViewSafe (importString settlementAsset)) in
  onRest (configuring (pnl_bounds_killswitch_set_account_pnl name accountID asset pnl)).

(** ** configure.go *)

Definition newErrorFromHandle (handle : Z) : NW Error :=
  let* msg := ConfigureErrorGetMessage handle in
  let* kind := ConfigureErrorGetKind handle in
  DestroyConfigureError handle ;;;
  ret (mkError msg kind).
(** [if configErr != nil { return newErrorFromHandle(configErr) }; return nil] *)
Definition configureResult (configErr : option Z) : NW (option Error) :=
  match configErr with
  | Some configErr => let* e := newErrorFromHandle configErr in ret (Some e)
  | None => ret None
  end.

Definition RateLimitUpdate (name : string) (broker : option (option RateLimitBrokerBarrier))
    (assets : option (list RateLimitAssetBarrier)) (accounts : option (list RateLimitAccountBarrier))
    (accountAssets : option (list RateLimitAccountAssetBarrier)) : CW (option Error) :=
  let hasBroker := bool_decide (is_Some broker) in
  let nativeBroker := b ← mjoin broker;
    Some (NewPretradePoliciesRateLimitBrokerBarrier (MaxOrders (rlb_Limit b)) (windowNanoseconds (rlb_Limit b))) in
  let nativeAssets := map (fun a => NewPretradePoliciesRateLimitAssetBarrier (MaxOrders (rla_Limit a))
    (windowNanoseconds (rla_Limit a)) (AssetHandle (rla_SettlementAsset a))) <$> assets in
  let nativeAccounts := map (fun a => NewPretradePoliciesRateLimitAccountBarrier (AccountIDHandle (rlc_AccountID a))
    (MaxOrders (rlc_Limit a)) (windowNanoseconds (rlc_Limit a))) <$> accounts in
  let nativeAccountAssets := map (fun a => NewPretradePoliciesRateLimitAccountAssetBarrier (AccountIDHandle (rlca_AccountID a))
    (MaxOrders (rlca_Limit a)) (windowNanoseconds (rlca_Limit a)) (AssetHandle (rlca_SettlementAsset a))) <$> accountAssets in
  let* configErr := EngineConfigureRateLimit name nativeBroker hasBroker nativeAssets nativeAccounts nativeAccountAssets in
  onRest (configureResult configErr).
(** A nil broker leaves the barrier as it is. *)
Definition RateLimit_ (name : string) (broker : option RateLimitBrokerBarrier)
    (assets : option (list RateLimitAssetBarrier)) (accounts : option (list RateLimitAccountBarrier))
    (accountAssets : option (list RateLimitAccountAssetBarrier)) : CW (option Error) :=
  RateLimitUpdate name (match broker with Some b => Some (Some b) | None => None end) assets accounts accountAssets.

Definition PnlBoundsKillSwitch (name : string) (brokerBarriers : option (list PnlBoundsBrokerBarrier))
    (accountBarriers : option (list PnlBoundsAccountAssetBarrierUpdate)) : CW (option Error) :=
  let nativeBrokers := map (fun b => NewPretradePoliciesPnlBoundsBarrier (AssetHandle (pbb_SettlementAsset b))
    (pnlOptionalToNative (pbb_LowerBound b)) (pnlOptionalToNative (pbb_UpperBound b))) <$> brokerBarriers in
  let nativeAccounts := map (fun a => NewPretradePoliciesPnlBoundsAccountBarrierUpdate (AccountIDHandle (pbu_AccountID a))
    (AssetHandle (pbb_SettlementAsset (pbu_Barrier a))) (pnlOptionalToNative (pbb_LowerBound (pbu_Barrier a)))
    (pnlOptionalToNative (pbb_UpperBound (pbu_Barrier a)))) <$> accountBarriers in
  let* configErr := EngineConfigurePnlBoundsKillSwitch name nativeBrokers nativeAccounts in
  onRest (configureResult configErr).
Definition SetAccountPnl (name : string) (account : AccountID) (settlementAsset : Asset) (pnl : Pnl) : CW (option Error) :=
  let* configErr := EngineSetAccountPnl name (AccountIDHandle account) (AssetHandle settlementAsset) (PnlHandle pnl) in
  onRest (configureResult configErr).

Definition sizeLimitToNative (limit : OrderSizeLimit) : PretradePoliciesOrderSizeLimit :=
  NewPretradePoliciesOrderSizeLimit (quantityOptionalToNative (MaxQuantity limit)) (volumeOptionalToNative (MaxNotional limit)).
Definition OrderSizeLimitUpdate (name : string) (broker : option (option OrderSizeBrokerBarrier))
    (assets : option (list OrderSizeAssetBarrier)) (accountAssets : option (list OrderSizeAccountAssetBarrier)) : CW (option Error) :=
  let hasBroker := bool_decide (is_Some broker) in
  let nativeBroker := b ← mjoin broker; Some (NewPretradePoliciesOrderSizeBrokerBarrier (sizeLimitToNative (osb_Limit b))) in
  let nativeAssets := map (fun a => NewPretradePoliciesOrderSizeAssetBarrier (sizeLimitToNative (osa_Limit a)) (AssetHandle (osa_Asset a))) <$> assets in
  let nativeAccountAssets := map (fun a => NewPretradePoliciesOrderSizeAccountAssetBarrier (sizeLimitToNative (osca_Limit a))
    (AccountIDHandle (osca_AccountID a)) (AssetHandle (osca_Asset a))) <$> accountAssets in
  let* configErr := EngineConfigureOrderSizeLimit name nativeBroker hasBroker nativeAssets nativeAccountAssets in
  onRest (configureResult configErr).
Definition OrderSizeLimit_ (name : string) (broker : option OrderSizeBrokerBarrier)
    (assets : option (list OrderSizeAssetBarrier)) (accountAssets : option (list OrderSizeAccountAssetBarrier)) : CW (option Error) :=
  OrderSizeLimitUpdate name (match broker with Some b => Some (Some b) | None => None end) assets accountAssets.

(** The text of an error that wraps nothing, as those of an override. *)
Definition plainText (err : error) : string := match err with EText text _ => text | _ => EmptyString end.
Fixpoint spotOverrides (i : nat) (overrides : list SpotFundsOverrideEntry) : list PretradePoliciesSpotFundsOverride + Error :=
  match overrides with
  | [] => inl []
  | e :: overrides =>
    match NewNativeSpotFundsOverride (oe_Target e) (SlippageBps (oe_Override e)) with
    | (_, Some err) =>
        inr (mkError ("configure: spot funds override " +:+ pretty i +:+ ": " +:+ plainText err) ErrorKindValidation)
    | (override, None) =>
      match spotOverrides (S i) overrides with inl l => inl (override :: l) | inr err => inr err end
    end
  end.
Definition SpotFunds (name : string) (globalSlippageBps pricingSource : option Z)
    (overrides : option (list SpotFundsOverrideEntry)) : CW (option Error) :=
  match (match overrides with
         | None => inl None
         | Some overrides => match spotOverrides 0 overrides with inl l => inl (Some l) | inr err => inr err end
         end) with
  | inr err => ret (Some err)
  | inl nativeOverrides =>
    let* configErr := EngineConfigureSpotFunds name globalSlippageBps pricingSource nativeOverrides in
    onRest (configureResult configErr)
  end.
Definition SpotFundsGlobalLimitMode (name : string) (mode : Z) : CW (option Error) :=
  let* configErr := EngineConfigureSpotFundsGlobalLimitMode name (NativeSpotFundsLimitMode mode) in
  onRest (configureResult configErr).
Definition SpotFundsAccountLimitMode (name : string) (accountID : AccountID) (mode : option Z) : CW (option Error) :=
  let '(nativeMode, hasMode) := NativeSpotFundsLimitModeOption mode in
  let* configErr := EngineConfigureSpotFundsAccountLimitMode name (AccountIDHandle accountID) nativeMode hasMode in
  onRest (configureResult configErr).
Definition SpotFundsPositionLimit (name : string) (accountID : AccountID) (asset : Asset) (limit : option Quantity) : CW (option Error) :=
  let hasLimit := bool_decide (is_Some limit) in
  let nativeLimit := match limit with Some value => QuantityHandle value | None => zeroDecimal end in
  let* configErr := EngineConfigureSpotFundsPositionLimit name (AccountIDHandle accountID) (AssetHandle asset) nativeLimit hasLimit in
  onRest (configureResult configErr).
Definition SpotFundsAccountGroupLimitMode (name : string) (accountGroupID : AccountGroupID) (mode : option Z) : CW (option Error) :=
  let '(nativeMode, hasMode) := NativeSpotFundsLimitModeOption mode in
  let* configErr := EngineConfigureSpotFundsAccountGroupLimitMode name (AccountGroupIDHandle accountGroupID) nativeMode hasMode in
  onRest (configureResult configErr).

(** *** Account blocks *)

Definition DestroyPretradeAccountBlockOutcomeList (outcomes : Z) : NW unit := destroyObject outcomes.
Definition PretradeAccountBlockOutcomeListLen (list : Z) : NW nat :=
  let* l := project asBlockOutcomes list in ret (length l).
Definition PretradeAccountBlockOutcomeListGet (list : Z) (index : nat) : NW PretradeAccountBlockOutcome :=
  let* l := project asBlockOutcomes list in ret (default (mkBlockOutcome 0 zeroBlock) (l !! index)).
Definition DestroyPretradeAccountBlockList (blocks : Z) : NW unit := destroyObject blocks.
Definition PretradeAccountBlockListLen (list : Z) : NW nat :=
  let* l := project asBlocks list in ret (length l).
Definition PretradeAccountBlockListGet (list : Z) (index : nat) : NW PretradeAccountBlock :=
  let* l := project asBlocks list in ret (default zeroBlock (l !! index)).
(** [for index := range s { s[index] = get(index) }], [count] more from [index]. *)
Fixpoint fill {A} (get : nat -> NW A) (index count : nat) : NW (list A) :=
  match count with
  | O => ret []
  | S count => let* a := get index in let* rest := fill get (S index) count in ret (a :: rest)
  end.
Definition newAccountBlockOutcomes (outcomes : Z) : NW (list ConfigureAccountBlockOutcome) :=
  deferred (DestroyPretradeAccountBlockOutcomeList outcomes) (
    let* count := PretradeAccountBlockOutcomeListLen outcomes in
    fill (fun index =>
      let* outcome := PretradeAccountBlockOutcomeListGet outcomes index in
      ret (mkAccountBlockOutcome (NewAccountIDFromHandle (bo_account_id outcome)) (NewAccountBlockFromHandle (bo_block outcome)))) 0 count).
Definition newPolicyConfigurationResult (blocks : Z) : NW (list AccountBlock) :=
  deferred (DestroyPretradeAccountBlockList blocks) (
    let* count := PretradeAccountBlockListLen blocks in
    fill (fun index => let* block := PretradeAccountBlockListGet blocks index in ret (NewAccountBlockFromHandle block)) 0 count).
(** The end of the two calls; a null list with no error is read as the list it is not. *)
Definition listResult {A} (read : Z -> NW (list A)) (r : option Z * option Z) : NW (list A * option Error) :=
  match r with
  | (_, Some configErr) => let* e := newErrorFromHandle configErr in ret ([], Some e)
  | (Some blocks, None) => let* l := read blocks in ret (l, None)
  | (None, None) => panic nativeAbort
  end.
Definition SpotFundsPnlBoundsKillSwitch (name : string) (globalBarrier : option (option SpotFundsPnlBoundsBarrier))
    (accountGroupBarriers : option (list SpotFundsPnlBoundsAccountGroupBarrier))
    (accountBarriers : option (list SpotFundsPnlBoundsAccountBarrier)) : CW (list ConfigureAccountBlockOutcome * option Error) :=
  let hasGlobal := bool_decide (is_Some globalBarrier) in
  let nativeGlobal := nativeSpotFundsPnlBoundsBarrier <$> mjoin globalBarrier in
  let nativeAccountGroups := map (fun b => NewPretradePoliciesSpotFundsPnlBoundsAccountGroupBarrier
    (AccountGroupIDHandle (spg_AccountGroupID b)) (nativeSpotFundsPnlBoundsBarrier (spg_Barrier b))) <$> accountGroupBarriers in
  let nativeAccounts := map (fun b => NewPretradePoliciesSpotFundsPnlBoundsAccountBarrier
    (AccountIDHandle (spc_AccountID b)) (nativeSpotFundsPnlBoundsBarrier (spc_Barrier b))) <$> accountBarriers in
  let* r := EngineConfigureSpotFundsPnlBoundsKillSwitch name nativeGlobal hasGlobal nativeAccountGroups nativeAccounts in
  onRest (listResult newAccountBlockOutcomes r).
Definition SetSpotFundsAccountPnl (name : string) (account : AccountID) (state : PnlState) : CW (list AccountBlock * option Error) :=
  let* r := EngineSetSpotFundsAccountPnl name (AccountIDHandle account) (PnlStateHandle state) in
  onRest (listResult newPolicyConfigurationResult r).
End Configure.
