(* ===== verification/ConfigureFacts.v ===== *)
(** * What a configuration call does

    Every call of [Configurator] is one call of the engine with the axes it was given, and
    the answer of the engine as Go values: the error object, or the list, is read in full
    and destroyed. An override without a target is refused before the engine is called. *)
From Stdlib Require Import ZArith Lia.
From stdpp Require Import base list gmap strings pretty.
From S2P Require Import Prelude GoRuntime NativeErrors NativeObjects MarketData NativeMem Routing ParamValues NumericTypes CustomPolicy Rejects NativePolicies Policies PolicyFacts Configure.

(** ** What the engine documents (openpit.h) *)

(** An error object comes with a failure, and only then. *)
Definition errorIff (r : bool * option NativeConfigureError) : Prop :=
  match r with (true, None) | (false, Some _) => True | _ => False end.
Definition listOrError {A} (r : option A * option NativeConfigureError) : Prop :=
  match r with (Some _, None) | (None, Some _) => True | _ => False end.
Class DocumentedConfigure (E : Type) `{!NativeConfigure E} : Prop := {
  doc_rate n x b a1 a2 a3 e : errorIff (snd (configure_rate_limit n x b a1 a2 a3 e));
  doc_pnl n a1 a2 e : errorIff (snd (configure_pnl_bounds_killswitch n a1 a2 e));
  doc_size n x b a1 a2 e : errorIff (snd (configure_order_size_limit n x b a1 a2 e));
  doc_spot n s hs p hp o e : errorIff (snd (configure_spot_funds n s hs p hp o e));
  doc_spot_pnl n x b a1 a2 e : listOrError (snd (configure_spot_funds_pnl_bounds_killswitch n x b a1 a2 e));
  doc_spot_set n a st e : listOrError (snd (spot_funds_set_account_pnl n a st e));
  doc_global n md e : errorIff (snd (spot_funds_global_limit_mode n md e));
  doc_account n a md h e : errorIff (snd (spot_funds_account_limit_mode n a md h e));
  doc_position n a s q h e : errorIff (snd (spot_funds_position_limit n a s q h e));
  doc_account_group n g md h e : errorIff (snd (spot_funds_account_group_limit_mode n g md h e));
  doc_set_pnl n a s p e : errorIff (snd (pnl_bounds_killswitch_set_account_pnl n a s p e));
}.

(** ** The calls *)

Inductive configureOp :=
| OpRateLimit (name : string) (broker : option RateLimitBrokerBarrier) (assets : option (list RateLimitAssetBarrier))
    (accounts : option (list RateLimitAccountBarrier)) (accountAssets : option (list RateLimitAccountAssetBarrier))
| OpRateLimitUpdate (name : string) (broker : option (option RateLimitBrokerBarrier)) (assets : option (list RateLimitAssetBarrier))
    (accounts : option (list RateLimitAccountBarrier)) (accountAssets : option (list RateLimitAccountAssetBarrier))
| OpPnlBounds (name : string) (brokers : option (list PnlBoundsBrokerBarrier)) (accounts : option (list PnlBoundsAccountAssetBarrierUpdate))
| OpSetAccountPnl (name : string) (account : AccountID) (asset : Asset) (pnl : Pnl)
| OpOrderSize (name : string) (broker : option OrderSizeBrokerBarrier) (assets : option (list OrderSizeAssetBarrier))
    (accountAssets : option (list OrderSizeAccountAssetBarrier))
| OpOrderSizeUpdate (name : string) (broker : option (option OrderSizeBrokerBarrier)) (assets : option (list OrderSizeAssetBarrier))
    (accountAssets : option (list OrderSizeAccountAssetBarrier))
| OpSpotFunds (name : string) (slippage source : option Z) (overrides : option (list SpotFundsOverrideEntry))
| OpGlobalLimitMode (name : string) (mode : Z)
| OpAccountLimitMode (name : string) (account : AccountID) (mode : option Z)
| OpPositionLimit (name : string) (account : AccountID) (asset : Asset) (limit : option Quantity)
| OpGroupLimitMode (name : string) (group : AccountGroupID) (mode : option Z)
| OpSpotPnlBounds (name : string) (global : option (option SpotFundsPnlBoundsBarrier))
    (groups : option (list SpotFundsPnlBoundsAccountGroupBarrier)) (accounts : option (list SpotFundsPnlBoundsAccountBarrier))
| OpSetSpotAccountPnl (name : string) (account : AccountID) (state : PnlState).
Inductive configureAnswer :=
| Done (err : option Error)
| Outcomes (l : list ConfigureAccountBlockOutcome) (err : option Error)
| Result (l : list AccountBlock) (err : option Error).

(** The assets an operation reads are live. *)
Definition sliceLive {L A} (m : Mem L) (asset : A -> Asset) (slice : option (list A)) : Prop :=
  Forall (fun x => assetLive m (asset x)) (default [] slice).
Definition opUsable {L} (m : Mem L) (op : configureOp) : Prop :=
  match op with
  | OpRateLimit _ _ l1 _ l3 | OpRateLimitUpdate _ _ l1 _ l3 => sliceLive m rla_SettlementAsset l1 /\ sliceLive m rlca_SettlementAsset l3
  | OpPnlBounds _ l1 l2 => sliceLive m pbb_SettlementAsset l1 /\ sliceLive m (fun x => pbb_SettlementAsset (pbu_Barrier x)) l2
  | OpSetAccountPnl _ _ a _ | OpPositionLimit _ _ a _ => assetLive m a
  | OpOrderSize _ _ l1 l2 | OpOrderSizeUpdate _ _ l1 l2 => sliceLive m osa_Asset l1 /\ sliceLive m osca_Asset l2
  | OpSpotPnlBounds _ g l1 l2 =>
      sliceLive m spb_Currency (option_list <$> g) /\ sliceLive m (fun x => spb_Currency (spg_Barrier x)) l1 /\
      sliceLive m (fun x => spb_Currency (spc_Barrier x)) l2
  | _ => True
  end.

(** *** What a call asks of the engine, and what its answer is *)

(** An axis: left as it is, or replaced. *)
Definition axisGiven {A B} (f : A -> B) (slice : option (list A)) : list B * bool :=
  match slice with None => ([], false) | Some l => (map f l, true) end.
(** A barrier: left, cleared or set. *)
Definition barrierGiven {A B} (f : A -> B) (barrier : option (option A)) : option B * bool :=
  match barrier with None => (None, false) | Some None => (None, true) | Some (Some x) => (Some (f x), true) end.
Definition given {A} (o : option A) : option (option A) := match o with None => None | Some x => Some (Some x) end.
Definition valueGiven (zero : Z) (o : option Z) : Z * bool := match o with None => (zero, false) | Some x => (x, true) end.

Definition errorOf (d : NativeConfigureError) : Error := mkError (nc_message d) (nc_kind d).
Definition doneWith {E} (r : E * (bool * option NativeConfigureError)) : E * configureAnswer := (fst r, Done (errorOf <$> snd (snd r))).
Definition listedWith {E A B} (f : A -> B) (answer : list B -> option Error -> configureAnswer)
    (r : E * (option (list A) * option NativeConfigureError)) : E * configureAnswer :=
  (fst r, answer (map f (default [] (fst (snd r)))) (errorOf <$> snd (snd r))).
Definition blockOf (o : PretradeAccountBlockOutcome) : ConfigureAccountBlockOutcome :=
  mkAccountBlockOutcome (bo_account_id o) (NewAccountBlockFromHandle (bo_block o)).
Definition overrideRefused (i : nat) (err : error) : Error :=
  mkError ("configure: spot funds override " +:+ pretty i +:+ ": " +:+ plainText err) ErrorKindValidation.

Section Facts.
Context {L E : Type} `{!NativeConfigure E}.
Abbreviation Wd := (Natives configureObject E).
Abbreviation NW := (M Wd).
Abbreviation CW := (M (Seen L Wd)).

Definition rateCalled (m : Mem L) (name : string) (broker : option (option RateLimitBrokerBarrier))
    (assets : option (list RateLimitAssetBarrier)) (accounts : option (list RateLimitAccountBarrier))
    (accountAssets : option (list RateLimitAccountAssetBarrier)) (e : E) :=
  let '(b, hasBroker) := barrierGiven (fun b => mkRateBroker (MaxOrders (rlb_Limit b)) (Window (rlb_Limit b))) broker in
  configure_rate_limit name b hasBroker
    (axisGiven (fun x => mkRateAsset (MaxOrders (rla_Limit x)) (Window (rla_Limit x)) (said m (rla_SettlementAsset x))) assets)
    (axisGiven (fun x => mkRateAccount (rlc_AccountID x) (MaxOrders (rlc_Limit x)) (Window (rlc_Limit x))) accounts)
    (axisGiven (fun x => mkRateAccountAsset (rlca_AccountID x) (MaxOrders (rlca_Limit x)) (Window (rlca_Limit x))
       (said m (rlca_SettlementAsset x))) accountAssets) e.
Definition sizeCalled (m : Mem L) (name : string) (broker : option (option OrderSizeBrokerBarrier))
    (assets : option (list OrderSizeAssetBarrier)) (accountAssets : option (list OrderSizeAccountAssetBarrier)) (e : E) :=
  let '(b, hasBroker) := barrierGiven (fun b => mkSizeBroker (capsOf (osb_Limit b))) broker in
  configure_order_size_limit name b hasBroker
    (axisGiven (fun x => mkSizeAsset (capsOf (osa_Limit x)) (said m (osa_Asset x))) assets)
    (axisGiven (fun x => mkSizeAccountAsset (capsOf (osca_Limit x)) (osca_AccountID x) (said m (osca_Asset x))) accountAssets) e.

(** The engine after the call, and the answer. *)
Definition configureCall (m : Mem L) (op : configureOp) (e : E) : E * configureAnswer :=
  match op with
  | OpRateLimit n b l1 l2 l3 => doneWith (rateCalled m n (given b) l1 l2 l3 e)
  | OpRateLimitUpdate n b l1 l2 l3 => doneWith (rateCalled m n b l1 l2 l3 e)
  | OpPnlBounds n l1 l2 => doneWith (configure_pnl_bounds_killswitch n
      (axisGiven (fun x => mkPnlBarrier (said m (pbb_SettlementAsset x)) (capOf (pbb_LowerBound x)) (capOf (pbb_UpperBound x))) l1)
      (axisGiven (fun x => mkPnlUpdate (pbu_AccountID x) (said m (pbb_SettlementAsset (pbu_Barrier x)))
         (capOf (pbb_LowerBound (pbu_Barrier x))) (capOf (pbb_UpperBound (pbu_Barrier x)))) l2) e)
  | OpSetAccountPnl n a s p => doneWith (pnl_bounds_killswitch_set_account_pnl n a (said m s) p e)
  | OpOrderSize n b l1 l2 => doneWith (sizeCalled m n (given b) l1 l2 e)
  | OpOrderSizeUpdate n b l1 l2 => doneWith (sizeCalled m n b l1 l2 e)
  | OpSpotFunds n s p o =>
      let call given :=
        let '(sv, sh) := valueGiven 0 s in
        let '(pv, ph) := valueGiven 0 p in
        doneWith (configure_spot_funds n sv sh pv ph given e) in
      match o with
      | None => call ([], false)
      | Some l => match translatedFrom 0 l with
                  | inl l => call (l, true)
                  | inr (i, err) => (e, Done (Some (overrideRefused i err)))
                  end
      end
  | OpGlobalLimitMode n md => doneWith (spot_funds_global_limit_mode n md e)
  | OpAccountLimitMode n a md => let '(v, h) := valueGiven 0 md in doneWith (spot_funds_account_limit_mode n a v h e)
  | OpPositionLimit n a s q => doneWith (spot_funds_position_limit n a (said m s) (default zeroDecimal q) (bool_decide (is_Some q)) e)
  | OpGroupLimitMode n g md => let '(v, h) := valueGiven 0 md in doneWith (spot_funds_account_group_limit_mode n (grp_native g) v h e)
  | OpSpotPnlBounds n g l1 l2 =>
      let '(b, h) := barrierGiven (spotSaid m) g in
      listedWith blockOf Outcomes (configure_spot_funds_pnl_bounds_killswitch n b h
        (axisGiven (fun x => mkSpotGroup (grp_native (spg_AccountGroupID x)) (spotSaid m (spg_Barrier x))) l1)
        (axisGiven (fun x => mkSpotAccount (spc_AccountID x) (spotSaid m (spc_Barrier x))) l2) e)
  | OpSetSpotAccountPnl n a st => listedWith NewAccountBlockFromHandle Result (spot_funds_set_account_pnl n a (PnlStateHandle st) e)
  end.

(** The methods. *)
Definition doing (m : CW (option Error)) : CW configureAnswer := let* err := m in ret (Done err).
Definition performConfigure (op : configureOp) : CW configureAnswer :=
  match op with
  | OpRateLimit n b l1 l2 l3 => doing (RateLimit_ n b l1 l2 l3)
  | OpRateLimitUpdate n b l1 l2 l3 => doing (RateLimitUpdate n b l1 l2 l3)
  | OpPnlBounds n l1 l2 => doing (PnlBoundsKillSwitch n l1 l2)
  | OpSetAccountPnl n a s p => doing (SetAccountPnl n a s p)
  | OpOrderSize n b l1 l2 => doing (OrderSizeLimit_ n b l1 l2)
  | OpOrderSizeUpdate n b l1 l2 => doing (OrderSizeLimitUpdate n b l1 l2)
  | OpSpotFunds n s p o => doing (SpotFunds n s p o)
  | OpGlobalLimitMode n md => doing (SpotFundsGlobalLimitMode n md)
  | OpAccountLimitMode n a md => doing (SpotFundsAccountLimitMode n a md)
  | OpPositionLimit n a s q => doing (SpotFundsPositionLimit n a s q)
  | OpGroupLimitMode n g md => doing (SpotFundsAccountGroupLimitMode n g md)
  | OpSpotPnlBounds n g l1 l2 => let* r := SpotFundsPnlBoundsKillSwitch n g l1 l2 in ret (Outcomes (fst r) (snd r))
  | OpSetSpotAccountPnl n a st => let* r := SetSpotFundsAccountPnl n a st in ret (Result (fst r) (snd r))
  end.

(** ** What comes back is read and destroyed *)

Lemma configuring_result f (w : Wd) :
  nativesOk w -> errorIff (snd (f (wEngine w))) ->
  ends (let* c := configuring f in configureResult c) w (fst (f (wEngine w))) (Ret (errorOf <$> snd (snd (f (wEngine w))))).
Proof.
  intros K Hd. apply ends_assoc. eapply ends_bind; [done|apply ends_native|]. intros w1 K1 _ E1. rewrite <- E1.
  destruct (snd (f (wEngine w))) as [ok err]. apply ends_assoc. destruct ok, err as [d|]; try done; cbn [fmap option_fmap option_map].
  - apply ends_out_none. apply ends_ret.
  - apply ends_out_some; [done|]. intros h w2 K2 _ Eo Ee. rewrite <- Ee.
    assert (wObjects w2 !! h = Some (OConfigureError d)) as Ho by (by rewrite Eo, lookup_insert_eq).
    apply releases_assoc. eapply within_getter; [done|done|done|]. apply within_assoc.
    eapply within_getter; [done|done|done|]. apply within_assoc.
    eapply releases_destroy; [done|done|]. intros w3 _ _ <-. apply ends_ret.
Qed.

(** Reading a list index by index. *)
Lemma fill_ends {A} (get : nat -> NW A) (l : list A) (w : Wd) : forall i,
  nativesOk w ->
  (forall j a w', nativesOk w' -> wObjects w' = wObjects w -> l !! j = Some a -> ends (get (i + j)) w' (wEngine w') (Ret a)) ->
  ends (fill get i (length l)) w (wEngine w) (Ret l).
Proof.
  revert w. induction l as [|a l IH]; intros w i K Hg; [apply ends_ret|]. cbn [fill length].
  eapply ends_bind; [done| |].
  { pose proof (Hg 0 a w K eq_refl eq_refl) as H. by rewrite Nat.add_0_r in H. }
  intros w1 K1 Eo1 E1. eapply ends_bind; [done|apply IH; [done|]|].
  - intros j b w' K' Eo Hj. rewrite Nat.add_succ_comm. apply Hg; [done|congruence|done].
  - intros w2 _ _ E2. rewrite <- E1, <- E2. apply ends_ret.
Qed.
Lemma map_lookup {A B} (f : A -> B) l j b : map f l !! j = Some b -> exists a, l !! j = Some a /\ f a = b.
Proof. intros H. apply list_lookup_fmap_Some in H as (a & -> & Ha). by exists a. Qed.
Lemma outcomes_released h l (w : Wd) :
  nativesOk w -> wObjects w !! h = Some (OBlockOutcomes l) -> releases h (newAccountBlockOutcomes h) w (wEngine w) (Ret (map blockOf l)).
Proof.
  intros K H. eapply releases_deferred; [done|done|].
  eapply ends_bind; [done|by eapply ends_getter|]. intros w1 K1 Eo1 E1. rewrite <- E1, <- (length_map blockOf l).
  apply fill_ends; [done|]. intros j b w2 K2 Eo2 (a & Ha & <-)%map_lookup.
  eapply ends_bind; [done| |].
  - eapply ends_getter; [rewrite Eo2, Eo1; exact H|done|]. cbn. rewrite Ha. done.
  - intros w3 _ _ <-. apply ends_ret.
Qed.
Lemma blocks_released h l (w : Wd) :
  nativesOk w -> wObjects w !! h = Some (OBlocks l) ->
  releases h (newPolicyConfigurationResult h) w (wEngine w) (Ret (map NewAccountBlockFromHandle l)).
Proof.
  intros K H. eapply releases_deferred; [done|done|].
  eapply ends_bind; [done|by eapply ends_getter|]. intros w1 K1 Eo1 E1. rewrite <- E1, <- (length_map NewAccountBlockFromHandle l).
  apply fill_ends; [done|]. intros j b w2 K2 Eo2 (a & Ha & <-)%map_lookup.
  eapply ends_bind; [done| |].
  - eapply ends_getter; [rewrite Eo2, Eo1; exact H|done|]. cbn. rewrite Ha. done.
  - intros w3 _ _ <-. apply ends_ret.
Qed.
Lemma listing_result {A B} (wrap : list A -> configureObject) (read : Z -> NW (list B)) (f : A -> B) g (w : Wd) :
  nativesOk w -> listOrError (snd (g (wEngine w))) ->
  (forall h l w', nativesOk w' -> wObjects w' !! h = Some (wrap l) -> releases h (read h) w' (wEngine w') (Ret (map f l))) ->
  ends (let* r := listing wrap g in listResult read r) w (fst (g (wEngine w)))
    (Ret (map f (default [] (fst (snd (g (wEngine w))))), errorOf <$> snd (snd (g (wEngine w))))).
Proof.
  intros K Hd Hr. apply ends_assoc. eapply ends_bind; [done|apply ends_native|]. intros w1 K1 _ E1. rewrite <- E1.
  destruct (snd (g (wEngine w))) as [l0 err]. destruct l0 as [l0|], err as [d|]; try done; cbn [fmap option_fmap option_map].
  - apply ends_assoc. apply ends_out_some; [done|]. intros h w2 K2 _ Eo Ee. rewrite <- Ee.
    change (releases h (let* l := read h in ret (l, None : option Error)) w2 (wEngine w2) (Ret (map f l0, None))).
    eapply within_seq; [done|apply delete_subseteq|apply (Hr h l0); [done|by rewrite Eo, lookup_insert_eq]|].
    intros w3 _ Eo3 <-. by apply within_ret.
  - apply ends_assoc. apply ends_out_none. apply ends_assoc. apply ends_out_some; [done|]. intros h w2 K2 _ Eo Ee. rewrite <- Ee.
    change (releases h (let* e := newErrorFromHandle h in ret ([] : list B, Some e)) w2 (wEngine w2) (Ret ([], Some (errorOf d)))).
    assert (wObjects w2 !! h = Some (OConfigureError d)) as Ho by (by rewrite Eo, lookup_insert_eq).
    apply releases_assoc. eapply within_getter; [done|done|done|]. apply within_assoc.
    eapply within_getter; [done|done|done|]. apply within_assoc.
    eapply releases_destroy; [done|done|]. intros w3 _ _ <-. apply ends_ret.
Qed.

(** ** With the memory *)

(** [answers m mm w e a]: from [w] with the memory [mm], [m] answers [a] with the engine
    in [e], and leaves the memory, and no object, error or string more. *)
Definition answers {A} (m : CW A) (mm : Mem L) (w : Wd) (e : E) (a : A) : Prop :=
  exists w', m (mkSeen mm w) = (Ret a, mkSeen mm w') /\ wEngine w' = e /\ leaves w w' (wObjects w).

Lemma answers_step {A B} (m : CW A) (f : A -> CW B) mm w a e b :
  m (mkSeen mm w) = (Ret a, mkSeen mm w) -> answers (f a) mm w e b -> answers (bind m f) mm w e b.
Proof. intros Em (w' & Ew & H). exists w'. by rewrite (bind_Ret _ _ _ _ _ Em). Qed.
Lemma answers_assoc {A B C} (m : CW A) (f : A -> CW B) (g : B -> CW C) mm w e c :
  answers (bind m (fun a => bind (f a) g)) mm w e c -> answers (bind (bind m f) g) mm w e c.
Proof. intros (w' & Ew & H). exists w'. by rewrite bind_assoc. Qed.
Lemma answers_call {A B C} (c : NW A) (k : A -> NW B) (g : B -> C) mm w e b :
  ends (bind c k) w e (Ret b) -> answers (bind (onRest c) (fun a => bind (onRest (k a)) (fun b => ret (g b)))) mm w e (g b).
Proof.
  intros (w' & Ew & H). exists w'. split; [|done]. unfold bind, onRest, ret in *. cbn.
  destruct (c w) as [[a|v] w1]; cbn; [|done]. destruct (k a w1) as [[b'|v] w2]; cbn; by simplify_eq.
Qed.
Lemma answers_axis {A B} {X} `{!Named X} (f : A -> X StringView) (g : A -> Asset) (h : A -> X string) slice
    (k : list (X string) * bool -> CW B) mm w e b :
  (forall x, nameOf (f x) = importString (AssetHandle (g x))) -> (forall x, withName (f x) (said mm (g x)) = h x) ->
  sliceLive mm g slice -> answers (k (axisGiven h slice)) mm w e b -> answers (bind (readAxis (map f <$> slice)) k) mm w e b.
Proof.
  intros Hn Hh Hl. apply answers_step. unfold readAxis. destruct slice as [l|]; [|done]. cbn.
  by rewrite (bind_Ret _ _ _ _ _ (readAll_axis _ _ _ _ w (axis_map mm f g h l Hn Hh Hl))).
Qed.
Lemma answers_name {B} (a : Asset) (k : string -> CW B) mm w e b :
  assetLive mm a -> answers (k (said mm a)) mm w e b -> answers (bind (onMem (ViewSafe (importString (AssetHandle a)))) k) mm w e b.
Proof.
  intros Hl. apply answers_step. unfold onMem. cbn. rewrite ViewSafe_spec by (by apply viewLive_handle).
  unfold said. by rewrite viewText_handle.
Qed.
Lemma answers_barrier {B} global (k : option (PretradePoliciesSpotFundsPnlBoundsBarrier string) -> CW B) mm w e b :
  sliceLive mm spb_Currency (option_list <$> global) -> answers (k (fst (barrierGiven (spotSaid mm) global))) mm w e b ->
  answers (bind (readOptional (nativeSpotFundsPnlBoundsBarrier <$> mjoin global)) k) mm w e b.
Proof.
  intros Hl. apply answers_step. destruct global as [[x|]|]; try done. apply (readOptional_axis mm _ (spb_Currency x)).
  apply (axis_map mm nativeSpotFundsPnlBoundsBarrier spb_Currency (spotSaid mm) [x]); done.
Qed.

Lemma answers_configuring f mm w :
  nativesOk w -> errorIff (snd (f (wEngine w))) ->
  answers (bind (onRest (configuring f)) (fun c => bind (onRest (configureResult c)) (fun err => ret (Done err)))) mm w
    (fst (doneWith (f (wEngine w)))) (snd (doneWith (f (wEngine w)))).
Proof. intros K Hd. apply (answers_call _ _ Done). by apply configuring_result. Qed.

Lemma spotOverrides_translated l : forall i,
  spotOverrides i l = match translatedFrom i l with inl l => inl l | inr (j, err) => inr (overrideRefused j err) end.
Proof.
  induction l as [|e l IH]; intros i; [done|]. cbn [spotOverrides].
  rewrite NewNativeSpotFundsOverride_target, translatedFrom_cons, IH.
  destruct (targetOf (oe_Target e)); [|done]. by destruct (translatedFrom (S i) l) as [|[]].
Qed.

(** *** One method each *)

Lemma axisArgs_given {A B} (f : A -> B) slice : axisArgs (map f <$> slice) = axisGiven f slice.
Proof. by destruct slice. Qed.
Lemma rate_answers `{!DocumentedConfigure E} mm (w : Wd) n b l1 l2 l3 :
  nativesOk w -> sliceLive mm rla_SettlementAsset l1 -> sliceLive mm rlca_SettlementAsset l3 ->
  answers (doing (RateLimitUpdate n b l1 l2 l3)) mm w (fst (doneWith (rateCalled mm n b l1 l2 l3 (wEngine w))))
    (snd (doneWith (rateCalled mm n b l1 l2 l3 (wEngine w)))).
Proof.
  intros K H1 H3. apply answers_assoc, answers_assoc. eapply answers_axis; [done|done|exact H1|].
  apply answers_assoc. eapply answers_axis; [done|done|exact H3|]. rewrite axisArgs_given.
  unfold rateCalled. destruct b as [[b|]|]; apply answers_configuring; try done; apply doc_rate.
Qed.
Lemma size_answers `{!DocumentedConfigure E} mm (w : Wd) n b l1 l2 :
  nativesOk w -> sliceLive mm osa_Asset l1 -> sliceLive mm osca_Asset l2 ->
  answers (doing (OrderSizeLimitUpdate n b l1 l2)) mm w (fst (doneWith (sizeCalled mm n b l1 l2 (wEngine w))))
    (snd (doneWith (sizeCalled mm n b l1 l2 (wEngine w)))).
Proof.
  intros K H1 H3. apply answers_assoc, answers_assoc. eapply answers_axis; [done|done|exact H1|].
  apply answers_assoc. eapply answers_axis; [done|done|exact H3|].
  unfold sizeCalled. destruct b as [[b|]|]; apply answers_configuring; try done; apply doc_size.
Qed.
Lemma spot_answers `{!DocumentedConfigure E} mm (w : Wd) n s p o :
  nativesOk w ->
  answers (doing (SpotFunds n s p o)) mm w (fst (configureCall mm (OpSpotFunds n s p o) (wEngine w)))
    (snd (configureCall mm (OpSpotFunds n s p o) (wEngine w))).
Proof.
  intros K. cbn [configureCall]. unfold SpotFunds.
  assert (forall given, answers (doing (let* c := EngineConfigureSpotFunds n s p given in onRest (configureResult c))) mm w
    (fst (let '(sv, sh) := valueGiven 0 s in let '(pv, ph) := valueGiven 0 p in
       doneWith (configure_spot_funds n sv sh pv ph (axisArgs given) (wEngine w))))
    (snd (let '(sv, sh) := valueGiven 0 s in let '(pv, ph) := valueGiven 0 p in
       doneWith (configure_spot_funds n sv sh pv ph (axisArgs given) (wEngine w))))) as Hc.
  { intros g. apply answers_assoc. destruct s, p; apply answers_configuring; try done; apply doc_spot. }
  destruct o as [l|]; [|apply (Hc None)]. rewrite spotOverrides_translated.
  destruct (translatedFrom 0 l) as [l'|[i err]]; [apply (Hc (Some l'))|].
  exists w. by repeat split.
Qed.

(** C13: every method of [Configurator] is one call of the engine, with a nil slice as an axis
    to leave, an empty one as an axis to clear, and each barrier with its asset's name; the
    configure error, or the list of blocks, becomes the Go value with the same content and
    is destroyed, and no object, error or string is left. An override without a target is a
    validation error with its index, and the engine is not called. *)
Theorem configure_calls_are_native_calls `{!DocumentedConfigure E} (mm : Mem L) (w : Wd) op :
  nativesOk w -> opUsable mm op ->
  answers (performConfigure op) mm w (fst (configureCall mm op (wEngine w))) (snd (configureCall mm op (wEngine w))).
Proof.
  intros K Hu. destruct op; cbn [opUsable] in Hu; cbn [performConfigure configureCall]; try destruct Hu as [H1 H2].
  - destruct broker; by apply rate_answers.
  - by apply rate_answers.
  - apply answers_assoc, answers_assoc. eapply answers_axis; [done|done|exact H1|].
    apply answers_assoc. eapply answers_axis; [done|done|exact H2|]. apply answers_configuring; [done|apply doc_pnl].
  - apply answers_assoc, answers_assoc. apply answers_name; [done|]. apply answers_configuring; [done|apply doc_set_pnl].
  - destruct broker; by apply size_answers.
  - by apply size_answers.
  - by apply spot_answers.
  - apply answers_assoc, answers_configuring; [done|apply doc_global].
  - destruct mode; apply answers_assoc, answers_configuring; try done; apply doc_account.
  - apply answers_assoc, answers_assoc. apply answers_name; [done|]. destruct limit; apply answers_configuring; try done; apply doc_position.
  - destruct mode; apply answers_assoc, answers_configuring; try done; apply doc_account_group.
  - destruct H2 as [H2 H3]. apply answers_assoc, answers_assoc. apply answers_barrier; [exact H1|].
    apply answers_assoc. eapply answers_axis; [done|done|exact H2|]. apply answers_assoc. eapply answers_axis; [done|done|exact H3|].
    destruct global as [[x|]|]; cbn [barrierGiven fst]; apply (answers_call _ _ (fun r : _ * _ => Outcomes (fst r) (snd r)) _ _ _ (_, _));
      (eapply listing_result; [done|apply doc_spot_pnl|]; intros; by apply outcomes_released).
  - apply answers_assoc. apply (answers_call _ _ (fun r : _ * _ => Result (fst r) (snd r)) _ _ _ (_, _)).
    eapply listing_result; [done|apply doc_spot_set|]. intros; by apply blocks_released.
Qed.
End Facts.

(** ** An engine with one axis

    It has the asset barriers of a rate-limit policy; every other policy is unknown, and
    retuning P&L bounds blocks account 7. *)
Definition oneAxis : NativeConfigure (list (PretradePoliciesRateLimitAssetBarrier string)) :=
  let unknown := mkNativeConfigureError "unknown policy" ErrorKindUnknown in
  let refuse (e : list (PretradePoliciesRateLimitAssetBarrier string)) := (e, (false, Some unknown)) in
  {| configure_rate_limit n _ _ assets _ _ e :=
       if bool_decide (n = "RateLimitPolicy"%string) then (if snd assets then fst assets else e, (true, None)) else refuse e;
     configure_pnl_bounds_killswitch _ _ _ := refuse;
     configure_order_size_limit _ _ _ _ _ := refuse;
     configure_spot_funds _ _ _ _ _ _ := refuse;
     configure_spot_funds_pnl_bounds_killswitch _ _ _ _ _ e := (e, (Some [mkBlockOutcome 7 zeroBlock], None));
     spot_funds_set_account_pnl _ _ _ e := (e, (None, Some unknown));
     spot_funds_global_limit_mode _ _ := refuse;
     spot_funds_account_limit_mode _ _ _ _ := refuse;
     spot_funds_position_limit _ _ _ _ _ := refuse;
     spot_funds_account_group_limit_mode _ _ _ _ := refuse;
     pnl_bounds_killswitch_set_account_pnl _ _ _ _ := refuse; |}.
Lemma oneAxis_documented : DocumentedConfigure (NativeConfigure0 := oneAxis) (list (PretradePoliciesRateLimitAssetBarrier string)).
Proof. split; intros; cbn; try done. by destruct (bool_decide _). Qed.

Lemma configure_calls_are_native_calls_witness :
  let w : Natives configureObject _ := noNatives [] in
  let usdBarrier := mkRateAsset 5 1000 "USD"%string in
  let perform := performConfigure (NativeConfigure0 := oneAxis) in
  answers (perform (OpRateLimit "RateLimitPolicy" None (Some [PolicyFacts.usdBarrier]) None None)) before w [usdBarrier] (Done None) /\
  answers (perform (OpRateLimit "RateLimitPolicy" None None None None)) before (noNatives [usdBarrier]) [usdBarrier] (Done None) /\
  answers (perform (OpRateLimit "RateLimitPolicy" None (Some []) None None)) before (noNatives [usdBarrier]) [] (Done None) /\
  answers (perform (OpGlobalLimitMode "RateLimitPolicy" 1)) before w [] (Done (Some (mkError "unknown policy" 0))) /\
  answers (perform (OpSpotPnlBounds "SpotFundsPolicy" (Some None) None None)) before w []
    (Outcomes [mkAccountBlockOutcome 7%Z (NewAccountBlockFromHandle zeroBlock)] None).
Proof.
  intros w ub perform.
  pose proof (fun w op => configure_calls_are_native_calls (DocumentedConfigure0 := oneAxis_documented) before w op) as H.
  split_and!.
  - refine (H w (OpRateLimit _ _ _ _ _) (noNatives_ok _) _). split; repeat constructor. by exists "USD"%string.
  - refine (H (noNatives [ub]) (OpRateLimit _ _ _ _ _) (noNatives_ok _) _). split; constructor.
  - refine (H (noNatives [ub]) (OpRateLimit _ _ _ _ _) (noNatives_ok _) _). split; constructor.
  - exact (H w (OpGlobalLimitMode _ _) (noNatives_ok _) I).
  - refine (H w (OpSpotPnlBounds _ _ _ _) (noNatives_ok _) _). split; [constructor|split; constructor].
Defined.
