(* ===== verification/EngineCalls.v ===== *)
(** * Calls of the native engine

    The order, report and adjustment calls of internal/native/engine.go with the status
    switches that decide what their out parameters mean, and what engine.go,
    pretrade/request.go and reject make of the objects that come back. A request, a
    reservation, an operation and a dry-run report are opaque to Go; the lists inside a
    result are borrowed from it. What the engine decides is a class of functions over its
    state: a status, and whatever it writes into the out parameters. *)
From Stdlib Require Import ZArith Lia.
From stdpp Require Import base list gmap strings pretty.
From S2P Require Import Prelude GoRuntime NativeErrors NativeObjects ParamValues NativeParam NumericTypes CustomPolicy Rejects Outcomes NativeOrder ModelOrder NativeReport ModelReport NativeAdjustment ModelAdjustment.

(** ** The native side *)

Record NativePostTradeResult := mkNativeResult {
  pt_blocks : list PretradeAccountBlock;
  pt_adjustments : list OpenPitAccountAdjustmentOutcome;
  pt_pnls : list OpenPitAccountPnlOutcome;
}.
Record NativeBatchError := mkNativeBatchError { be_index : nat; be_rejects : list PretradeReject }.
Inductive engineObject :=
| ORequest (id : Z)
| OReservation (id : Z)
| OOperation (id : Z)
| ODryRunReport (id : Z)
| ORejects (l : list PretradeReject)
| OResult (r : NativePostTradeResult)
| OBatchError (b : NativeBatchError)
| OOutcomes (l : list OpenPitAccountAdjustmentOutcome)
| OAccountBlocks (l : list PretradeAccountBlock).
Definition asRequest (o : engineObject) := match o with ORequest id => Some id | _ => None end.
Definition asRejects (o : engineObject) := match o with ORejects l => Some l | _ => None end.
Definition asResult (o : engineObject) := match o with OResult r => Some r | _ => None end.
Definition asBatchError (o : engineObject) := match o with OBatchError b => Some b | _ => None end.
Definition asOutcomes (o : engineObject) := match o with OOutcomes l => Some l | _ => None end.
Definition asAccountBlocks (o : engineObject) := match o with OAccountBlocks l => Some l | _ => None end.

(** What a call writes: an object, rejects, a text. *)
Record decision := mkDecision {
  de_status : Z; de_object : option Z; de_rejects : option (list PretradeReject); de_message : option string;
}.
Record adjustmentDecision := mkAdjustmentDecision {
  ad_status : Z; ad_reject : option NativeBatchError; ad_outcomes : option (list OpenPitAccountAdjustmentOutcome);
  ad_blocks : option (list PretradeAccountBlock); ad_message : option string;
}.
Class NativeCalls (E : Type) := {
  engine_start_pre_trade : OpenPitOrder -> E -> E * decision;
  engine_execute_pre_trade : OpenPitOrder -> E -> E * decision;
  engine_apply_drop_copy : OpenPitOrder -> E -> E * decision;
  request_execute : Z -> E -> E * decision;
  engine_start_pre_trade_dry_run : OpenPitOrder -> E -> E * (bool * option Z * option string);
  engine_execute_pre_trade_dry_run : OpenPitOrder -> E -> E * (bool * option Z * option string);
  engine_apply_execution_report : OpenPitExecutionReport -> E -> E * (bool * option NativePostTradeResult * option string);
  engine_apply_account_adjustment : Z -> list OpenPitAccountAdjustment -> E -> E * adjustmentDecision;
}.

Definition StatusPassed : Z := 0.
Definition StatusRejected : Z := 1.
Definition StatusError : Z := 2.
Definition ApplyStatusError : Z := 0.
Definition ApplyStatusApplied : Z := 1.
Definition ApplyStatusRejected : Z := 2.

Section Calls.
Context {E : Type} `{!NativeCalls E}.
Abbreviation EW := (M (Natives engineObject E)).

(** Null may be destroyed. *)
Definition destroyNullable (h : option Z) : EW unit :=
  match h with Some h => destroyObject h | None => ret tt end.
Definition destroyNullableString (h : option Z) : EW unit :=
  match h with Some h => onHeap (DestroySharedString h) | None => ret tt end.
Definition unexpectedStatus (call : string) (status : Z) : error :=
  EText (call +:+ " failed with unexpected status " +:+ pretty status) 0.

(** *** The four calls that decide about an order *)

(** The switch over the status; with an unexpected one everything written is destroyed,
    and the executed request, if there is one. *)
Definition decideStatus (call noReason : string) (request : option Z) (status : Z) (object rejects outError : option Z)
    : EW (option Z * option Z * option error) :=
  if (status =? StatusPassed)%Z then ret (object, None, None)
  else if (status =? StatusRejected)%Z then
    match rejects with
    | None => ret (None, None, Some (EText noReason 0))
    | Some rejects => ret (None, Some rejects, None)
    end
  else if (status =? StatusError)%Z then
    let* err := onHeap (consumeSharedStringAsError outError (call +:+ " failed")) in ret (None, None, Some err)
  else
    destroyNullable object ;;;
    destroyNullable request ;;;
    destroyNullable rejects ;;;
    destroyNullableString outError ;;;
    ret (None, None, Some (unexpectedStatus call status)).
Definition noRejectReason : string := "order rejected, but no reject reason provided".
Definition EngineStartPreTrade (order : OpenPitOrder) : EW (option Z * option Z * option error) :=
  let* d := native (engine_start_pre_trade order) in
  let* request := outObject (ORequest <$> de_object d) in
  let* rejects := outObject (ORejects <$> de_rejects d) in
  let* outError := onHeap (allocString (de_message d)) in
  decideStatus "openpit_engine_start_pre_trade" noRejectReason None (de_status d) request rejects outError.
Definition EngineExecutePreTrade (order : OpenPitOrder) : EW (option Z * option Z * option error) :=
  let* d := native (engine_execute_pre_trade order) in
  let* reservation := outObject (OReservation <$> de_object d) in
  let* rejects := outObject (ORejects <$> de_rejects d) in
  let* outError := onHeap (allocString (de_message d)) in
  decideStatus "openpit_engine_execute_pre_trade" noRejectReason None (de_status d) reservation rejects outError.
Definition EngineApplyDropCopy (order : OpenPitOrder) : EW (option Z * option Z * option error) :=
  let* d := native (engine_apply_drop_copy order) in
  let* operation := outObject (OOperation <$> de_object d) in
  let* rejects := outObject (ORejects <$> de_rejects d) in
  let* outError := onHeap (allocString (de_message d)) in
  decideStatus "openpit_engine_apply_drop_copy" "drop copy rejected, but no reject reason provided" None
    (de_status d) operation rejects outError.
(** With an unexpected status the request itself is destroyed, which its owner still has. *)
Definition PretradePreTradeRequestExecute (request : Z) : EW (option Z * option Z * option error) :=
  let* id := project asRequest request in
  let* d := native (request_execute id) in
  let* reservation := outObject (OReservation <$> de_object d) in
  let* rejects := outObject (ORejects <$> de_rejects d) in
  let* outError := onHeap (allocString (de_message d)) in
  decideStatus "openpit_pretrade_pre_trade_request_execute" noRejectReason (Some request)
    (de_status d) reservation rejects outError.

Definition DestroyPretradePreTradeRequest (request : Z) : EW unit := destroyObject request.
Definition DestroyPretradeRejectList (rejects : Z) : EW unit := destroyObject rejects.

(** *** Dry runs and reports *)

(** An object, or the text of an error. *)
Definition objectOrError {D} (wrap : D -> engineObject) (fallback : string) (f : E -> E * (bool * option D * option string))
    : EW (option Z * option error) :=
  let* (ok, out, message) := native f in
  let* h := outObject (wrap <$> out) in
  let* outError := onHeap (allocString message) in
  if negb ok then let* err := onHeap (consumeSharedStringAsError outError fallback) in ret (None, Some err)
  else ret (h, None).
Definition EngineStartPreTradeDryRun (order : OpenPitOrder) : EW (option Z * option error) :=
  objectOrError ODryRunReport "openpit_engine_start_pre_trade_dry_run failed" (engine_start_pre_trade_dry_run order).
Definition EngineExecutePreTradeDryRun (order : OpenPitOrder) : EW (option Z * option error) :=
  objectOrError ODryRunReport "openpit_engine_execute_pre_trade_dry_run failed" (engine_execute_pre_trade_dry_run order).
Definition EngineApplyExecutionReport (report : OpenPitExecutionReport) : EW (option Z * option error) :=
  objectOrError OResult "openpit_engine_apply_execution_report failed" (engine_apply_execution_report report).
Definition DestroyPostTradeResult (result : Z) : EW unit := destroyObject result.
(** Borrowed lists. *)
Definition PostTradeResultGetAccountBlocks (result : Z) : EW (list PretradeAccountBlock) :=
  let* r := project asResult result in ret (pt_blocks r).
Definition PostTradeResultGetAccountAdjustments (result : Z) : EW (list OpenPitAccountAdjustmentOutcome) :=
  let* r := project asResult result in ret (pt_adjustments r).
Definition PostTradeResultGetAccountPnls (result : Z) : EW (list OpenPitAccountPnlOutcome) :=
  let* r := project asResult result in ret (pt_pnls r).

(** *** Adjustments *)

Definition EngineApplyAccountAdjustment (accountID : Z) (adjustments : list OpenPitAccountAdjustment)
    : EW (option Z * option Z * option Z * option error) :=
  let* d := native (engine_apply_account_adjustment accountID adjustments) in
  let* reject := outObject (OBatchError <$> ad_reject d) in
  let* outOutcomes := outObject (OOutcomes <$> ad_outcomes d) in
  let* outBlocks := outObject (OAccountBlocks <$> ad_blocks d) in
  let* outError := onHeap (allocString (ad_message d)) in
  let status := ad_status d in
  if (status =? ApplyStatusError)%Z then
    let* err := onHeap (consumeSharedStringAsError outError "openpit_engine_apply_account_adjustment failed") in
    ret (None, None, None, Some err)
  else if (status =? ApplyStatusApplied)%Z then ret (None, outOutcomes, outBlocks, None)
  else if (status =? ApplyStatusRejected)%Z then ret (reject, None, None, None)
  else
    destroyNullable reject ;;;
    destroyNullable outOutcomes ;;;
    destroyNullable outBlocks ;;;
    destroyNullableString outError ;;;
    ret (None, None, None, Some (unexpectedStatus "openpit_engine_apply_account_adjustment" status)).
Definition DestroyAccountAdjustmentBatchError (handle : Z) : EW unit := destroyObject handle.
Definition DestroyAccountAdjustmentOutcomeList (outcomes : Z) : EW unit := destroyObject outcomes.
Definition DestroyPretradeAccountBlockList (blocks : Z) : EW unit := destroyObject blocks.
Definition AccountAdjustmentBatchErrorGetFailedAdjustmentIndex (handle : Z) : EW nat :=
  let* b := project asBatchError handle in ret (be_index b).
Definition AccountAdjustmentBatchErrorGetRejects (handle : Z) : EW (list PretradeReject) :=
  let* b := project asBatchError handle in ret (be_rejects b).
End Calls.

(** ** The Go side *)

Definition errNoRejects : error := EText "reject list is not provided" 0.
(** reject.NewListFromHandle of the list behind a handle. *)
Definition NewListFromHandle (handle : list PretradeReject) : list Reject + error :=
  if (length handle =? 0)%nat then inr errNoRejects
  else inl (map (fun i => RejectNewFromHandle (PretradeRejectListGet handle i)) (seq 0 (length handle))).
Definition accountBlocksFrom (handle : list PretradeAccountBlock) : list AccountBlock :=
  map (fun i => NewAccountBlockFromHandle (PretradeAccountBlockListGet handle i)) (seq 0 (length handle)).

Record AccountAdjustmentBatchError := mkBatchError { be_Rejects : list Reject; be_FailedAdjustmentIndex : nat }.
Record BatchResult := mkBatchResult {
  br_BatchError : option AccountAdjustmentBatchError; br_Outcomes : list Outcome; br_AccountBlocks : list AccountBlock;
}.
Record PostTradeResult := mkPostTradeResult {
  pt_AccountBlocks : list AccountBlock; pt_AccountPnls : list AccountPnlOutcome; pt_AccountAdjustments : list Outcome;
}.
Record Request := mkRequest { rq_handle : option Z }.
Definition ErrRequestClosed : error := ESentinel "pre-trade request already closed".

(** An object for the caller, or rejects, or an error. *)
Definition orderAnswer : Type := option Z * option (list Reject) * option error.

Section Go.
Context {F64 E : Type} {NP : NativeParam F64} `{!NativeCalls E}.
Abbreviation EW := (M (Natives engineObject E)).

(** The end of the calls: rejects are read and destroyed. *)
Definition handOut (failure : string) (call : EW (option Z * option Z * option error)) : EW orderAnswer :=
  let* (object, rejects, err) := call in
  match err with
  | Some err => ret (None, None, Some err)
  | None =>
    match rejects with
    | Some rejects =>
      let* l := project asRejects rejects in
      let rejectResult := NewListFromHandle l in
      DestroyPretradeRejectList rejects ;;;
      match rejectResult with
      | inr err => ret (None, None, Some (EWrap failure err))
      | inl rejects => ret (None, Some rejects, None)
      end
    | None => ret (object, None, None)
    end
  end.
Definition StartPreTrade (order : ModelOrder_t) : EW orderAnswer :=
  handOut "failed to create reject list for rejected pre-trade start" (EngineStartPreTrade (ModelOrder.Order.Handle order)).
Definition ExecutePreTrade (order : ModelOrder_t) : EW orderAnswer :=
  handOut "failed to create reject list for rejected order" (EngineExecutePreTrade (ModelOrder.Order.Handle order)).
Definition ApplyDropCopy (order : ModelOrder_t) : EW orderAnswer :=
  handOut "failed to create reject list for rejected drop copy" (EngineApplyDropCopy (ModelOrder.Order.Handle order)).
Definition RequestExecute (r : Request) : EW orderAnswer :=
  match rq_handle r with
  | None => ret (None, None, Some ErrRequestClosed)
  | Some h => handOut "failed to create reject list for rejected order" (PretradePreTradeRequestExecute h)
  end.
Definition RequestClose (r : Request) : EW Request :=
  match rq_handle r with
  | None => ret r
  | Some h => DestroyPretradePreTradeRequest h ;;; ret (mkRequest None)
  end.
Definition StartPreTradeDryRun (order : ModelOrder_t) : EW (option Z * option error) :=
  EngineStartPreTradeDryRun (ModelOrder.Order.Handle order).
Definition ExecutePreTradeDryRun (order : ModelOrder_t) : EW (option Z * option error) :=
  EngineExecutePreTradeDryRun (ModelOrder.Order.Handle order).

Definition ApplyExecutionReport (report : ModelReport_t) : EW (PostTradeResult * option error) :=
  let* (result, err) := EngineApplyExecutionReport (ModelReport.ExecutionReport.Handle report) in
  match err, result with
  | Some err, _ => ret (mkPostTradeResult [] [] [], Some err)
  | None, None => panic nativeAbort
  | None, Some result =>
    deferred (DestroyPostTradeResult result)
      (let* blocks := PostTradeResultGetAccountBlocks result in
       let accountBlocks := accountBlocksFrom blocks in
       let* outcomes := PostTradeResultGetAccountAdjustments result in
       let* outcomes := onHeap (Outcomes.NewListFromHandle outcomes) in
       let* pnls := PostTradeResultGetAccountPnls result in
       let* accountPnls := onHeap (Outcomes.NewAccountPnlListFromHandle pnls) in
       ret (mkPostTradeResult accountBlocks accountPnls outcomes, None))
  end.

Definition NewAccountAdjustmentBatchErrorFromHandle (reject : Z) : EW (AccountAdjustmentBatchError + error) :=
  let* l := AccountAdjustmentBatchErrorGetRejects reject in
  match NewListFromHandle l with
  | inr err => ret (inr err)
  | inl rejectList =>
    let* index := AccountAdjustmentBatchErrorGetFailedAdjustmentIndex reject in
    ret (inl (mkBatchError rejectList index))
  end.
Definition noBatch : BatchResult := mkBatchResult None [] [].
Definition ApplyAccountAdjustment (accountID : AccountID) (adjustments : list ModelAdjustment_t) : EW (BatchResult * option error) :=
  let nativeAdjustments := ModelAdjustment.AccountAdjustment.Handle <$> adjustments in
  let* (adjustmentReject, outcomeList, blockList, err) := EngineApplyAccountAdjustment (AccountIDHandle accountID) nativeAdjustments in
  match err with
  | Some err => ret (noBatch, Some err)
  | None =>
    match adjustmentReject with
    | Some adjustmentReject =>
      let* rejectResult := NewAccountAdjustmentBatchErrorFromHandle adjustmentReject in
      DestroyAccountAdjustmentBatchError adjustmentReject ;;;
      match rejectResult with
      | inr err => ret (noBatch, Some (EWrap "failed to create reject list for rejected account adjustment" err))
      | inl batch => ret (mkBatchResult (Some batch) [] [], None)
      end
    | None =>
      let* outcomes := match outcomeList with
                       | Some outcomeList =>
                         let* l := project asOutcomes outcomeList in
                         let* outcomes := onHeap (Outcomes.NewListFromHandle l) in
                         DestroyAccountAdjustmentOutcomeList outcomeList ;;;
                         ret outcomes
                       | None => ret []
                       end in
      let* accountBlocks := match blockList with
                            | Some blockList =>
                              let* l := project asAccountBlocks blockList in
                              let accountBlocks := accountBlocksFrom l in
                              DestroyPretradeAccountBlockList blockList ;;;
                              ret accountBlocks
                            | None => ret []
                            end in
      ret (mkBatchResult None outcomes accountBlocks, None)
    end
  end.
End Go.
