(* ===== verification/EngineCallsFacts.v ===== *)
(** * What an engine call leaves behind

    Every call answers what the status says, and owns what the library wrote: an object is
    handed to the caller or destroyed, rejects and results are read and destroyed. The
    exception is a request whose execution ends with an unexpected status: it is destroyed
    although its owner is told to close it. *)
From Stdlib Require Import ZArith Lia.
From stdpp Require Import base list gmap strings pretty.
From S2P Require Import Prelude GoRuntime NativeErrors NativeObjects ParamValues NativeParam NumericTypes NumericFacts CustomPolicy Rejects Outcomes OutcomeFacts NativeOrder ModelOrder NativeReport ModelReport NativeAdjustment ModelAdjustment EngineCalls.

(** ** Objects that are written and destroyed *)

Definition without {A} (ho : option Z) (m : gmap Z A) : gmap Z A := match ho with None => m | Some h => delete h m end.
Fixpoint withoutAll {A} (hs : list (option Z)) (m : gmap Z A) : gmap Z A :=
  match hs with [] => m | ho :: hs => withoutAll hs (without ho m) end.
(** Every handle of the list is live when its turn comes. *)
Fixpoint liveInTurn {A} (hs : list (option Z)) (m : gmap Z A) : Prop :=
  match hs with [] => True | ho :: hs => (forall h, ho = Some h -> is_Some (m !! h)) /\ liveInTurn hs (without ho m) end.
(** [o] was written to a new handle [ho]. *)
Definition placed {A} (o : option A) (ho : option Z) (m m' : gmap Z A) : Prop :=
  match o, ho with
  | None, None => m' = m
  | Some x, Some h => m !! h = None /\ m' = <[h := x]> m
  | _, _ => False
  end.
Lemma without_placed {A} (o : option A) ho m m' : placed o ho m m' -> without ho m' = m.
Proof. destruct o, ho; cbn; try done. intros [H ->]. by rewrite delete_insert_id. Qed.
Lemma without_comm {A} a b (m : gmap Z A) : without a (without b m) = without b (without a m).
Proof. destruct a, b; cbn; try done. apply delete_delete. Qed.
Lemma placed_live {A} (o : option A) ho m m' h : placed o ho m m' -> ho = Some h -> is_Some (m' !! h).
Proof. intros H ->. destruct o; [|done]. destruct H as [_ ->]. rewrite lookup_insert_eq. by eexists. Qed.
Lemma placed_other {A} (o : option A) ho m m' h : placed o ho m m' -> is_Some (m !! h) -> is_Some (m' !! h).
Proof.
  destruct o, ho as [h'|]; cbn; try done; [|by intros ->]. intros [H ->] Hh. destruct (decide (h = h')) as [->|].
  - by rewrite H in Hh; destruct Hh.
  - by rewrite lookup_insert_ne.
Qed.
Lemma placed_fresh {A} (o : option A) ho m m' h : placed o ho m m' -> is_Some (m !! h) -> ho <> Some h.
Proof. destruct o, ho as [h'|]; cbn; try done. intros [H _] [x Hx] [= ->]. congruence. Qed.
Lemma without_live {A} ho (m : gmap Z A) h : is_Some (m !! h) -> ho <> Some h -> is_Some (without ho m !! h).
Proof. intros H Hn. destruct ho; [|done]. cbn. by rewrite lookup_delete_ne by congruence. Qed.
(** A later object is not the one written before. *)
Lemma placed_apart {A} (o1 o2 : option A) h1 h2 m m1 m1' m2 h :
  placed o1 h1 m m1 -> (forall h, is_Some (m1 !! h) -> is_Some (m1' !! h)) -> placed o2 h2 m1' m2 -> h2 = Some h -> h1 <> Some h.
Proof. intros P1 Hs P2 Eh ->. eapply (placed_fresh _ _ _ _ _ P2); [apply Hs; by eapply placed_live|done]. Qed.
Lemma placed_swap {A} (o1 o2 : option A) h1 h2 m m1 m2 :
  placed o1 h1 m m1 -> placed o2 h2 m1 m2 -> exists m', placed o2 h2 m m' /\ placed o1 h1 m' m2.
Proof.
  intros P1 P2. destruct o1 as [x1|], h1 as [h1|]; cbn in P1; try done; [|by subst; exists m2].
  destruct P1 as [N1 ->]. destruct o2 as [x2|], h2 as [h2|]; cbn in P2; try done; [|by subst; exists m].
  destruct P2 as [N2 ->]. assert (h2 <> h1) as Hne by (intros ->; by rewrite lookup_insert_eq in N2).
  rewrite lookup_insert_ne in N2 by done. exists (<[h2 := x2]> m). split; [done|]. cbn.
  split; [by rewrite lookup_insert_ne|]. by rewrite insert_insert_ne.
Qed.
(** Three objects that a call wrote. *)
Lemma three_written {A} (o1 o2 o3 : option A) h1 h2 h3 m m1 m2 m3 :
  placed o1 h1 m m1 -> placed o2 h2 m1 m2 -> placed o3 h3 m2 m3 ->
  liveInTurn [h1; h2; h3] m3 /\ withoutAll [h1; h2; h3] m3 = m.
Proof.
  intros P1 P2 P3. assert (forall h, is_Some (m1 !! h) -> is_Some (m2 !! h)) as S2 by (intros h; by eapply placed_other).
  assert (forall h, is_Some (m2 !! h) -> is_Some (m3 !! h)) as S3 by (intros h; by eapply placed_other). split.
  - split; [|split; [|split; [|done]]]; intros h Hh.
    + apply S3, S2. by eapply placed_live.
    + apply without_live; [apply S3; by eapply placed_live|]. exact (placed_apart _ _ _ _ _ _ _ _ _ P1 (fun _ H => H) P2 Hh).
    + apply without_live; [apply without_live; [by eapply placed_live|]|].
      * exact (placed_apart _ _ _ _ _ _ _ _ _ P1 S2 P3 Hh).
      * exact (placed_apart _ _ _ _ _ _ _ _ _ P2 (fun _ H => H) P3 Hh).
  - cbn. rewrite (without_comm h3), (without_comm h3), (without_placed _ _ _ _ P3), (without_comm h2), (without_placed _ _ _ _ P2).
    by eapply without_placed.
Qed.
(** Two objects that a call wrote, and one from before it. *)
Section Written.
Context {A : Type} (o1 o2 : option A) (h1 h2 before : option Z) (m m1 m2 : gmap Z A).
Hypothesis P1 : placed o1 h1 m m1.
Hypothesis P2 : placed o2 h2 m1 m2.
Hypothesis Before : forall h, before = Some h -> is_Some (m !! h).
Lemma written_live : liveInTurn [h1; before; h2] m2.
Proof using P1 P2 Before.
  assert (forall h, is_Some (m1 !! h) -> is_Some (m2 !! h)) as S2 by (intros h; by eapply placed_other).
  split; [|split; [|split; [|done]]]; intros h Hh.
  - apply S2. by eapply placed_live.
  - apply without_live; [|by eapply placed_fresh; [exact P1|apply Before]].
    apply S2. eapply placed_other; [exact P1|]. by apply Before.
  - apply without_live; [apply without_live|]; [by eapply placed_live|exact (placed_apart _ _ _ _ _ _ _ _ _ P1 (fun _ H => H) P2 Hh)|].
    intros ->. eapply (placed_fresh _ _ _ _ _ P2); [|exact Hh]. eapply placed_other; [exact P1|]. by apply Before.
Qed.
Lemma written_gone : withoutAll [h1; before; h2] m2 = without before m.
Proof using P1 P2.
  cbn. rewrite (without_comm h2), (without_comm h2), (without_placed _ _ _ _ P2). by rewrite (without_placed _ _ _ _ P1).
Qed.
End Written.

Section Rules.
Context {E : Type} `{!NativeCalls E}.
Abbreviation Wd := (Natives engineObject E).
Abbreviation EW := (M Wd).

Lemma within_out {A} objects e o (f : option Z -> EW A) (w : Wd) r :
  nativesOk w ->
  (forall ho w', nativesOk w' -> placed o ho (wObjects w) (wObjects w') -> wEngine w' = wEngine w -> within objects e (f ho) w' r) ->
  within objects e (bind (outObject o) f) w r.
Proof.
  intros K Hf. destruct o as [x|]; [|by apply (Hf None w K)]. unfold outObject. apply within_assoc.
  apply within_create; [done|]. intros h w' K' Hn Eo Ee. by apply (Hf (Some h)).
Qed.

(** Destroying handles in turn. *)
Definition discards {A} (hs : list (option Z)) (k : EW A) : EW A := foldr (fun ho k => destroyNullable ho ;;; k) k hs.
Lemma discards_run {A} hs (k : EW A) (w : Wd) :
  liveInTurn hs (wObjects w) -> discards hs k w = k (setObjects w (withoutAll hs (wObjects w))).
Proof.
  revert w. induction hs as [|ho hs IH]; intros w; [by destruct w|]. intros [H Hl]. cbn [discards foldr].
  destruct ho as [h|]; [|by apply (IH w)]. destruct (H h eq_refl) as [x Hx].
  unfold bind, destroyNullable, destroyObject. rewrite Hx. by apply IH.
Qed.
(** With the text that was written, if one was. *)
Lemma within_discards {A} hs m (x : A) (w : Wd) :
  nativesOk w -> liveInTurn hs (wObjects w) ->
  within (withoutAll hs (wObjects w)) (wEngine w)
    (let* s := onHeap (allocString m) in discards hs (destroyNullableString s ;;; ret x)) w (Ret x).
Proof.
  intros [[_ K] _] Hl. destruct m as [t|].
  - set (h := nextObject (wHeap w)).
    set (w1 := setHeap w (mkNativeHeap (h + 1) (paramErrors (wHeap w)) (<[h := t]> (sharedStrings (wHeap w))))).
    assert (sharedStrings (wHeap w) !! h = None) as Hf.
    { destruct (sharedStrings (wHeap w) !! h) eqn:Eh; [|done]. specialize (K h ltac:(by eexists)). unfold h in *. lia. }
    exists (setObjects (setHeap w1 (mkNativeHeap (h + 1) (paramErrors (wHeap w)) (sharedStrings (wHeap w)))) (withoutAll hs (wObjects w))).
    split; [|by repeat split; cbn; unfold h; try lia].
    rewrite (bind_Ret _ _ w (Some h) w1) by done. rewrite discards_run by done.
    unfold bind, destroyNullableString, onHeap, DestroySharedString. cbn. rewrite lookup_insert_eq, delete_insert_id by done. done.
  - exists (setObjects w (withoutAll hs (wObjects w))). split; [|by repeat split; cbn; lia].
    rewrite (bind_Ret _ _ w None w) by (by destruct w). by rewrite discards_run.
Qed.
Lemma within_out_none {A} objects e (f : option Z -> EW A) (w : Wd) r :
  within objects e (f None) w r -> within objects e (bind (outObject None) f) w r.
Proof. done. Qed.
Lemma within_result {A B} objects e (m : EW A) (k : A -> EW B) (w : Wd) a b :
  within objects e m w (Ret a) -> k a = ret b -> within objects e (bind m k) w (Ret b).
Proof. intros (w' & Ew & H) Hk. exists w'. split; [|done]. rewrite (bind_Ret _ _ _ _ _ Ew). by rewrite Hk. Qed.
Lemma within_native {A B} objects e e' a (f : E -> E * A) (k : A -> EW B) (w : Wd) r :
  f (wEngine w) = (e', a) -> within objects e (k a) (setEngine w e') r -> within objects e (bind (native f) k) w r.
Proof. intros Hf (w' & Ew & H). exists w'. split; [|done]. unfold bind, native. by rewrite Hf. Qed.
Lemma ends_native_then {A B} e e' a (f : E -> E * A) (k : A -> EW B) (w : Wd) r :
  f (wEngine w) = (e', a) -> ends (k a) (setEngine w e') e r -> ends (bind (native f) k) w e r.
Proof. apply within_native. Qed.
End Rules.

(** ** The calls that decide about an order *)

(** What the library documents: an object for an order that passed, at least one reject
    for one it rejected, a text with an error, and nothing beside it. *)
Definition documentedDecision (d : decision) : Prop :=
  if (de_status d =? StatusPassed)%Z then is_Some (de_object d) /\ de_rejects d = None /\ de_message d = None
  else if (de_status d =? StatusRejected)%Z then de_object d = None /\ is_Some (de_rejects d) /\ de_message d = None
  else if (de_status d =? StatusError)%Z then de_object d = None /\ de_rejects d = None /\ is_Some (de_message d)
  else True.

(** The rejects of a list, which must not be empty. *)
Definition rejectedAnswer (failure : string) (l : list PretradeReject) : orderAnswer :=
  match l with
  | [] => (None, None, Some (EWrap failure errNoRejects))
  | _ => (None, Some (map RejectNewFromHandle l), None)
  end.
Lemma newList_rejects l :
  NewListFromHandle l = match l with [] => inr errNoRejects | _ => inl (map RejectNewFromHandle l) end.
Proof.
  destruct l as [|x l]; [done|]. unfold NewListFromHandle. cbn [length Nat.eqb]. f_equal.
  rewrite <- (seq_lookup_map RejectNewFromHandle (RejectNewFromHandle zeroReject)). apply map_ext. intros i.
  unfold PretradeRejectListGet. by destruct ((x :: l) !! i).
Qed.
Lemma accountBlocks_read l : accountBlocksFrom l = map NewAccountBlockFromHandle l.
Proof.
  unfold accountBlocksFrom. rewrite <- (seq_lookup_map NewAccountBlockFromHandle (NewAccountBlockFromHandle zeroBlock)).
  apply map_ext. intros i. unfold PretradeAccountBlockListGet. by destruct (l !! i).
Qed.

Section Deciding.
Context {F64 E : Type} {NP : NativeParam F64} `{!NativeCalls E}.
Abbreviation Wd := (Natives engineObject E).
Abbreviation EW := (M Wd).

(** What a call answers to a decision, in a world whose objects are [lost] when the
    status is unexpected. *)
Definition answers (call failure : string) (wrap : Z -> engineObject) (lost : gmap Z engineObject)
    (m : EW orderAnswer) (w : Wd) (step : E * decision) : Prop :=
  let '(e, d) := step in
  if (de_status d =? StatusPassed)%Z then
    exists id h, de_object d = Some id /\ wObjects w !! h = None /\
      within (<[h := wrap id]> (wObjects w)) e m w (Ret (Some h, None, None))
  else if (de_status d =? StatusRejected)%Z then
    exists l, de_rejects d = Some l /\ ends m w e (Ret (rejectedAnswer failure l))
  else if (de_status d =? StatusError)%Z then
    exists text, de_message d = Some text /\ ends m w e (Ret (None, None, Some (messageError (call +:+ " failed") text)))
  else within lost e m w (Ret (None, None, Some (unexpectedStatus call (de_status d)))).

(** The rejects are read and destroyed. *)
Lemma rejects_handed_out failure (call : EW (option Z * option Z * option error)) (w : Wd) e l :
  nativesOk w ->
  (exists h w', call w = (Ret (None, Some h, None), w') /\ wObjects w !! h = None /\
     leaves w w' (<[h := ORejects l]> (wObjects w)) /\ nativesOk w' /\ wEngine w' = e) ->
  ends (handOut failure call) w e (Ret (rejectedAnswer failure l)).
Proof.
  intros K (h & w' & Ec & Hn & L & K' & He). eapply within_then; [exact Ec|exact L|]. cbn.
  destruct L as (Eo & _ & _). assert (wObjects w' !! h = Some (ORejects l)) as Hl by by rewrite Eo, lookup_insert_eq.
  eapply within_reader; [exact Hl|done|]. eapply within_destroy; [done|exact Hl|]. intros w2 K2 Eo2 Ee2.
  rewrite newList_rejects. destruct l; (apply within_ret; [|congruence]); by rewrite Eo2, Eo, delete_insert_id.
Qed.

(** The order of a decision's parts, once for every call. *)
Lemma call_answers call failure noReason wrap (request : option Z) (f : E -> E * decision) (w : Wd) :
  nativesOk w -> documentedDecision (snd (f (wEngine w))) ->
  (forall h, request = Some h -> is_Some (wObjects w !! h)) ->
  answers call failure wrap (without request (wObjects w))
    (handOut failure
      (let* d := native f in
       let* object := outObject (wrap <$> de_object d) in
       let* rejects := outObject (ORejects <$> de_rejects d) in
       let* outError := onHeap (allocString (de_message d)) in
       decideStatus call noReason request (de_status d) object rejects outError)) w (f (wEngine w)).
Proof.
  intros K D Live. destruct (f (wEngine w)) as [e [status object rejects message]] eqn:Ef.
  assert (nativesOk (setEngine w e)) as K0 by done. unfold documentedDecision in D. unfold answers. cbn in D |- *.
  destruct (status =? StatusPassed)%Z eqn:E0; [|destruct (status =? StatusRejected)%Z eqn:E1; [|destruct (status =? StatusError)%Z eqn:E2]].
  - destruct D as ([id ->] & -> & ->). exists id, (wNext w). split; [done|]. split.
    + destruct K as [_ K]. destruct (wObjects w !! wNext w) eqn:El; [|done]. specialize (K (wNext w) ltac:(by eexists)). lia.
    + apply within_assoc. eapply within_native; [exact Ef|]. cbn [de_status de_object de_rejects de_message]; unfold decideStatus; rewrite E0.
      eexists. split; [reflexivity|]. split; [done|]. split; [done|]. split; [reflexivity|cbn; lia].
  - destruct D as (-> & [l ->] & ->). exists l. split; [done|]. apply within_assoc. eapply within_native; [exact Ef|].
    apply (rejects_handed_out _ _ (setEngine w e)); [done|]. cbn [de_status de_object de_rejects de_message]; unfold decideStatus; rewrite E0, E1. eexists _, _. split; [reflexivity|].
    destruct K as [K1 K]. split.
    { cbn. destruct (wObjects w !! wNext w) eqn:El; [|done]. specialize (K (wNext w) ltac:(by eexists)). lia. }
    split; [split; [done|split; [reflexivity|cbn; lia]]|]. split; [|done]. split; [done|]. cbn. intros h Hh.
    destruct (decide (h = wNext w)) as [->|]; [lia|]. rewrite lookup_insert_ne in Hh by done. specialize (K h Hh). lia.
  - destruct D as (-> & -> & [text ->]). exists text. split; [done|]. apply within_assoc. eapply within_native; [exact Ef|].
    cbn [de_status de_object de_rejects de_message]; unfold decideStatus; rewrite E0, E1, E2.
    eapply within_result; [exact (ends_message _ (Some text) (fun err => (None, None, Some err)) (setEngine w e) K0)|done].
  - apply within_assoc. eapply within_native; [exact Ef|].
    eapply (within_result _ _ _ _ _ (None, None, Some (unexpectedStatus call status))); [|done]. apply within_out; [done|]. intros h1 w1 Kw1 P1 Ee1. apply within_out; [done|]. intros h2 w2 Kw2 P2 Ee2.
    cbn [de_status de_object de_rejects de_message]; unfold decideStatus; rewrite E0, E1, E2. cbn in P1, Ee1. rewrite <- (written_gone _ _ _ _ _ _ _ _ P1 P2).
    replace e with (wEngine w2) by congruence. apply (within_discards [h1; request; h2]); [done|].
    by eapply written_live.
Qed.
End Deciding.

(** ** Orders and requests *)

(** What each call about an order answers to the library's decision. *)
Section Orders.
Context {F64 E : Type} {NP : NativeParam F64} `{!NativeCalls E}.
Abbreviation Wd := (Natives engineObject E).

(** Whatever call decides, its decision is one the library documents. *)
Definition documentedDecisions : Prop :=
  forall e, (forall order, documentedDecision (snd (engine_start_pre_trade order e)) /\
                     documentedDecision (snd (engine_execute_pre_trade order e)) /\
                     documentedDecision (snd (engine_apply_drop_copy order e))) /\
       forall id, documentedDecision (snd (request_execute id e)).
Context (Documented : documentedDecisions).

Lemma execute_answers request id (w : Wd) :
  nativesOk w -> wObjects w !! request = Some (ORequest id) ->
  answers "openpit_pretrade_pre_trade_request_execute" "failed to create reject list for rejected order" OReservation
    (delete request (wObjects w)) (RequestExecute (mkRequest (Some request))) w (request_execute id (wEngine w)).
Proof using Documented.
  intros K H. assert (RequestExecute (mkRequest (Some request)) w = handOut "failed to create reject list for rejected order"
    (let* d := native (request_execute id) in
     let* reservation := outObject (OReservation <$> de_object d) in
     let* rejects := outObject (ORejects <$> de_rejects d) in
     let* outError := onHeap (allocString (de_message d)) in
     decideStatus "openpit_pretrade_pre_trade_request_execute" noRejectReason (Some request) (de_status d) reservation rejects outError) w) as Er.
  { unfold RequestExecute, PretradePreTradeRequestExecute. cbn [rq_handle].
    unfold handOut, bind at 1 3, bind at 1 2, project, readObject. unfold bind at 1. by rewrite H. }
  pose proof (call_answers "openpit_pretrade_pre_trade_request_execute" "failed to create reject list for rejected order"
    noRejectReason OReservation (Some request) (request_execute id) w K (proj2 (Documented _) id)
    ltac:(intros h [= <-]; by eexists)) as A.
  unfold answers, ends, within in *. rewrite Er. exact A.
Qed.

(** C8: StartPreTrade, ExecutePreTrade, ApplyDropCopy and the execution of a request are
    one call of the library whose status decides the answer: an order that passed hands
    out one new object, a rejected one its rejects, an error its text, an unexpected
    status an error that names the call; whatever else the library wrote, the reject list
    included, is destroyed before the call returns and no text stays behind. *)
Theorem order_calls_own_their_objects (order : ModelOrder_t) (request id : Z) (w : Wd) :
  nativesOk w -> wObjects w !! request = Some (ORequest id) ->
  let native := ModelOrder.Order.Handle order in
  answers "openpit_engine_start_pre_trade" "failed to create reject list for rejected pre-trade start" ORequest
    (wObjects w) (StartPreTrade order) w (engine_start_pre_trade native (wEngine w)) /\
  answers "openpit_engine_execute_pre_trade" "failed to create reject list for rejected order" OReservation
    (wObjects w) (ExecutePreTrade order) w (engine_execute_pre_trade native (wEngine w)) /\
  answers "openpit_engine_apply_drop_copy" "failed to create reject list for rejected drop copy" OOperation
    (wObjects w) (ApplyDropCopy order) w (engine_apply_drop_copy native (wEngine w)) /\
  answers "openpit_pretrade_pre_trade_request_execute" "failed to create reject list for rejected order" OReservation
    (delete request (wObjects w)) (RequestExecute (mkRequest (Some request))) w (request_execute id (wEngine w)).
Proof using Documented.
  intros K H native. destruct (Documented (wEngine w)) as [D _]. destruct (D native) as (D1 & D2 & D3).
  split; [|split; [|split; [|by apply execute_answers]]];
    (eapply (call_answers _ _ _ _ None); [done|done|done]).
Qed.

Lemma close_destroys request o (w : Wd) :
  wObjects w !! request = Some o ->
  RequestClose (mkRequest (Some request)) w = (Ret (mkRequest None), setObjects w (delete request (wObjects w))).
Proof using.
  intros H. unfold RequestClose, DestroyPretradePreTradeRequest, bind, destroyObject. cbn [rq_handle]. by rewrite H.
Qed.
Lemma close_aborts request (w : Wd) :
  wObjects w !! request = None -> RequestClose (mkRequest (Some request)) w = (Panic nativeAbort, w).
Proof using.
  intros H. unfold RequestClose, DestroyPretradePreTradeRequest, bind, destroyObject. cbn [rq_handle]. by rewrite H.
Qed.

(** C10: after an execution whose status is known, Close of the request destroys it and
    nothing else; after one with an unexpected status the request is already destroyed,
    and the Close that its owner is told to make destroys it a second time. *)
Theorem close_after_execution (request id : Z) (w : Wd) :
  nativesOk w -> wObjects w !! request = Some (ORequest id) ->
  let r := mkRequest (Some request) in
  exists answer w', RequestExecute r w = (Ret answer, w') /\
    (if existsb (Z.eqb (de_status (snd (request_execute id (wEngine w))))) [StatusPassed; StatusRejected; StatusError] then
       RequestClose r w' = (Ret (mkRequest None), setObjects w' (delete request (wObjects w'))) /\
       wObjects w' !! request = Some (ORequest id)
     else RequestClose r w' = (Panic nativeAbort, w') /\ wObjects w' = delete request (wObjects w)).
Proof using Documented.
  intros K H r. pose proof (execute_answers request id w K H) as A. unfold answers in A.
  destruct (request_execute id (wEngine w)) as [e d]. cbn.
  destruct (de_status d =? StatusPassed)%Z.
  - destruct A as (? & h & _ & Hn & w' & E' & _ & Eo & _). eexists _, w'. split; [exact E'|]. cbn.
    assert (wObjects w' !! request = Some (ORequest id)) as Hr by (rewrite Eo, lookup_insert_ne; [done|congruence]).
    split; [by eapply close_destroys|done].
  - destruct (de_status d =? StatusRejected)%Z; [|destruct (de_status d =? StatusError)%Z].
    1,2: destruct A as (? & _ & w' & E' & _ & Eo & _); eexists _, w'; (split; [exact E'|]); cbn;
      rewrite <- Eo in H; split; [by eapply close_destroys|done].
    destruct A as (w' & E' & _ & Eo & _). eexists _, w'. split; [exact E'|]. cbn. split; [|done].
    apply close_aborts. by rewrite Eo, lookup_delete_eq.
Qed.
End Orders.

(** ** Reports and adjustments *)

(** The values that records of the library stand for; [z] is its zero. *)
Definition amountRead (a : OpenPitOutcomeAmount) : OutcomeAmount := mkOutcomeAmount (oa_delta a) (oa_absolute a).
Definition optionalRead {A B} (f : A -> B) (o : COptional A) : option B := if c_is_set o then Some (f (c_value o)) else None.
Definition pnlRead (z : Pnl) (p : OpenPitPnlOutcome) : PnlOutcome :=
  mkPnlOutcome (if (po_halt_reason p =? PnlHaltReasonNone)%Z
                then mkPnlOutcomeAmount (po_delta (c_value (po_amount p))) (po_absolute (c_value (po_amount p)))
                else mkPnlOutcomeAmount z z) (po_halt_reason p).
Definition entryRead (z : Pnl) (e : OpenPitAccountOutcomeEntry) : AccountOutcomeEntry :=
  mkOutcomeEntry (oe_asset e) (optionalRead amountRead (oe_balance e)) (optionalRead amountRead (oe_held e))
    (optionalRead amountRead (oe_incoming e)) (optionalRead (pnlRead z) (oe_realized_pnl e))
    (optionalRead id (oe_average_entry_price e)).
Definition outcomeRead (z : Pnl) (o : OpenPitAccountAdjustmentOutcome) : Outcome :=
  mkOutcome (ao_policy_group_id o) (entryRead z (ao_entry o)).
Definition accountPnlRead (z : Pnl) (o : OpenPitAccountPnlOutcome) : AccountPnlOutcome :=
  mkAccountPnlOutcome (pnlRead z (mkNativePnlOutcome (ap_halt_reason o) (ap_amount o))) (ap_policy_group_id o) (ap_account_id o).

Section Values.
Context {F64 : Type} {NP : NativeParam F64}.
Context (z : Pnl) (Hz : openpit_create_param_from_int64 KPnl 0 = NativeOk z).

Lemma native_pnl_gives p s : heapOk s -> gives (NewPnlOutcomeFromHandle p) s (Ret (pnlRead z p)).
Proof using Hz.
  intros K. eapply gives_bind; [done|by apply zero_gives|]. intros s1 K1.
  eapply gives_bind; [done|by apply zero_gives|]. intros s2 K2.
  unfold PnlOutcomeGetHaltReason. unfold pnlRead. destruct (_ =? _)%Z; apply gives_ret.
Qed.
Lemma native_outcome_gives o s : heapOk s -> gives (NewAccountAdjustmentOutcomeFromHandle o) s (Ret (outcomeRead z o)).
Proof using Hz.
  intros K. eapply (gives_bind _ _ s (entryRead z (ao_entry o))); [done| |intros; apply gives_ret].
  eapply (gives_bind _ _ s (optionalRead (pnlRead z) (oe_realized_pnl (ao_entry o)))); [done| |].
  - unfold NewPnlOutcomeOptionFromHandle, optionalRead, PnlOutcomeOptionalIsSet, AccountOutcomeEntryGetRealizedPnl, AccountAdjustmentOutcomeGetEntry.
    destruct (c_is_set _); [|apply gives_ret]. cbn [negb].
    eapply gives_bind; [done|by apply native_pnl_gives|intros; apply gives_ret].
  - intros s1 _. destruct o as [g [a [b []] [h []] [i []] p [r []]]]; cbn -[assetOr]; rewrite assetOr_id; apply gives_ret.
Qed.
Lemma native_account_gives o s : heapOk s -> gives (NewAccountPnlOutcomeFromHandle o) s (Ret (accountPnlRead z o)).
Proof using Hz.
  intros K. eapply gives_bind; [done|by apply native_pnl_gives|]. intros. apply gives_ret.
Qed.
Lemma outcomes_read l s : heapOk s -> gives (Outcomes.NewListFromHandle l) s (Ret (map (outcomeRead z) l)).
Proof using Hz.
  intros K. unfold Outcomes.NewListFromHandle. apply readList_gives; [done| |].
  - intros j a Hj. change (0 + j)%nat with j. unfold AccountAdjustmentOutcomeListGet. by rewrite Hj.
  - apply Forall2_fmap_r, Forall_Forall2_diag, Forall_true. intros o s' K'. by apply native_outcome_gives.
Qed.
Lemma accountPnls_read l s : heapOk s -> gives (NewAccountPnlListFromHandle l) s (Ret (map (accountPnlRead z) l)).
Proof using Hz.
  intros K. apply readList_gives; [done| |].
  - intros j a Hj. change (0 + j)%nat with j. unfold AccountPnlOutcomeListGet. by rewrite Hj.
  - apply Forall2_fmap_r, Forall_Forall2_diag, Forall_true. intros o s' K'. by apply native_account_gives.
Qed.
End Values.

(** What the library documents of reports and adjustments, as [documentedDecision]. *)
Definition documentedReport (a : bool * option NativePostTradeResult * option string) : Prop :=
  let '(ok, out, message) := a in
  if ok then is_Some out /\ message = None else out = None /\ is_Some message.
Definition documentedAdjustment (d : adjustmentDecision) : Prop :=
  if (ad_status d =? ApplyStatusError)%Z then
    ad_reject d = None /\ ad_outcomes d = None /\ ad_blocks d = None /\ is_Some (ad_message d)
  else if (ad_status d =? ApplyStatusApplied)%Z then ad_reject d = None /\ ad_message d = None
  else if (ad_status d =? ApplyStatusRejected)%Z then
    is_Some (ad_reject d) /\ ad_outcomes d = None /\ ad_blocks d = None /\ ad_message d = None
  else True.
Definition resultRead (z : Pnl) (r : NativePostTradeResult) : PostTradeResult :=
  mkPostTradeResult (map NewAccountBlockFromHandle (pt_blocks r)) (map (accountPnlRead z) (pt_pnls r)) (map (outcomeRead z) (pt_adjustments r)).
Definition batchAnswer (b : NativeBatchError) : BatchResult * option error :=
  match be_rejects b with
  | [] => (noBatch, Some (EWrap "failed to create reject list for rejected account adjustment" errNoRejects))
  | l => (mkBatchResult (Some (mkBatchError (map RejectNewFromHandle l) (be_index b))) [] [], None)
  end.
(** The pure answers. *)
Definition reportAnswer (z : Pnl) (a : bool * option NativePostTradeResult * option string) : PostTradeResult * option error :=
  match a with
  | (true, Some r, _) => (resultRead z r, None)
  | (_, _, message) => (mkPostTradeResult [] [] [],
      Some (messageError "openpit_engine_apply_execution_report failed" (default EmptyString message)))
  end.
Definition adjustmentAnswer (z : Pnl) (d : adjustmentDecision) : BatchResult * option error :=
  if (ad_status d =? ApplyStatusError)%Z then
    (noBatch, Some (messageError "openpit_engine_apply_account_adjustment failed" (default EmptyString (ad_message d))))
  else if (ad_status d =? ApplyStatusApplied)%Z then
    (mkBatchResult None (map (outcomeRead z) (default [] (ad_outcomes d))) (map NewAccountBlockFromHandle (default [] (ad_blocks d))), None)
  else if (ad_status d =? ApplyStatusRejected)%Z then
    match ad_reject d with Some b => batchAnswer b | None => (noBatch, None) end
  else (noBatch, Some (unexpectedStatus "openpit_engine_apply_account_adjustment" (ad_status d))).

Section Results.
Context {F64 E : Type} {NP : NativeParam F64} `{!NativeCalls E}.
Context (z : Pnl) (Hz : openpit_create_param_from_int64 KPnl 0 = NativeOk z).
Abbreviation Wd := (Natives engineObject E).

Lemma report_answered (report : ModelReport_t) (w : Wd) :
  let step := engine_apply_execution_report (ModelReport.ExecutionReport.Handle report) (wEngine w) in
  nativesOk w -> documentedReport (snd step) ->
  ends (ApplyExecutionReport report) w (fst step) (Ret (reportAnswer z (snd step))).
Proof using Hz.
  intros step K D. destruct step as [e [[ok out] message]] eqn:Es. cbn in D |- *.
  unfold ApplyExecutionReport, EngineApplyExecutionReport, objectOrError.
  apply within_assoc. eapply ends_native_then; [exact Es|]. cbn beta iota. set (w0 := setEngine w e).
  assert (nativesOk w0) as K0 by done. change e with (wEngine w0). apply within_assoc. destruct ok.
  - destruct D as ([r ->] & ->). apply (ends_out_some (OResult r)); [done|]. intros h w1 K1 _ Eo <-. apply within_assoc.
    apply within_no_text. cbn [negb]. assert (wObjects w1 !! h = Some (OResult r)) as Hr by by rewrite Eo, lookup_insert_eq.
    eapply releases_deferred; [done|exact Hr|]. eapply within_getter; [exact Hr|done|done|].
    eapply within_getter; [exact Hr|done|done|]. eapply ends_bind; [done|by apply ends_onHeap, outcomes_read; [|apply K1]|].
    intros w2 K2 Eo2 Ee2. rewrite <- Eo2 in Hr. rewrite <- Ee2. eapply within_getter; [exact Hr|done|done|].
    eapply ends_bind; [done|by apply ends_onHeap, accountPnls_read; [|apply K2]|]. intros w3 K3 _ <-.
    rewrite accountBlocks_read. apply ends_ret.
  - destruct D as (-> & [text ->]). apply ends_out_none, within_assoc. cbn [negb].
    apply (within_text _ _ _ text (fun err => (None, Some err))); [done|]. intros w1 K1 Eo <-. by apply within_ret.
Qed.

(** The two lists of an applied batch, each read and destroyed when there is one. *)
Lemma outcomeList_released outs (k : list Outcome -> M Wd (BatchResult * option error)) h objects final e (w : Wd) r :
  nativesOk w -> placed (OOutcomes <$> outs) h objects (wObjects w) ->
  (forall w', nativesOk w' -> wObjects w' = objects -> wEngine w' = wEngine w ->
     within final e (k (map (outcomeRead z) (default [] outs))) w' r) ->
  within final e
    (let* outcomes := match h with
                      | Some outcomeList =>
                        let* l := project asOutcomes outcomeList in
                        let* outcomes := onHeap (Outcomes.NewListFromHandle l) in
                        DestroyAccountAdjustmentOutcomeList outcomeList ;;; ret outcomes
                      | None => ret []
                      end in k outcomes) w r.
Proof using Hz.
  intros K P Hk. destruct outs as [outs|], h as [h|]; try done; cbn in P; [|by apply Hk].
  destruct P as [Hn Eo]. assert (wObjects w !! h = Some (OOutcomes outs)) as Hl by by rewrite Eo, lookup_insert_eq.
  apply within_assoc. eapply within_reader; [exact Hl|done|]. apply within_assoc.
  eapply within_bind; [done|by apply ends_onHeap, outcomes_read; [|apply K]|]. intros w2 K2 Eo2 Ee2. rewrite <- Eo2 in Hl.
  apply within_assoc. eapply within_destroy; [done|exact Hl|]. intros w3 K3 Eo3 Ee3. apply Hk; [done| |congruence].
  by rewrite Eo3, Eo2, Eo, delete_insert_id.
Qed.
Lemma blockList_released blocks (k : list AccountBlock -> M Wd (BatchResult * option error)) h objects final e (w : Wd) r :
  nativesOk w -> placed (OAccountBlocks <$> blocks) h objects (wObjects w) ->
  (forall w', nativesOk w' -> wObjects w' = objects -> wEngine w' = wEngine w ->
     within final e (k (map NewAccountBlockFromHandle (default [] blocks))) w' r) ->
  within final e
    (let* accountBlocks := match h with
                           | Some blockList =>
                             let* l := project asAccountBlocks blockList in
                             let accountBlocks := accountBlocksFrom l in
                             DestroyPretradeAccountBlockList blockList ;;; ret accountBlocks
                           | None => ret []
                           end in k accountBlocks) w r.
Proof using.
  intros K P Hk. destruct blocks as [blocks|], h as [h|]; try done; cbn in P; [|by apply Hk].
  destruct P as [Hn Eo]. assert (wObjects w !! h = Some (OAccountBlocks blocks)) as Hl by by rewrite Eo, lookup_insert_eq.
  apply within_assoc. eapply within_reader; [exact Hl|done|]. apply within_assoc.
  eapply within_destroy; [done|exact Hl|]. intros w3 K3 Eo3 Ee3. rewrite accountBlocks_read. apply Hk; [done| |congruence].
  by rewrite Eo3, Eo, delete_insert_id.
Qed.

Lemma batch_released h b (w : Wd) :
  nativesOk w -> wObjects w !! h = Some (OBatchError b) ->
  releases h
    (let* rejectResult := NewAccountAdjustmentBatchErrorFromHandle h in
     DestroyAccountAdjustmentBatchError h ;;;
     match rejectResult with
     | inr err => ret (noBatch, Some (EWrap "failed to create reject list for rejected account adjustment" err))
     | inl batch => ret (mkBatchResult (Some batch) [] [], None)
     end) w (wEngine w) (Ret (batchAnswer b)).
Proof using.
  intros K Hb. apply releases_assoc. eapply within_getter; [exact Hb|done|done|]. rewrite newList_rejects. unfold batchAnswer.
  destruct (be_rejects b) as [|r l] eqn:El; [|apply within_assoc; eapply within_getter; [exact Hb|done|done|]];
    (eapply releases_destroy; [done|exact Hb|]; intros w' _ _ <-; apply ends_ret).
Qed.
Lemma adjustment_answered (accountID : AccountID) (adjustments : list ModelAdjustment_t) (w : Wd) :
  let step := engine_apply_account_adjustment (AccountIDHandle accountID) (ModelAdjustment.AccountAdjustment.Handle <$> adjustments) (wEngine w) in
  nativesOk w -> documentedAdjustment (snd step) ->
  ends (ApplyAccountAdjustment accountID adjustments) w (fst step) (Ret (adjustmentAnswer z (snd step))).
Proof using Hz.
  intros step K D. destruct step as [e [status reject outs blocks message]] eqn:Es. unfold documentedAdjustment in D. unfold adjustmentAnswer. cbn in D |- *.
  unfold ApplyAccountAdjustment, EngineApplyAccountAdjustment. apply within_assoc. eapply ends_native_then; [exact Es|].
  cbn [ad_status ad_reject ad_outcomes ad_blocks ad_message]. set (w0 := setEngine w e).
  assert (nativesOk w0) as K0 by done. change e with (wEngine w0).
  destruct (status =? ApplyStatusError)%Z eqn:E0; [|destruct (status =? ApplyStatusApplied)%Z eqn:E1; [|destruct (status =? ApplyStatusRejected)%Z eqn:E2]].
  - destruct D as (-> & -> & -> & [text ->]). do 3 (apply within_assoc, ends_out_none). apply within_assoc.
    apply (within_text _ _ _ text (fun err => (None, None, None, Some err))); [done|]. intros w1 K1 Eo <-. by apply within_ret.
  - destruct D as (-> & ->). apply within_assoc, ends_out_none.
    apply within_assoc, within_out; [done|]. intros ho w1 K1 P1 Ee1. apply within_assoc, within_out; [done|]. intros hb w2 K2 P2 Ee2.
    apply within_assoc, within_no_text. destruct (placed_swap _ _ _ _ _ _ _ P1 P2) as (m' & Pb & Po).
    eapply (outcomeList_released outs); [done|exact Po|]. intros w3 K3 Eo3 Ee3. rewrite <- Eo3 in Pb.
    eapply (blockList_released blocks); [done|exact Pb|]. intros w4 K4 Eo4 Ee4. apply within_ret; congruence.
  - destruct D as ([b ->] & -> & -> & ->). apply within_assoc, (ends_out_some (OBatchError b)); [done|]. intros h w1 K1 _ Eo <-.
    do 2 (apply within_assoc, within_out_none). apply within_assoc, within_no_text.
    assert (wObjects w1 !! h = Some (OBatchError b)) as Hb by by rewrite Eo, lookup_insert_eq.
    apply (batch_released h b w1); [done|exact Hb].
  - apply within_assoc, within_out; [done|]. intros h1 w1 K1 P1 Ee1. apply within_assoc, within_out; [done|]. intros h2 w2 K2 P2 Ee2.
    apply within_assoc, within_out; [done|]. intros h3 w3 K3 P3 Ee3.
    destruct (three_written _ _ _ _ _ _ _ _ _ _ P1 P2 P3) as [Hl Hg].
    change (wObjects w) with (wObjects w0). rewrite <- Hg. replace (wEngine w0) with (wEngine w3) by congruence.
    apply (within_result _ _ _ _ _ (None, None, None, Some (unexpectedStatus "openpit_engine_apply_account_adjustment" status))); [|done].
    by apply (within_discards [h1; h2; h3]).
Qed.
End Results.

(** C9: a post-trade report and a batch of adjustments are one call each: blocks, P&L
    outcomes and adjustment outcomes of the library are read in their order, a halted
    outcome with canonical zeros; a refused batch becomes the index and the rejects of the
    adjustment that failed, an error its text, an unexpected status an error that names the
    call; the result, the batch error and both lists are destroyed, and nothing else is
    left, also when the status is not a known one. *)
Theorem results_are_read_and_destroyed {F64 E : Type} {NP : NativeParam F64} `{!NativeCalls E}
    (z : Pnl) (report : ModelReport_t) (accountID : AccountID) (adjustments : list ModelAdjustment_t)
    (w : Natives engineObject E) :
  openpit_create_param_from_int64 KPnl 0 = NativeOk z ->
  let reported := engine_apply_execution_report (ModelReport.ExecutionReport.Handle report) (wEngine w) in
  let applied := engine_apply_account_adjustment (AccountIDHandle accountID)
                   (ModelAdjustment.AccountAdjustment.Handle <$> adjustments) (wEngine w) in
  nativesOk w -> documentedReport (snd reported) -> documentedAdjustment (snd applied) ->
  ends (ApplyExecutionReport report) w (fst reported) (Ret (reportAnswer z (snd reported))) /\
  ends (ApplyAccountAdjustment accountID adjustments) w (fst applied) (Ret (adjustmentAnswer z (snd applied))).
Proof. intros Hz reported applied K D1 D2. split; [by apply report_answered|by apply adjustment_answered]. Qed.

(** ** A library with scripted answers

    Its state is the status of the next decision. *)
Definition demoReject : PretradeReject := mkPretradeReject "limit" "too large" EmptyString 0 4 1.
Definition demoBlock : PretradeAccountBlock := mkPretradeAccountBlock "limit" "blocked" EmptyString 0 6.
Definition demoPnl : OpenPitAccountPnlOutcome := mkNativeAccountPnl 12 1 3%Z (zeroCOptional zeroPnlAmount).
Definition scriptedDecision (status : Z) : decision :=
  mkDecision status (if (status =? 1)%Z || (status =? 2)%Z then None else Some 7%Z)
    (if (status =? 0)%Z || (status =? 2)%Z then None else Some [demoReject])
    (if (status =? 0)%Z || (status =? 1)%Z then None else Some "invalid order").
Definition scriptedAdjustment (status : Z) : adjustmentDecision :=
  if (status =? 0)%Z then mkAdjustmentDecision 0 None None None (Some "no such account")
  else if (status =? 1)%Z then mkAdjustmentDecision 1 None (Some []) (Some [demoBlock]) None
  else mkAdjustmentDecision status (Some (mkNativeBatchError 3 [demoReject])) None None None.
#[export] Instance scripted : NativeCalls Z := {|
  engine_start_pre_trade := fun _ e => (e, scriptedDecision e);
  engine_execute_pre_trade := fun _ e => (e, scriptedDecision e);
  engine_apply_drop_copy := fun _ e => (e, scriptedDecision e);
  request_execute := fun _ e => (e, scriptedDecision e);
  engine_start_pre_trade_dry_run := fun _ e => (e, (true, Some 1%Z, None));
  engine_execute_pre_trade_dry_run := fun _ e => (e, (true, Some 1%Z, None));
  engine_apply_execution_report := fun _ e => (e, (true, Some (mkNativeResult [demoBlock] [] [demoPnl]), None));
  engine_apply_account_adjustment := fun _ _ e => (e, scriptedAdjustment e);
|}.
Lemma scripted_documented : documentedDecisions (E:=Z).
Proof.
  assert (forall e, documentedDecision (scriptedDecision e)) as D.
  { intros e. unfold documentedDecision, scriptedDecision, StatusPassed, StatusRejected, StatusError. cbn.
    destruct (e =? 0)%Z eqn:E0; [apply Z.eqb_eq in E0; subst; cbn; by eauto|].
    destruct (e =? 1)%Z eqn:E1; [apply Z.eqb_eq in E1; subst; cbn; by eauto|].
    by destruct (e =? 2)%Z eqn:E2; [apply Z.eqb_eq in E2; subst; cbn; eauto|]. }
  intros e. split; [intros order; split; [|split]|intros id]; apply D.
Qed.
(** A world with one request. *)
Definition oneRequest (e : Z) : Natives engineObject Z := mkNatives (mkNativeHeap 0 ∅ ∅) 1 {[0%Z := ORequest 5]} e.
Lemma oneRequest_ok e : nativesOk (oneRequest e).
Proof.
  split; [split|]; cbn; intros h [o H]; try by rewrite lookup_empty in H.
  apply lookup_singleton_Some in H as [<- _]. lia.
Qed.

Lemma order_calls_own_their_objects_witness :
  ends (StartPreTrade ModelOrder.Order.NewOrder) (oneRequest 1) 1%Z
    (Ret (None, Some [RejectNewFromHandle demoReject], None)).
Proof.
  destruct (order_calls_own_their_objects scripted_documented ModelOrder.Order.NewOrder 0 5 (oneRequest 1)
    (oneRequest_ok 1) eq_refl) as [(l & [= <-] & H) _]. exact H.
Defined.
Lemma close_after_execution_witness :
  exists answer w', RequestExecute (mkRequest (Some 0%Z)) (oneRequest 9) = (Ret answer, w') /\
    RequestClose (mkRequest (Some 0%Z)) w' = (Panic nativeAbort, w').
Proof.
  destruct (close_after_execution scripted_documented 0 5 (oneRequest 9) (oneRequest_ok 9) eq_refl) as (answer & w' & E1 & E2 & _).
  by exists answer, w'.
Defined.
Lemma results_are_read_and_destroyed_witness :
  ends (ApplyAccountAdjustment 12%Z []) (oneRequest 2) 2%Z
    (Ret (mkBatchResult (Some (mkBatchError [RejectNewFromHandle demoReject] 3)) [] [], None)).
Proof.
  refine (proj2 (results_are_read_and_destroyed (NP := additions) zeroDecimal
    ModelReport.ExecutionReport.NewExecutionReport 12%Z [] (oneRequest 2) eq_refl (oneRequest_ok 2) _ _));
    vm_compute; eauto.
Defined.
