(* ===== verification/Controls.v ===== *)
(** * Account controls and contexts

    reject/account_control.go over internal/native/account_control.go, and the contexts
    that hooks receive (pretrade/context.go, post_trade_context.go,
    accountadjustment/context.go). An account control is a native handle behind a Go
    object with a finalizer: the collector destroys it once nothing refers to the object,
    which may happen while a call on its handle runs, unless something keeps the object.
    [runtime.KeepAlive] at the end of the methods is that something: a frame refers to the
    object from the load of the handle to there.

    [step] has every interleaving of hooks that take controls, goroutines that call
    [Block] and [Clone], a program that forgets what it holds, and the collector. A native
    context is opaque; the account and the group it carries are a class. *)
From Stdlib Require Import ZArith Lia.
From stdpp Require Import base gmap list relations.
From S2P Require Import Prelude Routing GoRuntime NativeErrors CustomPolicy Rejects Accounts.

(** What the engine bound to a context: an account, its group, and the kind of operation. *)
Class NativeContexts (Ctx : Type) := {
  context_account : Ctx -> option Z;
  context_group : Ctx -> option Z;
  context_is_drop_copy : Ctx -> bool;
}.

(** The Go object. *)
Record AccountControl := mkControl { ac_handle : Z }.
(** A goroutine in [Block] or [Clone]: before the native call, and before KeepAlive. *)
Inductive frame :=
| InBlock (c handle : Z) (block : AccountBlock)
| BlockDone (c : Z)
| InClone (c handle : Z)
| CloneDone (c : Z) (clone : option Z).
(** The native controls with their account, those that were destroyed and the blocks that
    were recorded; the Go objects, those the program refers to, and the goroutines. *)
Record World := mkWorld {
  live : gmap Z Z; nextHandle : Z; gone : list Z; recorded : list (Z * PretradeAccountBlock);
  controls : gmap Z AccountControl; nextObject : Z; held : gset Z; frames : gmap Z frame;
}.
Abbreviation CW := (M World).

(** ** internal/native/account_control.go *)

Definition newNativeControl (account : Z) : CW Z := fun s =>
  (Ret (nextHandle s), mkWorld (<[nextHandle s := account]> (live s)) (nextHandle s + 1) (gone s) (recorded s)
     (controls s) (nextObject s) (held s) (frames s)).
Definition AccountControlBlock (control : Z) (block : PretradeAccountBlock) : CW unit := fun s =>
  match live s !! control with
  | Some account => (Ret tt, mkWorld (live s) (nextHandle s) (gone s) (recorded s ++ [(account, block)])
                               (controls s) (nextObject s) (held s) (frames s))
  | None => (Panic nativeAbort, s)
  end.
Definition AccountControlClone (control : Z) : CW (option Z) := fun s =>
  match live s !! control with
  | Some account => (let* h := newNativeControl account in ret (Some h)) s
  | None => (Panic nativeAbort, s)
  end.
Definition DestroyAccountControl (control : Z) : CW unit := fun s =>
  match live s !! control with
  | Some _ => (Ret tt, mkWorld (delete control (live s)) (nextHandle s) (gone s ++ [control]) (recorded s)
                         (controls s) (nextObject s) (held s) (frames s))
  | None => (Panic nativeAbort, s)
  end.

Section Contexts.
Context {Ctx : Type} `{!NativeContexts Ctx}.
Definition PretradeContextGetAccountControl (ctx : Ctx) : CW (option Z) :=
  match context_account ctx with None => ret None | Some account => let* h := newNativeControl account in ret (Some h) end.
Definition AccountAdjustmentContextGetAccountControl (ctx : Ctx) : CW (option Z) :=
  match context_account ctx with None => ret None | Some account => let* h := newNativeControl account in ret (Some h) end.
Definition PretradeContextIsDropCopy (ctx : Ctx) : bool := context_is_drop_copy ctx.
(** The out parameter is zero when the library writes none. *)
Definition PretradeContextGetAccountGroup (ctx : Ctx) : Z * bool :=
  match context_group ctx with Some id => (id, true) | None => (0%Z, false) end.
Definition AccountAdjustmentContextGetAccountGroup (ctx : Ctx) : Z * bool :=
  match context_group ctx with Some id => (id, true) | None => (0%Z, false) end.
Definition PostTradeContextGetAccountGroup (ctx : Ctx) : Z * bool :=
  match context_group ctx with Some id => (id, true) | None => (0%Z, false) end.

(** ** reject/account_control.go *)

(** An object with a finalizer, or nil. *)
Definition NewAccountControlFromHandle (handle : option Z) : CW (option Z) :=
  match handle with
  | None => ret None
  | Some handle => fun s =>
    (Ret (Some (nextObject s)), mkWorld (live s) (nextHandle s) (gone s) (recorded s)
       (<[nextObject s := mkControl handle]> (controls s)) (nextObject s + 1) (held s) (frames s))
  end.
(** The collector frees the object after its finalizer. *)
Definition finalizer (c : Z) : CW unit := fun s =>
  match controls s !! c with
  | Some control =>
    (DestroyAccountControl (ac_handle control) ;;;
     modify (fun s => mkWorld (live s) (nextHandle s) (gone s) (recorded s) (delete c (controls s)) (nextObject s) (held s) (frames s))) s
  | None => (Ret tt, s)
  end.
Definition setFrame (g : Z) (f : option frame) : CW unit := modify (fun s =>
  mkWorld (live s) (nextHandle s) (gone s) (recorded s) (controls s) (nextObject s) (held s) (partial_alter (fun _ => f) g (frames s))).
Definition hold (c : option Z) : CW unit := modify (fun s =>
  mkWorld (live s) (nextHandle s) (gone s) (recorded s) (controls s) (nextObject s)
    (match c with Some c => {[c]} ∪ held s | None => held s end) (frames s)).
Definition forget (c : Z) : CW unit := modify (fun s =>
  mkWorld (live s) (nextHandle s) (gone s) (recorded s) (controls s) (nextObject s) (held s ∖ {[c]}) (frames s)).
(** A method reads the handle of its object. *)
Definition loadHandle (c : Z) : CW Z := fun s =>
  match controls s !! c with Some control => (Ret (ac_handle control), s) | None => (Panic nativeAbort, s) end.

(** *** The methods, piece by piece *)

Definition BlockLoad (g c : Z) (block : AccountBlock) : CW unit :=
  let* handle := loadHandle c in setFrame g (Some (InBlock c handle block)).
Definition BlockCall (g c handle : Z) (block : AccountBlock) : CW unit :=
  AccountControlBlock handle (BlockNewHandle block) ;;; setFrame g (Some (BlockDone c)).
Definition CloneLoad (g c : Z) : CW unit := let* handle := loadHandle c in setFrame g (Some (InClone c handle)).
Definition CloneCall (g c handle : Z) : CW unit :=
  let* h := AccountControlClone handle in
  let* clone := NewAccountControlFromHandle h in
  setFrame g (Some (CloneDone c clone)).
(** [runtime.KeepAlive(c)]: the frame referred to [c] until now. *)
Definition methodReturns (g : Z) (result : option Z) : CW unit := setFrame g None ;;; hold result.
Definition frameKeeps (f : frame) : list Z :=
  match f with
  | InBlock c _ _ | BlockDone c | InClone c _ => [c]
  | CloneDone c clone => c :: option_list clone
  end.

(** ** Contexts *)

Definition ContextIsDropCopy (c : Ctx) : bool := PretradeContextIsDropCopy c.
Definition ContextAccountControl (c : Ctx) : CW (option Z * bool) :=
  let* h := PretradeContextGetAccountControl c in
  let* control := NewAccountControlFromHandle h in
  ret (control, bool_decide (control <> None)).
Definition AdjustmentContextAccountControl (c : Ctx) : CW (option Z) :=
  let* h := AccountAdjustmentContextGetAccountControl c in NewAccountControlFromHandle h.
Definition ContextAccountGroup (c : Ctx) : option AccountGroupID :=
  let (id, ok) := PretradeContextGetAccountGroup c in if (ok : bool) then Some (NewAccountGroupIDFromHandle id) else None.
Definition AdjustmentContextAccountGroup (c : Ctx) : option AccountGroupID :=
  let (id, ok) := AccountAdjustmentContextGetAccountGroup c in if (ok : bool) then Some (NewAccountGroupIDFromHandle id) else None.
Definition PostTradeContextAccountGroup (c : Ctx) : option AccountGroupID :=
  let (id, ok) := PostTradeContextGetAccountGroup c in if (ok : bool) then Some (NewAccountGroupIDFromHandle id) else None.

(** ** Every interleaving *)

Inductive label :=
| HookTakes (ctx : Ctx)
| AdjustmentHookTakes (ctx : Ctx)
| BlockStarts (g c : Z) (block : AccountBlock)
| CloneStarts (g c : Z)
| NativeCall (g : Z)
| Returns (g : Z)
| Forgets (c : Z)
| Collects (c : Z).

(** Something refers to the object. *)
Definition kept (c : Z) (s : World) : Prop := c ∈ held s \/ map_Exists (fun _ f => c ∈ frameKeeps f) (frames s).
#[export] Instance kept_dec c s : Decision (kept c s).
Proof. unfold kept. apply _. Defined.

(** A goroutine calls a method of an object it refers to. *)
Definition enabled (l : label) (s : World) : Prop :=
  match l with
  | HookTakes _ | AdjustmentHookTakes _ | Forgets _ => True
  | BlockStarts g c _ | CloneStarts g c => c ∈ held s /\ frames s !! g = None
  | NativeCall g => match frames s !! g with Some (InBlock _ _ _) | Some (InClone _ _) => True | _ => False end
  | Returns g => match frames s !! g with Some (BlockDone _) | Some (CloneDone _ _) => True | _ => False end
  | Collects c => is_Some (controls s !! c) /\ ~ kept c s
  end.
Definition act (l : label) : CW unit :=
  match l with
  | HookTakes ctx => let* (control, _) := ContextAccountControl ctx in hold control
  | AdjustmentHookTakes ctx => let* control := AdjustmentContextAccountControl ctx in hold control
  | BlockStarts g c block => BlockLoad g c block
  | CloneStarts g c => CloneLoad g c
  | NativeCall g => fun s =>
    match frames s !! g with
    | Some (InBlock c handle block) => BlockCall g c handle block s
    | Some (InClone c handle) => CloneCall g c handle s
    | _ => (Ret tt, s)
    end
  | Returns g => fun s =>
    match frames s !! g with
    | Some (CloneDone _ clone) => methodReturns g clone s
    | _ => methodReturns g None s
    end
  | Forgets c => forget c
  | Collects c => finalizer c
  end.
Definition step (s s' : World) : Prop := exists l o, enabled l s /\ act l s = (o, s').
Definition initial : World := mkWorld ∅ 0 [] [] ∅ 0 ∅ ∅.
Definition reachable (s : World) : Prop := rtc step initial s.
End Contexts.
Arguments label : clear implicits.
