(* ===== verification/ControlFacts.v ===== *)
(** * Account controls are destroyed once, and only when nobody holds them

    Whatever hooks, goroutines and the collector do, no native call gets a destroyed
    control, a control is destroyed at most once, and those that nothing refers to can all
    be reclaimed. *)
From Stdlib Require Import ZArith Lia.
From stdpp Require Import base gmap list relations sets strings.
From S2P Require Import Prelude Routing GoRuntime NativeErrors CustomPolicy Rejects Accounts Controls.

Section Facts.
Context {Ctx : Type} `{!NativeContexts Ctx}.

(** What a frame knows about the object it is in. *)
Definition frameOk (s : World) (f : frame) : Prop :=
  (forall c, c ∈ frameKeeps f -> is_Some (controls s !! c)) /\
  match f with
  | InBlock c handle _ | InClone c handle => controls s !! c = Some (mkControl handle)
  | _ => True
  end.
Record inv (s : World) : Prop := mkInv {
  inv_live : forall h, is_Some (live s !! h) <-> exists c, controls s !! c = Some (mkControl h);
  inv_inj : forall c c' a, controls s !! c = Some a -> controls s !! c' = Some a -> c = c';
  inv_held : forall c, c ∈ held s -> is_Some (controls s !! c);
  inv_frames : forall g f, frames s !! g = Some f -> frameOk s f;
  inv_next : forall h, is_Some (live s !! h) \/ h ∈ gone s -> (h < nextHandle s)%Z;
  inv_object : forall c, is_Some (controls s !! c) -> (c < nextObject s)%Z;
  inv_gone : NoDup (gone s) /\ forall h, h ∈ gone s -> live s !! h = None;
}.

(** Two worlds with the same native controls and objects, of which the second refers to
    less or to as much. *)
Lemma inv_refers (s : World) h fs r :
  inv s -> (forall c, c ∈ h -> is_Some (controls s !! c)) -> (forall g f, fs !! g = Some f -> frameOk s f) ->
  inv (mkWorld (live s) (nextHandle s) (gone s) r (controls s) (nextObject s) h fs).
Proof. intros [] Hh Hf. by split. Qed.
Lemma kept_exists s c : inv s -> kept c s -> is_Some (controls s !! c).
Proof. intros I [H|(g & f & Hg & H)]; [by apply (inv_held _ I)|]. by apply (inv_frames _ I _ _ Hg). Qed.

(** A new control with its object. *)
Definition withControl (s : World) (account : Z) : World :=
  mkWorld (<[nextHandle s := account]> (live s)) (nextHandle s + 1) (gone s) (recorded s)
    (<[nextObject s := mkControl (nextHandle s)]> (controls s)) (nextObject s + 1) (held s) (frames s).
Lemma fresh_object s : inv s -> controls s !! nextObject s = None.
Proof. intros I. destruct (controls s !! nextObject s) eqn:E; [|done]. pose proof (inv_object _ I (nextObject s) ltac:(by eexists)). lia. Qed.
Lemma fresh_control_handle s : inv s -> live s !! nextHandle s = None /\ nextHandle s ∉ gone s.
Proof.
  intros I. split.
  - destruct (live s !! nextHandle s) eqn:E; [|done]. pose proof (inv_next _ I (nextHandle s) ltac:(left; by eexists)). lia.
  - intros H. pose proof (inv_next _ I (nextHandle s) ltac:(by right)). lia.
Qed.
Lemma control_kept s account c : inv s -> is_Some (controls s !! c) -> controls (withControl s account) !! c = controls s !! c.
Proof. intros I H. cbn. apply lookup_insert_ne. intros <-. rewrite (fresh_object s I) in H. by destruct H. Qed.
Lemma withControl_inv s account : inv s -> inv (withControl s account).
Proof.
  intros I. pose proof (fresh_object s I) as Fo. destruct (fresh_control_handle s I) as [Fh Fg].
  assert (forall c, is_Some (controls s !! c) -> controls (withControl s account) !! c = controls s !! c) as Old by (intros; by apply control_kept).
  split.
  - intros h. cbn. destruct (decide (h = nextHandle s)) as [->|Hn].
    + rewrite lookup_insert_eq. split; [intros _|by eexists]. exists (nextObject s). by rewrite lookup_insert_eq.
    + rewrite lookup_insert_ne, (inv_live _ I) by done. split; intros [c Hc]; exists c.
      * by rewrite lookup_insert_ne by congruence.
      * destruct (decide (nextObject s = c)) as [<-|]; [rewrite lookup_insert_eq in Hc; congruence|]. by rewrite lookup_insert_ne in Hc.
  - intros c c' a. cbn. rewrite !lookup_insert_Some. intros [[<- <-]|[Hc Ha]] [[<- E]|[Hc' Ha']]; [done| | |by eapply (inv_inj _ I)].
    + assert (is_Some (live s !! nextHandle s)) as [? E] by (apply (inv_live _ I); by eexists). by rewrite Fh in E.
    + subst. assert (is_Some (live s !! nextHandle s)) as [? E] by (apply (inv_live _ I); by eexists). by rewrite Fh in E.
  - intros c Hc. rewrite Old by by apply (inv_held _ I). by apply (inv_held _ I).
  - intros g f Hf. destruct (inv_frames _ I g f Hf) as [K Hc]. split.
    + intros c Hk. rewrite Old by by apply K. by apply K.
    + destruct f; try done; rewrite Old; try done; by eexists.
  - intros h. cbn. intros [H|H].
    + destruct (decide (h = nextHandle s)) as [->|]; [lia|]. rewrite lookup_insert_ne in H by done.
      pose proof (inv_next _ I h ltac:(by left)). lia.
    + pose proof (inv_next _ I h ltac:(by right)). lia.
  - intros c. cbn. destruct (decide (c = nextObject s)) as [->|]; [lia|]. rewrite lookup_insert_ne by done.
    intros H. pose proof (inv_object _ I c H). lia.
  - split; [apply (inv_gone _ I)|]. cbn. intros h Hh. rewrite lookup_insert_ne by by intros <-. by apply (inv_gone _ I).
Qed.

(** The collector takes an object that nothing refers to. *)
Definition withoutControl (s : World) (c h : Z) : World :=
  mkWorld (delete h (live s)) (nextHandle s) (gone s ++ [h]) (recorded s) (delete c (controls s)) (nextObject s) (held s) (frames s).
Lemma withoutControl_inv s c h : inv s -> controls s !! c = Some (mkControl h) -> ~ kept c s -> inv (withoutControl s c h).
Proof.
  intros I Hc Hk. assert (is_Some (live s !! h)) as Hl by (apply (inv_live _ I); by exists c).
  assert (forall c', kept c' s -> delete c (controls s) !! c' = controls s !! c') as Old.
  { intros c' Hc'. apply lookup_delete_ne. by intros ->. }
  split; cbn.
  - intros h'. rewrite lookup_delete_is_Some, (inv_live _ I). split.
    + intros [Hn [c' Hc']]. exists c'. rewrite lookup_delete_ne; [done|congruence].
    + intros [c' Hc']. apply lookup_delete_Some in Hc' as [Hn Hc']. split; [|by exists c'].
      intros ->. by apply Hn, (inv_inj _ I _ _ (mkControl h')).
  - intros c1 c2 a H1 H2. apply lookup_delete_Some in H1 as [_ H1]. apply lookup_delete_Some in H2 as [_ H2]. by eapply (inv_inj _ I).
  - intros c' Hc'. rewrite Old by by left. by apply (inv_held _ I).
  - intros g f Hf. destruct (inv_frames _ I g f Hf) as [K Hh].
    assert (forall c', c' ∈ frameKeeps f -> kept c' s) as Kept by (intros c' Hc'; right; by exists g, f). split.
    + intros c' Hc'. cbn. rewrite Old by by apply Kept. by apply K.
    + destruct f; try done; cbn; (rewrite Old; [done|apply Kept; by left]).
  - intros h' H. apply (inv_next _ I). rewrite lookup_delete_is_Some, elem_of_app, list_elem_of_singleton in H.
    destruct H as [[_ H]|[H| ->]]; [by left|by right|by left].
  - intros c'. rewrite lookup_delete_is_Some. intros [_ H]. by apply (inv_object _ I).
  - destruct (inv_gone _ I) as [Nd Hg]. split.
    + apply NoDup_app. split; [done|]. split; [|by apply NoDup_singleton].
      intros h' Hh' ->%list_elem_of_singleton. rewrite (Hg h Hh') in Hl. by destruct Hl.
    + intros h'. rewrite elem_of_app, list_elem_of_singleton. intros [H| ->]; [|apply lookup_delete_eq].
      rewrite lookup_delete_None. right. by apply Hg.
Qed.

(** Frames. *)
Lemma setFrame_inv s g f : inv s -> (forall f', f = Some f' -> frameOk s f') -> inv (snd (setFrame g f s)).
Proof.
  intros I Hf. apply (inv_refers s); [done|apply (inv_held _ I)|]. intros g' f'. destruct (decide (g' = g)) as [->|].
  - rewrite lookup_partial_alter_eq. apply Hf.
  - rewrite lookup_partial_alter_ne by done. apply (inv_frames _ I).
Qed.
Lemma hold_inv s c : inv s -> (forall c', c = Some c' -> is_Some (controls s !! c')) -> inv (snd (hold c s)).
Proof.
  intros I Hc. apply (inv_refers s); [done| |apply (inv_frames _ I)]. destruct c as [c|]; [|apply (inv_held _ I)].
  intros c'. rewrite elem_of_union, elem_of_singleton. intros [->|H]; [by apply Hc|by apply (inv_held _ I)].
Qed.
Lemma forget_inv s c : inv s -> inv (snd (forget c s)).
Proof. intros I. apply (inv_refers s); [done| |apply (inv_frames _ I)]. intros c'. set_unfold. intros [H _]. by apply (inv_held _ I). Qed.
Lemma eta s : mkWorld (live s) (nextHandle s) (gone s) (recorded s) (controls s) (nextObject s) (held s) (frames s) = s.
Proof. by destruct s. Qed.

(** Every enabled step is a native call on a live handle, or none. *)
Lemma take_runs s account :
  inv s -> exists s', (let* h := (let* h := newNativeControl account in ret (Some h)) in
                       let* control := NewAccountControlFromHandle h in hold control) s = (Ret tt, s') /\ inv s'.
Proof.
  intros I. exists (snd (hold (Some (nextObject s)) (withControl s account))). split; [done|].
  apply hold_inv; [by apply withControl_inv|]. intros c [= <-]. cbn. rewrite lookup_insert_eq. by eexists.
Qed.
Lemma load_runs s g c (f : Z -> frame) :
  inv s -> c ∈ held s -> (forall h, frameKeeps (f h) = [c]) ->
  (forall h, controls s !! c = Some (mkControl h) -> frameOk s (f h)) ->
  exists s', (let* handle := loadHandle c in setFrame g (Some (f handle))) s = (Ret tt, s') /\ inv s'.
Proof.
  intros I Hc _ Hf. destruct (inv_held _ I c Hc) as [[h] Hh]. exists (snd (setFrame g (Some (f h)) s)).
  split; [unfold bind, loadHandle; by rewrite Hh|]. apply setFrame_inv; [done|]. intros f' [= <-]. by apply Hf.
Qed.
Lemma act_runs (l : label Ctx) s : inv s -> enabled l s -> exists s', act l s = (Ret tt, s') /\ inv s'.
Proof.
  intros I. destruct l as [ctx|ctx|g c block|g c|g|g|c|c]; cbn [enabled act].
  - intros _. unfold ContextAccountControl, PretradeContextGetAccountControl. destruct (context_account ctx) as [account|].
    + destruct (take_runs s account I) as (s' & E & I'). by exists s'.
    + exists s. split; [|done]. by rewrite <- (eta s) at 2.
  - intros _. unfold AdjustmentContextAccountControl, AccountAdjustmentContextGetAccountControl. destruct (context_account ctx) as [account|].
    + destruct (take_runs s account I) as (s' & E & I'). by exists s'.
    + exists s. split; [|done]. by rewrite <- (eta s) at 2.
  - intros [Hc _]. apply load_runs; [done|done|done|]. intros h Hh. split; [|done]. intros c' ->%list_elem_of_singleton. by eexists.
  - intros [Hc _]. apply load_runs; [done|done|done|]. intros h Hh. split; [|done]. intros c' ->%list_elem_of_singleton. by eexists.
  - destruct (frames s !! g) as [[c h block| |c h| ]|] eqn:Eg; try done; intros _; destruct (inv_frames _ I g _ Eg) as [K Hh];
      assert (is_Some (live s !! h)) as [account Hl] by (apply (inv_live _ I); by exists c).
    + eexists. split; [unfold BlockCall, bind, AccountControlBlock; by rewrite Hl|].
      apply (setFrame_inv (mkWorld _ _ _ _ _ _ _ _)); [by apply inv_refers; [|apply (inv_held _ I)|apply (inv_frames _ I)]|].
      intros f' [= <-]. by split.
    + exists (snd (setFrame g (Some (CloneDone c (Some (nextObject s)))) (withControl s account))).
      split; [unfold CloneCall, bind, AccountControlClone; by rewrite Hl|]. apply setFrame_inv; [by apply withControl_inv|].
      intros f' [= <-]. split; [|done]. intros c'. cbn. rewrite elem_of_cons, list_elem_of_singleton. intros [->| ->].
      * rewrite lookup_insert_ne; [by eexists|]. intros <-. by rewrite (fresh_object s I) in Hh.
      * rewrite lookup_insert_eq. by eexists.
  - destruct (frames s !! g) as [[]|] eqn:Eg; try done; intros _; destruct (inv_frames _ I g _ Eg) as [K _]; eexists;
      (split; [reflexivity|]); (apply hold_inv; [by apply setFrame_inv|]); [done|].
    intros c' ->. apply K. cbn. by right; left.
  - intros _. exists (snd (forget c s)). split; [done|]. by apply forget_inv.
  - intros [[[h] Hc] Hk]. exists (withoutControl s c h). split; [|by apply withoutControl_inv].
    assert (is_Some (live s !! h)) as [account Hl] by (apply (inv_live _ I); by exists c).
    unfold finalizer. rewrite Hc. unfold bind, DestroyAccountControl. cbn. by rewrite Hl.
Qed.
Lemma initial_inv : inv initial.
Proof.
  split; cbn.
  - intros h. rewrite lookup_empty. split; [by intros []|]. intros [c Hc]. by rewrite lookup_empty in Hc.
  - intros c c' a H. by rewrite lookup_empty in H.
  - intros c H. set_solver.
  - intros g f H. by rewrite lookup_empty in H.
  - intros h [[x H]|H]; [by rewrite lookup_empty in H|by apply elem_of_nil in H].
  - intros c [x H]. by rewrite lookup_empty in H.
  - split; [constructor|]. intros h H. by apply elem_of_nil in H.
Qed.
Lemma run_inv s s' : rtc (step (Ctx:=Ctx)) s s' -> inv s -> inv s'.
Proof.
  induction 1 as [|s1 s2 s3 (l & o & He & Ha) H IH]; [done|]. intros I. apply IH.
  destruct (act_runs l s1 I He) as (s' & E & I'). rewrite E in Ha. by injection Ha as _ <-.
Qed.
Lemma control_inv s : reachable (Ctx:=Ctx) s -> inv s.
Proof. intros H. apply (run_inv _ _ H), initial_inv. Qed.

(** Only the collector runs. *)
Definition collects (s s' : World) : Prop := exists c, enabled (Ctx:=Ctx) (Collects c) s /\ act (Ctx:=Ctx) (Collects c) s = (Ret tt, s').
(** Nothing that nothing refers to is left. *)
Definition reclaimed (s s' : World) : Prop :=
  held s' = held s /\ frames s' = frames s /\
  forall c, controls s' !! c = if decide (kept c s) then controls s !! c else None.
Lemma all_reclaimed n s : inv s -> size (controls s) <= n -> exists s', rtc collects s s' /\ reclaimed s s'.
Proof.
  revert s. induction n as [|n IH]; intros s I Hn.
  - exists s. split; [apply rtc_refl|]. split; [done|]. split; [done|]. intros c.
    assert (controls s = ∅) as -> by (apply map_size_empty_inv; lia). rewrite lookup_empty. by case_decide.
  - destruct (decide (map_Forall (fun c _ => kept c s) (controls s))) as [Hall|Hnot].
    + exists s. split; [apply rtc_refl|]. split; [done|]. split; [done|]. intros c. case_decide as Hk; [done|].
      destruct (controls s !! c) eqn:Ec; [|done]. by apply Hall in Ec.
    + apply map_not_Forall in Hnot as (c & [h] & Hc & Hk); [|apply _].
      pose proof (withoutControl_inv s c h I Hc Hk) as I'. destruct (IH (withoutControl s c h) I') as (s' & R & Hh & Hf & Hs).
      { cbn. rewrite map_size_delete_Some; [lia|by eexists]. }
      exists s'. split.
      * eapply rtc_l; [|exact R]. exists c. split; [split; [by eexists|done]|].
        assert (is_Some (live s !! h)) as [account Hl] by (apply (inv_live _ I); by exists c).
        cbn. unfold finalizer. rewrite Hc. unfold bind, DestroyAccountControl. cbn. by rewrite Hl.
      * split; [done|]. split; [done|]. intros c'. rewrite Hs. change (kept c' (withoutControl s c h)) with (kept c' s).
        repeat case_decide; try done. cbn. apply lookup_delete_ne. by intros ->.
Qed.

(** C16: whatever hooks take, goroutines call and the program forgets, and whenever the
    collector runs: no call on an account control, in particular no [Block] and no [Clone]
    that is under way, meets a destroyed native control; every control is destroyed at most
    once and never while something refers to its object; and the collector can always
    reach a state in which exactly the controls of objects that something refers to are
    left. *)
Theorem controls_are_reclaimed_once (s : World) :
  reachable (Ctx:=Ctx) s ->
  (forall l : label Ctx, enabled l s -> exists s', act l s = (Ret tt, s')) /\
  (NoDup (gone s) /\ forall h, h ∈ gone s -> live s !! h = None) /\
  (forall c, kept c s -> exists h, controls s !! c = Some (mkControl h) /\ is_Some (live s !! h)) /\
  exists s', rtc collects s s' /\
    forall h, is_Some (live s' !! h) <-> exists c, kept c s /\ controls s !! c = Some (mkControl h).
Proof.
  intros R. pose proof (control_inv s R) as I. split; [|split; [|split]].
  - intros l He. destruct (act_runs l s I He) as (s' & E & _). by exists s'.
  - apply (inv_gone _ I).
  - intros c Hk. destruct (kept_exists s c I Hk) as [[h] Hc]. exists h. split; [done|]. apply (inv_live _ I). by exists c.
  - destruct (all_reclaimed (size (controls s)) s I ltac:(lia)) as (s' & Rc & _ & _ & Hs). exists s'. split; [done|].
    assert (inv s') as I'.
    { apply (run_inv s s'); [|done]. eapply rtc_subrel; [|exact Rc]. intros s1 s2 (c & He & Ha). by exists (Collects c), (Ret tt). }
    intros h. rewrite (inv_live _ I'). split; intros (c & Hc).
    + rewrite Hs in Hc. case_decide; [by exists c|done].
    + destruct Hc as [Hk Hc]. exists c. rewrite Hs. by rewrite decide_True.
Qed.

(** A block is recorded for the account that the control of its object is bound to, and a
    clone is bound to the account of the original. *)
Lemma block_is_recorded g s c h block account :
  frames s !! g = Some (InBlock c h block) -> live s !! h = Some account ->
  recorded (snd (act (Ctx:=Ctx) (NativeCall g) s)) = recorded s ++ [(account, BlockNewHandle block)].
Proof. intros Hg Hl. cbn. rewrite Hg. unfold BlockCall, bind, AccountControlBlock. by rewrite Hl. Qed.
Lemma clone_has_its_account g s c h account :
  frames s !! g = Some (InClone c h) -> live s !! h = Some account ->
  let s' := snd (act (Ctx:=Ctx) (NativeCall g) s) in
  frames s' !! g = Some (CloneDone c (Some (nextObject s))) /\
  exists h', controls s' !! nextObject s = Some (mkControl h') /\ live s' !! h' = Some account.
Proof.
  intros Hg Hl. cbn. rewrite Hg. unfold CloneCall, bind, AccountControlClone. rewrite Hl. cbn.
  rewrite lookup_partial_alter_eq. split; [done|]. exists (nextHandle s). by rewrite !lookup_insert_eq.
Qed.
End Facts.

(** A control that is forgotten while its [Block] is in the native call. *)
#[export] Instance accountContexts : NativeContexts Z := {|
  context_account := fun account => Some account; context_group := fun _ => None; context_is_drop_copy := fun _ => false;
|}.
Definition demoAccountBlock : AccountBlock := mkBlock EmptyString EmptyString EmptyString 0 6.
Definition forgottenInCall : World :=
  foldl (fun s l => snd (act l s)) initial [HookTakes 12%Z; BlockStarts 1 0 demoAccountBlock; Forgets 0].
Lemma controls_are_reclaimed_once_witness :
  held forgottenInCall = ∅ /\ exists h, controls forgottenInCall !! 0%Z = Some (mkControl h) /\ is_Some (live forgottenInCall !! h).
Proof.
  split; [by vm_compute|]. apply (controls_are_reclaimed_once (Ctx:=Z) forgottenInCall); [|vm_compute].
  - eapply rtc_l; [exists (HookTakes 12%Z), (Ret tt); by split|].
    eapply rtc_l; [exists (BlockStarts 1 0 demoAccountBlock), (Ret tt); split; [by split; [apply (bool_decide_unpack _); vm_compute|]|reflexivity]|].
    eapply rtc_l; [exists (Forgets 0), (Ret tt); by split|]. apply rtc_refl.
  - right. exists 1%Z, (InBlock 0 0 demoAccountBlock). split; [done|]. by left.
Defined.
