(* ===== verification/Amounts.v ===== *)
(** * Amounts, identifiers and hashes of param

    What is left of param/ over the native wrappers: trade_amount.go and
    adjustment_amount.go beyond their records, the margin of leverage.go, the constructors
    of account_id.go and account_group_id.go, and the hash and equality of assets and
    monetary amounts. The FNV-1a hash is that of Go's hash/fnv. *)
From Stdlib Require Import ZArith Lia Ascii.
From stdpp Require Import base list gmap strings pretty.
From S2P Require Import Prelude Routing GoRuntime GoPtr NativeMem ParamValues Decimals NativeErrors NativeParam NumericTypes.

(** Native functions that only these files use. *)
Class NativeIds := {
  openpit_param_leverage_calculate_margin_required : ParamLeverage -> ParamNotional -> nativeResult ParamNotional;
  openpit_create_param_account_id_from_uint64 : Z -> Z;
  openpit_create_param_account_id_from_string : string -> nativeResult Z;
  openpit_create_param_account_group_id_from_uint32 : Z -> Z + option string;
  openpit_create_param_account_group_id_from_string : string -> Z + option string;
  openpit_create_param_asset_from_string : string -> nativeResult string;
}.

(** ** internal/native/param.go and account_group.go *)

Definition ParamTradeAmountGetKind (amount : ParamTradeAmount) : Z := ta_kind amount.
Definition ParamTradeAmountGetValue (amount : ParamTradeAmount) : ParamDecimal := ta_value amount.
Definition ParamAdjustmentAmountGetKind (amount : ParamAdjustmentAmount) : Z := aa_kind amount.
Definition ParamAdjustmentAmountGetValue (amount : ParamAdjustmentAmount) : ParamPositionSize := aa_value amount.
Definition ParamMonetaryAmountGetAmount (value : ParamMonetaryAmount) : ParamFee := ma_amount value.
Definition ParamMonetaryAmountGetCurrency (value : ParamMonetaryAmount) : StringView := ma_currency value.

Section Native.
Context {NI : NativeIds}.
Definition ParamLeverageCalculateMarginRequired (leverage : ParamLeverage) (notional : ParamNotional)
    : N (ParamNotional * option error) :=
  outParam "openpit_param_leverage_calculate_margin_required failed"
    (openpit_param_leverage_calculate_margin_required leverage notional).
Definition CreateParamAccountIDFromUint64 (value : Z) : Z := openpit_create_param_account_id_from_uint64 value.
Definition CreateParamAccountIDFromString (value : string) : N (Z * option error) :=
  outParam "openpit_create_param_account_id_from_string failed" (openpit_create_param_account_id_from_string value).
Definition CreateParamAssetFromString (value : string) : N (string * option error) :=
  outString "openpit_create_param_asset_from_string failed" (openpit_create_param_asset_from_string value).
(** A group id, or the text of an error. *)
Definition groupID (fallback : string) (r : Z + option string) : N (Z * option error) :=
  match r with
  | inl out => ret (out, None)
  | inr message =>
    let* outError := allocString message in
    let* err := consumeSharedStringAsError outError fallback in ret (0%Z, Some err)
  end.
Definition CreateParamAccountGroupIDFromUint32 (value : Z) : N (Z * option error) :=
  groupID "openpit_create_param_account_group_id_from_uint32 failed" (openpit_create_param_account_group_id_from_uint32 value).
Definition CreateParamAccountGroupIDFromString (value : string) : N (Z * option error) :=
  groupID "openpit_create_param_account_group_id_from_string failed" (openpit_create_param_account_group_id_from_string value).

(** ** param/account_id.go, account_group_id.go, leverage.go *)

Definition NewAccountIDFromUint64 (source : Z) : ParamValues.AccountID := NewAccountIDFromHandle (CreateParamAccountIDFromUint64 source).
Definition NewAccountIDFromString (source : string) : N (ParamValues.AccountID * option error) :=
  let* (value, err) := CreateParamAccountIDFromString source in
  match err with Some err => ret (0%Z, Some err) | None => ret (NewAccountIDFromHandle value, None) end.
Definition AccountIDString (v : ParamValues.AccountID) : string := pretty v.
Definition DefaultAccountGroup : AccountGroupID := {| grp_native := 0; grp_initialized := true |}.
Definition uninitializedGroup : AccountGroupID := {| grp_native := 0; grp_initialized := false |}.
Definition newAccountGroupID (m : N (Z * option error)) : N (AccountGroupID * option error) :=
  let* (value, err) := m in
  match err with
  | Some err => ret (uninitializedGroup, Some err)
  | None => ret ({| grp_native := value; grp_initialized := true |}, None)
  end.
Definition NewAccountGroupIDFromUint32 (source : Z) : N (AccountGroupID * option error) :=
  newAccountGroupID (CreateParamAccountGroupIDFromUint32 source).
Definition NewAccountGroupIDFromString (source : string) : N (AccountGroupID * option error) :=
  newAccountGroupID (CreateParamAccountGroupIDFromString source).
Definition AccountGroupIDString (v : AccountGroupID) : string := pretty (grp_native v).
Definition LeverageRaw (v : Leverage) : ParamLeverage := v.
Definition LeverageCalculateMarginRequired (v : Leverage) (notional : ParamNotional) : N (ParamNotional * option error) :=
  let* (result, err) := ParamLeverageCalculateMarginRequired (LeverageHandle v) notional in
  match err with Some err => ret (zeroDecimal, Some err) | None => ret (result, None) end.
End Native.

(** ** param/trade_amount.go and adjustment_amount.go *)

Definition newTradeAmount (amount : ParamTradeAmount) : TradeAmount := amount.
Definition newAdjustmentAmount (amount : ParamAdjustmentAmount) : AdjustmentAmount := amount.
(** Panics with a text are numbers here. *)
Definition notAQuantity : panicValue := PanicOther 10.
Definition notAVolume : panicValue := PanicOther 11.
Definition failedToDecode : panicValue := PanicOther 12.

Section Amounts.
Context {F64 : Type} {NP : NativeParam F64}.

Definition MustQuantity (a : TradeAmount) : N Quantity :=
  if negb (TradeAmountIsQuantity a) then panic notAQuantity
  else
    let* (value, err) := CreateParamQuantity (ParamTradeAmountGetValue a) in
    match err with
    | Some _ => panic failedToDecode
    | None => ret (NewQuantityFromHandle value)
    end.
Definition MustVolume (a : TradeAmount) : N Volume :=
  if negb (TradeAmountIsVolume a) then panic notAVolume
  else
    let* (value, err) := CreateParamVolume (ParamTradeAmountGetValue a) in
    match err with
    | Some _ => panic failedToDecode
    | None => ret value
    end.
Definition TradeAmountString (a : TradeAmount) : N string :=
  if (ParamTradeAmountGetKind a =? ParamTradeAmountKindQuantity)%Z then
    let* q := MustQuantity a in let* s := Quantities.String_ q in ret ("qty: " +:+ s)
  else if (ParamTradeAmountGetKind a =? ParamTradeAmountKindVolume)%Z then
    let* v := MustVolume a in let* s := Volumes.String_ v in ret ("vol: " +:+ s)
  else ret "not set".
Definition TradeAmountChoose (a : TradeAmount) (getQuantity : Quantity -> N unit) (getVolume : Volume -> N unit) : N unit :=
  if TradeAmountIsQuantity a then let* q := MustQuantity a in getQuantity q
  else let* v := MustVolume a in getVolume v.
End Amounts.

(** ** Hashes and equality *)

Definition fnvOffset64 : Z := 14695981039346656037%Z.
Definition fnvPrime64 : Z := 1099511628211%Z.
Definition byteOf (c : ascii) : Z := Z.of_nat (nat_of_ascii c).
(** [hash/fnv.New64a]: exclusive or, then a 64-bit product. *)
Definition fnvStep (h b : Z) : Z := wrapU 64 (Z.lxor h b * fnvPrime64).
Definition fnv64a (s : string) : Z := foldl (fun h c => fnvStep h (byteOf c)) fnvOffset64 (String.list_ascii_of_string s).
Definition AssetHash {L} (a : Asset) : MM L Z :=
  match a with None => mret 0%Z | Some b => do! s <- BufSafe b; mret (fnv64a s) end.
Definition AssetString {L} (a : Asset) : MM L string := AssetSafe a.

(** The assets that the package makes own a text that is not empty. *)
Definition ownsText (a : Asset) : Prop := match a with None => True | Some b => b_len b <> 0 end.
Lemma readBytes_length {L} p n s (m m' : Mem L) : readBytes p n m = inr (s, m') -> String.length s = n /\ m' = m.
Proof.
  unfold readBytes. destruct p as [p|]; [|done]. destruct (bufs m !! p) as [t|]; [|done].
  destruct (n <=? String.length t) eqn:E; [|done]. intros [= <- <-]. split; [|done]. apply Nat.leb_le in E.
  clear -E. revert n E. induction t as [|c t IH]; intros [|n] E; cbn in *; try done; try lia. f_equal. apply IH. lia.
Qed.
(** Equal assets hash alike, the zero asset included, when every buffer holds a text. *)
Lemma equal_assets_hash_alike {L} (a b : Asset) (m m' : Mem L) :
  ownsText a -> ownsText b -> AssetEqual a b m = inr (true, m') -> AssetHash a m = AssetHash b m.
Proof.
  unfold AssetEqual, AssetHash, AssetSafe, ownsText, mbind', mret. destruct a as [a|], b as [b|]; intros Ha Hb; try done.
  - destruct (BufSafe a m) as [|[x mx]] eqn:Ex; [by intros|]. destruct (readBytes_length _ _ _ _ _ Ex) as [_ ->].
    destruct (BufSafe b m) as [|[y my]] eqn:Ey; [by intros|]. destruct (readBytes_length _ _ _ _ _ Ey) as [_ ->].
    intros [= H%String.eqb_eq ->]. by subst.
  - destruct (BufSafe a m) as [|[x mx]] eqn:Ex; [by intros|]. destruct (readBytes_length _ _ _ _ _ Ex) as [Hl ->].
    intros [= H _]. destruct x; [|done]. cbn in Hl. by rewrite <- Hl in Ha.
  - destruct (BufSafe b m) as [|[y my]] eqn:Ey; [by intros|]. destruct (readBytes_length _ _ _ _ _ Ey) as [Hl ->].
    intros [= H _]. destruct y; [|done]. cbn in Hl. by rewrite <- Hl in Hb.
Qed.

(** ** What the amounts do *)

Section AmountFacts.
Context {F64 : Type} {NP : NativeParam F64}.

(** [Choose] gives a quantity to the one function and a volume to the other, as the
    library decodes it; an amount that is not set, or a value that the library refuses as
    its kind, is a panic, whatever the functions are, and leaves nothing behind. *)
Lemma choose_is_exact (a : TradeAmount) getQuantity getVolume s :
  heapOk s ->
  let chosen := TradeAmountChoose a getQuantity getVolume in
  if TradeAmountIsQuantity a then
    match openpit_create_param KQuantity (ta_value a) with
    | NativeOk q => chosen s = getQuantity q s
    | NativeFailed _ _ => gives chosen s (Panic failedToDecode)
    end
  else if TradeAmountIsVolume a then
    match openpit_create_param KVolume (ta_value a) with
    | NativeOk v => chosen s = getVolume v s
    | NativeFailed _ _ => gives chosen s (Panic failedToDecode)
    end
  else chosen s = (Panic notAVolume, s).
Proof.
  intros K chosen. unfold chosen, TradeAmountChoose. destruct (TradeAmountIsQuantity a) eqn:Eq; [|destruct (TradeAmountIsVolume a) eqn:Ev].
  - unfold MustQuantity, CreateParamQuantity. rewrite Eq. cbn [negb]. unfold ParamTradeAmountGetValue.
    destruct (openpit_create_param KQuantity (ta_value a)) as [q|q e] eqn:Ec; [done|].
    destruct (outParam_gives "openpit_create_param_quantity failed" (NativeFailed q e) s K) as (s' & E & L).
    exists s'. split; [|done]. unfold bind at 1 2. by rewrite E.
  - unfold MustVolume, CreateParamVolume. rewrite Ev. cbn [negb]. unfold ParamTradeAmountGetValue.
    destruct (openpit_create_param KVolume (ta_value a)) as [q|q e] eqn:Ec; [done|].
    destruct (outParam_gives "openpit_create_param_volume failed" (NativeFailed q e) s K) as (s' & E & L).
    exists s'. split; [|done]. unfold bind at 1 2. by rewrite E.
  - unfold MustVolume. by rewrite Ev.
Qed.
(** An amount made of a quantity gives that quantity back. *)
Lemma quantity_amount_roundtrip (v : Quantity) getQuantity getVolume s :
  heapOk s -> openpit_create_param KQuantity v = NativeOk v ->
  TradeAmountChoose (NewQuantityTradeAmount v) getQuantity getVolume s = getQuantity v s.
Proof. intros K H. pose proof (choose_is_exact (NewQuantityTradeAmount v) getQuantity getVolume s K) as C. cbn in C. by rewrite H in C. Qed.
(** Group ids of the two constructors are initialized exactly when there is no error. *)
Lemma groupIDs_are_initialized {NI : NativeIds} (source : Z) s :
  heapOk s -> (forall m, openpit_create_param_account_group_id_from_uint32 source = inr m -> is_Some m) ->
  exists id err, gives (NewAccountGroupIDFromUint32 source) s (Ret (id, err)) /\ (grp_initialized id = true <-> err = None).
Proof.
  intros K Hm. unfold NewAccountGroupIDFromUint32, newAccountGroupID, CreateParamAccountGroupIDFromUint32, groupID.
  destruct (openpit_create_param_account_group_id_from_uint32 source) as [out|m] eqn:E.
  - eexists {| grp_native := out; grp_initialized := true |}, None. split; [apply gives_ret|done].
  - destruct (Hm m eq_refl) as [text ->].
    exists uninitializedGroup, (Some (messageError "openpit_create_param_account_group_id_from_uint32 failed" text)). split; [|done].
    eapply gives_bind; [done|apply (alloc_message _ (Some text) (fun err => (0%Z, Some err))); done|]. intros. apply gives_ret.
Qed.
End AmountFacts.
