(* ===== verification/Loader.v ===== *)
(** * The runtime loader

    internal/loader, internal/runtime and the package initialization of internal/native:
    which file a process loads, how it is extracted into the cache, and what it panics
    with. Code that talks to the operating system is a program over [sysCall]s ([prog]);
    [answers] says what a call may answer and do to the files, failures included. [step]
    runs any number of processes on one file system, call by call; a process may see a file
    that another one has half written, and may be killed at any point.

    Paths are the Unix ones, cleaned, in parts with the last part first. A path names a
    file or nothing here: directories are not modelled, [MkdirAll] only succeeds or fails.
    An error of the operating system is [EOther]. What the hash is, what the dynamic linker
    does and what an artifact contains are parameters. *)
From Stdlib Require Import ZArith Lia Ascii.
From stdpp Require Import base list gmap strings relations.
From S2P Require Import Prelude GoRuntime.

(** ** Paths and strings of the standard library *)

Definition path : Type := bool * list string.
(** One part onto a cleaned path: [.] and nothing stay, [..] goes up where it can. *)
Definition push (rooted : bool) (parts : list string) (s : string) : list string :=
  if bool_decide (s = EmptyString \/ s = ".") then parts
  else if bool_decide (s = "..") then
    match parts with
    | [] => if rooted then [] else [s]
    | p :: rest => if bool_decide (p = "..") then s :: parts else rest
    end
  else s :: parts.
Fixpoint splitSlash (word : list ascii) (l : list ascii) : list string :=
  match l with
  | [] => [String.string_of_list_ascii (rev word)]
  | c :: l => if Ascii.eqb c "/" then String.string_of_list_ascii (rev word) :: splitSlash [] l else splitSlash (c :: word) l
  end.
Definition isRooted (s : string) : bool := match s with String c _ => Ascii.eqb c "/" | EmptyString => false end.
(** [filepath.Clean]. *)
Definition Clean (s : string) : path :=
  let rooted := isRooted s in (rooted, foldl (push rooted) [] (splitSlash [] (String.list_ascii_of_string s))).
(** [filepath.Join] of a cleaned path with single parts. *)
Definition Join (p : path) (parts : list string) : path := (p.1, foldl (push p.1) p.2 parts).
Definition IsAbs (p : path) : bool := p.1.
Definition Dir (p : path) : path := (p.1, tail p.2).
Definition Base (p : path) : string := default EmptyString (head p.2).
Fixpoint joinSlash (parts : list string) : string :=
  match parts with [] => EmptyString | [s] => s | s :: parts => s +:+ "/" +:+ joinSlash parts end.
Definition render (p : path) : string :=
  match p.2 with
  | [] => if p.1 then "/" else "."
  | parts => (if p.1 then "/" else EmptyString) +:+ joinSlash (rev parts)
  end.
Fixpoint dropWhile {A} (f : A -> bool) (l : list A) : list A :=
  match l with [] => [] | x :: l' => if f x then dropWhile f l' else l end.
Definition trimBy (f : ascii -> bool) (s : string) : string :=
  String.string_of_list_ascii (rev (dropWhile f (rev (dropWhile f (String.list_ascii_of_string s))))).
(** The ASCII spaces. *)
Definition isSpace (c : ascii) : bool := let n := nat_of_ascii c in (n =? 32) || (9 <=? n) && (n <=? 13).
Definition TrimSpace (s : string) : string := trimBy isSpace s.
Definition TrimSlashes (s : string) : string := trimBy (fun c => Ascii.eqb c "/") s.
Fixpoint Contains (s sub : string) : bool :=
  String.prefix sub s || match s with EmptyString => false | String _ s => Contains s sub end.

(** ** Constants and errors *)

Definition SDKVersion : string := "0.10.0".
Definition envRuntimePath : string := "OPENPIT_RUNTIME_LIBRARY_PATH".
Definition envRuntimeCache : string := "OPENPIT_RUNTIME_CACHE_DIR".
Definition cacheDirMode : Z := 488.
Definition cacheFileMode : Z := 493.
Definition tempFileMode : Z := 384.
Definition ReasonOverrideStatFailed : string := "override path stat failed".
Definition ReasonEmbedNotFound : string := "embedded runtime not found for platform".
Definition ReasonCacheResolveFailed : string := "runtime cache directory resolution failed".
Definition ReasonCacheWriteFailed : string := "runtime cache write failed".
Definition ReasonMagicCheckFailed : string := "shared library magic check failed".
Definition ReasonDlopenFailed : string := "dlopen failed".
Definition ReasonSymbolNotFound : string := "runtime symbol not found".
Definition ReasonVersionMismatch : string := "runtime version mismatch".
Record RuntimeLoadError := mkLoadError { le_Reason : string; le_Path : option path; le_Cause : error }.
Definition LoadErrorUnwrap (e : RuntimeLoadError) : error := le_Cause e.
Definition errOverrideStatFailed : error := ESentinel ReasonOverrideStatFailed.
Definition errEmbedNotFound : error := ESentinel ReasonEmbedNotFound.
Definition errCacheResolveFailed : error := ESentinel ReasonCacheResolveFailed.
Definition errCacheWriteFailed : error := ESentinel ReasonCacheWriteFailed.
Definition errMagicCheckFailed : error := ESentinel ReasonMagicCheckFailed.
Definition reasonForResolveError (err : error) : string :=
  if errors_Is ReasonOverrideStatFailed err then ReasonOverrideStatFailed
  else if errors_Is ReasonEmbedNotFound err then ReasonEmbedNotFound
  else if errors_Is ReasonCacheWriteFailed err then ReasonCacheWriteFailed
  else if errors_Is ReasonCacheResolveFailed err then ReasonCacheResolveFailed
  else ReasonCacheResolveFailed.

(** ** Programs over system calls *)

Inductive statAnswer := StatOk | StatNotExist | StatFailed (e : error).
Inductive sysCall :=
| Getenv (v : string)
| UserCacheDir
| Stat (p : path)
| MkdirAll (p : path) (mode : Z)
| CreateTemp (dir : path) (prefix : string)
| Write (p : path) (data : string)
| Chmod (p : path) (mode : Z)
| Close (p : path)
| Rename (from to : path)
| Remove (p : path)
| Open (p : path)
| ReadFull4 (p : path)
| Dlopen (p : path)
| NativeInit (handle : Z)
| RuntimeVersion.
Definition answer (c : sysCall) : Type :=
  match c with
  | Getenv _ | RuntimeVersion => string
  | UserCacheDir | CreateTemp _ _ => path + error
  | Stat _ => statAnswer
  | MkdirAll _ _ | Write _ _ | Chmod _ _ | Close _ | Rename _ _ | Open _ => option error
  | Remove _ => unit
  | ReadFull4 _ => (ascii * ascii * ascii * ascii) + error
  | Dlopen _ => Z + option string
  | NativeInit _ => option string
  end.
Inductive prog (A : Type) := Done (a : A) | Do (c : sysCall) (k : answer c -> prog A).
Arguments Done {A} a.
Arguments Do {A} c k.
Fixpoint bindProg {A B} (m : prog A) (f : A -> prog B) : prog B :=
  match m with Done a => f a | Do c k => Do c (fun r => bindProg (k r) f) end.
Definition call (c : sysCall) : prog (answer c) := Do c Done.
Declare Scope prog_scope.
Delimit Scope prog_scope with prog.
Notation "'sys*' x ':=' m 'in' k" := (bindProg m (fun x => k))
  (at level 200, x pattern, m at level 100, k at level 200, right associativity) : prog_scope.
Open Scope prog_scope.

(** What is embedded for a platform; an unsupported one has no name and no data. *)
Record artifact := mkArtifact { a_name : string; a_data : string; a_goos_goarch : string }.

Section Loader.
Context (sha256hex : string -> string) (embedded : option artifact) (goos_goarch : string).

(** ** internal/runtime *)

Definition unsupported : error := EText "unsupported platform" 0.
Definition GetName : string + error := match embedded with None => inr unsupported | Some a => inl (a_name a) end.
Definition Load : (string * string) + error := match embedded with None => inr unsupported | Some a => inl (a_data a, a_name a) end.
Definition Hash : string + error :=
  match Load with inr err => inr err | inl (data, _) => inl (sha256hex data) end.

(** ** internal/loader *)

Definition resolveCacheDir (version : string) : prog (path + error) :=
  sys* v := call (Getenv envRuntimeCache) in
  let override := TrimSpace v in
  if negb (bool_decide (override = EmptyString)) then Done (inl (Join (Clean override) [version; goos_goarch]))
  else
    sys* r := call UserCacheDir in
    match r with
    | inr err => Done (inr (EWrap "failed to resolve user cache dir" err))
    | inl userCacheDir => Done (inl (Join userCacheDir ["pit-go"; version; goos_goarch]))
    end.
Definition ensureVersionedPath (version : string) (targetPath : path) : option error :=
  let normalizedVersion := TrimSlashes version in
  if bool_decide (normalizedVersion = EmptyString) then Some (EText "version is empty or contains invalid characters" 0)
  else if negb (Contains (render targetPath) ("/" +:+ normalizedVersion +:+ "/"))
  then Some (EText "cache path must contain version marker" 0)
  else None.

(** The file is written under another name and takes the target's when it is complete;
    the deferred function removes it unless it was renamed. *)
Definition writeTemp (tmpPath targetPath : path) (data : string) (fileMode : Z) : prog (bool * option error) :=
  sys* r := call (Write tmpPath data) in
  match r with
  | Some err => sys* _ := call (Close tmpPath) in Done (true, Some (EWrap "write temp file" err))
  | None =>
    sys* r := call (Chmod tmpPath fileMode) in
    match r with
    | Some err => sys* _ := call (Close tmpPath) in Done (true, Some (EWrap "chmod temp file" err))
    | None =>
      sys* r := call (Close tmpPath) in
      match r with
      | Some err => Done (true, Some (EWrap "close temp file" err))
      | None =>
        sys* r := call (Rename tmpPath targetPath) in
        match r with
        | Some err =>
          sys* st := call (Stat targetPath) in
          match st with
          | StatOk => Done (true, None)
          | _ => Done (true, Some (EWrap "rename temp file" err))
          end
        | None => Done (false, None)
        end
      end
    end
  end.
Definition write (targetPath : path) (data : string) (fileMode : Z) : prog (option error) :=
  sys* r := call (CreateTemp (Dir targetPath) ("." +:+ Base targetPath +:+ ".tmp-")) in
  match r with
  | inr err => Done (Some (EWrap "create temp runtime file" err))
  | inl tmpPath =>
    sys* (removeTmp, err) := writeTemp tmpPath targetPath data fileMode in
    if removeTmp : bool then sys* _ := call (Remove tmpPath) in Done err else Done err
  end.

(** The part of [resolvePath] that fills the cache. *)
Definition extract (targetPath : path) (fileName : string) : prog (path + (option path * error)) :=
  match Load with
  | inr err => Done (inr (None, EJoin [errEmbedNotFound; err]))
  | inl (data, embeddedName) =>
    if negb (bool_decide (embeddedName = EmptyString)) && negb (bool_decide (embeddedName = fileName))
    then Done (inr (Some targetPath, EWrap "filename mismatch" errEmbedNotFound))
    else
      sys* r := call (MkdirAll (Dir targetPath) cacheDirMode) in
      match r with
      | Some err => Done (inr (Some targetPath, EJoin [errCacheWriteFailed; err]))
      | None =>
        sys* r := write targetPath data cacheFileMode in
        match r with
        | Some err => Done (inr (Some targetPath, EJoin [errCacheWriteFailed; err]))
        | None => Done (inl targetPath)
        end
      end
  end.
(** Without an override. *)
Definition resolveEmbedded : prog (path + (option path * error)) :=
  match GetName with
  | inr err => Done (inr (None, EJoin [errEmbedNotFound; err]))
  | inl fileName =>
    match Hash with
    | inr err => Done (inr (None, EJoin [errEmbedNotFound; err]))
    | inl contentHash =>
      sys* r := resolveCacheDir SDKVersion in
      match r with
      | inr err => Done (inr (None, EJoin [errCacheResolveFailed; err]))
      | inl cacheDir =>
        let targetPath := Join cacheDir [contentHash; fileName] in
        match ensureVersionedPath SDKVersion targetPath with
        | Some err => Done (inr (Some targetPath, EJoin [errCacheResolveFailed; err]))
        | None =>
          sys* st := call (Stat targetPath) in
          match st with
          | StatOk => Done (inl targetPath)
          | StatFailed statErr => Done (inr (Some targetPath, EJoin [errCacheResolveFailed; statErr]))
          | StatNotExist => extract targetPath fileName
          end
        end
      end
    end
  end.
Definition resolvePath : prog (path + (option path * error)) :=
  sys* v := call (Getenv envRuntimePath) in
  let forced := TrimSpace v in
  if negb (bool_decide (forced = EmptyString)) then
    let forcedPath := Clean forced in
    if negb (IsAbs forcedPath) then Done (inr (Some forcedPath, EWrap "override path must be absolute" errOverrideStatFailed))
    else
      sys* st := call (Stat forcedPath) in
      match st with
      | StatOk => Done (inl forcedPath)
      | StatNotExist => Done (inr (Some forcedPath, EJoin [errOverrideStatFailed; ESentinel "file does not exist"]))
      | StatFailed err => Done (inr (Some forcedPath, EJoin [errOverrideStatFailed; err]))
      end
  else resolveEmbedded.

(** The first bytes of ELF, Mach-O in three forms, and PE. *)
Definition isMagic (m : ascii * ascii * ascii * ascii) : bool :=
  let '(a, b, c, d) := m in
  let byte (n : nat) (x : ascii) := nat_of_ascii x =? n in
  byte 127 a && byte 69 b && byte 76 c && byte 70 d
  || byte 206 a && byte 250 b && byte 237 c && byte 254 d
  || byte 207 a && byte 250 b && byte 237 c && byte 254 d
  || byte 202 a && byte 254 b && byte 186 c && byte 190 d
  || byte 77 a && byte 90 b.
Definition validateSharedLibraryMagic (p : path) : prog (option error) :=
  sys* r := call (Open p) in
  match r with
  | Some err => Done (Some (EWrap "open" err))
  | None =>
    sys* r := call (ReadFull4 p) in
    sys* _ := call (Close p) in
    match r with
    | inr err => Done (Some (EWrap "read magic bytes" err))
    | inl magic => if isMagic magic then Done None else Done (Some (EText "not a recognized shared library" 0))
    end
  end.
Definition loadRuntimeLibrary (p : path) : prog (Z + error) :=
  sys* r := validateSharedLibraryMagic p in
  match r with
  | Some err => Done (inr (EJoin [errMagicCheckFailed; err]))
  | None =>
    sys* r := call (Dlopen p) in
    match r with
    | inr None => Done (inr (EText "dlopen failed" 0))
    | inr (Some dlopenErr) => Done (inr (EText dlopenErr 0))
    | inl handle => Done (inl handle)
    end
  end.
(** [LoadedPath] and [LoadedHandle], or a panic. *)
Definition load : prog ((path * Z) + RuntimeLoadError) :=
  sys* r := resolvePath in
  match r with
  | inr (p, err) => Done (inr (mkLoadError (reasonForResolveError err) p err))
  | inl p =>
    sys* r := loadRuntimeLibrary p in
    match r with
    | inr err =>
      let reason := if errors_Is ReasonMagicCheckFailed err then ReasonMagicCheckFailed else ReasonDlopenFailed in
      Done (inr (mkLoadError reason (Some p) err))
    | inl handle => Done (inl (p, handle))
    end
  end.

(** ** internal/native: package initialization *)

Definition loadNativeSymbols (loaded : path * Z) : prog (option RuntimeLoadError) :=
  sys* missing := call (NativeInit (snd loaded)) in
  match missing with
  | Some symbol => Done (Some (mkLoadError ReasonSymbolNotFound (Some (fst loaded)) (EText symbol 0)))
  | None => Done None
  end.
Definition initNative (loaded : path * Z) : prog (option RuntimeLoadError) :=
  sys* r := loadNativeSymbols loaded in
  match r with
  | Some err => Done (Some err)
  | None =>
    sys* runtimeVersion := call RuntimeVersion in
    if negb (bool_decide (runtimeVersion = SDKVersion))
    then Done (Some (mkLoadError ReasonVersionMismatch (Some (fst loaded)) (EText runtimeVersion 0)))
    else Done None
  end.
Definition start : prog ((path * Z) + RuntimeLoadError) :=
  sys* r := load in
  match r with
  | inr err => Done (inr err)
  | inl loaded => sys* err := initNative loaded in
                  match err with Some err => Done (inr err) | None => Done (inl loaded) end
  end.
End Loader.

(** ** Processes that load the library

    Any number of processes run [start] on one file system. What a call may answer is
    [answers]: a call that fails leaves the files as they were, but for a write, which may
    have written a part; [Rename] replaces its target at once; [CreateTemp] finds a name
    that is not in use. While a process is in [Write], others may see any part of what it
    writes, and any process may be killed between two calls or within a write. *)

Record File := mkFile { f_data : string; f_mode : Z }.
Abbreviation FS := (gmap path File).
(** What a process is started with. *)
Record environment := mkEnvironment { e_vars : string -> string; e_userCache : path + nat; e_embedded : option artifact }.
Definition osError (o : option error) : Prop := forall e, o = Some e -> exists n, e = EOther n.
(** The part of a write that is visible. *)
Definition partOf (p : path) (data : string) (fs fs' : FS) : Prop :=
  exists f part rest, fs !! p = Some f /\ data = part +:+ rest /\ fs' = <[p := mkFile part (f_mode f)]> fs.

Definition answers (env : environment) (c : sysCall) : FS -> answer c -> FS -> Prop :=
  match c return FS -> answer c -> FS -> Prop with
  | Getenv v => fun fs r fs' => fs' = fs /\ r = e_vars env v
  | UserCacheDir => fun fs r fs' => fs' = fs /\ r = match e_userCache env with inl p => inl p | inr n => inr (EOther n) end
  | Stat p => fun fs r fs' => fs' = fs /\
      match r with StatOk => is_Some (fs !! p) | StatNotExist => fs !! p = None | StatFailed e => osError (Some e) end
  | MkdirAll _ _ | Close _ => fun fs r fs' => fs' = fs /\ osError r
  | CreateTemp dir prefix => fun fs r fs' =>
      match r with
      | inl p => exists suffix, p = (dir.1, (prefix +:+ suffix) :: dir.2) /\ fs !! p = None /\ fs' = <[p := mkFile EmptyString tempFileMode]> fs
      | inr e => fs' = fs /\ osError (Some e)
      end
  | Write p data => fun fs r fs' =>
      match r with
      | None => exists f, fs !! p = Some f /\ fs' = <[p := mkFile data (f_mode f)]> fs
      | Some e => osError (Some e) /\ (fs' = fs \/ partOf p data fs fs')
      end
  | Chmod p mode => fun fs r fs' =>
      match r with
      | None => exists f, fs !! p = Some f /\ fs' = <[p := mkFile (f_data f) mode]> fs
      | Some e => fs' = fs /\ osError (Some e)
      end
  | Rename from to => fun fs r fs' =>
      match r with
      | None => exists f, fs !! from = Some f /\ fs' = <[to := f]> (delete from fs)
      | Some e => fs' = fs /\ osError (Some e)
      end
  | Remove p => fun fs _ fs' => fs' = fs \/ fs' = delete p fs
  | Open p => fun fs r fs' => fs' = fs /\ match r with None => is_Some (fs !! p) | Some e => osError (Some e) end
  | ReadFull4 p => fun fs r fs' => fs' = fs /\
      match r with
      | inl (a, b, c, d) => exists f rest, fs !! p = Some f /\ f_data f = String a (String b (String c (String d rest)))
      | inr e => osError (Some e)
      end
  | Dlopen _ | NativeInit _ | RuntimeVersion => fun fs _ fs' => fs' = fs
  end.

Section System.
Context (sha256hex : string -> string).
(** The artifacts that were ever shipped. *)
Context (shipped : artifact -> Prop).

Abbreviation program := (prog ((path * Z) + RuntimeLoadError)).
Record process := mkProcess { p_env : environment; p_rest : program }.
Definition platform (env : environment) : string := match e_embedded env with Some a => a_goos_goarch a | None => "plan9-386" end.
Definition started (env : environment) : process := mkProcess env (start sha256hex (e_embedded env) (platform env)).

Record system := mkSystem { s_files : FS; s_processes : gmap nat process }.
Inductive step : system -> system -> Prop :=
| StepStart s i env :
    s_processes s !! i = None -> (forall a, e_embedded env = Some a -> shipped a) ->
    step s (mkSystem (s_files s) (<[i := started env]> (s_processes s)))
| StepCall s i env c k r fs' :
    s_processes s !! i = Some (mkProcess env (Do c k)) -> answers env c (s_files s) r fs' ->
    step s (mkSystem fs' (<[i := mkProcess env (k r)]> (s_processes s)))
| StepPart s i env p data k fs' :
    s_processes s !! i = Some (mkProcess env (Do (Write p data) k)) -> partOf p data (s_files s) fs' ->
    step s (mkSystem fs' (s_processes s))
| StepKill s i : step s (mkSystem (s_files s) (delete i (s_processes s))).

(** *** Targets *)

(** Where a process extracts an artifact to ends with the hash and the name. *)
Definition targetOf (a : artifact) (p : path) : Prop := exists dir, p.2 = a_name a :: sha256hex (a_data a) :: dir.
(** The artifact, whole and executable. *)
Definition complete (a : artifact) : File := mkFile (a_data a) cacheFileMode.

(** *** A run on which nothing fails *)

(** [handle] is what the dynamic linker returns, [version] what the library says of itself. *)
Definition smooth (env : environment) (handle : Z) (version : string) (fs : FS) (c : sysCall) : option (answer c * FS) :=
  match c return option (answer c * FS) with
  | Getenv v => Some (e_vars env v, fs)
  | UserCacheDir => Some (match e_userCache env with inl p => inl p | inr n => inr (EOther n) end, fs)
  | Stat p => Some (if bool_decide (is_Some (fs !! p)) then StatOk else StatNotExist, fs)
  | MkdirAll _ _ | Close _ => Some (None, fs)
  | CreateTemp dir prefix =>
      let p := (dir.1, (prefix +:+ "1") :: dir.2) in
      if decide (fs !! p = None) then Some (inl p, <[p := mkFile EmptyString tempFileMode]> fs) else None
  | Write p data => f ← fs !! p; Some (None, <[p := mkFile data (f_mode f)]> fs)
  | Chmod p mode => f ← fs !! p; Some (None, <[p := mkFile (f_data f) mode]> fs)
  | Rename from to => f ← fs !! from; Some (None, <[to := f]> (delete from fs))
  | Remove p => Some (tt, delete p fs)
  | Open p => _ ← fs !! p; Some (None, fs)
  | ReadFull4 p =>
      f ← fs !! p;
      match f_data f with
      | String a (String b (String c (String d _))) => Some (inl (a, b, c, d), fs)
      | _ => None
      end
  | Dlopen _ => Some (inl handle, fs)
  | NativeInit _ => Some (None, fs)
  | RuntimeVersion => Some (version, fs)
  end.
Fixpoint runSmooth {A} (env : environment) (handle : Z) (version : string) (n : nat) (m : prog A) (fs : FS) : option (prog A * FS) :=
  match n, m with
  | 0, _ | _, Done _ => Some (m, fs)
  | S n, Do c k => '(r, fs') ← smooth env handle version fs c; runSmooth env handle version n (k r) fs'
  end.
Lemma smooth_answers env handle version fs c r fs' :
  smooth env handle version fs c = Some (r, fs') -> answers env c fs r fs'.
Proof.
  destruct c as [v| |p|p mode|dir prefix|p data|p mode|p|from to|p|p|p|p|h|]; cbn; intros H; simplify_option_eq; try done; try (by eexists); try (by right).
  - split; [done|]. case_bool_decide as E; [done|]. by apply eq_None_not_Some.
  - destruct (f_data _) as [|? [|? [|? [|? ?]]]] eqn:E in H; simplify_eq. split; [done|]. by eexists _, _.
Qed.
Lemma runSmooth_steps env handle version n m fs m' fs' procs i :
  runSmooth env handle version n m fs = Some (m', fs') -> procs !! i = Some (mkProcess env m) ->
  rtc step (mkSystem fs procs) (mkSystem fs' (<[i := mkProcess env m']> procs)).
Proof.
  revert m fs procs. induction n as [|n IH]; intros m fs procs H Hi; cbn in H.
  - injection H as <- <-. by rewrite insert_id.
  - destruct m as [a|c k]; [injection H as <- <-; by rewrite insert_id|].
    destruct (smooth env handle version fs c) as [[r fs1]|] eqn:E; [|done]. cbn in H. eapply rtc_l.
    + apply (StepCall (mkSystem fs procs) i env c k r fs1); [done|]. by eapply smooth_answers.
    + cbn. rewrite <- (insert_insert_eq procs i (mkProcess env m') (mkProcess env (k r))). apply (IH (k r)); [done|]. by rewrite lookup_insert_eq.
Qed.
End System.
