(* ===== verification/LoaderFacts.v ===== *)
(** * What processes that share a cache guarantee to each other

    A process only ever loads the file its user named, or its own artifact, whole and
    executable - however many processes fill the cache at once, whichever calls fail and
    whoever is killed half-way.

    [safe] follows a program with what its process knows ([ghost]): the temporary file it
    owns, with what is known of its content, and a target it has seen. *)
From Stdlib Require Import ZArith Lia Ascii.
From stdpp Require Import base list gmap strings relations.
From S2P Require Import Prelude GoRuntime Loader.

Record ghost := mkGhost { g_temp : option (path * option string * option Z); g_seen : option path }.
(** Names of temporary files begin with a dot. *)
Definition hidden (p : path) : Prop := exists s rest, p.2 = ("." +:+ s) :: rest.

Section Facts.
Context (sha256hex : string -> string).
(** The artifacts that were ever shipped: their names are plain, and no two have the same
    hash but different contents. *)
Context (shipped : artifact -> Prop).
Definition collisionFree : Prop := forall a b, shipped a -> shipped b -> sha256hex (a_data a) = sha256hex (a_data b) -> a_data a = a_data b.
Definition plain (s : string) : Prop := s <> EmptyString /\ forall t, s <> "." +:+ t.
Definition plainNames : Prop := forall a, shipped a -> plain (a_name a) /\ plain (sha256hex (a_data a)).

(** ** Following a program *)

Section Follow.
Context (env : environment).
Definition ownTarget (p : path) : Prop := exists a, e_embedded env = Some a /\ targetOf sha256hex a p.
Definition forced (p : path) : Prop :=
  let v := TrimSpace (e_vars env envRuntimePath) in v <> EmptyString /\ p = Clean v.
Definition allowed (p : path) (g : ghost) : Prop := forced p \/ g_seen g = Some p.
Definition withTemp (t : option (path * option string * option Z)) (g : ghost) : ghost := mkGhost t (g_seen g).
Definition withSeen (p : path) (g : ghost) : ghost := mkGhost (g_temp g) (Some p).

(** What must hold before a call so that [K] holds after it, whatever it answers. *)
Definition pre (c : sysCall) (g : ghost) : (answer c -> ghost -> Prop) -> Prop :=
  match c return (answer c -> ghost -> Prop) -> Prop with
  | Getenv v => fun K => K (e_vars env v) g
  | UserCacheDir => fun K => forall r, (forall e, r = inr e -> osError (Some e)) -> K r g
  | Stat p => fun K => (K StatOk g \/ ownTarget p /\ K StatOk (withSeen p g)) /\ K StatNotExist g /\
      forall e, osError (Some e) -> K (StatFailed e) g
  | MkdirAll _ _ | Close _ => fun K => forall r, osError r -> K r g
  | CreateTemp dir prefix => fun K => g_temp g = None /\ (exists s, prefix = "." +:+ s) /\
      (forall p, hidden p -> K (inl p) (withTemp (Some (p, None, None)) g)) /\
      forall e, osError (Some e) -> K (inr e) g
  | Write p data => fun K => exists d m, g_temp g = Some (p, d, m) /\
      K None (withTemp (Some (p, Some data, m)) g) /\
      forall e, osError (Some e) -> K (Some e) (withTemp (Some (p, None, m)) g)
  | Chmod p mode => fun K => exists d m, g_temp g = Some (p, d, m) /\
      K None (withTemp (Some (p, d, Some mode)) g) /\ forall e, osError (Some e) -> K (Some e) g
  | Rename from to => fun K => exists a, e_embedded env = Some a /\ targetOf sha256hex a to /\
      g_temp g = Some (from, Some (a_data a), Some cacheFileMode) /\
      K None (mkGhost None (Some to)) /\ forall e, osError (Some e) -> K (Some e) g
  | Remove p => fun K => exists d m, g_temp g = Some (p, d, m) /\ K tt (withTemp None g)
  | Open p => fun K => forall r, osError r -> K r g
  | ReadFull4 p => fun K => forall r, (forall e, r = inr e -> osError (Some e)) -> K r g
  | Dlopen p => fun K => allowed p g /\ forall r, K r g
  | NativeInit _ => fun K => forall r, K r g
  | RuntimeVersion => fun K => forall r, K r g
  end.
Fixpoint safe {A} (Q : A -> ghost -> Prop) (m : prog A) (g : ghost) : Prop :=
  match m with Done a => Q a g | Do c k => pre c g (fun r g' => safe Q (k r) g') end.

Lemma pre_mono c g (K K' : answer c -> ghost -> Prop) : (forall r g', K r g' -> K' r g') -> pre c g K -> pre c g K'.
Proof. intros H. destruct c; cbn; naive_solver. Qed.
Lemma safe_bind {A B} (Q : A -> ghost -> Prop) (R : B -> ghost -> Prop) (m : prog A) (f : A -> prog B) g :
  safe Q m g -> (forall a g', Q a g' -> safe R (f a) g') -> safe R (bindProg m f) g.
Proof. intros H Hf. revert g H. induction m as [a|c k IH]; intros g H; [by apply Hf|]. cbn in *. eapply pre_mono; [|exact H]. intros r g'. apply IH. Qed.

(** ** The programs are safe *)

Definition writes (target : path) (err : option error) (g : ghost) : Prop :=
  g_temp g = None /\ (err = None -> g_seen g = Some target).
Lemma safe_write a target g :
  e_embedded env = Some a -> targetOf sha256hex a target -> g_temp g = None ->
  safe (writes target) (write target (a_data a) cacheFileMode) g.
Proof.
  intros Ha Ht Hg. unfold write. eapply (safe_bind (fun r g' => match r with
    | inl p => hidden p /\ g_temp g' = Some (p, None, None) | inr e => g_temp g' = None end)).
  { cbn. split; [done|]. split; [by eexists|]. split; [by intros p Hp|done]. }
  intros [p|e] g1; [|intros H; by split]. intros [Hp H1].
  eapply (safe_bind (fun r g' => if fst r : bool then (exists d m, g_temp g' = Some (p, d, m)) /\ (snd r = None -> g_seen g' = Some target)
                                 else snd r = None /\ g_temp g' = None /\ g_seen g' = Some target)).
  - unfold writeTemp. cbn. eexists _, _. split; [exact H1|]. split; [|by intros e _ r _; split; [eexists _, _|]].
    eexists _, _. split; [reflexivity|]. split; [|by intros e _ r _; split; [eexists _, _|]].
    intros [e|] _; [by split; [eexists _, _|]|]. exists a. split; [done|]. split; [done|]. split; [done|]. split; [done|].
    intros e _. split; [right; split; [by exists a|]; split; [by eexists _, _|done]|].
    split; [|intros e' _]; by split; [eexists _, _|].
  - intros [[] err] g2; cbn.
    + intros [(d & m & Hd) Hs]. eexists _, _. split; [exact Hd|]. by split.
    + intros (-> & Hn & Hs). by split.
Qed.

Definition oneOf (reasons : list string) (err : error) : Prop := Exists (fun reason => errors_Is reason err = true) reasons.
Definition resolveReasons : list string := [ReasonOverrideStatFailed; ReasonEmbedNotFound; ReasonCacheWriteFailed; ReasonCacheResolveFailed].
Lemma reason_is_wrapped err : oneOf resolveReasons err -> errors_Is (reasonForResolveError err) err = true.
Proof.
  unfold oneOf, resolveReasons, reasonForResolveError. rewrite !Exists_cons, Exists_nil. intros H.
  repeat case_match; naive_solver congruence.
Qed.
Lemma wrapped_first reason err : reason ∈ resolveReasons -> oneOf resolveReasons (EJoin [ESentinel reason; err]).
Proof. intros H. apply Exists_exists. exists reason. split; [done|]. cbn. by rewrite bool_decide_true. Qed.
Lemma push_plain rooted parts s : plain s -> push rooted parts s = s :: parts.
Proof.
  intros [He Hd]. unfold push. rewrite !bool_decide_false; [done|..].
  - intros ->. by apply (Hd ".").
  - intros [->| ->]; [done|]. by apply (Hd EmptyString).
Qed.
Lemma join_target a dir : plain (a_name a) -> plain (sha256hex (a_data a)) -> targetOf sha256hex a (Join dir [sha256hex (a_data a); a_name a]).
Proof. intros Hn Hh. exists dir.2. cbn. by rewrite !push_plain. Qed.

Definition resolved (r : path + (option path * error)) (g : ghost) : Prop :=
  g_temp g = None /\ match r with inl p => allowed p g | inr (_, err) => oneOf resolveReasons err end.
Lemma safe_resolve g :
  (forall a, e_embedded env = Some a -> shipped a) -> plainNames -> g_temp g = None ->
  safe resolved (resolvePath sha256hex (e_embedded env) (platform env)) g.
Proof.
  intros Hs Hp Hg. unfold resolvePath. eapply (safe_bind (fun v g' => v = e_vars env envRuntimePath /\ g' = g)); [done|].
  intros v ? [-> ->]. case_bool_decide as Hv; cbn [negb].
  - unfold resolveEmbedded, GetName, Hash. destruct (e_embedded env) as [a|] eqn:Ea; cbn [Load]; [|split; [done|]; by apply wrapped_first; cbn; set_solver].
    destruct (Hp a (Hs a eq_refl)) as [Pn Ph].
    eapply (safe_bind (fun _ g' => g' = g)).
    { unfold resolveCacheDir. eapply (safe_bind (fun _ g' => g' = g)); [done|]. intros w ? ->. case_bool_decide; cbn [negb]; [|done].
      intros [p|e] _; done. }
    intros [dir|err] ? ->; [|split; [done|]; by apply wrapped_first; set_solver].
    pose proof (join_target a dir Pn Ph) as Ht. set (target := Join dir [sha256hex (a_data a); a_name a]) in *.
    destruct (ensureVersionedPath SDKVersion target) as [err|]; [split; [done|]; by apply wrapped_first; set_solver|].
    cbn -[write]. split; [right; split; [by exists a|]; split; [done|by right]|].
    split; [|intros e _; split; [done|]; by apply wrapped_first; set_solver].
    rewrite (bool_decide_true (a_name a = a_name a)) by done. rewrite andb_false_r. cbn -[write]. intros [e|] _; [split; [done|]; by apply wrapped_first; set_solver|].
    eapply (safe_bind (writes target)); [by apply (safe_write a)|]. intros [err|] g' [Hn Hw].
    + split; [done|]. by apply wrapped_first; set_solver.
    + split; [done|]. right. by apply Hw.
  - destruct (IsAbs (Clean (TrimSpace (e_vars env envRuntimePath)))); cbn [negb].
    + cbn. split; [left; split; [done|]; by left|]. split; [|intros e _]; (split; [done|]); apply wrapped_first; set_solver.
    + split; [done|]. by apply Exists_cons; left.
Qed.

(** The reason of a panic names a sentinel that its cause wraps, or a later stage. *)
Definition reasonOk (e : RuntimeLoadError) : Prop :=
  errors_Is (le_Reason e) (le_Cause e) = true \/ le_Reason e ∈ [ReasonDlopenFailed; ReasonSymbolNotFound; ReasonVersionMismatch].
Definition ended (r : (path * Z) + RuntimeLoadError) (g : ghost) : Prop :=
  g_temp g = None /\ match r with inl (p, _) => allowed p g | inr e => reasonOk e end.

Lemma safe_dlopen p g :
  g_temp g = None -> allowed p g -> safe (fun _ g' => g' = g) (loadRuntimeLibrary p) g.
Proof.
  intros Hg Ha. unfold loadRuntimeLibrary. eapply (safe_bind (fun _ g' => g' = g)).
  - cbn. intros [e|] _; [done|]. cbn. intros [m|e] _; cbn; intros r _; [by destruct (isMagic m)|done].
  - intros [e|] ? ->; [done|]. cbn. split; [done|]. by intros [h|[e|]].
Qed.
Lemma safe_load g :
  (forall a, e_embedded env = Some a -> shipped a) -> plainNames -> g_temp g = None ->
  safe ended (load sha256hex (e_embedded env) (platform env)) g.
Proof.
  intros Hs Hp Hg. unfold load. eapply safe_bind; [by apply safe_resolve|]. intros [p|[p err]] g1 [Hn Ha].
  - eapply safe_bind; [by apply safe_dlopen|]. intros [h|err] ? ->; [by split|]. split; [done|]. cbn.
    destruct (errors_Is ReasonMagicCheckFailed err) eqn:Em; [by left|right; cbn; set_solver].
  - split; [done|]. left. by apply reason_is_wrapped.
Qed.
Lemma safe_start g :
  (forall a, e_embedded env = Some a -> shipped a) -> plainNames -> g_temp g = None ->
  safe ended (start sha256hex (e_embedded env) (platform env)) g.
Proof.
  intros Hs Hp Hg. unfold start. eapply safe_bind; [by apply safe_load|]. intros [[p h]|e] g1 [Hn Ha]; [|by split].
  cbn. intros [symbol|]; cbn; [split; [done|]; right; cbn; set_solver|]. intros v.
  case_bool_decide; cbn; [by split|]. split; [done|]. right. cbn. set_solver.
Qed.
End Follow.

(** ** Every interleaving *)

(** What the ghost of a process says of the files. *)
Definition tempIs (fs : FS) (p : path) (d : option string) (m : option Z) : Prop :=
  hidden p /\ exists f, fs !! p = Some f /\ (forall x, d = Some x -> f_data f = x) /\ (forall x, m = Some x -> f_mode f = x).
Definition describes (env : environment) (fs : FS) (g : ghost) : Prop :=
  (forall p d m, g_temp g = Some (p, d, m) -> tempIs fs p d m) /\
  (forall p, g_seen g = Some p -> exists a, e_embedded env = Some a /\ targetOf sha256hex a p /\ fs !! p = Some (complete a)).
Definition targetsComplete (fs : FS) : Prop :=
  forall a p f, shipped a -> targetOf sha256hex a p -> fs !! p = Some f -> f = complete a.
Definition temp (g : ghost) : option path := (fun t => t.1.1) <$> g_temp g.
Record inv (s : system) (gs : nat -> ghost) : Prop := mkInv {
  inv_targets : targetsComplete (s_files s);
  inv_process : forall i pr, s_processes s !! i = Some pr ->
    (forall a, e_embedded (p_env pr) = Some a -> shipped a) /\
    describes (p_env pr) (s_files s) (gs i) /\ safe (p_env pr) (ended (p_env pr)) (p_rest pr) (gs i);
  inv_apart : forall i j pri prj p, s_processes s !! i = Some pri -> s_processes s !! j = Some prj ->
    temp (gs i) = Some p -> temp (gs j) = Some p -> i = j;
}.
(** What one process may change: its own temporary file, a new one, or a target. *)
Definition changes (own : option path) (fs fs' : FS) : Prop :=
  forall p, fs' !! p = fs !! p \/ own = Some p \/ (fs !! p = None /\ hidden p) \/
    exists a, shipped a /\ targetOf sha256hex a p /\ fs' !! p = Some (complete a).
Lemma hidden_not_target p a : plainNames -> shipped a -> hidden p -> targetOf sha256hex a p -> False.
Proof. intros Hp Ha (s & rest & E) (dir & E'). rewrite E in E'. injection E' as E' _. by eapply (proj1 (Hp a Ha)). Qed.
Lemma describes_others env fs fs' own g :
  plainNames -> collisionFree -> (forall a, e_embedded env = Some a -> shipped a) ->
  changes own fs fs' -> (forall p, own = Some p -> hidden p) -> (forall p, own = Some p -> temp g <> Some p) ->
  describes env fs g -> describes env fs' g.
Proof.
  intros Hp Hc Hs Hch Ho Hne [H1 H2]. split.
  - intros p d m Hg. destruct (H1 p d m Hg) as (Hh & f & Hf & Hd). split; [done|]. exists f. split; [|done].
    destruct (Hch p) as [->|[E|[[E _]|(a & Ha & Ht & _)]]]; [done| |by rewrite E in Hf|by destruct (hidden_not_target p a)].
    destruct (Hne p E). unfold temp. by rewrite Hg.
  - intros p Hg. destruct (H2 p Hg) as (a & Ea & Ht & Hf). exists a. split; [done|]. split; [done|].
    destruct (Hch p) as [->|[E|[[E _]|(b & Hb & Ht' & ->)]]]; [done|by destruct (hidden_not_target p a Hp (Hs a Ea) (Ho p E) Ht)|by rewrite E in Hf|].
    destruct Ht as [dir E1], Ht' as [dir' E2]. rewrite E1 in E2. injection E2 as _ Eh _.
    unfold complete. by rewrite (Hc a b (Hs a Ea) Hb Eh).
Qed.
Lemma complete_unique a b p : collisionFree -> shipped a -> shipped b -> targetOf sha256hex a p -> targetOf sha256hex b p -> complete a = complete b.
Proof.
  intros Hc Ha Hb [dir E1] [dir' E2]. rewrite E1 in E2. injection E2 as _ Eh _. unfold complete. by rewrite (Hc a b Ha Hb Eh).
Qed.
Lemma targets_kept own fs fs' :
  plainNames -> collisionFree -> changes own fs fs' -> (forall p, own = Some p -> hidden p) -> targetsComplete fs -> targetsComplete fs'.
Proof.
  intros Hp Hc Hch Ho H a p f Ha Ht Hf. destruct (Hch p) as [E|[E|[[_ E]|(b & Hb & Ht' & E)]]].
  - rewrite E in Hf. by eapply H.
  - destruct (hidden_not_target p a Hp Ha (Ho p E) Ht).
  - destruct (hidden_not_target p a Hp Ha E Ht).
  - rewrite E in Hf. injection Hf as <-. by eapply complete_unique.
Qed.
(** A change of the own temporary file. *)
Lemma changes_own p f fs : changes (Some p) fs (<[p := f]> fs).
Proof. intros q. destruct (decide (q = p)) as [->|]; [by right; left|]. left. by rewrite lookup_insert_ne. Qed.
Lemma changes_none own fs : changes own fs fs.
Proof. intros q. by left. Qed.
Lemma changes_delete p fs : changes (Some p) fs (delete p fs).
Proof. intros q. destruct (decide (q = p)) as [->|]; [by right; left|]. left. by rewrite lookup_delete_ne. Qed.
Lemma describes_temp env fs fs' g p d m :
  plainNames -> collisionFree -> (forall a, e_embedded env = Some a -> shipped a) -> describes env fs g -> changes (Some p) fs fs' ->
  tempIs fs' p d m -> describes env fs' (withTemp (Some (p, d, m)) g).
Proof.
  intros Hp Hc Hs D Hch Ht. split; [by intros ? ? ? [= <- <- <-]|].
  destruct (describes_others env fs fs' (Some p) (withTemp None g) Hp Hc Hs Hch) as [_ H2]; [by intros ? [= <-]; apply Ht|done|by split; [|apply D]|].
  exact H2.
Qed.
Lemma describes_no_temp env fs fs' g own :
  plainNames -> collisionFree -> (forall a, e_embedded env = Some a -> shipped a) -> describes env fs g -> changes own fs fs' ->
  (forall p, own = Some p -> hidden p) -> describes env fs' (withTemp None g).
Proof.
  intros Hp Hc Hs D Hch Ho. apply (describes_others env fs fs' own); [done..|]. split; [done|]. apply D.
Qed.

(** A call that leaves the files alone. *)
Lemma quiet {A} env fs fs' (K : A -> ghost -> Prop) r g :
  fs' = fs -> describes env fs g -> K r g ->
  exists g', K r g' /\ describes env fs' g' /\ changes (temp g) fs fs' /\ (forall p, temp g' = Some p -> temp g = Some p \/ fs !! p = None).
Proof. intros -> D H. exists g. split; [done|]. split; [done|]. split; [apply changes_none|]. by left. Qed.
(** A call that changes the temporary file of the process. *)
Lemma rewrites {A} env fs f (K : A -> ghost -> Prop) r g p d m d' m' :
  plainNames -> collisionFree -> (forall a, e_embedded env = Some a -> shipped a) -> describes env fs g ->
  g_temp g = Some (p, d, m) -> (forall x, d' = Some x -> f_data f = x) -> (forall x, m' = Some x -> f_mode f = x) ->
  K r (withTemp (Some (p, d', m')) g) ->
  exists g', K r g' /\ describes env (<[p := f]> fs) g' /\ changes (temp g) fs (<[p := f]> fs) /\
    (forall p, temp g' = Some p -> temp g = Some p \/ fs !! p = None).
Proof.
  intros Hp Hc Hs D Hg Hd Hm HK. destruct (proj1 D p d m Hg) as [Hh _].
  assert (temp g = Some p) as -> by (unfold temp; by rewrite Hg). exists (withTemp (Some (p, d', m')) g).
  split; [done|]. split; [|by split; [apply changes_own|left]].
  eapply describes_temp; [done..|apply changes_own|]. split; [done|]. exists f. by rewrite lookup_insert_eq.
Qed.
Lemma call_runs env c g (K : answer c -> ghost -> Prop) fs r fs' :
  plainNames -> collisionFree -> (forall a, e_embedded env = Some a -> shipped a) ->
  targetsComplete fs -> describes env fs g -> pre env c g K -> answers env c fs r fs' ->
  exists g', K r g' /\ describes env fs' g' /\ changes (temp g) fs fs' /\ (forall p, temp g' = Some p -> temp g = Some p \/ fs !! p = None).
Proof.
  intros Hp Hc Hs T D HK HA. destruct c as [v| |p|p mode|dir prefix|p data|p mode|p|from to|p|p|p|p|h|]; cbn in r, HK, HA.
  - destruct HA as [-> ->]. by apply quiet.
  - destruct HA as [-> ->]. apply quiet; [done|done|]. apply HK. destruct (e_userCache env); [done|]. intros e [= <-] ? [= <-]. by eexists.
  - destruct HA as [-> HA]. destruct HK as (H1 & H2 & H3). destruct r as [| |e]; [|by apply quiet|by apply quiet; [..|apply H3]].
    destruct H1 as [H1|[(a & Ea & Ht) H1]]; [by apply quiet|]. destruct HA as [f Hf]. exists (withSeen p g). split; [done|].
    split; [|by split; [apply changes_none|left]]. split; [apply D|]. intros ? [= <-]. exists a. split; [done|]. split; [done|].
    by rewrite <- (T a p f (Hs a Ea) Ht Hf).
  - destruct HA as [-> HA]. apply quiet; [done|done|]. by apply HK.
  - destruct HK as (Hg & [s ->] & H1 & H2). destruct r as [p|e]; [|destruct HA as [-> HA]; by apply quiet; [..|apply H2]].
    destruct HA as (suffix & -> & Hn & ->). set (p := (dir.1, (("." +:+ s) +:+ suffix) :: dir.2)) in *.
    assert (hidden p) as Hh by by exists (s +:+ suffix), dir.2.
    exists (withTemp (Some (p, None, None)) g). split; [by apply H1|]. split; [|split].
    + assert (changes (Some p) fs (<[p := mkFile EmptyString tempFileMode]> fs)) as Hch by apply changes_own.
      eapply describes_temp; [done..| |]; [done|]. split; [done|]. exists (mkFile EmptyString tempFileMode). by rewrite lookup_insert_eq.
    + intros q. destruct (decide (q = p)) as [->|]; [by right; right; left|]. left. by rewrite lookup_insert_ne.
    + intros q [= <-]. by right.
  - destruct HK as (d & m & Hg & H1 & H2). destruct (proj1 D p d m Hg) as (Hh & f & Hf & Hd & Hm). destruct r as [e|].
    + destruct HA as [He [->|(f' & part & rest & Hf' & Ed & ->)]].
      * exists (withTemp (Some (p, None, m)) g). split; [by apply H2|].
        assert (temp g = Some p) as -> by (unfold temp; by rewrite Hg). split; [|by split; [apply changes_none|left]].
        eapply describes_temp; [done..|apply changes_none|]. split; [done|]. exists f. by split.
      * rewrite Hf in Hf'. injection Hf' as <-. apply (rewrites env fs (mkFile part (f_mode f)) K (Some e) g p d m None m); [done..|exact Hm|by apply H2].
    + destruct HA as (f' & Hf' & ->). rewrite Hf in Hf'. injection Hf' as <-.
      apply (rewrites env fs (mkFile data (f_mode f)) K None g p d m (Some data) m); [done..|by intros ? [= <-]|exact Hm|done].
  - destruct HK as (d & m & Hg & H1 & H2). destruct (proj1 D p d m Hg) as (Hh & f & Hf & Hd & Hm). destruct r as [e|].
    + destruct HA as [-> HA]. apply quiet; [done|done|]. by apply H2.
    + destruct HA as (f' & Hf' & ->). rewrite Hf in Hf'. injection Hf' as <-.
      apply (rewrites env fs (mkFile (f_data f) mode) K None g p d m d (Some mode)); [done..|exact Hd|by intros ? [= <-]|done].
  - destruct HA as [-> HA]. apply quiet; [done|done|]. by apply HK.
  - destruct HK as (a & Ea & Ht & Hg & H1 & H2). destruct (proj1 D _ _ _ Hg) as (Hh & f & Hf & Hd & Hm). destruct r as [e|].
    + destruct HA as [-> HA]. apply quiet; [done|done|]. by apply H2.
    + destruct HA as (f' & Hf' & ->). rewrite Hf in Hf'. injection Hf' as <-.
      assert (f = complete a) as -> by (destruct f; unfold complete; f_equal; [by apply Hd|by apply Hm]).
      exists (mkGhost None (Some to)). split; [done|]. split; [split; [done|]|split; [|done]].
      * intros ? [= <-]. exists a. by rewrite lookup_insert_eq.
      * intros q. unfold temp. rewrite Hg. destruct (decide (q = to)) as [->|].
        { right; right; right. exists a. split; [by apply Hs|]. by rewrite lookup_insert_eq. }
        rewrite lookup_insert_ne by done. destruct (decide (q = from)) as [->|]; [by right; left|]. left. by rewrite lookup_delete_ne.
  - destruct HK as (d & m & Hg & H1). destruct (proj1 D p d m Hg) as [Hh _]. exists (withTemp None g). split; [by destruct r|].
    assert (temp g = Some p) as -> by (unfold temp; by rewrite Hg).
    assert (changes (Some p) fs fs') as Hch by (destruct HA as [->| ->]; [apply changes_none|apply changes_delete]).
    split; [|done]. eapply describes_no_temp; [done..|exact Hch|by intros ? [= <-]].
  - destruct HA as [-> HA]. apply quiet; [done|done|]. apply HK. by destruct r.
  - destruct HA as [-> HA]. apply quiet; [done|done|]. apply HK. intros e ->. done.
  - apply quiet; [done|done|]. apply HK.
  - apply quiet; [done|done|]. apply HK.
  - apply quiet; [done|done|]. apply HK.
Qed.

Definition update (i : nat) (g : ghost) (gs : nat -> ghost) (j : nat) : ghost := if decide (j = i) then g else gs j.
Lemma update_at i g gs : update i g gs i = g.
Proof. unfold update. by rewrite decide_True. Qed.
Lemma update_other i j g gs : j <> i -> update i g gs j = gs j.
Proof. intros H. unfold update. by rewrite decide_False. Qed.
(** One process moves on, the others only see the files change. *)
Lemma acts s gs i env rest rest' fs' g' :
  plainNames -> collisionFree -> inv s gs -> s_processes s !! i = Some (mkProcess env rest) ->
  safe env (ended env) rest' g' -> describes env fs' g' -> changes (temp (gs i)) (s_files s) fs' ->
  (forall p, temp g' = Some p -> temp (gs i) = Some p \/ s_files s !! p = None) ->
  inv (mkSystem fs' (<[i := mkProcess env rest']> (s_processes s))) (update i g' gs).
Proof.
  intros Hp Hc [IT IP IA] Hi HS HD Hch Hn. destruct (IP i _ Hi) as (Hs & D & _). cbn in Hs, D.
  assert (forall p, temp (gs i) = Some p -> hidden p) as Ho.
  { intros p. unfold temp. destruct (g_temp (gs i)) as [[[q d] m]|] eqn:E; [|done]. intros [= <-]. by destruct (proj1 D q d m E). }
  assert (forall j prj p, j <> i -> s_processes s !! j = Some prj -> temp (gs j) = Some p -> temp g' = Some p -> False) as Hapart.
  { intros j prj p Hj Ej Hpj Hp'. destruct (Hn p Hp') as [Ht|Ht]; [by apply Hj, (IA j i prj (mkProcess env rest) p)|].
    destruct (IP j _ Ej) as (_ & [Dj _] & _). unfold temp in Hpj. destruct (g_temp (gs j)) as [[[q d] m]|] eqn:E; [|done].
    injection Hpj as ->. destruct (Dj p d m eq_refl) as (_ & f & Hf & _). by rewrite Ht in Hf. }
  split; cbn.
  - by eapply targets_kept.
  - intros j prj. rewrite lookup_insert. case_decide as E; [subst; intros [= <-]; by rewrite update_at|].
    intros Ej. rewrite update_other by done. destruct (IP j _ Ej) as (Hsj & Dj & Sj). split; [done|]. split; [|done].
    eapply describes_others; [done..|exact Hch|done| |done]. intros p Hpi Hpj. apply E. by eapply (IA i j).
  - intros j k prj prk p. rewrite !lookup_insert. repeat case_decide; subst; [done|..].
    + intros _ Ek. rewrite update_at, update_other by done. intros H1 H2. by destruct (Hapart k prk p).
    + intros Ej _. rewrite update_at, update_other by done. intros H1 H2. by destruct (Hapart j prj p).
    + rewrite !update_other by done. apply IA.
Qed.
Lemma starts s gs i env :
  plainNames -> inv s gs -> s_processes s !! i = None -> (forall a, e_embedded env = Some a -> shipped a) ->
  inv (mkSystem (s_files s) (<[i := started sha256hex env]> (s_processes s))) (update i (mkGhost None None) gs).
Proof.
  intros Hp [IT IP IA] Hi Hs. split; cbn; [done|..].
  - intros j prj. rewrite lookup_insert. case_decide as E; [subst; intros [= <-]; rewrite update_at|rewrite update_other by done; apply IP].
    cbn. split; [done|]. split; [by split|]. by apply safe_start.
  - intros j k prj prk p. rewrite !lookup_insert. repeat case_decide; subst; [done|by rewrite update_at|by rewrite (update_at k)|].
    rewrite !update_other by done. apply IA.
Qed.
Lemma inv_step s s' gs :
  plainNames -> collisionFree -> inv s gs -> step sha256hex shipped s s' -> exists gs', inv s' gs'.
Proof.
  intros Hp Hc HI HS. destruct HS as [s i env Hi Hs|s i env c k r fs' Hi HA|s i env p data k fs' Hi HP|s i].
  - eexists. by apply starts.
  - destruct (inv_process _ _ HI i _ Hi) as (Hs & D & S). cbn in Hs, D, S.
    destruct (call_runs env c (gs i) _ (s_files s) r fs' Hp Hc Hs (inv_targets _ _ HI) D S HA) as (g' & H1 & H2 & H3 & H4).
    eexists. by eapply acts.
  - destruct (inv_process _ _ HI i _ Hi) as (Hs & D & S). cbn in Hs, D, S. destruct S as (d & m & Hg & H1 & H2).
    destruct HP as (f & part & rest & Hf & Ed & ->). destruct (proj1 D p d m Hg) as (Hh & f' & Hf' & _ & Hm).
    rewrite Hf in Hf'. injection Hf' as <-. assert (temp (gs i) = Some p) as Ht by (unfold temp; by rewrite Hg).
    rewrite <- (insert_id (s_processes s) i _ Hi). eexists.
    eapply (acts s gs i env _ _ _ (withTemp (Some (p, None, m)) (gs i))); [done..| | | |].
    + cbn. exists None, m. by split.
    + eapply describes_temp; [done..|apply changes_own|]. split; [done|]. exists (mkFile part (f_mode f)). by rewrite lookup_insert_eq.
    + rewrite Ht. apply changes_own.
    + intros q [= <-]. by left.
  - exists gs. destruct HI as [IT IP IA]. split; cbn; [done|..].
    + intros j prj [_ Hj]%lookup_delete_Some. by apply IP.
    + intros j k prj prk p [_ Hj]%lookup_delete_Some [_ Hk]%lookup_delete_Some. by eapply IA.
Qed.
Lemma inv_reachable fs s :
  plainNames -> collisionFree -> targetsComplete fs -> rtc (step sha256hex shipped) (mkSystem fs ∅) s -> exists gs, inv s gs.
Proof.
  intros Hp Hc HT H. assert (exists gs, inv (mkSystem fs ∅) gs) as H0.
  { exists (fun _ => mkGhost None None). split; cbn; [done|..]; by intros *; rewrite lookup_empty. }
  revert H0. induction H as [s|s s1 s2 HS _ IH]; [done|]. intros [gs HI]. apply IH. by eapply inv_step.
Qed.
(** What a process may load: the file its user named, or its artifact, whole and executable. *)
Definition loadable (env : environment) (fs : FS) (p : path) : Prop :=
  forced env p \/ exists a, e_embedded env = Some a /\ targetOf sha256hex a p /\ fs !! p = Some (complete a).
Lemma allowed_loadable env fs p g : describes env fs g -> allowed env p g -> loadable env fs p.
Proof. intros [_ D] [H|H]; [by left|right]. by apply D. Qed.

(** C5: However many processes fill the cache at once, whichever system calls fail, whatever part
    of a write another process sees, and whoever is killed at whatever moment: a target of
    the cache is the whole artifact with the mode of an executable as soon as it exists; a
    process that is about to load a library, or that has loaded one, loads the file its
    user named or the whole artifact it was built with; and a panic names a reason that its
    cause carries, or a stage after the search. *)
Theorem loaded_library_is_whole fs s :
  plainNames -> collisionFree -> targetsComplete fs -> rtc (step sha256hex shipped) (mkSystem fs ∅) s ->
  targetsComplete (s_files s) /\
  forall i env rest, s_processes s !! i = Some (mkProcess env rest) ->
    match rest with
    | Do (Dlopen p) _ | Done (inl (p, _)) => loadable env (s_files s) p
    | Done (inr e) => reasonOk e
    | _ => True
    end.
Proof.
  intros Hp Hc HT H. destruct (inv_reachable fs s Hp Hc HT H) as [gs HI]. split; [apply HI|]. intros i env rest Hi.
  destruct (inv_process _ _ HI i _ Hi) as (_ & D & S). cbn in D, S. destruct rest as [[[p h]|e]|c k].
  - eapply allowed_loadable; [exact D|apply S].
  - apply S.
  - destruct c; try done. eapply allowed_loadable; [exact D|apply S].
Qed.
End Facts.

(** ** A first start with nothing in the cache *)

Definition demoHash (s : string) : string := "cafe" +:+ s.
Definition demoArtifact : artifact := mkArtifact "libopenpit_ffi.so" (String (ascii_of_nat 127) "ELF and more") "linux-amd64".
Definition demoShipped (a : artifact) : Prop := a = demoArtifact.
Definition demoEnv (cache : string) : environment :=
  mkEnvironment (fun v => if bool_decide (v = envRuntimeCache) then cache else EmptyString) (inl (Clean "/home/user/.cache")) (Some demoArtifact).
Definition demoTarget : path := Join (Clean "/home/user/.cache") ["pit-go"; SDKVersion; "linux-amd64"; demoHash (a_data demoArtifact); a_name demoArtifact].
Definition demoRun (cache : string) (n : nat) (fs : FS) : option (prog ((path * Z) + RuntimeLoadError) * FS) :=
  runSmooth (demoEnv cache) 7 SDKVersion n (start demoHash (Some demoArtifact) (platform (demoEnv cache))) fs.
Definition toDlopen {A} (r : option (prog A * FS)) : option path := match r with Some (Do (Dlopen p) _, _) => Some p | _ => None end.
Lemma toDlopen_inv {A} (r : option (prog A * FS)) p : toDlopen r = Some p -> exists k fs, r = Some (Do (Dlopen p) k, fs).
Proof. destruct r as [[[a|[] k] fs]|]; try done. cbn. intros [= ->]. by eexists _, _. Qed.
Lemma cold_run : exists k fs, demoRun EmptyString 13 ∅ = Some (Do (Dlopen demoTarget) k, fs).
Proof. apply toDlopen_inv. by vm_compute. Qed.
Definition warmFiles : FS := <[demoTarget := complete demoArtifact]> ∅.
Definition outcome (r : option (prog ((path * Z) + RuntimeLoadError) * FS)) : option (path + string) :=
  match r with Some (Done (inl (p, _)), _) => Some (inl p) | Some (Done (inr e), _) => Some (inr (le_Reason e)) | _ => None end.
Definition filesAfter (r : option (prog ((path * Z) + RuntimeLoadError) * FS)) : list (path * File) :=
  match r with Some (_, fs) => map_to_list fs | None => [] end.
(** The first start fills the cache with the artifact alone, and the second finds it: ten
    calls instead of sixteen. *)
Lemma cold_then_warm :
  outcome (demoRun EmptyString 16 ∅) = Some (inl demoTarget) /\
  filesAfter (demoRun EmptyString 16 ∅) = [(demoTarget, complete demoArtifact)] /\
  outcome (demoRun EmptyString 10 warmFiles) = Some (inl demoTarget) /\
  filesAfter (demoRun EmptyString 10 warmFiles) = [(demoTarget, complete demoArtifact)].
Proof. split_and!; vm_compute; reflexivity. Qed.
(** The working directory cannot be the cache: its name leaves no slash before the version. *)
Lemma dot_is_refused : outcome (demoRun "." 3 ∅) = Some (inr ReasonCacheResolveFailed).
Proof. vm_compute. reflexivity. Qed.
Lemma relative_is_accepted :
  outcome (demoRun "cache" 16 ∅) = Some (inl (Join (Clean "cache") [SDKVersion; "linux-amd64"; demoHash (a_data demoArtifact); a_name demoArtifact])).
Proof. vm_compute. reflexivity. Qed.
Lemma loaded_library_is_whole_witness :
  exists k fs, demoRun EmptyString 13 ∅ = Some (Do (Dlopen demoTarget) k, fs) /\ loadable demoHash (demoEnv EmptyString) fs demoTarget.
Proof.
  destruct cold_run as (k & fs & E). exists k, fs. split; [exact E|]. pose (env := demoEnv EmptyString).
  pose (procs := <[0 := started demoHash env]> (∅ : gmap nat process)). pose (rest := Do (Dlopen demoTarget) k : prog ((path * Z) + RuntimeLoadError)).
  assert (procs !! 0 = Some (started demoHash env)) as H0 by reflexivity.
  pose proof (runSmooth_steps demoHash demoShipped env 7 SDKVersion 13 (start demoHash (Some demoArtifact) (platform env)) ∅ rest fs procs 0 E H0) as R.
  assert (step demoHash demoShipped (mkSystem ∅ ∅) (mkSystem ∅ procs)) as S0 by by apply (StepStart _ _ (mkSystem ∅ ∅)); [|intros a [= <-]].
  refine (proj2 (loaded_library_is_whole demoHash demoShipped ∅ _ _ _ _ (rtc_l _ _ _ _ S0 R)) 0 env rest (lookup_insert_eq _ _ _)).
  - intros a ->. by split; (split; [|intros t]).
  - by intros a b -> ->.
  - intros a p f _ _. by rewrite lookup_empty.
Defined.
