(* ===== verification/BuilderVariants.v ===== *)
(** * The variants of the engine builder, and the life of an asynchronous engine

    The stages of engine_builder.go and client_engine_builder.go that wrap the plain
    builder of [EngineBuilder]. [AccountSyncReadyEngineBuilder] embeds a pointer to a ready
    builder, so its methods are that builder's. [asyncLife] is the whole way of an
    account-synced engine: policies are registered, [BuildAsync] wraps the engine, the
    asynchronous builder makes its strategy ([AsyncBuilder]), and the stops of the
    asynchronous engine ([Engine]) release what was built. *)
From Stdlib Require Import ZArith Lia.
From stdpp Require Import base list gmap strings.
From S2P Require Import Prelude GoRuntime CgoHandles CustomPolicy CallbackFacts CallbackLives PolicyAdapter ClientEngine EngineBuilder BuilderFacts.
From S2P Require AsyncBuilder Engine MarketData.

(** ** Stages without native state *)

(** [AccountSyncedEngineBuilder] embeds a [SyncedEngineBuilder]. *)
Record AccountSyncedEngineBuilder := mkAccountSynced { embedded : SyncedEngineBuilder }.
Definition NewAccountSynced : AccountSyncedEngineBuilder := mkAccountSynced AccountSync.
Definition SyncedMarketData (b : SyncedEngineBuilder) (defaultTTL : MarketData.QuoteTTL) : MarketData.ReadyBuilder :=
  let result := MarketData.NewServiceBuilder defaultTTL in
  if (syncPolicy b =? SyncPolicyNone)%Z then MarketData.BuilderNoSync result else MarketData.BuilderFullSync result.

Definition NewClientPreTradeEngineBuilder := NewClientEngineBuilder.
Definition NewClientAccountAdjustmentEngineBuilder := NewClientEngineBuilder.
Record ClientSyncedEngineBuilder := mkClientSynced { synced : SyncedEngineBuilder; syncedOptions : clientEngineOptions }.
Definition ClientFullSync (b : clientEngineOptions) : ClientSyncedEngineBuilder := mkClientSynced FullSync b.
Definition ClientNoSync (b : clientEngineOptions) : ClientSyncedEngineBuilder := mkClientSynced NoSync b.
Definition ClientAccountSync (b : clientEngineOptions) : ClientSyncedEngineBuilder :=
  let acc := NewAccountSynced in mkClientSynced (embedded acc) b.

Section Variants.
Context {D U PostTrade BatchError BatchOk : Type}.
Context `{!Program D U, !NativeEngine D U PostTrade BatchError BatchOk, !NativeBuilder D U}.
Abbreviation St := (GoState D U).
Abbreviation G := (M St).
Abbreviation B := (M (St * ReadyEngineBuilder)).

(** ** Account-synced builders *)

Definition AccountSyncedPreTrade (b : AccountSyncedEngineBuilder) (policies : list policyRef) : G ReadyEngineBuilder :=
  SyncedPreTrade (embedded b) policies.
Definition AccountSyncedBuiltin (b : AccountSyncedEngineBuilder) (builtin : nat) : G ReadyEngineBuilder :=
  SyncedBuiltin (embedded b) builtin.
Definition AccountReadyPreTrade (policies : list policyRef) : B unit := BuilderPreTrade policies.
Definition AccountReadyBuiltin (builtin : nat) : B unit := Builtin builtin.
(** The driver and the function value [engine.Stop] are one engine object. *)
Abbreviation AsyncBuilder_t := (AsyncBuilder.Builder (Driver := SyncEngine.Engine) (Stop := SyncEngine.Engine)).
Definition BuildAsync : B (AsyncBuilder_t + builderError) :=
  let* r := Build in
  match r with
  | inr err => ret (inr err)
  | inl engine => ret (inl (AsyncBuilder.WithStopUnderlying (Some engine) (AsyncBuilder.NewBuilder engine)))
  end.

(** ** Client builders *)

Definition newReady (b : ClientSyncedEngineBuilder) : G ReadyEngineBuilder := newReadyEngineBuilder (synced b).
Definition ClientReadyClose : B unit := BuilderClose.
Definition ClientReadyBuiltin (builtin : nat) : B unit := Builtin builtin.
(** A client engine is the engine it wraps, as in [ClientEngine]. *)
Definition ClientReadyBuild : B (SyncEngine.Engine + builderError) :=
  let* r := Build in
  match r with inr err => ret (inr err) | inl engine => ret (inl engine) end.

(** ** The life of an asynchronous engine *)

Inductive lifeEnd :=
| NotBuilt (err : builderError)
| BadOptions (err : error)
| Stopped (s : Engine.stopper) (underlying : SyncEngine.Engine).
(** The stops of an asynchronous engine; [errs] are the answers of its strategy. *)
Fixpoint stopAll (errs : list (option error)) (s : Engine.stopper) (stop : SyncEngine.Engine) : G lifeEnd :=
  match errs with
  | [] => ret (Stopped s stop)
  | err :: errs =>
    let s' := snd (Engine.stopWith err s) in
    if Engine.released s' =? Engine.released s then stopAll errs s' stop
    else let* stop' := SyncEngine.Stop stop in stopAll errs s' stop'
  end.
Definition asyncLife (policies : list policyRef) (workers : Z) (errs : list (option error)) : G lifeEnd :=
  let* rb := AccountSyncedPreTrade NewAccountSynced policies in
  let* r := (fun s => let (o, st) := BuildAsync (s, rb) in (o, fst st)) in
  match r with
  | inr err => ret (NotBuilt err)
  | inl b =>
    match AsyncBuilder.ShardedBuild (AsyncBuilder.Sharded workers b) with
    | inr err => ret (BadOptions err)
    | inl ae =>
      match AsyncBuilder.ae_stopUnderlying ae with
      | Some stop => stopAll errs {| Engine.stopUnderlying := true; Engine.stopOnce := false; Engine.released := 0 |} stop
      | None => stopAll errs {| Engine.stopUnderlying := false; Engine.stopOnce := false; Engine.released := 0 |} (AsyncBuilder.ae_driver ae)
      end
    end
  end.

Context (closes : U -> list policyRef) (owned : U -> owners).
Abbreviation closesOf := (fun s : St => closes (outside s)).
Abbreviation ownersOf := (fun s : St => owned (outside s)).
Context (builder_is_documented : documentedBuilder closes owned).
Context (policies_are_plain : plainPolicies closes owned).
Context (program_leaves : programPreserves (leaves closes)).

(** Once the stops are over: whether the engine is still there. *)
Lemma stopAll_session errs : forall st s0 given s b e,
  Engine.stopUnderlying st = true -> inSession closes owned s0 given s b [e] -> (Engine.stopOnce st = true -> SyncEngine.handle e = None) ->
  exists st' e' s', stopAll errs st e s = (Ret (Stopped st' e'), s') /\ inSession closes owned s0 given s' b [e'] /\
    ((Engine.stopOnce st || existsb (fun err => bool_decide (err = None)) errs) = true -> SyncEngine.handle e' = None).
Proof.
  induction errs as [|err errs IH]; intros st s0 given s b e Hw I Ho; cbn [stopAll existsb].
  - exists st, e, s. rewrite orb_false_r. by split.
  - destruct err as [err|]; cbn [Engine.stopWith snd].
    { rewrite Nat.eqb_refl. rewrite bool_decide_false by done. by apply IH. }
    rewrite bool_decide_true by done. rewrite orb_true_r. unfold Engine.releaseUnderlying.
    destruct (Engine.stopOnce st) eqn:Eo.
    + rewrite Nat.eqb_refl. destruct (IH st s0 given s b e Hw I) as (st' & e' & s' & E & I' & H'); [by rewrite Eo|].
      exists st', e', s'. split; [done|]. split; [done|]. intros _. apply H'. by rewrite Eo.
    + rewrite Hw. cbn [Engine.released]. destruct (Nat.eqb_spec (Engine.released st + 1) (Engine.released st)); [lia|].
      destruct (Stop_session closes owned builder_is_documented policies_are_plain program_leaves s0 given s b [e] 0 e I eq_refl) as (s1 & E1 & I1).
      rewrite (bind_Ret _ _ _ _ _ E1).
      edestruct (IH (snd (Engine.stopWith None st))) as (st' & e' & s' & E & I' & H'); [|exact I1|done|].
      { cbn. unfold Engine.releaseUnderlying. by rewrite Eo. }
      cbn in E, H'. unfold Engine.releaseUnderlying in E, H'. rewrite Eo, Hw in E, H'.
      exists st', e', s'. split; [exact E|]. split; [done|]. intros _. by apply H'.
Qed.

(** C24: The life of an asynchronous engine, through four components: whatever the native
    library refuses on the way, nothing panics; if the engine could not be built, or as soon as one of any number of stops of
    the asynchronous engine succeeded, every policy handed over was closed exactly
    once and the library keeps nothing of what was made; until then each is closed already or
    registered with the engine. Only options that the asynchronous builder refuses leave
    the engine to whoever holds that builder. *)
Theorem async_engine_closes_its_policies_once policies workers errs (s0 : St) :
  wellHeld owned s0 ->
  exists r s, asyncLife policies workers errs s0 = (Ret r, s) /\
    closesOf s ++ held owned s ≡ₚ closesOf s0 ++ held owned s0 ++ policies /\
    (match r with
     | NotBuilt _ => True
     | BadOptions _ => False
     | Stopped _ _ => existsb (fun err => bool_decide (err = None)) errs = true
     end -> closesOf s ≡ₚ closesOf s0 ++ policies /\ held owned s = held owned s0 /\ ownersOf s = ownersOf s0) /\
    (forall err, r = BadOptions err -> (workers <= 0)%Z).
Proof.
  intros W. unfold asyncLife.
  destruct (newReady_session closes owned builder_is_documented policies_are_plain program_leaves AccountSync s0 W) as (b0 & s1 & E0 & I0).
  destruct (BuilderPreTrade_session closes owned builder_is_documented policies_are_plain program_leaves s0 policies [] s1 b0 [] I0) as (s2 & b1 & E1 & I1).
  destruct (Build_session closes owned builder_is_documented policies_are_plain program_leaves s0 _ s2 b1 [] I1) as (r & s3 & b2 & E2 & Eu & Eh & I2).
  assert (AccountSyncedPreTrade NewAccountSynced policies s0 = (Ret b1, s2)) as E.
  { unfold AccountSyncedPreTrade, SyncedPreTrade, onNew. cbn [embedded NewAccountSynced]. rewrite (bind_Ret _ _ _ _ _ E0), E1. done. }
  rewrite (bind_Ret _ _ _ _ _ E). unfold BuildAsync. unfold bind at 1. unfold bind at 1. rewrite E2. cbn [app] in I1, I2.
  assert (forall s es, inSession closes owned s0 policies s b2 es -> closesOf s ++ held owned s ≡ₚ closesOf s0 ++ held owned s0 ++ policies) as HL.
  { intros s es [_ L _ _ _]. by rewrite Eu, app_nil_r in L. }
  destruct r as [e|err]; cbn [app] in I2.
  - cbn. destruct (AsyncBuilder.ShardedBuild _) as [ae|err] eqn:Ea; unfold AsyncBuilder.ShardedBuild in Ea; cbn in Ea;
      destruct (Z.leb_spec workers 0); try done.
    + injection Ea as <-. cbn [AsyncBuilder.newAsyncEngine AsyncBuilder.ae_stopUnderlying].
      destruct (stopAll_session errs {| Engine.stopUnderlying := true; Engine.stopOnce := false; Engine.released := 0 |} s0 policies s3 b2 e)
        as (st & e' & s & Es & I3 & H3); [done..|].
      exists (Stopped st e'), s. split; [exact Es|]. split; [by eapply HL|]. split; [|done]. intros Hs.
      eapply (session_over closes owned); [exact I3|done|done|]. constructor; [by apply H3|done].
    + eexists _, s3. split; [reflexivity|]. split; [by eapply HL|]. split; [done|]. by intros ? _.
  - cbn. eexists _, s3. split; [reflexivity|]. split; [by eapply HL|]. split; [|done]. intros _. by eapply (session_over closes owned).
Qed.
End Variants.

(** The strategy refuses the first stop, the second releases the engine, the third finds
    nothing to do; the library closes both policies with the engine. *)
#[local] Existing Instances demoClosingProgram demoNativeEngine demoNativeBuilder.
Lemma async_engine_closes_its_policies_once_witness :
  let errs := [Some (EOther 1); None; None] in
  exists r s, asyncLife [1; 2] 4 errs demoStart = (Ret r, s) /\ fst (outside s) ≡ₚ [1; 2] /\
    match r with Stopped st e => Engine.released st = 1 /\ e = SyncEngine.mkEngine None | _ => False end.
Proof.
  intros errs. destruct (async_engine_closes_its_policies_once fst snd demo_documentedBuilder demo_plainPolicies
    demoClosing_leaves [1; 2] 4 errs demoStart demoStart_held) as (r & s & E & _ & H & Hb).
  exists r, s. split; [exact E|]. apply (f_equal fst) in E. vm_compute in E. injection E as <-.
  split; [|by split]. by destruct H as [H _].
Defined.
